(* ===== verification/_CoqProject ===== *)
-Q . S2P
Prelude.v
Text.v
Utf.v
Canonical.v
JsDate.v
JsValue.v
Contracts.v
Database.v
Concrete.v
JsMap.v
Frames.v
ClientLedger.v
RoomSocket.v
Authorization.v
Connection.v
Hub.v
Delivery.v
Echo.v
Trace.v
Projections.v
Ledger.v
Lifecycle.v
Jobs.v
Assertion.v
AutoClose.v
Attachments.v
Messages.v
SeatCodes.v
Sessions.v
Rooms.v
Seats.v
AgentStatus.v
SessionClient.v
Hydrated.v
HydratedLaws.v
HydratedSteps.v
HydratedEnd.v
HydratedRoom.v
JsNumber.v
Exports.v
Http.v
Wire.v
Routes.v
ExportFile.v
Gateway.v
Governed.v
Governance.v
GovernanceLaws.v
Coded.v
Deletion.v
Policy.v
PolicyLaws.v
Notices.v
Retention.v
Agents.v
AgentComplete.v
AgentLaws.v
Server.v
Strangers.v
Exchange.v
Recovery.v
