(* ===== verification/Prelude.v ===== *)
(** * Learning Orbit: verification library

    Learning Orbit is a classroom: a teacher opens a room for forty-five minutes, up to
    four students discuss in it, an agent (Nova) takes part, and analytics of the
    discussion are shown. The server ([apps/server]) keeps everything in PostgreSQL and
    talks to the browsers ([apps/web]) over HTTP and one WebSocket per room; the wire
    formats are in [packages/contracts]; a worker process runs background jobs. All paths
    below are under [src/]. This library models the core of the TypeScript program as
    executable functions and proves what makes it correct.

    ** How the program works, and where it is modelled

    The room's ledger is the centre. A command (over HTTP or the socket) is run in one
    transaction that locks the room, decides, and appends an event to [room_event] with an
    outbox row and an analytics job; a publisher hands outbox rows to the hub, the hub to
    the connections, a connection to its browser, whose socket numbers them and whose
    ledger shows the messages.

    Foundations
    - [Prelude] (this file): results, the state-and-exception monad with [preserves],
      [readonly] and [atomic], stable sorting, the first n by a number ([first_by], which
      says what a batch takes without the sort), JavaScript numbers, contiguous sequences.
    - [Text], [Utf], [JsDate], [JsMap]: the parts of the JavaScript library the code uses
      (UUID patterns, decimals, [trim]; UTF-16 and UTF-8; dates and ISO strings; [Map]).
    - [JsValue]: values in a heap with prototypes and descriptors, the defensive copy
      [clonePlainJson] of [room-event-repository.ts], deep equality, JSON trees.
    - [Contracts]: [core-room-event.ts], [event-payload-registry.ts], the envelope and its
      schemas. [Frames]: [realtime.ts], frames and commands, their reader and writer.
    - [Database]: the tables as lists of rows with the constraints the statements can
      violate, the supplies (clock, transaction time, identifiers) and [transactions.ts].
      [Concrete]: one instance of every parameter, with its laws.

    The server's rooms
    - [Ledger]: [room-event-repository.ts]. [transact], [append], [findByCausation],
      [eventsAfter], the four writes of an append.
    - [Lifecycle]: [lifecycle-service.ts]. [open], [pause], [resume], [close],
      [closeIfDue], [cancelRoomJobs].
    - [Messages]: [message-service.ts] and [command-service.ts]; [Attachments]:
      [attachment-validator.ts] (a class with laws) and its two implementations, the second
      of them [media-attachment-validator.ts].
    - [SeatCodes]: [seat-codes.ts]; [Sessions]: [crypto.ts], [session-service.ts],
      [magic-link-service.ts]; [Rooms]: [room-service.ts] and its part of [room.ts];
      [Seats]: the theorems of these three, over the steps that change rooms' codes, seats,
      sessions and links.
    - [Authorization]: [authorize-room-action.ts], [realtime-delivery-authorizer.ts],
      [room-event-http-access.ts].
    - [Jobs]: [job-store.ts], [job-claim-authority.ts] and the two SQL files of the claims;
      [Assertion]: [service-assertion.ts]; [Canonical]: [canonical-json.ts]; [AutoClose]:
      [internal-auto-close-route.ts], where the last three meet the ledger.

    The way to the browser
    - [Connection]: [connection.ts], [backpressure.ts], [ephemeral-signals.ts], the
      handlers cut into tasks at every [await]; [Hub]: [room-hub.ts], [outbox-publisher.ts].
    - [RoomSocket]: [room-socket.ts]; [ClientLedger]: [event-ledger.ts]; [Delivery]: the
      composition of [Connection], [RoomSocket] and the outbox.
    - [Echo], [Trace]: the analytics contracts and [concept-reducer.ts]; [Projections]:
      [projection-sync.ts], [projection-coordinator.ts] and the controllers beside them.

    The browser's session
    - [AgentStatus], [SessionClient]: the merge of what is known of Nova, and the small
      parts (store, command bus, identity, addresses, clocks). [Hydrated]: the class of
      [hydrated-session-state.ts] that puts them together with [RoomSocket],
      [ClientLedger] and [Projections]; its laws in [HydratedLaws], [HydratedSteps],
      [HydratedEnd] and [HydratedRoom].

    Over HTTP
    - [JsNumber]: [Number(text)]; [Http]: answers, errors and their contract; [Wire]: the
      bodies of the rooms' routes; [Routes]: the handlers of [routes.ts],
      [media-routes.ts] and [governance-routes.ts] over a record of services; [Gateway]:
      [session-gateway.ts]; [Server]: the composition of [app.ts].
    - [Strangers], [Exchange], [Recovery]: theorems over browser, network and server.

    Governance, analytics access and the agent
    - [Governed]: the tables of these parts beside those of the rooms, and transactions
      over both. [Governance]: [governance-service.ts]; [Exports], [ExportFile], [Coded]:
      the exported document and its file; [GovernanceLaws], [Deletion]: their theorems.
    - [Policy]: [analytics-policy.ts], [student-analytics-promotion.ts],
      [student-analytics-policy-listener.ts], [security-audit.ts]; [PolicyLaws], [Notices].
    - [Retention]: [retention-scheduler.ts].
    - [Agents]: [agent-repository.ts], [agent-service.ts], [provider-health-repository.ts],
      [agent-run-reconciler.ts]; [AgentComplete]: [internal-agent-complete-route.ts]; laws
      of both in [AgentLaws].

    State is passed explicitly: [IO] is a computation on a [world] (database, supplies,
    locals of the running transaction) that may throw; the connection, the hub, the socket
    and the browser's stores are records with step functions, and what they do to the
    outside is a log; [GV] is a computation on the [governed] tables. Code that is not
    under [src/] is a class parameter with its laws: [Schemas] (the formats of the schema
    validator), [Postgres] (conversions of the driver and the server), [Environment]
    (clocks and identifiers), the cryptography of [Assertion], [Sha1], the keyed digest and
    the random numbers of [SeatCodes], [JsonText] and [JsonParse] (the platform's JSON),
    [Locale] ([localeCompare]), [UrlSearch] (query strings), and in [Http] and [Exports]
    the validators compiled from schemas. Services that are not modelled ([Given] of
    [Server]) are arguments of the server.

    ** What is proved

    - The ledger: every transaction, whatever its work appends, asks, throws and swallows
      ([transactional]), keeps each room numbered from 1 without gaps with one outbox row
      and one job per event, and commits only what no operation has failed in
      ([transact_sound]); a repeated append returns the stored event ([append_idempotent]);
      pages are contiguous ([eventsAfter_contiguous]); a swallowed failure still aborts.
    - The room's life: reachable states are sound, transitions are those of the state
      machine, opening, closing and the automatic close do exactly what they should.
    - Messages: in every reachable state a message is a thread of revisions 1 to n by one
      author that ends with its withdrawal ([messages_reachable_sound]); edits are a
      compare-and-set ([edits_compare_and_set]); media are bound to one message
      ([attachments_bound]).
    - Seats: the codes handed out by a creation admit to their seats
      ([room_admits_its_codes]); a join takes the one seat of its codes and signs out its
      holder ([join_takes_seat]), so a seat never has two ([one_session_per_seat]); a link
      signs in once ([magic_link_single_use]); codes outlive the exchange of peppers
      ([codes_survive_rotation]); a room is shown to its own ([getRoom_access]).
    - Background work: a completed job is never handed out again, earlier holders are
      refused, the signed internal route closes a room exactly once and as of its end; a
      request is admitted exactly if a configured key has signed its one canonical text.
    - A browser's session is at every moment a prefix of its room
      ([hydrated_follows_room]), is brought to the whole of it by a recovery
      ([recovery_catches_up]), and ends for good ([ended_for_good]).
    - Over the network: strangers are turned away by every HTTP route that asks who is
      there, without a trace but for the trail of the analytics
      ([strangers_are_turned_away]); an export whose stored payloads are plain JSON arrives
      as the file the server wrote ([export_arrives]), what is told of a deletion is what happened
      ([deletion_arrives]), and the pages a browser reads are those of the ledger
      ([recovery_reads_the_ledger]).
    - Deletion shuts a room at once and for everybody ([deletion_shuts_room],
      [deleting_room_admits_nobody]); an export is the whole room, field by field
      ([faithful], [export_is_the_room]); closed rooms past their policy are deleted, the
      longest closed first, batch by batch ([overdue], [sweep_drains]).
    - Analytics: the gate decides on the tables as they are and notes it
      ([analytics_gate]); a promotion shows what it names ([grant_shows]); a revocation
      withholds everything ([revocation_withholds]) and reaches the open sockets
      ([revocation_reaches_sockets]).
    - The agent: one run under way per room, ended runs stay ([agent_runs_invariant]); who
      may have a run and when, and that asking again gives the same run
      ([agent_request_sound]); runs that cannot end by themselves ([stranded]) are ended as
      they must, the oldest first ([reconciler_frees_rooms]); it speaks only through a
      signed request of the worker that holds its job, once for each job, and a repeated
      delivery is recorded and changes nothing ([nova_speaks_once]).
    - Delivery: live events wait for the replay, the socket's cursor moves by one, a browser
      that reconnects ends with exactly the ledger ([reconnection_catches_up] composes
      server and browser); commands are kept until answered; frames reach exactly the
      sockets that are still authorized.
    - Concept maps: a timeline the contract accepts is replayed to its head as far as its
      patches fit ([timeline_replays]); projections in the browser belong to its room and
      role ([projections_belong]).
    - Copies and formats: the defensive copy accepts exactly the plain trees within its
      limits; frames and canonical texts round-trip and their parsers terminate.
    - Several theorems record behaviour that is not what was meant: rooms opened under an
      upper-case identifier, replies that cannot be withdrawn in the browser, the answer
      that reveals a room under deletion.

    ** Bounds and fuel

    [CLONE_FUEL] is 34: the copy refuses a depth above 32, so it cannot be exhausted
    ([clonePlainJson_total]). The JSON parser has two units of fuel per code unit and two
    more; [parser_terminates] shows that this is enough. [dec_digits] has one unit per bit.
    The limits of the code (payload depth and size, replay of 500 rows, pending commands,
    lease of two minutes, four media, five mentions, eight room codes) are its constants.
    Sequence numbers and revisions are [Z], with the checks of safe integers and of
    PostgreSQL's [integer] where the code or the column has them. An export has at most
    10,001 rows of events ([EXPORT_ROWS]), of which the last says that there are too many.
    [readPages] of [Recovery] has one unit per page, [pagesNeeded] of them.
    [getOrCreateRunAndJob] tries again once ([RETRIES]), as the code does.

    ** What is simplified or left out

    Transactions run one after the other: the room's advisory and row locks serialise those
    of one room, and interleavings of different rooms are not modelled. After an SQL error
    that the code catches, PostgreSQL aborts the transaction; the model lets the work go on
    and relies on the code's own flag. Times are milliseconds (PostgreSQL has microseconds).
    An operation scheduled after its transaction has settled, callbacks that throw and
    broadcasts that overtake one another have no counterpart. Projection versions are safe
    integers in the browser's stores; [Echo] and [Trace] take values that have passed the
    schemas; [Canonical] and [Assertion] take trees. Telemetry is left out everywhere.

    Not modelled: the React components and pages, which show what the modelled classes
    hold; the process of the server (configuration, listeners, timers, migrations,
    telemetry); the media services, which are calls to an object store and their
    bookkeeping; the analytics repository and the teacher's analytics service, which pass
    SQL results on; the internal routes of the worker other than [AutoClose] and
    [AgentComplete], and the Python worker; signed authority records, fault controls and the registry of rate
    limits; scripts and evidence of releases. What of these the modelled code uses is a
    parameter. Everything that the plan of this library had is modelled. *)
From Stdlib Require Export Ascii String ZArith Lia.
From stdpp Require Export base tactics option gmap strings numbers.
From stdpp Require Export list.

#[global] Set Default Goal Selector "!".
#[global] Open Scope Z_scope.

(** ** Results and the state-and-exception monad *)

Inductive result (E A : Type) : Type :=
| Ok (a : A)
| Err (e : E).
Arguments Ok {E A} a.
Arguments Err {E A} e.

#[global] Instance result_eq_dec {E A} `{EqDecision E, EqDecision A} : EqDecision (result E A).
Proof. solve_decision. Defined.

Lemma Ok_inj {E A} (a b : A) : @Ok E A a = Ok b -> a = b.
Proof. congruence. Qed.
Definition is_ok {E A} (r : result E A) : bool :=
  match r with Ok _ => true | Err _ => false end.

#[global] Instance result_ret E : MRet (result E) := fun A a => Ok a.
#[global] Instance result_bind E : MBind (result E) := fun A B f r =>
  match r with Ok a => f a | Err e => Err e end.

(** A computation that reads and writes a state [S] and may throw an [E]: the
    state written before a [throw] is kept, as in JavaScript; undoing it is what
    a transaction is for. *)
Definition M (S E A : Type) : Type := S -> result E A * S.

#[global] Instance M_ret S E : MRet (M S E) := fun A a s => (Ok a, s).
#[global] Instance M_bind S E : MBind (M S E) := fun A B f m s =>
  match m s with
  | (Ok a, s') => f a s'
  | (Err e, s') => (Err e, s')
  end.

Section Monad.
Context {S E : Type}.

Definition throw {A} (e : E) : M S E A := fun s => (Err e, s).
Definition get_state : M S E S := fun s => (Ok s, s).
Definition gets {A} (f : S -> A) : M S E A := fun s => (Ok (f s), s).
Definition modify (f : S -> S) : M S E unit := fun s => (Ok tt, f s).
Definition lift_result {A} (r : result E A) : M S E A := fun s => (r, s).
(** [try m catch handler]; the state reached by [m] is the handler's. *)
Definition try_catch {A} (m : M S E A) (h : E -> M S E A) : M S E A := fun s =>
  match m s with
  | (Ok a, s') => (Ok a, s')
  | (Err e, s') => h e s'
  end.
(** [if (b) throw e]. *)
Definition throw_if (b : bool) (e : E) : M S E unit := if b then throw e else mret tt.

Lemma bind_ok {A B} (m : M S E A) (f : A -> M S E B) s b s' :
  (m ≫= f) s = (Ok b, s') ->
  exists a s1, m s = (Ok a, s1) /\ f a s1 = (Ok b, s').
Proof. unfold mbind, M_bind. destruct (m s) as [[a|e] s1]; naive_solver. Qed.

Lemma bind_run {A B} (m : M S E A) (f : A -> M S E B) s a s1 :
  m s = (Ok a, s1) -> (m ≫= f) s = f a s1.
Proof. unfold mbind, M_bind. by intros ->. Qed.

Lemma bind_err {A B} (m : M S E A) (f : A -> M S E B) s e s1 :
  m s = (Err e, s1) -> (m ≫= f) s = (Err e, s1).
Proof. unfold mbind, M_bind. by intros ->. Qed.

Lemma throw_if_ok b e s u s' :
  throw_if b e s = (Ok u, s') -> b = false /\ s' = s.
Proof. unfold throw_if, throw, mret, M_ret. destruct b; naive_solver. Qed.

(** [I] holds after [m] whenever it held before, however [m] ends. *)
Definition preserves {A} (I : S -> Prop) (m : M S E A) : Prop :=
  forall s r s', I s -> m s = (r, s') -> I s'.

(** [Q] holds after [m] if [P] held before. *)
Definition leads {A} (P : S -> Prop) (m : M S E A) (Q : S -> Prop) : Prop := forall s r s', P s -> m s = (r, s') -> Q s'.
Lemma leads_bind {A B} (P R Q : S -> Prop) (m : M S E A) (f : A -> M S E B) :
  (forall s, R s -> Q s) -> leads P m R -> (forall a, leads R (f a) Q) -> leads P (m ≫= f) Q.
Proof.
  intros HR Hm Hf s r s' HP. unfold mbind, M_bind. destruct (m s) as [[a|e] s1] eqn:Em; intros Hr.
  - eapply Hf; [|exact Hr]. by eapply Hm.
  - simplify_eq. eapply HR, Hm; done.
Qed.
Lemma leads_weaken {A} (P P' Q Q' : S -> Prop) (m : M S E A) :
  (forall s, P' s -> P s) -> (forall s, Q s -> Q' s) -> leads P m Q -> leads P' m Q'.
Proof. intros HP HQ Hm s r s' H0 Hr. eapply HQ, Hm; [by apply HP|done]. Qed.
Lemma preserves_leads {A} (P Q : S -> Prop) (m : M S E A) : (forall s, P s -> Q s) -> preserves P m -> leads P m Q.
Proof. intros HPQ Hm s r s' HP Hr. eapply HPQ, Hm; done. Qed.
Lemma preserves_ret {A} I (a : A) : preserves I (mret a).
Proof. intros s r s' HI [= <- <-]. done. Qed.
Lemma preserves_throw {A} I e : preserves I (throw (A:=A) e).
Proof. intros s r s' HI [= <- <-]. done. Qed.
Lemma preserves_gets {A} I (f : S -> A) : preserves I (gets f).
Proof. intros s r s' HI [= <- <-]. done. Qed.
Lemma preserves_get_state I : preserves I get_state.
Proof. intros s r s' HI [= <- <-]. done. Qed.
Lemma preserves_lift_result {A} I (x : result E A) : preserves I (lift_result x).
Proof. intros s r s' HI [= <- <-]. done. Qed.
Lemma preserves_throw_if I b e : preserves I (throw_if b e).
Proof. unfold throw_if. destruct b; [apply preserves_throw|apply preserves_ret]. Qed.
Lemma preserves_modify (I : S -> Prop) f : (forall s, I s -> I (f s)) -> preserves I (modify f).
Proof. intros Hf s r s' HI [= <- <-]. by apply Hf. Qed.
Lemma preserves_bind {A B} I (m : M S E A) (f : A -> M S E B) :
  preserves I m -> (forall a, preserves I (f a)) -> preserves I (m ≫= f).
Proof.
  intros Hm Hf s r s' HI. unfold mbind, M_bind.
  destruct (m s) as [[a|e] s1] eqn:Em; intros Hr.
  - eapply Hf; [|exact Hr]. by eapply Hm.
  - simplify_eq. by eapply Hm.
Qed.
Lemma preserves_lift_bind {A B} (I : S -> Prop) (x : result E A) (f : A -> M S E B) :
  (forall a, x = Ok a -> preserves I (f a)) -> preserves I (lift_result x ≫= f).
Proof.
  intros Hf s r s' HI. unfold mbind, M_bind, lift_result. destruct x as [a|e]; [by apply Hf|by intros [= _ <-]].
Qed.
(** What is read is the state there is. *)
Lemma preserves_current {A} (I : S -> Prop) (f : S -> M S E A) :
  (forall s r s', I s -> f s s = (r, s') -> I s') -> preserves I (s ← get_state; f s).
Proof. intros Hf s r s'. apply Hf. Qed.
Lemma preserves_try {A} I (m : M S E A) h :
  preserves I m -> (forall e, preserves I (h e)) -> preserves I (try_catch m h).
Proof.
  intros Hm Hh s r s' HI. unfold try_catch.
  destruct (m s) as [[a|e] s1] eqn:Em; intros Hr.
  - simplify_eq. by eapply Hm.
  - eapply Hh; [|exact Hr]. by eapply Hm.
Qed.
End Monad.

(** ** Computations that change nothing when they throw *)
Section Atomic.
Context {S E : Type}.

Definition readonly {A} (m : M S E A) : Prop := forall s r s', m s = (r, s') -> s' = s.
Definition atomic {A} (m : M S E A) : Prop := forall s e s', m s = (Err e, s') -> s' = s.

Lemma readonly_ret {A} (a : A) : readonly (mret a).
Proof. by intros s r s' [= <- <-]. Qed.
Lemma readonly_throw {A} e : readonly (throw (A:=A) e).
Proof. by intros s r s' [= <- <-]. Qed.
Lemma readonly_get_state : readonly get_state.
Proof. by intros s r s' [= <- <-]. Qed.
Lemma readonly_gets {A} (f : S -> A) : readonly (gets f).
Proof. by intros s r s' [= <- <-]. Qed.
Lemma readonly_lift_result {A} (x : result E A) : readonly (lift_result x).
Proof. by intros s r s' [= <- <-]. Qed.
Lemma readonly_throw_if b e : readonly (throw_if b e).
Proof. destruct b; [apply readonly_throw|apply readonly_ret]. Qed.
Lemma readonly_bind {A B} (m : M S E A) (f : A -> M S E B) :
  readonly m -> (forall a, readonly (f a)) -> readonly (m ≫= f).
Proof.
  intros Hm Hf s r s'. unfold mbind, M_bind. destruct (m s) as [[a|e] s1] eqn:Em.
  - intros Hr. apply Hm in Em as ->. by eapply Hf.
  - intros [= <- <-]. by eapply Hm.
Qed.
Lemma readonly_mapM {A B} (f : A -> M S E B) l : (forall x, readonly (f x)) -> readonly (mapM f l).
Proof.
  intros Hf. induction l as [|x l IH]; [apply readonly_ret|]. simpl.
  apply readonly_bind; [done|]. intros. apply readonly_bind; [done|]. intros. apply readonly_ret.
Qed.
Lemma readonly_atomic {A} (m : M S E A) : readonly m -> atomic m.
Proof. intros Hm s e s'. apply Hm. Qed.
Lemma readonly_preserves {A} (I : S -> Prop) (m : M S E A) : readonly m -> preserves I m.
Proof. intros Hm s r s' HI Hr. by rewrite (Hm _ _ _ Hr). Qed.
Lemma atomic_modify (f : S -> S) : atomic (modify f).
Proof. by intros s e s' [=]. Qed.
Lemma atomic_bind {A B} (m : M S E A) (f : A -> M S E B) :
  readonly m -> (forall a, atomic (f a)) -> atomic (m ≫= f).
Proof.
  intros Hm Hf s e s'. unfold mbind, M_bind. destruct (m s) as [[a|e'] s1] eqn:Em.
  - intros Hr. apply Hm in Em as ->. by eapply Hf.
  - intros [= <- <-]. by eapply Hm.
Qed.
(** The last effect may be followed by a value. *)
Lemma atomic_ret {A B} (m : M S E A) (b : A -> B) : atomic m -> atomic (a ← m; mret (b a)).
Proof.
  intros Hm s e s'. unfold mbind, M_bind. destruct (m s) as [[a|e'] s1] eqn:Em; [done|].
  intros [= <- <-]. by eapply Hm.
Qed.
End Atomic.

Create HintDb atomic.
#[export] Hint Resolve readonly_ret readonly_throw readonly_get_state readonly_gets readonly_lift_result readonly_throw_if atomic_modify
  readonly_atomic : atomic.
(** Walks through the binds and the branches of a computation. *)
Ltac atomic :=
  repeat (intros; match goal with
  | |- atomic (_ ≫= (fun _ => mret _)) => apply (atomic_ret _ (fun _ => _))
  | |- atomic (_ ≫= _) => apply atomic_bind
  | |- readonly (_ ≫= _) => apply readonly_bind
  | |- _ (match ?x with _ => _ end) => destruct x
  | |- _ => solve [eauto with atomic]
  end).

Create HintDb preserve.
#[export] Hint Resolve preserves_ret preserves_throw preserves_gets preserves_get_state
  preserves_lift_result preserves_throw_if : preserve.

(** [mapM] in the monad runs its body on the elements from left to right. *)
Lemma mapM_cons_ok {S E A B} (f : A -> M S E B) x l s ys s' :
  mapM f (x :: l) s = (Ok ys, s') ->
  exists y s1 ys', f x s = (Ok y, s1) /\ mapM f l s1 = (Ok ys', s') /\ ys = y :: ys'.
Proof.
  simpl. intros (y & s1 & Hy & H)%bind_ok. apply bind_ok in H as (ys' & s2 & Hys & H).
  unfold mret, M_ret in H. simplify_eq. eauto 10.
Qed.
Lemma mapM_cons_run {S E A B} (f : A -> M S E B) x l s y s1 ys s' :
  f x s = (Ok y, s1) -> mapM f l s1 = (Ok ys, s') -> mapM f (x :: l) s = (Ok (y :: ys), s').
Proof. intros Hx Hl. simpl. by rewrite (bind_run _ _ _ _ _ Hx), (bind_run _ _ _ _ _ Hl). Qed.

(** [m] never throws [e]. *)
Definition never {S E A} (e : E) (m : M S E A) : Prop := forall s, fst (m s) <> Err e.

Section Never.
Context {S E : Type}.
Lemma never_ret {A} (e : E) (a : A) : never (S:=S) e (mret a).
Proof. done. Qed.
Lemma never_throw {A} (e e' : E) : e <> e' -> never (S:=S) (A:=A) e (throw e').
Proof. intros Hne s H. apply Hne. by injection H. Qed.
Lemma never_bind {A B} (e : E) (m : M S E A) (f : A -> M S E B) :
  never e m -> (forall a s s', m s = (Ok a, s') -> never e (f a)) -> never e (m ≫= f).
Proof.
  intros Hm Hf s. unfold mbind, M_bind. specialize (Hm s).
  destruct (m s) as [[a|e'] s'] eqn:E0; [by eapply Hf|]. intros [= ->]. by apply Hm.
Qed.
Lemma never_gets {A} (e : E) (f : S -> A) : never e (gets f).
Proof. done. Qed.
Lemma never_get_state (e : E) : never (S:=S) e get_state.
Proof. done. Qed.
Lemma never_modify (e : E) (f : S -> S) : never e (modify f).
Proof. done. Qed.
Lemma never_throw_if (e e' : E) b : e <> e' -> never (S:=S) e (throw_if b e').
Proof. intros Hne. destruct b; [by apply never_throw|done]. Qed.
Lemma never_mapM {A B} (e : E) (f : A -> M S E B) l :
  (forall x, never e (f x)) -> never e (mapM f l).
Proof.
  intros Hf. induction l as [|x l IH]; [done|]. simpl.
  apply never_bind; [done|]. intros. apply never_bind; [done|]. done.
Qed.
End Never.

(** Peels the binds off a run that ended normally. *)
Ltac run_ok :=
  repeat match goal with
  | H : (_ ≫= _) _ = (Ok _, _) |- _ =>
      apply bind_ok in H; destruct H as (? & ? & ? & H)
  | H : throw_if _ _ _ = (Ok _, _) |- _ =>
      apply throw_if_ok in H; destruct H as [? ->]
  | H : mret _ _ = (_, _) |- _ => unfold mret, M_ret in H; simplify_eq
  | H : throw _ _ = (_, _) |- _ => unfold throw in H; simplify_eq
  | H : gets _ _ = (_, _) |- _ => unfold gets in H; simplify_eq
  | H : get_state _ = (_, _) |- _ => unfold get_state in H; simplify_eq
  | H : modify _ _ = (_, _) |- _ => unfold modify in H; simplify_eq
  | H : lift_result _ _ = (_, _) |- _ => unfold lift_result in H; simplify_eq
  end.

(** Walks through the binds, the branches and the handlers of a computation and
    leaves the leaves that the hints do not close. *)
Ltac preserve :=
  repeat (intros; match goal with
  | |- preserves _ (_ ≫= _) => apply preserves_bind
  | |- preserves _ (try_catch _ _) => apply preserves_try
  | |- preserves _ (match ?x with _ => _ end) => destruct x eqn:?
  | |- preserves _ (let '(_, _) := ?x in _) => destruct x eqn:?
  | |- _ => solve [eauto with preserve]
  end); intros.

(** Splits the conjunctions of boolean tests in the hypotheses. *)
Ltac split_bools :=
  repeat match goal with
  | H : _ && _ = true |- _ => apply andb_true_iff in H as [? ?]
  | H : _ || _ = false |- _ => apply orb_false_iff in H as [? ?]
  | H : negb _ = true |- _ => apply negb_true_iff in H
  | H : negb _ = false |- _ => apply negb_false_iff in H
  | H : bool_decide _ = true |- _ => apply bool_decide_eq_true in H
  | H : bool_decide _ = false |- _ => apply bool_decide_eq_false in H
  end.

(** ** Stable sorting by a key ([ORDER BY], [Array.prototype.sort]) *)
Section Sort.
Context {A : Type} (le : A -> A -> bool).

Fixpoint insert_by (x : A) (l : list A) : list A :=
  match l with
  | [] => [x]
  | y :: l' => if le x y then x :: y :: l' else y :: insert_by x l'
  end.
Definition sort_by (l : list A) : list A := foldr insert_by [] l.

Lemma insert_by_perm x l : insert_by x l ≡ₚ x :: l.
Proof.
  induction l as [|y l IH]; simpl; [done|]. destruct (le x y); [done|].
  rewrite IH. apply Permutation_swap.
Qed.
Lemma sort_by_perm l : sort_by l ≡ₚ l.
Proof. induction l as [|x l IH]; simpl; [done|]. by rewrite insert_by_perm, IH. Qed.
Lemma sort_by_elem x l : x ∈ sort_by l <-> x ∈ l.
Proof. by rewrite sort_by_perm. Qed.

(** A list whose neighbours are already in order is left as it is. *)
Fixpoint in_order (l : list A) : Prop :=
  match l with
  | x :: (y :: _) as l' => le x y = true /\ in_order l'
  | _ => True
  end.
Lemma in_order_cons x y l : in_order (x :: y :: l) <-> le x y = true /\ in_order (y :: l).
Proof. done. Qed.
Lemma sort_by_id l : in_order l -> sort_by l = l.
Proof.
  induction l as [|x [|y l] IH]; [done|done|].
  intros [Hxy Hl]%in_order_cons. change (sort_by (x :: y :: l)) with (insert_by x (sort_by (y :: l))).
  rewrite IH by done. simpl. by rewrite Hxy.
Qed.

Lemma insert_by_in_order x l :
  (forall a b, le a b = true \/ le b a = true) -> in_order l -> in_order (insert_by x l).
Proof.
  intros Htot. induction l as [|y l IH]; [done|]. intros Hl. simpl.
  destruct (le x y) eqn:Hxy; [done|].
  assert (le y x = true) as Hyx by (destruct (Htot x y); congruence).
  destruct l as [|z l]; [done|]. apply in_order_cons in Hl as [Hyz Hl].
  specialize (IH Hl). simpl in *. destruct (le x z) eqn:Hxz; [done|]. by split.
Qed.
Lemma sort_by_in_order l :
  (forall a b, le a b = true \/ le b a = true) -> in_order (sort_by l).
Proof. intros Htot. induction l as [|x l IH]; [done|]. by apply insert_by_in_order. Qed.
(** The last of a list comes first when no other is at or before it. *)
Lemma sort_by_head l x : Forall (fun y => le y x = false) l -> head (sort_by (l ++ [x])) = Some x.
Proof.
  induction 1 as [|y l Hy _ IH]; [done|]. change (sort_by ((y :: l) ++ [x])) with (insert_by y (sort_by (l ++ [x]))).
  destruct (sort_by (l ++ [x])) as [|z l']; [done|]. injection IH as ->. simpl. by rewrite Hy.
Qed.
End Sort.

(** ** The first by a number *)

(** A list is in order if each of it stands at or before all that follow. *)
Section Ordered.
Context {A : Type} (R : A -> A -> Prop).
Inductive ordered : list A -> Prop :=
| ordered_nil : ordered []
| ordered_cons x l : Forall (R x) l -> ordered l -> ordered (x :: l).
Lemma ordered_sublist l l' : sublist l l' -> ordered l' -> ordered l.
Proof.
  induction 1 as [|x l l' Hs IH|x l l' Hs IH]; intros Ho; [done| |]; inversion Ho as [|? ? Hx Hl]; subst; [|by apply IH].
  constructor; [|by apply IH]. rewrite Forall_forall in *. intros y Hy. apply Hx. by eapply elem_of_sublist.
Qed.
Lemma ordered_split l1 l2 x y : ordered (l1 ++ l2) -> x ∈ l1 -> y ∈ l2 -> R x y.
Proof.
  induction l1 as [|z l1 IH]; intros Ho Hx Hy; [by apply elem_of_nil in Hx|].
  cbn in Ho. inversion Ho as [|? ? Hz Hl]; subst. apply elem_of_cons in Hx as [->|Hx]; [|by apply IH].
  rewrite Forall_forall in Hz. apply Hz, elem_of_app. by right.
Qed.
Context (le : A -> A -> bool) (Hle : forall a b, le a b = true -> R a b) (Htot : forall a b, le a b = true \/ le b a = true)
  (Htrans : forall a b c, R a b -> R b c -> R a c).
Lemma insert_by_ordered x l : ordered l -> ordered (insert_by le x l).
Proof.
  induction 1 as [|y l Hy Ho IH]; cbn; [by repeat constructor|]. destruct (le x y) eqn:Hxy.
  - apply Hle in Hxy. constructor; [|by constructor]. constructor; [done|]. eapply Forall_impl; [exact Hy|]. intros z. by apply Htrans.
  - constructor; [|done]. rewrite insert_by_perm. constructor; [|done]. apply Hle. destruct (Htot x y); congruence.
Qed.
Lemma sort_by_ordered l : ordered (sort_by le l).
Proof. induction l as [|x l IH]; [constructor|]. by apply insert_by_ordered. Qed.
End Ordered.

(** The first [n] of all that satisfy [P], by a number: no more than [n], in order, and
    either all of them or [n] before which no other stands. *)
Section First.
Context {A : Type} (when_ : A -> Z) (n : nat) (P : A -> Prop).
Record first_by (taken : list A) : Prop := {
  fb_distinct : NoDup taken;
  fb_each : forall x, x ∈ taken -> P x;
  fb_order : ordered (fun x y => when_ x <= when_ y) taken;
  fb_some : (length taken <= n)%nat;
  fb_full : length taken = n \/ forall x, P x -> x ∈ taken;
  fb_first : forall x y, x ∈ taken -> P y -> y ∉ taken -> when_ x <= when_ y;
}.
Lemma first_by_take l : NoDup l -> ordered (fun x y => when_ x <= when_ y) l -> (forall x, P x <-> x ∈ l) -> first_by (take n l).
Proof.
  intros Hn Ho HP. constructor.
  - eapply sublist_NoDup; [exact Hn|apply sublist_take].
  - intros x Hx. apply HP. eapply elem_of_sublist; [exact Hx|apply sublist_take].
  - eapply ordered_sublist; [apply sublist_take|exact Ho].
  - rewrite length_take. lia.
  - destruct (decide (n <= length l)%nat); [left; rewrite length_take; lia|]. right. intros x Hx. apply HP in Hx. by rewrite take_ge by lia.
  - intros x y Hx Hy Hny. apply HP in Hy. rewrite <- (take_drop n l) in Ho, Hy. apply elem_of_app in Hy as [Hy|Hy]; [done|].
    by eapply (ordered_split (fun x y => when_ x <= when_ y)).
Qed.
End First.
Lemma sort_by_number {A} (when_ : A -> Z) l : ordered (fun x y => when_ x <= when_ y) (sort_by (fun a b => when_ a <=? when_ b) l).
Proof. apply sort_by_ordered; [by intros a b Hab; apply Z.leb_le|intros a b; rewrite !Z.leb_le; lia|intros a b c; lia]. Qed.

(** ** Numbers *)

(** [Number.MAX_SAFE_INTEGER]. *)
Definition MAX_SAFE_INTEGER : Z := 9007199254740991.

(** A JavaScript number: an integral double other than minus zero, minus zero, a
    finite fraction [m * 2^e], or an infinity or NaN. *)
Inductive jsnum : Type :=
| NInt (z : Z)
| NNegZero
| NFrac (m e : Z)
| NNonFinite.

#[global] Instance jsnum_eq_dec : EqDecision jsnum.
Proof. solve_decision. Defined.

(** [Number.isFinite(n)]. *)
Definition isFinite (n : jsnum) : bool :=
  match n with NNonFinite => false | _ => true end.

(** The value of [n] when [Number.isSafeInteger(n)]. *)
Definition asSafeInteger (n : jsnum) : option Z :=
  match n with
  | NInt z => if decide (- MAX_SAFE_INTEGER <= z <= MAX_SAFE_INTEGER) then Some z else None
  | NNegZero => Some 0
  | _ => None
  end.

Lemma asSafeInteger_bounds n z :
  asSafeInteger n = Some z -> - MAX_SAFE_INTEGER <= z <= MAX_SAFE_INTEGER.
Proof.
  unfold asSafeInteger. destruct n as [x| | |]; [case_decide|..]; intros; simplify_eq;
    unfold MAX_SAFE_INTEGER in *; lia.
Qed.

(** The contiguous sequence [a, a+1, ..., a+n-1]: the room sequence numbers of a
    ledger, of a replay, of a page. *)
Fixpoint seqFrom (a : Z) (n : nat) : list Z :=
  match n with
  | O => []
  | S n' => a :: seqFrom (a + 1) n'
  end.

Lemma seqFrom_length a n : length (seqFrom a n) = n.
Proof. revert a. induction n; simpl; auto. Qed.
Lemma seqFrom_app a n m : seqFrom a (n + m) = seqFrom a n ++ seqFrom (a + Z.of_nat n) m.
Proof.
  revert a. induction n as [|n IH]; intros a; simpl.
  - f_equal. lia.
  - f_equal. rewrite IH. do 2 f_equal. lia.
Qed.
Lemma seqFrom_snoc a n : seqFrom a (S n) = seqFrom a n ++ [a + Z.of_nat n].
Proof. replace (S n) with (n + 1)%nat by lia. by rewrite seqFrom_app. Qed.
Lemma seqFrom_elem a n z : z ∈ seqFrom a n <-> a <= z < a + Z.of_nat n.
Proof.
  revert a. induction n as [|n IH]; intros a; simpl.
  - rewrite elem_of_nil. lia.
  - rewrite elem_of_cons, IH. lia.
Qed.
Lemma seqFrom_NoDup a n : NoDup (seqFrom a n).
Proof.
  revert a. induction n as [|n IH]; intros a; simpl; constructor; auto.
  rewrite seqFrom_elem. lia.
Qed.

Lemma seqFrom_take a n m : take m (seqFrom a n) = seqFrom a (n `min` m).
Proof.
  revert a m. induction n as [|n IH]; intros a [|m]; simpl; try done. by rewrite IH.
Qed.
Lemma seqFrom_filter_gt a n k :
  List.filter (fun z => k <? z) (seqFrom a n)
  = seqFrom (Z.max a (k + 1)) (Z.to_nat (Z.of_nat n - Z.max 0 (k + 1 - a))).
Proof.
  revert a. induction n as [|n IH]; intros a.
  { simpl. by rewrite Z2Nat.nonpos by lia. }
  simpl List.filter. destruct (Z.ltb_spec k a) as [Hlt|Hge]; rewrite IH.
  - replace (Z.to_nat (Z.of_nat (S n) - Z.max 0 (k + 1 - a))) with (S n) by lia.
    replace (Z.to_nat (Z.of_nat n - Z.max 0 (k + 1 - (a + 1)))) with n by lia.
    simpl. f_equal; [lia|f_equal; lia].
  - f_equal; [lia|f_equal; lia].
Qed.

(** The indices of a list are read in the order of the list. *)
Lemma in_order_seqFrom {A} (f : A -> Z) l a n :
  map f l = seqFrom a n -> in_order (fun x y => f x <=? f y) l.
Proof.
  revert a n. induction l as [|x [|y l] IH]; intros a n Hl; [done|done|].
  destruct n as [|[|n]]; try done. simpl in Hl. injection Hl as Hx Hy Hl.
  apply in_order_cons. split; [apply Z.leb_le; lia|].
  apply (IH (a + 1) (S n)). simpl. by f_equal.
Qed.
