(* ===== verification/Text.v ===== *)
(** * Characters, UUIDs, decimal numerals and trimming

    The parts of the JavaScript string library that the services rely on, over
    byte strings (the UTF-8 text of a JavaScript string). *)
From S2P Require Import Prelude.

(** ** Character classes and fixed-length patterns *)

Definition code (c : ascii) : Z := Z.of_N (N_of_ascii c).
Definition chr (z : Z) : ascii := ascii_of_N (Z.to_N z).
Definition between (lo hi : ascii) (c : ascii) : bool :=
  (code lo <=? code c) && (code c <=? code hi).
Definition is_digit : ascii -> bool := between "0" "9".
Definition is_lower_hex (c : ascii) : bool := is_digit c || between "a" "f" c.
(** [[0-9a-f]] under the [i] flag. *)
Definition is_hex (c : ascii) : bool := is_lower_hex c || between "A" "F" c.
Definition is_char (d c : ascii) : bool := bool_decide (c = d).
Definition one_of (l : list ascii) (c : ascii) : bool := existsb (fun d => is_char d c) l.

Fixpoint matches (pat : list (ascii -> bool)) (s : list ascii) : bool :=
  match pat, s with
  | [], [] => true
  | p :: pat', c :: s' => p c && matches pat' s'
  | _, _ => false
  end.

Definition UUID_PATTERN : list (ascii -> bool) :=
  replicate 8 is_hex ++ [is_char "-"] ++ replicate 4 is_hex ++ [is_char "-"]
  ++ [between "1" "8"] ++ replicate 3 is_hex ++ [is_char "-"]
  ++ [one_of ["8"; "9"; "a"; "b"; "A"; "B"]%char] ++ replicate 3 is_hex ++ [is_char "-"]
  ++ replicate 12 is_hex.

(** [UUID_PATTERN.test(value)]; every module of the repository declares the same
    case-insensitive pattern. *)
Definition isUuid (s : string) : bool := matches UUID_PATTERN (list_ascii_of_string s).

(** ** Case folding *)

Definition lower_char (c : ascii) : ascii := if between "A" "Z" c then chr (code c + 32) else c.
Definition upper_char (c : ascii) : ascii := if between "a" "z" c then chr (code c - 32) else c.
Definition map_string (f : ascii -> ascii) (s : string) : string :=
  string_of_list_ascii (f <$> list_ascii_of_string s).
Definition lower : string -> string := map_string lower_char.
Definition upper : string -> string := map_string upper_char.

Lemma for_all_ascii (P : ascii -> bool) :
  forallb (fun n => P (ascii_of_nat n)) (seq 0 256) = true -> forall c, P c = true.
Proof.
  rewrite forallb_forall. intros H c. rewrite <- (ascii_nat_embedding c).
  apply H, in_seq. pose proof (nat_ascii_bounded c). lia.
Qed.

Lemma map_string_compose f g s :
  (forall c, f (g c) = f c) -> map_string f (map_string g s) = map_string f s.
Proof.
  intros H. unfold map_string. rewrite list_ascii_of_string_of_list_ascii, <- list_fmap_compose.
  f_equal. apply list_fmap_ext. intros ? c _. apply H.
Qed.

Lemma lower_idem s : lower (lower s) = lower s.
Proof.
  apply map_string_compose. intros c. apply (bool_decide_eq_true_1 (_ = _)). revert c.
  apply (for_all_ascii (fun c => bool_decide (lower_char (lower_char c) = lower_char c))).
  by vm_compute.
Qed.

Lemma matches_fmap f pat l :
  Forall (fun p : ascii -> bool => forall c, p (f c) = p c) pat ->
  matches pat (f <$> l) = matches pat l.
Proof.
  intros H. revert l. induction H as [|p pat Hp _ IH]; intros [|c l]; simpl; auto.
  by rewrite Hp, IH.
Qed.

(** A class of characters that takes a letter in both cases. *)
Lemma lower_class (p : ascii -> bool) :
  forallb (fun n => bool_decide (p (lower_char (ascii_of_nat n)) = p (ascii_of_nat n))) (seq 0 256) = true ->
  forall c, p (lower_char c) = p c.
Proof.
  intros Hall c. apply (bool_decide_eq_true_1 (_ = _)).
  exact (for_all_ascii (fun c => bool_decide (p (lower_char c) = p c)) Hall c).
Qed.

Lemma isUuid_lower s : isUuid (lower s) = isUuid s.
Proof.
  unfold isUuid, lower, map_string. rewrite list_ascii_of_string_of_list_ascii.
  apply matches_fmap. unfold UUID_PATTERN. simpl.
  repeat (constructor; [apply lower_class; vm_compute; reflexivity|]). constructor.
Qed.

(** ** Decimal numerals *)

(** The decimal digits of a non-negative integer, most significant first. *)
Fixpoint dec_aux (fuel : nat) (n : Z) (acc : list Z) : list Z :=
  match fuel with
  | O => acc
  | S fuel' =>
      if n <? 10 then n :: acc else dec_aux fuel' (n / 10) (n mod 10 :: acc)
  end.
Definition dec_digits (n : Z) : list Z := dec_aux (S (Z.to_nat (Z.log2 n))) n [].
Definition dec_value (ds : list Z) : Z := fold_left (fun v d => 10 * v + d) ds 0.

Definition is_dec_digit (d : Z) : Prop := 0 <= d <= 9.

Lemma dec_value_app v ds : fold_left (fun v d => 10 * v + d) ds v
  = v * 10 ^ Z.of_nat (length ds) + dec_value ds.
Proof.
  revert v. induction ds as [|d ds IH]; intros v; [unfold dec_value; simpl; lia|].
  unfold dec_value. cbn [fold_left length].
  rewrite IH, (IH (10 * 0 + d)), Nat2Z.inj_succ, Z.pow_succ_r by lia. lia.
Qed.

Lemma dec_aux_spec fuel n acc :
  0 <= n < 2 ^ Z.of_nat fuel -> (0 < fuel)%nat ->
  exists ds, dec_aux fuel n acc = ds ++ acc /\ dec_value ds = n /\ Forall is_dec_digit ds
    /\ exists d ds', ds = d :: ds' /\ (d = 0 -> n = 0 /\ ds' = []).
Proof.
  revert n acc. induction fuel as [|fuel IH]; intros n acc Hn Hf; [lia|]. cbn [dec_aux].
  destruct (n <? 10) eqn:Hlt.
  - exists [n]. split_and!; [done|unfold dec_value; simpl; lia|repeat constructor; lia|].
    exists n, []. done.
  - apply Z.ltb_ge in Hlt. rewrite Nat2Z.inj_succ, Z.pow_succ_r in Hn by lia.
    assert (0 < fuel)%nat as Hf' by (destruct fuel; [simpl in Hn; lia|lia]).
    pose proof (Z.div_mod n 10 ltac:(lia)) as Hdm.
    pose proof (Z.mod_pos_bound n 10 ltac:(lia)) as Hmod.
    destruct (IH (n / 10) (n mod 10 :: acc)) as (ds & Hds & Hv & Hall & d & ds' & -> & Hz); [lia|done|].
    exists ((d :: ds') ++ [n mod 10]). split_and!.
    + by rewrite Hds, <- app_assoc.
    + unfold dec_value. rewrite fold_left_app, dec_value_app.
      change (fold_left _ (d :: ds') 0) with (dec_value (d :: ds')). rewrite Hv. unfold dec_value. simpl. lia.
    + apply Forall_app. split; [done|]. repeat constructor; unfold is_dec_digit; lia.
    + exists d, (ds' ++ [n mod 10]). split; [done|]. intros Hd0. destruct (Hz Hd0). lia.
Qed.

Lemma dec_digits_spec n : 0 <= n ->
  dec_value (dec_digits n) = n /\ Forall is_dec_digit (dec_digits n)
  /\ exists d ds, dec_digits n = d :: ds /\ (d = 0 -> n = 0 /\ ds = []).
Proof.
  intros Hn. unfold dec_digits.
  destruct (dec_aux_spec (S (Z.to_nat (Z.log2 n))) n []) as (ds & Hds & Hv & Hall & Hhd).
  - pose proof (Z.log2_nonneg n). rewrite Nat2Z.inj_succ, Z2Nat.id by lia.
    destruct (decide (n = 0)) as [->|]; [simpl; lia|]. pose proof (Z.log2_spec n). lia.
  - lia.
  - rewrite Hds, app_nil_r. auto.
Qed.

Definition digit_char (d : Z) : ascii := chr (48 + d).
Definition char_digit (c : ascii) : Z := code c - 48.

(** [String(n)] for a non-negative integer. *)
Definition dec_string (n : Z) : string := string_of_list_ascii (digit_char <$> dec_digits n).
(** [Number(s)] for a string of decimal digits. *)
Definition dec_number (s : string) : Z := dec_value (char_digit <$> list_ascii_of_string s).

(** [/^[1-9][0-9]*$/]. *)
Definition isPositiveNumeral (s : string) : bool :=
  match list_ascii_of_string s with
  | [] => false
  | c :: l => between "1" "9" c && forallb is_digit l
  end.

Lemma digit_char_code d : is_dec_digit d -> code (digit_char d) = 48 + d.
Proof.
  intros [Hlo Hhi]. unfold code, digit_char, chr. rewrite N_ascii_embedding; [|lia].
  rewrite Z2N.id; lia.
Qed.

Lemma dec_string_number n : 0 <= n -> dec_number (dec_string n) = n.
Proof.
  intros Hn. destruct (dec_digits_spec n Hn) as (Hv & Hall & _).
  unfold dec_number, dec_string. rewrite list_ascii_of_string_of_list_ascii, <- list_fmap_compose.
  rewrite <- Hv at 2. f_equal. rewrite <- (list_fmap_id (dec_digits n)) at 2.
  apply Forall_fmap_ext_1. eapply Forall_impl; [exact Hall|].
  intros d Hd. simpl. unfold char_digit. rewrite digit_char_code by done. unfold id. lia.
Qed.

Lemma dec_string_positive n : 0 < n -> isPositiveNumeral (dec_string n) = true.
Proof.
  intros Hn. destruct (dec_digits_spec n) as (_ & Hall & d & ds & Hds & Hz); [lia|].
  unfold isPositiveNumeral, dec_string. rewrite list_ascii_of_string_of_list_ascii.
  rewrite Hds in *. apply Forall_cons in Hall as [Hd Hall]. simpl.
  apply andb_true_iff. split.
  - unfold between. rewrite digit_char_code by done. change (code "1") with 49.
    change (code "9") with 57. unfold is_dec_digit in Hd.
    destruct (decide (d = 0)) as [->|]; [destruct (Hz eq_refl); lia|].
    apply andb_true_iff. split; apply Z.leb_le; lia.
  - apply forallb_forall. intros c Hc. apply list_elem_of_In in Hc.
    apply list_elem_of_fmap in Hc as (x & -> & Hx).
    rewrite Forall_forall in Hall. pose proof (Hall x Hx) as Hxd.
    unfold is_digit, between. rewrite digit_char_code by done. unfold is_dec_digit in Hxd.
    change (code "0") with 48. change (code "9") with 57.
    apply andb_true_iff. split; apply Z.leb_le; lia.
Qed.

Lemma dec_string_inj a b : 0 <= a -> 0 <= b -> dec_string a = dec_string b -> a = b.
Proof. intros Ha Hb H. rewrite <- (dec_string_number a), <- (dec_string_number b) by done. by rewrite H. Qed.

(** ** [String.prototype.trim] *)

(** The white space and line terminators of ECMAScript, as UTF-8. *)
Definition js_spaces : list (list ascii) :=
  map (map chr)
  [[9]; [10]; [11]; [12]; [13]; [32]; [194; 160]; [225; 154; 128];
   [226; 128; 128]; [226; 128; 129]; [226; 128; 130]; [226; 128; 131]; [226; 128; 132];
   [226; 128; 133]; [226; 128; 134]; [226; 128; 135]; [226; 128; 136]; [226; 128; 137];
   [226; 128; 138]; [226; 128; 168]; [226; 128; 169]; [226; 128; 175]; [226; 129; 159];
   [227; 128; 128]; [239; 187; 191]].

Fixpoint strip_prefix (p l : list ascii) : option (list ascii) :=
  match p, l with
  | [], _ => Some l
  | a :: p', b :: l' => if decide (a = b) then strip_prefix p' l' else None
  | _ :: _, [] => None
  end.
Fixpoint first_some {A B} (f : A -> option B) (l : list A) : option B :=
  match l with
  | [] => None
  | x :: l' => match f x with Some y => Some y | None => first_some f l' end
  end.
Fixpoint strip_spaces (fuel : nat) (spaces : list (list ascii)) (l : list ascii) : list ascii :=
  match fuel with
  | O => l
  | S fuel' =>
      match first_some (fun p => strip_prefix p l) spaces with
      | Some l' => strip_spaces fuel' spaces l'
      | None => l
      end
  end.
Definition js_trim (s : string) : string :=
  let l := list_ascii_of_string s in
  let l := strip_spaces (length l) js_spaces l in
  string_of_list_ascii
    (rev (strip_spaces (length l) (map (@rev ascii) js_spaces) (rev l))).

Example js_trim_ascii : js_trim "  a b
 " = "a b"%string.
Proof. reflexivity. Qed.
