(* ===== verification/Utf.v ===== *)
(** * Code units and bytes

    The JavaScript string as the list of its UTF-16 code units, for the code that looks
    at them, and its UTF-8 bytes: [Buffer.from(text, "utf8")], [Buffer.byteLength] and
    [new TextDecoder("utf-8", { fatal: true })]. *)
From S2P Require Import Prelude Text.
#[local] Set Warnings "-register-all,-clear-no-such-hyp,-level-tolerance".

Abbreviation units := (list Z).
Abbreviation bytes := (list Z).

Definition isHigh (x : Z) : bool := (55296 <=? x) && (x <=? 56319).
Definition isLow (x : Z) : bool := (56320 <=? x) && (x <=? 57343).

(** No surrogate without its other half. *)
Fixpoint wellFormed (u : units) : bool :=
  match u with
  | [] => true
  | x :: r =>
      if isHigh x then match r with
                       | y :: r' => isLow y && wellFormed r'
                       | [] => false
                       end
      else negb (isLow x) && wellFormed r
  end.
Definition isUnit (x : Z) : Prop := 0 <= x <= 65535.

(** ** Encoding *)

Definition pairCode (x y : Z) : Z := 65536 + (x - 55296) * 1024 + (y - 56320).
Definition utf8_2 (c : Z) : bytes := [192 + c / 64; 128 + c mod 64].
Definition utf8_3 (c : Z) : bytes := [224 + c / 4096; 128 + (c / 64) mod 64; 128 + c mod 64].
Definition utf8_4 (c : Z) : bytes :=
  [240 + c / 262144; 128 + (c / 4096) mod 64; 128 + (c / 64) mod 64; 128 + c mod 64].
Definition REPLACEMENT : bytes := utf8_3 65533.

Fixpoint utf8 (u : units) : bytes :=
  match u with
  | [] => []
  | x :: r =>
      if x <? 128 then x :: utf8 r
      else if x <? 2048 then utf8_2 x ++ utf8 r
      else if isHigh x then match r with
                            | y :: r' => if isLow y then utf8_4 (pairCode x y) ++ utf8 r' else REPLACEMENT ++ utf8 r
                            | [] => REPLACEMENT
                            end
      else if isLow x then REPLACEMENT ++ utf8 r
      else utf8_3 x ++ utf8 r
  end.
(** [Buffer.byteLength(text, "utf8")]. *)
Definition byteLength (u : units) : Z := Z.of_nat (length (utf8 u)).

(** ** Decoding *)

Definition isTail (b : Z) : bool := (128 <=? b) && (b <=? 191).
(** The units of a code point of the supplementary planes. *)
Definition pairUnits (c : Z) : units := [55296 + (c - 65536) / 1024; 56320 + (c - 65536) mod 1024].
Fixpoint decode (b : bytes) : option units :=
  match b with
  | [] => Some []
  | b0 :: r0 =>
      if (0 <=? b0) && (b0 <? 128) then cons b0 <$> decode r0
      else match r0 with
      | [] => None
      | b1 :: r1 =>
          if negb (isTail b1) then None
          else if (194 <=? b0) && (b0 <=? 223) then cons ((b0 - 192) * 64 + (b1 - 128)) <$> decode r1
          else match r1 with
          | [] => None
          | b2 :: r2 =>
              if negb (isTail b2) then None
              else if (224 <=? b0) && (b0 <=? 239) then
                let c := (b0 - 224) * 4096 + (b1 - 128) * 64 + (b2 - 128) in
                if (c <? 2048) || isHigh c || isLow c then None else cons c <$> decode r2
              else match r2 with
              | [] => None
              | b3 :: r3 =>
                  if negb (isTail b3) then None
                  else if (240 <=? b0) && (b0 <=? 244) then
                    let c := (b0 - 240) * 262144 + (b1 - 128) * 4096 + (b2 - 128) * 64 + (b3 - 128) in
                    if (c <? 65536) || (1114111 <? c) then None else app (pairUnits c) <$> decode r3
                  else None
              end
          end
      end
  end.
(** The decoder drops a byte order mark. *)
Definition textDecode (b : bytes) : option units :=
  match b with
  | 239 :: 187 :: 191 :: r => decode r
  | _ => decode b
  end.

(** ** Round trip *)

Lemma isHigh_bounds x : isHigh x = true <-> 55296 <= x <= 56319.
Proof. unfold isHigh. lia. Qed.
Lemma isLow_bounds x : isLow x = true <-> 56320 <= x <= 57343.
Proof. unfold isLow. lia. Qed.

(** Two units at a time. *)
Lemma units_ind (P : units -> Prop) :
  P [] -> (forall x r, P r -> (forall y r', r = y :: r' -> P r') -> P (x :: r)) -> forall u, P u.
Proof.
  intros H0 Hs u. enough (P u /\ forall y r', u = y :: r' -> P r') as [? _] by done.
  induction u as [|x r [IH1 IH2]]; [done|]. split; [by apply Hs|]. by intros y r' [= -> ->].
Qed.

Lemma decode_2 x r : 128 <= x < 2048 -> decode (utf8_2 x ++ r) = cons x <$> decode r.
Proof.
  intros Hx. unfold utf8_2. cbn [app decode]. unfold isTail.
  pose proof (Z.div_mod x 64 ltac:(lia)). pose proof (Z.mod_pos_bound x 64 ltac:(lia)).
  set (q := x / 64) in *. set (m := x mod 64) in *. clearbody q m.
  replace ((0 <=? 192 + q) && (192 + q <? 128)) with false by lia.
  replace (negb ((128 <=? 128 + m) && (128 + m <=? 191))) with false by lia.
  replace ((194 <=? 192 + q) && (192 + q <=? 223)) with true by lia.
  do 2 f_equal. lia.
Qed.
Lemma decode_3 x r : 2048 <= x <= 65535 -> isHigh x = false -> isLow x = false ->
  decode (utf8_3 x ++ r) = cons x <$> decode r.
Proof.
  intros Hx Hh Hl. unfold utf8_3. cbn [app decode]. unfold isTail.
  assert (x / 4096 = x / 64 / 64) as -> by (rewrite Z.div_div by lia; done).
  pose proof (Z.div_mod x 64 ltac:(lia)). pose proof (Z.mod_pos_bound x 64 ltac:(lia)).
  set (q := x / 64) in *. set (m := x mod 64) in *. clearbody m.
  pose proof (Z.div_mod q 64 ltac:(lia)). pose proof (Z.mod_pos_bound q 64 ltac:(lia)).
  clearbody q. set (q2 := q / 64) in *. set (m2 := q mod 64) in *. clearbody q2 m2.
  replace ((0 <=? 224 + q2) && (224 + q2 <? 128)) with false by lia.
  replace (negb ((128 <=? 128 + m2) && (128 + m2 <=? 191))) with false by lia.
  replace ((194 <=? 224 + q2) && (224 + q2 <=? 223)) with false by lia.
  replace (negb ((128 <=? 128 + m) && (128 + m <=? 191))) with false by lia.
  replace ((224 <=? 224 + q2) && (224 + q2 <=? 239)) with true by lia.
  replace ((224 + q2 - 224) * 4096 + (128 + m2 - 128) * 64 + (128 + m - 128)) with x by lia.
  cbn zeta. rewrite Hh, Hl. replace (x <? 2048) with false by lia. done.
Qed.
Lemma decode_4 x y r : isHigh x = true -> isLow y = true ->
  decode (utf8_4 (pairCode x y) ++ r) = (fun u => x :: y :: u) <$> decode r.
Proof.
  intros Hx%isHigh_bounds Hy%isLow_bounds. set (c := pairCode x y).
  assert (65536 <= c <= 1114111) as Hc by (unfold c, pairCode; lia).
  assert (pairUnits c = [x; y]) as Hp.
  { unfold pairUnits, c, pairCode. replace (65536 + (x - 55296) * 1024 + (y - 56320) - 65536) with ((y - 56320) + (x - 55296) * 1024) by lia.
    rewrite Z.div_add, Z.mod_add, Z.div_small, Z.mod_small by lia. f_equal; [lia|f_equal; lia]. }
  clearbody c. unfold utf8_4. cbn [app decode]. unfold isTail.
  assert (c / 262144 = c / 64 / 64 / 64) as -> by (rewrite !Z.div_div by lia; done).
  assert (c / 4096 = c / 64 / 64) as -> by (rewrite !Z.div_div by lia; done).
  pose proof (Z.div_mod c 64 ltac:(lia)). pose proof (Z.mod_pos_bound c 64 ltac:(lia)).
  set (q := c / 64) in *. set (m := c mod 64) in *. clearbody m.
  pose proof (Z.div_mod q 64 ltac:(lia)). pose proof (Z.mod_pos_bound q 64 ltac:(lia)).
  clearbody q. set (q2 := q / 64) in *. set (m2 := q mod 64) in *. clearbody m2.
  pose proof (Z.div_mod q2 64 ltac:(lia)). pose proof (Z.mod_pos_bound q2 64 ltac:(lia)).
  clearbody q2. set (q3 := q2 / 64) in *. set (m3 := q2 mod 64) in *. clearbody q3 m3.
  replace ((0 <=? 240 + q3) && (240 + q3 <? 128)) with false by lia.
  replace (negb ((128 <=? 128 + m3) && (128 + m3 <=? 191))) with false by lia.
  replace ((194 <=? 240 + q3) && (240 + q3 <=? 223)) with false by lia.
  replace (negb ((128 <=? 128 + m2) && (128 + m2 <=? 191))) with false by lia.
  replace ((224 <=? 240 + q3) && (240 + q3 <=? 239)) with false by lia.
  replace (negb ((128 <=? 128 + m) && (128 + m <=? 191))) with false by lia.
  replace ((240 <=? 240 + q3) && (240 + q3 <=? 244)) with true by lia.
  replace ((240 + q3 - 240) * 262144 + (128 + m3 - 128) * 4096 + (128 + m2 - 128) * 64 + (128 + m - 128)) with c by lia.
  cbn zeta. replace (c <? 65536) with false by lia. replace (1114111 <? c) with false by lia.
  cbn [orb]. rewrite Hp. done.
Qed.

Lemma decode_utf8 u : Forall isUnit u -> wellFormed u = true -> decode (utf8 u) = Some u.
Proof.
  induction u as [|x r IH1 IH2] using units_ind; [done|]. intros [Hx Hr]%Forall_cons Hw. cbn [wellFormed] in Hw.
  cbn [utf8]. unfold isUnit in Hx. destruct (isHigh x) eqn:Hh.
  - destruct r as [|y r']; [done|]. apply andb_true_iff in Hw as [Hy Hw]. apply Forall_cons in Hr as [_ Hr].
    pose proof (proj1 (isHigh_bounds x) Hh). replace (x <? 128) with false by lia. replace (x <? 2048) with false by lia.
    rewrite Hy, decode_4, (IH2 y r' eq_refl Hr Hw); done.
  - apply andb_true_iff in Hw as [Hl Hw]. apply negb_true_iff in Hl. rewrite Hl. specialize (IH1 Hr Hw).
    destruct (x <? 128) eqn:H1.
    + cbn [decode]. replace ((0 <=? x) && (x <? 128)) with true by lia. by rewrite IH1.
    + destruct (x <? 2048) eqn:H2; [rewrite decode_2 by lia|rewrite decode_3 by (done || lia)]; by rewrite IH1.
Qed.

(** ** Concatenation *)

Lemma utf8_app u v : wellFormed u = true -> utf8 (u ++ v) = utf8 u ++ utf8 v.
Proof.
  induction u as [|x r IH1 IH2] using units_ind; [done|]. cbn [wellFormed]. intros Hw. cbn [app utf8].
  destruct (isHigh x) eqn:Hh.
  - destruct r as [|y r']; [done|]. apply andb_true_iff in Hw as [Hy Hw].
    pose proof (proj1 (isHigh_bounds x) Hh). replace (x <? 128) with false by lia. replace (x <? 2048) with false by lia.
    cbn [app]. rewrite Hy, (IH2 y r' eq_refl Hw). by rewrite app_assoc.
  - apply andb_true_iff in Hw as [Hl Hw]. apply negb_true_iff in Hl. rewrite Hl, (IH1 Hw).
    destruct (x <? 128); [done|]. destruct (x <? 2048); by rewrite app_assoc.
Qed.
Lemma wellFormed_app u v : wellFormed u = true -> wellFormed (u ++ v) = wellFormed v.
Proof.
  induction u as [|x r IH1 IH2] using units_ind; [done|]. cbn [wellFormed]. intros Hw. cbn [app wellFormed].
  destruct (isHigh x).
  - destruct r as [|y r']; [done|]. apply andb_true_iff in Hw as [Hy Hw]. cbn [app]. rewrite Hy. cbn [andb]. by apply (IH2 y).
  - apply andb_true_iff in Hw as [Hl Hw]. rewrite Hl. cbn [andb]. by apply IH1.
Qed.
(** A text of ASCII characters. *)
Definition isAscii (x : Z) : Prop := 0 <= x < 128.
Lemma ascii_wellFormed u : Forall isAscii u -> wellFormed u = true.
Proof.
  induction 1 as [|x u Hx _ IH]; [done|]. cbn [wellFormed]. unfold isAscii in Hx.
  replace (isHigh x) with false by (unfold isHigh; lia). replace (isLow x) with false by (unfold isLow; lia). done.
Qed.
Lemma ascii_utf8 u : Forall isAscii u -> utf8 u = u.
Proof.
  induction 1 as [|x u Hx _ IH]; [done|]. cbn [utf8]. unfold isAscii in Hx.
  replace (x <? 128) with true by lia. by rewrite IH.
Qed.
Lemma byteLength_app u v : wellFormed u = true -> byteLength (u ++ v) = byteLength u + byteLength v.
Proof. intros Hw. unfold byteLength. rewrite utf8_app, length_app by done. lia. Qed.
