(* ===== verification/Canonical.v ===== *)
(** * Canonical JSON

    [apps/server/src/modules/security/canonical-json.ts]: the one text of a value, which
    is what is hashed and signed, and the parser of the texts that come from outside.

    Values are trees; their texts are lists of UTF-16 code units. That a value of the
    server is a tree (no cycle, accessor or foreign prototype), which the first pass also
    checks, is the type. The parser is a computation on the rest of its input and the
    count of its nodes; [OutOfFuel] stands for a recursion that has not ended. *)
From S2P Require Import Prelude Text Utf.
#[local] Set Warnings "-register-all,-clear-no-such-hyp,-level-tolerance".

Definition MAX_INPUT_BYTES : Z := 1048576.
Definition MAX_OUTPUT_BYTES : Z := 1048576.
Definition MAX_DEPTH : Z := 64.
Definition MAX_NODES : Z := 10000.
Definition MAX_STRING_LENGTH : Z := 16384.

Inductive tree : Type :=
| TNull
| TBool (b : bool)
| TNum (n : jsnum)
| TStr (u : units)
| TArr (l : list tree)
| TObj (fs : list (units * tree)).

Section TreeInd.
Variable P : tree -> Prop.
Hypothesis Hnull : P TNull.
Hypothesis Hbool : forall b, P (TBool b).
Hypothesis Hnum : forall n, P (TNum n).
Hypothesis Hstr : forall u, P (TStr u).
Hypothesis Harr : forall l, Forall P l -> P (TArr l).
Hypothesis Hobj : forall fs, Forall (fun f => P (snd f)) fs -> P (TObj fs).

Fixpoint tree_ind' (t : tree) : P t :=
  match t with
  | TNull => Hnull
  | TBool b => Hbool b
  | TNum n => Hnum n
  | TStr u => Hstr u
  | TArr l => Harr l ((fix go l := match l return Forall P l with
      | [] => Forall_nil_2 P
      | x :: l' => Forall_cons_2 P x l' (tree_ind' x) (go l') end) l)
  | TObj fs => Hobj fs ((fix go fs := match fs return Forall (fun f => P (snd f)) fs with
      | [] => Forall_nil_2 _
      | f :: fs' => Forall_cons_2 (fun f => P (snd f)) f fs' (tree_ind' (snd f)) (go fs') end) fs)
  end.
End TreeInd.

(** ** The checks of a value *)

(** [assertWellFormedString]. *)
Definition assertWellFormedString (u : units) : bool :=
  (Z.of_nat (length u) <=? MAX_STRING_LENGTH) && wellFormed u.
(** [assertCanonicalValue]: the count of nodes after the value, if it passes. *)
Fixpoint assertCanonicalValue (t : tree) (depth nodes : Z) : option Z :=
  if (MAX_DEPTH <? depth) || (MAX_NODES <? nodes + 1) then None else
  match t with
  | TNull | TBool _ => Some (nodes + 1)
  | TStr u => if assertWellFormedString u then Some (nodes + 1) else None
  | TNum (NInt z) => if bool_decide (Z.abs z <= MAX_SAFE_INTEGER) then Some (nodes + 1) else None
  | TNum _ => None
  | TArr l => foldl (fun acc x => n ← acc; assertCanonicalValue x (depth + 1) n) (Some (nodes + 1)) l
  | TObj fs =>
      foldl (fun acc f => n ← acc; if assertWellFormedString (fst f) then assertCanonicalValue (snd f) (depth + 1) n else None)
        (Some (nodes + 1)) fs
  end.

(** ** Writing *)

Definition text (s : string) : units := map code (list_ascii_of_string s).
Definition QUOTE : Z := 34.
Definition BACKSLASH : Z := 92.
Definition COMMA : Z := 44.
Definition COLON : Z := 58.
Definition hexDigit (n : Z) : Z := if n <? 10 then 48 + n else 87 + n.
(** The escapes of [JSON.stringify]. *)
Definition escapeUnit (x : Z) : units :=
  if x =? QUOTE then [BACKSLASH; QUOTE]
  else if x =? BACKSLASH then [BACKSLASH; BACKSLASH]
  else if x =? 8 then text "\b" else if x =? 9 then text "\t" else if x =? 10 then text "\n"
  else if x =? 12 then text "\f" else if x =? 13 then text "\r"
  else if x <? 32 then text "\u00" ++ [hexDigit (x / 16); hexDigit (x mod 16)]
  else [x].
(** [encodeString] of a well-formed string. *)
Definition encodeString (u : units) : units := QUOTE :: concat (map escapeUnit u) ++ [QUOTE].
(** [String(n)]. *)
Definition integerText (z : Z) : units :=
  if z <? 0 then 45 :: map (fun d => 48 + d) (dec_digits (- z)) else map (fun d => 48 + d) (dec_digits z).
Fixpoint join (sep : units) (l : list units) : units :=
  match l with
  | [] => []
  | [x] => x
  | x :: l' => x ++ sep ++ join sep l'
  end.
(** The order of [Array.prototype.sort]: by code units. *)
Fixpoint unitsLe (a b : units) : bool :=
  match a, b with
  | [], _ => true
  | _ :: _, [] => false
  | x :: a', y :: b' => (x <? y) || ((x =? y) && unitsLe a' b')
  end.
Definition keyLe {A} (a b : units * A) : bool := unitsLe (fst a) (fst b).
Definition member (e : units * units) : units := encodeString (fst e) ++ [COLON] ++ snd e.
(** [serialize]. *)
Fixpoint serialize (t : tree) : units :=
  match t with
  | TNull => text "null"
  | TBool b => text (if b then "true" else "false")
  | TNum (NInt z) => integerText z
  | TNum _ => []                              (** not a canonical value *)
  | TStr u => encodeString u
  | TArr l => text "[" ++ join [COMMA] (map serialize l) ++ text "]"
  | TObj fs =>
      text "{" ++ join [COMMA] (map member (sort_by keyLe (map (fun f => (fst f, serialize (snd f))) fs))) ++ text "}"
  end.
(** [assertOutputWithinLimit] counts the bytes of the pieces. *)
Definition sumZ (l : list Z) : Z := foldr Z.add 0 l.
Definition commas {A} (l : list A) : Z := Z.max 0 (Z.of_nat (length l) - 1).
Fixpoint outputBytes (t : tree) : Z :=
  match t with
  | TNull => 4
  | TBool b => if b then 4 else 5
  | TNum (NInt z) => byteLength (integerText z)
  | TNum _ => 0
  | TStr u => byteLength (encodeString u)
  | TArr l => 1 + commas l + sumZ (map outputBytes l) + 1
  | TObj fs =>
      1 + commas fs + sumZ (map (fun f => byteLength (encodeString (fst f)) + 1 + outputBytes (snd f)) fs) + 1
  end.
(** [canonicalJson]. *)
Definition canonicalJson (t : tree) : option bytes :=
  _ ← assertCanonicalValue t 0 0;
  if MAX_OUTPUT_BYTES <? outputBytes t then None else Some (utf8 (serialize t)).

(** ** Reading *)

Inductive parse_error : Type := Invalid | OutOfFuel.
Record parser : Type := Parser { ps_rest : units; ps_nodes : Z }.
Abbreviation PM := (M parser parse_error).

Definition peek : PM (option Z) := gets (fun s => head (ps_rest s)).
Definition advance (n : nat) : PM unit := modify (fun s => Parser (drop n (ps_rest s)) (ps_nodes s)).
Definition set_rest (r : units) : PM unit := modify (fun s => Parser r (ps_nodes s)).
Definition invalid {A} : PM A := throw Invalid.

Definition isSpace (x : Z) : bool := (x =? 32) || (x =? 9) || (x =? 13) || (x =? 10).
Fixpoint dropSpaces (u : units) : units :=
  match u with
  | x :: r => if isSpace x then dropSpaces r else u
  | [] => []
  end.
Definition skipWhitespace : PM unit := modify (fun s => Parser (dropSpaces (ps_rest s)) (ps_nodes s)).
(** [take]. *)
Definition takeText (t : units) : PM bool :=
  s ← get_state;
  if bool_decide (take (length t) (ps_rest s) = t) then _ ← advance (length t); mret true else mret false.

Definition hexValue (x : Z) : option Z :=
  if (48 <=? x) && (x <=? 57) then Some (x - 48)
  else if (97 <=? x) && (x <=? 102) then Some (x - 87)
  else if (65 <=? x) && (x <=? 70) then Some (x - 55)
  else None.
(** [hexCodeUnit] on its four characters. *)
Definition hexCodeUnit (a b c d : Z) : option Z :=
  x ← hexValue a; y ← hexValue b; z ← hexValue c; w ← hexValue d;
  Some (x * 4096 + y * 256 + z * 16 + w).
(** The character of a simple escape. *)
Definition simpleEscape (e : Z) : option Z :=
  if (e =? QUOTE) || (e =? BACKSLASH) || (e =? 47) then Some e
  else if e =? 98 then Some 8 else if e =? 102 then Some 12 else if e =? 110 then Some 10
  else if e =? 114 then Some 13 else if e =? 116 then Some 9 else None.
Definition withinString (u : units) : bool := Z.of_nat (length u) <=? MAX_STRING_LENGTH.
(** The loop of [string]: what it has read, and the rest after the closing quote. *)
Fixpoint stringLoop (r : units) (result : units) : option (units * units) :=
  match r with
  | [] => None
  | x :: r1 =>
      if x =? QUOTE then if assertWellFormedString result then Some (result, r1) else None
      else if x =? BACKSLASH then
        match r1 with
        | [] => None
        | e :: r2 =>
            match simpleEscape e with
            | Some y => if withinString (result ++ [y]) then stringLoop r2 (result ++ [y]) else None
            | None =>
                if e =? 117 then
                  match r2 with
                  | a :: b :: c :: d :: r3 =>
                      match hexCodeUnit a b c d with
                      | Some y => if withinString (result ++ [y]) then stringLoop r3 (result ++ [y]) else None
                      | None => None
                      end
                  | _ => None
                  end
                else None
            end
        end
      else if x <=? 31 then None
      else if withinString (result ++ [x]) then stringLoop r1 (result ++ [x]) else None
  end.
(** [string], at the opening quote. *)
Definition string_ : PM units :=
  s ← get_state;
  match stringLoop (drop 1 (ps_rest s)) [] with
  | Some (u, r) => _ ← set_rest r; mret u
  | None => invalid
  end.

Definition isDigitUnit (x : Z) : bool := (48 <=? x) && (x <=? 57).
Fixpoint takeDigits (u : units) : units * units :=
  match u with
  | x :: r => if isDigitUnit x then let '(ds, r') := takeDigits r in (x :: ds, r') else ([], u)
  | [] => ([], [])
  end.
(** The digits of an integer and what follows them. *)
Definition digits (u : units) : option (units * units) :=
  match u with
  | x :: r => if x =? 48 then Some ([x], r)
              else if (49 <=? x) && (x <=? 57) then let '(ds, r') := takeDigits r in Some (x :: ds, r')
              else None
  | [] => None
  end.
(** [integer]: the numeral, its value and whether it is one. *)
Definition integerOf (u : units) : option (Z * units) :=
  let '(negative, u1) := match u with x :: r => if x =? 45 then (true, r) else (false, u) | [] => (false, u) end in
  '(ds, r) ← digits u1;
  if match r with x :: _ => (x =? 46) || (x =? 101) || (x =? 69) | [] => false end then None
  else let n := dec_value (map (fun x => x - 48) ds) in
       if (MAX_SAFE_INTEGER <? n) || (negative && (n =? 0)) then None
       else Some (if negative then - n else n, r).
Definition integer : PM tree :=
  s ← get_state;
  match integerOf (ps_rest s) with
  | Some (z, r) => _ ← set_rest r; mret (TNum (NInt z))
  | None => invalid
  end.

(** The count of a value. *)
Definition enter (depth : Z) : PM unit :=
  s ← get_state;
  _ ← throw_if (MAX_DEPTH <? depth) Invalid;
  _ ← modify (fun s => Parser (ps_rest s) (ps_nodes s + 1));
  throw_if (MAX_NODES <? ps_nodes s + 1) Invalid.
(** A constant, tried where its first letter is. *)
Definition constant (word : units) (t : tree) : PM tree :=
  b ← takeText word; if b : bool then mret t else invalid.

(** [value], and the loops of [object] and [array]. *)
Fixpoint value (fuel : nat) (depth : Z) : PM tree :=
  match fuel with
  | O => throw OutOfFuel
  | S fuel' =>
      _ ← enter depth;
      next ← peek;
      match next with
      | None => invalid
      | Some x =>
          if x =? 123 then
            _ ← advance 1; _ ← skipWhitespace;
            y ← peek;
            if bool_decide (y = Some 125) then _ ← advance 1; mret (TObj [])
            else fs ← members fuel' (depth + 1) []; mret (TObj fs)
          else if x =? 91 then
            _ ← advance 1; _ ← skipWhitespace;
            y ← peek;
            if bool_decide (y = Some 93) then _ ← advance 1; mret (TArr [])
            else l ← elements fuel' (depth + 1) []; mret (TArr l)
          else if x =? QUOTE then u ← string_; mret (TStr u)
          else if x =? 116 then constant (text "true") (TBool true)
          else if x =? 102 then constant (text "false") (TBool false)
          else if x =? 110 then constant (text "null") TNull
          else if (x =? 45) || isDigitUnit x then integer
          else invalid
      end
  end
with members (fuel : nat) (depth : Z) (fs : list (units * tree)) : PM (list (units * tree)) :=
  match fuel with
  | O => throw OutOfFuel
  | S fuel' =>
      q ← peek;
      _ ← throw_if (negb (bool_decide (q = Some QUOTE))) Invalid;
      key ← string_;
      _ ← throw_if (bool_decide (key ∈ map fst fs)) Invalid;
      _ ← skipWhitespace;
      c ← peek;
      _ ← throw_if (negb (bool_decide (c = Some COLON))) Invalid;
      _ ← advance 1; _ ← skipWhitespace;
      t ← value fuel' depth;
      _ ← skipWhitespace;
      delimiter ← peek;
      if bool_decide (delimiter = Some 125) then _ ← advance 1; mret (fs ++ [(key, t)])
      else
        _ ← throw_if (negb (bool_decide (delimiter = Some COMMA))) Invalid;
        _ ← advance 1; _ ← skipWhitespace;
        members fuel' depth (fs ++ [(key, t)])
  end
with elements (fuel : nat) (depth : Z) (l : list tree) : PM (list tree) :=
  match fuel with
  | O => throw OutOfFuel
  | S fuel' =>
      t ← value fuel' depth;
      _ ← skipWhitespace;
      delimiter ← peek;
      if bool_decide (delimiter = Some 93) then _ ← advance 1; mret (l ++ [t])
      else
        _ ← throw_if (negb (bool_decide (delimiter = Some COMMA))) Invalid;
        _ ← advance 1; _ ← skipWhitespace;
        elements fuel' depth (l ++ [t])
  end.
(** Two calls for every character are enough. *)
Definition parseFuel (u : units) : nat := (2 * length u + 2)%nat.
Definition parseText (u : units) : result parse_error tree :=
  if MAX_INPUT_BYTES <? byteLength u then Err Invalid
  else fst ((_ ← skipWhitespace;
             t ← value (parseFuel u) 0;
             _ ← skipWhitespace;
             s ← get_state;
             _ ← throw_if (negb (bool_decide (ps_rest s = []))) Invalid;
             mret t) (Parser u 0)).
(** [parseCanonicalJson] of bytes. *)
Definition parseCanonicalJson (b : bytes) : result parse_error tree :=
  match textDecode b with Some u => parseText u | None => Err Invalid end.

(** ** What the checks say *)

Fixpoint nodesOf (t : tree) : Z :=
  match t with
  | TArr l => 1 + sumZ (map nodesOf l)
  | TObj fs => 1 + sumZ (map (fun f => nodesOf (snd f)) fs)
  | _ => 1
  end.
(** What holds of a canonical value at a depth, but for the number of its nodes. *)
Fixpoint okTree (depth : Z) (t : tree) : bool :=
  (depth <=? MAX_DEPTH)
  && match t with
     | TNull | TBool _ => true
     | TStr u => assertWellFormedString u
     | TNum (NInt z) => bool_decide (Z.abs z <= MAX_SAFE_INTEGER)
     | TNum _ => false
     | TArr l => forallb (okTree (depth + 1)) l
     | TObj fs => forallb (fun f => assertWellFormedString (fst f) && okTree (depth + 1) (snd f)) fs
     end.
(** Every JavaScript value: the units of its strings are units, the keys of an object
    differ. *)
Fixpoint tree_wf (t : tree) : Prop :=
  match t with
  | TStr u => Forall isUnit u
  | TArr l => foldr and True (map tree_wf l)
  | TObj fs => NoDup (map fst fs) /\ foldr and True (map (fun f => Forall isUnit (fst f) /\ tree_wf (snd f)) fs)
  | _ => True
  end.

Lemma foldr_and_Forall' {A} (P : A -> Prop) l : foldr and True (map P l) <-> Forall P l.
Proof. induction l as [|x l IH]; simpl; [split; auto|]. by rewrite Forall_cons, IH. Qed.
Lemma sumZ_cons x l : sumZ (x :: l) = x + sumZ l.
Proof. done. Qed.
Lemma sumZ_app a b : sumZ (a ++ b) = sumZ a + sumZ b.
Proof. induction a as [|x a IH]; [done|]. simpl. unfold sumZ in *. simpl. lia. Qed.
#[local] Arguments sumZ : simpl never.

Lemma nodesOf_pos t : 1 <= nodesOf t.
Proof.
  assert (forall l, Forall (fun x => 1 <= x) l -> 0 <= sumZ l) as Hs.
  { induction 1 as [|x l Hx _ IH]; [done|]. rewrite sumZ_cons. lia. }
  induction t as [|b|n|u|l IH|fs IH] using tree_ind'; simpl; try lia.
  - enough (0 <= sumZ (map nodesOf l)) by lia. apply Hs, Forall_map, IH.
  - enough (0 <= sumZ (map (fun f => nodesOf (snd f)) fs)) by lia. by apply Hs, Forall_map.
Qed.

(** The counter of the traversal is the number of nodes. *)
Lemma assert_fold {A} (ok : A -> bool) (count : A -> Z) (f : A -> Z -> option Z) l :
  (forall x, 1 <= count x) ->
  Forall (fun x => forall n, n <= MAX_NODES ->
    f x n = if ok x && (n + count x <=? MAX_NODES) then Some (n + count x) else None) l ->
  forall n, n <= MAX_NODES ->
  foldl (fun acc x => m ← acc; f x m) (Some n) l
  = if forallb ok l && (n + sumZ (map count l) <=? MAX_NODES) then Some (n + sumZ (map count l)) else None.
Proof.
  intros Hpos. assert (forall l, 0 <= sumZ (map count l)) as Hsum.
  { intros l'. induction l' as [|x l' IH]; [done|]. simpl. rewrite sumZ_cons. specialize (Hpos x). lia. }
  induction 1 as [|x l Hx _ IH]; intros n Hn; simpl.
  { unfold sumZ. simpl. rewrite Z.add_0_r. by rewrite (proj2 (Z.leb_le _ _) Hn). }
  rewrite Hx, sumZ_cons by done. specialize (Hsum l).
  destruct (ok x); simpl.
  2:{ clear. induction l; [done|]. done. }
  destruct (n + count x <=? MAX_NODES) eqn:E.
  - apply Z.leb_le in E. rewrite IH by done. by rewrite Z.add_assoc.
  - apply Z.leb_gt in E. rewrite (proj2 (Z.leb_gt (n + _) _)) by lia. rewrite andb_false_r.
    clear. induction l; [done|]. done.
Qed.
Lemma assert_spec t : forall d n, n <= MAX_NODES ->
  assertCanonicalValue t d n = if okTree d t && (n + nodesOf t <=? MAX_NODES) then Some (n + nodesOf t) else None.
Proof.
  assert (forall d n, (MAX_DEPTH <? d) || (MAX_NODES <? n + 1) = negb ((d <=? MAX_DEPTH) && (n + 1 <=? MAX_NODES))) as Hguard by lia.
  induction t as [|b|x|u|l IH|fs IH] using tree_ind'; intros d n Hn; cbn [assertCanonicalValue okTree nodesOf];
    rewrite Hguard; destruct (d <=? MAX_DEPTH); cbn [andb negb]; try done; destruct (n + 1 <=? MAX_NODES) eqn:E; cbn [negb]; try done.
  - destruct x as [z| | |]; try done. by case_bool_decide.
  - destruct x as [z| | |]; try done. by rewrite andb_false_r.
  - by destruct (assertWellFormedString u).
  - by rewrite andb_false_r.
  - apply Z.leb_le in E. rewrite (assert_fold (okTree (d + 1)) nodesOf (fun x m => assertCanonicalValue x (d + 1) m)).
    + by rewrite Z.add_assoc.
    + apply nodesOf_pos.
    + eapply Forall_impl; [exact IH|]. intros x Hx m Hm. by apply Hx.
    + done.
  - apply Z.leb_gt in E. rewrite (proj2 (Z.leb_gt _ _)); [by rewrite andb_false_r|].
    pose proof (nodesOf_pos (TArr l)) as Hp. simpl in Hp. enough (0 <= sumZ (map nodesOf l)) by lia. lia.
  - apply Z.leb_le in E. rewrite (assert_fold (fun f => assertWellFormedString (fst f) && okTree (d + 1) (snd f))
      (fun f => nodesOf (snd f)) (fun f m => if assertWellFormedString (fst f) then assertCanonicalValue (snd f) (d + 1) m else None)).
    + by rewrite Z.add_assoc.
    + intros f. apply nodesOf_pos.
    + eapply Forall_impl; [exact IH|]. intros f Hf m Hm. destruct (assertWellFormedString (fst f)); [by apply Hf|done].
    + done.
  - apply Z.leb_gt in E. rewrite (proj2 (Z.leb_gt _ _)); [by rewrite andb_false_r|].
    pose proof (nodesOf_pos (TObj fs)) as Hp. simpl in Hp. lia.
Qed.

(** ** Sorted trees *)

Fixpoint sortKeys (t : tree) : tree :=
  match t with
  | TArr l => TArr (map sortKeys l)
  | TObj fs => TObj (sort_by keyLe (map (fun f => (fst f, sortKeys (snd f))) fs))
  | _ => t
  end.
(** Writing in the order of the tree. *)
Fixpoint print (t : tree) : units :=
  match t with
  | TNull => text "null"
  | TBool b => text (if b then "true" else "false")
  | TNum (NInt z) => integerText z
  | TNum _ => []
  | TStr u => encodeString u
  | TArr l => text "[" ++ join [COMMA] (map print l) ++ text "]"
  | TObj fs => text "{" ++ join [COMMA] (map (fun f => member (fst f, print (snd f))) fs) ++ text "}"
  end.

Lemma insert_by_map {A B} (g : A -> B) (x : units * A) l :
  insert_by keyLe (prod_map id g x) (map (prod_map id g) l) = map (prod_map id g) (insert_by keyLe x l).
Proof.
  induction l as [|y l IH]; [done|]. simpl. unfold keyLe at 1 3. simpl. destruct (unitsLe _ _); [done|].
  simpl. by rewrite IH.
Qed.
Lemma sort_by_map {A B} (g : A -> B) (l : list (units * A)) :
  sort_by keyLe (map (fun f => (fst f, g (snd f))) l) = map (fun f => (fst f, g (snd f))) (sort_by keyLe l).
Proof.
  assert (forall l, map (fun f : units * A => (fst f, g (snd f))) l = map (prod_map id g) l) as Hext.
  { intros l'. apply map_ext. by intros []. }
  rewrite !Hext. induction l as [|x l IH]; [done|]. simpl. rewrite IH. apply insert_by_map.
Qed.
Lemma serialize_print t : serialize t = print (sortKeys t).
Proof.
  induction t as [|b|n|u|l IH|fs IH] using tree_ind'; try done; cbn [serialize sortKeys print].
  - do 3 f_equal. rewrite map_map. apply map_ext_in. intros x Hx. rewrite Forall_forall in IH.
    apply IH. by apply list_elem_of_In.
  - do 3 f_equal. rewrite !sort_by_map, !map_map. apply map_ext_in. intros f Hf. cbn [fst snd]. do 2 f_equal.
    rewrite Forall_forall in IH. apply IH. apply list_elem_of_In in Hf. by rewrite sort_by_elem in Hf.
Qed.

Lemma sumZ_perm l l' : l ≡ₚ l' -> sumZ l = sumZ l'.
Proof. induction 1; rewrite ?sumZ_cons; lia. Qed.
#[export] Instance sumZ_proper : Proper (Permutation ==> eq) sumZ.
Proof. intros l l'. apply sumZ_perm. Qed.
Lemma forallb_perm {A} (p : A -> bool) l l' : l ≡ₚ l' -> forallb p l = forallb p l'.
Proof. induction 1; simpl; try congruence. by rewrite !andb_assoc, (andb_comm (p y)). Qed.
Lemma forallb_map_eq {A B} (g : A -> B) p l : forallb p (map g l) = forallb (fun x => p (g x)) l.
Proof. induction l as [|x l IH]; [done|]. simpl. by rewrite IH. Qed.
Lemma forallb_ext_in {A} (p q : A -> bool) l : Forall (fun x => p x = q x) l -> forallb p l = forallb q l.
Proof. induction 1 as [|x l Hx _ IH]; [done|]. simpl. by rewrite Hx, IH. Qed.

Lemma sortKeys_nodes t : nodesOf (sortKeys t) = nodesOf t.
Proof.
  induction t as [|b|n|u|l IH|fs IH] using tree_ind'; try done; cbn [sortKeys nodesOf]; f_equal.
  - rewrite map_map. f_equal. apply map_ext_in. intros x Hx. rewrite Forall_forall in IH. by apply IH, list_elem_of_In.
  - rewrite sort_by_perm, map_map. cbn [snd]. f_equal. apply map_ext_in. intros x Hx. rewrite Forall_forall in IH.
    by apply (IH x), list_elem_of_In.
Qed.
Lemma sortKeys_ok t : forall d, okTree d (sortKeys t) = okTree d t.
Proof.
  induction t as [|b|n|u|l IH|fs IH] using tree_ind'; intros d; try done; cbn [sortKeys okTree]; f_equal.
  - rewrite forallb_map_eq. apply forallb_ext_in. eapply Forall_impl; [exact IH|]. by intros x Hx.
  - rewrite (forallb_perm _ _ _ (sort_by_perm keyLe _)), forallb_map_eq. apply forallb_ext_in.
    eapply Forall_impl; [exact IH|]. intros f Hf. cbn [fst snd]. by rewrite Hf.
Qed.
Lemma sortKeys_wf t : tree_wf t -> tree_wf (sortKeys t).
Proof.
  induction t as [|b|n|u|l IH|fs IH] using tree_ind'; try done; cbn [sortKeys tree_wf]; rewrite !foldr_and_Forall'.
  - intros Hl. apply Forall_map. rewrite Forall_forall in *. auto.
  - rewrite sort_by_perm, map_map. cbn [fst snd]. intros [Hnd Hl]. split; [done|].
    rewrite Forall_map. rewrite Forall_forall in *. intros f Hf. destruct (Hl f Hf). split; [done|]. by apply IH.
Qed.

(** ** Reading what was written *)

(** What may follow a value. *)
Definition ends (r : units) : Prop := match r with [] => True | x :: _ => x = COMMA \/ x = 93 \/ x = 125 end.
(** What a value begins with. *)
Definition starts (x : Z) : Prop :=
  x = 123 \/ x = 91 \/ x = QUOTE \/ x = 116 \/ x = 102 \/ x = 110 \/ x = 45 \/ 48 <= x <= 57.
Lemma starts_solid x : starts x -> isSpace x = false /\ x <> 93 /\ x <> 125.
Proof. unfold starts, isSpace, QUOTE. lia. Qed.
Lemma dropSpaces_solid x r : isSpace x = false -> dropSpaces (x :: r) = x :: r.
Proof. intros H. simpl. by rewrite H. Qed.
Lemma dropSpaces_ends r : ends r -> dropSpaces r = r.
Proof. destruct r as [|x r]; [done|]. intros Hx. apply dropSpaces_solid. unfold ends, COMMA, isSpace in *. lia. Qed.

(** *** Strings *)

Lemma stringLoop_raw x r acc :
  x <> QUOTE -> x <> BACKSLASH -> 31 < x -> withinString (acc ++ [x]) = true ->
  stringLoop (x :: r) acc = stringLoop r (acc ++ [x]).
Proof.
  intros H1 H2 H3 H4. cbn [stringLoop]. rewrite (proj2 (Z.eqb_neq _ _) H1), (proj2 (Z.eqb_neq _ _) H2).
  rewrite (proj2 (Z.leb_gt _ _)) by lia. by rewrite H4.
Qed.
Lemma stringLoop_simple e y r acc :
  simpleEscape e = Some y -> withinString (acc ++ [y]) = true ->
  stringLoop (BACKSLASH :: e :: r) acc = stringLoop r (acc ++ [y]).
Proof. intros He Hw. cbn [stringLoop]. simpl. by rewrite He, Hw. Qed.
Lemma stringLoop_hex a b c d y r acc :
  hexCodeUnit a b c d = Some y -> withinString (acc ++ [y]) = true ->
  stringLoop (BACKSLASH :: 117 :: a :: b :: c :: d :: r) acc = stringLoop r (acc ++ [y]).
Proof. intros He Hw. cbn [stringLoop]. simpl. by rewrite He, Hw. Qed.
Lemma hex_control x : 0 <= x < 32 -> hexCodeUnit 48 48 (hexDigit (x / 16)) (hexDigit (x mod 16)) = Some x.
Proof.
  intros Hx. assert (forallb (fun x => bool_decide (hexCodeUnit 48 48 (hexDigit (x / 16)) (hexDigit (x mod 16)) = Some x))
    (seqFrom 0 32) = true) as Hall by (vm_compute; reflexivity).
  rewrite forallb_forall in Hall. specialize (Hall x). apply bool_decide_eq_true in Hall; [done|].
  apply list_elem_of_In, seqFrom_elem. simpl. lia.
Qed.
Lemma stringLoop_escape x r acc :
  isUnit x -> withinString (acc ++ [x]) = true -> stringLoop (escapeUnit x ++ r) acc = stringLoop r (acc ++ [x]).
Proof.
  intros Hx Hw. unfold escapeUnit. unfold isUnit in Hx.
  destruct (x =? QUOTE) eqn:E1; [apply Z.eqb_eq in E1 as ->; by apply stringLoop_simple|].
  destruct (x =? BACKSLASH) eqn:E2; [apply Z.eqb_eq in E2 as ->; by apply stringLoop_simple|].
  destruct (x =? 8) eqn:E3; [apply Z.eqb_eq in E3 as ->; by apply (stringLoop_simple 98)|].
  destruct (x =? 9) eqn:E4; [apply Z.eqb_eq in E4 as ->; by apply (stringLoop_simple 116)|].
  destruct (x =? 10) eqn:E5; [apply Z.eqb_eq in E5 as ->; by apply (stringLoop_simple 110)|].
  destruct (x =? 12) eqn:E6; [apply Z.eqb_eq in E6 as ->; by apply (stringLoop_simple 102)|].
  destruct (x =? 13) eqn:E7; [apply Z.eqb_eq in E7 as ->; by apply (stringLoop_simple 114)|].
  apply Z.eqb_neq in E1, E2.
  destruct (x <? 32) eqn:E8.
  - apply Z.ltb_lt in E8. rewrite <- app_assoc. change (text "\u00") with [BACKSLASH; 117; 48; 48]. cbn [app].
    apply stringLoop_hex; [|done]. apply hex_control. lia.
  - apply Z.ltb_ge in E8. cbn [app]. apply stringLoop_raw; [done|done|lia|done].
Qed.
Lemma withinString_prefix a b : withinString (a ++ b) = true -> withinString a = true.
Proof. unfold withinString. rewrite length_app. intros H%Z.leb_le. apply Z.leb_le. lia. Qed.
Lemma stringLoop_encoded u r : forall acc,
  Forall isUnit u -> assertWellFormedString (acc ++ u) = true ->
  stringLoop (concat (map escapeUnit u) ++ QUOTE :: r) acc = Some (acc ++ u, r).
Proof.
  induction u as [|x u IH]; intros acc Hu Hw.
  - rewrite app_nil_r in *. cbn. by rewrite Hw.
  - apply Forall_cons in Hu as [Hx Hu]. cbn [map concat]. rewrite <- app_assoc.
    assert (acc ++ x :: u = (acc ++ [x]) ++ u) as E by (by rewrite <- app_assoc).
    rewrite stringLoop_escape; [|done|].
    + rewrite E in *. by apply IH.
    + apply andb_true_iff in Hw as [Hw _]. rewrite E in Hw. by apply (withinString_prefix _ u).
Qed.
Lemma string_encoded u r n :
  Forall isUnit u -> assertWellFormedString u = true ->
  string_ (Parser (encodeString u ++ r) n) = (Ok u, Parser r n).
Proof.
  intros Hu Hw. unfold string_, encodeString. set (s := Parser _ _).
  rewrite (bind_run _ _ s s s) by done. unfold s. cbn [ps_rest app].
  change (drop 1 (QUOTE :: ?l)) with l. rewrite <- app_assoc. cbn [app].
  by rewrite (stringLoop_encoded u r []).
Qed.

(** *** Integers *)

Lemma takeDigits_digits ds r :
  Forall is_dec_digit ds -> match r with x :: _ => isDigitUnit x = false | [] => True end ->
  takeDigits (map (fun d => 48 + d) ds ++ r) = (map (fun d => 48 + d) ds, r).
Proof.
  intros Hds Hr. induction Hds as [|d ds Hd _ IH]; simpl.
  - destruct r as [|x r]; [done|]. simpl. by rewrite Hr.
  - unfold is_dec_digit in Hd. replace (isDigitUnit (48 + d)) with true by (unfold isDigitUnit; lia). by rewrite IH.
Qed.
Lemma map_digits ds : map (fun x => x - 48) (map (fun d => 48 + d) ds) = ds.
Proof. rewrite map_map. rewrite <- (map_id ds) at 2. apply map_ext. intros. lia. Qed.
Lemma digits_text n r :
  0 <= n -> ends r -> digits (map (fun d => 48 + d) (dec_digits n) ++ r) = Some (map (fun d => 48 + d) (dec_digits n), r).
Proof.
  intros Hn Hr. destruct (dec_digits_spec n Hn) as (_ & Hall & d & ds & E & Hz). rewrite E in *.
  apply Forall_cons in Hall as [Hd Hall]. unfold is_dec_digit in Hd. cbn [map app digits].
  destruct (decide (d = 0)) as [->|Hne].
  - destruct (Hz eq_refl) as [_ ->]. done.
  - rewrite (proj2 (Z.eqb_neq _ _)) by lia.
    replace ((49 <=? 48 + d) && (48 + d <=? 57)) with true by lia. rewrite takeDigits_digits; [done|done|].
    destruct r as [|x r]; [done|]. unfold ends, COMMA, isDigitUnit in *. lia.
Qed.
Lemma integerOf_text z r :
  Z.abs z <= MAX_SAFE_INTEGER -> ends r -> integerOf (integerText z ++ r) = Some (z, r).
Proof.
  intros Hz Hr. unfold integerOf, integerText.
  assert (match r with x :: _ => (x =? 46) || (x =? 101) || (x =? 69) | [] => false end = false) as Htail.
  { destruct r as [|x r]; [done|]. unfold ends, COMMA in Hr. lia. }
  destruct (z <? 0) eqn:E.
  - apply Z.ltb_lt in E. cbn [app]. change (45 =? 45) with true. cbv iota.
    rewrite digits_text by (done || lia). cbn [mbind option_bind]. rewrite Htail, map_digits.
    destruct (dec_digits_spec (- z)) as [-> _]; [lia|].
    replace ((MAX_SAFE_INTEGER <? - z) || (true && (- z =? 0))) with false by lia. do 2 f_equal. lia.
  - apply Z.ltb_ge in E. destruct (dec_digits_spec z E) as (Hv & Hall & d & ds & Ed & _).
    assert (match map (fun d => 48 + d) (dec_digits z) ++ r with
            | x :: r0 => if x =? 45 then (true, r0) else (false, map (fun d => 48 + d) (dec_digits z) ++ r)
            | [] => (false, map (fun d => 48 + d) (dec_digits z) ++ r) end
      = (false, map (fun d => 48 + d) (dec_digits z) ++ r)) as ->.
    { rewrite Ed in *. apply Forall_cons in Hall as [Hd _]. unfold is_dec_digit in Hd. cbn [map app].
      by rewrite (proj2 (Z.eqb_neq _ _)) by lia. }
    rewrite digits_text by done. cbn [mbind option_bind]. rewrite Htail, map_digits, Hv.
    replace ((MAX_SAFE_INTEGER <? z) || (false && (z =? 0))) with false by lia. done.
Qed.
Lemma integerText_starts z : exists x r, integerText z = x :: r /\ (x = 45 \/ 48 <= x <= 57).
Proof.
  unfold integerText. destruct (z <? 0) eqn:E; [eexists _, _; split; [done|lia]|]. apply Z.ltb_ge in E.
  destruct (dec_digits_spec z E) as (_ & Hall & d & ds & Ed & _). rewrite Ed in *. apply Forall_cons in Hall as [Hd _].
  unfold is_dec_digit in Hd. cbn [map]. eexists _, _. split; [done|lia].
Qed.
Lemma print_starts d t : okTree d t = true -> exists x r, print t = x :: r /\ starts x.
Proof.
  intros Hok. destruct t as [|b|n|u|l|fs]; cbn [print okTree] in *.
  - exists 110, (text "ull"). split; [reflexivity|]. unfold starts. lia.
  - destruct b; [exists 116, (text "rue")|exists 102, (text "alse")]; (split; [reflexivity|]); unfold starts; lia.
  - apply andb_true_iff in Hok as [_ Hok]. destruct n as [z| | |]; try done.
    destruct (integerText_starts z) as (x & r & -> & Hx). exists x, r. split; [done|]. unfold starts. lia.
  - exists QUOTE. eexists. split; [reflexivity|]. unfold starts. lia.
  - exists 91. eexists. split; [reflexivity|]. unfold starts. lia.
  - exists 123. eexists. split; [reflexivity|]. unfold starts. lia.
Qed.

(** *** Values *)

Lemma enter_ok d r n : d <= MAX_DEPTH -> n + 1 <= MAX_NODES -> enter d (Parser r n) = (Ok tt, Parser r (n + 1)).
Proof.
  intros Hd Hn. unfold enter. set (s := Parser r n). rewrite (bind_run _ _ s s s) by done.
  rewrite (bind_run _ _ s tt s) by (unfold throw_if; by rewrite (proj2 (Z.ltb_ge _ _) Hd)).
  rewrite (bind_run _ _ s tt (Parser r (n + 1))) by done. unfold throw_if, s. cbn [ps_nodes].
  by rewrite (proj2 (Z.ltb_ge _ _) Hn).
Qed.
(** The head of a value, entered. *)
Ltac enter_value d r n :=
  cbn [value]; rewrite (bind_run _ _ _ tt (Parser r (n + 1))) by (by apply enter_ok);
  rewrite (bind_run _ _ _ (head r) (Parser r (n + 1))) by done; cbn [head];
  cbn beta iota.

Section Open.
Context (f : nat) (d n : Z) (Hd : d <= MAX_DEPTH) (Hn : n + 1 <= MAX_NODES).
#[local] Arguments Z.eqb : simpl nomatch.

Lemma value_array x r : isSpace x = false -> x <> 93 ->
  value (S f) d (Parser (91 :: x :: r) n)
  = (l ← elements f (d + 1) []; mret (TArr l)) (Parser (x :: r) (n + 1)).
Proof.
  intros Hx Hne. enter_value d (91 :: x :: r) n. change (91 =? 123) with false. change (91 =? 91) with true. cbv iota.
  rewrite (bind_run _ _ _ tt (Parser (x :: r) (n + 1))) by done.
  rewrite (bind_run _ _ _ tt (Parser (x :: r) (n + 1))).
  2:{ unfold skipWhitespace, modify. cbn [ps_rest ps_nodes]. by rewrite dropSpaces_solid. }
  rewrite (bind_run _ _ _ (Some x) (Parser (x :: r) (n + 1))) by done.
  by rewrite bool_decide_eq_false_2 by congruence.
Qed.
Lemma value_array_empty r : value (S f) d (Parser (91 :: 93 :: r) n) = (Ok (TArr []), Parser r (n + 1)).
Proof. enter_value d (91 :: 93 :: r) n. reflexivity. Qed.
Lemma value_object x r : isSpace x = false -> x <> 125 ->
  value (S f) d (Parser (123 :: x :: r) n)
  = (fs ← members f (d + 1) []; mret (TObj fs)) (Parser (x :: r) (n + 1)).
Proof.
  intros Hx Hne. enter_value d (123 :: x :: r) n. change (123 =? 123) with true. cbv iota.
  rewrite (bind_run _ _ _ tt (Parser (x :: r) (n + 1))) by done.
  rewrite (bind_run _ _ _ tt (Parser (x :: r) (n + 1))).
  2:{ unfold skipWhitespace, modify. cbn [ps_rest ps_nodes]. by rewrite dropSpaces_solid. }
  rewrite (bind_run _ _ _ (Some x) (Parser (x :: r) (n + 1))) by done.
  by rewrite bool_decide_eq_false_2 by congruence.
Qed.
Lemma value_object_empty r : value (S f) d (Parser (123 :: 125 :: r) n) = (Ok (TObj []), Parser r (n + 1)).
Proof. enter_value d (123 :: 125 :: r) n. reflexivity. Qed.
Lemma value_string u r : Forall isUnit u -> assertWellFormedString u = true ->
  value (S f) d (Parser (encodeString u ++ r) n) = (Ok (TStr u), Parser r (n + 1)).
Proof.
  intros Hu Hw. set (r' := encodeString u ++ r). enter_value d r' n.
  change (head r') with (Some QUOTE). cbv iota.
  change (QUOTE =? 123) with false. change (QUOTE =? 91) with false. change (QUOTE =? QUOTE) with true. cbv iota.
  rewrite (bind_run _ _ _ u (Parser r (n + 1))) by (by apply string_encoded). done.
Qed.
Lemma value_integer z r : Z.abs z <= MAX_SAFE_INTEGER -> ends r ->
  value (S f) d (Parser (integerText z ++ r) n) = (Ok (TNum (NInt z)), Parser r (n + 1)).
Proof.
  intros Hz Hr. destruct (integerText_starts z) as (x & t & E & Hx). set (r' := integerText z ++ r). enter_value d r' n.
  replace (head r') with (Some x) by (unfold r'; by rewrite E). cbv iota.
  rewrite !(proj2 (Z.eqb_neq x _)) by (unfold QUOTE; lia).
  replace ((x =? 45) || isDigitUnit x) with true by (unfold isDigitUnit; lia). cbv iota.
  unfold integer. rewrite (bind_run _ _ _ (Parser r' (n + 1)) (Parser r' (n + 1))) by done. cbn [ps_rest].
  unfold r'. by rewrite integerOf_text.
Qed.
Lemma value_null r : value (S f) d (Parser (text "null" ++ r) n) = (Ok TNull, Parser r (n + 1)).
Proof. enter_value d (text "null" ++ r) n. reflexivity. Qed.
Lemma value_bool (b : bool) r : value (S f) d (Parser (text (if b then "true" else "false") ++ r) n) = (Ok (TBool b), Parser r (n + 1)).
Proof.
  destruct b; [enter_value d (text "true" ++ r) n|enter_value d (text "false" ++ r) n]; reflexivity.
Qed.
End Open.

Section Loops.
Context (f : nat) (d : Z).

Lemma skip_solid x r n : isSpace x = false -> skipWhitespace (Parser (x :: r) n) = (Ok tt, Parser (x :: r) n).
Proof. intros Hx. unfold skipWhitespace, modify. cbn [ps_rest ps_nodes]. by rewrite dropSpaces_solid. Qed.
(** After an element: the end of the array, or a comma and the next one. *)
Lemma elements_last acc st t r n :
  value f d st = (Ok t, Parser (93 :: r) n) -> elements (S f) d acc st = (Ok (acc ++ [t]), Parser r n).
Proof.
  intros Hv. cbn [elements]. rewrite (bind_run _ _ _ _ _ Hv).
  rewrite (bind_run _ _ _ tt (Parser (93 :: r) n)) by (by apply skip_solid).
  rewrite (bind_run _ _ _ (Some 93) (Parser (93 :: r) n)) by done. by rewrite bool_decide_eq_true_2.
Qed.
Lemma elements_next acc st t x r n : isSpace x = false ->
  value f d st = (Ok t, Parser (COMMA :: x :: r) n) ->
  elements (S f) d acc st = elements f d (acc ++ [t]) (Parser (x :: r) n).
Proof.
  intros Hx Hv. cbn [elements]. rewrite (bind_run _ _ _ _ _ Hv).
  rewrite (bind_run _ _ _ tt (Parser (COMMA :: x :: r) n)) by (by apply skip_solid).
  rewrite (bind_run _ _ _ (Some COMMA) (Parser (COMMA :: x :: r) n)) by done.
  rewrite bool_decide_eq_false_2 by done.
  rewrite (bind_run _ _ _ tt (Parser (COMMA :: x :: r) n)) by (by rewrite bool_decide_eq_true_2).
  rewrite (bind_run _ _ _ tt (Parser (x :: r) n)) by done.
  by rewrite (bind_run _ _ _ tt (Parser (x :: r) n)) by (by apply skip_solid).
Qed.
(** The key of a member, up to its value. *)
Lemma members_key acc k x r n :
  Forall isUnit k -> assertWellFormedString k = true -> k ∉ map fst acc -> isSpace x = false ->
  members (S f) d acc (Parser (encodeString k ++ COLON :: x :: r) n)
  = (t ← value f d; _ ← skipWhitespace; delimiter ← peek;
     if bool_decide (delimiter = Some 125) then _ ← advance 1; mret (acc ++ [(k, t)])
     else _ ← throw_if (negb (bool_decide (delimiter = Some COMMA))) Invalid;
          _ ← advance 1; _ ← skipWhitespace; members f d (acc ++ [(k, t)])) (Parser (x :: r) n).
Proof.
  intros Hu Hw Hk Hx. set (r' := encodeString k ++ COLON :: x :: r). cbn [members].
  rewrite (bind_run _ _ _ (Some QUOTE) (Parser r' n)) by done.
  rewrite (bind_run _ _ _ tt (Parser r' n)) by (by rewrite bool_decide_eq_true_2).
  rewrite (bind_run _ _ _ k (Parser (COLON :: x :: r) n)) by (by apply string_encoded).
  rewrite (bind_run _ _ _ tt (Parser (COLON :: x :: r) n)) by (by rewrite bool_decide_eq_false_2).
  rewrite (bind_run _ _ _ tt (Parser (COLON :: x :: r) n)) by (by apply skip_solid).
  rewrite (bind_run _ _ _ (Some COLON) (Parser (COLON :: x :: r) n)) by done.
  rewrite (bind_run _ _ _ tt (Parser (COLON :: x :: r) n)) by (by rewrite bool_decide_eq_true_2).
  rewrite (bind_run _ _ _ tt (Parser (x :: r) n)) by done.
  by rewrite (bind_run _ _ _ tt (Parser (x :: r) n)) by (by apply skip_solid).
Qed.
Lemma members_last acc k x r t r' n n' :
  Forall isUnit k -> assertWellFormedString k = true -> k ∉ map fst acc -> isSpace x = false ->
  value f d (Parser (x :: r) n) = (Ok t, Parser (125 :: r') n') ->
  members (S f) d acc (Parser (encodeString k ++ COLON :: x :: r) n) = (Ok (acc ++ [(k, t)]), Parser r' n').
Proof.
  intros Hu Hw Hk Hx Hv. rewrite members_key by done. rewrite (bind_run _ _ _ _ _ Hv).
  rewrite (bind_run _ _ _ tt (Parser (125 :: r') n')) by (by apply skip_solid).
  rewrite (bind_run _ _ _ (Some 125) (Parser (125 :: r') n')) by done. by rewrite bool_decide_eq_true_2.
Qed.
Lemma members_next acc k x r t y r' n n' :
  Forall isUnit k -> assertWellFormedString k = true -> k ∉ map fst acc -> isSpace x = false -> isSpace y = false ->
  value f d (Parser (x :: r) n) = (Ok t, Parser (COMMA :: y :: r') n') ->
  members (S f) d acc (Parser (encodeString k ++ COLON :: x :: r) n)
  = members f d (acc ++ [(k, t)]) (Parser (y :: r') n').
Proof.
  intros Hu Hw Hk Hx Hy Hv. rewrite members_key by done. rewrite (bind_run _ _ _ _ _ Hv).
  rewrite (bind_run _ _ _ tt (Parser (COMMA :: y :: r') n')) by (by apply skip_solid).
  rewrite (bind_run _ _ _ (Some COMMA) (Parser (COMMA :: y :: r') n')) by done.
  rewrite bool_decide_eq_false_2 by done.
  rewrite (bind_run _ _ _ tt (Parser (COMMA :: y :: r') n')) by (by rewrite bool_decide_eq_true_2).
  rewrite (bind_run _ _ _ tt (Parser (y :: r') n')) by done.
  by rewrite (bind_run _ _ _ tt (Parser (y :: r') n')) by (by apply skip_solid).
Qed.
End Loops.

(** The depth of the recursion over a tree. *)
Fixpoint fuelOf (t : tree) : nat :=
  match t with
  | TArr l => S (foldr (fun x a => S (fuelOf x + a)) O l)
  | TObj fs => S (foldr (fun f a => S (fuelOf (snd f) + a)) O fs)
  | _ => 1%nat
  end.

Definition reads (t : tree) : Prop := forall d n r fuel,
  okTree d t = true -> tree_wf t -> n + nodesOf t <= MAX_NODES -> ends r -> (fuelOf t <= fuel)%nat ->
  value fuel d (Parser (print t ++ r) n) = (Ok t, Parser r (n + nodesOf t)).

Lemma elements_print l : Forall reads l -> forall d n r fuel acc,
  l <> [] -> forallb (okTree d) l = true -> Forall tree_wf l -> n + sumZ (map nodesOf l) <= MAX_NODES ->
  (foldr (fun x a => S (fuelOf x + a)) O l <= fuel)%nat ->
  elements fuel d acc (Parser (join [COMMA] (map print l) ++ 93 :: r) n) = (Ok (acc ++ l), Parser r (n + sumZ (map nodesOf l))).
Proof.
  induction 1 as [|x l Hx Hl IH]; intros d n r fuel acc Hne Hok Hwf Hn Hf; [done|]. clear Hne.
  cbn [forallb] in Hok. apply andb_true_iff in Hok as [Hxo Hlo]. apply Forall_cons in Hwf as [Hxw Hlw].
  cbn [map] in *. rewrite sumZ_cons in *. cbn [foldr] in Hf. destruct fuel as [|fuel]; [lia|].
  assert (0 <= sumZ (map nodesOf l)) as Hpos.
  { pose proof (nodesOf_pos (TArr l)) as Hp. cbn [nodesOf] in Hp. lia. }
  destruct l as [|y l].
  - cbn [map join]. rewrite (elements_last fuel d acc _ x r (n + nodesOf x)); [unfold sumZ; cbn [map foldr]; by rewrite Z.add_0_r|].
    apply Hx; [done|done|lia| |lia]. simpl. lia.
  - change (join [COMMA] (print x :: map print (y :: l))) with (print x ++ [COMMA] ++ join [COMMA] (map print (y :: l))).
    cbn [forallb] in Hlo. destruct (print_starts d y) as (z & t & Ey & Hz); [by apply andb_true_iff in Hlo as [? _]|].
    destruct (starts_solid z Hz) as (Hs & _ & _).
    assert (exists t', join [COMMA] (map print (y :: l)) ++ 93 :: r = z :: t') as [t' Et].
    { cbn [map]. rewrite Ey. destruct l; cbn [map join app]; eexists; reflexivity. }
    rewrite <- !app_assoc, Et. cbn [app].
    rewrite (elements_next fuel d acc _ x z t' (n + nodesOf x) Hs).
    + rewrite <- Et. rewrite (IH d (n + nodesOf x) r fuel (acc ++ [x])); [|done|done|done|lia|lia].
      by rewrite <- app_assoc, Z.add_assoc.
    + apply Hx; [done|done|lia| |lia]. simpl. unfold COMMA. lia.
Qed.
Definition printMember (f : units * tree) : units := member (fst f, print (snd f)).
Lemma members_print fs : Forall (fun f => reads (snd f)) fs -> forall d n r fuel acc,
  fs <> [] -> forallb (fun f => assertWellFormedString (fst f) && okTree d (snd f)) fs = true ->
  Forall (fun f => Forall isUnit (fst f) /\ tree_wf (snd f)) fs -> NoDup (map fst (acc ++ fs)) ->
  n + sumZ (map (fun f => nodesOf (snd f)) fs) <= MAX_NODES ->
  (foldr (fun f a => S (fuelOf (snd f) + a)) O fs <= fuel)%nat ->
  members fuel d acc (Parser (join [COMMA] (map printMember fs) ++ 125 :: r) n)
  = (Ok (acc ++ fs), Parser r (n + sumZ (map (fun f => nodesOf (snd f)) fs))).
Proof.
  induction 1 as [|[k x] fs Hx Hl IH]; intros d n r fuel acc Hne Hok Hwf Hnd Hn Hf; [done|]. clear Hne.
  cbn [forallb fst snd] in *. apply andb_true_iff in Hok as [Hxo Hlo]. apply andb_true_iff in Hxo as [Hko Hxo].
  apply Forall_cons in Hwf as [[Hku Hxw] Hlw]. cbn [fst snd] in *.
  cbn [map fst snd] in *. rewrite sumZ_cons in *. cbn [foldr snd] in Hf. destruct fuel as [|fuel]; [lia|].
  assert (0 <= sumZ (map (fun f => nodesOf (snd f)) fs)) as Hpos.
  { pose proof (nodesOf_pos (TObj fs)) as Hp. cbn [nodesOf] in Hp. lia. }
  assert (k ∉ map fst acc) as Hk.
  { rewrite map_app in Hnd. apply NoDup_app in Hnd as (_ & Hd & _). intros Hin. apply (Hd _ Hin). left. }
  destruct (print_starts d x Hxo) as (w & tw & Ew & Hw). destruct (starts_solid w Hw) as (Hws & _ & _).
  destruct fs as [|[k2 y] fs].
  - cbn [map join]. unfold printMember, member. cbn [fst snd]. rewrite <- !app_assoc. cbn [app]. rewrite Ew. cbn [app].
    rewrite (members_last fuel d acc k w _ x r n (n + nodesOf x) Hku Hko Hk Hws);
      [unfold sumZ; cbn [map foldr]; by rewrite Z.add_0_r|].
    change (w :: tw ++ 125 :: r) with ((w :: tw) ++ 125 :: r). rewrite <- Ew.
    apply Hx; [done|done|lia| |lia]. simpl. lia.
  - change (join [COMMA] (printMember (k, x) :: map printMember ((k2, y) :: fs)))
      with (printMember (k, x) ++ [COMMA] ++ join [COMMA] (map printMember ((k2, y) :: fs))).
    assert (exists t', join [COMMA] (map printMember ((k2, y) :: fs)) ++ 125 :: r = QUOTE :: t') as [t' Et].
    { destruct fs; cbn [map join]; unfold printMember at 1, member, encodeString; cbn [fst snd app]; eexists; reflexivity. }
    unfold printMember at 1, member. cbn [fst snd]. rewrite <- !app_assoc, Et. cbn [app]. rewrite Ew. cbn [app].
    rewrite (members_next fuel d acc k w _ x QUOTE t' n (n + nodesOf x) Hku Hko Hk Hws eq_refl).
    + rewrite <- Et. rewrite (IH d (n + nodesOf x) r fuel (acc ++ [(k, x)])); [|done|done|done|by rewrite <- app_assoc|lia|lia].
      by rewrite <- app_assoc, Z.add_assoc.
    + change (w :: tw ++ COMMA :: QUOTE :: t') with ((w :: tw) ++ COMMA :: QUOTE :: t'). rewrite <- Ew.
      apply Hx; [done|done|lia| |lia]. simpl. unfold COMMA. lia.
Qed.

Lemma value_print t : reads t.
Proof.
  induction t as [|b|z|u|l IH|fs IH] using tree_ind'; intros d n r fuel Hok Hwf Hn Hr Hf;
    pose proof Hok as Hd; cbn [okTree] in Hd; apply andb_true_iff in Hd as [Hd Hb]; apply Z.leb_le in Hd;
    (destruct fuel as [|fuel]; [simpl in Hf; lia|]); cbn [print nodesOf] in *.
  - by apply value_null.
  - by apply value_bool.
  - destruct z as [z| | |]; try done. apply bool_decide_eq_true in Hb. by apply value_integer.
  - by apply value_string.
  - cbn [tree_wf] in Hwf. rewrite foldr_and_Forall' in Hwf. destruct l as [|x l].
    + by apply value_array_empty.
    + pose proof (nodesOf_pos (TArr (x :: l))) as Hp. cbn [nodesOf] in Hp.
      assert (okTree (d + 1) x = true) as Hxo by (cbn [forallb] in Hb; by apply andb_true_iff in Hb as [? _]).
      destruct (print_starts (d + 1) x Hxo) as (w & tw & Ew & Hw). destruct (starts_solid w Hw) as (Hws & Hw93 & _).
      rewrite <- !app_assoc. change (text "[") with [91]. change (text "]") with [93]. cbn [app].
      assert (exists t', join [COMMA] (map print (x :: l)) ++ 93 :: r = w :: t') as [t' Et].
      { cbn [map]. rewrite Ew. destruct l; cbn [map join app]; eexists; reflexivity. }
      rewrite Et, value_array by (done || lia). rewrite <- Et.
      rewrite (bind_run _ _ _ (x :: l) (Parser r (n + 1 + sumZ (map nodesOf (x :: l))))).
      * by rewrite <- Z.add_assoc.
      * apply (elements_print (x :: l) IH (d + 1) (n + 1) r fuel []); [done|done|done|lia|]. cbn [fuelOf] in Hf. lia.
  - cbn [tree_wf] in Hwf. rewrite foldr_and_Forall' in Hwf. destruct Hwf as [Hnd Hwf]. destruct fs as [|[k x] fs].
    + by apply value_object_empty.
    + pose proof (nodesOf_pos (TObj ((k, x) :: fs))) as Hp. cbn [nodesOf] in Hp.
      rewrite <- !app_assoc. change (text "{") with [123]. change (text "}") with [125]. cbn [app].
      change (map (fun f : list Z * tree => member (fst f, print (snd f)))) with (map printMember).
      assert (exists t', join [COMMA] (map printMember ((k, x) :: fs)) ++ 125 :: r = QUOTE :: t') as [t' Et].
      { destruct fs; cbn [map join]; unfold printMember at 1, member, encodeString; cbn [fst snd app]; eexists; reflexivity. }
      rewrite Et, value_object by (done || lia). rewrite <- Et.
      rewrite (bind_run _ _ _ ((k, x) :: fs) (Parser r (n + 1 + sumZ (map (fun f => nodesOf (snd f)) ((k, x) :: fs))))).
      * by rewrite <- Z.add_assoc.
      * apply (members_print ((k, x) :: fs) IH (d + 1) (n + 1) r fuel []); [done|done|done|done|lia|].
        cbn [fuelOf] in Hf. lia.
Qed.

(** *** The text of a value *)

Lemma join_length l : (list_sum (map length l) <= length (join [COMMA] l))%nat.
Proof.
  induction l as [|x [|y l] IH]; cbn [join map list_sum fold_right] in *; [lia|lia|].
  rewrite !length_app. lia.
Qed.
Lemma fuelOf_print t : forall d, okTree d t = true -> (fuelOf t + 1 <= 2 * length (print t))%nat.
Proof.
  induction t as [|b|z|u|l IH|fs IH] using tree_ind'; intros d Hok.
  1-4: destruct (print_starts d _ Hok) as (x & r & -> & _); cbn [fuelOf length]; lia.
  - cbn [okTree] in Hok. apply andb_true_iff in Hok as [_ Hok]. cbn [fuelOf print]. rewrite !length_app.
    pose proof (join_length (map print l)) as Hj. rewrite map_map in Hj.
    enough (foldr (fun x a => S (fuelOf x + a)) O l <= 2 * list_sum (map (fun x => length (print x)) l))%nat by (cbn [length text map]; simpl; lia).
    clear Hj. induction IH as [|x l Hx _ IHl]; [simpl; lia|]. cbn [forallb] in Hok. apply andb_true_iff in Hok as [Hxo Hlo].
    specialize (Hx (d + 1) Hxo). specialize (IHl Hlo). cbn [foldr map list_sum fold_right]. unfold list_sum in *. lia.
  - cbn [okTree] in Hok. apply andb_true_iff in Hok as [_ Hok]. cbn [fuelOf print]. rewrite !length_app.
    pose proof (join_length (map (fun f => member (fst f, print (snd f))) fs)) as Hj. rewrite map_map in Hj.
    enough (foldr (fun f a => S (fuelOf (snd f) + a)) O fs <= 2 * list_sum (map (fun f => length (member (fst f, print (snd f)))) fs))%nat
      by (cbn [length text map]; simpl; lia).
    clear Hj. induction IH as [|x l Hx _ IHl]; [simpl; lia|]. cbn [forallb] in Hok. apply andb_true_iff in Hok as [Hxo Hlo].
    apply andb_true_iff in Hxo as [_ Hxo]. specialize (Hx (d + 1) Hxo). specialize (IHl Hlo).
    cbn [foldr map list_sum fold_right]. unfold list_sum in *. unfold member at 1. rewrite !length_app. cbn [fst snd]. lia.
Qed.

(** A text of well-formed units. *)
Record text_ok (u : units) : Prop := { tx_units : Forall isUnit u; tx_formed : wellFormed u = true }.
Lemma text_ok_app u v : text_ok u -> text_ok v -> text_ok (u ++ v).
Proof. intros [] []. constructor; [by apply Forall_app|by rewrite wellFormed_app]. Qed.
Lemma text_ok_ascii u : Forall isAscii u -> text_ok u.
Proof.
  intros Hu. constructor; [|by apply ascii_wellFormed]. eapply Forall_impl; [exact Hu|]. unfold isAscii, isUnit. lia.
Qed.
Lemma text_ok_join l : Forall text_ok l -> text_ok (join [COMMA] l).
Proof.
  induction 1 as [|x [|y l] Hx Hl IH]; [by apply text_ok_ascii|done|]. cbn [join]. apply text_ok_app; [done|].
  apply text_ok_app; [|done]. apply text_ok_ascii. repeat constructor; unfold COMMA; lia.
Qed.
Lemma escape_cases x : isUnit x -> escapeUnit x = [x] \/ (x < 93 /\ Forall isAscii (escapeUnit x)).
Proof.
  intros Hx. unfold isUnit in Hx. destruct (decide (x < 93)) as [Hlt|Hge].
  - assert (forallb (fun x => forallb (fun y => (0 <=? y) && (y <? 128)) (escapeUnit x)) (seqFrom 0 93) = true) as Hall
      by (vm_compute; reflexivity).
    rewrite forallb_forall in Hall. specialize (Hall x). rewrite forallb_forall in Hall.
    right. split; [done|]. apply Forall_forall. intros y Hy. apply list_elem_of_In, Hall in Hy; [unfold isAscii; lia|].
    apply list_elem_of_In, seqFrom_elem. simpl. lia.
  - left. unfold escapeUnit, QUOTE, BACKSLASH. rewrite !(proj2 (Z.eqb_neq x _)) by lia. by rewrite (proj2 (Z.ltb_ge _ _)) by lia.
Qed.
Lemma escaped_ok u : Forall isUnit u -> wellFormed u = true -> text_ok (concat (map escapeUnit u)).
Proof.
  induction u as [|x r IH1 IH2] using units_ind; intros Hu Hw; [by apply text_ok_ascii|].
  apply Forall_cons in Hu as [Hx Hr]. cbn [wellFormed] in Hw. cbn [map concat].
  destruct (isHigh x) eqn:Hh.
  - destruct r as [|y r']; [done|]. apply andb_true_iff in Hw as [Hy Hw]. apply Forall_cons in Hr as [Hyu Hr].
    pose proof (proj1 (isHigh_bounds x) Hh). pose proof (proj1 (isLow_bounds y) Hy).
    destruct (escape_cases x Hx) as [->|[? _]]; [|lia]. cbn [map concat].
    destruct (escape_cases y Hyu) as [->|[? _]]; [|lia].
    destruct (IH2 y r' eq_refl Hr Hw) as [H1 H2]. cbn [app]. constructor; [by rewrite !Forall_cons|].
    cbn [wellFormed]. by rewrite Hh, Hy, H2.
  - apply andb_true_iff in Hw as [Hl Hw]. apply text_ok_app; [|by apply IH1].
    destruct (escape_cases x Hx) as [->|[_ Ha]]; [|by apply text_ok_ascii].
    constructor; [by rewrite Forall_singleton|]. cbn [wellFormed]. by rewrite Hh, Hl.
Qed.
Lemma encodeString_ok u : Forall isUnit u -> assertWellFormedString u = true -> text_ok (encodeString u).
Proof.
  intros Hu Hw. apply andb_true_iff in Hw as [_ Hw]. unfold encodeString.
  change (text_ok ([QUOTE] ++ concat (map escapeUnit u) ++ [QUOTE])).
  assert (text_ok [QUOTE]) by (apply text_ok_ascii; repeat constructor; unfold QUOTE; lia).
  apply text_ok_app; [done|]. apply text_ok_app; [by apply escaped_ok|done].
Qed.
Lemma integerText_ok z : text_ok (integerText z).
Proof.
  assert (forall n, 0 <= n -> text_ok (map (fun d => 48 + d) (dec_digits n))) as Hd.
  { intros n Hn. destruct (dec_digits_spec n Hn) as (_ & Hall & _). apply text_ok_ascii, Forall_map.
    eapply Forall_impl; [exact Hall|]. unfold is_dec_digit, isAscii. intros. lia. }
  unfold integerText. destruct (z <? 0) eqn:E; [|apply Hd; lia].
  apply (text_ok_app [45]); [apply text_ok_ascii; repeat constructor; lia|apply Hd; lia].
Qed.
Lemma text_ok_literal s : forallb (fun x => (0 <=? x) && (x <? 128)) (text s) = true -> text_ok (text s).
Proof.
  intros H. apply text_ok_ascii, Forall_forall. intros x Hx. rewrite forallb_forall in H.
  apply list_elem_of_In, H in Hx. unfold isAscii. lia.
Qed.
Lemma member_ok k v : Forall isUnit k -> assertWellFormedString k = true -> text_ok v -> text_ok (member (k, v)).
Proof.
  intros Hu Hw Hv. unfold member. cbn [fst snd]. apply text_ok_app; [by apply encodeString_ok|].
  apply text_ok_app; [|done]. apply text_ok_ascii. repeat constructor; unfold COLON; lia.
Qed.
Lemma print_ok t : forall d, okTree d t = true -> tree_wf t -> text_ok (print t).
Proof.
  induction t as [|b|z|u|l IH|fs IH] using tree_ind'; intros d Hok Hwf; cbn [okTree print tree_wf] in *;
    apply andb_true_iff in Hok as [_ Hok].
  - by apply text_ok_literal.
  - by destruct b; apply text_ok_literal.
  - destruct z as [z| | |]; try done. apply integerText_ok.
  - by apply encodeString_ok.
  - rewrite foldr_and_Forall' in Hwf. rewrite forallb_forall in Hok. rewrite Forall_forall in *.
    apply text_ok_app; [by apply text_ok_literal|]. apply text_ok_app; [|by apply text_ok_literal].
    apply text_ok_join, Forall_map, Forall_forall. intros x Hx. apply (IH x Hx (d + 1)); [|by apply Hwf].
    by apply Hok, list_elem_of_In.
  - rewrite foldr_and_Forall' in Hwf. rewrite forallb_forall in Hok. rewrite Forall_forall in *. destruct Hwf as [_ Hwf].
    apply text_ok_app; [by apply text_ok_literal|]. apply text_ok_app; [|by apply text_ok_literal].
    apply text_ok_join, Forall_map, Forall_forall. intros x Hx. destruct (Hwf x Hx) as [Hku Hxw].
    assert (assertWellFormedString (fst x) && okTree (d + 1) (snd x) = true) as Ho by (by apply Hok, list_elem_of_In).
    apply andb_true_iff in Ho as [Hks Hxo]. apply member_ok; [done|done|by apply (IH x Hx (d + 1))].
Qed.

(** *** Its bytes *)

Lemma join_bytes l : Forall text_ok l -> byteLength (join [COMMA] l) = commas l + sumZ (map byteLength l).
Proof.
  unfold commas. induction 1 as [|x [|y l] Hx Hl IH]; [done|cbn [join map length]; rewrite sumZ_cons; unfold sumZ; simpl; lia|].
  change (join [COMMA] (x :: y :: l)) with (x ++ [COMMA] ++ join [COMMA] (y :: l)).
  rewrite byteLength_app by apply Hx. rewrite byteLength_app by done. rewrite IH. cbn [map length] in *. rewrite !sumZ_cons.
  change (byteLength [COMMA]) with 1. lia.
Qed.
Lemma print_bytes t : forall d, okTree d t = true -> tree_wf t -> byteLength (print t) = outputBytes t.
Proof.
  induction t as [|b|z|u|l IH|fs IH] using tree_ind'; intros d Hok Hwf; pose proof (print_ok _ d Hok Hwf) as Hp;
    cbn [okTree print tree_wf outputBytes] in *; apply andb_true_iff in Hok as [_ Hok].
  - done.
  - by destruct b.
  - by destruct z.
  - done.
  - rewrite foldr_and_Forall' in Hwf. rewrite forallb_forall in Hok. rewrite Forall_forall in *.
    assert (Forall text_ok (map print l)) as Hl.
    { apply Forall_map, Forall_forall. intros x Hx. apply (print_ok x (d + 1)); [by apply Hok, list_elem_of_In|by apply Hwf]. }
    rewrite byteLength_app by done. rewrite byteLength_app by (by apply text_ok_join). rewrite join_bytes by done.
    change (byteLength (text "[")) with 1. change (byteLength (text "]")) with 1.
    unfold commas. rewrite length_map, map_map.
    rewrite (map_ext_in (fun x => byteLength (print x)) outputBytes); [lia|].
    intros x Hx. apply list_elem_of_In in Hx. apply (IH x Hx (d + 1)); [by apply Hok, list_elem_of_In|by apply Hwf].
  - rewrite foldr_and_Forall' in Hwf. rewrite forallb_forall in Hok. destruct Hwf as [_ Hwf]. rewrite Forall_forall in *.
    assert (forall x, x ∈ fs -> Forall isUnit (fst x) /\ tree_wf (snd x) /\ assertWellFormedString (fst x) = true
      /\ okTree (d + 1) (snd x) = true) as Hall.
    { intros x Hx. destruct (Hwf x Hx) as [? ?]. pose proof (Hok x) as Ho. cbv beta in Ho.
      rewrite andb_true_iff in Ho. split_and!; try done; apply Ho; by apply list_elem_of_In. }
    assert (Forall text_ok (map (fun f => member (fst f, print (snd f))) fs)) as Hl.
    { apply Forall_map, Forall_forall. intros x Hx. destruct (Hall x Hx) as (? & ? & ? & ?).
      apply member_ok; [done|done|by apply (print_ok _ (d + 1))]. }
    rewrite byteLength_app by done. rewrite byteLength_app by (by apply text_ok_join). rewrite join_bytes by done.
    change (byteLength (text "{")) with 1. change (byteLength (text "}")) with 1.
    unfold commas. rewrite length_map, map_map.
    rewrite (map_ext_in _ (fun f => byteLength (encodeString (fst f)) + 1 + outputBytes (snd f))); [lia|].
    intros x Hx. apply list_elem_of_In in Hx. destruct (Hall x Hx) as (Hu & Hw & Hs & Ho).
    unfold member. cbn [fst snd]. rewrite byteLength_app by (by apply encodeString_ok). rewrite byteLength_app by done.
    rewrite (IH x Hx (d + 1) Ho Hw). change (byteLength [COLON]) with 1. lia.
Qed.
Lemma sortKeys_bytes t : outputBytes (sortKeys t) = outputBytes t.
Proof.
  induction t as [|b|n|u|l IH|fs IH] using tree_ind'; try done; cbn [sortKeys outputBytes]; rewrite Forall_forall in IH.
  - unfold commas. rewrite length_map, map_map. rewrite (map_ext_in _ outputBytes); [done|].
    intros x Hx. by apply IH, list_elem_of_In.
  - unfold commas. rewrite sort_by_perm, length_map, map_map. cbn [fst snd].
    rewrite (map_ext_in _ (fun f => byteLength (encodeString (fst f)) + 1 + outputBytes (snd f))); [done|].
    intros x Hx. by rewrite (IH x) by (by apply list_elem_of_In).
Qed.

(** What a canonical text is read as. *)
Lemma canonical_reads t b :
  tree_wf t -> canonicalJson t = Some b -> parseCanonicalJson b = Ok (sortKeys t).
Proof.
  intros Hwf Hc. unfold canonicalJson in Hc. rewrite assert_spec in Hc by (unfold MAX_NODES; lia).
  destruct (okTree 0 t && (0 + nodesOf t <=? MAX_NODES)) eqn:Ho; [|done]. cbn [mbind option_bind] in Hc.
  destruct (MAX_OUTPUT_BYTES <? outputBytes t) eqn:Hb; [done|]. injection Hc as <-.
  apply andb_true_iff in Ho as [Ho Hn]. apply Z.leb_le in Hn. apply Z.ltb_ge in Hb.
  rewrite <- sortKeys_ok in Ho. rewrite <- sortKeys_nodes in Hn. rewrite <- sortKeys_bytes in Hb. apply sortKeys_wf in Hwf.
  rewrite serialize_print. revert Ho Hn Hb Hwf. generalize (sortKeys t). clear t. intros t Ho Hn Hb Hwf.
  destruct (print_ok t 0 Ho Hwf) as [Hu Hw]. destruct (print_starts 0 t Ho) as (x & r & Ex & Hx).
  destruct (starts_solid x Hx) as (Hsp & _ & _).
  assert (textDecode (utf8 (print t)) = Some (print t)) as Hd.
  { rewrite <- (decode_utf8 (print t)) by done. rewrite Ex. cbn [utf8].
    assert (x < 128) as Hlt by (unfold starts, QUOTE in Hx; lia). rewrite (proj2 (Z.ltb_lt _ _) Hlt).
    unfold textDecode. destruct (utf8 r) as [|b1 [|b2 br]].
    - destruct x as [|p|]; try done. repeat (destruct p as [p|p|]; try done).
    - destruct x as [|p|]; try done. repeat (destruct p as [p|p|]; try done).
    - destruct x as [|p|]; try done. repeat (destruct p as [p|p|]; try done; try lia). }
  unfold parseCanonicalJson. rewrite Hd. unfold parseText.
  rewrite (print_bytes t 0 Ho Hwf). unfold MAX_INPUT_BYTES, MAX_OUTPUT_BYTES in *. rewrite (proj2 (Z.ltb_ge _ _) Hb).
  rewrite (bind_run _ _ _ tt (Parser (print t) 0)) by (rewrite Ex; by apply skip_solid).
  pose proof (fuelOf_print t 0 Ho) as Hf.
  rewrite (bind_run _ _ _ t (Parser [] (0 + nodesOf t))).
  - rewrite (bind_run _ _ _ tt (Parser [] (0 + nodesOf t))) by done.
    rewrite (bind_run _ _ (Parser [] (0 + nodesOf t)) (Parser [] (0 + nodesOf t)) (Parser [] (0 + nodesOf t))) by done. done.
  - rewrite <- (app_nil_r (print t)) at 2. apply value_print; [done|done|lia|done|]. unfold parseFuel. lia.
Qed.

(** ** What the parser accepts *)

(** A run: what holds of its result, and what must have been the case if it has run out
    of fuel. *)
Definition outcome {A} (good : A -> parser -> Prop) (short : Prop) (r : result parse_error A * parser) : Prop :=
  match r with
  | (Ok a, s) => good a s
  | (Err OutOfFuel, _) => short
  | (Err Invalid, _) => True
  end.
Lemma outcome_bind {A B} (m : PM A) (f : A -> PM B) (g : A -> parser -> Prop) (g' : B -> parser -> Prop) (short : Prop) s :
  outcome g short (m s) -> (forall a s', g a s' -> outcome g' short (f a s')) -> outcome g' short ((m ≫= f) s).
Proof.
  unfold mbind, M_bind. destruct (m s) as [[a|[]] s']; [|done|done]. intros H Hf. by apply Hf.
Qed.
Lemma outcome_weaken {A} (g g' : A -> parser -> Prop) (short short' : Prop) r :
  outcome g short r -> (forall a s, g a s -> g' a s) -> (short -> short') -> outcome g' short' r.
Proof. destruct r as [[a|[]] s]; simpl; auto. Qed.

(** The parser has consumed at least [k] units and counted nothing. *)
Record moves (k : nat) (s s' : parser) : Prop := {
  mv_nodes : ps_nodes s' = ps_nodes s;
  mv_length : (length (ps_rest s') + k <= length (ps_rest s))%nat;
  mv_units : Forall isUnit (ps_rest s) -> Forall isUnit (ps_rest s');
}.
Lemma moves_trans k j s s' s'' : moves k s s' -> moves j s' s'' -> moves (k + j) s s''.
Proof. intros [] []. constructor; [congruence|lia|auto]. Qed.
Lemma moves_weaken k j s s' : (j <= k)%nat -> moves k s s' -> moves j s s'.
Proof. intros H []. constructor; [done|lia|done]. Qed.

Lemma skipWhitespace_moves short s : outcome (fun _ s' => moves 0 s s') short (skipWhitespace s).
Proof.
  simpl. constructor; simpl; [done|..].
  - induction (ps_rest s) as [|x r IH]; simpl; [lia|]. destruct (isSpace x); simpl; lia.
  - induction 1 as [|x r Hx Hr IH]; simpl; [done|]. destruct (isSpace x); [done|]. by constructor.
Qed.
Lemma peek_moves short s : outcome (fun x s' => s' = s /\ x = head (ps_rest s)) short (peek s).
Proof. done. Qed.
Lemma throw_if_outcome b short s : outcome (fun _ s' => s' = s /\ b = false) short (throw_if b Invalid s).
Proof. by destruct b. Qed.
Lemma advance_moves short s x : head (ps_rest s) = Some x -> outcome (fun _ s' => moves 1 s s') short (advance 1 s).
Proof.
  intros Hx. destruct s as [[|y r] n]; [done|]. simpl. constructor; simpl; [done|rewrite drop_0; lia|].
  intros Hu. apply Forall_cons in Hu as [_ Hu]. by rewrite drop_0.
Qed.
Lemma hexValue_bounds x v : hexValue x = Some v -> 0 <= v <= 15.
Proof. unfold hexValue. intros H. repeat case_match; simplify_eq; lia. Qed.
Lemma hexCodeUnit_unit a b c d y : hexCodeUnit a b c d = Some y -> isUnit y.
Proof.
  unfold hexCodeUnit. intros H.
  destruct (hexValue a) eqn:Ha, (hexValue b) eqn:Hb, (hexValue c) eqn:Hc, (hexValue d) eqn:Hd; try done.
  apply hexValue_bounds in Ha, Hb, Hc, Hd. injection H as <-. unfold isUnit. lia.
Qed.
Lemma simpleEscape_unit e y : simpleEscape e = Some y -> isUnit e -> isUnit y.
Proof. unfold simpleEscape, isUnit. intros H He. repeat case_match; simplify_eq; lia. Qed.

Lemma stringLoop_sound n : forall r acc u r', (length r <= n)%nat -> stringLoop r acc = Some (u, r') ->
  assertWellFormedString u = true /\ (length r' < length r)%nat
  /\ (Forall isUnit r -> Forall isUnit acc -> Forall isUnit u /\ Forall isUnit r').
Proof.
  induction n as [|n IH]; intros r acc u r' Hn Hs; (destruct r as [|x r]; [done|]); cbn [length] in Hn; [lia|].
  cbn [stringLoop] in Hs. cbn [length].
  destruct (x =? QUOTE).
  { destruct (assertWellFormedString acc) eqn:Hw; [|done]. injection Hs as <- <-. split_and!; [done|lia|].
    intros Hr Ha. apply Forall_cons in Hr as [_ Hr]. done. }
  destruct (x =? BACKSLASH).
  { destruct r as [|e r]; [done|]. cbn [length] in *. destruct (simpleEscape e) as [y|] eqn:He.
    - destruct (withinString _); [|done]. destruct (IH r _ _ _ ltac:(lia) Hs) as (H1 & H2 & H3). split_and!; [done|lia|].
      intros Hr Ha. apply Forall_cons in Hr as [_ Hr]. apply Forall_cons in Hr as [Hu Hr]. apply H3; [done|].
      apply Forall_app. split; [done|]. apply Forall_singleton. by eapply simpleEscape_unit.
    - destruct (e =? 117); [|done]. destruct r as [|a [|b [|c [|d r]]]]; try done. cbn [length] in *.
      destruct (hexCodeUnit a b c d) as [y|] eqn:Hh; [|done]. destruct (withinString _); [|done].
      destruct (IH r _ _ _ ltac:(lia) Hs) as (H1 & H2 & H3). split_and!; [done|lia|].
      intros Hr Ha. rewrite !Forall_cons in Hr. apply H3; [naive_solver|].
      apply Forall_app. split; [done|]. apply Forall_singleton. by eapply hexCodeUnit_unit. }
  destruct (x <=? 31); [done|]. destruct (withinString _); [|done].
  destruct (IH r _ _ _ ltac:(lia) Hs) as (H1 & H2 & H3). split_and!; [done|lia|].
  intros Hr Ha. apply Forall_cons in Hr as [Hu Hr]. apply H3; [done|]. apply Forall_app. split; [done|]. by apply Forall_singleton.
Qed.
Lemma string_moves short s x : head (ps_rest s) = Some x ->
  outcome (fun u s' => moves 2 s s' /\ assertWellFormedString u = true /\ (Forall isUnit (ps_rest s) -> Forall isUnit u))
    short (string_ s).
Proof.
  intros Hx. destruct s as [[|y r] n]; [done|]. unfold string_. set (s := Parser _ _). rewrite (bind_run _ _ s s s) by done.
  unfold s. cbn [ps_rest]. change (drop 1 (y :: r)) with r. destruct (stringLoop r []) as [[u r']|] eqn:Hs; [|done].
  destruct (stringLoop_sound (length r) r [] u r' ltac:(lia) Hs) as (H1 & H2 & H3). simpl. split_and!.
  - constructor; simpl; [done|lia|]. intros Hu. apply Forall_cons in Hu as [_ Hu]. by apply H3.
  - done.
  - intros Hu. apply Forall_cons in Hu as [_ Hu]. by apply H3.
Qed.
Lemma takeDigits_sound u ds r : takeDigits u = (ds, r) -> u = ds ++ r.
Proof.
  revert ds r. induction u as [|x u IH]; intros ds r; simpl; [by intros [= <- <-]|].
  destruct (isDigitUnit x); [|by intros [= <- <-]]. destruct (takeDigits u) as [ds' r'] eqn:E.
  intros [= <- <-]. simpl. f_equal. by apply IH.
Qed.
Lemma integerOf_sound u z r : integerOf u = Some (z, r) ->
  Z.abs z <= MAX_SAFE_INTEGER /\ exists p, p <> [] /\ u = p ++ r.
Proof.
  unfold integerOf. set (nu := match u with [] => _ | _ :: _ => _ end).
  assert (exists q, u = q ++ snd nu) as [q Hq].
  { unfold nu. destruct u as [|x u']; [by exists []|]. destruct (x =? 45); [by exists [x]|by exists []]. }
  destruct nu as [neg u1]. simpl in Hq. destruct (digits u1) as [[ds r1]|] eqn:Hd; [|done]. cbn [mbind option_bind].
  destruct (match r1 with [] => false | x :: _ => _ end); [done|].
  set (n := dec_value _). assert (0 <= n) as Hn0.
  { unfold n, dec_value. unfold digits in Hd. enough (forall l v, Forall (fun x => 48 <= x) l -> 0 <= v ->
      0 <= fold_left (fun v d => 10 * v + d) (map (fun x => x - 48) l) v) as Hg.
    - apply Hg; [|lia]. destruct u1 as [|x u1]; [done|]. destruct (x =? 48) eqn:E0; [injection Hd as <- <-; repeat constructor; lia|].
      destruct (_ && _) eqn:E1; [|done]. destruct (takeDigits u1) as [ds' r'] eqn:Ht. injection Hd as <- <-. constructor; [lia|].
      clear -Ht. revert ds' r' Ht. induction u1 as [|y u1 IH]; intros ds' r' Ht; simpl in Ht; [by injection Ht as <- <-|].
      destruct (isDigitUnit y) eqn:Ey; [|by injection Ht as <- <-]. destruct (takeDigits u1) as [a b]. injection Ht as <- <-.
      constructor; [unfold isDigitUnit in Ey; lia|by eapply IH].
    - induction l as [|x l IH]; intros v Hl Hv; simpl; [done|]. apply Forall_cons in Hl as [Hx Hl]. apply IH; [done|lia]. }
  destruct (_ || _) eqn:Hb; [done|]. intros [= <- <-]. apply orb_false_iff in Hb as [Hb _]. apply Z.ltb_ge in Hb.
  split; [destruct neg; lia|].
  assert (exists p, p <> [] /\ u1 = p ++ r1) as (p & Hp & ->).
  { unfold digits in Hd. destruct u1 as [|x u1]; [done|]. destruct (x =? 48); [injection Hd as <- <-; by exists [x]|].
    destruct (_ && _); [|done]. destruct (takeDigits u1) as [ds' r'] eqn:Ht. injection Hd as <- <-.
    apply takeDigits_sound in Ht as ->. by exists (x :: ds'). }
  exists (q ++ p). split; [by destruct q, p|]. by rewrite <- app_assoc.
Qed.
Lemma enter_outcome d short s :
  outcome (fun _ s' => s' = Parser (ps_rest s) (ps_nodes s + 1) /\ d <= MAX_DEPTH /\ ps_nodes s + 1 <= MAX_NODES) short (enter d s).
Proof.
  unfold enter. rewrite (bind_run _ _ s s s) by done. destruct (MAX_DEPTH <? d) eqn:E1; [done|]. apply Z.ltb_ge in E1.
  rewrite (bind_run _ _ s tt s) by done. rewrite (bind_run _ _ s tt (Parser (ps_rest s) (ps_nodes s + 1))) by done.
  destruct (MAX_NODES <? ps_nodes s + 1) eqn:E2; [done|]. apply Z.ltb_ge in E2. simpl. split_and!; [done|lia|lia].
Qed.

Record value_good (d : Z) (s : parser) (t : tree) (s' : parser) : Prop := {
  vg_ok : okTree d t = true;
  vg_nodes : ps_nodes s' = ps_nodes s + nodesOf t;
  vg_max : ps_nodes s' <= MAX_NODES;
  vg_length : (length (ps_rest s') < length (ps_rest s))%nat;
  vg_units : Forall isUnit (ps_rest s) -> tree_wf t /\ Forall isUnit (ps_rest s');
}.
Record elements_good (d : Z) (l : list tree) (s : parser) (l' : list tree) (s' : parser) : Prop := {
  eg_new : exists new, l' = l ++ new /\ forallb (okTree d) new = true
    /\ ps_nodes s' = ps_nodes s + sumZ (map nodesOf new) /\ (Forall isUnit (ps_rest s) -> Forall tree_wf new);
  eg_max : ps_nodes s' <= MAX_NODES;
  eg_length : (length (ps_rest s') < length (ps_rest s))%nat;
  eg_units : Forall isUnit (ps_rest s) -> Forall isUnit (ps_rest s');
}.
Record members_good (d : Z) (fs : list (units * tree)) (s : parser) (fs' : list (units * tree)) (s' : parser) : Prop := {
  mg_new : exists new, fs' = fs ++ new
    /\ forallb (fun f => assertWellFormedString (fst f) && okTree d (snd f)) new = true
    /\ ps_nodes s' = ps_nodes s + sumZ (map (fun f => nodesOf (snd f)) new)
    /\ (Forall isUnit (ps_rest s) -> Forall (fun f => Forall isUnit (fst f) /\ tree_wf (snd f)) new);
  mg_keys : NoDup (map fst fs) -> NoDup (map fst fs');
  mg_max : ps_nodes s' <= MAX_NODES;
  mg_length : (length (ps_rest s') < length (ps_rest s))%nat;
  mg_units : Forall isUnit (ps_rest s) -> Forall isUnit (ps_rest s');
}.

(** A scalar, read after the count. *)
Lemma scalar_good d s s0 t s' k :
  s0 = Parser (ps_rest s) (ps_nodes s + 1) -> ps_nodes s + 1 <= MAX_NODES -> moves (S k) s0 s' ->
  okTree d t = true -> nodesOf t = 1 -> (Forall isUnit (ps_rest s) -> tree_wf t) -> value_good d s t s'.
Proof.
  intros -> Hn [Hm Hl Hu] Hok Hone Hwf. simpl in *. constructor; [done|lia|lia|lia|]. intros H. auto.
Qed.
Lemma constant_outcome word t short s k : length word = S k ->
  outcome (fun t' s' => t' = t /\ moves (S k) s s') short (constant word t s).
Proof.
  intros Hk. unfold constant, takeText. destruct (bool_decide (take (length word) (ps_rest s) = word)) eqn:E.
  - apply bool_decide_eq_true in E.
    rewrite (bind_run _ _ s true (Parser (drop (length word) (ps_rest s)) (ps_nodes s))).
    2:{ rewrite (bind_run _ _ s s s) by done. by rewrite bool_decide_eq_true_2. }
    simpl. split; [done|]. constructor; simpl; [done| |].
    + rewrite length_drop. assert (length (take (length word) (ps_rest s)) = length word) as Hl by (by rewrite E).
      rewrite length_take in Hl. lia.
    + intros Hu. by apply Forall_drop.
  - apply bool_decide_eq_false in E. rewrite (bind_run _ _ s false s); [done|].
    rewrite (bind_run _ _ s s s) by done. by rewrite bool_decide_eq_false_2.
Qed.
Lemma integer_outcome short s :
  outcome (fun t s' => exists z, t = TNum (NInt z) /\ Z.abs z <= MAX_SAFE_INTEGER /\ moves 1 s s') short (integer s).
Proof.
  unfold integer. rewrite (bind_run _ _ s s s) by done. destruct (integerOf (ps_rest s)) as [[z r]|] eqn:E; [|done].
  destruct (integerOf_sound _ _ _ E) as (Hz & p & Hp & Er). simpl. exists z. split_and!; [done|done|].
  constructor; simpl; [done| |].
  - rewrite Er, length_app. destruct p; [done|]. simpl. lia.
  - rewrite Er, Forall_app. by intros [_ ?].
Qed.

Section Sound.
Context (fuel : nat).
Definition value_runs : Prop := forall d s,
  outcome (value_good d s) (fuel < 2 * length (ps_rest s) + 1)%nat (value fuel d s).
Definition elements_runs : Prop := forall d l s,
  outcome (elements_good d l s) (fuel < 2 * length (ps_rest s) + 2)%nat (elements fuel d l s).
Definition members_runs : Prop := forall d fs s,
  outcome (members_good d fs s) (fuel < 2 * length (ps_rest s) + 2)%nat (members fuel d fs s).
End Sound.

Lemma elements_sound fuel : value_runs fuel -> elements_runs fuel -> elements_runs (S fuel).
Proof.
  intros Hv He d l s. cbn [elements].
  eapply outcome_bind; [eapply outcome_weaken; [apply (Hv d s)|intros a s' H; exact H|lia]|].
  intros t s1 [Vok Vn Vm Vl Vu]. eapply outcome_bind; [apply skipWhitespace_moves|]. intros _ s2 [Mn Ml Mu].
  eapply outcome_bind; [apply peek_moves|]. intros y s3 [-> Hy].
  destruct (bool_decide (y = Some 93)) eqn:E.
  - apply bool_decide_eq_true in E. subst y. eapply outcome_bind; [by eapply advance_moves|]. intros _ s3 [Nn Nl Nu].
    simpl. constructor; [|lia|lia|naive_solver]. exists [t]. split_and!; [done|simpl; by rewrite Vok|unfold sumZ; simpl; lia|].
    intros H. apply Forall_singleton. by apply Vu.
  - eapply outcome_bind; [apply throw_if_outcome|]. intros _ s3 [-> Hb]. apply negb_false_iff, bool_decide_eq_true in Hb.
    subst y. eapply outcome_bind; [by eapply advance_moves|]. intros _ s3 [Nn Nl Nu].
    eapply outcome_bind; [apply skipWhitespace_moves|]. intros _ s4 [Kn Kl Ku].
    eapply outcome_weaken; [apply (He d (l ++ [t]) s4)| |lia].
    intros l' s' [(new & -> & Hok & Hn & Hw) Hm Hl Hu]. constructor; [|lia|lia|naive_solver].
    exists (t :: new). split_and!.
    + by rewrite <- app_assoc.
    + simpl. by rewrite Vok.
    + cbn [map]. rewrite sumZ_cons. lia.
    + intros H. constructor; [by apply Vu|]. naive_solver.
Qed.
Lemma members_sound fuel : value_runs fuel -> members_runs fuel -> members_runs (S fuel).
Proof.
  intros Hv Hm d fs s. cbn [members].
  eapply outcome_bind; [apply peek_moves|]. intros q s0 [-> Hq].
  eapply outcome_bind; [apply throw_if_outcome|]. intros _ s0 [-> Hb]. apply negb_false_iff, bool_decide_eq_true in Hb. subst q.
  eapply outcome_bind; [by eapply string_moves|]. intros key s1 ([Sn Sl Su] & Skey & Skunits).
  eapply outcome_bind; [apply throw_if_outcome|]. intros _ s2 [-> Hfresh]. apply bool_decide_eq_false in Hfresh.
  eapply outcome_bind; [apply skipWhitespace_moves|]. intros _ s2 [Wn Wl Wu].
  eapply outcome_bind; [apply peek_moves|]. intros c s3 [-> Hc].
  eapply outcome_bind; [apply throw_if_outcome|]. intros _ s3 [-> Hb']. apply negb_false_iff, bool_decide_eq_true in Hb'. subst c.
  eapply outcome_bind; [by eapply advance_moves|]. intros _ s3 [An Al Au].
  eapply outcome_bind; [apply skipWhitespace_moves|]. intros _ s4 [Bn Bl Bu].
  eapply outcome_bind; [eapply outcome_weaken; [apply (Hv d s4)|intros a s' H; exact H|lia]|].
  intros t s5 [Vok Vn Vm Vl Vu]. eapply outcome_bind; [apply skipWhitespace_moves|]. intros _ s6 [Mn Ml Mu].
  eapply outcome_bind; [apply peek_moves|]. intros y s7 [-> Hy].
  assert (Forall isUnit (ps_rest s) -> Forall isUnit key /\ tree_wf t /\ Forall isUnit (ps_rest s6)) as Hunits.
  { intros H. destruct (Vu ltac:(auto)) as [? ?]. split_and!; auto. }
  assert (NoDup (map fst fs) -> NoDup (map fst (fs ++ [(key, t)]))) as Hnd.
  { intros H. rewrite map_app. apply NoDup_app. split_and!; [done| |apply NoDup_singleton].
    intros k Hk Hin. apply list_elem_of_singleton in Hin. simpl in Hin. by subst k. }
  assert (forallb (fun f => assertWellFormedString (fst f) && okTree d (snd f)) [(key, t)] = true) as Hone
    by (simpl; by rewrite Skey, Vok).
  destruct (bool_decide (y = Some 125)) eqn:E.
  - apply bool_decide_eq_true in E. subst y. eapply outcome_bind; [by eapply advance_moves|]. intros _ s7 [Nn Nl Nu].
    simpl. constructor; [|exact Hnd|lia|lia|naive_solver]. exists [(key, t)]. split_and!; [done|done|unfold sumZ; simpl; lia|].
    intros H. apply Forall_singleton. naive_solver.
  - eapply outcome_bind; [apply throw_if_outcome|]. intros _ s7 [-> Hb2]. apply negb_false_iff, bool_decide_eq_true in Hb2.
    subst y. eapply outcome_bind; [by eapply advance_moves|]. intros _ s7 [Nn Nl Nu].
    eapply outcome_bind; [apply skipWhitespace_moves|]. intros _ s8 [Kn Kl Ku].
    eapply outcome_weaken; [apply (Hm d (fs ++ [(key, t)]) s8)| |lia].
    intros fs' s' [(new & -> & Hok & Hn & Hw) Hk Hmax Hl Hu]. constructor; [|auto|lia|lia|naive_solver].
    exists ((key, t) :: new). split_and!.
    + by rewrite <- app_assoc.
    + simpl in *. by rewrite andb_true_r in Hone; rewrite Hone.
    + cbn [map snd]. rewrite sumZ_cons. lia.
    + intros H. constructor; [simpl; naive_solver|]. naive_solver.
Qed.
Lemma value_sound fuel : elements_runs fuel -> members_runs fuel -> value_runs (S fuel).
Proof.
  intros He Hm d s. cbn [value]. eapply outcome_bind; [apply enter_outcome|]. intros _ s0 (Es0 & Hd & Hn).
  assert (forall b : bool, (d <=? MAX_DEPTH) && b = b) as Hdb by (intros b; by rewrite (proj2 (Z.leb_le _ _) Hd)).
  assert (length (ps_rest s0) = length (ps_rest s)) as Hlen by (by subst s0).
  assert (ps_nodes s0 = ps_nodes s + 1) as Hno by (by subst s0).
  eapply outcome_bind; [apply peek_moves|]. intros q s1 [-> Hq]. destruct q as [x|]; [|done]. symmetry in Hq.
  destruct (x =? 123).
  { eapply outcome_bind; [by eapply advance_moves|]. intros _ s1 [An Al Au].
    eapply outcome_bind; [apply skipWhitespace_moves|]. intros _ s2 [Bn Bl Bu].
    eapply outcome_bind; [apply peek_moves|]. intros y s3 [-> Hy]. destruct (bool_decide (y = Some 125)) eqn:E.
    - apply bool_decide_eq_true in E. subst y. eapply outcome_bind; [by eapply advance_moves|]. intros _ s3 [Nn Nl Nu].
      simpl. constructor; cbn [okTree nodesOf map]; [by rewrite Hdb|unfold sumZ; simpl; lia|lia|lia|].
      intros H. split; [simpl; split; [constructor|done]|]. subst s0. auto.
    - eapply outcome_bind; [eapply outcome_weaken; [apply (Hm (d + 1) [] s2)|intros a s' H; exact H|lia]|].
      intros fs s3 [(new & -> & Hok & Hnn & Hw) Hk Hmax Hl Hu]. simpl. constructor; cbn [okTree nodesOf]; [by rewrite Hdb|lia|lia|lia|].
      intros H. assert (Forall isUnit (ps_rest s2)) as H2 by (subst s0; auto). split; [|auto].
      cbn [tree_wf]. rewrite foldr_and_Forall'. split; [apply Hk; constructor|auto]. }
  destruct (x =? 91).
  { eapply outcome_bind; [by eapply advance_moves|]. intros _ s1 [An Al Au].
    eapply outcome_bind; [apply skipWhitespace_moves|]. intros _ s2 [Bn Bl Bu].
    eapply outcome_bind; [apply peek_moves|]. intros y s3 [-> Hy]. destruct (bool_decide (y = Some 93)) eqn:E.
    - apply bool_decide_eq_true in E. subst y. eapply outcome_bind; [by eapply advance_moves|]. intros _ s3 [Nn Nl Nu].
      simpl. constructor; cbn [okTree nodesOf map]; [by rewrite Hdb|unfold sumZ; simpl; lia|lia|lia|].
      intros H. split; [done|]. subst s0. auto.
    - eapply outcome_bind; [eapply outcome_weaken; [apply (He (d + 1) [] s2)|intros a s' H; exact H|lia]|].
      intros l s3 [(new & -> & Hok & Hnn & Hw) Hmax Hl Hu]. simpl. constructor; cbn [okTree nodesOf]; [by rewrite Hdb|lia|lia|lia|].
      intros H. assert (Forall isUnit (ps_rest s2)) as H2 by (subst s0; auto). split; [|auto].
      cbn [tree_wf]. rewrite foldr_and_Forall'. auto. }
  destruct (x =? QUOTE).
  { eapply outcome_bind; [by eapply string_moves|]. intros u s1 (Hmv & Hw & Hu). simpl.
    apply (scalar_good d s s0 (TStr u) s1 1 Es0 Hn Hmv); [cbn [okTree]; by rewrite Hdb|done|]. subst s0. exact Hu. }
  destruct (x =? 116).
  { eapply outcome_weaken; [by apply (constant_outcome _ _ _ _ 3)| |exact (fun H => H)]. intros t s1 [-> Hmv].
    apply (scalar_good d s s0 (TBool true) s1 3 Es0 Hn Hmv); [cbn [okTree]; by rewrite Hdb|done|done]. }
  destruct (x =? 102).
  { eapply outcome_weaken; [by apply (constant_outcome _ _ _ _ 4)| |exact (fun H => H)]. intros t s1 [-> Hmv].
    apply (scalar_good d s s0 (TBool false) s1 4 Es0 Hn Hmv); [cbn [okTree]; by rewrite Hdb|done|done]. }
  destruct (x =? 110).
  { eapply outcome_weaken; [by apply (constant_outcome _ _ _ _ 3)| |exact (fun H => H)]. intros t s1 [-> Hmv].
    apply (scalar_good d s s0 TNull s1 3 Es0 Hn Hmv); [cbn [okTree]; by rewrite Hdb|done|done]. }
  destruct (_ || _); [|done].
  eapply outcome_weaken; [apply integer_outcome| |exact (fun H => H)]. intros t s1 (z & -> & Hz & Hmv).
  apply (scalar_good d s s0 (TNum (NInt z)) s1 0 Es0 Hn Hmv); [cbn [okTree]; rewrite Hdb; by apply bool_decide_eq_true|done|done].
Qed.
Lemma parser_sound fuel : value_runs fuel /\ elements_runs fuel /\ members_runs fuel.
Proof.
  induction fuel as [|fuel (Hv & He & Hm)].
  - split_and!; intros ? *; simpl; lia.
  - split_and!; [by apply value_sound|by apply elements_sound|by apply members_sound].
Qed.

(** *** The order of the keys *)

Lemma unitsLe_total a b : unitsLe a b = true \/ unitsLe b a = true.
Proof.
  revert b. induction a as [|x a IH]; intros [|y b]; simpl; auto.
  destruct (Z.lt_trichotomy x y) as [H|[->|H]].
  - left. by rewrite (proj2 (Z.ltb_lt _ _) H).
  - rewrite Z.ltb_irrefl, Z.eqb_refl. simpl. apply IH.
  - right. by rewrite (proj2 (Z.ltb_lt _ _) H).
Qed.
Lemma sort_keys_id {A} (l : list (units * A)) : sort_by keyLe (sort_by keyLe l) = sort_by keyLe l.
Proof. apply sort_by_id, sort_by_in_order. intros a b. apply unitsLe_total. Qed.
Lemma sortKeys_idem t : sortKeys (sortKeys t) = sortKeys t.
Proof.
  induction t as [|b|n|u|l IH|fs IH] using tree_ind'; try done; cbn [sortKeys]; rewrite Forall_forall in IH; f_equal.
  - rewrite map_map. apply map_ext_in. intros x Hx. by apply IH, list_elem_of_In.
  - rewrite sort_by_map, sort_keys_id, <- sort_by_map, map_map. f_equal. cbn [fst snd].
    apply map_ext_in. intros x Hx. by rewrite (IH x) by (by apply list_elem_of_In).
Qed.
Lemma canonicalJson_sorted t : canonicalJson (sortKeys t) = canonicalJson t.
Proof.
  unfold canonicalJson. rewrite !assert_spec by (unfold MAX_NODES; lia).
  by rewrite sortKeys_ok, sortKeys_nodes, sortKeys_bytes, !serialize_print, sortKeys_idem.
Qed.
(** Two values with one text are one value, but for the order of their keys. *)
Lemma canonicalJson_inj t t' b :
  tree_wf t -> tree_wf t' -> canonicalJson t = Some b -> canonicalJson t' = Some b -> sortKeys t = sortKeys t'.
Proof.
  intros Hw Hw' Hc Hc'. pose proof (canonical_reads t b Hw Hc) as H1. pose proof (canonical_reads t' b Hw' Hc') as H2. congruence.
Qed.

Lemma decode_units b : forall u, decode b = Some u -> Forall isUnit u.
Proof.
  enough (forall n b u, (length b <= n)%nat -> decode b = Some u -> Forall isUnit u) as Hg by (intros u; by eapply Hg).
  clear b. induction n as [|n IH]; intros b u Hn Hd; (destruct b as [|b0 r0]; [by injection Hd as <-|]); cbn [length] in Hn; [lia|].
  assert (forall r p, (length r <= n)%nat -> Forall isUnit p -> app p <$> decode r = Some u -> Forall isUnit u) as Hstep.
  { intros r p Hr Hp E. destruct (decode r) as [u'|] eqn:Er; [|done]. injection E as <-. apply Forall_app. split; [done|]. by eapply IH. }
  cbn [decode] in Hd. destruct ((0 <=? b0) && (b0 <? 128)) eqn:E0.
  { apply (Hstep r0 [b0]); [lia| |exact Hd]. apply Forall_singleton. unfold isUnit. lia. }
  destruct r0 as [|b1 r1]; [done|]. cbn [length] in Hn. destruct (negb (isTail b1)) eqn:T1; [done|]. unfold isTail in T1.
  destruct ((194 <=? b0) && (b0 <=? 223)) eqn:E1.
  { apply (Hstep r1 [(b0 - 192) * 64 + (b1 - 128)]); [lia| |exact Hd]. apply Forall_singleton. unfold isUnit. lia. }
  destruct r1 as [|b2 r2]; [done|]. cbn [length] in Hn. destruct (negb (isTail b2)) eqn:T2; [done|]. unfold isTail in T2.
  destruct ((224 <=? b0) && (b0 <=? 239)) eqn:E2.
  { cbn zeta in Hd. destruct (_ || _); [done|].
    eapply (Hstep r2 [_]); [lia| |exact Hd]. apply Forall_singleton. unfold isUnit. lia. }
  destruct r2 as [|b3 r3]; [done|]. cbn [length] in Hn. destruct (negb (isTail b3)) eqn:T3; [done|].
  destruct ((240 <=? b0) && (b0 <=? 244)); [|done]. cbn zeta in Hd. set (c := _ + (b3 - 128)) in Hd. destruct ((c <? 65536) || (1114111 <? c)) eqn:Ec; [done|].
  apply (Hstep r3 (pairUnits c)); [lia| |exact Hd]. unfold pairUnits.
  assert (0 <= (c - 65536) / 1024 < 1024) by (split; [apply Z.div_pos; lia|apply Z.div_lt_upper_bound; lia]).
  pose proof (Z.mod_pos_bound (c - 65536) 1024 ltac:(lia)). repeat (apply Forall_cons; split); [unfold isUnit; lia..|constructor].
Qed.
Lemma textDecode_units b u : textDecode b = Some u -> Forall isUnit u.
Proof.
  intros H. assert (exists b', decode b' = Some u) as [b' Hb].
  { unfold textDecode in H. repeat case_match; eauto. }
  by eapply decode_units.
Qed.

Lemma parseText_outcome u :
  Forall isUnit u ->
  match parseText u with
  | Ok t => tree_wf t /\ okTree 0 t = true /\ nodesOf t <= MAX_NODES
  | Err OutOfFuel => False
  | Err Invalid => True
  end.
Proof.
  intros Hu. unfold parseText. destruct (_ <? byteLength u); [done|].
  match goal with |- context [fst (?m ?s)] => assert (outcome (fun t _ => tree_wf t /\ okTree 0 t = true /\ nodesOf t <= MAX_NODES) False (m s)) as H end.
  - eapply outcome_bind; [apply skipWhitespace_moves|]. intros _ s1 [Sn Sl Su]. simpl in *.
    eapply outcome_bind; [eapply outcome_weaken; [apply (proj1 (parser_sound (parseFuel u)) 0 s1)|intros a s' H; exact H|unfold parseFuel; lia]|].
    intros t s2 [Vok Vn Vm _ Vu]. eapply outcome_bind; [apply skipWhitespace_moves|]. intros _ s3 _.
    rewrite (bind_run _ _ s3 s3 s3) by done. eapply outcome_bind; [apply throw_if_outcome|]. intros _ s4 _.
    simpl. split_and!; [by apply Vu, Su|done|lia].
  - revert H. match goal with |- context [fst ?r] => destruct r as [[t|[]] s] end; intros H; exact H.
Qed.

(** C34. The parser of outside texts always ends, with a value or a refusal: two calls for
    every character are enough for any bytes; and a value it accepts is within every
    limit of the canonical form: at most 64 levels and 10000 nodes, strings of at most
    16384 units without a lone surrogate, safe integers, and no key twice. *)
Theorem parser_terminates b :
  parseCanonicalJson b <> Err OutOfFuel
  /\ forall t, parseCanonicalJson b = Ok t ->
       tree_wf t /\ exists n, assertCanonicalValue t 0 0 = Some n /\ 1 <= n <= MAX_NODES.
Proof.
  unfold parseCanonicalJson. destruct (textDecode b) as [u|] eqn:Hd; [|done].
  apply textDecode_units, parseText_outcome in Hd. destruct (parseText u) as [t|[]]; [|done|done].
  split; [done|]. intros t' [= <-]. destruct Hd as (Hw & Hok & Hn). split; [done|]. exists (nodesOf t).
  rewrite assert_spec by (unfold MAX_NODES; lia). rewrite Hok, Z.add_0_l, (proj2 (Z.leb_le _ _) Hn).
  split; [done|]. split; [apply nodesOf_pos|done].
Qed.

(** C33. The canonical text of a value is read back as the value with its keys in order;
    putting the keys in order does not change the text; and a value with the same text
    is the same value but for the order of its keys, so that a hash of the text is a hash
    of the value. *)
Theorem canonical_roundtrip t b :
  tree_wf t -> canonicalJson t = Some b ->
  parseCanonicalJson b = Ok (sortKeys t) /\ canonicalJson (sortKeys t) = Some b
  /\ forall t', tree_wf t' -> canonicalJson t' = Some b -> sortKeys t' = sortKeys t.
Proof.
  intros Hw Hc. split_and!.
  - by apply canonical_reads.
  - by rewrite canonicalJson_sorted.
  - intros t' Hw' Hc'. by eapply canonicalJson_inj.
Qed.

(** A value with nesting, escapes, a character of two units and keys out of order. *)
Definition demoTree : tree :=
  TObj [(text "z", TArr [TNum (NInt (-12)); TBool true; TNull]);
        (text "a", TStr [10; 34; 55357; 56832; 8364; 1]); (text "", TObj [])].
Lemma canonical_roundtrip_witness :
  exists b, canonicalJson demoTree = Some b /\ parseCanonicalJson b = Ok (sortKeys demoTree) /\ length b = 51%nat.
Proof.
  assert (exists b, canonicalJson demoTree = Some b /\ length b = 51%nat) as (b & Hb & Hl) by (eexists; split; vm_compute; reflexivity).
  assert (tree_wf demoTree) as Hw.
  { assert (forall u, forallb (fun x => (0 <=? x) && (x <=? 65535)) u = true -> Forall isUnit u) as Hu.
    { intros u Hf. apply Forall_forall. intros x Hx. rewrite forallb_forall in Hf. apply list_elem_of_In, Hf in Hx.
      unfold isUnit. lia. }
    split; [apply (bool_decide_unpack _); vm_compute; done|]. cbn [map foldr fst snd tree_wf].
    split_and!; try done; try (by apply Hu); constructor. }
  exists b. split; [exact Hb|]. split; [apply (canonical_roundtrip demoTree b Hw Hb)|exact Hl].
Defined.
