(* ===== verification/JsDate.v ===== *)
(** * Dates: ECMAScript time values and their ISO strings

    A [Date] is its time value, the milliseconds since the epoch as a [Z]; an
    invalid date is [None] where the code checks for one.  [toISOString] and
    [Date.parse] are written out on the years 0 to 9999, the only ones the
    services' timestamps take, with the proleptic Gregorian calendar. *)
From S2P Require Import Prelude Text.

(** ** The calendar *)

Definition msPerDay : Z := 86400000.

(** Days since 1970-01-01 of the civil date [y]-[m]-[d] ([m] from 1). *)
Definition days_from_civil (y m d : Z) : Z :=
  let y' := if m <=? 2 then y - 1 else y in
  let era := y' / 400 in
  let yoe := y' - era * 400 in
  let mp := if 2 <? m then m - 3 else m + 9 in
  let doy := (153 * mp + 2) / 5 + d - 1 in
  let doe := yoe * 365 + yoe / 4 - yoe / 100 + doy in
  era * 146097 + doe - 719468.

Definition civil_from_days (z : Z) : Z * Z * Z :=
  let z' := z + 719468 in
  let era := z' / 146097 in
  let doe := z' - era * 146097 in
  let yoe := (doe - doe / 1460 + doe / 36524 - doe / 146096) / 365 in
  let doy := doe - (365 * yoe + yoe / 4 - yoe / 100) in
  let mp := (5 * doy + 2) / 153 in
  let d := doy - (153 * mp + 2) / 5 + 1 in
  let m := if mp <? 10 then mp + 3 else mp - 9 in
  let y := yoe + era * 400 + (if m <=? 2 then 1 else 0) in
  (y, m, d).

Lemma year_of_era_bounds doe :
  0 <= doe < 146097 ->
  let yoe := (doe - doe / 1460 + doe / 36524 - doe / 146096) / 365 in
  0 <= yoe <= 399 /\ 0 <= doe - (365 * yoe + yoe / 4 - yoe / 100) <= 365.
Proof. intros H. cbv zeta. Z.div_mod_to_equations. lia. Qed.

Lemma month_day_bounds doy :
  0 <= doy <= 365 ->
  let mp := (5 * doy + 2) / 153 in
  0 <= mp <= 11 /\ 1 <= doy - (153 * mp + 2) / 5 + 1 <= 31.
Proof. intros H. cbv zeta. Z.div_mod_to_equations. lia. Qed.

Lemma civil_from_days_spec z y m d :
  civil_from_days z = (y, m, d) ->
  days_from_civil y m d = z /\ 1 <= m <= 12 /\ 1 <= d <= 31.
Proof.
  unfold civil_from_days. cbv zeta.
  set (z' := z + 719468). set (era := z' / 146097). set (doe := z' - era * 146097).
  assert (0 <= doe < 146097) as Hdoe.
  { subst doe era. Z.div_mod_to_equations. lia. }
  pose proof (year_of_era_bounds doe Hdoe) as Hyoe. cbv zeta in Hyoe.
  set (yoe := (doe - doe / 1460 + doe / 36524 - doe / 146096) / 365) in *.
  destruct Hyoe as [Hyoe Hdoy].
  set (doy := doe - (365 * yoe + yoe / 4 - yoe / 100)) in *.
  pose proof (month_day_bounds doy Hdoy) as Hmd. cbv zeta in Hmd.
  set (mp := (5 * doy + 2) / 153) in *. destruct Hmd as [Hmp Hd].
  intros [= <- <- <-].
  assert (forall b, (yoe + era * 400 + b - b) / 400 = era) as Hera.
  { intros b. replace (yoe + era * 400 + b - b) with (yoe + era * 400) by lia.
    rewrite Z.div_add, Z.div_small; lia. }
  unfold days_from_civil. cbv zeta.
  destruct (mp <? 10) eqn:Hm10.
  - apply Z.ltb_lt in Hm10.
    rewrite (proj2 (Z.leb_gt (mp + 3) 2)), (proj2 (Z.ltb_lt 2 (mp + 3))) by lia.
    pose proof (Hera 0) as He. rewrite Z.sub_0_r in He. rewrite He.
    replace (mp + 3 - 3) with mp by lia.
    replace (yoe + era * 400 + 0 - era * 400) with yoe by lia. subst doy doe z'. lia.
  - apply Z.ltb_ge in Hm10.
    rewrite (proj2 (Z.leb_le (mp - 9) 2)), (proj2 (Z.ltb_ge 2 (mp - 9))) by lia.
    rewrite (Hera 1). replace (mp - 9 + 9) with mp by lia.
    replace (yoe + era * 400 + 1 - 1 - era * 400) with yoe by lia. subst doy doe z'. lia.
Qed.

(** ** ISO strings *)

Definition pad2 (n : Z) : list ascii := [digit_char (n / 10); digit_char (n mod 10)].
Definition pad3 (n : Z) : list ascii := digit_char (n / 100) :: pad2 (n mod 100).
Definition pad4 (n : Z) : list ascii := digit_char (n / 1000) :: pad3 (n mod 1000).

(** [Date.prototype.toISOString], for a time value of the years 0 to 9999. *)
Definition iso_chars (t : Z) : list ascii :=
  let day := t / msPerDay in
  let ms := t mod msPerDay in
  let '(y, m, d) := civil_from_days day in
  pad4 y ++ ["-"%char] ++ pad2 m ++ ["-"%char] ++ pad2 d ++ ["T"%char]
  ++ pad2 (ms / 3600000) ++ [":"%char] ++ pad2 (ms / 60000 mod 60) ++ [":"%char]
  ++ pad2 (ms / 1000 mod 60) ++ ["."%char] ++ pad3 (ms mod 1000) ++ ["Z"%char].
Definition toISOString (t : Z) : string := string_of_list_ascii (iso_chars t).

(** The years 0 to 9999: from 0000-01-01T00:00:00.000Z to 9999-12-31T23:59:59.999Z. *)
Definition iso_year_range (t : Z) : Prop := -62167219200000 <= t <= 253402300799999.

(** The calendar fields of [YYYY-MM-DDTHH:mm:ss] (19 characters) and what follows. *)
Definition ISO_PREFIX : list (ascii -> bool) :=
  replicate 4 is_digit ++ [is_char "-"] ++ replicate 2 is_digit ++ [is_char "-"]
  ++ replicate 2 is_digit ++ [is_char "T"] ++ replicate 2 is_digit ++ [is_char ":"]
  ++ replicate 2 is_digit ++ [is_char ":"] ++ replicate 2 is_digit.

Record iso_fields : Type := IsoFields {
  iso_year : Z; iso_month : Z; iso_day : Z;
  iso_hour : Z; iso_minute : Z; iso_second : Z;
}.

Definition number_of (l : list ascii) : Z := dec_value (map char_digit l).

Definition iso_prefix (l : list ascii) : option (iso_fields * list ascii) :=
  if matches ISO_PREFIX (take 19 l) then
    let field i n := number_of (take n (drop i l)) in
    Some (IsoFields (field 0 4)%nat (field 5 2)%nat (field 8 2)%nat
                    (field 11 2)%nat (field 14 2)%nat (field 17 2)%nat, drop 19 l)
  else None.

(** The milliseconds of a fraction: its first three digits, missing ones as zeros. *)
Definition fraction_ms (ds : list ascii) : Z := number_of (take 3 (ds ++ ["0"; "0"; "0"]%char)).

Fixpoint take_digits (l : list ascii) : list ascii * list ascii :=
  match l with
  | c :: l' => if is_digit c then let '(ds, r) := take_digits l' in (c :: ds, r) else ([], l)
  | [] => ([], [])
  end.

(** An optional fraction [.d+]. *)
Definition iso_fraction (l : list ascii) : option (list ascii * list ascii) :=
  match l with
  | c :: l' =>
      if is_char "." c then
        match take_digits l' with ([], _) => None | r => Some r end
      else Some ([], l)
  | [] => Some ([], [])
  end.

(** [Z] or [±hh:mm], in minutes. *)
Definition iso_offset (l : list ascii) : option Z :=
  match l with
  | [z] => if is_char "Z" z then Some 0 else None
  | [s; h1; h2; c; m1; m2] =>
      let h := number_of [h1; h2] in let m := number_of [m1; m2] in
      if forallb is_digit [h1; h2; m1; m2] && is_char ":" c && (h <? 24) && (m <? 60) then
        if is_char "+" s then Some (h * 60 + m)
        else if is_char "-" s then Some (- (h * 60 + m)) else None
      else None
  | _ => None
  end.

(** The time value of calendar fields, [None] where [Date.parse] gives NaN. The day
    of a month is checked against 31 only, as V8's ISO date parser does: a larger
    day rolls over into the next month. *)
Definition make_time (f : iso_fields) (ms offset : Z) : option Z :=
  if (1 <=? iso_month f) && (iso_month f <=? 12) && (1 <=? iso_day f) && (iso_day f <=? 31)
     && ((iso_hour f <? 24) || ((iso_hour f =? 24) && (iso_minute f =? 0) && (iso_second f =? 0) && (ms =? 0)))
     && (iso_minute f <? 60) && (iso_second f <? 60)
  then Some (days_from_civil (iso_year f) (iso_month f) (iso_day f) * msPerDay
             + iso_hour f * 3600000 + iso_minute f * 60000 + iso_second f * 1000 + ms
             - offset * 60000)
  else None.

(** [Date.parse] on a date-time string of the ISO profile. *)
Definition dateParse (s : string) : option Z :=
  '(f, rest) ← iso_prefix (list_ascii_of_string s);
  '(frac, rest') ← iso_fraction rest;
  offset ← iso_offset rest';
  make_time f (fraction_ms frac) offset.

(** What [getUTCFullYear], [getUTCMonth] + 1, ..., [getUTCSeconds] answer. *)
Definition utc_fields (t : Z) : iso_fields :=
  let ms := t mod msPerDay in
  let '(y, m, d) := civil_from_days (t / msPerDay) in
  IsoFields y m d (ms / 3600000) (ms / 60000 mod 60) (ms / 1000 mod 60).

Example iso_epoch : toISOString 0 = "1970-01-01T00:00:00.000Z"%string.
Proof. reflexivity. Qed.
Example iso_leap : toISOString 1709164799123 = "2024-02-28T23:59:59.123Z"%string.
Proof. reflexivity. Qed.
Example parse_offset : dateParse "2024-02-29T01:00:00.5+01:00" = Some 1709164800500.
Proof. reflexivity. Qed.
Example parse_roll : dateParse "2023-02-30T00:00:00Z" = dateParse "2023-03-02T00:00:00Z".
Proof. reflexivity. Qed.

(** ** The round trip *)

Lemma digit_char_is_digit d : is_dec_digit d -> is_digit (digit_char d) = true.
Proof.
  intros Hd. unfold is_digit, between. rewrite digit_char_code by done.
  change (code "0") with 48. change (code "9") with 57. unfold is_dec_digit in Hd.
  apply andb_true_iff. split; apply Z.leb_le; lia.
Qed.
Lemma char_digit_char d : is_dec_digit d -> char_digit (digit_char d) = d.
Proof. intros Hd. unfold char_digit. rewrite digit_char_code by done. lia. Qed.

Lemma pad2_digits n : 0 <= n < 100 -> forallb is_digit (pad2 n) = true.
Proof.
  intros Hn. unfold pad2. simpl.
  rewrite !digit_char_is_digit; [done|unfold is_dec_digit; Z.div_mod_to_equations; lia..].
Qed.
Lemma pad2_number n : 0 <= n < 100 -> number_of (pad2 n) = n.
Proof.
  intros Hn. unfold pad2, number_of. simpl.
  rewrite !char_digit_char by (unfold is_dec_digit; Z.div_mod_to_equations; lia).
  unfold dec_value. cbn [fold_left]. Z.div_mod_to_equations. lia.
Qed.
Lemma pad3_digits n : 0 <= n < 1000 -> forallb is_digit (pad3 n) = true.
Proof.
  intros Hn. unfold pad3. cbn [forallb].
  rewrite digit_char_is_digit, pad2_digits; [done|..]; unfold is_dec_digit; Z.div_mod_to_equations; lia.
Qed.
Lemma pad3_number n : 0 <= n < 1000 -> number_of (pad3 n) = n.
Proof.
  intros Hn. unfold pad3, pad2, number_of. simpl.
  rewrite !char_digit_char by (unfold is_dec_digit; Z.div_mod_to_equations; lia).
  unfold dec_value. cbn [fold_left]. Z.div_mod_to_equations. lia.
Qed.
Lemma pad4_digits n : 0 <= n < 10000 -> forallb is_digit (pad4 n) = true.
Proof.
  intros Hn. unfold pad4. cbn [forallb].
  rewrite digit_char_is_digit, pad3_digits; [done|..]; unfold is_dec_digit; Z.div_mod_to_equations; lia.
Qed.
Lemma pad4_number n : 0 <= n < 10000 -> number_of (pad4 n) = n.
Proof.
  intros Hn. unfold pad4, pad3, pad2, number_of. simpl.
  rewrite !char_digit_char by (unfold is_dec_digit; Z.div_mod_to_equations; lia).
  unfold dec_value. cbn [fold_left]. Z.div_mod_to_equations. lia.
Qed.

Lemma iso_year_bounds t y m d :
  iso_year_range t -> civil_from_days (t / msPerDay) = (y, m, d) -> 0 <= y < 10000.
Proof.
  intros Ht Hc. pose proof (civil_from_days_spec _ _ _ _ Hc) as (Hd & Hm & Hday).
  unfold iso_year_range, msPerDay in *.
  assert (-719528 <= t / 86400000 <= 2932896) as Hdays by (Z.div_mod_to_equations; lia).
  rewrite <- Hd in Hdays. unfold days_from_civil in Hdays.
  destruct (m <=? 2) eqn:E1, (2 <? m) eqn:E2;
    rewrite ?Z.leb_le, ?Z.leb_gt, ?Z.ltb_lt, ?Z.ltb_ge in *; try lia;
    Z.div_mod_to_equations; lia.
Qed.

Definition iso_layout (f : iso_fields) (rest : list ascii) : list ascii :=
  pad4 (iso_year f) ++ ["-"%char] ++ pad2 (iso_month f) ++ ["-"%char] ++ pad2 (iso_day f)
  ++ ["T"%char] ++ pad2 (iso_hour f) ++ [":"%char] ++ pad2 (iso_minute f) ++ [":"%char]
  ++ pad2 (iso_second f) ++ rest.

Definition fields_ok (f : iso_fields) : Prop :=
  0 <= iso_year f < 10000 /\ 1 <= iso_month f <= 12 /\ 1 <= iso_day f <= 31
  /\ 0 <= iso_hour f < 24 /\ 0 <= iso_minute f < 60 /\ 0 <= iso_second f < 60.

Lemma iso_prefix_layout f rest :
  fields_ok f -> iso_prefix (iso_layout f rest) = Some (f, rest).
Proof.
  destruct f as [y m d h mi s]. unfold fields_ok. simpl. intros (Hy & Hm & Hd & Hh & Hmi & Hs).
  pose proof (pad4_digits y Hy) as Py. pose proof (pad4_number y Hy) as Ny.
  assert (forall n, 0 <= n < 100 -> forallb is_digit (pad2 n) = true /\ number_of (pad2 n) = n) as P2.
  { intros n Hn. split; [by apply pad2_digits|by apply pad2_number]. }
  destruct (P2 m) as [Pm Nm]; [lia|]. destruct (P2 d) as [Pd Nd]; [lia|].
  destruct (P2 h) as [Ph Nh]; [lia|]. destruct (P2 mi) as [Pmi Nmi]; [lia|].
  destruct (P2 s) as [Ps Ns]; [lia|]. clear P2 Hy Hm Hd Hh Hmi Hs.
  unfold pad4, pad3, pad2 in *.
  cbn [forallb] in Py, Pm, Pd, Ph, Pmi, Ps. split_bools.
  unfold iso_prefix, iso_layout, pad4, pad3, pad2, ISO_PREFIX.
  cbn [app take drop replicate matches iso_year iso_month iso_day iso_hour iso_minute iso_second].
  repeat match goal with H : is_digit _ = true |- _ => rewrite H; clear H end.
  change (is_char "-" "-") with true. change (is_char "T" "T") with true.
  change (is_char ":" ":") with true. cbn [andb]. change (take 0 rest) with (@nil ascii). rewrite Ny, Nm, Nd, Nh, Nmi, Ns. done.
Qed.

Lemma utc_fields_ok t : iso_year_range t -> fields_ok (utc_fields t).
Proof.
  intros Ht. unfold utc_fields, fields_ok.
  destruct (civil_from_days (t / msPerDay)) as [[y m] d] eqn:Hc. simpl.
  pose proof (iso_year_bounds t y m d Ht Hc). pose proof (civil_from_days_spec _ _ _ _ Hc).
  unfold msPerDay in *. Z.div_mod_to_equations. lia.
Qed.

Lemma iso_chars_layout t :
  iso_chars t = iso_layout (utc_fields t) (["."%char] ++ pad3 (t mod 1000) ++ ["Z"%char]).
Proof.
  unfold iso_chars, iso_layout, utc_fields.
  destruct (civil_from_days (t / msPerDay)) as [[y m] d]. simpl.
  replace (t mod msPerDay mod 1000) with (t mod 1000); [done|].
  unfold msPerDay. Z.div_mod_to_equations. lia.
Qed.

Lemma make_time_utc t :
  iso_year_range t -> make_time (utc_fields t) (t mod 1000) 0 = Some t.
Proof.
  intros Ht. pose proof (utc_fields_ok t Ht) as Hok. unfold fields_ok in Hok. unfold make_time.
  destruct_and!.
  rewrite (proj2 (Z.leb_le 1 _)), (proj2 (Z.leb_le _ 12)), (proj2 (Z.leb_le 1 (iso_day _))),
    (proj2 (Z.leb_le _ 31)), !(proj2 (Z.ltb_lt _ _)) by lia. cbn [andb orb].
  clear -Ht. unfold utc_fields.
  destruct (civil_from_days (t / msPerDay)) as [[y m] d] eqn:Hc.
  pose proof (civil_from_days_spec _ _ _ _ Hc) as (Hd & _). simpl. rewrite Hd. f_equal.
  unfold msPerDay. Z.div_mod_to_equations. lia.
Qed.

Lemma iso_suffix t :
  iso_fraction (["."%char] ++ pad3 (t mod 1000) ++ ["Z"%char]) = Some (pad3 (t mod 1000), ["Z"%char])
  /\ fraction_ms (pad3 (t mod 1000)) = t mod 1000.
Proof.
  pose proof (Z.mod_pos_bound t 1000 ltac:(lia)) as Hb.
  pose proof (pad3_digits _ Hb) as Hd. pose proof (pad3_number _ Hb) as Hn.
  unfold fraction_ms. unfold pad3, pad2 in *. cbn [forallb] in Hd. split_bools.
  cbn [app iso_fraction take]. rewrite Hn.
  change (is_char "." ".") with true. cbn [take_digits].
  repeat match goal with H : is_digit _ = true |- _ => rewrite H; clear H end.
  change (is_digit "Z") with false. done.
Qed.

(** [Date.parse(d.toISOString())] is [d]. *)
Lemma dateParse_toISOString t : iso_year_range t -> dateParse (toISOString t) = Some t.
Proof.
  intros Ht. unfold dateParse, toISOString. rewrite list_ascii_of_string_of_list_ascii.
  rewrite iso_chars_layout, iso_prefix_layout by (by apply utc_fields_ok). cbn [mbind option_bind].
  destruct (iso_suffix t) as [Hf Hms]. rewrite Hf. cbn [mbind option_bind].
  change (iso_offset ["Z"%char]) with (Some 0). cbn [mbind option_bind]. rewrite Hms.
  by apply make_time_utc.
Qed.

Lemma toISOString_inj a b :
  iso_year_range a -> iso_year_range b -> toISOString a = toISOString b -> a = b.
Proof.
  intros Ha Hb H. apply (inj Some).
  rewrite <- (dateParse_toISOString a), <- (dateParse_toISOString b) by done. by rewrite H.
Qed.

#[global] Opaque toISOString dateParse.
