(* ===== verification/JsValue.v ===== *)
(** * JavaScript values, JSON trees and the defensive copy of a payload

    [apps/server/src/modules/rooms/room-event-repository.ts], lines 102 to 194:
    an [unknown] value lives in a heap of objects with prototypes and property
    descriptors, where objects can be shared or cyclic; [clonePlainJsonData]
    copies it into a tree or refuses it. *)
From S2P Require Import Prelude Text.
#[local] Set Warnings "-register-all,-clear-no-such-hyp,-level-tolerance".

(** ** JSON trees *)

Inductive json : Type :=
| JNull
| JBool (b : bool)
| JNum (n : jsnum)
| JStr (s : string)
| JArr (l : list json)
| JObj (fs : list (string * json)).

Section JsonInd.
Variable P : json -> Prop.
Hypothesis Hnull : P JNull.
Hypothesis Hbool : forall b, P (JBool b).
Hypothesis Hnum : forall n, P (JNum n).
Hypothesis Hstr : forall s, P (JStr s).
Hypothesis Harr : forall l, Forall P l -> P (JArr l).
Hypothesis Hobj : forall fs, Forall (fun f => P (snd f)) fs -> P (JObj fs).

Fixpoint json_ind' (j : json) : P j :=
  match j with
  | JNull => Hnull
  | JBool b => Hbool b
  | JNum n => Hnum n
  | JStr s => Hstr s
  | JArr l => Harr l ((fix go l := match l return Forall P l with
      | [] => Forall_nil_2 P
      | x :: l' => Forall_cons_2 P x l' (json_ind' x) (go l') end) l)
  | JObj fs => Hobj fs ((fix go fs := match fs return Forall (fun f => P (snd f)) fs with
      | [] => Forall_nil_2 _
      | f :: fs' => Forall_cons_2 (fun f => P (snd f)) f fs' (json_ind' (snd f)) (go fs') end) fs)
  end.
End JsonInd.

#[global] Instance json_eq_dec : EqDecision json.
Proof.
  refine (fix go (x y : json) : Decision (x = y) :=
    match x, y with
    | JNull, JNull => left eq_refl
    | JBool a, JBool b => cast_if (decide (a = b))
    | JNum a, JNum b => cast_if (decide (a = b))
    | JStr a, JStr b => cast_if (decide (a = b))
    | JArr a, JArr b => cast_if (@list_eq_dec _ go a b)
    | JObj a, JObj b => cast_if (@list_eq_dec _ (@prod_eq_dec _ _ _ go) a b)
    | _, _ => right _
    end); clear go; abstract congruence.
Defined.

(** [object[key]] of a tree, [undefined] where it has no such key. *)
Fixpoint assoc {A} (k : string) (fs : list (string * A)) : option A :=
  match fs with
  | [] => None
  | (k', v) :: fs' => if decide (k = k') then Some v else assoc k fs'
  end.
Definition field (k : string) (j : json) : option json :=
  match j with JObj fs => assoc k fs | _ => None end.

(** ** The heap *)

Inductive proto : Type := ObjectPrototype | ArrayPrototype | NullPrototype | OtherPrototype.

Inductive jsval : Type :=
| VUndefined
| VNull
| VBool (b : bool)
| VNum (n : jsnum)
| VStr (s : string)
| VNonObject   (* a function, a symbol or a bigint *)
| VRef (l : positive).

Inductive jskey : Type := KStr (s : string) | KSym (n : N).
#[global] Instance jskey_eq_dec : EqDecision jskey.
Proof. solve_decision. Defined.

#[global] Instance KStr_inj : Inj (=) (=) KStr.
Proof. by intros ? ? [=]. Qed.

(** What kind of object: [CDate t] is a [Date] of time value [t], [None] for an
    invalid one. *)
Inductive objclass : Type := CPlain | CArray | CDate (t : option Z) | COther.
#[global] Instance proto_eq_dec : EqDecision proto.
Proof. solve_decision. Defined.
#[global] Instance objclass_eq_dec : EqDecision objclass.
Proof. solve_decision. Defined.

(** A property: enumerable or not, with a value or ([None]) an accessor. *)
Record descriptor : Type := Descriptor { enumerable : bool; dvalue : option jsval }.

(** An object: its own properties in the order of [Reflect.ownKeys]. *)
Record object : Type := Object {
  cls : objclass;
  obj_proto : proto;
  own : list (jskey * descriptor);
}.
Abbreviation heap := (gmap positive object).

Definition ownKeys (o : object) : list jskey := map fst (own o).
Fixpoint own_lookup (k : jskey) (ps : list (jskey * descriptor)) : option descriptor :=
  match ps with
  | [] => None
  | (k', d) :: ps' => if decide (k = k') then Some d else own_lookup k ps'
  end.
Definition getOwnPropertyDescriptor (o : object) (k : jskey) : option descriptor :=
  own_lookup k (own o).

(** [typeof value === "object" && value !== null && !Array.isArray(value)
    && Object.getPrototypeOf(value) === Object.prototype]. *)
Definition isPlainRecord (h : heap) (v : jsval) : option object :=
  match v with
  | VRef l =>
      o ← h !! l;
      if decide (cls o <> CArray /\ obj_proto o = ObjectPrototype) then Some o else None
  | _ => None
  end.

(** ** [clonePlainJsonData] *)

Definition MAX_JSON_DEPTH : Z := 32.
Definition MAX_JSON_UNITS : Z := 10000.

Record JsonCloneState : Type := CloneState { seen : gset positive; units : Z }.

Inductive clone_error : Type := INVALID_PLAIN_JSON | OUT_OF_FUEL.

Definition consumeJsonBudget : M JsonCloneState clone_error unit :=
  modify (fun st => CloneState (seen st) (units st + 1));;
  n ← gets units;
  throw_if (MAX_JSON_UNITS <? n) INVALID_PLAIN_JSON.

Definition indexKey (i : Z) : jskey := KStr (dec_string i).

(** The array index pattern: zero, or a numeral without leading zeros. *)
Definition isIndexNumeral (s : string) : bool :=
  bool_decide (s = "0"%string) || isPositiveNumeral s.

(** The keys an array of this length may not have. *)
Definition badArrayKey (len : Z) (k : jskey) : bool :=
  match k with
  | KSym _ => true
  | KStr s =>
      (negb (bool_decide (s = "length"%string)) && negb (isIndexNumeral s))
      || (negb (bool_decide (s = "length"%string)) && (len <=? dec_number s))
  end.

(** An enumerable data property: its value. *)
Definition dataValue (d : option descriptor) : option jsval :=
  match d with
  | Some (Descriptor true (Some v)) => Some v
  | _ => None
  end.

(** The array's length when its descriptor is a data property holding a safe integer
    from 0 to [MAX_JSON_UNITS]. *)
Definition arrayLength (o : object) : option Z :=
  match getOwnPropertyDescriptor o (KStr "length") with
  | Some (Descriptor _ (Some (VNum n))) =>
      z ← asSafeInteger n;
      if decide (0 <= z <= MAX_JSON_UNITS) then Some z else None
  | _ => None
  end.

Definition of_option {S E A} (e : E) (x : option A) : M S E A :=
  match x with Some a => mret a | None => throw e end.

(** The array branch and the record branch, given the recursive call. *)
Section CloneBranches.
Variable rec : jsval -> M JsonCloneState clone_error json.

Definition cloneElement (o : object) (index : Z) : M JsonCloneState clone_error json :=
  v ← of_option INVALID_PLAIN_JSON (dataValue (getOwnPropertyDescriptor o (indexKey index)));
  consumeJsonBudget;;
  rec v.

Definition cloneArray (o : object) : M JsonCloneState clone_error json :=
  throw_if (negb (bool_decide (obj_proto o = ArrayPrototype))) INVALID_PLAIN_JSON;;
  len ← of_option INVALID_PLAIN_JSON (arrayLength o);
  throw_if (negb (Z.of_nat (length (ownKeys o)) =? len + 1)) INVALID_PLAIN_JSON;;
  copy ← mapM (cloneElement o) (seqFrom 0 (Z.to_nat len));
  throw_if (existsb (badArrayKey len) (ownKeys o)) INVALID_PLAIN_JSON;;
  mret (JArr copy).

Definition cloneProperty (o : object) (key : jskey) : M JsonCloneState clone_error (string * json) :=
  k ← of_option INVALID_PLAIN_JSON (match key with KStr k => Some k | KSym _ => None end);
  v ← of_option INVALID_PLAIN_JSON (dataValue (getOwnPropertyDescriptor o key));
  consumeJsonBudget;;
  c ← rec v;
  mret (k, c).

Definition cloneRecord (o : object) : M JsonCloneState clone_error json :=
  throw_if (negb (bool_decide (obj_proto o = ObjectPrototype))) INVALID_PLAIN_JSON;;
  throw_if (MAX_JSON_UNITS <? Z.of_nat (length (ownKeys o))) INVALID_PLAIN_JSON;;
  copy ← mapM (cloneProperty o) (ownKeys o);
  mret (JObj copy).
End CloneBranches.

Fixpoint clonePlainJsonData (fuel : nat) (h : heap) (value : jsval) (depth : Z)
    : M JsonCloneState clone_error json :=
  match fuel with
  | O => throw OUT_OF_FUEL
  | S fuel' =>
      consumeJsonBudget;;
      match value with
      | VNull => mret JNull
      | VStr s => mret (JStr s)
      | VBool b => mret (JBool b)
      | VNum n => if isFinite n then mret (JNum n) else throw INVALID_PLAIN_JSON
      | VUndefined | VNonObject => throw INVALID_PLAIN_JSON
      | VRef l =>
          o ← of_option INVALID_PLAIN_JSON (h !! l);
          st ← get_state;
          throw_if ((MAX_JSON_DEPTH <? depth) || bool_decide (l ∈ seen st)) INVALID_PLAIN_JSON;;
          modify (fun st => CloneState ({[l]} ∪ seen st) (units st));;
          if decide (cls o = CArray)
          then cloneArray (fun v => clonePlainJsonData fuel' h v (depth + 1)) o
          else cloneRecord (fun v => clonePlainJsonData fuel' h v (depth + 1)) o
      end
  end.

(** The depth never passes [MAX_JSON_DEPTH] + 1, so this much fuel is enough
    ([clone_never_out_of_fuel]). *)
Definition CLONE_FUEL : nat := 34.
Definition clonePlainJson (h : heap) (value : jsval) : result clone_error json :=
  fst (clonePlainJsonData CLONE_FUEL h value 0 (CloneState ∅ 0)).

Lemma never_of_option {S E A} (e e' : E) (x : option A) :
  e <> e' -> never (S:=S) e (of_option e' x).
Proof. intros Hne. destruct x; [done|by apply never_throw]. Qed.

Ltac never_step :=
  first [ by apply never_ret | by apply never_throw | by apply never_gets
        | by apply never_get_state | by apply never_modify | by apply never_throw_if
        | by apply never_of_option
        | apply never_bind; [|intros ? ? ? ?]
        | apply never_mapM; intros ? ].

Lemma clone_fuel_enough fuel h value depth :
  depth <= 33 -> 34 - depth <= Z.of_nat fuel ->
  never OUT_OF_FUEL (clonePlainJsonData fuel h value depth).
Proof.
  revert value depth. induction fuel as [|fuel IH]; intros value depth Hd Hf; [lia|]. simpl.
  assert (never OUT_OF_FUEL consumeJsonBudget) as Hc by (unfold consumeJsonBudget; repeat never_step).
  apply never_bind; [done|]. intros _ s0 s1 _.
  destruct value as [| |b|n|str| |l]; try by repeat never_step.
  { destruct (isFinite n); by repeat never_step. }
  apply never_bind; [by never_step|]. intros o s2 s3 _.
  apply never_bind; [by never_step|]. intros st s4 s5 _.
  apply never_bind; [by never_step|]. intros [] s6 s7 [Hck _]%throw_if_ok.
  apply orb_false_iff in Hck as [Hck _]. apply Z.ltb_ge in Hck.
  assert (forall v, never OUT_OF_FUEL (clonePlainJsonData fuel h v (depth + 1))) as Hrec.
  { intros v. apply IH; unfold MAX_JSON_DEPTH in Hck; lia. }
  apply never_bind; [by never_step|]. intros _ s8 s9 _.
  case_decide; repeat first [ apply Hc | apply Hrec | never_step ].
Qed.

(** ** What the copy accepts *)

(** An array without holes, accessors or extra keys, holding [vs]. *)
Record plain_array (o : object) (vs : list jsval) : Prop := PlainArray {
  pa_cls : cls o = CArray;
  pa_proto : obj_proto o = ArrayPrototype;
  pa_length : arrayLength o = Some (Z.of_nat (length vs));
  pa_keys : length (ownKeys o) = S (length vs);
  pa_items : Forall2 (fun i v => dataValue (getOwnPropertyDescriptor o (indexKey i)) = Some v)
               (seqFrom 0 (length vs)) vs;
  pa_no_extra : existsb (badArrayKey (Z.of_nat (length vs))) (ownKeys o) = false;
}.

(** A plain record whose properties are enumerable data properties under string keys. *)
Record plain_object (o : object) (ks : list string) (vs : list jsval) : Prop := PlainObject {
  po_cls : cls o <> CArray;
  po_proto : obj_proto o = ObjectPrototype;
  po_size : Z.of_nat (length (ownKeys o)) <= MAX_JSON_UNITS;
  po_keys : ownKeys o = map KStr ks;
  po_items : Forall2 (fun k v => dataValue (getOwnPropertyDescriptor o (KStr k)) = Some v) ks vs;
}.

(** [denotes h v j refs]: in the heap [h] the value [v] unfolds to the tree [j], and
    [refs] are the objects met, in the order of the walk, each as often as met. *)
Inductive denotes (h : heap) : jsval -> json -> list positive -> Prop :=
| den_null : denotes h VNull JNull []
| den_bool b : denotes h (VBool b) (JBool b) []
| den_num n : isFinite n = true -> denotes h (VNum n) (JNum n) []
| den_str s : denotes h (VStr s) (JStr s) []
| den_arr l o vs js refs :
    h !! l = Some o -> plain_array o vs -> denotes_list h vs js refs ->
    denotes h (VRef l) (JArr js) (l :: refs)
| den_obj l o ks vs js refs :
    h !! l = Some o -> plain_object o ks vs -> denotes_list h vs js refs ->
    denotes h (VRef l) (JObj (zip ks js)) (l :: refs)
with denotes_list (h : heap) : list jsval -> list json -> list positive -> Prop :=
| den_nil : denotes_list h [] [] []
| den_cons v vs j js r1 r2 :
    denotes h v j r1 -> denotes_list h vs js r2 ->
    denotes_list h (v :: vs) (j :: js) (r1 ++ r2).

(** The budget a tree uses: one unit on entry, one more per element or property. *)
Fixpoint cost (j : json) : Z :=
  match j with
  | JArr l => 1 + foldr Z.add 0 (map (fun x => 1 + cost x) l)
  | JObj fs => 1 + foldr Z.add 0 (map (fun f => 1 + cost (snd f)) fs)
  | _ => 1
  end.
Definition cost_list (js : list json) : Z := foldr Z.add 0 (map (fun x => 1 + cost x) js).

(** How many objects lie inside one another. *)
Fixpoint obj_depth (j : json) : Z :=
  match j with
  | JArr l => 1 + foldr Z.max 0 (map obj_depth l)
  | JObj fs => 1 + foldr Z.max 0 (map (fun f => obj_depth (snd f)) fs)
  | _ => 0
  end.

Definition visited (st : JsonCloneState) (refs : list positive) (n : Z) : JsonCloneState :=
  CloneState (list_to_set refs ∪ seen st) (units st + n).

Definition unshared (st : JsonCloneState) (refs : list positive) : Prop :=
  NoDup refs /\ Forall (fun l => l ∉ seen st) refs.

Lemma zip_map_snd {A B C} (f : B -> C) (ks : list A) js :
  length ks = length js -> map (fun p => f (snd p)) (zip ks js) = map f js.
Proof. revert js. induction ks; intros [|j js]; simpl; intros; try done. f_equal. auto. Qed.

Lemma cost_nonneg j : 1 <= cost j.
Proof.
  induction j using json_ind'; simpl; try lia.
  - induction H; simpl; lia.
  - induction H; simpl; lia.
Qed.
Lemma cost_list_nonneg js : 0 <= cost_list js.
Proof.
  unfold cost_list. induction js as [|j js IH]; simpl; [lia|]. pose proof (cost_nonneg j). lia.
Qed.

Lemma foldr_max_le (l : list Z) b : 0 <= b -> foldr Z.max 0 l <= b <-> Forall (fun x => x <= b) l.
Proof.
  intros Hb. induction l as [|x l IH]; simpl.
  - split; [constructor|lia].
  - rewrite Forall_cons, <- IH. lia.
Qed.

Lemma consume_ok st u st' :
  consumeJsonBudget st = (Ok u, st') <-> units st + 1 <= MAX_JSON_UNITS /\ st' = visited st [] 1.
Proof.
  unfold consumeJsonBudget, modify, gets, throw_if, throw, mbind, M_bind, mret, M_ret. simpl.
  assert (CloneState (seen st) (units st + 1) = visited st [] 1) as Heq.
  { unfold visited. f_equal. set_solver. }
  destruct u, (Z.ltb_spec MAX_JSON_UNITS (units st + 1)); simpl.
  - split; [done|]. intros [? _]. lia.
  - split; [intros [= <-]; split; [lia|exact Heq]|]. intros [_ ->]. by rewrite Heq.
Qed.

Lemma visited_app st r1 r2 n1 n2 :
  visited (visited st r1 n1) r2 n2 = visited st (r1 ++ r2) (n1 + n2).
Proof. unfold visited. simpl. f_equal; [set_solver|lia]. Qed.

Lemma unshared_app st r1 r2 n :
  unshared st (r1 ++ r2) <-> unshared st r1 /\ unshared (visited st r1 n) r2.
Proof.
  unfold unshared, visited. simpl. rewrite NoDup_app, Forall_app, !Forall_forall. set_solver.
Qed.

Lemma unshared_tick st r n : unshared (visited st [] n) r <-> unshared st r.
Proof. unfold unshared, visited. simpl. rewrite !Forall_forall. set_solver. Qed.

(** The walk of one value, with [depth] objects around it, accepts exactly the trees
    within the limits that share no object with each other or with those seen. *)
Definition accepts (h : heap) (depth : Z) (v : jsval) (st : JsonCloneState) (j : json)
    (st' : JsonCloneState) : Prop :=
  exists refs, denotes h v j refs /\ unshared st refs /\ depth + obj_depth j <= 33
    /\ units st + cost j <= MAX_JSON_UNITS /\ st' = visited st refs (cost j).

Definition accepts_list (h : heap) (depth : Z) (vs : list jsval) (st : JsonCloneState)
    (js : list json) (st' : JsonCloneState) : Prop :=
  exists refs, denotes_list h vs js refs /\ unshared st refs
    /\ Forall (fun j => depth + obj_depth j <= 33) js
    /\ units st + cost_list js <= MAX_JSON_UNITS /\ st' = visited st refs (cost_list js).

Lemma accepts_nil h d st js st' :
  accepts_list h d [] st js st' <-> js = [] /\ units st <= MAX_JSON_UNITS /\ st' = visited st [] 0.
Proof.
  unfold accepts_list. split.
  - intros (refs & Hden & _ & _ & Hu & ->). inversion Hden; subst. unfold cost_list in *. simpl in *.
    split_and!; [done|lia|done].
  - intros (-> & Hu & ->). exists []. unfold cost_list, unshared. simpl.
    split_and!; try constructor; lia || done.
Qed.

Lemma accepts_cons h d v vs st js st' :
  accepts_list h d (v :: vs) st js st' <->
  exists j js' st1, js = j :: js' /\ accepts h d v (visited st [] 1) j st1
    /\ accepts_list h d vs st1 js' st'.
Proof.
  unfold accepts_list, accepts. split.
  - intros (refs & Hden & Hun & Hd & Hu & ->). inversion Hden as [|? ? j js' r1 r2 Hj Hjs]; subst.
    apply Forall_cons in Hd as [Hdj Hd]. unfold cost_list in Hu. simpl in Hu.
    fold (cost_list js') in Hu. pose proof (cost_list_nonneg js').
    apply (unshared_app st r1 r2 (1 + cost j)) in Hun as [Hun1 Hun2].
    exists j, js', (visited (visited st [] 1) r1 (cost j)). split; [done|]. split.
    + exists r1. split_and!; [done|by apply unshared_tick|done|unfold visited; simpl; lia|done].
    + exists r2. rewrite !visited_app. simpl. split_and!; [done|exact Hun2|done|unfold visited; simpl; lia|].
      f_equal.
  - intros (j & js' & st1 & -> & (r1 & Hj & Hun1 & Hdj & Hu1 & ->) & r2 & Hjs & Hun2 & Hd & Hu & ->).
    exists (r1 ++ r2). rewrite visited_app in Hun2, Hu |- *. simpl in Hun2.
    unfold visited in Hu. simpl in Hu.
    split_and!; [by constructor| |by constructor|unfold cost_list in *; simpl; lia|].
    + apply (unshared_app st r1 r2 (1 + cost j)). split; [exact (proj1 (unshared_tick _ _ _) Hun1)|done].
    + rewrite visited_app. f_equal. unfold cost_list. simpl. lia.
Qed.

(** The loops over indices and over keys: a body that takes the item's value, consumes
    one unit and copies the value accepts what [accepts_list] does. *)
Lemma mapM_accepts {X Y} h d (body : X -> M JsonCloneState clone_error Y)
    (val : X -> option jsval) (tag : X -> json -> Y) xs st ys st' :
  units st <= MAX_JSON_UNITS ->
  (forall x st y st', body x st = (Ok y, st') <-> exists v j, val x = Some v /\ y = tag x j
     /\ units st + 1 <= MAX_JSON_UNITS /\ accepts h d v (visited st [] 1) j st') ->
  mapM body xs st = (Ok ys, st') <->
  exists vs js, Forall2 (fun x v => val x = Some v) xs vs /\ length js = length xs
    /\ ys = zip_with tag xs js /\ accepts_list h d vs st js st'.
Proof.
  intros Hst Hbody. revert st ys st' Hst. induction xs as [|x xs IH]; intros st ys st' Hst.
  - split.
    + intros [= <- <-]. exists [], []. split_and!; [constructor|done|done|].
      apply accepts_nil. split_and!; [done|lia|]. unfold visited. destruct st. simpl.
      f_equal; [set_solver|lia].
    + intros (vs & js & Hvs & Hlen & -> & Hacc). inversion Hvs; subst.
      apply accepts_nil in Hacc as (-> & _ & ->). simpl. unfold mret, M_ret, visited. destruct st. simpl.
      do 2 f_equal; [set_solver|lia].
  - split.
    + intros (y & s1 & ys' & Hy & Hys & ->)%mapM_cons_ok.
      apply Hbody in Hy as (v & j & Hv & -> & Hu & Hj). pose proof Hj as (r & _ & _ & _ & Huj & Hs1).
      apply IH in Hys as (vs & js & Hvs & Hlen & -> & Hjs);
        [|rewrite Hs1; unfold visited in *; simpl in *; lia].
      exists (v :: vs), (j :: js). split_and!; [by constructor|simpl; lia|done|].
      apply accepts_cons. eauto 10.
    + intros (vs & js & Hvs & Hlen & -> & Hacc). inversion Hvs as [|? v ? vs' Hv Hvs']; subst.
      apply accepts_cons in Hacc as (j & js' & st1 & -> & Hj & Hjs).
      pose proof Hj as (r & _ & _ & _ & Huj & Hs1). pose proof (cost_nonneg j).
      simpl in Hlen. apply (mapM_cons_run _ _ _ _ _ st1).
      * apply Hbody. exists v, j. split_and!; [done|done| |done]. unfold visited in *. simpl in *. lia.
      * apply IH; [rewrite Hs1; unfold visited in *; simpl in *; lia|].
        exists vs', js'. split_and!; [done|lia|done|done].
Qed.

(** Runs without a result-changing effect, read off at the end of a computation. *)
Lemma bind_ret_ok {S E A B} (m : M S E A) (f : A -> M S E B) a s1 s r :
  m s = (Ok a, s1) -> (m ≫= f) s = r <-> f a s1 = r.
Proof. unfold mbind, M_bind. by intros ->. Qed.
Lemma bind_iff {S E A B} (m : M S E A) (f : A -> M S E B) s b s' :
  (m ≫= f) s = (Ok b, s') <-> exists a s1, m s = (Ok a, s1) /\ f a s1 = (Ok b, s').
Proof.
  split; [apply bind_ok|]. intros (a & s1 & Hm & Hf). by rewrite (bind_run _ _ _ _ _ Hm).
Qed.
Lemma throw_if_iff {S E} b (e : E) (s : S) u s' :
  throw_if b e s = (Ok u, s') <-> b = false /\ s' = s.
Proof.
  split; [apply throw_if_ok|]. intros [-> ->]. unfold throw_if, mret, M_ret. by destruct u.
Qed.
Lemma of_option_iff {S E A} (e : E) (x : option A) (s : S) a s' :
  of_option e x s = (Ok a, s') <-> x = Some a /\ s' = s.
Proof. unfold of_option, throw, mret, M_ret. destruct x; naive_solver. Qed.
Lemma ret_iff {S E A} (a : A) (s : S) b s' :
  (mret a : M S E A) s = (Ok b, s') <-> b = a /\ s' = s.
Proof. unfold mret, M_ret. naive_solver. Qed.

Lemma zip_with_snd {A B} (xs : list A) (js : list B) :
  length js = length xs -> zip_with (fun _ j => j) xs js = js.
Proof. revert js. induction xs; intros [|j js]; simpl; intros; try done. f_equal. auto. Qed.

Lemma badArrayKey_keys_length o vs : plain_array o vs -> length (ownKeys o) = S (length vs).
Proof. by intros []. Qed.

Lemma arrayLength_bounds o z : arrayLength o = Some z -> 0 <= z <= MAX_JSON_UNITS.
Proof.
  unfold arrayLength. destruct (getOwnPropertyDescriptor _ _) as [[? [[]|]]|]; try done.
  destruct (asSafeInteger n); simpl; [|done]. case_decide; intros; simplify_eq; lia.
Qed.

Lemma cost_zip (ks : list string) js : length ks = length js -> cost (JObj (zip ks js)) = cost (JArr js).
Proof. intros. simpl. by rewrite (zip_map_snd (fun x => 1 + cost x)). Qed.
Lemma obj_depth_zip (ks : list string) js :
  length ks = length js -> obj_depth (JObj (zip ks js)) = obj_depth (JArr js).
Proof. intros. simpl. by rewrite zip_map_snd. Qed.
Lemma obj_depth_arr d js :
  d + obj_depth (JArr js) <= 33 <-> d <= 32 /\ Forall (fun j => d + 1 + obj_depth j <= 33) js.
Proof.
  simpl. assert (0 <= foldr Z.max 0 (map obj_depth js)) as H0 by (clear; induction js; simpl; lia).
  transitivity (d <= 32 /\ foldr Z.max 0 (map obj_depth js) <= 32 - d); [lia|].
  split; intros [Hd H]; (split; [done|]); revert H.
  - rewrite foldr_max_le, Forall_map by lia. intros H. eapply Forall_impl; [exact H|]. simpl. lia.
  - intros H. rewrite foldr_max_le, Forall_map by lia. eapply Forall_impl; [exact H|]. simpl. lia.
Qed.

Lemma denotes_list_length h vs js refs : denotes_list h vs js refs -> length js = length vs.
Proof. induction 1; simpl; congruence. Qed.

(** What a reference denotes, read off the object it points to. *)
Lemma denotes_ref h l o j refs :
  h !! l = Some o ->
  denotes h (VRef l) j refs <->
  exists vs js refs', refs = l :: refs' /\ denotes_list h vs js refs' /\
    ((plain_array o vs /\ j = JArr js) \/
     (exists ks, plain_object o ks vs /\ length ks = length js /\ j = JObj (zip ks js))).
Proof.
  intros Hl. split.
  - intros Hden. inversion Hden as [| | | |? o' vs js refs' Hl' Hp Hjs|? o' ks vs js refs' Hl' Hp Hjs];
      subst; rewrite Hl in Hl'; injection Hl' as <-; exists vs, js, refs'; [by eauto|].
    split_and!; [done|done|right; exists ks]. split_and!; [done| |done].
    destruct Hp as [_ _ _ _ Hit%Forall2_length]. apply denotes_list_length in Hjs. lia.
  - intros (vs & js & refs' & -> & Hjs & [[Hp ->]|(ks & Hp & _ & ->)]); [by eapply den_arr|by eapply den_obj].
Qed.

Lemma unshared_cons st l refs :
  unshared st (l :: refs) <-> l ∉ seen st /\ unshared (visited st [l] 1) refs.
Proof.
  rewrite (unshared_app st [l] refs 1). unfold unshared. rewrite Forall_singleton.
  pose proof (NoDup_singleton l). naive_solver.
Qed.

(** The copy of one object, in terms of the copies of its elements. *)
Lemma accepts_object h depth l o st j st' :
  h !! l = Some o ->
  accepts h depth (VRef l) st j st' <->
  depth <= MAX_JSON_DEPTH /\ l ∉ seen st /\ units st + 1 <= MAX_JSON_UNITS /\
  exists vs js, accepts_list h (depth + 1) vs (visited st [l] 1) js st' /\
    ((plain_array o vs /\ j = JArr js) \/
     (exists ks, plain_object o ks vs /\ length ks = length js /\ j = JObj (zip ks js))).
Proof.
  intros Hl. unfold accepts, accepts_list.
  assert (forall js, cost (JArr js) = 1 + cost_list js) as Hcost by done. split.
  - intros (refs & Hden & Hu & Hd & Hc & ->).
    apply (denotes_ref _ _ _ _ _ Hl) in Hden as (vs & js & refs' & -> & Hjs & Hj).
    assert (cost j = cost (JArr js) /\ obj_depth j = obj_depth (JArr js)) as [Ec Ed].
    { destruct Hj as [[_ ->]|(ks & _ & ? & ->)]; [done|]. by rewrite cost_zip, obj_depth_zip. }
    rewrite Ed in Hd. apply obj_depth_arr in Hd as [Hd Hdjs]. apply unshared_cons in Hu as [Hnl Hu].
    rewrite Ec, Hcost in *. pose proof (cost_list_nonneg js). split_and!; [done|done|lia|].
    exists vs, js. split; [|done]. exists refs'. rewrite visited_app.
    split_and!; [done|done|done|simpl; lia|done].
  - intros (Hd & Hnl & Hu1 & vs & js & (refs & Hjs & Hu & Hdjs & Hc & ->) & Hj).
    assert (cost j = cost (JArr js) /\ obj_depth j = obj_depth (JArr js)) as [Ec Ed].
    { destruct Hj as [[_ ->]|(ks & _ & ? & ->)]; [done|]. by rewrite cost_zip, obj_depth_zip. }
    exists (l :: refs). rewrite visited_app, Ed, Ec, Hcost. simpl in Hc.
    split_and!; [|by apply unshared_cons|by apply obj_depth_arr|lia|done].
    apply (denotes_ref _ _ _ _ _ Hl). eauto 10.
Qed.

Section CloneSpec.
Variable rec : jsval -> M JsonCloneState clone_error json.
Variable h : heap.
Variable depth : Z.
Hypothesis rec_spec : forall v st j st', rec v st = (Ok j, st') <-> accepts h depth v st j st'.

Lemma cloneElement_spec o i st j st' :
  cloneElement rec o i st = (Ok j, st') <->
  exists v j', dataValue (getOwnPropertyDescriptor o (indexKey i)) = Some v /\ j = j'
    /\ units st + 1 <= MAX_JSON_UNITS /\ accepts h depth v (visited st [] 1) j' st'.
Proof.
  unfold cloneElement. rewrite bind_iff. setoid_rewrite of_option_iff.
  setoid_rewrite bind_iff. setoid_rewrite consume_ok. setoid_rewrite rec_spec. naive_solver.
Qed.

Definition keyString (k : jskey) : string := match k with KStr s => s | KSym _ => EmptyString end.
Definition propertyValue (o : object) (k : jskey) : option jsval :=
  match k with KStr _ => dataValue (getOwnPropertyDescriptor o k) | KSym _ => None end.

Lemma cloneProperty_spec o k st y st' :
  cloneProperty rec o k st = (Ok y, st') <->
  exists v j, propertyValue o k = Some v /\ y = (keyString k, j)
    /\ units st + 1 <= MAX_JSON_UNITS /\ accepts h depth v (visited st [] 1) j st'.
Proof.
  unfold cloneProperty. rewrite bind_iff. setoid_rewrite of_option_iff.
  setoid_rewrite bind_iff. setoid_rewrite of_option_iff. setoid_rewrite bind_iff.
  setoid_rewrite consume_ok. setoid_rewrite bind_iff. setoid_rewrite ret_iff.
  setoid_rewrite rec_spec. destruct k as [s|n]; simpl; naive_solver.
Qed.

Lemma cloneArray_spec o st j st' :
  cls o = CArray -> units st <= MAX_JSON_UNITS ->
  cloneArray rec o st = (Ok j, st') <->
  exists vs js, accepts_list h depth vs st js st' /\ plain_array o vs /\ j = JArr js.
Proof.
  intros Hcls Hst. unfold cloneArray.
  rewrite bind_iff. setoid_rewrite throw_if_iff. setoid_rewrite bind_iff.
  setoid_rewrite of_option_iff. setoid_rewrite bind_iff. setoid_rewrite throw_if_iff.
  setoid_rewrite bind_iff. setoid_rewrite bind_iff. setoid_rewrite throw_if_iff.
  setoid_rewrite ret_iff.
  assert (forall len ys st1, mapM (cloneElement rec o) (seqFrom 0 len) st = (Ok ys, st1) <->
    exists vs js, Forall2 (fun i v => dataValue (getOwnPropertyDescriptor o (indexKey i)) = Some v)
        (seqFrom 0 len) vs /\ length js = len /\ ys = js /\ accepts_list h depth vs st js st1) as Hmap.
  { intros len ys st1. rewrite (mapM_accepts h depth _
      (fun i => dataValue (getOwnPropertyDescriptor o (indexKey i))) (fun _ j => j)), seqFrom_length;
      [|done|intros; apply cloneElement_spec].
    split; intros (vs & js & ? & ? & -> & ?); exists vs, js;
      by rewrite zip_with_snd by (by rewrite seqFrom_length). }
  split.
  - intros (? & ? & [Hp%negb_false_iff%bool_decide_eq_true ->] & len & ? & [Hlen ->] & ? & ?
      & [Hk%negb_false_iff%Z.eqb_eq ->] & copy & ? & (vs & js & Hit & Hjs & -> & Hacc)%Hmap
      & ? & ? & [Hex ->] & -> & ->).
    exists vs, js. split_and!; [done| |done].
    apply arrayLength_bounds in Hlen as Hb. apply Forall2_length in Hit as Hvs.
    rewrite seqFrom_length in Hvs. rewrite Hvs in Hit.
    replace len with (Z.of_nat (length vs)) in * by lia.
    constructor; try done. lia.
  - intros (vs & js & Hacc & [Hc Hp Hlen Hk Hit Hex] & ->).
    assert (length js = length vs) by (destruct Hacc as (? & ?%denotes_list_length & _); done).
    exists (), st. split; [by rewrite bool_decide_true|]. exists (Z.of_nat (length vs)), st.
    split; [done|]. exists (), st. split; [split; [|done]; apply negb_false_iff, Z.eqb_eq; lia|].
    exists js, st'. split; [|exists (), st'; by rewrite Hex].
    rewrite Nat2Z.id. apply Hmap. exists vs, js. done.
Qed.

Lemma keys_are_strings o ks vs :
  Forall2 (fun x v => propertyValue o x = Some v) ks vs ->
  ks = map KStr (map keyString ks) /\
  Forall2 (fun k v => dataValue (getOwnPropertyDescriptor o (KStr k)) = Some v) (map keyString ks) vs.
Proof.
  induction 1 as [|[k|n] v ks vs Hv _ [IH1 IH2]]; simpl in *; [done| |done].
  split; [by f_equal|by constructor].
Qed.

Lemma cloneRecord_spec o st j st' :
  cls o <> CArray -> units st <= MAX_JSON_UNITS ->
  cloneRecord rec o st = (Ok j, st') <->
  exists vs js, accepts_list h depth vs st js st' /\
    exists ks, plain_object o ks vs /\ length ks = length js /\ j = JObj (zip ks js).
Proof.
  intros Hcls Hst. unfold cloneRecord.
  rewrite bind_iff. setoid_rewrite throw_if_iff. setoid_rewrite bind_iff.
  setoid_rewrite throw_if_iff. setoid_rewrite bind_iff. setoid_rewrite ret_iff.
  assert (forall (ks : list jskey) js, zip_with (fun k (j : json) => (keyString k, j)) ks js
    = zip (map keyString ks) js) as Hzip.
  { induction ks; intros [|? js]; simpl; try done. by f_equal. }
  pose proof (fun ks ys st1 => mapM_accepts h depth (cloneProperty rec o) (propertyValue o)
    (fun k j => (keyString k, j)) ks st ys st1 Hst (cloneProperty_spec o)) as Hmap.
  setoid_rewrite Hzip in Hmap. split.
  - intros (? & ? & [Hp%negb_false_iff%bool_decide_eq_true ->] & ? & ? & [Hb%Z.ltb_ge ->]
      & copy & ? & (vs & js & Hit & Hlen & -> & Hacc)%Hmap & -> & ->).
    apply keys_are_strings in Hit as [Hks Hit].
    exists vs, js. split; [done|]. exists (map keyString (ownKeys o)).
    split; [by constructor|]. by rewrite length_map.
  - intros (vs & js & Hacc & ks & [Hc Hp Hb Hks Hit] & Hlen & ->).
    exists (), st. split; [by rewrite bool_decide_true|]. exists (), st.
    split; [split; [by apply Z.ltb_ge|done]|]. exists (zip ks js), st'. split; [|done].
    assert (map keyString (map KStr ks) = ks) as Hid by (rewrite map_map; apply map_id).
    apply Hmap. exists vs, js. rewrite Hks, Hid, length_map. split_and!; try done.
    clear -Hit. induction Hit as [|k v ks vs Hv _ IH]; [constructor|].
    simpl. constructor; [exact Hv|exact IH].
Qed.
End CloneSpec.

Lemma denotes_scalar h v j refs :
  (forall l, v <> VRef l) -> denotes h v j refs -> refs = [] /\ cost j = 1 /\ obj_depth j = 0.
Proof. intros Hv Hden. inversion Hden; subst; try done; by exfalso; eapply Hv. Qed.

Lemma accepts_scalar h d v st j st' :
  (forall l, v <> VRef l) ->
  accepts h d v st j st' <->
  denotes h v j [] /\ d <= 33 /\ units st + 1 <= MAX_JSON_UNITS /\ st' = visited st [] 1.
Proof.
  intros Hv. unfold accepts. split.
  - intros (refs & Hden & _ & ? & ? & ->).
    destruct (denotes_scalar _ _ _ _ Hv Hden) as (-> & Hc & Hd). rewrite Hc, Hd in *.
    split_and!; [done|lia|lia|done].
  - intros (Hden & ? & ? & ->). destruct (denotes_scalar _ _ _ _ Hv Hden) as (_ & Hc & Hd).
    exists []. rewrite Hc, Hd. split_and!; [done|split; constructor|lia|lia|done].
Qed.

(** The walk and what it accepts agree, whatever the depth and the state it starts in. *)
Lemma clone_spec fuel h v depth st j st' :
  depth <= 33 -> 34 - depth <= Z.of_nat fuel ->
  clonePlainJsonData fuel h v depth st = (Ok j, st') <-> accepts h depth v st j st'.
Proof.
  revert v depth st j st'. induction fuel as [|fuel IH]; intros v depth st j st' Hd Hf; [lia|].
  simpl. rewrite bind_iff. setoid_rewrite consume_ok.
  destruct v as [| |b|n|str| |l].
  1-6: rewrite accepts_scalar by done.
  - unfold throw. split; [naive_solver|]. intros (Hden & _). inversion Hden.
  - setoid_rewrite ret_iff. split.
    + intros (? & ? & (? & ->) & -> & ->). split_and!; [constructor|lia|done|done].
    + intros (Hden & ? & ? & ->). inversion Hden; subst. by exists (), (visited st [] 1).
  - setoid_rewrite ret_iff. split.
    + intros (? & ? & (? & ->) & -> & ->). split_and!; [constructor|lia|done|done].
    + intros (Hden & ? & ? & ->). inversion Hden; subst. by exists (), (visited st [] 1).
  - split.
    + intros (? & ? & (? & ->) & Hr). destruct (isFinite n) eqn:Hn; [|unfold throw in Hr; naive_solver].
      apply ret_iff in Hr as [-> ->]. split_and!; [by constructor|lia|done|done].
    + intros (Hden & ? & ? & ->). inversion Hden as [| |? Hn| | |]; subst. rewrite Hn.
      by exists (), (visited st [] 1).
  - setoid_rewrite ret_iff. split.
    + intros (? & ? & (? & ->) & -> & ->). split_and!; [constructor|lia|done|done].
    + intros (Hden & ? & ? & ->). inversion Hden; subst. by exists (), (visited st [] 1).
  - unfold throw. split; [naive_solver|]. intros (Hden & _). inversion Hden.
  - destruct (h !! l) as [o|] eqn:Hl; simpl.
    2: { unfold throw. split; [naive_solver|].
         intros (? & Hden & _). inversion Hden; congruence. }
    rewrite (accepts_object _ _ _ _ _ _ _ Hl).
    assert (units (visited st [] 1) = units st + 1 /\ seen (visited st [] 1) = seen st
      /\ CloneState ({[l]} ∪ seen (visited st [] 1)) (units (visited st [] 1)) = visited st [l] 1)
      as (Eu & Es & Ev) by (unfold visited; simpl; split_and!; [done|set_solver|f_equal; set_solver]).
    assert (forall j st1, units st1 <= MAX_JSON_UNITS -> depth <= MAX_JSON_DEPTH ->
      (if decide (cls o = CArray)
       then cloneArray (fun v => clonePlainJsonData fuel h v (depth + 1)) o
       else cloneRecord (fun v => clonePlainJsonData fuel h v (depth + 1)) o) st1 = (Ok j, st') <->
      exists vs js, accepts_list h (depth + 1) vs st1 js st' /\
        ((plain_array o vs /\ j = JArr js) \/
         (exists ks, plain_object o ks vs /\ length ks = length js /\ j = JObj (zip ks js)))) as Hbranch.
    { intros j' st1 Hst1 Hdep. unfold MAX_JSON_DEPTH in Hdep.
      assert (forall v st j st', clonePlainJsonData fuel h v (depth + 1) st = (Ok j, st') <->
        accepts h (depth + 1) v st j st') as Hrec by (intros; apply IH; lia).
      case_decide as Hc.
      - rewrite (cloneArray_spec _ _ _ Hrec o st1 j' st' Hc Hst1).
        split; [naive_solver|]. intros (vs & js & Hacc & [?|(ks & [? _ _ _ _] & _)]); [eauto|done].
      - rewrite (cloneRecord_spec _ _ _ Hrec o st1 j' st' Hc Hst1).
        split; [naive_solver|]. intros (vs & js & Hacc & [([? _ _ _ _ _] & _)|?]); [done|eauto]. }
    split.
    + intros ([] & s1 & (Hu & ->) & Hr). run_ok. simpl in *. split_bools.
      rewrite Es in *. rewrite Ev in *. apply Z.ltb_ge in H as Hdep.
      split_and!; [done|done|done|]. apply Hbranch; [simpl; lia|done|done].
    + intros (Hdep & Hnl & Hu & Hex). exists (), (visited st [] 1). split; [done|].
      apply Hbranch in Hex; [|simpl; lia|done].
      rewrite (bind_run _ _ _ o (visited st [] 1)) by done.
      rewrite (bind_run _ _ _ (visited st [] 1) (visited st [] 1)) by done.
      rewrite (bind_run _ _ _ () (visited st [] 1)).
      2: { apply throw_if_iff. rewrite Es. split; [|done].
           apply orb_false_iff. split; [by apply Z.ltb_ge|by apply bool_decide_eq_false]. }
      rewrite (bind_run _ _ _ () (visited st [l] 1)) by (unfold modify; by rewrite Ev). done.
Qed.

(** ** The copy as a whole *)

(** What the copy of a value accepts: the trees within the depth and the budget whose
    objects are all distinct. *)
Definition well_shaped (h : heap) (v : jsval) (j : json) : Prop :=
  exists refs, denotes h v j refs /\ NoDup refs /\ obj_depth j <= MAX_JSON_DEPTH + 1
    /\ cost j <= MAX_JSON_UNITS.

Lemma clonePlainJson_ok h v j : clonePlainJson h v = Ok j <-> well_shaped h v j.
Proof.
  unfold clonePlainJson, well_shaped. split.
  - destruct (clonePlainJsonData _ _ _ _ _) as [r st'] eqn:E0. simpl. intros ->.
    apply clone_spec in E0 as (refs & ? & [? _] & ? & Hc & _); [|done|done].
    exists refs. unfold MAX_JSON_DEPTH. simpl in Hc. split_and!; [done|done|lia|lia].
  - intros (refs & Hden & Hnd & Hd & Hc).
    assert (accepts h 0 v (CloneState ∅ 0) j (visited (CloneState ∅ 0) refs (cost j))) as Hacc.
    { exists refs. unfold MAX_JSON_DEPTH in Hd. simpl. split_and!; [done| |lia|lia|done].
      split; [done|]. apply Forall_forall. set_solver. }
    apply (clone_spec CLONE_FUEL) in Hacc; [|done|done]. by rewrite Hacc.
Qed.

Lemma clonePlainJson_total h v : clonePlainJson h v <> Err OUT_OF_FUEL.
Proof. by apply clone_fuel_enough. Qed.

(** ** [isDeepStrictEqual] on trees *)

(** Objects are compared as maps: the order of the keys does not matter. Numbers are
    compared with [Object.is]. *)
Fixpoint deepEqual (a b : json) : bool :=
  match a, b with
  | JNull, JNull => true
  | JBool x, JBool y => Bool.eqb x y
  | JNum x, JNum y => bool_decide (x = y)
  | JStr x, JStr y => bool_decide (x = y)
  | JArr l, JArr m =>
      (fix go l m :=
        match l, m with
        | [], [] => true
        | x :: l', y :: m' => deepEqual x y && go l' m'
        | _, _ => false
        end) l m
  | JObj fs, JObj gs =>
      bool_decide (length fs = length gs)
      && forallb (fun f => match assoc (fst f) gs with
                           | Some v => deepEqual (snd f) v
                           | None => false
                           end) fs
  | _, _ => false
  end.

(** A tree whose objects have each key once, as every JavaScript object does. *)
Fixpoint json_wf (j : json) : Prop :=
  match j with
  | JArr l => foldr and True (map json_wf l)
  | JObj fs => NoDup (map fst fs) /\ foldr and True (map (fun f => json_wf (snd f)) fs)
  | _ => True
  end.

Lemma foldr_and_Forall {A} (P : A -> Prop) l : foldr and True (map P l) <-> Forall P l.
Proof. induction l as [|x l IH]; simpl; [split; auto|]. by rewrite Forall_cons, IH. Qed.

Lemma assoc_elem {A} k (fs : list (string * A)) v : assoc k fs = Some v -> (k, v) ∈ fs.
Proof.
  induction fs as [|[k' v'] fs IH]; simpl; [done|]. case_decide; intros; simplify_eq; set_solver.
Qed.
Lemma elem_assoc {A} k (fs : list (string * A)) v :
  NoDup (map fst fs) -> (k, v) ∈ fs -> assoc k fs = Some v.
Proof.
  induction fs as [|[k' v'] fs IH]; simpl; [set_solver|].
  intros [Hk Hnd]%NoDup_cons [[= <- <-]|Hin]%elem_of_cons; case_decide; try done; [|auto].
  subst. exfalso. apply Hk. by apply (list_elem_of_fmap_2 fst fs (k', v)).
Qed.
Lemma assoc_None {A} k (fs : list (string * A)) : assoc k fs = None <-> k ∉ map fst fs.
Proof.
  induction fs as [|[k' v'] fs IH]; simpl; [set_solver|]. case_decide; [set_solver|].
  rewrite IH. set_solver.
Qed.

Lemma deepEqual_JArr l m :
  deepEqual (JArr l) (JArr m) = true <-> Forall2 (fun x y => deepEqual x y = true) l m.
Proof.
  revert m. induction l as [|x l IH]; intros [|y m]; simpl.
  - split; [constructor|done].
  - split; [done|inversion 1].
  - split; [done|inversion 1].
  - rewrite andb_true_iff. specialize (IH m). simpl in IH. rewrite IH.
    split; [intros []; by constructor|inversion 1; done].
Qed.
Lemma deepEqual_JObj fs gs :
  deepEqual (JObj fs) (JObj gs) = true <->
  length fs = length gs /\
  Forall (fun f => exists v, assoc (fst f) gs = Some v /\ deepEqual (snd f) v = true) fs.
Proof.
  simpl. rewrite andb_true_iff, bool_decide_eq_true, forallb_forall, Forall_forall.
  setoid_rewrite list_elem_of_In. split; intros [Hl H]; (split; [done|]); intros f Hf; specialize (H f Hf).
  - destruct (assoc (fst f) gs); [eauto|done].
  - destruct H as (v & -> & ?). done.
Qed.

Lemma deepEqual_refl j : json_wf j -> deepEqual j j = true.
Proof.
  induction j as [| | | |l IH|fs IH] using json_ind'; intros Hwf; try done.
  - simpl. by destruct b.
  - simpl. by apply bool_decide_eq_true.
  - simpl. by apply bool_decide_eq_true.
  - apply deepEqual_JArr. simpl in Hwf. apply foldr_and_Forall in Hwf.
    induction IH; inversion Hwf; subst; constructor; auto.
  - simpl in Hwf. destruct Hwf as [Hnd Hwf%foldr_and_Forall]. apply deepEqual_JObj.
    split; [done|]. rewrite Forall_forall in *. intros [k v] Hin. exists v.
    split; [by apply elem_assoc|]. apply (IH _ Hin), (Hwf _ Hin).
Qed.

Lemma deepEqual_trans a b c : deepEqual a b = true -> deepEqual b c = true -> deepEqual a c = true.
Proof.
  revert b c. induction a as [| | | |l IH|fs IH] using json_ind'; intros [] []; try done.
  - simpl. rewrite !eqb_true_iff. congruence.
  - simpl. rewrite !bool_decide_eq_true. congruence.
  - simpl. rewrite !bool_decide_eq_true. congruence.
  - rewrite !deepEqual_JArr. intros H1. revert l1. induction H1 as [|x y l l' Hxy _ IHl]; intros m Hm.
    + inversion Hm. constructor.
    + inversion Hm; subst. apply Forall_cons in IH as [IHx IH]. constructor; [by eapply IHx|auto].
  - rewrite !deepEqual_JObj, !Forall_forall. intros [Hl H1] [Hm H2]. split; [congruence|].
    intros f Hf. destruct (H1 f Hf) as (v & Hv & Hfv). rewrite Forall_forall in IH.
    destruct (H2 _ (assoc_elem _ _ _ Hv)) as (w & Hw & Hvw). exists w. split; [done|].
    by eapply (IH f Hf).
Qed.

Lemma assoc_Some_keys {A} k (fs : list (string * A)) : k ∈ map fst fs -> exists v, assoc k fs = Some v.
Proof. destruct (assoc k fs) eqn:E; [eauto|]. apply assoc_None in E. done. Qed.

Lemma deepEqual_keys fs gs :
  NoDup (map fst fs) -> deepEqual (JObj fs) (JObj gs) = true -> map fst fs ≡ₚ map fst gs.
Proof.
  rewrite deepEqual_JObj, Forall_forall. intros Hnd [Hlen H].
  apply submseteq_length_Permutation; [|rewrite !length_map; lia].
  apply NoDup_submseteq; [done|]. intros k (f & -> & Hf)%list_elem_of_fmap_1.
  destruct (H f Hf) as (v & Hv & _). by eapply (list_elem_of_fmap_2 fst _ (_, v)), assoc_elem.
Qed.

(** Equal objects have equal fields. *)
Lemma deepEqual_field k a b v :
  deepEqual a b = true -> field k a = Some v ->
  exists w, field k b = Some w /\ deepEqual v w = true.
Proof.
  destruct a as [| | | | |fs], b as [| | | | |gs]; try done. intros [_ H]%deepEqual_JObj Hv.
  rewrite Forall_forall in H. apply assoc_elem in Hv. by destruct (H _ Hv) as (w & Hw & Heq); eauto.
Qed.

(** Scalars are equal only to themselves. *)
Lemma deepEqual_scalar a b :
  (match a with JArr _ | JObj _ => False | _ => True end) -> deepEqual a b = true -> b = a.
Proof.
  destruct a, b; try done; intros _; simpl; rewrite ?eqb_true_iff, ?bool_decide_eq_true; congruence.
Qed.

Lemma deepEqual_sym a b : json_wf a -> json_wf b -> deepEqual a b = true -> deepEqual b a = true.
Proof.
  revert b. induction a as [| | | |l IH|fs IH] using json_ind'; intros [] Ha Hb; try done.
  - simpl. by rewrite !eqb_true_iff.
  - simpl. rewrite !bool_decide_eq_true. congruence.
  - simpl. rewrite !bool_decide_eq_true. congruence.
  - rewrite !deepEqual_JArr. simpl in Ha, Hb. apply foldr_and_Forall in Ha, Hb.
    intros H. induction H; constructor; inversion Ha; inversion Hb; inversion IH; subst; auto.
  - simpl in Ha, Hb. destruct Ha as [Hna Ha%foldr_and_Forall]. destruct Hb as [Hnb Hb%foldr_and_Forall].
    intros Heq. pose proof (deepEqual_keys _ _ Hna Heq) as Hp. revert Heq.
    rewrite !deepEqual_JObj, !Forall_forall in *. intros [Hlen H]. split; [done|].
    intros [k w] Hg. assert (k ∈ map fst fs) as Hk by (rewrite Hp; by apply (list_elem_of_fmap_2 fst _ (k, w))).
    apply assoc_Some_keys in Hk as [v Hv]. exists v. split; [done|]. apply assoc_elem in Hv.
    destruct (H _ Hv) as (w' & Hw' & Heq). simpl in *.
    rewrite (elem_assoc k fs0 w Hnb Hg) in Hw'. injection Hw' as <-.
    apply (IH _ Hv); [apply (Ha _ Hv)|apply (Hb _ Hg)|done].
Qed.

(** ** Object literals *)

Definition arrayObject (vs : list jsval) : object :=
  Object CArray ArrayPrototype
    (zip_with (fun i v => (indexKey i, Descriptor true (Some v))) (seqFrom 0 (length vs)) vs
     ++ [(KStr "length", Descriptor false (Some (VNum (NInt (Z.of_nat (length vs))))))]).
Definition recordObject (ks : list string) (vs : list jsval) : object :=
  Object CPlain ObjectPrototype (zip_with (fun k v => (KStr k, Descriptor true (Some v))) ks vs).

(** The value a literal with this tree evaluates to: fresh objects all the way down;
    the state is the heap and the next free address. *)
Fixpoint alloc (j : json) (s : heap * positive) : jsval * (heap * positive) :=
  let alloc_all := fix go l s :=
    match l with
    | [] => ([], s)
    | x :: l' => let '(v, s1) := alloc x s in let '(vs, s2) := go l' s1 in (v :: vs, s2)
    end in
  match j with
  | JNull => (VNull, s)
  | JBool b => (VBool b, s)
  | JNum n => (VNum n, s)
  | JStr t => (VStr t, s)
  | JArr l =>
      let '(vs, (h, n)) := alloc_all l s in
      (VRef n, (<[n := arrayObject vs]> h, Pos.succ n))
  | JObj fs =>
      let '(vs, (h, n)) := (fix go fs s :=
        match fs with
        | [] => ([], s)
        | f :: fs' => let '(v, s1) := alloc (snd f) s in let '(vs, s2) := go fs' s1 in (v :: vs, s2)
        end) fs s in
      (VRef n, (<[n := recordObject (map fst fs) vs]> h, Pos.succ n))
  end.
Fixpoint alloc_list (l : list json) (s : heap * positive) : list jsval * (heap * positive) :=
  match l with
  | [] => ([], s)
  | x :: l' => let '(v, s1) := alloc x s in let '(vs, s2) := alloc_list l' s1 in (v :: vs, s2)
  end.

Lemma alloc_arr l s :
  alloc (JArr l) s = let '(vs, (h, n)) := alloc_list l s in
    (VRef n, (<[n := arrayObject vs]> h, Pos.succ n)).
Proof.
  simpl. assert (forall s, (fix go l s := match l with
    | [] => ([], s)
    | x :: l' => let '(v, s1) := alloc x s in let '(vs, s2) := go l' s1 in (v :: vs, s2)
    end) l s = alloc_list l s) as ->; [|done].
  induction l as [|x l IH]; intros s'; simpl; [done|]. destruct (alloc x s'). by rewrite IH.
Qed.
Lemma alloc_obj fs s :
  alloc (JObj fs) s = let '(vs, (h, n)) := alloc_list (map snd fs) s in
    (VRef n, (<[n := recordObject (map fst fs) vs]> h, Pos.succ n)).
Proof.
  simpl. assert (forall s, (fix go (fs : list (string * json)) s := match fs with
    | [] => ([], s)
    | f :: fs' => let '(v, s1) := alloc (snd f) s in let '(vs, s2) := go fs' s1 in (v :: vs, s2)
    end) fs s = alloc_list (map snd fs) s) as ->; [|done].
  induction fs as [|x fs IH]; intros s'; simpl; [done|]. destruct (alloc _ s'). by rewrite IH.
Qed.

(** Every number is finite. *)
Fixpoint json_finite (j : json) : bool :=
  match j with
  | JNum n => isFinite n
  | JArr l => forallb json_finite l
  | JObj fs => forallb (fun f => json_finite (snd f)) fs
  | _ => true
  end.

Lemma own_lookup_app k a b :
  own_lookup k (a ++ b) = match own_lookup k a with Some d => Some d | None => own_lookup k b end.
Proof. induction a as [|[k' d] a IH]; simpl; [done|]. by case_decide. Qed.

(** A list of properties under distinct keys gives each its value. *)
Lemma own_lookup_zip {A} (key : A -> jskey) (ks : list A) vs rest :
  NoDup (map key ks) -> length ks = length vs ->
  Forall2 (fun k v => own_lookup (key k)
     (zip_with (fun k v => (key k, Descriptor true (Some v))) ks vs ++ rest)
       = Some (Descriptor true (Some v))) ks vs.
Proof.
  revert vs. induction ks as [|k ks IH]; intros [|v vs] Hnd Hlen; try done. simpl in *.
  apply NoDup_cons in Hnd as [Hk Hnd]. constructor; [by rewrite decide_True|].
  assert (Forall (fun k' => key k' <> key k) ks) as Hne.
  { apply Forall_forall. intros k' Hin Heq. apply Hk. rewrite <- Heq. by apply list_elem_of_fmap_2. }
  specialize (IH vs Hnd ltac:(lia)). revert Hne IH.
  generalize (zip_with (fun k v => (key k, Descriptor true (Some v))) ks vs). intros l Hne IH. clear Hk Hnd Hlen.
  induction IH as [|k' v' ks' vs' Hkv _ IHl]; [constructor|].
  apply Forall_cons in Hne as [Hk' Hne]. constructor; [by rewrite decide_False|auto].
Qed.

Lemma indexKey_NoDup n : NoDup (map indexKey (seqFrom 0 n)).
Proof.
  assert (forall l, Forall (fun z => 0 <= z) l -> NoDup l -> NoDup (map indexKey l)) as H.
  { intros l Hl Hnd. induction Hnd as [|z l Hz _ IH]; simpl; constructor.
    - apply Forall_cons in Hl as [Hz0 Hl]. intros (y & Heq & Hy)%list_elem_of_fmap_1.
      injection Heq as Heq. rewrite Forall_forall in Hl. apply dec_string_inj in Heq; [|done|by apply Hl].
      by subst.
    - apply Forall_cons in Hl as [_ Hl]. auto. }
  apply H; [|apply seqFrom_NoDup]. apply Forall_forall. intros z Hz%seqFrom_elem. lia.
Qed.

Lemma zip_with_keys {A} (key : A -> jskey) (ks : list A) (vs : list jsval) :
  length ks = length vs ->
  map fst (zip_with (fun k v => (key k, Descriptor true (Some v))) ks vs) = map key ks.
Proof. revert vs. induction ks as [|k ks IH]; intros [|v vs]; simpl; intros; try done. f_equal. auto. Qed.

Lemma index_not_length i : 0 <= i -> dec_string i <> "length"%string.
Proof.
  intros Hi Heq. destruct (decide (i = 0)) as [->|]; [done|].
  pose proof (dec_string_positive i ltac:(lia)) as H. by rewrite Heq in H.
Qed.

Lemma isIndexNumeral_dec i : 0 <= i -> isIndexNumeral (dec_string i) = true.
Proof.
  intros Hi. unfold isIndexNumeral. destruct (decide (i = 0)) as [->|]; [done|].
  rewrite dec_string_positive by lia. apply orb_true_r.
Qed.

Lemma badArrayKey_index len i : 0 <= i < len -> badArrayKey len (indexKey i) = false.
Proof.
  intros Hi. simpl. rewrite isIndexNumeral_dec, dec_string_number by lia.
  rewrite bool_decide_false by (apply index_not_length; lia). simpl. apply Z.leb_gt. lia.
Qed.

Lemma arrayObject_plain vs : Z.of_nat (length vs) <= MAX_JSON_UNITS -> plain_array (arrayObject vs) vs.
Proof.
  intros Hlen. pose proof (seqFrom_length 0 (length vs)) as Hl.
  pose proof (own_lookup_zip indexKey (seqFrom 0 (length vs)) vs
    [(KStr "length", Descriptor false (Some (VNum (NInt (Z.of_nat (length vs))))))]
    (indexKey_NoDup _) Hl) as Hitems.
  assert (ownKeys (arrayObject vs) = map indexKey (seqFrom 0 (length vs)) ++ [KStr "length"]) as Hkeys.
  { unfold ownKeys, arrayObject. simpl. by rewrite map_app, zip_with_keys by done. }
  constructor; try done.
  - unfold arrayLength, getOwnPropertyDescriptor, arrayObject. simpl.
    rewrite own_lookup_app. assert (forall a b, own_lookup (KStr "length")
      (zip_with (fun i v => (indexKey i, Descriptor true (Some v))) (seqFrom a b) vs) = None \/ a < 0) as Hno.
    { clear. induction vs as [|v vs IH]; intros a [|b]; simpl; auto.
      destruct (decide (a < 0)) as [|Ha]; [auto|]. rewrite decide_False.
      - destruct (IH (a + 1) b) as [|]; [auto|lia].
      - unfold indexKey. intros [= Heq]. by apply (index_not_length a); [lia|]. }
    destruct (Hno 0 (length vs)) as [->|]; [|lia]. simpl. unfold MAX_JSON_UNITS in *.
    rewrite decide_True by (unfold MAX_SAFE_INTEGER; lia). simpl. rewrite decide_True by lia. done.
  - rewrite Hkeys, length_app, length_map, Hl. simpl. lia.
  - unfold getOwnPropertyDescriptor. eapply Forall2_impl; [exact Hitems|]. intros i v Hv. simpl in *. by rewrite Hv.
  - rewrite Hkeys, existsb_app. apply orb_false_iff. split; [|done].
    apply not_true_is_false. rewrite existsb_exists. intros (k & Hk & Hbad).
    apply in_map_iff in Hk as (i & <- & Hi). apply list_elem_of_In, seqFrom_elem in Hi.
    by rewrite badArrayKey_index in Hbad by lia.
Qed.

Lemma recordObject_plain ks vs :
  NoDup ks -> length ks = length vs -> Z.of_nat (length ks) <= MAX_JSON_UNITS ->
  plain_object (recordObject ks vs) ks vs.
Proof.
  intros Hnd Hlen Hsize.
  assert (ownKeys (recordObject ks vs) = map KStr ks) as Hkeys.
  { unfold ownKeys, recordObject. simpl. by rewrite zip_with_keys by done. }
  constructor; try done.
  - by rewrite Hkeys, length_map.
  - assert (NoDup (map KStr ks)) as Hnd' by (by apply (NoDup_fmap_2 KStr)).
    pose proof (own_lookup_zip KStr ks vs [] Hnd' Hlen) as H. rewrite app_nil_r in H.
    eapply Forall2_impl; [exact H|]. intros k v Hv. unfold getOwnPropertyDescriptor. simpl in *. by rewrite Hv.
Qed.

Scheme denotes_mut := Minimality for denotes Sort Prop
  with denotes_list_mut := Minimality for denotes_list Sort Prop.

Lemma denotes_weaken h h' v j refs : h ⊆ h' -> denotes h v j refs -> denotes h' v j refs.
Proof.
  intros Hsub. induction 1 using denotes_mut with
    (P0 := fun vs js refs => denotes_list h' vs js refs); econstructor; eauto using lookup_weaken.
Qed.

Lemma denotes_list_weaken h h' vs js refs :
  h ⊆ h' -> denotes_list h vs js refs -> denotes_list h' vs js refs.
Proof. intros Hsub. induction 1; constructor; [by eapply denotes_weaken|done]. Qed.

(** The addresses from [n] on are free. *)
Definition fresh_from (h : heap) (n : positive) : Prop := forall k, (n <= k)%positive -> h !! k = None.

(** What [alloc] returns: new objects only, the old ones untouched. *)
Record allocated (s s' : heap * positive) (refs : list positive) : Prop := {
  al_next : (snd s <= snd s')%positive;
  al_old : fst s ⊆ fst s';
  al_fresh : fresh_from (fst s') (snd s');
  al_nodup : NoDup refs;
  al_refs : Forall (fun r => snd s <= r < snd s')%positive refs;
}.

Lemma allocated_nil s : fresh_from (fst s) (snd s) -> allocated s s [].
Proof. intros Hf. constructor; first [done | lia | constructor]. Qed.

Lemma allocated_app s s1 s2 r1 r2 :
  allocated s s1 r1 -> allocated s1 s2 r2 -> allocated s s2 (r1 ++ r2).
Proof.
  intros [Hn1 Ho1 Hf1 Hd1 Hr1] [Hn2 Ho2 Hf2 Hd2 Hr2]. rewrite Forall_forall in Hr1, Hr2.
  constructor; [lia|by etransitivity|exact Hf2| |].
  - apply NoDup_app. split_and!; [done| |done]. intros r H1%Hr1 H2%Hr2. simpl in *. lia.
  - apply Forall_app. rewrite !Forall_forall. split; intros r Hr; [apply Hr1 in Hr|apply Hr2 in Hr]; simpl in *; lia.
Qed.

Lemma allocated_object s h n refs o :
  allocated s (h, n) refs -> allocated s (<[n := o]> h, Pos.succ n) (n :: refs).
Proof.
  intros [Hn Ho Hf Hd Hr]. simpl in *. rewrite Forall_forall in Hr. constructor; simpl.
  - lia.
  - etransitivity; [exact Ho|]. apply insert_subseteq. apply Hf. lia.
  - intros k Hk. simpl in Hk. rewrite lookup_insert_ne by lia. apply Hf. simpl. lia.
  - constructor; [|done]. intros Hin%Hr. simpl in Hin. lia.
  - constructor; [lia|]. apply Forall_forall. intros r H%Hr. simpl in H. lia.
Qed.

Definition alloc_ok (j : json) : Prop := forall s v s',
  json_finite j = true -> json_wf j -> cost j <= MAX_JSON_UNITS ->
  fresh_from (fst s) (snd s) -> alloc j s = (v, s') ->
  exists refs, denotes (fst s') v j refs /\ allocated s s' refs.

Lemma alloc_list_ok l s vs s' :
  Forall alloc_ok l -> forallb json_finite l = true -> Forall json_wf l ->
  cost_list l <= MAX_JSON_UNITS -> fresh_from (fst s) (snd s) -> alloc_list l s = (vs, s') ->
  exists refs, denotes_list (fst s') vs l refs /\ allocated s s' refs.
Proof.
  intros Hok. revert s vs s'. induction Hok as [|j l Hj Hok IH]; intros s vs s' Hfin Hwf Hc Hf.
  - intros [= <- <-]. exists []. split; [constructor|by apply allocated_nil].
  - simpl. destruct (alloc j s) as [v s1] eqn:E1. destruct (alloc_list l s1) as [vs1 s2] eqn:E2.
    intros [= <- <-]. simpl in Hfin. apply andb_true_iff in Hfin as [Hfj Hfl].
    apply Forall_cons in Hwf as [Hwj Hwl]. pose proof (cost_list_nonneg l) as Hcl. pose proof (cost_nonneg j).
    unfold cost_list in Hc, Hcl. simpl in Hc.
    destruct (Hj s v s1 Hfj Hwj) as (r1 & Hd1 & Ha1); [lia|done|done|].
    destruct (IH s1 vs1 s2) as (r2 & Hd2 & Ha2); [done|done|unfold cost_list; lia|apply Ha1|done|].
    exists (r1 ++ r2). split; [|by eapply allocated_app].
    constructor; [|done]. eapply denotes_weaken; [apply Ha2|done].
Qed.

Lemma cost_list_length l : Z.of_nat (length l) <= cost_list l.
Proof.
  unfold cost_list. induction l as [|j l IH]; simpl; [lia|]. pose proof (cost_nonneg j). lia.
Qed.

Lemma alloc_list_length l s : length (fst (alloc_list l s)) = length l.
Proof.
  revert s. induction l as [|j l IH]; intros s; simpl; [done|].
  destruct (alloc j s) as [v s1]. specialize (IH s1). destruct (alloc_list l s1). simpl in *. by f_equal.
Qed.

Lemma alloc_denotes j : alloc_ok j.
Proof.
  induction j as [|b|n|t|l IH|fs IH] using json_ind'; intros s v s' Hfin Hwf Hc Hf Hal.
  1-4: simpl in Hal; injection Hal as <- <-; exists []; split; [by constructor|by apply allocated_nil].
  - rewrite alloc_arr in Hal. destruct (alloc_list l s) as [vs [h n]] eqn:El. injection Hal as <- <-.
    pose proof (alloc_list_length l s) as Hlen. rewrite El in Hlen. simpl in Hlen.
    simpl in Hwf, Hc. apply foldr_and_Forall in Hwf. fold (cost_list l) in Hc.
    pose proof (cost_list_length l).
    destruct (alloc_list_ok l s vs (h, n)) as (refs & Hd & Ha); [done|done|done|lia|done|done|].
    exists (n :: refs). split; [|by apply allocated_object].
    apply (den_arr _ n (arrayObject vs) vs); [apply lookup_insert_eq|apply arrayObject_plain; lia|].
    eapply denotes_list_weaken; [|exact Hd]. apply insert_subseteq. apply Ha. simpl. lia.
  - rewrite alloc_obj in Hal. destruct (alloc_list (map snd fs) s) as [vs [h n]] eqn:El. injection Hal as <- <-.
    pose proof (alloc_list_length (map snd fs) s) as Hlen. rewrite El, length_map in Hlen. simpl in Hlen.
    simpl in Hwf. destruct Hwf as [Hnd Hwf%foldr_and_Forall]. apply Forall_map in Hwf.
    assert (fs = zip (map fst fs) (map snd fs)) as Hzip by (clear; induction fs as [|[]]; simpl; by f_equal).
    rewrite Hzip, cost_zip in Hc by (by rewrite !length_map). simpl in Hc. fold (cost_list (map snd fs)) in Hc.
    pose proof (cost_list_length (map snd fs)) as Hcl. rewrite length_map in Hcl.
    destruct (alloc_list_ok (map snd fs) s vs (h, n)) as (refs & Hd & Ha); [by apply Forall_map| |done|lia|done|done|].
    { simpl in Hfin. clear -Hfin. induction fs; simpl in *; [done|]. split_bools. rewrite H. auto. }
    exists (n :: refs). split; [|by apply allocated_object]. rewrite Hzip at 2.
    apply (den_obj _ n (recordObject (map fst fs) vs) (map fst fs) vs); [apply lookup_insert_eq| |].
    + apply recordObject_plain; [done|rewrite length_map; lia|rewrite length_map; lia].
    + eapply denotes_list_weaken; [|exact Hd]. apply insert_subseteq. apply Ha. simpl. lia.
Qed.

(** The limits of the copy, on a tree. *)
Definition within_limits (j : json) : bool :=
  json_finite j && (obj_depth j <=? MAX_JSON_DEPTH + 1) && (cost j <=? MAX_JSON_UNITS).

(** A literal within the limits is copied as it is. *)
Lemma clone_literal j s v s' :
  within_limits j = true -> json_wf j -> fresh_from (fst s) (snd s) -> alloc j s = (v, s') ->
  clonePlainJson (fst s') v = Ok j /\ fresh_from (fst s') (snd s') /\ fst s ⊆ fst s'.
Proof.
  unfold within_limits. intros Hlim Hwf Hf Hal. split_bools.
  destruct (alloc_denotes j s v s') as (refs & Hd & []); [done|done|by apply Z.leb_le|done|done|].
  split; [|done]. apply clonePlainJson_ok. exists refs. split_and!; [done|done|by apply Z.leb_le|by apply Z.leb_le].
Qed.

Lemma clonePlainJson_weaken h h' v j :
  h ⊆ h' -> clonePlainJson h v = Ok j -> clonePlainJson h' v = Ok j.
Proof.
  rewrite !clonePlainJson_ok. intros Hsub (refs & Hd & ?). exists refs. split; [|done].
  by eapply denotes_weaken.
Qed.

(** ** Properties *)

(** The defensive copy of a payload never fails for want of anything but the input,
    and returns the tree [j] exactly when the value unfolds to [j] through plain arrays
    and records of enumerable data properties, no object is met twice (so nothing is
    shared or cyclic), no number is infinite, objects nest at most 33 deep and the tree
    costs at most 10000 units. *)
Theorem clonePlainJson_exact h v j :
  clonePlainJson h v <> Err OUT_OF_FUEL /\ (clonePlainJson h v = Ok j <-> well_shaped h v j).
Proof. split; [apply clonePlainJson_total|apply clonePlainJson_ok]. Qed.

(** Any literal within the limits, whose keys are distinct, is copied as it is: the
    copy loses nothing. *)
Theorem clonePlainJson_roundtrip j :
  within_limits j = true -> json_wf j ->
  let '(v, (h, _)) := alloc j (∅, 1%positive) in clonePlainJson h v = Ok j.
Proof.
  intros Hlim Hwf. destruct (alloc j _) as [v [h n]] eqn:Hal.
  by destruct (clone_literal j (∅, 1%positive) v (h, n) Hlim Hwf ltac:(intros ? _; apply lookup_empty) Hal).
Qed.
Definition sampleTree : json := JObj [("a", JArr [JNum (NInt 1); JNull; JObj []]); ("b", JStr "x")]%string.
Lemma clonePlainJson_roundtrip_witness :
  within_limits sampleTree = true /\
  let '(v, (h, _)) := alloc sampleTree (∅, 1%positive) in clonePlainJson h v = Ok sampleTree.
Proof.
  split; [reflexivity|]. apply (clonePlainJson_roundtrip sampleTree); [reflexivity|].
  simpl. split_and!; try done; apply (bool_decide_unpack _); vm_compute; done.
Defined.
