(* ===== verification/Contracts.v ===== *)
(** * The room-event contract

    [packages/contracts/src/core-room-event.ts], [event-payload-registry.ts] and
    [generated/room-event-envelope.v1.ts]: the envelope of a room event, its wire
    form, the validator of the published schema and the registry of payload
    validators. The formats of the schema validator and the schemas registered by
    the server are parameters of the class [Schemas]. *)
From S2P Require Import Prelude Text JsDate JsValue.
#[local] Set Warnings "-register-all,-clear-no-such-hyp,-level-tolerance".

(** ** Enumerations and their spelling *)

Inductive ActorKind : Type := human | agent | system.
Inductive ActorRole : Type := teacher | student | socratic_facilitator | room_clock | system_worker.
Inductive EventOperation : Type := add | revise | retract.
#[global] Instance ActorKind_eq_dec : EqDecision ActorKind.
Proof. solve_decision. Defined.
#[global] Instance ActorRole_eq_dec : EqDecision ActorRole.
Proof. solve_decision. Defined.
#[global] Instance EventOperation_eq_dec : EqDecision EventOperation.
Proof. solve_decision. Defined.

Definition actorKindText (k : ActorKind) : string :=
  match k with human => "human" | agent => "agent" | system => "system" end.
Definition actorRoleText (r : ActorRole) : string :=
  match r with
  | teacher => "teacher" | student => "student" | socratic_facilitator => "socratic_facilitator"
  | room_clock => "room_clock" | system_worker => "system_worker"
  end.
Definition operationText (o : EventOperation) : string :=
  match o with add => "add" | revise => "revise" | retract => "retract" end.

(** The member of an enumeration with this spelling. *)
Definition spelled {A} (text : A -> string) (l : list A) (s : string) : option A :=
  find (fun a => bool_decide (text a = s)) l.
Definition parseActorKind : string -> option ActorKind := spelled actorKindText [human; agent; system].
Definition parseActorRole : string -> option ActorRole :=
  spelled actorRoleText [teacher; student; socratic_facilitator; room_clock; system_worker].
Definition parseOperation : string -> option EventOperation := spelled operationText [add; revise; retract].

Lemma spelled_Some {A} (text : A -> string) l s a : spelled text l s = Some a -> text a = s.
Proof. unfold spelled. intros [_ H]%find_some. by apply bool_decide_eq_true in H. Qed.
Lemma parseActorKind_text k : parseActorKind (actorKindText k) = Some k.
Proof. by destruct k. Qed.
Lemma parseActorRole_text r : parseActorRole (actorRoleText r) = Some r.
Proof. by destruct r. Qed.
Lemma parseOperation_text o : parseOperation (operationText o) = Some o.
Proof. by destruct o. Qed.

(** ** The envelope *)

Record RoomEventEnvelope : Type := Envelope {
  eventId : string;
  roomId : string;
  roomSeq : Z;
  type : string;
  actorId : string;
  actorKind : ActorKind;
  actorRole : ActorRole;
  revision : Z;
  operation : EventOperation;
  eventTime : string;
  ingestTime : string;
  causationId : string;
  correlationId : string;
  payload : list (string * json);
}.
#[global] Instance RoomEventEnvelope_eq_dec : EqDecision RoomEventEnvelope.
Proof. solve_decision. Defined.

(** The tree of an envelope: what is written to the outbox and to the sockets. *)
Definition envelopeJson (e : RoomEventEnvelope) : json :=
  JObj [("eventId", JStr (eventId e)); ("schemaVersion", JNum (NInt 1)); ("roomId", JStr (roomId e));
        ("roomSeq", JNum (NInt (roomSeq e))); ("type", JStr (type e)); ("actorId", JStr (actorId e));
        ("actorKind", JStr (actorKindText (actorKind e))); ("actorRole", JStr (actorRoleText (actorRole e)));
        ("revision", JNum (NInt (revision e))); ("operation", JStr (operationText (operation e)));
        ("eventTime", JStr (eventTime e)); ("ingestTime", JStr (ingestTime e));
        ("causationId", JStr (causationId e)); ("correlationId", JStr (correlationId e));
        ("payload", JObj (payload e))]%string.

(** ** Parameters of the schema validator *)

Class Schemas : Type := {
  (** the formats [uuid] and [date-time] *)
  format_uuid : string -> bool;
  format_date_time : string -> bool;
}.

(** The documented behaviour the server relies on: hyphenated UUIDs and the instants
    printed by [toISOString] are accepted; the validator of dates accepts RFC 3339. *)
Record SchemasLaws `{Schemas} : Prop := {
  format_uuid_isUuid s : isUuid s = true -> format_uuid s = true;
  format_date_time_iso t : iso_year_range t -> format_date_time (toISOString t) = true;
}.

(** [^[a-z][a-z0-9_]*\.[a-z][a-z0-9_.]*$]: an identifier, a dot, and one or more
    dotted identifiers that start with a letter. *)
Definition is_lower_letter : ascii -> bool := between "a" "z".
Definition is_ident_char (c : ascii) : bool := is_lower_letter c || is_digit c || is_char "_" c.
Fixpoint after_ident (l : list ascii) : bool :=
  match l with
  | [] => false
  | c :: l' =>
      if is_ident_char c then after_ident l'
      else is_char "." c &&
        match l' with
        | d :: l'' => is_lower_letter d && forallb (fun c => is_ident_char c || is_char "." c) l''
        | [] => false
        end
  end.
Definition isEventType (s : string) : bool :=
  match list_ascii_of_string s with
  | c :: l => is_lower_letter c && after_ident l
  | [] => false
  end.

(** ** [parseRoomEventEnvelope] *)

Definition asStr (j : json) : option string := match j with JStr s => Some s | _ => None end.
(** The value of a number the schema types as [integer] with this minimum. *)
Definition asIntegerMin (lo : Z) (j : json) : option Z :=
  match j with JNum (NInt z) => if decide (lo <= z) then Some z else None | _ => None end.
Definition asObj (j : json) : option (list (string * json)) :=
  match j with JObj fs => Some fs | _ => None end.
Definition guardO (b : bool) : option unit := if b then Some tt else None.

(** Reads a required property. *)
Definition readField {A} (read : json -> option A) (k : string) (j : json) : option A :=
  match field k j with Some v => read v | None => None end.

Definition ENVELOPE_KEYS : list string :=
  ["eventId"; "schemaVersion"; "roomId"; "roomSeq"; "type"; "actorId"; "actorKind"; "actorRole";
   "revision"; "operation"; "eventTime"; "ingestTime"; "causationId"; "correlationId"; "payload"]%string.

(** The pairs the [oneOf] of the schema allows. *)
Definition roleOfKind (k : ActorKind) (r : ActorRole) : bool :=
  match k, r with
  | human, (teacher | student) => true
  | agent, socratic_facilitator => true
  | system, (room_clock | system_worker) => true
  | _, _ => false
  end.

Section Parse.
Context `{Schemas}.

Definition uuidField (k : string) (j : json) : option string :=
  s ← readField asStr k j; _ ← guardO (format_uuid s); Some s.
Definition dateField (k : string) (j : json) : option string :=
  s ← readField asStr k j; _ ← guardO (format_date_time s); Some s.
(** [additionalProperties: false]. *)
Definition onlyKeys (keys : list string) (j : json) : bool :=
  match j with JObj fs => forallb (fun f => bool_decide (fst f ∈ keys)) fs | _ => false end.

Definition parseRoomEventEnvelope (input : json) : option RoomEventEnvelope :=
  _ ← guardO (onlyKeys ENVELOPE_KEYS input);
  eventId ← uuidField "eventId" input;
  _ ← readField (fun v => guardO (bool_decide (v = JNum (NInt 1)))) "schemaVersion" input;
  roomId ← uuidField "roomId" input;
  roomSeq ← readField (asIntegerMin 1) "roomSeq" input;
  type ← readField asStr "type" input;
  _ ← guardO (isEventType type);
  actorId ← uuidField "actorId" input;
  actorKind ← readField (fun v => asStr v ≫= parseActorKind) "actorKind" input;
  actorRole ← readField (fun v => asStr v ≫= parseActorRole) "actorRole" input;
  revision ← readField (asIntegerMin 1) "revision" input;
  operation ← readField (fun v => asStr v ≫= parseOperation) "operation" input;
  eventTime ← dateField "eventTime" input;
  ingestTime ← dateField "ingestTime" input;
  causationId ← uuidField "causationId" input;
  correlationId ← uuidField "correlationId" input;
  payload ← readField asObj "payload" input;
  _ ← guardO (roleOfKind actorKind actorRole);
  Some (Envelope eventId roomId roomSeq type actorId actorKind actorRole revision operation
          eventTime ingestTime causationId correlationId payload).

(** The values an envelope of the schema has. *)
Record envelope_ok (e : RoomEventEnvelope) : Prop := {
  ok_ids : Forall (fun s => format_uuid s = true)
             [eventId e; roomId e; actorId e; causationId e; correlationId e];
  ok_times : Forall (fun s => format_date_time s = true) [eventTime e; ingestTime e];
  ok_seq : 1 <= roomSeq e;
  ok_revision : 1 <= revision e;
  ok_type : isEventType (type e) = true;
  ok_role : roleOfKind (actorKind e) (actorRole e) = true;
}.
End Parse.

(** ** Laws of the validator *)

Lemma guardO_Some b u : guardO b = Some u <-> b = true.
Proof. destruct b, u; naive_solver. Qed.
Lemma asIntegerMin_Some lo j z : asIntegerMin lo j = Some z <-> j = JNum (NInt z) /\ lo <= z.
Proof. destruct j as [| |[]| | |]; simpl; try naive_solver. case_decide; naive_solver. Qed.

Section ParseLaws.
Context `{Schemas}.

Lemma readField_deepEqual {A} (read : json -> option A) k a b x :
  (forall v, read v <> None -> match v with JArr _ | JObj _ => False | _ => True end) ->
  deepEqual a b = true -> readField read k a = Some x -> readField read k b = Some x.
Proof.
  unfold readField. intros Hr Hab. destruct (field k a) as [v|] eqn:Hv; [|done].
  destruct (deepEqual_field _ _ _ _ Hab Hv) as (w & -> & Hvw). intros Hx.
  apply deepEqual_scalar in Hvw as ->; [done|]. apply Hr. by rewrite Hx.
Qed.

Lemma readObject_deepEqual k a b fs :
  deepEqual a b = true -> readField asObj k a = Some fs ->
  exists gs, field k b = Some (JObj gs) /\ readField asObj k b = Some gs
    /\ deepEqual (JObj fs) (JObj gs) = true.
Proof.
  unfold readField. intros Hab. destruct (field k a) as [[| | | | |fs']|] eqn:Hv; try done.
  intros [= ->]. destruct (deepEqual_field _ _ _ _ Hab Hv) as ([| | | | |gs] & -> & Hvw); try done. eauto.
Qed.
Lemma uuidField_deepEqual k a b x :
  deepEqual a b = true -> uuidField k a = Some x -> uuidField k b = Some x.
Proof.
  unfold uuidField. intros Hab. destruct (readField asStr k a) eqn:E; [|done].
  rewrite (readField_deepEqual asStr k a b _ ltac:(by intros []) Hab E). done.
Qed.
Lemma dateField_deepEqual k a b x :
  deepEqual a b = true -> dateField k a = Some x -> dateField k b = Some x.
Proof.
  unfold dateField. intros Hab. destruct (readField asStr k a) eqn:E; [|done].
  rewrite (readField_deepEqual asStr k a b _ ltac:(by intros []) Hab E). done.
Qed.
Lemma onlyKeys_deepEqual keys a b :
  json_wf a -> deepEqual a b = true -> onlyKeys keys a = true -> onlyKeys keys b = true.
Proof.
  destruct a as [| | | | |fs], b as [| | | | |gs]; try done. intros [Hnd _] Hab.
  pose proof (deepEqual_keys _ _ Hnd Hab) as Hp. simpl. rewrite !forallb_forall.
  setoid_rewrite <- list_elem_of_In. setoid_rewrite bool_decide_eq_true. intros Hall g Hg.
  assert (fst g ∈ map fst fs) as (f & -> & Hf)%list_elem_of_fmap_1 by
    (rewrite Hp; by apply list_elem_of_fmap_2). by apply Hall.
Qed.

(** Takes a parse apart. *)
Ltac parse_steps H :=
  repeat match type of H with
  | (_ ≫= _) = Some _ => apply bind_Some in H; destruct H as (? & ? & H)
  end.

Lemma uuidField_ok k j s : uuidField k j = Some s -> format_uuid s = true.
Proof. unfold uuidField. intros Hp. parse_steps Hp. rewrite guardO_Some in *. by simplify_eq. Qed.
Lemma dateField_ok k j s : dateField k j = Some s -> format_date_time s = true.
Proof. unfold dateField. intros Hp. parse_steps Hp. rewrite guardO_Some in *. by simplify_eq. Qed.
Lemma readInteger_ok lo k j z : readField (asIntegerMin lo) k j = Some z -> lo <= z.
Proof. unfold readField. destruct (field k j); [|done]. intros [_ ?]%asIntegerMin_Some. done. Qed.

(** What the schema validator accepts is an envelope with proper values. *)
Lemma parse_ok j e : parseRoomEventEnvelope j = Some e -> envelope_ok e.
Proof.
  unfold parseRoomEventEnvelope. intros Hp. parse_steps Hp.
  rewrite !guardO_Some in *. simplify_eq.
  constructor; simpl; repeat constructor; eauto using uuidField_ok, dateField_ok, readInteger_ok.
Qed.

(** An envelope with proper values is read back from its tree. *)
Lemma parse_envelopeJson e : envelope_ok e -> parseRoomEventEnvelope (envelopeJson e) = Some e.
Proof.
  intros [Hids Ht Hs Hr Hty Hrole]. destruct e as [eid rid sq ty aid ak ar rev op et it cid corr pl].
  repeat match goal with H : Forall _ (_ :: _) |- _ => apply Forall_cons in H as [? H] end.
  unfold parseRoomEventEnvelope, uuidField, dateField, readField, asIntegerMin. simpl in *.
  rewrite H0, H1, H2, H3, H4, H5, H6. simpl.
  rewrite !decide_True by done. simpl. rewrite Hty. simpl.
  rewrite parseActorKind_text, parseActorRole_text, parseOperation_text. simpl. by rewrite Hrole.
Qed.

(** The fields of the tree an envelope was parsed from. *)
Record parsed_from (j : json) (e : RoomEventEnvelope) : Prop := {
  pf_eventId : field "eventId" j = Some (JStr (eventId e));
  pf_roomId : field "roomId" j = Some (JStr (roomId e));
  pf_roomSeq : field "roomSeq" j = Some (JNum (NInt (roomSeq e)));
  pf_type : field "type" j = Some (JStr (type e));
  pf_actorId : field "actorId" j = Some (JStr (actorId e));
  pf_actorKind : field "actorKind" j = Some (JStr (actorKindText (actorKind e)));
  pf_actorRole : field "actorRole" j = Some (JStr (actorRoleText (actorRole e)));
  pf_revision : field "revision" j = Some (JNum (NInt (revision e)));
  pf_operation : field "operation" j = Some (JStr (operationText (operation e)));
  pf_eventTime : field "eventTime" j = Some (JStr (eventTime e));
  pf_ingestTime : field "ingestTime" j = Some (JStr (ingestTime e));
  pf_causationId : field "causationId" j = Some (JStr (causationId e));
  pf_correlationId : field "correlationId" j = Some (JStr (correlationId e));
  pf_payload : field "payload" j = Some (JObj (payload e));
}.

Lemma readStr_Some k j s : readField asStr k j = Some s <-> field k j = Some (JStr s).
Proof. unfold readField. destruct (field k j) as [[]|]; naive_solver. Qed.
Lemma readObj_Some k j fs : readField asObj k j = Some fs <-> field k j = Some (JObj fs).
Proof. unfold readField. destruct (field k j) as [[]|]; naive_solver. Qed.
Lemma readInteger_Some lo k j z :
  readField (asIntegerMin lo) k j = Some z -> field k j = Some (JNum (NInt z)).
Proof. unfold readField. destruct (field k j); [|done]. intros [-> _]%asIntegerMin_Some. done. Qed.
Lemma uuidField_Some k j s : uuidField k j = Some s -> field k j = Some (JStr s).
Proof.
  unfold uuidField. intros Hp. parse_steps Hp. rewrite guardO_Some in *. simplify_eq. by apply readStr_Some.
Qed.
Lemma dateField_Some k j s : dateField k j = Some s -> field k j = Some (JStr s).
Proof.
  unfold dateField. intros Hp. parse_steps Hp. rewrite guardO_Some in *. simplify_eq. by apply readStr_Some.
Qed.
Lemma readEnum_Some {A} (text : A -> string) l k j a :
  readField (fun v => asStr v ≫= spelled text l) k j = Some a -> field k j = Some (JStr (text a)).
Proof.
  unfold readField. destruct (field k j) as [[]|]; try done. simpl. by intros <-%spelled_Some.
Qed.

Lemma parse_parsed_from j e : parseRoomEventEnvelope j = Some e -> parsed_from j e.
Proof.
  unfold parseRoomEventEnvelope. intros Hp. parse_steps Hp. simplify_eq.
  constructor; simpl;
    eauto using uuidField_Some, dateField_Some, readInteger_Some, readEnum_Some;
    by first [apply readStr_Some | apply readObj_Some].
Qed.

(** Deeply equal trees are the same envelope up to the payload. *)
Definition withPayload (e : RoomEventEnvelope) (p : list (string * json)) : RoomEventEnvelope :=
  Envelope (eventId e) (roomId e) (roomSeq e) (type e) (actorId e) (actorKind e) (actorRole e)
    (revision e) (operation e) (eventTime e) (ingestTime e) (causationId e) (correlationId e) p.

Lemma parse_deepEqual a b e :
  json_wf a -> deepEqual a b = true -> parseRoomEventEnvelope a = Some e ->
  exists p, deepEqual (JObj (payload e)) (JObj p) = true
    /\ field "payload" b = Some (JObj p)
    /\ parseRoomEventEnvelope b = Some (withPayload e p).
Proof.
  unfold parseRoomEventEnvelope. intros Hwf Hab Hp. parse_steps Hp.
  rewrite !guardO_Some in *. simplify_eq.
  repeat match goal with
  | H : onlyKeys _ _ = true |- _ => apply (onlyKeys_deepEqual _ _ _ Hwf Hab) in H
  | H : uuidField _ a = Some _ |- _ => apply (uuidField_deepEqual _ _ _ _ Hab) in H
  | H : dateField _ a = Some _ |- _ => apply (dateField_deepEqual _ _ _ _ Hab) in H
  end.
  repeat match goal with
  | H : readField ?r _ a = Some _ |- _ =>
      lazymatch r with asObj => fail | _ =>
        apply (readField_deepEqual r _ _ _ _ ltac:(by intros [| |[]| | |]) Hab) in H end
  end.
  match goal with H : readField asObj _ a = Some ?pl |- _ => rename H into Hpl end.
  apply (readObject_deepEqual _ _ _ _ Hab) in Hpl as (p & Hfield & Hp & Heq).
  exists p. split_and!; [done|done|].
  repeat (apply bind_Some; eexists; split; [first [eassumption | by apply (guardO_Some _ ())]|]).
  done.
Qed.
End ParseLaws.

(** ** The registry of payload validators *)

(** [EventPayloadRegistry]: an ordered map of types to compiled validators. *)
Definition validator : Type := json -> bool.
Definition EventPayloadRegistry : Type := list (string * validator).

Inductive registry_error : Type :=
| INVALID_EVENT_TYPE_NAME (type : string)
| EVENT_TYPE_ALREADY_REGISTERED (type : string)
| UNKNOWN_EVENT_TYPE (type : string)
| INVALID_EVENT_PAYLOAD (type : string).

Definition register (r : EventPayloadRegistry) (type : string) (v : validator)
    : result registry_error EventPayloadRegistry :=
  if negb (isEventType type) then Err (INVALID_EVENT_TYPE_NAME type)
  else if assoc type r is Some _ then Err (EVENT_TYPE_ALREADY_REGISTERED type)
  else Ok (r ++ [(type, v)]).

(** [payloads.assert(type, payload)]. *)
Definition assertPayload (r : EventPayloadRegistry) (type : string) (p : json)
    : result registry_error unit :=
  match assoc type r with
  | None => Err (UNKNOWN_EVENT_TYPE type)
  | Some v => if v p then Ok tt else Err (INVALID_EVENT_PAYLOAD type)
  end.

(** The number of code points of a UTF-8 text, as the validator counts [maxLength]. *)
Definition is_continuation (c : ascii) : bool := (128 <=? code c) && (code c <? 192).
Definition codePoints (s : string) : Z :=
  Z.of_nat (length (List.filter (fun c => negb (is_continuation c)) (list_ascii_of_string s))).

(** A closed object schema: required and optional properties, nothing else. *)
Definition closedObject (required optional : list (string * validator)) : validator := fun j =>
  onlyKeys (map fst required ++ map fst optional) j
  && forallb (fun p => match field (fst p) j with Some v => snd p v | None => false end) required
  && forallb (fun p => match field (fst p) j with Some v => snd p v | None => true end) optional.

Definition stringWhere (ok : string -> bool) : validator := fun j =>
  match j with JStr s => ok s | _ => false end.
Definition stringOrNull (ok : string -> bool) : validator := fun j =>
  match j with JStr s => ok s | JNull => true | _ => false end.
(** [uniqueItems] compares items deeply. *)
Fixpoint uniqueItems (l : list json) : bool :=
  match l with
  | [] => true
  | x :: l' => negb (existsb (deepEqual x) l') && uniqueItems l'
  end.
Definition uniqueArray (maxItems : nat) (item : validator) : validator := fun j =>
  match j with
  | JArr l => (length l <=? maxItems)%nat && uniqueItems l && forallb item l
  | _ => false
  end.

Section CorePayloads.
Context `{Schemas}.

Definition uuidSchema : validator := stringWhere format_uuid.
Definition dateSchema : validator := stringWhere format_date_time.
Definition textSchema : validator := stringWhere (fun s => codePoints s <=? 4000).
Definition messageFields : list (string * validator) :=
  [("messageId", uuidSchema); ("text", textSchema); ("replyTo", stringOrNull format_uuid);
   ("mentions", uniqueArray 5 uuidSchema); ("mediaIds", uniqueArray 4 uuidSchema)]%string.

Definition warningCodeOk (s : string) : bool := (1 <=? codePoints s) && (codePoints s <=? 100).

(** [core-room-event-payloads.v1.json]. *)
Definition RoomOpenedPayload : validator :=
  closedObject [("startsAt", dateSchema); ("closesAt", dateSchema)]%string [].
Definition RoomPausedPayload : validator := closedObject [("pausedAt"%string, dateSchema)] [].
Definition RoomResumedPayload : validator := closedObject [("resumedAt"%string, dateSchema)] [].
Definition RoomClosedPayload : validator := closedObject [("closedAt"%string, dateSchema)] [].
Definition MessageAddedPayload : validator :=
  closedObject messageFields
    [("agentRunId", uuidSchema); ("sourceEventIds", uniqueArray 30 uuidSchema);
     ("warningCodes", uniqueArray 20 (stringWhere warningCodeOk))]%string.
Definition MessageRevisedPayload : validator := closedObject messageFields [].
Definition MessageRetractedPayload : validator := closedObject [("messageId"%string, uuidSchema)] [].

Definition corePayloadNames : list (string * validator) :=
  [("room.opened", RoomOpenedPayload); ("room.paused", RoomPausedPayload);
   ("room.resumed", RoomResumedPayload); ("room.closed", RoomClosedPayload);
   ("message.added", MessageAddedPayload); ("message.revised", MessageRevisedPayload);
   ("message.retracted", MessageRetractedPayload)]%string.

Definition registerAll (l : list (string * validator)) (r : EventPayloadRegistry)
    : result registry_error EventPayloadRegistry :=
  foldl (fun acc p => acc ≫= fun r => register r (fst p) (snd p)) (Ok r) l.
Definition createCoreEventPayloadRegistry : result registry_error EventPayloadRegistry :=
  registerAll corePayloadNames [].

(** [parseCoreRoomEvent]: [Ok None] for a type that is not a core type. *)
Inductive parse_error : Type := INVALID_ROOM_EVENT | PAYLOAD (e : registry_error).
Definition parseCoreRoomEvent (input : json) : result parse_error (option RoomEventEnvelope) :=
  match parseRoomEventEnvelope input with
  | None => Err INVALID_ROOM_EVENT
  | Some e =>
      if assoc (type e) corePayloadNames is Some _ then
        match assertPayload corePayloadNames (type e) (JObj (payload e)) with
        | Ok _ => Ok (Some e)
        | Err err => Err (PAYLOAD err)
        end
      else Ok None
  end.

Lemma core_registry : createCoreEventPayloadRegistry = Ok corePayloadNames.
Proof. reflexivity. Qed.
End CorePayloads.

(** ** Validators do not look at the order of keys *)

Definition validator_extensional (v : validator) : Prop :=
  forall a b, json_wf a -> json_wf b -> deepEqual a b = true -> v a = v b.

Lemma json_wf_field k j v : json_wf j -> field k j = Some v -> json_wf v.
Proof.
  destruct j as [| | | | |fs]; try done. intros [_ Hwf%foldr_and_Forall] Hk%assoc_elem.
  rewrite Forall_forall in Hwf. apply (Hwf _ Hk).
Qed.

Lemma stringWhere_ext ok : validator_extensional (stringWhere ok).
Proof. intros [] [] _ _; simpl; try done. intros Heq%bool_decide_eq_true. by subst. Qed.
Lemma stringOrNull_ext ok : validator_extensional (stringOrNull ok).
Proof. intros [] [] _ _; simpl; try done. intros Heq%bool_decide_eq_true. by subst. Qed.

Lemma existsb_deepEqual x y l m :
  json_wf x -> json_wf y -> Forall json_wf l -> Forall json_wf m -> deepEqual x y = true ->
  Forall2 (fun a b => deepEqual a b = true) l m -> existsb (deepEqual x) l = existsb (deepEqual y) m.
Proof.
  intros Hx Hy Hl Hm Hxy H. induction H as [|a b l m Hab _ IH]; [done|]. simpl.
  apply Forall_cons in Hl as [Ha Hl], Hm as [Hb Hm]. rewrite IH by done. f_equal.
  apply eq_true_iff_eq. split; intros Heq.
  - apply (deepEqual_trans y x b); [by apply deepEqual_sym|]. by apply (deepEqual_trans x a b).
  - apply (deepEqual_trans x y a); [done|]. apply (deepEqual_trans y b a); [done|]. by apply deepEqual_sym.
Qed.

Lemma uniqueArray_ext n item : validator_extensional item -> validator_extensional (uniqueArray n item).
Proof.
  intros Hitem [| | | |l|] [| | | |m|]; try done. intros Hl Hm Heq%deepEqual_JArr.
  simpl in Hl, Hm. apply foldr_and_Forall in Hl, Hm. unfold uniqueArray.
  rewrite (Forall2_length _ _ _ Heq). f_equal; [f_equal|].
  - induction Heq as [|a b l m Hab Hlm IH]; [done|]. simpl.
    apply Forall_cons in Hl as [Ha Hl], Hm as [Hb Hm]. rewrite IH by done. do 2 f_equal.
    by apply existsb_deepEqual.
  - induction Heq as [|a b l m Hab Hlm IH]; [done|]. simpl.
    apply Forall_cons in Hl as [Ha Hl], Hm as [Hb Hm]. rewrite IH by done. f_equal. by apply Hitem.
Qed.

Lemma field_deepEqual_cases k a b :
  json_wf a -> json_wf b -> deepEqual a b = true ->
  (field k a = None /\ field k b = None) \/
  exists v w, field k a = Some v /\ field k b = Some w /\ json_wf v /\ json_wf w /\ deepEqual v w = true.
Proof.
  intros Ha Hb Hab. destruct (field k a) as [v|] eqn:Hv.
  - right. destruct (deepEqual_field _ _ _ _ Hab Hv) as (w & Hw & Hvw). exists v, w.
    split_and!; try done; [by apply (json_wf_field k a)|by apply (json_wf_field k b)].
  - left. split; [done|]. destruct (field k b) as [w|] eqn:Hw; [|done].
    apply deepEqual_sym in Hab; [|done|done]. destruct (deepEqual_field _ _ _ _ Hab Hw) as (v & Hv' & _). congruence.
Qed.

Lemma field_validator_ext k (v : validator) dflt a b :
  validator_extensional v -> json_wf a -> json_wf b -> deepEqual a b = true ->
  match field k a with Some x => v x | None => dflt end = match field k b with Some x => v x | None => dflt end.
Proof.
  intros Hv Ha Hb Hab.
  destruct (field_deepEqual_cases k a b Ha Hb Hab) as [[-> ->]|(x & w & -> & -> & ? & ? & ?)]; auto.
Qed.

Lemma closedObject_ext req opt :
  Forall (fun p => validator_extensional (snd p)) req -> Forall (fun p => validator_extensional (snd p)) opt ->
  validator_extensional (closedObject req opt).
Proof.
  intros Hreq Hopt a b Ha Hb Hab. unfold closedObject. f_equal; [f_equal|].
  - apply eq_true_iff_eq. split; [by apply (onlyKeys_deepEqual _ a b)|].
    apply (onlyKeys_deepEqual _ b a); [done|by apply deepEqual_sym].
  - induction Hreq as [|p req Hp _ IH]; [done|]. simpl. rewrite IH. f_equal.
    by apply field_validator_ext.
  - induction Hopt as [|p opt Hp _ IH]; [done|]. simpl. rewrite IH. f_equal.
    by apply field_validator_ext.
Qed.

Lemma corePayloads_ext `{Schemas} t v : assoc t corePayloadNames = Some v -> validator_extensional v.
Proof.
  intros Hin%assoc_elem. revert Hin. unfold corePayloadNames.
  assert (Forall (fun p => validator_extensional (snd p)) corePayloadNames) as Hall.
  { unfold corePayloadNames, RoomOpenedPayload, RoomPausedPayload, RoomResumedPayload, RoomClosedPayload,
      MessageAddedPayload, MessageRevisedPayload, MessageRetractedPayload, messageFields.
    repeat first [apply Forall_cons; split | apply Forall_nil; exact I]; simpl; apply closedObject_ext;
      repeat first [apply Forall_cons; split | apply Forall_nil; exact I]; simpl;
      repeat first [apply stringWhere_ext | apply stringOrNull_ext | apply uniqueArray_ext]. }
  rewrite Forall_forall in Hall. intros Hin. apply (Hall (t, v) Hin).
Qed.
