(* ===== verification/Database.v ===== *)
(** * Tables, the world and transactions

    The PostgreSQL tables the services use ([infra/postgres/migrations/001_core.sql]
    and the columns later migrations add), as lists of rows in the order of
    insertion; what a statement of the services does to them, constraints included;
    the clock and the identifier supply; [apps/server/src/db/transactions.ts].

    The conversions of the driver and of the server (text to [uuid], [jsonb] and
    [timestamptz]) are parameters of the class [Postgres]. *)
From S2P Require Import Prelude Text JsDate JsValue Contracts.
#[local] Set Warnings "-register-all,-clear-no-such-hyp,-level-tolerance".

(** ** Errors: [modules/rooms/errors.ts] and plain [Error]s *)

Inductive RoomErrorCode : Type :=
| FORBIDDEN | INVALID_COMMAND | ROOM_DELETION_IN_PROGRESS | ROOM_NOT_OPEN | MESSAGE_NOT_FOUND
| REVISION_CONFLICT.
(** [RoomServiceErrorCode] of [modules/rooms/room-service.ts]. *)
Inductive ServiceErrorCode : Type :=
| ROOM_FORBIDDEN | JOIN_FORBIDDEN | SERVICE_ROOM_NOT_FOUND | SERVICE_DELETION_IN_PROGRESS
| ROOM_CODE_UNAVAILABLE | RETENTION_POLICY_NOT_CONFIGURED.
Inductive error : Type :=
| RoomError (code : RoomErrorCode) (currentRevision : option Z)
| RoomServiceError (code : ServiceErrorCode)
| Failure (message : string).
#[global] Instance RoomErrorCode_eq_dec : EqDecision RoomErrorCode.
Proof. solve_decision. Defined.
#[global] Instance ServiceErrorCode_eq_dec : EqDecision ServiceErrorCode.
Proof. solve_decision. Defined.
#[global] Instance error_eq_dec : EqDecision error.
Proof. solve_decision. Defined.

Definition roomError (c : RoomErrorCode) : error := RoomError c None.
Definition invalidCommand : error := roomError INVALID_COMMAND.

(** ** Rows *)

Inductive RoomStatus : Type := scheduled | open | paused | closed.
#[global] Instance RoomStatus_eq_dec : EqDecision RoomStatus.
Proof. solve_decision. Defined.

Record room_row : Type := RoomRow {
  rm_id : string;
  rm_nova_actor_id : string;
  rm_teacher_id : string;
  rm_topic : string;
  rm_status : RoomStatus;
  rm_duration_seconds : Z;
  rm_starts_at : option Z;
  rm_closes_at : option Z;
  rm_closed_at : option Z;
  rm_next_room_seq : Z;
  rm_created_at : Z;
}.

Record event_row : Type := EventRow {
  ev_event_id : string;
  ev_room_id : string;
  ev_room_seq : Z;
  ev_schema_version : Z;
  ev_type : string;
  ev_actor_id : string;
  ev_actor_kind : ActorKind;
  ev_actor_role : ActorRole;
  ev_revision : Z;
  ev_operation : EventOperation;
  ev_event_time : Z;
  ev_ingest_time : Z;
  ev_causation_id : string;
  ev_correlation_id : string;
  ev_payload : json;
}.

Record outbox_row : Type := OutboxRow {
  ob_outbox_id : Z;
  ob_event_id : string;
  ob_room_id : string;
  ob_room_seq : Z;
  ob_topic : string;
  ob_envelope : json;
  ob_created_at : Z;
  ob_available_at : Z;
  ob_locked_at : option Z;
  ob_locked_by : option string;
  ob_publish_attempts : Z;
  ob_published_at : option Z;
  ob_last_error : option string;
}.

Inductive JobStatus : Type := queued | running | succeeded | retryable | dead | cancelled.
#[global] Instance JobStatus_eq_dec : EqDecision JobStatus.
Proof. solve_decision. Defined.

Record job_row : Type := JobRow {
  jb_id : string;
  jb_type : string;
  jb_room_id : option string;
  jb_source_event_id : option string;
  jb_dedupe_key : string;
  jb_correlation_id : string;
  jb_payload : json;
  jb_status : JobStatus;
  jb_attempts : Z;
  jb_max_attempts : Z;
  jb_run_after : Z;
  jb_claim_generation : Z;
  jb_claim_token : option string;
  jb_locked_at : option Z;
  jb_locked_by : option string;
  jb_last_error : option string;
  jb_created_at : Z;
  jb_updated_at : Z;
  jb_order_seq : option Z;
  jb_order_kind : option Z;
}.

Record completion_row : Type := CompletionRow {
  cp_job_id : string;
  cp_generation : Z;
  cp_token_hash : string;
  cp_code : string;
}.

Inductive PrincipalKind : Type := teacher_principal | student_principal.
#[global] Instance PrincipalKind_eq_dec : EqDecision PrincipalKind.
Proof. solve_decision. Defined.
Record session_row : Type := SessionRow {
  ss_id : string;
  ss_token_hash : string;
  ss_kind : PrincipalKind;
  ss_teacher_id : option string;
  ss_room_member_id : option string;
  ss_expires_at : Z;
  ss_revoked_at : option Z;
}.

Record member_row : Type := MemberRow {
  mb_id : string;
  mb_actor_id : string;
  mb_room_id : string;
  mb_seat_index : Z;
  mb_pseudonym : string;
  mb_code_hash : string;
}.

Inductive DeletionStatus : Type := d_queued | d_running | d_retryable | d_completed | d_dead.
#[global] Instance DeletionStatus_eq_dec : EqDecision DeletionStatus.
Proof. solve_decision. Defined.
Record deletion_row : Type := DeletionRow {
  dl_id : string;
  dl_room_id : option string;
  dl_owner_teacher_id : string;
  dl_status : DeletionStatus;
}.

(** [media_asset], what the rooms read of it, and [media_attachment_binding]. *)
Inductive MediaAssetState : Type :=
| as_upload_pending | as_uploaded | as_processing | as_ready | as_quarantined | as_failed | as_deleted.
#[global] Instance MediaAssetState_eq_dec : EqDecision MediaAssetState.
Proof. solve_decision. Defined.
Record media_row : Type := MediaRow {
  md_id : string;
  md_room_id : string;
  md_owner_actor_id : string;
  md_state : MediaAssetState;
}.
Record binding_row : Type := BindingRow {
  bd_media_id : string;
  bd_room_id : string;
  bd_message_id : string;
  bd_source_event_id : string;
}.

(** [magic_link]; [pilot_retention_policy], what room creation reads of it; the column
    [room_code_hash] of [classroom_room], by room; [teacher_account]. *)
Record magic_link_row : Type := MagicLinkRow {
  ml_id : string;
  ml_teacher_id : string;
  ml_token_hash : string;
  ml_expires_at : Z;
  ml_consumed_at : option Z;
}.
Record policy_row : Type := PolicyRow {
  pl_id : string;
  pl_approved_at : Z;
  pl_expires_at : Z;
}.
Record account_tables : Type := Accounts {
  teachers : list (string * string);        (** identifier and e-mail address *)
  magic_links : list magic_link_row;
  room_codes : list (string * string);      (** room and hash *)
  policies : list policy_row;
}.
Definition no_accounts : account_tables := Accounts [] [] [] [].

Record database : Type := Database {
  rooms : list room_row;
  events : list event_row;
  outbox : list outbox_row;
  jobs : list job_row;
  completions : list completion_row;
  sessions : list session_row;
  members : list member_row;
  deletions : list deletion_row;
  media_assets : list media_row;
  media_bindings : list binding_row;
  accounts : account_tables;
}.

Definition set_rooms (x : list room_row) (d : database) : database :=
  Database x (events d) (outbox d) (jobs d) (completions d) (sessions d) (members d) (deletions d)
    (media_assets d) (media_bindings d) (accounts d).
Definition set_events (x : list event_row) (d : database) : database :=
  Database (rooms d) x (outbox d) (jobs d) (completions d) (sessions d) (members d) (deletions d)
    (media_assets d) (media_bindings d) (accounts d).
Definition set_outbox (x : list outbox_row) (d : database) : database :=
  Database (rooms d) (events d) x (jobs d) (completions d) (sessions d) (members d) (deletions d)
    (media_assets d) (media_bindings d) (accounts d).
Definition set_jobs (x : list job_row) (d : database) : database :=
  Database (rooms d) (events d) (outbox d) x (completions d) (sessions d) (members d) (deletions d)
    (media_assets d) (media_bindings d) (accounts d).
Definition set_completions (x : list completion_row) (d : database) : database :=
  Database (rooms d) (events d) (outbox d) (jobs d) x (sessions d) (members d) (deletions d)
    (media_assets d) (media_bindings d) (accounts d).
Definition set_deletions (x : list deletion_row) (d : database) : database :=
  Database (rooms d) (events d) (outbox d) (jobs d) (completions d) (sessions d) (members d) x
    (media_assets d) (media_bindings d) (accounts d).

Definition set_bindings (x : list binding_row) (d : database) : database :=
  Database (rooms d) (events d) (outbox d) (jobs d) (completions d) (sessions d) (members d) (deletions d)
    (media_assets d) x (accounts d).
Definition set_sessions (x : list session_row) (d : database) : database :=
  Database (rooms d) (events d) (outbox d) (jobs d) (completions d) x (members d) (deletions d)
    (media_assets d) (media_bindings d) (accounts d).
Definition set_members (x : list member_row) (d : database) : database :=
  Database (rooms d) (events d) (outbox d) (jobs d) (completions d) (sessions d) x (deletions d)
    (media_assets d) (media_bindings d) (accounts d).
Definition set_accounts (x : account_tables) (d : database) : database :=
  Database (rooms d) (events d) (outbox d) (jobs d) (completions d) (sessions d) (members d) (deletions d)
    (media_assets d) (media_bindings d) x.

(** [UPDATE ... SET ... WHERE]. *)
Definition update_where {A} (p : A -> bool) (f : A -> A) (l : list A) : list A :=
  map (fun x => if p x then f x else x) l.
Definition select_where {A} (p : A -> bool) (l : list A) : list A := List.filter p l.
Definition rowCount {A} (l : list A) : Z := Z.of_nat (length l).

(** ** Parameters: the server's conversions, the clocks, the identifiers *)

Class Postgres : Type := {
  uuid_in : string -> option string;         (** text to [uuid] and back to text *)
  timestamptz_in : string -> option Z;       (** text to milliseconds *)
  jsonb_in : json -> option json;            (** the value read back from [jsonb] *)
  sha256_hex : string -> string;             (** [encode(digest(.., 'sha256'), 'hex')] *)
}.

(** [JSON.stringify] prints minus zero as 0; everything else in a finite tree is kept. *)
Fixpoint stringified (j : json) : json :=
  match j with
  | JNum NNegZero => JNum (NInt 0)
  | JArr l => JArr (map stringified l)
  | JObj fs => JObj (map (fun f => (fst f, stringified (snd f))) fs)
  | _ => j
  end.

Record PostgresLaws `{Postgres} : Prop := {
  (** a hyphenated UUID is stored, and always printed in lower case *)
  uuid_in_isUuid s : isUuid s = true -> uuid_in s = Some (lower s);
  uuid_in_printed s u : uuid_in s = Some u -> uuid_in u = Some u;
  timestamptz_in_iso t : iso_year_range t -> timestamptz_in (toISOString t) = Some t;
  (** [jsonb] keeps the value, not the order of the keys *)
  jsonb_in_equal j j' : json_wf j -> jsonb_in j = Some j' -> json_wf j' /\ deepEqual (stringified j) j' = true;
}.

Class Environment : Type := {
  clock_now : nat -> option Z;    (** the [n]th reading of [clock.now()], [None] for an invalid date *)
  db_now : nat -> Z;              (** the time of the [n]th transaction *)
  uuid_supply : nat -> string;    (** the [n]th [randomUUID()] or [gen_random_uuid()] *)
}.

Record EnvironmentLaws `{Environment} : Prop := {
  supply_isUuid n : isUuid (uuid_supply n) = true;
  supply_lower n : lower (uuid_supply n) = uuid_supply n;
  clock_range n t : clock_now n = Some t -> iso_year_range t;
}.

(** ** The world: the database, the supplies and the locals of the running transaction *)

Record locals : Type := Locals {
  tx_now : Z;                          (** [transaction_timestamp()] *)
  nextRoomSeq : Z;                     (** of [RoomEventRepository.transact] *)
  operationFailure : option error;     (** of [RoomEventRepository.transact] *)
}.

Record world : Type := World {
  db : database;
  ticks : nat;
  txs : nat;
  uuids : nat;
  tx : locals;
}.
Definition set_db (d : database) (w : world) : world := World d (ticks w) (txs w) (uuids w) (tx w).
Definition set_tx (l : locals) (w : world) : world := World (db w) (ticks w) (txs w) (uuids w) l.

Abbreviation IO := (M world error).

(** A statement on the database. *)
Definition query {A} (f : database -> A) : IO A := gets (fun w => f (db w)).
Definition execute (f : database -> database) : IO unit := modify (fun w => set_db (f (db w)) w).
(** A statement that a constraint may refuse. *)
Definition execute_or (e : error) (f : database -> option database) : IO unit := fun w =>
  match f (db w) with
  | Some d => (Ok tt, set_db d w)
  | None => (Err e, w)
  end.

Section World.
Context `{Environment}.

Definition randomUUID : IO string := fun w =>
  (Ok (uuid_supply (uuids w)), World (db w) (ticks w) (txs w) (S (uuids w)) (tx w)).
Definition clockNow : IO (option Z) := fun w =>
  (Ok (clock_now (ticks w)), World (db w) (S (ticks w)) (txs w) (uuids w) (tx w)).
(** [validNow] and the same test elsewhere. *)
Definition validNow : IO Z :=
  t ← clockNow;
  match t with Some z => mret z | None => throw (Failure "INVALID_CLOCK") end.

(** [inTransaction]: BEGIN fixes the transaction's time; an error of [work] rolls the
    database back and is rethrown. *)
Definition inTransaction {A} (work : IO A) : IO A := fun w =>
  let begun := World (db w) (ticks w) (S (txs w)) (uuids w)
                 (Locals (db_now (txs w)) (nextRoomSeq (tx w)) (operationFailure (tx w))) in
  match work begun with
  | (Ok a, w') => (Ok a, w')
  | (Err e, w') => (Err e, set_db (db w) w')
  end.

Lemma inTransaction_err {A} (work : IO A) w e w' :
  inTransaction work w = (Err e, w') -> db w' = db w.
Proof. unfold inTransaction. destruct (work _) as [[a|e'] w1]; intros; by simplify_eq. Qed.

(** An invariant of the database that [work] re-establishes whenever it ends normally
    is an invariant of the transaction. *)
Lemma inTransaction_invariant {A} (I : database -> Prop) (work : IO A) w r w' :
  (forall w0 a w1, I (db w0) -> work w0 = (Ok a, w1) -> I (db w1)) ->
  I (db w) -> inTransaction work w = (r, w') -> I (db w').
Proof.
  intros Hwork HI. unfold inTransaction. destruct (work _) as [[a|e'] w1] eqn:E0; intros; simplify_eq.
  - eapply Hwork; [|exact E0]. done.
  - done.
Qed.
End World.
