(* ===== verification/Concrete.v ===== *)
(** * Concrete parameters

    One instance of each parameter class, with its laws: what the parameters stand for
    can exist. The examples and the concrete runs of the other files use them. *)
From S2P Require Import Prelude Text JsDate JsValue Contracts Database.
#[local] Set Warnings "-register-all,-clear-no-such-hyp,-level-tolerance".

(** Hyphenated hexadecimal identifiers of any version. *)
Definition HEX_PATTERN : list (ascii -> bool) :=
  replicate 8 is_hex ++ [is_char "-"] ++ replicate 4 is_hex ++ [is_char "-"] ++ replicate 4 is_hex
  ++ [is_char "-"] ++ replicate 4 is_hex ++ [is_char "-"] ++ replicate 12 is_hex.
Definition isHexUuid (s : string) : bool := matches HEX_PATTERN (list_ascii_of_string s).

Lemma matches_weaken p q s :
  Forall2 (fun f g => forall c, f c = true -> g c = true) p q -> matches p s = true -> matches q s = true.
Proof.
  intros H. revert s. induction H as [|f g p q Hfg _ IH]; intros [|c s]; simpl; try done.
  rewrite !andb_true_iff. intros [??]. split; [by apply Hfg|by apply IH].
Qed.

Lemma isUuid_hex s : isUuid s = true -> isHexUuid s = true.
Proof.
  apply matches_weaken. unfold UUID_PATTERN, HEX_PATTERN. simpl.
  assert (forall c, between "1" "8" c = true -> is_hex c = true) as H1.
  { intros c. apply implb_true_iff. revert c. apply (for_all_ascii (fun c => implb (between "1" "8" c) (is_hex c))).
    vm_compute. done. }
  assert (forall c, one_of ["8"; "9"; "a"; "b"; "A"; "B"]%char c = true -> is_hex c = true) as H2.
  { intros c. apply implb_true_iff. revert c.
    apply (for_all_ascii (fun c => implb (one_of ["8"; "9"; "a"; "b"; "A"; "B"]%char c) (is_hex c))).
    vm_compute. done. }
  repeat constructor; auto.
Qed.

Lemma isHexUuid_lower s : isHexUuid (lower s) = isHexUuid s.
Proof.
  unfold isHexUuid, lower, map_string. rewrite list_ascii_of_string_of_list_ascii.
  apply matches_fmap. unfold HEX_PATTERN. simpl.
  repeat (constructor; [apply lower_class; vm_compute; reflexivity|]). constructor.
Qed.

(** ** Schemas and PostgreSQL *)

#[global] Instance concrete_schemas : Schemas := {
  format_uuid := isHexUuid;
  format_date_time s := bool_decide (is_Some (dateParse s));
}.
Lemma concrete_schemas_laws : SchemasLaws.
Proof.
  constructor; [apply isUuid_hex|]. intros t Ht. simpl.
  rewrite dateParse_toISOString by done. by apply bool_decide_eq_true.
Qed.

#[global] Instance concrete_postgres : Postgres := {
  uuid_in s := if isHexUuid s then Some (lower s) else None;
  timestamptz_in := dateParse;
  jsonb_in j := Some (stringified j);
  sha256_hex s := s;
}.

Lemma stringified_wf j : json_wf j -> json_wf (stringified j).
Proof.
  induction j as [|b|n|t|l IH|fs IH] using json_ind'; try done.
  - by destruct n.
  - simpl. rewrite !foldr_and_Forall, Forall_map. intros Hwf. rewrite Forall_forall in *. auto.
  - simpl. rewrite !foldr_and_Forall, Forall_map, map_map. simpl. intros [Hnd Hwf]. split; [done|].
    rewrite Forall_forall in *. auto.
Qed.

Lemma concrete_postgres_laws : PostgresLaws.
Proof.
  constructor.
  - intros s Hs. simpl. by rewrite isUuid_hex.
  - intros s u. simpl. destruct (isHexUuid s) eqn:Hs; [|done]. intros [= <-].
    by rewrite isHexUuid_lower, Hs, lower_idem.
  - intros t Ht. by apply dateParse_toISOString.
  - intros j j' Hwf [= <-]. pose proof (stringified_wf j Hwf). split; [done|by apply deepEqual_refl].
Qed.

(** ** Clocks and identifiers *)

Definition digit_at (n k : Z) : ascii := digit_char ((n / 10 ^ k) mod 10).
(** A version 4 identifier that ends in the last twelve decimal digits of [n]. *)
Definition numberedUuid (n : Z) : string :=
  ("00000000-0000-4000-8000-" ++ string_of_list_ascii (map (digit_at n) [11;10;9;8;7;6;5;4;3;2;1;0]))%string.

#[global] Instance concrete_environment : Environment := {
  clock_now n := Some (1704067200000 + 1000 * (Z.of_nat n mod 1000000));
  db_now n := 1704067200000 + 1000 * Z.of_nat n;
  uuid_supply n := numberedUuid (Z.of_nat n);
}.

Lemma digit_at_cases n k : digit_at n k ∈ map digit_char [0;1;2;3;4;5;6;7;8;9].
Proof.
  unfold digit_at. apply (list_elem_of_fmap_2 digit_char).
  pose proof (Z.mod_pos_bound (n / 10 ^ k) 10 ltac:(lia)) as H.
  generalize dependent ((n / 10 ^ k) mod 10). intros d Hd.
  assert (d ∈ seqFrom 0 10) by (apply seqFrom_elem; lia). done.
Qed.
Lemma digit_at_hex n k : is_hex (digit_at n k) = true /\ lower_char (digit_at n k) = digit_at n k.
Proof.
  pose proof (digit_at_cases n k) as H. generalize dependent (digit_at n k). intros c Hc.
  assert (Forall (fun c => is_hex c = true /\ lower_char c = c) (map digit_char [0;1;2;3;4;5;6;7;8;9])) as Hall.
  { repeat constructor. }
  rewrite Forall_forall in Hall. by apply Hall.
Qed.

Lemma list_ascii_of_string_app a b :
  list_ascii_of_string (a ++ b) = list_ascii_of_string a ++ list_ascii_of_string b.
Proof. induction a as [|c a IH]; simpl; [done|]. by f_equal. Qed.

Lemma numberedUuid_ok n : isUuid (numberedUuid n) = true /\ lower (numberedUuid n) = numberedUuid n.
Proof.
  unfold numberedUuid. split.
  - unfold isUuid. rewrite list_ascii_of_string_app, list_ascii_of_string_of_list_ascii.
    cbn -[digit_at is_hex]. by rewrite !(proj1 (digit_at_hex _ _)).
  - unfold lower, map_string. rewrite list_ascii_of_string_app, list_ascii_of_string_of_list_ascii.
    cbn -[digit_at lower_char]. rewrite !(proj2 (digit_at_hex _ _)). done.
Qed.

Lemma concrete_environment_laws : EnvironmentLaws.
Proof.
  constructor.
  - intros n. apply numberedUuid_ok.
  - intros n. apply numberedUuid_ok.
  - intros n t [= <-]. unfold iso_year_range. pose proof (Z.mod_pos_bound (Z.of_nat n) 1000000). lia.
Qed.

(** ** A database with one scheduled room *)

Definition demoRoom : string := "11111111-1111-4111-8111-111111111111".
Definition demoNova : string := "33333333-3333-4333-8333-333333333333".
Definition demoTeacher : string := "22222222-2222-4222-8222-22222222222a".
Definition demoCommand : string := "44444444-4444-4444-8444-444444444444".
Definition demoSession : string := "55555555-5555-4555-8555-555555555555".

Definition demoRow : room_row :=
  RoomRow demoRoom demoNova demoTeacher "Photosynthesis" scheduled 2700 None None None 1 1704060000000.
Definition demoDb : database :=
  Database [demoRow] [] [] [] []
    [SessionRow demoSession "token-of-the-teacher" teacher_principal (Some demoTeacher) None 1893456000000 None] [] [] [] [] no_accounts.
Definition demoWorld : world := World demoDb 0 0 0 (Locals 0 1 None).
