(* ===== verification/JsMap.v ===== *)
(** * Insertion-ordered maps

    A JavaScript [Map] as the list of its entries in the order of their insertion:
    [get] is [assoc] of the JSON objects; [set] keeps the place of a key that is there. *)
From S2P Require Import Prelude JsValue.
#[local] Set Warnings "-register-all,-clear-no-such-hyp,-level-tolerance".

Section JsMap.
Context {A : Type}.

Fixpoint map_set (k : string) (v : A) (m : list (string * A)) : list (string * A) :=
  match m with
  | [] => [(k, v)]
  | (k', v') :: m' => if decide (k = k') then (k', v) :: m' else (k', v') :: map_set k v m'
  end.
Definition map_delete (k : string) (m : list (string * A)) : list (string * A) :=
  List.filter (fun e => negb (bool_decide (fst e = k))) m.
Definition map_has (k : string) (m : list (string * A)) : bool :=
  if assoc k m is Some _ then true else false.

Lemma assoc_map_set k v (m : list (string * A)) k' : assoc k' (map_set k v m) = if decide (k' = k) then Some v else assoc k' m.
Proof.
  induction m as [|[k0 v0] m IH]; simpl; [done|].
  destruct (decide (k = k0)) as [->|Hk]; simpl.
  - by destruct (decide (k' = k0)).
  - destruct (decide (k' = k0)) as [->|Hk']; [by rewrite decide_False|done].
Qed.
Lemma assoc_map_set_eq k v (m : list (string * A)) : assoc k (map_set k v m) = Some v.
Proof. rewrite assoc_map_set. by rewrite decide_True. Qed.
Lemma assoc_map_set_ne k v (m : list (string * A)) k' : k' <> k -> assoc k' (map_set k v m) = assoc k' m.
Proof. intros. rewrite assoc_map_set. by rewrite decide_False. Qed.
Lemma assoc_map_delete k (m : list (string * A)) k' :
  assoc k' (map_delete k m) = if decide (k' = k) then None else assoc k' m.
Proof.
  induction m as [|[k0 v0] m IH]; simpl; [by destruct (decide _)|].
  destruct (decide (k0 = k)) as [->|Hk]; simpl.
  - rewrite bool_decide_eq_true_2 by done. simpl. rewrite IH. by repeat case_decide.
  - rewrite bool_decide_eq_false_2 by done. simpl. rewrite IH.
    destruct (decide (k' = k0)) as [->|]; [by rewrite decide_False|done].
Qed.
Lemma assoc_None_keys k (m : list (string * A)) : assoc k m = None <-> k ∉ map fst m.
Proof.
  induction m as [|[k0 v0] m IH]; simpl; [split; [by intros _ ?%elem_of_nil|done]|].
  rewrite not_elem_of_cons. destruct (decide (k = k0)); naive_solver.
Qed.
Lemma assoc_NoDup k v (m : list (string * A)) : NoDup (map fst m) -> (k, v) ∈ m -> assoc k m = Some v.
Proof.
  induction m as [|[k0 v0] m IH]; simpl; [by intros _ ?%elem_of_nil|].
  intros [Hn Hnd]%NoDup_cons [[= -> ->]|Hin]%elem_of_cons; [by rewrite decide_True|].
  rewrite decide_False; [auto|]. intros ->. apply Hn. by apply (list_elem_of_fmap_2 fst) in Hin.
Qed.
Lemma map_set_keys k v (m : list (string * A)) :
  map fst (map_set k v m) = if decide (k ∈ map fst m) then map fst m else map fst m ++ [k].
Proof.
  induction m as [|[k0 v0] m IH]; [done|]. simpl. destruct (decide (k = k0)) as [->|Hk]; simpl.
  - rewrite decide_True; [done|left].
  - rewrite IH. destruct (decide (k ∈ map fst m)) as [Hin|Hni].
    + rewrite decide_True; [done|by right].
    + rewrite decide_False; [done|]. by rewrite not_elem_of_cons.
Qed.
Lemma map_set_NoDup k v (m : list (string * A)) : NoDup (map fst m) -> NoDup (map fst (map_set k v m)).
Proof.
  intros Hnd. rewrite map_set_keys. destruct (decide (k ∈ map fst m)) as [|Hni]; [done|].
  rewrite NoDup_app. split; [done|]. split; [set_solver|apply NoDup_singleton].
Qed.
Lemma map_set_length k v (m : list (string * A)) :
  length (map_set k v m) = if decide (k ∈ map fst m) then length m else S (length m).
Proof.
  pose proof (f_equal length (map_set_keys k v m)) as Hl. rewrite length_map in Hl. rewrite Hl.
  case_decide; rewrite ?length_app, length_map; simpl; lia.
Qed.
Lemma map_delete_NoDup k (m : list (string * A)) : NoDup (map fst m) -> NoDup (map fst (map_delete k m)).
Proof.
  induction m as [|[k0 v0] m IH]; simpl; [done|]. intros [Hn Hnd]%NoDup_cons.
  destruct (negb _); simpl; [|auto]. constructor; [|auto]. intros Hin. apply Hn.
  apply list_elem_of_fmap in Hin as ([k1 v1] & -> & Hin). unfold map_delete in Hin.
  apply list_elem_of_In, filter_In in Hin as [Hin _]. apply list_elem_of_In in Hin.
  by apply (list_elem_of_fmap_2 fst) in Hin.
Qed.
Lemma map_set_Forall (P : string * A -> Prop) k v (m : list (string * A)) :
  P (k, v) -> Forall P m -> Forall P (map_set k v m).
Proof.
  intros Hv. induction 1 as [|[k0 v0] m Hx Hm IH]; simpl; [by constructor|].
  destruct (decide (k = k0)) as [->|]; by constructor.
Qed.
Lemma map_delete_Forall (P : string * A -> Prop) k (m : list (string * A)) : Forall P m -> Forall P (map_delete k m).
Proof. intros Hm. unfold map_delete. induction Hm; simpl; [done|]. destruct (negb _); [by constructor|done]. Qed.
End JsMap.

(** [[...new Set(values)]]: the values without repetitions, in the order of their first
    occurrences. *)
Fixpoint unique_aux (seen l : list string) : list string :=
  match l with
  | [] => []
  | x :: l' => if decide (x ∈ seen) then unique_aux seen l' else x :: unique_aux (x :: seen) l'
  end.
Definition unique (l : list string) : list string := unique_aux [] l.

Lemma unique_aux_spec seen l :
  NoDup (unique_aux seen l) /\ forall x, x ∈ unique_aux seen l <-> x ∈ l /\ x ∉ seen.
Proof.
  revert seen. induction l as [|y l IH]; intros seen; simpl.
  - split; [constructor|]. set_solver.
  - destruct (decide (y ∈ seen)) as [Hin|Hni].
    + destruct (IH seen) as [Hnd Hel]. split; [done|]. intros x. rewrite Hel. set_solver.
    + destruct (IH (y :: seen)) as [Hnd Hel]. split.
      * constructor; [|done]. rewrite Hel. set_solver.
      * intros x. rewrite elem_of_cons, Hel. destruct (decide (x = y)); set_solver.
Qed.
Lemma unique_NoDup l : NoDup (unique l).
Proof. apply unique_aux_spec. Qed.
Lemma unique_elem l x : x ∈ unique l <-> x ∈ l.
Proof. unfold unique. rewrite (proj2 (unique_aux_spec [] l)). set_solver. Qed.
Lemma unique_length l : (length (unique l) <= length l)%nat.
Proof.
  unfold unique. generalize (@nil string). induction l as [|y l IH]; intros seen; simpl; [lia|].
  destruct (decide (y ∈ seen)); simpl; [specialize (IH seen)|specialize (IH (y :: seen))]; lia.
Qed.
