(* ===== verification/Frames.v ===== *)
(** * Realtime frames

    [packages/contracts/src/realtime.ts], [generated/realtime-frame.v1.ts],
    [generated/room-command.v1.ts], [media-status.ts] and the part of [routes.ts] the
    frames mention: the frames of the room socket in both directions, the closed
    schemas that read them and the trees that are written. *)
From S2P Require Import Prelude Text JsDate JsValue Contracts Database Concrete.
#[local] Set Warnings "-register-all,-clear-no-such-hyp,-level-tolerance".

(** ** Enumerations *)

Inductive PresenceState : Type := active | away.
Inductive RejectCode : Type :=
| RJ_AUTH_REQUIRED | RJ_FORBIDDEN | RJ_INVALID_COMMAND | RJ_ROOM_NOT_OPEN | RJ_ROOM_DELETION_IN_PROGRESS
| RJ_MESSAGE_NOT_FOUND | RJ_REVISION_CONFLICT | RJ_RESYNC_REQUIRED | RJ_INTERNAL.
Inductive DegradedScope : Type := sc_realtime | sc_media | sc_analytics | sc_agent.
Inductive MediaState : Type :=
| m_uploaded | m_processing | m_ready | m_quarantined | m_failed | m_deleted.
Inductive AgentState : Type :=
| a_idle | a_queued | a_running | a_streaming | a_completed | a_blocked_by_policy | a_cancelled | a_failed.
Inductive ServiceHealth : Type := healthy | degraded_health | unavailable.
Inductive ProjectionKey : Type :=
| echo_teacher_shadow | echo_student_approved | trace_teacher_bundle | trace_student_bundle.
Inductive CommandType : Type :=
| room_open | room_pause | room_resume | room_close | message_add | message_revise | message_retract.

#[global] Instance PresenceState_eq_dec : EqDecision PresenceState.
Proof. solve_decision. Defined.
#[global] Instance RejectCode_eq_dec : EqDecision RejectCode.
Proof. solve_decision. Defined.
#[global] Instance DegradedScope_eq_dec : EqDecision DegradedScope.
Proof. solve_decision. Defined.
#[global] Instance MediaState_eq_dec : EqDecision MediaState.
Proof. solve_decision. Defined.
#[global] Instance AgentState_eq_dec : EqDecision AgentState.
Proof. solve_decision. Defined.
#[global] Instance ServiceHealth_eq_dec : EqDecision ServiceHealth.
Proof. solve_decision. Defined.
#[global] Instance ProjectionKey_eq_dec : EqDecision ProjectionKey.
Proof. solve_decision. Defined.
#[global] Instance CommandType_eq_dec : EqDecision CommandType.
Proof. solve_decision. Defined.

Definition presenceText (s : PresenceState) : string :=
  match s with active => "active" | away => "away" end.
Definition rejectText (c : RejectCode) : string :=
  match c with
  | RJ_AUTH_REQUIRED => "AUTH_REQUIRED" | RJ_FORBIDDEN => "FORBIDDEN"
  | RJ_INVALID_COMMAND => "INVALID_COMMAND" | RJ_ROOM_NOT_OPEN => "ROOM_NOT_OPEN"
  | RJ_ROOM_DELETION_IN_PROGRESS => "ROOM_DELETION_IN_PROGRESS"
  | RJ_MESSAGE_NOT_FOUND => "MESSAGE_NOT_FOUND" | RJ_REVISION_CONFLICT => "REVISION_CONFLICT"
  | RJ_RESYNC_REQUIRED => "RESYNC_REQUIRED" | RJ_INTERNAL => "INTERNAL"
  end.
Definition scopeText (s : DegradedScope) : string :=
  match s with
  | sc_realtime => "realtime" | sc_media => "media" | sc_analytics => "analytics" | sc_agent => "agent"
  end.
Definition mediaStateText (s : MediaState) : string :=
  match s with
  | m_uploaded => "uploaded" | m_processing => "processing" | m_ready => "ready"
  | m_quarantined => "quarantined" | m_failed => "failed" | m_deleted => "deleted"
  end.
Definition agentStateText (s : AgentState) : string :=
  match s with
  | a_idle => "idle" | a_queued => "queued" | a_running => "running" | a_streaming => "streaming"
  | a_completed => "completed" | a_blocked_by_policy => "blocked_by_policy"
  | a_cancelled => "cancelled" | a_failed => "failed"
  end.
Definition healthText (h : ServiceHealth) : string :=
  match h with healthy => "healthy" | degraded_health => "degraded" | unavailable => "unavailable" end.
Definition projectionKeyText (k : ProjectionKey) : string :=
  match k with
  | echo_teacher_shadow => "echo.teacher_shadow" | echo_student_approved => "echo.student_approved"
  | trace_teacher_bundle => "trace.teacher_bundle" | trace_student_bundle => "trace.student_bundle"
  end.
Definition statusText (s : RoomStatus) : string :=
  match s with scheduled => "scheduled" | open => "open" | paused => "paused" | closed => "closed" end.
Definition commandTypeText (t : CommandType) : string :=
  match t with
  | room_open => "room.open" | room_pause => "room.pause" | room_resume => "room.resume"
  | room_close => "room.close" | message_add => "message.add" | message_revise => "message.revise"
  | message_retract => "message.retract"
  end.

Definition PRESENCE_STATES : list PresenceState := [active; away].
Definition REJECT_CODES : list RejectCode :=
  [RJ_AUTH_REQUIRED; RJ_FORBIDDEN; RJ_INVALID_COMMAND; RJ_ROOM_NOT_OPEN; RJ_ROOM_DELETION_IN_PROGRESS;
   RJ_MESSAGE_NOT_FOUND; RJ_REVISION_CONFLICT; RJ_RESYNC_REQUIRED; RJ_INTERNAL].
Definition SCOPES : list DegradedScope := [sc_realtime; sc_media; sc_analytics; sc_agent].
Definition MEDIA_STATES : list MediaState :=
  [m_uploaded; m_processing; m_ready; m_quarantined; m_failed; m_deleted].
Definition AGENT_STATES : list AgentState :=
  [a_idle; a_queued; a_running; a_streaming; a_completed; a_blocked_by_policy; a_cancelled; a_failed].
Definition HEALTHS : list ServiceHealth := [healthy; degraded_health; unavailable].
Definition PROJECTION_KEYS : list ProjectionKey :=
  [echo_teacher_shadow; echo_student_approved; trace_teacher_bundle; trace_student_bundle].
Definition STUDENT_PROJECTIONS : list ProjectionKey := [echo_student_approved; trace_student_bundle].
Definition STATUSES : list RoomStatus := [scheduled; open; paused; closed].
Definition COMMAND_TYPES : list CommandType :=
  [room_open; room_pause; room_resume; room_close; message_add; message_revise; message_retract].

(** ** Routes *)

(** [encodeURIComponent] of a UTF-8 text. *)
Definition unreserved (c : ascii) : bool :=
  is_digit c || between "a" "z" c || between "A" "Z" c
  || one_of ["-"; "_"; "."; "!"; "~"; "*"; "'"; "("; ")"]%char c.
Definition hex_upper (n : Z) : ascii := if n <? 10 then chr (48 + n) else chr (55 + n).
Definition encodeURIComponent (s : string) : string :=
  string_of_list_ascii (concat (map
    (fun c => if unreserved c then [c] else ["%"%char; hex_upper (code c / 16); hex_upper (code c mod 16)])
    (list_ascii_of_string s))).
Definition roomRoute (roomId suffix : string) : string :=
  "/v1/rooms/" ++ encodeURIComponent roomId ++ suffix.
(** [routes.analytics.latest]. *)
Definition analyticsLatest (roomId : string) (k : ProjectionKey) : string :=
  roomRoute roomId ("/analytics/" ++ encodeURIComponent (projectionKeyText k) ++ "/latest").
(** [routes.rooms.websocket]. *)
Definition websocketRoute (roomId : string) : string := roomRoute roomId "/realtime".

(** ** Frames *)

Record RoomCommand : Type := Command {
  cm_commandId : string;
  cm_roomId : string;
  cm_type : CommandType;
  cm_clientTime : string;
  cm_baseRevision : option Z;
  cm_payload : list (string * json);
}.
#[global] Instance RoomCommand_eq_dec : EqDecision RoomCommand.
Proof. solve_decision. Defined.

Inductive ClientFrame : Type :=
| CHello (clientId : string) (resumeFrom : Z)
| CCommand (command : RoomCommand)
| CPresence (state : PresenceState) (clientSeq : Z)
| CTyping (is_active : bool) (clientSeq : Z)
| CHeartbeat.
#[global] Instance ClientFrame_eq_dec : EqDecision ClientFrame.
Proof. solve_decision. Defined.

Record ProjectionFrame : Type := Projection {
  pj_roomId : string;
  pj_projectionKey : ProjectionKey;
  pj_analysisEpoch : string;
  pj_projectionVersion : Z;
  pj_completeThroughRoomSeq : Z;
  pj_snapshotUrl : string;
}.
#[global] Instance ProjectionFrame_eq_dec : EqDecision ProjectionFrame.
Proof. solve_decision. Defined.

Inductive ServerFrame : Type :=
| FWelcome (serverTime roomId : string) (cursor : Z) (status : RoomStatus)
| FAck (commandId : string) (roomSeq revision : Z)
| FReject (commandId : option string) (code : RejectCode) (retryable : option bool)
| FEvent (event : RoomEventEnvelope)
| FPresence (actorId : string) (state : PresenceState) (expiresAt : string)
| FTyping (actorId : string) (is_active : bool) (expiresAt : string)
| FResumeComplete (throughRoomSeq : Z)
| FSnapshotRequired (afterSeq throughRoomSeq : Z)
| FDegraded (scope : DegradedScope) (code updatedAt : string) (retryAfterMs : option Z)
    (projectionKey : option ProjectionKey)
| FHeartbeat (serverTime : string)
| FMediaStatus (mediaId : string) (state : MediaState) (failureCode : option string) (updatedAt : string)
| FAgentStatus (roomId : string) (agentRunId : option string) (state : AgentState)
    (serviceHealth : ServiceHealth) (agentEnabled : bool) (updatedAt : string) (failureCode : option string)
| FProjection (projection : ProjectionFrame).
#[global] Instance ServerFrame_eq_dec : EqDecision ServerFrame.
Proof. solve_decision. Defined.

(** ** Writing frames *)

Definition num (z : Z) : json := JNum (NInt z).
Definition nullable (o : option string) : json := match o with Some s => JStr s | None => JNull end.
Definition optionalField {A} (k : string) (write : A -> json) (o : option A) : list (string * json) :=
  match o with Some a => [(k, write a)] | None => [] end.

Definition commandJson (c : RoomCommand) : json :=
  JObj ([("commandId", JStr (cm_commandId c)); ("roomId", JStr (cm_roomId c));
         ("type", JStr (commandTypeText (cm_type c))); ("clientTime", JStr (cm_clientTime c))]%string
        ++ optionalField "baseRevision" num (cm_baseRevision c)
        ++ [("payload"%string, JObj (cm_payload c))]).

Definition clientFrameJson (f : ClientFrame) : json :=
  match f with
  | CHello i r => JObj [("type", JStr "hello"); ("clientId", JStr i); ("resumeFrom", num r)]
  | CCommand c => JObj [("type", JStr "command"); ("command", commandJson c)]
  | CPresence s n => JObj [("type", JStr "presence"); ("state", JStr (presenceText s)); ("clientSeq", num n)]
  | CTyping b n => JObj [("type", JStr "typing"); ("active", JBool b); ("clientSeq", num n)]
  | CHeartbeat => JObj [("type", JStr "heartbeat")]
  end%string.

Definition serverFrameJson (f : ServerFrame) : json :=
  match f with
  | FWelcome t r c s => JObj [("type", JStr "welcome"); ("serverTime", JStr t); ("roomId", JStr r);
      ("cursor", num c); ("status", JStr (statusText s))]
  | FAck i s r => JObj [("type", JStr "ack"); ("commandId", JStr i); ("roomSeq", num s); ("revision", num r)]
  | FReject i c r => JObj ([("type", JStr "reject")] ++ optionalField "commandId" JStr i
      ++ [("code", JStr (rejectText c))] ++ optionalField "retryable" JBool r)
  | FEvent e => JObj [("type", JStr "event"); ("event", envelopeJson e)]
  | FPresence a s x => JObj [("type", JStr "presence"); ("actorId", JStr a);
      ("state", JStr (presenceText s)); ("expiresAt", JStr x)]
  | FTyping a b x => JObj [("type", JStr "typing"); ("actorId", JStr a); ("active", JBool b);
      ("expiresAt", JStr x)]
  | FResumeComplete n => JObj [("type", JStr "resume_complete"); ("throughRoomSeq", num n)]
  | FSnapshotRequired a n => JObj [("type", JStr "snapshot_required"); ("afterSeq", num a);
      ("throughRoomSeq", num n)]
  | FDegraded s c u r k => JObj ([("type", JStr "degraded"); ("scope", JStr (scopeText s));
      ("code", JStr c); ("updatedAt", JStr u)] ++ optionalField "retryAfterMs" num r
      ++ optionalField "projectionKey" (fun k => JStr (projectionKeyText k)) k)
  | FHeartbeat t => JObj [("type", JStr "heartbeat"); ("serverTime", JStr t)]
  | FMediaStatus i s c u => JObj [("type", JStr "media_status"); ("mediaId", JStr i);
      ("state", JStr (mediaStateText s)); ("failureCode", nullable c); ("updatedAt", JStr u)]
  | FAgentStatus r i s h b u c => JObj [("type", JStr "agent_status"); ("roomId", JStr r);
      ("agentRunId", nullable i); ("state", JStr (agentStateText s)); ("serviceHealth", JStr (healthText h));
      ("agentEnabled", JBool b); ("updatedAt", JStr u); ("failureCode", nullable c)]
  | FProjection p => JObj [("type", JStr "projection"); ("roomId", JStr (pj_roomId p));
      ("projectionKey", JStr (projectionKeyText (pj_projectionKey p)));
      ("analysisEpoch", JStr (pj_analysisEpoch p)); ("projectionVersion", num (pj_projectionVersion p));
      ("completeThroughRoomSeq", num (pj_completeThroughRoomSeq p));
      ("snapshotUrl", JStr (pj_snapshotUrl p))]
  end%string.

(** ** Reading frames *)

(** A number the schema types as [integer] with a minimum of 0: minus zero is one. *)
Definition asNatural (j : json) : option Z :=
  match j with
  | JNum (NInt z) => if decide (0 <= z) then Some z else None
  | JNum NNegZero => Some 0
  | _ => None
  end.
Definition asBool (j : json) : option bool := match j with JBool b => Some b | _ => None end.
Definition asText (ok : string -> bool) (j : json) : option string :=
  s ← asStr j; if ok s then Some s else None.
Definition asNullable (ok : string -> bool) (j : json) : option (option string) :=
  match j with JNull => Some None | _ => Some <$> asText ok j end.
Definition asEnum {A} (text : A -> string) (l : list A) (j : json) : option A := asStr j ≫= spelled text l.
(** Reads a property that may be absent. *)
Definition readOptional {A} (read : json -> option A) (k : string) (j : json) : option (option A) :=
  match field k j with Some v => Some <$> read v | None => Some None end.
Definition failureCodeOk (s : string) : bool := codePoints s <=? 100.
Definition nonEmpty (s : string) : bool := 1 <=? codePoints s.

Section Read.
Context `{Schemas}.

(** [\S]: a character that is not a space. *)
Definition visible (s : string) : bool := negb (bool_decide (js_trim s = ""%string)).
Definition textInput : validator := stringWhere (fun s => codePoints s <=? 4000).
Definition visibleText : validator := stringWhere (fun s => (codePoints s <=? 4000) && visible s).
Definition mentionsInput : validator := uniqueArray 5 uuidSchema.

(** The [if]/[then] branches of the schema of commands. *)
Definition commandPayloadOk (t : CommandType) (p : json) : bool :=
  match t with
  | message_add =>
      closedObject [("mentions"%string, mentionsInput)]
        [("text", textInput); ("replyTo", stringOrNull format_uuid); ("mediaIds", uniqueArray 4 uuidSchema)]%string p
      && ((if field "text" p is Some v then stringWhere visible v else false)
          || (if field "mediaIds" p is Some (JArr (_ :: _)) then true else false))
  | message_revise =>
      closedObject [("messageId", uuidSchema); ("text", visibleText); ("replyTo", stringOrNull format_uuid);
                    ("mentions", mentionsInput)]%string [] p
  | message_retract => closedObject [("messageId"%string, uuidSchema)] [] p
  | room_open | room_pause | room_resume | room_close => bool_decide (p = JObj [])
  end.
Definition needsBaseRevision (t : CommandType) : bool :=
  match t with message_revise | message_retract => true | _ => false end.

Definition parseRoomCommand (j : json) : option RoomCommand :=
  _ ← guardO (onlyKeys ["commandId"; "roomId"; "type"; "clientTime"; "baseRevision"; "payload"]%string j);
  commandId ← readField (asText format_uuid) "commandId" j;
  roomId ← readField (asText format_uuid) "roomId" j;
  type ← readField (asEnum commandTypeText COMMAND_TYPES) "type" j;
  clientTime ← readField (asText format_date_time) "clientTime" j;
  baseRevision ← readOptional (asIntegerMin 1) "baseRevision" j;
  payload ← readField asObj "payload" j;
  _ ← guardO (commandPayloadOk type (JObj payload)
              && (negb (needsBaseRevision type) || bool_decide (is_Some baseRevision)));
  Some (Command commandId roomId type clientTime baseRevision payload).

Definition parseClientFrame (j : json) : option ClientFrame :=
  type ← readField asStr "type" j;
  if decide (type = "hello")%string then
    _ ← guardO (onlyKeys ["type"; "clientId"; "resumeFrom"]%string j);
    i ← readField (asText format_uuid) "clientId" j;
    r ← readField asNatural "resumeFrom" j;
    Some (CHello i r)
  else if decide (type = "command")%string then
    _ ← guardO (onlyKeys ["type"; "command"]%string j);
    c ← readField parseRoomCommand "command" j;
    Some (CCommand c)
  else if decide (type = "presence")%string then
    _ ← guardO (onlyKeys ["type"; "state"; "clientSeq"]%string j);
    s ← readField (asEnum presenceText PRESENCE_STATES) "state" j;
    n ← readField asNatural "clientSeq" j;
    Some (CPresence s n)
  else if decide (type = "typing")%string then
    _ ← guardO (onlyKeys ["type"; "active"; "clientSeq"]%string j);
    b ← readField asBool "active" j;
    n ← readField asNatural "clientSeq" j;
    Some (CTyping b n)
  else if decide (type = "heartbeat")%string then
    _ ← guardO (onlyKeys ["type"]%string j);
    Some CHeartbeat
  else None.

(** The schema of the frames of the server. *)
Definition readServerFrame (j : json) : option ServerFrame :=
  type ← readField asStr "type" j;
  if decide (type = "welcome")%string then
    _ ← guardO (onlyKeys ["type"; "serverTime"; "roomId"; "cursor"; "status"]%string j);
    t ← readField (asText format_date_time) "serverTime" j;
    r ← readField (asText format_uuid) "roomId" j;
    c ← readField asNatural "cursor" j;
    s ← readField (asEnum statusText STATUSES) "status" j;
    Some (FWelcome t r c s)
  else if decide (type = "ack")%string then
    _ ← guardO (onlyKeys ["type"; "commandId"; "roomSeq"; "revision"]%string j);
    i ← readField (asText format_uuid) "commandId" j;
    s ← readField (asIntegerMin 1) "roomSeq" j;
    r ← readField (asIntegerMin 1) "revision" j;
    Some (FAck i s r)
  else if decide (type = "reject")%string then
    _ ← guardO (onlyKeys ["type"; "commandId"; "code"; "retryable"]%string j);
    i ← readOptional (asText format_uuid) "commandId" j;
    c ← readField (asEnum rejectText REJECT_CODES) "code" j;
    r ← readOptional asBool "retryable" j;
    Some (FReject i c r)
  else if decide (type = "event")%string then
    _ ← guardO (onlyKeys ["type"; "event"]%string j);
    e ← readField parseRoomEventEnvelope "event" j;
    Some (FEvent e)
  else if decide (type = "presence")%string then
    _ ← guardO (onlyKeys ["type"; "actorId"; "state"; "expiresAt"]%string j);
    a ← readField (asText format_uuid) "actorId" j;
    s ← readField (asEnum presenceText PRESENCE_STATES) "state" j;
    x ← readField (asText format_date_time) "expiresAt" j;
    Some (FPresence a s x)
  else if decide (type = "typing")%string then
    _ ← guardO (onlyKeys ["type"; "actorId"; "active"; "expiresAt"]%string j);
    a ← readField (asText format_uuid) "actorId" j;
    b ← readField asBool "active" j;
    x ← readField (asText format_date_time) "expiresAt" j;
    Some (FTyping a b x)
  else if decide (type = "resume_complete")%string then
    _ ← guardO (onlyKeys ["type"; "throughRoomSeq"]%string j);
    n ← readField asNatural "throughRoomSeq" j;
    Some (FResumeComplete n)
  else if decide (type = "snapshot_required")%string then
    _ ← guardO (onlyKeys ["type"; "afterSeq"; "throughRoomSeq"]%string j);
    a ← readField asNatural "afterSeq" j;
    n ← readField asNatural "throughRoomSeq" j;
    Some (FSnapshotRequired a n)
  else if decide (type = "degraded")%string then
    _ ← guardO (onlyKeys ["type"; "scope"; "code"; "updatedAt"; "retryAfterMs"; "projectionKey"]%string j);
    s ← readField (asEnum scopeText SCOPES) "scope" j;
    c ← readField (asText nonEmpty) "code" j;
    u ← readField (asText format_date_time) "updatedAt" j;
    r ← readOptional asNatural "retryAfterMs" j;
    k ← readOptional (asEnum projectionKeyText STUDENT_PROJECTIONS) "projectionKey" j;
    _ ← guardO (bool_decide (s = sc_analytics) || bool_decide (k = None));
    _ ← guardO (negb (bool_decide (c = "STUDENT_ANALYTICS_NOT_PROMOTED"%string)) || bool_decide (is_Some k));
    Some (FDegraded s c u r k)
  else if decide (type = "heartbeat")%string then
    _ ← guardO (onlyKeys ["type"; "serverTime"]%string j);
    t ← readField (asText format_date_time) "serverTime" j;
    Some (FHeartbeat t)
  else if decide (type = "media_status")%string then
    _ ← guardO (onlyKeys ["type"; "mediaId"; "state"; "failureCode"; "updatedAt"]%string j);
    i ← readField (asText format_uuid) "mediaId" j;
    s ← readField (asEnum mediaStateText MEDIA_STATES) "state" j;
    c ← readField (asNullable failureCodeOk) "failureCode" j;
    u ← readField (asText format_date_time) "updatedAt" j;
    Some (FMediaStatus i s c u)
  else if decide (type = "agent_status")%string then
    _ ← guardO (onlyKeys ["type"; "roomId"; "agentRunId"; "state"; "serviceHealth"; "agentEnabled";
                          "updatedAt"; "failureCode"]%string j);
    r ← readField (asText format_uuid) "roomId" j;
    i ← readField (asNullable format_uuid) "agentRunId" j;
    s ← readField (asEnum agentStateText AGENT_STATES) "state" j;
    h ← readField (asEnum healthText HEALTHS) "serviceHealth" j;
    b ← readField asBool "agentEnabled" j;
    u ← readField (asText format_date_time) "updatedAt" j;
    c ← readField (asNullable failureCodeOk) "failureCode" j;
    Some (FAgentStatus r i s h b u c)
  else if decide (type = "projection")%string then
    _ ← guardO (onlyKeys ["type"; "roomId"; "projectionKey"; "analysisEpoch"; "projectionVersion";
                          "completeThroughRoomSeq"; "snapshotUrl"]%string j);
    r ← readField (asText format_uuid) "roomId" j;
    k ← readField (asEnum projectionKeyText PROJECTION_KEYS) "projectionKey" j;
    ep ← readField (asText format_uuid) "analysisEpoch" j;
    v ← readField (asIntegerMin 1) "projectionVersion" j;
    n ← readField asNatural "completeThroughRoomSeq" j;
    u ← readField (asText (String.prefix "/v1/rooms/")) "snapshotUrl" j;
    Some (FProjection (Projection r k ep v n u))
  else None.

(** [requireAgentStatusIdentity]: a run is named unless the agent is idle. *)
Definition agentStatusIdentity (f : ServerFrame) : bool :=
  match f with
  | FAgentStatus _ run state _ _ _ failure =>
      if decide (state = a_idle) then bool_decide (run = None) && bool_decide (failure = None)
      else negb (bool_decide (run = None))
  | _ => true
  end.
(** [requireProjectionSnapshotUrl]. *)
Definition projectionSnapshotUrl (f : ServerFrame) : bool :=
  match f with
  | FProjection p => bool_decide (pj_snapshotUrl p = analyticsLatest (pj_roomId p) (pj_projectionKey p))
  | _ => true
  end.
(** The payload of an event of a core type is checked by the registry. *)
Definition corePayload (f : ServerFrame) : result parse_error unit :=
  match f with
  | FEvent e => _ ← parseCoreRoomEvent (envelopeJson e); Ok tt
  | _ => Ok tt
  end.

Inductive frame_error : Type := INVALID_SERVER_FRAME | CORE_EVENT (e : parse_error).

(** [realtimeContract.parseServerFrame]. *)
Definition parseServerFrame (j : json) : result frame_error ServerFrame :=
  match readServerFrame j with
  | None => Err INVALID_SERVER_FRAME
  | Some f =>
      match corePayload f with
      | Err e => Err (CORE_EVENT e)
      | Ok _ =>
          if negb (agentStatusIdentity f) then Err INVALID_SERVER_FRAME
          else if negb (projectionSnapshotUrl f) then Err INVALID_SERVER_FRAME
          else Ok f
      end
  end.

End Read.

(** ** Laws *)

(** What is read is read again from what is written for it. *)
Definition canonical {A} (read : json -> option A) (write : A -> json) : Prop :=
  forall v a, read v = Some a -> read (write a) = Some a.

Lemma asText_canonical ok : canonical (asText ok) JStr.
Proof. intros [] a; try done. unfold asText. simpl. destruct (ok s) eqn:E; [|done]. intros [= <-]. by rewrite E. Qed.
Lemma asNatural_canonical : canonical asNatural num.
Proof.
  intros [| |[]| | |] a; simpl; try done; [|by intros [= <-]].
  case_decide; [|done]. intros [= <-]. by rewrite decide_True.
Qed.
Lemma asIntegerMin_canonical lo : canonical (asIntegerMin lo) num.
Proof. intros v a [-> H]%asIntegerMin_Some. simpl. by rewrite decide_True. Qed.
Lemma asBool_canonical : canonical asBool JBool.
Proof. by intros [] a. Qed.
Lemma asNullable_canonical ok : canonical (asNullable ok) nullable.
Proof.
  assert (forall v a, Some <$> asText ok v = Some a -> asNullable ok (nullable a) = Some a) as Hs.
  { intros v a. destruct (asText ok v) as [s|] eqn:E; [|done]. intros [= <-].
    unfold asNullable, nullable. by rewrite (asText_canonical ok v s E). }
  intros [] a; try (by apply Hs). by intros [= <-].
Qed.
Lemma asEnum_canonical {A} (text : A -> string) l :
  Forall (fun a => spelled text l (text a) = Some a) l -> canonical (asEnum text l) (fun a => JStr (text a)).
Proof.
  intros Hall [] a; try done. unfold asEnum. simpl. intros Ha.
  unfold spelled in Ha. apply find_some in Ha as [Hin _].
  rewrite Forall_forall in Hall. apply Hall. by apply list_elem_of_In.
Qed.
Lemma envelope_canonical `{Schemas} : canonical parseRoomEventEnvelope envelopeJson.
Proof. intros v e He. by eapply parse_envelopeJson, parse_ok. Qed.

Lemma readField_canonical {A} (read : json -> option A) write k j a :
  canonical read write -> readField read k j = Some a -> read (write a) = Some a.
Proof. intros Hc. unfold readField. destruct (field k j); [apply Hc|done]. Qed.
Lemma readOptional_canonical {A} (read : json -> option A) write k j a :
  canonical read write -> readOptional read k j = Some (Some a) -> read (write a) = Some a.
Proof.
  intros Hc. unfold readOptional. destruct (field k j) as [v|]; [|done].
  destruct (read v) eqn:E; [|done]. intros [= <-]. eauto.
Qed.

#[global] Arguments asText : simpl never.
#[global] Arguments asNatural : simpl never.
#[global] Arguments asIntegerMin : simpl never.
#[global] Arguments asNullable : simpl never.
#[global] Arguments asEnum : simpl never.
#[global] Arguments parseRoomEventEnvelope : simpl never.
#[global] Arguments parseRoomCommand : simpl never.
#[global] Arguments commandPayloadOk : simpl never.
#[global] Arguments analyticsLatest : simpl never.
#[global] Arguments guardO : simpl never.

Create HintDb canonical.
#[export] Hint Resolve asText_canonical asNatural_canonical asIntegerMin_canonical asBool_canonical
  asNullable_canonical envelope_canonical : canonical.
#[export] Hint Extern 1 (canonical (asEnum _ _) _) =>
  apply asEnum_canonical; repeat constructor : canonical.

(** Takes a reading apart and states that every field is read again from what is
    written for it. *)
Ltac read_steps H :=
  repeat match type of H with
  | (_ ≫= _) = Some _ => apply bind_Some in H; destruct H as (? & ? & H)
  | (if decide (?a = ?b) then _ else _) = Some _ => destruct (decide (a = b)); [|]
  end.
Ltac reread :=
  repeat match goal with
  | E : readField (asText ?ok) ?k ?j = Some ?a |- _ =>
      apply (readField_canonical _ JStr) in E; [|solve [eauto with canonical]]
  | E : readField asNatural ?k ?j = Some ?a |- _ =>
      apply (readField_canonical _ num) in E; [|solve [eauto with canonical]]
  | E : readField (asIntegerMin _) ?k ?j = Some ?a |- _ =>
      apply (readField_canonical _ num) in E; [|solve [eauto with canonical]]
  | E : readField asBool ?k ?j = Some ?a |- _ =>
      apply (readField_canonical _ JBool) in E; [|solve [eauto with canonical]]
  | E : readField (asNullable _) ?k ?j = Some ?a |- _ =>
      apply (readField_canonical _ nullable) in E; [|solve [eauto with canonical]]
  | E : readField (asEnum ?t ?l) ?k ?j = Some ?a |- _ =>
      apply (readField_canonical _ (fun a => JStr (t a))) in E; [|solve [eauto with canonical]]
  | E : readField parseRoomEventEnvelope ?k ?j = Some ?a |- _ =>
      apply (readField_canonical _ envelopeJson) in E; [|solve [eauto with canonical]]
  | E : readOptional _ _ _ = Some ?o |- _ => is_var o; destruct o; [|clear E]
  | E : readOptional (asText _) ?k ?j = Some (Some ?a) |- _ =>
      apply (readOptional_canonical _ JStr) in E; [|solve [eauto with canonical]]
  | E : readOptional asNatural ?k ?j = Some (Some ?a) |- _ =>
      apply (readOptional_canonical _ num) in E; [|solve [eauto with canonical]]
  | E : readOptional (asIntegerMin _) ?k ?j = Some (Some ?a) |- _ =>
      apply (readOptional_canonical _ num) in E; [|solve [eauto with canonical]]
  | E : readOptional asBool ?k ?j = Some (Some ?a) |- _ =>
      apply (readOptional_canonical _ JBool) in E; [|solve [eauto with canonical]]
  | E : readOptional (asEnum ?t ?l) ?k ?j = Some (Some ?a) |- _ =>
      apply (readOptional_canonical _ (fun a => JStr (t a))) in E; [|solve [eauto with canonical]]
  end.
Ltac write_steps :=
  repeat match goal with
  | |- context [guardO (onlyKeys ?l ?j)] => change (guardO (onlyKeys l j)) with (Some tt); simpl
  | E : ?x = Some _ |- context [?x] => rewrite E; simpl
  end.

Section Laws.
Context `{Schemas}.

Lemma command_canonical : canonical parseRoomCommand commandJson.
Proof.
  intros v c Hc. unfold parseRoomCommand in Hc. read_steps Hc. simplify_eq.
  match goal with E : readField asObj _ _ = _ |- _ => clear E end.
  reread; unfold parseRoomCommand, commandJson, readOptional, readField in *; simpl in *;
    write_steps; done.
Qed.

Lemma readServerFrame_canonical : canonical readServerFrame serverFrameJson.
Proof.
  intros v f Hf. unfold readServerFrame in Hf. read_steps Hf; simplify_eq; reread;
    unfold readServerFrame, readOptional, readField in *; simpl in *; write_steps; done.
Qed.

Lemma readField_command k j c :
  readField parseRoomCommand k j = Some c -> parseRoomCommand (commandJson c) = Some c.
Proof. apply readField_canonical, command_canonical. Qed.

Lemma readField_text ok k j s : readField (asText ok) k j = Some s -> field k j = Some (JStr s).
Proof.
  unfold readField. destruct (field k j) as [[]|]; try done. unfold asText. simpl.
  destruct (ok _); [|done]. by intros [= ->].
Qed.
Lemma parseRoomCommand_print c c' : parseRoomCommand (commandJson c) = Some c' -> c' = c.
Proof.
  intros Hc. unfold parseRoomCommand in Hc. read_steps Hc. simplify_eq.
  repeat match goal with
  | E : readField (asText _) _ _ = _ |- _ => apply readField_text in E
  | E : readField (asEnum _ _) _ _ = _ |- _ => apply (readEnum_Some commandTypeText) in E
  | E : readField asObj _ _ = _ |- _ => apply readObj_Some in E
  end.
  destruct c as [i r t ct b p].
  assert (commandTypeText x2 = commandTypeText t -> x2 = t) as Ht by (by destruct x2, t).
  unfold readOptional in *. destruct b as [b|]; simpl in *; simplify_eq; rewrite ?Ht by done; try done.
  match goal with E : Some <$> asIntegerMin 1 (num b) = Some _ |- _ => revert E end.
  destruct (asIntegerMin 1 (num b)) as [z|] eqn:Hz; [|done].
  apply asIntegerMin_Some in Hz as [Hz _]. injection Hz as ->. intros [= <-]. done.
Qed.

(** The event of a frame is an envelope of the schema. *)
Lemma readServerFrame_event j e : readServerFrame j = Some (FEvent e) -> envelope_ok e.
Proof.
  intros Hj%readServerFrame_canonical. unfold readServerFrame, readField in Hj. simpl in Hj.
  destruct (parseRoomEventEnvelope (envelopeJson e)) as [e'|] eqn:He; [|done].
  simpl in Hj. simplify_eq. by eapply parse_ok.
Qed.
End Laws.

Section Contract.
Context `{Schemas}.

Lemma parseServerFrame_read j f : parseServerFrame j = Ok f -> readServerFrame j = Some f.
Proof.
  unfold parseServerFrame. destruct (readServerFrame j) as [g|]; [|done].
  destruct (corePayload g); [|done]. repeat case_match; naive_solver.
Qed.

(** What the contract accepts as a frame of the server, the contract accepts again
    after it is written out: the frame that a server relays, a cache stores or a test
    prints is read back as the same frame, for every one of the thirteen kinds. *)
Theorem serverFrame_roundtrip j f :
  parseServerFrame j = Ok f -> parseServerFrame (serverFrameJson f) = Ok f.
Proof.
  intros Hp. pose proof (parseServerFrame_read j f Hp) as Hr. revert Hp. unfold parseServerFrame.
  by rewrite Hr, (readServerFrame_canonical j f Hr).
Qed.

Lemma onlyKeys_field keys k j v : onlyKeys keys j = true -> field k j = Some v -> k ∈ keys.
Proof.
  destruct j as [| | | | |fs]; try done. simpl. rewrite forallb_forall. intros Hall Hk.
  assert (In (k, v) fs) as Hin.
  { revert Hk. clear Hall. induction fs as [|[k' v'] fs IH]; simpl; [done|].
    case_decide; [intros [= ->]; subst; by left|right; auto]. }
  specialize (Hall _ Hin). by apply bool_decide_eq_true in Hall.
Qed.
Lemma readField_none {A} (read : json -> option A) keys k j u :
  guardO (onlyKeys keys j) = Some u -> k ∉ keys -> readField read k j = None.
Proof.
  intros Hk%guardO_Some Hn. unfold readField. destruct (field k j) as [v|] eqn:E; [|done].
  by destruct (Hn (onlyKeys_field keys k j v Hk E)).
Qed.

(** The frames of the two directions are disjoint: nothing the server accepts from
    a browser is a frame of the server, so a browser cannot inject an event, an
    acknowledgement or the presence of another actor. *)
Theorem directions_disjoint j f : parseClientFrame j = Some f -> parseServerFrame j = Err INVALID_SERVER_FRAME.
Proof.
  intros Hc. unfold parseServerFrame. assert (readServerFrame j = None) as ->; [|done].
  unfold parseClientFrame in Hc. read_steps Hc; simplify_eq;
    unfold readServerFrame; match goal with E : readField asStr _ _ = _ |- _ => rewrite E end; simpl; try done;
    match goal with
    | E : guardO (onlyKeys ?ks j) = Some _ |- _ =>
        assert ("actorId"%string ∉ ks /\ "serverTime"%string ∉ ks) as [Ha Ht]
          by (apply (bool_decide_unpack _); vm_compute; done);
        rewrite ?(readField_none (asText format_uuid) ks "actorId" j _ E Ha);
        rewrite ?(readField_none (asText format_date_time) ks "serverTime" j _ E Ht)
    end; match goal with |- guardO ?b ≫= _ = _ => by destruct (guardO b) end.
Qed.

End Contract.

(** ** The contract at work *)

Definition demoAck : ServerFrame := FAck demoCommand 7 1.

Lemma serverFrame_roundtrip_witness : parseServerFrame (serverFrameJson demoAck) = Ok demoAck.
Proof.
  assert (parseServerFrame (serverFrameJson demoAck) = Ok demoAck) as E by (vm_compute; done).
  exact (serverFrame_roundtrip _ _ E).
Defined.

Definition demoPresence : ClientFrame := CPresence active 3.
Lemma directions_disjoint_witness :
  parseServerFrame (clientFrameJson demoPresence) = Err INVALID_SERVER_FRAME.
Proof.
  assert (parseClientFrame (clientFrameJson demoPresence) = Some demoPresence) as E by (vm_compute; done).
  exact (directions_disjoint _ _ E).
Defined.
