(* ===== verification/ClientLedger.v ===== *)
(** * The browser's ledger: [apps/web/src/lib/session/event-ledger.ts]

    The copy of the room ledger a browser keeps: events are taken in the order of the
    room, at least once delivered and exactly once applied, and the messages they add,
    revise and retract are kept as a view. *)
From S2P Require Import Prelude Text JsDate JsValue Contracts Database Concrete Frames JsMap.
#[local] Set Warnings "-register-all,-clear-no-such-hyp,-level-tolerance".

(** ** State *)

Record LedgerMessage : Type := Message {
  lm_messageId : string;
  lm_text : string;
  lm_actorId : string;
  lm_actorKind : ActorKind;
  lm_actorRole : ActorRole;
  lm_eventId : string;
  lm_causationId : string;
  lm_revision : Z;
  lm_operation : EventOperation;
  lm_eventTime : string;
  lm_firstRoomSeq : Z;
  lm_roomSeq : Z;
  lm_replyTo : option string;
  lm_mentions : list string;
  lm_mediaIds : list string;
}.

Record EventLedger : Type := MkLedger {
  el_events : list (string * RoomEventEnvelope);
  el_messages : list (string * LedgerMessage);
  el_lastSeq : Z;
  el_roomId : option string;
}.

Definition newEventLedger (roomId : option string) : EventLedger := MkLedger [] [] 0 roomId.

Inductive LedgerAppendResult : Type := appended | duplicate | stale | gap.
Inductive ledger_error : Type :=
| LE_FRAME (e : frame_error)
| ROOM_EVENT_REQUIRED
| ROOM_EVENT_ROOM_MISMATCH.

(** ** The payloads of messages *)

Definition payloadText (k : string) (p : list (string * json)) : option string := assoc k p ≫= asStr.
Definition payloadTexts (k : string) (p : list (string * json)) : list string :=
  match assoc k p with Some (JArr l) => omap asStr l | _ => [] end.

Definition isMessageType (t : string) : bool :=
  bool_decide (t ∈ ["message.added"; "message.revised"; "message.retracted"]%string).

(** The message after [event], given what the ledger knows of it: [a ?? b] is
    [from_option]. A retraction has no [visible] payload. *)
Definition nextMessage (previous : option LedgerMessage) (event : RoomEventEnvelope) (messageId : string)
    : LedgerMessage :=
  let visible := if decide (type event = "message.retracted")%string then None else Some (payload event) in
  Message messageId
    (match visible ≫= payloadText "text" with
     | Some t => t | None => from_option lm_text ""%string previous end)
    (from_option lm_actorId (actorId event) previous)
    (from_option lm_actorKind (actorKind event) previous)
    (from_option lm_actorRole (actorRole event) previous)
    (eventId event) (causationId event) (revision event) (operation event) (eventTime event)
    (from_option lm_firstRoomSeq (roomSeq event) previous)
    (roomSeq event)
    (match visible ≫= payloadText "replyTo" with
     | Some r => Some r | None => previous ≫= lm_replyTo end)
    (match visible with Some p => payloadTexts "mentions" p | None => from_option lm_mentions [] previous end)
    (match visible with Some p => payloadTexts "mediaIds" p | None => from_option lm_mediaIds [] previous end).

Section Ledger.
Context `{Schemas}.

(** What the ledger does with the messages when it takes [event]: an older revision is
    not applied. *)
Definition applyMessage (event : RoomEventEnvelope) (messages : list (string * LedgerMessage))
    : list (string * LedgerMessage) :=
  match parseCoreRoomEvent (envelopeJson event) with
  | Ok (Some core) =>
      if isMessageType (type core) then
        match payloadText "messageId" (payload core) with
        | Some messageId =>
            let previous := assoc messageId messages in
            if match previous with Some m => lm_revision m <=? revision event | None => true end
            then map_set messageId (nextMessage previous core messageId) messages
            else messages
        | None => messages
        end
      else messages
  | _ => messages
  end.

Definition append (value : json) (l : EventLedger) : result ledger_error (LedgerAppendResult * EventLedger) :=
  match parseServerFrame (JObj [("type", JStr "event"); ("event", value)]%string) with
  | Err e => Err (LE_FRAME e)
  | Ok (FEvent event) =>
      if match el_roomId l with Some r => negb (bool_decide (roomId event = r)) | None => false end
      then Err ROOM_EVENT_ROOM_MISMATCH
      else if map_has (eventId event) (el_events l) then Ok (duplicate, l)
      else if roomSeq event <=? el_lastSeq l then Ok (stale, l)
      else if negb (bool_decide (roomSeq event = el_lastSeq l + 1)) then Ok (gap, l)
      else Ok (appended,
        MkLedger (map_set (eventId event) event (el_events l)) (applyMessage event (el_messages l))
          (roomSeq event) (el_roomId l))
  | Ok _ => Err ROOM_EVENT_REQUIRED
  end.

Definition ledgerEvents (l : EventLedger) : list RoomEventEnvelope :=
  sort_by (fun a b => roomSeq a <=? roomSeq b) (map snd (el_events l)).
Definition ledgerMessages (l : EventLedger) : list LedgerMessage :=
  sort_by (fun a b => lm_firstRoomSeq a <=? lm_firstRoomSeq b) (map snd (el_messages l)).
Definition activeMediaIds (l : EventLedger) : list string :=
  unique (concat (map (fun m => if decide (lm_operation m = retract) then [] else lm_mediaIds m)
    (map snd (el_messages l)))).
Definition resetLedger (l : EventLedger) : EventLedger := MkLedger [] [] 0 (el_roomId l).
Definition destroyLedger (l : EventLedger) : EventLedger := MkLedger [] [] 0 None.

(** A delivery that is refused leaves the ledger as it is. *)
Definition delivered (value : json) (l : EventLedger) : EventLedger :=
  match append value l with Ok (_, l') => l' | Err _ => l end.
Definition deliverAll (values : list json) (l : EventLedger) : EventLedger :=
  fold_left (fun l v => delivered v l) values l.

(** ** The reference: the messages of a room are the events of its messages, in order *)

Definition messagesOf (events : list RoomEventEnvelope) : list (string * LedgerMessage) :=
  fold_left (fun ms e => applyMessage e ms) events [].

(** A ledger of the server: the events of one room, numbered from 1, no identifier
    twice. *)
Record room_history (r : string) (E : list RoomEventEnvelope) : Prop := {
  rh_room : Forall (fun e => roomId e = r) E;
  rh_seq : map roomSeq E = seqFrom 1 (length E);
  rh_ids : NoDup (map eventId E);
  rh_parsed : Forall (fun e => parseServerFrame (serverFrameJson (FEvent e)) = Ok (FEvent e)) E;
}.

(** The client has exactly the first [n] events of the room. *)
Definition holds_prefix (r : string) (E : list RoomEventEnvelope) (n : nat) (l : EventLedger) : Prop :=
  l = MkLedger (map (fun e => (eventId e, e)) (take n E)) (messagesOf (take n E)) (Z.of_nat n) (Some r).

Lemma map_has_ids (E : list RoomEventEnvelope) i :
  map_has i (map (fun e => (eventId e, e)) E) = bool_decide (i ∈ map eventId E).
Proof.
  unfold map_has. destruct (assoc i _) as [v|] eqn:Ha.
  - symmetry. apply bool_decide_eq_true. apply assoc_elem in Ha.
    apply list_elem_of_fmap in Ha as (e & [= -> ->] & He). by apply (list_elem_of_fmap_2 eventId).
  - symmetry. apply bool_decide_eq_false. apply assoc_None_keys in Ha. by rewrite map_map in Ha.
Qed.
Lemma map_set_new {A} k (v : A) m : k ∉ map fst m -> map_set k v m = m ++ [(k, v)].
Proof.
  induction m as [|[k0 v0] m IH]; simpl; [done|]. rewrite not_elem_of_cons. intros [Hne Hn].
  rewrite decide_False by done. by rewrite IH.
Qed.

Lemma history_nth r E k e : room_history r E -> E !! k = Some e -> roomSeq e = Z.of_nat k + 1.
Proof.
  intros Hh Hk. pose proof (rh_seq r E Hh) as Hs.
  assert (map roomSeq E !! k = Some (roomSeq e)) as Hl by (rewrite list_lookup_fmap, Hk; done).
  rewrite Hs in Hl. revert Hl. clear Hs.
  enough (forall a n, seqFrom a n !! k = Some (roomSeq e) -> roomSeq e = a + Z.of_nat k) as Hgen.
  { intros Hl. specialize (Hgen _ _ Hl). lia. }
  clear Hh Hk. induction k as [|k IH]; intros a [|n]; simpl; try done; [intros [= <-]; lia|].
  intros Hl. specialize (IH _ _ Hl). lia.
Qed.
Lemma take_elem_lookup {A} (l : list A) n x : x ∈ take n l <-> exists k, (k < n)%nat /\ l !! k = Some x.
Proof.
  rewrite list_elem_of_lookup. split.
  - intros [k Hk]. apply lookup_take_Some in Hk as [Hk Hlt]. eauto.
  - intros (k & Hlt & Hk). exists k. apply lookup_take_Some. done.
Qed.
Lemma history_id_in_prefix r E n k e :
  room_history r E -> E !! k = Some e -> (eventId e ∈ map eventId (take n E)) <-> (k < n)%nat.
Proof.
  intros Hh Hk. split.
  - intros (e' & Hid & Hin)%list_elem_of_fmap. apply take_elem_lookup in Hin as (k' & Hlt & Hk').
    pose proof (rh_ids r E Hh) as Hnd.
    enough (k = k') by lia. eapply (NoDup_lookup _ _ _ (eventId e) Hnd); rewrite list_lookup_fmap.
    + by rewrite Hk.
    + rewrite Hk'. simpl. by rewrite Hid.
  - intros Hlt. apply (list_elem_of_fmap_2 eventId), take_elem_lookup. eauto.
Qed.

(** One delivery of an event of the room advances the prefix exactly when the event is
    the next one. *)
Lemma delivered_prefix r E n k e l :
  room_history r E -> (n <= length E)%nat -> E !! k = Some e -> holds_prefix r E n l ->
  holds_prefix r E (if decide (k = n) then S n else n) (delivered (envelopeJson e) l)
  /\ append (envelopeJson e) l =
       Ok (if decide (k = n) then appended else if decide (k < n)%nat then duplicate else gap,
           delivered (envelopeJson e) l).
Proof.
  intros Hh Hn Hk ->. pose proof (history_nth r E k e Hh Hk) as Hseq.
  pose proof (proj1 (Forall_lookup _ _) (rh_parsed r E Hh) k e Hk) as Hp.
  pose proof (proj1 (Forall_lookup _ _) (rh_room r E Hh) k e Hk) as Hr. simpl in Hr.
  pose proof (history_id_in_prefix r E n k e Hh Hk) as Hid.
  unfold delivered, append. simpl in Hp. rewrite Hp. cbn [el_roomId el_events el_lastSeq el_messages].
  rewrite bool_decide_eq_true_2 by done. cbn [negb]. rewrite map_has_ids.
  destruct (decide (k < n)%nat) as [Hlt|Hge].
  { rewrite bool_decide_eq_true_2 by (by apply Hid). rewrite !decide_False by lia. done. }
  rewrite bool_decide_eq_false_2 by (rewrite Hid; lia).
  replace (roomSeq e <=? Z.of_nat n) with false by (symmetry; apply Z.leb_gt; lia).
  destruct (decide (k = n)) as [->|Hne].
  - rewrite bool_decide_eq_true_2 by lia. cbn [negb]. split; [|done]. unfold holds_prefix.
    rewrite (take_S_r E n e Hk), map_app. simpl.
    rewrite map_set_new by (rewrite map_map, Hid; lia).
    unfold messagesOf. rewrite fold_left_app. simpl. f_equal. lia.
  - rewrite bool_decide_eq_false_2 by lia. done.
Qed.

Lemma deliverAll_prefix r E ks l n :
  room_history r E -> (n <= length E)%nat -> holds_prefix r E n l ->
  Forall (fun v => exists e, e ∈ E /\ v = envelopeJson e) ks ->
  exists m, (n <= m <= length E)%nat /\ holds_prefix r E m (deliverAll ks l).
Proof.
  intros Hh. revert l n. induction ks as [|v ks IH]; intros l n Hn Hl Hks.
  { exists n. simpl. split; [lia|done]. }
  apply Forall_cons in Hks as [(e & He & ->) Hks]. apply list_elem_of_lookup in He as [k Hk].
  destruct (delivered_prefix r E n k e l Hh Hn Hk Hl) as [Hd _]. simpl.
  pose proof (lookup_lt_Some _ _ _ Hk).
  destruct (decide (k = n)) as [->|].
  - destruct (IH _ (S n) ltac:(lia) Hd Hks) as (m & Hm & Hpre).
    exists m. split; [lia|done].
  - by apply (IH (delivered (envelopeJson e) l) n).
Qed.

(** A stream that contains the rest of the room in order, among anything else of the
    room, completes the prefix. *)
Lemma deliverAll_complete r E vs l n :
  room_history r E -> (n <= length E)%nat -> holds_prefix r E n l ->
  Forall (fun v => exists e, e ∈ E /\ v = envelopeJson e) vs ->
  map envelopeJson (drop n E) `sublist_of` vs ->
  holds_prefix r E (length E) (deliverAll vs l).
Proof.
  intros Hh. revert l n. induction vs as [|v vs IH]; intros l n Hn Hl Hvs Hsub.
  { apply sublist_nil_r, map_eq_nil in Hsub.
    assert (length (drop n E) = 0%nat) as H0 by (by rewrite Hsub).
    rewrite length_drop in H0. simpl. assert (length E = n) as -> by lia. done. }
  apply Forall_cons in Hvs as [(e & He & ->) Hvs]. apply list_elem_of_lookup in He as [k Hk].
  pose proof (lookup_lt_Some _ _ _ Hk) as Hlt. simpl.
  assert (forall k' e', E !! k' = Some e' -> envelopeJson e = envelopeJson e' ->
    holds_prefix r E (if decide (k' = n) then S n else n) (delivered (envelopeJson e) l)) as Hstep.
  { intros k' e' Hk' ->. by apply (delivered_prefix r E n k' e' l). }
  destruct (decide (k = n)) as [->|Hne].
  - specialize (Hstep n e Hk eq_refl). rewrite decide_True in Hstep by done.
    apply (IH _ (S n)); try done. rewrite (drop_S E e n Hk) in Hsub. simpl in Hsub.
    apply sublist_cons_r in Hsub as [Hsub|(l' & Heq & Hsub)].
    + apply sublist_cons_l in Hsub as (k1 & k2 & -> & Hs).
      by apply sublist_inserts_l, sublist_cons.
    + apply (inj2 cons) in Heq as [_ ->]. done.
  - apply sublist_cons_r in Hsub as [Hsub|(l' & Heq & Hsub)].
    + specialize (Hstep k e Hk eq_refl). rewrite decide_False in Hstep by done. by apply (IH _ n).
    + destruct (drop n E) as [|e' d] eqn:Hd; [done|]. simpl in Heq. apply (inj2 cons) in Heq as [He' <-].
      assert (E !! n = Some e') as Hn'.
      { rewrite <- (Nat.add_0_r n), <- lookup_drop, Hd. done. }
      assert (drop (S n) E = d) as Hd'.
      { rewrite (drop_S E e' n Hn') in Hd. by injection Hd. }
      specialize (Hstep n e' Hn' (eq_sym He')). rewrite decide_True in Hstep by done.
      apply (IH _ (S n)); try done; [apply lookup_lt_Some in Hn'; lia|]. by rewrite Hd'.
Qed.

Lemma holds_prefix_events r E n l :
  room_history r E -> (n <= length E)%nat -> holds_prefix r E n l -> ledgerEvents l = take n E.
Proof.
  intros Hh Hn ->. unfold ledgerEvents. simpl. rewrite map_map. simpl. rewrite map_id.
  apply sort_by_id, (in_order_seqFrom roomSeq _ 1 n).
  rewrite <- firstn_map, (rh_seq r E Hh), seqFrom_take. f_equal. lia.
Qed.

(** C28. At least once delivered, exactly once applied: whatever mixture of the events of
    a room reaches a browser, in whatever order and however often, its ledger is the
    first [n] events of the room for some [n], and its messages are those of these
    events. *)
Theorem ledger_exactly_once r E values :
  room_history r E -> Forall (fun v => exists e, e ∈ E /\ v = envelopeJson e) values ->
  let l := deliverAll values (newEventLedger (Some r)) in
  exists n, (n <= length E)%nat /\ el_lastSeq l = Z.of_nat n
    /\ ledgerEvents l = take n E /\ el_messages l = messagesOf (take n E).
Proof.
  intros Hh Hv l.
  destruct (deliverAll_prefix r E values (newEventLedger (Some r)) 0 Hh ltac:(lia) ltac:(done) Hv)
    as (n & [_ Hn] & Hl). fold l in Hl. exists n. split; [done|].
  split; [by rewrite Hl|]. split; [by eapply holds_prefix_events|by rewrite Hl].
Qed.

(** A stream that contains the events of a room in their order, among repetitions and
    reorderings of them, brings the browser's ledger to the whole room. *)
Theorem ledger_catches_up r E values :
  room_history r E -> Forall (fun v => exists e, e ∈ E /\ v = envelopeJson e) values ->
  map envelopeJson E `sublist_of` values ->
  let l := deliverAll values (newEventLedger (Some r)) in
  ledgerEvents l = E /\ el_messages l = messagesOf E.
Proof.
  intros Hh Hv Hsub l.
  assert (holds_prefix r E (length E) l) as Hl
    by (apply (deliverAll_complete r E values _ 0); [done|lia|done|done|done]).
  split.
  - rewrite (holds_prefix_events r E (length E) l) by done. by apply take_ge.
  - rewrite Hl. simpl. by rewrite take_ge.
Qed.

(** ** Messages *)

Lemma append_appended value l e l' :
  append value l = Ok (appended, l') ->
  parseServerFrame (JObj [("type", JStr "event"); ("event", value)]%string) = Ok (FEvent e) ->
  roomSeq e = el_lastSeq l + 1
  /\ l' = MkLedger (map_set (eventId e) e (el_events l)) (applyMessage e (el_messages l))
            (roomSeq e) (el_roomId l).
Proof.
  unfold append. intros Happ Hf. rewrite Hf in Happ. revert Happ.
  destruct (match el_roomId l with Some r => _ | None => _ end); [done|].
  destruct (map_has _ _); [done|]. destruct (_ <=? _); [done|].
  destruct (bool_decide _) eqn:Hd; [|done]. apply bool_decide_eq_true in Hd. by intros [= <-].
Qed.

Lemma parseCore_Some j core : parseCoreRoomEvent j = Ok (Some core) -> parseRoomEventEnvelope j = Some core.
Proof.
  unfold parseCoreRoomEvent. destruct (parseRoomEventEnvelope j) as [e|]; [|done].
  destruct (assoc (type e) corePayloadNames); [|done]. destruct (assertPayload _ _ _); [|done].
  by intros [= ->].
Qed.

Lemma applyMessage_assoc event ms k :
  assoc k (applyMessage event ms) = assoc k ms \/
  exists core, parseCoreRoomEvent (envelopeJson event) = Ok (Some core)
    /\ assoc k (applyMessage event ms) = Some (nextMessage (assoc k ms) core k)
    /\ (forall m, assoc k ms = Some m -> lm_revision m <= revision event).
Proof.
  unfold applyMessage. destruct (parseCoreRoomEvent _) as [[core|]|] eqn:Hc; try (by left).
  destruct (isMessageType _); [|by left].
  destruct (payloadText "messageId" _) as [mid|]; [|by left].
  destruct (match assoc mid ms with Some m => _ | None => _ end) eqn:Hr; [|by left].
  rewrite assoc_map_set. destruct (decide (k = mid)) as [->|]; [|by left]. right.
  exists core. split_and!; [done|done|]. intros m Hm. rewrite Hm in Hr. by apply Z.leb_le.
Qed.

(** A message keeps its author and its place: no event, whoever sends it, changes
    who wrote a message or where it stands in the room, and its revision never goes
    back. *)
Theorem message_author_is_fixed value l res l' k m :
  append value l = Ok (res, l') -> assoc k (el_messages l) = Some m ->
  exists m', assoc k (el_messages l') = Some m'
    /\ lm_actorId m' = lm_actorId m /\ lm_actorKind m' = lm_actorKind m
    /\ lm_actorRole m' = lm_actorRole m /\ lm_firstRoomSeq m' = lm_firstRoomSeq m
    /\ lm_revision m <= lm_revision m'.
Proof.
  unfold append. intros Happ Hm. destruct (parseServerFrame _) as [[]|]; try done.
  destruct (match el_roomId l with Some r => _ | None => _ end); [done|].
  assert (el_messages l' = el_messages l \/ el_messages l' = applyMessage event (el_messages l)) as Hc.
  { repeat case_match; simplify_eq; auto. }
  destruct Hc as [->| ->]; [by eauto 10 using Z.le_refl|].
  destruct (applyMessage_assoc event (el_messages l) k) as [-> | (core & Hcore & -> & Hrev)];
    [by eauto 10 using Z.le_refl|].
  rewrite Hm. eexists. split; [done|]. simpl. split_and!; try done. specialize (Hrev m Hm).
  apply parseCore_Some, parse_parsed_from in Hcore. pose proof (pf_revision _ _ Hcore) as Hr.
  simpl in Hr. injection Hr as Hr. lia.
Qed.

(** A revision that withdraws the reply does not: [??] falls through a [null], so the
    message keeps pointing at what it answered before. *)
Theorem withdrawn_reply_is_kept value l l' e k m q :
  append value l = Ok (appended, l') ->
  parseServerFrame (JObj [("type", JStr "event"); ("event", value)]%string) = Ok (FEvent e) ->
  parseCoreRoomEvent (envelopeJson e) = Ok (Some e) ->
  type e = "message.revised"%string -> payloadText "messageId" (payload e) = Some k ->
  assoc "replyTo"%string (payload e) = Some JNull ->
  assoc k (el_messages l) = Some m -> lm_revision m <= revision e -> lm_replyTo m = Some q ->
  exists m', assoc k (el_messages l') = Some m' /\ lm_eventId m' = eventId e /\ lm_replyTo m' = Some q.
Proof.
  intros Happ Hf Hc Ht Hk Hnull Hm Hrev Hq.
  destruct (append_appended _ _ _ _ Happ Hf) as [_ ->]. simpl. unfold applyMessage. rewrite Hc, Ht. simpl.
  rewrite Hk, Hm. rewrite (proj2 (Z.leb_le _ _) Hrev). rewrite assoc_map_set_eq.
  eexists. split; [done|]. simpl. split; [done|]. rewrite Ht. simpl.
  unfold payloadText. rewrite Hnull. simpl. done.
Qed.
End Ledger.

(** ** A conversation *)

Definition demoActor : string := "66666666-6666-4666-8666-666666666666".
Definition demoMessage : string := "77777777-7777-4777-8777-777777777777".
Definition demoReply : string := "88888888-8888-4888-8888-888888888888".
Definition demoMessageEvent (n : Z) (type : string) (op : EventOperation) (text : string) (replyTo : json)
    : RoomEventEnvelope :=
  Envelope (numberedUuid n) demoRoom n type demoActor human student n op
    "2024-01-01T00:00:00.000Z" "2024-01-01T00:00:00.000Z" demoCommand demoCommand
    [("messageId", JStr demoMessage); ("text", JStr text); ("replyTo", replyTo);
     ("mentions", JArr []); ("mediaIds", JArr [])]%string.
Definition demoHistory : list RoomEventEnvelope :=
  [demoMessageEvent 1 "message.added" add "plants" (JStr demoReply);
   demoMessageEvent 2 "message.revised" revise "plants breathe" JNull].

Lemma demoHistory_ok : room_history demoRoom demoHistory.
Proof.
  constructor.
  - repeat constructor.
  - reflexivity.
  - apply (bool_decide_unpack _). vm_compute. done.
  - repeat constructor; vm_compute; done.
Qed.
(** The second event, the first, the first again, the second: a reordered and repeated
    delivery. *)
Definition demoStream : list json :=
  map envelopeJson [demoMessageEvent 2 "message.revised" revise "plants breathe" JNull;
    demoMessageEvent 1 "message.added" add "plants" (JStr demoReply);
    demoMessageEvent 1 "message.added" add "plants" (JStr demoReply);
    demoMessageEvent 2 "message.revised" revise "plants breathe" JNull].
Lemma demoStream_ok : Forall (fun v => exists e, e ∈ demoHistory /\ v = envelopeJson e) demoStream.
Proof. repeat constructor; eexists; (split; [|reflexivity]); repeat first [left | right]. Qed.

Lemma ledger_exactly_once_witness :
  exists n, (n <= 2)%nat /\ ledgerEvents (deliverAll demoStream (newEventLedger (Some demoRoom))) = take n demoHistory.
Proof.
  destruct (ledger_exactly_once demoRoom demoHistory demoStream demoHistory_ok demoStream_ok)
    as (n & Hn & _ & He & _).
  exists n. split; [exact Hn|exact He].
Defined.

Lemma demoStream_complete : map envelopeJson demoHistory `sublist_of` demoStream.
Proof. do 2 apply sublist_cons || idtac. apply sublist_skip, sublist_skip, sublist_nil. Qed.

Lemma ledger_catches_up_witness :
  ledgerEvents (deliverAll demoStream (newEventLedger (Some demoRoom))) = demoHistory.
Proof.
  apply (ledger_catches_up demoRoom demoHistory demoStream demoHistory_ok demoStream_ok demoStream_complete).
Defined.

Definition demoLedger : EventLedger :=
  delivered (envelopeJson (demoMessageEvent 1 "message.added" add "plants" (JStr demoReply)))
    (newEventLedger (Some demoRoom)).
Definition demoRevision : RoomEventEnvelope := demoMessageEvent 2 "message.revised" revise "plants breathe" JNull.
Definition demoBefore : LedgerMessage :=
  Message demoMessage "plants" demoActor human student (numberedUuid 1) demoCommand 1 add
    "2024-01-01T00:00:00.000Z" 1 1 (Some demoReply) [] [].

Lemma demoLedger_message : assoc demoMessage (el_messages demoLedger) = Some demoBefore.
Proof. vm_compute. reflexivity. Qed.
Lemma demoRevision_appended :
  append (envelopeJson demoRevision) demoLedger = Ok (appended, delivered (envelopeJson demoRevision) demoLedger).
Proof. vm_compute. reflexivity. Qed.

Lemma message_author_is_fixed_witness :
  exists m', assoc demoMessage (el_messages (delivered (envelopeJson demoRevision) demoLedger)) = Some m'
    /\ lm_actorId m' = demoActor.
Proof.
  destruct (message_author_is_fixed _ _ _ _ _ _ demoRevision_appended demoLedger_message) as (m' & Hm & Ha & _).
  exists m'. split; [exact Hm|exact Ha].
Defined.

Lemma withdrawn_reply_is_kept_witness :
  exists m', assoc demoMessage (el_messages (delivered (envelopeJson demoRevision) demoLedger)) = Some m'
    /\ lm_eventId m' = eventId demoRevision /\ lm_replyTo m' = Some demoReply.
Proof.
  assert (parseServerFrame (JObj [("type", JStr "event"); ("event", envelopeJson demoRevision)]%string)
    = Ok (FEvent demoRevision)) as Hf by (vm_compute; done).
  assert (parseCoreRoomEvent (envelopeJson demoRevision) = Ok (Some demoRevision)) as Hc by (vm_compute; done).
  assert (lm_revision demoBefore <= revision demoRevision) as Hr by (vm_compute; done).
  exact (withdrawn_reply_is_kept _ _ _ _ _ _ _ demoRevision_appended Hf Hc eq_refl eq_refl eq_refl
    demoLedger_message Hr eq_refl).
Defined.
