(* ===== verification/RoomSocket.v ===== *)
(** * The browser's room socket: [apps/web/src/lib/realtime/room-socket.ts]

    A state machine that keeps the cursor of the last event it has handed on and the
    commands that are not acknowledged, reconnects with back-off, and stops for good
    on the codes by which the server says so. Its inputs are the calls of its user and
    the events of the platform (sockets, timers, promises); what it does to the outside
    (frames sent, sockets closed, callbacks called) is a log. Callbacks return: an
    exception of a callback is not modelled. *)
From S2P Require Import Prelude Text JsDate JsValue Contracts Database Concrete Frames JsMap ClientLedger.
#[local] Set Warnings "-register-all,-clear-no-such-hyp,-level-tolerance".

(** ** State *)

(** A socket of the platform: [readyState], absent for the test doubles, and whether
    [send] throws. *)
Record SocketLike : Type := Socket { so_readyState : option Z; so_sendFails : bool }.

Inductive output : Type :=
| Connected (socket : nat)
| Sent (socket : nat) (f : ClientFrame)
| SocketClosed (socket : nat) (code : Z)
| Sink (event : RoomEventEnvelope)
| Control (f : ServerFrame)
| ConnectionChange (connected : bool)
| SessionExpired
| RoomUnavailable (code : Z)
| ProtocolError.

Record room_socket : Type := RoomSocket {
  rs_roomId : string;
  rs_clientId : string;
  rs_lastRoomSeq : Z;
  rs_storage : list (string * string);
  rs_storageKey : string;
  rs_pending : list (string * RoomCommand);
  rs_clientSeq : Z;
  rs_retryDelays : list Z;
  rs_retryIndex : nat;
  rs_retryTimer : option Z;           (** the delay of the timer that runs *)
  rs_reconnectGate : option nat;      (** the promise of the recovery in flight *)
  rs_waiting : list nat;              (** promises a reconnection was chained to *)
  rs_socket : option nat;
  rs_factory : bool;                  (** [#connectFactory] is set *)
  rs_closed : bool;
  rs_resumeReady : bool;
  rs_sockets : list SocketLike;       (** the sockets the platform has made, by number *)
  rs_log : list output;               (** oldest first *)
}.

Definition set_cursor (n : Z) (st : list (string * string)) (s : room_socket) : room_socket :=
  RoomSocket (rs_roomId s) (rs_clientId s) n st (rs_storageKey s) (rs_pending s) (rs_clientSeq s)
    (rs_retryDelays s) (rs_retryIndex s) (rs_retryTimer s) (rs_reconnectGate s) (rs_waiting s) (rs_socket s)
    (rs_factory s) (rs_closed s) (rs_resumeReady s) (rs_sockets s) (rs_log s).
Definition set_pending (p : list (string * RoomCommand)) (s : room_socket) : room_socket :=
  RoomSocket (rs_roomId s) (rs_clientId s) (rs_lastRoomSeq s) (rs_storage s) (rs_storageKey s) p (rs_clientSeq s)
    (rs_retryDelays s) (rs_retryIndex s) (rs_retryTimer s) (rs_reconnectGate s) (rs_waiting s) (rs_socket s)
    (rs_factory s) (rs_closed s) (rs_resumeReady s) (rs_sockets s) (rs_log s).
Definition set_clientSeq (n : Z) (s : room_socket) : room_socket :=
  RoomSocket (rs_roomId s) (rs_clientId s) (rs_lastRoomSeq s) (rs_storage s) (rs_storageKey s) (rs_pending s) n
    (rs_retryDelays s) (rs_retryIndex s) (rs_retryTimer s) (rs_reconnectGate s) (rs_waiting s) (rs_socket s)
    (rs_factory s) (rs_closed s) (rs_resumeReady s) (rs_sockets s) (rs_log s).
Definition set_retry (i : nat) (t : option Z) (s : room_socket) : room_socket :=
  RoomSocket (rs_roomId s) (rs_clientId s) (rs_lastRoomSeq s) (rs_storage s) (rs_storageKey s) (rs_pending s)
    (rs_clientSeq s) (rs_retryDelays s) i t (rs_reconnectGate s) (rs_waiting s) (rs_socket s)
    (rs_factory s) (rs_closed s) (rs_resumeReady s) (rs_sockets s) (rs_log s).
Definition set_gate (g : option nat) (w : list nat) (s : room_socket) : room_socket :=
  RoomSocket (rs_roomId s) (rs_clientId s) (rs_lastRoomSeq s) (rs_storage s) (rs_storageKey s) (rs_pending s)
    (rs_clientSeq s) (rs_retryDelays s) (rs_retryIndex s) (rs_retryTimer s) g w (rs_socket s)
    (rs_factory s) (rs_closed s) (rs_resumeReady s) (rs_sockets s) (rs_log s).
Definition set_connection (k : option nat) (factory cl ready : bool) (s : room_socket) : room_socket :=
  RoomSocket (rs_roomId s) (rs_clientId s) (rs_lastRoomSeq s) (rs_storage s) (rs_storageKey s) (rs_pending s)
    (rs_clientSeq s) (rs_retryDelays s) (rs_retryIndex s) (rs_retryTimer s) (rs_reconnectGate s) (rs_waiting s) k
    factory cl ready (rs_sockets s) (rs_log s).
Definition set_sockets (l : list SocketLike) (s : room_socket) : room_socket :=
  RoomSocket (rs_roomId s) (rs_clientId s) (rs_lastRoomSeq s) (rs_storage s) (rs_storageKey s) (rs_pending s)
    (rs_clientSeq s) (rs_retryDelays s) (rs_retryIndex s) (rs_retryTimer s) (rs_reconnectGate s) (rs_waiting s)
    (rs_socket s) (rs_factory s) (rs_closed s) (rs_resumeReady s) l (rs_log s).
Definition add_log (o : output) (s : room_socket) : room_socket :=
  RoomSocket (rs_roomId s) (rs_clientId s) (rs_lastRoomSeq s) (rs_storage s) (rs_storageKey s) (rs_pending s)
    (rs_clientSeq s) (rs_retryDelays s) (rs_retryIndex s) (rs_retryTimer s) (rs_reconnectGate s) (rs_waiting s)
    (rs_socket s) (rs_factory s) (rs_closed s) (rs_resumeReady s) (rs_sockets s) (rs_log s ++ [o]).
Definition set_closed (b : bool) (s : room_socket) : room_socket :=
  set_connection (rs_socket s) (rs_factory s) b (rs_resumeReady s) s.
Definition set_resumeReady (b : bool) (s : room_socket) : room_socket :=
  set_connection (rs_socket s) (rs_factory s) (rs_closed s) b s.
Definition set_socket (k : option nat) (s : room_socket) : room_socket :=
  set_connection k (rs_factory s) (rs_closed s) (rs_resumeReady s) s.

Inductive socket_error : Type :=
| SE_SERVER_FRAME (e : frame_error)
| INVALID_CLIENT_FRAME
| INVALID_ROOM_COMMAND
| COMMAND_ID_CONFLICT
| PENDING_COMMAND_LIMIT
| SEND_FAILED
| JSON_SYNTAX.

Abbreviation SM := (M room_socket socket_error).

Definition MAX_PENDING_COMMANDS : Z := 100.
Definition DEFAULT_RETRY_DELAYS : list Z := [500; 1000; 2000; 4000; 8000].

(** [Number(storage.getItem(key) ?? "0")] of decimal digits, the only thing this class
    writes; the fractions, exponents and prefixes [Number] also reads are no number
    here. *)
Definition savedCursor (text : option string) : option Z :=
  match text with
  | None => Some 0
  | Some s => let digits := js_trim s in
              if forallb is_digit (list_ascii_of_string digits) then Some (dec_number digits) else None
  end.
(** The constructor. *)
Definition newRoomSocket (roomId clientId prefix : string) (storage : list (string * string))
    (delays : list Z) : room_socket :=
  let key := (prefix ++ ":" ++ roomId ++ ":seq")%string in
  let cursor := match savedCursor (assoc key storage) with
                | Some n => if decide (0 <= n <= MAX_SAFE_INTEGER) then n else 0
                | None => 0
                end in
  RoomSocket roomId clientId cursor storage key [] 0 delays 0 None None [] None false false false [] [].

(** ** Operations *)

Definition emit (o : output) : SM unit := modify (add_log o).
Definition currentSocket : SM (option nat) := gets rs_socket.

(** [isOpen]: the placeholder of a call without a socket is open and sends nothing. *)
Definition isOpen (sockets : list SocketLike) (k : option nat) : bool :=
  match k with
  | None => true
  | Some i => match sockets !! i with
              | Some so => match so_readyState so with None => true | Some r => r =? 1 end
              | None => true
              end
  end.

Section Socket.
Context `{Schemas}.

Definition encodeClientFrame (f : ClientFrame) : result socket_error ClientFrame :=
  if parseClientFrame (clientFrameJson f) is Some _ then Ok f else Err INVALID_CLIENT_FRAME.
Definition encodeRoomCommand (c : RoomCommand) : result socket_error json :=
  if parseRoomCommand (commandJson c) is Some _ then Ok (stringified (commandJson c))
  else Err INVALID_ROOM_COMMAND.

(** [socket.send(encodeClientFrame(frame))]. *)
Definition sendFrame (f : ClientFrame) (k : option nat) : SM unit :=
  g ← lift_result (encodeClientFrame f);
  match k with
  | None => mret tt
  | Some i =>
      s ← get_state;
      match rs_sockets s !! i with
      | Some so => _ ← throw_if (so_sendFails so) SEND_FAILED; emit (Sent i g)
      | None => emit (Sent i g)
      end
  end.
Definition closeSocket (k : option nat) (code : Z) : SM unit :=
  match k with Some i => emit (SocketClosed i code) | None => mret tt end.
Definition clearRetry : SM unit := modify (fun s => set_retry (rs_retryIndex s) None s).

(** [#scheduleReconnect]: the delays are used one after the other, the last one for
    good. *)
Definition retryDelay (delays : list Z) (i : nat) : option Z := delays !! Nat.min i (length delays - 1).
Definition scheduleReconnect : SM unit :=
  s ← get_state;
  if rs_closed s || negb (rs_factory s) || bool_decide (is_Some (rs_retryTimer s)) then mret tt
  else match retryDelay (rs_retryDelays s) (rs_retryIndex s) with
       | None => mret tt
       | Some delay => modify (set_retry (S (rs_retryIndex s)) (Some (Z.max 0 delay)))
       end.

(** The three ways [onClose] stops for good. *)
Definition stopWith (o : output) : SM unit :=
  _ ← modify (set_closed true);
  _ ← clearRetry;
  emit o.

Definition onClose (code : option Z) : SM unit :=
  s ← get_state;
  if rs_closed s then mret tt else
  _ ← modify (set_socket None);
  _ ← modify (set_resumeReady false);
  _ ← emit (ConnectionChange false);
  if decide (code = Some 4400) then stopWith ProtocolError
  else if decide (code = Some 4401) then stopWith SessionExpired
  else if decide (code = Some 4403) then stopWith (RoomUnavailable 4403)
  else if decide (code = Some 4410) then stopWith (RoomUnavailable 4410)
  else if decide (code = Some 4409 /\ rs_reconnectGate s = None) then stopWith ProtocolError
  else match rs_reconnectGate s with
       | Some gate => modify (fun s => set_gate (rs_reconnectGate s) (rs_waiting s ++ [gate]) s)
       | None => scheduleReconnect
       end.

(** The end of [send]: a socket that cannot take the command is closed. *)
Definition transmit (stable : RoomCommand) (k : option nat) : SM unit :=
  s ← get_state;
  if rs_resumeReady s && isOpen (rs_sockets s) k then
    try_catch (sendFrame (CCommand stable) k) (fun _ =>
      _ ← closeSocket k 1011;
      if bool_decide (k <> None) && bool_decide (rs_socket s = k) then onClose None else mret tt)
  else mret tt.

(** [send(command, socket)]. *)
Definition send (command : RoomCommand) (k : option nat) : SM unit :=
  encoded ← lift_result (encodeRoomCommand command);
  s ← get_state;
  let existing := assoc (cm_commandId command) (rs_pending s) in
  _ ← match existing with
      | Some e =>
          other ← lift_result (encodeRoomCommand e);
          throw_if (negb (bool_decide (other = encoded))) COMMAND_ID_CONFLICT
      | None => throw_if (MAX_PENDING_COMMANDS <=? rowCount (rs_pending s)) PENDING_COMMAND_LIMIT
      end;
  let stable := match existing with Some e => e | None => command end in
  _ ← match existing with
      | Some _ => mret tt
      | None => modify (fun s => set_pending (map_set (cm_commandId command) stable (rs_pending s)) s)
      end;
  transmit stable k.

(** [#flushPending]. *)
Fixpoint sendEach (commands : list RoomCommand) (k : option nat) : SM unit :=
  match commands with
  | [] => mret tt
  | c :: commands' => _ ← send c k; sendEach commands' k
  end.
Definition flushPending (k : option nat) : SM unit :=
  s ← get_state; sendEach (map snd (rs_pending s)) k.

(** [#sendEphemeral]: best effort, and a number is used up only by a frame the socket
    has taken. *)
Definition sendEphemeral (frame : Z -> ClientFrame) (k : option nat) : SM unit :=
  s ← get_state;
  match k with
  | None => mret tt
  | Some _ =>
      if negb (rs_resumeReady s) || negb (isOpen (rs_sockets s) k) then mret tt
      else
        let n := rs_clientSeq s + 1 in
        try_catch (_ ← sendFrame (frame n) k; modify (set_clientSeq n)) (fun _ => mret tt)
  end.
Definition sendPresence (state : PresenceState) (k : option nat) : SM unit := sendEphemeral (CPresence state) k.
Definition sendTyping (is_active : bool) (k : option nat) : SM unit := sendEphemeral (CTyping is_active) k.

Definition hello (s : room_socket) : ClientFrame := CHello (rs_clientId s) (rs_lastRoomSeq s).
Definition sendHello (k : option nat) : SM unit := s ← get_state; sendFrame (hello s) k.

(** [#acceptCursor]. *)
Definition acceptCursor (seq : Z) : SM unit :=
  s ← get_state;
  if negb (bool_decide (Z.abs seq <= MAX_SAFE_INTEGER)) || (seq <? rs_lastRoomSeq s) then mret tt
  else modify (set_cursor seq (map_set (rs_storageKey s) (dec_string seq) (rs_storage s))).
(** [#acceptEvent]. *)
Definition acceptEvent (event : RoomEventEnvelope) : SM unit :=
  s ← get_state;
  if negb (bool_decide (roomId event = rs_roomId s)) || (roomSeq event <=? rs_lastRoomSeq s) then mret tt
  else if negb (bool_decide (roomSeq event = rs_lastRoomSeq s + 1)) then
    emit (Control (FSnapshotRequired (rs_lastRoomSeq s) (roomSeq event - 1)))
  else
    _ ← acceptCursor (roomSeq event);
    emit (Sink event).

Definition onFrame (value : json) (k : option nat) : SM unit :=
  match parseServerFrame value with
  | Err e => throw (SE_SERVER_FRAME e)
  | Ok (FEvent event) => acceptEvent event
  | Ok (FResumeComplete through) =>
      s ← get_state;
      if negb (bool_decide (through = rs_lastRoomSeq s)) then
        emit (Control (FSnapshotRequired (rs_lastRoomSeq s) (Z.max (rs_lastRoomSeq s) through)))
      else
        _ ← modify (fun s => set_retry 0 (rs_retryTimer s) s);
        _ ← modify (set_resumeReady true);
        _ ← emit (ConnectionChange true);
        _ ← flushPending k;
        emit (Control (FResumeComplete through))
  | Ok (FAck commandId seq rev) =>
      _ ← modify (fun s => set_pending (map_delete commandId (rs_pending s)) s);
      emit (Control (FAck commandId seq rev))
  | Ok (FReject commandId code again) =>
      _ ← match commandId, again with
          | Some i, (None | Some false) =>
              if decide (i = ""%string) then mret tt
              else modify (fun s => set_pending (map_delete i (rs_pending s)) s)
          | _, _ => mret tt
          end;
      emit (Control (FReject commandId code again))
  | Ok frame => emit (Control frame)
  end.

(** [connect(factory)]: the factory makes the socket [so]. *)
Definition connect (so : SocketLike) : SM nat :=
  _ ← modify (set_closed false);
  _ ← modify (set_resumeReady false);
  _ ← modify (fun s => set_connection (rs_socket s) true (rs_closed s) (rs_resumeReady s) s);
  _ ← clearRetry;
  _ ← emit (ConnectionChange false);
  previous ← currentSocket;
  _ ← modify (set_socket None);
  _ ← closeSocket previous 1000;
  s ← get_state;
  let k := length (rs_sockets s) in
  _ ← modify (set_sockets (rs_sockets s ++ [so]));
  _ ← emit (Connected k);
  _ ← modify (set_socket (Some k));
  s ← get_state;
  _ ← (if isOpen (rs_sockets s) (Some k) then sendHello (Some k) else mret tt);
  mret k.

(** [#protocolFailure]. *)
Definition protocolFailure (k : nat) : SM unit :=
  s ← get_state;
  if rs_closed s then mret tt else
  _ ← modify (set_closed true);
  _ ← clearRetry;
  _ ← (if decide (rs_socket s = Some k) then modify (set_socket None) else mret tt);
  _ ← emit (ConnectionChange false);
  _ ← closeSocket (Some k) 4400;
  emit ProtocolError.

(** The listeners [connect] registers on the socket [k]. *)
Definition onOpenEvent (k : nat) : SM unit :=
  s ← get_state;
  if negb (rs_closed s) && bool_decide (rs_socket s = Some k) then sendHello (Some k) else mret tt.
Definition onMessageEvent (k : nat) (data : option json) : SM unit :=
  s ← get_state;
  if rs_closed s || negb (bool_decide (rs_socket s = Some k)) then mret tt
  else try_catch (match data with
                  | None => throw JSON_SYNTAX
                  | Some value => onFrame value (Some k)
                  end)
                 (fun _ => protocolFailure k).
Definition onCloseEvent (k : nat) (code : option Z) : SM unit :=
  s ← get_state;
  if decide (rs_socket s = Some k) then onClose code else mret tt.

(** The timer of [#scheduleReconnect]. *)
Definition onRetryTimer (so : SocketLike) : SM unit :=
  s ← get_state;
  match rs_retryTimer s with
  | None => mret tt
  | Some _ =>
      _ ← clearRetry;
      if negb (rs_closed s) && rs_factory s then _ ← connect so; mret tt else mret tt
  end.

Fixpoint remove_first (x : nat) (l : list nat) : list nat :=
  match l with
  | [] => []
  | y :: l' => if decide (x = y) then l' else y :: remove_first x l'
  end.
(** The continuation [onClose] chained to the promise [gate]. *)
Definition onGate (gate : nat) (fulfilled : bool) : SM unit :=
  s ← get_state;
  if decide (gate ∈ rs_waiting s) then
    _ ← modify (fun s => set_gate (if decide (rs_reconnectGate s = Some gate) then None else rs_reconnectGate s)
                  (remove_first gate (rs_waiting s)) s);
    if fulfilled then scheduleReconnect else mret tt
  else mret tt.

Definition deferReconnectUntil (gate : nat) : SM unit :=
  modify (fun s => set_gate (Some gate) (rs_waiting s) s).

Definition close : SM unit :=
  _ ← modify (set_closed true);
  _ ← modify (set_resumeReady false);
  _ ← clearRetry;
  k ← currentSocket;
  _ ← closeSocket k 1000;
  _ ← modify (set_socket None);
  emit (ConnectionChange false).

Definition destroy : SM unit :=
  _ ← close;
  modify (fun s => RoomSocket "" (rs_clientId s) 0 (map_delete (rs_storageKey s) (rs_storage s)) "" [] 0
    (rs_retryDelays s) (rs_retryIndex s) (rs_retryTimer s) None (rs_waiting s) (rs_socket s)
    false (rs_closed s) (rs_resumeReady s) (rs_sockets s) (rs_log s)).
End Socket.

(** ** The machine *)

(** What can happen to the client: the calls of its user, and the platform. *)
Inductive input : Type :=
| ISend (command : RoomCommand)
| IPresence (state : PresenceState)
| ITyping (is_active : bool)
| IConnect (so : SocketLike)
| IDefer (gate : nat)
| IClose
| IDestroy
| IFrame (value : json)
| IOpenEvent (k : nat)
| IMessageEvent (k : nat) (data : option json)
| ICloseEvent (k : nat) (code : option Z)
| ITimer (so : SocketLike)
| IGate (gate : nat) (fulfilled : bool)
| ISocketState (k : nat) (so : SocketLike).     (** a socket opens, closes, breaks *)

Section Machine.
Context `{Schemas}.

Definition handle (i : input) : SM unit :=
  match i with
  | ISend c => k ← currentSocket; send c k
  | IPresence st => k ← currentSocket; sendPresence st k
  | ITyping b => k ← currentSocket; sendTyping b k
  | IConnect so => _ ← connect so; mret tt
  | IDefer gate => deferReconnectUntil gate
  | IClose => close
  | IDestroy => destroy
  | IFrame value => k ← currentSocket; onFrame value k
  | IOpenEvent k => onOpenEvent k
  | IMessageEvent k data => onMessageEvent k data
  | ICloseEvent k code => onCloseEvent k code
  | ITimer so => onRetryTimer so
  | IGate gate b => onGate gate b
  | ISocketState k so => modify (fun s => set_sockets (<[k:=so]> (rs_sockets s)) s)
  end.
(** An exception reaches the caller; the state is what it was when it was thrown. *)
Definition step (s : room_socket) (i : input) : room_socket := snd (handle i s).
Definition run (s : room_socket) (ins : list input) : room_socket := fold_left step ins s.

(** An invariant of every input is an invariant of every run. *)
Lemma run_invariant (I : room_socket -> Prop) ins s :
  Forall (fun i => preserves I (handle i)) ins -> I s -> I (run s ins).
Proof.
  intros Hi. revert s. induction Hi as [|i ins Hp _ IH]; intros s Hs; [done|]. apply IH.
  unfold step. destruct (handle i s) as [r s'] eqn:E. by eapply Hp.
Qed.
End Machine.

(** ** Invariants the connection is not in *)

(** Outputs other than events handed on and ephemeral frames. *)
Definition plain (o : output) : Prop :=
  match o with Sink _ => False | Sent _ (CPresence _ _ | CTyping _ _) => False | _ => True end.

(** An assertion that does not look at the connection, the timer, the gate and the
    plain part of the log. *)
Record insensitive (I : room_socket -> Prop) : Prop := {
  in_retry i t s : I s -> I (set_retry i t s);
  in_gate g w s : I s -> I (set_gate g w s);
  in_connection k f c r s : I s -> I (set_connection k f c r s);
  in_sockets l s : I s -> I (set_sockets l s);
  in_log o s : plain o -> I s -> I (add_log o s);
}.

Section Insensitive.
Context `{Schemas} (I : room_socket -> Prop) (HI : insensitive I).

#[local] Hint Extern 2 (preserves I (modify _)) =>
  apply preserves_modify; intros;
  first [apply (in_retry I HI)|apply (in_gate I HI)|apply (in_connection I HI)|apply (in_sockets I HI)];
  assumption : preserve.

Lemma keep_emit o : plain o -> preserves I (emit o).
Proof. intros Ho. apply preserves_modify. intros. by apply (in_log I HI). Qed.
#[local] Hint Extern 2 (preserves I (emit _)) => apply keep_emit; exact Logic.I : preserve.
Lemma keep_currentSocket : preserves I currentSocket.
Proof. apply preserves_gets. Qed.
#[local] Hint Resolve keep_currentSocket : preserve.
Lemma keep_sendFrame f k : (forall i s, I s -> I (add_log (Sent i f) s)) -> preserves I (sendFrame f k).
Proof.
  intros Hf. unfold sendFrame. unfold encodeClientFrame. destruct (parseClientFrame _) as [g|];
    [|intros s r s' Hs [= <- <-]; done].
  intros s r s' Hs. unfold mbind, M_bind, lift_result. simpl. destruct k as [i|]; [|by intros [= <- <-]].
  assert (preserves I (emit (Sent i f))) as He by (apply preserves_modify; auto).
  revert s r s' Hs. change (preserves I (s ← get_state;
    match rs_sockets s !! i with
    | Some so => _ ← throw_if (so_sendFails so) SEND_FAILED; emit (Sent i f)
    | None => emit (Sent i f)
    end)). preserve; try done.
Qed.
Lemma keep_closeSocket k code : preserves I (closeSocket k code).
Proof. unfold closeSocket. preserve. Qed.
Lemma keep_clearRetry : preserves I clearRetry.
Proof. unfold clearRetry. preserve. Qed.
#[local] Hint Resolve keep_closeSocket keep_clearRetry : preserve.
Lemma keep_scheduleReconnect : preserves I scheduleReconnect.
Proof. unfold scheduleReconnect. preserve. Qed.
Lemma keep_stopWith o : plain o -> preserves I (stopWith o).
Proof. intros Ho. unfold stopWith, set_closed. preserve. by apply keep_emit. Qed.
#[local] Hint Resolve keep_scheduleReconnect : preserve.
#[local] Hint Extern 2 (preserves I (stopWith _)) => apply keep_stopWith; exact Logic.I : preserve.
Lemma keep_onClose code : preserves I (onClose code).
Proof. unfold onClose, set_socket, set_resumeReady. preserve. Qed.
#[local] Hint Resolve keep_onClose : preserve.
Lemma keep_sendHello k : preserves I (sendHello k).
Proof. unfold sendHello. preserve. apply keep_sendFrame. intros. by apply (in_log I HI). Qed.
#[local] Hint Resolve keep_sendHello : preserve.
Lemma keep_connect so : preserves I (connect so).
Proof. unfold connect, set_closed, set_resumeReady, set_socket. preserve. Qed.
Lemma keep_protocolFailure k : preserves I (protocolFailure k).
Proof. unfold protocolFailure, set_closed, set_socket. preserve. Qed.
#[local] Hint Resolve keep_connect keep_protocolFailure : preserve.
Lemma keep_onOpenEvent k : preserves I (onOpenEvent k).
Proof. unfold onOpenEvent. preserve. Qed.
Lemma keep_onCloseEvent k code : preserves I (onCloseEvent k code).
Proof. unfold onCloseEvent. preserve. Qed.
Lemma keep_onRetryTimer so : preserves I (onRetryTimer so).
Proof. unfold onRetryTimer. preserve. Qed.
Lemma keep_onGate g b : preserves I (onGate g b).
Proof. unfold onGate. preserve. Qed.
Lemma keep_close : preserves I close.
Proof. unfold close, set_closed, set_resumeReady, set_socket. preserve. Qed.

(** An insensitive assertion has to be checked where events are handed on, where
    commands come and go and where ephemeral frames are numbered. *)
Hypothesis Hsend : forall c k, preserves I (send c k).
Hypothesis Hephemeral : forall f k, preserves I (sendEphemeral f k).

Lemma keep_flushPending k : preserves I (flushPending k).
Proof.
  unfold flushPending. preserve. generalize (map snd (rs_pending a)). intros l.
  induction l as [|c l IH]; simpl; [apply preserves_ret|]. by preserve.
Qed.

(** What a frame asks for besides the plain effects. *)
Definition frame_effects_ok (f : ServerFrame) : Prop :=
  match f with
  | FEvent e => preserves I (acceptEvent e)
  | FAck i _ _ | FReject (Some i) _ (None | Some false) =>
      forall s, I s -> I (set_pending (map_delete i (rs_pending s)) s)
  | _ => True
  end.
Lemma keep_onFrame value k :
  (forall f, parseServerFrame value = Ok f -> frame_effects_ok f) -> preserves I (onFrame value k).
Proof.
  intros Hf. unfold onFrame. destruct (parseServerFrame value) as [f|]; [|apply preserves_throw].
  specialize (Hf f eq_refl).
  assert (forall s, I s -> I (set_resumeReady true s)) by (intros; by apply (in_connection I HI)).
  destruct f as [| |[i|] c [[]|]| | | | | | | | | |]; simpl in Hf; try exact Hf; preserve;
    try (by apply keep_flushPending); try (apply preserves_modify; auto); by apply (in_connection I HI).
Qed.
Lemma keep_onMessageEvent k data :
  (forall value f, data = Some value -> parseServerFrame value = Ok f -> frame_effects_ok f) ->
  preserves I (onMessageEvent k data).
Proof.
  intros Hf. unfold onMessageEvent. preserve. apply keep_onFrame. eauto.
Qed.

(** The condition an input puts on an insensitive assertion. *)
Definition input_ok (i : input) : Prop :=
  match i with
  | IDestroy => False
  | IFrame value | IMessageEvent _ (Some value) => forall f, parseServerFrame value = Ok f -> frame_effects_ok f
  | _ => True
  end.
Lemma keep_handle i : input_ok i -> preserves I (handle i).
Proof.
  destruct i; simpl; intros Hi; preserve; try done; unfold sendPresence, sendTyping, deferReconnectUntil;
    eauto using keep_onFrame, keep_onOpenEvent, keep_onCloseEvent, keep_onRetryTimer, keep_onGate, keep_close
      with preserve.
  apply keep_onMessageEvent. intros v f -> Hp. by apply Hi.
Qed.
End Insensitive.

(** ** The cursor *)

Section Cursor.
Context `{Schemas}.

(** The events handed on, in order. *)
Definition sunk (l : list output) : list RoomEventEnvelope :=
  omap (fun o => match o with Sink e => Some e | _ => None end) l.
Definition safeSeq (e : RoomEventEnvelope) : bool := bool_decide (roomSeq e <= MAX_SAFE_INTEGER).

(** Since it started at [start], the client of room [r] has handed on the events that
    follow [start], one by one; the storage has the number of the last one. *)
Record cursor_ok (r key : string) (start : Z) (s : room_socket) : Prop := {
  cu_room : rs_roomId s = r;
  cu_key : rs_storageKey s = key;
  cu_room_events : Forall (fun e => roomId e = r) (sunk (rs_log s));
  cu_events : exists n, map roomSeq (List.filter safeSeq (sunk (rs_log s))) = seqFrom (start + 1) n
    /\ rs_lastRoomSeq s = start + Z.of_nat n
    /\ (n <> O -> assoc key (rs_storage s) = Some (dec_string (rs_lastRoomSeq s)));
  cu_bound : 0 <= start /\ rs_lastRoomSeq s <= MAX_SAFE_INTEGER;
}.

Lemma sunk_app l o : sunk (l ++ [o]) = sunk l ++ match o with Sink e => [e] | _ => [] end.
Proof. unfold sunk. rewrite omap_app. by destruct o. Qed.

Lemma cursor_ok_same r key start s s' :
  rs_roomId s' = rs_roomId s -> rs_storageKey s' = rs_storageKey s -> rs_storage s' = rs_storage s ->
  rs_lastRoomSeq s' = rs_lastRoomSeq s -> sunk (rs_log s') = sunk (rs_log s) ->
  cursor_ok r key start s -> cursor_ok r key start s'.
Proof. intros E1 E2 E3 E4 E5 [? ? ? ? ?]. constructor; rewrite ?E1, ?E2, ?E3, ?E4, ?E5; done. Qed.

Lemma cursor_insensitive r key start : insensitive (cursor_ok r key start).
Proof.
  constructor; intros *; try (by apply cursor_ok_same). intros Ho. apply cursor_ok_same; try done.
  simpl. rewrite sunk_app. destruct o; simpl; by rewrite ?app_nil_r.
Qed.

Lemma acceptEvent_cursor r key start e : 1 <= roomSeq e -> preserves (cursor_ok r key start) (acceptEvent e).
Proof.
  intros Hpos s res s' Hc. unfold acceptEvent. rewrite (bind_run _ _ _ s s) by done.
  destruct (negb (bool_decide (roomId e = rs_roomId s)) || _) eqn:Hr; [by intros [= <- <-]|].
  apply orb_false_iff in Hr as [Hr%negb_false_iff Hgt]. apply bool_decide_eq_true in Hr.
  destruct (negb _) eqn:Hn.
  { intros [= <- <-]. by apply (in_log _ (cursor_insensitive r key start)). }
  apply negb_false_iff, bool_decide_eq_true in Hn.
  destruct Hc as [Hroom Hkey Hfor (n & Hev & Hlast & Hst) [Hs0 Hb]].
  unfold acceptCursor, emit. unfold mbind, M_bind, get_state, modify. simpl.
  destruct (negb (bool_decide (Z.abs (roomSeq e) <= MAX_SAFE_INTEGER)) || _) eqn:Hsafe.
  - intros [= <- <-]. apply orb_true_iff in Hsafe as [Hs|Hs]; [|apply Z.ltb_lt in Hs; lia].
    apply negb_true_iff, bool_decide_eq_false in Hs.
    constructor; simpl; try done.
    + rewrite sunk_app. apply Forall_app. split; [done|]. constructor; [congruence|constructor].
    + exists n. rewrite sunk_app, List.filter_app. simpl. unfold safeSeq at 2.
      rewrite bool_decide_eq_false_2 by (unfold MAX_SAFE_INTEGER in *; lia). by rewrite app_nil_r.
  - intros [= <- <-]. apply orb_false_iff in Hsafe as [Hs%negb_false_iff _]. apply bool_decide_eq_true in Hs.
    constructor; simpl; try done.
    + rewrite sunk_app. apply Forall_app. split; [done|]. constructor; [congruence|constructor].
    + exists (S n). rewrite sunk_app, List.filter_app, map_app, Hev, seqFrom_snoc. simpl. unfold safeSeq.
      rewrite bool_decide_eq_true_2 by lia. simpl. split_and!; [f_equal; f_equal; lia|lia|].
      intros _. rewrite Hkey. apply assoc_map_set_eq.
    + split; [done|lia].
Qed.

Lemma transmit_keeps (I : room_socket -> Prop) c k : insensitive I -> preserves I (transmit c k).
Proof.
  intros HI. unfold transmit. preserve.
  - apply (keep_sendFrame I). intros. by apply (in_log I HI).
  - by apply keep_closeSocket.
  - by apply keep_onClose.
Qed.
Lemma send_keeps (I : room_socket -> Prop) c k :
  insensitive I -> (forall s p, I s -> I (set_pending p s)) -> preserves I (send c k).
Proof.
  intros HI Hp. unfold send. preserve; try (by apply preserves_modify; auto).
  by apply transmit_keeps.
Qed.
Lemma sendEphemeral_keeps (I : room_socket -> Prop) f k :
  insensitive I -> (forall n, preserves I (sendFrame (f n) k)) -> (forall n s, I s -> I (set_clientSeq n s)) ->
  preserves I (sendEphemeral f k).
Proof. intros HI Hf Hn. unfold sendEphemeral. preserve; try done. by apply preserves_modify; auto. Qed.

Lemma cursor_input r key start i : i <> IDestroy -> preserves (cursor_ok r key start) (handle i).
Proof.
  intros Hi. pose proof (cursor_insensitive r key start) as HI.
  assert (forall f, (exists v, parseServerFrame v = Ok f) -> frame_effects_ok (cursor_ok r key start) f) as Hf.
  { intros f [v Hv]. destruct f as [| |[j|] c [[]|]| | | | | | | | | |]; simpl; try done;
      try (intros s; by apply (cursor_ok_same r key start s)).
    apply acceptEvent_cursor. eapply ok_seq, readServerFrame_event, parseServerFrame_read, Hv. }
  apply keep_handle; try done.
  - intros. apply send_keeps; [done|]. intros s p. by apply (cursor_ok_same r key start s).
  - intros. apply sendEphemeral_keeps; [done| |intros n s; by apply (cursor_ok_same r key start s)].
    intros. apply (keep_sendFrame _). intros j s. apply cursor_ok_same; try done. simpl.
    rewrite sunk_app. by rewrite app_nil_r.
  - destruct i as [| | | | | | | | |k [v|]| | | |]; simpl; eauto.
Qed.

Lemma newRoomSocket_bounds r cid prefix storage delays :
  0 <= rs_lastRoomSeq (newRoomSocket r cid prefix storage delays) <= MAX_SAFE_INTEGER.
Proof.
  unfold newRoomSocket. simpl. destruct (savedCursor _); [case_decide|]; unfold MAX_SAFE_INTEGER in *; lia.
Qed.

(** The cursor of a browser moves over the events of its room one by one. From the
    moment the client is made, whatever its user, the server and the network do until it
    is destroyed, the events it hands on are those of its room, and their numbers follow
    the number it started from without a gap and without a repetition; the storage holds
    the number of the last one, so that a client made later from the same storage starts
    there. *)
Theorem socket_cursor r cid prefix storage delays ins :
  Forall (fun i => i <> IDestroy) ins ->
  let s0 := newRoomSocket r cid prefix storage delays in
  let s := run s0 ins in
  Forall (fun e => roomSeq e <= MAX_SAFE_INTEGER) (sunk (rs_log s)) ->
  exists n, map roomSeq (sunk (rs_log s)) = seqFrom (rs_lastRoomSeq s0 + 1) n
    /\ Forall (fun e => roomId e = r) (sunk (rs_log s))
    /\ rs_lastRoomSeq s = rs_lastRoomSeq s0 + Z.of_nat n
    /\ (n <> O -> assoc (prefix ++ ":" ++ r ++ ":seq")%string (rs_storage s)
                   = Some (dec_string (rs_lastRoomSeq s))).
Proof.
  intros Hins s0 s Hsafe.
  assert (cursor_ok r (prefix ++ ":" ++ r ++ ":seq") (rs_lastRoomSeq s0) s) as [_ _ Hfor (n & Hn & Hl & Hst) _].
  { apply (run_invariant _ ins); [eapply Forall_impl; [exact Hins|intros; by apply cursor_input]|].
    constructor; simpl; try done; [exists O; split_and!; [done|lia|done]|].
    by destruct (newRoomSocket_bounds r cid prefix storage delays). }
  exists n. rewrite <- Hn. split_and!; try done. f_equal. clear -Hsafe.
  induction Hsafe as [|e l He _ IH]; [done|]. simpl. unfold safeSeq at 1.
  rewrite bool_decide_eq_true_2 by done. by rewrite <- IH.
Qed.
End Cursor.

(** ** Commands *)

Section Pending.
Context `{Schemas}.

(** At most a hundred commands wait, each under its own identifier and each valid. *)
Record pending_ok (s : room_socket) : Prop := {
  po_bound : rowCount (rs_pending s) <= MAX_PENDING_COMMANDS;
  po_keys : NoDup (map fst (rs_pending s));
  po_valid : Forall (fun e => fst e = cm_commandId (snd e)
                      /\ is_Some (parseRoomCommand (commandJson (snd e)))) (rs_pending s);
}.

Lemma pending_ok_same s s' : rs_pending s' = rs_pending s -> pending_ok s -> pending_ok s'.
Proof. intros E [? ? ?]. constructor; by rewrite E. Qed.
Lemma pending_insensitive : insensitive pending_ok.
Proof. constructor; intros; (eapply pending_ok_same; [|eassumption]; done). Qed.
Lemma encodeRoomCommand_ok c j (s s' : room_socket) :
  lift_result (encodeRoomCommand c) s = (Ok j, s') -> is_Some (parseRoomCommand (commandJson c)) /\ s' = s.
Proof.
  unfold lift_result, encodeRoomCommand. destruct (parseRoomCommand _); [|done].
  intros [= _ <-]. eauto.
Qed.
Lemma acceptEvent_untouched (I : room_socket -> Prop) e :
  (forall n st s, I s -> I (set_cursor n st s)) -> (forall o s, I s -> I (add_log o s)) ->
  preserves I (acceptEvent e).
Proof.
  intros Hc Hl. unfold acceptEvent, acceptCursor, emit.
  preserve; apply preserves_modify; auto.
Qed.

(** What [send] does to the commands: nothing, or it adds the new one. *)
Lemma send_pending (I : room_socket -> Prop) c k :
  insensitive I ->
  (forall s, I s -> assoc (cm_commandId c) (rs_pending s) = None -> rowCount (rs_pending s) < MAX_PENDING_COMMANDS ->
             is_Some (parseRoomCommand (commandJson c)) ->
             I (set_pending (map_set (cm_commandId c) c (rs_pending s)) s)) ->
  preserves I (send c k).
Proof.
  intros HI Hadd s r s' Hs. unfold send. intros Hr.
  unfold mbind, M_bind in Hr.
  destruct (lift_result (encodeRoomCommand c) s) as [[j|e] s1] eqn:Ej;
    [|unfold lift_result in Ej; by simplify_eq].
  apply encodeRoomCommand_ok in Ej as [Hv ->]. simpl in Hr.
  destruct (assoc (cm_commandId c) (rs_pending s)) as [old|] eqn:Ha.
  - destruct (encodeRoomCommand old) as [j'|e']; [|by simplify_eq].
    unfold throw_if in Hr. destruct (negb _); [unfold throw in Hr; by simplify_eq|]. simpl in Hr.
    exact (transmit_keeps I _ _ HI _ _ _ Hs Hr).
  - unfold throw_if in Hr. destruct (_ <=? _) eqn:Hb; [unfold throw in Hr; by simplify_eq|].
    simpl in Hr. apply Z.leb_gt in Hb. exact (transmit_keeps I _ _ HI _ _ _ (Hadd s Hs Ha Hb Hv) Hr).
Qed.

Lemma filter_length {A} (p : A -> bool) l : (length (List.filter p l) <= length l)%nat.
Proof. induction l as [|x l IH]; simpl; [lia|]. destruct (p x); simpl; lia. Qed.
Lemma pending_ok_delete j s : pending_ok s -> pending_ok (set_pending (map_delete j (rs_pending s)) s).
Proof.
  intros [Hb Hk Hv]. constructor; simpl; [|by apply map_delete_NoDup|by apply map_delete_Forall].
  unfold rowCount, map_delete in *.
  pose proof (filter_length (fun e => negb (bool_decide (fst e = j))) (rs_pending s)). lia.
Qed.
Lemma pending_ok_add c s :
  pending_ok s -> assoc (cm_commandId c) (rs_pending s) = None ->
  rowCount (rs_pending s) < MAX_PENDING_COMMANDS -> is_Some (parseRoomCommand (commandJson c)) ->
  pending_ok (set_pending (map_set (cm_commandId c) c (rs_pending s)) s).
Proof.
  intros [Hb Hk Hv] Hn Hlt Hc. constructor; simpl; [|by apply map_set_NoDup|by apply map_set_Forall].
  unfold rowCount in *. rewrite map_set_length. case_decide; lia.
Qed.

(** Assertions about the commands that wait, at every input. *)
Lemma commands_input (I : room_socket -> Prop) i :
  insensitive I -> (forall s s', rs_pending s' = rs_pending s -> I s -> I s') ->
  (forall c s, I s -> assoc (cm_commandId c) (rs_pending s) = None ->
     rowCount (rs_pending s) < MAX_PENDING_COMMANDS -> is_Some (parseRoomCommand (commandJson c)) ->
     I (set_pending (map_set (cm_commandId c) c (rs_pending s)) s)) ->
  input_ok I i -> preserves I (handle i).
Proof.
  intros HI Hsame Hadd Hi. apply keep_handle; try done.
  - intros. apply send_pending; [done|]. auto.
  - intros. apply sendEphemeral_keeps; [done| |intros n s; by apply Hsame].
    intros. apply (keep_sendFrame _). intros j s. by apply Hsame.
Qed.

Lemma acceptEvent_commands (I : room_socket -> Prop) e :
  (forall s s', rs_pending s' = rs_pending s -> I s -> I s') -> preserves I (acceptEvent e).
Proof. intros Hsame. apply acceptEvent_untouched; intros *; by apply Hsame. Qed.

Lemma pending_input i : preserves pending_ok (handle i).
Proof.
  assert (forall f, frame_effects_ok pending_ok f) as Hf.
  { intros f. destruct f as [| |[j|] c [[]|]| | | | | | | | | |]; simpl; try done;
      try (intros s; apply pending_ok_delete). apply acceptEvent_commands, pending_ok_same. }
  assert (i <> IDestroy -> preserves pending_ok (handle i)) as Hkeep.
  { intros Hi. apply commands_input; try done; [apply pending_insensitive|apply pending_ok_same| |].
    - intros c s. apply pending_ok_add.
    - destruct i as [| | | | | | | | |k [v|]| | | |]; simpl; auto. }
  destruct i; try (by apply Hkeep). simpl. unfold destroy. preserve.
  - apply keep_close, pending_insensitive.
  - apply preserves_modify. intros s Hs. constructor; simpl; [|constructor..].
    unfold rowCount, MAX_PENDING_COMMANDS. simpl. lia.
Qed.

Lemma reachable_pending r cid prefix storage delays ins :
  pending_ok (run (newRoomSocket r cid prefix storage delays) ins).
Proof.
  apply (run_invariant _ ins); [by apply Forall_forall; intros; apply pending_input|].
  constructor; simpl; [|constructor..]. unfold rowCount, MAX_PENDING_COMMANDS. simpl. lia.
Qed.

(** The inputs that settle a command: its acknowledgement, a rejection that is final,
    and the end of the client. *)
Definition settles (i : input) (id : string) : bool :=
  match i with
  | IDestroy => true
  | IFrame value | IMessageEvent _ (Some value) =>
      match parseServerFrame value with
      | Ok (FAck j _ _) => bool_decide (j = id)
      | Ok (FReject (Some j) _ (None | Some false)) => bool_decide (j = id)
      | _ => false
      end
  | _ => false
  end.

(** No command is lost: a command that waits still waits, unchanged, after anything
    that happens to the client - a reconnection, a failed send, an event, the
    acknowledgement of another command - except its own acknowledgement, its own final
    rejection and the destruction of the client; and never more than a hundred wait,
    each valid and under its own identifier. *)
Theorem pending_commands r cid prefix storage delays ins i id c :
  let s := run (newRoomSocket r cid prefix storage delays) ins in
  pending_ok s /\
  (assoc id (rs_pending s) = Some c -> settles i id = false ->
   assoc id (rs_pending (step s i)) = Some c).
Proof.
  intros s. split; [apply reachable_pending|].
  intros Hc Hns. set (I := fun s => assoc id (rs_pending s) = Some c).
  assert (forall s s', rs_pending s' = rs_pending s -> I s -> I s') as Hsame by (unfold I; by intros ? ? ->).
  assert (forall j, j <> id -> forall s, I s -> I (set_pending (map_delete j (rs_pending s)) s)) as Hdel.
  { intros j Hj s1 Hs1. unfold I in *. simpl. rewrite assoc_map_delete. by rewrite decide_False. }
  assert (preserves I (handle i)) as Hp; [|unfold step; destruct (handle i s) as [res s'] eqn:E; by eapply Hp].
  assert (insensitive I) as HI by (constructor; intros; (eapply Hsame; [|eassumption]; done)).
  apply commands_input; try done.
  - intros c' s1 Hs1 Hn _ _. unfold I in *. simpl. rewrite assoc_map_set_ne; [done|]. congruence.
  - assert (forall f, match f with
        | FAck j _ _ | FReject (Some j) _ (None | Some false) => bool_decide (j = id) = false
        | _ => True end -> frame_effects_ok I f) as Hf.
    { intros f. destruct f as [| |[j|] cd [[]|]| | | | | | | | | |]; simpl; try done;
        try (intros Hb%bool_decide_eq_false; by apply Hdel). intros _. by apply acceptEvent_commands. }
    destruct i as [| | | | | | | |v|k [v|]| | | |]; simpl in *; try done; intros f Hv; apply Hf;
      rewrite Hv in Hns; by destruct f as [| |[j|] cd [[]|]| | | | | | | | | |].
Qed.
End Pending.

(** ** The end of a client *)

Section Closed.
Context `{Schemas}.

(** What went over the wire: the sockets made and the frames sent. *)
Definition wire (l : list output) : list output :=
  List.filter (fun o => match o with Connected _ | Sent _ _ => true | _ => false end) l.

(** A client that has stopped: no socket, no timer, and nothing but [w] on the wire. *)
Record stopped (w : list output) (s : room_socket) : Prop := {
  sp_closed : rs_closed s = true;
  sp_socket : rs_socket s = None;
  sp_timer : rs_retryTimer s = None;
  sp_wire : wire (rs_log s) = w;
}.

Lemma stopped_same w s s' :
  rs_closed s' = rs_closed s -> rs_socket s' = rs_socket s -> rs_retryTimer s' = rs_retryTimer s ->
  wire (rs_log s') = wire (rs_log s) -> stopped w s -> stopped w s'.
Proof. intros E1 E2 E3 E4 [? ? ? ?]. constructor; by rewrite ?E1, ?E2, ?E3, ?E4. Qed.
Lemma wire_quiet l o : match o with Connected _ | Sent _ _ => False | _ => True end -> wire (l ++ [o]) = wire l.
Proof. unfold wire. rewrite List.filter_app. destruct o; try done; intros _; simpl; apply app_nil_r. Qed.

#[local] Hint Extern 2 (preserves (stopped _) (modify _)) =>
  apply preserves_modify; intros; by (eapply stopped_same; [..|eassumption]) : preserve.
#[local] Hint Extern 2 (preserves (stopped _) (emit _)) =>
  apply preserves_modify; intros; by (eapply stopped_same; [..|eassumption]; try done; by apply wire_quiet) : preserve.

Lemma stopped_sendFrame w f : preserves (stopped w) (sendFrame f None).
Proof. unfold sendFrame. preserve. Qed.
Lemma stopped_onClose w code : preserves (stopped w) (onClose code).
Proof. intros s r s' Hs. unfold onClose. rewrite (bind_run _ _ _ s s) by done. rewrite (sp_closed w s Hs). by intros [= <- <-]. Qed.
#[local] Hint Resolve stopped_sendFrame stopped_onClose : preserve.
Lemma stopped_transmit w c : preserves (stopped w) (transmit c None).
Proof. unfold transmit, closeSocket. preserve. Qed.
#[local] Hint Resolve stopped_transmit : preserve.
Lemma stopped_send w c : preserves (stopped w) (send c None).
Proof. unfold send. preserve. Qed.
#[local] Hint Resolve stopped_send : preserve.
Lemma stopped_flush w : preserves (stopped w) (flushPending None).
Proof.
  unfold flushPending. preserve. generalize (map snd (rs_pending a)). intros l.
  induction l as [|c l IH]; simpl; preserve; done.
Qed.
#[local] Hint Resolve stopped_flush : preserve.
Lemma stopped_onFrame w value : preserves (stopped w) (onFrame value None).
Proof. unfold onFrame, acceptEvent, acceptCursor, set_resumeReady. preserve. Qed.
Lemma stopped_scheduleReconnect w : preserves (stopped w) scheduleReconnect.
Proof.
  intros s r s' Hs. unfold scheduleReconnect. rewrite (bind_run _ _ _ s s) by done.
  rewrite (sp_closed w s Hs). by intros [= <- <-].
Qed.
#[local] Hint Resolve stopped_onFrame stopped_scheduleReconnect : preserve.

(** The current socket of a stopped client is none. *)
Lemma stopped_current {A} w (f : option nat -> SM A) :
  preserves (stopped w) (f None) -> preserves (stopped w) (k ← currentSocket; f k).
Proof.
  intros Hf s r s' Hs. unfold mbind, M_bind, currentSocket, gets.
  rewrite (sp_socket w s Hs). by apply Hf.
Qed.

Lemma stopped_input w i : (forall so, i <> IConnect so) -> preserves (stopped w) (handle i).
Proof.
  intros Hi. destruct i as [c|st|b|so|g| | |value|k|k data|k code|so|g b|k so]; simpl;
    try (apply stopped_current).
  - apply stopped_send.
  - unfold sendPresence, sendEphemeral. preserve.
  - unfold sendTyping, sendEphemeral. preserve.
  - by destruct (Hi so).
  - unfold deferReconnectUntil. preserve.
  - intros s r s' Hs. unfold close, mbind, M_bind, modify, currentSocket, gets, clearRetry, emit. simpl.
    rewrite (sp_socket w s Hs). simpl. intros [= <- <-].
    constructor; simpl; [done|done|done|]. rewrite wire_quiet by done. by apply sp_wire.
  - intros s r s' Hs. unfold destroy, close, mbind, M_bind, modify, currentSocket, gets, clearRetry, emit. simpl.
    rewrite (sp_socket w s Hs). simpl. intros [= <- <-].
    constructor; simpl; [done|done|done|]. rewrite wire_quiet by done. by apply sp_wire.
  - apply stopped_onFrame.
  - intros s r s' Hs. unfold onOpenEvent. rewrite (bind_run _ _ _ s s) by done.
    rewrite (sp_closed w s Hs). by intros [= <- <-].
  - intros s r s' Hs. unfold onMessageEvent. rewrite (bind_run _ _ _ s s) by done.
    rewrite (sp_closed w s Hs). by intros [= <- <-].
  - unfold onCloseEvent. preserve.
  - intros s r s' Hs. unfold onRetryTimer. rewrite (bind_run _ _ _ s s) by done.
    rewrite (sp_timer w s Hs). by intros [= <- <-].
  - unfold onGate. preserve.
  - preserve.
Qed.

(** The codes that end a client. *)
Definition TERMINAL_CODES : list Z := [4400; 4401; 4403; 4410].

(** The codes by which the server ends a session are final: when the socket closes
    with 4400, 4401, 4403 or 4410, the client drops it, and whatever happens afterwards
    - messages, timers, promises, commands of the user - it makes no other socket and
    sends no frame, until its user connects it again. *)
Theorem terminal_codes_are_final s k code ins :
  rs_closed s = false -> rs_socket s = Some k -> code ∈ TERMINAL_CODES ->
  Forall (fun i => forall so, i <> IConnect so) ins ->
  let s' := run s (ICloseEvent k (Some code) :: ins) in
  rs_closed s' = true /\ rs_socket s' = None /\ wire (rs_log s') = wire (rs_log s).
Proof.
  intros Hc Hk Hcode Hins s'.
  assert (stopped (wire (rs_log s)) (step s (ICloseEvent k (Some code)))) as Hst.
  { unfold step, handle, onCloseEvent. rewrite (bind_run _ _ _ s s) by done. rewrite decide_True by done.
    unfold onClose. rewrite (bind_run _ _ _ s s) by done. rewrite Hc.
    unfold mbind, M_bind, modify, emit, stopWith, clearRetry. simpl.
    assert (code = 4400 \/ code = 4401 \/ code = 4403 \/ code = 4410) as [->|[->|[->| ->]]].
    { unfold TERMINAL_CODES in Hcode. rewrite !elem_of_cons, elem_of_nil in Hcode. tauto. }
    all: simpl; constructor; simpl; try done; by rewrite !wire_quiet. }
  destruct (run_invariant (stopped (wire (rs_log s))) ins (step s (ICloseEvent k (Some code)))) as [H1 H2 _ H4];
    [|done|by split_and!].
  eapply Forall_impl; [exact Hins|]. intros i Hi. by apply stopped_input.
Qed.
End Closed.

(** ** Resumption *)

Section Resume.
Context `{Schemas}.

Lemma parseRoomCommand_frame c :
  is_Some (parseRoomCommand (commandJson c)) -> parseClientFrame (clientFrameJson (CCommand c)) = Some (CCommand c).
Proof.
  intros [c' Hc]. rewrite (parseRoomCommand_print c c' Hc) in Hc.
  unfold parseClientFrame, readField. simpl. by rewrite Hc.
Qed.

(** A working socket takes every command that waits, in order. *)
Lemma sendEach_run s k so l :
  rs_sockets s !! k = Some so -> so_sendFails so = false -> isOpen (rs_sockets s) (Some k) = true ->
  rs_resumeReady s = true ->
  Forall (fun c => assoc (cm_commandId c) (rs_pending s) = Some c
                   /\ is_Some (parseRoomCommand (commandJson c))) l ->
  sendEach l (Some k) s
  = (Ok tt, foldl (fun s c => add_log (Sent k (CCommand c)) s) s l).
Proof.
  intros Hk Hso Hopen Hready Hl. revert s Hk Hopen Hready Hl.
  induction l as [|c l IH]; intros s Hk Hopen Hready Hl; [done|].
  apply Forall_cons in Hl as [[Ha Hv] Hl]. simpl.
  assert (send c (Some k) s = (Ok tt, add_log (Sent k (CCommand c)) s)) as Hsend.
  { unfold send, mbind, M_bind, lift_result, encodeRoomCommand. destruct Hv as [c' Hv]. rewrite Hv. simpl.
    rewrite Ha. simpl. rewrite Hv. unfold throw_if. rewrite bool_decide_eq_true_2 by done. simpl.
    unfold transmit. rewrite (bind_run _ _ _ s s) by done. rewrite Hready, Hopen. simpl.
    unfold try_catch, sendFrame, encodeClientFrame. rewrite parseRoomCommand_frame by eauto.
    unfold mbind, M_bind, lift_result. simpl. rewrite Hk. unfold throw_if. rewrite Hso. done. }
  rewrite (bind_run _ _ _ _ _ Hsend). apply IH; done.
Qed.

Lemma foldl_log k l s :
  foldl (fun s c => add_log (Sent k (CCommand c)) s) s l
  = RoomSocket (rs_roomId s) (rs_clientId s) (rs_lastRoomSeq s) (rs_storage s) (rs_storageKey s) (rs_pending s)
      (rs_clientSeq s) (rs_retryDelays s) (rs_retryIndex s) (rs_retryTimer s) (rs_reconnectGate s) (rs_waiting s)
      (rs_socket s) (rs_factory s) (rs_closed s) (rs_resumeReady s) (rs_sockets s)
      (rs_log s ++ map (fun c => Sent k (CCommand c)) l).
Proof.
  revert s. induction l as [|c l IH]; intros s; simpl; [rewrite app_nil_r; by destruct s|].
  rewrite IH. unfold add_log. simpl. by rewrite <- app_assoc.
Qed.

(** The end of the replay, at a client whose commands are in order. *)
Lemma resume_step s k so value :
  pending_ok s -> rs_closed s = false -> rs_socket s = Some k -> rs_sockets s !! k = Some so ->
  isOpen (rs_sockets s) (Some k) = true -> so_sendFails so = false ->
  parseServerFrame value = Ok (FResumeComplete (rs_lastRoomSeq s)) ->
  step s (IMessageEvent k (Some value)) =
    RoomSocket (rs_roomId s) (rs_clientId s) (rs_lastRoomSeq s) (rs_storage s) (rs_storageKey s) (rs_pending s)
      (rs_clientSeq s) (rs_retryDelays s) 0 (rs_retryTimer s) (rs_reconnectGate s) (rs_waiting s)
      (Some k) (rs_factory s) false true (rs_sockets s)
      (rs_log s ++ [ConnectionChange true]
        ++ map (fun c => Sent k (CCommand c)) (map snd (rs_pending s))
        ++ [Control (FResumeComplete (rs_lastRoomSeq s))]).
Proof.
  intros [_ Hkeys Hvalid] Hc Hk Hso Hopen Hfails Hv.
  unfold step, handle, onMessageEvent. rewrite (bind_run _ _ _ s s) by done. rewrite Hc, Hk.
  rewrite bool_decide_eq_true_2 by done. simpl. unfold try_catch, onFrame. rewrite Hv.
  rewrite (bind_run _ _ _ s s) by done. rewrite bool_decide_eq_true_2 by done. simpl.
  unfold flushPending, mbind, M_bind, modify, emit, get_state. simpl.
  rewrite (sendEach_run _ k so); try done.
  - rewrite foldl_log. simpl. rewrite Hc, Hk. unfold add_log, set_resumeReady, set_connection. simpl.
    rewrite ?Hc, ?Hk. rewrite <- !app_assoc. done.
  - apply Forall_forall. intros c Hin. apply list_elem_of_fmap in Hin as ([id c'] & -> & Hin). simpl.
    rewrite Forall_forall in Hvalid. destruct (Hvalid _ Hin) as [Hid Hp]. simpl in *. subst id.
    split; [by apply assoc_NoDup|done].
Qed.

(** When the server announces that the replay is complete, at the very event the
    client is at, the client is connected: the back-off starts over, and every command
    that waits is sent again on the new socket, in the order of the user, with the
    identifier it had. *)
Theorem resume_sends_pending r cid prefix storage delays ins k so value :
  let s := run (newRoomSocket r cid prefix storage delays) ins in
  rs_closed s = false -> rs_socket s = Some k -> rs_sockets s !! k = Some so ->
  isOpen (rs_sockets s) (Some k) = true -> so_sendFails so = false ->
  parseServerFrame value = Ok (FResumeComplete (rs_lastRoomSeq s)) ->
  let s' := step s (IMessageEvent k (Some value)) in
  rs_log s' = rs_log s ++ [ConnectionChange true]
      ++ map (fun c => Sent k (CCommand c)) (map snd (rs_pending s))
      ++ [Control (FResumeComplete (rs_lastRoomSeq s))]
  /\ rs_resumeReady s' = true /\ rs_retryIndex s' = O /\ rs_pending s' = rs_pending s.
Proof.
  intros s Hc Hk Hso Hopen Hfails Hv s'. unfold s'.
  rewrite (resume_step s k so value (reachable_pending r cid prefix storage delays ins) Hc Hk Hso Hopen Hfails Hv).
  done.
Qed.
End Resume.

(** ** A session *)

Definition demoClient : string := "99999999-9999-4999-8999-999999999999".
Definition demoDelays : list Z := [500; 1000].
Definition workingSocket : SocketLike := Socket (Some 1) false.
Definition demoPause : RoomCommand :=
  Command demoCommand demoRoom room_pause "2024-01-01T00:00:00.000Z" None [].
(** The client connects, its user pauses the room, the server replays the two events of
    the room and announces the end of the replay. *)
Definition demoInputs : list input :=
  [IConnect workingSocket; ISend demoPause]
  ++ map (fun e => IMessageEvent 0 (Some (serverFrameJson (FEvent e)))) demoHistory.
Definition demoSocketState : room_socket := run (newRoomSocket demoRoom demoClient "lo" [] demoDelays) demoInputs.

Lemma socket_cursor_witness :
  exists n, map roomSeq (sunk (rs_log demoSocketState)) = seqFrom 1 n
    /\ rs_lastRoomSeq demoSocketState = Z.of_nat n.
Proof.
  assert (Forall (fun i => i <> IDestroy) demoInputs) as Hd by (repeat constructor; done).
  assert (Forall (fun e => roomSeq e <= MAX_SAFE_INTEGER) (sunk (rs_log demoSocketState))) as Hs.
  { assert (sunk (rs_log demoSocketState) = demoHistory) as -> by (vm_compute; done).
    repeat constructor; vm_compute; done. }
  destruct (socket_cursor demoRoom demoClient "lo" [] demoDelays demoInputs Hd Hs) as (n & Hn & _ & Hl & _).
  exists n. split; [exact Hn|exact Hl].
Defined.

Lemma demoSocketState_pending : assoc demoCommand (rs_pending demoSocketState) = Some demoPause.
Proof. vm_compute. reflexivity. Qed.

Lemma pending_commands_witness :
  assoc demoCommand (rs_pending (step demoSocketState (ICloseEvent 0 (Some 1006)))) = Some demoPause.
Proof.
  destruct (pending_commands demoRoom demoClient "lo" [] demoDelays demoInputs (ICloseEvent 0 (Some 1006))
    demoCommand demoPause) as [_ Hp].
  exact (Hp demoSocketState_pending eq_refl).
Defined.

Lemma terminal_codes_are_final_witness :
  rs_socket (run demoSocketState [ICloseEvent 0 (Some 4401); ITimer workingSocket; ISend demoPause]) = None.
Proof.
  assert (rs_closed demoSocketState = false) as H1 by (vm_compute; done).
  assert (rs_socket demoSocketState = Some 0%nat) as H2 by (vm_compute; done).
  assert (4401 ∈ TERMINAL_CODES) as H3 by (apply (bool_decide_unpack _); vm_compute; done).
  assert (Forall (fun i => forall so, i <> IConnect so) [ITimer workingSocket; ISend demoPause]) as H4
    by (repeat constructor; done).
  apply (terminal_codes_are_final demoSocketState 0 4401 [ITimer workingSocket; ISend demoPause] H1 H2 H3 H4).
Defined.

Lemma resume_sends_pending_witness :
  rs_resumeReady (step demoSocketState (IMessageEvent 0 (Some (serverFrameJson (FResumeComplete 2))))) = true.
Proof.
  assert (rs_closed demoSocketState = false) as H1 by (vm_compute; done).
  assert (rs_socket demoSocketState = Some 0%nat) as H2 by (vm_compute; done).
  assert (rs_sockets demoSocketState !! 0%nat = Some workingSocket) as H3 by (vm_compute; done).
  assert (isOpen (rs_sockets demoSocketState) (Some 0%nat) = true) as H4 by (vm_compute; done).
  assert (parseServerFrame (serverFrameJson (FResumeComplete 2))
    = Ok (FResumeComplete (rs_lastRoomSeq demoSocketState))) as H5 by (vm_compute; done).
  apply (resume_sends_pending demoRoom demoClient "lo" [] demoDelays demoInputs 0 workingSocket _
    H1 H2 H3 H4 eq_refl H5).
Defined.
