(* ===== verification/Authorization.v ===== *)
(** * Who may touch a room

    [apps/server/src/modules/authorization/authorize-room-action.ts],
    [modules/realtime/realtime-delivery-authorizer.ts] and
    [modules/realtime/room-event-http-access.ts]: the single decision about an action on a
    room, the decision behind every frame of a socket, and the mapping of the latter to
    an HTTP answer. *)
From S2P Require Import Prelude Text JsDate JsValue Contracts Database Concrete.
#[local] Set Warnings "-register-all,-clear-no-such-hyp,-level-tolerance".

(** ** Sessions, actions, errors *)

Inductive AuthSession : Type :=
| TeacherSession (teacherId actorId : string)
| StudentSession (roomId roomMemberId actorId pseudonym novaActorId : string).
#[global] Instance AuthSession_eq_dec : EqDecision AuthSession.
Proof. solve_decision. Defined.

Inductive Role : Type := r_teacher | r_student.
#[global] Instance Role_eq_dec : EqDecision Role.
Proof. solve_decision. Defined.
Definition sessionRole (p : AuthSession) : Role :=
  match p with TeacherSession _ _ => r_teacher | StudentSession _ _ _ _ _ => r_student end.
Definition sessionActor (p : AuthSession) : string :=
  match p with TeacherSession _ a => a | StudentSession _ _ a _ _ => a end.

Inductive RoomAction : Type :=
| room_read | room_command | analytics_read | media_read | media_write | agent_trigger
| export_request | deletion_request.
#[global] Instance RoomAction_eq_dec : EqDecision RoomAction.
Proof. solve_decision. Defined.

(** [ROLE_ACTIONS]. *)
Definition ROLE_ACTIONS (r : Role) : list RoomAction :=
  match r with
  | r_teacher => [room_read; room_command; analytics_read; media_read; export_request; deletion_request]
  | r_student => [room_read; room_command; analytics_read; media_read; media_write; agent_trigger]
  end.

Inductive auth_error : Type :=
| RoomAuthorizationError (statusCode : Z) (code : string)
| QueryFailed.
#[global] Instance auth_error_eq_dec : EqDecision auth_error.
Proof. solve_decision. Defined.
Definition AUTH_REQUIRED : auth_error := RoomAuthorizationError 401 "AUTH_REQUIRED".
Definition ROOM_NOT_FOUND : auth_error := RoomAuthorizationError 404 "ROOM_NOT_FOUND".
Definition DELETION_IN_PROGRESS : auth_error := RoomAuthorizationError 410 "ROOM_DELETION_IN_PROGRESS".
Definition DELETION_JOB_NOT_FOUND : auth_error := RoomAuthorizationError 404 "DELETION_JOB_NOT_FOUND".

Record RoomActorGrant : Type := Grant {
  gr_roomId : string;
  gr_actorId : string;
  gr_role : Role;
  gr_action : RoomAction;
}.

Abbreviation AM := (M world auth_error).

(** A pool gives every statement a transaction of its own; the client of a transaction
    gives it the time of that transaction. *)
Inductive client : Type := Pool | PoolClient.

(** ** Conditions on rows *)

Definition liveSession (now : Z) (s : session_row) : bool :=
  bool_decide (ss_revoked_at s = None) && (now <? ss_expires_at s).
(** [status IN ('queued','running','retryable','dead')]. *)
Definition activeDeletion (x : deletion_row) : bool :=
  bool_decide (dl_status x ∈ [d_queued; d_running; d_retryable; d_dead]).
Definition deletionActiveIn (rid : string) (d : database) : bool :=
  existsb (fun x => bool_decide (dl_room_id x = Some rid) && activeDeletion x) (deletions d).

(** [EXISTS (SELECT 1 FROM auth_session ...)] of a teacher, and of a member. *)
Definition teacherSessionLive (sid tid : string) (now : Z) (d : database) : bool :=
  existsb (fun s => bool_decide (ss_id s = sid) && bool_decide (ss_teacher_id s = Some tid)
                    && bool_decide (ss_kind s = teacher_principal) && liveSession now s) (sessions d).
Definition memberSessionLive (sid mid : string) (now : Z) (d : database) : bool :=
  existsb (fun s => bool_decide (ss_id s = sid) && bool_decide (ss_room_member_id s = Some mid)
                    && bool_decide (ss_kind s = student_principal) && liveSession now s) (sessions d).

Definition ownsRoom (rid tid : string) (r : room_row) : bool :=
  bool_decide (rm_id r = rid) && bool_decide (rm_teacher_id r = tid).
Definition isMember (rid mid aid : string) (m : member_row) : bool :=
  bool_decide (mb_room_id m = rid) && bool_decide (mb_id m = mid) && bool_decide (mb_actor_id m = aid).

Section Authorize.
Context `{Postgres} `{Environment} `{Schemas}.

(** A statement sees the time of its transaction. *)
Definition statement {A} (c : client) (f : Z -> database -> A) : AM A := fun w =>
  match c with
  | Pool => (Ok (f (db_now (txs w)) (db w)), World (db w) (ticks w) (S (txs w)) (uuids w) (tx w))
  | PoolClient => (Ok (f (tx_now (tx w)) (db w)), w)
  end.
Definition uuidOf (s : string) : AM string :=
  match uuid_in s with Some u => mret u | None => throw QueryFailed end.

Definition isSessionId (sessionId : option string) : bool :=
  match sessionId with Some s => isUuid s | None => false end.

(** [authorizeRoomAction]. *)
Definition authorizeRoomAction (c : client) (principal : option AuthSession) (sessionId : option string)
    (roomId : string) (action : RoomAction) : AM RoomActorGrant :=
  match principal with
  | None => throw AUTH_REQUIRED
  | Some p =>
      _ ← throw_if (negb (isSessionId sessionId)) AUTH_REQUIRED;
      _ ← throw_if (negb (isUuid roomId)) ROOM_NOT_FOUND;
      rid ← uuidOf roomId;
      deleting ← statement c (fun _ => deletionActiveIn rid);
      _ ← throw_if deleting DELETION_IN_PROGRESS;
      _ ← throw_if (negb (bool_decide (action ∈ ROLE_ACTIONS (sessionRole p)))) ROOM_NOT_FOUND;
      sid ← uuidOf (default ""%string sessionId);
      match p with
      | TeacherSession teacherId _ =>
          tid ← uuidOf teacherId;
          owned ← statement c (fun now d =>
            select_where (fun r => ownsRoom rid tid r && teacherSessionLive sid tid now d) (rooms d));
          match owned with
          | [] => throw ROOM_NOT_FOUND
          | _ :: _ => mret (Grant roomId teacherId r_teacher action)
          end
      | StudentSession _ roomMemberId actorId _ _ =>
          mid ← uuidOf roomMemberId;
          aid ← uuidOf actorId;
          member ← statement c (fun now d =>
            select_where (fun m => isMember rid mid aid m && memberSessionLive sid mid now d) (members d));
          match member with
          | m :: _ => if decide (mb_actor_id m = ""%string) then throw ROOM_NOT_FOUND
                      else mret (Grant roomId (mb_actor_id m) r_student action)
          | [] => throw ROOM_NOT_FOUND
          end
      end
  end.

(** [authorizeDeletionStatusRead]. *)
Definition authorizeDeletionStatusRead (c : client) (principal : option AuthSession)
    (sessionId : option string) (deletionJobId : string) : AM (string * string) :=
  match principal with
  | None => throw AUTH_REQUIRED
  | Some (StudentSession _ _ _ _ _) => throw DELETION_JOB_NOT_FOUND
  | Some (TeacherSession teacherId _) =>
      _ ← throw_if (negb (isSessionId sessionId) || negb (isUuid deletionJobId)) DELETION_JOB_NOT_FOUND;
      did ← uuidOf deletionJobId;
      tid ← uuidOf teacherId;
      sid ← uuidOf (default ""%string sessionId);
      job ← statement c (fun now d =>
        select_where (fun x => bool_decide (dl_id x = did) && bool_decide (dl_owner_teacher_id x = tid)
                               && teacherSessionLive sid tid now d) (deletions d));
      match job with
      | x :: _ => if decide (dl_owner_teacher_id x = ""%string) then throw DELETION_JOB_NOT_FOUND
                  else mret (deletionJobId, dl_owner_teacher_id x)
      | [] => throw DELETION_JOB_NOT_FOUND
      end
  end.

(** ** The sockets *)

Inductive DeliveryAuthorization : Type :=
| Delivery (sessionId : string) (principal : AuthSession) (actorId : string)
| CloseWith (closeCode : Z).

Definition STUDENT_PSEUDONYMS : list string := ["探索者 A"; "探索者 B"; "探索者 C"; "探索者 D"]%string.
(** [String.prototype.length] of a UTF-8 text: four bytes are two code units. *)
Definition utf16Length (s : string) : Z :=
  codePoints s + Z.of_nat (length (List.filter (fun c => 240 <=? code c) (list_ascii_of_string s))).
(** [authContract.parseSession] of the objects the authorizer builds. *)
Definition sessionValid (p : AuthSession) : bool :=
  match p with
  | TeacherSession t a => format_uuid t && format_uuid a
  | StudentSession r m a ps n =>
      format_uuid r && format_uuid m && format_uuid a && format_uuid n
      && bool_decide (ps ∈ STUDENT_PSEUDONYMS)
  end.
Definition parseSession (p : AuthSession) : AM AuthSession :=
  if sessionValid p then mret p else throw QueryFailed.

(** One row of the identity query: the session, its member, the room and whether a
    deletion of the room is active. *)
Record identity_row : Type := Identity {
  id_session : session_row;
  id_member : option member_row;
  id_room : room_row;
  id_deletion_active : bool;
}.
(** [auth_session s LEFT JOIN room_member m LEFT JOIN classroom_room r] with the
    conditions of both queries: the room is the one asked for. *)
Definition identities (theSession : session_row -> bool) (rid : string) (now : Z) (d : database)
    : list identity_row :=
  concat (map (fun s =>
    let member := find (fun m => bool_decide (Some (mb_id m) = ss_room_member_id s)) (members d) in
    omap (fun r =>
      let joined := (match member with Some m => bool_decide (rm_id r = mb_room_id m) | None => false end)
        || (bool_decide (ss_kind s = teacher_principal) && bool_decide (Some (rm_teacher_id r) = ss_teacher_id s)) in
      let wanted := (bool_decide (ss_kind s = teacher_principal) && bool_decide (rm_id r = rid)
                     && bool_decide (Some (rm_teacher_id r) = ss_teacher_id s))
        || (bool_decide (ss_kind s = student_principal) && bool_decide (rm_id r = rid)) in
      if joined && wanted then Some (Identity s member r (deletionActiveIn (rm_id r) d)) else None)
      (rooms d))
    (select_where (fun s => theSession s && liveSession now s) (sessions d))).

(** The end of both authorizations: the principal of the row. The tests for absent
    identifiers are those of absent rows: a [uuid] column is never the empty text. *)
Definition deliver (roomId : string) (row : identity_row) : AM DeliveryAuthorization :=
  let s := id_session row in
  match ss_kind s, ss_teacher_id s with
  | teacher_principal, Some t =>
      p ← parseSession (TeacherSession t t); mret (Delivery (ss_id s) p t)
  | _, _ =>
      match id_member row with
      | Some m =>
          if bool_decide (mb_room_id m = roomId) && negb (bool_decide (mb_pseudonym m = ""%string))
          then p ← parseSession (StudentSession roomId (mb_id m) (mb_actor_id m) (mb_pseudonym m)
                                   (rm_nova_actor_id (id_room row)));
               mret (Delivery (ss_id s) p (mb_actor_id m))
          else mret (CloseWith 4403)
      | None => mret (CloseWith 4403)
      end
  end.

(** [#authenticateToken]: a fresh upgrade is refused when the room is closed. *)
Definition authenticateWith (rawToken : option string) (roomId : string) (rejectClosedRoom : bool)
    : AM DeliveryAuthorization :=
  match rawToken with
  | None | Some EmptyString => mret (CloseWith 4401)
  | Some t =>
      if (512 <? utf16Length t) then mret (CloseWith 4401) else
      rid ← uuidOf roomId;
      rows ← statement Pool (identities (fun s => bool_decide (ss_token_hash s = sha256_hex t)) rid);
      match rows with
      | [] => mret (CloseWith 4401)
      | row :: _ =>
          if id_deletion_active row then mret (CloseWith 4410)
          else if rejectClosedRoom && bool_decide (rm_status (id_room row) = closed) then mret (CloseWith 4410)
          else deliver roomId row
      end
  end.
Definition authenticateToken (rawToken : option string) (roomId : string) : AM DeliveryAuthorization :=
  authenticateWith rawToken roomId false.
Definition authenticateWebSocketToken (rawToken : option string) (roomId : string) : AM DeliveryAuthorization :=
  authenticateWith rawToken roomId true.

(** [reauthorize]: an ended session, then a room that is not the session's. *)
Definition reauthorize (sessionId roomId : string) : AM DeliveryAuthorization :=
  sid ← uuidOf sessionId;
  live ← statement Pool (fun now d =>
    select_where (fun s => bool_decide (ss_id s = sid) && liveSession now s) (sessions d));
  match live with
  | [] => mret (CloseWith 4401)
  | _ :: _ =>
      rid ← uuidOf roomId;
      rows ← statement Pool (identities (fun s => bool_decide (ss_id s = sid)) rid);
      match rows with
      | [] => mret (CloseWith 4403)
      | row :: _ => if id_deletion_active row then mret (CloseWith 4410) else deliver roomId row
      end
  end.

(** [roomEventHttpAccessFailure]. *)
Definition roomEventHttpAccessFailure (a : DeliveryAuthorization) : option (Z * string) :=
  match a with Delivery _ _ _ => None | CloseWith _ => Some (404, "ROOM_NOT_FOUND"%string) end.
End Authorize.

(** ** Laws *)

Section Laws.
Context `{Postgres} `{Environment} `{Schemas} (HP : PostgresLaws).

Lemma uuidOf_isUuid s w : isUuid s = true -> uuidOf s w = (Ok (lower s), w).
Proof. intros Hs. unfold uuidOf. by rewrite (uuid_in_isUuid HP s Hs). Qed.

(** The world and the time of the statement after [w]. *)
Definition after (c : client) (w : world) : world :=
  match c with Pool => World (db w) (ticks w) (S (txs w)) (uuids w) (tx w) | PoolClient => w end.
Definition timeOf (c : client) (w : world) : Z :=
  match c with Pool => db_now (txs w) | PoolClient => tx_now (tx w) end.
Lemma statement_run {A} c (f : Z -> database -> A) w : statement c f w = (Ok (f (timeOf c w) (db w)), after c w).
Proof. by destruct c. Qed.
Lemma after_db c w : db (after c w) = db w.
Proof. by destruct c. Qed.

(** What the decision means: the principal's session is live, the principal belongs to
    the room, and the role may do the action. *)
Definition permitted (p : AuthSession) (sid rid : string) (action : RoomAction) (now : Z) (d : database) : bool :=
  bool_decide (action ∈ ROLE_ACTIONS (sessionRole p)) &&
  match p with
  | TeacherSession t _ =>
      existsb (ownsRoom (lower rid) (lower t)) (rooms d) && teacherSessionLive (lower sid) (lower t) now d
  | StudentSession _ m a _ _ =>
      existsb (isMember (lower rid) (lower m) (lower a)) (members d) && memberSessionLive (lower sid) (lower m) now d
  end.
Definition grantOf (p : AuthSession) (rid : string) (action : RoomAction) : RoomActorGrant :=
  match p with
  | TeacherSession t _ => Grant rid t r_teacher action
  | StudentSession _ _ a _ _ => Grant rid (lower a) r_student action
  end.
(** The identifiers of a principal are UUIDs, as the contract of sessions says. *)
Definition principalIds (p : AuthSession) : Prop :=
  match p with
  | TeacherSession t a => isUuid t = true /\ isUuid a = true
  | StudentSession r m a _ n => isUuid r = true /\ isUuid m = true /\ isUuid a = true /\ isUuid n = true
  end.

Lemma select_and {A} (p : A -> bool) (b : bool) l :
  select_where (fun x => p x && b) l = if b then select_where p l else [].
Proof.
  unfold select_where. destruct b.
  - apply List.filter_ext. intros x. apply andb_true_r.
  - induction l as [|x l IH]; simpl; [done|]. by rewrite andb_false_r.
Qed.
Lemma select_existsb {A} (p : A -> bool) l :
  existsb p l = match select_where p l with [] => false | _ :: _ => true end.
Proof. unfold select_where. induction l as [|x l IH]; simpl; [done|]. destruct (p x); simpl; done. Qed.
Lemma lower_uuid_nonempty s : isUuid s = true -> lower s <> ""%string.
Proof. by destruct s. Qed.
Lemma select_head {A} (p : A -> bool) l x l' : select_where p l = x :: l' -> p x = true /\ x ∈ l.
Proof.
  unfold select_where. intros Hs. assert (In x (List.filter p l)) as Hin by (rewrite Hs; by left).
  apply filter_In in Hin as [Hin Hp]. split; [done|]. by apply list_elem_of_In.
Qed.

Lemma authorizeRoomAction_run c p sid rid action w :
  isUuid sid = true -> principalIds p ->
  let '(r, w') := authorizeRoomAction c (Some p) (Some sid) rid action w in
  db w' = db w /\
  r = (if negb (isUuid rid) then Err ROOM_NOT_FOUND
       else if deletionActiveIn (lower rid) (db w) then Err DELETION_IN_PROGRESS
       else if permitted p sid rid action (timeOf c (after c w)) (db w) then Ok (grantOf p rid action)
       else Err ROOM_NOT_FOUND).
Proof.
  intros Hsid Hp. unfold authorizeRoomAction, permitted, isSessionId. rewrite Hsid. simpl negb. cbv beta iota.
  rewrite (bind_run _ _ _ tt w) by done.
  destruct (isUuid rid) eqn:Hrid; [|by split]. simpl negb. rewrite (bind_run _ _ _ tt w) by done.
  rewrite (bind_run _ _ _ _ _ (uuidOf_isUuid rid w Hrid)).
  rewrite (bind_run _ _ _ _ _ (statement_run c _ w)).
  destruct (deletionActiveIn _ _); [unfold mbind, M_bind, throw_if, throw; by rewrite after_db|].
  rewrite (bind_run _ _ _ tt (after c w)) by done.
  destruct (bool_decide (action ∈ _)); [|unfold mbind, M_bind, throw_if, throw; simpl; by rewrite after_db].
  simpl negb. rewrite (bind_run _ _ _ tt (after c w)) by done. simpl default.
  rewrite (bind_run _ _ _ _ _ (uuidOf_isUuid sid _ Hsid)).
  destruct p as [t a|r m a ps n]; simpl in Hp; destruct_and!.
  - rewrite (bind_run _ _ _ _ _ (uuidOf_isUuid t _ ltac:(done))).
    rewrite (bind_run _ _ _ _ _ (statement_run c _ _)), select_and, after_db, select_existsb.
        destruct (teacherSessionLive _ _ _ _); [|rewrite andb_false_r; unfold throw; simpl; by rewrite !after_db].
    destruct (select_where _ _); unfold throw, mret, M_ret; simpl; by rewrite !after_db.
  - rewrite (bind_run _ _ _ _ _ (uuidOf_isUuid m _ ltac:(done))).
    rewrite (bind_run _ _ _ _ _ (uuidOf_isUuid a _ ltac:(done))).
    rewrite (bind_run _ _ _ _ _ (statement_run c _ _)), select_and, after_db, select_existsb.
    destruct (memberSessionLive _ _ _ _); [|rewrite andb_false_r; unfold throw; simpl; by rewrite !after_db].
    destruct (select_where _ _) as [|x l] eqn:Hs; [unfold throw; simpl; by rewrite !after_db|].
    apply select_head in Hs as [Hx _]. unfold isMember in Hx. split_bools.
    match goal with E : mb_actor_id x = _ |- _ => rename E into Hact end.
    rewrite decide_False by (rewrite Hact; by apply lower_uuid_nonempty).
    unfold mret, M_ret. rewrite !after_db. split; [done|]. simpl. by rewrite Hact.
Qed.

(** The decision about an action on a room, on every branch: no principal or no
    session is 401; an identifier that is none, a foreign room, a foreign member, a
    session that has ended or does not belong to the principal, and an action the role
    does not have are 404; a deletion that is not over is 410 before any of them; and
    otherwise the action is granted, to the actor of the principal. The database is
    only read. *)
Theorem authorizeRoomAction_exact c p sid rid action w :
  isUuid sid = true -> principalIds p ->
  let '(r, w') := authorizeRoomAction c (Some p) (Some sid) rid action w in
  db w' = db w /\
  r = (if negb (isUuid rid) then Err ROOM_NOT_FOUND
       else if deletionActiveIn (lower rid) (db w) then Err DELETION_IN_PROGRESS
       else if permitted p sid rid action (timeOf c (after c w)) (db w) then Ok (grantOf p rid action)
       else Err ROOM_NOT_FOUND).
Proof. apply authorizeRoomAction_run. Qed.

(** ** Identities *)

(** What a row of the identity query says of the database. *)
Record identity_ok (theSession : session_row -> bool) (rid : string) (now : Z) (d : database)
    (row : identity_row) : Prop := {
  io_session : id_session row ∈ sessions d;
  io_the : theSession (id_session row) = true;
  io_live : liveSession now (id_session row) = true;
  io_room : id_room row ∈ rooms d;
  io_rid : rm_id (id_room row) = rid;
  io_member : forall m, id_member row = Some m -> m ∈ members d /\ Some (mb_id m) = ss_room_member_id (id_session row);
  io_relation : (ss_kind (id_session row) = teacher_principal
                 /\ Some (rm_teacher_id (id_room row)) = ss_teacher_id (id_session row))
                \/ (ss_kind (id_session row) = student_principal
                    /\ exists m, id_member row = Some m /\ mb_room_id m = rid);
  io_deletion : id_deletion_active row = deletionActiveIn rid d;
}.

Lemma identities_ok theSession rid now d row :
  row ∈ identities theSession rid now d -> identity_ok theSession rid now d row.
Proof.
  unfold identities. rewrite list_elem_of_In, in_concat. intros (l & Hl & Hrow).
  apply in_map_iff in Hl as (s & <- & Hs). unfold select_where in Hs. apply filter_In in Hs as [Hs Hp].
  apply andb_true_iff in Hp as [Hthe Hlive].
  apply list_elem_of_In, list_elem_of_omap in Hrow as (r & Hr & Hrow).
  destruct (_ && _) eqn:Hc; [|done]. injection Hrow as <-. apply andb_true_iff in Hc as [Hj Hw].
  set (member := find (fun m => bool_decide (Some (mb_id m) = ss_room_member_id s)) (members d)) in *.
  assert (rm_id r = rid) as Hrid.
  { apply orb_true_iff in Hw as [Hw|Hw]; split_bools; done. }
  constructor; simpl; try done.
  - by apply list_elem_of_In.
  - intros m Hm. unfold member in Hm. apply find_some in Hm as [Hin Hm%bool_decide_eq_true].
    split; [by apply list_elem_of_In|done].
  - apply orb_true_iff in Hw as [Hw|Hw]; split_bools; [by left|]. right. split; [done|].
    apply orb_true_iff in Hj as [Hj|Hj]; [|split_bools; congruence].
    destruct member as [m|]; [|done]. apply bool_decide_eq_true in Hj. exists m. split; congruence.
  - by rewrite Hrid.
Qed.

(** The principal of an authorization belongs to the room. *)
Definition belongs (p : AuthSession) (actor : string) (s : session_row) (rid roomId : string) (d : database) : Prop :=
  match p with
  | TeacherSession t a => a = t /\ actor = t /\ ss_kind s = teacher_principal /\ ss_teacher_id s = Some t
      /\ exists r, r ∈ rooms d /\ rm_id r = rid /\ rm_teacher_id r = t
  | StudentSession r m a ps _ => r = roomId /\ actor = a /\ ss_kind s = student_principal
      /\ ss_room_member_id s = Some m
      /\ exists mb, mb ∈ members d /\ mb_id mb = m /\ mb_room_id mb = rid /\ mb_actor_id mb = a
                    /\ mb_pseudonym mb = ps
  end.

Lemma parseSession_ok p q w w' : parseSession p w = (Ok q, w') -> q = p /\ w' = w.
Proof. unfold parseSession. destruct (sessionValid p); [|done]. by intros [= -> ->]. Qed.

Lemma deliver_ok theSession rid roomId now d row s p a w w' :
  (forall x, x ∈ sessions d -> ss_kind x = teacher_principal <-> is_Some (ss_teacher_id x)) ->
  identity_ok theSession rid now d row -> deliver roomId row w = (Ok (Delivery s p a), w') ->
  s = ss_id (id_session row) /\ belongs p a (id_session row) rid roomId d.
Proof.
  intros Hcheck [Hs Hthe Hlive Hroom Hrid Hmember Hrel Hdel] Hd.
  pose proof (Hcheck _ Hs) as Hk. unfold deliver in Hd.
  destruct Hrel as [[Hkind Ht]|[Hkind (m & Hm & Hmr)]]; rewrite Hkind in Hd.
  - rewrite <- Ht in Hd. unfold mbind, M_bind in Hd.
    destruct (parseSession _ w) as [[q|] w1] eqn:Hq; [|done]. apply parseSession_ok in Hq as [-> ->].
    unfold mret, M_ret in Hd. simplify_eq. split; [done|]. simpl. split_and!; try done. eauto.
  - destruct (ss_teacher_id (id_session row)) as [t|] eqn:Et.
    { assert (ss_kind (id_session row) = teacher_principal) by (apply Hk; eauto). congruence. }
    rewrite Hm in Hd. destruct (_ && _) eqn:Hc; [|unfold mret, M_ret in Hd; by simplify_eq].
    unfold mbind, M_bind in Hd. destruct (parseSession _ w) as [[q|] w1] eqn:Hq; [|done].
    apply parseSession_ok in Hq as [-> ->]. unfold mret, M_ret in Hd. simplify_eq. split; [done|].
    destruct (Hmember m Hm) as [Hin Hid]. split_bools. simpl. split_and!; try done. exists m. done.
Qed.

(** The rows of [auth_session] satisfy the check of its table: a teacher's session has a
    teacher. *)
Definition sessions_checked (d : database) : Prop :=
  forall x, x ∈ sessions d -> ss_kind x = teacher_principal <-> is_Some (ss_teacher_id x).

(** Every frame of a socket is decided anew: when the session of the socket has
    ended the answer is 4401, and when the answer is a principal, the session was live
    at that moment, the principal is the session's and belongs to the room of the socket,
    and no deletion of the room is under way. *)
Theorem reauthorize_sound sessionId roomId w :
  isUuid sessionId = true -> isUuid roomId = true -> sessions_checked (db w) ->
  let '(r, w') := reauthorize sessionId roomId w in
  db w' = db w /\
  (existsb (fun s => bool_decide (ss_id s = lower sessionId) && liveSession (db_now (txs w)) s) (sessions (db w)) = false
   -> r = Ok (CloseWith 4401)) /\
  forall s p a, r = Ok (Delivery s p a) ->
    s = lower sessionId
    /\ deletionActiveIn (lower roomId) (db w) = false
    /\ exists row, row ∈ sessions (db w) /\ ss_id row = lower sessionId
         /\ liveSession (db_now (S (txs w))) row = true
         /\ belongs p a row (lower roomId) roomId (db w).
Proof.
  intros Hs Hr Hcheck. unfold reauthorize.
  rewrite (bind_run _ _ _ _ _ (uuidOf_isUuid sessionId w Hs)).
  rewrite (bind_run _ _ _ _ _ (statement_run Pool _ w)). rewrite select_existsb.
  destruct (select_where _ _) as [|x l]; [by split_and!|].
  rewrite (bind_run _ _ _ _ _ (uuidOf_isUuid roomId _ Hr)).
  rewrite (bind_run _ _ _ _ _ (statement_run Pool _ _)).
  set (rows := identities _ _ _ _). destruct rows as [|row rows'] eqn:Hrows; [by split_and!|].
  assert (identity_ok (fun s => bool_decide (ss_id s = lower sessionId)) (lower roomId)
            (db_now (S (txs w))) (db w) row) as Hok.
  { apply identities_ok. fold rows. subst rows. simpl in Hrows. rewrite Hrows. left. }
  pose proof (io_deletion _ _ _ _ _ Hok) as Hdel.
  destruct (id_deletion_active row); [by split_and!|].
  destruct (deliver roomId row _) as [r w'] eqn:Hd.
  assert (w' = after Pool (after Pool w)) as ->.
  { revert Hd. unfold deliver, parseSession. intros Hd. repeat case_match; unfold mbind, M_bind, mret, M_ret, throw in Hd;
      by simplify_eq. }
  split_and!; [done|done|]. intros s p a ->.
  eapply deliver_ok in Hd as [-> Hb]; [|exact Hcheck|exact Hok].
  destruct Hok as [Hin Hthe Hlive _ _ _ _ _]. apply bool_decide_eq_true in Hthe.
  split_and!; [done|done|]. exists (id_session row). done.
Qed.

(** The upgrade of a socket asks for more than a read over HTTP: a principal is
    answered only to the token of a live session, for a room that is neither closed nor
    being deleted and that the principal belongs to; and the same token reads a closed
    room over HTTP. *)
Theorem upgrade_sound token roomId reject w :
  isUuid roomId = true -> sessions_checked (db w) ->
  forall s p a w', authenticateWith (Some token) roomId reject w = (Ok (Delivery s p a), w') ->
  exists row r, row ∈ sessions (db w) /\ ss_id row = s /\ ss_token_hash row = sha256_hex token
    /\ liveSession (db_now (txs w)) row = true
    /\ r ∈ rooms (db w) /\ rm_id r = lower roomId
    /\ deletionActiveIn (lower roomId) (db w) = false
    /\ (reject = true -> rm_status r <> closed)
    /\ belongs p a row (lower roomId) roomId (db w).
Proof.
  intros Hr Hcheck s p a w' Ha. unfold authenticateWith in Ha. destruct token as [|ch token]; [done|].
  destruct (_ <? _); [done|].
  rewrite (bind_run _ _ _ _ _ (uuidOf_isUuid roomId w Hr)) in Ha.
  rewrite (bind_run _ _ _ _ _ (statement_run Pool _ w)) in Ha.
  set (rows := identities _ _ _ _) in Ha. destruct rows as [|row rows'] eqn:Hrows; [done|].
  assert (identity_ok (fun s => bool_decide (ss_token_hash s = sha256_hex (String ch token))) (lower roomId)
            (db_now (txs w)) (db w) row) as Hok.
  { apply identities_ok. fold rows. subst rows. simpl in Hrows. rewrite Hrows. left. }
  pose proof (io_deletion _ _ _ _ _ Hok) as Hdel.
  destruct (id_deletion_active row); [done|].
  destruct (reject && _) eqn:Hc; [done|].
  eapply deliver_ok in Ha as [-> Hb]; [|exact Hcheck|exact Hok].
  destruct Hok as [Hin Hthe Hlive Hroom Hrid _ _ _]. apply bool_decide_eq_true in Hthe.
  exists (id_session row), (id_room row). split_and!; try done.
  intros ->. simpl in Hc. by apply bool_decide_eq_false in Hc.
Qed.
End Laws.

(** ** Deletion tells a stranger that a room exists

    The comment of [authorizeRoomAction] wants a foreign room to be indistinguishable
    from one that does not exist; while a room is being deleted it is not. *)
Section Stranger.
Context `{Postgres} `{Environment} `{Schemas} (HP : PostgresLaws).

(** While a room is being deleted, any principal with a session identifier is told so,
    whether or not it has ever had anything to do with the room; about a room that does
    not exist the same request answers that there is none. A stranger can tell the two
    apart. *)
Theorem deletion_reveals_room c t a sid rid action w :
  isUuid sid = true -> isUuid t = true -> isUuid a = true -> isUuid rid = true ->
  (forall r, r ∈ rooms (db w) -> rm_id r = lower rid -> rm_teacher_id r <> lower t) ->
  fst (authorizeRoomAction c (Some (TeacherSession t a)) (Some sid) rid action w)
  = Err (if deletionActiveIn (lower rid) (db w) then DELETION_IN_PROGRESS else ROOM_NOT_FOUND).
Proof.
  intros Hs Ht Ha Hr Hforeign.
  pose proof (authorizeRoomAction_run HP c (TeacherSession t a) sid rid action w Hs (conj Ht Ha)) as Hrun.
  destruct (authorizeRoomAction _ _ _ _ _ w) as [res w']. destruct Hrun as [_ ->]. simpl.
  rewrite Hr. simpl. destruct (deletionActiveIn _ _); [done|].
  assert (existsb (ownsRoom (lower rid) (lower t)) (rooms (db w)) = false) as Hno.
  { apply not_true_iff_false. intros (r & Hin & Ho)%existsb_exists. unfold ownsRoom in Ho. split_bools.
    apply (Hforeign r); [by apply list_elem_of_In|done|done]. }
  unfold permitted. rewrite Hno. simpl. by rewrite andb_false_r.
Qed.
End Stranger.

(** ** A classroom *)

Definition demoStudent : string := "66666666-6666-4666-8666-666666666661".
Definition demoMember : string := "66666666-6666-4666-8666-666666666662".
Definition demoStudentSession : string := "55555555-5555-4555-8555-555555555556".
Definition demoClassroom : world :=
  World (Database [demoRow] [] [] [] []
    [SessionRow demoSession "teacher-token" teacher_principal (Some demoTeacher) None 1893456000000 None;
     SessionRow demoStudentSession "student-token" student_principal None (Some demoMember) 1893456000000 None]
    [MemberRow demoMember demoStudent demoRoom 1 "探索者 A" "code"] [] [] [] no_accounts) 0 0 0 (Locals 0 1 None).
Definition demoPrincipal : AuthSession := StudentSession demoRoom demoMember demoStudent "探索者 A" demoNova.

Lemma demoClassroom_checked : sessions_checked (db demoClassroom).
Proof.
  intros x Hx. simpl in Hx. rewrite !elem_of_cons, elem_of_nil in Hx.
  destruct Hx as [->|[->|[]]]; simpl; split; try done.
Qed.

Lemma authorizeRoomAction_exact_witness :
  snd (authorizeRoomAction Pool (Some demoPrincipal) (Some demoStudentSession) demoRoom media_write demoClassroom)
    = after Pool (after Pool demoClassroom)
  /\ fst (authorizeRoomAction Pool (Some demoPrincipal) (Some demoStudentSession) demoRoom media_write demoClassroom)
    = Ok (Grant demoRoom demoStudent r_student media_write).
Proof.
  split; [vm_compute; reflexivity|].
  assert (principalIds demoPrincipal) as Hp by (vm_compute; done).
  pose proof (authorizeRoomAction_exact concrete_postgres_laws Pool demoPrincipal demoStudentSession demoRoom
    media_write demoClassroom eq_refl Hp) as HH.
  assert (permitted demoPrincipal demoStudentSession demoRoom media_write
    (timeOf Pool (after Pool demoClassroom)) (db demoClassroom) = true) as Hok by (vm_compute; reflexivity).
  destruct (authorizeRoomAction _ _ _ _ _ _) as [r w']. destruct HH as [_ ->]. cbn [fst]. rewrite Hok.
  vm_compute. reflexivity.
Defined.

Lemma reauthorize_sound_witness :
  fst (reauthorize demoStudentSession demoRoom demoClassroom)
    = Ok (Delivery demoStudentSession demoPrincipal demoStudent)
  /\ deletionActiveIn (lower demoRoom) (db demoClassroom) = false.
Proof.
  assert (fst (reauthorize demoStudentSession demoRoom demoClassroom)
    = Ok (Delivery demoStudentSession demoPrincipal demoStudent)) as E by (vm_compute; reflexivity).
  split; [exact E|].
  pose proof (reauthorize_sound concrete_postgres_laws demoStudentSession demoRoom demoClassroom eq_refl eq_refl
    demoClassroom_checked) as HH.
  destruct (reauthorize demoStudentSession demoRoom demoClassroom) as [r w'].
  destruct HH as (_ & _ & HH). exact (proj1 (proj2 (HH _ _ _ E))).
Defined.

Lemma upgrade_sound_witness :
  exists row r, ss_token_hash row = "student-token"%string /\ rm_status r <> closed
    /\ row ∈ sessions (db demoClassroom) /\ r ∈ rooms (db demoClassroom).
Proof.
  assert (exists w', authenticateWith (Some "student-token"%string) demoRoom true demoClassroom
    = (Ok (Delivery demoStudentSession demoPrincipal demoStudent), w')) as [w' E]
    by (eexists; vm_compute; reflexivity).
  destruct (upgrade_sound concrete_postgres_laws "student-token" demoRoom true demoClassroom eq_refl
    demoClassroom_checked _ _ _ _ E) as (row & r & Hin & _ & Ht & _ & Hr & _ & _ & Hcl & _).
  exists row, r. split; [exact Ht|]. split; [exact (Hcl eq_refl)|]. split; [exact Hin|exact Hr].
Defined.

Definition otherTeacher : string := "22222222-2222-4222-8222-22222222222b".
Lemma deletion_reveals_room_witness :
  fst (authorizeRoomAction Pool (Some (TeacherSession otherTeacher otherTeacher)) (Some demoSession) demoRoom room_read
    (set_db (set_deletions [DeletionRow demoCommand (Some demoRoom) demoTeacher d_dead] (db demoClassroom)) demoClassroom))
  = Err DELETION_IN_PROGRESS.
Proof.
  apply (deletion_reveals_room concrete_postgres_laws Pool otherTeacher otherTeacher demoSession demoRoom room_read
    (set_db (set_deletions [DeletionRow demoCommand (Some demoRoom) demoTeacher d_dead] (db demoClassroom)) demoClassroom)
    eq_refl eq_refl eq_refl eq_refl).
  intros r Hin _. simpl in Hin. rewrite elem_of_cons, elem_of_nil in Hin. destruct Hin as [->|[]]. done.
Defined.
