(* ===== verification/Connection.v ===== *)
(** * The server's side of a room socket

    [apps/server/src/modules/realtime/connection.ts], [room-hub.ts] ([resume], [leave],
    the broadcasts), [backpressure.ts], [ephemeral-signals.ts] and
    [projection-delivery-decision.ts].

    The handlers of a connection are asynchronous: a handler is cut at every [await] into
    a task that waits for an answer, and the inputs of the machine resolve the tasks in
    any order, with deliveries, timers and other frames in between. What the connection
    does to its socket and to the hub is a log. *)
From S2P Require Import Prelude Text JsDate JsValue Contracts Database Concrete JsMap Frames ClientLedger Authorization.
#[local] Set Warnings "-register-all,-clear-no-such-hyp,-level-tolerance".

(** ** [backpressure.ts] *)

Inductive BackpressureState : Type := bp_ok | bp_warn | bp_close.
#[global] Instance BackpressureState_eq_dec : EqDecision BackpressureState.
Proof. solve_decision. Defined.
Record BackpressureThresholds : Type := Thresholds { th_warn : jsnum; th_close : jsnum }.
Definition DEFAULTS : BackpressureThresholds := Thresholds (NInt 256000) (NInt 1000000).

(** The state, and whether the socket is closed with 1013. *)
Definition enforceBackpressure (bufferedAmount : jsnum) (th : BackpressureThresholds) : BackpressureState * bool :=
  match asSafeInteger bufferedAmount, asSafeInteger (th_warn th), asSafeInteger (th_close th) with
  | Some amount, Some warn, Some close =>
      if amount <? 0 then (bp_close, false)
      else if (warn <? 0) || (close <=? warn) then (bp_close, false)
      else if close <=? amount then (bp_close, true)
      else (if warn <=? amount then bp_warn else bp_ok, false)
  | _, _, _ => (bp_close, false)
  end.

(** ** [ephemeral-signals.ts] *)

Record signal : Type := Signal { sg_seq : Z; sg_expiresAt : Z }.
Record EphemeralSignals : Type := MkSignals {
  es_presence : list (string * signal);
  es_typing : list (string * signal);
}.
Definition noSignals : EphemeralSignals := MkSignals [] [].

(** [old && seq <= old.seq]. *)
Definition staleSignal (actorId : string) (seq : Z) (m : list (string * signal)) : bool :=
  match assoc actorId m with Some old => seq <=? sg_seq old | None => false end.
Definition acceptPresence (actorId : string) (state : PresenceState) (seq now : Z) (e : EphemeralSignals)
    : option ServerFrame * EphemeralSignals :=
  if staleSignal actorId seq (es_presence e) then (None, e)
  else (Some (FPresence actorId state (toISOString (now + 30000))),
        MkSignals (map_set actorId (Signal seq (now + 30000)) (es_presence e)) (es_typing e)).
Definition acceptTyping (actorId : string) (is_active : bool) (seq now : Z) (e : EphemeralSignals)
    : option ServerFrame * EphemeralSignals :=
  if staleSignal actorId seq (es_typing e) then (None, e)
  else (Some (FTyping actorId is_active (toISOString (now + 5000))),
        MkSignals (es_presence e) (map_set actorId (Signal seq (now + 5000)) (es_typing e))).
Definition expired (now : Z) (x : string * signal) : bool := sg_expiresAt (snd x) <=? now.
Definition expire (now : Z) (e : EphemeralSignals) : list ServerFrame * EphemeralSignals :=
  (map (fun x => FPresence (fst x) away (toISOString now)) (List.filter (expired now) (es_presence e))
   ++ map (fun x => FTyping (fst x) false (toISOString now)) (List.filter (expired now) (es_typing e)),
   MkSignals (List.filter (fun x => negb (expired now x)) (es_presence e))
             (List.filter (fun x => negb (expired now x)) (es_typing e))).
Definition remove (actorId : string) (now : Z) (e : EphemeralSignals) : list ServerFrame * EphemeralSignals :=
  ([FPresence actorId away (toISOString now); FTyping actorId false (toISOString now)],
   MkSignals (map_delete actorId (es_presence e)) (map_delete actorId (es_typing e))).

(** ** Errors the browser may see *)

Definition roomErrorText (c : RoomErrorCode) : string :=
  match c with
  | FORBIDDEN => "FORBIDDEN" | INVALID_COMMAND => "INVALID_COMMAND"
  | ROOM_DELETION_IN_PROGRESS => "ROOM_DELETION_IN_PROGRESS" | ROOM_NOT_OPEN => "ROOM_NOT_OPEN"
  | MESSAGE_NOT_FOUND => "MESSAGE_NOT_FOUND" | REVISION_CONFLICT => "REVISION_CONFLICT"
  end.
Definition serviceErrorText (c : ServiceErrorCode) : string :=
  match c with
  | ROOM_FORBIDDEN => "ROOM_FORBIDDEN" | JOIN_FORBIDDEN => "JOIN_FORBIDDEN"
  | SERVICE_ROOM_NOT_FOUND => "ROOM_NOT_FOUND" | SERVICE_DELETION_IN_PROGRESS => "DELETION_IN_PROGRESS"
  | ROOM_CODE_UNAVAILABLE => "ROOM_CODE_UNAVAILABLE"
  | RETENTION_POLICY_NOT_CONFIGURED => "RETENTION_POLICY_NOT_CONFIGURED"
  end.
Definition errorMessage (e : error) : string :=
  match e with RoomError c _ => roomErrorText c | RoomServiceError c => serviceErrorText c | Failure m => m end.
Definition COMMAND_REJECT_CODES : list RejectCode :=
  [RJ_FORBIDDEN; RJ_ROOM_DELETION_IN_PROGRESS; RJ_ROOM_NOT_OPEN; RJ_MESSAGE_NOT_FOUND; RJ_REVISION_CONFLICT;
   RJ_INVALID_COMMAND].
Definition commandRejectCode (e : error) : RejectCode :=
  default RJ_INTERNAL (spelled rejectText COMMAND_REJECT_CODES (errorMessage e)).

(** ** The connection *)

Definition MAX_INBOUND_FRAME_BYTES : Z := 16 * 1024.
Definition MAX_LIVE_BUFFER_EVENTS : Z := 512.

Record ConnectionIdentity : Type := MkIdentity {
  ci_sessionId : string;
  ci_roomId : string;
  ci_principal : AuthSession;
  ci_actorId : string;
}.

(** What a handler waits for. *)
Inductive task : Type :=
| AwaitHelloAuth                                          (** [reauthorize] of the hello *)
| AwaitRoomState
| AwaitRows                                               (** the query of [resume] *)
| AwaitRowAuth (seq : Z) (envelope : json) (rest : list (Z * json)) (through : Z)
| AwaitFrameAuth (f : ClientFrame)
| AwaitDispatch (commandId : string).

Inductive action : Type :=
| Out (f : ServerFrame)
| SocketClose (code : Z)
| Broadcast (f : ServerFrame)
| Leave.

Record connection : Type := Connection {
  cn_identity : ConnectionIdentity;
  cn_hello : bool;
  cn_closed : bool;
  cn_replaying : bool;
  cn_resumeFrom : Z;
  cn_replayThrough : Z;
  cn_liveBuffer : list RoomEventEnvelope;
  cn_lastPresence : Z;
  cn_lastTyping : Z;
  cn_lastClientSeq : Z;
  cn_signals : EphemeralSignals;
  cn_tasks : list task;
  cn_bufferedAmount : option jsnum;     (** absent in test doubles *)
  cn_log : list action;                 (** oldest first *)
}.
Definition newConnection (i : ConnectionIdentity) : connection :=
  Connection i false false true 0 0 [] 0 0 (-1) noSignals [] None [].

Definition set_gate (hello replaying : bool) (from through : Z) (buffer : list RoomEventEnvelope) (c : connection)
    : connection :=
  Connection (cn_identity c) hello (cn_closed c) replaying from through buffer (cn_lastPresence c)
    (cn_lastTyping c) (cn_lastClientSeq c) (cn_signals c) (cn_tasks c) (cn_bufferedAmount c) (cn_log c).
Definition set_ephemeral (presence typing seq : Z) (e : EphemeralSignals) (c : connection) : connection :=
  Connection (cn_identity c) (cn_hello c) (cn_closed c) (cn_replaying c) (cn_resumeFrom c) (cn_replayThrough c)
    (cn_liveBuffer c) presence typing seq e (cn_tasks c) (cn_bufferedAmount c) (cn_log c).
Definition set_tasks (l : list task) (c : connection) : connection :=
  Connection (cn_identity c) (cn_hello c) (cn_closed c) (cn_replaying c) (cn_resumeFrom c) (cn_replayThrough c)
    (cn_liveBuffer c) (cn_lastPresence c) (cn_lastTyping c) (cn_lastClientSeq c) (cn_signals c) l
    (cn_bufferedAmount c) (cn_log c).
Definition set_buffered (n : option jsnum) (c : connection) : connection :=
  Connection (cn_identity c) (cn_hello c) (cn_closed c) (cn_replaying c) (cn_resumeFrom c) (cn_replayThrough c)
    (cn_liveBuffer c) (cn_lastPresence c) (cn_lastTyping c) (cn_lastClientSeq c) (cn_signals c) (cn_tasks c)
    n (cn_log c).
Definition add_log (l : list action) (c : connection) : connection :=
  Connection (cn_identity c) (cn_hello c) (cn_closed c) (cn_replaying c) (cn_resumeFrom c) (cn_replayThrough c)
    (cn_liveBuffer c) (cn_lastPresence c) (cn_lastTyping c) (cn_lastClientSeq c) (cn_signals c) (cn_tasks c)
    (cn_bufferedAmount c) (cn_log c ++ l).
Definition set_closed (c : connection) : connection :=
  Connection (cn_identity c) (cn_hello c) true (cn_replaying c) (cn_resumeFrom c) (cn_replayThrough c)
    [] (cn_lastPresence c) (cn_lastTyping c) (cn_lastClientSeq c) (cn_signals c) (cn_tasks c)
    (cn_bufferedAmount c) (cn_log c).
Definition await (t : task) (c : connection) : connection := set_tasks (cn_tasks c ++ [t]) c.

Definition close (code : Z) (c : connection) : connection :=
  if cn_closed c then c else add_log [SocketClose code; Leave] (set_closed c).

Definition send (f : ServerFrame) (c : connection) : connection :=
  if cn_closed c then c else
  match cn_bufferedAmount c with
  | Some amount =>
      let '(state, closes) := enforceBackpressure amount DEFAULTS in
      if decide (state = bp_close)
      then close 1013 (add_log (if closes then [SocketClose 1013] else []) c)
      else add_log [Out f] c
  | None => add_log [Out f] c
  end.

Definition sendDurable (event : RoomEventEnvelope) (c : connection) : connection :=
  if cn_closed c then c
  else if negb (cn_hello c) || cn_replaying c then
    if MAX_LIVE_BUFFER_EVENTS <=? Z.of_nat (length (cn_liveBuffer c)) then
      close 4409 (send (FSnapshotRequired (cn_resumeFrom c) (Z.max (cn_resumeFrom c) (cn_replayThrough c))) c)
    else set_gate (cn_hello c) (cn_replaying c) (cn_resumeFrom c) (cn_replayThrough c)
           (cn_liveBuffer c ++ [event]) c
  else send (FEvent event) c.

(** The flush of [finishReplay]: only what the replay has not covered. *)
Fixpoint flush (pending : list RoomEventEnvelope) (c : connection) : connection :=
  match pending with
  | [] => c
  | e :: pending' =>
      if cn_replayThrough c <? roomSeq e then
        let c := send (FEvent e) c in
        flush pending' (set_gate (cn_hello c) (cn_replaying c) (cn_resumeFrom c) (roomSeq e) (cn_liveBuffer c) c)
      else flush pending' c
  end.
Definition bySeq (a b : RoomEventEnvelope) : bool := roomSeq a <=? roomSeq b.
Definition finishReplay (throughRoomSeq : Z) (c : connection) : connection :=
  if cn_closed c then c else
  flush (sort_by bySeq (cn_liveBuffer c))
    (set_gate (cn_hello c) false (cn_resumeFrom c) (Z.max (cn_replayThrough c) throughRoomSeq) [] c).

(** ** [RoomHub.resume] *)

Definition REPLAY_LIMIT : Z := 500.
(** The loop of [resume] up to its next [await]. *)
Definition replayNext (rows : list (Z * json)) (through : Z) (c : connection) : connection :=
  match rows with
  | [] => finishReplay through (send (FResumeComplete through) c)
  | (rowSeq, envelope) :: rest =>
      if negb (bool_decide (Z.abs rowSeq <= MAX_SAFE_INTEGER)) || negb (bool_decide (rowSeq = through + 1))
      then close 4409 (send (FSnapshotRequired (cn_resumeFrom c) through) c)
      else await (AwaitRowAuth rowSeq envelope rest through) c
  end.
(** The answer of the outbox: at most one row more than a replay may have. *)
Definition resumeRows (rows : list (Z * json)) (c : connection) : connection :=
  if REPLAY_LIMIT <? Z.of_nat (length rows) then
    close 4409 (send (FSnapshotRequired (cn_resumeFrom c) (default 0 (fst <$> last rows))) c)
  else replayNext rows (cn_resumeFrom c) c.

Section Connection.
Context `{Schemas}.

(** The body of the loop after the authorization of the row. *)
Definition replayRow (rowSeq : Z) (envelope : json) (rest : list (Z * json)) (through : Z)
    (c : connection) : connection :=
  match parseRoomEventEnvelope envelope with
  | None => close 4409 (send (FSnapshotRequired (cn_resumeFrom c) through) c)
  | Some event =>
      if negb (bool_decide (roomSeq event = rowSeq))
      then close 4409 (send (FSnapshotRequired (cn_resumeFrom c) through) c)
      else replayNext rest (roomSeq event) (send (FEvent event) c)
  end.

(** ** Frames of the browser *)

Definition broadcastAll (l : list ServerFrame) (c : connection) : connection := add_log (map Broadcast l) c.

(** The rest of [#handle] after [#reauthorize]. *)
Definition handleFrame (f : ClientFrame) (actorId : string) (now : Z) (c : connection) : connection :=
  match f with
  | CHeartbeat =>
      let '(gone, signals) := expire now (cn_signals c) in
      send (FHeartbeat (toISOString now))
        (broadcastAll gone (set_ephemeral (cn_lastPresence c) (cn_lastTyping c) (cn_lastClientSeq c) signals c))
  | CCommand command => await (AwaitDispatch (cm_commandId command)) c
  | CPresence state clientSeq =>
      if (now - cn_lastPresence c <? 5000) || (clientSeq <=? cn_lastClientSeq c) then c else
      let '(frame, signals) := acceptPresence actorId state clientSeq now (cn_signals c) in
      broadcastAll (option_list frame) (set_ephemeral now (cn_lastTyping c) clientSeq signals c)
  | CTyping is_active clientSeq =>
      if (now - cn_lastTyping c <? 500) || (clientSeq <=? cn_lastClientSeq c) then c else
      let '(frame, signals) := acceptTyping actorId is_active clientSeq now (cn_signals c) in
      broadcastAll (option_list frame) (set_ephemeral (cn_lastPresence c) now clientSeq signals c)
  | CHello _ _ => c
  end.

(** [#handle] up to its first [await]. *)
Definition handle (f : ClientFrame) (c : connection) : connection :=
  if cn_hello c then await (AwaitFrameAuth f) c
  else match f with
       | CHello _ resumeFrom =>
           await AwaitHelloAuth
             (set_gate true (cn_replaying c) resumeFrom (cn_replayThrough c) (cn_liveBuffer c) c)
       | _ => close 4400 c
       end.

(** [receive]: the size of the frame in bytes, and its value when it is JSON. *)
Definition receive (bytes : Z) (value : option json) (c : connection) : connection :=
  if cn_closed c then c
  else if MAX_INBOUND_FRAME_BYTES <? bytes then close 1009 c
  else match value ≫= parseClientFrame with
       | Some f => handle f c
       | None => close 4400 c
       end.

(** ** The machine *)

(** The answers tasks wait for. [None] is a rejected promise, which the [catch] of
    [receive] turns into a close with 4400. *)
Inductive answer : Type :=
| Authorized (a : option DeliveryAuthorization) (now : Z)
| RoomState (s : option (Z * RoomStatus)) (now : Z)
| Rows (rows : option (list (Z * json)))
| Dispatched (r : result error (Z * Z)).

Definition answerTask (t : task) (a : answer) (c : connection) : connection :=
  match t, a with
  | _, Authorized None _ | _, RoomState None _ | _, Rows None => close 4400 c
  | _, Authorized (Some (CloseWith code)) _ => close code c
  | AwaitHelloAuth, Authorized (Some (Delivery _ _ _)) _ => await AwaitRoomState c
  | AwaitRoomState, RoomState (Some (cursor, status)) now =>
      await AwaitRows (send (FWelcome (toISOString now) (ci_roomId (cn_identity c)) cursor status) c)
  | AwaitRows, Rows (Some rows) => resumeRows rows c
  | AwaitRowAuth rowSeq envelope rest through, Authorized (Some (Delivery _ _ _)) _ =>
      replayRow rowSeq envelope rest through c
  | AwaitFrameAuth f, Authorized (Some (Delivery _ _ actorId)) now => handleFrame f actorId now c
  | AwaitDispatch id, Dispatched (Ok (seq, revision)) => send (FAck id seq revision) c
  | AwaitDispatch id, Dispatched (Err e) => send (FReject (Some id) (commandRejectCode e) None) c
  | _, _ => c
  end.
(** The answer fits the question. *)
Definition fits (t : task) (a : answer) : bool :=
  match t, a with
  | (AwaitHelloAuth | AwaitRowAuth _ _ _ _ | AwaitFrameAuth _), Authorized _ _ => true
  | AwaitRoomState, RoomState _ _ => true
  | AwaitRows, Rows _ => true
  | AwaitDispatch _, Dispatched _ => true
  | _, _ => false
  end.

Inductive event : Type :=
| Receive (bytes : Z) (value : option json)
| Answer (n : nat) (a : answer)
| Durable (e : RoomEventEnvelope)
| Deliver (f : ServerFrame)             (** another frame of the hub *)
| HelloTimer
| HeartbeatTimer
| PeerClosed
| Evict (code : Z)
| BufferedAmount (n : option jsnum).

Definition step (c : connection) (e : event) : connection :=
  match e with
  | Receive bytes value => receive bytes value c
  | Answer n a =>
      match cn_tasks c !! n with
      | Some t => if fits t a then answerTask t a (set_tasks (delete n (cn_tasks c)) c) else c
      | None => c
      end
  | Durable ev => sendDurable ev c
  | Deliver f => send f c
  | HelloTimer => if cn_hello c then c else close 4400 c
  | HeartbeatTimer => if cn_closed c then c else receive 20 (Some (clientFrameJson CHeartbeat)) c
  | PeerClosed => close 1000 c
  | Evict code => close code c
  | BufferedAmount n => set_buffered n c
  end.
Definition run (c : connection) (es : list event) : connection := fold_left step es c.
End Connection.

(** ** What a step does to the gate *)

(** The frames sent, and the events and ends of replay among them. *)
Definition outs (l : list action) : list ServerFrame :=
  omap (fun a => match a with Out f => Some f | _ => None end) l.
Definition eventsOut (l : list ServerFrame) : list RoomEventEnvelope :=
  omap (fun f => match f with FEvent e => Some e | _ => None end) l.
Definition completions (l : list ServerFrame) : list Z :=
  omap (fun f => match f with FResumeComplete n => Some n | _ => None end) l.

Lemma outs_app a b : outs (a ++ b) = outs a ++ outs b.
Proof. apply omap_app. Qed.
Lemma eventsOut_app a b : eventsOut (a ++ b) = eventsOut a ++ eventsOut b.
Proof. apply omap_app. Qed.
Lemma completions_app a b : completions (a ++ b) = completions a ++ completions b.
Proof. apply omap_app. Qed.

(** The handlers of the replay among the tasks: there is one at most. *)
Definition isReplayTask (t : task) : bool :=
  match t with AwaitFrameAuth _ | AwaitDispatch _ => false | _ => true end.
Definition replayTasks (c : connection) : list task := List.filter isReplayTask (cn_tasks c).

(** [c'] differs from [c] in what was sent, [l], in having been closed, and outside of
    the gate; what was not sent was not sent because the connection is closed. *)
Record emits (l : list ServerFrame) (c c' : connection) : Prop := {
  em_hello : cn_hello c' = cn_hello c;
  em_replaying : cn_replaying c' = cn_replaying c;
  em_from : cn_resumeFrom c' = cn_resumeFrom c;
  em_through : cn_replayThrough c' = cn_replayThrough c;
  em_tasks : cn_tasks c' = cn_tasks c;
  em_buffer : cn_liveBuffer c' = cn_liveBuffer c \/ cn_liveBuffer c' = [];
  em_closed : cn_closed c = true -> cn_closed c' = true;
  em_outs : outs (cn_log c') = outs (cn_log c) ++ l
            \/ (outs (cn_log c') = outs (cn_log c) /\ cn_closed c' = true);
}.

Lemma emits_refl c : emits [] c c.
Proof. constructor; auto. left. by rewrite app_nil_r. Qed.
Lemma emits_close code c : emits [] c (close code c).
Proof.
  unfold close. destruct (cn_closed c) eqn:E; [by apply emits_refl|].
  constructor; simpl; auto. left. rewrite outs_app. done.
Qed.
Lemma emits_send f c : emits [f] c (send f c).
Proof.
  unfold send. destruct (cn_closed c) eqn:E; [constructor; auto|].
  assert (emits [f] c (add_log [Out f] c)) as Hout.
  { constructor; simpl; auto. left. by rewrite outs_app. }
  destruct (cn_bufferedAmount c) as [amount|]; [|done].
  destruct (enforceBackpressure amount DEFAULTS) as [state closes].
  destruct (decide (state = bp_close)); [|done].
  unfold close. simpl. rewrite E. constructor; simpl; auto. right. split; [|done].
  rewrite !outs_app. destruct closes; by rewrite ?app_nil_r.
Qed.
(** A frame that finds or leaves the connection closed is not sent. *)
Lemma emits_send_closed f c : cn_closed (send f c) = true -> emits [] c (send f c).
Proof.
  unfold send. destruct (cn_closed c) eqn:E; [by intros _; apply emits_refl|].
  destruct (cn_bufferedAmount c) as [amount|]; [|simpl; congruence].
  destruct (enforceBackpressure amount DEFAULTS) as [state closes].
  destruct (decide (state = bp_close)); [|simpl; congruence]. intros _.
  unfold close. simpl. rewrite E. constructor; simpl; auto. left.
  rewrite !outs_app. destruct closes; by rewrite ?app_nil_r.
Qed.
(** Two emissions in a row, when the second stops what the first has closed. *)
Lemma emits_nil_trans l c c' c'' : emits l c c' -> emits [] c' c'' -> emits l c c''.
Proof.
  intros [h r f t k b cl o] [h' r' f' t' k' b' cl' o']. constructor; try congruence; auto.
  - destruct b as [b|b], b' as [b'|b']; rewrite ?b', ?b; auto.
  - rewrite app_nil_r in o'.
    destruct o' as [->|[-> Hc]]; destruct o as [->|[-> Hc']]; auto.
Qed.
Lemma emits_close_after l c c' code : emits l c c' -> emits l c (close code c').
Proof. intros H. eapply emits_nil_trans; [exact H|apply emits_close]. Qed.

(** ** The invariant *)

(** Where the replay of a connection stands: it has sent the [n] events that follow the
    cursor of the browser, and nothing else that is durable before it is complete. *)
Inductive replay_phase (c : connection) : Prop :=
| rp_start :
    cn_hello c = false -> cn_replaying c = true -> replayTasks c = [] ->
    eventsOut (outs (cn_log c)) = [] -> completions (outs (cn_log c)) = [] -> replay_phase c
| rp_replaying n :
    cn_hello c = true -> cn_replaying c = true ->
    map roomSeq (eventsOut (outs (cn_log c))) = seqFrom (cn_resumeFrom c + 1) n ->
    completions (outs (cn_log c)) = [] ->
    (cn_closed c = true /\ (length (replayTasks c) <= 1)%nat \/
     match replayTasks c with
     | [AwaitRowAuth seq _ _ through] => through = cn_resumeFrom c + Z.of_nat n /\ seq = through + 1
     | [AwaitHelloAuth] | [AwaitRoomState] | [AwaitRows] => n = O
     | _ => False
     end) -> replay_phase c
| rp_live n live :
    cn_hello c = true -> cn_replaying c = false -> replayTasks c = [] ->
    (exists replayed, eventsOut (outs (cn_log c)) = replayed ++ live
       /\ map roomSeq replayed = seqFrom (cn_resumeFrom c + 1) n) ->
    (completions (outs (cn_log c)) = [cn_resumeFrom c + Z.of_nat n]
     \/ (completions (outs (cn_log c)) = [] /\ cn_closed c = true)) -> replay_phase c.

Record connection_ok (c : connection) : Prop := {
  co_buffer : Z.of_nat (length (cn_liveBuffer c)) <= MAX_LIVE_BUFFER_EVENTS;
  co_phase : replay_phase c;
}.

(** A frame that is not durable. *)
Definition transient (f : ServerFrame) : bool :=
  match f with FEvent _ | FResumeComplete _ => false | _ => true end.

Lemma replayTasks_emits l c c' : emits l c c' -> replayTasks c' = replayTasks c.
Proof. intros H. unfold replayTasks. by rewrite (em_tasks _ _ _ H). Qed.

Lemma emits_transient_ok l c c' :
  forallb transient l = true -> emits l c c' -> connection_ok c -> connection_ok c'.
Proof.
  intros Hl He [Hb Hp]. split.
  { destruct (em_buffer _ _ _ He) as [->| ->]; [done|]. unfold MAX_LIVE_BUFFER_EVENTS. simpl. lia. }
  assert (eventsOut l = [] /\ completions l = []) as [Hel Hcl].
  { clear He Hp. induction l as [|f l IH]; [done|]. simpl in Hl. apply andb_true_iff in Hl as [Hf Hl].
    destruct (IH Hl) as [E1 E2]. by destruct f. }
  assert (eventsOut (outs (cn_log c')) = eventsOut (outs (cn_log c))
          /\ completions (outs (cn_log c')) = completions (outs (cn_log c))) as [He1 He2].
  { destruct (em_outs _ _ _ He) as [->|[-> _]]; [|done].
    by rewrite eventsOut_app, completions_app, Hel, Hcl, !app_nil_r. }
  pose proof (replayTasks_emits _ _ _ He) as Ht. destruct He as [h r f t k b cl o].
  destruct Hp as [Hh Hr Hk Hev Hco|n Hh Hr Hev Hco Hk|n live Hh Hr Hk Hev Hco].
  - apply rp_start; congruence.
  - apply (rp_replaying _ n); try congruence. rewrite Ht, f. destruct Hk as [[Hc Hk]|Hk]; [left|right]; auto.
  - apply (rp_live _ n live); try congruence; rewrite ?He1, ?He2, f; [done|].
    destruct Hco as [Hco|[Hco Hc]]; auto.
Qed.
Lemma close_ok code c : connection_ok c -> connection_ok (close code c).
Proof. by eapply emits_transient_ok, emits_close. Qed.
Lemma send_ok f c : transient f = true -> connection_ok c -> connection_ok (send f c).
Proof. intros Hf. eapply emits_transient_ok, emits_send. simpl. by rewrite Hf. Qed.

(** A task that is not of the replay comes and goes. *)
Lemma await_ok t c : isReplayTask t = false -> connection_ok c -> connection_ok (await t c).
Proof.
  intros Ht [Hb Hp]. split; [done|].
  assert (replayTasks (await t c) = replayTasks c) as E.
  { unfold replayTasks, await. simpl. rewrite List.filter_app. simpl. rewrite Ht. apply app_nil_r. }
  destruct Hp as [|n|n live]; [apply rp_start|apply (rp_replaying _ n)|apply (rp_live _ n live)];
    rewrite ?E; done.
Qed.
Lemma delete_filter {A} (p : A -> bool) l n x :
  l !! n = Some x ->
  List.filter p l = List.filter p (take n l) ++ (if p x then [x] else []) ++ List.filter p (drop (S n) l)
  /\ List.filter p (delete n l) = List.filter p (take n l) ++ List.filter p (drop (S n) l).
Proof.
  intros Hx. rewrite delete_take_drop, List.filter_app. split; [|done].
  rewrite <- (take_drop_middle l n x Hx) at 1. rewrite List.filter_app. simpl. by destruct (p x).
Qed.
Lemma delete_filter_out {A} (p : A -> bool) l n x :
  l !! n = Some x -> p x = false -> List.filter p (delete n l) = List.filter p l.
Proof. intros Hx Hp. destruct (delete_filter p l n x Hx) as [-> ->]. by rewrite Hp. Qed.
Lemma delete_filter_only {A} (p : A -> bool) l n x :
  l !! n = Some x -> p x = true -> (length (List.filter p l) <= 1)%nat ->
  List.filter p l = [x] /\ List.filter p (delete n l) = [].
Proof.
  intros Hx Hp Hl. destruct (delete_filter p l n x Hx) as [E1 E2]. rewrite E1, Hp in *.
  rewrite E2. rewrite !length_app in Hl. simpl in Hl.
  destruct (List.filter p (take n l)), (List.filter p (drop (S n) l)); simpl in *; try lia. done.
Qed.
Lemma drop_task_ok n t c :
  cn_tasks c !! n = Some t -> isReplayTask t = false -> connection_ok c ->
  connection_ok (set_tasks (delete n (cn_tasks c)) c).
Proof.
  intros Hn Ht [Hb Hp]. split; [done|].
  assert (replayTasks (set_tasks (delete n (cn_tasks c)) c) = replayTasks c) as E.
  { unfold replayTasks. simpl. by apply (delete_filter_out _ _ _ t). }
  destruct Hp as [|m|m live]; [apply rp_start|apply (rp_replaying _ m)|apply (rp_live _ m live)];
    rewrite ?E; done.
Qed.
Lemma ephemeral_ok p t s e c : connection_ok c -> connection_ok (set_ephemeral p t s e c).
Proof.
  intros [Hb Hp]. split; [done|].
  destruct Hp as [|m|m live]; [apply rp_start|apply (rp_replaying _ m)|apply (rp_live _ m live)]; done.
Qed.
Lemma broadcast_ok l c : connection_ok c -> connection_ok (broadcastAll l c).
Proof.
  apply (emits_transient_ok []); [done|]. unfold broadcastAll. constructor; simpl; auto. left.
  rewrite outs_app. f_equal. by induction l.
Qed.

Lemma buffer_ok e c :
  connection_ok c -> (cn_hello c = false \/ cn_replaying c = true) ->
  Z.of_nat (length (cn_liveBuffer c)) < MAX_LIVE_BUFFER_EVENTS ->
  connection_ok (set_gate (cn_hello c) (cn_replaying c) (cn_resumeFrom c) (cn_replayThrough c)
                   (cn_liveBuffer c ++ [e]) c).
Proof.
  intros [Hb Hp] _ Hlt. split; [simpl; rewrite length_app; simpl; lia|].
  destruct Hp as [|m|m live]; [apply rp_start|apply (rp_replaying _ m)|apply (rp_live _ m live)]; done.
Qed.

(** A live event extends the live part. *)
Lemma live_event_ok e c : connection_ok c -> cn_replaying c = false -> connection_ok (send (FEvent e) c).
Proof.
  intros [Hb Hp] Hr. pose proof (emits_send (FEvent e) c) as He.
  split. { destruct (em_buffer _ _ _ He) as [->| ->]; [done|]. unfold MAX_LIVE_BUFFER_EVENTS. simpl. lia. }
  pose proof (replayTasks_emits _ _ _ He) as Ht. destruct He as [h r f t k b cl o].
  destruct Hp as [| |n live Hh _ Hk (replayed & Hev & Hseq) Hco]; [congruence|congruence|].
  destruct o as [o|[o Hc]].
  - apply (rp_live _ n (live ++ [e])); try congruence.
    + exists replayed. rewrite o, f, eventsOut_app, Hev. split; [by rewrite <- app_assoc|done].
    + rewrite o, f, completions_app. simpl. rewrite app_nil_r. destruct Hco as [Hco|[Hco Hc]]; auto.
  - apply (rp_live _ n live); try congruence.
    + exists replayed. by rewrite o, f.
    + rewrite o, f. destruct Hco as [Hco|[Hco _]]; auto.
Qed.

Lemma set_through_ok z c : connection_ok c ->
  connection_ok (set_gate (cn_hello c) (cn_replaying c) (cn_resumeFrom c) z (cn_liveBuffer c) c).
Proof.
  intros [Hb Hp]. split; [done|].
  destruct Hp as [|m|m live]; [apply rp_start|apply (rp_replaying _ m)|apply (rp_live _ m live)]; done.
Qed.
Lemma flush_ok pending c : connection_ok c -> cn_replaying c = false -> connection_ok (flush pending c).
Proof.
  revert c. induction pending as [|e pending IH]; intros c Hc Hr; [done|]. simpl.
  destruct (_ <? _); [|by apply IH]. apply IH.
  - apply set_through_ok. by apply live_event_ok.
  - simpl. by rewrite (em_replaying _ _ _ (emits_send (FEvent e) c)).
Qed.

(** ** The replay *)

(** A connection in the middle of the replay, between two tasks. *)
Record between (n : nat) (c : connection) : Prop := {
  bt_buffer : Z.of_nat (length (cn_liveBuffer c)) <= MAX_LIVE_BUFFER_EVENTS;
  bt_hello : cn_hello c = true;
  bt_replaying : cn_replaying c = true;
  bt_tasks : replayTasks c = [];
  bt_events : exists m, map roomSeq (eventsOut (outs (cn_log c))) = seqFrom (cn_resumeFrom c + 1) m
                        /\ (cn_closed c = false -> m = n);
  bt_completions : completions (outs (cn_log c)) = [];
}.

Lemma between_closed n c : between n c -> cn_closed c = true -> connection_ok c.
Proof.
  intros [Hb Hh Hr Ht (m & Hm & _) Hc] Hcl. split; [done|]. apply (rp_replaying _ m); try done.
  left. rewrite Ht. simpl. split; [done|lia].
Qed.
Lemma between_emits n l c c' :
  forallb transient l = true -> emits l c c' -> between n c -> between n c'.
Proof.
  intros Hl He [Hb Hh Hr Ht (m & Hm & Hn) Hc].
  assert (eventsOut l = [] /\ completions l = []) as [Hel Hcl].
  { clear He. induction l as [|f l IH]; [done|]. simpl in Hl. apply andb_true_iff in Hl as [Hf Hl].
    destruct (IH Hl) as [E1 E2]. by destruct f. }
  assert (eventsOut (outs (cn_log c')) = eventsOut (outs (cn_log c))
          /\ completions (outs (cn_log c')) = completions (outs (cn_log c))) as [He1 He2].
  { destruct (em_outs _ _ _ He) as [->|[-> _]]; [|done].
    by rewrite eventsOut_app, completions_app, Hel, Hcl, !app_nil_r. }
  constructor; rewrite ?He1, ?He2, ?(em_hello _ _ _ He), ?(em_replaying _ _ _ He), ?(em_from _ _ _ He),
    ?(replayTasks_emits _ _ _ He); try done.
  - destruct (em_buffer _ _ _ He) as [->| ->]; [done|]. unfold MAX_LIVE_BUFFER_EVENTS. simpl. lia.
  - exists m. split; [done|]. intros Hc'. apply Hn. destruct (cn_closed c) eqn:E; [|done].
    rewrite (em_closed _ _ _ He E) in Hc'. done.
Qed.
Lemma close_is_closed code c : cn_closed (close code c) = true.
Proof. unfold close. destruct (cn_closed c) eqn:E; done. Qed.

Lemma between_refused n a t code c : between n c -> connection_ok (close code (send (FSnapshotRequired a t) c)).
Proof.
  intros Hc. eapply between_closed; [|apply close_is_closed].
  by apply (between_emits n [FSnapshotRequired a t] c); [|apply emits_close_after, emits_send|].
Qed.
Lemma between_await n t c :
  between n c -> isReplayTask t = true ->
  match t with
  | AwaitRowAuth seq _ _ through => through = cn_resumeFrom c + Z.of_nat n /\ seq = through + 1
  | _ => n = O
  end -> connection_ok (await t c).
Proof.
  intros [Hb Hh Hr Ht (m & Hm & Hn) Hc] Hrt Htask.
  assert (replayTasks (await t c) = [t]) as E.
  { unfold replayTasks, await in *. simpl. rewrite List.filter_app. simpl. by rewrite Hrt, Ht. }
  split; [done|]. apply (rp_replaying _ m); try done. rewrite E.
  destruct (cn_closed c) eqn:Hcl; [left; simpl; split; [done|lia]|right].
  rewrite (Hn eq_refl). by destruct t.
Qed.

Lemma replayNext_ok n rows through c :
  between n c -> through = cn_resumeFrom c + Z.of_nat n -> connection_ok (replayNext rows through c).
Proof.
  intros Hc Ht. destruct rows as [|[seq env] rest]; simpl.
  - unfold finishReplay. pose proof (emits_send (FResumeComplete through) c) as He.
    destruct (cn_closed (send _ c)) eqn:Hcl.
    { eapply between_closed; [|exact Hcl].
      by apply (between_emits n [] c); [|apply emits_send_closed|]. }
    destruct Hc as [Hb Hh Hr Htk (m & Hm & Hn) Hco].
    assert (cn_closed c = false) as Hcl0.
    { destruct (cn_closed c) eqn:E; [|done]. by rewrite (em_closed _ _ _ He E) in Hcl. }
    rewrite (Hn Hcl0) in Hm. apply flush_ok; [|done]. split; [simpl; unfold MAX_LIVE_BUFFER_EVENTS; lia|].
    destruct (em_outs _ _ _ He) as [o|[_ o]]; [|congruence].
    apply (rp_live _ n []); simpl.
    + by rewrite (em_hello _ _ _ He).
    + done.
    + unfold replayTasks. simpl. by rewrite (em_tasks _ _ _ He).
    + exists (eventsOut (outs (cn_log c))). rewrite o, (em_from _ _ _ He), eventsOut_app. simpl. by rewrite !app_nil_r.
    + left. rewrite o, (em_from _ _ _ He), completions_app, Hco. simpl. by rewrite Ht.
  - destruct (_ || _) eqn:Hbad; [by eapply between_refused|].
    apply orb_false_iff in Hbad as [_ Hs%negb_false_iff]. apply bool_decide_eq_true in Hs.
    by apply (between_await n).
Qed.

Lemma replayRow_ok `{Schemas} n seq env rest through c :
  between n c -> through = cn_resumeFrom c + Z.of_nat n -> seq = through + 1 ->
  connection_ok (replayRow seq env rest through c).
Proof.
  intros Hc Ht Hs. unfold replayRow. destruct (parseRoomEventEnvelope env) as [e|]; [|by eapply between_refused].
  destruct (negb _) eqn:Hbad; [by eapply between_refused|].
  apply negb_false_iff, bool_decide_eq_true in Hbad.
  pose proof (emits_send (FEvent e) c) as He.
  destruct (cn_closed (send (FEvent e) c)) eqn:Hcl.
  { (* the socket was closed: what the loop goes on to do is not sent *)
    assert (between (S n) (send (FEvent e) c)) as Hb.
    { pose proof (between_emits n [] c _ eq_refl (emits_send_closed (FEvent e) c Hcl) Hc) as [? ? ? ? (m & Hm & _) ?].
      constructor; try done. exists m. split; [done|congruence]. }
    apply (replayNext_ok (S n)); [done|]. rewrite (em_from _ _ _ He). lia. }
  apply (replayNext_ok (S n)); [|rewrite (em_from _ _ _ He); lia].
  destruct Hc as [Hb Hh Hr Htk (m & Hm & Hn) Hco]. destruct (em_outs _ _ _ He) as [o|[_ o]]; [|congruence].
  assert (cn_closed c = false) as Hcl0.
  { destruct (cn_closed c) eqn:E; [|done]. by rewrite (em_closed _ _ _ He E) in Hcl. }
  specialize (Hn Hcl0). subst m.
  constructor; rewrite ?(em_hello _ _ _ He), ?(em_replaying _ _ _ He), ?(em_from _ _ _ He),
    ?(replayTasks_emits _ _ _ He), ?o, ?completions_app, ?eventsOut_app; try done.
  - destruct (em_buffer _ _ _ He) as [->| ->]; [done|]. unfold MAX_LIVE_BUFFER_EVENTS. simpl. lia.
  - exists (S n). split; [|done]. rewrite map_app, Hm, seqFrom_snoc. simpl. do 2 f_equal. lia.
  - by rewrite Hco.
Qed.

(** ** Every input *)

Section Steps.
Context `{Schemas}.

(** The hub sends durable events through [sendDurable] only. *)
Definition hub_event (e : event) : Prop :=
  match e with Deliver f => transient f = true | _ => True end.

(** A task of the replay is taken out of a connection in the replay. *)
Lemma replay_task_taken n t c :
  connection_ok c -> cn_tasks c !! n = Some t -> isReplayTask t = true ->
  exists m, between m (set_tasks (delete n (cn_tasks c)) c)
    /\ (cn_closed c = false -> match t with
        | AwaitRowAuth seq _ _ through => through = cn_resumeFrom c + Z.of_nat m /\ seq = through + 1
        | _ => m = O
        end).
Proof.
  intros [Hb Hp] Hn Ht.
  assert (replayTasks c <> []) as Hne.
  { unfold replayTasks. intros E. destruct (delete_filter isReplayTask _ _ _ Hn) as [E1 _].
    rewrite E, Ht in E1. by destruct (List.filter isReplayTask (take n (cn_tasks c))). }
  destruct Hp as [|m Hh Hr Hev Hco Hk|]; try done.
  assert (length (replayTasks c) <= 1)%nat as Hl.
  { destruct Hk as [[_ Hk]|Hk]; [done|]. destruct (replayTasks c) as [|[] []]; simpl; try lia; done. }
  destruct (delete_filter_only isReplayTask _ _ _ Hn Ht Hl) as [E1 E2]. unfold replayTasks in Hk. rewrite E1 in Hk.
  exists m. split.
  - constructor; simpl; try done. exists m. done.
  - intros Hcl. destruct Hk as [[Hc _]|Hk]; [congruence|]. by destruct t.
Qed.

Lemma receive_ok bytes value c : connection_ok c -> connection_ok (receive bytes value c).
Proof.
  intros Hc. unfold receive. destruct (cn_closed c) eqn:Hcl; [done|]. destruct (_ <? _); [by apply close_ok|].
  destruct (value ≫= parseClientFrame) as [f|]; [|by apply close_ok].
  unfold handle. destruct (cn_hello c) eqn:Hh; [by apply await_ok|].
  destruct f as [i from|cm|st sq|ac sq|]; try (by apply close_ok).
  destruct Hc as [Hb Hp]. split; [done|].
  destruct Hp as [_ Hr Ht Hev Hco| |]; [|congruence|congruence].
  apply (rp_replaying _ 0); simpl; try done; [by rewrite Hev|]. right.
  unfold replayTasks, await in *. simpl. rewrite List.filter_app. simpl. by rewrite Ht.
Qed.

Lemma handleFrame_ok f actorId now c : connection_ok c -> connection_ok (handleFrame f actorId now c).
Proof.
  intros Hc. destruct f as [i from|cm|st sq|ac sq|]; simpl; [done|by apply await_ok|..].
  - destruct (_ || _); [done|]. destruct (acceptPresence _ _ _ _ _) as [fr sg]. by apply broadcast_ok, ephemeral_ok.
  - destruct (_ || _); [done|]. destruct (acceptTyping _ _ _ _ _) as [fr sg]. by apply broadcast_ok, ephemeral_ok.
  - apply send_ok; [done|]. by apply broadcast_ok, ephemeral_ok.
Qed.

Lemma answer_ok n t a c :
  connection_ok c -> cn_tasks c !! n = Some t -> fits t a = true ->
  connection_ok (answerTask t a (set_tasks (delete n (cn_tasks c)) c)).
Proof.
  intros Hc Hn Hf. set (c' := set_tasks (delete n (cn_tasks c)) c).
  destruct (isReplayTask t) eqn:Ht.
  - destruct (replay_task_taken n t c Hc Hn Ht) as (m & Hbt & Htask). fold c' in Hbt.
    assert (forall code, connection_ok (close code c')) as Hclose.
    { intros code. eapply between_closed; [|apply close_is_closed].
      apply (between_emits m [] c'); [done|apply emits_close|done]. }
    assert (exists k, between k c' /\ match t with
        | AwaitRowAuth seq _ _ through => cn_closed c = false -> through = cn_resumeFrom c + Z.of_nat k /\ seq = through + 1
        | _ => k = O end) as (k & Hk & Hkt).
    { destruct (cn_closed c) eqn:Hcl.
      - destruct t; try (exists m; by split); exists O; (split; [|done]);
          destruct Hbt as [? ? ? ? (m' & Hm' & _) ?]; constructor; try done; exists m';
          (split; [done|intros Hx; change (cn_closed c = false) in Hx; congruence]).
      - exists m. split; [done|]. specialize (Htask eq_refl). by destruct t. }
    destruct t as [| | |seq env rest through|f|id], a as [[[s p ac|code]|] now|[[cur st]|] now|[rows|]|r]; simpl in *;
      try done; try apply Hclose.
    + by apply (between_await k).
    + apply (between_await k); [|done|done]. apply (between_emits k [FWelcome (toISOString now) (ci_roomId (cn_identity c)) cur st] c');
        [done|apply emits_send|done].
    + unfold resumeRows. destruct (_ <? _); [by eapply between_refused|].
      apply (replayNext_ok k); [done|]. simpl. lia.
    + destruct (cn_closed c) eqn:Hcl; [|destruct (Hkt eq_refl); by apply (replayRow_ok k)].
      (* a closed connection: nothing of the loop is sent *)
      assert (connection_ok c') as Hok by (by eapply between_closed).
      assert (forall n', between n' c') as Hany.
      { intros n'. destruct Hk as [? ? ? ? (m' & Hm' & _) ?]. constructor; try done. exists m'.
        split; [done|]. intros Hx. change (cn_closed c = false) in Hx. congruence. }
      unfold replayRow. destruct (parseRoomEventEnvelope env) as [e|]; [|by eapply (between_refused O)].
      destruct (negb _) eqn:Hbad; [by eapply (between_refused O)|].
      assert (send (FEvent e) c' = c') as -> by (unfold send; simpl; by rewrite Hcl).
      unfold replayNext. destruct rest as [|[sq en] rest].
      * assert (send (FResumeComplete (roomSeq e)) c' = c') as -> by (unfold send; simpl; by rewrite Hcl).
        unfold finishReplay. simpl. by rewrite Hcl.
      * destruct (_ || _); [by eapply (between_refused O)|].
        destruct Hk as [Hb' Hh' Hr' Ht' (m' & Hm' & _) Hc'']. split; [done|].
        apply (rp_replaying _ m'); try done. left. simpl. split; [done|].
        unfold replayTasks, await in *. simpl in *. rewrite List.filter_app, length_app, Ht'. simpl. lia.
  - assert (connection_ok c') as Hok by (by eapply drop_task_ok).
    destruct t as [| | |seq env rest through|f|id], a as [[[s p ac|code]|] now|[[cur st]|] now|[rows|]|[[sq rv]|er]]; simpl in *;
      try done; try (by apply close_ok); [by apply handleFrame_ok|by apply send_ok|by apply send_ok].
Qed.

Lemma step_ok c e : hub_event e -> connection_ok c -> connection_ok (step c e).
Proof.
  intros He Hc. destruct e as [bytes value|n a|ev|f| | | |code|m]; simpl.
  - by apply receive_ok.
  - destruct (cn_tasks c !! n) as [t|] eqn:Hn; [|done]. destruct (fits t a) eqn:Hf; [|done]. by apply answer_ok.
  - unfold sendDurable. destruct (cn_closed c); [done|].
    destruct (negb (cn_hello c) || cn_replaying c) eqn:Hg.
    + destruct (_ <=? _) eqn:Hfull; [by apply close_ok, send_ok|]. apply Z.leb_gt in Hfull.
      apply buffer_ok; [done| |done]. apply orb_true_iff in Hg as [Hg|Hg]; [left; by apply negb_true_iff|by right].
    + apply orb_false_iff in Hg as [_ Hr]. by apply live_event_ok.
  - by apply send_ok.
  - destruct (cn_hello c); [done|by apply close_ok].
  - destruct (cn_closed c); [done|]. by apply receive_ok.
  - by apply close_ok.
  - by apply close_ok.
  - destruct Hc as [Hb Hp]. split; [done|].
    destruct Hp as [|k|k live]; [apply rp_start|apply (rp_replaying _ k)|apply (rp_live _ k live)]; done.
Qed.

(** A closed connection sends nothing and is not closed again. *)
Definition socketLog (l : list action) : list action :=
  List.filter (fun a => match a with Out _ | SocketClose _ => true | _ => false end) l.

(** C27. The gate of a connection, under every interleaving of its frames, of the answers
    of the authorizer and of the database, of live deliveries, timers and closes: the
    live buffer never has more than 512 events; before the hello nothing durable is
    sent; the events of the replay are those that follow the cursor of the browser, one
    by one; a live event is sent only after the replay; and the end of the replay is
    announced once, with the number of the last event of it. *)
Theorem connection_gate identity es :
  Forall hub_event es ->
  let c := run (newConnection identity) es in
  Z.of_nat (length (cn_liveBuffer c)) <= MAX_LIVE_BUFFER_EVENTS
  /\ (cn_hello c = false -> eventsOut (outs (cn_log c)) = [])
  /\ exists n live replayed,
      eventsOut (outs (cn_log c)) = replayed ++ live
      /\ map roomSeq replayed = seqFrom (cn_resumeFrom c + 1) n
      /\ (cn_replaying c = true -> live = [])
      /\ completions (outs (cn_log c)) ⊆ [cn_resumeFrom c + Z.of_nat n]
      /\ (length (completions (outs (cn_log c))) <= 1)%nat.
Proof.
  intros Hes c.
  assert (connection_ok c) as [Hb Hp].
  { unfold c. clear c. assert (connection_ok (newConnection identity)) as H0.
    { split; [unfold MAX_LIVE_BUFFER_EVENTS; simpl; lia|]. by apply rp_start. }
    revert H0. generalize (newConnection identity). induction Hes as [|e es He _ IH]; intros c0 H0; [done|].
    simpl. apply IH. by apply step_ok. }
  split; [done|]. destruct Hp as [Hh Hr Ht Hev Hco|n Hh Hr Hev Hco Hk|n live Hh Hr Ht (rep & Hev & Hseq) Hco].
  - split; [done|]. exists O, [], []. rewrite Hev, Hco. split_and!; try done; simpl; [set_solver|lia].
  - split; [congruence|]. exists n, [], (eventsOut (outs (cn_log c))). rewrite app_nil_r, Hco.
    split_and!; try done; simpl; [set_solver|lia].
  - split; [congruence|]. exists n, live, rep.
    split_and!; try done; [congruence|destruct Hco as [->|[-> _]]; set_solver|].
    destruct Hco as [->|[-> _]]; simpl; lia.
Qed.
End Steps.

(** ** A replay without incidents *)

Section Replay.
Context `{Schemas}.

Definition replayRows (E : list RoomEventEnvelope) : list (Z * json) :=
  map (fun e => (roomSeq e, envelopeJson e)) E.
(** The events that follow [hello]: the answers of the authorizer and of the database. *)
Definition replayScript (hello : json) (bytes : Z) (a : DeliveryAuthorization) (now : Z) (cursor : Z)
    (status : RoomStatus) (rows : list (Z * json)) : list event :=
  [Receive bytes (Some hello); Answer 0 (Authorized (Some a) now); Answer 0 (RoomState (Some (cursor, status)) now);
   Answer 0 (Rows (Some rows))] ++ replicate (length rows) (Answer 0 (Authorized (Some a) now)).

(** The connection in the loop of the replay, with [E] still to send. *)
Definition inReplay (i : ConnectionIdentity) (from : Z) (through : Z) (E : list RoomEventEnvelope)
    (l : list action) : connection :=
  match E with
  | [] => Connection i true false false from (Z.max 0 through) [] 0 0 (-1) noSignals [] None
            (l ++ [Out (FResumeComplete through)])
  | e :: E' => Connection i true false true from 0 [] 0 0 (-1) noSignals
                 [AwaitRowAuth (roomSeq e) (envelopeJson e) (replayRows E') through] None l
  end.

Lemma replayNext_run i from through E l :
  map roomSeq E = seqFrom (through + 1) (length E) ->
  Forall (fun e => Z.abs (roomSeq e) <= MAX_SAFE_INTEGER) E ->
  replayNext (replayRows E) through
    (Connection i true false true from 0 [] 0 0 (-1) noSignals [] None l)
  = inReplay i from through E l.
Proof.
  intros Hs Hsafe. destruct E as [|e E]; [done|]. simpl in *. injection Hs as He _.
  apply Forall_cons in Hsafe as [Hb _].
  rewrite (bool_decide_eq_true_2 _ Hb), (bool_decide_eq_true_2 _ He). done.
Qed.
Lemma replay_run i from through E s p a now l :
  map roomSeq E = seqFrom (through + 1) (length E) ->
  Forall (fun e => Z.abs (roomSeq e) <= MAX_SAFE_INTEGER) E ->
  Forall envelope_ok E ->
  run (inReplay i from through E l) (replicate (length E) (Answer 0 (Authorized (Some (Delivery s p a)) now)))
  = inReplay i from (through + Z.of_nat (length E)) [] (l ++ map (fun e => Out (FEvent e)) E).
Proof.
  revert through l. induction E as [|e E IH]; intros through l Hs Hsafe Hok.
  { simpl. by rewrite app_nil_r, Z.add_0_r. }
  simpl in Hs. injection Hs as He Hs. apply Forall_cons in Hsafe as [Hb Hsafe]. apply Forall_cons in Hok as [Hok1 Hok].
  simpl replicate. unfold run. simpl fold_left. unfold answerTask, set_tasks. simpl.
  unfold replayRow. rewrite (parse_envelopeJson e Hok1). rewrite bool_decide_eq_true_2 by done. simpl.
  unfold send. simpl. unfold add_log. simpl.
  rewrite He. rewrite replayNext_run by done.
  fold (run (inReplay i from (through + 1) E (l ++ [Out (FEvent e)])) (replicate (length E) (Answer 0 (Authorized (Some (Delivery s p a)) now)))).
  rewrite IH by done. rewrite <- app_assoc. cbn [length map app].
  by replace (through + Z.of_nat (S (length E))) with (through + 1 + Z.of_nat (length E)) by lia.
Qed.

Lemma outs_events E : outs (map (fun e => Out (FEvent e)) E) = map FEvent E.
Proof. induction E as [|e E IH]; [done|]. exact (f_equal (cons (FEvent e)) IH). Qed.
Lemma hello_steps i clientId from hello bytes s p a now cursor status rows :
  parseClientFrame hello = Some (CHello clientId from) -> bytes <= MAX_INBOUND_FRAME_BYTES ->
  run (newConnection i)
    [Receive bytes (Some hello); Answer 0 (Authorized (Some (Delivery s p a)) now);
     Answer 0 (RoomState (Some (cursor, status)) now); Answer 0 (Rows (Some rows))]
  = resumeRows rows (Connection i true false true from 0 [] 0 0 (-1) noSignals [] None
      [Out (FWelcome (toISOString now) (ci_roomId i) cursor status)]).
Proof.
  intros Hh Hbytes. unfold run. cbn [fold_left].
  assert (step (newConnection i) (Receive bytes (Some hello))
    = Connection i true false true from 0 [] 0 0 (-1) noSignals [AwaitHelloAuth] None []) as ->.
  { unfold step, receive, newConnection. cbn [cn_closed].
    rewrite (proj2 (Z.ltb_ge _ _) Hbytes). cbn [mbind option_bind]. rewrite Hh. reflexivity. }
  reflexivity.
Qed.

(** The frames of a connection whose browser says hello at [from] and whose outbox has
    the events [E] after it. *)
Lemma replay_script_run i clientId from hello bytes s p a now cursor status E :
  parseClientFrame hello = Some (CHello clientId from) -> bytes <= MAX_INBOUND_FRAME_BYTES ->
  Z.of_nat (length E) <= REPLAY_LIMIT ->
  map roomSeq E = seqFrom (from + 1) (length E) ->
  Forall (fun e => Z.abs (roomSeq e) <= MAX_SAFE_INTEGER) E -> Forall envelope_ok E ->
  outs (cn_log (run (newConnection i) (replayScript hello bytes (Delivery s p a) now cursor status (replayRows E))))
  = FWelcome (toISOString now) (ci_roomId i) cursor status
      :: map FEvent E ++ [FResumeComplete (from + Z.of_nat (length E))].
Proof.
  intros Hh Hbytes Hlen Hs Hsafe Hok. unfold replayScript, run. rewrite fold_left_app.
  fold (run (newConnection i) [Receive bytes (Some hello); Answer 0 (Authorized (Some (Delivery s p a)) now);
     Answer 0 (RoomState (Some (cursor, status)) now); Answer 0 (Rows (Some (replayRows E)))]).
  rewrite (hello_steps i clientId from) by done. unfold resumeRows.
  replace (length (replayRows E)) with (length E) by (unfold replayRows; by rewrite length_map).
  rewrite (proj2 (Z.ltb_ge _ _) Hlen). cbn [cn_resumeFrom]. rewrite replayNext_run by done.
  match goal with |- context [fold_left step ?l ?c] => change (fold_left step l c) with (run c l) end.
  rewrite replay_run by done. unfold inReplay. cbn [cn_log]. rewrite !outs_app, outs_events. done.
Qed.
End Replay.

(** A student says hello at the beginning of the room; while the replay runs, the second
    event of the room is delivered, and the outbox has the first one only. *)
Definition demoIdentity : ConnectionIdentity := MkIdentity demoStudentSession demoRoom demoPrincipal demoStudent.
Definition demoFirst : RoomEventEnvelope := demoMessageEvent 1 "message.added" add "plants" (JStr demoReply).
Definition demoSecond : RoomEventEnvelope := demoMessageEvent 2 "message.revised" revise "plants breathe" JNull.
Definition demoDeliveries : list event :=
  replayScript (clientFrameJson (CHello demoStudent 0)) 100 (Delivery demoStudentSession demoPrincipal demoStudent)
    0 2 open (replayRows [demoFirst]).
Definition demoGate : list event := take 4 demoDeliveries ++ [Durable demoSecond] ++ drop 4 demoDeliveries.

Lemma connection_gate_witness :
  eventsOut (outs (cn_log (run (newConnection demoIdentity) demoGate))) = [demoFirst; demoSecond]
  /\ Z.of_nat (length (cn_liveBuffer (run (newConnection demoIdentity) demoGate))) <= MAX_LIVE_BUFFER_EVENTS.
Proof.
  split; [vm_compute; reflexivity|].
  assert (Forall hub_event demoGate) as Hg by (repeat constructor).
  apply (connection_gate demoIdentity demoGate Hg).
Defined.
