(* ===== verification/Hub.v ===== *)
(** * The hub of the rooms

    [apps/server/src/modules/realtime/room-hub.ts], [projection-delivery-decision.ts] and
    the publication loop of [outbox-publisher.ts]: who is attached to a room, what a
    departure announces, and to whom a frame goes. Every broadcast asks the authorizer
    anew for every socket; the answers are an argument, and one broadcast runs after the
    other. *)
From S2P Require Import Prelude Text JsDate JsValue Contracts Database Concrete JsMap Frames ClientLedger Authorization Connection.
#[local] Set Warnings "-register-all,-clear-no-such-hyp,-level-tolerance".

(** ** State *)

Record room_hub : Type := RoomHub {
  hb_rooms : list (string * list nat);      (** [#rooms], a set of connections per room *)
  hb_connections : list connection;         (** the connections, by number *)
}.
Definition emptyHub : room_hub := RoomHub [] [].
Definition members_of (roomId : string) (h : room_hub) : list nat := default [] (assoc roomId (hb_rooms h)).

(** [connect]. *)
Definition connect (i : ConnectionIdentity) (h : room_hub) : nat * room_hub :=
  let k := length (hb_connections h) in
  (k, RoomHub (map_set (ci_roomId i) (members_of (ci_roomId i) h ++ [k]) (hb_rooms h))
        (hb_connections h ++ [newConnection i])).

Definition on_connection (k : nat) (f : connection -> connection) (h : room_hub) : room_hub :=
  RoomHub (hb_rooms h) (alter f k (hb_connections h)).

(** Another socket of the actor has said hello. *)
Definition presentIn (h : room_hub) (ks : list nat) (actorId : string) : bool :=
  existsb (fun k => match hb_connections h !! k with
                    | Some c => cn_hello c && bool_decide (ci_actorId (cn_identity c) = actorId)
                    | None => false
                    end) ks.

(** [leave]: the socket leaves its room, and what is to be announced. *)
Definition leave (k : nat) (now : Z) (h : room_hub) : list ServerFrame * room_hub :=
  match hb_connections h !! k with
  | None => ([], h)
  | Some c =>
      let roomId := ci_roomId (cn_identity c) in
      match assoc roomId (hb_rooms h) with
      | None => ([], h)
      | Some ks =>
          let wasMember := bool_decide (k ∈ ks) in
          let rest := List.filter (fun j => negb (bool_decide (j = k))) ks in
          let h' := RoomHub (match rest with
                             | [] => map_delete roomId (hb_rooms h)
                             | _ :: _ => map_set roomId rest (hb_rooms h)
                             end) (hb_connections h) in
          if negb wasMember || negb (cn_hello c) then ([], h')
          else if presentIn h' (members_of roomId h') (ci_actorId (cn_identity c)) then ([], h')
          else let '(frames, signals) := remove (ci_actorId (cn_identity c)) now (cn_signals c) in
               (frames, on_connection k (fun c => set_ephemeral (cn_lastPresence c) (cn_lastTyping c)
                                                    (cn_lastClientSeq c) signals c) h')
      end
  end.

Definition connectedRoomIds (h : room_hub) : list string := map fst (hb_rooms h).
Definition evictRoom (roomId : string) (code : Z) (h : room_hub) : room_hub :=
  foldl (fun h k => on_connection k (close code) h) h (members_of roomId h).

(** [roomState]. *)
Definition roomState (roomId : string) (d : database) : option (Z * RoomStatus) :=
  match find (fun r => bool_decide (rm_id r = roomId)) (rooms d) with
  | Some r => Some (Z.max 0 (rm_next_room_seq r - 1), rm_status r)
  | None => None
  end.

(** The query of [resume]. *)
Definition outboxAfter (roomId : string) (after : Z) (d : database) : list (Z * json) :=
  take 501 (map (fun o => (ob_room_seq o, ob_envelope o))
    (sort_by (fun a b => ob_room_seq a <=? ob_room_seq b)
      (select_where (fun o => bool_decide (ob_room_id o = roomId) && (after <? ob_room_seq o)) (outbox d)))).

(** ** Broadcasts *)

Section Broadcast.
(** What [reauthorize] answers for a socket. *)
Variable auth : nat -> DeliveryAuthorization.

Definition principalRole (a : DeliveryAuthorization) : option Role :=
  match a with Delivery _ p _ => Some (sessionRole p) | CloseWith _ => None end.

(** [sendDegraded]. *)
Definition sendDegraded (k : nat) (f : ServerFrame) (h : room_hub) : room_hub :=
  on_connection k (fun c => if cn_hello c then send f c else c) h.

(** One socket of [broadcastEphemeral]. *)
Definition ephemeralTo (f : ServerFrame) (onlyRole : option Role) (k : nat) (c : connection) : connection :=
  if negb (cn_hello c) then c
  else match auth k with
       | CloseWith code => close code c
       | Delivery _ p _ =>
           if match onlyRole with Some r => negb (bool_decide (sessionRole p = r)) | None => false end
           then c else send f c
       end.
Definition broadcastEphemeral (roomId : string) (f : ServerFrame) (onlyRole : option Role) (h : room_hub)
    : room_hub :=
  foldl (fun h k => on_connection k (ephemeralTo f onlyRole k) h) h (members_of roomId h).

(** [broadcastDegraded]: a notice about a student projection is for students. *)
Definition broadcastDegraded (roomId : string) (f : ServerFrame) (h : room_hub) : room_hub :=
  let studentScoped := match f with
                       | FDegraded _ _ _ _ (Some (echo_student_approved | trace_student_bundle)) => true
                       | _ => false
                       end in
  broadcastEphemeral roomId f (if studentScoped then Some r_student else None) h.

(** [broadcastAuthorized], with the number of sockets served. *)
Definition authorizedTo (f : ServerFrame) (k : nat) (c : connection) : connection :=
  match auth k with
  | CloseWith code => close code c
  | Delivery _ _ _ => match f with FEvent e => sendDurable e c | _ => send f c end
  end.
Definition broadcastAuthorized (roomId : string) (f : ServerFrame) (h : room_hub) : nat * room_hub :=
  (length (List.filter (fun k => match auth k with Delivery _ _ _ => true | CloseWith _ => false end)
             (members_of roomId h)),
   foldl (fun h k => on_connection k (authorizedTo f k) h) h (members_of roomId h)).

(** *** Projections *)

Inductive ProjectionDeliveryDecision : Type :=
| Allow
| Deny (closeCode : option Z).

(** An [AnalyticsPolicyError], or any other failure. *)
Inductive policy_failure : Type := PolicyError (statusCode : Z) (code : string) | OtherFailure.
Definition projectionDeliveryFailureDecision (e : policy_failure) : ProjectionDeliveryDecision :=
  match e with
  | OtherFailure => Deny None
  | PolicyError status code =>
      if decide (status = 401 /\ code = "AUTH_REQUIRED"%string) then Deny (Some 4401)
      else if decide (status = 404 /\ code = "ROOM_NOT_FOUND"%string) then Deny (Some 4403)
      else if decide (status = 410 /\ code = "ROOM_DELETION_IN_PROGRESS"%string) then Deny (Some 4410)
      else Deny None
  end.

(** The caller's decision for a socket; [None] when it throws. *)
Variable authorize : nat -> option ProjectionDeliveryDecision.
Variable now : Z.

Definition projectionTo (p : ProjectionFrame) (k : nat) (c : connection) : connection :=
  if negb (cn_hello c) then c
  else match auth k with
       | CloseWith code => close code c
       | Delivery _ _ _ =>
           match authorize k with
           | None => send (FDegraded sc_analytics "ANALYTICS_UNAVAILABLE" (toISOString now) (Some 5000) None) c
           | Some (Deny (Some code)) => close code c
           | Some (Deny None) =>
               match pj_projectionKey p with
               | echo_student_approved | trace_student_bundle =>
                   send (FDegraded sc_analytics "STUDENT_ANALYTICS_NOT_PROMOTED" (toISOString now) None
                           (Some (pj_projectionKey p))) c
               | _ => c
               end
           | Some Allow => send (FProjection p) c
           end
       end.
Definition projectionSent (k : nat) (h : room_hub) : bool :=
  match hb_connections h !! k, auth k, authorize k with
  | Some c, Delivery _ _ _, Some Allow => cn_hello c
  | _, _, _ => false
  end.
Definition broadcastProjectionAuthorized (roomId : string) (p : ProjectionFrame) (h : room_hub)
    : nat * room_hub :=
  if negb (bool_decide (pj_roomId p = roomId)) then (O, h)
  else (length (List.filter (fun k => projectionSent k h) (members_of roomId h)),
        foldl (fun h k => on_connection k (projectionTo p k) h) h (members_of roomId h)).
End Broadcast.

(** ** The outbox *)

Definition PUBLISH_LIMIT : Z := 100.
Definition claimable (now : Z) (o : outbox_row) : bool :=
  bool_decide (ob_published_at o = None) && (ob_available_at o <=? now)
  && match ob_locked_at o with None => true | Some l => l <? now - 120000 end.
Definition outboxOrder (a b : outbox_row) : bool :=
  (ob_available_at a <? ob_available_at b)
  || ((ob_available_at a =? ob_available_at b)
      && ((ob_created_at a <? ob_created_at b)
          || ((ob_created_at a =? ob_created_at b) && (ob_outbox_id a <=? ob_outbox_id b)))).

(** ** Who a broadcast reaches *)

Lemma on_connection_lookup k f h j :
  hb_connections (on_connection k f h) !! j
  = (if decide (j = k) then f <$> hb_connections h !! j else hb_connections h !! j).
Proof.
  unfold on_connection. simpl. rewrite list_lookup_alter.
  destruct (decide (j = k)) as [->|Hne]; [by rewrite decide_True|by rewrite decide_False by congruence].
Qed.

(** A broadcast does its work on each socket of the room once, and touches no other. *)
Lemma broadcast_lookup (f : nat -> connection -> connection) ks h j :
  NoDup ks ->
  hb_connections (foldl (fun h k => on_connection k (f k) h) h ks) !! j
  = (if decide (j ∈ ks) then f j <$> hb_connections h !! j else hb_connections h !! j).
Proof.
  revert h. induction ks as [|k ks IH]; intros h Hnd; simpl.
  { done. }
  apply NoDup_cons in Hnd as [Hk Hnd]. rewrite IH by done. rewrite on_connection_lookup.
  destruct (decide (j = k)) as [->|Hne].
  - rewrite decide_False by done. by rewrite decide_True by left.
  - destruct (decide (j ∈ ks)).
    + by rewrite decide_True by (by right).
    + rewrite decide_False; [done|]. by rewrite not_elem_of_cons.
Qed.

Record hub_ok (h : room_hub) : Prop := {
  hk_keys : NoDup (map fst (hb_rooms h));
  hk_sets : Forall (fun e => NoDup (snd e) /\ snd e <> []) (hb_rooms h);
  hk_members : forall r k, k ∈ members_of r h ->
    exists c, hb_connections h !! k = Some c /\ ci_roomId (cn_identity c) = r;
}.

Lemma members_NoDup r h : hub_ok h -> NoDup (members_of r h).
Proof.
  intros Hh. unfold members_of. destruct (assoc r (hb_rooms h)) as [ks|] eqn:E; [|constructor].
  apply assoc_elem in E. pose proof (hk_sets h Hh) as Hf. rewrite Forall_forall in Hf.
  apply (Hf (r, ks) E).
Qed.

Lemma send_outs f c :
  cn_closed c = false -> cn_bufferedAmount c = None -> outs (cn_log (send f c)) = outs (cn_log c) ++ [f].
Proof. intros Hc Hb. unfold send. rewrite Hc, Hb. simpl. by rewrite outs_app. Qed.
Lemma close_outs code c : outs (cn_log (close code c)) = outs (cn_log c).
Proof. destruct (em_outs _ _ _ (emits_close code c)) as [E|[E _]]; by rewrite ?app_nil_r in E. Qed.

(** A broadcast reaches the sockets of its room that are still entitled to it, and no
    other: a socket that is not in the room, has not said hello or has another role gets
    nothing; one whose authorization has ended is closed with the code of the authorizer
    and gets nothing; every other open socket gets the frame. *)
Theorem broadcast_reaches auth roomId f onlyRole h k c :
  hub_ok h -> hb_connections h !! k = Some c ->
  exists c', hb_connections (broadcastEphemeral auth roomId f onlyRole h) !! k = Some c' /\
  (k ∈ members_of roomId h -> cn_hello c = true ->
     (forall code, auth k = CloseWith code ->
        cn_closed c' = true /\ outs (cn_log c') = outs (cn_log c)
        /\ (cn_closed c = false -> SocketClose code ∈ cn_log c'))
     /\ (forall s p a, auth k = Delivery s p a -> cn_closed c = false -> cn_bufferedAmount c = None ->
         outs (cn_log c') = outs (cn_log c)
           ++ (if match onlyRole with Some r => bool_decide (sessionRole p = r) | None => true end then [f] else [])))
  /\ (k ∉ members_of roomId h \/ cn_hello c = false -> c' = c).
Proof.
  intros Hh Hk. unfold broadcastEphemeral. rewrite broadcast_lookup by (by apply members_NoDup).
  destruct (decide (k ∈ members_of roomId h)) as [Hin|Hnin].
  - rewrite Hk. eexists. split; [done|]. unfold ephemeralTo. destruct (cn_hello c) eqn:Hhello; simpl.
    + split; [|intros [|]; done]. intros _ _. split.
      * intros code ->. rewrite close_is_closed, close_outs. split_and!; [done|done|].
        intros Hc. unfold close. rewrite Hc. simpl. set_solver.
      * intros s p a -> Hc Hb. destruct onlyRole as [r|]; [|by apply send_outs].
        destruct (bool_decide (sessionRole p = r)); simpl; [by apply send_outs|by rewrite app_nil_r].
    + split; [done|]. by intros _.
  - exists c. split; [done|]. by split.
Qed.

(** *** Departures *)

Lemma filter_ne_elem (k j : nat) ks : j ∈ List.filter (fun j => negb (bool_decide (j = k))) ks <-> j ∈ ks /\ j <> k.
Proof.
  rewrite !list_elem_of_In, filter_In. rewrite negb_true_iff, bool_decide_eq_false. done.
Qed.
Lemma members_of_set r (ks : list nat) m r' :
  default [] (assoc r' (map_set r ks m)) = if decide (r' = r) then ks else default [] (assoc r' m).
Proof. rewrite assoc_map_set. by destruct (decide (r' = r)). Qed.

(** A departure is announced exactly when it is one: the departing socket was in its
    room and had said hello, and no other socket of the same actor that has said hello
    is left there; then its absence and the end of its typing are announced, and the
    socket itself is not among those they are announced to. *)
Theorem departure_announced k now h c :
  hub_ok h -> hb_connections h !! k = Some c ->
  let roomId := ci_roomId (cn_identity c) in
  let actorId := ci_actorId (cn_identity c) in
  let '(frames, h') := leave k now h in
  (forall j, j ∈ members_of roomId h' <-> j ∈ members_of roomId h /\ j <> k)
  /\ frames = (if bool_decide (k ∈ members_of roomId h) && cn_hello c
                  && negb (existsb (fun j => match hb_connections h !! j with
                              | Some d => cn_hello d && bool_decide (ci_actorId (cn_identity d) = actorId)
                              | None => false end)
                       (List.filter (fun j => negb (bool_decide (j = k))) (members_of roomId h)))
               then [FPresence actorId away (toISOString now); FTyping actorId false (toISOString now)]
               else []).
Proof.
  intros Hh Hk roomId actorId. unfold leave. rewrite Hk. fold roomId.
  destruct (assoc roomId (hb_rooms h)) as [ks|] eqn:Ha.
  2:{ unfold members_of. rewrite Ha. simpl. split; [|done]. intros j. set_solver. }
  set (rest := List.filter _ ks).
  set (rooms' := match rest with [] => _ | _ :: _ => _ end).
  assert (forall cs, members_of roomId (RoomHub rooms' cs) = rest) as Hrest.
  { intros cs. unfold members_of, rooms'. simpl. destruct rest eqn:Er.
    - rewrite assoc_map_delete. by rewrite decide_True.
    - rewrite members_of_set. by rewrite decide_True. }
  assert (members_of roomId h = ks) as Hks by (unfold members_of; by rewrite Ha).
  rewrite Hks. fold rest.
  assert (forall cs j, j ∈ members_of roomId (RoomHub rooms' cs) <-> j ∈ ks /\ j <> k) as Hel.
  { intros cs j. rewrite Hrest. apply filter_ne_elem. }
  destruct (bool_decide (k ∈ ks)) eqn:Hm; simpl; [|split; [apply Hel|done]].
  destruct (cn_hello c) eqn:Hhello; simpl; [|split; [apply Hel|done]].
  rewrite Hrest. unfold presentIn. simpl. fold actorId.
  destruct (existsb _ rest); simpl; (split; [apply Hel|done]).
Qed.

(** ** Publication *)

Section Publication.
Context `{Schemas}.
Variable worker : string.

Definition lockRow (now : Z) (o : outbox_row) : outbox_row :=
  OutboxRow (ob_outbox_id o) (ob_event_id o) (ob_room_id o) (ob_room_seq o) (ob_topic o) (ob_envelope o)
    (ob_created_at o) (ob_available_at o) (Some now) (Some worker) (ob_publish_attempts o + 1)
    (ob_published_at o) (ob_last_error o).
Definition publishedRow (now : Z) (o : outbox_row) : outbox_row :=
  OutboxRow (ob_outbox_id o) (ob_event_id o) (ob_room_id o) (ob_room_seq o) (ob_topic o) (ob_envelope o)
    (ob_created_at o) (ob_available_at o) None None (ob_publish_attempts o) (Some now) None.
Definition failedRow (now : Z) (o : outbox_row) : outbox_row :=
  OutboxRow (ob_outbox_id o) (ob_event_id o) (ob_room_id o) (ob_room_seq o) (ob_topic o) (ob_envelope o)
    (ob_created_at o) (now + 5000) None None (ob_publish_attempts o) (ob_published_at o)
    (Some "PUBLISH_FAILED"%string).

(** The statement that claims: the rows and the outbox with their locks. *)
Definition claimRows (limit : nat) (now : Z) (rows : list outbox_row) : list outbox_row :=
  take limit (sort_by outboxOrder (select_where (claimable now) rows)).
Definition isRow (row o : outbox_row) : bool := bool_decide (ob_outbox_id o = ob_outbox_id row).
Definition lockRows (now : Z) (claimed rows : list outbox_row) : list outbox_row :=
  update_where (fun o => existsb (fun r => isRow r o) claimed) (lockRow now) rows.

(** The event of a claimed row, when it can be published. *)
Definition publishable (row : outbox_row) : option RoomEventEnvelope :=
  match parseRoomEventEnvelope (ob_envelope row) with
  | Some e => if decide (roomId e = ob_room_id row) then Some e else None
  | None => None
  end.
Definition settleRow (now : Z) (row o : outbox_row) : outbox_row :=
  if isRow row o && bool_decide (ob_locked_by o = Some worker)
  then (if publishable row is Some _ then publishedRow now o else failedRow now o) else o.

(** The body of the loop of [tick]. *)
Definition publishRow (auth : nat -> DeliveryAuthorization) (now : Z) (row : outbox_row)
    (s : nat * room_hub * list outbox_row) : nat * room_hub * list outbox_row :=
  let '(published, h, rows) := s in
  match publishable row with
  | Some e => (S published, snd (broadcastAuthorized auth (ob_room_id row) (FEvent e) h),
               map (settleRow now row) rows)
  | None => (published, h, map (settleRow now row) rows)
  end.

(** [tick] of the room events: the limit is checked, a paused outbox claims nothing; the
    statement at [n] sees the time [time n] and the authorizer answers [auth n]. *)
Fixpoint publishAll (auth : nat -> nat -> DeliveryAuthorization) (time : nat -> Z) (n : nat)
    (claimed : list outbox_row) (s : nat * room_hub * list outbox_row) : nat * room_hub * list outbox_row :=
  match claimed with
  | [] => s
  | row :: claimed' => publishAll auth time (S n) claimed' (publishRow (auth n) (time (S n)) row s)
  end.
Definition tick (auth : nat -> nat -> DeliveryAuthorization) (time : nat -> Z) (limit : Z) (paused : bool)
    (h : room_hub) (rows : list outbox_row) : option (nat * room_hub * list outbox_row) :=
  if (limit <? 1) || (PUBLISH_LIMIT <? limit) then None
  else if paused then Some (O, h, rows)
  else let claimed := claimRows (Z.to_nat limit) (time O) rows in
       Some (publishAll auth time O claimed (O, h, lockRows (time O) claimed rows)).

Lemma publishAll_rows auth time n claimed p h rows :
  snd (publishAll auth time n claimed (p, h, rows))
  = map (fun o => foldl (fun o ir => settleRow (time (S (fst ir))) (snd ir) o) o (zip (seq n (length claimed)) claimed)) rows.
Proof.
  revert n p h rows. induction claimed as [|row claimed IH]; intros n p h rows; simpl; [by rewrite map_id|].
  unfold publishRow. destruct (publishable row); rewrite IH, map_map; done.
Qed.
Lemma settleRow_other now row o : ob_outbox_id o <> ob_outbox_id row -> settleRow now row o = o.
Proof. intros Hne. unfold settleRow, isRow. by rewrite bool_decide_eq_false_2. Qed.
Lemma settle_others time l o :
  Forall (fun ir => ob_outbox_id o <> ob_outbox_id (snd ir)) l ->
  foldl (fun o ir => settleRow (time (S (fst ir))) (snd ir) o) o l = o.
Proof. induction 1 as [|ir l Hne _ IH]; [done|]. simpl. by rewrite settleRow_other. Qed.

Lemma claimRows_elem limit now rows o :
  o ∈ claimRows limit now rows -> o ∈ rows /\ claimable now o = true.
Proof.
  unfold claimRows. intros Hin. assert (o ∈ sort_by outboxOrder (select_where (claimable now) rows)) as Hs.
  { apply list_elem_of_lookup in Hin as [i Hi]. apply lookup_take_Some in Hi as [Hi _].
    by eapply list_elem_of_lookup_2. }
  rewrite sort_by_elem in Hs. unfold select_where in Hs. rewrite list_elem_of_In, filter_In in Hs.
  by rewrite list_elem_of_In.
Qed.
Lemma claimRows_NoDup limit now rows :
  NoDup (map ob_outbox_id rows) -> NoDup (map ob_outbox_id (claimRows limit now rows)).
Proof.
  intros Hnd. unfold claimRows. rewrite <- firstn_map.
  eapply sublist_NoDup; [|apply sublist_take].
  rewrite sort_by_perm. unfold select_where. clear -Hnd.
  induction rows as [|o rows IH]; simpl; [constructor|]. apply NoDup_cons in Hnd as [Hn Hnd].
  destruct (claimable now o); [|by apply IH]. simpl. constructor; [|by apply IH].
  intros (o' & Ho & Hin)%list_elem_of_fmap. apply Hn. rewrite Ho. apply (list_elem_of_fmap_2 ob_outbox_id).
  rewrite list_elem_of_In, filter_In in Hin. apply list_elem_of_In, Hin.
Qed.

(** What a tick makes of a row. *)
Definition settled (time : nat -> Z) (claimed : list outbox_row) (o o' : outbox_row) : Prop :=
  (o ∉ claimed /\ o' = o)
  \/ (o ∈ claimed /\ exists n, (n < length claimed)%nat /\
      o' = (if publishable o is Some _ then publishedRow else failedRow) (time (S n)) (lockRow (time O) o)).

(** A tick of the publisher accounts for every row it claims: a row whose envelope is
    an event of its room is marked published, any other is released with an error and
    comes back five seconds later, and both are unlocked with one more attempt on
    record; a row it does not claim is as it was; at most [limit] rows are claimed, all
    of them claimable. *)
Theorem tick_settles auth time limit h rows p h' rows' :
  NoDup (map ob_outbox_id rows) ->
  tick auth time limit false h rows = Some (p, h', rows') ->
  let claimed := claimRows (Z.to_nat limit) (time O) rows in
  1 <= limit <= PUBLISH_LIMIT /\ Z.of_nat (length claimed) <= limit
  /\ Forall (fun o => claimable (time O) o = true) claimed
  /\ Forall2 (settled time claimed) rows rows'.
Proof.
  unfold tick. intros Hnd. destruct (_ || _) eqn:Hl; [done|]. apply orb_false_iff in Hl as [H1 H2].
  apply Z.ltb_ge in H1. apply Z.ltb_ge in H2. set (claimed := claimRows _ _ _).
  intros [= Ht]. apply (f_equal snd) in Ht. simpl in Ht. rewrite publishAll_rows in Ht.
  split; [lia|]. split; [unfold claimed, claimRows; rewrite length_take; lia|].
  split. { apply Forall_forall. intros o Ho. exact (proj2 (claimRows_elem _ _ _ _ Ho)). }
  subst rows'. unfold lockRows, update_where. rewrite map_map.
  pose proof (claimRows_NoDup (Z.to_nat limit) (time O) rows Hnd) as Hcn. fold claimed in Hcn.
  assert (forall o, o ∈ claimed -> o ∈ rows) as Hsub by (intros o Ho; exact (proj1 (claimRows_elem _ _ _ _ Ho))).
  clearbody claimed. clear h h' p auth.
  assert (forall o, o ∈ rows -> settled time claimed o
    (foldl (fun o ir => settleRow (time (S (fst ir))) (snd ir) o)
       (if existsb (fun r => isRow r o) claimed then lockRow (time 0%nat) o else o)
       (zip (seq 0 (length claimed)) claimed))) as Hone.
  { intros o Ho. destruct (existsb (fun r => isRow r o) claimed) eqn:Hex.
    - apply existsb_exists in Hex as (r & Hr & Heq%bool_decide_eq_true). apply list_elem_of_In in Hr.
      assert (r = o) as ->.
      { apply list_elem_of_lookup in Ho as [i Hi]. apply Hsub, list_elem_of_lookup in Hr as [j Hj].
        assert (i = j) as ->; [|congruence]. eapply (NoDup_lookup _ _ _ (ob_outbox_id o) Hnd);
          rewrite list_lookup_fmap; [by rewrite Hi|rewrite Hj; simpl; by rewrite Heq]. }
      right. split; [done|]. apply list_elem_of_lookup in Hr as [i Hi].
      exists i. split; [by apply lookup_lt_Some in Hi|].
      assert (zip (seq 0 (length claimed)) claimed !! i = Some (i, o)) as Hz.
      { apply lookup_zip_Some. split; [|done]. apply lookup_seq. split; [done|]. by apply lookup_lt_Some in Hi. }
      assert (forall j x, zip (seq 0 (length claimed)) claimed !! j = Some x -> j <> i ->
        ob_outbox_id o <> ob_outbox_id (snd x)) as Hothers.
      { intros j [j' x] Hj Hne Hid. apply lookup_zip_Some in Hj as [_ Hj]. apply Hne. simpl in Hid, Hj.
        eapply (NoDup_lookup _ _ _ (ob_outbox_id o) Hcn); rewrite list_lookup_fmap;
          [rewrite Hj; simpl; by rewrite Hid|by rewrite Hi]. }
      rewrite <- (take_drop_middle _ _ _ Hz), foldl_app. simpl.
      rewrite (settle_others _ (take i _)).
      2:{ apply Forall_lookup. intros j x Hj. apply lookup_take_Some in Hj as [Hj Hlt].
          apply (Hothers j x Hj). lia. }
      assert (settleRow (time (S i)) o (lockRow (time 0%nat) o)
        = (if publishable o is Some _ then publishedRow else failedRow) (time (S i)) (lockRow (time 0%nat) o)) as ->.
      { unfold settleRow, isRow. simpl. rewrite !bool_decide_eq_true_2 by done. by destruct (publishable o). }
      rewrite settle_others; [done|]. apply Forall_lookup. intros j x Hj. rewrite lookup_drop in Hj.
      assert (ob_outbox_id o <> ob_outbox_id (snd x)) by (apply (Hothers _ x Hj); lia).
      by destruct (publishable o).
    - left. split.
      + intros Hin. apply not_true_iff_false in Hex. apply Hex, existsb_exists. exists o.
        split; [by apply list_elem_of_In|by apply bool_decide_eq_true].
      + apply settle_others, Forall_lookup. intros j [j' x] Hj Hid. apply lookup_zip_Some in Hj as [_ Hj].
        apply not_true_iff_false in Hex. apply Hex, existsb_exists. exists x. split.
        * apply list_elem_of_In. by eapply list_elem_of_lookup_2.
        * by apply bool_decide_eq_true. }
  clear Hnd Hsub Hcn. induction rows as [|o rows IH]; simpl; [constructor|].
  constructor; [apply Hone; left|]. apply IH. intros. apply Hone. by right.
Qed.
End Publication.

(** ** The hub stays consistent *)

Lemma emptyHub_ok : hub_ok emptyHub.
Proof. constructor; [constructor|constructor|]. intros r k Hk. unfold members_of in Hk. simpl in Hk. set_solver. Qed.

Lemma connect_ok i h : hub_ok h -> hub_ok (snd (connect i h)).
Proof.
  intros Hh. pose proof (members_NoDup (ci_roomId i) h Hh) as Hnd. destruct Hh as [Hk Hs Hm].
  constructor; simpl.
  - by apply map_set_NoDup.
  - apply map_set_Forall; [|done]. simpl. split; [|by destruct (members_of (ci_roomId i) h)].
    apply NoDup_app. split_and!; [done| |apply NoDup_singleton].
    intros k (c & Hc & _)%Hm Hin. apply list_elem_of_singleton in Hin as ->.
    apply lookup_lt_Some in Hc. lia.
  - intros r k. unfold members_of at 1. simpl. rewrite members_of_set.
    destruct (decide (r = ci_roomId i)) as [->|Hne].
    + rewrite elem_of_app, list_elem_of_singleton. intros [(c & Hc & Hr)%Hm| ->].
      * exists c. split; [by apply lookup_app_l_Some|done].
      * exists (newConnection i). split; [|done]. rewrite lookup_app_r by done. by rewrite Nat.sub_diag.
    + intros (c & Hc & Hr)%Hm. exists c. split; [by apply lookup_app_l_Some|done].
Qed.

(** Work on a connection does not move it to another room. *)
Lemma on_connection_ok k f h :
  (forall c, cn_identity (f c) = cn_identity c) -> hub_ok h -> hub_ok (on_connection k f h).
Proof.
  intros Hf [Hk Hs Hm]. constructor; [exact Hk|exact Hs|].
  intros r j (c & Hc & Hr)%Hm. rewrite on_connection_lookup. destruct (decide (j = k)).
  - exists (f c). rewrite Hc, Hf. done.
  - exists c. done.
Qed.

Lemma leave_ok k now h : hub_ok h -> hub_ok (snd (leave k now h)).
Proof.
  intros Hh. unfold leave. destruct (hb_connections h !! k) as [c|] eqn:Hc; [|done].
  destruct (assoc _ (hb_rooms h)) as [ks|] eqn:Ha; [|done].
  set (roomId := ci_roomId (cn_identity c)) in *. set (rest := List.filter _ ks).
  set (h' := RoomHub _ _).
  assert (hub_ok h') as Hh'.
  { destruct Hh as [Hk Hs Hm]. constructor; simpl.
    - destruct rest; [by apply map_delete_NoDup|by apply map_set_NoDup].
    - destruct rest as [|x l] eqn:Er; [by apply map_delete_Forall|]. apply map_set_Forall; [|done].
      split; [|done]. simpl. rewrite <- Er. unfold rest. rewrite Forall_forall in Hs.
      apply assoc_elem in Ha. pose proof (proj1 (Hs (roomId, ks) Ha)) as Hnd. simpl in Hnd. revert Hnd. clear.
      induction ks as [|j ks IH]; [done|]. intros [Hn Hnd]%NoDup_cons. simpl.
      destruct (negb _); [|by apply IH]. constructor; [|by apply IH].
      intros [Hin _]%filter_ne_elem. done.
    - intros r j. unfold members_of. simpl. intros Hj. apply Hm. revert Hj. unfold members_of.
      destruct rest as [|x l] eqn:Er.
      + rewrite assoc_map_delete. destruct (decide (r = roomId)); [simpl; set_solver|done].
      + rewrite members_of_set. destruct (decide (r = roomId)) as [->|]; [|done]. rewrite Ha. simpl.
        rewrite <- Er. by intros [Hin _]%filter_ne_elem. }
  destruct (_ || _); [done|]. destruct (presentIn _ _ _); [done|].
  simpl. apply on_connection_ok; [done|exact Hh'].
Qed.

(** ** A room with two sockets *)

Definition demoHello (c : connection) : connection := set_gate true false 0 0 [] c.
(** The teacher and a student have said hello, a second socket of the student has not. *)
Definition demoHub : room_hub :=
  let student := MkIdentity demoStudentSession demoRoom demoPrincipal demoStudent in
  let teacher := MkIdentity demoSession demoRoom (TeacherSession demoTeacher demoNova) demoTeacher in
  on_connection 1 demoHello (on_connection 0 demoHello
    (snd (connect student (snd (connect student (snd (connect teacher emptyHub))))))).
Lemma demoHub_ok : hub_ok demoHub.
Proof.
  unfold demoHub. do 2 (apply on_connection_ok; [done|]). do 3 apply connect_ok. apply emptyHub_ok.
Qed.
Definition demoNotice : ServerFrame := FPresence demoTeacher away "2024-01-01T00:00:00.000Z".
Definition demoStudentAuth : nat -> DeliveryAuthorization :=
  fun _ => Delivery demoStudentSession demoPrincipal demoStudent.

Lemma broadcast_reaches_witness :
  exists c c', hb_connections demoHub !! 1%nat = Some c
    /\ hb_connections (broadcastEphemeral demoStudentAuth demoRoom demoNotice (Some r_student) demoHub) !! 1%nat = Some c'
    /\ outs (cn_log c') = [demoNotice].
Proof.
  assert (exists c, hb_connections demoHub !! 1%nat = Some c /\ cn_hello c = true /\ cn_closed c = false
    /\ cn_bufferedAmount c = None /\ outs (cn_log c) = []) as (c & Hc & Hh & Hcl & Hb & Ho)
    by (eexists; split; [reflexivity|]; done).
  assert (1%nat ∈ members_of demoRoom demoHub) as Hin by (apply (bool_decide_unpack _); vm_compute; done).
  destruct (broadcast_reaches demoStudentAuth demoRoom demoNotice (Some r_student) demoHub 1 c demoHub_ok Hc)
    as (c' & Hc' & Hw & _).
  exists c, c'. split; [exact Hc|]. split; [exact Hc'|].
  rewrite (proj2 (Hw Hin Hh) _ _ _ eq_refl Hcl Hb), Ho. reflexivity.
Defined.

Lemma departure_announced_witness :
  exists c, hb_connections demoHub !! 1%nat = Some c
    /\ fst (leave 1 0 demoHub)
       = [FPresence demoStudent away (toISOString 0); FTyping demoStudent false (toISOString 0)].
Proof.
  assert (exists c, hb_connections demoHub !! 1%nat = Some c) as [c Hc] by (eexists; reflexivity).
  exists c. split; [exact Hc|].
  pose proof (departure_announced 1 0 demoHub c demoHub_ok Hc) as Hd. cbv zeta in Hd.
  destruct (leave 1 0 demoHub) as [frames h']. destruct Hd as [_ ->].
  revert Hc. intros [= <-]. vm_compute. reflexivity.
Defined.

(** Two rows: an event of the room, and a row whose envelope is none. *)
Definition demoOutbox : list outbox_row :=
  [OutboxRow 1 (numberedUuid 1) demoRoom 1 "room.event.committed" (envelopeJson (demoMessageEvent 1 "message.added" add "plants" (JStr demoReply)))
     0 0 None None 0 None None;
   OutboxRow 2 (numberedUuid 2) demoRoom 2 "room.event.committed" JNull 0 0 None None 0 None None].
Lemma tick_settles_witness :
  exists rows', tick "publisher" (fun _ => demoStudentAuth) (fun n => Z.of_nat n) 10 false demoHub demoOutbox
      = Some (1%nat, snd (broadcastAuthorized demoStudentAuth demoRoom
          (FEvent (demoMessageEvent 1 "message.added" add "plants" (JStr demoReply))) demoHub), rows')
    /\ Forall2 (settled "publisher" (fun n => Z.of_nat n) demoOutbox) demoOutbox rows'
    /\ map ob_published_at rows' = [Some 1; None].
Proof.
  assert (exists rows', tick "publisher" (fun _ => demoStudentAuth) (fun n => Z.of_nat n) 10 false demoHub demoOutbox
      = Some (1%nat, snd (broadcastAuthorized demoStudentAuth demoRoom
          (FEvent (demoMessageEvent 1 "message.added" add "plants" (JStr demoReply))) demoHub), rows')
      /\ map ob_published_at rows' = [Some 1; None]) as (rows' & Ht & Hp)
    by (eexists; split; vm_compute; reflexivity).
  assert (NoDup (map ob_outbox_id demoOutbox)) as Hnd by (apply (bool_decide_unpack _); vm_compute; done).
  destruct (tick_settles "publisher" (fun _ => demoStudentAuth) (fun n => Z.of_nat n) 10 demoHub demoOutbox _ _ _ Hnd Ht)
    as (_ & _ & _ & Hs).
  assert (claimRows (Z.to_nat 10) (Z.of_nat 0) demoOutbox = demoOutbox) as Hc by (vm_compute; reflexivity).
  rewrite Hc in Hs. exists rows'. split; [exact Ht|]. split; [exact Hs|exact Hp].
Defined.
