(* ===== verification/Delivery.v ===== *)
(** * From the outbox to the browser

    The composition of the server's connection ([Connection], [Hub]) with the browser's
    socket ([RoomSocket]): a browser that reconnects is brought up to date. What a
    connection writes is read by the browser as the same tree: the text between them is
    that of [JSON.stringify] and [JSON.parse], the identity on trees without minus zero,
    and the trees of the outbox come from [jsonb], which has none. *)
From S2P Require Import Prelude Text JsDate JsValue Contracts Database Concrete JsMap Frames ClientLedger RoomSocket Authorization Connection Hub.
#[local] Set Warnings "-register-all,-clear-no-such-hyp,-level-tolerance".

Section Delivery.
Context `{Schemas}.

(** The browser reads what the connection has written, frame by frame. *)
Definition deliverTo (k : nat) (frames : list ServerFrame) (s : RoomSocket.room_socket) : RoomSocket.room_socket :=
  RoomSocket.run s (map (fun f => RoomSocket.IMessageEvent k (Some (serverFrameJson f))) frames).

(** A browser on a working socket, at event [n] of room [r]. *)
Record attached (r : string) (k : nat) (so : RoomSocket.SocketLike) (n : Z) (s : RoomSocket.room_socket) : Prop := {
  at_room : RoomSocket.rs_roomId s = r;
  at_cursor : RoomSocket.rs_lastRoomSeq s = n;
  at_open : RoomSocket.rs_closed s = false;
  at_socket : RoomSocket.rs_socket s = Some k;
  at_sockets : RoomSocket.rs_sockets s !! k = Some so;
  at_ready : RoomSocket.isOpen (RoomSocket.rs_sockets s) (Some k) = true;
  at_works : RoomSocket.so_sendFails so = false;
  at_pending : RoomSocket.pending_ok s;
}.

Lemma deliverTo_cons k f frames s :
  deliverTo k (f :: frames) s = deliverTo k frames (RoomSocket.step s (RoomSocket.IMessageEvent k (Some (serverFrameJson f)))).
Proof. done. Qed.
Lemma deliverTo_app k a b s : deliverTo k (a ++ b) s = deliverTo k b (deliverTo k a s).
Proof. unfold deliverTo. rewrite map_app. apply fold_left_app. Qed.

Lemma sunk_join a b : RoomSocket.sunk (a ++ b) = RoomSocket.sunk a ++ RoomSocket.sunk b.
Proof. apply omap_app. Qed.
Lemma sunk_sinks E : RoomSocket.sunk (map RoomSocket.Sink E) = E.
Proof. induction E as [|e E IH]; [done|]. exact (f_equal (cons e) IH). Qed.
Lemma sunk_sent k cs : RoomSocket.sunk (map (fun cmd => RoomSocket.Sent k (CCommand cmd)) cs) = [].
Proof. induction cs as [|cmd cs IH]; [done|]. exact IH. Qed.

(** The next event of the room moves the browser by one. *)
Lemma attached_event r k so n s e :
  attached r k so n s -> roomId e = r -> roomSeq e = n + 1 -> 0 <= n -> n + 1 <= MAX_SAFE_INTEGER ->
  parseServerFrame (serverFrameJson (FEvent e)) = Ok (FEvent e) ->
  let s' := RoomSocket.step s (RoomSocket.IMessageEvent k (Some (serverFrameJson (FEvent e)))) in
  attached r k so (n + 1) s'
  /\ RoomSocket.rs_log s' = RoomSocket.rs_log s ++ [RoomSocket.Sink e]
  /\ RoomSocket.rs_pending s' = RoomSocket.rs_pending s.
Proof.
  intros [Hr Hn Hc Hk Hso Ho Hw Hp] Her Hes Hn0 Hmax Hparse.
  unfold RoomSocket.step, RoomSocket.handle, RoomSocket.onMessageEvent.
  rewrite (bind_run _ _ _ s s) by done. rewrite Hc, Hk, bool_decide_eq_true_2 by done. simpl.
  unfold try_catch, RoomSocket.onFrame. simpl in Hparse. rewrite Hparse.
  unfold RoomSocket.acceptEvent. rewrite (bind_run _ _ _ s s) by done.
  rewrite Her, Hr, bool_decide_eq_true_2 by done. rewrite Hn.
  replace (roomSeq e <=? n) with false by (symmetry; apply Z.leb_gt; lia). simpl.
  rewrite bool_decide_eq_true_2 by done. simpl.
  unfold RoomSocket.acceptCursor, RoomSocket.emit, mbind, M_bind, get_state, modify.
  rewrite bool_decide_eq_true_2 by lia. rewrite Hn.
  replace (roomSeq e <? n) with false by (symmetry; apply Z.ltb_ge; lia). simpl.
  split; [|done]. constructor; simpl; try done. destruct Hp. by constructor.
Qed.

(** Any frame the browser has nothing to do for goes to its user. *)
Lemma attached_welcome r k so n s t room cursor status :
  attached r k so n s ->
  parseServerFrame (serverFrameJson (FWelcome t room cursor status)) = Ok (FWelcome t room cursor status) ->
  let s' := RoomSocket.step s (RoomSocket.IMessageEvent k (Some (serverFrameJson (FWelcome t room cursor status)))) in
  attached r k so n s'
  /\ RoomSocket.rs_log s' = RoomSocket.rs_log s ++ [RoomSocket.Control (FWelcome t room cursor status)]
  /\ RoomSocket.rs_pending s' = RoomSocket.rs_pending s.
Proof.
  intros [Hr Hn Hc Hk Hso Ho Hw Hp] Hparse.
  unfold RoomSocket.step, RoomSocket.handle, RoomSocket.onMessageEvent.
  rewrite (bind_run _ _ _ s s) by done. rewrite Hc, Hk, bool_decide_eq_true_2 by done. simpl.
  unfold try_catch, RoomSocket.onFrame. simpl in Hparse. rewrite Hparse. simpl.
  split; [|done]. constructor; simpl; try done. destruct Hp. by constructor.
Qed.

Lemma attached_events r k so E : forall n s,
  attached r k so n s -> 0 <= n -> n + Z.of_nat (length E) <= MAX_SAFE_INTEGER ->
  map roomSeq E = seqFrom (n + 1) (length E) ->
  Forall (fun e => roomId e = r) E ->
  Forall (fun e => parseServerFrame (serverFrameJson (FEvent e)) = Ok (FEvent e)) E ->
  let s' := deliverTo k (map FEvent E) s in
  attached r k so (n + Z.of_nat (length E)) s'
  /\ RoomSocket.rs_log s' = RoomSocket.rs_log s ++ map RoomSocket.Sink E
  /\ RoomSocket.rs_pending s' = RoomSocket.rs_pending s.
Proof.
  induction E as [|e E IH]; intros n s Hs Hn Hmax Hseq Hroom Hparse.
  { simpl. rewrite Z.add_0_r, app_nil_r. done. }
  cbn [map length seqFrom] in Hseq. apply (inj2 cons) in Hseq as [He Hseq].
  apply Forall_cons in Hroom as [Hr Hroom]. apply Forall_cons in Hparse as [Hp Hparse].
  cbn [length] in Hmax. cbn [map]. rewrite deliverTo_cons.
  destruct (attached_event r k so n s e Hs Hr He Hn ltac:(lia) Hp) as (Hs' & Hl & Hpend).
  destruct (IH (n + 1) _ Hs' ltac:(lia) ltac:(lia) Hseq Hroom Hparse) as (Hs'' & Hl' & Hpend').
  cbn zeta. rewrite Hl', Hl, Hpend', Hpend. cbn [length].
  replace (n + Z.of_nat (S (length E))) with (n + 1 + Z.of_nat (length E)) by lia.
  split_and!; [exact Hs''|by rewrite <- app_assoc|done].
Qed.

(** ** The rows the hub reads *)

Lemma seqFrom_filter_drop (f : RoomEventEnvelope -> Z) E n c :
  map f E = seqFrom (n + 1) (length E) -> 0 <= c ->
  List.filter (fun e => n + c <? f e) E = drop (Z.to_nat c) E.
Proof.
  revert n c. induction E as [|e E IH]; intros n c Hseq Hc; [by rewrite drop_nil|].
  cbn [map length seqFrom] in Hseq. apply (inj2 cons) in Hseq as [He Hseq]. simpl. rewrite He.
  destruct (decide (c = 0)) as [->|Hne].
  - rewrite (proj2 (Z.ltb_lt _ _)) by lia. simpl. f_equal.
    transitivity (List.filter (fun e => n + 1 + 0 <? f e) E); [|by rewrite (IH (n + 1) 0 Hseq)].
    apply List.filter_ext_in. intros e' Hin.
    assert (f e' ∈ seqFrom (n + 1 + 1) (length E)) as Hel.
    { rewrite <- Hseq. apply list_elem_of_fmap. exists e'. split; [done|]. by apply list_elem_of_In. }
    apply seqFrom_elem in Hel. transitivity true; [|symmetry]; apply Z.ltb_lt; lia.
  - rewrite (proj2 (Z.ltb_ge _ _)) by lia.
    replace (Z.to_nat c) with (S (Z.to_nat (c - 1))) by lia. simpl.
    rewrite <- (IH (n + 1) (c - 1) Hseq ltac:(lia)). apply List.filter_ext. intros e'. f_equal. lia.
Qed.

Lemma seqFrom_drop a n m : drop m (seqFrom a n) = seqFrom (a + Z.of_nat m) (n - m).
Proof.
  revert a n. induction m as [|m IH]; intros a n; [by rewrite drop_0, Z.add_0_r, Nat.sub_0_r|].
  destruct n as [|n]; [done|]. simpl. rewrite IH. f_equal. lia.
Qed.
Lemma missing_seq E c :
  map roomSeq E = seqFrom 1 (length E) -> 0 <= c ->
  map roomSeq (drop (Z.to_nat c) E) = seqFrom (c + 1) (length (drop (Z.to_nat c) E)).
Proof.
  intros Hs Hc. rewrite <- skipn_map, Hs, seqFrom_drop, length_drop. f_equal. lia.
Qed.

(** The outbox holds the events of the room. *)
Definition outbox_holds (r : string) (E : list RoomEventEnvelope) (d : database) : Prop :=
  map (fun o => (ob_room_seq o, ob_envelope o)) (select_where (fun o => bool_decide (ob_room_id o = r)) (outbox d))
  = replayRows E.

Lemma select_map {A B} (f : A -> B) (p : B -> bool) (q : A -> bool) l :
  (forall a, q a = p (f a)) -> map f (select_where q l) = List.filter p (map f l).
Proof.
  intros Hq. unfold select_where. induction l as [|a l IH]; [done|]. simpl. rewrite Hq.
  destruct (p (f a)); simpl; [by f_equal|exact IH].
Qed.
Lemma select_twice {A} (p q : A -> bool) l :
  select_where (fun a => p a && q a) l = select_where q (select_where p l).
Proof.
  unfold select_where. induction l as [|a l IH]; [done|]. simpl.
  destruct (p a); simpl; [|exact IH]. destruct (q a); [by f_equal|exact IH].
Qed.
Lemma replayRows_after E c :
  map roomSeq E = seqFrom 1 (length E) -> 0 <= c ->
  List.filter (fun p => c <? fst p) (replayRows E) = replayRows (drop (Z.to_nat c) E).
Proof.
  intros Hs Hc. rewrite <- (seqFrom_filter_drop roomSeq E 0 c Hs Hc). symmetry.
  unfold replayRows. apply (select_map (fun e => (roomSeq e, envelopeJson e)) (fun p => c <? fst p)). done.
Qed.

Lemma outboxAfter_rows r E d c :
  room_history r E -> outbox_holds r E d -> 0 <= c -> Z.of_nat (length E) - c <= 501 ->
  outboxAfter r c d = replayRows (drop (Z.to_nat c) E).
Proof.
  intros Hh Ho Hc Hlen. unfold outboxAfter. rewrite select_twice.
  set (rows := select_where (fun o => c <? ob_room_seq o) _).
  assert (map (fun o => (ob_room_seq o, ob_envelope o)) rows = replayRows (drop (Z.to_nat c) E)) as Hmap.
  { rewrite <- (replayRows_after E c (rh_seq r E Hh) Hc), <- Ho.
    apply (select_map (fun o => (ob_room_seq o, ob_envelope o)) (fun p => c <? fst p)). done. }
  rewrite sort_by_id.
  - rewrite Hmap. apply take_ge. unfold replayRows. rewrite length_map, length_drop. lia.
  - apply (in_order_seqFrom ob_room_seq _ (c + 1) (length (drop (Z.to_nat c) E))).
    apply (f_equal (map fst)) in Hmap. rewrite map_map in Hmap. etransitivity; [exact Hmap|].
    unfold replayRows. rewrite map_map. apply missing_seq; [exact (rh_seq r E Hh)|done].
Qed.

End Delivery.

(** ** A student comes back *)

(** The student is at the first event of two, on a second socket. *)
Definition demoReturning : RoomSocket.room_socket :=
  RoomSocket.run (RoomSocket.newRoomSocket demoRoom demoClient "lo" [] demoDelays)
    [IConnect workingSocket; ISend demoPause; IMessageEvent 0 (Some (serverFrameJson (FEvent demoFirst)));
     ICloseEvent 0 (Some 1006); ITimer workingSocket].
Definition demoRows : database :=
  Database [] [] (map (fun e => OutboxRow (roomSeq e) (eventId e) (roomId e) (roomSeq e) "room.event.committed"
    (envelopeJson e) 0 0 None None 0 None None) demoHistory) [] [] [] [] [] [] [] no_accounts.

Lemma demoReturning_attached : attached demoRoom 1 workingSocket 1 demoReturning.
Proof.
  constructor; [..|unfold demoReturning; apply RoomSocket.reachable_pending]; vm_compute; reflexivity.
Qed.

