(* ===== verification/Echo.v ===== *)
(** * Concept maps

    [packages/contracts/src/analytics.ts] (the ECHO half),
    [generated/echo-concept-projection.v1.ts], [generated/analytics-http.v1.ts] and
    [apps/web/src/lib/analytics/concept-reducer.ts]: the snapshots of a concept map, the
    patches that lead from one version to the next, the checks of both, pages and
    timelines of patches, and the reducer of the browser.

    A value has the structure its type gives it; what the closed schemas add to the type
    (formats, ranges, lengths, what a student may see) is the boolean [..Schema] of the
    type. Versions and positions are safe integers. *)
From S2P Require Import Prelude Text JsDate JsValue Contracts Database Concrete JsMap Frames.
#[local] Set Warnings "-register-all,-clear-no-such-hyp,-level-tolerance".

(** ** Types *)

Inductive NodeEvidence : Type :=
| supported | challenged | uncertain | disputed | retracted | superseded | replay_required.
Inductive ReviewStatus : Type := unreviewed | approved | rejected | corrected.
Inductive NodeDisplay : Type := confirmed | provisional | disputed_display | inactive.
Inductive EvidenceStatus : Type := ev_active | ev_retracted | ev_superseded | ev_requires_replay.
Inductive DisplayStatus : Type := hidden | teacher_shadow | student_approved | student_aggregate.
#[global] Instance ReviewStatus_eq_dec : EqDecision ReviewStatus.
Proof. solve_decision. Defined.
#[global] Instance EvidenceStatus_eq_dec : EqDecision EvidenceStatus.
Proof. solve_decision. Defined.
#[global] Instance DisplayStatus_eq_dec : EqDecision DisplayStatus.
Proof. solve_decision. Defined.

Record Position : Type := MkPosition { po_x : jsnum; po_y : jsnum }.
(** [TeacherConceptNode], and [StudentConceptNode] when it is approved. *)
Record ConceptNode : Type := MkNode {
  nd_nodeId : string;
  nd_label : string;
  nd_evidenceStatus : NodeEvidence;
  nd_reviewStatus : ReviewStatus;
  nd_displayStatus : NodeDisplay;
  nd_position : Position;
}.
Record EvidenceRef : Type := MkEvidence { er_eventId : string; er_start : Z; er_end : Z }.
Record Channels : Type := MkChannels {
  ch_support : jsnum; ch_challenge : jsnum; ch_uncertain : jsnum; ch_question : jsnum;
}.
(** What the edge of a teacher has and that of a student has not. *)
Record EdgeEvidence : Type := MkEdgeEvidence {
  ee_channels : Channels;
  ee_activityScore : jsnum;
  ee_evidenceRefs : list EvidenceRef;
}.
(** [TeacherConceptEdge] and [StudentConceptEdge]. *)
Record ConceptEdge : Type := MkEdge {
  eg_edgeId : string;
  eg_head : string;
  eg_predicate : string;
  eg_tail : string;
  eg_relationFamily : string;
  eg_evidenceStatus : NodeEvidence;
  eg_reviewStatus : ReviewStatus;
  eg_displayStatus : NodeDisplay;
  eg_evidence : option EdgeEvidence;
}.
(** [Common] and the payload. *)
Record ConceptMapSnapshot : Type := MkSnapshot {
  cs_projectionKey : ProjectionKey;
  cs_roomId : string;
  cs_analysisEpoch : string;
  cs_algorithmVersion : string;
  cs_parameterHash : string;
  cs_projectionVersion : Z;
  cs_baseVersion : Z;
  cs_completeThroughRoomSeq : Z;
  cs_watermarkEventTime : string;
  cs_requiresReplay : bool;
  cs_evidenceStatus : EvidenceStatus;
  cs_reviewStatus : ReviewStatus;
  cs_displayStatus : DisplayStatus;
  cs_warnings : list string;
  cs_nodes : list ConceptNode;
  cs_edges : list ConceptEdge;
}.
Record PositionUpdate : Type := MkPositionUpdate { pu_nodeId : string; pu_x : jsnum; pu_y : jsnum }.
(** [TeacherConceptMapPatch], and [StudentConceptMapPatch] without evidence. *)
Record ConceptMapPatch : Type := MkPatch {
  pt_analysisEpoch : string;
  pt_algorithmVersion : string;
  pt_parameterHash : string;
  pt_projectionVersion : Z;
  pt_baseVersion : Z;
  pt_completeThroughRoomSeq : Z;
  pt_requiresReplay : bool;
  pt_warnings : list string;
  pt_nodesAdded : list ConceptNode;
  pt_nodesUpdated : list ConceptNode;
  pt_nodesHidden : list string;
  pt_edgesAdded : list ConceptEdge;
  pt_edgesUpdated : list ConceptEdge;
  pt_edgesHidden : list string;
  pt_positionUpdates : list PositionUpdate;
  pt_changeScore : jsnum;
  pt_reasonCodes : list string;
  pt_evidenceRefs : option (list EvidenceRef);
}.
Record PatchPage : Type := MkPatchPage {
  pp_roomId : string;
  pp_projectionKey : ProjectionKey;
  pp_analysisEpoch : string;
  pp_patches : list ConceptMapPatch;
}.
Record TimelineResponse : Type := MkTimeline {
  tl_roomId : string;
  tl_projectionKey : ProjectionKey;
  tl_analysisEpoch : string;
  tl_baseSnapshot : option ConceptMapSnapshot;
  tl_patches : list ConceptMapPatch;
  tl_truncatedBeforeVersion : option Z;
  tl_headVersion : Z;
}.

(** ** Schemas *)

Definition nonNegative (n : jsnum) : bool :=
  match n with NInt z => 0 <=? z | NNegZero => true | NFrac m _ => 0 <=? m | NNonFinite => false end.
Definition inUnit (n : jsnum) : bool :=
  match n with
  | NInt z => (0 <=? z) && (z <=? 1)
  | NNegZero => true
  | NFrac m e => (0 <=? m) && (if e <? 0 then m <=? 2 ^ (- e) else m * 2 ^ e <=? 1)
  | NNonFinite => false
  end.
Definition textBetween (lo hi : Z) (s : string) : bool := (lo <=? codePoints s) && (codePoints s <=? hi).
Definition isParameterHash (s : string) : bool :=
  matches (replicate 64 is_lower_hex) (list_ascii_of_string s).
Definition isTeacherKey (k : ProjectionKey) : bool := bool_decide (k = echo_teacher_shadow).

Section Contract.
Context `{Schemas}.

Definition refSchema (r : EvidenceRef) : bool :=
  format_uuid (er_eventId r) && (0 <=? er_start r) && (1 <=? er_end r).
Definition positionSchema (p : Position) : bool := inUnit (po_x p) && inUnit (po_y p).
Definition nodeSchema (teacher : bool) (n : ConceptNode) : bool :=
  textBetween 1 160 (nd_nodeId n) && textBetween 1 160 (nd_label n) && positionSchema (nd_position n)
  && (teacher || bool_decide (nd_reviewStatus n = approved)).
Definition evidenceSchema (e : EdgeEvidence) : bool :=
  let c := ee_channels e in
  forallb nonNegative [ch_support c; ch_challenge c; ch_uncertain c; ch_question c; ee_activityScore e]
  && (1 <=? length (ee_evidenceRefs e))%nat && forallb refSchema (ee_evidenceRefs e).
Definition edgeSchema (teacher : bool) (e : ConceptEdge) : bool :=
  format_uuid (eg_edgeId e) && textBetween 1 160 (eg_head e) && textBetween 1 160 (eg_predicate e)
  && textBetween 1 160 (eg_tail e) && textBetween 1 80 (eg_relationFamily e)
  && match eg_evidence e with
     | Some ev => teacher && evidenceSchema ev
     | None => negb teacher && bool_decide (eg_reviewStatus e = approved)
     end.

(** [Common], and the branch of the key: a teacher's map, or a student's, which is empty
    and unreviewed or has something and is approved. *)
Definition snapshotSchema (s : ConceptMapSnapshot) : bool :=
  let teacher := isTeacherKey (cs_projectionKey s) in
  let empty := bool_decide (cs_nodes s = []) && bool_decide (cs_edges s = []) in
  format_uuid (cs_roomId s) && format_uuid (cs_analysisEpoch s) && textBetween 1 160 (cs_algorithmVersion s)
  && isParameterHash (cs_parameterHash s) && (1 <=? cs_projectionVersion s) && (0 <=? cs_baseVersion s)
  && (0 <=? cs_completeThroughRoomSeq s) && format_date_time (cs_watermarkEventTime s)
  && forallb (textBetween 1 160) (cs_warnings s)
  && forallb (nodeSchema teacher) (cs_nodes s) && forallb (edgeSchema teacher) (cs_edges s)
  && (if teacher then bool_decide (cs_displayStatus s = teacher_shadow)
      else bool_decide (cs_projectionKey s = echo_student_approved)
           && bool_decide (cs_displayStatus s = student_approved)
           && bool_decide (cs_reviewStatus s = if empty then unreviewed else approved)).
Definition patchSchema (teacher : bool) (p : ConceptMapPatch) : bool :=
  format_uuid (pt_analysisEpoch p) && textBetween 1 160 (pt_algorithmVersion p)
  && isParameterHash (pt_parameterHash p) && (1 <=? pt_projectionVersion p) && (0 <=? pt_baseVersion p)
  && (0 <=? pt_completeThroughRoomSeq p) && forallb (textBetween 0 160) (pt_warnings p)
  && forallb (nodeSchema teacher) (pt_nodesAdded p ++ pt_nodesUpdated p)
  && forallb (textBetween 0 160) (pt_nodesHidden p)
  && forallb (edgeSchema teacher) (pt_edgesAdded p ++ pt_edgesUpdated p)
  && forallb format_uuid (pt_edgesHidden p)
  && forallb (fun u => textBetween 1 160 (pu_nodeId u) && inUnit (pu_x u) && inUnit (pu_y u))
       (pt_positionUpdates p)
  && inUnit (pt_changeScore p) && forallb (textBetween 0 160) (pt_reasonCodes p)
  && match pt_evidenceRefs p with
     | Some refs => teacher && forallb refSchema refs
     | None => negb teacher
     end.

(** ** Semantics *)

Definition refsOf (e : ConceptEdge) : list EvidenceRef :=
  match eg_evidence e with Some ev => ee_evidenceRefs ev | None => [] end.
Definition spansOk (refs : list EvidenceRef) : bool := forallb (fun r => er_start r <? er_end r) refs.
(** [assertEchoSpans]. *)
Definition assertEchoSpans (refs : option (list EvidenceRef)) (edges : list ConceptEdge) : bool :=
  spansOk (default [] refs) && forallb (fun e => spansOk (refsOf e)) edges.
Definition snapshotSpans (s : ConceptMapSnapshot) : bool := assertEchoSpans None (cs_edges s).
Definition patchSpans (p : ConceptMapPatch) : bool :=
  assertEchoSpans (pt_evidenceRefs p) (pt_edgesAdded p ++ pt_edgesUpdated p).

(** The loops of [assertEchoSnapshotSemantics] over nodes and edges. *)
Fixpoint nodesOk (student : bool) (seen : list string) (nodes : list ConceptNode) : bool :=
  match nodes with
  | [] => true
  | n :: nodes' =>
      negb (bool_decide (nd_nodeId n ∈ seen) || student && negb (bool_decide (nd_reviewStatus n = approved)))
      && nodesOk student (nd_nodeId n :: seen) nodes'
  end.
Fixpoint edgesOk (student : bool) (nodeIds seen : list string) (edges : list ConceptEdge) : bool :=
  match edges with
  | [] => true
  | e :: edges' =>
      negb (bool_decide (eg_edgeId e ∈ seen) || negb (bool_decide (eg_head e ∈ nodeIds))
            || negb (bool_decide (eg_tail e ∈ nodeIds))
            || student && negb (bool_decide (eg_reviewStatus e = approved)))
      && edgesOk student nodeIds (eg_edgeId e :: seen) edges'
  end.
(** [assertEchoSnapshotSemantics]. *)
Definition assertEchoSnapshotSemantics (s : ConceptMapSnapshot) : bool :=
  let student := bool_decide (cs_projectionKey s = echo_student_approved) in
  let hasApprovedContent := (0 <? length (cs_nodes s))%nat || (0 <? length (cs_edges s))%nat in
  (cs_baseVersion s =? cs_projectionVersion s - 1)
  && eqb (cs_requiresReplay s) (bool_decide (cs_evidenceStatus s = ev_requires_replay))
  && (if isTeacherKey (cs_projectionKey s) then bool_decide (cs_displayStatus s = teacher_shadow)
      else bool_decide (cs_displayStatus s = student_approved)
           && bool_decide (cs_reviewStatus s = if hasApprovedContent then approved else unreviewed))
  && nodesOk student [] (cs_nodes s)
  && edgesOk student (map nd_nodeId (cs_nodes s)) [] (cs_edges s).

Definition distinct (l : list string) : bool := (length (unique l) =? length l)%nat.
Definition nodeMutations (p : ConceptMapPatch) : list string :=
  map nd_nodeId (pt_nodesAdded p) ++ map nd_nodeId (pt_nodesUpdated p) ++ pt_nodesHidden p.
Definition edgeMutations (p : ConceptMapPatch) : list string :=
  map eg_edgeId (pt_edgesAdded p) ++ map eg_edgeId (pt_edgesUpdated p) ++ pt_edgesHidden p.
(** [assertEchoPatchSemantics]. *)
Definition assertEchoPatchSemantics (p : ConceptMapPatch) : bool :=
  (pt_projectionVersion p =? pt_baseVersion p + 1)
  && distinct (nodeMutations p)
  && distinct (edgeMutations p) && distinct (map pu_nodeId (pt_positionUpdates p)).

(** [parseEchoSnapshot] and its two sisters, and those of patches. *)
Definition checkSnapshot (allowed : list ProjectionKey) (s : ConceptMapSnapshot) : bool :=
  bool_decide (cs_projectionKey s ∈ allowed) && snapshotSchema s && snapshotSpans s
  && assertEchoSnapshotSemantics s.
Definition parseEchoSnapshot : ConceptMapSnapshot -> bool :=
  checkSnapshot [echo_teacher_shadow; echo_student_approved].
Definition parseTeacherEchoSnapshot : ConceptMapSnapshot -> bool := checkSnapshot [echo_teacher_shadow].
Definition parseStudentEchoSnapshot : ConceptMapSnapshot -> bool := checkSnapshot [echo_student_approved].
Definition checkPatch (schema : bool) (p : ConceptMapPatch) : bool :=
  schema && patchSpans p && assertEchoPatchSemantics p.
Definition parseTeacherEchoPatch (p : ConceptMapPatch) : bool := checkPatch (patchSchema true p) p.
Definition parseStudentEchoPatch (p : ConceptMapPatch) : bool := checkPatch (patchSchema false p) p.
Definition parseEchoPatch (p : ConceptMapPatch) : bool := checkPatch (patchSchema true p || patchSchema false p) p.

(** ** Chains of patches *)

(** [assertPatchChain]. *)
Definition follows (previous p : ConceptMapPatch) : bool :=
  (pt_baseVersion p =? pt_projectionVersion previous)
  && bool_decide (pt_analysisEpoch p = pt_analysisEpoch previous)
  && bool_decide (pt_algorithmVersion p = pt_algorithmVersion previous)
  && bool_decide (pt_parameterHash p = pt_parameterHash previous)
  && (pt_completeThroughRoomSeq previous <=? pt_completeThroughRoomSeq p).
Fixpoint patchChain (previous : option ConceptMapPatch) (patches : list ConceptMapPatch) : bool :=
  match patches with
  | [] => true
  | p :: patches' =>
      patchSpans p && assertEchoPatchSemantics p && (pt_projectionVersion p =? pt_baseVersion p + 1)
      && match previous with Some q => follows q p | None => true end
      && patchChain (Some p) patches'
  end.
Definition assertPatchChain (patches : list ConceptMapPatch) : bool := patchChain None patches.
(** [assertPatchPageSemantics]. *)
Definition sameEpoch (epoch : string) (patches : list ConceptMapPatch) : bool :=
  forallb (fun p => bool_decide (pt_analysisEpoch p = epoch)) patches.
Definition assertPatchPageSemantics (v : PatchPage) : bool :=
  assertPatchChain (pp_patches v) && sameEpoch (pp_analysisEpoch v) (pp_patches v).
Definition MAX_PATCHES : nat := 200.
Definition pageSchema (keys : list ProjectionKey) (v : PatchPage) : bool :=
  bool_decide (pp_projectionKey v ∈ keys) && format_uuid (pp_roomId v) && format_uuid (pp_analysisEpoch v)
  && (length (pp_patches v) <=? MAX_PATCHES)%nat
  && forallb (patchSchema (isTeacherKey (pp_projectionKey v))) (pp_patches v).
Definition checkPatchPage (keys : list ProjectionKey) (v : PatchPage) : bool :=
  pageSchema keys v && assertPatchPageSemantics v.
Definition parsePatchPage : PatchPage -> bool := checkPatchPage [echo_teacher_shadow; echo_student_approved].
Definition parseTeacherPatchPage : PatchPage -> bool := checkPatchPage [echo_teacher_shadow].
Definition parseStudentPatchPage : PatchPage -> bool := checkPatchPage [echo_student_approved].

(** [assertTimelineSemantics]. *)
Definition assertTimelineSemantics (v : TimelineResponse) : bool :=
  assertPatchChain (tl_patches v) && sameEpoch (tl_analysisEpoch v) (tl_patches v)
  && match tl_baseSnapshot v with
     | Some b => bool_decide (cs_roomId b = tl_roomId v) && bool_decide (cs_projectionKey b = tl_projectionKey v)
                 && bool_decide (cs_analysisEpoch b = tl_analysisEpoch v)
     | None => true
     end
  && match tl_patches v, last (tl_patches v) with
     | first :: _, Some final =>
         (pt_baseVersion first =? default 0 (cs_projectionVersion <$> tl_baseSnapshot v))
         && (pt_projectionVersion final =? tl_headVersion v)
         && match tl_baseSnapshot v with
            | Some b =>
                snapshotSpans b && assertEchoSnapshotSemantics b
                && bool_decide (tl_truncatedBeforeVersion v = Some (cs_projectionVersion b))
                && bool_decide (cs_analysisEpoch b = pt_analysisEpoch first)
                && bool_decide (cs_algorithmVersion b = pt_algorithmVersion first)
                && bool_decide (cs_parameterHash b = pt_parameterHash first)
                && (cs_completeThroughRoomSeq b <=? pt_completeThroughRoomSeq first)
            | None => bool_decide (tl_truncatedBeforeVersion v = None)
            end
     | _, _ => bool_decide (tl_baseSnapshot v = None) && bool_decide (tl_truncatedBeforeVersion v = None)
               && (tl_headVersion v =? 0)
     end.
Definition timelineSchema (keys : list ProjectionKey) (v : TimelineResponse) : bool :=
  bool_decide (tl_projectionKey v ∈ keys) && format_uuid (tl_roomId v) && format_uuid (tl_analysisEpoch v)
  && match tl_baseSnapshot v with
     | Some b => bool_decide (isTeacherKey (cs_projectionKey b) = isTeacherKey (tl_projectionKey v)) && snapshotSchema b
     | None => true
     end
  && (length (tl_patches v) <=? MAX_PATCHES)%nat
  && forallb (patchSchema (isTeacherKey (tl_projectionKey v))) (tl_patches v)
  && match tl_truncatedBeforeVersion v with Some n => 1 <=? n | None => true end
  && (0 <=? tl_headVersion v).
Definition checkTimeline (keys : list ProjectionKey) (v : TimelineResponse) : bool :=
  timelineSchema keys v && assertTimelineSemantics v.
Definition parseTimeline : TimelineResponse -> bool := checkTimeline [echo_teacher_shadow; echo_student_approved].
Definition parseTeacherTimeline : TimelineResponse -> bool := checkTimeline [echo_teacher_shadow].
Definition parseStudentTimeline : TimelineResponse -> bool := checkTimeline [echo_student_approved].

(** ** The reducer *)

(** The three loops over a map: an addition must be new, an update and a removal must
    find their target. *)
Fixpoint addAll {A} (key : A -> string) (conflict : string) (l : list A) (m : list (string * A))
    : result string (list (string * A)) :=
  match l with
  | [] => Ok m
  | a :: l' => if map_has (key a) m then Err conflict else addAll key conflict l' (map_set (key a) a m)
  end.
Fixpoint updateAll {A} (key : A -> string) (missing : string) (l : list A) (m : list (string * A))
    : result string (list (string * A)) :=
  match l with
  | [] => Ok m
  | a :: l' => if map_has (key a) m then updateAll key missing l' (map_set (key a) a m) else Err missing
  end.
Fixpoint hideAll {A} (missing : string) (l : list string) (m : list (string * A))
    : result string (list (string * A)) :=
  match l with
  | [] => Ok m
  | k :: l' => if map_has k m then hideAll missing l' (map_delete k m) else Err missing
  end.
Definition moveNode (u : PositionUpdate) (n : ConceptNode) : ConceptNode :=
  MkNode (nd_nodeId n) (nd_label n) (nd_evidenceStatus n) (nd_reviewStatus n) (nd_displayStatus n)
    (MkPosition (pu_x u) (pu_y u)).
Fixpoint moveAll (l : list PositionUpdate) (m : list (string * ConceptNode))
    : result string (list (string * ConceptNode)) :=
  match l with
  | [] => Ok m
  | u :: l' => match assoc (pu_nodeId u) m with
               | None => Err "CONCEPT_PATCH_POSITION_TARGET_MISSING"%string
               | Some n => moveAll l' (map_set (pu_nodeId u) (moveNode u n) m)
               end
  end.
Definition dangling (nodes : list (string * ConceptNode)) (e : ConceptEdge) : bool :=
  negb (map_has (eg_head e) nodes) || negb (map_has (eg_tail e) nodes).
(** [new Map(list.map(x => [key(x), x]))]. *)
Definition mapOf {A} (key : A -> string) (l : list A) : list (string * A) :=
  foldl (fun m a => map_set (key a) a m) [] l.

(** The checks before the first change. *)
Definition patchMismatch (s : ConceptMapSnapshot) (p : ConceptMapPatch) : option string :=
  if cs_requiresReplay s || negb (bool_decide (cs_evidenceStatus s = ev_active)) || pt_requiresReplay p
  then Some "CONCEPT_PATCH_REPLAY_REQUIRED"%string
  else if negb (bool_decide (pt_analysisEpoch p = cs_analysisEpoch s)) then Some "CONCEPT_PATCH_EPOCH_MISMATCH"%string
  else if negb (bool_decide (pt_algorithmVersion p = cs_algorithmVersion s))
          || negb (bool_decide (pt_parameterHash p = cs_parameterHash s))
  then Some "CONCEPT_PATCH_BASELINE_MISMATCH"%string
  else if negb (pt_baseVersion p =? cs_projectionVersion s)
          || negb (pt_projectionVersion p =? cs_projectionVersion s + 1)
  then Some "CONCEPT_PATCH_VERSION_MISMATCH"%string
  else if pt_completeThroughRoomSeq p <? cs_completeThroughRoomSeq s then Some "CONCEPT_PATCH_CURSOR_REGRESSION"%string
  else None.
Definition patchedNodes (s : ConceptMapSnapshot) (p : ConceptMapPatch)
    : result string (list (string * ConceptNode)) :=
  m ← addAll nd_nodeId "CONCEPT_PATCH_NODE_ADD_CONFLICT" (pt_nodesAdded p) (mapOf nd_nodeId (cs_nodes s));
  m ← updateAll nd_nodeId "CONCEPT_PATCH_NODE_UPDATE_MISSING" (pt_nodesUpdated p) m;
  hideAll "CONCEPT_PATCH_NODE_HIDE_MISSING" (pt_nodesHidden p) m.
Definition patchedEdges (s : ConceptMapSnapshot) (p : ConceptMapPatch)
    : result string (list (string * ConceptEdge)) :=
  m ← addAll eg_edgeId "CONCEPT_PATCH_EDGE_ADD_CONFLICT" (pt_edgesAdded p) (mapOf eg_edgeId (cs_edges s));
  m ← updateAll eg_edgeId "CONCEPT_PATCH_EDGE_UPDATE_MISSING" (pt_edgesUpdated p) m;
  hideAll "CONCEPT_PATCH_EDGE_HIDE_MISSING" (pt_edgesHidden p) m.
Definition patchResult (s : ConceptMapSnapshot) (p : ConceptMapPatch) (nodes : list ConceptNode)
    (edges : list ConceptEdge) : ConceptMapSnapshot :=
  MkSnapshot (cs_projectionKey s) (cs_roomId s) (pt_analysisEpoch p) (pt_algorithmVersion p)
    (pt_parameterHash p) (pt_projectionVersion p) (pt_baseVersion p) (pt_completeThroughRoomSeq p)
    (cs_watermarkEventTime s) false ev_active
    (if decide (cs_projectionKey s = echo_student_approved)
     then if (0 <? length nodes)%nat || (0 <? length edges)%nat then approved else unreviewed
     else cs_reviewStatus s)
    (cs_displayStatus s) (pt_warnings p) nodes edges.
(** [applyConceptPatch]. *)
Definition applyConceptPatch (s : ConceptMapSnapshot) (p : ConceptMapPatch) : result string ConceptMapSnapshot :=
  match patchMismatch s p with
  | Some e => Err e
  | None =>
      nodes ← patchedNodes s p;
      edges ← patchedEdges s p;
      nodes ← moveAll (pt_positionUpdates p) nodes;
      if existsb (fun x => dangling nodes (snd x)) edges then Err "CONCEPT_PATCH_DANGLING_EDGE"%string
      else let next := patchResult s p (map snd nodes) (map snd edges) in
           if parseEchoSnapshot next then Ok next else Err "CONCEPT_PATCH_RESULT_INVALID"%string
  end.
(** The loop of [applyEchoPatches]. *)
Fixpoint applyPatches (s : ConceptMapSnapshot) (patches : list ConceptMapPatch) : result string ConceptMapSnapshot :=
  match patches with
  | [] => Ok s
  | p :: patches' => next ← applyConceptPatch s p; applyPatches next patches'
  end.
End Contract.

(** ** Maps keyed by their values *)

Section Keyed.
Context {A : Type} (key : A -> string).

Record keyed (m : list (string * A)) : Prop := {
  ky_nodup : NoDup (map fst m);
  ky_keys : Forall (fun x => fst x = key (snd x)) m;
}.
Definition pick (k : string) (l : list A) : option A := find (fun a => bool_decide (key a = k)) l.
#[local] Arguments pick : simpl never.

Lemma keyed_nil : keyed [].
Proof. constructor; constructor. Qed.
Lemma keyed_set a m : keyed m -> keyed (map_set (key a) a m).
Proof. intros [Hn Hk]. constructor; [by apply map_set_NoDup|by apply map_set_Forall]. Qed.
Lemma keyed_delete k m : keyed m -> keyed (map_delete k m).
Proof. intros [Hn Hk]. constructor; [by apply map_delete_NoDup|by apply map_delete_Forall]. Qed.
Lemma keyed_mapOf l : keyed (mapOf key l).
Proof.
  unfold mapOf. pose proof keyed_nil as H0. revert H0. generalize (@nil (string * A)).
  induction l as [|a l IH]; intros m Hm; [done|]. simpl. apply IH. by apply keyed_set.
Qed.
Lemma map_has_false k (m : list (string * A)) : map_has k m = false -> k ∉ map fst m.
Proof.
  unfold map_has. destruct (assoc k m) eqn:E; [done|]. intros _. by apply assoc_None_keys.
Qed.
Lemma map_set_fresh k v (m : list (string * A)) : k ∉ map fst m -> map_set k v m = m ++ [(k, v)].
Proof.
  induction m as [|[k0 v0] m IH]; simpl; [done|]. intros Hk.
  rewrite decide_False by set_solver. f_equal. apply IH. set_solver.
Qed.
(** A keyed map is the map of its values. *)
Lemma mapOf_values m : keyed m -> mapOf key (map snd m) = m.
Proof.
  intros Hm. unfold mapOf.
  enough (forall acc, keyed (acc ++ m) -> foldl (fun m a => map_set (key a) a m) acc (map snd m) = acc ++ m) as Hgen
    by (by apply (Hgen [])).
  clear Hm. induction m as [|[k a] m IH]; intros acc Hk; simpl; [by rewrite app_nil_r|].
  assert (k = key a) as ->.
  { destruct Hk as [_ Hk]. apply Forall_app in Hk as [_ Hk]. apply Forall_cons in Hk as [Hk _]. exact Hk. }
  rewrite map_set_fresh.
  - rewrite IH by (by rewrite <- app_assoc). by rewrite <- app_assoc.
  - destruct Hk as [Hn _]. rewrite map_app in Hn. apply NoDup_app in Hn as (_ & Hn & _).
    intros Hin. apply (Hn _ Hin). simpl. left.
Qed.

Lemma pick_Some k l a : pick k l = Some a -> key a = k /\ a ∈ l.
Proof. unfold pick. intros [Hin Hk]%find_some. apply list_elem_of_In in Hin. by apply bool_decide_eq_true in Hk. Qed.
Lemma pick_None k l : k ∉ map key l -> pick k l = None.
Proof.
  induction l as [|a l IH]; [done|]. simpl. intros Hk. unfold pick. simpl.
  rewrite bool_decide_eq_false_2 by (intros Heq; apply Hk; rewrite Heq; left).
  apply IH. intros Hin. apply Hk. by right.
Qed.
Lemma pick_cons k a l : pick k (a :: l) = if decide (key a = k) then Some a else pick k l.
Proof.
  unfold pick. simpl. destruct (decide (key a = k)); [by rewrite bool_decide_eq_true_2|by rewrite bool_decide_eq_false_2].
Qed.

Lemma addAll_spec e l : forall m m', keyed m -> addAll key e l m = Ok m' ->
  keyed m' /\ forall k, assoc k m' = match pick k l with Some a => Some a | None => assoc k m end.
Proof.
  induction l as [|a l IH]; intros m m' Hm; simpl; [by intros [= <-]|].
  destruct (map_has (key a) m) eqn:Hh; [done|]. intros H. destruct (IH _ _ (keyed_set a m Hm) H) as [Hk Hl].
  split; [exact Hk|]. intros k. rewrite Hl, pick_cons, assoc_map_set.
  destruct (decide (key a = k)) as [<-|Hne]; [|by rewrite decide_False].
  rewrite decide_True by done. destruct (pick (key a) l) as [b|] eqn:Hp; [|done]. exfalso.
  apply pick_Some in Hp as [Hb Hin].
  assert (map_has (key b) (map_set (key a) a m) = true) as Hhas
    by (unfold map_has; rewrite assoc_map_set, decide_True; done).
  clear IH Hl Hk. revert H Hhas. generalize (map_set (key a) a m). clear -Hin.
  induction l as [|c l IH]; intros m; [by apply elem_of_nil in Hin|]. simpl.
  apply elem_of_cons in Hin as [->|Hin].
  - intros H Hh. by rewrite Hh in H.
  - destruct (map_has (key c) m) eqn:Hc; [done|]. intros H Hh. apply (IH Hin _ H).
    unfold map_has in *. rewrite assoc_map_set. by case_decide.
Qed.
Lemma updateAll_spec e l : NoDup (map key l) -> forall m m', keyed m -> updateAll key e l m = Ok m' ->
  keyed m' /\ forall k, assoc k m' = match pick k l with Some a => Some a | None => assoc k m end.
Proof.
  induction l as [|a l IH]; intros Hnd m m' Hm; simpl; [by intros [= <-]|].
  simpl in Hnd. apply NoDup_cons in Hnd as [Hn Hnd].
  destruct (map_has (key a) m) eqn:Hh; [|done]. intros H.
  destruct (IH Hnd _ _ (keyed_set a m Hm) H) as [Hk Hl].
  split; [exact Hk|]. intros k. rewrite Hl, pick_cons, assoc_map_set.
  destruct (decide (key a = k)) as [<-|Hne]; [|by rewrite decide_False].
  by rewrite decide_True, pick_None.
Qed.
Lemma hideAll_spec e l : forall m m', keyed m -> hideAll e l m = Ok m' ->
  keyed m' /\ forall k, assoc k m' = if decide (k ∈ l) then None else assoc k m.
Proof.
  induction l as [|a l IH]; intros m m' Hm; cbn [hideAll].
  { intros [= <-]. split; [done|]. intros k. rewrite decide_False; [done|]. apply not_elem_of_nil. }
  destruct (map_has a m) eqn:Hh; [|done]. intros H.
  destruct (IH _ _ (keyed_delete a m Hm) H) as [Hk Hl]. split; [exact Hk|]. intros k.
  rewrite Hl, assoc_map_delete. destruct (decide (k ∈ l)); [by rewrite decide_True by (by right)|].
  destruct (decide (k = a)) as [->|]; [by rewrite decide_True by left|].
  rewrite decide_False; [done|]. by rewrite not_elem_of_cons.
Qed.
(** When the loops get through. *)
Lemma map_has_Some k (m : list (string * A)) : map_has k m = true <-> is_Some (assoc k m).
Proof. unfold map_has. destruct (assoc k m) as [x|]; [by split; [exists x|]|]. by split; [|intros []]. Qed.
Lemma addAll_ok e l : NoDup (map key l) -> forall m,
  (exists m', addAll key e l m = Ok m') <-> forall a, a ∈ l -> assoc (key a) m = None.
Proof.
  induction l as [|a l IH]; intros Hnd m; cbn [addAll].
  { split; [by intros _ a ?%elem_of_nil|by eexists]. }
  cbn [map] in Hnd. apply NoDup_cons in Hnd as [Hn Hnd]. destruct (map_has (key a) m) eqn:Hh.
  - split; [by intros []|]. intros Hall. apply map_has_Some in Hh as [x Hx]. by rewrite Hall in Hx by left.
  - assert (assoc (key a) m = None) as Ha by (destruct (assoc (key a) m) eqn:E; [|done]; unfold map_has in Hh; by rewrite E in Hh).
    rewrite IH by done. split.
    + intros Hall b [->|Hb]%elem_of_cons; [done|]. specialize (Hall b Hb). rewrite assoc_map_set in Hall. by case_decide.
    + intros Hall b Hb. rewrite assoc_map_set_ne; [apply Hall; by right|]. intros Heq. apply Hn. rewrite <- Heq. by apply list_elem_of_fmap_2.
Qed.
Lemma updateAll_ok e l : forall m, (exists m', updateAll key e l m = Ok m') <-> forall a, a ∈ l -> is_Some (assoc (key a) m).
Proof.
  induction l as [|a l IH]; intros m; cbn [updateAll].
  { split; [by intros _ a ?%elem_of_nil|by eexists]. }
  destruct (map_has (key a) m) eqn:Hh.
  - apply map_has_Some in Hh. rewrite IH. split.
    + intros Hall b [->|Hb]%elem_of_cons; [done|]. specialize (Hall b Hb). rewrite assoc_map_set in Hall. case_decide as He; [by rewrite He|done].
    + intros Hall b Hb. rewrite assoc_map_set. case_decide; [by eexists|]. apply Hall. by right.
  - split; [by intros []|]. intros Hall. assert (map_has (key a) m = true) by (apply map_has_Some, Hall; left). congruence.
Qed.
Lemma hideAll_ok e l : NoDup l -> forall m : list (string * A),
  (exists m', hideAll e l m = Ok m') <-> forall k, k ∈ l -> is_Some (assoc k m).
Proof.
  induction l as [|a l IH]; intros Hnd m; cbn [hideAll].
  { split; [by intros _ k ?%elem_of_nil|by eexists]. }
  apply NoDup_cons in Hnd as [Hn Hnd]. destruct (map_has a m) eqn:Hh.
  - apply map_has_Some in Hh. rewrite IH by done. split.
    + intros Hall k [->|Hk]%elem_of_cons; [done|]. specialize (Hall k Hk). rewrite assoc_map_delete in Hall. case_decide; [by destruct Hall|done].
    + intros Hall k Hk. rewrite assoc_map_delete, decide_False by (by intros ->). apply Hall. by right.
  - split; [by intros []|]. intros Hall. assert (map_has a m = true) by (apply map_has_Some, Hall; left). congruence.
Qed.
(** What holds of the values of a map, and of what is put in, holds of the result. *)
Definition valued (P : A -> Prop) (m : list (string * A)) : Prop := Forall (fun x => P (snd x)) m.
Lemma valued_set (P : A -> Prop) k a m : P a -> valued P m -> valued P (map_set k a m).
Proof. intros Ha Hm. unfold valued in *. by apply map_set_Forall. Qed.
Lemma valued_mapOf (P : A -> Prop) l : Forall P l -> valued P (mapOf key l).
Proof.
  unfold mapOf. assert (valued P []) as Hv by constructor. revert Hv. generalize (@nil (string * A)).
  induction l as [|a l IH]; intros m Hm Hl; [done|]. apply Forall_cons in Hl as [Ha Hl]. cbn. apply IH; [by apply valued_set|done].
Qed.
Lemma addAll_valued (P : A -> Prop) e l : Forall P l -> forall m m', valued P m -> addAll key e l m = Ok m' -> valued P m'.
Proof.
  induction 1 as [|a l Ha _ IH]; intros m m' Hm; cbn [addAll]; [by intros [= <-]|].
  destruct (map_has _ _); [done|]. apply IH. by apply valued_set.
Qed.
Lemma updateAll_valued (P : A -> Prop) e l : Forall P l -> forall m m', valued P m -> updateAll key e l m = Ok m' -> valued P m'.
Proof.
  induction 1 as [|a l Ha _ IH]; intros m m' Hm; cbn [updateAll]; [by intros [= <-]|].
  destruct (map_has _ _); [|done]. apply IH. by apply valued_set.
Qed.
Lemma hideAll_valued (P : A -> Prop) e l : forall m m', valued P m -> hideAll e l m = Ok m' -> valued P m'.
Proof.
  induction l as [|k l IH]; intros m m' Hm; cbn [hideAll]; [by intros [= <-]|].
  destruct (map_has _ _); [|done]. apply IH. by apply map_delete_Forall.
Qed.
Lemma map_has_elem k (m : list (string * A)) : map_has k m = true -> k ∈ map fst m.
Proof. unfold map_has. destruct (assoc k m) as [a|] eqn:E; [|done]. intros _. apply assoc_elem in E. by apply (list_elem_of_fmap_2 fst) in E. Qed.
Lemma keyed_values m : keyed m -> map key (map snd m) = map fst m.
Proof.
  intros [_ Hk]. rewrite map_map. induction Hk as [|x m Hx _ IH]; [done|]. cbn. by rewrite IH, Hx.
Qed.
End Keyed.
#[global] Arguments pick : simpl never.

Lemma moveAll_spec l : NoDup (map pu_nodeId l) -> forall m m', keyed nd_nodeId m -> moveAll l m = Ok m' ->
  keyed nd_nodeId m' /\ forall k, assoc k m' = match pick pu_nodeId k l with
                                               | Some u => moveNode u <$> assoc k m
                                               | None => assoc k m
                                               end.
Proof.
  induction l as [|u l IH]; intros Hnd m m' Hm; simpl; [by intros [= <-]|].
  simpl in Hnd. apply NoDup_cons in Hnd as [Hn Hnd].
  destruct (assoc (pu_nodeId u) m) as [n|] eqn:Ha; [|done]. intros H.
  assert (nd_nodeId n = pu_nodeId u) as Hid.
  { apply assoc_elem in Ha. destruct Hm as [_ Hk]. rewrite Forall_forall in Hk. by apply (Hk _) in Ha. }
  assert (keyed nd_nodeId (map_set (pu_nodeId u) (moveNode u n) m)) as Hm'.
  { rewrite <- Hid. change (nd_nodeId n) with (nd_nodeId (moveNode u n)). by apply keyed_set. }
  destruct (IH Hnd _ _ Hm' H) as [Hk Hl]. split; [exact Hk|]. intros k.
  rewrite Hl, pick_cons, assoc_map_set. destruct (decide (pu_nodeId u = k)) as [<-|Hne].
  - rewrite decide_True by done. rewrite pick_None by done. by rewrite Ha.
  - by rewrite decide_False by congruence.
Qed.
#[global] Arguments mapOf : simpl never.
#[global] Arguments distinct : simpl never.

Lemma distinct_NoDup l : distinct l = true -> NoDup l.
Proof.
  unfold distinct. rewrite Nat.eqb_eq. intros Hl.
  assert (unique l ⊆+ l) as Hs by (apply NoDup_submseteq; [apply unique_NoDup|intros x; apply unique_elem]).
  rewrite <- (submseteq_length_Permutation _ _ Hs) by lia. apply unique_NoDup.
Qed.

(** ** What a patch does *)

Section Patch.
Context `{Schemas}.

Definition nodeOf (id : string) (s : ConceptMapSnapshot) : option ConceptNode := assoc id (mapOf nd_nodeId (cs_nodes s)).
Definition edgeOf (id : string) (s : ConceptMapSnapshot) : option ConceptEdge := assoc id (mapOf eg_edgeId (cs_edges s)).
(** The value of a key after additions, updates and removals. *)
Definition mutated {A} (key : A -> string) (added updated : list A) (hidden : list string) (id : string)
    (old : option A) : option A :=
  if decide (id ∈ hidden) then None
  else match pick key id updated with
       | Some a => Some a
       | None => match pick key id added with Some a => Some a | None => old end
       end.
Definition moved (l : list PositionUpdate) (id : string) (n : option ConceptNode) : option ConceptNode :=
  match pick pu_nodeId id l with Some u => moveNode u <$> n | None => n end.

Lemma mutations_spec {A} (key : A -> string) e1 e2 e3 added updated hidden l m' :
  NoDup (map key updated) ->
  (m ← addAll key e1 added (mapOf key l); m ← updateAll key e2 updated m; hideAll e3 hidden m) = Ok m' ->
  keyed key m' /\ forall id, assoc id m' = mutated key added updated hidden id (assoc id (mapOf key l)).
Proof.
  intros Hnd Hm. destruct (addAll key e1 added (mapOf key l)) as [m1|] eqn:H1; [|done].
  destruct (addAll_spec key _ _ _ _ (keyed_mapOf key l) H1) as [K1 L1]. simpl in Hm.
  destruct (updateAll key e2 updated m1) as [m2|] eqn:H2; [|done].
  destruct (updateAll_spec key _ _ Hnd _ _ K1 H2) as [K2 L2]. simpl in Hm.
  destruct (hideAll_spec key _ _ _ _ K2 Hm) as [K3 L3]. split; [done|].
  intros id. rewrite L3, L2, L1. done.
Qed.

(** What a successful patch has produced. *)
Lemma applyConceptPatch_inv s p s' :
  applyConceptPatch s p = Ok s' ->
  patchMismatch s p = None /\ exists nodes edges nodes',
    patchedNodes s p = Ok nodes /\ patchedEdges s p = Ok edges
    /\ moveAll (pt_positionUpdates p) nodes = Ok nodes'
    /\ s' = patchResult s p (map snd nodes') (map snd edges) /\ parseEchoSnapshot s' = true.
Proof.
  unfold applyConceptPatch. destruct (patchMismatch s p); [done|]. intros Ha. split; [done|].
  destruct (patchedNodes s p) as [nodes|] eqn:Hn; [|done]. simpl in Ha.
  destruct (patchedEdges s p) as [edges|] eqn:He; [|done]. simpl in Ha.
  destruct (moveAll (pt_positionUpdates p) nodes) as [nodes'|] eqn:Hm; [|done]. simpl in Ha.
  destruct (existsb _ _); [done|]. destruct (parseEchoSnapshot _) eqn:Hp; [|done]. injection Ha as <-.
  exists nodes, edges, nodes'. done.
Qed.

(** The fields that carry the identity of a map. *)
Definition baseline (s : ConceptMapSnapshot) : string * ProjectionKey * string * string * string :=
  (cs_roomId s, cs_projectionKey s, cs_analysisEpoch s, cs_algorithmVersion s, cs_parameterHash s).
Definition current (s : ConceptMapSnapshot) : Prop :=
  cs_requiresReplay s = false /\ cs_evidenceStatus s = ev_active.

Lemma patchMismatch_None s p :
  patchMismatch s p = None <->
  current s /\ pt_requiresReplay p = false /\ pt_analysisEpoch p = cs_analysisEpoch s
  /\ pt_algorithmVersion p = cs_algorithmVersion s /\ pt_parameterHash p = cs_parameterHash s
  /\ pt_baseVersion p = cs_projectionVersion s /\ pt_projectionVersion p = cs_projectionVersion s + 1
  /\ cs_completeThroughRoomSeq s <= pt_completeThroughRoomSeq p.
Proof.
  unfold patchMismatch, current. split.
  - intros Hm. destruct (_ || pt_requiresReplay p) eqn:H1; [done|].
    destruct (negb (bool_decide (pt_analysisEpoch p = _))) eqn:H2; [done|].
    destruct (_ || negb (bool_decide (pt_parameterHash p = _))) eqn:H3; [done|].
    destruct (_ || negb (pt_projectionVersion p =? _)) eqn:H4; [done|].
    destruct (_ <? _) eqn:H5; [done|]. split_bools. apply Z.ltb_ge in H5.
    split_and!; try done; by apply Z.eqb_eq.
  - intros ((-> & ->) & -> & -> & -> & -> & -> & -> & Hc). simpl.
    rewrite !bool_decide_eq_true_2, !Z.eqb_refl by done. simpl.
    by rewrite (proj2 (Z.ltb_ge _ _) Hc).
Qed.

Lemma edgesOk_ends student ids seen edges :
  edgesOk student ids seen edges = true -> Forall (fun e => eg_head e ∈ ids /\ eg_tail e ∈ ids) edges.
Proof.
  revert seen. induction edges as [|e edges IH]; intros seen; [constructor|]. simpl. intros He.
  apply andb_true_iff in He as [He Hr]. apply negb_true_iff in He. split_bools. constructor; [done|by eapply IH].
Qed.
Lemma parse_ends s : parseEchoSnapshot s = true ->
  Forall (fun e => eg_head e ∈ map nd_nodeId (cs_nodes s) /\ eg_tail e ∈ map nd_nodeId (cs_nodes s)) (cs_edges s).
Proof.
  unfold parseEchoSnapshot, checkSnapshot, assertEchoSnapshotSemantics. intros Hp. split_bools.
  by eapply edgesOk_ends.
Qed.

(** A patch that is applied does to the concept map what it says, and nothing else:
    a hidden node is gone, an updated or an added one is as the patch has it, any other
    is as it was, and a node with a new position is there; so are the edges; every edge
    has its two ends; the version goes up by one, the room cursor does not go back, the
    room, the surface, the epoch and the algorithm stay; and the result satisfies the
    contract of snapshots. *)
Theorem concept_patch_applied s p s' :
  assertEchoPatchSemantics p = true -> applyConceptPatch s p = Ok s' ->
  (forall id, nodeOf id s' = moved (pt_positionUpdates p) id
     (mutated nd_nodeId (pt_nodesAdded p) (pt_nodesUpdated p) (pt_nodesHidden p) id (nodeOf id s)))
  /\ (forall id, edgeOf id s' =
       mutated eg_edgeId (pt_edgesAdded p) (pt_edgesUpdated p) (pt_edgesHidden p) id (edgeOf id s))
  /\ Forall (fun e => eg_head e ∈ map nd_nodeId (cs_nodes s') /\ eg_tail e ∈ map nd_nodeId (cs_nodes s')) (cs_edges s')
  /\ cs_projectionVersion s' = cs_projectionVersion s + 1
  /\ cs_completeThroughRoomSeq s <= cs_completeThroughRoomSeq s'
  /\ baseline s' = baseline s /\ current s' /\ parseEchoSnapshot s' = true.
Proof.
  intros Hp Ha. destruct (applyConceptPatch_inv s p s' Ha) as (Hm & nodes & edges & nodes' & Hn & He & Hmv & -> & Hv).
  apply patchMismatch_None in Hm as (_ & _ & Hep & Hal & Hpa & _ & Hver & Hcur).
  unfold assertEchoPatchSemantics in Hp. split_bools.
  repeat match goal with D : distinct _ = true |- _ => apply distinct_NoDup in D end.
  match goal with D : NoDup (nodeMutations p) |- _ => apply NoDup_app in D as (_ & _ & D); apply NoDup_app in D as (D & _ & _) end.
  match goal with D : NoDup (edgeMutations p) |- _ => apply NoDup_app in D as (_ & _ & D); apply NoDup_app in D as (D & _ & _) end.
  destruct (mutations_spec nd_nodeId _ _ _ _ _ _ _ _ ltac:(eassumption) Hn) as [Kn Ln].
  destruct (mutations_spec eg_edgeId _ _ _ _ _ _ _ _ ltac:(eassumption) He) as [Ke Le].
  destruct (moveAll_spec _ ltac:(eassumption) _ _ Kn Hmv) as [Kn' Ln'].
  split_and!.
  - intros id. unfold nodeOf at 1. simpl. rewrite (mapOf_values nd_nodeId _ Kn'), Ln', Ln. done.
  - intros id. unfold edgeOf at 1. simpl. by rewrite (mapOf_values eg_edgeId _ Ke), Le.
  - by apply parse_ends.
  - exact Hver.
  - exact Hcur.
  - unfold baseline. simpl. congruence.
  - done.
  - done.
Qed.

(** *** Which patches can be applied *)

(** The node and the edge of an identifier once the additions, updates and removals of a
    patch are made. *)
Definition nodeAfter (p : ConceptMapPatch) (id : string) (s : ConceptMapSnapshot) : option ConceptNode :=
  mutated nd_nodeId (pt_nodesAdded p) (pt_nodesUpdated p) (pt_nodesHidden p) id (nodeOf id s).
Definition edgeAfter (p : ConceptMapPatch) (id : string) (s : ConceptMapSnapshot) : option ConceptEdge :=
  mutated eg_edgeId (pt_edgesAdded p) (pt_edgesUpdated p) (pt_edgesHidden p) id (edgeOf id s).
(** A patch fits a map: neither of them needs a replay; what it adds is new; what it updates,
    hides and moves is there; no edge is left without an end; and every warning says
    something. *)
Record patch_fits (s : ConceptMapSnapshot) (p : ConceptMapPatch) : Prop := {
  ft_current : current s /\ pt_requiresReplay p = false;
  ft_nodes_new : forall n, n ∈ pt_nodesAdded p -> nodeOf (nd_nodeId n) s = None;
  ft_nodes_there : forall id, id ∈ map nd_nodeId (pt_nodesUpdated p) ++ pt_nodesHidden p -> is_Some (nodeOf id s);
  ft_edges_new : forall e, e ∈ pt_edgesAdded p -> edgeOf (eg_edgeId e) s = None;
  ft_edges_there : forall id, id ∈ map eg_edgeId (pt_edgesUpdated p) ++ pt_edgesHidden p -> is_Some (edgeOf id s);
  ft_targets : forall u, u ∈ pt_positionUpdates p -> is_Some (nodeAfter p (pu_nodeId u) s);
  ft_ends : forall id e, edgeAfter p id s = Some e -> is_Some (nodeAfter p (eg_head e) s) /\ is_Some (nodeAfter p (eg_tail e) s);
  ft_warnings : forall w, w ∈ pt_warnings p -> 1 <= codePoints w;
}.
(** The map a patch leads to: every node, every edge and every other field of it. *)
Record patched (s : ConceptMapSnapshot) (p : ConceptMapPatch) (s' : ConceptMapSnapshot) : Prop := {
  pd_nodes : forall id, nodeOf id s' = moved (pt_positionUpdates p) id (nodeAfter p id s);
  pd_edges : forall id, edgeOf id s' = edgeAfter p id s;
  pd_version : cs_projectionVersion s' = cs_projectionVersion s + 1;
  pd_of_patch : cs_projectionVersion s' = pt_projectionVersion p;
  pd_base : cs_baseVersion s' = cs_projectionVersion s;
  pd_through : cs_completeThroughRoomSeq s' = pt_completeThroughRoomSeq p;
  pd_same : baseline s' = baseline s;
  pd_current : current s';
  pd_watermark : cs_watermarkEventTime s' = cs_watermarkEventTime s;
  pd_display : cs_displayStatus s' = cs_displayStatus s;
  pd_review : cs_reviewStatus s' =
    (if decide (cs_projectionKey s = echo_student_approved)
     then if decide (cs_nodes s' = [] /\ cs_edges s' = []) then unreviewed else approved
     else cs_reviewStatus s);
  pd_warnings : cs_warnings s' = pt_warnings p;
  pd_valid : parseEchoSnapshot s' = true;
}.

(** The three loops get through exactly if additions are new and the others there. *)
Lemma mutations_run {A} (key : A -> string) e1 e2 e3 added updated hidden l :
  NoDup (map key added ++ map key updated ++ hidden) ->
  (exists m', (m ← addAll key e1 added (mapOf key l); m ← updateAll key e2 updated m; hideAll e3 hidden m) = Ok m')
  <-> (forall a, a ∈ added -> assoc (key a) (mapOf key l) = None)
      /\ (forall id, id ∈ map key updated ++ hidden -> is_Some (assoc id (mapOf key l))).
Proof.
  intros (Hna & Hd1 & (Hnu & Hd2 & Hnh)%NoDup_app)%NoDup_app.
  assert (forall id m1, id ∈ map key updated ++ hidden -> addAll key e1 added (mapOf key l) = Ok m1 ->
    assoc id m1 = assoc id (mapOf key l)) as Hold.
  { intros id m1 Hid H1. destruct (addAll_spec key _ _ _ _ (keyed_mapOf key l) H1) as [_ ->]. rewrite pick_None; [done|].
    intros Hin. by apply (Hd1 _ Hin). }
  assert (forall id m1 m2, id ∈ hidden -> addAll key e1 added (mapOf key l) = Ok m1 -> updateAll key e2 updated m1 = Ok m2 ->
    assoc id m2 = assoc id (mapOf key l)) as Hold2.
  { intros id m1 m2 Hid H1 H2. destruct (addAll_spec key _ _ _ _ (keyed_mapOf key l) H1) as [K1 _].
    destruct (updateAll_spec key _ _ Hnu _ _ K1 H2) as [_ ->]. rewrite pick_None; [|intros Hin; by apply (Hd2 _ Hin)].
    apply (Hold _ m1); [|done]. apply elem_of_app. by right. }
  split.
  - intros [m' Hm]. destruct (addAll key e1 added (mapOf key l)) as [m1|] eqn:H1; [|done]. cbn in Hm.
    destruct (updateAll key e2 updated m1) as [m2|] eqn:H2; [|done]. cbn in Hm.
    split; [by apply (addAll_ok key e1 _ Hna); eexists|]. intros id [Hid|Hid]%elem_of_app.
    + apply list_elem_of_fmap in Hid as (a & -> & Ha). rewrite <- (Hold _ m1); [|apply elem_of_app; left; by apply list_elem_of_fmap_2|done].
      apply (proj1 (updateAll_ok key e2 updated m1)); [by eexists|done].
    + rewrite <- (Hold2 _ m1 m2) by done. apply (proj1 (hideAll_ok e3 hidden Hnh m2)); [by eexists|done].
  - intros [Hnew Hthere]. apply (addAll_ok key e1 _ Hna) in Hnew as [m1 H1]. rewrite H1. cbn.
    assert (exists m2, updateAll key e2 updated m1 = Ok m2) as [m2 H2].
    { apply updateAll_ok. intros a Ha. assert (key a ∈ map key updated ++ hidden) as Hin by (apply elem_of_app; left; by apply list_elem_of_fmap_2).
      rewrite (Hold _ m1) by done. by apply Hthere. }
    rewrite H2. cbn. apply (hideAll_ok e3 hidden Hnh). intros id Hid. rewrite (Hold2 _ m1 m2) by done. apply Hthere, elem_of_app. by right.
Qed.
Lemma moveAll_ok l : forall m, (exists m', moveAll l m = Ok m') <-> forall u, u ∈ l -> is_Some (assoc (pu_nodeId u) m).
Proof.
  induction l as [|u l IH]; intros m; cbn [moveAll].
  { split; [by intros _ a ?%elem_of_nil|by eexists]. }
  destruct (assoc (pu_nodeId u) m) as [n|] eqn:Ha.
  - rewrite IH. split.
    + intros Hall v [->|Hv]%elem_of_cons; [by rewrite Ha|]. specialize (Hall v Hv). rewrite assoc_map_set in Hall.
      case_decide as He; [by rewrite He, Ha|done].
    + intros Hall v Hv. rewrite assoc_map_set. case_decide; [by eexists|]. apply Hall. by right.
  - split; [by intros []|]. intros Hall. destruct (Hall u) as [n Hn]; [left|]. congruence.
Qed.
Lemma moveAll_valued (P : ConceptNode -> Prop) l : Forall (fun u => forall n, P n -> P (moveNode u n)) l ->
  forall m m', valued P m -> moveAll l m = Ok m' -> valued P m'.
Proof.
  induction 1 as [|u l Hu _ IH]; intros m m' Hm; cbn [moveAll]; [by intros [= <-]|].
  destruct (assoc _ _) as [n|] eqn:Ha; [|done]. apply IH. apply valued_set; [|done]. apply Hu. apply assoc_elem in Ha.
  unfold valued in Hm. rewrite Forall_forall in Hm. exact (Hm _ Ha).
Qed.

(** The contract that a snapshot and a patch of one surface have met. *)
Definition nodeOk (k : ProjectionKey) (n : ConceptNode) : Prop := nodeSchema (isTeacherKey k) n = true.
Definition edgeOk (k : ProjectionKey) (e : ConceptEdge) : Prop := edgeSchema (isTeacherKey k) e = true /\ spansOk (refsOf e) = true.
Definition acceptedFor (k : ProjectionKey) (p : ConceptMapPatch) : Prop :=
  patchSchema (isTeacherKey k) p = true /\ patchSpans p = true /\ assertEchoPatchSemantics p = true.
Lemma forallb_Forall {A} (f : A -> bool) l : forallb f l = true <-> Forall (fun x => f x = true) l.
Proof. rewrite forallb_forall, Forall_forall. by setoid_rewrite list_elem_of_In. Qed.
Lemma nodesOk_complete student nodes : forall seen, NoDup (map nd_nodeId nodes) -> (forall n, n ∈ nodes -> nd_nodeId n ∉ seen) ->
  (student = true -> Forall (fun n => nd_reviewStatus n = approved) nodes) -> nodesOk student seen nodes = true.
Proof.
  induction nodes as [|n nodes IH]; intros seen Hnd Hs Hr; [done|]. cbn [map] in Hnd. apply NoDup_cons in Hnd as [Hn Hnd]. cbn [nodesOk].
  rewrite bool_decide_false by (apply Hs; left). apply andb_true_iff. split.
  - destruct student; [|done]. specialize (Hr eq_refl). apply Forall_cons in Hr as [Hr _]. by rewrite bool_decide_true.
  - apply IH; [done| |intros Ht; specialize (Hr Ht); by apply Forall_cons in Hr as [_ Hr]].
    intros m Hm [He|Hin]%elem_of_cons; [|by apply (Hs m); [right|]]. apply Hn. rewrite <- He. by apply list_elem_of_fmap_2.
Qed.
Lemma edgesOk_complete student ids edges : forall seen, NoDup (map eg_edgeId edges) -> (forall e, e ∈ edges -> eg_edgeId e ∉ seen) ->
  Forall (fun e => eg_head e ∈ ids /\ eg_tail e ∈ ids) edges ->
  (student = true -> Forall (fun e => eg_reviewStatus e = approved) edges) -> edgesOk student ids seen edges = true.
Proof.
  induction edges as [|e edges IH]; intros seen Hnd Hs He Hr; [done|]. cbn [map] in Hnd. apply NoDup_cons in Hnd as [Hn Hnd].
  apply Forall_cons in He as [[Hh Ht] He]. cbn [edgesOk].
  rewrite (bool_decide_false (eg_edgeId e ∈ seen)) by (apply Hs; left). rewrite !(bool_decide_true (_ ∈ ids)) by done. apply andb_true_iff. split.
  - destruct student; [|done]. specialize (Hr eq_refl). apply Forall_cons in Hr as [Hr _]. by rewrite bool_decide_true.
  - apply IH; [done| |done|intros Hst; specialize (Hr Hst); by apply Forall_cons in Hr as [_ Hr]].
    intros m Hm [Heq|Hin]%elem_of_cons; [|by apply (Hs m); [right|]]. apply Hn. rewrite <- Heq. by apply list_elem_of_fmap_2.
Qed.

(** What a patch of the contract brings is as the surface wants it. *)
Lemma accepted_content k p : acceptedFor k p ->
  Forall (nodeOk k) (pt_nodesAdded p) /\ Forall (nodeOk k) (pt_nodesUpdated p)
  /\ Forall (edgeOk k) (pt_edgesAdded p) /\ Forall (edgeOk k) (pt_edgesUpdated p)
  /\ Forall (fun u => forall n, nodeOk k n -> nodeOk k (moveNode u n)) (pt_positionUpdates p).
Proof.
  intros (Hs & Hsp & _). unfold patchSchema in Hs. split_bools. unfold patchSpans, assertEchoSpans in Hsp. split_bools.
  repeat match goal with Hx : forallb _ _ = true |- _ => apply forallb_Forall in Hx end.
  repeat match goal with Hx : Forall _ (_ ++ _) |- _ => apply Forall_app in Hx as [? ?] end.
  split_and!; try done; try (by apply Forall_and).
  match goal with Hx : Forall (fun u => (_ && _) = true) (pt_positionUpdates p) |- _ => eapply Forall_impl; [exact Hx|] end.
  intros u Hu n Hn. cbv beta in Hu. split_bools. unfold nodeOk, nodeSchema, positionSchema in *. cbn. split_bools.
  repeat match goal with Hx : _ = true |- _ => rewrite Hx; clear Hx end. done.
Qed.
Lemma valid_content s : parseEchoSnapshot s = true ->
  Forall (nodeOk (cs_projectionKey s)) (cs_nodes s) /\ Forall (edgeOk (cs_projectionKey s)) (cs_edges s).
Proof.
  unfold parseEchoSnapshot, checkSnapshot, snapshotSchema, snapshotSpans, assertEchoSpans. intros Hp. split_bools.
  repeat match goal with Hx : forallb _ _ = true |- _ => apply forallb_Forall in Hx end. split; [done|]. by apply Forall_and.
Qed.
Lemma student_approved_nodes k nodes : isTeacherKey k = false -> Forall (nodeOk k) nodes -> Forall (fun n => nd_reviewStatus n = approved) nodes.
Proof. intros Hk Hn. eapply Forall_impl; [exact Hn|]. intros n. unfold nodeOk, nodeSchema. rewrite Hk. cbn [orb]. intros Ht. by split_bools. Qed.
Lemma student_approved_edges k edges : isTeacherKey k = false -> Forall (edgeOk k) edges -> Forall (fun e => eg_reviewStatus e = approved) edges.
Proof.
  intros Hk He. eapply Forall_impl; [exact He|]. intros e [Ht _]. unfold edgeSchema in Ht. rewrite Hk in Ht. split_bools.
  destruct (eg_evidence e); cbn [negb andb] in *; by split_bools.
Qed.
(** The result of a patch with no dangling edge and no empty warning keeps the contract. *)
Lemma patchResult_valid s p nodes edges : parseEchoSnapshot s = true -> acceptedFor (cs_projectionKey s) p ->
  keyed nd_nodeId nodes -> keyed eg_edgeId edges -> valued (nodeOk (cs_projectionKey s)) nodes -> valued (edgeOk (cs_projectionKey s)) edges ->
  existsb (fun x => dangling nodes (snd x)) edges = false -> (forall w, w ∈ pt_warnings p -> 1 <= codePoints w) ->
  parseEchoSnapshot (patchResult s p (map snd nodes) (map snd edges)) = true.
Proof.
  intros Hs Hp Kn Ke Vn Ve Hd Hw. set (k := cs_projectionKey s) in *.
  assert (Forall (nodeOk k) (map snd nodes)) as Fn by by apply Forall_map.
  assert (Forall (edgeOk k) (map snd edges)) as Fe by by apply Forall_map.
  assert (NoDup (map nd_nodeId (map snd nodes))) as Nn by (rewrite (keyed_values _ _ Kn); apply Kn).
  assert (NoDup (map eg_edgeId (map snd edges))) as Ne by (rewrite (keyed_values _ _ Ke); apply Ke).
  assert (Forall (fun e => eg_head e ∈ map nd_nodeId (map snd nodes) /\ eg_tail e ∈ map nd_nodeId (map snd nodes)) (map snd edges)) as Fends.
  { rewrite (keyed_values _ _ Kn). apply Forall_map, Forall_forall. intros x Hx.
    assert (dangling nodes (snd x) = false) as Hdx.
    { destruct (dangling nodes (snd x)) eqn:E; [|done]. rewrite <- Hd. symmetry. apply existsb_exists. exists x. by rewrite <- list_elem_of_In. }
    unfold dangling in Hdx. split_bools. split; by apply map_has_elem. }
  destruct Hp as (Hps & _ & Hsem). unfold patchSchema in Hps. unfold assertEchoPatchSemantics in Hsem. split_bools.
  assert (k = echo_teacher_shadow \/ k = echo_student_approved) as Hk.
  { unfold parseEchoSnapshot, checkSnapshot in Hs. split_bools. set_solver. }
  assert (forall student, (student = true -> isTeacherKey k = false) -> nodesOk student [] (map snd nodes) = true
    /\ edgesOk student (map nd_nodeId (map snd nodes)) [] (map snd edges) = true) as Hloops.
  { intros student Hst. split.
    - apply nodesOk_complete; [done|intros n _; apply not_elem_of_nil|]. intros Ht. apply (student_approved_nodes k); auto.
    - apply edgesOk_complete; [done|intros n _; apply not_elem_of_nil|done|]. intros Ht. apply (student_approved_edges k); auto. }
  assert (forallb (textBetween 1 160) (pt_warnings p) = true) as Hwarn.
  { match goal with Hx : forallb (textBetween 0 160) (pt_warnings p) = true |- _ => apply forallb_Forall in Hx; rename Hx into Hlong end.
    apply forallb_Forall, Forall_forall. intros w Hin. rewrite Forall_forall in Hlong. specialize (Hlong w Hin). specialize (Hw w Hin).
    unfold textBetween in *. apply andb_true_iff in Hlong as [_ Hl]. apply andb_true_iff. split; [by apply Z.leb_le|done]. }
  apply Forall_and in Fe as [Fe Fsp]. unfold nodeOk, edgeOk in *.
  apply forallb_Forall in Fn. apply forallb_Forall in Fe. apply forallb_Forall in Fsp.
  destruct (Hloops (bool_decide (k = echo_student_approved))) as [L1 L2]; [by intros ->%bool_decide_eq_true|].
  unfold parseEchoSnapshot, checkSnapshot, snapshotSchema, snapshotSpans, assertEchoSpans, assertEchoSnapshotSemantics in *.
  cbn [patchResult cs_projectionKey cs_roomId cs_analysisEpoch cs_algorithmVersion cs_parameterHash cs_projectionVersion cs_baseVersion
    cs_completeThroughRoomSeq cs_watermarkEventTime cs_requiresReplay cs_evidenceStatus cs_reviewStatus cs_displayStatus cs_warnings cs_nodes cs_edges].
  subst k. cbv beta zeta. split_bools.
  repeat match goal with Hx : ?b = true |- context [?b] => rewrite Hx end.
  assert ((pt_baseVersion p =? pt_projectionVersion p - 1) = true) as -> by (apply Z.eqb_eq; match goal with Hx : (_ =? pt_baseVersion p + 1) = true |- _ => apply Z.eqb_eq in Hx end; lia).
  destruct Hk as [Hk|Hk]; rewrite Hk in *.
  { change (isTeacherKey echo_teacher_shadow) with true in *. cbv iota in *. split_bools. rewrite !(bool_decide_true (cs_displayStatus s = teacher_shadow)) by done. done. }
  change (isTeacherKey echo_student_approved) with false in *. cbv iota in *. split_bools.
  rewrite (decide_True (P := echo_student_approved = echo_student_approved)) by done.
  rewrite !(bool_decide_true (cs_displayStatus s = student_approved)) by done.
  destruct (map snd nodes) as [|n1 l1], (map snd edges) as [|e1 l2]; done.
Qed.

(** The patch is the next one of the snapshot. *)
Record next_of (s : ConceptMapSnapshot) (p : ConceptMapPatch) : Prop := {
  nx_base : pt_baseVersion p = cs_projectionVersion s;
  nx_epoch : pt_analysisEpoch p = cs_analysisEpoch s;
  nx_algorithm : pt_algorithmVersion p = cs_algorithmVersion s;
  nx_parameters : pt_parameterHash p = cs_parameterHash s;
  nx_cursor : cs_completeThroughRoomSeq s <= pt_completeThroughRoomSeq p;
}.
Lemma next_matches s p :
  current s -> next_of s p -> pt_requiresReplay p = false -> pt_projectionVersion p = pt_baseVersion p + 1 ->
  patchMismatch s p = None.
Proof. intros Hc [] Hr Hv. apply patchMismatch_None. split_and!; try done. lia. Qed.
Lemma patched_values s p nodes edges nodes' : parseEchoSnapshot s = true -> acceptedFor (cs_projectionKey s) p ->
  patchedNodes s p = Ok nodes -> patchedEdges s p = Ok edges -> moveAll (pt_positionUpdates p) nodes = Ok nodes' ->
  valued (nodeOk (cs_projectionKey s)) nodes' /\ valued (edgeOk (cs_projectionKey s)) edges.
Proof.
  intros Hs Hp. destruct (valid_content s Hs) as [Fn Fe]. destruct (accepted_content _ p Hp) as (Na & Nu & Ea & Eu & Mv).
  unfold patchedNodes, patchedEdges. intros H1 H2 H3. split.
  - eapply moveAll_valued; [exact Mv| |exact H3]. clear H2 H3.
    destruct (addAll _ _ _ _) as [m1|] eqn:A1 in H1; [|done]. cbn in H1. destruct (updateAll _ _ _ _) as [m2|] eqn:A2 in H1; [|done]. cbn in H1.
    eapply hideAll_valued; [|exact H1]. eapply updateAll_valued; [exact Nu| |exact A2]. eapply addAll_valued; [exact Na| |exact A1]. by apply valued_mapOf.
  - clear H1 H3.
    destruct (addAll _ _ _ _) as [m1|] eqn:A1 in H2; [|done]. cbn in H2. destruct (updateAll _ _ _ _) as [m2|] eqn:A2 in H2; [|done]. cbn in H2.
    eapply hideAll_valued; [|exact H2]. eapply updateAll_valued; [exact Eu| |exact A2]. eapply addAll_valued; [exact Ea| |exact A1]. by apply valued_mapOf.
Qed.
Lemma accepted_distinct p : assertEchoPatchSemantics p = true ->
  NoDup (nodeMutations p) /\ NoDup (edgeMutations p) /\ NoDup (map pu_nodeId (pt_positionUpdates p))
  /\ pt_projectionVersion p = pt_baseVersion p + 1.
Proof. unfold assertEchoPatchSemantics. intros Hp. split_bools. split_and!; try (by apply distinct_NoDup). by apply Z.eqb_eq. Qed.
Lemma patchedNodes_spec s p m : assertEchoPatchSemantics p = true -> patchedNodes s p = Ok m ->
  keyed nd_nodeId m /\ forall id, assoc id m = nodeAfter p id s.
Proof. intros (Hd & _)%accepted_distinct. apply mutations_spec. by apply NoDup_app in Hd as (_ & _ & (Hd & _)%NoDup_app). Qed.
Lemma patchedEdges_spec s p m : assertEchoPatchSemantics p = true -> patchedEdges s p = Ok m ->
  keyed eg_edgeId m /\ forall id, assoc id m = edgeAfter p id s.
Proof. intros (_ & Hd & _)%accepted_distinct. apply mutations_spec. by apply NoDup_app in Hd as (_ & _ & (Hd & _)%NoDup_app). Qed.
Lemma moved_there l id n : is_Some (moved l id n) <-> is_Some n.
Proof. unfold moved. destruct (pick pu_nodeId id l); [|done]. apply fmap_is_Some. Qed.
Lemma moveAll_there l m m' id : NoDup (map pu_nodeId l) -> keyed nd_nodeId m -> moveAll l m = Ok m' ->
  map_has id m' = true <-> is_Some (assoc id m).
Proof.
  intros Hl Hm H'. destruct (moveAll_spec l Hl m m' Hm H') as [_ Ha]. rewrite map_has_Some, Ha. apply (moved_there l id).
Qed.
(** No edge is left without an end exactly if every edge of the map has its two. *)
Lemma none_dangling (nodes : list (string * ConceptNode)) edges : NoDup (map fst edges) ->
  existsb (fun x => dangling nodes (snd x)) edges = false
  <-> forall id e, assoc id edges = Some e -> map_has (eg_head e) nodes = true /\ map_has (eg_tail e) nodes = true.
Proof.
  intros Hnd. split.
  - intros Hx id e He. apply assoc_elem in He. assert (dangling nodes e = false) as Hd.
    { destruct (dangling nodes e) eqn:E; [|done]. rewrite <- Hx. symmetry. apply existsb_exists. exists (id, e). by rewrite <- list_elem_of_In. }
    unfold dangling in Hd. by split_bools.
  - intros Hall. destruct (existsb _ _) eqn:E; [|done]. apply existsb_exists in E as ([id e] & Hin & Hd).
    apply list_elem_of_In in Hin. apply (assoc_NoDup _ _ _ Hnd) in Hin. destruct (Hall id e Hin) as [H1 H2].
    unfold dangling in Hd. cbn [snd] in Hd. by rewrite H1, H2 in Hd.
Qed.
(** A patch that is applied fits. *)
Lemma applied_fits s p s' : assertEchoPatchSemantics p = true -> applyConceptPatch s p = Ok s' -> patch_fits s p.
Proof.
  intros Hsem Ha. destruct (accepted_distinct p Hsem) as (Dn & De & Du & Hv).
  destruct (applyConceptPatch_inv s p s' Ha) as (Hm & nodes & edges & nodes' & H1 & H2 & H3 & -> & Hvalid).
  destruct (patchedNodes_spec s p nodes Hsem H1) as [Kn An]. destruct (patchedEdges_spec s p edges Hsem H2) as [Ke Ae].
  pose proof Hm as (Hcur & Hrep & _)%patchMismatch_None.
  destruct (proj1 (mutations_run nd_nodeId _ _ _ _ _ _ _ Dn) (ex_intro _ nodes H1)) as [N1 N2].
  destruct (proj1 (mutations_run eg_edgeId _ _ _ _ _ _ _ De) (ex_intro _ edges H2)) as [E1 E2].
  constructor; try done.
  - intros u Hu. rewrite <- An. by apply (proj1 (moveAll_ok _ nodes) (ex_intro _ nodes' H3)).
  - intros id e He. rewrite <- Ae in He.
    assert (existsb (fun x => dangling nodes' (snd x)) edges = false) as Hd.
    { unfold applyConceptPatch in Ha. rewrite Hm, H1, H2 in Ha. cbn in Ha. rewrite H3 in Ha. cbn in Ha. by destruct (existsb _ edges). }
    rewrite (none_dangling nodes' edges (ky_nodup _ _ Ke)) in Hd. destruct (Hd id e He) as [Hh Ht].
    rewrite <- !An. split; by apply (moveAll_there _ _ _ _ Du Kn H3).
  - intros w Hw. unfold parseEchoSnapshot, checkSnapshot, snapshotSchema in Hvalid. split_bools.
    match goal with Hx : forallb (textBetween 1 160) _ = true |- _ => apply forallb_Forall in Hx; rewrite Forall_forall in Hx; specialize (Hx w Hw); unfold textBetween in Hx end.
    split_bools. by apply Z.leb_le.
Qed.
(** A patch of the contract that is the next one of a map of the contract is applied if it
    fits. *)
Lemma fits_applied s p : parseEchoSnapshot s = true -> acceptedFor (cs_projectionKey s) p -> next_of s p -> patch_fits s p ->
  exists s', applyConceptPatch s p = Ok s'.
Proof.
  intros Hs Hp Hn [[Hcur Hrep] N1 N2 E1 E2 Ht He Hw]. pose proof Hp as (_ & _ & Hsem).
  destruct (accepted_distinct p Hsem) as (Dn & De & Du & Hv).
  destruct (proj2 (mutations_run nd_nodeId "CONCEPT_PATCH_NODE_ADD_CONFLICT" "CONCEPT_PATCH_NODE_UPDATE_MISSING" "CONCEPT_PATCH_NODE_HIDE_MISSING" _ _ _ (cs_nodes s) Dn) (conj N1 N2)) as [nodes H1].
  destruct (proj2 (mutations_run eg_edgeId "CONCEPT_PATCH_EDGE_ADD_CONFLICT" "CONCEPT_PATCH_EDGE_UPDATE_MISSING" "CONCEPT_PATCH_EDGE_HIDE_MISSING" _ _ _ (cs_edges s) De) (conj E1 E2)) as [edges H2].
  fold (patchedNodes s p) in H1. fold (patchedEdges s p) in H2.
  destruct (patchedNodes_spec s p nodes Hsem H1) as [Kn An]. destruct (patchedEdges_spec s p edges Hsem H2) as [Ke Ae].
  destruct (proj2 (moveAll_ok (pt_positionUpdates p) nodes)) as [nodes' H3]; [intros u Hu; rewrite An; by apply Ht|].
  destruct (moveAll_spec _ Du _ _ Kn H3) as [Kn' _].
  assert (existsb (fun x => dangling nodes' (snd x)) edges = false) as Hd.
  { apply (none_dangling nodes' edges (ky_nodup _ _ Ke)). intros id e Hin. rewrite Ae in Hin. destruct (He id e Hin) as [Hh Htl].
    split; apply (moveAll_there _ _ _ _ Du Kn H3); by rewrite An. }
  destruct (patched_values s p nodes edges nodes' Hs Hp H1 H2 H3) as [Vn Ve].
  pose proof (patchResult_valid s p nodes' edges Hs Hp Kn' Ke Vn Ve Hd Hw) as Hvalid.
  exists (patchResult s p (map snd nodes') (map snd edges)). unfold applyConceptPatch.
  rewrite (next_matches s p Hcur Hn Hrep Hv), H1, H2. cbn. rewrite H3. cbn. by rewrite Hd, Hvalid.
Qed.
(** Where it leads. *)
Lemma applied_after s p s' : assertEchoPatchSemantics p = true -> applyConceptPatch s p = Ok s' -> patched s p s'.
Proof.
  intros Hsem Ha. destruct (accepted_distinct p Hsem) as (Dn & De & Du & Hv).
  destruct (applyConceptPatch_inv s p s' Ha) as (Hm & nodes & edges & nodes' & H1 & H2 & H3 & -> & Hvalid).
  destruct (patchedNodes_spec s p nodes Hsem H1) as [Kn An]. destruct (patchedEdges_spec s p edges Hsem H2) as [Ke Ae].
  destruct (moveAll_spec _ Du _ _ Kn H3) as [Kn' An']. apply patchMismatch_None in Hm as (_ & _ & Hep & Hal & Hpa & Hba & Hver & Hcur).
  constructor; try done.
  - intros id. unfold nodeOf at 1. cbn. by rewrite (mapOf_values nd_nodeId _ Kn'), An', An.
  - intros id. unfold edgeOf at 1. cbn. by rewrite (mapOf_values eg_edgeId _ Ke), Ae.
  - unfold baseline. cbn. congruence.
  - cbn. case_decide; [|done]. by destruct (map snd nodes'), (map snd edges).
Qed.

(** ** A timeline *)

(** The failures of a patch that does not belong to the snapshot. *)
Definition MISMATCHES : list string :=
  ["CONCEPT_PATCH_REPLAY_REQUIRED"; "CONCEPT_PATCH_EPOCH_MISMATCH"; "CONCEPT_PATCH_BASELINE_MISMATCH";
   "CONCEPT_PATCH_VERSION_MISMATCH"; "CONCEPT_PATCH_CURSOR_REGRESSION"]%string.

Lemma addAll_err {A} (key : A -> string) c l m e : addAll key c l m = Err e -> e = c.
Proof. revert m. induction l as [|a l IH]; intros m; [done|]. simpl. destruct (map_has _ _); [by intros [= ->]|apply IH]. Qed.
Lemma updateAll_err {A} (key : A -> string) c l m e : updateAll key c l m = Err e -> e = c.
Proof. revert m. induction l as [|a l IH]; intros m; [done|]. simpl. destruct (map_has _ _); [apply IH|by intros [= ->]]. Qed.
Lemma hideAll_err {A} c l (m : list (string * A)) e : hideAll c l m = Err e -> e = c.
Proof. revert m. induction l as [|a l IH]; intros m; [done|]. simpl. destruct (map_has _ _); [apply IH|by intros [= ->]]. Qed.
Lemma moveAll_err l m e : moveAll l m = Err e -> e = "CONCEPT_PATCH_POSITION_TARGET_MISSING"%string.
Proof. revert m. induction l as [|a l IH]; intros m; [done|]. simpl. destruct (assoc _ _); [apply IH|by intros [= ->]]. Qed.
Lemma mutations_err {A} (key : A -> string) e1 e2 e3 added updated hidden m e :
  (m ← addAll key e1 added m; m ← updateAll key e2 updated m; hideAll e3 hidden m) = Err e -> e ∈ [e1; e2; e3].
Proof.
  destruct (addAll key e1 added m) as [m1|e'] eqn:H1; simpl; [|intros [= <-]; apply addAll_err in H1; set_solver].
  destruct (updateAll key e2 updated m1) as [m2|e'] eqn:H2; simpl; [|intros [= <-]; apply updateAll_err in H2; set_solver].
  intros H3. apply hideAll_err in H3. set_solver.
Qed.
(** A patch that belongs to the snapshot fails for its content only. *)
Lemma applyConceptPatch_err s p e :
  patchMismatch s p = None -> applyConceptPatch s p = Err e -> e ∉ MISMATCHES.
Proof.
  unfold applyConceptPatch. intros ->. intros He.
  assert (e ∈ ["CONCEPT_PATCH_NODE_ADD_CONFLICT"; "CONCEPT_PATCH_NODE_UPDATE_MISSING"; "CONCEPT_PATCH_NODE_HIDE_MISSING";
    "CONCEPT_PATCH_EDGE_ADD_CONFLICT"; "CONCEPT_PATCH_EDGE_UPDATE_MISSING"; "CONCEPT_PATCH_EDGE_HIDE_MISSING";
    "CONCEPT_PATCH_POSITION_TARGET_MISSING"; "CONCEPT_PATCH_DANGLING_EDGE"; "CONCEPT_PATCH_RESULT_INVALID"]%string) as Hin.
  { destruct (patchedNodes s p) as [nodes|e1] eqn:Hn; simpl in He;
      [|injection He as <-; apply mutations_err in Hn; set_solver].
    destruct (patchedEdges s p) as [edges|e1] eqn:Hd; simpl in He;
      [|injection He as <-; apply mutations_err in Hd; set_solver].
    destruct (moveAll _ nodes) as [nodes'|e1] eqn:Hm; simpl in He;
      [|injection He as <-; apply moveAll_err in Hm; set_solver].
    destruct (existsb _ _); [injection He as <-; set_solver|].
    destruct (parseEchoSnapshot _); [done|]. injection He as <-. set_solver. }
  clear He. revert Hin. rewrite !elem_of_cons, elem_of_nil.
  intros H'; repeat (destruct H' as [->|H']; [apply (bool_decide_unpack _); vm_compute; done|]); done.
Qed.

Lemma next_follows s p s' q : applyConceptPatch s p = Ok s' -> follows p q = true -> next_of s' q.
Proof.
  intros Ha. destruct (applyConceptPatch_inv s p s' Ha) as (_ & nodes & edges & nodes' & _ & _ & _ & -> & _).
  unfold follows. intros Hf. split_bools. constructor; simpl; [by apply Z.eqb_eq|done|done|done|by apply Z.leb_le].
Qed.
(** The maps a list of patches leads through: each fits the map it meets, and makes of it
    the map it says. *)
Inductive replays : ConceptMapSnapshot -> list ConceptMapPatch -> ConceptMapSnapshot -> Prop :=
| replays_nil s : replays s [] s
| replays_cons s p s1 ps s' : patch_fits s p -> patched s p s1 -> replays s1 ps s' -> replays s (p :: ps) s'.
Lemma replays_ends s ps s' : replays s ps s' ->
  baseline s' = baseline s
  /\ cs_projectionVersion s' = default (cs_projectionVersion s) (pt_projectionVersion <$> last ps)
  /\ cs_projectionVersion s' = cs_projectionVersion s + Z.of_nat (length ps).
Proof.
  induction 1 as [s|s p s1 ps s' _ Ha _ (Hb & Hl & Hn)]; [cbn; split_and!; try done; lia|].
  rewrite Hb, (pd_same _ _ _ Ha). split_and!; [done| |rewrite Hn, (pd_version _ _ _ Ha); cbn [length]; lia].
  rewrite Hl. destruct ps as [|q ps]; [apply Ha|]. rewrite last_cons_cons.
  destruct (last_is_Some (q :: ps)) as [_ Hx]. destruct (Hx ltac:(done)) as [y Hy]. by rewrite Hy.
Qed.
(** A chain of patches from a map it continues is applied to its end, or up to the first
    patch that does not fit. *)
Lemma chain_applies patches : forall previous s, parseEchoSnapshot s = true ->
  (forall p, head patches = Some p -> next_of s p) -> patchChain previous patches = true ->
  Forall (fun p => patchSchema (isTeacherKey (cs_projectionKey s)) p = true) patches ->
  match applyPatches s patches with
  | Ok s' => replays s patches s'
  | Err e => exists before p rest s1, patches = before ++ p :: rest /\ replays s before s1 /\ ~ patch_fits s1 p
             /\ next_of s1 p /\ pt_projectionVersion p = pt_baseVersion p + 1 /\ applyConceptPatch s1 p = Err e
  end.
Proof.
  induction patches as [|p patches IH]; intros previous s Hs Hn Hch Hsch; [apply replays_nil|].
  cbn [patchChain] in Hch. apply andb_true_iff in Hch as [Hch Hrest]. split_bools.
  apply Forall_cons in Hsch as [Hp Hsch]. specialize (Hn p eq_refl). cbn [applyPatches].
  assert (assertEchoPatchSemantics p = true) as Hsem by done.
  assert (acceptedFor (cs_projectionKey s) p) as Hacc by done.
  destruct (applyConceptPatch s p) as [s1|e] eqn:Ha; cbn [mbind result_bind].
  - pose proof (applied_fits s p s1 Hsem Ha) as Hfit. pose proof (applied_after s p s1 Hsem Ha) as Hafter.
    assert (cs_projectionKey s1 = cs_projectionKey s) as Hk by (pose proof (pd_same _ _ _ Hafter) as Hb; unfold baseline in Hb; congruence).
    specialize (IH (Some p) s1 (pd_valid _ _ _ Hafter)). rewrite Hk in IH. destruct (applyPatches s1 patches) as [s'|e].
    + apply (replays_cons s p s1); [done..|]. apply IH; [|done..]. intros q Hq. destruct patches as [|q' patches]; [done|]. injection Hq as ->.
      cbn [patchChain] in Hrest. split_bools. by eapply next_follows.
    + destruct IH as (before & q & rest & s2 & -> & Hl & Hq); [|done..|].
      { intros q Hq. destruct patches as [|q' patches]; [done|]. injection Hq as ->. cbn [patchChain] in Hrest. split_bools. by eapply next_follows. }
      exists (p :: before), q, rest, s2. split; [done|]. split; [|exact Hq]. by apply (replays_cons s p s1).
  - exists [], p, patches, s. split_and!; [done|apply replays_nil| |done|by apply Z.eqb_eq|done].
    intros Hfit. destruct (fits_applied s p Hs Hacc Hn Hfit) as [s' Hs']. congruence.
Qed.
(** Of the reasons a patch does not belong to the map, only the replay is left to the next
    patch of a chain. *)
Lemma next_failure s p e : next_of s p -> pt_projectionVersion p = pt_baseVersion p + 1 -> applyConceptPatch s p = Err e ->
  (current s /\ pt_requiresReplay p = false -> e ∉ MISMATCHES)
  /\ (~ (current s /\ pt_requiresReplay p = false) -> e = "CONCEPT_PATCH_REPLAY_REQUIRED"%string).
Proof.
  intros Hn Hv He. split.
  - intros [Hc Hr]. by apply (applyConceptPatch_err s p e (next_matches s p Hc Hn Hr Hv)).
  - intros Hno. unfold applyConceptPatch, patchMismatch in He.
    destruct (cs_requiresReplay s || _ || pt_requiresReplay p) eqn:E; [congruence|]. exfalso. apply Hno. unfold current. by split_bools.
Qed.

(** C35. A timeline the contract accepts is replayed to its head exactly as far as its
    patches fit. From its base snapshot the patches are applied one by one: each that fits
    the map it meets - neither needs a replay, additions are new, updates, removals and
    moves find their target, every edge keeps both ends, no warning is empty - makes of it
    the map it says, node by node, edge by edge and field by field; if all do, the result
    is the map of the head version, one version per patch, in the room, the surface and the
    epoch of the timeline. Otherwise the replay stops at the first patch that does not fit,
    with the reason that a replay is needed exactly if the map or the patch needs one, and
    never for an epoch, an algorithm, a version or a cursor. *)
Theorem timeline_replays v b :
  parseTimeline v = true -> tl_baseSnapshot v = Some b ->
  match applyPatches b (tl_patches v) with
  | Ok s => replays b (tl_patches v) s
            /\ cs_projectionVersion s = tl_headVersion v
            /\ tl_headVersion v = cs_projectionVersion b + Z.of_nat (length (tl_patches v))
            /\ baseline s = baseline b /\ cs_roomId s = tl_roomId v /\ cs_projectionKey s = tl_projectionKey v
            /\ cs_analysisEpoch s = tl_analysisEpoch v
  | Err e => exists before p rest s, tl_patches v = before ++ p :: rest /\ replays b before s /\ ~ patch_fits s p
             /\ (current s /\ pt_requiresReplay p = false -> e ∉ MISMATCHES)
             /\ (~ (current s /\ pt_requiresReplay p = false) -> e = "CONCEPT_PATCH_REPLAY_REQUIRED"%string)
  end.
Proof.
  unfold parseTimeline, checkTimeline, timelineSchema, assertTimelineSemantics, assertPatchChain. intros Hp Hb. rewrite Hb in Hp.
  destruct (tl_patches v) as [|p ps] eqn:Hps; [cbn in Hp; split_bools; done|].
  destruct (last (p :: ps)) as [final|] eqn:Hl; [|split_bools; done]. split_bools.
  repeat match goal with E : (_ =? _) = true |- _ => apply Z.eqb_eq in E | E : (_ <=? _) = true |- _ => apply Z.leb_le in E end.
  assert (cs_projectionKey b = tl_projectionKey v) as Hkey by done.
  assert (parseEchoSnapshot b = true) as Hpb.
  { unfold parseEchoSnapshot, checkSnapshot. rewrite Hkey. rewrite bool_decide_true by done. cbn [andb].
    repeat match goal with Hx : _ b = true |- _ => rewrite Hx; clear Hx end. done. }
  pose proof (chain_applies (p :: ps) None b Hpb) as Hch. rewrite Hkey in Hch.
  assert (Forall (fun q => patchSchema (isTeacherKey (tl_projectionKey v)) q = true) (p :: ps)) as Hsch by by apply forallb_Forall.
  assert (forall q, head (p :: ps) = Some q -> next_of b q) as Hnext by (intros q [= <-]; constructor; try done; cbn in *; congruence).
  destruct (applyPatches b (p :: ps)) as [s|e].
  - specialize (Hch Hnext ltac:(done) Hsch). destruct (replays_ends _ _ _ Hch) as (Hba & Hla & Hle). rewrite Hl in Hla. cbn in Hla.
    unfold baseline in Hba. split_and!; try done; try congruence.
  - destruct (Hch Hnext ltac:(done) Hsch) as (before & q & rest & s & Heq & Hlead & Hfit & Hnx & Hv & He).
    exists before, q, rest, s. split_and!; try done; by apply (next_failure s q e).
Qed.
End Patch.

(** ** Warnings *)

(** A patch may carry an empty warning, a snapshot may not: such a patch satisfies the
    contract of patches and can never be applied. *)
Lemma empty_warning_unusable `{Schemas} s p s' : EmptyString ∈ pt_warnings p -> applyConceptPatch s p <> Ok s'.
Proof.
  intros Hw Ha. destruct (applyConceptPatch_inv s p s' Ha) as (_ & nodes & edges & nodes' & _ & _ & _ & -> & Hp).
  unfold parseEchoSnapshot, checkSnapshot, snapshotSchema in Hp. split_bools.
  match goal with E : forallb (textBetween 1 160) _ = true |- _ => rename E into Hf end.
  rewrite forallb_forall in Hf. apply list_elem_of_In in Hw. apply Hf in Hw. done.
Qed.

(** ** A map of two concepts *)

Definition demoHash : string := string_of_list_ascii (replicate 64 "a"%char).
Definition demoNode (id : string) : ConceptNode :=
  MkNode id id supported unreviewed confirmed (MkPosition (NInt 0) (NFrac 1 (-1))).
Definition demoEdge (n : Z) (from to : string) : ConceptEdge :=
  MkEdge (numberedUuid n) from "feeds" to "causal" supported unreviewed confirmed
    (Some (MkEdgeEvidence (MkChannels (NInt 1) (NInt 0) (NInt 0) (NInt 0)) (NInt 1)
       [MkEvidence (numberedUuid 9) 0 3])).
Definition demoMap : ConceptMapSnapshot :=
  MkSnapshot echo_teacher_shadow demoRoom demoNova "echo-1" demoHash 1 0 4 "2024-01-01T00:00:00.000Z" false ev_active
    unreviewed teacher_shadow [] [demoNode "sun"; demoNode "plant"] [demoEdge 1 "sun" "plant"].
Definition demoPatch (n : Z) (warnings : list string) : ConceptMapPatch :=
  MkPatch demoNova "echo-1" demoHash (n + 1) n (n + 4) false warnings [demoNode ("n" ++ dec_string n)] [] []
    [] [] [] [MkPositionUpdate "sun" (NInt 1) (NInt 1)] (NInt 0) [] (Some []).
Definition demoTimeline : TimelineResponse :=
  MkTimeline demoRoom echo_teacher_shadow demoNova (Some demoMap) [demoPatch 1 []; demoPatch 2 ["moved"%string]] (Some 1) 3.

Lemma concept_patch_applied_witness :
  exists s', applyConceptPatch demoMap (demoPatch 1 []) = Ok s'
    /\ nodeOf "sun" s' = Some (MkNode "sun" "sun" supported unreviewed confirmed (MkPosition (NInt 1) (NInt 1)))
    /\ nodeOf "n1" s' = Some (demoNode "n1") /\ cs_projectionVersion s' = 2.
Proof.
  assert (exists s', applyConceptPatch demoMap (demoPatch 1 []) = Ok s') as [s' Ha] by (eexists; vm_compute; reflexivity).
  assert (assertEchoPatchSemantics (demoPatch 1 []) = true) as Hp by (vm_compute; reflexivity).
  destruct (concept_patch_applied _ _ _ Hp Ha) as (Hn & _ & _ & Hv & _).
  exists s'. split; [exact Ha|]. rewrite !Hn, Hv. split_and!; vm_compute; reflexivity.
Defined.
Lemma timeline_replays_witness :
  exists s', applyPatches demoMap (tl_patches demoTimeline) = Ok s' /\ replays demoMap (tl_patches demoTimeline) s'
    /\ cs_projectionVersion s' = 3.
Proof.
  assert (exists s', applyPatches demoMap (tl_patches demoTimeline) = Ok s') as [s' Ha]
    by (eexists; vm_compute; reflexivity).
  assert (parseTimeline demoTimeline = true) as Hp by (vm_compute; reflexivity).
  pose proof (timeline_replays demoTimeline demoMap Hp eq_refl) as Ht. rewrite Ha in Ht.
  exists s'. split; [exact Ha|]. split; [exact (proj1 Ht)|]. exact (proj1 (proj2 Ht)).
Defined.
(** The contract accepts the patch with an empty warning. *)
Example empty_warning_accepted : parseTeacherEchoPatch (demoPatch 1 [EmptyString]) = true.
Proof. vm_compute. reflexivity. Qed.
