(* ===== verification/Trace.v ===== *)
(** * Interaction networks

    [packages/contracts/src/analytics.ts] (the TRACE half) and
    [generated/trace-projection.v1.ts]: the bundle of networks of a room over two windows
    of time, and what the contract demands of it. As in [Echo], a value has the structure
    of its type. *)
From S2P Require Import Prelude Text JsDate JsValue Contracts Database Concrete JsMap Frames Echo.
#[local] Set Warnings "-register-all,-clear-no-such-hyp,-level-tolerance".

Inductive NodeKind : Type := nk_learner | nk_agent | nk_room.
Inductive Layer : Type := ly_communication | ly_uptake | ly_stance | ly_coordination | ly_facilitation.
Inductive Basis : Type := text_span | event_metadata.
#[global] Instance NodeKind_eq_dec : EqDecision NodeKind.
Proof. solve_decision. Defined.
#[global] Instance Layer_eq_dec : EqDecision Layer.
Proof. solve_decision. Defined.
#[global] Instance Basis_eq_dec : EqDecision Basis.
Proof. solve_decision. Defined.

(** [TeacherActorMappingEntry]; the identifier is that of an actor or of the room. *)
Record ActorMappingEntry : Type := MkMapping { am_id : string; am_pseudonym : string; am_kind : NodeKind }.
Record TraceRef : Type := MkTraceRef {
  tr_eventId : string; tr_start : option Z; tr_end : option Z; tr_basis : Basis;
}.
Record TraceChannels : Type := MkTraceChannels { tc_positive : jsnum; tc_challenge : jsnum; tc_uncertain : jsnum }.
Record Metrics : Type := MkMetrics {
  mt_participationBalance : jsnum; mt_reciprocity : jsnum; mt_agentShare : jsnum; mt_semanticCoverage : jsnum;
}.
(** [TeacherNode], [HumanNode] and [StudentNode]. *)
Record TraceNode : Type := MkTraceNode { tn_nodeId : string; tn_label : string; tn_kind : NodeKind }.
Record TraceEvidence : Type := MkTraceEvidence {
  tv_edgeId : string; tv_channels : TraceChannels; tv_weight : jsnum; tv_evidenceRefs : list TraceRef;
}.
(** [TeacherEdge] and [HumanEdge], and [StudentEdge] without evidence. *)
Record TraceEdge : Type := MkTraceEdge {
  te_source : string; te_target : string; te_layer : Layer; te_evidence : option TraceEvidence;
}.
Record TraceView : Type := MkTraceView {
  tw_nodes : list TraceNode; tw_edges : list TraceEdge; tw_metrics : Metrics; tw_warnings : list string;
}.
Record TraceWindow : Type := MkTraceWindow {
  wn_start : string; wn_end : string;
  wn_observed : TraceView; wn_human_only : TraceView; wn_lineage_adjusted : TraceView;
}.
(** [Meta] and the payload. *)
Record SnaProjectionBundle : Type := MkBundle {
  sn_projectionKey : ProjectionKey;
  sn_roomId : string;
  sn_analysisEpoch : string;
  sn_algorithmVersion : string;
  sn_parameterHash : string;
  sn_projectionVersion : Z;
  sn_baseVersion : Z;
  sn_completeThroughRoomSeq : Z;
  sn_watermarkEventTime : string;
  sn_requiresReplay : bool;
  sn_evidenceStatus : EvidenceStatus;
  sn_reviewStatus : ReviewStatus;
  sn_displayStatus : DisplayStatus;
  sn_warnings : list string;
  sn_recent_10m : TraceWindow;
  sn_session_45m : TraceWindow;
  sn_actorMapping : list (string * ActorMappingEntry);    (** empty for a student *)
}.

(** ** Schemas *)

Definition EXPLORERS : list string := ["探索者 A"; "探索者 B"; "探索者 C"; "探索者 D"]%string.
Definition NOVA_AGENT : string := "Nova Agent".
Definition CHAT_ROOM : string := "共學聊天室".
Definition STUDENT_WARNINGS : list string :=
  ["small_group_interpretation_warning"; "recent_group_interaction_only"; "requires_replay";
   "insufficient_window"]%string.
Definition isOneOf (l : list string) (s : string) : bool := bool_decide (s ∈ l).
Definition isStudentNodeId (s : string) : bool :=
  matches ([is_char "p"; is_char "-"] ++ replicate 16 is_lower_hex) (list_ascii_of_string s).
Definition wordChar (c : ascii) : bool :=
  is_digit c || between "a" "z" c || between "A" "Z" c || one_of ["_"; "-"]%char c.
Definition isMappingKey (s : string) : bool := textBetween 1 160 s && forallb wordChar (list_ascii_of_string s).
Definition positive (n : jsnum) : bool :=
  match n with NInt z => 0 <? z | NFrac m _ => 0 <? m | _ => false end.

(** Whose view it is: the teacher's, the teacher's without the agent, the student's. *)
Inductive Audience : Type := teacher_view | human_view | student_view.

Section Trace.
Context `{Schemas}.

Definition traceRefSchema (r : TraceRef) : bool :=
  format_uuid (tr_eventId r)
  && match tr_basis r, tr_start r, tr_end r with
     | event_metadata, None, None => true
     | text_span, Some s, Some e => (0 <=? s) && (1 <=? e)
     | _, _, _ => false
     end.
Definition traceNodeSchema (a : Audience) (n : TraceNode) : bool :=
  match a with
  | teacher_view => textBetween 1 160 (tn_nodeId n) && isOneOf (EXPLORERS ++ [NOVA_AGENT; CHAT_ROOM]) (tn_label n)
  | human_view => textBetween 1 160 (tn_nodeId n) && isOneOf EXPLORERS (tn_label n)
                  && bool_decide (tn_kind n = nk_learner)
  | student_view => isStudentNodeId (tn_nodeId n) && isOneOf EXPLORERS (tn_label n)
                    && bool_decide (tn_kind n = nk_learner)
  end.
Definition layersOf (a : Audience) : list Layer :=
  match a with
  | teacher_view => [ly_communication; ly_uptake; ly_stance; ly_coordination; ly_facilitation]
  | human_view => [ly_communication; ly_uptake; ly_stance; ly_coordination]
  | student_view => [ly_communication; ly_uptake]
  end.
Definition traceEdgeSchema (a : Audience) (e : TraceEdge) : bool :=
  bool_decide (te_layer e ∈ layersOf a)
  && match a, te_evidence e with
     | student_view, None => textBetween 1 64 (te_source e) && textBetween 1 64 (te_target e)
     | (teacher_view | human_view), Some v =>
         textBetween 1 160 (te_source e) && textBetween 1 160 (te_target e) && format_uuid (tv_edgeId v)
         && forallb nonNegative [tc_positive (tv_channels v); tc_challenge (tv_channels v); tc_uncertain (tv_channels v)]
         && positive (tv_weight v)
         && (1 <=? length (tv_evidenceRefs v))%nat && forallb traceRefSchema (tv_evidenceRefs v)
     | _, _ => false
     end.
Definition warningsSchema (a : Audience) (l : list string) : bool :=
  match a with student_view => distinct l && forallb (isOneOf STUDENT_WARNINGS) l | _ => forallb (textBetween 0 160) l end.
Definition traceViewSchema (a : Audience) (v : TraceView) : bool :=
  let m := tw_metrics v in
  forallb (traceNodeSchema a) (tw_nodes v) && forallb (traceEdgeSchema a) (tw_edges v)
  && forallb inUnit [mt_participationBalance m; mt_reciprocity m; mt_agentShare m; mt_semanticCoverage m]
  && warningsSchema a (tw_warnings v).
Definition windowSchema (teacher : bool) (w : TraceWindow) : bool :=
  format_date_time (wn_start w) && format_date_time (wn_end w)
  && traceViewSchema (if teacher then teacher_view else student_view) (wn_observed w)
  && traceViewSchema (if teacher then human_view else student_view) (wn_human_only w)
  && traceViewSchema (if teacher then human_view else student_view) (wn_lineage_adjusted w).
Definition mappingSchema (x : string * ActorMappingEntry) : bool :=
  isMappingKey (fst x) && format_uuid (am_id (snd x))
  && match am_kind (snd x) with
     | nk_learner => isOneOf EXPLORERS (am_pseudonym (snd x))
     | nk_agent => bool_decide (am_pseudonym (snd x) = NOVA_AGENT)
     | nk_room => bool_decide (am_pseudonym (snd x) = CHAT_ROOM)
     end.
Definition traceSchema (b : SnaProjectionBundle) : bool :=
  let teacher := bool_decide (sn_projectionKey b = trace_teacher_bundle) in
  format_uuid (sn_roomId b) && format_uuid (sn_analysisEpoch b) && textBetween 1 160 (sn_algorithmVersion b)
  && isParameterHash (sn_parameterHash b) && (1 <=? sn_projectionVersion b) && (0 <=? sn_baseVersion b)
  && (0 <=? sn_completeThroughRoomSeq b) && format_date_time (sn_watermarkEventTime b)
  && forallb (textBetween 0 160) (sn_warnings b)
  && windowSchema teacher (sn_recent_10m b) && windowSchema teacher (sn_session_45m b)
  && (if teacher then bool_decide (sn_displayStatus b = teacher_shadow) && forallb mappingSchema (sn_actorMapping b)
      else bool_decide (sn_projectionKey b = trace_student_bundle) && bool_decide (sn_reviewStatus b = approved)
           && bool_decide (sn_displayStatus b = student_aggregate) && warningsSchema student_view (sn_warnings b)
           && bool_decide (length (sn_actorMapping b) = O)).

(** ** Semantics *)

Definition layerText (l : Layer) : string :=
  match l with
  | ly_communication => "communication" | ly_uptake => "uptake" | ly_stance => "stance"
  | ly_coordination => "coordination" | ly_facilitation => "facilitation"
  end.
Definition kindText (k : NodeKind) : string :=
  match k with nk_learner => "learner" | nk_agent => "agent" | nk_room => "room" end.
(** [edge.edgeId ?? `${sourceId}\0${targetId}\0${edge.layer}`]. *)
Definition edgeIdentity (e : TraceEdge) : string :=
  match te_evidence e with
  | Some v => tv_edgeId v
  | None => te_source e ++ String zero (te_target e ++ String zero (layerText (te_layer e)))
  end.
Definition spanOk (r : TraceRef) : bool :=
  match tr_basis r, tr_start r, tr_end r with
  | text_span, Some s, Some e => s <? e
  | text_span, _, _ => false
  | event_metadata, _, _ => true
  end.
(** The node is who the mapping says. *)
Definition mapped (mapping : list (string * ActorMappingEntry)) (n : TraceNode) : bool :=
  match assoc (tn_nodeId n) mapping with
  | Some m => bool_decide (tn_label n = am_pseudonym m) && bool_decide (tn_kind n = am_kind m)
  | None => false
  end.
Fixpoint traceEdgesOk (lineage : bool) (allowed seen : list string) (edges : list TraceEdge) : bool :=
  match edges with
  | [] => true
  | e :: edges' =>
      negb (bool_decide (te_source e = EmptyString)) && negb (bool_decide (te_target e = EmptyString))
      && bool_decide (te_source e ∈ allowed) && bool_decide (te_target e ∈ allowed)
      && negb (bool_decide (edgeIdentity e ∈ seen))
      && negb (lineage && negb (bool_decide (te_layer e = ly_uptake)))
      && match te_evidence e with Some v => forallb spanOk (tv_evidenceRefs v) | None => true end
      && traceEdgesOk lineage allowed (edgeIdentity e :: seen) edges'
  end.
Definition viewOk (mapping : option (list (string * ActorMappingEntry))) (lineage : bool) (v : TraceView) : bool :=
  distinct (map tn_nodeId (tw_nodes v))
  && match mapping with Some m => forallb (mapped m) (tw_nodes v) | None => true end
  && traceEdgesOk lineage (map tn_nodeId (tw_nodes v)) [] (tw_edges v).
Definition windowViews (w : TraceWindow) : list (bool * TraceView) :=
  [(false, wn_observed w); (false, wn_human_only w); (true, wn_lineage_adjusted w)].
Definition windowsOk (b : SnaProjectionBundle) : bool :=
  match dateParse (wn_start (sn_recent_10m b)), dateParse (wn_end (sn_recent_10m b)),
        dateParse (wn_start (sn_session_45m b)), dateParse (wn_end (sn_session_45m b)),
        dateParse (sn_watermarkEventTime b) with
  | Some recentStart, Some recentEnd, Some sessionStart, Some sessionEnd, Some watermark =>
      (recentStart <=? recentEnd) && (sessionStart <=? sessionEnd) && (recentEnd =? sessionEnd)
      && (recentEnd - recentStart <=? 10 * 60000) && (sessionEnd - sessionStart <=? 45 * 60000)
      && (recentEnd <=? watermark)
  | _, _, _, _, _ => false
  end.
(** [assertTraceSemantics]. *)
Definition assertTraceSemantics (b : SnaProjectionBundle) : bool :=
  let mapping := if decide (sn_projectionKey b = trace_teacher_bundle) then Some (sn_actorMapping b) else None in
  (sn_baseVersion b =? sn_projectionVersion b - 1)
  && eqb (sn_requiresReplay b) (bool_decide (sn_evidenceStatus b = ev_requires_replay))
  && windowsOk b
  && forallb (fun v => viewOk mapping (fst v) (snd v)) (windowViews (sn_recent_10m b) ++ windowViews (sn_session_45m b)).
(** [parseTrace]. *)
Definition parseTrace (b : SnaProjectionBundle) : bool := traceSchema b && assertTraceSemantics b.

(** Nothing in a bundle is anonymous or unfounded: every edge joins two nodes of its view,
    and in the bundle of a teacher every node is an actor of the mapping. *)
Lemma traceEdgesOk_ends lineage allowed seen edges :
  traceEdgesOk lineage allowed seen edges = true ->
  Forall (fun e => te_source e ∈ allowed /\ te_target e ∈ allowed /\ (lineage = true -> te_layer e = ly_uptake)) edges.
Proof.
  revert seen. induction edges as [|e edges IH]; intros seen; [constructor|]. simpl. intros He.
  split_bools. constructor; [|by eapply IH]. split_and!; [done|done|]. intros ->.
  match goal with E : _ && _ = false |- _ => simpl in E; by split_bools end.
Qed.
Lemma parseTrace_sound b v lineage :
  parseTrace b = true -> (lineage, v) ∈ windowViews (sn_recent_10m b) ++ windowViews (sn_session_45m b) ->
  NoDup (map tn_nodeId (tw_nodes v))
  /\ Forall (fun e => te_source e ∈ map tn_nodeId (tw_nodes v) /\ te_target e ∈ map tn_nodeId (tw_nodes v)
                      /\ (lineage = true -> te_layer e = ly_uptake)) (tw_edges v).
Proof.
  unfold parseTrace, assertTraceSemantics. intros Hp Hin. split_bools.
  match goal with E : forallb _ _ = true |- _ => rewrite forallb_forall in E; rename E into Hv end.
  apply list_elem_of_In, Hv in Hin. unfold viewOk in Hin. simpl in Hin. split_bools.
  split; [by apply distinct_NoDup|by eapply traceEdgesOk_ends].
Qed.
End Trace.
