(* ===== verification/Projections.v ===== *)
(** * The projections of a browser

    [apps/web/src/lib/session/projection-sync.ts]: the references and snapshots of the
    projections a session may see; [projection-coordinator.ts]: the panels that are
    published together; [lib/agent/agent-trigger-controller.ts]: which committed message
    asks Nova to answer; [lib/media/media-slot-reservations.ts]: how many attachments a
    message has room for.

    An operation that throws is an [Err]; the callback of the coordinator is a log. *)
From S2P Require Import Prelude Text JsDate JsValue Contracts Database Concrete JsMap Frames Authorization Echo Trace.
#[local] Set Warnings "-register-all,-clear-no-such-hyp,-level-tolerance".

(** ** Synchronisation *)

Inductive ProjectionAcceptResult : Type := accepted | epoch_changed | duplicate_frame | stale_frame | gap.
Inductive ProjectionAvailability : Type := loading | ready | not_available_by_policy | not_ready | load_failed.
#[global] Instance ProjectionAvailability_eq_dec : EqDecision ProjectionAvailability.
Proof. solve_decision. Defined.
Inductive ProjectionSnapshot : Type := EchoSnapshot (s : ConceptMapSnapshot) | TraceSnapshot (b : SnaProjectionBundle).
Definition sp_projectionKey (s : ProjectionSnapshot) : ProjectionKey :=
  match s with EchoSnapshot s => cs_projectionKey s | TraceSnapshot b => sn_projectionKey b end.
Definition sp_roomId (s : ProjectionSnapshot) : string :=
  match s with EchoSnapshot s => cs_roomId s | TraceSnapshot b => sn_roomId b end.
Definition sp_requiresReplay (s : ProjectionSnapshot) : bool :=
  match s with EchoSnapshot s => cs_requiresReplay s | TraceSnapshot b => sn_requiresReplay b end.
Definition sp_evidenceStatus (s : ProjectionSnapshot) : EvidenceStatus :=
  match s with EchoSnapshot s => cs_evidenceStatus s | TraceSnapshot b => sn_evidenceStatus b end.
(** The pointer to a snapshot. *)
Definition referenceOf (s : ProjectionSnapshot) : ProjectionFrame :=
  let k := sp_projectionKey s in
  match s with
  | EchoSnapshot s => Projection (cs_roomId s) k (cs_analysisEpoch s) (cs_projectionVersion s)
                        (cs_completeThroughRoomSeq s) (analyticsLatest (cs_roomId s) k)
  | TraceSnapshot b => Projection (sn_roomId b) k (sn_analysisEpoch b) (sn_projectionVersion b)
                         (sn_completeThroughRoomSeq b) (analyticsLatest (sn_roomId b) k)
  end.

Record ProjectionSlot : Type := Slot {
  sl_availability : ProjectionAvailability;
  sl_snapshot : option ProjectionSnapshot;
  sl_errorCode : option string;
}.
Definition loadingSlot : ProjectionSlot := Slot loading None None.

Definition STUDENT_KEYS : list ProjectionKey := [echo_student_approved; trace_student_bundle].
Definition TEACHER_KEYS : list ProjectionKey := [echo_teacher_shadow; trace_teacher_bundle].
Definition keysOf (r : Role) : list ProjectionKey := if decide (r = r_teacher) then TEACHER_KEYS else STUDENT_KEYS.

Record ProjectionSync : Type := Sync {
  ps_references : list (string * ProjectionFrame);
  ps_slots : list (string * ProjectionSlot);
  ps_allowed : list ProjectionKey;
  ps_role : option Role;
  ps_roomId : string;
}.
Definition name (k : ProjectionKey) : string := projectionKeyText k.
Definition loadingSlots (ks : list ProjectionKey) : list (string * ProjectionSlot) :=
  foldl (fun m k => map_set (name k) loadingSlot m) [] ks.
Definition newProjectionSync (roomId : string) (r : Role) : ProjectionSync :=
  Sync [] (loadingSlots (keysOf r)) (keysOf r) (Some r) roomId.

Definition set_entry (refs : list (string * ProjectionFrame)) (k : ProjectionKey) (s : ProjectionSlot)
    (st : ProjectionSync) : ProjectionSync :=
  Sync refs (map_set (name k) s (ps_slots st)) (ps_allowed st) (ps_role st) (ps_roomId st).
Definition set_references (refs : list (string * ProjectionFrame)) (st : ProjectionSync) : ProjectionSync :=
  Sync refs (ps_slots st) (ps_allowed st) (ps_role st) (ps_roomId st).

(** A code of the class, or a violation of the contract. *)
Inductive sync_error : Type := SyncError (code : string) | ContractViolation.
Abbreviation SYNC := (M ProjectionSync sync_error).

Definition allowedKeys (st : ProjectionSync) : list ProjectionKey := ps_allowed st.
Definition holds (k : ProjectionKey) (st : ProjectionSync) : bool :=
  match ps_role st with Some r => bool_decide (k ∈ keysOf r) | None => false end.
Definition assertAllowed (k : ProjectionKey) : SYNC unit :=
  st ← get_state;
  match ps_role st with
  | None => throw (SyncError "PROJECTION_AUTHORITY_CLEARED")
  | Some r => throw_if (negb (bool_decide (k ∈ keysOf r))) (SyncError "PROJECTION_ROLE_FORBIDDEN")
  end.
Definition assertFrame (f : ProjectionFrame) : SYNC unit :=
  _ ← assertAllowed (pj_projectionKey f);
  st ← get_state;
  _ ← throw_if (negb (bool_decide (pj_roomId f = ps_roomId st))) (SyncError "PROJECTION_ROOM_MISMATCH");
  throw_if (negb (bool_decide (pj_snapshotUrl f = analyticsLatest (ps_roomId st) (pj_projectionKey f))))
    (SyncError "PROJECTION_SNAPSHOT_URL_INVALID").

Definition current (k : ProjectionKey) (st : ProjectionSync) : option ProjectionFrame := assoc (name k) (ps_references st).
Definition setReference (f : ProjectionFrame) : SYNC unit :=
  modify (fun st => set_references (map_set (name (pj_projectionKey f)) f (ps_references st)) st).
Definition accept (f : ProjectionFrame) : SYNC ProjectionAcceptResult :=
  _ ← assertFrame f;
  st ← get_state;
  match current (pj_projectionKey f) st with
  | None => _ ← setReference f; mret accepted
  | Some c =>
      if negb (bool_decide (pj_analysisEpoch f = pj_analysisEpoch c)) then _ ← setReference f; mret epoch_changed
      else if pj_projectionVersion f =? pj_projectionVersion c then mret duplicate_frame
      else if pj_projectionVersion f <? pj_projectionVersion c then mret stale_frame
      else if negb (pj_projectionVersion f =? pj_projectionVersion c + 1) then mret gap
      else if pj_completeThroughRoomSeq f <? pj_completeThroughRoomSeq c
      then throw (SyncError "PROJECTION_CURSOR_REGRESSION")
      else _ ← setReference f; mret accepted
  end.
Definition slot (k : ProjectionKey) : SYNC ProjectionSlot :=
  _ ← assertAllowed k;
  st ← get_state; mret (default loadingSlot (assoc (name k) (ps_slots st))).

Section Sync.
Context `{Schemas}.

(** The contract of the surface. *)
Definition parseSnapshot (s : ProjectionSnapshot) : bool :=
  match sp_projectionKey s, s with
  | echo_student_approved, EchoSnapshot s => parseStudentEchoSnapshot s
  | echo_teacher_shadow, EchoSnapshot s => parseTeacherEchoSnapshot s
  | (trace_teacher_bundle | trace_student_bundle), TraceSnapshot b => parseTrace b
  | _, _ => false
  end.
Definition replaceSnapshot (candidate : ProjectionSnapshot) : SYNC unit :=
  _ ← assertAllowed (sp_projectionKey candidate);
  st ← get_state;
  _ ← throw_if (negb (bool_decide (sp_roomId candidate = ps_roomId st))) (SyncError "PROJECTION_ROOM_MISMATCH");
  _ ← throw_if (negb (parseSnapshot candidate)) ContractViolation;
  _ ← throw_if (sp_requiresReplay candidate || negb (bool_decide (sp_evidenceStatus candidate = ev_active)))
        (SyncError "PROJECTION_REPLAY_REQUIRED");
  modify (fun st => set_entry (map_set (name (sp_projectionKey candidate)) (referenceOf candidate) (ps_references st))
                      (sp_projectionKey candidate) (Slot ready (Some candidate) None) st).
Definition applyEchoPatches (k : ProjectionKey) (patches : list ConceptMapPatch) (target : ProjectionFrame) : SYNC unit :=
  _ ← assertAllowed k;
  _ ← assertFrame target;
  _ ← throw_if (negb (bool_decide (pj_projectionKey target = k))) (SyncError "PROJECTION_PATCH_TARGET_MISMATCH");
  st ← get_state;
  match assoc (name k) (ps_slots st) ≫= sl_snapshot with
  | Some (EchoSnapshot base) =>
      _ ← throw_if (negb (bool_decide (cs_projectionKey base = echo_student_approved))
                    && negb (bool_decide (cs_projectionKey base = echo_teacher_shadow)))
            (SyncError "PROJECTION_PATCH_BASE_MISSING");
      match applyPatches base patches with
      | Err e => throw (SyncError e)
      | Ok next =>
          _ ← throw_if (negb (bool_decide (cs_analysisEpoch next = pj_analysisEpoch target))
                        || negb (cs_projectionVersion next =? pj_projectionVersion target)
                        || negb (cs_completeThroughRoomSeq next =? pj_completeThroughRoomSeq target))
                (SyncError "PROJECTION_PATCH_TARGET_NOT_REACHED");
          modify (fun st => set_entry (map_set (name k) target (ps_references st)) k
                              (Slot ready (Some (EchoSnapshot next)) None) st)
      end
  | _ => throw (SyncError "PROJECTION_PATCH_BASE_MISSING")
  end.
End Sync.

Definition snapshotOf (k : ProjectionKey) (st : ProjectionSync) : option ProjectionSnapshot :=
  assoc (name k) (ps_slots st) ≫= sl_snapshot.
Definition markLoading (k : ProjectionKey) : SYNC unit :=
  _ ← assertAllowed k;
  modify (fun st => set_entry (ps_references st) k (Slot loading (snapshotOf k st) None) st).
Definition markWithout (s : ProjectionSlot) (k : ProjectionKey) : SYNC unit :=
  _ ← assertAllowed k;
  modify (fun st => set_entry (map_delete (name k) (ps_references st)) k s st).
Definition markPolicyUnavailable : ProjectionKey -> SYNC unit := markWithout (Slot not_available_by_policy None None).
Definition markNotReady : ProjectionKey -> SYNC unit := markWithout (Slot not_ready None None).
Definition markFailed (k : ProjectionKey) (errorCode : string) : SYNC unit :=
  _ ← assertAllowed k;
  modify (fun st => set_entry (ps_references st) k (Slot load_failed (snapshotOf k st) (Some errorCode)) st).
Definition markAuthorityUnavailable (k : ProjectionKey) (errorCode : string) : SYNC unit :=
  markWithout (Slot load_failed None (Some errorCode)) k.
(** [references]: by the names of the projections. *)
Definition keyRank (k : ProjectionKey) : Z :=
  match k with echo_student_approved => 0 | echo_teacher_shadow => 1 | trace_student_bundle => 2 | trace_teacher_bundle => 3 end.
Definition references (st : ProjectionSync) : list ProjectionFrame :=
  sort_by (fun a b => keyRank (pj_projectionKey a) <=? keyRank (pj_projectionKey b)) (map snd (ps_references st)).
Definition reset (st : ProjectionSync) : ProjectionSync :=
  Sync [] (if ps_role st is Some _ then loadingSlots (ps_allowed st) else []) (ps_allowed st) (ps_role st) (ps_roomId st).
Definition clearAuthority (st : ProjectionSync) : ProjectionSync := Sync [] [] (ps_allowed st) None EmptyString.

(** *** An operation that throws changes nothing *)

Lemma readonly_assertAllowed k : readonly (assertAllowed k).
Proof. unfold assertAllowed. atomic. Qed.
#[export] Hint Resolve readonly_assertAllowed : atomic.
Lemma readonly_assertFrame f : readonly (assertFrame f).
Proof. unfold assertFrame. atomic. Qed.
#[export] Hint Resolve readonly_assertFrame : atomic.

Lemma atomic_accept f : atomic (accept f).
Proof. unfold accept, setReference. atomic. Qed.
Lemma atomic_slot k : atomic (slot k).
Proof. unfold slot. atomic. Qed.
Lemma atomic_replaceSnapshot `{Schemas} c : atomic (replaceSnapshot c).
Proof. unfold replaceSnapshot. atomic. Qed.
Lemma atomic_applyEchoPatches `{Schemas} k ps t : atomic (applyEchoPatches k ps t).
Proof. unfold applyEchoPatches. atomic. Qed.
Lemma atomic_markLoading k : atomic (markLoading k).
Proof. unfold markLoading. atomic. Qed.
Lemma atomic_markWithout s k : atomic (markWithout s k).
Proof. unfold markWithout. atomic. Qed.
Lemma atomic_markFailed k e : atomic (markFailed k e).
Proof. unfold markFailed. atomic. Qed.

(** *** What is held belongs to the session *)

Inductive sync_op : Type :=
| OAccept (f : ProjectionFrame)
| OSlot (k : ProjectionKey)
| OReplace (c : ProjectionSnapshot)
| OPatches (k : ProjectionKey) (patches : list ConceptMapPatch) (target : ProjectionFrame)
| OLoading (k : ProjectionKey)
| OPolicyUnavailable (k : ProjectionKey)
| ONotReady (k : ProjectionKey)
| OFailed (k : ProjectionKey) (errorCode : string)
| OAuthorityUnavailable (k : ProjectionKey) (errorCode : string)
| OReset
| OClearAuthority.

Section SyncSteps.
Context `{Schemas}.

Definition forget {A} (r : result sync_error A * ProjectionSync) : option sync_error * ProjectionSync :=
  match r with (Ok _, st) => (None, st) | (Err e, st) => (Some e, st) end.
(** An operation, with what it throws. *)
Definition perform (o : sync_op) (st : ProjectionSync) : option sync_error * ProjectionSync :=
  match o with
  | OAccept f => forget (accept f st)
  | OSlot k => forget (slot k st)
  | OReplace c => forget (replaceSnapshot c st)
  | OPatches k ps t => forget (applyEchoPatches k ps t st)
  | OLoading k => forget (markLoading k st)
  | OPolicyUnavailable k => forget (markPolicyUnavailable k st)
  | ONotReady k => forget (markNotReady k st)
  | OFailed k e => forget (markFailed k e st)
  | OAuthorityUnavailable k e => forget (markAuthorityUnavailable k e st)
  | OReset => (None, reset st)
  | OClearAuthority => (None, clearAuthority st)
  end.
Definition performs (st : ProjectionSync) (os : list sync_op) : ProjectionSync :=
  foldl (fun st o => snd (perform o st)) st os.

Lemma forget_atomic {A} (m : SYNC A) st e st' : atomic m -> forget (m st) = (Some e, st') -> st' = st.
Proof. intros Hm. destruct (m st) as [[a|e'] s1] eqn:E; [done|]. simpl. intros [= <- <-]. by eapply Hm. Qed.
Lemma perform_atomic o st e st' : perform o st = (Some e, st') -> st' = st.
Proof.
  destruct o; cbn [perform]; try done;
    apply forget_atomic; eauto using atomic_accept, atomic_slot, atomic_replaceSnapshot, atomic_applyEchoPatches,
      atomic_markLoading, atomic_markWithout, atomic_markFailed.
Qed.

Lemma name_inj k k' : name k = name k' -> k = k'.
Proof. by destruct k, k'. Qed.

Record snapshot_ok (room : string) (k : ProjectionKey) (s : ProjectionSnapshot) : Prop := {
  sk_key : sp_projectionKey s = k;
  sk_room : sp_roomId s = room;
  sk_contract : parseSnapshot s = true;
  sk_replay : sp_requiresReplay s = false;
  sk_evidence : sp_evidenceStatus s = ev_active;
}.
Record frame_ok (room : string) (r : Role) (k : ProjectionKey) (f : ProjectionFrame) : Prop := {
  fk_key : pj_projectionKey f = k;
  fk_allowed : k ∈ keysOf r;
  fk_room : pj_roomId f = room;
  fk_url : pj_snapshotUrl f = analyticsLatest room k;
}.
Record slot_ok (room : string) (r : Role) (k : ProjectionKey) (s : ProjectionSlot) : Prop := {
  sl_allowed : k ∈ keysOf r;
  sl_valid : forall x, sl_snapshot s = Some x -> snapshot_ok room k x;
  sl_ready : sl_availability s = ready -> is_Some (sl_snapshot s);
  sl_withheld : sl_availability s = not_available_by_policy -> sl_snapshot s = None;
}.
Record sync_ok (room : string) (r : Role) (st : ProjectionSync) : Prop := {
  so_keys : ps_allowed st = keysOf r;
  so_authority : (ps_role st = Some r /\ ps_roomId st = room)
                 \/ (ps_role st = None /\ ps_references st = [] /\ ps_slots st = []);
  so_references : forall k f, current k st = Some f -> frame_ok room r k f;
  so_slots : forall k s, assoc (name k) (ps_slots st) = Some s -> slot_ok room r k s;
  so_ready : forall k s, assoc (name k) (ps_slots st) = Some s -> sl_availability s = ready -> is_Some (current k st);
}.

Lemma assertAllowed_ok k st u st' :
  assertAllowed k st = (Ok u, st') -> exists r, ps_role st = Some r /\ k ∈ keysOf r /\ st' = st.
Proof.
  unfold assertAllowed. intros Ha. rewrite (bind_run _ _ _ st st) in Ha by done.
  destruct (ps_role st) as [r|]; [|done]. apply throw_if_ok in Ha as [Ha ->]. split_bools. eauto.
Qed.
Lemma assertFrame_ok f st u st' :
  assertFrame f st = (Ok u, st') ->
  exists r, ps_role st = Some r /\ frame_ok (ps_roomId st) r (pj_projectionKey f) f /\ st' = st.
Proof.
  unfold assertFrame. intros Ha. apply bind_ok in Ha as (? & s1 & Ha & Hf). apply assertAllowed_ok in Ha as (r & Hr & Hk & ->).
  rewrite (bind_run _ _ _ st st) in Hf by done. apply bind_ok in Hf as (? & s2 & H1 & H2).
  apply throw_if_ok in H1 as [H1 ->]. apply throw_if_ok in H2 as [H2 ->]. split_bools.
  exists r. split; [done|]. split; [|done]. by constructor.
Qed.
Lemma sync_ok_role room r st r' : sync_ok room r st -> ps_role st = Some r' -> r' = r /\ ps_roomId st = room.
Proof. intros [_ [[Hr Hm]|(Hr & _)] _ _ _]; rewrite Hr; [|done]. by intros [= ->]. Qed.

(** The one way an operation writes: the references, and one slot. *)
Lemma set_entry_ok room r st refs k s :
  sync_ok room r st -> ps_role st = Some r ->
  (forall k' f, assoc (name k') refs = Some f -> frame_ok room r k' f) ->
  (forall k', k' <> k -> assoc (name k') refs = current k' st) ->
  slot_ok room r k s -> (sl_availability s = ready -> is_Some (assoc (name k) refs)) ->
  sync_ok room r (set_entry refs k s st).
Proof.
  intros Hok Hrole Hf Hother Hs Hready. destruct (sync_ok_role _ _ _ _ Hok Hrole) as [_ Hroom].
  constructor; simpl; [apply Hok|by left|exact Hf|..].
  - intros k' s'. rewrite assoc_map_set. destruct (decide (name k' = name k)) as [->%name_inj|].
    + by intros [= <-].
    + apply Hok.
  - intros k' s'. unfold current. simpl. rewrite assoc_map_set.
    destruct (decide (name k' = name k)) as [->%name_inj|Hne].
    + intros [= <-]. apply Hready.
    + intros Hk' Hr'. rewrite Hother by congruence. by eapply so_ready.
Qed.
Lemma set_references_ok room r st f k :
  sync_ok room r st -> ps_role st = Some r -> frame_ok room r k f -> k = pj_projectionKey f ->
  sync_ok room r (set_references (map_set (name k) f (ps_references st)) st).
Proof.
  intros Hok Hrole Hf Hk. destruct (sync_ok_role _ _ _ _ Hok Hrole) as [_ Hroom].
  constructor; simpl; [apply Hok|by left| |apply Hok|].
  - intros k' f'. unfold current. simpl. rewrite assoc_map_set.
    destruct (decide (name k' = name k)) as [->%name_inj|]; [by intros [= <-]|apply Hok].
  - intros k' s' Hs' Hr'. unfold current. simpl. rewrite assoc_map_set. case_decide; [done|by eapply so_ready].
Qed.

(** Patches lead from a snapshot in order to one in order. *)
Lemma applyPatches_ok ps : forall s s',
  parseEchoSnapshot s = true -> Echo.current s -> applyPatches s ps = Ok s' ->
  parseEchoSnapshot s' = true /\ Echo.current s' /\ cs_roomId s' = cs_roomId s /\ cs_projectionKey s' = cs_projectionKey s.
Proof.
  induction ps as [|p ps IH]; intros s s' Hp Hc; simpl; [by intros [= <-]|].
  destruct (applyConceptPatch s p) as [s1|] eqn:Ha; [|done]. simpl. intros Hr.
  destruct (applyConceptPatch_inv s p s1 Ha) as (_ & nodes & edges & nodes' & _ & _ & _ & E & Hp1).
  destruct (IH s1 s' Hp1) as (Hp' & Hc' & Hm & Hk); [by subst s1|done|]. subst s1. done.
Qed.
Lemma parseSnapshot_echo s : parseSnapshot (EchoSnapshot s) = true <-> parseEchoSnapshot s = true.
Proof.
  unfold parseSnapshot, parseEchoSnapshot, parseStudentEchoSnapshot, parseTeacherEchoSnapshot, checkSnapshot. simpl.
  destruct (cs_projectionKey s) eqn:E; simpl; [done|done|split; [done|]..];
    rewrite ?bool_decide_eq_false_2 by (rewrite !elem_of_cons, elem_of_nil; naive_solver); done.
Qed.

Section Kept.
Context (room : string) (r : Role).

Lemma accept_ok f st x st' : sync_ok room r st -> accept f st = (Ok x, st') -> sync_ok room r st'.
Proof.
  intros Hok Ha. apply bind_ok in Ha as (? & s1 & Hf & Ha). apply assertFrame_ok in Hf as (r' & Hr & Hf & ->).
  destruct (sync_ok_role _ _ _ _ Hok Hr) as [-> Hroom]. rewrite Hroom in Hf.
  rewrite (bind_run _ _ _ st st) in Ha by done.
  pose proof (set_references_ok room r st f _ Hok Hr Hf eq_refl) as Hset.
  unfold setReference in Ha.
  destruct (current _ st) as [c|]; [|run_ok; exact Hset].
  repeat (case_match; try done); run_ok; done.
Qed.
Lemma replaceSnapshot_ok c st x st' : sync_ok room r st -> replaceSnapshot c st = (Ok x, st') -> sync_ok room r st'.
Proof.
  intros Hok Ha. apply bind_ok in Ha as (? & s1 & Hk & Ha). apply assertAllowed_ok in Hk as (r' & Hr & Hk & ->).
  destruct (sync_ok_role _ _ _ _ Hok Hr) as [-> Hroom].
  rewrite (bind_run _ _ _ st st) in Ha by done.
  apply bind_ok in Ha as (? & s1 & H1 & Ha). apply throw_if_ok in H1 as [H1 ->].
  apply bind_ok in Ha as (? & s1 & H2 & Ha). apply throw_if_ok in H2 as [H2 ->].
  apply bind_ok in Ha as (? & s1 & H3 & Ha). apply throw_if_ok in H3 as [H3 ->].
  injection Ha as _ <-. split_bools. rewrite Hroom in *.
  apply set_entry_ok; try done.
  - intros k' f. rewrite assoc_map_set. destruct (decide _) as [->%name_inj|]; [|apply Hok].
    intros [= <-]. destruct c; simpl in *; constructor; simpl; congruence.
  - intros k' Hne. rewrite assoc_map_set. rewrite decide_False; [done|]. by intros ->%name_inj.
  - constructor; simpl; [done| |done|done]. intros y [= <-]. by constructor.
  - intros _. rewrite assoc_map_set, decide_True; done.
Qed.
Lemma applyEchoPatches_ok k ps t st x st' :
  sync_ok room r st -> applyEchoPatches k ps t st = (Ok x, st') -> sync_ok room r st'.
Proof.
  intros Hok Ha. apply bind_ok in Ha as (? & s1 & Hk & Ha). apply assertAllowed_ok in Hk as (r' & Hr & Hk & ->).
  destruct (sync_ok_role _ _ _ _ Hok Hr) as [-> Hroom].
  apply bind_ok in Ha as (? & s1 & Hf & Ha). apply assertFrame_ok in Hf as (r' & Hr' & Hf & ->).
  assert (r' = r) as -> by congruence. rewrite Hroom in Hf.
  apply bind_ok in Ha as (? & s1 & H1 & Ha). apply throw_if_ok in H1 as [H1 ->]. split_bools. subst k.
  rewrite (bind_run _ _ _ st st) in Ha by done.
  destruct (assoc _ (ps_slots st)) as [sl|] eqn:Hsl; [|done]. simpl in Ha.
  destruct (sl_snapshot sl) as [[base|]|] eqn:Hb; [|done..].
  destruct (so_slots _ _ _ Hok _ _ Hsl) as [_ Hv _ _]. destruct (Hv _ Hb) as [Kk Km Kc Kr Ke].
  apply parseSnapshot_echo in Kc.
  apply bind_ok in Ha as (? & s1 & H2 & Ha). apply throw_if_ok in H2 as [H2 ->].
  destruct (applyPatches base ps) as [next|] eqn:Hn; [|done].
  destruct (applyPatches_ok ps base next Kc (conj Kr Ke) Hn) as (Np & [Nr Ne] & Nm & Nk).
  apply bind_ok in Ha as (? & s1 & H3 & Ha). apply throw_if_ok in H3 as [H3 ->].
  injection Ha as _ <-. apply set_entry_ok; try done.
  - intros k' f. rewrite assoc_map_set. destruct (decide _) as [->%name_inj|]; [|apply Hok].
    by intros [= <-].
  - intros k' Hne. rewrite assoc_map_set. rewrite decide_False; [done|]. by intros ->%name_inj.
  - constructor; simpl; [done| |done|done]. intros y [= <-]. constructor; simpl in *; try congruence.
    by apply parseSnapshot_echo.
  - intros _. rewrite assoc_map_set, decide_True; done.
Qed.
Lemma markWithout_ok s k st x st' :
  sl_snapshot s = None -> sl_availability s <> ready ->
  sync_ok room r st -> markWithout s k st = (Ok x, st') -> sync_ok room r st'.
Proof.
  intros Hs Hn Hok Ha. apply bind_ok in Ha as (? & s1 & Hk & Ha). apply assertAllowed_ok in Hk as (r' & Hr & Hk & ->).
  destruct (sync_ok_role _ _ _ _ Hok Hr) as [-> Hroom]. injection Ha as _ <-.
  apply set_entry_ok; try done.
  - intros k' f. rewrite assoc_map_delete. case_decide; [done|apply Hok].
  - intros k' Hne. rewrite assoc_map_delete. rewrite decide_False; [done|]. by intros ->%name_inj.
  - constructor; [done|..]; congruence.
Qed.
Lemma keepSnapshot_ok a e k st :
  a <> ready -> a <> not_available_by_policy -> sync_ok room r st -> ps_role st = Some r -> k ∈ keysOf r ->
  sync_ok room r (set_entry (ps_references st) k (Slot a (snapshotOf k st) e) st).
Proof.
  intros Hn1 Hn2 Hok Hr Hk. apply set_entry_ok; try done; [apply Hok|].
  constructor; simpl; [done| |done|done]. unfold snapshotOf. intros y Hy.
  destruct (assoc (name k) (ps_slots st)) as [s|] eqn:Hs; [|done]. simpl in Hy.
  by apply (sl_valid _ _ _ _ (so_slots _ _ _ Hok _ _ Hs)).
Qed.
Lemma mark_ok a e k st x st' :
  a <> ready -> a <> not_available_by_policy -> sync_ok room r st ->
  (_ ← assertAllowed k; modify (fun st => set_entry (ps_references st) k (Slot a (snapshotOf k st) e) st)) st = (Ok x, st') ->
  sync_ok room r st'.
Proof.
  intros Hn1 Hn2 Hok Ha. apply bind_ok in Ha as (? & s1 & Hk & Ha). apply assertAllowed_ok in Hk as (r' & Hr & Hk & ->).
  destruct (sync_ok_role _ _ _ _ Hok Hr) as [-> Hroom]. injection Ha as _ <-. by apply keepSnapshot_ok.
Qed.
Lemma loadingSlots_spec ks m k s :
  assoc k (foldl (fun m k => map_set (name k) loadingSlot m) m ks) = Some s ->
  (exists k', k' ∈ ks /\ k = name k' /\ s = loadingSlot) \/ assoc k m = Some s.
Proof.
  revert m. induction ks as [|k' ks IH]; intros m; simpl; [by right|]. intros Ha.
  destruct (IH _ Ha) as [(k2 & Hk & E & Hs)|Hm]; [left; exists k2; set_solver|].
  rewrite assoc_map_set in Hm. destruct (decide (k = name k')) as [->|]; [|by right].
  injection Hm as <-. left. exists k'. set_solver.
Qed.
Lemma fresh_ok st : ps_allowed st = keysOf r -> ps_role st = Some r -> ps_roomId st = room ->
  sync_ok room r (Sync [] (loadingSlots (ps_allowed st)) (ps_allowed st) (ps_role st) (ps_roomId st)).
Proof.
  intros Ha Hr Hm. constructor; simpl; [done|by left|done|..].
  - intros k s Hs. destruct (loadingSlots_spec _ _ _ _ Hs) as [(k' & Hk & E%name_inj & ->)|]; [|done].
    subst k'. constructor; try done. by rewrite <- Ha.
  - intros k s Hs. destruct (loadingSlots_spec _ _ _ _ Hs) as [(k' & Hk & E & ->)|]; done.
Qed.
Lemma cleared_ok st : ps_allowed st = keysOf r -> sync_ok room r (Sync [] [] (ps_allowed st) None (ps_roomId st)).
Proof. intros Ha. constructor; simpl; try done. by right. Qed.

Lemma forget_ok {A} (m : SYNC A) st :
  sync_ok room r st -> atomic m -> (forall x st', m st = (Ok x, st') -> sync_ok room r st') ->
  sync_ok room r (snd (forget (m st))).
Proof.
  intros Hok Hm Hs. destruct (m st) as [[x|e] st'] eqn:E; simpl; [by eapply Hs|]. by rewrite (Hm _ _ _ E).
Qed.
Lemma perform_ok o st : sync_ok room r st -> sync_ok room r (snd (perform o st)).
Proof.
  intros Hok. destruct o; cbn [perform].
  - apply forget_ok; [done|apply atomic_accept|intros; by eapply accept_ok].
  - apply forget_ok; [done|apply atomic_slot|]. intros x st' Ha.
    apply bind_ok in Ha as (? & s1 & Hk & Ha). apply assertAllowed_ok in Hk as (? & _ & _ & ->).
    rewrite (bind_run _ _ _ st st) in Ha by done. by injection Ha as _ <-.
  - apply forget_ok; [done|apply atomic_replaceSnapshot|intros; by eapply replaceSnapshot_ok].
  - apply forget_ok; [done|apply atomic_applyEchoPatches|intros; by eapply applyEchoPatches_ok].
  - apply forget_ok; [done|apply atomic_markLoading|]. intros x st'. by apply mark_ok.
  - apply forget_ok; [done|apply atomic_markWithout|]. intros x st'. by apply markWithout_ok.
  - apply forget_ok; [done|apply atomic_markWithout|]. intros x st'. by apply markWithout_ok.
  - apply forget_ok; [done|apply atomic_markFailed|]. intros x st'. by apply mark_ok.
  - apply forget_ok; [done|apply atomic_markWithout|]. intros x st'. by apply markWithout_ok.
  - unfold reset. simpl. pose proof (so_keys _ _ _ Hok) as Ha. destruct (so_authority _ _ _ Hok) as [[Hr Hm]|(Hr & _ & _)]; rewrite Hr.
    + rewrite <- Hr. by apply fresh_ok.
    + by apply cleared_ok.
  - unfold clearAuthority. simpl. pose proof (so_keys _ _ _ Hok) as Ha. constructor; simpl; try done. by right.
Qed.
Lemma performs_ok os : forall st, sync_ok room r st -> sync_ok room r (performs st os).
Proof. unfold performs. induction os as [|o os IH]; intros st Hst; [done|]. simpl. by apply IH, perform_ok. Qed.
Lemma cleared_stays os : forall st, ps_role st = None -> sync_ok room r st ->
  let st' := performs st os in ps_role st' = None /\ ps_references st' = [] /\ ps_slots st' = [].
Proof.
  induction os as [|o os IH]; intros st Hn Hok.
  - simpl. destruct (so_authority _ _ _ Hok) as [[Hr _]|(_ & -> & ->)]; [congruence|done].
  - cbn [performs foldl]. apply IH; [|by apply perform_ok].
    assert (forall k, assertAllowed k st = (Err (SyncError "PROJECTION_AUTHORITY_CLEARED"), st)) as Hall.
    { intros k. unfold assertAllowed. rewrite (bind_run _ _ _ st st) by done. by rewrite Hn. }
    destruct o; cbn [perform]; try done;
      unfold accept, slot, replaceSnapshot, applyEchoPatches, markLoading, markPolicyUnavailable, markNotReady,
        markFailed, markAuthorityUnavailable, markWithout, assertFrame;
      repeat rewrite (bind_err _ _ _ _ _ (Hall _)); try done.
    rewrite (bind_err _ _ _ (SyncError "PROJECTION_AUTHORITY_CLEARED") st); [done|].
    by rewrite (bind_err _ _ _ _ _ (Hall _)).
Qed.
End Kept.

(** C36. Whatever is done with the projections of a session, in any order, what is held is
    what the session may see: a reference or a slot is of a surface of its role, points
    into its room, and its snapshot satisfies the contract of that surface and is current;
    a surface withheld by policy holds no snapshot, and one that is ready has a snapshot
    and a reference; an operation that throws has changed nothing; and once the authority
    is cleared nothing is held again. *)
Theorem projections_belong room role os o :
  let st := performs (newProjectionSync room role) os in
  (forall k f, current k st = Some f ->
     k ∈ keysOf role /\ pj_projectionKey f = k /\ pj_roomId f = room /\ pj_snapshotUrl f = analyticsLatest room k)
  /\ (forall k s, assoc (name k) (ps_slots st) = Some s ->
        k ∈ keysOf role
        /\ (forall x, sl_snapshot s = Some x -> snapshot_ok room k x)
        /\ (sl_availability s = not_available_by_policy -> sl_snapshot s = None)
        /\ (sl_availability s = ready -> is_Some (sl_snapshot s) /\ is_Some (current k st)))
  /\ (forall e st', perform o st = (Some e, st') -> st' = st)
  /\ (OClearAuthority ∈ os -> ps_references st = [] /\ ps_slots st = []).
Proof.
  assert (sync_ok room role (newProjectionSync room role)) as H0
    by (apply (fresh_ok room role (newProjectionSync room role)); done).
  intros st. assert (sync_ok room role st) as Hok by (by apply performs_ok). split_and!.
  - intros k f Hf. destruct (so_references _ _ _ Hok _ _ Hf). done.
  - intros k s Hs. destruct (so_slots _ _ _ Hok _ _ Hs) as [Ha Hv Hr Hw]. split_and!; try done.
    intros Hav. split; [by apply Hr|by eapply so_ready].
  - intros e st'. apply perform_atomic.
  - intros Hin. apply list_elem_of_split in Hin as (os1 & os2 & ->). unfold st, performs in *. rewrite foldl_app. simpl.
    fold (performs (newProjectionSync room role) os1).
    apply (cleared_stays room role os2); [done|].
    apply (perform_ok room role OClearAuthority). by apply performs_ok.
Qed.
End SyncSteps.

(** ** Panels that are published together *)

Inductive ProjectionSurface : Type := chatLedger | concept | sna.
#[global] Instance ProjectionSurface_eq_dec : EqDecision ProjectionSurface.
Proof. solve_decision. Defined.
Definition PROJECTION_SURFACES : list ProjectionSurface := [chatLedger; concept; sna].
Definition surfaceText (s : ProjectionSurface) : string :=
  match s with chatLedger => "chatLedger" | concept => "concept" | sna => "sna" end.

Section Coordinator.
Context {V : Type}.

(** [StagedProjection], its numbers as they come and as they are kept. *)
Record Staged : Type := MkStaged { sd_version : Z; sd_cursor : Z; sd_value : V }.
Record CoherentBatch : Type := Batch {
  ba_completeThroughRoomSeq : Z;
  ba_projectionVersions : list (ProjectionSurface * Z);
  ba_unavailableByPolicy : list ProjectionSurface;
  ba_values : ProjectionSurface -> option V;        (** [null] is [None] *)
}.
Record ProjectionCoordinator : Type := Coordinator {
  co_staged : list (string * Staged);
  co_withheld : ProjectionSurface -> bool;          (** [not_available_by_policy] *)
  co_lastPublished : option Z;
  co_published : list CoherentBatch;                (** oldest first *)
}.
Definition newCoordinator : ProjectionCoordinator := Coordinator [] (fun _ => false) None [].

Definition stagedOf (s : ProjectionSurface) (c : ProjectionCoordinator) : option Staged := assoc (surfaceText s) (co_staged c).
Definition enabledSurfaces (c : ProjectionCoordinator) : list ProjectionSurface :=
  List.filter (fun s => negb (co_withheld c s)) PROJECTION_SURFACES.
(** [coherentCursor]. *)
Definition coherentCursor (c : ProjectionCoordinator) : option Z :=
  match enabledSurfaces c with
  | [] => None
  | enabled =>
      staged ← mapM (fun s => stagedOf s c) enabled;
      match staged with
      | [] => None
      | x :: xs => if forallb (fun y => sd_cursor y =? sd_cursor x) xs then Some (sd_cursor x) else None
      end
  end.
Definition batchOf (cursor : Z) (c : ProjectionCoordinator) : CoherentBatch :=
  Batch cursor (omap (fun s => (fun x => (s, sd_version x)) <$> stagedOf s c) PROJECTION_SURFACES)
    (List.filter (co_withheld c) PROJECTION_SURFACES) (fun s => sd_value <$> stagedOf s c).
(** [#publishWhenCoherent]. *)
Definition publishWhenCoherent (c : ProjectionCoordinator) : ProjectionCoordinator :=
  match coherentCursor c with
  | None => c
  | Some cursor =>
      if bool_decide (co_lastPublished c = Some cursor) then c
      else Coordinator (co_staged c) (co_withheld c) (Some cursor) (co_published c ++ [batchOf cursor c])
  end.
Definition setAvailability (s : ProjectionSurface) (withheld : bool) (c : ProjectionCoordinator) : ProjectionCoordinator :=
  publishWhenCoherent
    (Coordinator (if withheld then map_delete (surfaceText s) (co_staged c) else co_staged c)
       (fun s' => if decide (s' = s) then withheld else co_withheld c s') (co_lastPublished c) (co_published c)).
(** [Number.isSafeInteger(n) && n >= 0]. *)
Definition asPlace (n : jsnum) : option Z := z ← asSafeInteger n; if z <? 0 then None else Some z.
Definition stage (s : ProjectionSurface) (version cursor : jsnum) (value : V) (c : ProjectionCoordinator) : ProjectionCoordinator :=
  if co_withheld c s then c
  else match asPlace version, asPlace cursor with
       | Some v, Some n =>
           publishWhenCoherent (Coordinator (map_set (surfaceText s) (MkStaged v n value) (co_staged c))
             (co_withheld c) (co_lastPublished c) (co_published c))
       | _, _ => c
       end.

Inductive coordinator_op : Type :=
| CAvailability (s : ProjectionSurface) (withheld : bool)
| CStage (s : ProjectionSurface) (version cursor : jsnum) (value : V).
Definition coordinate (c : ProjectionCoordinator) (o : coordinator_op) : ProjectionCoordinator :=
  match o with
  | CAvailability s w => setAvailability s w c
  | CStage s v n x => stage s v n x c
  end.
Definition coordinated (os : list coordinator_op) : ProjectionCoordinator := foldl coordinate newCoordinator os.

(** A batch is what is staged: the enabled surfaces all at the room cursor of the batch,
    the withheld ones absent. *)
Record batch_ok (c : ProjectionCoordinator) (b : CoherentBatch) : Prop := {
  bk_some : enabledSurfaces c <> [];
  bk_enabled : forall s, co_withheld c s = false ->
    exists x, stagedOf s c = Some x /\ sd_cursor x = ba_completeThroughRoomSeq b
      /\ (s, sd_version x) ∈ ba_projectionVersions b /\ ba_values b s = Some (sd_value x);
  bk_withheld : forall s, co_withheld c s = true ->
    s ∈ ba_unavailableByPolicy b /\ ba_values b s = None /\ s ∉ map fst (ba_projectionVersions b);
}.
Record coordinator_ok (c : ProjectionCoordinator) : Prop := {
  ck_withheld : forall s, co_withheld c s = true -> stagedOf s c = None;
  ck_last : co_lastPublished c = ba_completeThroughRoomSeq <$> last (co_published c);
  ck_shown : forall n, coherentCursor c = Some n -> co_lastPublished c = Some n;
  ck_distinct : forall l1 a b l2, co_published c = l1 ++ a :: b :: l2 ->
    ba_completeThroughRoomSeq a <> ba_completeThroughRoomSeq b;
}.

Lemma surfaceText_inj s s' : surfaceText s = surfaceText s' -> s = s'.
Proof. by destruct s, s'. Qed.
Lemma PROJECTION_SURFACES_all s : s ∈ PROJECTION_SURFACES.
Proof. destruct s; unfold PROJECTION_SURFACES; set_solver. Qed.
Lemma enabledSurfaces_elem c s : s ∈ enabledSurfaces c <-> co_withheld c s = false.
Proof.
  unfold enabledSurfaces. rewrite list_elem_of_In, filter_In, <- list_elem_of_In, negb_true_iff.
  split; [by intros [_ ?]|]. intros. split; [apply PROJECTION_SURFACES_all|done].
Qed.
Lemma coherentCursor_spec c n :
  coherentCursor c = Some n ->
  enabledSurfaces c <> [] /\ forall s, co_withheld c s = false -> exists x, stagedOf s c = Some x /\ sd_cursor x = n.
Proof.
  unfold coherentCursor. destruct (enabledSurfaces c) as [|e es] eqn:He; [done|].
  destruct (mapM _ (e :: es)) as [staged|] eqn:Hm; [|done]. simpl. destruct staged as [|x xs]; [done|].
  destruct (forallb _ xs) eqn:Hf; [|done]. intros [= <-]. split; [done|]. intros s Hs.
  apply enabledSurfaces_elem in Hs. rewrite He in Hs. apply mapM_Some in Hm.
  apply list_elem_of_lookup in Hs as [i Hi]. destruct (Forall2_lookup_l _ _ _ _ _ Hm Hi) as (y & Hy & Hsy).
  exists y. split; [done|]. destruct i as [|i]; [by injection Hy as ->|]. simpl in Hy.
  rewrite forallb_forall in Hf. apply list_elem_of_lookup_2, list_elem_of_In, Hf in Hy. by apply Z.eqb_eq.
Qed.
Lemma batchOf_ok c n :
  (forall s, co_withheld c s = true -> stagedOf s c = None) -> coherentCursor c = Some n -> batch_ok c (batchOf n c).
Proof.
  intros Hw [Hne Hc]%coherentCursor_spec. constructor; [done|..].
  - intros s Hs. destruct (Hc s Hs) as (x & Hx & Hn). exists x. split_and!; try done.
    + cbn [batchOf ba_projectionVersions]. apply list_elem_of_omap. exists s.
      split; [apply PROJECTION_SURFACES_all|]. by rewrite Hx.
    + simpl. by rewrite Hx.
  - intros s Hs. split_and!.
    + cbn [batchOf ba_unavailableByPolicy]. apply list_elem_of_In, filter_In. split; [apply list_elem_of_In, PROJECTION_SURFACES_all|done].
    + simpl. by rewrite (Hw s Hs).
    + intros ((s' & v) & E & Hin)%list_elem_of_fmap. simpl in E. subst s'. cbn [batchOf ba_projectionVersions] in Hin.
      apply list_elem_of_omap in Hin as (s' & _ & Hx). destruct (stagedOf s' c) eqn:E; [|done]. simpl in Hx.
      injection Hx as -> _. by rewrite (Hw s Hs) in E.
Qed.

Lemma publish_ok c :
  (forall s, co_withheld c s = true -> stagedOf s c = None) ->
  co_lastPublished c = ba_completeThroughRoomSeq <$> last (co_published c) ->
  (forall l1 a b l2, co_published c = l1 ++ a :: b :: l2 -> ba_completeThroughRoomSeq a <> ba_completeThroughRoomSeq b) ->
  coordinator_ok (publishWhenCoherent c)
  /\ (co_published (publishWhenCoherent c) = co_published c
      \/ exists b, co_published (publishWhenCoherent c) = co_published c ++ [b]
           /\ batch_ok (publishWhenCoherent c) b
           /\ coherentCursor c = Some (ba_completeThroughRoomSeq b)
           /\ co_lastPublished c <> Some (ba_completeThroughRoomSeq b)).
Proof.
  intros Hw Hl Hd. unfold publishWhenCoherent. destruct (coherentCursor c) as [n|] eqn:Hc.
  2:{ split; [constructor; try done; congruence|by left]. }
  destruct (bool_decide (co_lastPublished c = Some n)) eqn:Hb; [apply bool_decide_eq_true in Hb|apply bool_decide_eq_false in Hb].
  { split; [constructor; try done; congruence|by left]. }
  split.
  - constructor; simpl.
    + exact Hw.
    + by rewrite last_snoc.
    + intros m Hm. rewrite <- Hm. symmetry. exact Hc.
    + intros l1 a b l2 E. destruct l2 as [|z l2 _] using rev_ind.
      * assert (co_published c = l1 ++ [a] /\ b = batchOf n c) as [E' ->].
        { change [a; b] with ([a] ++ [b]) in E. rewrite app_assoc in E. apply app_inj_tail in E as [-> ->]. done. }
        intros Heq. apply Hb. rewrite Hl, E', last_snoc. simpl. by rewrite Heq.
      * apply (Hd l1 a b l2). change (a :: b :: l2 ++ [z]) with ((a :: b :: l2) ++ [z]) in E.
        rewrite app_assoc in E. by apply app_inj_tail in E as [-> _].
  - right. exists (batchOf n c). split_and!; [done| |done|done].
    destruct (batchOf_ok c n Hw Hc) as [H1 H2 H3]. constructor; [exact H1|exact H2|exact H3].
Qed.
Lemma coordinate_ok c o :
  coordinator_ok c ->
  coordinator_ok (coordinate c o)
  /\ (co_published (coordinate c o) = co_published c
      \/ exists b, co_published (coordinate c o) = co_published c ++ [b]
           /\ batch_ok (coordinate c o) b /\ co_lastPublished c <> Some (ba_completeThroughRoomSeq b)).
Proof.
  intros [Hw Hl Hs Hd]. destruct o as [s w|s v n x]; simpl.
  - unfold setAvailability. match goal with |- context [publishWhenCoherent ?c'] => pose proof (publish_ok c') as HP end.
    simpl in HP. destruct HP as [HP1 HP2]; [|done|done|].
    + intros s'. unfold stagedOf. simpl. destruct (decide (s' = s)) as [->|Hne].
      * intros ->. rewrite assoc_map_delete. by rewrite decide_True.
      * intros Hw'. destruct w; [|by apply Hw]. rewrite assoc_map_delete. case_decide; [done|by apply Hw].
    + split; [done|]. destruct HP2 as [?|(b & ? & ? & ? & ?)]; [by left|right; by exists b].
  - unfold stage. destruct (co_withheld c s) eqn:Hws; [split; [done|by left]|].
    destruct (asPlace v); [|split; [done|by left]]. destruct (asPlace n); [|split; [done|by left]].
    match goal with |- context [publishWhenCoherent ?c'] => pose proof (publish_ok c') as HP end.
    simpl in HP. destruct HP as [HP1 HP2]; [|done|done|].
    + intros s' Hw'. unfold stagedOf. simpl. rewrite assoc_map_set.
      rewrite decide_False; [by apply Hw|]. intros ->%surfaceText_inj. congruence.
    + split; [done|]. destruct HP2 as [?|(b & ? & ? & ? & ?)]; [by left|right; by exists b].
Qed.
Lemma newCoordinator_ok : coordinator_ok newCoordinator.
Proof.
  constructor; try done. intros l1 a b l2 E. by destruct l1.
Qed.
Lemma coordinated_ok os : coordinator_ok (coordinated os).
Proof.
  unfold coordinated. pose proof newCoordinator_ok as H0. revert H0. generalize newCoordinator.
  induction os as [|o os IH]; intros c Hc; [done|]. simpl. apply IH. by apply coordinate_ok.
Qed.

(** The panels are published together or not at all: an operation publishes at most one
    batch; every enabled surface of a batch is staged at the room cursor of the batch and
    is there with its version and its value, a withheld one is named and absent; no two
    batches in a row have the same cursor; and a cursor all enabled surfaces agree on is
    the one published last. *)
Theorem coherent_batches os o :
  let c := coordinated os in
  let c' := coordinate c o in
  (co_published c' = co_published c
   \/ exists b, co_published c' = co_published c ++ [b] /\ batch_ok c' b
        /\ co_lastPublished c <> Some (ba_completeThroughRoomSeq b))
  /\ (forall n, coherentCursor c' = Some n -> (ba_completeThroughRoomSeq <$> last (co_published c')) = Some n)
  /\ (forall l1 a b l2, co_published c' = l1 ++ a :: b :: l2 ->
        ba_completeThroughRoomSeq a <> ba_completeThroughRoomSeq b).
Proof.
  intros c c'. subst c'. destruct (coordinate_ok c o (coordinated_ok os)) as [[Hw Hl Hs Hd] Hp].
  split_and!; [exact Hp| |exact Hd]. intros n Hn. rewrite <- Hl. by apply Hs.
Qed.
End Coordinator.
#[global] Arguments coordinated {V} os : simpl never.

(** The comment on the cursor speaks of one that has not advanced; the code compares for
    equality, and a cursor that goes back is published. *)
Definition stageAll (n : Z) : list (@coordinator_op unit) :=
  map (fun s => CStage s (NInt 1) (NInt n) tt) PROJECTION_SURFACES.
Lemma cursor_goes_back :
  map ba_completeThroughRoomSeq (co_published (coordinated (stageAll 7 ++ stageAll 5))) = [7; 5].
Proof. vm_compute. reflexivity. Qed.
(** A surface that is withheld while the cursor stays is still in the last batch. *)
Lemma withheld_panel_stays :
  let c := coordinated (stageAll 7 ++ [CAvailability concept true]) in
  co_withheld c concept = true /\ ((fun b => ba_values b concept) <$> last (co_published c)) = Some (Some tt).
Proof. vm_compute. done. Qed.

(** ** Asking Nova *)

(** [AgentTriggerController]: the request that is sent, if any. *)
Record AgentTriggerController : Type := Trigger { at_novaActorId : string; at_actorId : string; at_requested : list string }.
Definition shouldTrigger (e : RoomEventEnvelope) (t : AgentTriggerController) : bool :=
  bool_decide (type e = "message.added"%string) && bool_decide (operation e = add)
  && bool_decide (actorKind e = human) && bool_decide (actorRole e = student)
  && bool_decide (actorId e = at_actorId t)
  && match assoc "mentions" (payload e) with
     | Some (JArr l) => existsb (fun m => bool_decide (m = JStr (at_novaActorId t))) l
     | _ => false
     end.
Definition observe (e : RoomEventEnvelope) (t : AgentTriggerController) : option string * AgentTriggerController :=
  if negb (shouldTrigger e t) || bool_decide (eventId e ∈ at_requested t) then (None, t)
  else (Some (eventId e), Trigger (at_novaActorId t) (at_actorId t) (at_requested t ++ [eventId e])).
Fixpoint observeAll (es : list RoomEventEnvelope) (t : AgentTriggerController) : list string * AgentTriggerController :=
  match es with
  | [] => ([], t)
  | e :: es' => let '(r, t) := observe e t in let '(rs, t) := observeAll es' t in (option_list r ++ rs, t)
  end.
Definition requestedEventIds (t : AgentTriggerController) : list string := at_requested t.

(** Every event is asked about once, and only when it is the seat's own committed mention. *)
Lemma observeAll_once es : forall t, NoDup (at_requested t) ->
  let '(rs, t') := observeAll es t in
  at_requested t' = at_requested t ++ rs /\ NoDup (at_requested t')
  /\ Forall (fun id => exists e, e ∈ es /\ eventId e = id /\ shouldTrigger e t = true) rs.
Proof.
  induction es as [|e es IH]; intros t Hnd; simpl; [by rewrite app_nil_r|].
  unfold observe. destruct (negb (shouldTrigger e t)) eqn:Hs; simpl.
  { specialize (IH t Hnd). destruct (observeAll es t) as [rs t']. destruct IH as (Hr & Hn & Hf). split_and!; try done.
    eapply Forall_impl; [exact Hf|]. intros id (e' & Hin & ?). exists e'. split; [by right|done]. }
  apply negb_false_iff in Hs. destruct (bool_decide (eventId e ∈ at_requested t)) eqn:Hd.
  { specialize (IH t Hnd). destruct (observeAll es t) as [rs t']. destruct IH as (Hr & Hn & Hf). split_and!; try done.
    eapply Forall_impl; [exact Hf|]. intros id (e' & Hin & ?). exists e'. split; [by right|done]. }
  apply bool_decide_eq_false in Hd.
  set (t1 := Trigger _ _ _). specialize (IH t1). destruct (observeAll es t1) as [rs t'].
  destruct IH as (Hr & Hn & Hf).
  { simpl. apply NoDup_app. split_and!; [done|set_solver|apply NoDup_singleton]. }
  split_and!; [by rewrite Hr; simpl; rewrite <- app_assoc|done|]. constructor.
  - exists e. split; [left|done].
  - eapply Forall_impl; [exact Hf|]. intros id (e' & Hin & ?). exists e'. split; [by right|done].
Qed.

(** ** Room for attachments *)

(** [MediaSlotReservations]: [run] is cut at its [await]. *)
Record MediaSlotReservations : Type := Slots { ms_max : Z; ms_known : list string; ms_inflight : Z }.
Definition newMediaSlots (max : Z) (initial : list string) : option MediaSlotReservations :=
  if (max <? 1) || (max <? Z.of_nat (length (unique initial))) then None else Some (Slots max (unique initial) 0).
Definition occupied (s : MediaSlotReservations) : Z := Z.of_nat (length (ms_known s)) + ms_inflight s.
Definition removeSlot (mediaId : string) (s : MediaSlotReservations) : MediaSlotReservations :=
  Slots (ms_max s) (List.filter (fun m => negb (bool_decide (m = mediaId))) (ms_known s)) (ms_inflight s).
(** The beginning of [run]: [None] is the limit error. *)
Definition reserve (s : MediaSlotReservations) : option MediaSlotReservations :=
  if ms_max s <=? occupied s then None else Some (Slots (ms_max s) (ms_known s) (ms_inflight s + 1)).
(** Its end, with what the work gave. *)
Definition settle (mediaId : option string) (s : MediaSlotReservations) : bool * MediaSlotReservations :=
  match mediaId with
  | None => (false, Slots (ms_max s) (ms_known s) (ms_inflight s - 1))
  | Some m => if decide (m ∈ ms_known s) then (false, Slots (ms_max s) (ms_known s) (ms_inflight s - 1))
              else (true, Slots (ms_max s) (ms_known s ++ [m]) (ms_inflight s - 1))
  end.
(** A work settles only when it is under way. *)
Inductive slots_step : MediaSlotReservations -> MediaSlotReservations -> Prop :=
| ss_remove m s : slots_step s (removeSlot m s)
| ss_reserve s s' : reserve s = Some s' -> slots_step s s'
| ss_settle m s : 0 < ms_inflight s -> slots_step s (snd (settle m s)).
Record slots_ok (s : MediaSlotReservations) : Prop := {
  sk_inflight : 0 <= ms_inflight s;
  sk_occupied : occupied s <= ms_max s;
  sk_known : NoDup (ms_known s);
}.
Lemma slots_bound s s' : slots_ok s -> slots_step s s' -> slots_ok s'.
Proof.
  intros [Hi Ho Hk] Hs. destruct Hs as [m s|s s' Hr|m s Hp].
  - assert (length (List.filter (fun x => negb (bool_decide (x = m))) (ms_known s)) <= length (ms_known s))%nat as Hlen.
    { clear. induction (ms_known s) as [|x l IH]; simpl; [lia|]. destruct (negb _); simpl; lia. }
    constructor; unfold occupied in *; simpl; [done|lia|].
    eapply sublist_NoDup; [exact Hk|]. clear. induction (ms_known s) as [|x l IH]; simpl; [constructor|].
    destruct (negb _); by constructor.
  - unfold reserve in Hr. destruct (_ <=? _) eqn:E; [done|]. injection Hr as <-. apply Z.leb_gt in E.
    constructor; unfold occupied in *; simpl; [lia|lia|done].
  - destruct m as [m|]; simpl; [destruct (decide (m ∈ ms_known s)) as [|Hn]; simpl|].
    + constructor; unfold occupied in *; simpl; [lia|lia|done].
    + constructor; unfold occupied in *; simpl; [lia|rewrite length_app; simpl; lia|].
      apply NoDup_app. split_and!; [done|set_solver|apply NoDup_singleton].
    + constructor; unfold occupied in *; simpl; [lia|lia|done].
Qed.
