(* ===== verification/Ledger.v ===== *)
(** * The room ledger: [apps/server/src/modules/rooms/room-event-repository.ts]

    A room's events are numbered from 1 without gaps; each append writes the event,
    its outbox entry and its analytics job and advances the room's sequence in one
    transaction; an append whose causation identifier is already in the ledger
    returns the stored event. *)
From S2P Require Import Prelude Text JsDate JsValue Contracts Database Concrete.
#[local] Set Warnings "-register-all,-clear-no-such-hyp,-level-tolerance".

Definition CANONICAL_OUTBOX_TOPIC : string := "learning_orbit.room_event.v1".
Definition DRAFT_KEYS : list string :=
  ["type"; "actorId"; "actorKind"; "actorRole"; "revision"; "operation"; "eventTime";
   "causationId"; "correlationId"; "payload"]%string.

(** ** Reading rows *)

(** A [bigint] as the driver returns it. *)
Definition bigintText (z : Z) : string :=
  if z <? 0 then String "-" (dec_string (- z)) else dec_string z.

(** [Number] of a decimal numeral loses precision beyond 2^53, but then it is not a safe
    integer any more. *)
Definition safePositiveInteger (value : string) (errorCode : string) : result error Z :=
  if negb (isPositiveNumeral value) then Err (Failure errorCode)
  else let parsed := dec_number value in
       if (MAX_SAFE_INTEGER <? parsed) || (parsed <? 1) then Err (Failure errorCode) else Ok parsed.

#[global] Arguments bigintText : simpl never.
#[global] Arguments safePositiveInteger : simpl never.

Definition immutableDraftMatches (stored candidate : RoomEventEnvelope) : bool :=
  bool_decide (type stored = type candidate)
  && bool_decide (actorId stored = actorId candidate)
  && bool_decide (actorKind stored = actorKind candidate)
  && bool_decide (actorRole stored = actorRole candidate)
  && bool_decide (revision stored = revision candidate)
  && bool_decide (operation stored = operation candidate)
  && bool_decide (eventTime stored = eventTime candidate)
  && bool_decide (causationId stored = causationId candidate)
  && bool_decide (correlationId stored = correlationId candidate)
  && deepEqual (JObj (payload stored)) (JObj (payload candidate)).

(** A row of [storedEventSelect]: an event and its outbox row, if it has one. *)
Definition StoredEventRow : Type := event_row * option outbox_row.

Definition INVALID_STORED_ROOM_EVENT : error := Failure "INVALID_STORED_ROOM_EVENT".

(** [isDeepStrictEqual(parsed, relationalEnvelope)]. *)
Definition relationalMatches (p : RoomEventEnvelope) (e : event_row) (seq : Z) : bool :=
  bool_decide (eventId p = ev_event_id e)
  && bool_decide (1 = ev_schema_version e)
  && bool_decide (roomId p = ev_room_id e)
  && bool_decide (roomSeq p = seq)
  && bool_decide (type p = ev_type e)
  && bool_decide (actorId p = ev_actor_id e)
  && bool_decide (actorKind p = ev_actor_kind e)
  && bool_decide (actorRole p = ev_actor_role e)
  && bool_decide (revision p = ev_revision e)
  && bool_decide (operation p = ev_operation e)
  && bool_decide (eventTime p = toISOString (ev_event_time e))
  && bool_decide (ingestTime p = toISOString (ev_ingest_time e))
  && bool_decide (causationId p = ev_causation_id e)
  && bool_decide (correlationId p = ev_correlation_id e)
  && deepEqual (JObj (payload p)) (ev_payload e).

(** The snapshot of the locked room: times as text. *)
Record LockedRoomSnapshot : Type := Snapshot {
  room_id : string;
  nova_actor_id : string;
  teacher_id : string;
  topic : string;
  status : RoomStatus;
  duration_seconds : Z;
  starts_at : option string;
  closes_at : option string;
  closed_at : option string;
  next_room_seq : Z;
  created_at : string;
}.

Definition roomSnapshot (row : room_row) : result error LockedRoomSnapshot :=
  seq ← safePositiveInteger (bigintText (rm_next_room_seq row)) "ROOM_SEQUENCE_OUT_OF_RANGE";
  mret (Snapshot (rm_id row) (rm_nova_actor_id row) (rm_teacher_id row) (rm_topic row) (rm_status row)
    (rm_duration_seconds row) (toISOString <$> rm_starts_at row) (toISOString <$> rm_closes_at row)
    (toISOString <$> rm_closed_at row) seq (toISOString (rm_created_at row))).

(** ** Drafts *)

(** A draft as the services write it. *)
Record RoomEventDraft : Type := Draft {
  d_type : string;
  d_actorId : string;
  d_actorKind : ActorKind;
  d_actorRole : ActorRole;
  d_revision : Z;
  d_operation : EventOperation;
  d_eventTime : Z;
  d_causationId : string;
  d_correlationId : string;
  d_payload : list (string * json);
}.

(** The object literal of a draft: a fresh [Date], the payload's objects and the record. *)
Definition draftObject (d : RoomEventDraft) : heap * jsval :=
  let '(p, (h, n)) := alloc (JObj (d_payload d)) (∅, 1%positive) in
  let date := Object (CDate (Some (d_eventTime d))) OtherPrototype [] in
  let o := recordObject DRAFT_KEYS
    [VStr (d_type d); VStr (d_actorId d); VStr (actorKindText (d_actorKind d));
     VStr (actorRoleText (d_actorRole d)); VNum (NInt (d_revision d)); VStr (operationText (d_operation d));
     VRef n; VStr (d_causationId d); VStr (d_correlationId d); p] in
  (<[Pos.succ n := o]> (<[n := date]> h), VRef (Pos.succ n)).

(** What [#validateDraft] reads of a draft before the server fills in its fields: the
    fields only the schema looks at stay as they are, [JNull] where they are no scalar
    (the schema refuses them all the same). *)
Record ReadDraft : Type := Read {
  rd_type : string;
  rd_actorId : json;
  rd_actorKind : json;
  rd_actorRole : json;
  rd_revision : json;
  rd_operation : json;
  rd_eventTime : Z;
  rd_causationId : json;
  rd_correlationId : json;
  rd_payload : json;
}.

Definition scalarJson (v : jsval) : json :=
  match v with
  | VBool b => JBool b
  | VNum n => JNum n
  | VStr s => JStr s
  | _ => JNull
  end.
Definition property (o : object) (k : string) : jsval :=
  match dataValue (getOwnPropertyDescriptor o (KStr k)) with Some v => v | None => VUndefined end.
Definition validDate (h : heap) (v : jsval) : option Z :=
  match v with
  | VRef l => o ← h !! l; match cls o with CDate t => t | _ => None end
  | _ => None
  end.
Definition draftKeyBad (o : object) (k : jskey) : bool :=
  match k with
  | KSym _ => true
  | KStr s => negb (bool_decide (s ∈ DRAFT_KEYS))
      || bool_decide (dataValue (getOwnPropertyDescriptor o k) = None)
  end.

Definition readDraft (h : heap) (draft : jsval) : result error ReadDraft :=
  match isPlainRecord h draft with
  | None => Err invalidCommand
  | Some o =>
      if negb (bool_decide (length (ownKeys o) = length DRAFT_KEYS)) || existsb (draftKeyBad o) (ownKeys o)
      then Err invalidCommand
      else match property o "type" with
      | VStr type =>
          match clonePlainJson h (property o "payload") with
          | Err _ => Err invalidCommand
          | Ok payload =>
              match validDate h (property o "eventTime") with
              | None => Err invalidCommand
              | Some t =>
                  Ok (Read type (scalarJson (property o "actorId")) (scalarJson (property o "actorKind"))
                    (scalarJson (property o "actorRole")) (scalarJson (property o "revision"))
                    (scalarJson (property o "operation")) t (scalarJson (property o "causationId"))
                    (scalarJson (property o "correlationId")) payload)
              end
          end
      | _ => Err invalidCommand
      end
  end.

(** ** Statements *)

Definition MAX_INT4 : Z := 2147483647.
Definition ANALYTICS_CONSUME : string := "analytics.consume.v1".
Definition ANALYTICS_REPLAY : string := "analytics.replay-room.v1".
Definition isAnalytics (j : job_row) : bool := bool_decide (jb_type j ∈ [ANALYTICS_CONSUME; ANALYTICS_REPLAY]).

Section Statements.
Context `{Schemas} `{Postgres} `{Environment}.

(** The row an [INSERT INTO room_event] writes. *)
Definition eventRow (c : RoomEventEnvelope) : option event_row :=
  eid ← uuid_in (eventId c);
  rid ← uuid_in (roomId c);
  aid ← uuid_in (actorId c);
  et ← timestamptz_in (eventTime c);
  it ← timestamptz_in (ingestTime c);
  caus ← uuid_in (causationId c);
  corr ← uuid_in (correlationId c);
  pl ← jsonb_in (JObj (payload c));
  _ ← guardO (revision c <=? MAX_INT4);
  Some (EventRow eid rid (roomSeq c) 1 (type c) aid (actorKind c) (actorRole c) (revision c)
          (operation c) et it caus corr pl).

Definition roomExists (rid : string) (d : database) : bool :=
  existsb (fun r => bool_decide (rm_id r = rid)) (rooms d).
Definition eventExists (eid : string) (d : database) : bool :=
  existsb (fun e => bool_decide (ev_event_id e = eid)) (events d).
(** Another event with the same identifier, or the same room and sequence or causation. *)
Definition eventClashes (e e' : event_row) : bool :=
  bool_decide (ev_event_id e = ev_event_id e')
  || bool_decide (ev_room_id e = ev_room_id e' /\ ev_room_seq e = ev_room_seq e')
  || bool_decide (ev_room_id e = ev_room_id e' /\ ev_causation_id e = ev_causation_id e').

Definition insertEvent (c : RoomEventEnvelope) (d : database) : option database :=
  e ← eventRow c;
  _ ← guardO (roomExists (ev_room_id e) d && negb (existsb (eventClashes e) (events d)));
  Some (set_events (events d ++ [e]) d).

Definition nextOutboxId (d : database) : Z := 1 + foldr Z.max 0 (map ob_outbox_id (outbox d)).

Definition insertOutbox (now : Z) (c : RoomEventEnvelope) (d : database) : option database :=
  eid ← uuid_in (eventId c);
  rid ← uuid_in (roomId c);
  env ← jsonb_in (envelopeJson c);
  _ ← guardO (eventExists eid d && roomExists rid d
              && negb (existsb (fun o => bool_decide (ob_event_id o = eid)) (outbox d)));
  Some (set_outbox (outbox d ++
    [OutboxRow (nextOutboxId d) eid rid (roomSeq c) CANONICAL_OUTBOX_TOPIC env now now None None 0 None None]) d).

(** The CHECK constraint [worker_job_analytics_order_ck]. *)
Definition analyticsOrderOk (type : string) (seq kind : option Z) : bool :=
  if decide (type = ANALYTICS_CONSUME) then
    match seq, kind with Some s, Some k => (0 <? s) && (k =? 0) | _, _ => false end
  else if decide (type = ANALYTICS_REPLAY) then
    match seq, kind with Some s, Some k => (0 <=? s) && (k =? 1) | _, _ => false end
  else bool_decide (seq = None /\ kind = None).

(** [INSERT INTO worker_job]: a queued job with the defaults of the table. *)
Definition insertJob (jobId type roomId sourceEventId dedupeKey correlationId : string) (p : json)
    (runAfter : Z) (orderSeq orderKind : option Z) (now : Z) (d : database) : option database :=
  rid ← uuid_in roomId;
  src ← uuid_in sourceEventId;
  corr ← uuid_in correlationId;
  pl ← jsonb_in p;
  _ ← guardO (roomExists rid d && eventExists src d && analyticsOrderOk type orderSeq orderKind
              && negb (existsb (fun j => bool_decide (jb_id j = jobId)
                                      || bool_decide (jb_dedupe_key j = dedupeKey)) (jobs d)));
  Some (set_jobs (jobs d ++
    [JobRow jobId type (Some rid) (Some src) dedupeKey corr pl queued 0 5 runAfter 0 None None None None
       now now orderSeq orderKind]) d).

(** [UPDATE classroom_room SET next_room_seq = $2 WHERE room_id = $1 AND next_room_seq = $3]. *)
Definition withNextRoomSeq (n : Z) (r : room_row) : room_row :=
  RoomRow (rm_id r) (rm_nova_actor_id r) (rm_teacher_id r) (rm_topic r) (rm_status r)
    (rm_duration_seconds r) (rm_starts_at r) (rm_closes_at r) (rm_closed_at r) n (rm_created_at r).
Definition atSeq (rid : string) (n : Z) (r : room_row) : bool :=
  bool_decide (rm_id r = rid) && (rm_next_room_seq r =? n).
Definition advanceRoom (rid : string) (n : Z) (d : database) : option database :=
  _ ← guardO (rowCount (select_where (atSeq rid n) (rooms d)) =? 1);
  Some (set_rooms (update_where (atSeq rid n) (withNextRoomSeq (n + 1)) (rooms d)) d).

Definition storedEvents (p : event_row -> bool) (d : database) : list StoredEventRow :=
  map (fun e => (e, find (fun o => bool_decide (ob_event_id o = ev_event_id e)) (outbox d)))
    (select_where p (events d)).
End Statements.

(** ** The repository *)

Section Repository.
Context `{Schemas} `{Postgres} `{Environment}.
Variable payloads : EventPayloadRegistry.

Definition parseStoredEvent (row : StoredEventRow) : result error RoomEventEnvelope :=
  let '(e, o) := row in
  match o with
  | None => Err INVALID_STORED_ROOM_EVENT   (* topic and outbox_room_id are null *)
  | Some o =>
      if negb (bool_decide (ob_topic o = CANONICAL_OUTBOX_TOPIC))
         || negb (bool_decide (ob_room_id o = ev_room_id e))
      then Err INVALID_STORED_ROOM_EVENT else
      roomSeq ← safePositiveInteger (bigintText (ev_room_seq e)) "INVALID_STORED_ROOM_EVENT";
      outboxSeq ← safePositiveInteger (bigintText (ob_room_seq o)) "INVALID_STORED_ROOM_EVENT";
      if negb (outboxSeq =? roomSeq) then Err INVALID_STORED_ROOM_EVENT else
      match parseRoomEventEnvelope (ob_envelope o) with
      | None => Err INVALID_STORED_ROOM_EVENT
      | Some parsed =>
          match assertPayload payloads (type parsed) (JObj (payload parsed)) with
          | Err _ => Err INVALID_STORED_ROOM_EVENT
          | Ok _ =>
              if relationalMatches parsed e roomSeq then Ok parsed else Err INVALID_STORED_ROOM_EVENT
          end
      end
  end.

(** A text parameter compared with a [uuid] column: refused by the server unless it is one. *)
Definition uuidParam (s : string) : IO string :=
  match uuid_in s with Some u => mret u | None => throw (Failure "invalid input syntax for type uuid") end.

Definition findOneByCausation (canonicalRoomId causationId : string) : IO (option RoomEventEnvelope) :=
  throw_if (negb (isUuid causationId)) invalidCommand;;
  caus ← uuidParam causationId;
  rows ← query (storedEvents (fun e =>
    bool_decide (ev_room_id e = canonicalRoomId) && bool_decide (ev_causation_id e = caus)));
  match rows with
  | [] => mret None
  | row :: _ => ev ← lift_result (parseStoredEvent row); mret (Some ev)
  end.

(** [#validateDraft], once the draft has been read. *)
Definition completeDraft (roomId : string) (roomSeq : Z) (rd : ReadDraft) : IO RoomEventEnvelope :=
  now ← clockNow;
  ingestTime ← match now with Some t => mret t | None => throw (Failure "INVALID_CLOCK") end;
  eventId ← randomUUID;
  match parseRoomEventEnvelope (JObj
    [("eventId", JStr eventId); ("schemaVersion", JNum (NInt 1)); ("roomId", JStr roomId);
     ("roomSeq", JNum (NInt roomSeq)); ("type", JStr (rd_type rd)); ("actorId", rd_actorId rd);
     ("actorKind", rd_actorKind rd); ("actorRole", rd_actorRole rd); ("revision", rd_revision rd);
     ("operation", rd_operation rd); ("eventTime", JStr (toISOString (rd_eventTime rd)));
     ("ingestTime", JStr (toISOString ingestTime)); ("causationId", rd_causationId rd);
     ("correlationId", rd_correlationId rd); ("payload", rd_payload rd)]%string) with
  | None => throw invalidCommand
  | Some parsed =>
      match assertPayload payloads (type parsed) (JObj (payload parsed)) with
      | Ok _ => mret parsed
      | Err _ => throw invalidCommand
      end
  end.

Definition validateDraft (roomId : string) (roomSeq : Z) (h : heap) (draft : jsval) : IO RoomEventEnvelope :=
  rd ← lift_result (readDraft h draft);
  completeDraft roomId roomSeq rd.

Definition setNextRoomSeq (n : Z) : IO unit :=
  modify (fun w => set_tx (Locals (tx_now (tx w)) n (operationFailure (tx w))) w).
Definition setFailure (e : option error) : IO unit :=
  modify (fun w => set_tx (Locals (tx_now (tx w)) (nextRoomSeq (tx w)) e) w).

Definition APPEND_FAILED : error := Failure "ROOM_EVENT_APPEND_FAILED".

(** The dedupe key and the payload of the analytics job of an event. *)
Definition consumeKey (roomId : string) (seq : Z) : string :=
  (ANALYTICS_CONSUME ++ ":" ++ roomId ++ ":" ++ dec_string seq)%string.
Definition consumePayload (c : RoomEventEnvelope) : json :=
  JObj [("eventId", JStr (eventId c)); ("roomSeq", JNum (NInt (roomSeq c))); ("eventType", JStr (type c))]%string.

(** The four writes of an append; every failure becomes [ROOM_EVENT_APPEND_FAILED]. *)
Definition writeEvent (canonicalRoomId : string) (seq : Z) (c : RoomEventEnvelope) : IO unit :=
  now ← gets (fun w => tx_now (tx w));
  execute_or APPEND_FAILED (insertEvent c);;
  execute_or APPEND_FAILED (insertOutbox now c);;
  jobId ← randomUUID;
  execute_or APPEND_FAILED (insertJob jobId ANALYTICS_CONSUME (roomId c) (eventId c)
    (consumeKey (roomId c) (roomSeq c)) (correlationId c) (consumePayload c) now
    (Some (roomSeq c)) (Some 0) now);;
  execute_or APPEND_FAILED (advanceRoom canonicalRoomId seq).

Definition appendOne (canonicalRoomId : string) (h : heap) (draft : jsval) : IO RoomEventEnvelope :=
  l ← gets tx;
  match operationFailure l with Some e => throw e | None => mret tt end;;
  candidate ← validateDraft canonicalRoomId (nextRoomSeq l) h draft;
  prior ← findOneByCausation canonicalRoomId (causationId candidate);
  match prior with
  | Some prior =>
      throw_if (negb (immutableDraftMatches prior candidate)) invalidCommand;;
      mret prior
  | None =>
      writeEvent canonicalRoomId (nextRoomSeq l) candidate;;
      setNextRoomSeq (nextRoomSeq l + 1);;
      mret candidate
  end.

(** Operations of a transaction run one after the other; a failure is remembered even
    when [work] swallows it. *)
Definition schedule {A} (operation : IO A) : IO A :=
  try_catch operation (fun e => setFailure (Some e);; throw e).

Record RoomEventTransactionContext : Type := Context {
  room : LockedRoomSnapshot;
  append : RoomEventDraft -> IO RoomEventEnvelope;
  appendObject : heap -> jsval -> IO RoomEventEnvelope;
  findByCausation : string -> IO (option RoomEventEnvelope);
}.

Definition contextOf (snapshot : LockedRoomSnapshot) : RoomEventTransactionContext :=
Context snapshot
  (fun d => let '(h, v) := draftObject d in schedule (appendOne (room_id snapshot) h v))
  (fun h v => schedule (appendOne (room_id snapshot) h v))
  (fun c => schedule (findOneByCausation (room_id snapshot) c)).

Definition deletionActive (rid : string) (d : database) : bool :=
  existsb (fun x => bool_decide (dl_room_id x = Some rid) && negb (bool_decide (dl_status x = d_completed)))
    (deletions d).

(** The body of the transaction: lock, snapshot, run [work], surface its failure or the
    failure of an operation it swallowed. *)
Definition transactBody {T} (roomId : string) (work : RoomEventTransactionContext -> IO T) : IO T :=
  rid ← uuidParam roomId;
  locked ← query (fun d => find (fun r => bool_decide (rm_id r = rid)) (rooms d));
  match locked with
  | None => throw (roomError FORBIDDEN)
  | Some locked =>
      throw_if (negb (isUuid (rm_id locked))) (Failure "INVALID_STORED_ROOM");;
      active ← query (deletionActive (rm_id locked));
      throw_if active (roomError ROOM_DELETION_IN_PROGRESS);;
      snapshot ← lift_result (roomSnapshot locked);
      setNextRoomSeq (next_room_seq snapshot);;
      setFailure None;;
      value ← work (contextOf snapshot);
      l ← gets tx;
      match operationFailure l with Some e => throw e | None => mret value end
  end.

Definition transact {T} (roomId : string) (work : RoomEventTransactionContext -> IO T) : IO T :=
  throw_if (negb (isUuid roomId)) (roomError FORBIDDEN);;
  inTransaction (transactBody roomId work).

(** [eventsAfter], whose parameters are JavaScript numbers. *)
Definition byRoomSeq (a b : event_row) : bool := ev_room_seq a <=? ev_room_seq b.
Definition selectAfter (rid : string) (afterSeq limit : Z) (d : database) : list StoredEventRow :=
  map (fun e => (e, find (fun o => bool_decide (ob_event_id o = ev_event_id e)) (outbox d)))
    (take (Z.to_nat limit) (sort_by byRoomSeq
      (select_where (fun e => bool_decide (ev_room_id e = rid) && (afterSeq <? ev_room_seq e)) (events d)))).
Definition eventsAfter (roomId : string) (afterSeq limit : jsnum) : IO (list RoomEventEnvelope) :=
  match asSafeInteger afterSeq, asSafeInteger limit with
  | Some after, Some lim =>
      throw_if (negb (isUuid roomId) || (after <? 0) || (lim <? 1) || (500 <? lim)) invalidCommand;;
      rid ← uuidParam roomId;
      rows ← query (selectAfter rid after lim);
      mapM (fun row => lift_result (parseStoredEvent row)) rows
  | _, _ => throw invalidCommand
  end.
End Repository.

#[global] Arguments parseStoredEvent : simpl never.

Section Parameters.
Context `{Postgres} `{Environment}.

Lemma uuidParam_ok s w u w' : uuidParam s w = (Ok u, w') -> uuid_in s = Some u /\ w' = w.
Proof. unfold uuidParam. destruct (uuid_in s); intros Hm; by run_ok. Qed.
Lemma validNow_ok w t w' :
  validNow w = (Ok t, w') -> clock_now (ticks w) = Some t /\ w' = World (db w) (S (ticks w)) (txs w) (uuids w) (tx w).
Proof.
  unfold validNow. intros (o & s & Hc & Hm)%bind_ok. unfold clockNow in Hc. simplify_eq.
  destruct (clock_now (ticks w)); by run_ok.
Qed.
Lemma uuidParam_readonly s : readonly (uuidParam s).
Proof. unfold uuidParam. destruct (uuid_in s); [apply readonly_ret|apply readonly_throw]. Qed.
Lemma query_readonly {A} (f : database -> A) : readonly (query f).
Proof. by intros w r w' [= <- <-]. Qed.
Lemma mapM_uuidParam l w us w' : mapM uuidParam l w = (Ok us, w') -> mapM uuid_in l = Some us /\ w' = w.
Proof.
  revert us. induction l as [|x l IH]; intros us Hm; [unfold mret, M_ret in Hm; simpl in Hm; by injection Hm as <- <-|].
  apply mapM_cons_ok in Hm as (y & w1 & ys & Hy & Hl & ->). apply uuidParam_ok in Hy as [Hy ->]. simpl.
  rewrite Hy. simpl. by destruct (IH _ Hl) as [-> ->].
Qed.
End Parameters.
#[export] Hint Resolve uuidParam_readonly query_readonly : atomic.

(** ** Laws of the rows *)

Lemma safePositiveInteger_bigint z e n :
  safePositiveInteger (bigintText z) e = Ok n <-> n = z /\ 1 <= z <= MAX_SAFE_INTEGER.
Proof.
  unfold safePositiveInteger, bigintText. destruct (Z.ltb_spec z 0).
  { simpl. split; [done|lia]. }
  destruct (decide (z = 0)) as [->|].
  { simpl. split; [done|lia]. }
  rewrite dec_string_positive, dec_string_number by lia. simpl.
  destruct (Z.ltb_spec MAX_SAFE_INTEGER z), (Z.ltb_spec z 1); simpl; try (split; [done|lia]).
  split; [intros [= <-]; lia|intros [-> _]; done].
Qed.

Lemma roomSnapshot_ok row s :
  roomSnapshot row = Ok s <->
  1 <= rm_next_room_seq row <= MAX_SAFE_INTEGER /\
  s = Snapshot (rm_id row) (rm_nova_actor_id row) (rm_teacher_id row) (rm_topic row) (rm_status row)
    (rm_duration_seconds row) (toISOString <$> rm_starts_at row) (toISOString <$> rm_closes_at row)
    (toISOString <$> rm_closed_at row) (rm_next_room_seq row) (toISOString (rm_created_at row)).
Proof.
  unfold roomSnapshot.
  destruct (safePositiveInteger _ _) as [n|e] eqn:E0; simpl.
  - apply safePositiveInteger_bigint in E0 as [-> ?]. unfold mret, result_ret. naive_solver.
  - split; [done|]. intros [Hb _].
    rewrite (proj2 (safePositiveInteger_bigint _ _ (rm_next_room_seq row))) in E0; done.
Qed.

(** ** Drafts written by the services *)

Definition readOf (d : RoomEventDraft) : ReadDraft :=
  Read (d_type d) (JStr (d_actorId d)) (JStr (actorKindText (d_actorKind d)))
    (JStr (actorRoleText (d_actorRole d))) (JNum (NInt (d_revision d)))
    (JStr (operationText (d_operation d))) (d_eventTime d) (JStr (d_causationId d))
    (JStr (d_correlationId d)) (JObj (d_payload d)).

(** The literal of a draft whose payload is within the limits is read as it is. *)
Lemma readDraft_literal d h v :
  within_limits (JObj (d_payload d)) = true -> json_wf (JObj (d_payload d)) ->
  draftObject d = (h, v) -> readDraft h v = Ok (readOf d).
Proof.
  intros Hlim Hwf. unfold draftObject.
  destruct (alloc (JObj (d_payload d)) (∅, 1%positive)) as [p [h0 n]] eqn:Hal. intros [= <- <-].
  destruct (clone_literal _ (∅, 1%positive) _ _ Hlim Hwf ltac:(intros ? _; apply lookup_empty) Hal) as (Hc & Hf & _). simpl in Hc, Hf.
  assert (forall o1 o2, clonePlainJson (<[Pos.succ n := o1]> (<[n := o2]> h0)) p = Ok (JObj (d_payload d))) as Hc'.
  { intros o1 o2. eapply clonePlainJson_weaken; [|exact Hc].
    transitivity (<[n := o2]> h0); apply insert_subseteq; [apply Hf; lia|].
    rewrite lookup_insert_ne by lia. apply Hf. lia. }
  unfold readDraft, isPlainRecord. rewrite lookup_insert_eq. simpl.
  rewrite Hc'. simpl. rewrite lookup_insert_ne, lookup_insert_eq by lia. done.
Qed.

(** ** The invariant *)

(** What of the database the ledger's invariant is about. *)
Record ledger_view : Type := View {
  v_rooms : list (string * Z);
  v_events : list event_row;
  v_outbox : list (string * string * Z);
  v_jobs : list (string * string * string * (option string * option string * option Z));
}.
Definition outboxKey (o : outbox_row) : string * string * Z := (ob_event_id o, ob_room_id o, ob_room_seq o).
Definition eventKey (e : event_row) : string * string * Z := (ev_event_id e, ev_room_id e, ev_room_seq e).
Definition jobView (j : job_row) : string * string * string * (option string * option string * option Z) :=
  (jb_id j, jb_type j, jb_dedupe_key j, (jb_source_event_id j, jb_room_id j, jb_order_seq j)).
Definition view (d : database) : ledger_view :=
  View (map (fun r => (rm_id r, rm_next_room_seq r)) (rooms d)) (events d)
    (map outboxKey (outbox d)) (map jobView (jobs d)).

Definition ofRoom (rid : string) (e : event_row) : bool := bool_decide (ev_room_id e = rid).
(** The sequence numbers of a room, in the order of insertion. *)
Definition roomSeqs (rid : string) (es : list event_row) : list Z :=
  map ev_room_seq (select_where (ofRoom rid) es).
Definition isConsume (j : string * string * string * (option string * option string * option Z)) : bool :=
  bool_decide (snd (fst (fst j)) = ANALYTICS_CONSUME).

Section Invariant.
Context `{Postgres}.

Definition canonical (s : string) : Prop := uuid_in s = Some s.

(** One room of the ledger: its events are numbered 1 to [n], its row says [n + 1]. *)
Definition room_numbered (v : ledger_view) (r : string * Z) : Prop :=
  canonical (fst r) /\
  exists n : nat, roomSeqs (fst r) (v_events v) = seqFrom 1 n /\ snd r = Z.of_nat n + 1.

Record view_ok (v : ledger_view) : Prop := {
  lk_rooms : NoDup (map fst (v_rooms v));
  lk_numbered : Forall (room_numbered v) (v_rooms v);
  lk_event_rooms : Forall (fun e => ev_room_id e ∈ map fst (v_rooms v)) (v_events v);
  lk_event_ids : NoDup (map ev_event_id (v_events v));
  lk_causation : NoDup (map (fun e => (ev_room_id e, ev_causation_id e)) (v_events v));
  lk_outbox : v_outbox v = map eventKey (v_events v);
  lk_jobs : map snd (select_where isConsume (v_jobs v))
            = map (fun e => (Some (ev_event_id e), Some (ev_room_id e), Some (ev_room_seq e))) (v_events v);
  lk_job_ids : NoDup (map (fun j => fst (fst (fst j))) (v_jobs v));
  lk_dedupe : NoDup (map (fun j => snd (fst j)) (v_jobs v));
}.

(** The ledger is sound: each room's events are numbered without gaps from 1, the row
    of the room holds the next number, identifiers and causations are unique, and each
    event has exactly one outbox entry and one analytics job. *)
Definition ledger_ok (d : database) : Prop := view_ok (view d).

(** The invariant inside a transaction: broken only when a failure is recorded. *)
Definition ledger_inv (w : world) : Prop := operationFailure (tx w) = None -> ledger_ok (db w).
End Invariant.

(** A room's snapshot is taken from a row of the ledger. *)
Lemma select_where_elem {A} (p : A -> bool) (l : list A) x : x ∈ select_where p l <-> x ∈ l /\ p x = true.
Proof. unfold select_where. rewrite !list_elem_of_In, filter_In. done. Qed.
Lemma select_where_app {A} (p : A -> bool) (a b : list A) :
  select_where p (a ++ b) = select_where p a ++ select_where p b.
Proof. apply List.filter_app. Qed.
Lemma select_where_map {A B} (f : A -> B) (p : B -> bool) (l : list A) :
  select_where p (map f l) = map f (select_where (fun x => p (f x)) l).
Proof. induction l as [|x l IH]; simpl; [done|]. destruct (p (f x)); simpl; by rewrite IH. Qed.
Lemma update_where_map {A B} (g : A -> B) (p : A -> bool) (f : A -> A) (l : list A) :
  (forall x, p x = true -> g (f x) = g x) -> map g (update_where p f l) = map g l.
Proof.
  intros Hg. unfold update_where. rewrite map_map. apply map_ext. intros x.
  destruct (p x) eqn:E; [by apply Hg|done].
Qed.
Lemma existsb_bool_decide_false {A B} `{EqDecision B} (f : A -> B) l b :
  existsb (fun x => bool_decide (f x = b)) l = false -> b ∉ map f l.
Proof.
  intros Hex (x & -> & Hx)%list_elem_of_fmap_1. apply not_true_iff_false in Hex. apply Hex.
  apply existsb_exists. exists x. split; [by apply list_elem_of_In|]. by apply bool_decide_eq_true.
Qed.

Lemma roomSeqs_snoc rid es e :
  roomSeqs rid (es ++ [e]) = roomSeqs rid es ++ (if ofRoom rid e then [ev_room_seq e] else []).
Proof.
  unfold roomSeqs. rewrite select_where_app, map_app. f_equal. simpl. by destruct (ofRoom rid e).
Qed.

Section ViewAppend.
Context `{Postgres}.

Definition advanceView (rid : string) (seq : Z) (r : string * Z) : string * Z :=
  if bool_decide (fst r = rid) && (snd r =? seq) then (fst r, seq + 1) else r.

Definition appendView (e : event_row) (jobId dedupe : string) (v : ledger_view) : ledger_view :=
  View (map (advanceView (ev_room_id e) (ev_room_seq e)) (v_rooms v)) (v_events v ++ [e])
    (v_outbox v ++ [eventKey e])
    (v_jobs v ++ [(jobId, ANALYTICS_CONSUME, dedupe,
                   (Some (ev_event_id e), Some (ev_room_id e), Some (ev_room_seq e)))]).

Lemma advanceView_fst rid seq l : map fst (map (advanceView rid seq) l) = map fst l.
Proof. rewrite map_map. apply map_ext. intros r. unfold advanceView. by destruct (_ && _). Qed.

Lemma numbered_advance v e r :
  NoDup (map fst (v_rooms v)) -> (ev_room_id e, ev_room_seq e) ∈ v_rooms v -> r ∈ v_rooms v ->
  room_numbered v r ->
  room_numbered (appendView e "" "" v) (advanceView (ev_room_id e) (ev_room_seq e) r).
Proof.
  intros Hnd He Hr [Hc (n & Hn & Hnext)].
  assert (fst (advanceView (ev_room_id e) (ev_room_seq e) r) = fst r) as Hfst
    by (unfold advanceView; by destruct (_ && _)).
  unfold room_numbered. rewrite Hfst. split; [done|]. simpl. rewrite roomSeqs_snoc, Hn. unfold ofRoom.
  destruct r as [rid next]. simpl in *. unfold advanceView. simpl.
  destruct (decide (rid = ev_room_id e)) as [->|Hne].
  - assert (next = ev_room_seq e) as ->.
    { apply elem_assoc in He, Hr; try done. congruence. }
    rewrite !bool_decide_true by done. rewrite Z.eqb_refl. simpl. exists (S n).
    rewrite seqFrom_snoc, Hnext. split; [do 2 f_equal; lia|lia].
  - rewrite !bool_decide_false by congruence. simpl. exists n. by rewrite app_nil_r.
Qed.

Lemma view_ok_append v e jobId dedupe :
  view_ok v -> (ev_room_id e, ev_room_seq e) ∈ v_rooms v ->
  existsb (eventClashes e) (v_events v) = false ->
  jobId ∉ map (fun j => fst (fst (fst j))) (v_jobs v) ->
  dedupe ∉ map (fun j => snd (fst j)) (v_jobs v) ->
  view_ok (appendView e jobId dedupe v).
Proof.
  intros [Hrooms Hnum Her Hids Hcaus Hout Hjobs Hjids Hded] He Hclash Hj Hd.
  assert (forall e', e' ∈ v_events v -> eventClashes e e' = false) as Hno.
  { intros e' Hin. apply not_true_is_false. intros Ht. apply not_true_iff_false in Hclash. apply Hclash.
    apply existsb_exists. exists e'. by rewrite <- list_elem_of_In. }
  constructor; simpl.
  - by rewrite advanceView_fst.
  - apply Forall_map. rewrite Forall_forall in *. intros r Hr. simpl.
    apply (numbered_advance v e r Hrooms He Hr (Hnum r Hr)).
  - rewrite advanceView_fst. apply Forall_app. split; [done|]. constructor; [|done].
    by apply (list_elem_of_fmap_2 fst _ (ev_room_id e, ev_room_seq e)).
  - rewrite map_app. apply NoDup_app. split_and!; [done| |apply NoDup_singleton].
    intros x (e' & -> & Hin)%list_elem_of_fmap_1 Heq%list_elem_of_singleton.
    apply Hno in Hin. unfold eventClashes in Hin. split_bools. congruence.
  - rewrite map_app. apply NoDup_app. split_and!; [done| |apply NoDup_singleton].
    intros x (e' & -> & Hin)%list_elem_of_fmap_1 Heq%list_elem_of_singleton.
    apply Hno in Hin. unfold eventClashes in Hin. split_bools. simplify_eq. naive_solver.
  - by rewrite map_app, Hout.
  - rewrite select_where_app, !map_app, Hjobs. done.
  - rewrite map_app. apply NoDup_app. split_and!; [done| |apply NoDup_singleton].
    intros x Hin Heq%list_elem_of_singleton. simpl in Heq. by subst.
  - rewrite map_app. apply NoDup_app. split_and!; [done| |apply NoDup_singleton].
    intros x Hin Heq%list_elem_of_singleton. simpl in Heq. by subst.
Qed.
End ViewAppend.

Lemma execute_or_ok e f w u w' :
  execute_or e f w = (Ok u, w') <-> exists d, f (db w) = Some d /\ w' = set_db d w.
Proof. unfold execute_or. destruct (f (db w)), u; naive_solver. Qed.

Section Write.
Context `{Schemas} `{Postgres} `{Environment}.

(** The rows an append writes. *)
Definition outboxRow (id now : Z) (eid rid : string) (c : RoomEventEnvelope) (env : json) : outbox_row :=
  OutboxRow id eid rid (roomSeq c) CANONICAL_OUTBOX_TOPIC env now now None None 0 None None.
Definition consumeRow (jobId : string) (now : Z) (e : event_row) (c : RoomEventEnvelope) (corr : string)
    (pl : json) : job_row :=
  JobRow jobId ANALYTICS_CONSUME (Some (ev_room_id e)) (Some (ev_event_id e))
    (consumeKey (roomId c) (roomSeq c)) corr pl queued 0 5 now 0 None None None None
    now now (Some (roomSeq c)) (Some 0).

(** What a successful append of [c] does: the four writes, and why they were allowed. *)
Record written (rid : string) (seq : Z) (c : RoomEventEnvelope) (w w' : world)
    (e : event_row) (env : json) (j : job_row) : Prop := {
  wr_row : eventRow c = Some e;
  wr_env : jsonb_in (envelopeJson c) = Some env;
  wr_job : exists corr pl, uuid_in (correlationId c) = Some corr /\ jsonb_in (consumePayload c) = Some pl
     /\ j = consumeRow (uuid_supply (uuids w)) (tx_now (tx w)) e c corr pl;
  wr_clash : existsb (eventClashes e) (events (db w)) = false;
  wr_job_new : existsb (fun x => bool_decide (jb_id x = jb_id j)
                 || bool_decide (jb_dedupe_key x = jb_dedupe_key j)) (jobs (db w)) = false;
  wr_room : rowCount (select_where (atSeq rid seq) (rooms (db w))) = 1;
  wr_outbox_new : existsb (fun o => bool_decide (ob_event_id o = ev_event_id e)) (outbox (db w)) = false;
  wr_world : w' = World
    (Database (update_where (atSeq rid seq) (withNextRoomSeq (seq + 1)) (rooms (db w)))
      (events (db w) ++ [e])
      (outbox (db w) ++ [outboxRow (nextOutboxId (db w)) (tx_now (tx w)) (ev_event_id e) (ev_room_id e) c env])
      (jobs (db w) ++ [j]) (completions (db w)) (sessions (db w)) (members (db w)) (deletions (db w))
      (media_assets (db w)) (media_bindings (db w)) (accounts (db w)))
    (ticks w) (txs w) (S (uuids w)) (tx w);
}.

Lemma eventRow_fields c e :
  eventRow c = Some e ->
  uuid_in (eventId c) = Some (ev_event_id e) /\ uuid_in (roomId c) = Some (ev_room_id e)
  /\ uuid_in (causationId c) = Some (ev_causation_id e) /\ ev_room_seq e = roomSeq c.
Proof.
  unfold eventRow. intros Hr.
  repeat (apply bind_Some in Hr; destruct Hr as (? & ? & Hr)). by simplify_eq.
Qed.

Lemma writeEvent_ok rid seq c w u w' :
  writeEvent rid seq c w = (Ok u, w') -> exists e env j, written rid seq c w w' e env j.
Proof.
  unfold writeEvent. intros Hw. run_ok.
  repeat match goal with H : execute_or _ _ _ = (Ok _, _) |- _ =>
    apply execute_or_ok in H; destruct H as (? & H & ->) end.
  unfold randomUUID in *. simplify_eq. simpl in *.
  repeat match goal with
  | H : insertEvent _ _ = Some _ |- _ => unfold insertEvent in H
  | H : insertOutbox _ _ _ = Some _ |- _ => unfold insertOutbox in H
  | H : insertJob _ _ _ _ _ _ _ _ _ _ _ _ = Some _ |- _ => unfold insertJob in H
  | H : advanceRoom _ _ _ = Some _ |- _ => unfold advanceRoom in H
  | H : (_ ≫= _) = Some _ |- _ => apply bind_Some in H; destruct H as (? & ? & H)
  end.
  rewrite guardO_Some in *. split_bools. simplify_eq.
  match goal with H : eventRow c = Some ?e |- _ =>
    destruct (eventRow_fields _ _ H) as (Heid & Hrid & Hcaus & Hseq) end.
  simplify_eq. do 3 eexists. constructor; simpl in *; try eassumption; try done.
  all: first [ match goal with H : _ = false |- _ => exact H end | by apply Z.eqb_eq | by eauto ].
Qed.
End Write.

Section Operations.
Context `{Schemas} `{Postgres} `{Environment}.
Variable payloads : EventPayloadRegistry.

(** The database, the clock of the transaction and the locals are as before. *)
Definition same_db (w w' : world) : Prop := db w' = db w /\ tx w' = tx w.

(** What [#validateDraft] returns. *)
Record completed (rid : string) (seq : Z) (rd : ReadDraft) (w : world) (c : RoomEventEnvelope) : Prop := {
  cd_ok : envelope_ok c;
  cd_roomId : roomId c = rid;
  cd_roomSeq : roomSeq c = seq;
  cd_eventId : eventId c = uuid_supply (uuids w);
  cd_type : type c = rd_type rd;
  cd_actorId : rd_actorId rd = JStr (actorId c);
  cd_actorKind : rd_actorKind rd = JStr (actorKindText (actorKind c));
  cd_actorRole : rd_actorRole rd = JStr (actorRoleText (actorRole c));
  cd_revision : rd_revision rd = JNum (NInt (revision c));
  cd_operation : rd_operation rd = JStr (operationText (operation c));
  cd_eventTime : eventTime c = toISOString (rd_eventTime rd);
  cd_ingestTime : exists t, clock_now (ticks w) = Some t /\ ingestTime c = toISOString t;
  cd_causationId : rd_causationId rd = JStr (causationId c);
  cd_correlationId : rd_correlationId rd = JStr (correlationId c);
  cd_payload : rd_payload rd = JObj (payload c);
  cd_assert : assertPayload payloads (type c) (JObj (payload c)) = Ok tt;
}.

Lemma completeDraft_ok rid seq rd w c w' :
  completeDraft payloads rid seq rd w = (Ok c, w') ->
  completed rid seq rd w c /\ w' = World (db w) (S (ticks w)) (txs w) (S (uuids w)) (tx w).
Proof.
  unfold completeDraft, clockNow, randomUUID. intros Hc.
  apply bind_ok in Hc as (now & s1 & [= <- <-] & Hc). apply bind_ok in Hc as (t & s2 & Ht & Hc).
  destruct (clock_now (ticks w)) as [t'|] eqn:Hclock; run_ok.
  match type of Hc with context [parseRoomEventEnvelope ?j] => destruct (parseRoomEventEnvelope j) as [p|] eqn:Hp end;
    [|by unfold throw in Hc; simplify_eq].
  destruct (assertPayload payloads (type p) (JObj (payload p))) as [[]|] eqn:Ha; run_ok.
  split; [|done]. pose proof (parse_ok _ _ Hp) as Hok. apply parse_parsed_from in Hp as [].
  simpl in *. simplify_eq. constructor; eauto.
Qed.

Lemma completeDraft_same rid seq rd w r w' : completeDraft payloads rid seq rd w = (r, w') -> same_db w w'.
Proof.
  unfold completeDraft, clockNow, randomUUID, mbind, M_bind. simpl.
  destruct (clock_now (ticks w)); simpl; [|by intros [= <- <-]].
  case_match; [case_match|]; by intros [= <- <-].
Qed.

Lemma readonly_mapM_lift {A B} (f : A -> result error B) l (w : world) r w' :
  mapM (fun x => lift_result (f x) : IO B) l w = (r, w') -> w' = w.
Proof.
  revert r. induction l as [|x l IH]; simpl; intros r; [by intros [= <- <-]|].
  unfold mbind, M_bind, lift_result in *. destruct (f x); [|by intros [= <- <-]].
  destruct (mapM (M:=IO) _ l w) as [[ys|e] w1]; intros [= <- <-]; eauto.
Qed.

Lemma find_readonly rid c w r w' : findOneByCausation payloads rid c w = (r, w') -> w' = w.
Proof.
  unfold findOneByCausation, throw_if, uuidParam, throw, mbind, M_bind, mret, M_ret, query, gets, lift_result.
  destruct (negb _); [by intros [= <- <-]|]. destruct (uuid_in c); [|by intros [= <- <-]].
  destruct (storedEvents _ _); [by intros [= <- <-]|]. destruct (parseStoredEvent _ _); by intros [= <- <-].
Qed.

Lemma eventsAfter_readonly rid a l w r w' : eventsAfter payloads rid a l w = (r, w') -> w' = w.
Proof.
  unfold eventsAfter, throw_if, uuidParam, throw, mbind, M_bind, mret, M_ret, query, gets.
  destruct (asSafeInteger a); [|by intros [= <- <-]]. destruct (asSafeInteger l); [|by intros [= <- <-]].
  destruct (_ || _); [by intros [= <- <-]|]. destruct (uuid_in rid); [|by intros [= <- <-]].
  apply readonly_mapM_lift.
Qed.

Lemma written_view rid seq c w w' e env j :
  canonical rid -> roomId c = rid -> roomSeq c = seq -> written rid seq c w w' e env j ->
  view (db w') = appendView e (jb_id j) (jb_dedupe_key j) (view (db w))
  /\ ev_room_id e = rid /\ ev_room_seq e = seq /\ tx w' = tx w.
Proof.
  intros Hcan Hrid Hseq [Hrow _ (corr & pl & _ & _ & Hj) _ _ _ _ ->].
  destruct (eventRow_fields _ _ Hrow) as (_ & Her & _ & Hes). unfold canonical in Hcan.
  rewrite Hrid, Hcan in Her. injection Her as Her. rewrite Hseq in Hes. split; [|done].
  unfold view, appendView. simpl. rewrite !map_app, <- Her, Hes. f_equal.
  - unfold update_where. rewrite !map_map. apply map_ext. intros r. unfold advanceView, atSeq. simpl.
    by destruct (_ && _).
  - simpl. unfold outboxKey, eventKey, outboxRow. simpl. congruence.
  - simpl. rewrite Hj. unfold jobView, consumeRow. simpl. congruence.
Qed.

Lemma written_ledger rid seq c w w' e env j :
  canonical rid -> roomId c = rid -> roomSeq c = seq -> written rid seq c w w' e env j ->
  ledger_ok (db w) -> ledger_ok (db w').
Proof.
  intros Hcan Hrid Hseq Hwr Hok. destruct (written_view _ _ _ _ _ _ _ _ Hcan Hrid Hseq Hwr) as (Hv & Her & Hes & _).
  unfold ledger_ok in *. rewrite Hv. destruct Hwr as [_ _ _ Hclash Hnew Hroom _ _].
  apply view_ok_append; [done| |done| |].
  - rewrite Her, Hes. simpl.
    assert (exists r, r ∈ select_where (atSeq rid seq) (rooms (db w))) as (r & Hr).
    { destruct (select_where _ _) as [|r l]; [done|]. exists r. by left. }
    apply select_where_elem in Hr as [Hr Hat]. unfold atSeq in Hat. split_bools.
    apply Z.eqb_eq in H3 as Hnext. rewrite <- H2, <- Hnext. by apply (list_elem_of_fmap_2 (fun r => (rm_id r, rm_next_room_seq r))).
  - simpl. rewrite map_map. simpl. intros Hin. apply not_true_iff_false in Hnew. apply Hnew.
    apply list_elem_of_fmap_1 in Hin as (x & Hx & Hin). apply existsb_exists. exists x.
    rewrite <- list_elem_of_In. split; [done|]. by rewrite (bool_decide_true _ (eq_sym Hx)).
  - simpl. rewrite map_map. simpl. intros Hin. apply not_true_iff_false in Hnew. apply Hnew.
    apply list_elem_of_fmap_1 in Hin as (x & Hx & Hin). apply existsb_exists. exists x.
    rewrite <- list_elem_of_In. split; [done|]. rewrite (bool_decide_true _ (eq_sym Hx)). apply orb_true_r.
Qed.

(** What an append that ends normally returned: the stored event of the causation, or
    the candidate it wrote. *)
Lemma appendOne_ok rid h v w c w' :
  appendOne payloads rid h v w = (Ok c, w') ->
  operationFailure (tx w) = None /\
  exists rd cand w1,
    readDraft h v = Ok rd /\ completed rid (nextRoomSeq (tx w)) rd w cand
    /\ w1 = World (db w) (S (ticks w)) (txs w) (S (uuids w)) (tx w) /\
    ((findOneByCausation payloads rid (causationId cand) w1 = (Ok (Some c), w1)
        /\ immutableDraftMatches c cand = true /\ w' = w1) \/
     (c = cand /\ findOneByCausation payloads rid (causationId cand) w1 = (Ok None, w1)
        /\ exists w2, writeEvent rid (nextRoomSeq (tx w)) cand w1 = (Ok tt, w2)
           /\ w' = set_tx (Locals (tx_now (tx w2)) (nextRoomSeq (tx w) + 1) (operationFailure (tx w2))) w2)).
Proof.
  unfold appendOne. intros Ha. apply bind_ok in Ha as (l & s1 & [= <- <-] & Ha).
  apply bind_ok in Ha as (u & s2 & Hf & Ha).
  destruct (operationFailure (tx w)) eqn:Hfail; run_ok. split; [done|].
  unfold validateDraft in *. run_ok.
  match goal with H : completeDraft _ _ _ _ _ = _ |- _ =>
    apply completeDraft_ok in H as [Hcd ->] end.
  match goal with H : findOneByCausation _ _ _ _ = _ |- _ =>
    pose proof (find_readonly _ _ _ _ _ H); subst; rename H into Hfind end.
  do 3 eexists. split; [done|]. split; [exact Hcd|]. split; [done|].
  match type of Hfind with _ = (Ok ?o, _) => destruct o as [prior|] end; run_ok.
  - left. split_bools. done.
  - right. unfold setNextRoomSeq in *. run_ok. split_and!; [done|done|]. eexists. split; [|done].
    match goal with H : writeEvent _ _ _ _ = (Ok ?u, _) |- _ => by destruct u end.
Qed.

(** An append that ends normally keeps the ledger sound. *)
Lemma appendOne_ledger rid h v w c w' :
  canonical rid -> ledger_ok (db w) -> appendOne payloads rid h v w = (Ok c, w') -> ledger_ok (db w').
Proof.
  intros Hcan Hok (_ & rd & cand & w1 & _ & Hcd & -> & [(_ & _ & ->)|(-> & _ & w2 & Hw & ->)])%appendOne_ok; [done|].
  apply writeEvent_ok in Hw as (e & env & j & Hwr).
  change (ledger_ok (db w2)).
  eapply (written_ledger rid); [done|apply Hcd|apply Hcd|exact Hwr|exact Hok].
Qed.
End Operations.

(** ** The invariant through a transaction *)

Section Transaction.
Context `{Schemas} `{Postgres} `{Environment}.
Variable payloads : EventPayloadRegistry.

(** An operation that fails is recorded, so nothing is promised of what it left behind;
    one that ends normally keeps the ledger sound. *)
Lemma schedule_inv {A} (op : IO A) :
  (forall w a w', operationFailure (tx w) = None -> ledger_ok (db w) -> op w = (Ok a, w') -> ledger_ok (db w')) ->
  (forall w a w' e, operationFailure (tx w) = Some e -> op w = (Ok a, w') -> operationFailure (tx w') <> None) ->
  preserves ledger_inv (schedule op).
Proof.
  intros Hok Hfail w r w' Hinv. unfold schedule, try_catch.
  destruct (op w) as [[a|e] w1] eqn:E; intros Hr.
  - injection Hr as <- <-. intros Hnone. destruct (operationFailure (tx w)) eqn:Hf.
    + by destruct (Hfail _ _ _ _ Hf E).
    + eapply Hok; [exact Hf|by apply Hinv|exact E].
  - unfold setFailure, modify, throw, mbind, M_bind in Hr. simpl in Hr. injection Hr as <- <-.
    intros [=].
Qed.

Lemma schedule_append_inv rid h v :
  canonical rid -> preserves ledger_inv (schedule (appendOne payloads rid h v)).
Proof.
  intros Hcan. apply schedule_inv.
  - intros. by eapply appendOne_ledger.
  - intros w a w' e Hf (Hnone & _)%appendOne_ok. congruence.
Qed.

Lemma schedule_find_inv rid c : preserves ledger_inv (schedule (findOneByCausation payloads rid c)).
Proof.
  apply schedule_inv.
  - by intros w a w' _ Hok ->%find_readonly.
  - intros w a w' e Hf ->%find_readonly. congruence.
Qed.

Lemma append_inv snapshot d :
  canonical (room_id snapshot) -> preserves ledger_inv (append (contextOf payloads snapshot) d).
Proof.
  intros Hcan. simpl. destruct (draftObject d). by apply schedule_append_inv.
Qed.
Lemma findByCausation_inv snapshot c :
  preserves ledger_inv (findByCausation (contextOf payloads snapshot) c).
Proof. apply schedule_find_inv. Qed.

(** A statement that changes nothing the ledger's invariant looks at. *)
Lemma execute_inv f : (forall d, view (f d) = view d) -> preserves ledger_inv (execute f).
Proof.
  intros Hf w r w' Hinv [= <- <-]. unfold ledger_inv, ledger_ok in *. simpl. by rewrite Hf.
Qed.
Lemma query_inv {A} (f : database -> A) : preserves ledger_inv (query f).
Proof. by intros w r w' Hinv [= <- <-]. Qed.
Lemma randomUUID_inv : preserves ledger_inv randomUUID.
Proof. by intros w r w' Hinv [= <- <-]. Qed.
Lemma clockNow_inv : preserves ledger_inv clockNow.
Proof. by intros w r w' Hinv [= <- <-]. Qed.
Lemma validNow_inv : preserves ledger_inv validNow.
Proof. apply preserves_bind; [apply clockNow_inv|]. intros [t|]; by intros w r w' Hinv [= <- <-]. Qed.
Lemma uuidParam_inv s : preserves ledger_inv (uuidParam s).
Proof. unfold uuidParam. destruct (uuid_in s); [apply preserves_ret|apply preserves_throw]. Qed.

Lemma find_elem {A} (p : A -> bool) l x : find p l = Some x -> x ∈ l /\ p x = true.
Proof. intros [? ?]%find_some. by rewrite list_elem_of_In. Qed.

Lemma ledger_room_canonical d r : ledger_ok d -> r ∈ rooms d -> canonical (rm_id r).
Proof.
  intros [_ Hnum _ _ _ _ _ _ _] Hr. simpl in Hnum. rewrite Forall_map, Forall_forall in Hnum.
  by destruct (Hnum r Hr) as [Hc _].
Qed.

(** A transaction whose work keeps the invariant keeps the ledger sound, whether it
    commits or not, and whatever failures its work swallowed. *)
Lemma transact_ledger {T} roomId (work : RoomEventTransactionContext -> IO T) w r w' :
  (forall snapshot, canonical (room_id snapshot) -> preserves ledger_inv (work (contextOf payloads snapshot))) ->
  ledger_ok (db w) -> transact payloads roomId work w = (r, w') -> ledger_ok (db w').
Proof.
  intros Hwork Hok. unfold transact. unfold throw_if. destruct (negb _).
  { unfold throw, mbind, M_bind. simpl. by intros [= <- <-]. }
  unfold mbind at 1, M_bind at 1, mret, M_ret. simpl.
  apply inTransaction_invariant; [|done]. clear w r w' Hok. intros w v w' Hok Hbody.
  unfold transactBody in Hbody. apply bind_ok in Hbody as (rid & w0 & Hrid & Hbody).
  assert (w0 = w) as -> by (unfold uuidParam in Hrid; destruct (uuid_in roomId); by run_ok).
  apply bind_ok in Hbody as (locked & w0 & Hl & Hbody). unfold query, gets in Hl. simplify_eq.
  destruct (find _ _) as [locked|] eqn:Hfind; [|by unfold throw in Hbody; simplify_eq].
  apply find_elem in Hfind as [Hin _]. pose proof (ledger_room_canonical _ _ Hok Hin) as Hcan.
  apply bind_ok in Hbody as (? & ? & [_ ->]%throw_if_ok & Hbody).
  apply bind_ok in Hbody as (? & ? & Hq & Hbody). unfold query, gets in Hq. simplify_eq.
  apply bind_ok in Hbody as (? & ? & [_ ->]%throw_if_ok & Hbody).
  apply bind_ok in Hbody as (snapshot & ? & Hsnap & Hbody). unfold lift_result in Hsnap. simplify_eq.
  assert (room_id snapshot = rm_id locked) as Hid.
  { match goal with H : roomSnapshot _ = _ |- _ => by apply roomSnapshot_ok in H as [_ ->] end. }
  unfold setNextRoomSeq, setFailure in Hbody. run_ok. simpl in *.
  match goal with H : work _ ?w0 = (Ok ?a, ?w1) |- _ =>
    pose proof (Hwork snapshot ltac:(congruence) w0 (Ok a) w1 ltac:(by intros _) H) as Hinv end.
  destruct (operationFailure (tx _)) eqn:Hf in Hbody; run_ok. by apply Hinv.
Qed.
End Transaction.

#[export] Hint Resolve schedule_append_inv append_inv findByCausation_inv query_inv randomUUID_inv
  clockNow_inv validNow_inv uuidParam_inv : preserve.

(** ** Reading back what was written *)

(** Equal up to the order of the keys of the payload. *)
Definition env_equiv (c c' : RoomEventEnvelope) : Prop :=
  exists p, c' = withPayload c p /\ json_wf (JObj p) /\ deepEqual (JObj (payload c)) (JObj p) = true.

(** The payload validators do not look at the order of keys. *)
Definition extensional (payloads : EventPayloadRegistry) : Prop :=
  forall t v a b, assoc t payloads = Some v -> json_wf a -> json_wf b -> deepEqual a b = true -> v a = v b.

Section ReadBack.
Context `{Schemas} `{Postgres} `{Environment}.
Context (SL : SchemasLaws) (PL : PostgresLaws) (EL : EnvironmentLaws).
Variable payloads : EventPayloadRegistry.
Hypothesis Hext : extensional payloads.

(** An envelope PostgreSQL stores as it is: canonical identifiers, instants in the range
    of four-digit years and a payload JSON keeps. *)
Record storable (c : RoomEventEnvelope) : Prop := {
  sr_ids : Forall canonical [eventId c; roomId c; actorId c; causationId c; correlationId c];
  sr_times : exists et it, eventTime c = toISOString et /\ ingestTime c = toISOString it
               /\ iso_year_range et /\ iso_year_range it;
  sr_wf : json_wf (JObj (payload c));
  sr_stable : stringified (JObj (payload c)) = JObj (payload c);
}.

Lemma envelopeJson_wf c : json_wf (JObj (payload c)) -> json_wf (envelopeJson c).
Proof.
  intros Hwf. cbn -[json_wf]. split; [|cbn; simpl in Hwf; tauto].
  cbn. apply (bool_decide_unpack _). vm_compute. done.
Qed.
Lemma envelopeJson_stable c :
  stringified (JObj (payload c)) = JObj (payload c) -> stringified (envelopeJson c) = envelopeJson c.
Proof. intros [= Hst]. unfold envelopeJson. simpl. by rewrite Hst. Qed.

Lemma assoc_wf k fs v : json_wf (JObj fs) -> assoc k fs = Some v -> json_wf v.
Proof.
  intros [_ Hwf%foldr_and_Forall] Hk%assoc_elem. rewrite Forall_forall in Hwf. apply (Hwf _ Hk).
Qed.

(** The joined row of an append reads back as the envelope. *)
Lemma parse_written rid seq c w w' e env j :
  envelope_ok c -> assertPayload payloads (type c) (JObj (payload c)) = Ok tt ->
  storable c -> roomSeq c <= MAX_SAFE_INTEGER -> written rid seq c w w' e env j ->
  exists c', env_equiv c c' /\
    parseStoredEvent payloads (e, Some (outboxRow (nextOutboxId (db w)) (tx_now (tx w))
      (ev_event_id e) (ev_room_id e) c env)) = Ok c'.
Proof.
  intros Hok Hassert [Hids (et & it & Het & Hit & Hetr & Hitr) Hwf Hst] Hmax [Hrow Henv _ _ _ _ _ _].
  destruct (jsonb_in_equal PL _ _ (envelopeJson_wf c Hwf) Henv) as [Hwfe Heqe].
  rewrite (envelopeJson_stable c Hst) in Heqe.
  destruct (parse_deepEqual _ _ c (envelopeJson_wf c Hwf) Heqe (parse_envelopeJson c Hok))
    as (p & Hp & Hfield & Hparse).
  assert (json_wf (JObj p)) as Hwfp.
  { destruct env as [| | | | |fs]; try done. by eapply assoc_wf. }
  exists (withPayload c p). split; [by exists p|].
  unfold eventRow in Hrow. repeat (apply bind_Some in Hrow; destruct Hrow as (? & ? & Hrow)).
  injection Hrow as <-. rewrite guardO_Some in *. rewrite Het, Hit in *.
  rewrite !(timestamptz_in_iso PL) in * by done.
  match goal with H : jsonb_in (JObj _) = Some ?pl |- _ =>
    destruct (jsonb_in_equal PL _ _ Hwf H) as [Hwfpl Heqpl] end.
  rewrite Hst in Heqpl. unfold canonical in Hids.
  repeat (apply Forall_cons in Hids as [? Hids]). simplify_eq.
  unfold parseStoredEvent. simpl. rewrite !bool_decide_true by done. simpl.
  assert (forall e0, safePositiveInteger (bigintText (roomSeq c)) e0 = Ok (roomSeq c)) as Hseq.
  { intros e0. apply safePositiveInteger_bigint. destruct Hok. lia. }
  rewrite Hseq. simpl. rewrite Z.eqb_refl. simpl. rewrite Hparse. simpl.
  replace (assertPayload payloads (type c) (JObj p)) with (Ok tt : result registry_error unit).
  2: { unfold assertPayload in *. destruct (assoc (type c) payloads) as [v|] eqn:Ev; [|done].
       by rewrite <- (Hext _ _ _ _ Ev Hwf Hwfp Hp). }
  unfold relationalMatches. cbn -[deepEqual]. rewrite !bool_decide_true by congruence. cbn -[deepEqual].
  rewrite (deepEqual_trans _ (JObj (payload c))); [done| |done].
  by apply deepEqual_sym.
Qed.

Lemma select_where_none {A} (p : A -> bool) l : (forall x, x ∈ l -> p x = false) -> select_where p l = [].
Proof.
  intros Hno. destruct (select_where p l) as [|x l'] eqn:E; [done|].
  assert (x ∈ select_where p l) as [Hin Hp]%select_where_elem by (rewrite E; by left).
  by rewrite Hno in Hp.
Qed.
Lemma find_app_none {A} (p : A -> bool) l x : existsb p l = false -> p x = true -> find p (l ++ [x]) = Some x.
Proof.
  induction l as [|y l IH]; simpl; [by intros _ ->|]. intros [-> Hl]%orb_false_iff Hx. auto.
Qed.

(** The row of an append, joined with its outbox row. *)
Lemma written_row rid seq c w w' e env j w2 :
  written rid seq c w w' e env j -> db w2 = db w' ->
  storedEvents (fun x => bool_decide (ev_room_id x = ev_room_id e)
      && bool_decide (ev_causation_id x = ev_causation_id e)) (db w2)
  = [(e, Some (outboxRow (nextOutboxId (db w)) (tx_now (tx w)) (ev_event_id e) (ev_room_id e) c env))].
Proof.
  intros [Hrow _ _ Hclash _ _ Hout ->] ->. unfold storedEvents. simpl.
  rewrite select_where_app, select_where_none; [|].
  - simpl. rewrite !bool_decide_true by done. simpl. f_equal. f_equal.
    apply find_app_none; [done|]. simpl. by apply bool_decide_eq_true.
  - intros x Hx. apply not_true_is_false. intros [Hr Hc]%andb_true_iff.
    apply bool_decide_eq_true in Hr, Hc. apply not_true_iff_false in Hclash. apply Hclash.
    apply existsb_exists. exists x. rewrite <- list_elem_of_In. split; [done|].
    unfold eventClashes. rewrite (bool_decide_true (_ /\ ev_causation_id e = _)); [apply orb_true_r|done].
Qed.

Lemma written_find rid seq c w w' e env j :
  envelope_ok c -> assertPayload payloads (type c) (JObj (payload c)) = Ok tt ->
  storable c -> roomSeq c <= MAX_SAFE_INTEGER -> roomId c = rid -> isUuid (causationId c) = true ->
  written rid seq c w w' e env j ->
  exists c', env_equiv c c' /\ forall w2, db w2 = db w' ->
    findOneByCausation payloads rid (causationId c) w2 = (Ok (Some c'), w2).
Proof.
  intros Hok Hassert Hst Hmax Hrid Huuid Hwr.
  destruct (parse_written _ _ _ _ _ _ _ _ Hok Hassert Hst Hmax Hwr) as (c' & Heq & Hparse).
  exists c'. split; [done|]. intros w2 Hdb.
  destruct (eventRow_fields _ _ (wr_row _ _ _ _ _ _ _ _ Hwr)) as (_ & Hr & Hc & _).
  destruct Hst as [Hids _ _ _]. unfold canonical in Hids. repeat (apply Forall_cons in Hids as [? Hids]).
  assert (ev_room_id e = rid) as Her by congruence.
  assert (ev_causation_id e = causationId c) as Hec by congruence.
  pose proof (written_row _ _ _ _ _ _ _ _ w2 Hwr Hdb) as Hrows. rewrite Her, Hec in Hrows.
  unfold findOneByCausation. rewrite Huuid. simpl.
  rewrite (bind_run _ _ _ () w2) by done. unfold uuidParam.
  match goal with H : uuid_in (causationId c) = Some (causationId c) |- _ => rewrite H end.
  rewrite (bind_run _ _ _ (causationId c) w2) by done.
  rewrite (bind_run _ _ _ _ w2) by done. rewrite Hrows. rewrite Her in *. unfold mbind, M_bind, lift_result.
  by rewrite Hparse.
Qed.

(** The same draft yields, in another world, a candidate that differs in the fields the
    server assigns only. *)
Lemma completeDraft_again rid seq rd w c seq2 w2 t :
  completed payloads rid seq rd w c -> 1 <= seq2 -> clock_now (ticks w2) = Some t ->
  completeDraft payloads rid seq2 rd w2 =
    (Ok (Envelope (uuid_supply (uuids w2)) rid seq2 (type c) (actorId c) (actorKind c) (actorRole c) (revision c)
       (operation c) (eventTime c) (toISOString t) (causationId c) (correlationId c) (payload c)),
     World (db w2) (S (ticks w2)) (txs w2) (S (uuids w2)) (tx w2)).
Proof.
  intros [[Hids Ht Hs Hr Hty Hrole] Hrid _ _ Htype Hai Hak Har Hrev Hop Het _ Hcaus Hcorr Hpl Hassert] Hseq Hclock.
  unfold completeDraft, clockNow, randomUUID. rewrite (bind_run _ _ _ (Some t) _) by (by rewrite Hclock).
  rewrite (bind_run _ _ _ t _) by done. rewrite (bind_run _ _ _ _ _) by done.
  rewrite <- Htype, Hai, Hak, Har, Hrev, Hop, <- Het, Hcaus, Hcorr, Hpl.
  match goal with |- context [parseRoomEventEnvelope ?j] =>
    change j with (envelopeJson (Envelope (uuid_supply (uuids w2)) rid seq2 (type c) (actorId c) (actorKind c)
      (actorRole c) (revision c) (operation c) (eventTime c) (toISOString t) (causationId c) (correlationId c)
      (payload c))) end.
  repeat (apply Forall_cons in Hids as [? Hids]). apply Forall_cons in Ht as [Hte Ht].
  rewrite parse_envelopeJson.
  - cbn -[mret]. rewrite Hassert. done.
  - constructor; simpl; try done.
    + repeat constructor; simpl; try done; [|by rewrite <- Hrid].
      apply (format_uuid_isUuid SL), (supply_isUuid EL).
    + repeat constructor; [done|]. apply (format_date_time_iso SL). by eapply (clock_range EL).
Qed.

Lemma immutableDraftMatches_refl c c' cand :
  env_equiv c c' -> json_wf (JObj (payload c)) ->
  type cand = type c -> actorId cand = actorId c -> actorKind cand = actorKind c ->
  actorRole cand = actorRole c -> revision cand = revision c -> operation cand = operation c ->
  eventTime cand = eventTime c -> causationId cand = causationId c -> correlationId cand = correlationId c ->
  payload cand = payload c -> immutableDraftMatches c' cand = true.
Proof.
  intros (p & -> & Hwf' & Heq) Hwf. intros. unfold immutableDraftMatches. cbn -[deepEqual].
  rewrite !bool_decide_true by congruence. cbn -[deepEqual]. replace (payload cand) with (payload c) by done.
  by apply deepEqual_sym.
Qed.

(** A draft whose identifiers PostgreSQL prints as they are, of a four-digit year and
    with a payload the copy and JSON keep. *)
Record plain_draft (d : RoomEventDraft) : Prop := {
  pd_ids : Forall canonical [d_actorId d; d_causationId d; d_correlationId d];
  pd_uuid : isUuid (d_causationId d) = true;
  pd_time : iso_year_range (d_eventTime d);
  pd_limits : within_limits (JObj (d_payload d)) = true;
  pd_wf : json_wf (JObj (d_payload d));
  pd_stable : stringified (JObj (d_payload d)) = JObj (d_payload d);
}.

Lemma completed_draft rid seq d w c :
  completed payloads rid seq (readOf d) w c ->
  type c = d_type d /\ actorId c = d_actorId d /\ actorKind c = d_actorKind d /\ actorRole c = d_actorRole d
  /\ revision c = d_revision d /\ operation c = d_operation d /\ eventTime c = toISOString (d_eventTime d)
  /\ causationId c = d_causationId d /\ correlationId c = d_correlationId d /\ payload c = d_payload d.
Proof.
  intros []. simpl in *. simplify_eq.
  assert (forall a b, actorKindText a = actorKindText b -> a = b) as Hk by (intros [] []; done).
  assert (forall a b, actorRoleText a = actorRoleText b -> a = b) as Hr by (intros [] []; done).
  assert (forall a b, operationText a = operationText b -> a = b) as Ho by (intros [] []; done).
  split_and!; eauto.
Qed.

Lemma completed_storable rid seq d w c :
  canonical rid -> plain_draft d -> completed payloads rid seq (readOf d) w c -> storable c.
Proof.
  intros Hcan [Hids _ Htime _ Hwf Hst] Hcd.
  destruct (completed_draft _ _ _ _ _ Hcd) as (_ & Ha & _ & _ & _ & _ & Ht & Hc & Hr & Hp).
  destruct Hcd as [_ Hrid _ Heid _ _ _ _ _ _ _ (t & Hclock & Hit) _ _ _ _].
  repeat (apply Forall_cons in Hids as [? Hids]).
  constructor; [| |by rewrite Hp|by rewrite Hp].
  - rewrite Heid, Hrid, Ha, Hc, Hr. repeat constructor; try done.
    unfold canonical. by rewrite (uuid_in_isUuid PL) , (supply_lower EL) by apply (supply_isUuid EL).
  - exists (d_eventTime d), t. split_and!; try done. by eapply (clock_range EL).
Qed.

Lemma find_same_db rid c w w2 :
  db w2 = db w -> fst (findOneByCausation payloads rid c w2) = fst (findOneByCausation payloads rid c w).
Proof.
  intros Hdb. unfold findOneByCausation, throw_if, uuidParam, throw, mbind, M_bind, mret, M_ret, query, gets, lift_result.
  destruct (negb _); [done|]. destruct (uuid_in c); [|done]. rewrite Hdb.
  destruct (storedEvents _ _); [done|]. by destruct (parseStoredEvent _ _).
Qed.

(** What a retry finds: the event of the first append, which its candidate matches. *)
Lemma append_retry rid d h v w c w' :
  canonical rid -> plain_draft d -> nextRoomSeq (tx w) <= MAX_SAFE_INTEGER ->
  draftObject d = (h, v) -> appendOne payloads rid h v w = (Ok c, w') ->
  operationFailure (tx w') = None /\ 1 <= nextRoomSeq (tx w') /\
  exists cand c' w0, completed payloads rid (nextRoomSeq (tx w)) (readOf d) w0 cand
    /\ (c' = c \/ env_equiv c c')
    /\ (forall w2, db w2 = db w' -> findOneByCausation payloads rid (causationId cand) w2 = (Ok (Some c'), w2))
    /\ (forall cand', type cand' = type cand -> actorId cand' = actorId cand -> actorKind cand' = actorKind cand ->
        actorRole cand' = actorRole cand -> revision cand' = revision cand -> operation cand' = operation cand ->
        eventTime cand' = eventTime cand -> causationId cand' = causationId cand ->
        correlationId cand' = correlationId cand -> payload cand' = payload cand ->
        immutableDraftMatches c' cand' = true).
Proof.
  intros Hcan Hd Hmax Hlit (Hnone & rd & cand & w1 & Hread & Hcd & Hw1 & Hcase)%appendOne_ok.
  pose proof Hd as [_ Huuid _ Hlim Hwf _]. rewrite (readDraft_literal d h v Hlim Hwf Hlit) in Hread.
  injection Hread as <-. pose proof (ok_seq _ (cd_ok _ _ _ _ _ _ Hcd)) as Hseq.
  rewrite (cd_roomSeq _ _ _ _ _ _ Hcd) in Hseq.
  destruct (completed_draft _ _ _ _ _ Hcd) as (_ & _ & _ & _ & _ & _ & _ & Hcaus & _ & Hpl).
  destruct Hcase as [(Hfind & Hmatch & ->)|(-> & Hfind & w2 & Hw & ->)].
  - rewrite Hw1. simpl. split; [done|]. split; [done|]. exists cand, c, w. split; [done|]. split; [by left|]. split.
    + intros w2 Hdb. destruct (findOneByCausation payloads rid (causationId cand) w2) as [r w3] eqn:E.
      pose proof (find_readonly _ _ _ _ _ _ E) as ->.
      pose proof (find_same_db rid (causationId cand) w1 w2) as Hsame.
      rewrite E, Hfind in Hsame. simpl in Hsame. by rewrite Hsame by (by rewrite Hdb, Hw1).
    + intros cand'. unfold immutableDraftMatches in *. by intros -> -> -> -> -> -> -> -> -> ->.
  - apply writeEvent_ok in Hw as (e & env & j & Hwr).
    assert (tx w2 = tx w) as Htx by (rewrite (wr_world _ _ _ _ _ _ _ _ Hwr); simpl; by rewrite Hw1).
    simpl. rewrite Htx. split; [done|]. split; [lia|].
    destruct (written_find rid (nextRoomSeq (tx w)) cand w1 w2 e env j) as (c' & Heq & Hfound);
      [apply Hcd|apply Hcd|by eapply completed_storable|by rewrite (cd_roomSeq _ _ _ _ _ _ Hcd)|apply Hcd
      |by rewrite Hcaus|done|].
    exists cand, c', w. split; [done|]. split; [by right|]. split; [exact Hfound|].
    intros. eapply immutableDraftMatches_refl; try done. by rewrite Hpl.
Qed.

(** Appending the same draft again returns the event of the first append and writes
    nothing. *)
Lemma append_again snapshot d w c w' t :
  canonical (room_id snapshot) -> plain_draft d -> nextRoomSeq (tx w) <= MAX_SAFE_INTEGER ->
  append (contextOf payloads snapshot) d w = (Ok c, w') -> clock_now (ticks w') = Some t ->
  exists c' w'', append (contextOf payloads snapshot) d w' = (Ok c', w'')
    /\ (c' = c \/ env_equiv c c') /\ db w'' = db w' /\ tx w'' = tx w'.
Proof.
  intros Hcan Hd Hmax Happ Hclock. simpl in *. destruct (draftObject d) as [h v] eqn:Hlit.
  unfold schedule, try_catch in Happ.
  destruct (appendOne payloads (room_id snapshot) h v w) as [[c0|e] w0] eqn:Ha;
    [|unfold setFailure, modify, throw, mbind, M_bind in Happ; simplify_eq].
  injection Happ as -> ->.
  destruct (append_retry _ _ _ _ _ _ _ Hcan Hd Hmax Hlit Ha)
    as (Hnone & Hseq & cand & c' & w0 & Hcd & Heq & Hfind & Hmatch).
  pose proof Hd as [_ _ _ Hlim Hwf _].
  pose proof (completeDraft_again _ _ _ _ _ _ _ _ Hcd Hseq Hclock) as Hagain.
  exists c', (World (db w') (S (ticks w')) (txs w') (S (uuids w')) (tx w')).
  split; [|by split_and!]. unfold schedule, try_catch, appendOne.
  rewrite (bind_run _ _ _ (tx w') w') by done. rewrite Hnone.
  rewrite (bind_run _ _ _ () w') by done.
  unfold validateDraft. rewrite (readDraft_literal d h v Hlim Hwf Hlit).
  erewrite (bind_run _ _ w'); [|exact Hagain]. simpl causationId.
  erewrite bind_run; [|by apply Hfind]. cbv iota beta. rewrite Hmatch by done. done.
Qed.
End ReadBack.

(** ** Pages of a room's events *)

Section Pages.
Context `{Schemas} `{Postgres} `{Environment}.
Variable payloads : EventPayloadRegistry.

Definition outboxOf (d : database) (e : event_row) : option outbox_row :=
  find (fun o => bool_decide (ob_event_id o = ev_event_id e)) (outbox d).

(** Every stored event can be read. *)
Definition readable (d : database) : Prop :=
  Forall (fun e => exists c, parseStoredEvent payloads (e, outboxOf d e) = Ok c) (events d).

Lemma parseStoredEvent_ok e o c :
  parseStoredEvent payloads (e, o) = Ok c ->
  envelope_ok c /\ eventId c = ev_event_id e /\ roomId c = ev_room_id e /\ roomSeq c = ev_room_seq e
  /\ type c = ev_type e /\ causationId c = ev_causation_id e /\ actorId c = ev_actor_id e
  /\ actorKind c = ev_actor_kind e /\ actorRole c = ev_actor_role e /\ operation c = ev_operation e
  /\ correlationId c = ev_correlation_id e /\ revision c = ev_revision e
  /\ eventTime c = toISOString (ev_event_time e)
  /\ assertPayload payloads (type c) (JObj (payload c)) = Ok tt
  /\ deepEqual (JObj (payload c)) (ev_payload e) = true.
Proof.
  unfold parseStoredEvent. destruct o as [o|]; [|done]. destruct (_ || _); [done|].
  destruct (safePositiveInteger (bigintText (ev_room_seq e)) _) as [n|] eqn:E1; simpl; [|done].
  destruct (safePositiveInteger (bigintText (ob_room_seq o)) _) as [m|] eqn:E2; simpl; [|done].
  destruct (negb _); [done|]. destruct (parseRoomEventEnvelope _) as [p|] eqn:Ep; [|done].
  destruct (assertPayload _ _ _) as [[]|] eqn:Ea; [|done].
  destruct (relationalMatches _ _ _) eqn:Er; [|done]. intros [= ->].
  apply safePositiveInteger_bigint in E1 as [-> _]. unfold relationalMatches in Er. split_bools.
  split_and!; try done. by eapply parse_ok.
Qed.

(** The rows a page selects, in order. *)
Lemma selectAfter_rows rid after lim d n :
  0 <= after -> roomSeqs rid (events d) = seqFrom 1 n ->
  exists es, selectAfter rid after lim d = map (fun e => (e, outboxOf d e)) es
    /\ Forall (fun e => e ∈ events d /\ ev_room_id e = rid) es
    /\ map ev_room_seq es = seqFrom (after + 1) ((Z.to_nat (Z.of_nat n - after)) `min` Z.to_nat lim).
Proof.
  intros Hafter Hn. unfold selectAfter.
  set (l := select_where (fun e => bool_decide (ev_room_id e = rid) && (after <? ev_room_seq e)) (events d)).
  assert (map ev_room_seq l = seqFrom (after + 1) (Z.to_nat (Z.of_nat n - after))) as Hl.
  { transitivity (List.filter (fun z => after <? z) (roomSeqs rid (events d))).
    - subst l. unfold roomSeqs, ofRoom. clear Hn.
      induction (events d) as [|e es IH]; simpl; [done|].
      destruct (bool_decide (ev_room_id e = rid)); simpl; [|done].
      destruct (after <? ev_room_seq e); simpl; by rewrite IH.
    - rewrite Hn, seqFrom_filter_gt. f_equal; [lia|f_equal; lia]. }
  exists (take (Z.to_nat lim) l). rewrite (sort_by_id byRoomSeq l) by (by eapply in_order_seqFrom).
  split_and!; [done| |].
  - apply Forall_forall. intros e He%elem_of_take. destruct He as (i & He & _).
    apply list_elem_of_lookup_2, select_where_elem in He as [He Hb]. split_bools. done.
  - by rewrite <- firstn_map, Hl, seqFrom_take.
Qed.

(** A page is the contiguous run of events after the cursor, as long as the limit and
    the ledger allow. *)
Lemma eventsAfter_page rid after lim w r (n : nat) :
  canonical rid -> isUuid rid = true ->
  0 <= after <= MAX_SAFE_INTEGER -> 1 <= lim <= 500 ->
  ledger_ok (db w) -> readable (db w) -> r ∈ rooms (db w) -> rm_id r = rid -> rm_next_room_seq r = Z.of_nat n + 1 ->
  exists evs, eventsAfter payloads rid (NInt after) (NInt lim) w = (Ok evs, w)
    /\ map roomSeq evs = seqFrom (after + 1) ((Z.to_nat (Z.of_nat n - after)) `min` Z.to_nat lim)
    /\ Forall (fun c => roomId c = rid /\ envelope_ok c) evs.
Proof.
  intros Hcan Huuid Hafter Hlim [_ Hnum _ _ _ _ _ _ _] Hread Hr Hrid Hnext.
  simpl in Hnum. rewrite Forall_map, Forall_forall in Hnum.
  destruct (Hnum r Hr) as [_ (m & Hm & Hmn)]. simpl in Hm, Hmn. rewrite Hrid in Hm.
  assert (m = n) as -> by lia.
  destruct (selectAfter_rows rid after lim (db w) n ltac:(lia) Hm) as (es & Hsel & Hes & Hseqs).
  assert (exists evs, mapM (M:=IO) (fun row => lift_result (parseStoredEvent payloads row))
      (map (fun e => (e, outboxOf (db w) e)) es) w = (Ok evs, w) /\ map roomSeq evs = map ev_room_seq es
      /\ Forall (fun c => roomId c = rid /\ envelope_ok c) evs) as (evs & Hrun & Hmap & Hall).
  { clear Hsel Hseqs. induction Hes as [|e es [He Her] _ IH]; simpl; [by exists []|].
    destruct IH as (evs & Hrun & Hmap & Hall). unfold readable in Hread. rewrite Forall_forall in Hread.
    destruct (Hread e He) as (c & Hc). exists (c :: evs).
    rewrite (bind_run _ _ w c w) by (unfold lift_result; by rewrite Hc).
    rewrite (bind_run _ _ w evs w) by done.
    destruct (parseStoredEvent_ok _ _ _ Hc) as (Hok & _ & Hrc & Hsc & _).
    split; [done|]. split; [simpl; by f_equal|]. constructor; [|done]. split; [congruence|done]. }
  exists evs. split; [|by rewrite Hmap]. unfold eventsAfter, asSafeInteger.
  unfold MAX_SAFE_INTEGER in *. rewrite !decide_True by lia. rewrite Huuid.
  assert (negb true || (after <? 0) || (lim <? 1) || (500 <? lim) = false) as -> by
    (rewrite !orb_false_iff, !Z.ltb_ge; split_and!; first [done|lia]).
  rewrite (bind_run _ _ w () w) by done.
  unfold uuidParam. rewrite Hcan. rewrite (bind_run _ _ w rid w) by done.
  rewrite (bind_run _ _ w (selectAfter rid after lim (db w)) w) by done. by rewrite Hsel.
Qed.
End Pages.

(** ** What a transaction that commits did *)

Section Committed.
Context `{Schemas} `{Postgres} `{Environment}.
Variable payloads : EventPayloadRegistry.

(** The state in which [work] starts: the room's row is locked and not being deleted. *)
Record entered (roomId : string) (w w0 : world) (locked : room_row) (snapshot : LockedRoomSnapshot) : Prop := {
  en_uuid : isUuid roomId = true;
  en_locked : find (fun r => bool_decide (Some (rm_id r) = uuid_in roomId)) (rooms (db w)) = Some locked;
  en_isUuid : isUuid (rm_id locked) = true;
  en_alive : deletionActive (rm_id locked) (db w) = false;
  en_snapshot : roomSnapshot locked = Ok snapshot;
  en_world : w0 = World (db w) (ticks w) (S (txs w)) (uuids w)
                    (Locals (db_now (txs w)) (rm_next_room_seq locked) None);
}.

Lemma find_ext {A} (p q : A -> bool) l : (forall x, p x = q x) -> find p l = find q l.
Proof. intros Hpq. induction l as [|x l IH]; simpl; [done|]. by rewrite Hpq, IH. Qed.

Lemma transact_ok {T} roomId (work : RoomEventTransactionContext -> IO T) w a w' :
  transact payloads roomId work w = (Ok a, w') ->
  exists locked snapshot w0, entered roomId w w0 locked snapshot
    /\ work (contextOf payloads snapshot) w0 = (Ok a, w') /\ operationFailure (tx w') = None.
Proof.
  unfold transact. intros Ht. apply bind_ok in Ht as (u & w1 & [Huuid ->]%throw_if_ok & Ht).
  unfold inTransaction in Ht. destruct (transactBody _ _ _ _) as [[a0|] w2] eqn:Hbody; [|done].
  simplify_eq. unfold transactBody in Hbody. apply bind_ok in Hbody as (rid & w0 & Hrid & Hbody).
  assert (uuid_in roomId = Some rid /\ w0 = World (db w) (ticks w) (S (txs w)) (uuids w)
    (Locals (db_now (txs w)) (nextRoomSeq (tx w)) (operationFailure (tx w)))) as [Hin ->]
    by (unfold uuidParam in Hrid; destruct (uuid_in roomId); by run_ok).
  apply bind_ok in Hbody as (locked & w0 & Hl & Hbody). unfold query, gets in Hl. simplify_eq. simpl in Hbody.
  destruct (find _ _) as [locked|] eqn:Hfind; [|by unfold throw in Hbody; simplify_eq].
  apply bind_ok in Hbody as (? & ? & [Hu ->]%throw_if_ok & Hbody).
  apply bind_ok in Hbody as (? & ? & Hq & Hbody). unfold query, gets in Hq. simplify_eq.
  apply bind_ok in Hbody as (? & ? & [Hdel ->]%throw_if_ok & Hbody).
  apply bind_ok in Hbody as (snapshot & ? & Hsnap & Hbody). unfold lift_result in Hsnap. simplify_eq.
  unfold setNextRoomSeq, setFailure in Hbody. run_ok. simpl in *.
  match goal with H : work _ ?w0 = (Ok ?v, ?w1) |- _ => exists locked, snapshot, w0; rename H into Hwork; rename w1 into wf end.
  destruct (operationFailure (tx wf)) eqn:Hf; run_ok.
  split; [|done]. apply negb_false_iff in Huuid, Hu.
  match goal with H : roomSnapshot _ = _ |- _ => pose proof H as Hsn; apply roomSnapshot_ok in H as [_ ->] end.
  constructor; try done. rewrite <- Hfind. apply find_ext. intros r. rewrite Hin.
  apply bool_decide_ext. naive_solver.
Qed.

Lemma transact_err {T} roomId (work : RoomEventTransactionContext -> IO T) w e w' :
  transact payloads roomId work w = (Err e, w') -> db w' = db w.
Proof.
  unfold transact, throw_if. destruct (negb _); [by intros [= <- <-]|].
  unfold mbind, M_bind, mret, M_ret. apply inTransaction_err.
Qed.

(** A relation between databases that [work] establishes when it ends normally holds
    of the transaction. *)
Lemma transact_relation {T} (R : database -> database -> Prop) roomId (work : RoomEventTransactionContext -> IO T)
    w r w' :
  (forall d, R d d) ->
  (forall locked snapshot w0 a w1, entered roomId w w0 locked snapshot ->
     work (contextOf payloads snapshot) w0 = (Ok a, w1) -> R (db w) (db w1)) ->
  transact payloads roomId work w = (r, w') -> R (db w) (db w').
Proof.
  intros Hrefl Hwork Ht. destruct r as [a|e].
  - apply transact_ok in Ht as (locked & snapshot & w0 & He & Hw & _). by eapply Hwork.
  - apply transact_err in Ht as ->. done.
Qed.
End Committed.

(** ** Properties of the database alone, through the operations of a transaction *)

Section OnDatabase.
Context `{Schemas} `{Postgres} `{Environment}.
Variable payloads : EventPayloadRegistry.
Variable P : database -> Prop.

Definition on_db (w : world) : Prop := P (db w).

Lemma on_db_local {A} (m : IO A) : (forall w, db (snd (m w)) = db w) -> preserves on_db m.
Proof. intros Hm w r w' HP Hr. unfold on_db in *. specialize (Hm w). rewrite Hr in Hm. simpl in Hm. by rewrite Hm. Qed.

Lemma randomUUID_on : preserves on_db randomUUID.
Proof. by apply on_db_local. Qed.
Lemma clockNow_on : preserves on_db clockNow.
Proof. by apply on_db_local. Qed.
Lemma validNow_on : preserves on_db validNow.
Proof. apply preserves_bind; [apply clockNow_on|]. intros [t|]; [apply preserves_ret|apply preserves_throw]. Qed.
Lemma uuidParam_on s : preserves on_db (uuidParam s).
Proof. unfold uuidParam. destruct (uuid_in s); [apply preserves_ret|apply preserves_throw]. Qed.
Lemma query_on {A} (f : database -> A) : preserves on_db (query f).
Proof. by apply on_db_local. Qed.
Lemma setNextRoomSeq_on n : preserves on_db (setNextRoomSeq n).
Proof. by apply on_db_local. Qed.
Lemma setFailure_on e : preserves on_db (setFailure e).
Proof. by apply on_db_local. Qed.
Lemma schedule_on {A} (op : IO A) : preserves on_db op -> preserves on_db (schedule op).
Proof.
  intros Hop. apply preserves_try; [done|]. intros e.
  apply preserves_bind; [apply setFailure_on|]. intros _. apply preserves_throw.
Qed.
Lemma findOne_on rid c : preserves on_db (findOneByCausation payloads rid c).
Proof. by intros w r w' HP ->%find_readonly. Qed.
Lemma find_on ctx c : preserves on_db (findByCausation (contextOf payloads ctx) c).
Proof. apply schedule_on, findOne_on. Qed.
Lemma execute_on f : (forall d, P d -> P (f d)) -> preserves on_db (execute f).
Proof. intros Hf w r w' HP [= <- <-]. by apply Hf. Qed.
Lemma execute_or_on e f : (forall d d', P d -> f d = Some d' -> P d') -> preserves on_db (execute_or e f).
Proof.
  intros Hf w r w' HP. unfold execute_or. destruct (f (db w)) eqn:E; intros [= <- <-]; [|done]. by eapply Hf.
Qed.

(** What the four writes of an append keep, the append keeps; [Q] is what is known of the
    row of its event. *)
Variable Q : event_row -> Prop.
Hypothesis Hevents : forall x d, Q x -> P d -> P (set_events (events d ++ [x]) d).
Hypothesis Houtbox : forall x d, P d -> P (set_outbox (outbox d ++ [x]) d).
Hypothesis Hjobs : forall x d, P d -> jb_type x = ANALYTICS_CONSUME -> P (set_jobs (jobs d ++ [x]) d).
Hypothesis Hrooms : forall rid n d, P d ->
  P (set_rooms (update_where (atSeq rid n) (withNextRoomSeq (n + 1)) (rooms d)) d).

Ltac insert_cases := intros d d' HP Hi;
  repeat (apply bind_Some in Hi; destruct Hi as (? & ? & Hi)); simplify_eq; auto.

Lemma writeEvent_on rid n c : (forall e, eventRow c = Some e -> Q e) -> preserves on_db (writeEvent rid n c).
Proof.
  intros Hq. unfold writeEvent.
  repeat (first [apply preserves_bind | apply preserves_gets | apply randomUUID_on
                | match goal with |- forall _, preserves _ _ => intros ? end]);
    apply execute_or_on.
  - unfold insertEvent. insert_cases.
  - unfold insertOutbox. insert_cases.
  - unfold insertJob. insert_cases.
  - unfold advanceRoom. insert_cases.
Qed.

Lemma appendOne_on rid h v :
  (forall seq rd w c e, readDraft h v = Ok rd -> completed payloads rid seq rd w c -> eventRow c = Some e -> Q e) ->
  preserves on_db (appendOne payloads rid h v).
Proof.
  intros Hq. unfold appendOne. apply preserves_bind; [apply preserves_gets|]. intros l.
  apply preserves_bind; [destruct (operationFailure l); [apply preserves_throw|apply preserves_ret]|]. intros _.
  intros w r w' HP. unfold mbind at 1, M_bind at 1.
  destruct (validateDraft payloads rid (nextRoomSeq l) h v w) as [[c|e] w1] eqn:Hv.
  - unfold validateDraft in Hv. apply bind_ok in Hv as (rd & w0 & Hread & Hv).
    unfold lift_result in Hread. injection Hread as Hread <-. apply completeDraft_ok in Hv as [Hcd ->].
    assert (on_db (World (db w) (S (ticks w)) (txs w) (S (uuids w)) (tx w))) as HP1 by exact HP.
    revert HP1. generalize (World (db w) (S (ticks w)) (txs w) (S (uuids w)) (tx w)). intros w1 HP1 Hrun.
    refine (preserves_bind on_db _ _ _ _ w1 r w' HP1 Hrun); [apply findOne_on|]. intros [prior|].
    + apply preserves_bind; [apply preserves_throw_if|]. intros _. apply preserves_ret.
    + apply preserves_bind; [apply writeEvent_on; eauto|]. intros _.
      apply preserves_bind; [apply setNextRoomSeq_on|]. intros _. apply preserves_ret.
  - unfold validateDraft, mbind, M_bind, lift_result in Hv.
    destruct (readDraft h v); [apply completeDraft_same in Hv as [Hdb _]|]; intros [= <- <-]; simplify_eq; [|done].
    unfold on_db in *. by rewrite Hdb.
Qed.

Lemma append_rows_on ctx d :
  within_limits (JObj (d_payload d)) = true -> json_wf (JObj (d_payload d)) ->
  (forall seq w c e, completed payloads (room_id ctx) seq (readOf d) w c -> eventRow c = Some e -> Q e) ->
  preserves on_db (append (contextOf payloads ctx) d).
Proof.
  intros Hlim Hwf Hq. simpl. destruct (draftObject d) as [h v] eqn:Hlit. apply schedule_on, appendOne_on.
  intros seq rd w c e Hread. rewrite (readDraft_literal d h v Hlim Hwf Hlit) in Hread. simplify_eq. apply Hq.
Qed.
End OnDatabase.

Lemma append_on `{Schemas} `{Postgres} `{Environment} payloads (P : database -> Prop) ctx d :
  (forall x d, P d -> P (set_events (events d ++ [x]) d)) ->
  (forall x d, P d -> P (set_outbox (outbox d ++ [x]) d)) ->
  (forall x d, P d -> jb_type x = ANALYTICS_CONSUME -> P (set_jobs (jobs d ++ [x]) d)) ->
  (forall rid n d, P d -> P (set_rooms (update_where (atSeq rid n) (withNextRoomSeq (n + 1)) (rooms d)) d)) ->
  preserves (on_db P) (append (contextOf payloads ctx) d).
Proof.
  intros Hev Hob Hjb Hrm. simpl. destruct (draftObject d).
  apply schedule_on, (appendOne_on payloads P (fun _ => True)); auto.
Qed.

#[export] Hint Resolve randomUUID_on clockNow_on validNow_on uuidParam_on query_on find_on : preserve.

(** ** Rooms up to their sequence *)

Definition core (r : room_row) : room_row := withNextRoomSeq 0 r.
Definition cores (d : database) : list room_row := map core (rooms d).

Lemma append_cores `{Schemas} `{Postgres} `{Environment} payloads c0 ctx d :
  preserves (on_db (fun d => cores d = c0)) (append (contextOf payloads ctx) d).
Proof.
  apply append_on; try done. intros rid n d0 <-. unfold cores. simpl. by apply update_where_map.
Qed.
#[export] Hint Resolve append_cores : preserve.

(** ** Appending a new event *)

Section NewEvent.
Context `{Schemas} `{Postgres} `{Environment}.
Variable payloads : EventPayloadRegistry.

Lemma find_same_events rid c w w2 :
  events (db w2) = events (db w) -> outbox (db w2) = outbox (db w) ->
  fst (findOneByCausation payloads rid c w2) = fst (findOneByCausation payloads rid c w).
Proof.
  intros Hev Hob. unfold findOneByCausation, throw_if, uuidParam, throw, mbind, M_bind, mret, M_ret, query, gets,
    lift_result, storedEvents.
  destruct (negb _); [done|]. destruct (uuid_in c); [|done]. rewrite Hev, Hob.
  destruct (map _ _); [done|]. by destruct (parseStoredEvent _ _).
Qed.

Lemma schedule_Ok {A} (op : IO A) w a w' : schedule op w = (Ok a, w') -> op w = (Ok a, w').
Proof.
  unfold schedule, try_catch. destruct (op w) as [[x|e] w1]; [done|].
  unfold setFailure, modify, throw, mbind, M_bind. simpl. done.
Qed.

Lemma schedule_Err {A} (op : IO A) w e w' : schedule op w = (Err e, w') -> operationFailure (tx w') = Some e.
Proof.
  unfold schedule, try_catch. destruct (op w) as [[x|e'] w1]; [done|].
  unfold setFailure, modify, throw, mbind, M_bind. simpl. by intros [= <- <-].
Qed.

(** An append under a causation the ledger does not have writes the event. *)
Lemma append_new snapshot d w c w' :
  within_limits (JObj (d_payload d)) = true -> json_wf (JObj (d_payload d)) ->
  fst (findOneByCausation payloads (room_id snapshot) (d_causationId d) w) = Ok None ->
  append (contextOf payloads snapshot) d w = (Ok c, w') ->
  let w1 := World (db w) (S (ticks w)) (txs w) (S (uuids w)) (tx w) in
  completed payloads (room_id snapshot) (nextRoomSeq (tx w)) (readOf d) w c /\
  exists e env j w2, written (room_id snapshot) (nextRoomSeq (tx w)) c w1 w2 e env j
    /\ w' = set_tx (Locals (tx_now (tx w)) (nextRoomSeq (tx w) + 1) (operationFailure (tx w))) w2.
Proof.
  intros Hlim Hwf Hnone Happ w1. simpl in Happ. destruct (draftObject d) as [h v] eqn:Hlit.
  apply schedule_Ok, appendOne_ok in Happ as (_ & rd & cand & w1' & Hread & Hcd & -> & Hcase).
  rewrite (readDraft_literal d h v Hlim Hwf Hlit) in Hread. injection Hread as <-.
  destruct (completed_draft _ _ _ _ _ _ Hcd) as (_ & _ & _ & _ & _ & _ & _ & Hcaus & _).
  pose proof (find_same_events (room_id snapshot) (causationId cand) w w1 eq_refl eq_refl) as Hsame.
  rewrite Hcaus, Hnone in Hsame.
  destruct Hcase as [(Hfind & _ & _)|(-> & _ & w2 & Hw & ->)].
  - rewrite Hcaus in Hfind. subst w1. rewrite Hfind in Hsame. done.
  - split; [done|]. apply writeEvent_ok in Hw as (e & env & j & Hwr). exists e, env, j, w2. split; [done|].
    pose proof (wr_world _ _ _ _ _ _ _ _ Hwr) as ->. done.
Qed.
End NewEvent.

(** ** What a transaction may do *)

Section Works.
Context `{Schemas} `{Postgres} `{Environment}.
Variable payloads : EventPayloadRegistry.

(** A job outside the analytics stream is not the ledger's. *)
Lemma insertJob_view id t rid src key corr p after o k now d d' :
  t <> ANALYTICS_CONSUME -> insertJob id t rid src key corr p after o k now d = Some d' ->
  exists j, d' = set_jobs (jobs d ++ [j]) d /\ jb_type j = t /\ jb_id j = id /\ jb_dedupe_key j = key
    /\ existsb (fun x => bool_decide (jb_id x = id) || bool_decide (jb_dedupe_key x = key)) (jobs d) = false.
Proof.
  intros Ht Hi. unfold insertJob in Hi. repeat (apply bind_Some in Hi; destruct Hi as (? & ? & Hi)).
  rewrite guardO_Some in *. split_bools. simplify_eq. eexists. split; [done|]. done.
Qed.

Lemma insertJob_ledger id t rid src key corr p after o k now d d' :
  t <> ANALYTICS_CONSUME -> insertJob id t rid src key corr p after o k now d = Some d' ->
  ledger_ok d -> ledger_ok d'.
Proof.
  intros Ht Hi Hok. destruct (insertJob_view _ _ _ _ _ _ _ _ _ _ _ _ _ Ht Hi) as (j & -> & Hj & Hid & Hkey & Hnew).
  destruct Hok as [Hrooms Hnum Her Hids Hcaus Hout Hjobs Hjids Hded].
  assert (forall x, x ∈ jobs d -> jb_id x <> id /\ jb_dedupe_key x <> key) as Hno.
  { intros x Hx. split; intros Heq; apply not_true_iff_false in Hnew; apply Hnew, existsb_exists;
      exists x; rewrite <- list_elem_of_In; (split; [done|]); rewrite (bool_decide_true _ Heq);
      [done|apply orb_true_r]. }
  constructor; simpl in *; try done; rewrite map_app.
  - rewrite select_where_app, map_app, Hjobs. simpl. unfold isConsume. simpl.
    rewrite bool_decide_false by congruence. apply app_nil_r.
  - rewrite map_app. apply NoDup_app. split_and!; [done| |apply NoDup_singleton].
    intros y Hy%list_elem_of_fmap_1 Hz%list_elem_of_singleton. destruct Hy as (v & -> & Hv).
    apply list_elem_of_fmap_1 in Hv as (x & -> & Hx). apply (proj1 (Hno x Hx)). simpl in *. congruence.
  - rewrite map_app. apply NoDup_app. split_and!; [done| |apply NoDup_singleton].
    intros y Hy%list_elem_of_fmap_1 Hz%list_elem_of_singleton. destruct Hy as (v & -> & Hv).
    apply list_elem_of_fmap_1 in Hv as (x & -> & Hx). apply (proj2 (Hno x Hx)). simpl in *. congruence.
Qed.

Lemma insertJob_inv e id t rid src key corr p after o k now :
  t <> ANALYTICS_CONSUME ->
  preserves ledger_inv (execute_or e (insertJob id t rid src key corr p after o k now)).
Proof.
  intros Ht w r w' Hinv. unfold execute_or. destruct (insertJob _ _ _ _ _ _ _ _ _ _ _ _) eqn:E; intros [= <- <-]; [|done].
  intros Hnone. eapply insertJob_ledger; [exact Ht|exact E|by apply Hinv].
Qed.

(** The works that the services hand to [transact]: they append, from a draft or from any
    object, look for what a command has caused before, ask the database and the clock, add
    jobs of their own, change tables or columns that are not the ledger's, and throw, catch
    and branch on all of it as they like. *)
Inductive transactional (c : RoomEventTransactionContext) : forall T : Type, IO T -> Prop :=
| work_append d : transactional c RoomEventEnvelope (append c d)
| work_appendObject h v : transactional c RoomEventEnvelope (appendObject c h v)
| work_find cause : transactional c (option RoomEventEnvelope) (findByCausation c cause)
| work_query T (f : database -> T) : transactional c T (query f)
| work_locals T (f : world -> T) : transactional c T (gets f)
| work_clock : transactional c (option Z) clockNow
| work_uuid : transactional c string randomUUID
| work_cast s : transactional c string (uuidParam s)
| work_job e id t rid src key corr p after o k now : t <> ANALYTICS_CONSUME ->
    transactional c unit (execute_or e (insertJob id t rid src key corr p after o k now))
| work_elsewhere f : (forall d, view (f d) = view d) -> transactional c unit (execute f)
| work_return T (a : T) : transactional c T (mret a)
| work_throw T e : transactional c T (throw e)
| work_then A B (m : IO A) (k : A -> IO B) : transactional c A m -> (forall a, transactional c B (k a)) ->
    transactional c B (m ≫= k)
| work_catch T (m : IO T) h : transactional c T m -> (forall e, transactional c T (h e)) ->
    transactional c T (try_catch m h).

(** Each keeps the ledger, unless an operation of it has failed. *)
Lemma transactional_inv snapshot T (m : IO T) : canonical (room_id snapshot) ->
  transactional (contextOf payloads snapshot) T m -> preserves ledger_inv m.
Proof.
  intros Hcan. induction 1; auto with preserve.
  - by apply schedule_append_inv.
  - by apply insertJob_inv.
  - by apply execute_inv.
  - by apply preserves_bind.
  - by apply preserves_try.
Qed.

(** The events there were are there, in their places. *)
Definition grown (before : list event_row) (w : world) : Prop := exists new, events (db w) = before ++ new.
Lemma grown_execute_or before e f : (forall d d', f d = Some d' -> exists new, events d' = events d ++ new) ->
  preserves (grown before) (execute_or e f).
Proof.
  intros Hf w r w' (new & Hw). unfold execute_or. destruct (f (db w)) as [d|] eqn:E; intros [= <- <-]; [|by exists new].
  destruct (Hf _ _ E) as (more & Hd). exists (new ++ more). cbn. by rewrite Hd, Hw, app_assoc.
Qed.
Lemma grown_same before (w w' : world) : events (db w') = events (db w) -> grown before w -> grown before w'.
Proof. intros Hs (new & Hw). exists new. by rewrite Hs. Qed.
Lemma grown_modify before f : (forall w, db (f w) = db w) -> preserves (E:=error) (grown before) (modify f).
Proof. intros Hf. apply preserves_modify. intros w Hw. eapply grown_same; [|exact Hw]. by rewrite Hf. Qed.
Lemma insertEvent_grows c d d' : insertEvent c d = Some d' -> exists new, events d' = events d ++ new.
Proof. unfold insertEvent. intros Hi. repeat (apply bind_Some in Hi as (? & ? & Hi)). injection Hi as <-. by eexists. Qed.
Lemma insertOutbox_grows now c d d' : insertOutbox now c d = Some d' -> exists new, events d' = events d ++ new.
Proof.
  unfold insertOutbox. intros Hi. repeat (apply bind_Some in Hi as (? & ? & Hi)). injection Hi as <-. exists []. by rewrite app_nil_r.
Qed.
Lemma insertJob_grows id t rid src key corr p after o k now d d' :
  insertJob id t rid src key corr p after o k now d = Some d' -> exists new, events d' = events d ++ new.
Proof.
  unfold insertJob. intros Hi. repeat (apply bind_Some in Hi as (? & ? & Hi)). injection Hi as <-. exists []. by rewrite app_nil_r.
Qed.
Lemma advanceRoom_grows rid n d d' : advanceRoom rid n d = Some d' -> exists new, events d' = events d ++ new.
Proof.
  unfold advanceRoom. intros Hi. repeat (apply bind_Some in Hi as (? & ? & Hi)). injection Hi as <-. exists []. by rewrite app_nil_r.
Qed.
Lemma grown_ticked before : preserves (grown before) clockNow.
Proof. by intros w r w' Hw [= <- <-]. Qed.
Lemma grown_randomUUID before : preserves (grown before) randomUUID.
Proof. by intros w r w' Hw [= <- <-]. Qed.
Lemma grown_query {A} before (f : database -> A) : preserves (grown before) (query f).
Proof. by intros w r w' Hw [= <- <-]. Qed.
Lemma grown_uuidParam before t : preserves (grown before) (uuidParam t).
Proof. unfold uuidParam. destruct (uuid_in t); [apply preserves_ret|apply preserves_throw]. Qed.
#[local] Hint Resolve grown_ticked grown_randomUUID grown_query grown_uuidParam : preserve.
Lemma find_grown before rid cause : preserves (grown before) (findOneByCausation payloads rid cause).
Proof. unfold findOneByCausation. preserve. Qed.
Lemma appendOne_grown before rid h v : preserves (grown before) (appendOne payloads rid h v).
Proof.
  unfold appendOne, validateDraft, completeDraft, writeEvent, setNextRoomSeq. preserve; try (by apply find_grown).
  all: first [apply grown_execute_or; intros; eauto using insertEvent_grows, insertOutbox_grows, insertJob_grows, advanceRoom_grows
             |by apply grown_modify].
Qed.
Lemma schedule_grown {A} before (op : IO A) : preserves (grown before) op -> preserves (grown before) (schedule op).
Proof. intros Ho. unfold schedule, setFailure. preserve. by apply grown_modify. Qed.
Lemma transactional_grown before snapshot T (m : IO T) :
  transactional (contextOf payloads snapshot) T m -> preserves (grown before) m.
Proof.
  induction 1; auto with preserve.
  - cbn. destruct (draftObject d). by apply schedule_grown, appendOne_grown.
  - by apply schedule_grown, appendOne_grown.
  - by apply schedule_grown, find_grown.
  - apply grown_execute_or. eauto using insertJob_grows.
  - intros w r w' Hw [= <- <-]. eapply grown_same; [|exact Hw]. exact (f_equal v_events (H2 (db w))).
  - by apply preserves_bind.
  - by apply preserves_try.
Qed.
End Works.

(** ** Soundness of small ledgers *)

(** A database without events whose rooms are all at their first number is sound. *)
Lemma ledger_ok_fresh `{Postgres} d :
  NoDup (map rm_id (rooms d)) -> Forall (fun r => canonical (rm_id r) /\ rm_next_room_seq r = 1) (rooms d) ->
  events d = [] -> outbox d = [] -> jobs d = [] -> ledger_ok d.
Proof.
  intros Hnd Hr He Ho Hj. unfold ledger_ok, view. rewrite He, Ho, Hj.
  constructor; simpl; try done; try constructor.
  - by rewrite map_map.
  - rewrite Forall_map. eapply Forall_impl; [exact Hr|]. intros r [Hc Hn]. split; [done|]. by exists 0%nat.
Qed.

(** ** Properties *)

Section Properties.
Context `{Schemas} `{Postgres} `{Environment}.
Variable payloads : EventPayloadRegistry.

(** C30. A work that appends what it likes, on whatever drafts, asks, adds jobs, writes what
    is not of the ledger, throws and swallows failures, half-done appends included, leaves the ledger sound if it was before:
    every room numbered without gaps from 1, one outbox entry and one analytics job per
    event. What it commits is added behind the events that were there, after a work in
    which no operation had failed, seen or swallowed; if it fails, nothing has changed. *)
Theorem transact_sound {T} roomId (work : RoomEventTransactionContext -> IO T) w r w' :
  (forall snapshot, transactional (contextOf payloads snapshot) T (work (contextOf payloads snapshot))) ->
  ledger_ok (db w) -> transact payloads roomId work w = (r, w') ->
  ledger_ok (db w')
  /\ match r with
     | Ok a => (exists new, events (db w') = events (db w) ++ new)
         /\ exists snapshot w0, db w0 = db w /\ work (contextOf payloads snapshot) w0 = (Ok a, w') /\ operationFailure (tx w') = None
     | Err _ => db w' = db w
     end.
Proof.
  intros Hwork Hok Hr. split.
  - eapply transact_ledger; [|exact Hok|exact Hr]. intros snapshot Hcan. by eapply transactional_inv.
  - destruct r as [a|e]; [|by eapply transact_err]. apply transact_ok in Hr as (locked & snapshot & w0 & Hen & Hr & Hnone).
    assert (db w0 = db w) as Hdb by (by rewrite (en_world _ _ _ _ _ Hen)). split; [|by exists snapshot, w0].
    eapply (transactional_grown payloads (events (db w))); [apply Hwork| |exact Hr]. exists []. by rewrite Hdb, app_nil_r.
Qed.

(** An operation whose failure [work] catches still fails the transaction: when a
    transaction commits, the append whose error it would have swallowed succeeded. A
    transaction that fails leaves the database as it was. *)
Theorem swallowed_failure_aborts {T} roomId d (fallback : error -> RoomEventEnvelope)
    (rest : RoomEventEnvelope -> T) w r w' :
  transact payloads roomId (fun context =>
    e ← try_catch (append context d) (fun err => mret (fallback err)); mret (rest e)) w = (r, w') ->
  match r with
  | Ok t => exists snapshot w0 e, db w0 = db w /\ append (contextOf payloads snapshot) d w0 = (Ok e, w') /\ t = rest e
  | Err _ => db w' = db w
  end.
Proof.
  intros Ht. destruct r as [t|err]; [|by eapply transact_err].
  apply transact_ok in Ht as (locked & snapshot & w0 & Hen & Hr & Hnone).
  exists snapshot, w0. apply bind_ok in Hr as (e & w1 & Hc & Hr). run_ok. exists e.
  split; [by rewrite (en_world _ _ _ _ _ Hen)|]. split; [|done]. unfold try_catch in Hc.
  destruct (append _ d w0) as [[e'|err] w2] eqn:E; [by simplify_eq|]. exfalso.
  unfold mret, M_ret in Hc. simplify_eq. simpl in E. destruct (draftObject d).
  apply schedule_Err in E. congruence.
Qed.

(** C1. Appending is idempotent: once a draft has been appended, appending it again in
    the transaction (with a new identifier and a later clock) returns the stored event,
    the same up to the order of the keys of the payload, and leaves the database and
    the next sequence number alone. *)
Theorem append_idempotent snapshot d w c w' t :
  SchemasLaws -> PostgresLaws -> EnvironmentLaws -> extensional payloads ->
  canonical (room_id snapshot) -> plain_draft d -> nextRoomSeq (tx w) <= MAX_SAFE_INTEGER ->
  append (contextOf payloads snapshot) d w = (Ok c, w') -> clock_now (ticks w') = Some t ->
  exists c' w'', append (contextOf payloads snapshot) d w' = (Ok c', w'')
    /\ (c' = c \/ env_equiv c c') /\ db w'' = db w' /\ tx w'' = tx w'.
Proof. intros. by eapply append_again. Qed.

(** In a sound ledger whose events can be read, a page after a cursor is the
    contiguous run of events after it: [after + 1], [after + 2], ..., as many as the
    limit and the ledger allow, all of that room. *)
Theorem eventsAfter_contiguous rid after lim w r (n : nat) :
  canonical rid -> isUuid rid = true -> 0 <= after <= MAX_SAFE_INTEGER -> 1 <= lim <= 500 ->
  ledger_ok (db w) -> readable payloads (db w) ->
  r ∈ rooms (db w) -> rm_id r = rid -> rm_next_room_seq r = Z.of_nat n + 1 ->
  exists evs, eventsAfter payloads rid (NInt after) (NInt lim) w = (Ok evs, w)
    /\ map roomSeq evs = seqFrom (after + 1) ((Z.to_nat (Z.of_nat n - after)) `min` Z.to_nat lim)
    /\ Forall (fun c => roomId c = rid /\ envelope_ok c) evs.
Proof. apply eventsAfter_page. Qed.
End Properties.

(** ** Concrete runs *)

Definition demoDraft (causation : string) : RoomEventDraft :=
  Draft "room.paused" demoTeacher human teacher 1 add 1704067200000 causation demoNova
    [("pausedAt"%string, JStr (toISOString 1704067200000))].
(** An append, and the same again under a causation that is no identifier, whose failure is
    swallowed. *)
Definition demoWork (context : RoomEventTransactionContext) : IO RoomEventEnvelope :=
  append context (demoDraft demoCommand).
Definition swallowingWork (context : RoomEventTransactionContext) : IO RoomEventEnvelope :=
  e ← append context (demoDraft demoCommand);
  try_catch (append context (demoDraft "no uuid")) (fun _ => mret e).

Lemma demo_ledger_ok : ledger_ok (db demoWorld).
Proof.
  apply ledger_ok_fresh; try done; [apply NoDup_singleton|]. apply Forall_singleton. vm_compute. done.
Qed.
Lemma demo_payloads_ext : extensional corePayloadNames.
Proof. intros t v a b Hv. by apply (corePayloads_ext t v Hv). Qed.
Lemma demoDraft_plain : plain_draft (demoDraft demoCommand).
Proof.
  constructor; [|reflexivity| |reflexivity| |reflexivity].
  - repeat constructor; reflexivity.
  - unfold iso_year_range. simpl. lia.
  - simpl. split; [apply NoDup_singleton|done].
Qed.

Definition demoSnapshot : LockedRoomSnapshot :=
  match roomSnapshot demoRow with Ok s => s | Err _ => Snapshot "" "" "" "" closed 0 None None None 0 "" end.
(** The world after one append, in the transaction. *)
Definition demoAppended : world := snd (append (contextOf corePayloadNames demoSnapshot) (demoDraft demoCommand) demoWorld).
Definition demoEvent : RoomEventEnvelope :=
  match fst (append (contextOf corePayloadNames demoSnapshot) (demoDraft demoCommand) demoWorld) with
  | Ok e => e
  | Err _ => Envelope "" "" 0 "" "" human teacher 0 add "" "" "" "" []
  end.

Lemma demoWork_transactional c : transactional c RoomEventEnvelope (demoWork c).
Proof. apply work_append. Qed.
Lemma swallowingWork_transactional c : transactional c RoomEventEnvelope (swallowingWork c).
Proof. apply work_then; [apply work_append|]. intros e. apply work_catch; [apply work_append|]. intros _. apply work_return. Qed.
Lemma demoWork_runs : is_ok (fst (transact corePayloadNames demoRoom demoWork demoWorld)) = true
  /\ is_ok (fst (transact corePayloadNames demoRoom swallowingWork demoWorld)) = false.
Proof. split; vm_compute; reflexivity. Qed.
Lemma transact_sound_witness :
  (let '(r, w') := transact corePayloadNames demoRoom demoWork demoWorld in
   is_ok r = true /\ ledger_ok (db w') /\ exists new, events (db w') = events (db demoWorld) ++ new)
  /\ (let '(r, w') := transact corePayloadNames demoRoom swallowingWork demoWorld in
      is_ok r = false /\ ledger_ok (db w') /\ db w' = db demoWorld).
Proof.
  destruct demoWork_runs as [H1 H2]. split.
  - destruct (transact corePayloadNames demoRoom demoWork demoWorld) as [[a|e] w'] eqn:E; [|exfalso; exact (Bool.diff_false_true H1)].
    destruct (transact_sound corePayloadNames demoRoom demoWork demoWorld (Ok a) w' (fun s => demoWork_transactional _) demo_ledger_ok E)
      as (Hl & Hn & _).
    exact (conj eq_refl (conj Hl Hn)).
  - destruct (transact corePayloadNames demoRoom swallowingWork demoWorld) as [[a|e] w'] eqn:E; [exfalso; exact (Bool.diff_true_false H2)|].
    destruct (transact_sound corePayloadNames demoRoom swallowingWork demoWorld (Err e) w' (fun s => swallowingWork_transactional _)
      demo_ledger_ok E) as (Hl & Hd).
    exact (conj eq_refl (conj Hl Hd)).
Defined.

Definition noEvent (e : error) : RoomEventEnvelope := Envelope "" "" 0 "" "" human teacher 0 add "" "" "" "" [].
Lemma swallowed_failure_aborts_witness :
  let '(r, w') := transact corePayloadNames demoRoom (fun context =>
      e ← try_catch (append context (demoDraft "no uuid")) (fun err => mret (noEvent err)); mret (eventId e)) demoWorld in
  r = Err invalidCommand /\ db w' = db demoWorld.
Proof.
  destruct (transact corePayloadNames demoRoom _ demoWorld) as [r w'] eqn:E.
  assert (r = Err invalidCommand) as ->.
  { pose proof (f_equal fst E) as H. vm_compute in H. by rewrite <- H. }
  split; [done|].
  exact (swallowed_failure_aborts corePayloadNames demoRoom (demoDraft "no uuid") noEvent eventId demoWorld _ w' E).
Defined.

Lemma append_idempotent_witness :
  append (contextOf corePayloadNames demoSnapshot) (demoDraft demoCommand) demoWorld = (Ok demoEvent, demoAppended) /\
  exists c' w'', append (contextOf corePayloadNames demoSnapshot) (demoDraft demoCommand) demoAppended = (Ok c', w'')
    /\ (c' = demoEvent \/ env_equiv demoEvent c') /\ db w'' = db demoAppended /\ tx w'' = tx demoAppended.
Proof.
  assert (append (contextOf corePayloadNames demoSnapshot) (demoDraft demoCommand) demoWorld
    = (Ok demoEvent, demoAppended)) as E by (vm_compute; done).
  split; [exact E|].
  refine (append_idempotent corePayloadNames demoSnapshot (demoDraft demoCommand) demoWorld demoEvent demoAppended
    1704067201000 concrete_schemas_laws concrete_postgres_laws concrete_environment_laws demo_payloads_ext _
    demoDraft_plain _ E _); vm_compute; done.
Defined.

(** Three events in one room. *)
Definition demoThree : world :=
  snd (transact corePayloadNames demoRoom (fun context =>
    append context (demoDraft (numberedUuid 900001));;
    append context (demoDraft (numberedUuid 900002));;
    append context (demoDraft (numberedUuid 900003))) demoWorld).

Lemma demoThree_ok : ledger_ok (db demoThree).
Proof.
  unfold demoThree. set (work := fun context : RoomEventTransactionContext => _).
  destruct (transact corePayloadNames demoRoom work demoWorld) as [r w'] eqn:E.
  refine (transact_ledger corePayloadNames demoRoom work demoWorld r w' _ demo_ledger_ok E).
  intros snapshot Hcan. subst work. cbv beta.
  repeat (apply preserves_bind; [by apply append_inv|]; intros _). by apply append_inv.
Qed.
Lemma demoThree_readable : readable corePayloadNames (db demoThree).
Proof.
  unfold readable. apply Forall_forall. intros e He.
  assert (forallb (fun e => is_ok (parseStoredEvent corePayloadNames (e, outboxOf (db demoThree) e)))
    (events (db demoThree)) = true) as Hall by (vm_compute; done).
  rewrite forallb_forall in Hall. specialize (Hall e (proj1 (list_elem_of_In _ _) He)).
  destruct (parseStoredEvent _ _) as [c|]; [by exists c|done].
Qed.
Lemma demoThree_room : exists r, r ∈ rooms (db demoThree) /\ rm_id r = demoRoom /\ rm_next_room_seq r = 4.
Proof.
  assert (map (fun r => (rm_id r, rm_next_room_seq r)) (rooms (db demoThree)) = [(demoRoom, 4)]) as H
    by (vm_compute; done).
  destruct (rooms (db demoThree)) as [|r [|]]; try done. injection H as H1 H2. exists r. split; [by left|done].
Qed.

Lemma eventsAfter_contiguous_witness :
  exists evs, eventsAfter corePayloadNames demoRoom (NInt 1) (NInt 500) demoThree = (Ok evs, demoThree)
    /\ map roomSeq evs = seqFrom (1 + 1) ((Z.to_nat (Z.of_nat 3 - 1)) `min` Z.to_nat 500)
    /\ Forall (fun c => roomId c = demoRoom /\ envelope_ok c) evs.
Proof.
  destruct demoThree_room as (r & Hr & Hid & Hn).
  refine (eventsAfter_contiguous corePayloadNames demoRoom 1 500 demoThree r 3 _ _ _ _ demoThree_ok demoThree_readable
    Hr Hid Hn); [vm_compute; done|vm_compute; done|unfold MAX_SAFE_INTEGER; lia|lia].
Defined.
