(* ===== verification/Lifecycle.v ===== *)
(** * The room's life: [apps/server/src/modules/rooms/lifecycle-service.ts]

    A teacher opens, pauses, resumes and closes a room; a room whose time has passed is
    closed by its auto-close job. *)
From S2P Require Import Prelude Text JsDate JsValue Contracts Database Concrete Ledger.
#[local] Set Warnings "-register-all,-clear-no-such-hyp,-level-tolerance".

Definition ROOM_DURATION_MS : Z := 45 * 60 * 1000.
Definition AUTO_CLOSE : string := "room.auto-close.v1".

(** ** Statements *)

Definition withStatus (s : RoomStatus) (r : room_row) : room_row :=
  RoomRow (rm_id r) (rm_nova_actor_id r) (rm_teacher_id r) (rm_topic r) s (rm_duration_seconds r)
    (rm_starts_at r) (rm_closes_at r) (rm_closed_at r) (rm_next_room_seq r) (rm_created_at r).
Definition withOpening (startsAt closesAt : Z) (r : room_row) : room_row :=
  RoomRow (rm_id r) (rm_nova_actor_id r) (rm_teacher_id r) (rm_topic r) open (rm_duration_seconds r)
    (Some startsAt) (Some closesAt) (rm_closed_at r) (rm_next_room_seq r) (rm_created_at r).
Definition withClosing (closedAt : Z) (r : room_row) : room_row :=
  RoomRow (rm_id r) (rm_nova_actor_id r) (rm_teacher_id r) (rm_topic r) closed (rm_duration_seconds r)
    (rm_starts_at r) (rm_closes_at r) (Some closedAt) (rm_next_room_seq r) (rm_created_at r).

Definition isRoom (rid : string) (r : room_row) : bool := bool_decide (rm_id r = rid).
(** [UPDATE classroom_room SET ... WHERE room_id = $1]. *)
Definition updateRoom (rid : string) (f : room_row -> room_row) (d : database) : database :=
  set_rooms (update_where (isRoom rid) f (rooms d)) d.

Definition cancelJob (now : Z) (j : job_row) : job_row :=
  JobRow (jb_id j) (jb_type j) (jb_room_id j) (jb_source_event_id j) (jb_dedupe_key j) (jb_correlation_id j)
    (jb_payload j) cancelled (jb_attempts j) (jb_max_attempts j) (jb_run_after j) (jb_claim_generation j)
    None None None (jb_last_error j) (jb_created_at j) now (jb_order_seq j) (jb_order_kind j).
(** The jobs [cancelRoomJobs] cancels: unfinished, of the room, not of the analytics
    stream, and not the one to preserve. *)
Definition toCancel (rid : string) (preserveJobId : option string) (j : job_row) : bool :=
  bool_decide (jb_room_id j = Some rid)
  && bool_decide (jb_status j ∈ [queued; retryable; running])
  && negb (isAnalytics j)
  && match preserveJobId with None => true | Some p => negb (bool_decide (jb_id j = p)) end.

(** The order of [ORDER BY j.created_at, j.job_id]. *)
Definition byCreation (a b : job_row) : bool :=
  (jb_created_at a <? jb_created_at b)
  || ((jb_created_at a =? jb_created_at b) && String.leb (jb_id a) (jb_id b)).

Definition principalOk (sessionId : string) (teacher : string) (now : Z) (s : session_row) : bool :=
  bool_decide (ss_id s = sessionId) && bool_decide (ss_kind s = teacher_principal)
  && bool_decide (ss_teacher_id s = Some teacher) && bool_decide (ss_revoked_at s = None)
  && (now <? ss_expires_at s).

Section Lifecycle.
Context `{Schemas} `{Postgres} `{Environment}.
Variable payloads : EventPayloadRegistry.

(** [string | undefined] parameters. *)
Definition uuidParamOpt (s : option string) : IO (option string) :=
  match s with None => mret None | Some s => u ← uuidParam s; mret (Some u) end.

Definition assertManualRetry (event : RoomEventEnvelope) (expectedType roomId' teacherId : string)
    : result error RoomEventEnvelope :=
  if negb (bool_decide (roomId event = roomId')) || negb (bool_decide (type event = expectedType))
     || negb (bool_decide (actorId event = teacherId)) || negb (bool_decide (actorKind event = human))
     || negb (bool_decide (actorRole event = teacher)) || negb (revision event =? 1)
     || negb (bool_decide (operation event = add))
  then Err invalidCommand else Ok event.

Definition existingManualRetry (context : RoomEventTransactionContext)
    (causationId expectedType roomId' teacherId : string) : IO (option RoomEventEnvelope) :=
  existing ← findByCausation context causationId;
  match existing with
  | None => mret None
  | Some e => e ← lift_result (assertManualRetry e expectedType roomId' teacherId); mret (Some e)
  end.

Definition cancelRoomJobs (roomId' : string) (now : Z) (preserveJobId : option string) : IO unit :=
  rid ← uuidParam roomId';
  p ← uuidParamOpt preserveJobId;
  execute (fun d => set_jobs (update_where (toCancel rid p) (cancelJob now) (jobs d)) d).

Definition closedPayload (t : Z) : list (string * json) := [("closedAt"%string, JStr (toISOString t))].

Definition appendAutomaticClose (context : RoomEventTransactionContext) (roomId' jobId : string)
    (closesAt : Z) (correlationId' : string) (preserveJobId : option string) : IO RoomEventEnvelope :=
  now ← validNow;
  rid ← uuidParam roomId';
  execute (updateRoom rid (withClosing closesAt));;
  cancelRoomJobs roomId' now preserveJobId;;
  append context (Draft "room.closed" jobId system room_clock 1 add closesAt jobId correlationId'
                    (closedPayload closesAt)).

Definition requireOwner (context : RoomEventTransactionContext) (teacherId : string) : IO unit :=
  throw_if (negb (bool_decide (teacher_id (room context) = teacherId))) (roomError FORBIDDEN).

(** [if (!sessionId) return]: nothing to check without a session, and the empty string
    is no session. *)
Definition assertTeacherSession (teacherId : string) (sessionId : option string) : IO unit :=
  match sessionId with
  | None | Some EmptyString => mret tt
  | Some s =>
      sid ← uuidParam s;
      tid ← uuidParam teacherId;
      now ← gets (fun w => tx_now (tx w));
      rows ← query (fun d => select_where (principalOk sid tid now) (sessions d));
      throw_if (negb (rowCount rows =? 1)) (roomError FORBIDDEN)
  end.

(** ** Closing a room that is due *)

Definition strField (k : string) (j : json) : option string := field k j ≫= asStr.

(** The job and the opening event agree with the room, identifier by identifier. *)
Definition autoCloseMatches (rid : string) (closesAt : Z) (job : job_row) (source : option event_row) : bool :=
  bool_decide (jb_dedupe_key job = (AUTO_CLOSE ++ ":" ++ rid)%string)
  && bool_decide (toISOString (jb_run_after job) = toISOString closesAt)
  && bool_decide (strField "roomId" (jb_payload job) = Some rid)
  && bool_decide (strField "closesAt" (jb_payload job) = Some (toISOString closesAt))
  && match source with
     | None => false
     | Some e =>
         bool_decide (ev_room_id e = rid) && bool_decide (ev_type e = "room.opened"%string)
         && bool_decide (ev_actor_kind e = human) && bool_decide (ev_actor_role e = teacher)
         && (ev_revision e =? 1) && bool_decide (ev_operation e = add)
         && bool_decide (ev_correlation_id e = jb_correlation_id job)
         && bool_decide (strField "closesAt" (ev_payload e) = Some (toISOString closesAt))
     end.

(** The oldest auto-close job of a room, and the event a job was made for. *)
Definition autoCloseJob (rid : string) (d : database) : option job_row :=
  head (sort_by byCreation (select_where (fun j =>
    bool_decide (jb_room_id j = Some rid) && bool_decide (jb_type j = AUTO_CLOSE)) (jobs d))).
Definition sourceEvent (job : job_row) (d : database) : option event_row :=
  src ← jb_source_event_id job;
  find (fun e => bool_decide (ev_event_id e = src)) (events d).

Definition closeDueInContext (context : RoomEventTransactionContext) : IO (option RoomEventEnvelope) :=
  let room := room context in
  match (if bool_decide (status room ∈ [open; paused]) then closes_at room else None) with
  | None => mret None
  | Some text =>
      now ← validNow;
      match dateParse text with
      | None => mret None
      | Some closesAt =>
          if now <? closesAt then mret None else
          job ← query (autoCloseJob (room_id room));
          match job with
          | None => mret None
          | Some job =>
              source ← query (sourceEvent job);
              if negb (bool_decide (jb_status job ∈ [queued; running])) then mret None else
              if negb (autoCloseMatches (room_id room) closesAt job source) then mret None else
              e ← appendAutomaticClose context (room_id room) (jb_id job) closesAt (jb_correlation_id job) None;
              mret (Some e)
          end
      end
  end.

(** ** The service *)

Definition closeIfDue (roomId' : string) : IO (option RoomEventEnvelope) :=
  transact payloads roomId' closeDueInContext.

Definition closeIfDueForOwner (roomId' teacherId : string) (sessionId : option string)
    : IO (option RoomEventEnvelope) :=
  transact payloads roomId' (fun context =>
    requireOwner context teacherId;;
    assertTeacherSession teacherId sessionId;;
    closeDueInContext context).

Definition ownerRetry (roomId' teacherId causationId' type : string) (sessionId : option string)
    : IO (option RoomEventEnvelope) :=
  transact payloads roomId' (fun context =>
    requireOwner context teacherId;;
    assertTeacherSession teacherId sessionId;;
    existingManualRetry context causationId' type roomId' teacherId).

Definition ENQUEUE_FAILED : error := Failure "ROOM_AUTO_CLOSE_ENQUEUE_FAILED".
Definition autoClosePayload (roomId' : string) (closesAt : Z) : json :=
  JObj [("roomId", JStr roomId'); ("closesAt", JStr (toISOString closesAt))]%string.
Definition openedPayload (startsAt closesAt : Z) : list (string * json) :=
  [("startsAt", JStr (toISOString startsAt)); ("closesAt", JStr (toISOString closesAt))]%string.

(** [open], inside the transaction and past the retry check. *)
Definition openRoom (context : RoomEventTransactionContext) (roomId' teacherId causationId' : string)
    : IO RoomEventEnvelope :=
  throw_if (negb (bool_decide (status (room context) = scheduled))) invalidCommand;;
  now ← validNow;
  let closesAt := now + ROOM_DURATION_MS in
  rid ← uuidParam roomId';
  execute (updateRoom rid (withOpening now closesAt));;
  correlation ← randomUUID;
  event ← append context (Draft "room.opened" teacherId human teacher 1 add now causationId' correlation
                            (openedPayload now closesAt));
  jobId ← randomUUID;
  txNow ← gets (fun w => tx_now (tx w));
  execute_or ENQUEUE_FAILED (insertJob jobId AUTO_CLOSE roomId' (eventId event)
    (AUTO_CLOSE ++ ":" ++ roomId')%string (correlationId event) (autoClosePayload roomId' closesAt) closesAt
    None None txNow);;
  mret event.

(** A retry of the same command returns its event; otherwise [act]. *)
Definition orRetry (context : RoomEventTransactionContext) (roomId' teacherId causationId' type : string)
    (sessionId : option string) (act : IO RoomEventEnvelope) : IO RoomEventEnvelope :=
  requireOwner context teacherId;;
  assertTeacherSession teacherId sessionId;;
  retry ← existingManualRetry context causationId' type roomId' teacherId;
  match retry with Some e => mret e | None => act end.

Definition openRoomCommand (roomId' teacherId causationId' : string) (sessionId : option string)
    : IO RoomEventEnvelope :=
  transact payloads roomId' (fun context =>
    orRetry context roomId' teacherId causationId' "room.opened" sessionId
      (openRoom context roomId' teacherId causationId')).

(** [#simpleTransition], past the retry check. *)
Definition moveRoom (context : RoomEventTransactionContext) (roomId' teacherId causationId' eventType : string)
    (requiredStatus nextStatus : RoomStatus) (payloadKey : string) : IO RoomEventEnvelope :=
  throw_if (negb (bool_decide (status (room context) = requiredStatus))) (roomError ROOM_NOT_OPEN);;
  now ← validNow;
  rid ← uuidParam roomId';
  execute (updateRoom rid (withStatus nextStatus));;
  correlation ← randomUUID;
  append context (Draft eventType teacherId human teacher 1 add now causationId' correlation
                    [(payloadKey, JStr (toISOString now))]).
Definition simpleTransition (roomId' teacherId causationId' eventType : string)
    (requiredStatus nextStatus : RoomStatus) (payloadKey : string) (sessionId : option string)
    : IO RoomEventEnvelope :=
  transact payloads roomId' (fun context =>
    orRetry context roomId' teacherId causationId' eventType sessionId
      (moveRoom context roomId' teacherId causationId' eventType requiredStatus nextStatus payloadKey)).

(** The prologue of [pause], [resume] and [close]: a retry is answered first, then a room
    that is due is closed in a transaction of its own. *)
Definition unlessDue (roomId' teacherId causationId' type : string) (sessionId : option string)
    (act : IO RoomEventEnvelope) : IO RoomEventEnvelope :=
  retry ← ownerRetry roomId' teacherId causationId' type sessionId;
  match retry with
  | Some e => mret e
  | None =>
      due ← closeIfDueForOwner roomId' teacherId sessionId;
      match due with
      | Some _ => throw (roomError ROOM_NOT_OPEN)
      | None => act
      end
  end.

Definition pause (roomId' teacherId causationId' : string) (sessionId : option string) : IO RoomEventEnvelope :=
  unlessDue roomId' teacherId causationId' "room.paused" sessionId
    (simpleTransition roomId' teacherId causationId' "room.paused" open paused "pausedAt" sessionId).
Definition resume (roomId' teacherId causationId' : string) (sessionId : option string) : IO RoomEventEnvelope :=
  unlessDue roomId' teacherId causationId' "room.resumed" sessionId
    (simpleTransition roomId' teacherId causationId' "room.resumed" paused open "resumedAt" sessionId).

Definition closeRoom (context : RoomEventTransactionContext) (roomId' teacherId causationId' : string)
    : IO RoomEventEnvelope :=
  throw_if (negb (bool_decide (status (room context) ∈ [open; paused]))) (roomError ROOM_NOT_OPEN);;
  now ← validNow;
  rid ← uuidParam roomId';
  execute (updateRoom rid (withClosing now));;
  cancelRoomJobs roomId' now None;;
  correlation ← randomUUID;
  append context (Draft "room.closed" teacherId human teacher 1 add now causationId' correlation
                    (closedPayload now)).
Definition close (roomId' teacherId causationId' : string) (sessionId : option string) : IO RoomEventEnvelope :=
  unlessDue roomId' teacherId causationId' "room.closed" sessionId
    (transact payloads roomId' (fun context =>
      orRetry context roomId' teacherId causationId' "room.closed" sessionId
        (closeRoom context roomId' teacherId causationId'))).
End Lifecycle.

(** ** The ledger through the commands *)

Section LedgerKept.
Context `{Schemas} `{Postgres} `{Environment}.
Variable payloads : EventPayloadRegistry.

Lemma updateRoom_view rid f d :
  (forall r, rm_id (f r) = rm_id r /\ rm_next_room_seq (f r) = rm_next_room_seq r) ->
  view (updateRoom rid f d) = view d.
Proof.
  intros Hf. unfold view, updateRoom. simpl. f_equal. apply update_where_map.
  intros r _. destruct (Hf r) as [-> ->]. done.
Qed.

Lemma updateRoom_inv rid f :
  (forall r, rm_id (f r) = rm_id r /\ rm_next_room_seq (f r) = rm_next_room_seq r) ->
  preserves ledger_inv (execute (updateRoom rid f)).
Proof. intros Hf. apply execute_inv. intros d. by apply updateRoom_view. Qed.

Lemma cancelRoomJobs_inv rid now p : preserves ledger_inv (cancelRoomJobs rid now p).
Proof.
  unfold cancelRoomJobs, uuidParamOpt. preserve. apply execute_inv. intros d.
  unfold view. simpl. f_equal. by apply update_where_map.
Qed.

Lemma withClosing_fields t r : rm_id (withClosing t r) = rm_id r /\ rm_next_room_seq (withClosing t r) = rm_next_room_seq r.
Proof. done. Qed.
Lemma withOpening_fields s t r :
  rm_id (withOpening s t r) = rm_id r /\ rm_next_room_seq (withOpening s t r) = rm_next_room_seq r.
Proof. done. Qed.
Lemma withStatus_fields s r : rm_id (withStatus s r) = rm_id r /\ rm_next_room_seq (withStatus s r) = rm_next_room_seq r.
Proof. done. Qed.
Hint Resolve updateRoom_inv cancelRoomJobs_inv insertJob_inv withClosing_fields withOpening_fields
  withStatus_fields : preserve.

Variable snapshot : LockedRoomSnapshot.
Hypothesis Hcan : canonical (room_id snapshot).
Let context := contextOf payloads snapshot.

Lemma context_append_inv d : preserves ledger_inv (append context d).
Proof. by apply append_inv. Qed.
Lemma context_find_inv c : preserves ledger_inv (findByCausation context c).
Proof. apply findByCausation_inv. Qed.
Hint Resolve context_append_inv context_find_inv : preserve.

Lemma existingManualRetry_inv c t rid tid : preserves ledger_inv (existingManualRetry context c t rid tid).
Proof. unfold existingManualRetry. preserve. Qed.
Lemma assertTeacherSession_inv tid sid : preserves ledger_inv (assertTeacherSession tid sid).
Proof. unfold assertTeacherSession. preserve. Qed.
Lemma requireOwner_inv tid : preserves ledger_inv (requireOwner context tid).
Proof. unfold requireOwner. preserve. Qed.
Lemma appendAutomaticClose_inv rid j t corr p : preserves ledger_inv (appendAutomaticClose context rid j t corr p).
Proof. unfold appendAutomaticClose. preserve. Qed.
Hint Resolve existingManualRetry_inv assertTeacherSession_inv requireOwner_inv appendAutomaticClose_inv : preserve.

Lemma closeDueInContext_inv : preserves ledger_inv (closeDueInContext context).
Proof. unfold closeDueInContext. preserve. Qed.
Lemma openRoom_inv rid tid c : preserves ledger_inv (openRoom context rid tid c).
Proof. unfold openRoom. preserve. Qed.
Lemma moveRoom_inv rid tid c t s1 s2 k : preserves ledger_inv (moveRoom context rid tid c t s1 s2 k).
Proof. unfold moveRoom. preserve. Qed.
Lemma closeRoom_inv rid tid c : preserves ledger_inv (closeRoom context rid tid c).
Proof. unfold closeRoom. preserve. Qed.
Lemma orRetry_inv rid tid c t sid act : preserves ledger_inv act ->
  preserves ledger_inv (orRetry context rid tid c t sid act).
Proof. intros Hact. unfold orRetry. preserve. Qed.
End LedgerKept.
#[export] Hint Resolve closeDueInContext_inv openRoom_inv moveRoom_inv closeRoom_inv orRetry_inv
  existingManualRetry_inv assertTeacherSession_inv requireOwner_inv appendAutomaticClose_inv cancelRoomJobs_inv
  updateRoom_inv insertJob_inv : preserve.

(** ** The commands of the service *)

Inductive lifecycle_call : Type :=
| Open (roomId teacherId causationId : string) (sessionId : option string)
| Pause (roomId teacherId causationId : string) (sessionId : option string)
| Resume (roomId teacherId causationId : string) (sessionId : option string)
| Close (roomId teacherId causationId : string) (sessionId : option string)
| CloseIfDue (roomId : string).

(** What may happen to a room's row, its sequence number aside. *)
Inductive room_step (r : room_row) : room_row -> Prop :=
| step_none n : room_step r (withNextRoomSeq n r)
| step_open t n : rm_status r = scheduled ->
    room_step r (withNextRoomSeq n (withOpening t (t + ROOM_DURATION_MS) r))
| step_pause n : rm_status r = open -> room_step r (withNextRoomSeq n (withStatus paused r))
| step_resume n : rm_status r = paused -> room_step r (withNextRoomSeq n (withStatus open r))
| step_close t n : rm_status r ∈ [open; paused] -> room_step r (withNextRoomSeq n (withClosing t r)).

Definition rooms_step (d d' : database) : Prop := Forall2 room_step (rooms d) (rooms d').

Lemma room_step_refl r : room_step r r.
Proof. replace r with (withNextRoomSeq (rm_next_room_seq r) r) at 2 by (by destruct r). constructor. Qed.
Lemma rooms_step_refl d : rooms_step d d.
Proof. apply Forall2_same_length_lookup. split; [done|]. intros. simplify_eq. apply room_step_refl. Qed.

Section Steps.
Context `{Schemas} `{Postgres} `{Environment}.
Variable payloads : EventPayloadRegistry.

Definition runCall (c : lifecycle_call) : IO (option RoomEventEnvelope) :=
  match c with
  | Open r t c s => e ← openRoomCommand payloads r t c s; mret (Some e)
  | Pause r t c s => e ← pause payloads r t c s; mret (Some e)
  | Resume r t c s => e ← resume payloads r t c s; mret (Some e)
  | Close r t c s => e ← close payloads r t c s; mret (Some e)
  | CloseIfDue r => closeIfDue payloads r
  end.

Lemma core_eq r x : core x = core r -> x = withNextRoomSeq (rm_next_room_seq x) r.
Proof. destruct r, x. unfold core, withNextRoomSeq. simpl. congruence. Qed.

(** Rows that changed in their sequence only. *)
Lemma cores_step d d' : cores d' = cores d -> rooms_step d d'.
Proof.
  unfold cores, rooms_step. revert d d'. intros [rs ? ? ? ? ? ? ?] [rs' ? ? ? ? ? ? ?]. simpl.
  revert rs'. induction rs as [|r rs IH]; intros [|r' rs']; try done. intros Heq.
  injection Heq as Hr Hrs. constructor; [|by apply IH].
  destruct r, r'. unfold core, withNextRoomSeq in *. simpl in *. simplify_eq. apply step_none.
Qed.

(** An update of one locked row, its sequence aside. *)
Lemma update_step rid f locked d d' :
  NoDup (map rm_id (rooms d)) -> locked ∈ rooms d -> rm_id locked = rid ->
  cores d' = cores (updateRoom rid f d) ->
  (forall n, room_step locked (withNextRoomSeq n (f locked))) -> rooms_step d d'.
Proof.
  unfold cores, rooms_step, updateRoom. simpl. generalize (rooms d), (rooms d'). clear d d'.
  intros rs rs' Hnd Hin Hid Heq Hf.
  assert (forall r, r ∈ rs -> isRoom rid r = true -> r = locked) as Huniq.
  { intros r Hr Hm. unfold isRoom in Hm. apply bool_decide_eq_true in Hm.
    apply list_elem_of_lookup in Hin as [i Hi], Hr as [k Hk].
    assert (map rm_id rs !! i = Some rid) as Hli by (by rewrite list_lookup_fmap, Hi; simpl; f_equal).
    assert (map rm_id rs !! k = Some rid) as Hlk by (by rewrite list_lookup_fmap, Hk; simpl; f_equal).
    pose proof (NoDup_lookup _ _ _ _ Hnd Hli Hlk). by simplify_eq. }
  clear Hnd Hin Hid. revert rs' Heq Huniq. induction rs as [|r rs IH]; intros [|r' rs'] Heq Huniq; try done.
  simpl in Heq. apply (inj2 cons) in Heq as [Hr Hrs]. constructor; [|apply IH; [done|intros; apply Huniq; [by right|done]]].
  destruct (isRoom rid r) eqn:Hm.
  - rewrite (Huniq r ltac:(by left) Hm) in *. rewrite (core_eq _ _ Hr). apply Hf.
  - rewrite (core_eq _ _ Hr). apply step_none.
Qed.

(** Nothing but the rooms' sequences changes in the rooms. *)
Abbreviation keeps_cores m := (forall c0, preserves (on_db (fun d => cores d = c0)) m).

Lemma keeps_cores_run {A} (m : IO A) w r w' : keeps_cores m -> m w = (r, w') -> cores (db w') = cores (db w).
Proof. intros Hk Hm. exact (Hk (cores (db w)) w r w' eq_refl Hm). Qed.

Lemma cancelRoomJobs_cores rid now p : keeps_cores (cancelRoomJobs rid now p).
Proof. intros c0. unfold cancelRoomJobs, uuidParamOpt. preserve; by apply execute_on. Qed.
Lemma insertJob_cores e id t rid src key corr p after o k now :
  t <> ANALYTICS_CONSUME -> keeps_cores (execute_or e (insertJob id t rid src key corr p after o k now)).
Proof.
  intros Ht c0. apply execute_or_on. intros d d' Hc Hi.
  by destruct (insertJob_view _ _ _ _ _ _ _ _ _ _ _ _ _ Ht Hi) as (j & -> & _).
Qed.
Hint Resolve cancelRoomJobs_cores insertJob_cores : preserve.

Lemma orRetry_cases snapshot rid tid c t sid act w e w' :
  orRetry (contextOf payloads snapshot) rid tid c t sid act w = (Ok e, w') ->
  teacher_id snapshot = tid /\
  exists w1 retry, existingManualRetry (contextOf payloads snapshot) c t rid tid w = (Ok retry, w1)
    /\ db w1 = db w /\
    match retry with Some ev => e = ev /\ w' = w1 | None => act w1 = (Ok e, w') end.
Proof.
  unfold orRetry. intros (u & s1 & Ho & Hr)%bind_ok. unfold requireOwner in Ho.
  apply throw_if_ok in Ho as [Ho ->]. apply negb_false_iff, bool_decide_eq_true in Ho. split; [done|].
  apply bind_ok in Hr as (u' & s2 & Hs & Hr).
  assert (s2 = w) as ->.
  { unfold assertTeacherSession in Hs. destruct sid as [[|]|]; run_ok; try done.
    repeat match goal with H : uuidParam _ _ = _ |- _ => apply uuidParam_ok in H as [_ ->] end.
    unfold query in *. by run_ok. }
  apply bind_ok in Hr as (retry & s3 & He & Hr). exists s3, retry. split; [done|]. split; [|by destruct retry; run_ok].
  assert (preserves (on_db (fun d => d = db w)) (existingManualRetry (contextOf payloads snapshot) c t rid tid))
    as Hb by (unfold existingManualRetry; preserve).
  exact (Hb w _ _ eq_refl He).
Qed.

Section Entered.
Variables (roomId' : string) (w w0 : world) (locked : room_row) (snapshot : LockedRoomSnapshot).
Hypothesis Hok : ledger_ok (db w).
Hypothesis Hen : entered roomId' w w0 locked snapshot.
Let context := contextOf payloads snapshot.

Lemma entered_row rid : uuid_in roomId' = Some rid ->
  locked ∈ rooms (db w) /\ rm_id locked = rid /\ NoDup (map rm_id (rooms (db w)))
  /\ status snapshot = rm_status locked /\ room_id snapshot = rid /\ uuid_in rid = Some rid.
Proof.
  intros Hu. destruct Hen as [_ Hl _ _ [_ Hs]%roomSnapshot_ok _].
  apply find_elem in Hl as [Hin Hid]. rewrite Hu in Hid. apply bool_decide_eq_true in Hid. injection Hid as Hid.
  split_and!; try done; [|by rewrite Hs|by rewrite Hs|].
  - destruct Hok as [Hr _ _ _ _ _ _ _ _]. simpl in Hr. by rewrite map_map in Hr.
  - rewrite <- Hid. exact (ledger_room_canonical _ _ Hok Hin).
Qed.

(** A handler that reads, updates its room and then appends. *)
Lemma handler_step {A} rid f (rest : IO A) w1 a w2 :
  uuid_in roomId' = Some rid -> db w1 = db w ->
  (forall n, room_step locked (withNextRoomSeq n (f locked))) -> keeps_cores rest ->
  (execute (updateRoom rid f);; rest) w1 = (Ok a, w2) -> rooms_step (db w) (db w2).
Proof.
  intros Hu Hdb Hf Hrest Hrun. apply bind_ok in Hrun as (u & s & Hex & Hrun).
  unfold execute, modify in Hex. simplify_eq. simpl in *.
  apply (keeps_cores_run _ _ _ _ Hrest) in Hrun. simpl in Hrun. rewrite Hdb in Hrun.
  destruct (entered_row rid Hu) as (Hin & Hid & Hnd & _).
  by eapply update_step.
Qed.

Lemma openRoom_step tid c w1 e w2 :
  db w1 = db w -> openRoom context roomId' tid c w1 = (Ok e, w2) -> rooms_step (db w) (db w2).
Proof.
  intros Hdb Hrun. unfold openRoom in Hrun.
  apply bind_ok in Hrun as (u & s & [Hst ->]%throw_if_ok & Hrun).
  apply negb_false_iff, bool_decide_eq_true in Hst. simpl in Hst.
  apply bind_ok in Hrun as (now & s & [_ ->]%validNow_ok & Hrun).
  apply bind_ok in Hrun as (rid & s & [Hu ->]%uuidParam_ok & Hrun).
  destruct (entered_row rid Hu) as (_ & _ & _ & Hs & _).
  refine (handler_step rid (withOpening now (now + ROOM_DURATION_MS)) _ _ _ _ Hu _ _ _ Hrun); [exact Hdb| |].
  - intros n. apply step_open. congruence.
  - intros c0. preserve.
Qed.

Lemma moveRoom_step tid c t from to k w1 e w2 :
  (from = open /\ to = paused \/ from = paused /\ to = open) ->
  db w1 = db w -> moveRoom context roomId' tid c t from to k w1 = (Ok e, w2) -> rooms_step (db w) (db w2).
Proof.
  intros Hedge Hdb Hrun. unfold moveRoom in Hrun.
  apply bind_ok in Hrun as (u & s & [Hst ->]%throw_if_ok & Hrun).
  apply negb_false_iff, bool_decide_eq_true in Hst. simpl in Hst.
  apply bind_ok in Hrun as (now & s & [_ ->]%validNow_ok & Hrun).
  apply bind_ok in Hrun as (rid & s & [Hu ->]%uuidParam_ok & Hrun).
  destruct (entered_row rid Hu) as (_ & _ & _ & Hs & _).
  refine (handler_step rid (withStatus to) _ _ _ _ Hu _ _ _ Hrun); [exact Hdb| |].
  - intros n. destruct Hedge as [[-> ->]|[-> ->]]; [apply step_pause|apply step_resume]; congruence.
  - intros c0. preserve.
Qed.

Lemma closeRoom_step tid c w1 e w2 :
  db w1 = db w -> closeRoom context roomId' tid c w1 = (Ok e, w2) -> rooms_step (db w) (db w2).
Proof.
  intros Hdb Hrun. unfold closeRoom in Hrun.
  apply bind_ok in Hrun as (u & s & [Hst ->]%throw_if_ok & Hrun).
  apply negb_false_iff, bool_decide_eq_true in Hst. simpl in Hst.
  apply bind_ok in Hrun as (now & s & [_ ->]%validNow_ok & Hrun).
  apply bind_ok in Hrun as (rid & s & [Hu ->]%uuidParam_ok & Hrun).
  destruct (entered_row rid Hu) as (_ & _ & _ & Hs & _).
  refine (handler_step rid (withClosing now) _ _ _ _ Hu _ _ _ Hrun); [exact Hdb| |].
  - intros n. apply step_close. congruence.
  - intros c0. preserve.
Qed.

(** What closing a due room looked at before it closed the room. *)
Definition due (closesAt now : Z) (job : job_row) (d : database) : Prop :=
  rm_status locked ∈ [open; paused] /\ closesAt <= now
  /\ rm_closes_at locked ≠ None /\ closes_at snapshot ≫= dateParse = Some closesAt
  /\ autoCloseJob (rm_id locked) d = Some job /\ jb_status job ∈ [queued; running]
  /\ autoCloseMatches (rm_id locked) closesAt job (sourceEvent job d) = true.

Lemma closeDue_cases w1 r w2 :
  db w1 = db w -> closeDueInContext context w1 = (Ok r, w2) ->
  (r = None /\ db w2 = db w1) \/
  exists e now closesAt job w1', r = Some e /\ clock_now (ticks w1) = Some now
    /\ due closesAt now job (db w) /\ db w1' = db w /\ tx w1' = tx w1
    /\ appendAutomaticClose context (rm_id locked) (jb_id job) closesAt (jb_correlation_id job) None w1'
       = (Ok e, w2).
Proof.
  intros Hdb Hrun. unfold closeDueInContext in Hrun. simpl in Hrun.
  assert (status snapshot = rm_status locked /\ room_id snapshot = rm_id locked
    /\ closes_at snapshot = toISOString <$> rm_closes_at locked) as (Hs & Hid & Hca).
  { destruct Hen as [_ _ _ _ [_ Hsn]%roomSnapshot_ok _]. by rewrite Hsn. }
  case_bool_decide as Hst; [|run_ok; by left].
  destruct (closes_at snapshot) as [text|] eqn:Htext; [|run_ok; by left].
  apply bind_ok in Hrun as (now & s & [Hnow ->]%validNow_ok & Hrun).
  destruct (dateParse text) as [closesAt|] eqn:Hparse; [|run_ok; by left].
  destruct (Z.ltb_spec now closesAt) as [|Hle]; [run_ok; by left|].
  apply bind_ok in Hrun as (job & s & Hjob & Hrun). unfold query, gets in Hjob. simplify_eq. simpl in Hrun.
  destruct (autoCloseJob _ _) as [job|] eqn:Hjob; [|run_ok; by left].
  apply bind_ok in Hrun as (source & s & Hsrc & Hrun). unfold query, gets in Hsrc. simplify_eq. simpl in Hrun.
  destruct (bool_decide (jb_status job ∈ _)) eqn:Hjs; simpl in Hrun; [|run_ok; by left].
  destruct (autoCloseMatches _ _ _ _) eqn:Hm; simpl in Hrun; [|run_ok; by left].
  apply bind_ok in Hrun as (e & s & Happ & Hrun). run_ok.
  right. rewrite Hid, Hdb in *. do 5 eexists. split; [done|]. split; [exact Hnow|]. split; [|split_and!; [| |exact Happ]].
  - unfold due. apply bool_decide_eq_true in Hjs. rewrite Htext. simpl. rewrite Hs in Hst.
    split_and!; try done. intros Hnone. by rewrite Hnone in Hca.
  - done.
  - done.
Qed.

Lemma closeDue_step w1 r w2 :
  db w1 = db w -> closeDueInContext context w1 = (Ok r, w2) -> rooms_step (db w) (db w2).
Proof.
  intros Hdb [[_ ->]|(e & now & closesAt & job & w1' & _ & _ & Hdue & Hdb' & _ & Hrun)]%closeDue_cases;
    [rewrite Hdb; apply rooms_step_refl| |done].
  unfold appendAutomaticClose in Hrun.
  apply bind_ok in Hrun as (now' & s & [_ ->]%validNow_ok & Hrun).
  apply bind_ok in Hrun as (rid & s & [Hu ->]%uuidParam_ok & Hrun).
  destruct (uuid_in roomId') as [rid'|] eqn:Hu'.
  2: { destruct Hen as [_ Hl _ _ _ _]. rewrite Hu' in Hl. apply find_elem in Hl as [_ Hl].
       by apply bool_decide_eq_true in Hl. }
  destruct (entered_row rid' Hu') as (_ & Hid & _ & _ & _ & Hcan). rewrite Hid, Hcan in Hu. injection Hu as <-.
  refine (handler_step rid' (withClosing closesAt) _ _ _ _ Hu' _ _ _ Hrun).
  - simpl. congruence.
  - intros n. apply step_close. apply Hdue.
  - intros c0. preserve.
Qed.
End Entered.

(** [work] guarded by the checks of the owner and of the session. *)
Lemma guarded_ok {A} snapshot tid sid (m : IO A) w a w' :
  (requireOwner (contextOf payloads snapshot) tid;; assertTeacherSession tid sid;; m) w = (Ok a, w') ->
  teacher_id snapshot = tid /\ m w = (Ok a, w').
Proof.
  intros (u & s1 & [Ho ->]%throw_if_ok & Hr)%bind_ok. apply negb_false_iff, bool_decide_eq_true in Ho. split; [done|].
  apply bind_ok in Hr as (u' & s2 & Hs & Hr).
  assert (s2 = w) as ->; [|done].
  unfold assertTeacherSession in Hs. destruct sid as [[|]|]; run_ok; try done.
  repeat match goal with H : uuidParam _ _ = _ |- _ => apply uuidParam_ok in H as [_ ->] end.
  unfold query in *. by run_ok.
Qed.

Lemma existingManualRetry_db snapshot c t rid tid w r w' :
  existingManualRetry (contextOf payloads snapshot) c t rid tid w = (r, w') -> db w' = db w.
Proof.
  intros Hr. assert (preserves (on_db (fun d => d = db w))
    (existingManualRetry (contextOf payloads snapshot) c t rid tid)) as Hb by (unfold existingManualRetry; preserve).
  exact (Hb w _ _ eq_refl Hr).
Qed.

Lemma ownerRetry_db rid tid c t sid w r w' : ownerRetry payloads rid tid c t sid w = (r, w') -> db w' = db w.
Proof.
  apply (transact_relation payloads (fun d d' => d' = d)); [done|].
  intros locked snapshot w0 a w1 [_ _ _ _ _ Hw0] (_ & Hr)%guarded_ok.
  apply existingManualRetry_db in Hr. by rewrite Hr, Hw0.
Qed.

Lemma closeIfDueForOwner_cases rid tid sid w r w' :
  ledger_ok (db w) -> closeIfDueForOwner payloads rid tid sid w = (r, w') ->
  (exists e, r = Ok (Some e) /\ rooms_step (db w) (db w')) \/ ((r = Ok None \/ is_ok r = false) /\ db w' = db w).
Proof.
  intros Hok Hr. destruct r as [o|e]; [|right; split; [by right|by eapply transact_err]].
  apply transact_ok in Hr as (locked & snapshot & w0 & Hen & (_ & Hrun)%guarded_ok & _).
  assert (db w0 = db w) as Hdb by (by rewrite (en_world _ _ _ _ _ Hen)).
  destruct o as [e|]; [left|right].
  - exists e. split; [done|]. by eapply (closeDue_step rid w w0 locked snapshot).
  - split; [by left|].
    destruct (closeDue_cases rid w w0 locked snapshot Hen w0 None w' Hdb Hrun) as [[_ Heq]|(? & ? & ? & ? & ? & ? & _)];
      [congruence|done].
Qed.

(** The prologue answers a retry or closes a due room; else it leaves the rest to [act]. *)
Lemma unlessDue_cases rid tid c t sid act w r w' :
  ledger_ok (db w) -> unlessDue payloads rid tid c t sid act w = (r, w') ->
  rooms_step (db w) (db w') \/ exists w1, db w1 = db w /\ act w1 = (r, w').
Proof.
  intros Hok. unfold unlessDue, mbind, M_bind, throw, mret, M_ret.
  destruct (ownerRetry _ _ _ _ _ _ w) as [o1 w1] eqn:E1. apply ownerRetry_db in E1 as Hdb1.
  destruct o1 as [[e|]|e]; [intros [= <- <-]; left; rewrite Hdb1; apply rooms_step_refl| |
    intros [= <- <-]; left; rewrite Hdb1; apply rooms_step_refl].
  destruct (closeIfDueForOwner _ _ _ _ w1) as [o2 w2] eqn:E2.
  apply closeIfDueForOwner_cases in E2 as [(e & -> & Hst)|[Hr Hdb2]]; [| |by rewrite Hdb1].
  - intros [= <- <-]. left. by rewrite <- Hdb1.
  - destruct o2 as [[e|]|e]; [by destruct Hr| |intros [= <- <-]; left; rewrite Hdb2, Hdb1; apply rooms_step_refl].
    intros Hact. right. exists w2. split; [congruence|done].
Qed.

Lemma retried_step rid tid c t sid (handler : RoomEventTransactionContext -> IO RoomEventEnvelope) w r w' :
  ledger_ok (db w) ->
  (forall w0 w1 locked snapshot e w2, entered rid w w0 locked snapshot -> db w1 = db w ->
     handler (contextOf payloads snapshot) w1 = (Ok e, w2) -> rooms_step (db w) (db w2)) ->
  transact payloads rid (fun context => orRetry context rid tid c t sid (handler context)) w = (r, w') ->
  rooms_step (db w) (db w').
Proof.
  intros Hok Hh. apply transact_relation; [apply rooms_step_refl|].
  intros locked snapshot w0 e w2 Hen (_ & w1 & retry & _ & Hdb & Hr)%orRetry_cases.
  assert (db w0 = db w) as Hdb0 by (by rewrite (en_world _ _ _ _ _ Hen)).
  destruct retry as [ev|].
  - destruct Hr as [_ ->]. rewrite Hdb, Hdb0. apply rooms_step_refl.
  - eapply Hh; [exact Hen| |exact Hr]. congruence.
Qed.

Lemma ret_some_db (m : IO RoomEventEnvelope) w r w' :
  (e ← m; mret (Some e)) w = (r, w') -> exists r0, m w = (r0, w').
Proof. unfold mbind, M_bind, mret, M_ret. destruct (m w) as [[e|e] w1]; intros [= <- <-]; eauto. Qed.

(** Every command moves each room along an edge of the state machine, or not at all. *)
Lemma runCall_step c w r w' : ledger_ok (db w) -> runCall c w = (r, w') -> rooms_step (db w) (db w').
Proof.
  intros Hok. destruct c as [rid tid c sid|rid tid c sid|rid tid c sid|rid tid c sid|rid]; simpl.
  - intros (r0 & Hr)%ret_some_db. revert Hr. apply retried_step; [done|].
    intros. by eapply openRoom_step.
  - intros (r0 & Hr)%ret_some_db. apply unlessDue_cases in Hr as [|(w1 & Hdb & Hr)]; [done| |done].
    rewrite <- Hdb in *. revert Hr. apply retried_step; [done|]. intros w0 w2 locked snapshot e w3 Hen Hd Hrun.
    refine (moveRoom_step _ _ _ _ _ Hok Hen _ _ _ _ _ _ _ _ _ _ Hd Hrun). by left.
  - intros (r0 & Hr)%ret_some_db. apply unlessDue_cases in Hr as [|(w1 & Hdb & Hr)]; [done| |done].
    rewrite <- Hdb in *. revert Hr. apply retried_step; [done|]. intros w0 w2 locked snapshot e w3 Hen Hd Hrun.
    refine (moveRoom_step _ _ _ _ _ Hok Hen _ _ _ _ _ _ _ _ _ _ Hd Hrun). by right.
  - intros (r0 & Hr)%ret_some_db. apply unlessDue_cases in Hr as [|(w1 & Hdb & Hr)]; [done| |done].
    rewrite <- Hdb in *. revert Hr. apply retried_step; [done|]. intros. by eapply closeRoom_step.
  - apply transact_relation; [apply rooms_step_refl|]. intros locked snapshot w0 e w2 Hen Hr.
    assert (db w0 = db w) as Hdb0 by (by rewrite (en_world _ _ _ _ _ Hen)).
    by eapply closeDue_step.
Qed.

Lemma transact_inv {T} rid (work : RoomEventTransactionContext -> IO T) w r w' :
  ledger_ok (db w) -> transact payloads rid work w = (r, w') ->
  (forall snapshot, canonical (room_id snapshot) -> preserves ledger_inv (work (contextOf payloads snapshot))) ->
  ledger_ok (db w').
Proof. intros Hok Hr Hwork. by eapply transact_ledger. Qed.

Lemma unlessDue_ledger rid tid c t sid act w r w' :
  (forall w r w', ledger_ok (db w) -> act w = (r, w') -> ledger_ok (db w')) ->
  ledger_ok (db w) -> unlessDue payloads rid tid c t sid act w = (r, w') -> ledger_ok (db w').
Proof.
  intros Hact Hok. unfold unlessDue, mbind, M_bind, throw, mret, M_ret.
  destruct (ownerRetry _ _ _ _ _ _ w) as [o1 w1] eqn:E1.
  assert (ledger_ok (db w1)) as Hok1 by (by rewrite (ownerRetry_db _ _ _ _ _ _ _ _ E1)).
  destruct o1 as [[e|]|e]; [by intros [= <- <-]| |by intros [= <- <-]].
  destruct (closeIfDueForOwner _ _ _ _ w1) as [o2 w2] eqn:E2.
  assert (ledger_ok (db w2)) as Hok2.
  { eapply transact_inv; [exact Hok1|exact E2|]. intros snapshot Hcan.
    apply preserves_bind; [apply requireOwner_inv|]. intros _.
    apply preserves_bind; [apply assertTeacherSession_inv|]. intros _. by apply closeDueInContext_inv. }
  destruct o2 as [[e|]|e]; [by intros [= <- <-]| |by intros [= <- <-]]. by apply Hact.
Qed.

(** Every command keeps the ledger sound. *)
Lemma runCall_ledger c w r w' : ledger_ok (db w) -> runCall c w = (r, w') -> ledger_ok (db w').
Proof.
  intros Hok. destruct c as [rid tid c sid|rid tid c sid|rid tid c sid|rid tid c sid|rid]; simpl.
  - intros (r0 & Hr)%ret_some_db. eapply transact_inv; [done|exact Hr|].
    intros snapshot Hcan. apply orRetry_inv. by apply openRoom_inv.
  - intros (r0 & Hr)%ret_some_db. revert Hr. apply unlessDue_ledger; [|done]. clear. intros w r w' Hok Hr.
    eapply transact_inv; [done|exact Hr|]. intros snapshot Hcan. apply orRetry_inv. by apply moveRoom_inv.
  - intros (r0 & Hr)%ret_some_db. revert Hr. apply unlessDue_ledger; [|done]. clear. intros w r w' Hok Hr.
    eapply transact_inv; [done|exact Hr|]. intros snapshot Hcan. apply orRetry_inv. by apply moveRoom_inv.
  - intros (r0 & Hr)%ret_some_db. revert Hr. apply unlessDue_ledger; [|done]. clear. intros w r w' Hok Hr.
    eapply transact_inv; [done|exact Hr|]. intros snapshot Hcan. apply orRetry_inv. by apply closeRoom_inv.
  - intros Hr. eapply transact_inv; [done|exact Hr|]. intros. by apply closeDueInContext_inv.
Qed.
End Steps.

(** ** What the commands write *)

Section Effects.
Context `{Schemas} `{Postgres} `{Environment}.
Variable payloads : EventPayloadRegistry.

(** No unfinished job of the room is left but those of the analytics stream. *)
Definition jobs_settled (rid : string) (js : list job_row) : Prop :=
  forall j, j ∈ js -> jb_room_id j = Some rid -> isAnalytics j = false ->
    jb_status j ∉ [queued; retryable; running].

Lemma cancelled_settled rid now js : jobs_settled rid (update_where (toCancel rid None) (cancelJob now) js).
Proof.
  intros j Hj Hrid Han. unfold update_where in Hj. apply list_elem_of_fmap_1 in Hj as (x & -> & Hx).
  destruct (toCancel rid None x) eqn:Hc; [simpl; set_solver|].
  unfold toCancel in Hc. rewrite (bool_decide_true _ Hrid), Han in Hc. simpl in Hc. rewrite andb_true_r in Hc.
  by apply andb_false_iff in Hc as [Hc%bool_decide_eq_false|]; [|done].
Qed.

Lemma jobs_settled_snoc rid js j :
  jobs_settled rid js -> isAnalytics j = true -> jobs_settled rid (js ++ [j]).
Proof.
  intros Hs Hj x Hx Hr Ha. apply elem_of_app in Hx as [Hx|Hx%list_elem_of_singleton]; [by apply (Hs x)|].
  subst. congruence.
Qed.

Lemma cancelRoomJobs_ok rid' now p w u w' :
  cancelRoomJobs rid' now p w = (Ok u, w') ->
  exists rid p', uuid_in rid' = Some rid /\ (p = None -> p' = None)
    /\ w' = set_db (set_jobs (update_where (toCancel rid p') (cancelJob now) (jobs (db w))) (db w)) w.
Proof.
  unfold cancelRoomJobs. intros (rid & s & [Hu ->]%uuidParam_ok & Hr)%bind_ok.
  apply bind_ok in Hr as (p' & s & Hp & Hr). unfold execute, modify in Hr. exists rid, p'.
  assert (s = w /\ (p = None -> p' = None)) as [-> Hnone].
  { unfold uuidParamOpt in Hp. destruct p; [|by run_ok]. apply bind_ok in Hp as (u' & s' & [_ ->]%uuidParam_ok & Hp).
    by run_ok. }
  by simplify_eq.
Qed.

(** The row of a room after an update and an append. *)
Lemma written_room rid f locked c w1 w w2 e env j :
  rooms (db w1) = rooms (updateRoom rid f (db w)) -> locked ∈ rooms (db w) -> rm_id locked = rid ->
  rm_id (f locked) = rid -> rm_next_room_seq (f locked) = rm_next_room_seq locked ->
  written rid (rm_next_room_seq locked) c w1 w2 e env j ->
  withNextRoomSeq (rm_next_room_seq locked + 1) (f locked) ∈ rooms (db w2).
Proof.
  intros Hrooms Hin Hid Hfid Hfseq Hwr. rewrite (wr_world _ _ _ _ _ _ _ _ Hwr). simpl. rewrite Hrooms.
  unfold updateRoom. simpl. apply list_elem_of_fmap. exists (f locked). split.
  - unfold atSeq. rewrite Hfid, Hfseq, bool_decide_true, Z.eqb_refl by done. done.
  - apply list_elem_of_fmap. exists locked. split; [|done]. unfold isRoom. by rewrite bool_decide_true.
Qed.

(** The close of a room by an append of [d]: the row is closed at [t], the jobs are
    settled and the event of [d] is in the ledger. *)
Record closed_by (rid : string) (locked : room_row) (t : Z) (d : RoomEventDraft) (e : RoomEventEnvelope)
    (w' : world) : Prop := {
  cl_row : withNextRoomSeq (rm_next_room_seq locked + 1) (withClosing t locked) ∈ rooms (db w');
  cl_jobs : jobs_settled rid (jobs (db w'));
  cl_event : exists row, row ∈ events (db w') /\ eventRow e = Some row;
  cl_roomId : roomId e = rid;
  cl_roomSeq : roomSeq e = rm_next_room_seq locked;
  cl_draft : type e = d_type d /\ actorId e = d_actorId d /\ actorKind e = d_actorKind d
    /\ actorRole e = d_actorRole d /\ eventTime e = toISOString (d_eventTime d)
    /\ causationId e = d_causationId d /\ payload e = d_payload d;
}.

Lemma close_append roomId' rid w w0 locked snapshot t now d w1 s1 s2 e w2 :
  entered roomId' w w0 locked snapshot -> ledger_ok (db w) -> uuid_in roomId' = Some rid ->
  within_limits (JObj (d_payload d)) = true -> json_wf (JObj (d_payload d)) ->
  db w1 = db w -> tx w1 = tx w0 ->
  fst (findOneByCausation payloads rid (d_causationId d) w1) = Ok None ->
  s1 = set_db (updateRoom rid (withClosing t) (db w1)) w1 ->
  db s2 = set_jobs (update_where (toCancel rid None) (cancelJob now) (jobs (db s1))) (db s1) -> tx s2 = tx s1 ->
  append (contextOf payloads snapshot) d s2 = (Ok e, w2) -> closed_by rid locked t d e w2.
Proof.
  intros Hen Hok Hu Hlim Hwf Hdb Htx Hnone -> Hs2 Hts2 Happ.
  destruct (entered_row roomId' w w0 locked snapshot Hok Hen rid Hu) as (Hin & Hid & _ & _ & Hsid & Hcan).
  assert (nextRoomSeq (tx s2) = rm_next_room_seq locked) as Hnext.
  { rewrite Hts2. simpl. rewrite Htx, (en_world _ _ _ _ _ Hen). done. }
  rewrite <- Hsid in Hnone.
  destruct (append_new payloads snapshot d s2 e w2 Hlim Hwf) as (Hcd & row & env & j & w3 & Hwr & ->); [|done|].
  { rewrite <- Hnone. apply find_same_events; by rewrite Hs2. }
  rewrite Hsid in *. rewrite Hnext in *.
  destruct (completed_draft _ _ _ _ _ _ Hcd) as (? & ? & ? & ? & _ & _ & ? & ? & _ & ?).
  constructor; simpl; try done.
  - eapply (written_room rid (withClosing t) locked); [|exact Hin|done|done|done|exact Hwr].
    simpl. by rewrite Hs2, Hdb.
  - pose proof Hwr as [_ _ (corr & pl & _ & _ & Hj) _ _ _ _ ->]. simpl. rewrite Hs2. simpl.
    apply jobs_settled_snoc; [apply cancelled_settled|]. rewrite Hj. done.
  - exists row. split; [|by apply Hwr]. rewrite (wr_world _ _ _ _ _ _ _ _ Hwr). simpl. set_solver.
  - by apply Hcd.
  - by apply Hcd.
Qed.

Lemma existingManualRetry_ok snapshot c t rid tid w r w' :
  existingManualRetry (contextOf payloads snapshot) c t rid tid w = (Ok r, w') ->
  w' = w /\ match r with
    | None => fst (findOneByCausation payloads (room_id snapshot) c w) = Ok None
    | Some e => assertManualRetry e t rid tid = Ok e
        /\ fst (findOneByCausation payloads (room_id snapshot) c w) = Ok (Some e)
    end.
Proof.
  unfold existingManualRetry. intros (o & s & Hf & Hr)%bind_ok. simpl in Hf. apply schedule_Ok in Hf.
  pose proof (find_readonly _ _ _ _ _ _ Hf) as ->. rewrite Hf. destruct o as [e|]; [|by run_ok].
  apply bind_ok in Hr as (e' & s & Ha & Hr). unfold lift_result in Ha. run_ok.
  assert (assertManualRetry e t rid tid = Ok e) as Hae.
  { match goal with H : assertManualRetry _ _ _ _ = Ok _ |- _ => unfold assertManualRetry in *; by destruct (_ || _) end. }
  match goal with H : assertManualRetry _ _ _ _ = Ok ?x |- _ => rewrite Hae in H; by simplify_eq end.
Qed.

(** A retry inside the transaction returns the stored event, which is one of this
    command, and writes nothing; else the handler ran on the database as it was. *)
Lemma retried_ok rid tid c t sid handler w e w' :
  transact payloads rid (fun context => orRetry context rid tid c t sid (handler context)) w = (Ok e, w') ->
  exists locked snapshot w0, entered rid w w0 locked snapshot /\ rm_teacher_id locked = tid /\
    ((assertManualRetry e t rid tid = Ok e /\ db w' = db w) \/
     (fst (findOneByCausation payloads (room_id snapshot) c w0) = Ok None
        /\ handler (contextOf payloads snapshot) w0 = (Ok e, w'))).
Proof.
  intros (locked & snapshot & w0 & Hen & Hr & _)%transact_ok. exists locked, snapshot, w0. split; [done|].
  apply guarded_ok in Hr as [Ht Hr]. destruct (en_snapshot _ _ _ _ _ Hen). split.
  { pose proof (en_snapshot _ _ _ _ _ Hen) as Hsn. apply roomSnapshot_ok in Hsn as [_ Hsn]. by rewrite Hsn in Ht. }
  apply bind_ok in Hr as (retry & s & [-> Hretry]%existingManualRetry_ok & Hr).
  destruct retry as [ev|]; [|by right]. left. run_ok. split; [by destruct Hretry|].
  by rewrite (en_world _ _ _ _ _ Hen).
Qed.

(** Answers of the prologue. *)
Lemma unlessDue_ok rid tid c t sid act w e w' :
  ledger_ok (db w) -> unlessDue payloads rid tid c t sid act w = (Ok e, w') ->
  (assertManualRetry e t rid tid = Ok e /\ db w' = db w) \/ exists w1, db w1 = db w /\ act w1 = (Ok e, w').
Proof.
  intros Hok (r1 & w1 & E1 & Hr)%bind_ok. pose proof (ownerRetry_db payloads _ _ _ _ _ _ _ _ E1) as Hdb1.
  destruct r1 as [e1|].
  - run_ok. left. split; [|done].
    apply transact_ok in E1 as (locked & snapshot & w0 & _ & (_ & Hr)%guarded_ok & _).
    by apply existingManualRetry_ok in Hr as (_ & ? & _).
  - apply bind_ok in Hr as (r2 & w2 & E2 & Hr). destruct r2 as [e2|]; [by unfold throw in Hr; simplify_eq|].
    right. exists w2. split; [|done].
    apply closeIfDueForOwner_cases in E2 as [(e2 & ? & _)|[_ ?]]; [done|congruence|by rewrite Hdb1].
Qed.

(** What [close] did when it ended normally. *)
Lemma close_effect rid' tid c sid w e w' :
  ledger_ok (db w) -> close payloads rid' tid c sid w = (Ok e, w') ->
  (assertManualRetry e "room.closed" rid' tid = Ok e /\ db w' = db w) \/
  exists rid locked now corr, uuid_in rid' = Some rid /\ locked ∈ rooms (db w) /\ rm_id locked = rid
    /\ rm_teacher_id locked = tid /\ rm_status locked ∈ [open; paused] /\ (exists n, clock_now n = Some now)
    /\ closed_by rid locked now (Draft "room.closed" tid human teacher 1 add now c corr (closedPayload now)) e w'.
Proof.
  intros Hok [?|(w1 & Hdb & Hr)]%unlessDue_ok; [by left| |done]. rewrite <- Hdb in *.
  apply retried_ok in Hr as (locked & snapshot & w0 & Hen & Ht & [Hretry|[Hnone Hr]]); [by left|right].
  unfold closeRoom in Hr. apply bind_ok in Hr as (u & s & [Hst ->]%throw_if_ok & Hr).
  apply negb_false_iff, bool_decide_eq_true in Hst. simpl in Hst.
  apply bind_ok in Hr as (now & s & [Hnow ->]%validNow_ok & Hr).
  apply bind_ok in Hr as (rid & s & [Hu ->]%uuidParam_ok & Hr).
  destruct (entered_row rid' w1 w0 locked snapshot Hok Hen rid Hu) as (Hin & Hid & _ & Hs & Hsid & Hcan).
  apply bind_ok in Hr as (u1 & s1 & Hex & Hr). unfold execute, modify in Hex. injection Hex as <- <-.
  apply bind_ok in Hr as (u2 & s2 & Hcancel & Hr).
  apply cancelRoomJobs_ok in Hcancel as (rid2 & p & Hu2 & Hp & ->). rewrite Hp in * by done.
  assert (rid2 = rid) as -> by congruence.
  apply bind_ok in Hr as (corr & s3 & Huuid & Hr). unfold randomUUID in Huuid. injection Huuid as <- <-.
  rewrite Hsid in Hnone.
  eexists rid, locked, now, _. split_and!; [done|done|done|done|congruence|by eexists|].
  eapply (close_append rid' rid w1 w0 locked snapshot now now _
    (World (db w0) (S (ticks w0)) (txs w0) (uuids w0) (tx w0))); [exact Hen|exact Hok|exact Hu|done|..|exact Hr].
  - simpl. split; [apply NoDup_singleton|done].
  - simpl. by rewrite (en_world _ _ _ _ _ Hen).
  - done.
  - rewrite <- Hnone. by apply find_same_events.
  - reflexivity.
  - reflexivity.
  - reflexivity.
Qed.

(** What [closeIfDue] did: it closed the room at the end of its time, or the room was
    not due and nothing changed. *)
Lemma closeIfDue_effect rid' w r w' :
  ledger_ok (db w) -> closeIfDue payloads rid' w = (Ok r, w') ->
  exists locked snapshot w0, entered rid' w w0 locked snapshot /\
  match r with
  | None => db w' = db w
  | Some e => exists now closesAt job, (exists n, clock_now n = Some now)
      /\ due locked snapshot closesAt now job (db w)
      /\ (fst (findOneByCausation payloads (rm_id locked) (jb_id job) w0) = Ok None ->
          closed_by (rm_id locked) locked closesAt
            (Draft "room.closed" (jb_id job) system room_clock 1 add closesAt (jb_id job) (jb_correlation_id job)
               (closedPayload closesAt)) e w')
  end.
Proof.
  intros Hok (locked & snapshot & w0 & Hen & Hr & _)%transact_ok.
  exists locked, snapshot, w0. split; [done|].
  assert (db w0 = db w) as Hdb by (by rewrite (en_world _ _ _ _ _ Hen)).
  destruct (closeDue_cases payloads rid' w w0 locked snapshot Hen w0 r w' Hdb Hr)
    as [[-> Heq]|(e & now & closesAt & job & w1 & -> & Hnow & Hdue & Hdb1 & Htx1 & Happ)]; [congruence|].
  exists now, closesAt, job. split; [by eexists|]. split; [done|]. intros Hnone.
  unfold appendAutomaticClose in Happ.
  apply bind_ok in Happ as (now2 & s & [_ ->]%validNow_ok & Happ).
  apply bind_ok in Happ as (rid & s & [Hu ->]%uuidParam_ok & Happ).
  assert (uuid_in rid' = Some (rm_id locked)) as Hu'.
  { pose proof (en_locked _ _ _ _ _ Hen) as Hl. apply find_elem in Hl as [_ Hl].
    apply bool_decide_eq_true in Hl. congruence. }
  destruct (entered_row rid' w w0 locked snapshot Hok Hen _ Hu') as (_ & _ & _ & _ & _ & Hcan).
  assert (rid = rm_id locked) as -> by congruence.
  apply bind_ok in Happ as (u1 & s1 & Hex & Happ). unfold execute, modify in Hex. injection Hex as <- <-.
  apply bind_ok in Happ as (u2 & s2 & Hcancel & Happ).
  apply cancelRoomJobs_ok in Hcancel as (rid2 & p & Hu2 & Hp & ->). rewrite Hp in * by done.
  assert (rid2 = rm_id locked) as -> by congruence.
  eapply (close_append rid' (rm_id locked) w w0 locked snapshot closesAt now2 _
    (World (db w1) (S (ticks w1)) (txs w1) (uuids w1) (tx w1))); [exact Hen|exact Hok|exact Hu'|done|..|exact Happ].
  - simpl. split; [apply NoDup_singleton|done].
  - exact Hdb1.
  - exact Htx1.
  - rewrite <- Hnone. apply find_same_events; simpl; by rewrite Hdb1, Hdb.
  - reflexivity.
  - reflexivity.
  - reflexivity.
Qed.

(** The open of a room: the row, the event and the job that will close it. *)
Record opened_by (rid' rid : string) (locked : room_row) (now : Z) (tid c : string) (e : RoomEventEnvelope)
    (w' : world) : Prop := {
  op_row : withNextRoomSeq (rm_next_room_seq locked + 1) (withOpening now (now + ROOM_DURATION_MS) locked)
             ∈ rooms (db w');
  op_event : exists row, row ∈ events (db w') /\ eventRow e = Some row;
  op_roomId : roomId e = rid;
  op_roomSeq : roomSeq e = rm_next_room_seq locked;
  op_draft : type e = "room.opened"%string /\ actorId e = tid /\ actorKind e = human /\ actorRole e = teacher
    /\ eventTime e = toISOString now /\ causationId e = c
    /\ payload e = openedPayload now (now + ROOM_DURATION_MS);
  op_job : exists j src, j ∈ jobs (db w') /\ jb_type j = AUTO_CLOSE /\ jb_status j = queued
    /\ jb_room_id j = Some rid /\ jb_run_after j = now + ROOM_DURATION_MS
    /\ uuid_in (eventId e) = Some src /\ jb_source_event_id j = Some src
    /\ jb_dedupe_key j = (AUTO_CLOSE ++ ":" ++ rid')%string
    /\ jsonb_in (autoClosePayload rid' (now + ROOM_DURATION_MS)) = Some (jb_payload j);
}.

Lemma open_effect rid' tid c sid w e w' :
  ledger_ok (db w) -> openRoomCommand payloads rid' tid c sid w = (Ok e, w') ->
  (assertManualRetry e "room.opened" rid' tid = Ok e /\ db w' = db w) \/
  exists rid locked now, uuid_in rid' = Some rid /\ locked ∈ rooms (db w) /\ rm_id locked = rid
    /\ rm_teacher_id locked = tid /\ rm_status locked = scheduled /\ (exists n, clock_now n = Some now)
    /\ opened_by rid' rid locked now tid c e w'.
Proof.
  intros Hok (locked & snapshot & w0 & Hen & Ht & [Hretry|[Hnone Hr]])%retried_ok; [by left|right].
  unfold openRoom in Hr. apply bind_ok in Hr as (u & s & [Hst ->]%throw_if_ok & Hr).
  apply negb_false_iff, bool_decide_eq_true in Hst. simpl in Hst.
  apply bind_ok in Hr as (now & s & [Hnow ->]%validNow_ok & Hr). cbv zeta in Hr.
  apply bind_ok in Hr as (rid & s & [Hu ->]%uuidParam_ok & Hr).
  destruct (entered_row rid' w w0 locked snapshot Hok Hen rid Hu) as (Hin & Hid & _ & Hs & Hsid & Hcan).
  apply bind_ok in Hr as (u1 & s1 & Hex & Hr). unfold execute, modify in Hex. injection Hex as <- <-.
  apply bind_ok in Hr as (corr & s2 & Huuid & Hr). unfold randomUUID in Huuid. injection Huuid as <- <-.
  apply bind_ok in Hr as (ev & s3 & Happ & Hr).
  apply bind_ok in Hr as (jobId & s4 & Huuid & Hr). unfold randomUUID in Huuid. injection Huuid as <- <-.
  apply bind_ok in Hr as (txNow & s5 & Hg & Hr). unfold gets in Hg. injection Hg as <- <-.
  apply bind_ok in Hr as (u2 & s6 & Hjob & Hr). run_ok.
  apply append_new in Happ as (Hcd & row & env & j & w3 & Hwr & ->); [|done|simpl; split; [|done]|].
  2: { apply (bool_decide_unpack _). vm_compute. done. }
  2: { rewrite <- Hnone. by apply find_same_events. }
  destruct (completed_draft _ _ _ _ _ _ Hcd) as (? & ? & ? & ? & _ & _ & ? & ? & _ & ?).
  simpl in Hwr. rewrite (en_world _ _ _ _ _ Hen) in Hwr, Hcd. simpl in Hwr, Hcd.
  apply execute_or_ok in Hjob as (d' & Hjob & ->).
  exists (rm_id locked), locked, now. split_and!; [done|done|done|done|congruence|by eexists|].
  unfold insertJob in Hjob. repeat (apply bind_Some in Hjob; destruct Hjob as (? & ? & Hjob)). simplify_eq.
  constructor; simpl; try done.
  - rewrite Hsid in Hwr.
    by refine (written_room (rm_id locked) (withOpening now (now + ROOM_DURATION_MS)) locked _ _ w _ _ _ _ _
      Hin _ _ _ Hwr).
  - exists row. split; [|by apply Hwr]. rewrite (wr_world _ _ _ _ _ _ _ _ Hwr). simpl. set_solver.
  - rewrite (cd_roomId _ _ _ _ _ _ Hcd). done.
  - by apply Hcd.
  - eexists _, _. split; [apply elem_of_app; right; by apply list_elem_of_singleton|]. simpl.
    split_and!; done.
Qed.
End Effects.

(** ** Reachable databases *)

(** The times a room's row has in each status. *)
Definition room_times_ok (r : room_row) : Prop :=
  match rm_status r with
  | scheduled => rm_starts_at r = None /\ rm_closes_at r = None /\ rm_closed_at r = None
  | open | paused => exists t, rm_starts_at r = Some t /\ rm_closes_at r = Some (t + ROOM_DURATION_MS)
                       /\ rm_closed_at r = None
  | closed => exists t c, rm_starts_at r = Some t /\ rm_closes_at r = Some (t + ROOM_DURATION_MS)
                /\ rm_closed_at r = Some c
  end.

Lemma room_step_times r r' : room_step r r' -> room_times_ok r -> room_times_ok r'.
Proof.
  unfold room_times_ok. intros Hstep. destruct Hstep as [n|t n Hs|n Hs|n Hs|t n Hs]; simpl; try done.
  - rewrite Hs. intros (_ & _ & Hc). eauto.
  - by rewrite Hs.
  - by rewrite Hs.
  - rewrite !elem_of_cons, elem_of_nil in Hs.
    destruct Hs as [Hs|[Hs|[]]]; rewrite Hs; intros (s & ? & ? & _); eauto.
Qed.

(** Who a room belongs to never changes. *)
Lemma room_step_owner r r' :
  room_step r r' -> rm_id r' = rm_id r /\ rm_teacher_id r' = rm_teacher_id r /\ rm_nova_actor_id r' = rm_nova_actor_id r.
Proof. by intros []. Qed.

Section Reachable.
Context `{Schemas} `{Postgres} `{Environment}.
Variable payloads : EventPayloadRegistry.

(** A command was run, whatever its outcome. *)
Definition called (w w' : world) : Prop := exists c r, runCall payloads c w = (r, w').

Definition lifecycle_ok (d : database) : Prop := ledger_ok d /\ Forall room_times_ok (rooms d).

Lemma called_ok w w' : called w w' -> lifecycle_ok (db w) -> lifecycle_ok (db w') /\ rooms_step (db w) (db w').
Proof.
  intros (c & r & Hr) [Hok Ht]. pose proof (runCall_step payloads c w r w' Hok Hr) as Hst.
  split; [|done]. split; [by eapply runCall_ledger|].
  unfold rooms_step in Hst. revert Ht. induction Hst; intros Ht; constructor;
    apply Forall_cons in Ht as [? ?]; [by eapply room_step_times|auto].
Qed.

(** A closed room stays closed, with its closing time. *)
Lemma closed_stays r r' : room_step r r' -> rm_status r = closed -> rm_status r' = closed /\ rm_closed_at r' = rm_closed_at r.
Proof.
  intros Hst Hc. destruct Hst as [n|t n Hs|n Hs|n Hs|t n Hs]; try congruence; [done|].
  rewrite !elem_of_cons, elem_of_nil in Hs. destruct Hs as [|[|[]]]; congruence.
Qed.
End Reachable.

Section Properties.
Context `{Schemas} `{Postgres} `{Environment}.
Variable payloads : EventPayloadRegistry.

(** C2. However the lifecycle commands of any teachers and of the auto-close are
    sequenced, and whether each succeeds, fails or is rolled back, the ledger stays
    sound: each room's events are numbered 1, 2, ... without a gap, its row holds the
    next number, causations are unique per room and each event has exactly one outbox
    entry and one analytics job; and each room's times agree with its status. *)
Theorem lifecycle_reachable_sound w w' :
  rtc (called payloads) w w' -> lifecycle_ok (db w) -> lifecycle_ok (db w').
Proof.
  induction 1 as [w|w w1 w' Hcall _ IH]; [done|]. intros Hok. by apply IH, (called_ok payloads w).
Qed.

(** The state machine of a room: a command changes each room's row, its sequence
    number aside, along one edge at most: scheduled to open (with a closing time 45
    minutes after the start), open to paused, paused to open, open or paused to closed.
    A closed room stays closed with its closing time, and the owner and the identity of
    a room never change. *)
Theorem lifecycle_transitions c w r w' :
  ledger_ok (db w) -> runCall payloads c w = (r, w') ->
  Forall2 (fun row row' => room_step row row' /\ rm_id row' = rm_id row /\ rm_teacher_id row' = rm_teacher_id row
    /\ (rm_status row = closed -> rm_status row' = closed /\ rm_closed_at row' = rm_closed_at row))
    (rooms (db w)) (rooms (db w')).
Proof.
  intros Hok Hr. eapply Forall2_impl; [by eapply runCall_step|]. intros row row' Hst.
  destruct (room_step_owner _ _ Hst) as (? & ? & _). split_and!; try done. by apply closed_stays.
Qed.

(** A teacher's [open] that ends normally answers a retry of the same command with
    its stored event and changes nothing, or opens a scheduled room of that teacher: the
    row is open from now to 45 minutes later, the event [room.opened] takes the room's
    next number, and a queued auto-close job is due at the closing time. *)
Theorem open_effect_exact rid' tid c sid w e w' :
  ledger_ok (db w) -> openRoomCommand payloads rid' tid c sid w = (Ok e, w') ->
  (assertManualRetry e "room.opened" rid' tid = Ok e /\ db w' = db w) \/
  exists rid locked now, uuid_in rid' = Some rid /\ locked ∈ rooms (db w) /\ rm_id locked = rid
    /\ rm_teacher_id locked = tid /\ rm_status locked = scheduled /\ (exists n, clock_now n = Some now)
    /\ opened_by rid' rid locked now tid c e w'.
Proof. apply open_effect. Qed.

(** A teacher's [close] that ends normally answers a retry, or closes an open or
    paused room of that teacher now: the row, the event and the jobs, of which none but
    those of the analytics stream is left unfinished. *)
Theorem close_effect_exact rid' tid c sid w e w' :
  ledger_ok (db w) -> close payloads rid' tid c sid w = (Ok e, w') ->
  (assertManualRetry e "room.closed" rid' tid = Ok e /\ db w' = db w) \/
  exists rid locked now corr, uuid_in rid' = Some rid /\ locked ∈ rooms (db w) /\ rm_id locked = rid
    /\ rm_teacher_id locked = tid /\ rm_status locked ∈ [open; paused] /\ (exists n, clock_now n = Some now)
    /\ closed_by rid locked now (Draft "room.closed" tid human teacher 1 add now c corr (closedPayload now)) e w'.
Proof. apply close_effect. Qed.

(** [closeIfDue] closes a room only when it is due: open or paused, its closing time
    passed, its oldest auto-close job queued or running and matching the room and its
    opening event; then (unless the job's event is already in the ledger) the room is
    closed as of its closing time, not of now, with an event of the job. Otherwise
    nothing changes. *)
Theorem closeIfDue_exact rid' w r w' :
  ledger_ok (db w) -> closeIfDue payloads rid' w = (Ok r, w') ->
  exists locked snapshot w0, entered rid' w w0 locked snapshot /\
  match r with
  | None => db w' = db w
  | Some e => exists now closesAt job, (exists n, clock_now n = Some now)
      /\ due locked snapshot closesAt now job (db w)
      /\ (fst (findOneByCausation payloads (rm_id locked) (jb_id job) w0) = Ok None ->
          closed_by (rm_id locked) locked closesAt
            (Draft "room.closed" (jb_id job) system room_clock 1 add closesAt (jb_id job) (jb_correlation_id job)
               (closedPayload closesAt)) e w')
  end.
Proof. apply closeIfDue_effect. Qed.
End Properties.

Lemma demo_lifecycle_ok : lifecycle_ok (db demoWorld).
Proof.
  split; [|by repeat constructor].
  apply ledger_ok_fresh; try done; [apply NoDup_singleton|]. apply Forall_singleton. vm_compute. done.
Qed.

(** A scheduled room that is opened, paused, resumed and closed. *)
Definition demoScript : list lifecycle_call :=
  [Open demoRoom demoTeacher (numberedUuid 900001) (Some demoSession);
   Pause demoRoom demoTeacher (numberedUuid 900002) None;
   Resume demoRoom demoTeacher (numberedUuid 900003) None;
   Close demoRoom demoTeacher (numberedUuid 900004) None].
Definition runScript (cs : list lifecycle_call) (w : world) : world :=
  foldl (fun w c => snd (runCall corePayloadNames c w)) w cs.

Lemma runScript_rtc cs w : rtc (called corePayloadNames) w (runScript cs w).
Proof.
  revert w. induction cs as [|c cs IH]; intros w; [constructor|]. simpl.
  eapply rtc_l; [|apply IH]. exists c. destruct (runCall _ _ _) as [r w']. by exists r.
Qed.

Example demoScript_run :
  let d := db (runScript demoScript demoWorld) in
  map rm_status (rooms d) = [closed] /\ map ev_room_seq (events d) = [1; 2; 3; 4]
  /\ map rm_next_room_seq (rooms d) = [5] /\ map ev_type (events d)
     = ["room.opened"; "room.paused"; "room.resumed"; "room.closed"]%string
  /\ map jb_status (jobs d) = [queued; cancelled; queued; queued; queued].
Proof. vm_compute. done. Qed.

(** ** Concrete runs *)

Lemma lifecycle_reachable_sound_witness :
  lifecycle_ok (db demoWorld) /\ lifecycle_ok (db (runScript demoScript demoWorld)).
Proof.
  split; [exact demo_lifecycle_ok|].
  exact (lifecycle_reachable_sound corePayloadNames demoWorld _ (runScript_rtc demoScript demoWorld) demo_lifecycle_ok).
Defined.

Definition demoOpen : IO RoomEventEnvelope :=
  openRoomCommand corePayloadNames demoRoom demoTeacher demoCommand (Some demoSession).
Definition demoOpened : world := snd (demoOpen demoWorld).
Definition demoOpenedEvent : RoomEventEnvelope := match fst (demoOpen demoWorld) with Ok e => e | Err e => noEvent e end.
Lemma demoOpen_run : demoOpen demoWorld = (Ok demoOpenedEvent, demoOpened).
Proof. vm_compute. done. Qed.

Lemma lifecycle_transitions_witness :
  let w' := snd (runCall corePayloadNames (Open demoRoom demoTeacher demoCommand (Some demoSession)) demoWorld) in
  map rm_status (rooms (db demoWorld)) = [scheduled] /\ map rm_status (rooms (db w')) = [open] /\
  Forall2 (fun row row' => room_step row row' /\ rm_id row' = rm_id row /\ rm_teacher_id row' = rm_teacher_id row
      /\ (rm_status row = closed -> rm_status row' = closed /\ rm_closed_at row' = rm_closed_at row))
      (rooms (db demoWorld)) (rooms (db w')).
Proof.
  set (c := Open demoRoom demoTeacher demoCommand (Some demoSession)).
  split; [reflexivity|]. split; [vm_compute; reflexivity|].
  refine (lifecycle_transitions corePayloadNames c demoWorld (fst (runCall corePayloadNames c demoWorld)) _
    demo_ledger_ok _). by destruct (runCall corePayloadNames c demoWorld).
Defined.

Lemma open_effect_exact_witness :
  (assertManualRetry demoOpenedEvent "room.opened" demoRoom demoTeacher = Ok demoOpenedEvent
     /\ db demoOpened = db demoWorld) \/
  exists rid locked now, uuid_in demoRoom = Some rid /\ locked ∈ rooms (db demoWorld) /\ rm_id locked = rid
    /\ rm_teacher_id locked = demoTeacher /\ rm_status locked = scheduled /\ (exists n, clock_now n = Some now)
    /\ opened_by demoRoom rid locked now demoTeacher demoCommand demoOpenedEvent demoOpened.
Proof.
  exact (open_effect_exact corePayloadNames demoRoom demoTeacher demoCommand (Some demoSession) demoWorld
    demoOpenedEvent demoOpened demo_ledger_ok demoOpen_run).
Defined.

Lemma demoOpened_ok : ledger_ok (db demoOpened).
Proof.
  refine (runCall_ledger corePayloadNames (Open demoRoom demoTeacher demoCommand (Some demoSession)) demoWorld
    (Ok (Some demoOpenedEvent)) demoOpened demo_ledger_ok _).
  simpl. fold demoOpen. rewrite (bind_run _ _ _ _ _ demoOpen_run). done.
Qed.

Definition demoCloseCommand : string := numberedUuid 900004.
Definition demoClose : IO RoomEventEnvelope := close corePayloadNames demoRoom demoTeacher demoCloseCommand None.
Definition demoClosed : world := snd (demoClose demoOpened).
Definition demoClosedEvent : RoomEventEnvelope := match fst (demoClose demoOpened) with Ok e => e | Err e => noEvent e end.

Lemma close_effect_exact_witness :
  (assertManualRetry demoClosedEvent "room.closed" demoRoom demoTeacher = Ok demoClosedEvent
     /\ db demoClosed = db demoOpened) \/
  exists rid locked now corr, uuid_in demoRoom = Some rid /\ locked ∈ rooms (db demoOpened) /\ rm_id locked = rid
    /\ rm_teacher_id locked = demoTeacher /\ rm_status locked ∈ [open; paused] /\ (exists n, clock_now n = Some now)
    /\ closed_by rid locked now (Draft "room.closed" demoTeacher human teacher 1 add now demoCloseCommand corr
          (closedPayload now)) demoClosedEvent demoClosed.
Proof.
  refine (close_effect_exact corePayloadNames demoRoom demoTeacher demoCloseCommand None demoOpened
    demoClosedEvent demoClosed demoOpened_ok _). vm_compute. done.
Defined.

(** An hour after the room was opened. *)
Definition later (w : world) : world := World (db w) (ticks w + 3600) (txs w + 3600) (uuids w) (tx w).
Lemma later_ok w : ledger_ok (db w) -> ledger_ok (db (later w)).
Proof. done. Qed.
Definition demoDueResult : option RoomEventEnvelope :=
  match fst (closeIfDue corePayloadNames demoRoom (later demoOpened)) with Ok o => o | Err _ => None end.
Definition demoAutoClosed : world := snd (closeIfDue corePayloadNames demoRoom (later demoOpened)).

Example demo_auto_closed :
  map rm_status (rooms (db demoAutoClosed)) = [closed]
  /\ map rm_closed_at (rooms (db demoAutoClosed)) = map rm_closes_at (rooms (db demoOpened))
  /\ map ev_actor_kind (events (db demoAutoClosed)) = [human; system].
Proof. vm_compute. done. Qed.

Lemma closeIfDue_exact_witness :
  demoDueResult <> None /\
  exists locked snapshot w0, entered demoRoom (later demoOpened) w0 locked snapshot /\
  match demoDueResult with
  | None => db demoAutoClosed = db (later demoOpened)
  | Some e => exists now closesAt job, (exists n, clock_now n = Some now)
      /\ due locked snapshot closesAt now job (db (later demoOpened))
      /\ (fst (findOneByCausation corePayloadNames (rm_id locked) (jb_id job) w0) = Ok None ->
          closed_by (rm_id locked) locked closesAt
            (Draft "room.closed" (jb_id job) system room_clock 1 add closesAt (jb_id job) (jb_correlation_id job)
               (closedPayload closesAt)) e demoAutoClosed)
  end.
Proof.
  split; [vm_compute; done|].
  assert (closeIfDue corePayloadNames demoRoom (later demoOpened) = (Ok demoDueResult, demoAutoClosed)) as E
    by (vm_compute; done).
  pose proof (closeIfDue_exact corePayloadNames demoRoom (later demoOpened) demoDueResult demoAutoClosed
    (later_ok demoOpened demoOpened_ok) E) as P.
  exact P.
Defined.

(** ** Identifiers in upper case *)

Definition upperRoom : string := "aaaaaaaa-aaaa-4aaa-8aaa-aaaaaaaaaaaa".
Definition upperDb : database :=
  set_rooms [RoomRow upperRoom demoNova demoTeacher "Photosynthesis" scheduled 2700 None None None 1 1704060000000] demoDb.
Definition upperWorld : world := World upperDb 0 0 0 (Locals 0 1 None).

(** A room identifier is accepted in either case, and opening a room under its
    upper-case spelling succeeds; but the auto-close job keeps the spelling of the
    command, so it never matches the room, which stays open after its closing time. *)
Theorem upper_case_room_is_never_closed :
  let '(r, opened) := openRoomCommand corePayloadNames (upper upperRoom) demoTeacher demoCommand None upperWorld in
  let '(r', w') := closeIfDue corePayloadNames upperRoom (later opened) in
  is_ok r = true /\ r' = Ok None /\ map rm_status (rooms (db w')) = [open]
  /\ Forall (fun row => exists t, rm_closes_at row = Some t /\ exists now, clock_now (ticks (later opened)) = Some now /\ t < now)
       (rooms (db w')).
Proof. vm_compute. split_and!; try done. repeat constructor. eexists. split; [done|]. eexists. split; done. Qed.

(** A command identifier is accepted in either case too, and a room opened under one
    with an upper-case letter has an event that can never be read again: every page of
    the room's events and every retry of the command fails. *)
Theorem upper_case_command_is_unreadable :
  let cmd := upper "4444444a-4444-4444-8444-444444444444" in
  let '(r, opened) := openRoomCommand corePayloadNames demoRoom demoTeacher cmd None demoWorld in
  is_ok r = true
  /\ fst (eventsAfter corePayloadNames demoRoom (NInt 0) (NInt 500) opened) = Err INVALID_STORED_ROOM_EVENT
  /\ fst (openRoomCommand corePayloadNames demoRoom demoTeacher cmd None opened) = Err INVALID_STORED_ROOM_EVENT.
Proof. vm_compute. done. Qed.
