(* ===== verification/Jobs.v ===== *)
(** * Background jobs: claims, leases and completions

    [apps/server/src/modules/jobs/job-store.ts] (a worker claims the jobs that are due),
    the two statements it runs ([db/sql/claim_worker_job.sql] and
    [db/sql/settle_worker_job_claims.sql]) and
    [apps/server/src/modules/jobs/job-claim-authority.ts] (a claim is checked, and the
    effect of a job recorded, inside the transaction of the effect).

    No other transaction runs meanwhile, so [FOR UPDATE] waits for nothing and
    [SKIP LOCKED] skips nothing. Rows come back in the order of the table. *)
From S2P Require Import Prelude Text JsDate JsValue Contracts Database Concrete Ledger Lifecycle.
#[local] Set Warnings "-register-all,-clear-no-such-hyp,-level-tolerance".

(** The text of a [bigint] parameter, which the server reads. *)
Class BigintText : Type := {
  bigint_in : string -> option Z;
}.
Definition MAX_INT8 : Z := 9223372036854775807.
Record BigintLaws `{BigintText} : Prop := {
  bigint_in_text z : 0 <= z <= MAX_INT8 -> bigint_in (bigintText z) = Some z;
}.

(** ** Claims *)

Record JobClaimIdentity : Type := ClaimIdentity {
  jc_jobId : string;
  jc_jobType : string;
  jc_roomId : option string;
  jc_sourceEventId : option string;
  jc_dedupeKey : string;
  jc_correlationId : string;
  jc_claimGeneration : string;
  jc_claimToken : string;
  jc_workerId : string;
}.

Record ClaimedJob : Type := Claimed {
  cj_jobId : string;
  cj_jobType : string;
  cj_roomId : option string;
  cj_sourceEventId : option string;
  cj_dedupeKey : string;
  cj_correlationId : string;
  cj_payload : json;
  cj_attempts : Z;
  cj_claimGeneration : string;
  cj_claimToken : string;
  cj_workerId : string;
  cj_analyticsOrderSeq : option Z;
  cj_analyticsOrderKind : option Z;
}.

Definition claimIdentity (j : ClaimedJob) : JobClaimIdentity :=
  ClaimIdentity (cj_jobId j) (cj_jobType j) (cj_roomId j) (cj_sourceEventId j) (cj_dedupeKey j)
    (cj_correlationId j) (cj_claimGeneration j) (cj_claimToken j) (cj_workerId j).

Definition ORDER_INVARIANT : error := Failure "WORKER_JOB_ANALYTICS_ORDER_INVARIANT".
(** The order is there or not as a whole; a sequence number is a safe one, a kind 0 or 1. *)
Definition orderShapeOk (seq kind : option Z) : bool :=
  Bool.eqb (bool_decide (seq = None)) (bool_decide (kind = None))
  && match seq with Some s => (s <=? MAX_SAFE_INTEGER) && (0 <=? s) | None => true end
  && match kind with Some k => bool_decide (k ∈ [0; 1]) | None => true end.
Definition orderFitsType (type : string) (seq kind : option Z) : bool :=
  if decide (type = ANALYTICS_CONSUME) then
    match seq with Some s => bool_decide (kind = Some 0) && (1 <=? s) | None => false end
  else if decide (type = ANALYTICS_REPLAY) then bool_decide (seq <> None /\ kind = Some 1)
  else bool_decide (seq = None /\ kind = None).
Definition filled (s : option string) : option string :=
  match s with Some EmptyString | None => None | Some t => Some t end.

Definition toClaimedJob (row : job_row) : result error ClaimedJob :=
  match filled (jb_claim_token row), filled (jb_locked_by row) with
  | Some token, Some worker =>
      if negb (orderShapeOk (jb_order_seq row) (jb_order_kind row)) then Err ORDER_INVARIANT
      else if negb (orderFitsType (jb_type row) (jb_order_seq row) (jb_order_kind row)) then Err ORDER_INVARIANT
      else Ok (Claimed (jb_id row) (jb_type row) (jb_room_id row) (jb_source_event_id row) (jb_dedupe_key row)
                 (jb_correlation_id row) (jb_payload row) (jb_attempts row)
                 (bigintText (jb_claim_generation row)) token worker (jb_order_seq row) (jb_order_kind row))
  | _, _ => Err (Failure "WORKER_JOB_CLAIM_INVARIANT")
  end.

(** ** [claim_worker_job.sql] *)

Definition LEASE_MS : Z := 2 * 60 * 1000.
Definition leaseExpired (now : Z) (j : job_row) : bool :=
  match jb_locked_at j with Some t => t <? now - LEASE_MS | None => false end.
Definition unlocked (j : job_row) : bool :=
  bool_decide (jb_claim_token j = None /\ jb_locked_at j = None /\ jb_locked_by j = None).
(** Waiting and free, or held by a worker whose lease has run out. *)
Definition free (now : Z) (j : job_row) : bool :=
  (bool_decide (jb_status j ∈ [queued; retryable]) && unlocked j)
  || (bool_decide (jb_status j = running) && leaseExpired now j).

(** The comparison of the rows (order, kind, identifier), false where SQL has null. *)
Definition orderBefore (a b : job_row) : bool :=
  match jb_order_seq a, jb_order_seq b, jb_order_kind a, jb_order_kind b with
  | Some s, Some s', Some k, Some k' =>
      (s <? s') || ((s =? s') && ((k <? k') || ((k =? k') && String.ltb (jb_id a) (jb_id b))))
  | _, _, _, _ => false
  end.
(** An earlier analytics job of the room has not succeeded. *)
Definition blocked (d : database) (j : job_row) : bool :=
  existsb (fun prior =>
    isAnalytics j && isAnalytics prior
    && match jb_room_id prior, jb_room_id j with Some a, Some b => bool_decide (a = b) | _, _ => false end
    && orderBefore prior j && negb (bool_decide (jb_status prior = succeeded))) (jobs d).

Definition byDue (a b : job_row) : bool :=
  (jb_run_after a <? jb_run_after b)
  || ((jb_run_after a =? jb_run_after b) && (jb_created_at a <=? jb_created_at b)).
Definition claimWorkerJobs (now limit : Z) (d : database) : list string :=
  map jb_id (take (Z.to_nat limit)
    (sort_by byDue (select_where (fun j => (jb_run_after j <=? now) && free now j && negb (blocked d j)) (jobs d)))).

(** ** [settle_worker_job_claims.sql] *)

Section Settle.
Context `{Postgres} `{Environment}.

(** The effect of the claim is recorded: the worker died after its transaction. *)
Definition recorded (d : database) (j : job_row) : bool :=
  match jb_claim_token j with
  | Some token => existsb (fun c => bool_decide (cp_job_id c = jb_id j) && (cp_generation c =? jb_claim_generation j)
                                    && bool_decide (cp_token_hash c = sha256_hex token)) (completions d)
  | None => false
  end.
Definition recovered (now : Z) (ids : list string) (d : database) (j : job_row) : bool :=
  bool_decide (jb_status j = running) && bool_decide (jb_id j ∈ ids) && recorded d j && leaseExpired now j.
Definition recoveredIds (now : Z) (ids : list string) (d : database) : list string :=
  map jb_id (select_where (recovered now ids d) (jobs d)).
Definition exhausted (now : Z) (ids : list string) (d : database) (j : job_row) : bool :=
  bool_decide (jb_id j ∈ ids) && bool_decide (jb_status j = running) && leaseExpired now j
  && (jb_max_attempts j <=? jb_attempts j) && negb (bool_decide (jb_id j ∈ recoveredIds now ids d)).
Definition exhaustedIds (now : Z) (ids : list string) (d : database) : list string :=
  map jb_id (select_where (exhausted now ids d) (jobs d)).
Definition picked (now : Z) (ids : list string) (d : database) (j : job_row) : bool :=
  bool_decide (jb_id j ∈ ids) && (jb_attempts j <? jb_max_attempts j)
  && negb (bool_decide (jb_id j ∈ recoveredIds now ids d)) && negb (bool_decide (jb_id j ∈ exhaustedIds now ids d))
  && free now j && negb (blocked d j).

Definition released (s : JobStatus) (lastError : option string) (now : Z) (j : job_row) : job_row :=
  JobRow (jb_id j) (jb_type j) (jb_room_id j) (jb_source_event_id j) (jb_dedupe_key j) (jb_correlation_id j)
    (jb_payload j) s (jb_attempts j) (jb_max_attempts j) (jb_run_after j) (jb_claim_generation j)
    None None None lastError (jb_created_at j) now (jb_order_seq j) (jb_order_kind j).
Definition leased (now : Z) (workerId token : string) (j : job_row) : job_row :=
  JobRow (jb_id j) (jb_type j) (jb_room_id j) (jb_source_event_id j) (jb_dedupe_key j) (jb_correlation_id j)
    (jb_payload j) running (jb_attempts j + 1) (jb_max_attempts j) (jb_run_after j) (jb_claim_generation j + 1)
    (Some token) (Some now) (Some workerId) (jb_last_error j) (jb_created_at j) now (jb_order_seq j) (jb_order_kind j).

(** One pass over the table; [n] is the next of [gen_random_uuid()]. The rows returned
    are those leased. *)
Fixpoint settleRows (now : Z) (workerId : string) (ids : list string) (d : database) (n : nat) (l : list job_row)
    : list job_row * list job_row * nat :=
  match l with
  | [] => ([], [], n)
  | j :: l' =>
      let '(j', out, n1) :=
        if recovered now ids d j then (released succeeded None now j, [], n)
        else if exhausted now ids d j then (released dead (Some "JOB_LEASE_EXPIRED_MAX_ATTEMPTS"%string) now j, [], n)
        else if picked now ids d j then
          let x := leased now workerId (uuid_supply n) j in (x, [x], S n)
        else (j, [], n) in
      let '(l'', outs, n2) := settleRows now workerId ids d n1 l' in
      (j' :: l'', out ++ outs, n2)
  end.

Definition DELETE_SURFACE : string := "room.delete-surface.v1".
(** The deletions whose job is exhausted. *)
Definition lifecycleDead (now : Z) (ids : list string) (d : database) (x : deletion_row) : bool :=
  existsb (fun j => exhausted now ids d j && bool_decide (jb_type j = DELETE_SURFACE)
                    && bool_decide (strField "deletionJobId" (jb_payload j) = Some (dl_id x))) (jobs d).
Definition deadDeletion (x : deletion_row) : deletion_row :=
  DeletionRow (dl_id x) (dl_room_id x) (dl_owner_teacher_id x)
    (if decide (dl_status x ∈ [d_completed; d_dead]) then dl_status x else d_dead).

(** The generation of a job to be leased has no successor of its width. *)
Definition generationOverflow (now : Z) (ids : list string) (d : database) : bool :=
  existsb (fun j => picked now ids d j && (MAX_INT8 <=? jb_claim_generation j)) (jobs d).
Definition settleWorkerJobClaims (workerId : string) (ids : list string) : IO (list job_row) := fun w =>
  let now := tx_now (tx w) in let d := db w in
  if generationOverflow now ids d then (Err (Failure "bigint out of range"), w) else
  let '(js, out, n) := settleRows now workerId ids d (uuids w) (jobs d) in
  let d' := set_deletions (update_where (lifecycleDead now ids d) deadDeletion (deletions d))
              (set_completions (select_where (fun c => negb (bool_decide (cp_job_id c ∈ recoveredIds now ids d))) (completions d))
                (set_jobs js d)) in
  (Ok out, World d' (ticks w) (txs w) n (tx w)).

(** ** [JobStore.claim] *)

Definition CLAIM_LIMIT_INVALID : error := Failure "WORKER_CLAIM_LIMIT_INVALID".
Definition claim (workerId : string) (limit : jsnum) : IO (list ClaimedJob) :=
  match limit with
  | NInt n =>
      throw_if (n <? 1) CLAIM_LIMIT_INVALID;;
      inTransaction (
        throw_if (MAX_INT8 <? n) (Failure "value out of range for type bigint");;
        now ← gets (fun w => tx_now (tx w));
        jobIds ← query (claimWorkerJobs now n);
        match jobIds with
        | [] => mret []
        | _ => settled ← settleWorkerJobClaims workerId jobIds; mapM (fun row => lift_result (toClaimedJob row)) settled
        end)
  | _ => throw CLAIM_LIMIT_INVALID
  end.
End Settle.

(** ** [JobClaimAuthority] *)

Section Authority.
Context `{Postgres} `{Environment} `{BigintText}.

Definition bigintParam (s : string) : IO Z :=
  match bigint_in s with Some z => mret z | None => throw (Failure "invalid input syntax for type bigint") end.

(** The claim with its texts read by the server. *)
Record claim_key : Type := ClaimKey {
  ck_id : string; ck_type : string; ck_room : option string; ck_source : option string;
  ck_dedupe : string; ck_correlation : string; ck_generation : Z; ck_token : string; ck_worker : string;
}.
Definition readClaim (c : JobClaimIdentity) : IO claim_key :=
  i ← uuidParam (jc_jobId c);
  r ← uuidParamOpt (jc_roomId c);
  s ← uuidParamOpt (jc_sourceEventId c);
  corr ← uuidParam (jc_correlationId c);
  g ← bigintParam (jc_claimGeneration c);
  t ← uuidParam (jc_claimToken c);
  mret (ClaimKey i (jc_jobType c) r s (jc_dedupeKey c) corr g t (jc_workerId c)).

Definition holds_claim (k : claim_key) (j : job_row) : bool :=
  bool_decide (jb_id j = ck_id k) && bool_decide (jb_type j = ck_type k)
  && bool_decide (jb_room_id j = ck_room k) && bool_decide (jb_source_event_id j = ck_source k)
  && bool_decide (jb_dedupe_key j = ck_dedupe k) && bool_decide (jb_correlation_id j = ck_correlation k)
  && (jb_claim_generation j =? ck_generation k) && bool_decide (jb_claim_token j = Some (ck_token k))
  && bool_decide (jb_locked_by j = Some (ck_worker k)) && bool_decide (jb_status j = running).

Definition JOB_CLAIM_STALE : error := Failure "JOB_CLAIM_STALE".
Definition requireCurrent (c : JobClaimIdentity) : IO unit :=
  k ← readClaim c;
  rows ← query (fun d => select_where (holds_claim k) (jobs d));
  throw_if (negb (rowCount rows =? 1)) JOB_CLAIM_STALE.

Definition is_code_char (c : ascii) : bool := between "A" "Z" c || is_digit c || is_char "_" c.
(** [/^[A-Z0-9_]{1,64}$/]. *)
Definition isCompletionCode (s : string) : bool :=
  let l := list_ascii_of_string s in
  (1 <=? Z.of_nat (length l)) && (Z.of_nat (length l) <=? 64) && forallb is_code_char l.

Definition sameMarker (i : string) (g : Z) (c : completion_row) : bool :=
  bool_decide (cp_job_id c = i) && (cp_generation c =? g).
(** [INSERT ... ON CONFLICT (job_id, claim_generation) DO NOTHING]; the other unique key,
    the reference and the check of the generation refuse. A digest and a code that has
    passed the pattern are what the other two checks of the table ask for. *)
Definition insertCompletion (i : string) (g : Z) (tokenHash code : string) (d : database) : option database :=
  if existsb (sameMarker i g) (completions d) then Some d
  else _ ← guardO ((0 <? g) && existsb (fun j => bool_decide (jb_id j = i)) (jobs d)
                   && negb (existsb (fun c => bool_decide (cp_job_id c = i) && bool_decide (cp_token_hash c = tokenHash)) (completions d)));
       Some (set_completions (completions d ++ [CompletionRow i g tokenHash code]) d).

Definition JOB_COMPLETION_CONFLICT : error := Failure "JOB_COMPLETION_CONFLICT".
Definition completeBusiness (c : JobClaimIdentity) (completionCode : string) : IO unit :=
  throw_if (negb (isCompletionCode completionCode)) (Failure "JOB_COMPLETION_CODE_INVALID");;
  requireCurrent c;;
  i ← uuidParam (jc_jobId c);
  g ← bigintParam (jc_claimGeneration c);
  execute_or (Failure "new row violates a constraint of worker_job_completion")
    (insertCompletion i g (sha256_hex (jc_claimToken c)) completionCode);;
  marker ← query (fun d => select_where (sameMarker i g) (completions d));
  throw_if (negb (bool_decide (map (fun m => (cp_token_hash m, cp_code m)) marker
                               = [(sha256_hex (jc_claimToken c), completionCode)]))) JOB_COMPLETION_CONFLICT.
End Authority.

(** ** The table of jobs *)

Section Invariant.
Context `{Postgres} `{Environment} `{BigintText}.

(** A running job has its lease and no other has one ([worker_job_lease_check]). *)
Definition lease_ok (j : job_row) : Prop :=
  (jb_status j = running /\ is_Some (jb_claim_token j) /\ is_Some (jb_locked_at j) /\ is_Some (jb_locked_by j))
  \/ (jb_status j <> running /\ jb_claim_token j = None /\ jb_locked_at j = None /\ jb_locked_by j = None).
Definition canonical_option (s : option string) : Prop := match s with Some u => canonical u | None => True end.
(** Identifiers are as the server prints them. *)
Record job_ok (j : job_row) : Prop := {
  jo_lease : lease_ok j;
  jo_generation : 0 <= jb_claim_generation j <= MAX_INT8;
  jo_id : canonical (jb_id j);
  jo_room : canonical_option (jb_room_id j);
  jo_source : canonical_option (jb_source_event_id j);
  jo_correlation : canonical (jb_correlation_id j);
  jo_token : canonical_option (jb_claim_token j);
}.
Record jobs_ok (d : database) : Prop := {
  js_ids : NoDup (map jb_id (jobs d));
  js_rows : Forall job_ok (jobs d);
}.

(** What a claim makes of a row. *)
Inductive settled_as (now : Z) (workerId : string) (ids : list string) (d : database) (j : job_row) : job_row -> Prop :=
| settled_recovered : recovered now ids d j = true -> settled_as now workerId ids d j (released succeeded None now j)
| settled_exhausted : recovered now ids d j = false -> exhausted now ids d j = true ->
    settled_as now workerId ids d j (released dead (Some "JOB_LEASE_EXPIRED_MAX_ATTEMPTS"%string) now j)
| settled_leased m : picked now ids d j = true -> settled_as now workerId ids d j (leased now workerId (uuid_supply m) j)
| settled_kept : recovered now ids d j = false -> picked now ids d j = false -> settled_as now workerId ids d j j.

Lemma settleRows_spec now workerId ids d l : forall n js out n',
  settleRows now workerId ids d n l = (js, out, n') ->
  Forall2 (settled_as now workerId ids d) l js
  /\ map jb_id out `sublist_of` map jb_id l
  /\ Forall (fun x => exists j m, j ∈ l /\ picked now ids d j = true /\ x = leased now workerId (uuid_supply m) j /\ x ∈ js) out.
Proof.
  induction l as [|j l IH]; intros n js out n'; cbn [settleRows]; [by intros [= <- <- <-]|].
  destruct (recovered now ids d j) eqn:Hr; [|destruct (exhausted now ids d j) eqn:He; [|destruct (picked now ids d j) eqn:Hp]].
  all: destruct (settleRows now workerId ids d _ l) as [[l'' outs] n2] eqn:Es; intros [= <- <- <-];
    destruct (IH _ _ _ _ Es) as (Hs & Hl & Ho); cbn [map app].
  all: assert (forall y, Forall (fun x => exists j m, j ∈ l /\ picked now ids d j = true /\ x = leased now workerId (uuid_supply m) j /\ x ∈ l'') outs ->
    Forall (fun x => exists i m, i ∈ j :: l /\ picked now ids d i = true /\ x = leased now workerId (uuid_supply m) i /\ x ∈ y :: l'') outs) as Hw
    by (intros y Hf; eapply Forall_impl; [exact Hf|]; cbn; intros x (i & m & Hi & Hpi & Hx & Hin); exists i, m; split_and!; [by right|done|done|by right]).
  all: split_and!; [constructor; [|done]| |].
  all: try (by constructor); try (by apply Hw).
  - constructor; [|by apply Hw]. exists j, n. split_and!; [left|done|done|left].
Qed.

Lemma recovered_nil now d j : recovered now [] d j = false.
Proof. unfold recovered. rewrite (bool_decide_false (jb_id j ∈ [])) by set_solver. by rewrite andb_false_r. Qed.
Lemma picked_nil now d j : picked now [] d j = false.
Proof. unfold picked. by rewrite (bool_decide_false (jb_id j ∈ [])) by set_solver. Qed.

(** What a claim that returns has done. *)
Record claim_effect (workerId : string) (n now : Z) (d : database) (out : list job_row) (d' : database) : Prop := {
  ce_rows : Forall2 (settled_as now workerId (claimWorkerJobs now n d) d) (jobs d) (jobs d');
  ce_out : map jb_id out `sublist_of` map jb_id (jobs d);
  ce_leased : Forall (fun x => exists j m, j ∈ jobs d /\ picked now (claimWorkerJobs now n d) d j = true
                        /\ x = leased now workerId (uuid_supply m) j /\ x ∈ jobs d') out;
  ce_completions : completions d'
    = select_where (fun c => negb (bool_decide (cp_job_id c ∈ recoveredIds now (claimWorkerJobs now n d) d))) (completions d);
  ce_generations : Forall (fun j => picked now (claimWorkerJobs now n d) d j = true -> jb_claim_generation j < MAX_INT8) (jobs d);
}.

Lemma mapM_lift_ok {A B} (f : A -> result error B) l (w : world) ys w' :
  mapM (fun x => lift_result (f x)) l w = (Ok ys, w') -> w' = w /\ Forall2 (fun x y => f x = Ok y) l ys.
Proof.
  revert w ys w'. induction l as [|x l IH]; intros w ys w' Hm; [by injection Hm as <- <-|].
  apply mapM_cons_ok in Hm as (y & s1 & ys' & Hy & Hm & ->). unfold lift_result in Hy. injection Hy as Hy <-.
  apply IH in Hm as [-> Hm]. split; [done|]. by constructor.
Qed.

Lemma claim_ok workerId n w l w' :
  claim workerId (NInt n) w = (Ok l, w') ->
  1 <= n /\ exists out, claim_effect workerId n (db_now (txs w)) (db w) out (db w')
                     /\ Forall2 (fun x c => toClaimedJob x = Ok c) out l.
Proof.
  unfold claim. intros (_ & s & [Hn%Z.ltb_ge ->]%throw_if_ok & Hr)%bind_ok. split; [done|].
  unfold inTransaction in Hr. match type of Hr with match ?m with _ => _ end = _ => destruct m as [[ys|e] w1] eqn:Hb; [|done] end.
  injection Hr as <- <-.
  apply bind_ok in Hb as (_ & s & [_ ->]%throw_if_ok & Hb). apply bind_ok in Hb as (now & s & Hnow & Hb).
  unfold gets in Hnow. injection Hnow as <- <-. apply bind_ok in Hb as (ids & s & Hids & Hb).
  unfold query, gets in Hids. injection Hids as Hids <-. cbn [tx tx_now db] in *.
  destruct ids as [|i ids].
  - injection Hb as <- <-. exists []. split; [|constructor]. constructor; rewrite ?Hids; cbn [db].
    + assert (forall js, Forall2 (settled_as (db_now (txs w)) workerId [] (db w)) js js) as Hall; [|apply Hall].
      induction js as [|j js IH]; constructor; [|done]. apply settled_kept; [apply recovered_nil|apply picked_nil].
    + apply sublist_nil_l.
    + constructor.
    + assert (recoveredIds (db_now (txs w)) [] (db w) = []) as ->.
      { unfold recoveredIds, select_where. induction (jobs (db w)) as [|j js IH]; [done|]. cbn [List.filter]. by rewrite recovered_nil. }
      unfold select_where. induction (completions (db w)) as [|c cs IH]; [done|]. cbn [List.filter]. by f_equal.
    + apply Forall_forall. intros j _. by rewrite picked_nil.
  - apply bind_ok in Hb as (out & s & Hset & Hb). apply mapM_lift_ok in Hb as [-> Hout].
    unfold settleWorkerJobClaims in Hset. cbn [tx tx_now db uuids] in Hset.
    destruct (generationOverflow _ _ _) eqn:Hov; [done|]. destruct (settleRows _ _ _ _ _ _) as [[js out'] n'] eqn:Es.
    injection Hset as <- <-. apply settleRows_spec in Es as (Hs & Hl & Ho). exists out'. split; [|done].
    rewrite <- Hids in Hs, Ho, Hov |- *. constructor; cbn [db jobs completions set_deletions set_completions set_jobs]; try done.
    apply Forall_forall. intros j Hj Hp. unfold generationOverflow in Hov. apply Z.nle_gt. intros Hge.
    assert (existsb (fun j => picked (db_now (txs w)) (claimWorkerJobs (db_now (txs w)) n (db w)) (db w) j && (MAX_INT8 <=? jb_claim_generation j)) (jobs (db w)) = true); [|congruence].
    apply existsb_exists. exists j. split; [by apply list_elem_of_In|]. rewrite Hp. apply Z.leb_le. lia.
Qed.
End Invariant.

(** ** Claims over time *)

Section Fencing.
Context `{Postgres} `{Environment} `{BigintText}.

(** What the server does to jobs, one transaction after the other. *)
Inductive job_action (w w' : world) : Prop :=
| act_claim workerId limit r : claim workerId limit w = (r, w') -> job_action w w'
| act_complete c code r : inTransaction (completeBusiness c code) w = (r, w') -> job_action w w'
| act_cancel roomId now keep r : inTransaction (cancelRoomJobs roomId now keep) w = (r, w') -> job_action w w'.

(** Rows stay, and their generations do not go back. *)
Definition row_moved (j j' : job_row) : Prop := jb_id j' = jb_id j /\ jb_claim_generation j <= jb_claim_generation j'.
Definition jobs_moved (d d' : database) : Prop := Forall2 row_moved (jobs d) (jobs d').

Lemma jobs_moved_refl d d' : jobs d' = jobs d -> jobs_moved d d'.
Proof. unfold jobs_moved. intros ->. induction (jobs d); constructor; [by split|done]. Qed.
Lemma jobs_moved_ids d d' : jobs_moved d d' -> map jb_id (jobs d') = map jb_id (jobs d).
Proof. unfold jobs_moved. induction 1 as [|j j' l l' [Hi _] _ IH]; [done|]. cbn [map]. by rewrite Hi, IH. Qed.
#[export] Instance jobs_moved_trans : Transitive jobs_moved.
Proof.
  intros d1 d2 d3. unfold jobs_moved. generalize (jobs d1) (jobs d2) (jobs d3). clear. intros l1 l2 l3 Ha. revert l3.
  induction Ha as [|a b l1 l2 [Hi Hg] _ IH]; intros l3 Hb; [by inversion Hb|].
  apply Forall2_cons_inv_l in Hb as (c & l3' & [Hi' Hg'] & Hb & ->). constructor; [split; [congruence|lia]|by apply IH].
Qed.

Lemma settled_moved now workerId ids d j j' : settled_as now workerId ids d j j' -> row_moved j j'.
Proof. destruct 1; split; simpl; try done; lia. Qed.

Lemma ends_inTransaction {A} (work : IO A) w r w' : inTransaction work w = (r, w') ->
  (exists e, r = Err e /\ db w' = db w)
  \/ exists a w0, r = Ok a /\ db w0 = db w /\ work w0 = (Ok a, w').
Proof.
  unfold inTransaction. destruct (work _) as [[a|e] w1] eqn:Hw; intros [= <- <-]; [right|left; eauto].
  exists a. eexists. split_and!; [done| |exact Hw]. done.
Qed.

Lemma claim_cases workerId limit w r w' : claim workerId limit w = (r, w') ->
  db w' = db w \/ exists n l, limit = NInt n /\ r = Ok l.
Proof.
  unfold claim. destruct limit as [n| | |]; try (intros [= _ <-]; by left). unfold throw_if. destruct (n <? 1); [intros [= _ <-]; by left|].
  rewrite (bind_run _ _ _ tt w) by done. intros Ht. apply ends_inTransaction in Ht as [(e & _ & Hd)|(l & _ & -> & _)]; eauto.
Qed.

Lemma claim_moved workerId limit w r w' : claim workerId limit w = (r, w') -> jobs_moved (db w) (db w').
Proof.
  intros Hc. destruct (claim_cases _ _ _ _ _ Hc) as [Hd|(n & l & -> & ->)]; [apply jobs_moved_refl; by rewrite Hd|].
  apply claim_ok in Hc as (_ & out & [Hr _ _ _ _] & _). eapply Forall2_impl; [exact Hr|]. intros j j'. apply settled_moved.
Qed.

(** The reading of a claim neither reads nor writes the database. *)
Lemma readClaim_run c w r w' : readClaim c w = (r, w') -> w' = w /\ forall w2, readClaim c w2 = (r, w2).
Proof.
  unfold readClaim, uuidParamOpt, uuidParam, bigintParam, mbind, M_bind, mret, M_ret, throw.
  repeat match goal with |- context [match ?x with Some _ => _ | None => _ end] => destruct x end;
    intros [= <- <-]; done.
Qed.

Lemma requireCurrent_ok c w u w' : requireCurrent c w = (Ok u, w') ->
  w' = w /\ exists k j, readClaim c w = (Ok k, w) /\ select_where (holds_claim k) (jobs (db w)) = [j].
Proof.
  unfold requireCurrent. intros (k & s & Hk & Hr)%bind_ok. destruct (readClaim_run _ _ _ _ Hk) as [-> _].
  apply bind_ok in Hr as (rows & s & Hrows & Hr). unfold query, gets in Hrows. injection Hrows as Hrows <-.
  apply throw_if_ok in Hr as [Hc ->]. split; [done|]. apply negb_false_iff, Z.eqb_eq in Hc. unfold rowCount in Hc.
  destruct rows as [|j [|x rest]]; [done| |simpl in Hc; lia]. eauto.
Qed.
Lemma requireCurrent_run c k w : readClaim c w = (Ok k, w) ->
  requireCurrent c w = (if rowCount (select_where (holds_claim k) (jobs (db w))) =? 1 then Ok tt else Err JOB_CLAIM_STALE, w).
Proof.
  intros Hk. unfold requireCurrent. rewrite (bind_run _ _ _ _ _ Hk). rewrite (bind_run _ _ _ (select_where (holds_claim k) (jobs (db w))) w) by done.
  unfold throw_if. by destruct (_ =? 1).
Qed.

Lemma NoDup_map_eq {A B} (f : A -> B) l x y : NoDup (map f l) -> x ∈ l -> y ∈ l -> f x = f y -> x = y.
Proof.
  induction l as [|a l IH]; cbn [map]; [by intros _ Hx%elem_of_nil|]. intros [Hn Hd]%NoDup_cons Hx Hy E.
  apply elem_of_cons in Hx as [->|Hx], Hy as [->|Hy]; [done| | |by apply IH]; exfalso; apply Hn.
  - rewrite E. by apply list_elem_of_fmap_2.
  - rewrite <- E. by apply list_elem_of_fmap_2.
Qed.
(** The one row of a key. *)
Lemma select_where_one {A B} (f : A -> B) (p : A -> bool) l x :
  NoDup (map f l) -> x ∈ l -> p x = true -> (forall y, y ∈ l -> p y = true -> f y = f x) -> select_where p l = [x].
Proof.
  intros Hd Hx Hp Hall. induction l as [|a l IH]; [by apply elem_of_nil in Hx|]. cbn [map] in Hd.
  assert (Hd' := Hd). apply NoDup_cons in Hd as [Hn Hd]. unfold select_where in *. cbn [List.filter].
  apply elem_of_cons in Hx as [<-|Hx].
  - rewrite Hp. f_equal. apply select_where_none. intros y Hy. destruct (p y) eqn:Hpy; [|done].
    exfalso. apply Hn. rewrite <- (Hall y) by (by right || done). by apply list_elem_of_fmap_2.
  - destruct (p a) eqn:Hpa.
    + exfalso. apply Hn. rewrite (Hall a) by (by left || done). by apply list_elem_of_fmap_2.
    + apply IH; [done|done|]. intros y Hy. apply Hall. by right.
Qed.

Lemma holds_claim_true k j : holds_claim k j = true <->
  jb_id j = ck_id k /\ jb_type j = ck_type k /\ jb_room_id j = ck_room k /\ jb_source_event_id j = ck_source k
  /\ jb_dedupe_key j = ck_dedupe k /\ jb_correlation_id j = ck_correlation k /\ jb_claim_generation j = ck_generation k
  /\ jb_claim_token j = Some (ck_token k) /\ jb_locked_by j = Some (ck_worker k) /\ jb_status j = running.
Proof. unfold holds_claim. rewrite !andb_true_iff, !bool_decide_eq_true, Z.eqb_eq. tauto. Qed.

(** A claim whose job has been claimed again is refused. *)
Lemma superseded c k w j :
  (forall w0, readClaim c w0 = (Ok k, w0)) -> jobs_ok (db w) -> j ∈ jobs (db w) -> jb_id j = ck_id k ->
  ck_generation k < jb_claim_generation j -> requireCurrent c w = (Err JOB_CLAIM_STALE, w).
Proof.
  intros Hk [Hn _] Hj Hi Hg. rewrite (requireCurrent_run c k) by done.
  rewrite select_where_none; [done|]. intros x Hx. destruct (holds_claim k x) eqn:Hh; [|done]. exfalso.
  apply holds_claim_true in Hh as (Hxi & _ & _ & _ & _ & _ & Hxg & _).
  assert (x = j) as -> by (eapply (NoDup_map_eq jb_id); [exact Hn|done|done|congruence]). lia.
Qed.

Lemma jobs_moved_elem d d' j : jobs_moved d d' -> j ∈ jobs d -> exists j', j' ∈ jobs d' /\ row_moved j j'.
Proof.
  intros Hm [i Hi]%list_elem_of_lookup. destruct (Forall2_lookup_l _ _ _ _ _ Hm Hi) as (j' & Hj' & Hr).
  exists j'. split; [by eapply list_elem_of_lookup_2|done].
Qed.

Lemma readClaim_fields c k w : readClaim c w = (Ok k, w) ->
  uuid_in (jc_jobId c) = Some (ck_id k) /\ bigint_in (jc_claimGeneration c) = Some (ck_generation k)
  /\ uuid_in (jc_claimToken c) = Some (ck_token k).
Proof.
  unfold readClaim, uuidParamOpt, uuidParam, bigintParam, mbind, M_bind, mret, M_ret, throw.
  repeat match goal with |- context [match ?x with Some _ => _ | None => _ end] => destruct x eqn:? end;
    intros [= <-]; done.
Qed.

Lemma uuidParam_run s u w : uuid_in s = Some u -> uuidParam s w = (Ok u, w).
Proof. unfold uuidParam. by intros ->. Qed.

(** What a completion that is accepted leaves. *)
Lemma complete_ok c code w u w' : completeBusiness c code w = (Ok u, w') ->
  (exists u0, requireCurrent c w = (Ok u0, w)) /\ jobs (db w') = jobs (db w) /\ completions (db w) `sublist_of` completions (db w')
  /\ exists k, readClaim c w = (Ok k, w)
       /\ CompletionRow (ck_id k) (ck_generation k) (sha256_hex (jc_claimToken c)) code ∈ completions (db w').
Proof.
  unfold completeBusiness. intros (_ & s & [_ ->]%throw_if_ok & Hr)%bind_ok.
  apply bind_ok in Hr as (u0 & s & Hreq & Hr). destruct (requireCurrent_ok _ _ _ _ Hreq) as (-> & k & j & Hk & _).
  split; [eauto|]. destruct (readClaim_fields _ _ _ Hk) as (Hi & Hg & _).
  apply bind_ok in Hr as (i & s & [Hi' ->]%uuidParam_ok & Hr). rewrite Hi in Hi'. injection Hi' as <-.
  apply bind_ok in Hr as (g & s & Hg' & Hr). unfold bigintParam in Hg'. rewrite Hg in Hg'. injection Hg' as <- <-.
  apply bind_ok in Hr as (u1 & s & Hins & Hr). apply bind_ok in Hr as (m & s' & Hm & Hr).
  unfold query, gets in Hm. injection Hm as Hm <-. apply throw_if_ok in Hr as [Hc ->].
  apply negb_false_iff, bool_decide_eq_true in Hc.
  destruct m as [|[ci cg ch cc] [|]]; try done. cbn [map cp_token_hash cp_code] in Hc. injection Hc as -> ->.
  assert (CompletionRow ci cg (sha256_hex (jc_claimToken c)) code ∈ select_where (sameMarker (ck_id k) (ck_generation k)) (completions (db s))) as Hin by (rewrite Hm; left).
  apply select_where_elem in Hin as [Hin Hsame]. unfold sameMarker in Hsame. split_bools. simpl in *.
  match goal with Hx : (_ =? _) = true |- _ => apply Z.eqb_eq in Hx end. subst.
  apply execute_or_ok in Hins as (d & Hd & ->). cbn [db set_db] in *. unfold insertCompletion in Hd.
  destruct (existsb _ _); [by injection Hd as <-; eauto 10|].
  destruct (guardO _); [|done]. injection Hd as <-. cbn [jobs completions set_completions] in *. split_and!; [done| |eauto].
  by apply sublist_inserts_r.
Qed.

(** A completion writes nothing but its record. *)
Lemma bigintParam_on P z : preserves (on_db P) (bigintParam z).
Proof. unfold bigintParam. destruct (bigint_in z); [apply preserves_ret|apply preserves_throw]. Qed.
Lemma requireCurrent_on P c : preserves (on_db P) (requireCurrent c).
Proof. unfold requireCurrent, readClaim, uuidParamOpt. preserve. apply bigintParam_on. Qed.
Lemma complete_frame c code w r w' : completeBusiness c code w = (r, w') ->
  set_completions [] (db w') = set_completions [] (db w).
Proof.
  intros Hc. eassert (preserves (on_db (fun d => set_completions [] d = set_completions [] (db w))) (completeBusiness c code)) as Hp.
  { unfold completeBusiness. preserve; [apply requireCurrent_on|apply bigintParam_on|].
    apply execute_or_on. intros d d' Hd. unfold insertCompletion. destruct (existsb _ _); [by intros [= <-]|].
    destruct (guardO _); [|done]. by intros [= <-]. }
  by apply (Hp w r w').
Qed.

(** ** What every action keeps *)

Context (PL : PostgresLaws) (EL : EnvironmentLaws).

Lemma supply_canonical n : canonical (uuid_supply n).
Proof. unfold canonical. rewrite (uuid_in_isUuid PL) by apply (supply_isUuid EL). by rewrite (supply_lower EL). Qed.

Lemma settled_ok now workerId ids d j j' : settled_as now workerId ids d j j' -> job_ok j ->
  (picked now ids d j = true -> jb_claim_generation j < MAX_INT8) -> job_ok j'.
Proof.
  intros Hs [Hl Hg Hi Hr Hsrc Hc Ht] Hb. destruct Hs as [Hrec|Hrec He|m Hp|]; constructor; simpl; try done.
  - right. done.
  - right. done.
  - left. split_and!; [done|by eexists..].
  - specialize (Hb Hp). lia.
  - apply supply_canonical.
Qed.

Lemma claim_jobs_ok workerId limit w r w' : claim workerId limit w = (r, w') -> jobs_ok (db w) -> jobs_ok (db w').
Proof.
  intros Hc Hok. destruct (claim_cases _ _ _ _ _ Hc) as [->|(n & l & -> & ->)]; [done|].
  destruct Hok as [Hn Hj]. split; [by rewrite (jobs_moved_ids _ _ (claim_moved _ _ _ _ _ Hc))|].
  apply claim_ok in Hc as (_ & out & [Hr _ _ _ Hg] & _). revert Hj Hg. clear Hn. induction Hr as [|j j' l0 l' Hs _ IH]; [done|].
  intros [Hj Hl]%Forall_cons [Hg Hgs]%Forall_cons. constructor; [by eapply settled_ok|by apply IH].
Qed.

(** A claim leaves the ledger alone. *)
Lemma settle_on P workerId ids : (forall d js cs ds, P d -> P (set_deletions ds (set_completions cs (set_jobs js d)))) ->
  preserves (on_db P) (settleWorkerJobClaims workerId ids).
Proof.
  intros HP w r w' Hw. unfold settleWorkerJobClaims. destruct (generationOverflow _ _ _); [by intros [= _ <-]|].
  destruct (settleRows _ _ _ _ _ _) as [[js out] n]. intros [= _ <-]. unfold on_db in *. simpl. by apply HP.
Qed.
Lemma preserves_run {A} P (m : IO A) w r w' : preserves (on_db P) m -> m w = (r, w') -> P (db w) -> P (db w').
Proof. intros Hp Hm Hw. by eapply (Hp w r w'). Qed.
Lemma claim_frame workerId limit w r w' : claim workerId limit w = (r, w') ->
  (rooms (db w'), events (db w'), outbox (db w')) = (rooms (db w), events (db w), outbox (db w)).
Proof.
  intros Hc. destruct (claim_cases _ _ _ _ _ Hc) as [->|(n & l & -> & ->)]; [done|].
  unfold claim in Hc. apply bind_ok in Hc as (_ & s & [_ ->]%throw_if_ok & Hc).
  apply ends_inTransaction in Hc as [(e & ? & _)|(a & w0 & _ & Hd & Hw)]; [done|]. rewrite <- Hd.
  eapply (preserves_run (fun d => (rooms d, events d, outbox d) = (rooms (db w0), events (db w0), outbox (db w0)))); [|exact Hw|done].
  preserve.
  - apply settle_on. by intros d js cs ds.
  - by intros w2 r w3 Hw2 ->%readonly_mapM_lift.
Qed.
Lemma settled_view now workerId ids d j j' : settled_as now workerId ids d j j' -> jobView j' = jobView j.
Proof. by destruct 1. Qed.
Lemma claim_ledger workerId limit w r w' : claim workerId limit w = (r, w') -> ledger_ok (db w) -> ledger_ok (db w').
Proof.
  intros Hc Hok. pose proof (claim_frame _ _ _ _ _ Hc) as Hf. injection Hf as Hr He Ho.
  destruct (claim_cases _ _ _ _ _ Hc) as [->|(n & l & -> & ->)]; [done|].
  apply claim_ok in Hc as (_ & out & [Hrows _ _ _ _] & _). unfold ledger_ok, view in *. rewrite Hr, He, Ho.
  assert (map jobView (jobs (db w')) = map jobView (jobs (db w))) as ->; [|done].
  clear Hok. induction Hrows as [|j j' l1 l2 Hj _ IH]; [done|]. cbn [map]. by rewrite (settled_view _ _ _ _ _ _ Hj), IH.
Qed.

Lemma cancelled_rows rid now p l :
  Forall2 (fun j j' => j' = j \/ (jb_status j ∈ [queued; retryable; running] /\ j' = cancelJob now j)) l
    (update_where (toCancel rid p) (cancelJob now) l).
Proof.
  induction l as [|j l IH]; cbn; constructor; [|done]. destruct (toCancel rid p j) eqn:Hc; [right|by left].
  unfold toCancel in Hc. by split_bools.
Qed.
Lemma cancel_cases rid now p w r w' : inTransaction (cancelRoomJobs rid now p) w = (r, w') ->
  db w' = db w \/ (completions (db w') = completions (db w)
    /\ Forall2 (fun j j' => j' = j \/ (jb_status j ∈ [queued; retryable; running] /\ j' = cancelJob now j)) (jobs (db w)) (jobs (db w'))).
Proof.
  intros [(e & -> & Hd)|(a & w0 & -> & Hd & Hw)]%ends_inTransaction; [by left|right].
  apply cancelRoomJobs_ok in Hw as (rid' & p' & _ & _ & ->). cbn [db set_db jobs completions set_jobs]. rewrite Hd.
  split; [done|]. apply cancelled_rows.
Qed.
Lemma cancel_job_ok now j : job_ok j -> job_ok (cancelJob now j).
Proof. intros [Hl Hg Hi Hr Hsrc Hc Ht]. constructor; simpl; try done. by right. Qed.

Lemma complete_cases c code w r w' : inTransaction (completeBusiness c code) w = (r, w') ->
  jobs (db w') = jobs (db w) /\ completions (db w) `sublist_of` completions (db w').
Proof.
  intros [(e & -> & ->)|(a & w0 & -> & <- & Hw)]%ends_inTransaction; [done|].
  apply complete_ok in Hw as (_ & Hj & Hs & _). done.
Qed.

Lemma action_ok w w' : job_action w w' -> jobs_ok (db w) -> jobs_ok (db w') /\ jobs_moved (db w) (db w').
Proof.
  intros [worker limit r Hc|c code r Hc|rid now p r Hc] Hok.
  - split; [by eapply claim_jobs_ok|by eapply claim_moved].
  - apply complete_cases in Hc as [Hj _]. split; [|by apply jobs_moved_refl].
    destruct Hok as [Hn Hr]. split; by rewrite Hj.
  - apply cancel_cases in Hc as [->|[_ Hc]]; [split; [done|by apply jobs_moved_refl]|].
    assert (jobs_moved (db w) (db w')) as Hm.
    { eapply Forall2_impl; [exact Hc|]. intros j j' [->|[_ ->]]; done. }
    split; [|done]. destruct Hok as [Hn Hr]. split; [by rewrite (jobs_moved_ids _ _ Hm)|].
    revert Hr. clear Hm Hn. induction Hc as [|j j' l l' Hj _ IH]; [done|]. intros [Hjo Hr]%Forall_cons.
    constructor; [destruct Hj as [->|[_ ->]]; [done|by apply cancel_job_ok]|by apply IH].
Qed.
Lemma actions_ok w w' : rtc job_action w w' -> jobs_ok (db w) -> jobs_ok (db w') /\ jobs_moved (db w) (db w').
Proof.
  induction 1 as [w|w w1 w' Ha _ IH]; intros Hok; [split; [done|by apply jobs_moved_refl]|].
  destruct (action_ok _ _ Ha Hok) as [Hok1 Hm1]. destruct (IH Hok1) as [Hok2 Hm2]. split; [done|by etransitivity].
Qed.

(** ** A job whose effect is recorded *)

(** It is running with its record, or it is over. *)
Definition effected (i : string) (d : database) : Prop :=
  forall j, j ∈ jobs d -> jb_id j = i ->
    jb_status j ∈ [succeeded; cancelled] \/ (jb_status j = running /\ recorded d j = true).

Lemma recorded_mono d d' j : completions d `sublist_of` completions d' -> recorded d j = true -> recorded d' j = true.
Proof.
  intros Hs. unfold recorded. destruct (jb_claim_token j); [|done]. rewrite !existsb_exists. intros (c & Hc & Hp).
  exists c. split; [|done]. apply list_elem_of_In. apply list_elem_of_In in Hc. by eapply elem_of_submseteq, sublist_submseteq.
Qed.

Lemma not_picked_recorded now ids d j : job_ok j -> j ∈ jobs d -> jb_status j = running -> recorded d j = true ->
  picked now ids d j = false /\ exhausted now ids d j = false.
Proof.
  intros Hok Hj Hs Hr. assert (forall b : bool, jb_id j ∈ ids -> leaseExpired now j = true ->
    negb (bool_decide (jb_id j ∈ recoveredIds now ids d)) && b = false) as Hrec.
  { intros b Hi He. rewrite bool_decide_true; [done|]. apply (list_elem_of_fmap_2 jb_id). apply select_where_elem. split; [done|].
    unfold recovered. by rewrite Hr, He, !bool_decide_true by done. }
  split.
  - destruct (picked now ids d j) eqn:Hp; [|done]. exfalso. unfold picked, free in Hp. rewrite Hs in Hp.
    rewrite (bool_decide_false (running ∈ _)) in Hp by set_solver.
    destruct (leaseExpired now j) eqn:He; [|by rewrite andb_false_r in Hp].
    split_bools.
    match goal with Hn : jb_id j ∉ recoveredIds _ _ _, Hi : jb_id j ∈ ids |- _ => specialize (Hrec true Hi eq_refl); rewrite (bool_decide_false _ Hn) in Hrec; done end.
  - destruct (exhausted now ids d j) eqn:Hp; [|done]. exfalso. unfold exhausted in Hp. split_bools.
    match goal with Hn : jb_id j ∉ recoveredIds _ _ _, Hi : jb_id j ∈ ids, He : leaseExpired _ _ = true |- _ =>
      specialize (Hrec true Hi He); rewrite (bool_decide_false _ Hn) in Hrec; done end.
Qed.
Lemma over_unsettled now ids d j : jb_status j ∈ [succeeded; cancelled] ->
  picked now ids d j = false /\ exhausted now ids d j = false /\ recovered now ids d j = false.
Proof.
  intros Hs. assert (jb_status j ∉ [queued; retryable] /\ jb_status j <> running) as [Hq Hr] by (apply elem_of_cons in Hs as [Hs|Hs%list_elem_of_singleton]; rewrite Hs; split; set_solver).
  unfold picked, free, exhausted, recovered. rewrite (bool_decide_false _ Hq), (bool_decide_false _ Hr). simpl.
  by rewrite !andb_false_r.
Qed.

Lemma recorded_kept now ids d j : jobs_ok d -> j ∈ jobs d -> recovered now ids d j = false -> forall d',
  completions d' = select_where (fun c => negb (bool_decide (cp_job_id c ∈ recoveredIds now ids d))) (completions d) ->
  recorded d j = true -> recorded d' j = true.
Proof.
  intros [Hn _] Hj Hr d' Hc. unfold recorded. destruct (jb_claim_token j); [|done]. rewrite !existsb_exists.
  intros (c & Hin & Hp). exists c. split; [|done]. apply list_elem_of_In. apply list_elem_of_In in Hin. rewrite Hc.
  apply select_where_elem. split; [done|]. apply negb_true_iff, bool_decide_eq_false. intros Hi. split_bools.
  apply list_elem_of_fmap_1 in Hi as (x & Hx & Hin').
  apply select_where_elem in Hin' as [Hin' Hrx].
  assert (x = j) as -> by (eapply (NoDup_map_eq jb_id); [exact Hn|done|done|congruence]). congruence.
Qed.

Lemma Forall2_elem_r {A B} (R : A -> B -> Prop) l k y : Forall2 R l k -> y ∈ k -> exists x, x ∈ l /\ R x y.
Proof.
  intros Hf [i Hi]%list_elem_of_lookup. destruct (Forall2_lookup_r _ _ _ _ _ Hf Hi) as (x & Hx & Hr).
  exists x. split; [by eapply list_elem_of_lookup_2|done].
Qed.

Lemma effected_claim i workerId limit w r w' :
  claim workerId limit w = (r, w') -> jobs_ok (db w) -> effected i (db w) -> effected i (db w').
Proof.
  intros Hc Hok He. destruct (claim_cases _ _ _ _ _ Hc) as [->|(n & l & -> & ->)]; [done|].
  apply claim_ok in Hc as (_ & out & [Hr _ _ Hcs _] & _). intros j' Hj' Hi.
  destruct (Forall2_elem_r _ _ _ _ Hr Hj') as (j & Hj & Hs).
  assert (jb_id j = i) as Hij by (rewrite <- Hi; destruct Hs; done).
  assert (job_ok j) as Hjo by (eapply Forall_forall; [apply Hok|done]).
  destruct (He j Hj Hij) as [Hover|[Hrun Hrec]].
  - destruct (over_unsettled (db_now (txs w)) (claimWorkerJobs (db_now (txs w)) n (db w)) (db w) j Hover) as (H1' & H2' & H3').
    destruct Hs; try congruence. by left.
  - destruct (not_picked_recorded (db_now (txs w)) (claimWorkerJobs (db_now (txs w)) n (db w)) (db w) j Hjo Hj Hrun Hrec) as [H1' H2'].
    destruct Hs as [|Hnr Hex|m Hp|Hnr Hnp]; try congruence.
    + left. simpl. set_solver.
    + right. split; [done|]. by eapply recorded_kept.
Qed.
Lemma effected_action i w w' : job_action w w' -> jobs_ok (db w) -> effected i (db w) -> effected i (db w').
Proof.
  intros [worker limit r Hc|c code r Hc|rid now p r Hc] Hok He; [by eapply effected_claim| |].
  - apply complete_cases in Hc as [Hj Hs]. intros j Hin Hi. rewrite Hj in Hin.
    destruct (He j Hin Hi) as [?|[? Hr]]; [by left|right]. split; [done|]. by eapply recorded_mono.
  - apply cancel_cases in Hc as [->|[Hcs Hc]]; [done|]. intros j' Hin Hi.
    destruct (Forall2_elem_r _ _ _ _ Hc Hin) as (j & Hj & [->|[_ ->]]).
    + destruct (He j Hj Hi) as [?|[? Hr]]; [by left|right]. split; [done|]. apply (recorded_mono (db w)); [by rewrite Hcs|done].
    + left. simpl. set_solver.
Qed.
Lemma effected_actions i w w' : rtc job_action w w' -> jobs_ok (db w) -> effected i (db w) -> effected i (db w').
Proof.
  induction 1 as [w|w w1 w' Ha _ IH]; [done|]. intros Hok He.
  apply IH; [by apply (action_ok _ _ Ha)|by eapply effected_action].
Qed.

Lemma toClaimedJob_ok x c : toClaimedJob x = Ok c ->
  claimIdentity c = ClaimIdentity (jb_id x) (jb_type x) (jb_room_id x) (jb_source_event_id x) (jb_dedupe_key x)
    (jb_correlation_id x) (bigintText (jb_claim_generation x)) (cj_claimToken c) (cj_workerId c)
  /\ jb_claim_token x = Some (cj_claimToken c) /\ jb_locked_by x = Some (cj_workerId c) /\ cj_jobId c = jb_id x.
Proof.
  unfold toClaimedJob, filled. destruct (jb_claim_token x) as [[|a t]|], (jb_locked_by x) as [[|b u]|]; try done.
  destruct (negb _); [done|]. destruct (negb _); [done|]. intros [= <-]; done.
Qed.
Lemma toClaimedJob_attempts x c : toClaimedJob x = Ok c -> cj_attempts c = jb_attempts x.
Proof.
  unfold toClaimedJob. destruct (filled (jb_claim_token x)), (filled (jb_locked_by x)); try done.
  destruct (negb _); [done|]. destruct (negb _); [done|]. intros [= <-]; done.
Qed.

Context (BL : BigintLaws).

Lemma uuidParam_canonical s w : canonical s -> uuidParam s w = (Ok s, w).
Proof. apply uuidParam_run. Qed.
Lemma uuidParamOpt_canonical s w : canonical_option s -> uuidParamOpt s w = (Ok s, w).
Proof. destruct s as [s|]; [|done]. intros Hs. unfold uuidParamOpt. by rewrite (bind_run _ _ _ _ _ (uuidParam_canonical s w Hs)). Qed.

(** The identity of a running row is read as the key of the row, and is current. *)
Lemma current_row x c w : jobs_ok (db w) -> x ∈ jobs (db w) -> jb_status x = running -> toClaimedJob x = Ok c ->
  requireCurrent (claimIdentity c) w = (Ok tt, w).
Proof.
  intros [Hn Hrows] Hx Hs Hc. assert (job_ok x) as [_ Hg Hi Hr Hsrc Hcorr Ht] by (eapply Forall_forall; [exact Hrows|done]).
  apply toClaimedJob_ok in Hc as (-> & Htok & Hw & _). rewrite Htok in Ht. simpl in Ht.
  set (k := ClaimKey (jb_id x) (jb_type x) (jb_room_id x) (jb_source_event_id x) (jb_dedupe_key x) (jb_correlation_id x)
              (jb_claim_generation x) (cj_claimToken c) (cj_workerId c)).
  rewrite (requireCurrent_run _ k).
  - rewrite (select_where_one jb_id _ _ x); [done|done|done| |].
    + by apply holds_claim_true.
    + intros y Hy (Hyi & _)%holds_claim_true. done.
  - unfold readClaim. cbn [jc_jobId jc_roomId jc_sourceEventId jc_correlationId jc_claimGeneration jc_claimToken jc_jobType jc_dedupeKey jc_workerId].
    rewrite (bind_run _ _ _ _ _ (uuidParam_canonical _ w Hi)), (bind_run _ _ _ _ _ (uuidParamOpt_canonical _ w Hr)),
      (bind_run _ _ _ _ _ (uuidParamOpt_canonical _ w Hsrc)), (bind_run _ _ _ _ _ (uuidParam_canonical _ w Hcorr)).
    rewrite (bind_run _ _ w (jb_claim_generation x) w) by (unfold bigintParam; by rewrite (bigint_in_text BL)).
    by rewrite (bind_run _ _ _ _ _ (uuidParam_canonical _ w Ht)).
Qed.

Lemma claimed_ids out l : Forall2 (fun x c => toClaimedJob x = Ok c) out l -> map cj_jobId l = map jb_id out.
Proof. induction 1 as [|x c out l Hx _ IH]; [done|]. cbn [map]. apply toClaimedJob_ok in Hx as (_ & _ & _ & ->). by rewrite IH. Qed.

Lemma picked_true now ids d j : picked now ids d j = true ->
  jb_id j ∈ ids /\ jb_attempts j < jb_max_attempts j /\ free now j = true /\ blocked d j = false.
Proof. unfold picked. intros Hp. split_bools. split_and!; try done. by apply Z.ltb_lt. Qed.

(** What is known of one claimed job. *)
Record handed_out (now : Z) (workerId : string) (w w1 : world) (c : ClaimedJob) : Prop := {
  ho_free : exists j, j ∈ jobs (db w) /\ jb_id j = cj_jobId c /\ free now j = true /\ blocked (db w) j = false
              /\ jb_attempts j < jb_max_attempts j /\ cj_attempts c = jb_attempts j + 1;
  ho_worker : cj_workerId c = workerId;
  ho_current : requireCurrent (claimIdentity c) w1 = (Ok tt, w1);
}.

Lemma claimed_handed_out workerId n w l w1 : jobs_ok (db w) -> claim workerId (NInt n) w = (Ok l, w1) ->
  Forall (handed_out (db_now (txs w)) workerId w w1) l.
Proof.
  intros Hok Hc. pose proof (claim_jobs_ok _ _ _ _ _ Hc Hok) as Hok1.
  apply claim_ok in Hc as (_ & out & [_ _ Hl _ _] & Hf). rewrite Forall_forall. intros c Hin.
  destruct (Forall2_elem_r _ _ _ _ Hf Hin) as (x & Hx & Hxc). rewrite Forall_forall in Hl.
  destruct (Hl x Hx) as (j & m & Hj & Hp & Ex & Hx1). pose proof (toClaimedJob_ok _ _ Hxc) as (_ & _ & Hw & Hi).
  apply picked_true in Hp as (_ & Ha & Hfree & Hb). constructor.
  - exists j. split_and!; try done; [rewrite Hi; by subst x|]. rewrite (toClaimedJob_attempts x c Hxc). by subst x.
  - subst x. simpl in Hw. congruence.
  - apply (current_row x); [done|done|by subst x|done].
Qed.

Lemma moved_beyond w1 w2 k c j : jobs_ok (db w1) -> rtc job_action w1 w2 -> (forall w0, readClaim c w0 = (Ok k, w0)) ->
  j ∈ jobs (db w1) -> jb_id j = ck_id k -> ck_generation k < jb_claim_generation j ->
  requireCurrent c w2 = (Err JOB_CLAIM_STALE, w2).
Proof.
  intros Hok Ha Hk Hj Hi Hg. destruct (actions_ok _ _ Ha Hok) as [Hok2 Hm].
  destruct (jobs_moved_elem _ _ _ Hm Hj) as (j' & Hj' & Hi' & Hg'). apply (superseded c k w2 j'); [done|done|done|congruence|lia].
Qed.

(** C29. A claim hands out at most as many jobs as it was asked for, each once, each free
    before, unblocked and with an attempt left, and every identity it hands out is current;
    and whoever held one of these jobs before is shut out for good: his claim is refused
    in every later state. *)
Theorem claims_fenced workerId n w l w1 w2 :
  jobs_ok (db w) -> claim workerId (NInt n) w = (Ok l, w1) -> rtc job_action w1 w2 ->
  Z.of_nat (length l) <= n /\ NoDup (map cj_jobId l)
  /\ Forall (handed_out (db_now (txs w)) workerId w w1) l
  /\ forall c old, c ∈ l -> uuid_in (jc_jobId old) = Some (cj_jobId c) -> requireCurrent old w = (Ok tt, w) ->
       requireCurrent old w2 = (Err JOB_CLAIM_STALE, w2).
Proof.
  intros Hok Hc Ha. pose proof (claim_jobs_ok _ _ _ _ _ Hc Hok) as Hok1.
  pose proof (claimed_handed_out _ _ _ _ _ Hok Hc) as Hout. apply claim_ok in Hc as (Hn & out & [_ Hsub Hl _ _] & Hf).
  pose proof (claimed_ids _ _ Hf) as Hids.
  assert (NoDup (map cj_jobId l)) as Hnd by (rewrite Hids; eapply sublist_NoDup; [apply Hok|exact Hsub]).
  split_and!; [|done|done|].
  - assert (map cj_jobId l ⊆+ claimWorkerJobs (db_now (txs w)) n (db w)) as Hle%submseteq_length.
    { apply NoDup_submseteq; [done|]. intros i Hi. rewrite Hids in Hi. apply list_elem_of_fmap_1 in Hi as (x & -> & Hx).
      rewrite Forall_forall in Hl. destruct (Hl x Hx) as (j & m & _ & (Hp & _)%picked_true & -> & _). done. }
    rewrite length_map in Hle. unfold claimWorkerJobs in Hle. rewrite length_map, length_take in Hle. lia.
  - intros c old Hin Hi Hcur. destruct (requireCurrent_ok _ _ _ _ Hcur) as (_ & k & j0 & Hk & Hrow).
    assert (j0 ∈ select_where (holds_claim k) (jobs (db w))) as [Hj0 Hh]%select_where_elem by (rewrite Hrow; left).
    apply holds_claim_true in Hh as (Hj0i & _ & _ & _ & _ & _ & Hj0g & _).
    destruct (Forall2_elem_r _ _ _ _ Hf Hin) as (x & Hx & (_ & _ & _ & Hxi)%toClaimedJob_ok).
    rewrite Forall_forall in Hl. destruct (Hl x Hx) as (j & m & Hj & _ & Ex & Hx1).
    destruct (readClaim_fields _ _ _ Hk) as (Hki & _). assert (ck_id k = cj_jobId c) as Hkc by congruence.
    assert (j = j0) as ->.
    { eapply (NoDup_map_eq jb_id); [apply Hok|done|done|]. rewrite Hj0i, Hkc, Hxi. by subst x. }
    apply (moved_beyond w1 w2 k old x); [done|done|apply (readClaim_run _ _ _ _ Hk)|done|congruence|].
    subst x. simpl. lia.
Qed.

Lemma completed_effected c code w u w1 i : jobs_ok (db w) -> canonical (jc_claimToken c) ->
  completeBusiness c code w = (Ok u, w1) -> uuid_in (jc_jobId c) = Some i -> effected i (db w1).
Proof.
  intros [Hn _] Ht Hc Hi. apply complete_ok in Hc as ((u0 & Hreq) & Hj & _ & k & Hk & Hin).
  destruct (requireCurrent_ok _ _ _ _ Hreq) as (_ & k' & j0 & Hk' & Hrow). rewrite Hk in Hk'. injection Hk' as <-.
  destruct (readClaim_fields _ _ _ Hk) as (Hki & _ & Hkt). unfold canonical in Ht.
  assert (j0 ∈ select_where (holds_claim k) (jobs (db w))) as [Hj0 Hh]%select_where_elem by (rewrite Hrow; left).
  apply holds_claim_true in Hh as (Hj0i & _ & _ & _ & _ & _ & Hg & Htok & _ & Hs).
  intros j Hjn Hji. rewrite Hj in Hjn.
  assert (j = j0) as -> by (eapply (NoDup_map_eq jb_id); [exact Hn|done|done|congruence]).
  right. split; [done|]. unfold recorded. rewrite Htok. apply existsb_exists. eexists. split; [apply list_elem_of_In; exact Hin|].
  cbn [cp_job_id cp_generation cp_token_hash]. rewrite !andb_true_iff, !bool_decide_eq_true, Z.eqb_eq. split_and!; congruence.
Qed.

(** C24. A job whose effect has been committed with its completion is never handed out
    again, whatever claims, completions and cancellations follow, by whatever worker and
    however long its lease has run out; the token is the one the claim was given, as the
    server prints it. *)
Theorem completed_once c code w w1 w2 workerId n l w3 i :
  jobs_ok (db w) -> canonical (jc_claimToken c) ->
  completeBusiness c code w = (Ok tt, w1) -> rtc job_action w1 w2 ->
  claim workerId (NInt n) w2 = (Ok l, w3) -> uuid_in (jc_jobId c) = Some i ->
  i ∉ map cj_jobId l.
Proof.
  intros Hok Ht Hc Ha Hl Hi. pose proof (completed_effected _ _ _ _ _ _ Hok Ht Hc Hi) as He.
  assert (jobs_ok (db w1)) as Hok1.
  { apply complete_ok in Hc as (_ & Hj & _). destruct Hok. by split; rewrite Hj. }
  apply (effected_actions _ _ _ Ha Hok1) in He. destruct (actions_ok _ _ Ha Hok1) as [Hok2 _].
  apply claim_ok in Hl as (_ & out & [_ _ Hp _ _] & Hf). rewrite (claimed_ids _ _ Hf).
  intros (x & -> & Hx)%list_elem_of_fmap_1. rewrite Forall_forall in Hp. destruct (Hp x Hx) as (j & m & Hj & Hpj & -> & _).
  assert (job_ok j) as Hjo by (eapply Forall_forall; [apply Hok2|done]).
  destruct (He j Hj eq_refl) as [Ho|[Hr Hrec]].
  - destruct (over_unsettled (db_now (txs w2)) (claimWorkerJobs (db_now (txs w2)) n (db w2)) (db w2) j Ho). congruence.
  - destruct (not_picked_recorded (db_now (txs w2)) (claimWorkerJobs (db_now (txs w2)) n (db w2)) (db w2) j Hjo Hj Hr Hrec). congruence.
Qed.
End Fencing.

(** ** Concrete runs *)

#[global] Instance concrete_bigint : BigintText := {
  bigint_in s := if decide (s = "0"%string) then Some 0
                 else if isPositiveNumeral s && (dec_number s <=? MAX_INT8) then Some (dec_number s) else None;
}.
Lemma concrete_bigint_laws : BigintLaws.
Proof.
  constructor. intros z Hz. simpl. destruct (decide (z = 0)) as [->|Hne]; [done|].
  unfold bigintText. rewrite (proj2 (Z.ltb_ge z 0)) by lia.
  rewrite dec_string_positive, dec_string_number, (proj2 (Z.leb_le z MAX_INT8)) by lia. simpl.
  destruct (decide _) as [E|]; [|done]. exfalso. pose proof (dec_string_positive z ltac:(lia)) as Hp. by rewrite E in Hp.
Qed.

(** A job that waits, a job whose worker has been silent for an hour, and the analytics of
    two events in their order. *)
Definition demoJob (n : Z) (type : string) (s : JobStatus) (generation : Z) (token worker : option string)
    (lockedAt order kind : option Z) : job_row :=
  JobRow (numberedUuid n) type (Some demoRoom) (Some demoCommand) (dec_string n) demoCommand JNull s generation 5
    1704060000000 generation token lockedAt worker None 1704060000000 1704060000000 order kind.
Definition demoToken : string := numberedUuid 77.
Definition demoQueue : list job_row :=
  [demoJob 1 AUTO_CLOSE queued 0 None None None None None;
   demoJob 2 AUTO_CLOSE running 1 (Some demoToken) (Some "w-old"%string) (Some 1704060000000) None None;
   demoJob 3 ANALYTICS_CONSUME queued 0 None None None (Some 1) (Some 0);
   demoJob 4 ANALYTICS_CONSUME queued 0 None None None (Some 2) (Some 0)].
Definition queueWorld : world := set_db (set_jobs demoQueue demoDb) demoWorld.
Definition oldClaim : JobClaimIdentity :=
  ClaimIdentity (numberedUuid 2) AUTO_CLOSE (Some demoRoom) (Some demoCommand) "2" demoCommand "1" demoToken "w-old".

Lemma demoJobs_ok : jobs_ok (db queueWorld).
Proof.
  constructor.
  - apply (bool_decide_unpack _). by vm_compute.
  - cbn [db queueWorld set_db jobs set_jobs demoQueue]. repeat (apply Forall_cons; split); [..|constructor].
    all: constructor; [|vm_compute; intuition discriminate|by vm_compute..].
    all: try (right; split_and!; done). left. split_and!; try done; by eexists.
Qed.

Lemma claims_fenced_witness :
  exists l w1, claim "w-new" (NInt 10) queueWorld = (Ok l, w1) /\ map cj_jobId l = map numberedUuid [1; 2; 3]
    /\ requireCurrent oldClaim queueWorld = (Ok tt, queueWorld)
    /\ requireCurrent oldClaim w1 = (Err JOB_CLAIM_STALE, w1).
Proof.
  assert (exists l w1, claim "w-new" (NInt 10) queueWorld = (Ok l, w1) /\ map cj_jobId l = map numberedUuid [1; 2; 3]) as (l & w1 & Hc & Hl).
  { eexists _, _. split; [vm_compute; reflexivity|vm_compute; reflexivity]. }
  assert (requireCurrent oldClaim queueWorld = (Ok tt, queueWorld)) as Hold by (vm_compute; reflexivity).
  exists l, w1. split_and!; [exact Hc|exact Hl|exact Hold|].
  assert (numberedUuid 2 ∈ map cj_jobId l) as (c & Hi & Hin)%list_elem_of_fmap_1 by (rewrite Hl; right; left).
  refine (proj2 (proj2 (proj2 (claims_fenced concrete_postgres_laws concrete_environment_laws concrete_bigint_laws
    "w-new" 10 queueWorld l w1 w1 demoJobs_ok Hc (rtc_refl _ _)))) c oldClaim Hin _ Hold).
  rewrite <- Hi. vm_compute. reflexivity.
Defined.

Lemma completed_once_witness :
  exists w1 l w3, completeBusiness oldClaim "ROOM_AUTO_CLOSE_COMPLETED" queueWorld = (Ok tt, w1)
    /\ claim "w-new" (NInt 10) w1 = (Ok l, w3) /\ map cj_jobId l = map numberedUuid [1; 3]
    /\ map jb_status (jobs (db w3)) = [running; succeeded; running; queued]
    /\ numberedUuid 2 ∉ map cj_jobId l.
Proof.
  assert (exists w1, completeBusiness oldClaim "ROOM_AUTO_CLOSE_COMPLETED" queueWorld = (Ok tt, w1)
    /\ exists l w3, claim "w-new" (NInt 10) w1 = (Ok l, w3) /\ map cj_jobId l = map numberedUuid [1; 3]
         /\ map jb_status (jobs (db w3)) = [running; succeeded; running; queued]) as (w1 & Hc & l & w3 & Hl & Hi & Hs).
  { eexists. split; [vm_compute; reflexivity|]. eexists _, _. split_and!; vm_compute; reflexivity. }
  exists w1, l, w3. split_and!; [exact Hc|exact Hl|exact Hi|exact Hs|].
  refine (completed_once concrete_postgres_laws concrete_environment_laws oldClaim
    "ROOM_AUTO_CLOSE_COMPLETED" queueWorld w1 w1 "w-new" 10 l w3 (numberedUuid 2) demoJobs_ok _ Hc (rtc_refl _ _) Hl _);
    vm_compute; reflexivity.
Defined.
