(* ===== verification/Assertion.v ===== *)
(** * Service assertions

    [apps/server/src/modules/security/service-assertion.ts]: which keys are trusted, and
    when a request of a worker or of a probe counts as signed by one of them.

    Keys, signatures and digests are node's: the class [Crypto]. Every function from
    [decodeBase64Url] on throws one error, [SERVICE_ASSERTION_INVALID], which is [None];
    a [verify] that throws answers [false]. *)
From stdpp Require Import sorting.
From S2P Require Import Prelude Text JsDate Utf Canonical Jobs.
#[local] Set Warnings "-register-all,-clear-no-such-hyp,-level-tolerance".

Class Crypto : Type := {
  KeyObject : Type;
  createPrivateKey : units -> bool;            (** the text holds a private key *)
  createPublicKey : units -> option KeyObject;
  keyType : KeyObject -> string;
  asymmetricKeyType : KeyObject -> string;
  verify : bytes -> KeyObject -> bytes -> bool;
  sha256 : bytes -> bytes;
}.

(** ** Fields *)

Definition textOf (u : units) : string := string_of_list_ascii (map chr (utf8 u)).
Definition MAX_ASSERTION_LENGTH : Z := 16384.
Definition MAX_FIELD_LENGTH : Z := 1024.
Definition MAX_CLOCK_SKEW_MS : Z := 5000.

Definition require (b : bool) : option unit := if b then Some tt else None.
Definition isObject (t : tree) : option (list (units * tree)) := match t with TObj fs => Some fs | _ => None end.
Definition bounded (max : Z) (u : units) : bool := (0 <? Z.of_nat (length u)) && (Z.of_nat (length u) <=? max).
Definition boundedString (t : tree) (max : Z) : option units :=
  match t with TStr u => _ ← require (bounded max u); Some u | _ => None end.
Fixpoint own {A} (k : units) (fs : list (units * A)) : option A :=
  match fs with
  | [] => None
  | (k', v) :: fs' => if decide (k = k') then Some v else own k fs'
  end.
Definition stringField (k : string) (max : Z) (fs : list (units * tree)) : option units :=
  v ← own (text k) fs; boundedString v max.

Definition ENVELOPE_KEYS : list string :=
  ["alg"; "keyId"; "issuer"; "subject"; "audience"; "issuedAt"; "expiresAt"; "bodySha256"; "signature"]%string.

(** ** Trust *)

Inductive trust_error : Type := TRUST_INVALID | TRUST_NOT_CONFIGURED.

Definition decimal (n : nat) : units := integerText (Z.of_nat n).
Definition trustKey (issuer keyId : units) : units :=
  decimal (length issuer) ++ [COLON] ++ issuer ++ decimal (length keyId) ++ [COLON] ++ keyId.

Section Trust.
Context `{Crypto}.

Record TrustedRecord : Type := Trusted { tr_issuer : units; tr_keyId : units; tr_publicKey : KeyObject }.
Definition ServiceAssertionTrust : Type := gmap units TrustedRecord.
Definition resolve (trust : ServiceAssertionTrust) (issuer keyId : units) : option TrustedRecord :=
  trust !! trustKey issuer keyId.

Definition MAX_PEM_LENGTH : Z := 16384.
Definition parsePublicEd25519Key (pem : units) : result trust_error KeyObject :=
  if negb (bounded MAX_PEM_LENGTH pem) then Err TRUST_INVALID
  else if createPrivateKey pem then Err TRUST_INVALID
  else match createPublicKey pem with
       | Some k => if bool_decide (keyType k = "public"%string) && bool_decide (asymmetricKeyType k = "ed25519"%string)
                   then Ok k else Err TRUST_INVALID
       | None => Err TRUST_INVALID
       end.

(** One entry of [config.keys]. *)
Definition readEntry (candidate : tree) : option (units * units * units) :=
  fs ← isObject candidate;
  _ ← require (Z.of_nat (length fs) =? 3);
  i ← stringField "issuer" MAX_FIELD_LENGTH fs;
  k ← stringField "keyId" MAX_FIELD_LENGTH fs;
  p ← stringField "publicKeyPem" MAX_PEM_LENGTH fs;
  Some (i, k, p).
Fixpoint addRecords (candidates : list tree) (records : ServiceAssertionTrust) : result trust_error ServiceAssertionTrust :=
  match candidates with
  | [] => Ok records
  | candidate :: rest =>
      match readEntry candidate with
      | None => Err TRUST_INVALID
      | Some (issuer, keyId, pem) =>
          match records !! trustKey issuer keyId with
          | Some _ => Err TRUST_INVALID
          | None =>
              publicKey ← parsePublicEd25519Key pem;
              addRecords rest (<[trustKey issuer keyId := Trusted issuer keyId publicKey]> records)
          end
      end
  end.
Definition configuredKeys (config : tree) : option (list tree) :=
  fs ← isObject config;
  _ ← require (Z.of_nat (length fs) =? 2);
  v ← own (text "version") fs;
  _ ← match v with TNum (NInt 1) => Some tt | _ => None end;
  ks ← own (text "keys") fs;
  match ks with TArr l => Some l | _ => None end.
Definition createServiceAssertionTrust (config : tree) : result trust_error ServiceAssertionTrust :=
  match canonicalJson config with
  | None => Err TRUST_INVALID
  | Some _ =>
      match configuredKeys config with
      | None => Err TRUST_INVALID
      | Some keys =>
          if (Z.of_nat (length keys) =? 0) || (256 <? Z.of_nat (length keys)) then Err TRUST_NOT_CONFIGURED
          else addRecords keys ∅
      end
  end.
(** [readFile] is [readFileSync(file, "utf8")]. *)
Definition loadServiceAssertionTrust (readFile : units -> option units) (trustFile : option units)
    : result trust_error ServiceAssertionTrust :=
  match trustFile with
  | None | Some [] => Err TRUST_NOT_CONFIGURED
  | Some file =>
      match readFile file with
      | None => Err TRUST_INVALID
      | Some t =>
          if 1048576 <? byteLength t then Err TRUST_INVALID
          else match parseText t with Ok config => createServiceAssertionTrust config | Err _ => Err TRUST_INVALID end
      end
  end.
End Trust.

(** ** base64url *)

Definition base64Char (v : Z) : Z :=
  if v <? 26 then 65 + v else if v <? 52 then 71 + v else if v <? 62 then v - 4 else if v =? 62 then 45 else 95.
Definition base64Value (x : Z) : option Z :=
  if (65 <=? x) && (x <=? 90) then Some (x - 65)
  else if (97 <=? x) && (x <=? 122) then Some (x - 71)
  else if (48 <=? x) && (x <=? 57) then Some (x + 4)
  else if x =? 45 then Some 62 else if x =? 95 then Some 63 else None.
Fixpoint base64Encode (b : bytes) : units :=
  match b with
  | [] => []
  | [x] => [base64Char (x / 4); base64Char (x mod 4 * 16)]
  | [x; y] => [base64Char (x / 4); base64Char (x mod 4 * 16 + y / 16); base64Char (y mod 16 * 4)]
  | x :: y :: z :: r =>
      base64Char (x / 4) :: base64Char (x mod 4 * 16 + y / 16) :: base64Char (y mod 16 * 4 + z / 64)
      :: base64Char (z mod 64) :: base64Encode r
  end.
(** The bytes of the values of the characters; a single one left over has no byte. *)
Fixpoint base64Bytes (v : list Z) : bytes :=
  match v with
  | a :: b :: c :: d :: r => a * 4 + b / 16 :: b mod 16 * 16 + c / 4 :: c mod 4 * 64 + d :: base64Bytes r
  | [a; b; c] => [a * 4 + b / 16; b mod 16 * 16 + c / 4]
  | [a; b] => [a * 4 + b / 16]
  | _ => []
  end.
Definition decodeBase64Url (value : tree) (maxLength : Z) : option bytes :=
  u ← boundedString value maxLength;
  vs ← mapM base64Value u;
  _ ← require (negb (Z.of_nat (length u) mod 4 =? 1));
  let decoded := base64Bytes vs in
  _ ← require (negb (Z.of_nat (length decoded) =? 0) && bool_decide (base64Encode decoded = u));
  Some decoded.

(** ** The envelope *)

Record Envelope : Type := MkEnvelope {
  alg : units; keyId : units; issuer : units; subject : units; audience : units;
  issuedAt : units; expiresAt : units; bodySha256 : units; signature : units;
}.

Definition isHexDigit (x : Z) : bool := ((48 <=? x) && (x <=? 57)) || ((97 <=? x) && (x <=? 102)).
(** [/^[0-9a-f]{64}$/]. *)
Definition isSha256 (u : units) : bool := (Z.of_nat (length u) =? 64) && forallb isHexDigit u.

Definition closedEnvelope (value : tree) : option Envelope :=
  fs ← isObject value;
  _ ← require (Z.of_nat (length fs) =? 9);
  a ← stringField "alg" MAX_FIELD_LENGTH fs;
  k ← stringField "keyId" MAX_FIELD_LENGTH fs;
  i ← stringField "issuer" MAX_FIELD_LENGTH fs;
  s ← stringField "subject" MAX_FIELD_LENGTH fs;
  au ← stringField "audience" MAX_FIELD_LENGTH fs;
  ia ← stringField "issuedAt" MAX_FIELD_LENGTH fs;
  ea ← stringField "expiresAt" MAX_FIELD_LENGTH fs;
  b ← stringField "bodySha256" MAX_FIELD_LENGTH fs;
  sg ← stringField "signature" MAX_FIELD_LENGTH fs;
  _ ← require (negb (existsb (fun f => negb (bool_decide (fst f ∈ map text ENVELOPE_KEYS))) fs));
  _ ← require (bool_decide (a = text "Ed25519") && isSha256 b);
  d ← decodeBase64Url (TStr sg) 128;
  _ ← require (Z.of_nat (length d) =? 64);
  Some (MkEnvelope a k i s au ia ea b sg).

(** [/^(\d{4})-(\d{2})-(\d{2})T(\d{2}):(\d{2}):(\d{2})(?:\.\d{1,9})?Z$/], then [Date.parse],
    which accepts days and hours that the fields of the date then give away. *)
Definition parseRfc3339Utc (value : units) : option Z :=
  _ ← require (forallb (fun x => (0 <=? x) && (x <? 128)) value);
  let s := map chr value in
  '(f, rest) ← iso_prefix s;
  '(fraction, z) ← iso_fraction rest;
  _ ← require ((Z.of_nat (length fraction) <=? 9) && bool_decide (z = ["Z"%char]));
  time ← dateParse (string_of_list_ascii s);
  let g := utc_fields time in
  _ ← require ((iso_year g =? iso_year f) && (iso_month g =? iso_month f) && (iso_day g =? iso_day f)
               && (iso_hour g =? iso_hour f) && (iso_minute g =? iso_minute f) && (iso_second g =? iso_second f));
  Some time.

Definition protectedFields (e : Envelope) : tree :=
  TObj [(text "alg", TStr (alg e)); (text "keyId", TStr (keyId e)); (text "issuer", TStr (issuer e));
        (text "subject", TStr (subject e)); (text "audience", TStr (audience e)); (text "issuedAt", TStr (issuedAt e));
        (text "expiresAt", TStr (expiresAt e)); (text "bodySha256", TStr (bodySha256 e))].

Definition hexDigitValue (x : Z) : Z := if x <=? 57 then x - 48 else x - 87.
(** [Buffer.from(text, "hex")] of hexadecimal digits. *)
Fixpoint hexBytes (u : units) : bytes :=
  match u with
  | a :: b :: r => hexDigitValue a * 16 + hexDigitValue b :: hexBytes r
  | _ => []
  end.

Section Verify.
Context `{Crypto}.

Definition hashMatches (body : tree) (bodySha256 : units) : option bool :=
  b ← canonicalJson body; Some (bool_decide (sha256 b = hexBytes bodySha256)).

(** The steps the two verifiers share: the decoding of the text of an envelope that is
    written as [canonicalJson] writes it, the window of time, and the signature of the
    protected fields with the hash of the body. *)
Definition openEnvelope (raw : tree) : option Envelope :=
  encoded ← decodeBase64Url raw MAX_ASSERTION_LENGTH;
  parsed ← match parseCanonicalJson encoded with Ok t => Some t | Err _ => None end;
  envelope ← closedEnvelope parsed;
  again ← canonicalJson parsed;
  _ ← require (bool_decide (again = encoded));
  Some envelope.
Definition timely (e : Envelope) (maxLifetime : Z) (maxClockSkewMs : option jsnum) (now : Z) : option unit :=
  ia ← parseRfc3339Utc (issuedAt e);
  ea ← parseRfc3339Utc (expiresAt e);
  skew ← asSafeInteger (default (NInt 0) maxClockSkewMs);
  _ ← require (negb ((skew <? 0) || (MAX_CLOCK_SKEW_MS <? skew) || (ea - ia <? 1000) || (maxLifetime <? ea - ia)));
  require (negb ((skew <? ia - now) || (skew <? now - ea))).
Definition signed (e : Envelope) (publicKey : KeyObject) (body : tree) : option unit :=
  p ← canonicalJson (protectedFields e);
  s ← decodeBase64Url (TStr (signature e)) 128;
  _ ← require (verify p publicKey s);
  m ← hashMatches body (bodySha256 e);
  require m.
(** [now.getTime()] of a valid date. *)
Definition validTime (now : option Z) : option Z :=
  t ← now; _ ← require (Z.abs t <=? MAX_SAFE_INTEGER); Some t.

Record ServiceAssertionEnvelopeExpected : Type := EnvelopeExpected {
  ex_audience : units; ex_workerId : option units; ex_maxClockSkewMs : option jsnum;
}.
Definition verifyServiceAssertionEnvelope (raw body : tree) (expected : ServiceAssertionEnvelopeExpected)
    (trust : ServiceAssertionTrust) (now : option Z) : option units :=
  t ← validTime now;
  _ ← require (bounded MAX_FIELD_LENGTH (ex_audience expected));
  e ← openEnvelope raw;
  record ← resolve trust (issuer e) (keyId e);
  _ ← require (bool_decide (audience e = ex_audience expected));
  _ ← require (match ex_workerId expected with Some w => bool_decide (subject e = w) | None => true end);
  _ ← require (bounded MAX_FIELD_LENGTH (subject e));
  _ ← timely e 60000 (ex_maxClockSkewMs expected) t;
  _ ← signed e (tr_publicKey record) body;
  Some (subject e).

Record ServiceAssertionExpected : Type := Expected {
  se_audience : units; se_workerId : units; se_claim : JobClaimIdentity; se_maxClockSkewMs : option jsnum;
}.
(** The nine fields of the claim, which a body repeats. *)
Definition claimFields (c : JobClaimIdentity) : list (string * option string) :=
  [("jobId", Some (jc_jobId c)); ("jobType", Some (jc_jobType c)); ("roomId", jc_roomId c);
   ("sourceEventId", jc_sourceEventId c); ("dedupeKey", Some (jc_dedupeKey c));
   ("correlationId", Some (jc_correlationId c)); ("claimGeneration", Some (jc_claimGeneration c));
   ("claimToken", Some (jc_claimToken c)); ("workerId", Some (jc_workerId c))]%string.
Definition sameValue (v : option tree) (x : option string) : bool :=
  match v, x with
  | Some (TStr u), Some s => bool_decide (textOf u = s)
  | Some TNull, None => true
  | _, _ => false
  end.
Definition assertClaim (body : tree) (expected : ServiceAssertionExpected) : option JobClaimIdentity :=
  fs ← isObject body;
  _ ← require (bounded MAX_FIELD_LENGTH (se_audience expected) && bounded MAX_FIELD_LENGTH (se_workerId expected)
               && bool_decide (textOf (se_workerId expected) = jc_workerId (se_claim expected)));
  _ ← require (forallb (fun f => sameValue (own (text (fst f)) fs) (snd f)) (claimFields (se_claim expected)));
  Some (se_claim expected).
(** The expected worker is passed on as the expected subject. *)
Definition authorizeServiceAssertion (raw body : tree) (expected : ServiceAssertionExpected)
    (trust : ServiceAssertionTrust) (now : option Z) : option JobClaimIdentity :=
  _ ← verifyServiceAssertionEnvelope raw body
        (EnvelopeExpected (se_audience expected) (Some (se_workerId expected)) (se_maxClockSkewMs expected)) trust now;
  assertClaim body expected.

Record ProviderHealthAssertionExpected : Type := HealthExpected {
  he_providerId : units; he_manifestSha256 : units; he_audience : option units; he_maxClockSkewMs : option jsnum;
}.
(** [/^[a-z0-9._-]{1,64}$/]. *)
Definition isProviderId (u : units) : bool :=
  bounded 64 u && forallb (fun x => ((97 <=? x) && (x <=? 122)) || ((48 <=? x) && (x <=? 57)) || (x =? 46) || (x =? 95) || (x =? 45)) u.
Definition CLAIM_KEYS : list string :=
  ["jobId"; "jobType"; "roomId"; "sourceEventId"; "dedupeKey"; "correlationId"; "claimGeneration"; "claimToken"; "workerId"]%string.
Definition authorizeProviderHealthAssertion (raw body : tree) (expected : ProviderHealthAssertionExpected)
    (trust : ServiceAssertionTrust) (now : option Z) : option (units * units * units) :=
  t ← validTime now;
  _ ← require (isProviderId (he_providerId expected) && isSha256 (he_manifestSha256 expected));
  fs ← isObject body;
  _ ← require (negb (existsb (fun f => bool_decide (fst f ∈ map text CLAIM_KEYS)) fs));
  e ← openEnvelope raw;
  record ← resolve trust (issuer e) (keyId e);
  _ ← require (bool_decide (audience e = default (text "internal.agent.health") (he_audience expected))
               && bool_decide (subject e = text "provider-health-probe:" ++ he_providerId expected));
  _ ← timely e 30000 (he_maxClockSkewMs expected) t;
  _ ← signed e (tr_publicKey record) body;
  Some (tr_issuer record, tr_keyId record, he_providerId expected).
End Verify.

(** ** base64url reads what it writes *)

Definition isByte (x : Z) : Prop := 0 <= x < 256.

Lemma base64Value_char v : 0 <= v < 64 -> base64Value (base64Char v) = Some v.
Proof.
  intros Hv. unfold base64Char. destruct (Z.ltb_spec v 26); [|destruct (Z.ltb_spec v 52); [|destruct (Z.ltb_spec v 62); [|destruct (Z.eqb_spec v 62)]]];
    unfold base64Value.
  - replace ((65 <=? 65 + v) && (65 + v <=? 90)) with true by lia. f_equal. lia.
  - replace ((65 <=? 71 + v) && (71 + v <=? 90)) with false by lia. replace ((97 <=? 71 + v) && (71 + v <=? 122)) with true by lia. f_equal. lia.
  - replace ((65 <=? v - 4) && (v - 4 <=? 90)) with false by lia. replace ((97 <=? v - 4) && (v - 4 <=? 122)) with false by lia.
    replace ((48 <=? v - 4) && (v - 4 <=? 57)) with true by lia. f_equal. lia.
  - by subst v.
  - by assert (v = 63) as -> by lia.
Qed.

(** Three bytes at a time. *)
Lemma triples_ind (P : bytes -> Prop) :
  P [] -> (forall x, P [x]) -> (forall x y, P [x; y]) -> (forall x y z r, P r -> P (x :: y :: z :: r)) -> forall b, P b.
Proof.
  intros H0 H1 H2 H3 b. enough (P b /\ (forall x, P (x :: b)) /\ forall x y, P (x :: y :: b)) as [? _] by done.
  induction b as [|z b (IH1 & IH2 & IH3)]; [done|]. split_and!; auto.
Qed.

(** The values of the characters of a text of bytes. *)
Fixpoint sextets (b : bytes) : list Z :=
  match b with
  | [] => []
  | [x] => [x / 4; x mod 4 * 16]
  | [x; y] => [x / 4; x mod 4 * 16 + y / 16; y mod 16 * 4]
  | x :: y :: z :: r => x / 4 :: x mod 4 * 16 + y / 16 :: y mod 16 * 4 + z / 64 :: z mod 64 :: sextets r
  end.
Lemma encode_sextets b : base64Encode b = map base64Char (sextets b).
Proof. induction b as [| | |x y z r IH] using triples_ind; [done..|]. cbn [base64Encode sextets map]. by rewrite IH. Qed.
Lemma sextets_bounds b : Forall isByte b -> Forall (fun v => 0 <= v < 64) (sextets b).
Proof.
  unfold isByte. induction b as [|x|x y|x y z r IH] using triples_ind; cbn [sextets]; rewrite ?Forall_cons; [done|..]; intros Hb; destruct_and!;
    split_and!; try done; try (by apply IH); Z.div_mod_to_equations; lia.
Qed.
Lemma sextets_bytes b : Forall isByte b -> base64Bytes (sextets b) = b.
Proof.
  unfold isByte. induction b as [|x|x y|x y z r IH] using triples_ind; cbn [sextets base64Bytes]; rewrite ?Forall_cons; [done|..]; intros Hb; destruct_and!.
  - f_equal. Z.div_mod_to_equations. lia.
  - f_equal; [|f_equal]; Z.div_mod_to_equations; lia.
  - rewrite IH by done. f_equal; [|f_equal; [|f_equal]]; Z.div_mod_to_equations; lia.
Qed.
Lemma sextets_length b : Z.of_nat (length (sextets b)) mod 4 <> 1.
Proof.
  induction b as [|x|x y|x y z r IH] using triples_ind; cbn [sextets length]; [done..|].
  intros Hm. apply IH. rewrite <- Hm. replace (Z.of_nat (S (S (S (S (length (sextets r))))))) with (Z.of_nat (length (sextets r)) + 1 * 4) by lia.
  by rewrite Z.mod_add.
Qed.
Lemma values_of_chars vs : Forall (fun v => 0 <= v < 64) vs -> mapM base64Value (map base64Char vs) = Some vs.
Proof. induction 1 as [|v vs Hv _ IH]; [done|]. cbn [map mapM]. by rewrite base64Value_char, IH. Qed.

Lemma decode_encoded b max : Forall isByte b -> bounded max (base64Encode b) = true ->
  decodeBase64Url (TStr (base64Encode b)) max = Some b.
Proof.
  intros Hb Hl. unfold decodeBase64Url. cbn [boundedString]. rewrite Hl. cbn [require mbind option_bind].
  assert (mapM base64Value (base64Encode b) = Some (sextets b)) as ->.
  { rewrite encode_sextets. apply values_of_chars. by apply sextets_bounds. }
  assert ((Z.of_nat (length (base64Encode b)) mod 4 =? 1) = false) as ->.
  { rewrite encode_sextets, length_map. apply Z.eqb_neq, sextets_length. }
  cbn [negb require mbind option_bind]. cbv zeta.
  rewrite sextets_bytes, bool_decide_true by done. destruct b as [|x b]; [unfold bounded in Hl; simpl in Hl; done|]. done.
Qed.

Lemma require_Some b u : require b = Some u <-> b = true.
Proof. destruct b, u; naive_solver. Qed.
Lemma boundedString_Some t max u : boundedString t max = Some u <-> t = TStr u /\ bounded max u = true.
Proof.
  unfold boundedString. split.
  - destruct t as [| | |v| |]; try done. destruct (bounded max v) eqn:E; [|done]. by intros [= <-].
  - by intros [-> ->].
Qed.

(** Splits the steps of a computation that has returned. *)
Ltac steps H :=
  repeat (apply bind_Some in H; let x := fresh "x" in let Hx := fresh "Hx" in destruct H as (x & Hx & H)).

Lemma decodeBase64Url_Some t max b : decodeBase64Url t max = Some b ->
  t = TStr (base64Encode b) /\ bounded max (base64Encode b) = true.
Proof.
  intros Hd. unfold decodeBase64Url in Hd. steps Hd. cbv zeta in Hd. steps Hd. rewrite !require_Some in *.
  injection Hd as <-. apply boundedString_Some in Hx as [-> Hb]. split_bools. by subst x.
Qed.

(** ** The bytes of a text *)

Lemma utf8_bytes u : Forall isUnit u -> Forall isByte (utf8 u).
Proof.
  unfold isUnit. assert (forall a b : bytes, Forall isByte a -> Forall isByte b -> Forall isByte (a ++ b)) as Happ by (intros; by apply Forall_app).
  assert (Forall isByte REPLACEMENT) as Hr by (unfold isByte; repeat constructor; done).
  induction u as [|x r IH1 IH2] using units_ind; [done|]. intros [Hx Hu]%Forall_cons. cbn [utf8]. specialize (IH1 Hu).
  destruct (Z.ltb_spec x 128); [constructor; [unfold isByte; lia|done]|].
  destruct (Z.ltb_spec x 2048).
  { apply Happ; [|done]. unfold utf8_2, isByte. repeat constructor; Z.div_mod_to_equations; lia. }
  destruct (isHigh x) eqn:Hh.
  { destruct r as [|y r']; [done|]. destruct (isLow y) eqn:Hy; [|by apply Happ].
    apply isHigh_bounds in Hh. apply isLow_bounds in Hy. apply Forall_cons in Hu as [_ Hu].
    apply Happ; [|by eapply IH2]. unfold utf8_4. assert (65536 <= pairCode x y <= 1114111) as Hc by (unfold pairCode; lia).
    unfold isByte. repeat constructor; Z.div_mod_to_equations; lia. }
  destruct (isLow x); [by apply Happ|]. apply Happ; [|done]. unfold utf8_3, isByte. repeat constructor; Z.div_mod_to_equations; lia.
Qed.

Lemma canonical_bytes t b : tree_wf t -> canonicalJson t = Some b -> Forall isByte b.
Proof.
  intros Hw Hc. unfold canonicalJson in Hc. rewrite assert_spec in Hc by (unfold MAX_NODES; lia).
  destruct (okTree 0 t && _) eqn:Ho; [|done]. cbn [mbind option_bind] in Hc. destruct (_ <? _); [done|]. injection Hc as <-.
  apply andb_true_iff in Ho as [Ho _]. rewrite serialize_print. apply utf8_bytes, (print_ok _ 0).
  - by rewrite sortKeys_ok.
  - by apply sortKeys_wf.
Qed.

(** ** Objects with given keys *)

Lemma own_Some {A} k (fs : list (units * A)) v : NoDup (map fst fs) -> own k fs = Some v <-> (k, v) ∈ fs.
Proof.
  induction fs as [|[k' v'] fs IH]; cbn [own map fst]; [by rewrite elem_of_nil|]. intros [Hn Hd]%NoDup_cons.
  rewrite elem_of_cons. destruct (decide (k = k')) as [->|Hne].
  - split; [intros [= ->]; by left|]. intros [[= <-]|Hin]; [done|]. exfalso. apply Hn. by apply (list_elem_of_fmap_2 fst) in Hin.
  - rewrite (IH Hd). naive_solver.
Qed.

Lemma unitsLe_trans a b c : unitsLe a b = true -> unitsLe b c = true -> unitsLe a c = true.
Proof.
  revert b c. induction a as [|x a IH]; intros [|y b] [|z c]; try done. cbn [unitsLe]. rewrite !orb_true_iff, !andb_true_iff.
  intros [?|[? Ha]] [?|[? Hb]]; [left; lia..|right]. split; [lia|by eapply IH].
Qed.
Lemma unitsLe_antisym a b : unitsLe a b = true -> unitsLe b a = true -> a = b.
Proof.
  revert b. induction a as [|x a IH]; intros [|y b]; try done. cbn [unitsLe]. rewrite !orb_true_iff, !andb_true_iff.
  intros [?|[? Ha]] [?|[? Hb]]; try lia. f_equal; [lia|by apply IH].
Qed.
Lemma in_order_Sorted {A} (le : A -> A -> bool) l : in_order le l -> Sorted (fun a b => le a b = true) l.
Proof.
  induction l as [|x [|y l] IH]; [by constructor|by repeat constructor|]. intros [Hxy Hl]%in_order_cons.
  constructor; [by apply IH|by constructor].
Qed.
(** With one member for each key, the order of the members does not matter. *)
Lemma sort_keys_perm {A} (l l' : list (units * A)) : NoDup (map fst l) -> l ≡ₚ l' -> sort_by keyLe l = sort_by keyLe l'.
Proof.
  intros Hn Hp. assert (Transitive (fun a b : units * A => keyLe a b = true)) as Ht by (intros a b c; apply unitsLe_trans).
  apply (Sorted_unique_strong (fun a b => keyLe a b = true)).
  - intros x y Hx Hy Hxy Hyx. apply sort_by_elem in Hx. rewrite sort_by_elem, <- Hp in Hy.
    eapply (NoDup_map_eq fst); [exact Hn|done|done|by apply unitsLe_antisym].
  - apply in_order_Sorted, sort_by_in_order. intros a b. apply unitsLe_total.
  - apply in_order_Sorted, sort_by_in_order. intros a b. apply unitsLe_total.
  - by rewrite !sort_by_perm.
Qed.

(** ** The text of an envelope *)

(** What its sender writes: the object with the nine members. *)
Definition envelopeMembers (e : Envelope) : list (units * units) :=
  combine (map text ENVELOPE_KEYS)
    [alg e; keyId e; issuer e; subject e; audience e; issuedAt e; expiresAt e; bodySha256 e; signature e].
Definition members_tree (l : list (units * units)) : list (units * tree) := map (fun f => (fst f, TStr (snd f))) l.
Definition envelopeTree (e : Envelope) : tree := TObj (members_tree (envelopeMembers e)).
Definition sealEnvelope (e : Envelope) : option units := base64Encode <$> canonicalJson (envelopeTree e).

(** The envelopes that are accepted at all. *)
Record envelope_ok (e : Envelope) : Prop := {
  eo_bounded : Forall (fun f => bounded MAX_FIELD_LENGTH (snd f) = true) (envelopeMembers e);
  eo_units : Forall (fun f => Forall isUnit (snd f)) (envelopeMembers e);
  eo_alg : alg e = text "Ed25519";
  eo_hash : isSha256 (bodySha256 e) = true;
  eo_signature : exists s, decodeBase64Url (TStr (signature e)) 128 = Some s /\ Z.of_nat (length s) = 64;
}.

Lemma envelope_keys e : map fst (members_tree (envelopeMembers e)) = map text ENVELOPE_KEYS.
Proof. done. Qed.
Lemma envelope_keys_NoDup : NoDup (map text ENVELOPE_KEYS).
Proof. apply (bool_decide_unpack _). by vm_compute. Qed.

Lemma closedEnvelope_sound fs e : NoDup (map fst fs) -> closedEnvelope (TObj fs) = Some e ->
  fs ≡ₚ members_tree (envelopeMembers e)
  /\ Forall (fun f => bounded MAX_FIELD_LENGTH (snd f) = true) (envelopeMembers e)
  /\ alg e = text "Ed25519" /\ isSha256 (bodySha256 e) = true
  /\ exists s, decodeBase64Url (TStr (signature e)) 128 = Some s /\ Z.of_nat (length s) = 64.
Proof.
  intros Hn Hc. unfold closedEnvelope, isObject in Hc. steps Hc. injection Hc as <-. rewrite !require_Some in *. injection Hx as <-.
  assert (forall k v, stringField k MAX_FIELD_LENGTH fs = Some v -> (text k, TStr v) ∈ fs /\ bounded MAX_FIELD_LENGTH v = true) as Hf.
  { intros k v Hk. unfold stringField in Hk. apply bind_Some in Hk as (t & Ht & [-> Hb]%boundedString_Some).
    split; [by apply own_Some|done]. }
  repeat match goal with Hk : stringField _ _ _ = Some _ |- _ => apply Hf in Hk; destruct Hk as [? ?] end.
  split_bools. cbn [alg bodySha256 signature]. split_and!; try done.
  - symmetry. apply submseteq_length_Permutation.
    + apply NoDup_submseteq; [apply (NoDup_fmap_1 fst); rewrite envelope_keys; apply envelope_keys_NoDup|].
      intros f Hin. unfold envelopeMembers, members_tree in Hin. cbn in Hin. repeat (apply elem_of_cons in Hin as [->|Hin]; [done|]).
      by apply elem_of_nil in Hin.
    + unfold members_tree, envelopeMembers. cbn. lia.
  - repeat (apply Forall_cons; split); done.
  - eexists. split; [done|]. by apply Z.eqb_eq.
Qed.

Lemma closedEnvelope_complete fs e : NoDup (map fst fs) -> fs ≡ₚ members_tree (envelopeMembers e) -> envelope_ok e ->
  closedEnvelope (TObj fs) = Some e.
Proof.
  intros Hn Hp [Hb _ Ha Hh (s & Hs & Hl)]. unfold closedEnvelope. cbn [isObject mbind option_bind].
  assert (Z.of_nat (length fs) =? 9 = true) as -> by (by rewrite Hp). cbn [require mbind option_bind].
  assert (forall k v, (text k, v) ∈ envelopeMembers e -> stringField k MAX_FIELD_LENGTH fs = Some v) as Hf.
  { intros k v Hk. unfold stringField. apply bind_Some. exists (TStr v). split.
    - apply own_Some; [done|]. rewrite Hp. by apply (list_elem_of_fmap_2 (fun f : units * units => (fst f, TStr (snd f)))) in Hk.
    - apply boundedString_Some. split; [done|]. rewrite Forall_forall in Hb. apply (Hb _ Hk). }
  rewrite (Hf "alg"%string (alg e)), (Hf "keyId"%string (keyId e)), (Hf "issuer"%string (issuer e)), (Hf "subject"%string (subject e)),
    (Hf "audience"%string (audience e)), (Hf "issuedAt"%string (issuedAt e)), (Hf "expiresAt"%string (expiresAt e)),
    (Hf "bodySha256"%string (bodySha256 e)), (Hf "signature"%string (signature e)) by (unfold envelopeMembers; cbn; set_solver).
  cbn [mbind option_bind].
  assert (existsb (fun f : units * tree => negb (bool_decide (fst f ∈ map text ENVELOPE_KEYS))) fs = false) as ->.
  { apply not_true_iff_false. intros (f & Hin & Hk)%existsb_exists. apply negb_true_iff, bool_decide_eq_false in Hk. apply Hk.
    rewrite <- (envelope_keys e). apply list_elem_of_In in Hin. apply (list_elem_of_fmap_2 fst). by rewrite <- Hp. }
  cbn [negb require mbind option_bind]. rewrite (bool_decide_true _ Ha), Hh. cbn [andb require mbind option_bind].
  rewrite Hs. cbn [mbind option_bind]. rewrite (proj2 (Z.eqb_eq _ _) Hl). cbn [require mbind option_bind]. by destruct e.
Qed.

Lemma canonicalJson_perm fs fs' : NoDup (map fst fs) -> fs ≡ₚ fs' -> canonicalJson (TObj fs) = canonicalJson (TObj fs').
Proof.
  intros Hn Hp. rewrite <- (canonicalJson_sorted (TObj fs)), <- (canonicalJson_sorted (TObj fs')). f_equal. cbn [sortKeys]. f_equal.
  apply sort_keys_perm; [by rewrite map_map|by rewrite Hp].
Qed.
Lemma members_wf l : NoDup (map fst l) -> Forall (fun f => Forall isUnit (fst f) /\ Forall isUnit (snd f)) l ->
  tree_wf (TObj (members_tree l)).
Proof.
  intros Hn Hl. cbn [tree_wf]. unfold members_tree. rewrite !map_map, foldr_and_Forall'. cbn [fst snd]. by split.
Qed.
Lemma text_units s : forallb (fun x => (0 <=? x) && (x <? 128)) (text s) = true -> Forall isUnit (text s).
Proof. intros [Hu _]%text_ok_literal. exact Hu. Qed.
Lemma envelopeTree_wf e : envelope_ok e -> tree_wf (envelopeTree e).
Proof.
  intros [_ Hu _ _ _]. apply members_wf; [apply envelope_keys_NoDup|].
  assert (Forall (fun k => Forall isUnit k) (map text ENVELOPE_KEYS)) as Hk by (repeat (apply Forall_cons; split; [by apply text_units|]); done).
  rewrite Forall_forall in Hk. rewrite Forall_forall in Hu |- *. intros f Hf. split; [|by apply Hu].
  apply Hk. rewrite <- (envelope_keys e). unfold members_tree. rewrite map_map. by apply (list_elem_of_fmap_2 fst).
Qed.

Lemma parse_wf b t : parseCanonicalJson b = Ok t -> tree_wf t.
Proof.
  unfold parseCanonicalJson. destruct (textDecode b) as [u|] eqn:Hd; [|done]. intros Hp.
  apply textDecode_units, parseText_outcome in Hd. rewrite Hp in Hd. apply Hd.
Qed.

(** A text opens to an envelope exactly if it is what the sender of that envelope writes. *)
Lemma openEnvelope_exact raw e : openEnvelope raw = Some e <->
  envelope_ok e /\ exists u, sealEnvelope e = Some u /\ bounded MAX_ASSERTION_LENGTH u = true /\ raw = TStr u.
Proof.
  unfold openEnvelope, sealEnvelope. split.
  - intros Ho. steps Ho. injection Ho as ->. rewrite require_Some in *.
    apply decodeBase64Url_Some in Hx as [-> Hb]. destruct (parseCanonicalJson x) as [t|] eqn:Hp; [|done]. injection Hx0 as ->.
    apply parse_wf in Hp as Hw. apply bool_decide_eq_true in Hx3 as ->.
    assert (exists fs, x0 = TObj fs) as [fs ->] by (unfold closedEnvelope in Hx1; steps Hx1; destruct x0; try done; eauto).
    cbn [tree_wf] in Hw. rewrite foldr_and_Forall' in Hw. destruct Hw as [Hn Hw].
    destruct (closedEnvelope_sound fs e Hn Hx1) as (Hperm & Hbd & Ha & Hh & Hs). split.
    + constructor; try done. rewrite Forall_forall in Hw. rewrite Forall_forall. intros f Hf.
      apply (list_elem_of_fmap_2 (fun f : units * units => (fst f, TStr (snd f)))) in Hf.
      change (map _ (envelopeMembers e)) with (members_tree (envelopeMembers e)) in Hf. rewrite <- Hperm in Hf. apply (Hw _ Hf).
    + exists (base64Encode x). split_and!; [|done|done]. unfold envelopeTree. rewrite <- (canonicalJson_perm fs) by done. by rewrite Hx2.
  - intros (Hok & u & Hs & Hb & ->). apply fmap_Some in Hs as (b & Hc & ->). pose proof (envelopeTree_wf e Hok) as Hw.
    rewrite decode_encoded; [|by eapply canonical_bytes|done]. cbn [mbind option_bind].
    rewrite (canonical_reads _ _ Hw Hc). cbn [mbind option_bind].
    assert (map fst (sort_by keyLe (map (fun f : units * tree => (fst f, sortKeys (snd f))) (members_tree (envelopeMembers e)))) ≡ₚ map text ENVELOPE_KEYS) as Hk
      by (by rewrite sort_by_perm).
    cbn [sortKeys envelopeTree]. rewrite (closedEnvelope_complete _ e); [|by rewrite Hk; apply envelope_keys_NoDup|by rewrite sort_by_perm|done].
    cbn [mbind option_bind]. change (TObj (sort_by _ _)) with (sortKeys (envelopeTree e)). rewrite canonicalJson_sorted, Hc.
    cbn [mbind option_bind]. by rewrite bool_decide_true.
Qed.

(** ** Trust *)

Lemma digits_prefix (ds ds' : list Z) r r' :
  Forall is_dec_digit ds -> Forall is_dec_digit ds' ->
  map (fun d => 48 + d) ds ++ COLON :: r = map (fun d => 48 + d) ds' ++ COLON :: r' -> ds = ds' /\ r = r'.
Proof.
  intros Hd. revert ds'. unfold is_dec_digit, COLON in *. induction Hd as [|d ds Hd _ IH]; intros [|d' ds'] Hd'; cbn [map app]; intros E.
  - by injection E.
  - injection E as E _. apply Forall_cons in Hd' as [? _]. lia.
  - injection E as E _. lia.
  - apply Forall_cons in Hd' as [? Hd']. injection E as E1 E2. destruct (IH _ Hd' E2) as [-> ->]. split; [f_equal; lia|done].
Qed.
Lemma decimal_prefix n n' r r' : decimal n ++ COLON :: r = decimal n' ++ COLON :: r' -> n = n' /\ r = r'.
Proof.
  unfold decimal, integerText. rewrite !(proj2 (Z.ltb_ge _ _)) by lia. intros E.
  destruct (dec_digits_spec (Z.of_nat n) ltac:(lia)) as (Hv & Hd & _). destruct (dec_digits_spec (Z.of_nat n') ltac:(lia)) as (Hv' & Hd' & _).
  apply digits_prefix in E as [E ->]; [|done..]. split; [|done]. rewrite E in Hv. lia.
Qed.
Lemma trustKey_inj i k i' k' : trustKey i k = trustKey i' k' -> i = i' /\ k = k'.
Proof.
  unfold trustKey. cbn [app]. intros [Hl E]%decimal_prefix. apply app_inj_1 in E as [-> E]; [|done].
  by apply decimal_prefix in E as [_ ->].
Qed.

Section TrustLaws.
Context `{Crypto}.

(** The configuration lists this key of this issuer. *)
Definition listed (l : list tree) (i k : units) (key : KeyObject) : Prop :=
  exists c pem, c ∈ l /\ readEntry c = Some (i, k, pem) /\ parsePublicEd25519Key pem = Ok key.
Definition trusts (config : tree) (i k : units) (key : KeyObject) : Prop :=
  exists l, configuredKeys config = Some l /\ listed l i k key.

Lemma addRecords_spec l : forall records trust, addRecords l records = Ok trust -> forall i k r,
  trust !! trustKey i k = Some r <->
  records !! trustKey i k = Some r \/ (r = Trusted i k (tr_publicKey r) /\ listed l i k (tr_publicKey r)).
Proof.
  induction l as [|c l IH]; intros records trust; cbn [addRecords].
  { intros [= <-] i k r. split; [by left|]. intros [?|[_ (c & pem & Hc & _)]]; [done|]. by apply elem_of_nil in Hc. }
  destruct (readEntry c) as [[[i0 k0] pem]|] eqn:He; [|done]. destruct (records !! trustKey i0 k0) eqn:Hfree; [done|].
  destruct (parsePublicEd25519Key pem) as [key|] eqn:Hk; [|done]. cbn [mbind result_bind]. intros Hl i k r. rewrite (IH _ _ Hl). unfold ServiceAssertionTrust in *.
  destruct (decide (trustKey i0 k0 = trustKey i k)) as [E|Hne].
  - rewrite E, (lookup_insert_eq (M:=gmap units)). rewrite <- E, Hfree. apply trustKey_inj in E as [-> ->]. split.
    + intros [[= <-]|[-> (c' & pem' & Hc & ?)]]; right; (split; [done|]).
      * exists c, pem. split; [left|done].
      * exists c', pem'. split; [by right|done].
    + intros [|[Hr (c' & pem' & Hc & He' & Hk')]]; [done|]. apply elem_of_cons in Hc as [->|Hc].
      * left. rewrite He in He'. injection He' as <-. rewrite Hk in Hk'. injection Hk' as Hk'. by rewrite Hr, Hk'.
      * right. split; [done|]. by exists c', pem'.
  - rewrite (lookup_insert_ne (M:=gmap units)) by done. split.
    + intros [?|[? (c' & pem' & Hc & ?)]]; [by left|right]. split; [done|]. exists c', pem'. split; [by right|done].
    + intros [?|[? (c' & pem' & Hc & He' & ?)]]; [by left|right]. split; [done|]. apply elem_of_cons in Hc as [->|Hc].
      * exfalso. apply Hne. rewrite He in He'. by injection He' as -> -> _.
      * by exists c', pem'.
Qed.
(** A record resolves exactly if the configuration lists it. *)
Lemma resolve_spec config trust : createServiceAssertionTrust config = Ok trust -> forall i k r,
  resolve trust i k = Some r <-> r = Trusted i k (tr_publicKey r) /\ trusts config i k (tr_publicKey r).
Proof.
  unfold createServiceAssertionTrust, trusts. destruct (canonicalJson config) as [b|]; [|done].
  destruct (configuredKeys config) as [l|]; [|done]. destruct (_ || _); [done|]. intros Ha i k r.
  unfold resolve. rewrite (addRecords_spec _ _ _ Ha). unfold ServiceAssertionTrust. rewrite (lookup_empty (M:=gmap units)). naive_solver.
Qed.
End TrustLaws.

(** ** What is admitted *)

Section Admission.
Context `{Crypto}.

(** The window of an envelope at a time, with a tolerance. *)
Definition in_window (e : Envelope) (maxLifetime : Z) (maxClockSkewMs : option jsnum) (now : Z) : Prop :=
  exists ia ea skew, parseRfc3339Utc (issuedAt e) = Some ia /\ parseRfc3339Utc (expiresAt e) = Some ea
    /\ asSafeInteger (default (NInt 0) maxClockSkewMs) = Some skew /\ 0 <= skew <= MAX_CLOCK_SKEW_MS
    /\ 1000 <= ea - ia <= maxLifetime /\ ia - skew <= now <= ea + skew.
(** The key has signed the protected fields, among them the digest of the body. *)
Definition signs (key : KeyObject) (e : Envelope) (body : tree) : Prop :=
  exists p s c, canonicalJson (protectedFields e) = Some p /\ decodeBase64Url (TStr (signature e)) 128 = Some s
    /\ verify p key s = true /\ canonicalJson body = Some c /\ sha256 c = hexBytes (bodySha256 e).

Record admitted (config raw body : tree) (aud : units) (maxLifetime : Z) (skew : option jsnum) (now : Z)
    (e : Envelope) (key : KeyObject) : Prop := {
  ad_closed : envelope_ok e;
  ad_sealed : exists u, sealEnvelope e = Some u /\ bounded MAX_ASSERTION_LENGTH u = true /\ raw = TStr u;
  ad_trusted : trusts config (issuer e) (keyId e) key;
  ad_audience : audience e = aud;
  ad_window : in_window e maxLifetime skew now;
  ad_signed : signs key e body;
}.

Lemma timely_exact e life skew now u : timely e life skew now = Some u <-> in_window e life skew now.
Proof.
  unfold timely, in_window. split.
  - intros Ht. steps Ht. rewrite !require_Some in *. apply negb_true_iff in Hx2, Ht. rewrite !orb_false_iff in *.
    exists x, x0, x1. unfold MAX_CLOCK_SKEW_MS in *. destruct_and!. split_and!; try done; lia.
  - intros (ia & ea & sk & -> & -> & -> & ? & ? & ?). cbn [mbind option_bind]. destruct u.
    assert (negb ((sk <? 0) || (MAX_CLOCK_SKEW_MS <? sk) || (ea - ia <? 1000) || (life <? ea - ia)) = true) as -> by lia.
    cbn [require mbind option_bind]. apply require_Some. lia.
Qed.
Lemma signed_exact e key body u : signed e key body = Some u <-> signs key e body.
Proof.
  unfold signed, signs, hashMatches. split.
  - intros Hs. steps Hs. rewrite !require_Some in *. steps Hx2. injection Hx2 as Hx2. subst.
    exists x, x0, x3. split_and!; try done. by apply (bool_decide_eq_true_1 _).
  - intros (p & s & c & -> & -> & Hv & -> & Hd). cbn [mbind option_bind]. rewrite Hv, bool_decide_true by done. by destruct u.
Qed.
Lemma envelope_subject e : envelope_ok e -> bounded MAX_FIELD_LENGTH (subject e) = true.
Proof.
  intros [Hb _ _ _ _]. rewrite Forall_forall in Hb. apply (Hb (text "subject", subject e)). unfold envelopeMembers. cbn. set_solver.
Qed.
Lemma validTime_exact now t : validTime now = Some t <-> now = Some t /\ Z.abs t <= MAX_SAFE_INTEGER.
Proof.
  unfold validTime. split.
  - intros Hv. steps Hv. rewrite require_Some in *. injection Hv as <-. split; [done|]. by apply Z.leb_le.
  - intros [-> Ht]. cbn [mbind option_bind]. by rewrite (proj2 (Z.leb_le _ _) Ht).
Qed.

(** The part the two verifiers share. *)
Lemma shared_exact config trust raw body aud life skew now e key :
  createServiceAssertionTrust config = Ok trust ->
  (openEnvelope raw = Some e /\ resolve trust (issuer e) (keyId e) = Some (Trusted (issuer e) (keyId e) key) /\ audience e = aud
   /\ timely e life skew now = Some tt /\ signed e key body = Some tt)
  <-> admitted config raw body aud life skew now e key.
Proof.
  intros Hc. rewrite openEnvelope_exact, (resolve_spec _ _ Hc), timely_exact, signed_exact. split.
  - intros ((Hok & Hs) & [_ Ht] & Ha & Hw & Hg). by constructor.
  - intros [Hok Hs Ht Ha Hw Hg]. done.
Qed.
Lemma resolve_record config trust i k r : createServiceAssertionTrust config = Ok trust -> resolve trust i k = Some r ->
  r = Trusted i k (tr_publicKey r).
Proof. intros Hc Hr. by apply (resolve_spec _ _ Hc) in Hr as [? _]. Qed.

Lemma verify_exact config trust raw body x now s : createServiceAssertionTrust config = Ok trust ->
  verifyServiceAssertionEnvelope raw body x trust now = Some s <->
  bounded MAX_FIELD_LENGTH (ex_audience x) = true
  /\ exists t e key, now = Some t /\ Z.abs t <= MAX_SAFE_INTEGER
       /\ admitted config raw body (ex_audience x) 60000 (ex_maxClockSkewMs x) t e key
       /\ subject e = s /\ match ex_workerId x with Some w => s = w | None => True end.
Proof.
  intros Hc. unfold verifyServiceAssertionEnvelope. split.
  - intros Hv. steps Hv. rewrite !require_Some in *. injection Hv as <-. split; [done|].
    apply validTime_exact in Hx as [-> Ht]. pose proof (resolve_record _ _ _ _ _ Hc Hx2) as Hr.
    exists x0, x2, (tr_publicKey x3). split_and!; try done.
    + apply (shared_exact config trust); [done|]. rewrite <- Hr. repeat match goal with u : unit |- _ => destruct u end.
      split_and!; try done. by apply (bool_decide_eq_true_1 _).
    + destruct (ex_workerId x); [|done]. by apply (bool_decide_eq_true_1 _).
  - intros (Ha & t & e & key & -> & Ht & Had & <- & Hw). pose proof (envelope_subject e (ad_closed _ _ _ _ _ _ _ _ _ Had)) as Hsub.
    apply (shared_exact config trust) in Had as (Ho & Hr & Haud & Hti & Hs); [|done].
    rewrite (proj2 (validTime_exact (Some t) t)) by done. cbn [mbind option_bind]. rewrite Ha, Ho. cbn [require mbind option_bind].
    rewrite Hr. cbn [mbind option_bind]. rewrite (bool_decide_true _ Haud). cbn [require mbind option_bind].
    assert (match ex_workerId x with Some w => bool_decide (subject e = w) | None => true end = true) as ->
      by (destruct (ex_workerId x); [by apply bool_decide_eq_true|done]).
    cbn [require mbind option_bind]. rewrite Hsub. cbn [require mbind option_bind]. rewrite Hti. cbn [mbind option_bind tr_publicKey].
    by rewrite Hs.
Qed.

Lemma health_exact config trust raw body x now i k p : createServiceAssertionTrust config = Ok trust ->
  authorizeProviderHealthAssertion raw body x trust now = Some (i, k, p) <->
  p = he_providerId x /\ isProviderId p = true /\ isSha256 (he_manifestSha256 x) = true
  /\ (exists fs, body = TObj fs /\ Forall (fun f => fst f ∉ map text CLAIM_KEYS) fs)
  /\ exists t e key, now = Some t /\ Z.abs t <= MAX_SAFE_INTEGER /\ issuer e = i /\ keyId e = k
       /\ admitted config raw body (default (text "internal.agent.health") (he_audience x)) 30000 (he_maxClockSkewMs x) t e key
       /\ subject e = text "provider-health-probe:" ++ p.
Proof.
  intros Hc. unfold authorizeProviderHealthAssertion. split.
  - intros Hv. steps Hv. rewrite !require_Some in *. injection Hv as <- <- <-. apply validTime_exact in Hx as [-> Ht].
    split_bools. pose proof (resolve_record _ _ _ _ _ Hc Hx4) as Hr. split_and!; try done.
    + exists x2. split; [destruct body as [| | | | |fs]; try done; unfold isObject in *; congruence|]. rewrite Forall_forall. intros f Hf Hk.
      assert (existsb (fun f : units * tree => bool_decide (fst f ∈ map text CLAIM_KEYS)) x2 = true); [|congruence].
      apply existsb_exists. exists f. split; [by apply list_elem_of_In|by apply bool_decide_eq_true].
    + exists x0, x4, (tr_publicKey x5). split_and!; try done; [by rewrite Hr|by rewrite Hr|].
      apply (shared_exact config trust); [done|]. rewrite <- Hr. repeat match goal with u : unit |- _ => destruct u end.
      by split_and!.
  - intros (-> & Hp & Hm & (fs & -> & Hfs) & t & e & key & -> & Ht & <- & <- & Had & Hsub).
    apply (shared_exact config trust) in Had as (Ho & Hr & Haud & Hti & Hs); [|done].
    rewrite (proj2 (validTime_exact (Some t) t)) by done. cbn [mbind option_bind]. rewrite Hp, Hm. cbn [andb require mbind option_bind isObject].
    assert (existsb (fun f : units * tree => bool_decide (fst f ∈ map text CLAIM_KEYS)) fs = false) as ->.
    { apply not_true_iff_false. intros (f & Hf & Hk)%existsb_exists. apply bool_decide_eq_true in Hk.
      rewrite Forall_forall in Hfs. apply list_elem_of_In in Hf. by apply (Hfs f Hf). }
    cbn [negb require mbind option_bind]. rewrite Ho. cbn [mbind option_bind]. rewrite Hr. cbn [mbind option_bind].
    rewrite (bool_decide_true _ Haud), (bool_decide_true _ Hsub). cbn [andb require mbind option_bind]. rewrite Hti.
    cbn [mbind option_bind tr_publicKey tr_issuer tr_keyId]. by rewrite Hs.
Qed.

(** C26. With the trust read from a configuration, the signed subject of a request is returned
    exactly if the assertion is the base64url text of the canonical JSON of some envelope with
    the nine members and no other, the configuration lists a public Ed25519 key under the
    envelope's issuer and identifier, the audience is the expected one, the subject is the
    expected worker where one is expected, now is within the envelope's 1 to 60 seconds
    widened by at most 5 of skew, and the key has signed the other members, among them the
    digest of the body's canonical text; and two bodies that pass with one assertion have
    one digest, so that with one text they are one value but for the order of their keys. *)
Theorem assertion_exact config trust raw body x now s :
  createServiceAssertionTrust config = Ok trust ->
  (verifyServiceAssertionEnvelope raw body x trust now = Some s <->
   bounded MAX_FIELD_LENGTH (ex_audience x) = true
   /\ exists t e key, now = Some t /\ Z.abs t <= MAX_SAFE_INTEGER
        /\ admitted config raw body (ex_audience x) 60000 (ex_maxClockSkewMs x) t e key
        /\ subject e = s /\ match ex_workerId x with Some w => s = w | None => True end)
  /\ forall body' s', verifyServiceAssertionEnvelope raw body x trust now = Some s ->
       verifyServiceAssertionEnvelope raw body' x trust now = Some s' -> tree_wf body -> tree_wf body' ->
       s' = s /\ exists c c', canonicalJson body = Some c /\ canonicalJson body' = Some c' /\ sha256 c = sha256 c'
         /\ (c = c' -> sortKeys body = sortKeys body').
Proof.
  intros Hc. split; [by apply verify_exact|].
  intros body' s' Hv Hv' Hw Hw'. apply (verify_exact config) in Hv as (_ & t & e & key & Ht & _ & Ha & <- & _); [|done].
  apply (verify_exact config) in Hv' as (_ & t' & e' & key' & Ht' & _ & Ha' & <- & _); [|done].
  assert (e' = e) as ->.
  { pose proof (proj2 (openEnvelope_exact raw e) (conj (ad_closed _ _ _ _ _ _ _ _ _ Ha) (ad_sealed _ _ _ _ _ _ _ _ _ Ha))) as E.
    pose proof (proj2 (openEnvelope_exact raw e') (conj (ad_closed _ _ _ _ _ _ _ _ _ Ha') (ad_sealed _ _ _ _ _ _ _ _ _ Ha'))) as E'. congruence. }
  split; [done|]. destruct (ad_signed _ _ _ _ _ _ _ _ _ Ha) as (_ & _ & c & _ & _ & _ & Hb & Hd).
  destruct (ad_signed _ _ _ _ _ _ _ _ _ Ha') as (_ & _ & c' & _ & _ & _ & Hb' & Hd').
  exists c, c'. split_and!; [done|done|congruence|]. intros ->. by eapply canonicalJson_inj.
Qed.
End Admission.

(** ** A concrete run *)

(** A toy of the library: digests and signatures are sums. *)
Definition sumByte (l : list Z) : Z := sumZ l mod 256.
#[global] Instance concrete_crypto : Crypto := {
  KeyObject := units;
  createPrivateKey _ := false;
  createPublicKey u := Some u;
  keyType _ := "public"%string;
  asymmetricKeyType _ := "ed25519"%string;
  verify p k s := bool_decide (s = replicate 64 (sumByte (k ++ p)));
  sha256 b := replicate 32 (sumByte b);
}.
Definition demoPem : units := text "PEM of the worker".
Definition demoConfig : tree :=
  TObj [(text "version", TNum (NInt 1));
        (text "keys", TArr [TObj [(text "issuer", TStr (text "worker")); (text "keyId", TStr (text "k1"));
                                  (text "publicKeyPem", TStr demoPem)]])].
Definition hexText (b : bytes) : units := concat (map (fun x => [hexDigit (x / 16); hexDigit (x mod 16)]) b).
Definition unsignedEnvelope (issued expires : string) (body : tree) : Envelope :=
  MkEnvelope (text "Ed25519") (text "k1") (text "worker") (text "w-1") (text "internal.rooms.autoClose")
    (text issued) (text expires)
    (hexText (sha256 (default [] (canonicalJson body)))) [].
(** The assertion the worker makes for a body. *)
Definition signedAssertion (issued expires : string) (body : tree) : tree :=
  let e := unsignedEnvelope issued expires body in
  let s := base64Encode (replicate 64 (sumByte (demoPem ++ default [] (canonicalJson (protectedFields e))))) in
  TStr (default [] (sealEnvelope (MkEnvelope (alg e) (keyId e) (issuer e) (subject e) (audience e) (issuedAt e) (expiresAt e)
                                    (bodySha256 e) s))).
Definition demoAssertion : tree -> tree := signedAssertion "2024-01-01T00:00:00Z" "2024-01-01T00:00:30.500Z".
Definition demoBody : tree := TObj [(text "note", TStr [233; 55357; 56832]); (text "a", TNum (NInt 7))].
Definition demoExpected : ServiceAssertionEnvelopeExpected := EnvelopeExpected (text "internal.rooms.autoClose") None (Some (NInt 2000)).

Definition demoTrust : ServiceAssertionTrust :=
  match createServiceAssertionTrust demoConfig with Ok t => t | Err _ => ∅ end.

Lemma demoTrust_ok : createServiceAssertionTrust demoConfig = Ok demoTrust.
Proof.
  assert (is_ok (createServiceAssertionTrust demoConfig) = true) as Hk by (vm_compute; reflexivity).
  unfold demoTrust. destruct (createServiceAssertionTrust demoConfig); [reflexivity|discriminate Hk].
Qed.
Lemma assertion_exact_witness :
  verifyServiceAssertionEnvelope (demoAssertion demoBody) demoBody demoExpected demoTrust (Some 1704067231000) = Some (text "w-1")
  /\ verifyServiceAssertionEnvelope (demoAssertion demoBody) demoBody demoExpected demoTrust (Some 1704067233000) = None
  /\ exists t e key, admitted demoConfig (demoAssertion demoBody) demoBody (ex_audience demoExpected) 60000
                       (ex_maxClockSkewMs demoExpected) t e key.
Proof.
  pose proof demoTrust_ok as Hc.
  assert (verifyServiceAssertionEnvelope (demoAssertion demoBody) demoBody demoExpected demoTrust (Some 1704067231000) = Some (text "w-1")) as Hv
    by (vm_compute; reflexivity).
  destruct (proj1 (proj1 (assertion_exact demoConfig demoTrust (demoAssertion demoBody) demoBody demoExpected (Some 1704067231000) (text "w-1") Hc)) Hv)
    as (_ & t & e & key & _ & _ & Ha & _).
  split_and!; [exact Hv|vm_compute; reflexivity|exists t, e, key; exact Ha].
Defined.
