(* ===== verification/AutoClose.v ===== *)
(** * The internal route that closes a room

    [apps/server/src/modules/rooms/internal-auto-close-route.ts] and the request of its
    contract, [packages/contracts/schemas/room-internal-auto-close.v1.json]: a worker that
    holds the job of a room's end presents a signed request; the room is closed and the
    effect recorded for its claim in one transaction. *)
From S2P Require Import Prelude Text JsDate JsValue Utf Canonical Contracts Database Concrete Ledger Lifecycle Jobs Assertion.
#[local] Set Warnings "-register-all,-clear-no-such-hyp,-level-tolerance".

(** ** The request *)

Record Request : Type := MkRequest {
  rq_claim : JobClaimIdentity;
  rq_roomId : string;
  rq_workerId : units;
  rq_closesAt : string;
}.
Definition REQUEST_KEYS : list string :=
  ["jobId"; "jobType"; "roomId"; "sourceEventId"; "dedupeKey"; "correlationId"; "claimGeneration"; "claimToken";
   "workerId"; "closesAt"]%string.

Definition is_dedupe_char (c : ascii) : bool := is_lower_hex c || is_char "-" c.
(** [^room\.auto-close\.v1:[0-9a-f-]{36}$] *)
Definition isDedupeKey (s : string) : bool :=
  matches (map is_char (list_ascii_of_string "room.auto-close.v1:") ++ replicate 36 is_dedupe_char) (list_ascii_of_string s).
(** [^[1-9][0-9]{0,18}$] *)
Definition isGeneration (s : string) : bool :=
  isPositiveNumeral s && (Z.of_nat (length (list_ascii_of_string s)) <=? 19).
(** The characters of a string: a pair of surrogates is one. *)
Fixpoint ucs2length (u : units) : Z :=
  match u with
  | [] => 0
  | x :: r => match r with
              | y :: r' => if isHigh x && isLow y then 1 + ucs2length r' else 1 + ucs2length r
              | [] => 1
              end
  end.

Section Route.
Context `{Schemas} `{Postgres} `{Environment} `{BigintText} `{Crypto}.

Definition textField (k : string) (fs : list (units * tree)) : option units :=
  match own (text k) fs with Some (TStr u) => Some u | _ => None end.
Definition uuidText (k : string) (fs : list (units * tree)) : option string :=
  u ← textField k fs; _ ← require (format_uuid (textOf u)); Some (textOf u).
Definition patternText (p : string -> bool) (k : string) (fs : list (units * tree)) : option string :=
  u ← textField k fs; _ ← require (p (textOf u)); Some (textOf u).

Definition parseRequest (value : tree) : option Request :=
  fs ← isObject value;
  _ ← require (forallb (fun f => bool_decide (fst f ∈ map text REQUEST_KEYS)) fs);
  jobId ← uuidText "jobId" fs;
  jobType ← patternText (fun s => bool_decide (s = AUTO_CLOSE)) "jobType" fs;
  roomId ← uuidText "roomId" fs;
  sourceEventId ← uuidText "sourceEventId" fs;
  dedupeKey ← patternText isDedupeKey "dedupeKey" fs;
  correlationId ← uuidText "correlationId" fs;
  claimGeneration ← patternText isGeneration "claimGeneration" fs;
  claimToken ← uuidText "claimToken" fs;
  workerId ← textField "workerId" fs;
  _ ← require ((1 <=? ucs2length workerId) && (ucs2length workerId <=? 128));
  closesAt ← patternText format_date_time "closesAt" fs;
  Some (MkRequest (ClaimIdentity jobId jobType (Some roomId) (Some sourceEventId) dedupeKey correlationId
                     claimGeneration claimToken (textOf workerId)) roomId workerId closesAt).

(** ** The route *)

Inductive CompletedCode : Type := ROOM_CLOSED | ALREADY_CLOSED.
Inductive RejectedCode : Type :=
| SERVICE_ASSERTION_INVALID | CLAIM_STALE | JOB_FAMILY_IDENTITY_INVALID | DELETION_IN_PROGRESS.
Inductive Response : Type :=
| Completed (code : CompletedCode)
| RoomCloseNotDue
| Rejected (code : RejectedCode).

(** [isPlainRecord(row.payload)] with two keys. *)
Definition jobPayloadOk (rq : Request) (p : json) : bool :=
  match p with
  | JObj fs => (Z.of_nat (length fs) =? 2) && bool_decide (strField "roomId" p = Some (rq_roomId rq))
               && bool_decide (strField "closesAt" p = Some (rq_closesAt rq))
  | _ => false
  end.
Definition generationOk (s : string) : bool := (0 <? dec_number s) && (dec_number s <=? MAX_INT8).
Definition sourceOk (rq : Request) (e : event_row) : bool :=
  bool_decide (ev_type e = "room.opened"%string) && bool_decide (ev_room_id e = rq_roomId rq)
  && bool_decide (ev_actor_kind e = human) && bool_decide (ev_actor_role e = teacher)
  && (ev_revision e =? 1) && bool_decide (ev_operation e = add)
  && bool_decide (ev_correlation_id e = jc_correlationId (rq_claim rq))
  && bool_decide (strField "closesAt" (ev_payload e) = Some (rq_closesAt rq)).
Definition identityOk (rq : Request) (row : option job_row) (source : option event_row) : bool :=
  let c := rq_claim rq in
  generationOk (jc_claimGeneration c)
  && match row, source with
     | Some j, Some e =>
         bool_decide (jb_type j = jc_jobType c) && bool_decide (jb_room_id j = jc_roomId c)
         && bool_decide (jb_source_event_id j = jc_sourceEventId c) && bool_decide (jb_dedupe_key j = jc_dedupeKey c)
         && bool_decide (jb_correlation_id j = jc_correlationId c)
         && bool_decide (toISOString (jb_run_after j) = rq_closesAt rq) && sourceOk rq e && jobPayloadOk rq (jb_payload j)
     | _, _ => false
     end.

Variable payloads : EventPayloadRegistry.

Definition COMPLETION_CODE : string := "ROOM_AUTO_CLOSE_COMPLETED".
(** Inside the transaction of the room. A comparison with an invalid date is false. *)
Definition closeClaimed (rq : Request) (context : RoomEventTransactionContext) : IO Response :=
  let c := rq_claim rq in
  jobId ← uuidParam (jc_jobId c);
  row ← query (fun d => find (fun j => bool_decide (jb_id j = jobId)) (jobs d));
  source ← query (fun d => row ≫= fun j => sourceEvent j d);
  if negb (identityOk rq row source) then mret (Rejected JOB_FAMILY_IDENTITY_INVALID) else
  current ← try_catch (requireCurrent c;; mret true) (fun _ => mret false);
  if negb current then mret (Rejected CLAIM_STALE) else
  let closesAt := dateParse (rq_closesAt rq) in
  now ← clockNow;
  if match now, closesAt with Some t, Some ca => t <? ca | _, _ => false end then mret RoomCloseNotDue else
  rid ← uuidParam (rq_roomId rq);
  room ← query (fun d => find (fun r => bool_decide (rm_id r = rid)) (rooms d));
  match rm_status <$> room with
  | Some open | Some paused =>
      match closesAt with
      | None => throw (Failure "Invalid time value")
      | Some ca =>
          _ ← appendAutomaticClose context (rq_roomId rq) (jc_jobId c) ca (jc_correlationId c) (Some (jc_jobId c));
          completeBusiness c COMPLETION_CODE;;
          mret (Completed ROOM_CLOSED)
      end
  | Some closed => completeBusiness c COMPLETION_CODE;; mret (Completed ALREADY_CLOSED)
  | _ => mret (Rejected DELETION_IN_PROGRESS)
  end.

Definition AUDIENCE : units := text "internal.rooms.autoClose".
Definition handle (trust : ServiceAssertionTrust) (rawAssertion value : tree) : IO Response :=
  match parseRequest value with
  | None => mret (Rejected JOB_FAMILY_IDENTITY_INVALID)
  | Some rq =>
      now ← clockNow;
      match authorizeServiceAssertion rawAssertion value (Expected AUDIENCE (rq_workerId rq) (rq_claim rq) None) trust now with
      | None => mret (Rejected SERVICE_ASSERTION_INVALID)
      | Some _ =>
          try_catch (transact payloads (rq_roomId rq) (closeClaimed rq))
            (fun e => if decide (e = JOB_CLAIM_STALE) then mret (Rejected CLAIM_STALE) else throw e)
      end
  end.
End Route.

(** ** What the route does *)

Section Effect.
Context `{Schemas} `{Postgres} `{Environment} `{BigintText} `{Crypto}.
Variable payloads : EventPayloadRegistry.

Definition ticked (w : world) : world := World (db w) (S (ticks w)) (txs w) (uuids w) (tx w).

(** The steps of a run that completes. *)
Record completed_run (rq : Request) (snapshot : LockedRoomSnapshot) (w : world) (code : CompletedCode) (w' : world)
    (i : string) (j : job_row) (e : event_row) (rid : string) (room : room_row) : Prop := {
  cr_id : uuid_in (jc_jobId (rq_claim rq)) = Some i;
  cr_job : find (fun j => bool_decide (jb_id j = i)) (jobs (db w)) = Some j;
  cr_source : sourceEvent j (db w) = Some e;
  cr_identity : identityOk rq (Some j) (Some e) = true;
  cr_current : exists u, requireCurrent (rq_claim rq) w = (Ok u, w);
  cr_due : match clock_now (ticks w), dateParse (rq_closesAt rq) with Some t, Some ca => ca <= t | _, _ => True end;
  cr_rid : uuid_in (rq_roomId rq) = Some rid;
  cr_room : find (fun r => bool_decide (rm_id r = rid)) (rooms (db w)) = Some room;
  cr_effect : match code with
    | ROOM_CLOSED => rm_status room ∈ [open; paused]
        /\ exists ca ev w1, dateParse (rq_closesAt rq) = Some ca
             /\ appendAutomaticClose (contextOf payloads snapshot) (rq_roomId rq) (jc_jobId (rq_claim rq)) ca
                  (jc_correlationId (rq_claim rq)) (Some (jc_jobId (rq_claim rq))) (ticked w) = (Ok ev, w1)
             /\ completeBusiness (rq_claim rq) COMPLETION_CODE w1 = (Ok tt, w')
    | ALREADY_CLOSED => rm_status room = closed /\ completeBusiness (rq_claim rq) COMPLETION_CODE (ticked w) = (Ok tt, w')
    end;
}.

(** The check of a claim whose failure is an answer. *)
Lemma currentCheck_ok c w b w' : try_catch (requireCurrent c;; mret true) (fun _ => mret false) w = (Ok b, w') ->
  w' = w /\ (b = true -> exists u, requireCurrent c w = (Ok u, w)).
Proof.
  unfold try_catch, mbind, M_bind. destruct (requireCurrent c w) as [[u|e] s] eqn:Hreq.
  - intros [= <- <-]. destruct (requireCurrent_ok _ _ _ _ Hreq) as [-> _]. eauto.
  - intros [= <- <-]. split; [|done]. unfold requireCurrent, mbind, M_bind in Hreq.
    destruct (readClaim c w) as [[k|e1] s1] eqn:Hk; destruct (readClaim_run _ _ _ _ Hk) as [-> _].
    + unfold query, gets, throw_if in Hreq. by destruct (negb _); injection Hreq as _ <-.
    + by injection Hreq as _ <-.
Qed.
Lemma closeClaimed_cases rq snapshot w r w' :
  closeClaimed rq (contextOf payloads snapshot) w = (Ok r, w') ->
  (db w' = db w /\ forall code, r <> Completed code)
  \/ exists code i j e rid room, r = Completed code /\ completed_run rq snapshot w code w' i j e rid room.
Proof.
  unfold closeClaimed. intros (i & s & [Hi ->]%uuidParam_ok & Hr)%bind_ok.
  apply bind_ok in Hr as (row & s & Hrow & Hr). unfold query, gets in Hrow. injection Hrow as Hrow <-.
  apply bind_ok in Hr as (source & s & Hsource & Hr). unfold query, gets in Hsource. injection Hsource as Hsource <-.
  destruct (identityOk rq row source) eqn:Hid; cbn [negb] in Hr; [|run_ok; by left].
  assert (exists j e, row = Some j /\ source = Some e) as (j & e & -> & ->).
  { unfold identityOk in Hid. destruct row, source; rewrite ?andb_false_r in Hid; try done. eauto. }
  apply bind_ok in Hr as (current & s & [-> Hcurrent]%currentCheck_ok & Hr).
  destruct current; cbn [negb] in Hr; [|run_ok; by left]. specialize (Hcurrent eq_refl).
  apply bind_ok in Hr as (now & s & Hnow & Hr). unfold clockNow in Hnow. injection Hnow as <- <-. change (World _ _ _ _ _) with (ticked w) in Hr.
  match type of Hr with (if ?b then _ else _) _ = _ => destruct b eqn:Hearly end; [run_ok; by left|].
  apply bind_ok in Hr as (rid & s & [Hrid ->]%uuidParam_ok & Hr).
  apply bind_ok in Hr as (room & s & Hroom & Hr). unfold query, gets in Hroom. injection Hroom as Hroom <-.
  assert (match clock_now (ticks w), dateParse (rq_closesAt rq) with Some t, Some ca => ca <= t | _, _ => True end) as Hdue.
  { destruct (clock_now (ticks w)), (dateParse (rq_closesAt rq)); try done. by apply Z.ltb_ge. }
  destruct room as [room|]; [|cbn [fmap option_fmap option_map] in Hr; run_ok; by left]. cbn [fmap option_fmap option_map] in Hr.
  assert (forall r, match dateParse (rq_closesAt rq) with
      | Some ca => appendAutomaticClose (contextOf payloads snapshot) (rq_roomId rq) (jc_jobId (rq_claim rq)) ca
                     (jc_correlationId (rq_claim rq)) (Some (jc_jobId (rq_claim rq)))
                   ≫= (fun _ => completeBusiness (rq_claim rq) COMPLETION_CODE;; mret (Completed ROOM_CLOSED))
      | None => throw (Failure "Invalid time value") end (ticked w) = (Ok r, w') ->
    rm_status room ∈ [open; paused] ->
    exists code i j e rid room, r = Completed code /\ completed_run rq snapshot w code w' i j e rid room) as Hclose.
  { intros r0 Hc Hst. destruct (dateParse (rq_closesAt rq)) as [ca|] eqn:Hca; [|done].
    apply bind_ok in Hc as (ev & w1 & Happ & Hc). apply bind_ok in Hc as ([] & w2 & Hcomp & Hc). injection Hc as <- <-.
    exists ROOM_CLOSED, i, j, e, rid, room. split; [done|]. constructor; try done; [by rewrite Hca|]. split; [done|]. by exists ca, ev, w1. }
  destruct (rm_status room) eqn:Hst.
  - run_ok. by left.
  - right. apply Hclose; [done|]. set_solver.
  - right. apply Hclose; [done|]. set_solver.
  - right. apply bind_ok in Hr as ([] & w2 & Hcomp & Hr). injection Hr as <- <-.
    exists ALREADY_CLOSED, i, j, e, rid, room. split; [done|]. by constructor.
Qed.

Lemma cancelRoomJobs_keep rid' now keep w u w' : cancelRoomJobs rid' now (Some keep) w = (Ok u, w') ->
  exists rid p, uuid_in rid' = Some rid /\ uuid_in keep = Some p
    /\ w' = set_db (set_jobs (update_where (toCancel rid (Some p)) (cancelJob now) (jobs (db w))) (db w)) w.
Proof.
  unfold cancelRoomJobs, uuidParamOpt. intros (rid & s & [Hu ->]%uuidParam_ok & Hr)%bind_ok.
  apply bind_ok in Hr as (p & s & Hp & Hr). apply bind_ok in Hp as (p0 & s0 & [Hp ->]%uuidParam_ok & Hp'). injection Hp' as <- <-.
  unfold execute, modify in Hr. injection Hr as _ <-. eauto.
Qed.

Lemma append_keeps_job snapshot d j : preserves (on_db (fun d => j ∈ jobs d)) (append (contextOf payloads snapshot) d).
Proof. apply append_on; try done. intros x d0 Hj _. simpl. set_solver. Qed.
Lemma append_keeps_completions snapshot d cs : preserves (on_db (fun d => completions d = cs)) (append (contextOf payloads snapshot) d).
Proof. by apply append_on. Qed.

(** The close leaves the room closed as of the closing time, and its own job alone. *)
Lemma close_effect_on rid' jobId ca corr snapshot w ev w1 rid i j :
  appendAutomaticClose (contextOf payloads snapshot) rid' jobId ca corr (Some jobId) w = (Ok ev, w1) ->
  uuid_in rid' = Some rid -> uuid_in jobId = Some i -> j ∈ jobs (db w) -> jb_id j = i ->
  j ∈ jobs (db w1) /\ completions (db w1) = completions (db w)
  /\ cores (db w1) = cores (updateRoom rid (withClosing ca) (db w))
  /\ exists now s2, db s2 = set_jobs (update_where (toCancel rid (Some i)) (cancelJob now) (jobs (db w))) (updateRoom rid (withClosing ca) (db w))
       /\ tx s2 = tx w
       /\ append (contextOf payloads snapshot) (Draft "room.closed" jobId system room_clock 1 add ca jobId corr (closedPayload ca)) s2 = (Ok ev, w1).
Proof.
  intros Happ Hrid Hi Hj Hji. unfold appendAutomaticClose in Happ.
  apply bind_ok in Happ as (now & s & [_ ->]%validNow_ok & Happ). apply bind_ok in Happ as (rid0 & s & [Hu ->]%uuidParam_ok & Happ).
  assert (rid0 = rid) as -> by congruence. apply bind_ok in Happ as (u1 & s1 & Hex & Happ). unfold execute, modify in Hex. injection Hex as _ <-.
  apply bind_ok in Happ as (u2 & s2 & Hcancel & Happ). apply cancelRoomJobs_keep in Hcancel as (rid2 & p & Hu2 & Hp & ->).
  assert (rid2 = rid) as -> by congruence. assert (p = i) as -> by congruence. cbn [db set_db] in *.
  split_and!.
  - eapply (append_keeps_job snapshot _ j); [|exact Happ]. unfold on_db. simpl. apply list_elem_of_fmap. exists j. split; [|done].
    unfold toCancel. rewrite (bool_decide_true (jb_id j = i)) by done. by rewrite andb_false_r.
  - eapply (append_keeps_completions snapshot); [|exact Happ]. done.
  - eapply (append_cores payloads); [|exact Happ]. done.
  - eexists _, _. split_and!; [..|exact Happ]; done.
Qed.

Lemma frame_fields d d' : set_completions [] d' = set_completions [] d ->
  rooms d' = rooms d /\ events d' = events d /\ jobs d' = jobs d /\ outbox d' = outbox d.
Proof. destruct d, d'. unfold set_completions. simpl. by intros [= -> -> -> -> _ _ _]. Qed.

(** What is true of the ledger after the close of a room whose job has no event yet. *)
Definition closing_event (jobId : string) (ca : Z) (locked : room_row) (d : database) : Prop :=
  exists ev row, row ∈ events d /\ eventRow ev = Some row /\ type ev = "room.closed"%string /\ roomId ev = rm_id locked
    /\ roomSeq ev = rm_next_room_seq locked /\ causationId ev = jobId /\ eventTime ev = toISOString ca.

Lemma close_event_on roomId' w w0 locked snapshot s2 jobId ca corr ev w1 :
  entered roomId' w w0 locked snapshot -> tx s2 = tx w0 -> events (db s2) = events (db w) -> outbox (db s2) = outbox (db w) ->
  room_id snapshot = rm_id locked ->
  append (contextOf payloads snapshot) (Draft "room.closed" jobId system room_clock 1 add ca jobId corr (closedPayload ca)) s2 = (Ok ev, w1) ->
  fst (findOneByCausation payloads (rm_id locked) jobId w0) = Ok None -> closing_event jobId ca locked (db w1).
Proof.
  intros Hen Htx Hev Hob Hsid Happ Hnone. pose proof (en_world _ _ _ _ _ Hen) as Hw0.
  assert (nextRoomSeq (tx s2) = rm_next_room_seq locked) as Hnext by (by rewrite Htx, Hw0).
  match type of Happ with append _ ?d _ = _ =>
    destruct (append_new payloads snapshot d s2 ev w1) as (Hcd & row & env & j & w3 & Hwr & ->); [done| | |done|] end.
  - simpl. split; [apply NoDup_singleton|done].
  - cbn [d_causationId]. rewrite Hsid, <- Hnone. apply find_same_events; by rewrite ?Hev, ?Hob, Hw0.
  - rewrite Hsid, Hnext in *. destruct (completed_draft _ _ _ _ _ _ Hcd) as (Ht & _ & _ & _ & _ & _ & Hti & Hca & _ & _).
    exists ev, row. split_and!; [|by apply Hwr|done|by apply Hcd|by apply Hcd|done|done].
    rewrite (wr_world _ _ _ _ _ _ _ _ Hwr). simpl. set_solver.
Qed.

Lemma find_only {A B} `{EqDecision B} (f : A -> B) l b x y : NoDup (map f l) -> find (fun x => bool_decide (f x = b)) l = Some x ->
  y ∈ l -> f y = b -> x = y.
Proof.
  intros Hn [Hx Hb]%find_elem Hy Hyb. apply bool_decide_eq_true in Hb. eapply (NoDup_map_eq f); [exact Hn|done|done|congruence].
Qed.

(** What a completed answer stands for. *)
Record completed_for (rq : Request) (w w' : world) (code : CompletedCode) (j : job_row) (locked : room_row) : Prop := {
  cf_claim : exists k, (forall w0, readClaim (rq_claim rq) w0 = (Ok k, w0)) /\ select_where (holds_claim k) (jobs (db w)) = [j]
    /\ CompletionRow (ck_id k) (ck_generation k) (sha256_hex (jc_claimToken (rq_claim rq))) COMPLETION_CODE ∈ completions (db w');
  cf_identity : exists e, sourceEvent j (db w) = Some e /\ identityOk rq (Some j) (Some e) = true;
  cf_room : locked ∈ rooms (db w) /\ uuid_in (rq_roomId rq) = Some (rm_id locked);
  cf_kept : j ∈ jobs (db w');
  cf_effect : match code with
    | ROOM_CLOSED => rm_status locked ∈ [open; paused]
        /\ exists ca, dateParse (rq_closesAt rq) = Some ca
             /\ match clock_now (ticks w) with Some t => ca <= t | None => True end
             /\ cores (db w') = cores (updateRoom (rm_id locked) (withClosing ca) (db w))
             /\ (fst (findOneByCausation payloads (rm_id locked) (jc_jobId (rq_claim rq)) w) = Ok None ->
                 closing_event (jc_jobId (rq_claim rq)) ca locked (db w'))
    | ALREADY_CLOSED => rm_status locked = closed /\ set_completions [] (db w') = set_completions [] (db w)
    end;
}.

Lemma transact_completed rq w code w' : ledger_ok (db w) -> NoDup (map jb_id (jobs (db w))) ->
  transact payloads (rq_roomId rq) (closeClaimed rq) w = (Ok (Completed code), w') ->
  exists j locked, completed_for rq w w' code j locked.
Proof.
  intros Hok Hjobs (locked & snapshot & w0 & Hen & Hr & _)%transact_ok.
  assert (db w0 = db w) as Hdb by (by rewrite (en_world _ _ _ _ _ Hen)).
  destruct (closeClaimed_cases _ _ _ _ _ Hr) as [[_ Hno]|(code' & i & j & e & rid & room & [= <-] & Hrun)]; [by destruct (Hno code)|].
  destruct Hrun as [Hi Hj Hsrc Hid [u Hcur] Hdue Hrid Hroom Heff]. rewrite Hdb in *.
  destruct (entered_row _ _ _ _ _ Hok Hen rid Hrid) as (Hin & Hlid & Hnd & _ & Hsid & _).
  assert (room = locked) as -> by (eapply (find_only rm_id); [exact Hnd|exact Hroom|done|done]).
  destruct (requireCurrent_ok _ _ _ _ Hcur) as (_ & k & j' & Hk & Hrows). rewrite Hdb in Hrows.
  assert (j' ∈ select_where (holds_claim k) (jobs (db w))) as [Hj' Hh]%select_where_elem by (rewrite Hrows; left).
  apply holds_claim_true in Hh as (Hj'i & _). destruct (readClaim_fields _ _ _ Hk) as (Hki & _).
  assert (j = j') as <- by (eapply (find_only jb_id); [exact Hjobs|exact Hj|done|congruence]).
  destruct (readClaim_run _ _ _ _ Hk) as [_ Hkall]. assert (jb_id j = i) as Hji by congruence.
  assert (forall w1, completeBusiness (rq_claim rq) COMPLETION_CODE w1 = (Ok tt, w') ->
    CompletionRow (ck_id k) (ck_generation k) (sha256_hex (jc_claimToken (rq_claim rq))) COMPLETION_CODE ∈ completions (db w')) as Hmark.
  { intros w1 (_ & _ & _ & k' & Hk' & Hm)%complete_ok. rewrite Hkall in Hk'. by injection Hk' as <-. }
  exists j, locked. destruct code.
  - destruct Heff as (Hst & ca & ev & w1 & Hca & Happ & Hcomp).
    destruct (close_effect_on _ _ _ _ _ _ _ _ _ _ j Happ Hrid Hi) as (Hkeep & _ & Hcores & now & s2 & Hs2 & Htx & Happ2);
      [cbn [ticked db]; by rewrite Hdb|done|]. cbn [ticked db tx] in *. rewrite Hdb in *.
    destruct (frame_fields _ _ (complete_frame _ _ _ _ _ Hcomp)) as (Hfr & Hfe & Hfj & _).
    constructor; [..|split; [done|]].
    + exists k. split_and!; [done|done|by apply (Hmark w1)].
    + eauto.
    + by rewrite Hlid.
    + by rewrite Hfj.
    + exists ca. split_and!; [done| | |].
      * rewrite Hca, (en_world _ _ _ _ _ Hen) in Hdue. exact Hdue.
      * unfold cores. rewrite Hfr. rewrite Hlid. exact Hcores.
      * intros Hnone. unfold closing_event. rewrite Hfe. eapply close_event_on; [exact Hen|by rewrite Htx|..|exact Happ2|].
        -- by rewrite Hs2.
        -- by rewrite Hs2.
        -- by rewrite Hsid.
        -- rewrite <- Hnone. apply find_same_events; by rewrite Hdb.
  - destruct Heff as [Hst Hcomp]. pose proof (complete_frame _ _ _ _ _ Hcomp) as Hf. cbn [ticked db] in Hf. rewrite Hdb in Hf.
    destruct (frame_fields _ _ Hf) as (_ & _ & Hfj & _).
    constructor; [..|by split].
    + exists k. split_and!; [done|done|by apply (Hmark (ticked w0))].
    + eauto.
    + by rewrite Hlid.
    + by rewrite Hfj.
Qed.

Lemma ledger_job_ids d : ledger_ok d -> NoDup (map jb_id (jobs d)).
Proof. intros [_ _ _ _ _ _ _ Hids _]. simpl in Hids. by rewrite map_map in Hids. Qed.

Lemma completeBusiness_inv c code : preserves ledger_inv (completeBusiness c code).
Proof.
  intros w r w' Hinv Hc. assert (tx w' = tx w) as Htx.
  { revert w r w' Hinv Hc. assert (forall l, preserves (fun w => tx w = l) (completeBusiness c code)) as Hp; [|intros w r w' _ Hc; by eapply Hp].
    intros l. unfold completeBusiness, requireCurrent, readClaim, uuidParamOpt, uuidParam, bigintParam. preserve; try (by intros ? ? ? ? [= _ <-]).
    intros w r w' Hl. unfold execute_or. by destruct (insertCompletion _ _ _ _ _); intros [= _ <-]. }
  unfold ledger_inv. rewrite Htx. intros Hn. apply Hinv in Hn.
  destruct (frame_fields _ _ (complete_frame _ _ _ _ _ Hc)) as (Hr & He & Hj & Ho). unfold ledger_ok, view in *. by rewrite Hr, He, Hj, Ho.
Qed.
Lemma requireCurrent_inv c : preserves ledger_inv (requireCurrent c).
Proof.
  unfold requireCurrent, readClaim, uuidParamOpt, bigintParam. preserve.
Qed.
Lemma closeClaimed_inv rq snapshot : canonical (room_id snapshot) -> preserves ledger_inv (closeClaimed rq (contextOf payloads snapshot)).
Proof.
  intros Hcan. unfold closeClaimed. preserve;
    first [apply requireCurrent_inv|apply completeBusiness_inv|by apply appendAutomaticClose_inv].
Qed.

Lemma authorized config trust raw value rq w c :
  createServiceAssertionTrust config = Ok trust ->
  authorizeServiceAssertion raw value (Expected AUDIENCE (rq_workerId rq) (rq_claim rq) None) trust (clock_now (ticks w)) = Some c ->
  exists t e key, clock_now (ticks w) = Some t /\ admitted config raw value AUDIENCE 60000 None t e key /\ subject e = rq_workerId rq.
Proof.
  intros Hc Ha. unfold authorizeServiceAssertion in Ha. apply bind_Some in Ha as (s & Hv & _).
  apply (verify_exact config) in Hv as (_ & t & e & key & Ht & _ & Had & Hs & Hw); [|done].
  simpl in Hw. exists t, e, key. split_and!; [done|done|congruence].
Qed.

(** C25. The route answers that a job is completed only if the request has the contract's
    form, the assertion is one that the configured trust admits at the clock's time for this
    very body, with the worker of the claim as its subject, the claim is the current one of a
    running job, and the job, its opening event and the request agree. Then the completion of
    the claim is recorded and the job itself is left as it was; an open or paused room has
    been closed as of the closing time (not of now), no other room touched, with the event of
    the job in the ledger; a closed room and everything else are as before. Any other answer,
    and any error, leaves the database as it was. The ledger stays sound. *)
Theorem auto_close_exact config trust raw value w r w' :
  createServiceAssertionTrust config = Ok trust -> ledger_ok (db w) ->
  handle payloads trust raw value w = (r, w') ->
  ledger_ok (db w')
  /\ match r with
     | Ok (Completed code) => exists rq t e key j locked, parseRequest value = Some rq
         /\ clock_now (ticks w) = Some t /\ admitted config raw value AUDIENCE 60000 None t e key
         /\ subject e = rq_workerId rq /\ completed_for rq (ticked w) w' code j locked
     | _ => db w' = db w
     end.
Proof.
  intros Hc Hok. unfold handle. destruct (parseRequest value) as [rq|] eqn:Hrq; [|by intros [= <- <-]].
  rewrite (bind_run _ _ w (clock_now (ticks w)) (ticked w)) by done.
  destruct (authorizeServiceAssertion _ _ _ _ _) as [c|] eqn:Ha; [|by intros [= <- <-]].
  unfold try_catch. destruct (transact payloads (rq_roomId rq) (closeClaimed rq) (ticked w)) as [[resp|err] w1] eqn:Ht.
  - intros [= <- <-]. split; [eapply transact_inv; [|exact Ht|]; [done|intros snapshot; apply closeClaimed_inv]|].
    destruct resp as [code| |code]; [|apply transact_ok in Ht as (locked & snapshot & w0 & Hen & Hr & _)..].
    + destruct (authorized config trust raw value rq w c Hc Ha) as (t & e & key & Hti & Had & Hs).
      apply transact_completed in Ht as (j & locked & Hcf); [|done|by apply ledger_job_ids]. by exists rq, t, e, key, j, locked.
    + destruct (closeClaimed_cases _ _ _ _ _ Hr) as [[Hd _]|(? & ? & ? & ? & ? & ? & Hno & _)]; [|done]. by rewrite Hd, (en_world _ _ _ _ _ Hen).
    + destruct (closeClaimed_cases _ _ _ _ _ Hr) as [[Hd _]|(? & ? & ? & ? & ? & ? & Hno & _)]; [|done]. by rewrite Hd, (en_world _ _ _ _ _ Hen).
  - apply transact_err in Ht. cbn [ticked db] in Ht. destruct (decide _); intros [= <- <-]; by rewrite Ht.
Qed.
End Effect.

(** ** A concrete run *)

(** A room is opened; an hour later a worker claims what is due and presents the job of the
    room's end. *)
Definition dueWorld : world := later demoOpened.
Definition dueClaims : list ClaimedJob * world :=
  match claim "w-1" (NInt 10) dueWorld with (Ok l, w) => (l, w) | (Err _, w) => ([], w) end.
Definition noClaim : JobClaimIdentity := ClaimIdentity "" "" None None "" "" "" "" "".
Definition closeClaim : JobClaimIdentity :=
  match find (fun c => bool_decide (cj_jobType c = AUTO_CLOSE)) (fst dueClaims) with Some c => claimIdentity c | None => noClaim end.
Definition requestTree (c : JobClaimIdentity) (closesAt : string) : tree :=
  TObj (map (fun f => (text (fst f), TStr (text (snd f))))
    [("jobId", jc_jobId c); ("jobType", jc_jobType c); ("roomId", default "" (jc_roomId c));
     ("sourceEventId", default "" (jc_sourceEventId c)); ("dedupeKey", jc_dedupeKey c); ("correlationId", jc_correlationId c);
     ("claimGeneration", jc_claimGeneration c); ("claimToken", jc_claimToken c); ("workerId", jc_workerId c);
     ("closesAt", closesAt)]%string).
Definition closesAtText : string := match rooms (db demoOpened) with r :: _ => default "" (toISOString <$> rm_closes_at r) | [] => "" end.
Definition closeRequest : tree := requestTree closeClaim closesAtText.
Definition closeAssertion : tree := signedAssertion "2024-01-01T01:00:00Z" "2024-01-01T01:00:50Z" closeRequest.

Lemma dueClaims_ok : ledger_ok (db (snd dueClaims)).
Proof.
  pose proof (later_ok demoOpened demoOpened_ok) as Hok. unfold dueClaims.
  destruct (claim "w-1" (NInt 10) dueWorld) as [[l|e] w] eqn:Hc; simpl; by eapply claim_ledger.
Qed.

Lemma auto_close_exact_witness :
  exists w', handle corePayloadNames demoTrust closeAssertion closeRequest (snd dueClaims) = (Ok (Completed ROOM_CLOSED), w')
    /\ map rm_status (rooms (db w')) = [closed] /\ ledger_ok (db w')
    /\ exists rq j locked, parseRequest closeRequest = Some rq /\ completed_for corePayloadNames rq (ticked (snd dueClaims)) w' ROOM_CLOSED j locked.
Proof.
  assert (exists w', handle corePayloadNames demoTrust closeAssertion closeRequest (snd dueClaims) = (Ok (Completed ROOM_CLOSED), w')
    /\ map rm_status (rooms (db w')) = [closed]) as (w' & Hrun & Hr).
  { eexists. split; [vm_compute; reflexivity|vm_compute; reflexivity]. }
  destruct (auto_close_exact corePayloadNames demoConfig demoTrust closeAssertion closeRequest (snd dueClaims) _ _ demoTrust_ok dueClaims_ok Hrun)
    as (Hl & rq & t & e & key & j & locked & Hp & _ & _ & _ & Hcf).
  exists w'. split_and!; [exact Hrun|exact Hr|exact Hl|]. exists rq, j, locked. split; [exact Hp|exact Hcf].
Defined.
