(* ===== verification/Attachments.v ===== *)
(** * What a message may carry

    [apps/server/src/modules/rooms/attachment-validator.ts] and
    [modules/media/media-attachment-validator.ts]: the interface the messages are written
    against, its empty implementation and the one over the media tables. *)
From S2P Require Import Prelude Text JsDate JsValue Contracts Database Concrete Ledger Authorization.
#[local] Set Warnings "-register-all,-clear-no-such-hyp,-level-tolerance".

(** ** The interface *)

(** [interface AttachmentValidator]; [bind] may be absent. *)
Class AttachmentValidator : Type := {
  assertAttachable : AuthSession -> string -> list string -> IO unit;
  bindAttachments : option (string -> string -> string -> list string -> IO unit);
}.

(** The bindings of [d'] are those of [d] and new ones, of media that had none; the new
    ones are all of one message. *)
Record bound_to (room message event : string) (ids : list string) (d d' : database) : Prop := {
  bt_rows : exists new, media_bindings d' = media_bindings d ++ new
    /\ Forall (fun b => bd_room_id b = room /\ bd_message_id b = message /\ bd_source_event_id b = event
                        /\ bd_media_id b ∉ map bd_media_id (media_bindings d)) new
    /\ NoDup (map bd_media_id new);
  bt_bound : forall id, id ∈ ids -> BindingRow id room message event ∈ media_bindings d';
  bt_frame : d' = set_bindings (media_bindings d') d;
}.

(** What the interface promises: the check only reads, and [bind] writes bindings of the
    message and nothing else. *)
Record AttachmentLaws `{Postgres} `{AttachmentValidator} : Prop := {
  attachable_readonly p r ids : readonly (assertAttachable p r ids);
  bind_frame b : bindAttachments = Some b -> forall r m e ids w x w',
    b r m e ids w = (x, w') -> w' = set_db (set_bindings (media_bindings (db w')) (db w)) w;
  bind_ok_bound b : bindAttachments = Some b -> forall r m e ids w w',
    b r m e ids w = (Ok tt, w') -> ids <> [] ->
    exists us, mapM uuid_in ids = Some us /\ bound_to r m e us (db w) (db w');
}.

(** [noAttachments]. *)
Definition noAttachments : AttachmentValidator := {|
  assertAttachable _ _ ids := throw_if (negb (bool_decide (ids = []))) invalidCommand;
  bindAttachments := Some (fun _ _ _ ids => throw_if (negb (bool_decide (ids = []))) invalidCommand);
|}.

(** ** Over the media tables *)

Definition ATTACHABLE : list MediaAssetState := [as_uploaded; as_processing; as_ready].

(** [mediaIds.length > 4 || mediaIds.some(not a UUID) || duplicates]. *)
Definition badMediaIds (ids : list string) : bool :=
  (4 <? Z.of_nat (length ids)) || existsb (fun i => negb (isUuid i)) ids || negb (bool_decide (NoDup ids)).

(** The trigger of the bindings: the event is of the room and of the message. *)
Definition bindingMatches (room message event : string) (d : database) : bool :=
  match find (fun e => bool_decide (ev_room_id e = room) && bool_decide (ev_event_id e = event)) (events d) with
  | Some e => bool_decide (field "messageId" (ev_payload e) = Some (JStr message))
  | None => false
  end.
(** One row of the [INSERT ... ON CONFLICT (media_id) DO NOTHING]. *)
Definition insertBinding (room message event id : string) (d : database) : option database :=
  _ ← guardO (bindingMatches room message event d);
  if existsb (fun b => bool_decide (bd_media_id b = id)) (media_bindings d) then Some d
  else _ ← guardO (existsb (fun m => bool_decide (md_id m = id)) (media_assets d)
                   && existsb (fun r => bool_decide (rm_id r = room)) (rooms d));
       Some (set_bindings (media_bindings d ++ [BindingRow id room message event]) d).
Fixpoint insertBindings (room message event : string) (ids : list string) (d : database) : option database :=
  match ids with
  | [] => Some d
  | id :: ids => insertBinding room message event id d ≫= insertBindings room message event ids
  end.
Definition BINDING_REFUSED : error := Failure "MEDIA_BINDING_MESSAGE_MISMATCH".

Definition ofMedia (us : list string) (m : media_row) : bool := bool_decide (md_id m ∈ us).
Definition ofBinding (us : list string) (b : binding_row) : bool := bool_decide (bd_media_id b ∈ us).

Section Media.
Context `{Postgres}.

Definition mediaAssertAttachable (principal : AuthSession) (roomId : string) (mediaIds : list string) : IO unit :=
  if bool_decide (mediaIds = []) then mret tt else
  match principal with
  | TeacherSession _ _ => throw invalidCommand
  | StudentSession ownRoom _ actorId _ _ =>
      throw_if (negb (bool_decide (ownRoom = roomId)) || negb (isUuid actorId) || negb (isUuid roomId)) invalidCommand;;
      throw_if (badMediaIds mediaIds) invalidCommand;;
      us ← mapM uuidParam mediaIds;
      rows ← query (fun d => select_where (ofMedia us) (media_assets d));
      throw_if (negb (bool_decide (length rows = length mediaIds))
        || existsb (fun row => negb (bool_decide (md_room_id row = roomId))
                               || negb (bool_decide (md_owner_actor_id row = actorId))
                               || negb (bool_decide (md_state row ∈ ATTACHABLE))) rows) invalidCommand
  end.

Definition mediaBind (roomId messageId sourceEventId : string) (mediaIds : list string) : IO unit :=
  if bool_decide (mediaIds = []) then mret tt else
  throw_if (negb (forallb isUuid [roomId; messageId; sourceEventId])) invalidCommand;;
  throw_if (badMediaIds mediaIds) invalidCommand;;
  room ← uuidParam roomId;
  message ← uuidParam messageId;
  event ← uuidParam sourceEventId;
  us ← mapM uuidParam mediaIds;
  execute_or BINDING_REFUSED (insertBindings room message event us);;
  rows ← query (fun d => select_where (ofBinding us) (media_bindings d));
  throw_if (negb (bool_decide (length rows = length mediaIds))
    || existsb (fun row => negb (bool_decide (bd_room_id row = roomId))
                           || negb (bool_decide (bd_message_id row = messageId))
                           || negb (bool_decide (bd_source_event_id row = sourceEventId))) rows) invalidCommand.

Definition MediaAttachmentValidator : AttachmentValidator := {|
  assertAttachable := mediaAssertAttachable;
  bindAttachments := Some mediaBind;
|}.

(** ** The laws *)

Lemma noAttachments_laws : @AttachmentLaws _ noAttachments.
Proof.
  constructor; simpl.
  - intros. apply readonly_throw_if.
  - intros b [= <-] r m e ids w x w' Hr. apply readonly_throw_if in Hr as ->. by destruct w as [[] ? ? ? ?].
  - intros b [= <-] r m e ids w w' [Hr _]%throw_if_ok Hne. by apply negb_false_iff, bool_decide_eq_true in Hr.
Qed.

Lemma insertBindings_bound room message event ids d d' :
  insertBindings room message event ids d = Some d' ->
  exists new, d' = set_bindings (media_bindings d ++ new) d
    /\ Forall (fun b => bd_room_id b = room /\ bd_message_id b = message /\ bd_source_event_id b = event
                        /\ bd_media_id b ∉ map bd_media_id (media_bindings d)) new
    /\ NoDup (map bd_media_id new) /\ Forall (fun b => bd_media_id b ∈ ids) new
    /\ Forall (fun id => id ∈ map bd_media_id (media_bindings d ++ new)) ids.
Proof.
  revert d. induction ids as [|id ids IH]; intros d Hi; simpl in Hi.
  { injection Hi as <-. exists []. rewrite app_nil_r. split_and!; [by destruct d|done|constructor|done|done]. }
  apply bind_Some in Hi as (d1 & H1 & Hi). unfold insertBinding in H1.
  apply bind_Some in H1 as ([] & _ & H1). destruct (existsb _ (media_bindings d)) eqn:Hb.
  - injection H1 as <-. destruct (IH _ Hi) as (new & -> & Hn & Hnd & Hin' & Hids). exists new.
    split_and!; [done|done|done|eapply Forall_impl; [exact Hin'|]; set_solver|]. constructor; [|done].
    apply existsb_exists in Hb as (b & Hin%list_elem_of_In & Hid%bool_decide_eq_true).
    rewrite map_app. apply elem_of_app. left. subst. by apply list_elem_of_fmap_2.
  - apply bind_Some in H1 as ([] & _ & H1). injection H1 as <-.
    destruct (IH _ Hi) as (new & -> & Hn & Hnd & Hin' & Hids). simpl in *.
    assert (id ∉ map bd_media_id (media_bindings d)) as Hid.
    { intros (b & -> & Hin)%list_elem_of_fmap_1. apply not_true_iff_false in Hb. apply Hb, existsb_exists.
      exists b. rewrite <- list_elem_of_In. split; [done|]. by apply bool_decide_eq_true. }
    exists (BindingRow id room message event :: new). rewrite <- app_assoc in *. split_and!.
    + done.
    + constructor; [done|]. eapply Forall_impl; [exact Hn|]. intros b (? & ? & ? & Hnot). split_and!; [done..|].
      intros Hin. apply Hnot. rewrite map_app. set_solver.
    + simpl. constructor; [|done]. intros (b & Hbid & Hin)%list_elem_of_fmap_1. rewrite Forall_forall in Hn.
      destruct (Hn b Hin) as (_ & _ & _ & Hnot). apply Hnot. rewrite map_app, <- Hbid. set_solver.
    + constructor; [simpl; set_solver|]. eapply Forall_impl; [exact Hin'|]. set_solver.
    + constructor; [|done]. rewrite map_app. set_solver.
Qed.

Lemma mediaBind_bound r m e ids w w' : mediaBind r m e ids w = (Ok tt, w') -> ids <> [] ->
  exists us, mapM uuid_in ids = Some us /\ bound_to r m e us (db w) (db w').
Proof.
  intros Hr Hne. unfold mediaBind in Hr. rewrite bool_decide_false in Hr by done.
  apply bind_ok in Hr as (? & ? & [Hu ->]%throw_if_ok & Hr). apply bind_ok in Hr as (? & ? & [Hb ->]%throw_if_ok & Hr).
  apply bind_ok in Hr as (room & ? & [_ ->]%uuidParam_ok & Hr). apply bind_ok in Hr as (message & ? & [_ ->]%uuidParam_ok & Hr).
  apply bind_ok in Hr as (event & ? & [_ ->]%uuidParam_ok & Hr). apply bind_ok in Hr as (us & ? & [Hus ->]%mapM_uuidParam & Hr).
  apply bind_ok in Hr as (? & ? & (d1 & Hi & ->)%execute_or_ok & Hr). apply bind_ok in Hr as (rows & ? & Hq & Hr).
  unfold query, gets in Hq. injection Hq as <- <-. apply throw_if_ok in Hr as [Hck ->].
  apply orb_false_iff in Hck as [_ Hck]. apply insertBindings_bound in Hi as (new & -> & Hn & Hnd & Hnew & Hids). simpl in *.
  assert (forall b, b ∈ media_bindings (db w) ++ new -> bd_media_id b ∈ us ->
    bd_room_id b = r /\ bd_message_id b = m /\ bd_source_event_id b = e) as Hall.
  { intros b Hin Hbu. apply not_true_iff_false in Hck.
    destruct (decide (bd_room_id b = r /\ bd_message_id b = m /\ bd_source_event_id b = e)) as [|Hno]; [done|].
    destruct Hck. apply existsb_exists. exists b. split.
    - apply list_elem_of_In, select_where_elem. split; [done|]. by apply bool_decide_eq_true.
    - rewrite !orb_true_iff, !negb_true_iff, !bool_decide_eq_false. destruct (decide (bd_room_id b = r)); [|tauto].
      destruct (decide (bd_message_id b = m)); tauto. }
  exists us. split; [done|]. constructor.
  - exists new. split_and!; [done| |done]. rewrite !Forall_forall in *. intros b Hin.
    destruct (Hall b) as (-> & -> & ->); [set_solver|by apply Hnew|]. split_and!; try done. by apply Hn.
  - intros id Hid. rewrite Forall_forall in Hids.
    destruct (list_elem_of_fmap_1 _ _ _ (Hids id Hid)) as ([i r0 m0 e0] & Hbid & Hin). simpl in Hbid. subst.
    destruct (Hall _ Hin) as (Hr & Hm & He); [done|]. simpl in *. by subst.
  - done.
Qed.

Lemma media_laws : @AttachmentLaws _ MediaAttachmentValidator.
Proof.
  constructor; simpl.
  - intros p r ids. unfold mediaAssertAttachable. destruct (bool_decide _); [apply readonly_ret|].
    destruct p; [apply readonly_throw|]. repeat (apply readonly_bind; intros); try apply readonly_throw_if;
      [apply readonly_mapM; apply uuidParam_readonly|apply query_readonly].
  - intros b [= <-] r m e ids. unfold mediaBind.
    assert (forall w : world, w = set_db (set_bindings (media_bindings (db w)) (db w)) w) as Hrefl
      by (by intros [[] ? ? ? ?]).
    destruct (bool_decide _); [intros w x w' [= <- <-]; apply Hrefl|].
    assert (forall {A B} (m1 : IO A) (f : A -> IO B), readonly m1 ->
      (forall a w x w', f a w = (x, w') -> w' = set_db (set_bindings (media_bindings (db w')) (db w)) w) ->
      forall w x w', (m1 ≫= f) w = (x, w') -> w' = set_db (set_bindings (media_bindings (db w')) (db w)) w) as Hstep.
    { intros A B m1 f Hm Hf w x w'. unfold mbind, M_bind. destruct (m1 w) as [[a|er] w1] eqn:E1;
        apply Hm in E1 as ->; [apply Hf|intros [= <- <-]; apply Hrefl]. }
    do 2 (apply Hstep; [apply readonly_throw_if|intros []]).
    do 3 (apply Hstep; [apply uuidParam_readonly|intros ?]).
    apply Hstep; [apply readonly_mapM; apply uuidParam_readonly|]. intros us w x w'.
    unfold mbind at 1, M_bind at 1, execute_or. destruct (insertBindings _ _ _ _ _) as [d1|] eqn:Hi.
    + intros Hr. assert (w' = set_db d1 w) as ->.
      { revert Hr. unfold query, gets, mbind, M_bind, throw_if. by case_match; intros [= <- <-]. }
      apply insertBindings_bound in Hi as (new & -> & _). done.
    + intros [= <- <-]. apply Hrefl.
  - intros b [= <-]. exact mediaBind_bound.
Qed.
End Media.
