(* ===== verification/Messages.v ===== *)
(** * Commands: [apps/server/src/modules/rooms/command-service.ts] and [message-service.ts]

    A frame's command is read, routed and run: messages are added, revised and withdrawn
    as events of the room's ledger, the room's life goes to [Lifecycle]. *)
From S2P Require Import Prelude Text JsDate JsValue Contracts Database Concrete Ledger Frames Authorization Lifecycle Attachments.
#[local] Set Warnings "-register-all,-clear-no-such-hyp,-level-tolerance".

(** ** Reading commands *)

Definition arrayOfStrings (v : json) : option (list string) :=
  match v with JArr l => mapM (asText isUuid) l | _ => None end.
Definition readUuidArray (payload : list (string * json)) (key : string) (max : Z) : result error (list string) :=
  match assoc key payload with
  | None => Ok []
  | Some v =>
      match arrayOfStrings v with
      | None => Err invalidCommand
      | Some l => if max <? Z.of_nat (length l) then Err invalidCommand else Ok l
      end
  end.
Definition commandType (c : RoomCommand) (expected : CommandType) : result error unit :=
  if negb (bool_decide (cm_type c = expected)) || negb (isUuid (cm_commandId c)) || negb (isUuid (cm_roomId c))
  then Err invalidCommand else Ok tt.

(** [typeof payload.text === "string" ? payload.text.trim() : ""], and the same of the
    identifier of the message. *)
Definition textOf (payload : list (string * json)) : string :=
  match assoc "text" payload with Some (JStr s) => js_trim s | _ => ""%string end.
Definition messageIdOf (payload : list (string * json)) : string :=
  match assoc "messageId" payload with Some (JStr s) => s | _ => ""%string end.
(** [payload.replyTo === undefined ? null : payload.replyTo]. *)
Definition replyToOf (payload : list (string * json)) : json := default JNull (assoc "replyTo" payload).
(** The attachments of a message, as its last event has them. *)
Definition mediaIdsOf (payload : json) : list string := default [] (field "mediaIds" payload ≫= arrayOfStrings).

(** ** Statements *)

Definition messageOf (rid messageId : string) (e : event_row) : bool :=
  bool_decide (ev_room_id e = rid) && bool_decide (strField "messageId" (ev_payload e) = Some messageId).
(** [ORDER BY revision DESC, room_seq DESC]. *)
Definition byRevision (a b : event_row) : bool :=
  (ev_revision b <? ev_revision a)
  || ((ev_revision a =? ev_revision b) && (ev_room_seq b <=? ev_room_seq a)).
Definition latestOf (rid messageId : string) (d : database) : option event_row :=
  head (sort_by byRevision (select_where (messageOf rid messageId) (events d))).
(** The members of a room and its agent. *)
Definition actorsOf (rid : string) (d : database) : list string :=
  map mb_actor_id (select_where (fun m => bool_decide (mb_room_id m = rid)) (members d))
  ++ map rm_nova_actor_id (select_where (isRoom rid) (rooms d)).
(** [auth_session s JOIN room_member m]: the members of the live session. *)
Definition memberSessions (sid rid mid aid : string) (now : Z) (d : database) : list member_row :=
  concat (map (fun s => select_where (fun m => bool_decide (ss_room_member_id s = Some (mb_id m)) && isMember rid mid aid m)
                          (members d))
    (select_where (fun s => bool_decide (ss_id s = sid) && bool_decide (ss_kind s = student_principal) && liveSession now s)
       (sessions d))).

(** A draft whose time is [new Date(text)]: an invalid date makes an object that holds
    no date. *)
Definition withoutTime (o : object) : object :=
  match cls o with CDate _ => Object (CDate None) (obj_proto o) (own o) | _ => o end.
Definition appendDated (context : RoomEventTransactionContext) (time : option Z) (draft : Z -> RoomEventDraft)
    : IO RoomEventEnvelope :=
  match time with
  | Some t => append context (draft t)
  | None => let '(h, v) := draftObject (draft 0) in appendObject context (withoutTime <$> h) v
  end.

Section Messages.
Context `{Schemas} `{Postgres} `{Environment} `{AttachmentValidator}.
Variable payloads : EventPayloadRegistry.

(** ** [MessageService] *)

Definition authorizeStudent (context : RoomEventTransactionContext) (principal : AuthSession)
    (sessionId : option string) : IO unit :=
  match principal with
  | TeacherSession _ _ => throw (roomError FORBIDDEN)
  | StudentSession ownRoom memberId actorId _ _ =>
      throw_if (negb (bool_decide (ownRoom = room_id (room context)))) (roomError FORBIDDEN);;
      mid ← uuidParam memberId;
      aid ← uuidParam actorId;
      rows ← match sessionId with
             | None | Some EmptyString =>
                 query (fun d => select_where (isMember (room_id (room context)) mid aid) (members d))
             | Some s =>
                 sid ← uuidParam s;
                 now ← gets (fun w => tx_now (tx w));
                 query (memberSessions sid (room_id (room context)) mid aid now)
             end;
      throw_if (negb (rowCount rows =? 1)) (roomError FORBIDDEN)
  end.

Definition authorizeTeacher (context : RoomEventTransactionContext) (principal : AuthSession) : IO unit :=
  match principal with
  | TeacherSession teacherId actorId =>
      throw_if (negb (bool_decide (teacherId = teacher_id (room context)))
                || negb (bool_decide (actorId = teacher_id (room context)))) (roomError FORBIDDEN)
  | StudentSession _ _ _ _ _ => throw (roomError FORBIDDEN)
  end.
(** The statement is the one of the room's life. *)
Definition assertTeacherPrincipal (context : RoomEventTransactionContext) (principal : AuthSession)
    (sessionId : option string) : IO unit :=
  authorizeTeacher context principal;;
  match principal with
  | TeacherSession teacherId _ => assertTeacherSession teacherId sessionId
  | StudentSession _ _ _ _ _ => throw (roomError FORBIDDEN)
  end.

Definition latestMessage (context : RoomEventTransactionContext) (messageId : string) : IO (option event_row) :=
  throw_if (negb (isUuid messageId)) (roomError MESSAGE_NOT_FOUND);;
  query (latestOf (room_id (room context)) messageId).

(** [#retry]: the event of an earlier run of the command must be its event. *)
Definition retryOf (existing : option RoomEventEnvelope) (expectedType actorId' : string)
    : result error (option RoomEventEnvelope) :=
  match existing with
  | None => Ok None
  | Some e =>
      if negb (bool_decide (type e = expectedType)) || negb (bool_decide (actorId e = actorId'))
         || negb (bool_decide (actorKind e = human)) || negb (bool_decide (actorRole e ∈ [student; teacher]))
      then Err invalidCommand else Ok (Some e)
  end.

(** [closes_at && new Date(closes_at).getTime() <= now]. *)
Definition closedBy (now : Z) (closesAt : option string) : bool :=
  match closesAt ≫= dateParse with Some t => t <=? now | None => false end.
Definition assertWritable (context : RoomEventTransactionContext) : IO Z :=
  now ← validNow;
  throw_if (negb (bool_decide (status (room context) = open)) || closedBy now (closes_at (room context)))
    (roomError ROOM_NOT_OPEN);;
  mret now.

Definition assertMentionsAndReply (context : RoomEventTransactionContext) (mentions : list string) (replyTo : json)
    : IO unit :=
  throw_if (existsb (fun m => negb (isUuid m)) mentions || (5 <? Z.of_nat (length mentions))) invalidCommand;;
  allowed ← query (actorsOf (room_id (room context)));
  throw_if (existsb (fun m => negb (bool_decide (m ∈ allowed))) mentions) invalidCommand;;
  match replyTo with
  | JNull => mret tt
  | JStr target =>
      throw_if (negb (isUuid target)) invalidCommand;;
      latest ← latestMessage context target;
      match latest with
      | Some e => throw_if (bool_decide (ev_operation e = retract)) invalidCommand
      | None => throw invalidCommand
      end
  | _ => throw invalidCommand
  end.

Definition messagePayload (messageId text : string) (replyTo : json) (mentions mediaIds : list string)
    : list (string * json) :=
  [("messageId", JStr messageId); ("text", JStr text); ("replyTo", replyTo);
   ("mentions", JArr (map JStr mentions)); ("mediaIds", JArr (map JStr mediaIds))]%string.

(** [existing ?? act], after the retry test. *)
Definition unlessRetried (context : RoomEventTransactionContext) (c : RoomCommand) (expectedType actorId' : string)
    (act : IO RoomEventEnvelope) : IO RoomEventEnvelope :=
  existing ← findByCausation context (cm_commandId c);
  retry ← lift_result (retryOf existing expectedType actorId');
  match retry with Some e => mret e | None => act end.

(** [add], in the transaction and past the retry test. *)
Definition addInContext (context : RoomEventTransactionContext) (principal : AuthSession) (c : RoomCommand)
    : IO RoomEventEnvelope :=
  assertWritable context;;
  let p := cm_payload c in
  let text := textOf p in
  mediaIds ← lift_result (readUuidArray p "mediaIds" 4);
  mentions ← lift_result (readUuidArray p "mentions" 5);
  throw_if (bool_decide (text = ""%string) && bool_decide (mediaIds = [])) invalidCommand;;
  throw_if (4 <? Z.of_nat (length mediaIds)) invalidCommand;;
  let replyTo := replyToOf p in
  assertMentionsAndReply context mentions replyTo;;
  assertAttachable principal (cm_roomId c) mediaIds;;
  messageId ← randomUUID;
  correlation ← randomUUID;
  event ← appendDated context (dateParse (cm_clientTime c)) (fun t =>
    Draft "message.added" (sessionActor principal) human student 1 add t (cm_commandId c) correlation
      (messagePayload messageId text replyTo mentions mediaIds));
  match bindAttachments with
  | Some b => b (cm_roomId c) messageId (eventId event) mediaIds
  | None => mret tt
  end;;
  mret event.
Definition addMessage (principal : AuthSession) (c : RoomCommand) (sessionId : option string) : IO RoomEventEnvelope :=
  lift_result (commandType c message_add);;
  match principal with
  | StudentSession ownRoom _ actorId _ _ =>
      throw_if (negb (bool_decide (ownRoom = cm_roomId c))) (roomError FORBIDDEN);;
      transact payloads (cm_roomId c) (fun context =>
        authorizeStudent context principal sessionId;;
        unlessRetried context c "message.added" actorId (addInContext context principal c))
  | TeacherSession _ _ => throw (roomError FORBIDDEN)
  end.

(** The beginning of [revise] and [retract]: who asks, and what is changed. *)
Definition authorizeEdit (context : RoomEventTransactionContext) (principal : AuthSession)
    (sessionId : option string) : IO unit :=
  match principal with
  | StudentSession _ _ _ _ _ => authorizeStudent context principal sessionId
  | TeacherSession _ _ => assertTeacherPrincipal context principal sessionId
  end.
Definition baseRevisionBad (c : RoomCommand) : bool :=
  match cm_baseRevision c with Some b => (MAX_SAFE_INTEGER <? b) || (b <? 1) | None => true end.
Definition priorMessage (context : RoomEventTransactionContext) (c : RoomCommand) : IO event_row :=
  assertWritable context;;
  throw_if (baseRevisionBad c) invalidCommand;;
  prior ← latestMessage context (messageIdOf (cm_payload c));
  match prior with
  | Some e => throw_if (bool_decide (ev_operation e = retract)) (roomError MESSAGE_NOT_FOUND);; mret e
  | None => throw (roomError MESSAGE_NOT_FOUND)
  end.
(** [prior.revision !== command.baseRevision]. *)
Definition assertRevision (c : RoomCommand) (prior : event_row) : IO unit :=
  throw_if (negb (bool_decide (cm_baseRevision c = Some (ev_revision prior))))
    (RoomError REVISION_CONFLICT (Some (ev_revision prior))).

Definition reviseInContext (context : RoomEventTransactionContext) (principal : AuthSession) (c : RoomCommand)
    : IO RoomEventEnvelope :=
  prior ← priorMessage context c;
  let p := cm_payload c in
  throw_if (match principal with
            | StudentSession _ _ actorId _ _ => negb (bool_decide (ev_actor_id prior = actorId))
            | TeacherSession _ _ => true
            end) (roomError FORBIDDEN);;
  assertRevision c prior;;
  let text := textOf p in
  let replyTo := replyToOf p in
  mentions ← lift_result (readUuidArray p "mentions" 5);
  throw_if (bool_decide (text = ""%string) || (5 <? Z.of_nat (length mentions))) invalidCommand;;
  assertMentionsAndReply context mentions replyTo;;
  correlation ← randomUUID;
  appendDated context (dateParse (cm_clientTime c)) (fun t =>
    Draft "message.revised" (sessionActor principal) human student (ev_revision prior + 1) revise t (cm_commandId c)
      correlation (messagePayload (messageIdOf p) text replyTo mentions (mediaIdsOf (ev_payload prior)))).
Definition reviseMessage (principal : AuthSession) (c : RoomCommand) (sessionId : option string)
    : IO RoomEventEnvelope :=
  lift_result (commandType c message_revise);;
  transact payloads (cm_roomId c) (fun context =>
    authorizeEdit context principal sessionId;;
    unlessRetried context c "message.revised" (sessionActor principal) (reviseInContext context principal c)).

Definition retractInContext (context : RoomEventTransactionContext) (principal : AuthSession) (c : RoomCommand)
    : IO RoomEventEnvelope :=
  prior ← priorMessage context c;
  throw_if (match principal with
            | StudentSession _ _ actorId _ _ => negb (bool_decide (ev_actor_id prior = actorId))
            | TeacherSession _ _ => false
            end) (roomError FORBIDDEN);;
  assertRevision c prior;;
  correlation ← randomUUID;
  appendDated context (dateParse (cm_clientTime c)) (fun t =>
    Draft "message.retracted" (sessionActor principal) human
      (match principal with TeacherSession _ _ => teacher | StudentSession _ _ _ _ _ => student end)
      (ev_revision prior + 1) retract t (cm_commandId c) correlation
      [("messageId"%string, JStr (messageIdOf (cm_payload c)))]).
Definition retractMessage (principal : AuthSession) (c : RoomCommand) (sessionId : option string)
    : IO RoomEventEnvelope :=
  lift_result (commandType c message_retract);;
  transact payloads (cm_roomId c) (fun context =>
    authorizeEdit context principal sessionId;;
    unlessRetried context c "message.retracted" (sessionActor principal) (retractInContext context principal c)).

(** ** [CommandService] *)

Definition route (principal : AuthSession) (c : RoomCommand) (sessionId : option string) : IO RoomEventEnvelope :=
  match cm_type c, principal with
  | message_add, _ => addMessage principal c sessionId
  | message_revise, _ => reviseMessage principal c sessionId
  | message_retract, _ => retractMessage principal c sessionId
  | _, StudentSession _ _ _ _ _ => throw (roomError FORBIDDEN)
  | room_open, TeacherSession t _ => openRoomCommand payloads (cm_roomId c) t (cm_commandId c) sessionId
  | room_pause, TeacherSession t _ => pause payloads (cm_roomId c) t (cm_commandId c) sessionId
  | room_resume, TeacherSession t _ => resume payloads (cm_roomId c) t (cm_commandId c) sessionId
  | room_close, TeacherSession t _ => close payloads (cm_roomId c) t (cm_commandId c) sessionId
  end.

(** The spans and the record of the telemetry are left out. *)
Definition dispatch (principal : AuthSession) (value : json) (sessionId : option string) : IO RoomEventEnvelope :=
  match parseClientFrame (JObj [("type"%string, JStr "command"); ("command"%string, value)]) with
  | Some (CCommand c) =>
      throw_if (negb (bool_decide (strField "roomId" value = Some (cm_roomId c)))) invalidCommand;;
      route principal c sessionId
  | _ => throw invalidCommand
  end.
End Messages.

(** ** Rows and what they were written from *)

Section Rows.
Context `{Schemas} `{Postgres} `{Environment} (PL : PostgresLaws).

Lemma field_stringified k j : field k (stringified j) = stringified <$> field k j.
Proof.
  destruct j as [| |[]| | |fs]; try done. simpl. induction fs as [|[k' v] fs IH]; [done|]. simpl. by case_decide.
Qed.
Lemma asStr_stringified j : asStr (stringified j) = asStr j.
Proof. by destruct j as [| |[]| | |]. Qed.
Lemma asText_stringified ok j : asText ok (stringified j) = asText ok j.
Proof. unfold asText. by rewrite asStr_stringified. Qed.
Lemma asStr_deepEqual a b : deepEqual a b = true -> asStr a = asStr b.
Proof. destruct a, b; try done. simpl. rewrite bool_decide_eq_true. by intros ->. Qed.
Lemma asText_deepEqual ok a b : deepEqual a b = true -> asText ok a = asText ok b.
Proof. intros Hab. unfold asText. by rewrite (asStr_deepEqual a b Hab). Qed.

Lemma arrayOfStrings_deepEqual a b : deepEqual a b = true -> arrayOfStrings a = arrayOfStrings b.
Proof.
  destruct a as [| | | |l|], b as [| | | |m|]; try done. intros Hlm%deepEqual_JArr. simpl.
  induction Hlm as [|x y l m Hxy _ IH]; [done|]. simpl. by rewrite (asText_deepEqual _ _ _ Hxy), IH.
Qed.
Lemma arrayOfStrings_stringified j : arrayOfStrings (stringified j) = arrayOfStrings j.
Proof.
  destruct j as [| |[]| |l|]; try done. simpl. induction l as [|x l IH]; [done|]. simpl.
  by rewrite asText_stringified, IH.
Qed.

(** What is read of a stored payload is what was written. *)
Lemma stored_read {A} (read : json -> option A) k j j' :
  (forall a b, deepEqual a b = true -> read a = read b) -> (forall a, read (stringified a) = read a) ->
  json_wf j -> jsonb_in j = Some j' -> field k j' ≫= read = field k j ≫= read.
Proof.
  intros Heq Hst Hwf Hj. destruct (jsonb_in_equal PL _ _ Hwf Hj) as [Hwf' Hd].
  pose proof (field_deepEqual_cases k _ _ (stringified_wf _ Hwf) Hwf' Hd) as Hcases. rewrite field_stringified in Hcases.
  destruct (field k j) as [v|], Hcases as [[Hn Hn']|(x & y & Hx & Hy & _ & _ & Hxy)]; simpl in *; simplify_eq.
  - rewrite Hy. simpl. by rewrite <- (Heq _ _ Hxy), Hst.
  - by rewrite Hn'.
Qed.
Lemma stored_strField k j j' : json_wf j -> jsonb_in j = Some j' -> strField k j' = strField k j.
Proof. apply stored_read; [apply asStr_deepEqual|apply asStr_stringified]. Qed.
Lemma stored_mediaIds j j' : json_wf j -> jsonb_in j = Some j' -> mediaIdsOf j' = mediaIdsOf j.
Proof.
  intros Hwf Hj. unfold mediaIdsOf. f_equal. revert Hwf Hj. apply stored_read; [apply arrayOfStrings_deepEqual|].
  apply arrayOfStrings_stringified.
Qed.

(** The row of an event made from a draft. *)
Record drafted (rid : string) (d : RoomEventDraft) (e : event_row) : Prop := {
  df_room : uuid_in rid = Some (ev_room_id e);
  df_type : ev_type e = d_type d;
  df_actor : uuid_in (d_actorId d) = Some (ev_actor_id e);
  df_role : ev_actor_role e = d_actorRole d;
  df_revision : ev_revision e = d_revision d;
  df_operation : ev_operation e = d_operation d;
  df_payload : jsonb_in (JObj (d_payload d)) = Some (ev_payload e);
}.

Lemma completed_drafted payloads rid seq d w c e :
  completed payloads rid seq (readOf d) w c -> eventRow c = Some e -> drafted rid d e.
Proof.
  intros Hcd He. destruct (completed_draft _ _ _ _ _ _ Hcd) as (Ht & Ha & _ & Hr & Hrev & Hop & _ & _ & _ & Hp).
  pose proof (cd_roomId _ _ _ _ _ _ Hcd) as Hrid. unfold eventRow in He.
  repeat (apply bind_Some in He; destruct He as (? & ? & He)). injection He as <-. constructor; simpl; congruence.
Qed.
End Rows.

(** ** Threads: the events of one message *)

Definition thread (rid messageId : string) (es : list event_row) : list event_row :=
  select_where (messageOf rid messageId) es.

Section Threads.
Context `{Postgres}.

(** Revisions count from 1 without gaps, the first event adds the message and no other
    does, nothing follows a withdrawal, all that is written is written by one actor. *)
Record thread_ok (h : list event_row) : Prop := {
  th_revisions : map ev_revision h = seqFrom 1 (length h);
  th_added : forall e, e ∈ h -> (ev_operation e = add <-> ev_revision e = 1);
  th_retracted : forall e, e ∈ h -> ev_operation e = retract -> ev_revision e = Z.of_nat (length h);
  th_author : forall e e', e ∈ h -> e' ∈ h -> ev_operation e <> retract -> ev_operation e' <> retract ->
    ev_actor_id e = ev_actor_id e';
  th_canonical : forall e, e ∈ h -> Ledger.canonical (ev_actor_id e);
  th_media : forall e, e ∈ h -> (length (mediaIdsOf (ev_payload e)) <= 4)%nat;
}.
Definition threads_ok (es : list event_row) : Prop := forall rid messageId, thread_ok (thread rid messageId es).

Lemma thread_ok_nil : thread_ok [].
Proof. constructor; simpl; [done|..]; intros; by destruct (not_elem_of_nil e). Qed.

Lemma thread_snoc rid mid es e :
  thread rid mid (es ++ [e]) = thread rid mid es ++ (if messageOf rid mid e then [e] else []).
Proof. unfold thread. rewrite select_where_app. simpl. by destruct (messageOf rid mid e). Qed.

Lemma thread_last h x : thread_ok (h ++ [x]) ->
  ev_revision x = Z.of_nat (length (h ++ [x])) /\ Forall (fun y => ev_revision y < ev_revision x) h.
Proof.
  intros [Hrev _ _ _ _ _]. rewrite map_app, length_app, Nat.add_comm in Hrev. simpl in Hrev.
  change (1 :: seqFrom (1 + 1) (length h)) with (seqFrom 1 (S (length h))) in Hrev.
  rewrite seqFrom_snoc in Hrev. apply app_inj_tail in Hrev as [Hh Hx]. rewrite length_app. simpl.
  split; [lia|]. apply Forall_forall. intros y Hy. apply (list_elem_of_fmap_2 ev_revision) in Hy.
  change (ev_revision <$> h) with (map ev_revision h) in Hy. rewrite Hh, seqFrom_elem in Hy. lia.
Qed.

Lemma thread_latest h : thread_ok h -> head (sort_by byRevision h) = last h.
Proof.
  destruct h as [|x h _] using rev_ind; [done|]. intros Hok. rewrite last_snoc. apply sort_by_head.
  destruct (thread_last _ _ Hok) as [_ Hlt]. eapply Forall_impl; [exact Hlt|]. intros y Hy. unfold byRevision.
  simpl in *. apply orb_false_iff. split; [apply Z.ltb_ge; lia|]. apply andb_false_iff. left. apply Z.eqb_neq. lia.
Qed.

Lemma thread_begins e : ev_revision e = 1 -> ev_operation e = add -> Ledger.canonical (ev_actor_id e) ->
  (length (mediaIdsOf (ev_payload e)) <= 4)%nat -> thread_ok [e].
Proof.
  intros Hr Hop Hc Hm. constructor; simpl; [by rewrite Hr| | | | |].
  - intros x ->%list_elem_of_singleton. by rewrite Hop.
  - by intros x ->%list_elem_of_singleton.
  - by intros x y ->%list_elem_of_singleton ->%list_elem_of_singleton.
  - by intros x ->%list_elem_of_singleton.
  - by intros x ->%list_elem_of_singleton.
Qed.

Lemma thread_grows h p e :
  thread_ok (h ++ [p]) -> ev_operation p <> retract -> ev_revision e = ev_revision p + 1 -> ev_operation e <> add ->
  (ev_operation e <> retract -> ev_actor_id e = ev_actor_id p) -> Ledger.canonical (ev_actor_id e) ->
  (length (mediaIdsOf (ev_payload e)) <= 4)%nat -> thread_ok ((h ++ [p]) ++ [e]).
Proof.
  intros Hok Hp Hr Hop Ha Hc Hm. destruct (thread_last _ _ Hok) as [Hlen Hlt]. rewrite Forall_forall in Hlt.
  destruct Hok as [Hrev Hadd Hret Haut Hcan Hmed]. pose proof (length_app (h ++ [p]) [e]) as Hl. simpl in Hl.
  assert (forall x, x ∈ (h ++ [p]) ++ [e] -> x = e \/ x ∈ h ++ [p]) as Hcase by set_solver.
  assert (p ∈ h ++ [p]) as Hpin by set_solver. constructor.
  - rewrite map_app, Hrev, Hl, Nat.add_comm. change (1 + length (h ++ [p]))%nat with (S (length (h ++ [p]))).
    rewrite seqFrom_snoc. simpl. do 2 f_equal. lia.
  - intros x [->|Hx]%Hcase; [|by apply Hadd]. split; [done|]. rewrite length_app in Hlen. simpl in Hlen. lia.
  - intros x [->|Hx]%Hcase Hxr; [lia|]. pose proof (Hret x Hx Hxr) as Hxl.
    apply elem_of_app in Hx as [Hx|Hx%list_elem_of_singleton]; [|congruence]. specialize (Hlt x Hx). simpl in Hlt. lia.
  - intros x y [->|Hx]%Hcase [->|Hy]%Hcase Hxr Hyr; [done|..].
    + rewrite (Ha Hxr). by apply Haut.
    + rewrite (Ha Hyr). by apply Haut.
    + by apply Haut.
  - intros x [->|Hx]%Hcase; [done|]. by apply Hcan.
  - intros x [->|Hx]%Hcase; [done|]. by apply Hmed.
Qed.

(** An event of no message leaves the threads alone. *)
Lemma threads_other es e : threads_ok es -> strField "messageId" (ev_payload e) = None -> threads_ok (es ++ [e]).
Proof.
  intros Hok He rid mid. rewrite thread_snoc. unfold messageOf. rewrite He.
  rewrite (bool_decide_false (None = Some mid)) by done. rewrite andb_false_r, app_nil_r. apply Hok.
Qed.

(** An event of one message changes its thread alone. *)
Lemma threads_one es e mid : threads_ok es -> strField "messageId" (ev_payload e) = Some mid ->
  thread_ok (thread (ev_room_id e) mid es ++ [e]) -> threads_ok (es ++ [e]).
Proof.
  intros Hok He Hone rid mid'. rewrite thread_snoc. unfold messageOf. rewrite He.
  destruct (decide (ev_room_id e = rid /\ mid = mid')) as [[<- <-]|Hno].
  - by rewrite !bool_decide_true.
  - destruct (bool_decide (ev_room_id e = rid) && bool_decide (Some mid = Some mid')) eqn:E.
    + split_bools. simplify_eq. tauto.
    + rewrite app_nil_r. apply Hok.
Qed.
End Threads.

(** ** What the operations do when they end normally *)

Section Runs.
Context `{Schemas} `{Postgres} `{Environment} `{AttachmentValidator} (PL : PostgresLaws) (AL : AttachmentLaws).
Variable payloads : EventPayloadRegistry.

Lemma validDate_withoutTime h v : validDate (withoutTime <$> h) v = None.
Proof.
  destruct v as [| | | | | |l]; try done. unfold validDate. rewrite lookup_fmap. destruct (h !! l) as [o|]; [|done].
  simpl. unfold withoutTime. destruct (cls o) eqn:Ho; simpl; by rewrite ?Ho.
Qed.
Lemma readDraft_withoutTime h v rd : readDraft (withoutTime <$> h) v <> Ok rd.
Proof.
  unfold readDraft. repeat case_match; try done.
  match goal with E : validDate _ _ = Some _ |- _ => by rewrite validDate_withoutTime in E end.
Qed.

Lemma appendDated_ok snapshot time f w c w' :
  appendDated (contextOf payloads snapshot) time f w = (Ok c, w') ->
  exists t, time = Some t /\ append (contextOf payloads snapshot) (f t) w = (Ok c, w').
Proof.
  unfold appendDated. destruct time as [t|]; [by eauto|]. destruct (draftObject (f 0)) as [h v]. simpl.
  intros (_ & rd & _ & _ & Hread & _)%schedule_Ok%appendOne_ok. by apply readDraft_withoutTime in Hread.
Qed.

Lemma cost_strings l : cost (JArr (map JStr l)) = 1 + 2 * Z.of_nat (length l).
Proof.
  simpl. assert (foldr Z.add 0 (map (fun x => 1 + cost x) (map JStr l)) = 2 * Z.of_nat (length l)) as ->; [|done].
  induction l as [|x l IH]; [done|]. simpl. rewrite IH. lia.
Qed.
Lemma depth_strings l : obj_depth (JArr (map JStr l)) = 1.
Proof.
  simpl. assert (foldr Z.max 0 (map obj_depth (map JStr l)) = 0) as ->; [|done].
  induction l as [|x l IH]; [done|]. simpl. by rewrite IH.
Qed.
Lemma finite_strings l : json_finite (JArr (map JStr l)) = true.
Proof. induction l; done. Qed.
Lemma wf_strings l : json_wf (JArr (map JStr l)).
Proof. induction l as [|x l IH]; [done|]. by split. Qed.
Lemma arrayOfStrings_print l : Forall (fun s => isUuid s = true) l -> arrayOfStrings (JArr (map JStr l)) = Some l.
Proof.
  simpl. induction 1 as [|s l Hs _ IH]; [done|]. simpl.
  assert (asText isUuid (JStr s) = Some s) as -> by (unfold asText; simpl; by rewrite Hs). simpl. by rewrite IH.
Qed.

(** The payload of a message is one the copy and the store keep. *)
Definition replyText (j : json) : Prop := match j with JNull | JStr _ => True | _ => False end.
Lemma messagePayload_ok mid text r ms media : replyText r ->
  (length ms <= 5)%nat -> (length media <= 4)%nat ->
  within_limits (JObj (messagePayload mid text r ms media)) = true /\ json_wf (JObj (messagePayload mid text r ms media)).
Proof.
  intros Hr Hms Hmedia. unfold messagePayload.
  pose proof (cost_strings ms) as Hc1. pose proof (cost_strings media) as Hc2.
  pose proof (depth_strings ms) as Hd1. pose proof (depth_strings media) as Hd2.
  pose proof (finite_strings ms) as Hf1. pose proof (finite_strings media) as Hf2.
  pose proof (wf_strings ms) as Hw1. pose proof (wf_strings media) as Hw2.
  generalize dependent (JArr (map JStr ms)). generalize dependent (JArr (map JStr media)). intros a Hc2 Hd2 Hf2 Hw2 b Hc1 Hd1 Hf1 Hw1.
  split.
  - unfold within_limits. rewrite !andb_true_iff, !Z.leb_le. simpl. rewrite Hd1, Hd2, Hf1, Hf2.
    unfold MAX_JSON_DEPTH, MAX_JSON_UNITS. destruct r; simpl; try done; split_and!; lia || done.
  - split; [apply (bool_decide_eq_true_1 _); reflexivity|]. simpl. by destruct r.
Qed.

(** An append that wrote its event. *)
Record extended (rid : string) (d : RoomEventDraft) (c : RoomEventEnvelope) (w w' : world) (row : event_row) : Prop := {
  ex_row : eventRow c = Some row;
  ex_drafted : drafted rid d row;
  ex_fields : type c = d_type d /\ revision c = d_revision d /\ operation c = d_operation d /\ payload c = d_payload d;
  ex_db : exists os js, db w' = Database (rooms (db w')) (events (db w) ++ [row]) os js (completions (db w)) (sessions (db w))
            (members (db w)) (deletions (db w)) (media_assets (db w)) (media_bindings (db w)) (accounts (db w));
  ex_uuids : (uuids w < uuids w')%nat;
}.

Lemma message_append snapshot d w c w' :
  within_limits (JObj (d_payload d)) = true -> json_wf (JObj (d_payload d)) ->
  fst (findOneByCausation payloads (room_id snapshot) (d_causationId d) w) = Ok None ->
  append (contextOf payloads snapshot) d w = (Ok c, w') ->
  exists row, extended (room_id snapshot) d c w w' row.
Proof.
  intros Hlim Hwf Hnone Happ.
  destruct (append_new payloads snapshot d w c w' Hlim Hwf Hnone Happ) as (Hcd & row & env & j & w2 & Hwr & ->).
  exists row. pose proof (wr_row _ _ _ _ _ _ _ _ Hwr) as Hrow.
  destruct (completed_draft _ _ _ _ _ _ Hcd) as (Ht & _ & _ & _ & Hrev & Hop & _ & _ & _ & Hp).
  constructor; [done|by eapply completed_drafted|done|..]; rewrite (wr_world _ _ _ _ _ _ _ _ Hwr); simpl; [by eauto|lia].
Qed.

Lemma unlessRetried_ok snapshot c ty actor act w ev w' :
  unlessRetried (contextOf payloads snapshot) c ty actor act w = (Ok ev, w') ->
  (fst (findOneByCausation payloads (room_id snapshot) (cm_commandId c) w) = Ok (Some ev)
     /\ type ev = ty /\ actorId ev = actor /\ w' = w)
  \/ (fst (findOneByCausation payloads (room_id snapshot) (cm_commandId c) w) = Ok None /\ act w = (Ok ev, w')).
Proof.
  unfold unlessRetried. intros (existing & w1 & Hf & Hr)%bind_ok. simpl in Hf. apply schedule_Ok in Hf.
  pose proof (find_readonly _ _ _ _ _ _ Hf) as ->. rewrite Hf. simpl.
  apply bind_ok in Hr as (retry & w1 & Hret & Hr). unfold lift_result in Hret. injection Hret as Hret <-.
  unfold retryOf in Hret. destruct existing as [e|].
  - destruct (_ || _) eqn:Hck in Hret; [done|]. injection Hret as <-. split_bools. left. run_ok. done.
  - injection Hret as <-. by right.
Qed.

Lemma assertTeacherSession_readonly t s : readonly (assertTeacherSession t s).
Proof. unfold assertTeacherSession. atomic. Qed.
Lemma authorizeStudent_readonly ctx p s : readonly (authorizeStudent ctx p s).
Proof. unfold authorizeStudent. atomic. Qed.
Hint Resolve assertTeacherSession_readonly authorizeStudent_readonly : atomic.
Lemma authorizeEdit_readonly ctx p s : readonly (authorizeEdit ctx p s).
Proof. unfold authorizeEdit, assertTeacherPrincipal, authorizeTeacher. atomic. Qed.
Lemma latestMessage_readonly ctx m : readonly (latestMessage ctx m).
Proof. unfold latestMessage. atomic. Qed.
Hint Resolve latestMessage_readonly : atomic.
Lemma assertMentionsAndReply_readonly ctx ms r : readonly (assertMentionsAndReply ctx ms r).
Proof. unfold assertMentionsAndReply. atomic. Qed.

Lemma assertMentionsAndReply_ok ctx ms r w u w' : assertMentionsAndReply ctx ms r w = (Ok u, w') -> replyText r /\ w' = w.
Proof.
  intros Hr. split; [|by eapply assertMentionsAndReply_readonly]. unfold assertMentionsAndReply in Hr. run_ok.
  by destruct r.
Qed.
Lemma readUuidArray_ok p k max l : readUuidArray p k max = Ok l -> 0 <= max ->
  Z.of_nat (length l) <= max /\ Forall (fun s => isUuid s = true) l.
Proof.
  unfold readUuidArray. intros Hr Hmax. destruct (assoc k p) as [v|]; [|injection Hr as <-; by split].
  destruct (arrayOfStrings v) as [l0|] eqn:Ha; [|done]. destruct (max <? _) eqn:Hm; [done|]. injection Hr as <-.
  split; [by apply Z.ltb_ge|]. unfold arrayOfStrings in Ha. destruct v as [| | | |js|]; try done.
  apply mapM_Some in Ha. clear -Ha. induction Ha as [|x y js l Hx _ IH]; constructor; [|done].
  unfold asText in Hx. destruct (asStr x) as [s|]; [|done]. simpl in Hx. destruct (isUuid s) eqn:E; [by injection Hx as <-|done].
Qed.

(** The room takes messages. *)
Definition writable (snapshot : LockedRoomSnapshot) (w : world) : Prop :=
  status snapshot = open /\ exists now, clock_now (ticks w) = Some now /\ closedBy now (closes_at snapshot) = false.
Lemma assertWritable_ok snapshot w now w' :
  assertWritable (contextOf payloads snapshot) w = (Ok now, w') ->
  writable snapshot w /\ w' = World (db w) (S (ticks w)) (txs w) (uuids w) (tx w).
Proof.
  unfold assertWritable. intros (t & w1 & [Ht ->]%validNow_ok & Hr)%bind_ok. run_ok. simpl in *. split_bools.
  split; [|done]. split; [done|]. by exists now.
Qed.

(** A message that was added, before its attachments are bound: the identifiers come
    from the supply. *)
Definition addedDraft (p : AuthSession) (c : RoomCommand) (w : world) (t : Z) (text : string) (r : json)
    (mentions mediaIds : list string) : RoomEventDraft :=
  Draft "message.added" (sessionActor p) human student 1 add t (cm_commandId c) (uuid_supply (S (uuids w)))
    (messagePayload (uuid_supply (uuids w)) text r mentions mediaIds).
Record added_run (snapshot : LockedRoomSnapshot) (p : AuthSession) (c : RoomCommand) (w w' : world)
    (ev : RoomEventEnvelope) (row : event_row) : Prop := {
  ar_writable : writable snapshot w;
  ar_reads : exists text r mentions mediaIds t w0 w1 w2,
    replyText r /\ (length mentions <= 5)%nat /\ (length mediaIds <= 4)%nat
    /\ readUuidArray (cm_payload c) "mediaIds" 4 = Ok mediaIds
    /\ db w0 = db w /\ assertAttachable p (cm_roomId c) mediaIds w0 = (Ok tt, w0)
    /\ db w1 = db w /\ (uuids w < uuids w1)%nat
    /\ extended (room_id snapshot) (addedDraft p c w t text r mentions mediaIds) ev w1 w2 row
    /\ match bindAttachments with
       | Some b => b (cm_roomId c) (uuid_supply (uuids w)) (eventId ev) mediaIds w2 = (Ok tt, w')
       | None => w' = w2
       end;
}.

Lemma addInContext_ok snapshot p c w ev w' :
  fst (findOneByCausation payloads (room_id snapshot) (cm_commandId c) w) = Ok None ->
  addInContext (contextOf payloads snapshot) p c w = (Ok ev, w') ->
  exists row, added_run snapshot p c w w' ev row.
Proof.
  intros Hnone Hr. unfold addInContext in Hr. apply bind_ok in Hr as (now & s & [Hwr ->]%assertWritable_ok & Hr).
  apply bind_ok in Hr as (media & s & Hmedia & Hr). unfold lift_result in Hmedia. injection Hmedia as Hmedia <-.
  apply bind_ok in Hr as (ms & s & Hms & Hr). unfold lift_result in Hms. injection Hms as Hms <-.
  apply bind_ok in Hr as (? & s & [_ ->]%throw_if_ok & Hr). apply bind_ok in Hr as (? & s & [_ ->]%throw_if_ok & Hr).
  apply bind_ok in Hr as (? & s & [Hreply ->]%assertMentionsAndReply_ok & Hr).
  apply bind_ok in Hr as ([] & s & Hatt & Hr). pose proof (attachable_readonly AL _ _ _ _ _ _ Hatt) as ->.
  apply bind_ok in Hr as (mid & s & Hmid & Hr). unfold randomUUID in Hmid. injection Hmid as <- <-.
  apply bind_ok in Hr as (corr & s & Hcorr & Hr). unfold randomUUID in Hcorr. injection Hcorr as <- <-. simpl in Hr.
  apply bind_ok in Hr as (e & w2 & (t & _ & Happ)%appendDated_ok & Hr).
  apply bind_ok in Hr as ([] & w3 & Hbind & Hr). unfold mret, M_ret in Hr. injection Hr as <- <-.
  destruct (readUuidArray_ok _ _ _ _ Hmedia) as [Hlm _]; [done|]. destruct (readUuidArray_ok _ _ _ _ Hms) as [Hlms _]; [done|].
  assert (length ms <= 5 /\ length media <= 4)%nat as [Hl1 Hl2] by lia.
  destruct (messagePayload_ok (uuid_supply (uuids w)) (textOf (cm_payload c)) _ ms media Hreply Hl1 Hl2) as [Hlim Hwf].
  eapply (message_append snapshot) in Happ as [row Hex];
    [|exact Hlim|exact Hwf|rewrite <- Hnone; by apply find_same_events].
  exists row. constructor; [done|]. do 8 eexists. split_and!; [exact Hreply|done|done|done| |exact Hatt| | |exact Hex|]; [done|done|simpl; lia|].
  destruct bindAttachments; [done|]. unfold mret, M_ret in Hbind. by injection Hbind.
Qed.

(** A message that was revised or withdrawn. *)
Record edited_run (snapshot : LockedRoomSnapshot) (c : RoomCommand) (w w' : world) (prior : event_row)
    (d : RoomEventDraft) (ev : RoomEventEnvelope) (row : event_row) : Prop := {
  er_writable : writable snapshot w;
  er_uuid : isUuid (messageIdOf (cm_payload c)) = true;
  er_latest : latestOf (room_id snapshot) (messageIdOf (cm_payload c)) (db w) = Some prior;
  er_alive : ev_operation prior <> retract;
  er_base : cm_baseRevision c = Some (ev_revision prior);
  er_revision : d_revision d = ev_revision prior + 1;
  er_extended : exists w1, db w1 = db w /\ extended (room_id snapshot) d ev w1 w' row;
  er_message : strField "messageId" (JObj (d_payload d)) = Some (messageIdOf (cm_payload c)) /\ json_wf (JObj (d_payload d));
  er_media : (length (mediaIdsOf (JObj (d_payload d))) <= 4)%nat;
}.

Lemma priorMessage_ok snapshot c w prior w' :
  priorMessage (contextOf payloads snapshot) c w = (Ok prior, w') ->
  writable snapshot w /\ isUuid (messageIdOf (cm_payload c)) = true
  /\ latestOf (room_id snapshot) (messageIdOf (cm_payload c)) (db w) = Some prior /\ ev_operation prior <> retract
  /\ w' = World (db w) (S (ticks w)) (txs w) (uuids w) (tx w).
Proof.
  unfold priorMessage. intros (now & s & [Hwr ->]%assertWritable_ok & Hr)%bind_ok.
  apply bind_ok in Hr as (? & s & [_ ->]%throw_if_ok & Hr). apply bind_ok in Hr as (latest & s & Hl & Hr).
  unfold latestMessage in Hl. apply bind_ok in Hl as (? & ? & [Hu ->]%throw_if_ok & Hl).
  unfold query, gets in Hl. injection Hl as Hl <-. destruct latest as [e|]; [|done]. run_ok. split_bools.
  by split_and!.
Qed.
Lemma assertRevision_ok c prior w u w' :
  assertRevision c prior w = (Ok u, w') -> cm_baseRevision c = Some (ev_revision prior) /\ w' = w.
Proof. unfold assertRevision. intros [Hb ->]%throw_if_ok. by split_bools. Qed.

Lemma mediaIdsOf_uuids j : Forall (fun s => isUuid s = true) (mediaIdsOf j).
Proof.
  unfold mediaIdsOf. destruct (field "mediaIds" j) as [v|]; [|constructor]. simpl.
  destruct (arrayOfStrings v) as [l|] eqn:Hv; [|constructor]. simpl.
  destruct (readUuidArray_ok [("mediaIds"%string, v)] "mediaIds" (Z.of_nat (length l)) l); [|lia|done].
  unfold readUuidArray. simpl. by rewrite Hv, Z.ltb_irrefl.
Qed.
Lemma mediaIdsOf_payload mid text r ms media : Forall (fun s => isUuid s = true) media ->
  mediaIdsOf (JObj (messagePayload mid text r ms media)) = media.
Proof.
  intros Hm. unfold mediaIdsOf. change (field "mediaIds" _) with (Some (JArr (map JStr media))).
  change (Some ?x ≫= ?f) with (f x). by rewrite arrayOfStrings_print.
Qed.

Lemma reviseInContext_ok snapshot p c w ev w' :
  (forall e, latestOf (room_id snapshot) (messageIdOf (cm_payload c)) (db w) = Some e ->
     (length (mediaIdsOf (ev_payload e)) <= 4)%nat) ->
  fst (findOneByCausation payloads (room_id snapshot) (cm_commandId c) w) = Ok None ->
  reviseInContext (contextOf payloads snapshot) p c w = (Ok ev, w') ->
  exists prior d row, edited_run snapshot c w w' prior d ev row /\ d_operation d = revise
    /\ d_actorId d = ev_actor_id prior /\ sessionActor p = ev_actor_id prior /\ sessionRole p = r_student.
Proof.
  intros Hmedia Hnone Hr. unfold reviseInContext in Hr.
  apply bind_ok in Hr as (prior & s & (Hwr & Hu & Hl & Hop & ->)%priorMessage_ok & Hr). specialize (Hmedia _ Hl).
  apply bind_ok in Hr as (? & s & [Hown ->]%throw_if_ok & Hr).
  destruct p as [|ownRoom member actor ps nova]; [done|]. split_bools.
  apply bind_ok in Hr as (? & s & [Hb ->]%assertRevision_ok & Hr).
  apply bind_ok in Hr as (ms & s & Hms & Hr). unfold lift_result in Hms. injection Hms as Hms <-.
  apply bind_ok in Hr as (? & s & [_ ->]%throw_if_ok & Hr).
  apply bind_ok in Hr as (? & s & [Hreply ->]%assertMentionsAndReply_ok & Hr).
  apply bind_ok in Hr as (corr & s & Hcorr & Hr). unfold randomUUID in Hcorr. injection Hcorr as <- <-. simpl in Hr.
  apply appendDated_ok in Hr as (t & _ & Happ). destruct (readUuidArray_ok _ _ _ _ Hms) as [Hlms _]; [done|].
  destruct (messagePayload_ok (messageIdOf (cm_payload c)) (textOf (cm_payload c)) _ ms _ Hreply ltac:(lia) Hmedia) as [Hlim Hwf].
  eapply (message_append snapshot) in Happ as [row Hex];
    [|exact Hlim|exact Hwf|rewrite <- Hnone; by apply find_same_events].
  match type of Hex with extended _ ?d _ _ _ _ => exists prior, d, row end. split; [|by split_and!].
  constructor; try done; [by eexists; split; [|exact Hex]|].
  simpl. by rewrite mediaIdsOf_payload by apply mediaIdsOf_uuids.
Qed.

Lemma retractInContext_ok snapshot p c w ev w' :
  fst (findOneByCausation payloads (room_id snapshot) (cm_commandId c) w) = Ok None ->
  retractInContext (contextOf payloads snapshot) p c w = (Ok ev, w') ->
  exists prior d row, edited_run snapshot c w w' prior d ev row /\ d_operation d = retract
    /\ (sessionRole p = r_student -> sessionActor p = ev_actor_id prior).
Proof.
  intros Hnone Hr. unfold retractInContext in Hr.
  apply bind_ok in Hr as (prior & s & (Hwr & Hu & Hl & Hop & ->)%priorMessage_ok & Hr).
  apply bind_ok in Hr as (? & s & [Hown ->]%throw_if_ok & Hr).
  apply bind_ok in Hr as (? & s & [Hb ->]%assertRevision_ok & Hr).
  apply bind_ok in Hr as (corr & s & Hcorr & Hr). unfold randomUUID in Hcorr. injection Hcorr as <- <-. simpl in Hr.
  apply appendDated_ok in Hr as (t & _ & Happ).
  eapply (message_append snapshot) in Happ as [row Hex];
    [|done|split; [apply NoDup_singleton|done]|rewrite <- Hnone; by apply find_same_events].
  match type of Hex with extended _ ?d _ _ _ _ => exists prior, d, row end. split.
  - constructor; try done; [by eexists; split; [|exact Hex]|split; [done|split; [apply NoDup_singleton|done]]|simpl; lia].
  - split; [done|]. destruct p; [done|]. intros _. by split_bools.
Qed.
End Runs.

(** ** Threads through the commands *)

Section ThreadsKept.
Context `{Schemas} `{Postgres} `{Environment} (PL : PostgresLaws).
Variable payloads : EventPayloadRegistry.

Definition threads_in (d : database) : Prop := threads_ok (events d).

Lemma transact_on (P : database -> Prop) {T} roomId (work : RoomEventTransactionContext -> IO T) :
  (forall snapshot, preserves (on_db P) (work (contextOf payloads snapshot))) ->
  preserves (on_db P) (transact payloads roomId work).
Proof.
  intros Hwork w r w' HP Hr. refine (transact_relation payloads (fun d d' => P d -> P d') roomId work w r w' _ _ Hr HP); [done|].
  intros locked snapshot w0 a w1 Hen Hw HP0. eapply (Hwork snapshot); [|exact Hw]. unfold on_db.
  by rewrite (en_world _ _ _ _ _ Hen).
Qed.

(** An event of the room's life is of no message. *)
Lemma append_other snapshot d :
  within_limits (JObj (d_payload d)) = true -> json_wf (JObj (d_payload d)) ->
  strField "messageId" (JObj (d_payload d)) = None ->
  preserves (on_db threads_in) (append (contextOf payloads snapshot) d).
Proof.
  intros Hlim Hwf Hnone. apply (append_rows_on payloads threads_in (fun e => strField "messageId" (ev_payload e) = None)); try done.
  - intros e d0 He Hok. by apply threads_other.
  - intros seq w c e Hcd He. rewrite <- Hnone. apply (stored_strField PL); [done|].
    by apply (completed_drafted _ _ _ _ _ _ _ Hcd).
Qed.

Lemma single_payload k s : k <> "messageId"%string ->
  within_limits (JObj [(k, JStr s)]) = true /\ json_wf (JObj [(k, JStr s)]) /\ strField "messageId" (JObj [(k, JStr s)]) = None.
Proof.
  intros Hk. split_and!; [done|split; [apply NoDup_singleton|done]|]. unfold strField. simpl. by rewrite decide_False by done.
Qed.

Lemma updateRoom_threads rid f : preserves (on_db threads_in) (execute (updateRoom rid f)).
Proof. by apply execute_on. Qed.
Lemma insertJob_threads e id t rid src key corr p after o k now :
  preserves (on_db threads_in) (execute_or e (insertJob id t rid src key corr p after o k now)).
Proof.
  apply execute_or_on. intros d d' Hok Hi. unfold insertJob in Hi.
  repeat (apply bind_Some in Hi; destruct Hi as (? & _ & Hi)). by injection Hi as <-.
Qed.
Lemma cancelRoomJobs_threads rid now p : preserves (on_db threads_in) (cancelRoomJobs rid now p).
Proof. unfold cancelRoomJobs, uuidParamOpt. preserve. by apply execute_on. Qed.
Hint Resolve updateRoom_threads insertJob_threads cancelRoomJobs_threads : preserve.

Variable snapshot : LockedRoomSnapshot.
Let context := contextOf payloads snapshot.

Lemma assertTeacherSession_threads t s : preserves (on_db threads_in) (assertTeacherSession t s).
Proof. unfold assertTeacherSession. preserve. Qed.
Lemma existingManualRetry_threads c ty rid t : preserves (on_db threads_in) (existingManualRetry context c ty rid t).
Proof. unfold existingManualRetry. preserve. Qed.
Lemma append_single tp a ak ar rev op t caus corr k s : k <> "messageId"%string ->
  preserves (on_db threads_in) (append context (Draft tp a ak ar rev op t caus corr [(k, JStr s)])).
Proof. intros Hk. destruct (single_payload k s Hk) as (? & ? & ?). by apply append_other. Qed.
Lemma append_opened tp a ak ar rev op t caus corr s c :
  preserves (on_db threads_in) (append context (Draft tp a ak ar rev op t caus corr (openedPayload s c))).
Proof.
  apply append_other; [done| |done]. split; [|done]. apply (bool_decide_eq_true_1 _). reflexivity.
Qed.
Hint Resolve assertTeacherSession_threads existingManualRetry_threads append_opened : preserve.
Hint Extern 1 (preserves _ (append _ (Draft _ _ _ _ _ _ _ _ _ (closedPayload _)))) => by apply append_single : preserve.
Hint Extern 1 (preserves _ (append _ (Draft _ _ _ _ _ _ _ _ _ [(_, JStr _)]))) => by apply append_single : preserve.

Lemma orRetry_threads rid tid c t sid act : preserves (on_db threads_in) act ->
  preserves (on_db threads_in) (orRetry context rid tid c t sid act).
Proof. intros Hact. unfold orRetry, requireOwner. preserve. Qed.
Lemma closeDueInContext_threads : preserves (on_db threads_in) (closeDueInContext context).
Proof. unfold closeDueInContext, appendAutomaticClose. preserve. Qed.
Lemma openRoom_threads rid tid c : preserves (on_db threads_in) (openRoom context rid tid c).
Proof. unfold openRoom. preserve. Qed.
Lemma moveRoom_threads rid tid c t s1 s2 k : k <> "messageId"%string ->
  preserves (on_db threads_in) (moveRoom context rid tid c t s1 s2 k).
Proof. intros Hk. unfold moveRoom. preserve. Qed.
Lemma closeRoom_threads rid tid c : preserves (on_db threads_in) (closeRoom context rid tid c).
Proof. unfold closeRoom. preserve. Qed.
End ThreadsKept.
#[export] Hint Resolve orRetry_threads closeDueInContext_threads openRoom_threads moveRoom_threads closeRoom_threads
  assertTeacherSession_threads existingManualRetry_threads : preserve.

Section LifecycleThreads.
Context `{Schemas} `{Postgres} `{Environment} (PL : PostgresLaws).
Variable payloads : EventPayloadRegistry.

Lemma unlessDue_threads rid tid c t sid act : preserves (on_db threads_in) act ->
  preserves (on_db threads_in) (unlessDue payloads rid tid c t sid act).
Proof.
  intros Hact. unfold unlessDue, ownerRetry, closeIfDueForOwner, requireOwner.
  preserve; apply transact_on; preserve.
Qed.
Lemma runCall_threads c : preserves (on_db threads_in) (runCall payloads c).
Proof.
  destruct c; cbn [runCall]; unfold openRoomCommand, pause, resume, close, closeIfDue, simpleTransition;
    repeat first [apply unlessDue_threads | apply transact_on | apply orRetry_threads | by apply moveRoom_threads
                 | solve [eauto with preserve] | apply preserves_bind | progress intros].
Qed.
End LifecycleThreads.

(** ** The commands *)

Section Commands.
Context `{Schemas} `{Postgres} `{Environment} `{AttachmentValidator} (PL : PostgresLaws) (AL : AttachmentLaws).
Variable payloads : EventPayloadRegistry.

(** The identifiers drawn on the way from [w] to [w'] name no message yet. *)
Definition unused_ids (w w' : world) : Prop :=
  forall n e, (uuids w <= n < uuids w')%nat -> e ∈ events (db w) ->
    strField "messageId" (ev_payload e) <> Some (uuid_supply n).

Lemma drafted_message rid d row mid : drafted rid d row -> json_wf (JObj (d_payload d)) ->
  strField "messageId" (JObj (d_payload d)) = Some mid -> strField "messageId" (ev_payload row) = Some mid.
Proof. intros Hd Hwf Hm. rewrite <- Hm. apply (stored_strField PL); [done|apply Hd]. Qed.
Lemma drafted_media rid d row : drafted rid d row -> json_wf (JObj (d_payload d)) ->
  mediaIdsOf (ev_payload row) = mediaIdsOf (JObj (d_payload d)).
Proof. intros Hd Hwf. apply (stored_mediaIds PL); [done|apply Hd]. Qed.
Lemma drafted_canonical rid d row : drafted rid d row -> Ledger.canonical (ev_actor_id row).
Proof. intros Hd. eapply (uuid_in_printed PL), Hd. Qed.
Lemma drafted_room rid d row : drafted rid d row -> Ledger.canonical rid -> ev_room_id row = rid.
Proof. intros Hd Hcan. pose proof (df_room _ _ _ Hd) as Hr. unfold Ledger.canonical in Hcan. congruence. Qed.

Lemma extended_events rid d c w w' row : extended rid d c w w' row -> events (db w') = events (db w) ++ [row].
Proof. intros Hex. destruct (ex_db _ _ _ _ _ _ Hex) as (os & js & Hdb). by rewrite Hdb. Qed.

Lemma added_events snapshot p c w w' ev row : added_run snapshot p c w w' ev row ->
  events (db w') = events (db w) ++ [row] /\ (uuids w < uuids w')%nat.
Proof.
  intros [_ (text & r & ms & media & t & w0 & w1 & w2 & _ & _ & _ & _ & _ & _ & Hw1 & Hu & Hex & Hb)].
  pose proof (extended_events _ _ _ _ _ _ Hex) as Hev. pose proof (ex_uuids _ _ _ _ _ _ Hex) as Hlt.
  assert (events (db w') = events (db w2) /\ uuids w' = uuids w2) as [-> ->].
  { destruct bindAttachments as [b|] eqn:Hbind; [|by subst]. by rewrite (bind_frame AL b Hbind _ _ _ _ _ _ _ Hb). }
  rewrite Hev, Hw1. split; [done|lia].
Qed.

(** A message that was added starts a thread of its own. *)
Lemma added_threads snapshot p c w w' ev row :
  Ledger.canonical (room_id snapshot) -> added_run snapshot p c w w' ev row -> unused_ids w w' ->
  threads_in (db w) -> threads_in (db w').
Proof.
  intros Hcan Hrun Hfree Hok. destruct (added_events _ _ _ _ _ _ _ Hrun) as [Hev Hlt].
  destruct Hrun as [_ (text & r & ms & media & t & w0 & w1 & w2 & Hr & Hlms & Hlm & Hread & _ & _ & _ & _ & Hex & _)].
  destruct (ex_fields _ _ _ _ _ _ Hex) as (_ & Hrev & Hop & _).
  pose proof (ex_drafted _ _ _ _ _ _ Hex) as Hd.
  destruct (messagePayload_ok (uuid_supply (uuids w)) text r ms media Hr Hlms Hlm) as [_ Hwf].
  pose proof (drafted_message _ _ _ (uuid_supply (uuids w)) Hd Hwf eq_refl) as Hmid.
  unfold threads_in. rewrite Hev. eapply threads_one; [done|exact Hmid|].
  assert (thread (ev_room_id row) (uuid_supply (uuids w)) (events (db w)) = []) as ->.
  { apply select_where_none. intros e Hin. unfold messageOf. apply andb_false_iff. right.
    apply bool_decide_eq_false, (Hfree (uuids w) e); [lia|done]. }
  apply thread_begins; [by rewrite (df_revision _ _ _ Hd)|by rewrite (df_operation _ _ _ Hd)|by eapply drafted_canonical|].
  rewrite (drafted_media _ _ _ Hd Hwf). simpl. rewrite mediaIdsOf_payload; [done|].
  by eapply readUuidArray_ok; [exact Hread|].
Qed.

Lemma latest_thread rid mid d : threads_in d -> latestOf rid mid d = last (thread rid mid (events d)).
Proof. intros Hok. unfold latestOf. by apply thread_latest. Qed.

(** A message that was revised or withdrawn has one event more, its latest. *)
Lemma edited_threads snapshot c w w' prior d ev row :
  Ledger.canonical (room_id snapshot) -> edited_run snapshot c w w' prior d ev row -> d_operation d <> add ->
  (d_operation d <> retract -> d_actorId d = ev_actor_id prior) -> threads_in (db w) ->
  threads_in (db w') /\ events (db w') = events (db w) ++ [row]
  /\ latestOf (room_id snapshot) (messageIdOf (cm_payload c)) (db w') = Some row.
Proof.
  intros Hcan [_ _ Hl Halive _ Hrev (w1 & Hw1 & Hex) [Hmid Hwf] Hmedia] Hop Hact Hok.
  pose proof (extended_events _ _ _ _ _ _ Hex) as Hev. rewrite Hw1 in Hev. pose proof (ex_drafted _ _ _ _ _ _ Hex) as Hd.
  pose proof (drafted_message _ _ _ _ Hd Hwf Hmid) as Hm. pose proof (drafted_room _ _ _ Hd Hcan) as Hroom.
  rewrite (latest_thread _ _ _ Hok) in Hl. apply last_Some in Hl as [h Hh].
  pose proof (Hok (room_id snapshot) (messageIdOf (cm_payload c))) as Hthread. rewrite Hh in Hthread.
  assert (threads_in (db w')) as Hok'.
  { unfold threads_in. rewrite Hev. eapply threads_one; [done|exact Hm|]. rewrite Hroom, Hh.
    apply thread_grows; try done.
    - by rewrite (df_revision _ _ _ Hd).
    - by rewrite (df_operation _ _ _ Hd).
    - rewrite (df_operation _ _ _ Hd). intros Hno. pose proof (df_actor _ _ _ Hd) as Ha. rewrite (Hact Hno) in Ha.
      pose proof (th_canonical _ Hthread prior ltac:(set_solver)) as Hc. unfold Ledger.canonical in Hc. congruence.
    - by eapply drafted_canonical.
    - by rewrite (drafted_media _ _ _ Hd Hwf). }
  split_and!; [done|done|]. rewrite latest_thread by done. rewrite Hev, thread_snoc. unfold messageOf.
  rewrite Hroom, Hm, !bool_decide_true by done. simpl. by rewrite last_snoc.
Qed.

Lemma entered_facts rid w w0 locked snapshot : ledger_ok (db w) -> entered rid w w0 locked snapshot ->
  Ledger.canonical (room_id snapshot) /\ room_id snapshot = rm_id locked /\ locked ∈ rooms (db w)
  /\ Some (rm_id locked) = uuid_in rid /\ db w0 = db w /\ uuids w0 = uuids w
  /\ (forall w1, writable snapshot w1 -> rm_status locked = open
       /\ exists now, clock_now (ticks w1) = Some now /\ closedBy now (toISOString <$> rm_closes_at locked) = false).
Proof.
  intros Hok Hen. destruct (find_elem _ _ _ (en_locked _ _ _ _ _ Hen)) as [Hin Hid]. apply bool_decide_eq_true in Hid.
  pose proof (en_snapshot _ _ _ _ _ Hen) as Hsn. apply roomSnapshot_ok in Hsn as [_ ->]. simpl.
  rewrite (en_world _ _ _ _ _ Hen). split_and!; try done. by eapply ledger_room_canonical.
Qed.

(** ** Revising and withdrawing *)

Record edited (op : EventOperation) (p : AuthSession) (c : RoomCommand) (w w' : world) (ev : RoomEventEnvelope) : Prop := {
  ed_room : exists locked, locked ∈ rooms (db w) /\ Some (rm_id locked) = uuid_in (cm_roomId c) /\ rm_status locked = open
    /\ (exists n now, clock_now n = Some now /\ closedBy now (toISOString <$> rm_closes_at locked) = false)
    /\ exists prior row, latestOf (rm_id locked) (messageIdOf (cm_payload c)) (db w) = Some prior
      /\ ev_operation prior <> retract /\ cm_baseRevision c = Some (ev_revision prior)
      /\ (sessionRole p = r_student -> sessionActor p = ev_actor_id prior) /\ (op = revise -> sessionRole p = r_student)
      /\ eventRow ev = Some row /\ revision ev = ev_revision prior + 1 /\ operation ev = op
      /\ events (db w') = events (db w) ++ [row]
      /\ latestOf (rm_id locked) (messageIdOf (cm_payload c)) (db w') = Some row /\ threads_in (db w');
}.

Definition editOf (t : CommandType) : option EventOperation :=
  match t with message_revise => Some revise | message_retract => Some retract | _ => None end.

Lemma edited_of_run op p c rid w w0 w' locked snapshot prior d ev row :
  ledger_ok (db w) -> threads_in (db w) -> entered rid w w0 locked snapshot -> rid = cm_roomId c ->
  edited_run snapshot c w0 w' prior d ev row -> d_operation d = op -> op <> add ->
  (op = revise -> d_actorId d = ev_actor_id prior /\ sessionRole p = r_student) ->
  (sessionRole p = r_student -> sessionActor p = ev_actor_id prior) -> edited op p c w w' ev.
Proof.
  intros Hok Hth Hen -> Hrun Hdop Hadd Hrevise Hp.
  destruct (entered_facts _ _ _ _ _ Hok Hen) as (Hcan & Hsid & Hin & Hrid & Hdb0 & _ & Hwrit).
  pose proof Hrun as [Hw _ Hl Halive Hbase Hrev (w1 & _ & Hex) _ _].
  destruct (edited_threads _ _ _ _ _ _ _ _ Hcan Hrun) as (Hth' & Hev & Hl').
  - congruence.
  - intros Hno. apply Hrevise. destruct op; congruence.
  - by rewrite Hdb0.
  - destruct (ex_fields _ _ _ _ _ _ Hex) as (_ & Hrev' & Hop' & _). destruct (Hwrit _ Hw) as (Hst & now & Hnow & Hclosed).
    rewrite Hdb0, Hsid in *. constructor. exists locked. split_and!; try done; [by eauto|].
    exists prior, row. split_and!; try done; [naive_solver|by apply Hex|congruence|congruence].
Qed.

Lemma edit_ok op p c sid w ev w' :
  ledger_ok (db w) -> threads_in (db w) -> editOf (cm_type c) = Some op ->
  route payloads p c sid w = (Ok ev, w') -> db w' = db w \/ edited op p c w w' ev.
Proof.
  intros Hok Hth Hop Hr. unfold route in Hr.
  destruct (cm_type c); try done; injection Hop as <-; unfold reviseMessage, retractMessage in Hr;
    apply bind_ok in Hr as ([] & s & Hct & Hr); unfold lift_result in Hct; injection Hct as _ <-;
    apply transact_ok in Hr as (locked & snapshot & w0 & Hen & Hr & _);
    destruct (entered_facts _ _ _ _ _ Hok Hen) as (_ & _ & _ & _ & Hdb0 & _);
    apply bind_ok in Hr as ([] & s & Hauth & Hr); apply authorizeEdit_readonly in Hauth as ->;
    apply unlessRetried_ok in Hr as [(_ & _ & _ & ->)|[Hnone Hr]]; try (by left); right.
  - apply (reviseInContext_ok payloads) in Hr as (prior & d & row & Hrun & Hdop & Hact & Hp & Hrole); [|clear Hnone Hr|done].
    + by eapply edited_of_run.
    + rewrite Hdb0. intros e He. rewrite (latest_thread _ _ _ Hth) in He. apply last_Some in He as [h Hh].
      apply (th_media _ (Hth (room_id snapshot) (messageIdOf (cm_payload c)))). rewrite Hh. set_solver.
  - apply (retractInContext_ok payloads) in Hr as (prior & d & row & Hrun & Hdop & Hp); [|done]. by eapply edited_of_run.
Qed.

(** ** Adding *)

Lemma add_ok p c sid w ev w' :
  addMessage payloads p c sid w = (Ok ev, w') ->
  db w' = db w \/ exists locked snapshot w0 row, entered (cm_roomId c) w w0 locked snapshot
    /\ added_run snapshot p c w0 w' ev row.
Proof.
  unfold addMessage. intros ([] & s & Hct & Hr)%bind_ok. unfold lift_result in Hct. injection Hct as _ <-.
  destruct p as [|ownRoom member actor ps nova]; [done|]. apply bind_ok in Hr as (? & s & [_ ->]%throw_if_ok & Hr).
  apply transact_ok in Hr as (locked & snapshot & w0 & Hen & Hr & _).
  apply bind_ok in Hr as ([] & s & Hauth & Hr). apply authorizeStudent_readonly in Hauth as ->.
  apply unlessRetried_ok in Hr as [(_ & _ & _ & ->)|[Hnone Hr]].
  - left. by rewrite (en_world _ _ _ _ _ Hen).
  - right. apply (addInContext_ok AL) in Hr as [row Hrun]; [|done]. by eauto 10.
Qed.

(** A command that is refused changes nothing. *)
Lemma message_err p c sid w e w' : cm_type c ∈ [message_add; message_revise; message_retract] ->
  route payloads p c sid w = (Err e, w') -> db w' = db w.
Proof.
  intros Ht. unfold route, addMessage, reviseMessage, retractMessage, mbind, M_bind, lift_result.
  rewrite !elem_of_cons, elem_of_nil in Ht. destruct Ht as [Ht|[Ht|[Ht|[]]]]; rewrite Ht.
  all: destruct (commandType c _); [|by intros [= _ <-]].
  - destruct p; [by intros [= _ <-]|]. unfold throw_if. destruct (negb _); [by intros [= _ <-]|]. simpl. apply transact_err.
  - apply transact_err.
  - apply transact_err.
Qed.

(** ** Soundness through every command *)

Lemma appendDated_inv snapshot time f : Ledger.canonical (room_id snapshot) ->
  preserves ledger_inv (appendDated (contextOf payloads snapshot) time f).
Proof.
  intros Hcan. unfold appendDated. destruct time; [by apply append_inv|]. destruct (draftObject _). by apply schedule_append_inv.
Qed.
Lemma readonly_inv {A} (m : IO A) : readonly m -> preserves ledger_inv m.
Proof. apply readonly_preserves. Qed.
Lemma assertWritable_inv ctx : preserves ledger_inv (assertWritable ctx).
Proof. unfold assertWritable. preserve. Qed.
Lemma bind_inv b r m e ids : bindAttachments = Some b -> preserves ledger_inv (b r m e ids).
Proof. intros Hb w x w' Hinv Hr. by rewrite (bind_frame AL b Hb _ _ _ _ _ _ _ Hr). Qed.
Hint Resolve appendDated_inv assertWritable_inv bind_inv assertMentionsAndReply_readonly latestMessage_readonly
  authorizeEdit_readonly authorizeStudent_readonly attachable_readonly : preserve.
Hint Extern 3 (preserves ledger_inv _) => apply readonly_inv : preserve.

Lemma unlessRetried_inv snapshot c ty actor act : preserves ledger_inv act ->
  preserves ledger_inv (unlessRetried (contextOf payloads snapshot) c ty actor act).
Proof. intros Hact. unfold unlessRetried. preserve. Qed.

Lemma priorMessage_inv ctx c : preserves ledger_inv (priorMessage ctx c).
Proof. unfold priorMessage. preserve. Qed.
Hint Resolve unlessRetried_inv priorMessage_inv : preserve.

Lemma addInContext_inv snapshot p c : Ledger.canonical (room_id snapshot) ->
  preserves ledger_inv (addInContext (contextOf payloads snapshot) p c).
Proof. intros Hcan. unfold addInContext. preserve. Qed.
Lemma reviseInContext_inv snapshot p c : Ledger.canonical (room_id snapshot) ->
  preserves ledger_inv (reviseInContext (contextOf payloads snapshot) p c).
Proof. intros Hcan. unfold reviseInContext, assertRevision. preserve. Qed.
Lemma retractInContext_inv snapshot p c : Ledger.canonical (room_id snapshot) ->
  preserves ledger_inv (retractInContext (contextOf payloads snapshot) p c).
Proof. intros Hcan. unfold retractInContext, assertRevision. preserve. Qed.
Hint Resolve addInContext_inv reviseInContext_inv retractInContext_inv : preserve.

(** The room's row and the threads are sound. *)
Definition classroom_ok (d : database) : Prop := ledger_ok d /\ threads_in d.

(** A command of the room's life, as [Lifecycle] names it. *)
Definition lifeCall (t : CommandType) (c : RoomCommand) (tid : string) (sid : option string) : option lifecycle_call :=
  match t with
  | room_open => Some (Open (cm_roomId c) tid (cm_commandId c) sid)
  | room_pause => Some (Pause (cm_roomId c) tid (cm_commandId c) sid)
  | room_resume => Some (Resume (cm_roomId c) tid (cm_commandId c) sid)
  | room_close => Some (Close (cm_roomId c) tid (cm_commandId c) sid)
  | _ => None
  end.

Lemma route_cases p c sid w r w' : route payloads p c sid w = (r, w') ->
  (cm_type c ∈ [message_add; message_revise; message_retract])
  \/ w' = w \/ exists call r0, runCall payloads call w = (r0, w').
Proof.
  unfold route. destruct (cm_type c) eqn:Ht; intros Hr; try (left; set_solver); right;
    (destruct p as [tid actor|]; [right|left; by injection Hr as _ <-]);
    match type of Ht with _ = ?t => destruct (lifeCall t c tid sid) as [call|] eqn:Hcall; [|done]; exists call end;
    injection Hcall as <-; cbn [runCall]; unfold mbind, M_bind; rewrite Hr; destruct r; by eexists.
Qed.

Lemma message_ledger p c sid w r w' : cm_type c ∈ [message_add; message_revise; message_retract] ->
  ledger_ok (db w) -> route payloads p c sid w = (r, w') -> ledger_ok (db w').
Proof.
  intros Ht Hok Hr. destruct r as [ev|e]; [|by rewrite (message_err _ _ _ _ _ _ Ht Hr)]. unfold route in Hr.
  rewrite !elem_of_cons, elem_of_nil in Ht. destruct Ht as [Ht|[Ht|[Ht|[]]]]; rewrite Ht in Hr;
    unfold addMessage, reviseMessage, retractMessage in Hr; apply bind_ok in Hr as ([] & s & Hct & Hr);
    unfold lift_result in Hct; injection Hct as _ <-; try (destruct p as [|ownRoom member actor ps nova]; [done|];
      apply bind_ok in Hr as (? & s & [_ ->]%throw_if_ok & Hr));
    (eapply transact_ledger; [|exact Hok|exact Hr]); intros snapshot Hcan; cbv beta; preserve.
Qed.

Lemma route_sound p c sid w r w' :
  classroom_ok (db w) -> unused_ids w w' -> route payloads p c sid w = (r, w') -> classroom_ok (db w').
Proof.
  intros [Hok Hth] Hfree Hr. destruct (route_cases _ _ _ _ _ _ Hr) as [Ht|[->|(call & r0 & Hcall)]]; [|done|].
  - split; [by eapply message_ledger|]. destruct r as [ev|e]; [|by rewrite (message_err _ _ _ _ _ _ Ht Hr)].
    destruct (editOf (cm_type c)) as [op|] eqn:Hop.
    + destruct (edit_ok op p c sid w ev w' Hok Hth Hop Hr) as [->|[(locked & _ & _ & _ & _ & prior & row & ? & ? & ? & ? & ? & ? & ? & ? & ? & ? & ?)]]; done.
    + assert (cm_type c = message_add) as Hadd by (destruct (cm_type c); set_solver). unfold route in Hr. rewrite Hadd in Hr.
      apply add_ok in Hr as [->|(locked & snapshot & w0 & row & Hen & Hrun)]; [done|].
      destruct (entered_facts _ _ _ _ _ Hok Hen) as (Hcan & _ & _ & _ & Hdb0 & Hu0 & _).
      eapply added_threads; [done|exact Hrun| |by rewrite Hdb0].
      intros n e. rewrite Hdb0, Hu0. apply Hfree.
  - split; [by eapply runCall_ledger|]. by eapply (runCall_threads PL payloads call).
Qed.

Lemma dispatch_cases p v sid w r w' : dispatch payloads p v sid w = (r, w') ->
  w' = w \/ exists c, route payloads p c sid w = (r, w').
Proof.
  unfold dispatch. destruct (parseClientFrame _) as [[| c| | |]|]; try (intros [= _ <-]; by left).
  unfold throw_if. destruct (negb _); [intros [= _ <-]; by left|]. intros Hr. right. by exists c.
Qed.

(** What happens to the classroom: a command, an automatic close, or anything else that
    leaves the ledger as it is. *)
Inductive classroom_step (w w' : world) : Prop :=
| step_command p v sid r : dispatch payloads p v sid w = (r, w') -> unused_ids w w' -> classroom_step w w'
| step_due rid r : closeIfDue payloads rid w = (r, w') -> classroom_step w w'
| step_elsewhere : view (db w') = view (db w) -> classroom_step w w'.

Lemma classroom_step_sound w w' : classroom_step w w' -> classroom_ok (db w) -> classroom_ok (db w').
Proof.
  intros [p v sid r Hr Hfree|rid r Hr|Hv] Hok.
  - apply dispatch_cases in Hr as [->|[c Hr]]; [done|]. by eapply route_sound.
  - destruct Hok as [Hok Hth]. split; [by eapply (runCall_ledger payloads (CloseIfDue rid))|].
    by eapply (runCall_threads PL payloads (CloseIfDue rid)).
  - destruct Hok as [Hok Hth]. unfold classroom_ok, ledger_ok, threads_in in *. rewrite Hv.
    split; [done|]. unfold view in Hv. by injection Hv as _ -> _ _.
Qed.

(** C3. Whatever commands students and teachers send, in any order and however often, and
    whenever the clock closes the room: every message of every room is a thread, added
    once at revision 1, each later event one revision further, written by its one author,
    and ended by its withdrawal; and the room's ledger is sound. *)
Theorem messages_reachable_sound w w' : rtc classroom_step w w' -> classroom_ok (db w) -> classroom_ok (db w').
Proof. induction 1 as [|w w1 w2 Hstep _ IH]; [done|]. intros Hok. by apply IH, (classroom_step_sound w). Qed.

(** C4. Revising and withdrawing are a compare-and-set: the command changes the ledger
    only when its base revision is the latest one of a message that is not withdrawn, in
    an open room, from the author (a teacher may withdraw); it then appends one event,
    one revision further, which is the latest from then on. Otherwise nothing changes. *)
Theorem edits_compare_and_set op p c sid w r w' :
  classroom_ok (db w) -> editOf (cm_type c) = Some op -> route payloads p c sid w = (r, w') ->
  db w' = db w \/ exists ev, r = Ok ev /\ edited op p c w w' ev.
Proof.
  intros [Hok Hth] Hop Hr. destruct r as [ev|e].
  - destruct (edit_ok op p c sid w ev w' Hok Hth Hop Hr) as [?|?]; [by left|right; by eauto].
  - left. eapply message_err; [|exact Hr]. destruct (cm_type c); set_solver.
Qed.
End Commands.

(** ** Attachments *)

Section Bound.
Context `{Schemas} `{Postgres} `{Environment}.
Variable payloads : EventPayloadRegistry.

(** The media of a new message: each is the sender's, of the room and fit to attach. *)
Definition attachable (p : AuthSession) (roomId u : string) (m : media_row) : Prop :=
  md_id m = u /\ md_room_id m = roomId /\ md_owner_actor_id m = sessionActor p /\ md_state m ∈ ATTACHABLE.

Lemma mediaAssertAttachable_ok p roomId ids w u w' :
  NoDup (map md_id (media_assets (db w))) -> mediaAssertAttachable p roomId ids w = (Ok u, w') -> ids <> [] ->
  exists us, mapM uuid_in ids = Some us
    /\ Forall (fun u => exists m, m ∈ media_assets (db w) /\ attachable p roomId u m) us.
Proof.
  intros Hnd Hr Hne. unfold mediaAssertAttachable in Hr. rewrite bool_decide_false in Hr by done.
  destruct p as [|ownRoom member actor ps nova]; [done|].
  apply bind_ok in Hr as (? & ? & [_ ->]%throw_if_ok & Hr). apply bind_ok in Hr as (? & ? & [_ ->]%throw_if_ok & Hr).
  apply bind_ok in Hr as (us & ? & [Hus ->]%mapM_uuidParam & Hr). apply bind_ok in Hr as (rows & ? & Hq & Hr).
  unfold query, gets in Hq. injection Hq as <- <-. apply throw_if_ok in Hr as [Hck _].
  apply orb_false_iff in Hck as [Hlen Hck]. split_bools. exists us. split; [done|].
  set (rows := select_where (ofMedia us) (media_assets (db w))) in *.
  assert (map md_id rows ⊆+ us) as Hsub.
  { apply NoDup_submseteq.
    - subst rows. generalize (media_assets (db w)), Hnd. clear. intros l. induction l as [|m l IH]; [done|].
      rewrite map_cons. intros [Hm Hl]%NoDup_cons. unfold select_where. simpl. destruct (ofMedia us m); [|by apply IH].
      rewrite map_cons. apply NoDup_cons. split; [|by apply IH]. intros (x & Hx & Hin)%list_elem_of_fmap_1.
      apply select_where_elem in Hin as [Hin _]. apply Hm. rewrite Hx. by apply list_elem_of_fmap_2.
    - intros i (m & -> & Hin)%list_elem_of_fmap_1. apply select_where_elem in Hin as [_ Hin]. by apply bool_decide_eq_true in Hin. }
  apply submseteq_length_Permutation in Hsub.
  2:{ rewrite length_map, Hlen. apply length_mapM in Hus. lia. }
  apply Forall_forall. intros i Hx. rewrite <- Hsub in Hx. apply list_elem_of_fmap_1 in Hx as (m & -> & Hin).
  exists m. pose proof Hin as [Hm _]%select_where_elem. split; [done|]. apply not_true_iff_false in Hck.
  destruct (decide (md_room_id m = roomId /\ md_owner_actor_id m = actor /\ md_state m ∈ ATTACHABLE)) as [|Hno]; [done|].
  destruct Hck. apply existsb_exists. exists m. rewrite <- list_elem_of_In. split; [done|].
  rewrite !orb_true_iff, !negb_true_iff, !bool_decide_eq_false. destruct (decide (md_room_id m = roomId)); [|tauto].
  destruct (decide (md_owner_actor_id m = actor)); tauto.
Qed.

(** A message carries the media it names: when a student's [message.add] commits, each
    of them was the student's own, of the room and in a state to be attached, and is now
    bound to this message by its event. No binding of before is lost or changed, so an
    item of media is never of two messages. *)
Theorem attachments_bound p c sid w ev w' :
  NoDup (map md_id (media_assets (db w))) ->
  @addMessage _ _ _ MediaAttachmentValidator payloads p c sid w = (Ok ev, w') ->
  db w' = db w \/
  exists messageId us, field "messageId" (JObj (payload ev)) = Some (JStr messageId)
    /\ mapM uuid_in (mediaIdsOf (JObj (payload ev))) = Some us
    /\ Forall (fun u => (exists m, m ∈ media_assets (db w) /\ attachable p (cm_roomId c) u m)
                        /\ BindingRow u (cm_roomId c) messageId (eventId ev) ∈ media_bindings (db w')) us
    /\ exists new, media_bindings (db w') = media_bindings (db w) ++ new
         /\ Forall (fun b => bd_media_id b ∉ map bd_media_id (media_bindings (db w))) new
         /\ NoDup (map bd_media_id new).
Proof.
  intros Hnd Hr. apply (@add_ok _ _ _ MediaAttachmentValidator media_laws) in Hr
    as [->|(locked & snapshot & w0 & row & Hen & Hrun)]; [by left|right].
  destruct Hrun as [_ (text & r & ms & media & t & wa & w1 & w2 & Hrt & Hlms & Hlm & Hread & Hwa & Hatt & Hw1 & _ & Hex & Hb)].
  assert (db w0 = db w) as Hdb0 by (by rewrite (en_world _ _ _ _ _ Hen)). simpl in Hatt, Hb.
  destruct (ex_fields _ _ _ _ _ _ Hex) as (_ & _ & _ & Hp). destruct (ex_db _ _ _ _ _ _ Hex) as (os & js & Hdb2).
  assert (media_bindings (db w2) = media_bindings (db w)) as Hmb by (by rewrite Hdb2, Hw1, Hdb0).
  exists (uuid_supply (uuids w0)). rewrite Hp. cbn [addedDraft d_payload].
  rewrite mediaIdsOf_payload by (by eapply readUuidArray_ok; [exact Hread|]).
  destruct (decide (media = [])) as [->|Hne].
  - exists []. split_and!; [done|done|constructor|]. exists []. unfold mediaBind in Hb. rewrite bool_decide_true in Hb by done.
    injection Hb as <-. rewrite app_nil_r. split_and!; [done|constructor|constructor].
  - rewrite <- Hdb0, <- Hwa in Hnd. destruct (mediaAssertAttachable_ok _ _ _ _ _ _ Hnd Hatt Hne) as (us & Hus & Hall).
    destruct (mediaBind_bound _ _ _ _ _ _ Hb Hne) as (us' & Hus' & [(new & Hnew & Hfresh & Hndn) Hbound _]).
    assert (us' = us) as -> by congruence. exists us. rewrite Hwa, Hdb0, Hmb in *. split_and!; [done|done| |].
    + rewrite Forall_forall in *. intros u Hu. split; [by apply Hall|by apply Hbound].
    + exists new. split_and!; [done| |done]. eapply Forall_impl; [exact Hfresh|]. intros b Hx. apply Hx.
Qed.
End Bound.

(** ** A lesson *)

Definition demoMedia : string := "77777777-7777-4777-8777-777777777777".
Definition demoLesson : world :=
  World (Database (rooms (db demoClassroom)) [] [] [] [] (sessions (db demoClassroom)) (members (db demoClassroom)) []
    [MediaRow demoMedia demoRoom demoStudent as_ready] [] no_accounts) 0 0 0 (Locals 0 1 None).
Definition demoTeacherPrincipal : AuthSession := TeacherSession demoTeacher demoTeacher.
Definition lessonCommand (n : Z) (t : CommandType) (base : option Z) (p : list (string * json)) : RoomCommand :=
  Command (numberedUuid (900000 + n)) demoRoom t "2024-01-01T00:00:00Z" base p.
(** The message of the lesson has the identifier drawn after those of the opening. *)
Definition lessonMessage : string := numberedUuid 4.
Definition lessonOpen : RoomCommand := lessonCommand 1 room_open None [].
Definition lessonAdd : RoomCommand :=
  lessonCommand 2 message_add None [("text", JStr "  Chlorophyll "); ("mentions", JArr [JStr demoNova]);
    ("mediaIds", JArr [JStr demoMedia])]%string.
Definition lessonRevise (n base : Z) : RoomCommand :=
  lessonCommand n message_revise (Some base) [("messageId", JStr lessonMessage); ("text", JStr "Chlorophyll absorbs light");
    ("replyTo", JNull); ("mentions", JArr [])]%string.
Definition lessonRetract (n base : Z) : RoomCommand :=
  lessonCommand n message_retract (Some base) [("messageId"%string, JStr lessonMessage)].
Definition lessonDispatch (p : AuthSession) (c : RoomCommand) : IO RoomEventEnvelope :=
  @dispatch _ _ _ MediaAttachmentValidator corePayloadNames p (commandJson c) None.
Definition lesson1 : world := snd (lessonDispatch demoTeacherPrincipal lessonOpen demoLesson).
Definition lesson2 : world := snd (lessonDispatch demoPrincipal lessonAdd lesson1).
Definition lesson3 : world := snd (lessonDispatch demoPrincipal (lessonRevise 3 1) lesson2).
Definition lesson4 : world := snd (lessonDispatch demoTeacherPrincipal (lessonRetract 4 2) lesson3).

(** A stale revision is told the latest one; a withdrawn message is gone. *)
Example lesson_run :
  map (fun e => (ev_type e, ev_revision e, ev_operation e)) (events (db lesson4))
    = [("room.opened", 1, add); ("message.added", 1, add); ("message.revised", 2, revise); ("message.retracted", 3, retract)]%string
  /\ media_bindings (db lesson4) = [BindingRow demoMedia demoRoom lessonMessage (ev_event_id (nth 1 (events (db lesson4)) (EventRow "" "" 0 0 "" "" human teacher 0 add 0 0 "" "" JNull)))]
  /\ fst (lessonDispatch demoPrincipal (lessonRevise 5 1) lesson3) = Err (RoomError REVISION_CONFLICT (Some 2))
  /\ fst (lessonDispatch demoPrincipal (lessonRevise 5 3) lesson4) = Err (roomError MESSAGE_NOT_FOUND).
Proof. vm_compute. done. Qed.

Lemma demoLesson_ok : classroom_ok (db demoLesson).
Proof.
  split.
  - apply ledger_ok_fresh; try done; [apply NoDup_singleton|]. apply Forall_singleton. vm_compute. done.
  - intros rid mid. apply thread_ok_nil.
Qed.

(** No event of [w] has an identifier of the supply between two counts. *)
Definition unusedCheck (es : list event_row) (a b : nat) : bool :=
  forallb (fun n => forallb (fun e => negb (bool_decide (strField "messageId" (ev_payload e) = Some (uuid_supply n)))) es)
    (seq a (b - a)).
Lemma unusedCheck_ok w w' : unusedCheck (events (db w)) (uuids w) (uuids w') = true -> unused_ids w w'.
Proof.
  unfold unusedCheck. rewrite forallb_forall. intros Hall n e Hn Hin. specialize (Hall n).
  rewrite forallb_forall in Hall. specialize (Hall ltac:(apply in_seq; lia) e ltac:(by apply list_elem_of_In)).
  by split_bools.
Qed.

Abbreviation lesson_step := (@classroom_step _ _ _ MediaAttachmentValidator corePayloadNames).
Lemma lesson_step_run p c w : unusedCheck (events (db w)) (uuids w) (uuids (snd (lessonDispatch p c w))) = true ->
  lesson_step w (snd (lessonDispatch p c w)).
Proof.
  intros Hu. unfold lessonDispatch in *. destruct (dispatch _ _ _ _ w) as [r w'] eqn:E. eapply step_command; [exact E|].
  by apply unusedCheck_ok.
Qed.
Lemma lesson_steps : lesson_step demoLesson lesson1 /\ lesson_step lesson1 lesson2 /\ lesson_step lesson2 lesson3
  /\ lesson_step lesson3 lesson4.
Proof. split_and!; apply lesson_step_run; vm_compute; reflexivity. Qed.
Lemma lesson_sound w w' : lesson_step w w' -> classroom_ok (db w) -> classroom_ok (db w').
Proof. apply (classroom_step_sound concrete_postgres_laws media_laws). Qed.

Lemma messages_reachable_sound_witness :
  length (events (db lesson4)) = 4%nat /\ classroom_ok (db lesson4).
Proof.
  split; [vm_compute; reflexivity|].
  apply (messages_reachable_sound concrete_postgres_laws media_laws corePayloadNames demoLesson lesson4);
    [|exact demoLesson_ok].
  destruct lesson_steps as (H1 & H2 & H3 & H4). 
  exact (rtc_l _ _ _ _ H1 (rtc_l _ _ _ _ H2 (rtc_l _ _ _ _ H3 (rtc_once _ _ H4)))).
Defined.

Lemma lesson2_ok : classroom_ok (db lesson2).
Proof. destruct lesson_steps as (H1 & H2 & _). eapply lesson_sound, lesson_sound, demoLesson_ok; eassumption. Qed.

Definition lessonEdit (base : Z) : result error RoomEventEnvelope * world :=
  @route _ _ _ MediaAttachmentValidator corePayloadNames demoPrincipal (lessonRevise 3 base) None lesson2.
Lemma edits_compare_and_set_witness :
  (exists ev, fst (lessonEdit 1) = Ok ev /\ edited revise demoPrincipal (lessonRevise 3 1) lesson2 (snd (lessonEdit 1)) ev)
  /\ fst (lessonEdit 2) = Err (RoomError REVISION_CONFLICT (Some 1)).
Proof.
  split; [|vm_compute; reflexivity].
  destruct (lessonEdit 1) as [r w'] eqn:E. cbn [fst snd]. unfold lessonEdit in E.
  destruct (edits_compare_and_set concrete_postgres_laws media_laws corePayloadNames revise demoPrincipal (lessonRevise 3 1)
    None lesson2 r w' lesson2_ok eq_refl E) as [Hsame|Hedit]; [|exact Hedit].
  exfalso. pose proof (f_equal (fun x => length (events (db (snd x)))) E) as Hl. cbn [snd] in Hl. rewrite Hsame in Hl.
  vm_compute in Hl. discriminate.
Defined.

Definition lessonAdded : result error RoomEventEnvelope * world :=
  @addMessage _ _ _ MediaAttachmentValidator corePayloadNames demoPrincipal lessonAdd None lesson1.
Lemma attachments_bound_witness :
  match fst lessonAdded with
  | Ok ev => exists messageId us, field "messageId" (JObj (payload ev)) = Some (JStr messageId)
      /\ mapM uuid_in (mediaIdsOf (JObj (payload ev))) = Some us /\ us = [demoMedia]
      /\ Forall (fun u => BindingRow u demoRoom messageId (eventId ev) ∈ media_bindings (db (snd lessonAdded))) us
  | Err _ => False
  end.
Proof.
  destruct lessonAdded as [[ev|e] w'] eqn:E; [|apply (f_equal (fun x => is_ok (fst x))) in E; vm_compute in E; discriminate].
  assert (NoDup (map md_id (media_assets (db lesson1)))) as Hnd by (apply (bool_decide_eq_true_1 _); vm_compute; reflexivity).
  unfold lessonAdded in E.
  destruct (attachments_bound corePayloadNames demoPrincipal lessonAdd None lesson1 ev w' Hnd E)
    as [Hsame|(mid & us & Hm & Hus & Hall & _)].
  - exfalso. pose proof (f_equal (fun x => length (events (db (snd x)))) E) as Hl. cbn [snd] in Hl. rewrite Hsame in Hl.
    vm_compute in Hl. discriminate.
  - exists mid, us. split_and!; [exact Hm|exact Hus| |].
    + pose proof (f_equal (fun x => match fst x with Ok ev => mapM uuid_in (mediaIdsOf (JObj (payload ev))) | Err _ => None end) E) as Hl.
      cbn [fst] in Hl. rewrite Hus in Hl. vm_compute in Hl. by injection Hl.
    + eapply Forall_impl; [exact Hall|]. intros u [_ Hb]. exact Hb.
Defined.
