(* ===== verification/SeatCodes.v ===== *)
(** * Room codes and seat codes: [apps/server/src/modules/rooms/seat-codes.ts]

    Codes are drawn from an alphabet; what is stored of them is a keyed digest that
    begins with the version of its key (the pepper), so keys can be exchanged while old
    codes keep working. Bytes are the characters of a string. The keyed digest is a
    parameter. Codes are ASCII, as the request's schema demands, where [toUpperCase] is
    [upper]. *)
From S2P Require Import Prelude Text JsDate JsValue Contracts Database Concrete Authorization.
#[local] Set Warnings "-register-all,-clear-no-such-hyp,-level-tolerance".

Definition CODE_ALPHABET : string := "ABCDEFGHJKLMNPQRSTUVWXYZ23456789".
Definition inAlphabet (c : ascii) : bool := bool_decide (c ∈ list_ascii_of_string CODE_ALPHABET).
Definition VERSION_BYTES : Z := 2.
Definition DIGEST_BYTES : Z := 32.
Definition STORED_HASH_BYTES : Z := VERSION_BYTES + DIGEST_BYTES.
Definition MINIMUM_PEPPER_BYTES : Z := 32.

(** [createHmac("sha256", key)] and the random numbers of the platform. *)
Class Hmac : Type := { hmac_sha256 : string -> string -> string }.
Record HmacLaws `{Hmac} : Prop := {
  hmac_length k v : Z.of_nat (String.length (hmac_sha256 k v)) = DIGEST_BYTES;
}.
Class Random : Type := {
  random_int : Z -> nat -> Z;         (** [randomInt(max)], the [n]th draw *)
  random_token : nat -> string;       (** [randomBytes(32).toString("base64url")] *)
}.
Record RandomLaws `{Random} : Prop := {
  random_int_range max n : 0 < max -> 0 <= random_int max n < max;
  random_token_length n : utf16Length (random_token n) = 43;
}.

(** ** Drawing *)

Section Draw.
Context `{Random}.

(** A draw takes the next number of the supply of the identifiers. *)
Definition draw {A} (f : nat -> A) : IO A := fun w =>
  (Ok (f (uuids w)), World (db w) (ticks w) (txs w) (S (uuids w)) (tx w)).
Definition opaqueToken : IO string := draw random_token.
Definition codeChar (n : nat) : ascii :=
  default "A"%char (String.get (Z.to_nat (random_int (Z.of_nat (String.length CODE_ALPHABET)) n)) CODE_ALPHABET).
Definition makeCode (length : nat) : IO string :=
  cs ← mapM (fun _ : nat => draw codeChar) (seq 0 length);
  mret (string_of_list_ascii cs).
Definition makeRoomCode : IO string := makeCode 6.
Definition makeSeatCode : IO string := makeCode 10.
End Draw.

(** ** Hashing *)

Definition versionBad (version : Z) : bool := (version <? 1) || (65535 <? version).
Definition versionBytes (version : Z) : string :=
  String (chr (version / 256)) (String (chr (version mod 256)) EmptyString).
(** [stored.readUInt16BE(0)]. *)
Definition storedVersion (stored : string) : Z :=
  match stored with
  | String a (String b _) => 256 * Text.code a + Text.code b
  | _ => 0
  end.
Definition normalCode (value : string) : string := upper (js_trim value).

(** A hasher that has been constructed: its own copies of the peppers, in the order of
    the map they came in. *)
Record CodeHasher : Type := Hasher {
  ch_currentVersion : Z;
  ch_peppers : list (Z * string);
}.
Fixpoint pepperOf (version : Z) (l : list (Z * string)) : option string :=
  match l with
  | [] => None
  | (v, p) :: l => if decide (v = version) then Some p else pepperOf version l
  end.
(** [#versions]. *)
Definition versionsOf (h : CodeHasher) : list Z := sort_by Z.leb (map fst (ch_peppers h)).

(** The walk of the constructor over the entries of the map. *)
Fixpoint checkPeppers (fingerprints : list string) (l : list (Z * string)) : result error unit :=
  match l with
  | [] => Ok tt
  | (version, pepper) :: l =>
      if versionBad version then Err (Failure "CODE_PEPPER_VERSION_INVALID") else
      if Z.of_nat (String.length pepper) <? MINIMUM_PEPPER_BYTES then Err (Failure "CODE_PEPPER_TOO_SHORT") else
      if bool_decide (pepper ∈ fingerprints) then Err (Failure "CODE_PEPPER_DUPLICATE") else
      checkPeppers (fingerprints ++ [pepper]) l
  end.
Definition newCodeHasher (currentVersion : Z) (peppers : list (Z * string)) : result error CodeHasher :=
  if versionBad currentVersion then Err (Failure "CODE_PEPPER_VERSION_INVALID") else
  _ ← checkPeppers [] peppers;
  match pepperOf currentVersion peppers with
  | None => Err (Failure "CODE_PEPPER_NOT_CONFIGURED")
  | Some _ => Ok (Hasher currentVersion peppers)
  end.

Section Hash.
Context `{Hmac}.

Definition hashWith (h : CodeHasher) (version : Z) (value : string) : result error string :=
  match pepperOf version (ch_peppers h) with
  | None => Err (Failure "CODE_PEPPER_NOT_CONFIGURED")
  | Some pepper => Ok (versionBytes version ++ hmac_sha256 pepper (normalCode value))%string
  end.
Definition hash (h : CodeHasher) (value : string) : result error string := hashWith h (ch_currentVersion h) value.
Definition candidateHashes (h : CodeHasher) (value : string) : result error (list string) :=
  mapM (fun v => hashWith h v value) (versionsOf h).
Definition verify (h : CodeHasher) (value stored : string) : bool :=
  if negb (Z.of_nat (String.length stored) =? STORED_HASH_BYTES) then false else
  match hashWith h (storedVersion stored) value with
  | Ok s => bool_decide (stored = s)
  | Err _ => false                              (* [!this.#peppers.has(version)] *)
  end.
End Hash.

(** ** Laws *)

(** A code of the alphabet is its own normal form. *)
Definition begins (c : ascii) (p : list ascii) : bool := match p with a :: _ => bool_decide (a = c) | [] => true end.
Lemma strip_spaces_stuck fuel spaces l :
  match l with c :: _ => existsb (begins c) spaces = false | [] => existsb (fun p => bool_decide (p = [])) spaces = false end ->
  strip_spaces fuel spaces l = l.
Proof.
  intros Hl. destruct fuel as [|fuel]; [done|]. simpl.
  assert (first_some (fun p => strip_prefix p l) spaces = None) as ->; [|done].
  induction spaces as [|p ps IH]; [done|]. simpl.
  destruct l as [|c l]; simpl in Hl; apply orb_false_iff in Hl as [Hp Hps].
  - destruct p; [by rewrite bool_decide_true in Hp|]. simpl. by apply IH.
  - destruct p as [|a p]; [done|]. simpl in *. split_bools. rewrite decide_False by done. by apply IH.
Qed.
Lemma alphabet_facts : forallb (fun c => negb (existsb (begins c) js_spaces) && negb (existsb (begins c) (map (@rev ascii) js_spaces))
  && bool_decide (upper_char c = c)) (list_ascii_of_string CODE_ALPHABET) = true.
Proof. vm_compute. done. Qed.
Lemma inAlphabet_facts c : inAlphabet c = true ->
  existsb (begins c) js_spaces = false /\ existsb (begins c) (map (@rev ascii) js_spaces) = false /\ upper_char c = c.
Proof.
  intros Hc. apply bool_decide_eq_true, list_elem_of_In in Hc. pose proof alphabet_facts as Hall.
  rewrite forallb_forall in Hall. specialize (Hall _ Hc). by split_bools.
Qed.
Lemma letters_normal s : forallb inAlphabet (list_ascii_of_string s) = true -> normalCode s = s.
Proof.
  intros Hs. rewrite forallb_forall in Hs. setoid_rewrite <- list_elem_of_In in Hs. unfold normalCode, js_trim.
  rewrite (strip_spaces_stuck _ js_spaces), (strip_spaces_stuck _ (map (@rev ascii) js_spaces)), rev_involutive,
    string_of_list_ascii_of_string.
  - unfold upper, map_string. rewrite <- (string_of_list_ascii_of_string s) at 2. f_equal.
    assert (forall l, (forall c, c ∈ l -> inAlphabet c = true) -> map upper_char l = l) as Hmap; [|by apply Hmap].
    induction l as [|c l IH]; intros Hl; [done|]. simpl. rewrite IH by (intros x Hx; apply Hl; by right).
    f_equal. apply inAlphabet_facts, Hl. by left.
  - destruct (rev (list_ascii_of_string s)) as [|c l] eqn:E; [by vm_compute|]. apply inAlphabet_facts, Hs.
    apply list_elem_of_In, in_rev. rewrite E. by left.
  - destruct (list_ascii_of_string s) as [|c l] eqn:E; [by vm_compute|]. apply inAlphabet_facts, Hs. by left.
Qed.

(** A hasher of the constructor, whose map has every key once. *)
Record hasher_ok (h : CodeHasher) : Prop := {
  ho_keys : NoDup (map fst (ch_peppers h));
  ho_versions : Forall (fun p => 1 <= fst p <= 65535) (ch_peppers h);
  ho_current : is_Some (pepperOf (ch_currentVersion h) (ch_peppers h));
}.

Lemma checkPeppers_versions fs l : checkPeppers fs l = Ok tt -> Forall (fun p => 1 <= fst p <= 65535) l.
Proof.
  revert fs. induction l as [|[v p] l IH]; intros fs; simpl; [done|].
  destruct (versionBad v) eqn:Hv; [done|]. destruct (_ <? _); [done|]. destruct (bool_decide _); [done|].
  intros Hl%IH. constructor; [|done]. unfold versionBad in Hv. simpl. split_bools. lia.
Qed.
Lemma newCodeHasher_ok current peppers h :
  NoDup (map fst peppers) -> newCodeHasher current peppers = Ok h -> hasher_ok h /\ h = Hasher current peppers.
Proof.
  unfold newCodeHasher. intros Hnd. destruct (versionBad current); [done|].
  destruct (checkPeppers [] peppers) as [[]|] eqn:Hc; [|done]. simpl.
  destruct (pepperOf current peppers) eqn:Hp; [|done]. intros [= <-]. split; [|done].
  constructor; [done|by eapply checkPeppers_versions|by eexists].
Qed.

Lemma pepperOf_elem v p l : pepperOf v l = Some p -> (v, p) ∈ l.
Proof. induction l as [|[v' p'] l IH]; simpl; [done|]. case_decide; [intros [= ->]; subst; by left|right; auto]. Qed.
Lemma elem_pepperOf v p l : NoDup (map fst l) -> (v, p) ∈ l -> pepperOf v l = Some p.
Proof.
  induction l as [|[v' p'] l IH]; simpl; [by intros _ ?%not_elem_of_nil|]. intros [Hno Hnd]%NoDup_cons Hin.
  apply elem_of_cons in Hin as [[= -> ->]|Hin]; [by rewrite decide_True|].
  rewrite decide_False; [by apply IH|]. intros ->. apply Hno. by apply (list_elem_of_fmap_2 fst _ (v, p)).
Qed.

Lemma code_chr x : 0 <= x < 256 -> Text.code (chr x) = x.
Proof. intros Hx. unfold Text.code, chr. rewrite N_ascii_embedding; lia. Qed.
Lemma versionBytes_app v s :
  (versionBytes v ++ s)%string = String (chr (v / 256)) (String (chr (v mod 256)) s).
Proof. reflexivity. Qed.
Lemma storedVersion_bytes v s : 0 <= v <= 65535 -> storedVersion (versionBytes v ++ s) = v.
Proof.
  intros Hv. rewrite versionBytes_app. cbn [storedVersion]. pose proof (Z.mod_pos_bound v 256 ltac:(lia)). pose proof (Z.div_mod v 256 ltac:(lia)).
  rewrite (code_chr (v / 256)) by (split; [apply Z.div_pos; lia|apply Z.div_lt_upper_bound; lia]).
  rewrite (code_chr (v mod 256)) by lia. lia.
Qed.

Section HashLaws.
Context `{Hmac} (HL : HmacLaws).

Lemma hashWith_length h v value s : hashWith h v value = Ok s -> Z.of_nat (String.length s) = STORED_HASH_BYTES.
Proof.
  unfold hashWith. destruct (pepperOf _ _) as [p|]; [|done]. intros [= <-]. rewrite versionBytes_app.
  pose proof (hmac_length HL p (normalCode value)) as Hl. unfold STORED_HASH_BYTES, VERSION_BYTES. cbn [String.length]. lia.
Qed.

(** What is verified: a digest of the code under one of the peppers, with its version. *)
Lemma verify_stored h value stored : hasher_ok h ->
  verify h value stored = true <->
  exists v, v ∈ map fst (ch_peppers h) /\ hashWith h v value = Ok stored.
Proof.
  intros Hok. unfold verify. split.
  - destruct (negb _) eqn:Hl; [done|]. destruct (hashWith _ _ _) as [s|] eqn:Hs; [|done]. intros Heq. split_bools. subst s.
    exists (storedVersion stored). split; [|done]. unfold hashWith in Hs. destruct (pepperOf _ _) eqn:Hp; [|done].
    apply pepperOf_elem in Hp. by apply (list_elem_of_fmap_2 fst _ (_, _)) in Hp.
  - intros (v & Hv & Hs). rewrite (hashWith_length _ _ _ _ Hs), Z.eqb_refl. simpl.
    assert (storedVersion stored = v) as ->.
    { unfold hashWith in Hs. destruct (pepperOf _ _); [|done]. injection Hs as <-.
      apply list_elem_of_fmap_1 in Hv as (p & -> & Hp). pose proof (ho_versions _ Hok) as Hall.
      rewrite Forall_forall in Hall. specialize (Hall _ Hp). apply storedVersion_bytes. lia. }
    rewrite Hs. by apply bool_decide_eq_true.
Qed.

Lemma hashWith_total h v value : hasher_ok h -> v ∈ map fst (ch_peppers h) -> exists s, hashWith h v value = Ok s.
Proof.
  intros Hok (p & -> & Hp)%list_elem_of_fmap_1. unfold hashWith. destruct p as [v p]. simpl.
  rewrite (elem_pepperOf _ _ _ (ho_keys _ Hok) Hp). by eexists.
Qed.
Lemma current_version h : hasher_ok h -> ch_currentVersion h ∈ map fst (ch_peppers h).
Proof.
  intros Hok. destruct (ho_current _ Hok) as [p Hp]. apply pepperOf_elem in Hp.
  by apply (list_elem_of_fmap_2 fst _ (_, _)) in Hp.
Qed.
(** A constructed hasher always hashes. *)
Lemma hash_total h value : hasher_ok h -> exists s, hash h value = Ok s.
Proof. intros Hok. by apply hashWith_total, current_version. Qed.

Lemma mapM_total {E A B} (f : A -> result E B) l : (forall x, x ∈ l -> exists y, f x = Ok y) -> exists ys, mapM f l = Ok ys.
Proof.
  induction l as [|x l IH]; intros Hf; [by eexists|]. destruct (Hf x ltac:(by left)) as [y Hy].
  destruct IH as [ys Hys]; [intros; apply Hf; by right|]. exists (y :: ys). simpl. by rewrite Hy; simpl; rewrite Hys.
Qed.
Lemma mapM_result {E A B} (f : A -> result E B) l ys : mapM f l = Ok ys -> Forall2 (fun x y => f x = Ok y) l ys.
Proof.
  revert ys. induction l as [|x l IH]; intros ys; simpl; [intros [= <-]; constructor|].
  destruct (f x) as [y|] eqn:Hy; [|done]. simpl. destruct (mapM f l) as [zs|]; [|done]. intros [= <-].
  constructor; [done|by apply IH].
Qed.

Lemma candidateHashes_total h value : hasher_ok h -> exists l, candidateHashes h value = Ok l.
Proof.
  intros Hok. apply mapM_total. intros v Hv. apply hashWith_total; [done|]. by apply sort_by_elem in Hv.
Qed.
(** The candidates of a value are what verifies it. *)
Lemma candidates_verify h value l s : hasher_ok h -> candidateHashes h value = Ok l ->
  s ∈ l <-> verify h value s = true.
Proof.
  intros Hok Hl%mapM_result. rewrite verify_stored by done. split.
  - intros (i & Hi)%list_elem_of_lookup_1. destruct (Forall2_lookup_r _ _ _ _ _ Hl Hi) as (v & Hv & Hs).
    exists v. split; [|done]. apply (sort_by_elem Z.leb). apply list_elem_of_lookup. exists i. exact Hv.
  - intros (v & Hv & Hs). apply (sort_by_elem Z.leb), list_elem_of_lookup_1 in Hv as (i & Hi).
    destruct (Forall2_lookup_l _ _ _ _ _ Hl Hi) as (s' & Hi' & Hs'). assert (s' = s) as -> by congruence.
    apply list_elem_of_lookup. by exists i.
Qed.

(** The codes of one hasher under another that still has the pepper. *)
Lemma verify_rotated h h' value stored value' :
  hasher_ok h -> hasher_ok h' -> ch_peppers h ⊆ ch_peppers h' ->
  hash h value = Ok stored ->
  (forall pepper, hmac_sha256 pepper (normalCode value') = hmac_sha256 pepper (normalCode value) ->
     normalCode value' = normalCode value) ->
  verify h' value' stored = true <-> normalCode value' = normalCode value.
Proof.
  intros Hok Hok' Hsub Hh Hinj. destruct (ho_current _ Hok) as [p Hp]. unfold hash, hashWith in Hh. rewrite Hp in Hh.
  injection Hh as <-. pose proof (elem_pepperOf _ _ _ (ho_keys _ Hok') (Hsub _ (pepperOf_elem _ _ _ Hp))) as Hp'.
  assert (1 <= ch_currentVersion h <= 65535) as Hr.
  { pose proof (ho_versions _ Hok) as Hall. rewrite Forall_forall in Hall. by apply (Hall _ (pepperOf_elem _ _ _ Hp)). }
  rewrite verify_stored by done. split.
  - intros (v & Hv & Hs). unfold hashWith in Hs. destruct (pepperOf v (ch_peppers h')) as [q|] eqn:Hq; [|done].
    assert (1 <= v <= 65535) as Hr'.
    { pose proof (ho_versions _ Hok') as Hall. rewrite Forall_forall in Hall. by apply (Hall _ (pepperOf_elem _ _ _ Hq)). }
    apply Ok_inj in Hs as Hs0. assert (v = ch_currentVersion h) as ->.
    { rewrite <- (storedVersion_bytes v (hmac_sha256 q (normalCode value'))) by lia.
      rewrite <- (storedVersion_bytes (ch_currentVersion h) (hmac_sha256 p (normalCode value))) by lia.
      rewrite !versionBytes_app in *. simpl. congruence. }
    assert (q = p) as -> by congruence. apply (Hinj p). rewrite !versionBytes_app in Hs0. congruence.
  - intros Heq. exists (ch_currentVersion h). unfold hashWith. rewrite Hp', Heq. split; [|done].
    apply pepperOf_elem in Hp'. by apply (list_elem_of_fmap_2 fst _ (_, _)) in Hp'.
Qed.

(** Exchanging the peppers keeps the codes alive: what a hasher has stored for a code,
    it and every later hasher that still has its pepper accept for that code; with the
    digest free of collisions on the two codes, for no other code. *)
Theorem codes_survive_rotation h h' value stored value' :
  hasher_ok h -> hasher_ok h' -> ch_peppers h ⊆ ch_peppers h' ->
  hash h value = Ok stored ->
  (forall pepper, hmac_sha256 pepper (normalCode value') = hmac_sha256 pepper (normalCode value) ->
     normalCode value' = normalCode value) ->
  verify h' value' stored = true <-> normalCode value' = normalCode value.
Proof. apply verify_rotated. Qed.
End HashLaws.

(** ** Concrete parameters *)

(** A digest that writes the value into 32 bytes. *)
Definition padded (v : string) : string := string_of_list_ascii (take 32 (list_ascii_of_string v ++ replicate 32 (chr 0))).
#[global] Instance concrete_hmac : Hmac := { hmac_sha256 _ v := padded v }.
Lemma length_string_of_list l : String.length (string_of_list_ascii l) = length l.
Proof. induction l as [|c l IH]; simpl; [done|]. by f_equal. Qed.
Lemma concrete_hmac_laws : HmacLaws.
Proof.
  constructor. intros k v. simpl. unfold padded. rewrite length_string_of_list, length_take, length_app, length_replicate.
  unfold DIGEST_BYTES. lia.
Qed.
Lemma padded_inj a b : (String.length a <= 32)%nat -> String.length a = String.length b -> padded a = padded b -> a = b.
Proof.
  intros Hl Hab Hp. unfold padded in Hp. apply (f_equal list_ascii_of_string) in Hp. rewrite !list_ascii_of_string_of_list_ascii in Hp.
  assert (forall s, length (list_ascii_of_string s) = String.length s) as Hlen.
  { intros s. by rewrite <- length_string_of_list, string_of_list_ascii_of_string. }
  rewrite !take_app, (take_ge (list_ascii_of_string a)), (take_ge (list_ascii_of_string b)) in Hp by (rewrite Hlen; lia). apply app_inj_1 in Hp as [Hp _]; [|rewrite Hlen, Hab; symmetry; apply Hlen].
  by rewrite <- (string_of_list_ascii_of_string a), Hp, string_of_list_ascii_of_string.
Qed.

(** A counter, and tokens that show it. *)
#[global] Instance concrete_random : Random := {
  random_int max n := Z.of_nat n mod max;
  random_token n := ("0123456789012345678901234567890" ++ string_of_list_ascii (map (digit_at (Z.of_nat n)) [11;10;9;8;7;6;5;4;3;2;1;0]))%string;
}.
Lemma utf16Length_app a b : utf16Length (a ++ b) = utf16Length a + utf16Length b.
Proof.
  unfold utf16Length, codePoints. rewrite list_ascii_of_string_app, !List.filter_app, !length_app. lia.
Qed.
Lemma utf16Length_digits n ks : utf16Length (string_of_list_ascii (map (digit_at n) ks)) = Z.of_nat (length ks).
Proof.
  induction ks as [|k ks IH]; [done|]. change (utf16Length (String (digit_at n k) EmptyString ++ string_of_list_ascii (map (digit_at n) ks)) = Z.of_nat (length (k :: ks)))%string.
  rewrite utf16Length_app, IH. assert (utf16Length (String (digit_at n k) EmptyString) = 1) as ->; [|simpl; lia].
  pose proof (digit_at_cases n k) as Hc. generalize dependent (digit_at n k). intros c Hc.
  assert (Forall (fun c => utf16Length (String c EmptyString) = 1) (map digit_char [0;1;2;3;4;5;6;7;8;9])) as Hall by repeat constructor.
  rewrite Forall_forall in Hall. by apply Hall.
Qed.
Lemma concrete_random_laws : RandomLaws.
Proof.
  constructor.
  - intros max n Hm. by apply Z.mod_pos_bound.
  - intros n. unfold random_token, concrete_random. by rewrite utf16Length_app, utf16Length_digits.
Qed.

Definition demoPeppers : list (Z * string) :=
  [(1, "first-pepper-of-thirty-two-bytes"); (2, "other-pepper-of-thirty-two-bytes")]%string.
Definition demoOldHasher : CodeHasher := Hasher 1 (take 1 demoPeppers).
Definition demoHasher : CodeHasher := Hasher 2 demoPeppers.
Lemma demoOldHasher_ok : hasher_ok demoOldHasher.
Proof. apply (newCodeHasher_ok 1 (take 1 demoPeppers)); [|done]. by apply (bool_decide_unpack _). Qed.
Lemma demoHasher_ok : hasher_ok demoHasher.
Proof. apply (newCodeHasher_ok 2 demoPeppers); [|done]. by apply (bool_decide_unpack _). Qed.

(** A code printed before the second pepper came, typed in small letters after it. *)
Definition demoStored : string := match hash demoOldHasher "ABCDEFGH23" with Ok s => s | Err _ => ""%string end.
Lemma codes_survive_rotation_witness : verify demoHasher " abcdefgh23" demoStored = true.
Proof.
  apply (codes_survive_rotation concrete_hmac_laws demoOldHasher demoHasher "ABCDEFGH23" demoStored " abcdefgh23").
  - exact demoOldHasher_ok.
  - exact demoHasher_ok.
  - apply sublist_subseteq, sublist_take.
  - vm_compute. reflexivity.
  - intros _ _. vm_compute. reflexivity.
  - vm_compute. reflexivity.
Defined.
