(* ===== verification/Sessions.v ===== *)
(** * Signing in: [apps/server/src/modules/auth]

    [crypto.ts], [session-service.ts] and [magic-link-service.ts]: opaque tokens of which
    only a digest is stored, the session of a token, and the links by which teachers sign
    in. The mail is an answer of [request]: whom it goes to and the link. *)
From S2P Require Import Prelude Text JsDate JsValue Contracts Database Concrete Ledger Authorization SeatCodes.
#[local] Set Warnings "-register-all,-clear-no-such-hyp,-level-tolerance".

Definition SESSION_DURATION_MS : Z := 8 * 60 * 60 * 1000.
Definition LINK_DURATION_MS : Z := 15 * 60 * 1000.

(** A statement on the pool is a transaction of its own; it sees that transaction's time. *)
Definition poolStatement `{Environment} {A} (f : Z -> database -> A * database) : IO A := fun w =>
  let '(a, d) := f (db_now (txs w)) (db w) in
  (Ok a, World d (ticks w) (S (txs w)) (uuids w) (tx w)).

(** [!rawToken || rawToken.length > 512]. *)
Definition tokenOf (rawToken : option string) : option string :=
  match rawToken with
  | None | Some EmptyString => None
  | Some t => if 512 <? utf16Length t then None else Some t
  end.

Section Sessions.
Context `{Schemas} `{Postgres} `{Environment} `{Random}.

Definition tokenHash (value : string) : string := sha256_hex value.
Definition ofToken (hash : string) (s : session_row) : bool := bool_decide (ss_token_hash s = hash).

Definition getSessionId (rawToken : option string) : IO (option string) :=
  match tokenOf rawToken with
  | None => mret None
  | Some t =>
      rows ← poolStatement (fun now d =>
        (select_where (fun s => ofToken (tokenHash t) s && liveSession now s) (sessions d), d));
      mret (ss_id <$> head rows)
  end.

(** [auth_session s LEFT JOIN room_member m LEFT JOIN classroom_room r]. *)
Definition sessionMember (s : session_row) (d : database) : option member_row :=
  find (fun m => bool_decide (Some (mb_id m) = ss_room_member_id s)) (members d).
Definition memberRoom (m : member_row) (d : database) : option room_row :=
  find (fun r => bool_decide (rm_id r = mb_room_id m)) (rooms d).
Definition sessionPrincipal (s : session_row) (d : database) : option AuthSession :=
  match ss_kind s, ss_teacher_id s with
  | teacher_principal, Some t => Some (TeacherSession t t)
  | _, _ =>
      m ← sessionMember s d;
      r ← memberRoom m d;
      if bool_decide (mb_pseudonym m = ""%string) then None
      else Some (StudentSession (mb_room_id m) (mb_id m) (mb_actor_id m) (mb_pseudonym m) (rm_nova_actor_id r))
  end.
Definition INVALID_AUTH_SESSION : error := Failure "INVALID_AUTH_SESSION".
Definition getSession (rawToken : option string) : IO (option AuthSession) :=
  match tokenOf rawToken with
  | None => mret None
  | Some t =>
      row ← poolStatement (fun now d =>
        (s ← head (select_where (fun s => ofToken (tokenHash t) s && liveSession now s) (sessions d));
         sessionPrincipal s d, d));
      match row with
      | None => mret None
      | Some p => throw_if (negb (sessionValid p)) INVALID_AUTH_SESSION;; mret (Some p)
      end
  end.

Definition withRevoked (t : Z) (s : session_row) : session_row :=
  SessionRow (ss_id s) (ss_token_hash s) (ss_kind s) (ss_teacher_id s) (ss_room_member_id s) (ss_expires_at s) (Some t).
Definition isOpen (s : session_row) : bool := bool_decide (ss_revoked_at s = None).
Definition revoke (rawToken : option string) : IO unit :=
  match tokenOf rawToken with
  | None => mret tt
  | Some t => poolStatement (fun now d =>
      (tt, set_sessions (update_where (fun s => ofToken (tokenHash t) s && isOpen s) (withRevoked now) (sessions d)) d))
  end.

(** [INSERT INTO auth_session] with its constraints. *)
Definition insertSession (s : session_row) (d : database) : option database :=
  _ ← guardO (negb (existsb (fun x => bool_decide (ss_id x = ss_id s) || bool_decide (ss_token_hash x = ss_token_hash s))
                      (sessions d))
              && match ss_teacher_id s with
                 | Some t => bool_decide (t ∈ map fst (teachers (accounts d))) | None => true end
              && match ss_room_member_id s with
                 | Some m => bool_decide (m ∈ map mb_id (members d)) | None => true end);
  Some (set_sessions (sessions d ++ [s]) d).
Definition SESSION_REFUSED : error := Failure "duplicate key value violates unique constraint".

(** ** [MagicLinkService] *)

Definition set_links (l : list magic_link_row) (d : database) : database :=
  set_accounts (Accounts (teachers (accounts d)) l (room_codes (accounts d)) (policies (accounts d))) d.
Definition insertLink (l : magic_link_row) (d : database) : option database :=
  _ ← guardO (negb (existsb (fun x => bool_decide (ml_id x = ml_id l) || bool_decide (ml_token_hash x = ml_token_hash l))
                      (magic_links (accounts d))));
  Some (set_links (magic_links (accounts d) ++ [l]) d).
(** The link: an opaque token needs no escaping in a query. *)
Definition linkUrl (publicBaseOrigin token : string) : string :=
  (publicBaseOrigin ++ "/v1/auth/teacher/magic-link/consume?token=" ++ token)%string.

Definition requestLink (publicBaseOrigin email : string) : IO (option (string * string)) :=
  token ← opaqueToken;
  now ← validNow;
  id ← randomUUID;
  createdAt ← validNow;
  teacher ← query (fun d => find (fun t => bool_decide (snd t = email)) (teachers (accounts d)));
  match teacher with
  | None => mret None
  | Some (teacherId, _) =>
      execute_or SESSION_REFUSED (insertLink (MagicLinkRow id teacherId (tokenHash token) (now + LINK_DURATION_MS) None));;
      mret (Some (email, linkUrl publicBaseOrigin token))
  end.

Definition consumable (hash : string) (now : Z) (l : magic_link_row) : bool :=
  bool_decide (ml_token_hash l = hash) && bool_decide (ml_consumed_at l = None) && (now <? ml_expires_at l).
Definition withConsumed (t : Z) (l : magic_link_row) : magic_link_row :=
  MagicLinkRow (ml_id l) (ml_teacher_id l) (ml_token_hash l) (ml_expires_at l) (Some t).

Definition consumeBody (rawToken : string) : IO (option string) :=
  now ← validNow;
  consumed ← query (fun d => select_where (consumable (tokenHash rawToken) now) (magic_links (accounts d)));
  execute (fun d => set_links (update_where (consumable (tokenHash rawToken) now) (withConsumed now)
                                 (magic_links (accounts d))) d);;
  match consumed with
  | [] => mret None
  | l :: _ =>
      sessionToken ← opaqueToken;
      sessionId ← randomUUID;
      until ← validNow;
      createdAt ← validNow;
      execute_or SESSION_REFUSED (insertSession (SessionRow sessionId (tokenHash sessionToken) teacher_principal
        (Some (ml_teacher_id l)) None (until + SESSION_DURATION_MS) None));;
      mret (Some sessionToken)
  end.
Definition consumeLink (rawToken : string) : IO (option string) :=
  match tokenOf (Some rawToken) with
  | None => mret None
  | Some t => inTransaction (consumeBody t)
  end.
End Sessions.
