(* ===== verification/Rooms.v ===== *)
(** * Rooms and seats: [apps/server/src/modules/rooms/room-service.ts]

    A teacher creates a room with four seats; whoever has the code of the room and of a
    seat takes the seat, from whoever has it; members and the owner read the room. The
    readers of [packages/contracts/src/room.ts] are written out. *)
From S2P Require Import Prelude Text JsDate JsValue Contracts Database Concrete Ledger Authorization Lifecycle SeatCodes Sessions.
#[local] Set Warnings "-register-all,-clear-no-such-hyp,-level-tolerance".

Definition ROOM_CODE_ATTEMPTS : nat := 8.
Definition isCode (length : nat) (s : string) : bool :=
  bool_decide (String.length s = length)
  && forallb inAlphabet (list_ascii_of_string s).

(** ** The contract *)

Record SeatInvite : Type := Invite {
  si_roomMemberId : string;
  si_actorId : string;
  si_pseudonym : string;
  si_code : string;
}.
Record CreateRoomResponse : Type := Created {
  cr_roomId : string;
  cr_roomCode : string;
  cr_novaActorId : string;
  cr_seatInvites : list SeatInvite;
}.
Record JoinRoomResponse : Type := Joined {
  jr_roomMemberId : string;
  jr_actorId : string;
  jr_pseudonym : string;
}.
Record RoomDetails : Type := Details {
  rd_roomId : string;
  rd_topic : string;
  rd_status : RoomStatus;
  rd_durationSeconds : Z;
  rd_startsAt : option string;
  rd_closesAt : option string;
  rd_novaActorId : string;
  rd_participants : list (string * string);     (** actor and pseudonym *)
}.

(** [parseCreateRoomRequest]: the trimmed topic. *)
Definition INVALID_CREATE : error := Failure "INVALID_CREATE_ROOM_REQUEST".
Definition parseCreateRoomRequest (value : json) : result error string :=
  match value with
  | JObj [("topic"%string, JStr t)] =>
      let topic := js_trim t in
      if (1 <=? codePoints topic) && (codePoints topic <=? 160) then Ok topic else Err INVALID_CREATE
  | _ => Err INVALID_CREATE
  end.
Definition codeSchema (n : nat) : validator := stringWhere (isCode n).
Definition parseJoinRoomRequest (value : json) : result error (string * string) :=
  if closedObject [("roomCode", codeSchema 6); ("seatCode", codeSchema 10)]%string [] value
  then match field "roomCode" value ≫= asStr, field "seatCode" value ≫= asStr with
       | Some r, Some s => Ok (r, s)
       | _, _ => Err (Failure "INVALID_JOIN_ROOM_REQUEST")
       end
  else Err (Failure "INVALID_JOIN_ROOM_REQUEST").

Section Contract.
Context `{Schemas}.
Definition inviteOk (i : SeatInvite) : bool :=
  format_uuid (si_roomMemberId i) && format_uuid (si_actorId i) && bool_decide (si_pseudonym i ∈ STUDENT_PSEUDONYMS)
  && isCode 10 (si_code i).
Definition parseCreateRoomResponse (r : CreateRoomResponse) : result error CreateRoomResponse :=
  if format_uuid (cr_roomId r) && isCode 6 (cr_roomCode r) && format_uuid (cr_novaActorId r)
     && bool_decide (length (cr_seatInvites r) = 4%nat) && forallb inviteOk (cr_seatInvites r)
  then Ok r else Err (Failure "INVALID_CREATE_ROOM_RESPONSE").
Definition parseJoinRoomResponse (r : JoinRoomResponse) : result error JoinRoomResponse :=
  if format_uuid (jr_roomMemberId r) && format_uuid (jr_actorId r) && bool_decide (jr_pseudonym r ∈ STUDENT_PSEUDONYMS)
  then Ok r else Err (Failure "INVALID_JOIN_ROOM_RESPONSE").
Definition dateOrNull (t : option string) : bool := match t with Some s => format_date_time s | None => true end.
Definition parseRoomDetails (r : RoomDetails) : result error RoomDetails :=
  if format_uuid (rd_roomId r) && (rd_durationSeconds r =? 2700) && dateOrNull (rd_startsAt r) && dateOrNull (rd_closesAt r)
     && format_uuid (rd_novaActorId r) && bool_decide (length (rd_participants r) = 4%nat)
     && forallb (fun p => format_uuid (fst p) && bool_decide (snd p ∈ STUDENT_PSEUDONYMS)) (rd_participants r)
  then Ok r else Err (Failure "INVALID_ROOM_DETAILS").
End Contract.

(** ** Where the codes come from *)

(** [interface RoomCodeSource]. *)
Class RoomCodeSource : Type := { roomCode : IO string; seatCode : IO string }.
#[global] Instance secureRoomCodeSource `{Random} : RoomCodeSource := { roomCode := makeRoomCode; seatCode := makeSeatCode }.
(** What a source promises: it draws numbers and nothing else. *)
Definition keeps_db {A} (m : IO A) : Prop := forall w, db (snd (m w)) = db w.
Class RoomCodeSourceLaws `{RoomCodeSource} : Prop := { roomCode_keeps : keeps_db roomCode; seatCode_keeps : keeps_db seatCode }.

(** [while (used.has(value)) value = next()]: [fuel] draws. *)
Definition OUT_OF_DRAWS : error := Failure "OUT_OF_DRAWS".
Fixpoint uniqueFrom (fuel : nat) (used : list string) (next : IO string) : IO string :=
  match fuel with
  | O => throw OUT_OF_DRAWS
  | S fuel =>
      value ← next;
      if bool_decide (value ∈ used) then uniqueFrom fuel used next else mret value
  end.

(** ** Statements *)

(** [ORDER BY approved_at DESC, policy_id LIMIT 2], of which exactly one must be there. *)
Definition validPolicy (now : Z) (p : policy_row) : bool := (pl_approved_at p <=? now) && (now <? pl_expires_at p).
Definition isCandidate (hashes : list string) (c : string * string) : bool := bool_decide (snd c ∈ hashes).
Definition with_codes (l : list (string * string)) (d : database) : database :=
  set_accounts (Accounts (teachers (accounts d)) (magic_links (accounts d)) l (policies (accounts d))) d.
(** [INSERT INTO classroom_room ... WHERE NOT EXISTS ... ON CONFLICT DO NOTHING RETURNING]:
    [None] when a constraint refuses the row, else whether a row was inserted. *)
Definition insertRoom (roomId hash novaActorId teacherId topic : string) (readable : list string) (now : Z)
    (d : database) : option (bool * database) :=
  if existsb (isCandidate readable) (room_codes (accounts d))
     || existsb (fun c => bool_decide (snd c = hash)) (room_codes (accounts d)) then Some (false, d) else
  _ ← guardO (negb (existsb (fun r => bool_decide (rm_id r = roomId) || bool_decide (rm_nova_actor_id r = novaActorId))
                      (rooms d))
              && bool_decide (teacherId ∈ map fst (teachers (accounts d)))
              && (1 <=? codePoints topic) && (codePoints topic <=? 160));
  Some (true, with_codes (room_codes (accounts d) ++ [(roomId, hash)])
    (set_rooms (rooms d ++ [RoomRow roomId novaActorId teacherId topic scheduled 2700 None None None 1 now]) d)).
Definition insertMember (m : member_row) (d : database) : option database :=
  _ ← guardO (existsb (fun r => bool_decide (rm_id r = mb_room_id m)) (rooms d)
              && negb (existsb (fun x => bool_decide (mb_id x = mb_id m) || bool_decide (mb_actor_id x = mb_actor_id m)
                   || (bool_decide (mb_room_id x = mb_room_id m)
                       && (bool_decide (mb_seat_index x = mb_seat_index m) || bool_decide (mb_pseudonym x = mb_pseudonym m)
                           || bool_decide (mb_code_hash x = mb_code_hash m)))) (members d)));
  Some (set_members (members d ++ [m]) d).
Definition INSERT_REFUSED : error := Failure "violates constraint".

Definition byMemberId (a b : member_row) : bool := String.leb (mb_id a) (mb_id b).
Definition bySeat (a b : member_row) : bool := mb_seat_index a <=? mb_seat_index b.
Definition membersOf (rid : string) (d : database) : list member_row :=
  select_where (fun m => bool_decide (mb_room_id m = rid)) (members d).

Section Service.
Context `{Schemas} `{Postgres} `{Environment} `{Hmac} `{Random} `{RoomCodeSource}.
Variable codeHasher : CodeHasher.
Variable drawFuel : nat.

(** [#insertRoom]: at most eight codes are tried. *)
Fixpoint tryRoomCodes (attempts : nat) (roomId novaActorId teacherId topic : string) : IO string :=
  match attempts with
  | O => throw (RoomServiceError ROOM_CODE_UNAVAILABLE)
  | S attempts =>
      rawRoomCode ← roomCode;
      currentHash ← lift_result (hash codeHasher rawRoomCode);
      readableHashes ← lift_result (candidateHashes codeHasher rawRoomCode);
      tid ← uuidParam teacherId;
      now ← gets (fun w => tx_now (tx w));
      answer ← query (insertRoom roomId currentHash novaActorId tid topic readableHashes now);
      match answer with
      | None => throw INSERT_REFUSED
      | Some (true, d) => execute (fun _ => d);; mret rawRoomCode
      | Some (false, _) => tryRoomCodes attempts roomId novaActorId teacherId topic
      end
  end.
Definition insertRoomWithCode (roomId novaActorId teacherId topic : string) : IO string :=
  now ← gets (fun w => tx_now (tx w));
  policy ← query (fun d => select_where (validPolicy now) (policies (accounts d)));
  throw_if (negb (rowCount policy =? 1)) (RoomServiceError RETENTION_POLICY_NOT_CONFIGURED);;
  tryRoomCodes ROOM_CODE_ATTEMPTS roomId novaActorId teacherId topic.

(** One seat of [createRoom]: the state of the loop is the actors and the codes used. *)
Definition addSeat (roomId : string) (index : Z) (pseudonym : string) (usedActors usedCodes : list string) : IO SeatInvite :=
  roomMemberId ← randomUUID;
  actorId ← uniqueFrom drawFuel usedActors randomUUID;
  rawSeatCode ← uniqueFrom drawFuel usedCodes seatCode;
  h ← lift_result (hash codeHasher rawSeatCode);
  execute_or INSERT_REFUSED (insertMember (MemberRow roomMemberId actorId roomId index pseudonym h));;
  mret (Invite roomMemberId actorId pseudonym rawSeatCode).
Fixpoint addSeats (roomId : string) (index : Z) (pseudonyms usedActors usedCodes : list string) : IO (list SeatInvite) :=
  match pseudonyms with
  | [] => mret []
  | p :: ps =>
      invite ← addSeat roomId index p usedActors usedCodes;
      rest ← addSeats roomId (index + 1) ps (si_actorId invite :: usedActors) (si_code invite :: usedCodes);
      mret (invite :: rest)
  end.

Definition createRoom (identity : AuthSession) (value : json) : IO CreateRoomResponse :=
  match identity with
  | StudentSession _ _ _ _ _ => throw (RoomServiceError ROOM_FORBIDDEN)
  | TeacherSession teacherId _ =>
      topic ← lift_result (parseCreateRoomRequest value);
      inTransaction (
        roomId ← randomUUID;
        novaActorId ← uniqueFrom drawFuel [] randomUUID;
        rawRoomCode ← insertRoomWithCode roomId novaActorId teacherId topic;
        invites ← addSeats roomId 1 STUDENT_PSEUDONYMS [novaActorId] [];
        lift_result (parseCreateRoomResponse (Created roomId rawRoomCode novaActorId invites)))
  end.

(** ** Joining *)

(** The hashes that stand in for the seats of a room that is not there. *)
Definition dummySeatHashes : result error (list string) :=
  mapM (fun i => hash codeHasher ("learning-orbit-dummy-seat-" ++ dec_string i)) [0; 1; 2; 3].
(** The loop over the seats: a seat that is missing is tried against its dummy. *)
Definition seatMatches (seat : string) (members : list member_row) (dummies : list string) : list member_row :=
  omap (fun i => let m := members !! i in
    let stored := match m with Some m => mb_code_hash m | None => default ""%string (dummies !! i) end in
    if verify codeHasher seat stored then m else None) (seq 0 4).
(** The rows revoked by a join. *)
Definition seatSession (memberId : string) (s : session_row) : bool :=
  bool_decide (ss_kind s = student_principal) && bool_decide (ss_room_member_id s = Some memberId) && isOpen s.

Definition joinBody (roomCodeInput seatCodeInput : string) (dummies candidates : list string) : IO (JoinRoomResponse * string) :=
  located ← query (fun d => take 2 (sort_by (fun a b : string * string => String.leb (fst a) (fst b))
              (select_where (isCandidate candidates) (room_codes (accounts d)))));
  roomId ← match located with [c] => mret (fst c) | _ => randomUUID end;
  lockedRoom ← query (fun d => find (fun r => bool_decide (rm_id r = roomId)
                 && existsb (fun c => bool_decide (fst c = roomId) && isCandidate candidates c) (room_codes (accounts d))) (rooms d));
  seats ← query (fun d => sort_by byMemberId (membersOf roomId d));
  let found := seatMatches seatCodeInput seats dummies in
  match located, lockedRoom, found with
  | [_], Some locked, [member] =>
      throw_if (negb (bool_decide (length seats = 4%nat)) || negb (bool_decide (rm_status locked ∈ [scheduled; open])))
        (RoomServiceError JOIN_FORBIDDEN);;
      now ← validNow;
      execute (fun d => set_sessions (update_where (seatSession (mb_id member)) (withRevoked now) (sessions d)) d);;
      sessionToken ← opaqueToken;
      sessionId ← randomUUID;
      execute_or SESSION_REFUSED (insertSession (SessionRow sessionId (tokenHash sessionToken) student_principal None
        (Some (mb_id member)) (now + SESSION_DURATION_MS) None));;
      response ← lift_result (parseJoinRoomResponse (Joined (mb_id member) (mb_actor_id member) (mb_pseudonym member)));
      mret (response, sessionToken)
  | _, _, _ => throw (RoomServiceError JOIN_FORBIDDEN)
  end.
Definition joinRoom (value : json) : IO (JoinRoomResponse * string) :=
  dummies ← lift_result dummySeatHashes;
  input ← lift_result (parseJoinRoomRequest value);
  candidates ← lift_result (candidateHashes codeHasher (fst input));
  inTransaction (joinBody (fst input) (snd input) dummies candidates).

(** ** Reading a room *)

(** The room, if the identity may read it: the statement of the pool and, again, of the
    transaction. *)
Definition readableRoom (identity : AuthSession) (rid : string) (tid : option string) (d : database) : list room_row :=
  select_where (fun r => bool_decide (rm_id r = rid)
    && match tid with Some t => bool_decide (rm_teacher_id r = t) | None => true end) (rooms d).
Definition teacherParam (identity : AuthSession) : IO (option string) :=
  match identity with
  | TeacherSession t _ => u ← uuidParam t; mret (Some u)
  | StudentSession _ _ _ _ _ => mret None
  end.
Definition ROOM_GONE : error := RoomServiceError SERVICE_ROOM_NOT_FOUND.
Definition mapClosing (e : error) : error :=
  match e with
  | RoomError FORBIDDEN _ => ROOM_GONE
  | RoomError ROOM_DELETION_IN_PROGRESS _ => RoomServiceError SERVICE_DELETION_IN_PROGRESS
  | _ => e
  end.
Definition detailsOf (r : room_row) (seats : list member_row) : RoomDetails :=
  Details (rm_id r) (rm_topic r) (rm_status r) (rm_duration_seconds r) (toISOString <$> rm_starts_at r)
    (toISOString <$> rm_closes_at r) (rm_nova_actor_id r) (map (fun m => (mb_actor_id m, mb_pseudonym m)) seats).

(** The lifecycle service is optional; the server gives it. *)
Definition getRoom (lifecycle : option EventPayloadRegistry) (identity : AuthSession) (roomId : string) : IO RoomDetails :=
  throw_if (negb (isUuid roomId)) ROOM_GONE;;
  throw_if (match identity with
            | StudentSession own _ _ _ _ => negb (bool_decide (own = roomId))
            | TeacherSession _ _ => false
            end) ROOM_GONE;;
  rid ← uuidParam roomId;
  tid ← teacherParam identity;
  allowed ← poolStatement (fun _ d => (readableRoom identity rid tid d, d));
  throw_if (negb (rowCount allowed =? 1)) ROOM_GONE;;
  match lifecycle with
  | Some payloads => try_catch (closeIfDue payloads roomId;; mret tt) (fun e => throw (mapClosing e))
  | None => mret tt
  end;;
  inTransaction (
    owner ← query (readableRoom identity rid tid);
    match owner with
    | [room] =>
        deleting ← query (deletionActiveIn rid);
        throw_if deleting (RoomServiceError SERVICE_DELETION_IN_PROGRESS);;
        seats ← query (fun d => sort_by bySeat (membersOf rid d));
        throw_if (negb (bool_decide (length seats = 4%nat))) ROOM_GONE;;
        lift_result (parseRoomDetails (detailsOf room seats))
    | _ => throw ROOM_GONE
    end).
End Service.
