(* ===== verification/Seats.v ===== *)
(** * Who sits where: the theorems of [Sessions] and [Rooms]

    What the constraints of the tables keep true, what a join does to the sessions of a
    seat, and the steps by which rooms, seats, sessions and links change. *)
From S2P Require Import Prelude Text JsDate JsValue Contracts Database Concrete Ledger Authorization Lifecycle Jobs SeatCodes Sessions Rooms.
#[local] Set Warnings "-register-all,-clear-no-such-hyp,-level-tolerance".

(** ** The constraints of the tables

    [infra/postgres/migrations/001_core.sql]. *)
Definition kind_ok (s : session_row) : Prop :=
  match ss_kind s with
  | teacher_principal => is_Some (ss_teacher_id s) /\ ss_room_member_id s = None
  | student_principal => ss_teacher_id s = None /\ is_Some (ss_room_member_id s)
  end.
Record tables_ok (d : database) : Prop := {
  tk_rooms : NoDup (map rm_id (rooms d));
  tk_members : NoDup (map mb_id (members d));
  tk_member_rooms : Forall (fun m => mb_room_id m ∈ map rm_id (rooms d)) (members d);
  tk_codes : NoDup (map fst (room_codes (accounts d)));
  tk_code_rooms : Forall (fun c => fst c ∈ map rm_id (rooms d)) (room_codes (accounts d));
  tk_tokens : NoDup (map ss_token_hash (sessions d));
  tk_kinds : Forall kind_ok (sessions d);
  tk_links : NoDup (map ml_token_hash (magic_links (accounts d)));
}.

Definition heldBy (memberId : string) (s : session_row) : Prop :=
  ss_kind s = student_principal /\ ss_room_member_id s = Some memberId /\ ss_revoked_at s = None.
(** A seat has one session at most that is not revoked. *)
Definition seats_exclusive (d : database) : Prop :=
  forall memberId s s', s ∈ sessions d -> s' ∈ sessions d -> heldBy memberId s -> heldBy memberId s' ->
    ss_token_hash s = ss_token_hash s'.

Lemma seatSession_held memberId s : seatSession memberId s = true <-> heldBy memberId s.
Proof. unfold seatSession, isOpen, heldBy. rewrite !andb_true_iff, !bool_decide_eq_true. tauto. Qed.

Lemma update_elem {A} (p : A -> bool) f (l : list A) y :
  y ∈ update_where p f l -> exists x, y = (if p x then f x else x) /\ x ∈ l.
Proof. apply list_elem_of_fmap_1. Qed.
Lemma withRevoked_not_held memberId t s : ~ heldBy memberId (withRevoked t s).
Proof. by intros (_ & _ & ?). Qed.

(** What the theorems of this file keep of a database. *)
Record seats_inv (d : database) : Prop := { si_tables : tables_ok d; si_exclusive : seats_exclusive d }.
(** The columns they speak of. *)
Definition seatsView (d : database) :=
  (map rm_id (rooms d), members d, room_codes (accounts d), sessions d, magic_links (accounts d)).
Lemma seats_inv_view d d' : seatsView d' = seatsView d -> seats_inv d -> seats_inv d'.
Proof.
  unfold seatsView. intros [= Hr Hm Hc Hs Hl] [[] Hex].
  constructor; [constructor; by rewrite ?Hr, ?Hm, ?Hc, ?Hs, ?Hl|]. unfold seats_exclusive in *. by rewrite Hs.
Qed.

(** ** Runs that end normally *)

Lemma lift_result_run {A} (x : result error A) (w : world) a w' : lift_result x w = (Ok a, w') -> x = Ok a /\ w' = w.
Proof. by intros [= -> ->]. Qed.
Lemma query_run {A} (f : database -> A) w a w' : query f w = (Ok a, w') -> a = f (db w) /\ w' = w.
Proof. by intros [= -> ->]. Qed.
Lemma ret_run {A} (x : A) (w : world) a w' : (mret x : IO A) w = (Ok a, w') -> a = x /\ w' = w.
Proof. by intros [= -> ->]. Qed.
Lemma execute_run f w u w' : execute f w = (Ok u, w') -> w' = set_db (f (db w)) w.
Proof. by intros [= _ ->]. Qed.
Lemma randomUUID_run `{Environment} w i w' : randomUUID w = (Ok i, w') ->
  i = uuid_supply (uuids w) /\ w' = World (db w) (ticks w) (txs w) (S (uuids w)) (tx w).
Proof. by intros [= -> ->]. Qed.

Lemma opaqueToken_run `{Random} w t w' : opaqueToken w = (Ok t, w') ->
  (exists n, t = random_token n) /\ w' = World (db w) (ticks w) (txs w) (S (uuids w)) (tx w).
Proof. intros [= <- <-]. eauto. Qed.

(** ** Computations that leave the database alone *)

Lemma keeps_db_run {A} (m : IO A) w r w' : keeps_db m -> m w = (r, w') -> db w' = db w.
Proof. intros Hk Hm. specialize (Hk w). by rewrite Hm in Hk. Qed.
Lemma keeps_db_bind {A B} (m : IO A) (f : A -> IO B) : keeps_db m -> (forall a, keeps_db (f a)) -> keeps_db (m ≫= f).
Proof.
  intros Hm Hf w. unfold mbind, M_bind. specialize (Hm w). destruct (m w) as [[a|e] w1]; [|done].
  simpl in Hm. rewrite Hf. done.
Qed.
Lemma keeps_db_ret {A} (a : A) : keeps_db (mret a : IO A).
Proof. by intros w. Qed.
Lemma keeps_db_throw {A} e : keeps_db (throw (A:=A) e : IO A).
Proof. by intros w. Qed.
Lemma keeps_db_mapM {A B} (f : A -> IO B) l : (forall x, keeps_db (f x)) -> keeps_db (mapM f l).
Proof.
  intros Hf. induction l as [|x l IH]; [apply keeps_db_ret|]. simpl.
  apply keeps_db_bind; [done|]. intros y. apply keeps_db_bind; [done|]. intros ys. apply keeps_db_ret.
Qed.
Lemma randomUUID_keeps `{Environment} : keeps_db randomUUID.
Proof. by intros w. Qed.
Lemma keeps_db_on {A} P (m : IO A) : keeps_db m -> preserves (on_db P) m.
Proof. intros Hk. by apply on_db_local. Qed.
#[export] Hint Resolve keeps_db_on : preserve.

Lemma makeCode_keeps `{Random} n : keeps_db (makeCode n).
Proof.
  unfold makeCode. apply keeps_db_bind; [by apply keeps_db_mapM|]. intros cs. apply keeps_db_ret.
Qed.
#[global] Instance secureRoomCodeSource_laws `{Random} : RoomCodeSourceLaws.
Proof. constructor; apply makeCode_keeps. Qed.

(** [uniqueUuid] and [uniqueSeatCode]. *)
Lemma uniqueFrom_keeps fuel used next : keeps_db next -> keeps_db (uniqueFrom fuel used next).
Proof.
  intros Hn. induction fuel as [|fuel IH]; simpl; [apply keeps_db_throw|].
  apply keeps_db_bind; [done|]. intros v. by destruct (bool_decide _).
Qed.
Lemma uniqueFrom_fresh fuel used next w v w' : uniqueFrom fuel used next w = (Ok v, w') -> v ∉ used.
Proof.
  revert w. induction fuel as [|fuel IH]; intros w; simpl; [done|]. intros (x & s & _ & Hr)%bind_ok.
  destruct (bool_decide _) eqn:Hb; [by eapply IH|]. unfold mret, M_ret in Hr. injection Hr as -> ->. by split_bools.
Qed.
(** Enough draws: one of them is new. *)
Lemma uniqueFrom_ends `{Environment} fuel used w k :
  (k < fuel)%nat -> uuid_supply (uuids w + k) ∉ used -> exists v w', uniqueFrom fuel used randomUUID w = (Ok v, w').
Proof.
  revert w k. induction fuel as [|fuel IH]; intros w k Hk Hnew; [lia|]. simpl. erewrite bind_run by done.
  destruct (bool_decide _) eqn:Hb; [|by eexists _, _]. destruct k as [|k]; [split_bools; by rewrite Nat.add_0_r in Hnew|].
  apply (IH _ k); [lia|]. simpl. by rewrite Nat.add_succ_r in Hnew.
Qed.

Section SessionLaws.
Context `{Schemas} `{Postgres} `{Environment} `{Random}.

Lemma insertSession_ok s d d' : insertSession s d = Some d' ->
  d' = set_sessions (sessions d ++ [s]) d
  /\ Forall (fun x => ss_id x <> ss_id s /\ ss_token_hash x <> ss_token_hash s) (sessions d).
Proof.
  unfold insertSession. intros (u & Hg & Hd)%bind_Some. apply guardO_Some in Hg. split_bools. injection Hd as <-.
  split; [done|]. apply Forall_forall. intros x Hx.
  match goal with E : existsb _ _ = false |- _ => apply not_true_iff_false in E; rename E into Hno end.
  split; intros Heq; apply Hno, existsb_exists; exists x; rewrite <- list_elem_of_In; (split; [done|]);
    rewrite (bool_decide_true _ Heq); [done|apply orb_true_r].
Qed.

Lemma insertSession_student s d memberId :
  Forall (fun x => ss_id x <> ss_id s /\ ss_token_hash x <> ss_token_hash s) (sessions d) ->
  ss_teacher_id s = None -> ss_room_member_id s = Some memberId -> memberId ∈ map mb_id (members d) ->
  insertSession s d = Some (set_sessions (sessions d ++ [s]) d).
Proof.
  intros Hall Ht Hm Hin. unfold insertSession. rewrite Ht, Hm, (bool_decide_true _ Hin).
  assert (existsb (fun x => bool_decide (ss_id x = ss_id s) || bool_decide (ss_token_hash x = ss_token_hash s)) (sessions d) = false)
    as ->; [|done].
  apply not_true_iff_false. intros (x & Hx%list_elem_of_In & Hp)%existsb_exists. rewrite Forall_forall in Hall.
  destruct (Hall _ Hx). by rewrite !bool_decide_false in Hp.
Qed.

(** Revoking sessions, and adding one of a seat that has none, keeps seats exclusive. *)
Lemma exclusive_revoke p t d : seats_exclusive d -> seats_exclusive (set_sessions (update_where p (withRevoked t) (sessions d)) d).
Proof.
  intros Hex memberId s s' Hs Hs' Hh Hh'. simpl in *.
  apply list_elem_of_fmap_1 in Hs as (x & -> & Hx), Hs' as (x' & -> & Hx').
  destruct (p x); [by apply withRevoked_not_held in Hh|]. destruct (p x'); [by apply withRevoked_not_held in Hh'|].
  by apply (Hex memberId).
Qed.
Lemma exclusive_add s d :
  seats_exclusive d -> (forall memberId x, x ∈ sessions d -> heldBy memberId x -> heldBy memberId s -> False) ->
  seats_exclusive (set_sessions (sessions d ++ [s]) d).
Proof.
  intros Hex Hno memberId x x' Hx Hx' Hh Hh'. simpl in *.
  apply elem_of_app in Hx as [Hx|Hx%list_elem_of_singleton], Hx' as [Hx'|Hx'%list_elem_of_singleton]; subst.
  - by apply (Hex memberId).
  - destruct (Hno memberId x); done.
  - destruct (Hno memberId x'); done.
  - done.
Qed.

(** What a session of a token gives. *)
Lemma getSession_new s d now t :
  ss_token_hash s = tokenHash t -> ss_revoked_at s = None -> now < ss_expires_at s ->
  Forall (fun x => ss_token_hash x <> ss_token_hash s) d ->
  head (select_where (fun s => ofToken (tokenHash t) s && liveSession now s) (d ++ [s])) = Some s.
Proof.
  intros Hh Hr Hn Hall. rewrite select_where_app, select_where_none.
  - simpl. unfold ofToken, liveSession. rewrite Hh, Hr, !bool_decide_true by done. simpl. by rewrite (proj2 (Z.ltb_lt _ _) Hn).
  - intros x Hx. rewrite Forall_forall in Hall. unfold ofToken. rewrite bool_decide_false; [done|].
    rewrite <- Hh. by apply Hall.
Qed.
End SessionLaws.

(** ** The constraints, statement by statement *)

(** A row is found by its key. *)
Lemma unique_by {A} (f : A -> string) l x : NoDup (map f l) -> x ∈ l -> find (fun y => bool_decide (f y = f x)) l = Some x.
Proof.
  intros Hnd Hin. destruct (find (fun y => bool_decide (f y = f x)) l) as [y|] eqn:Hf.
  - apply find_elem in Hf as [Hy Hid]. apply bool_decide_eq_true in Hid.
    f_equal. apply list_elem_of_lookup in Hy as [i Hi], Hin as [k Hk].
    assert (map f l !! i = Some (f x)) as Hli by (by rewrite list_lookup_fmap, Hi; simpl; f_equal).
    assert (map f l !! k = Some (f x)) as Hlk by (by rewrite list_lookup_fmap, Hk).
    pose proof (NoDup_lookup _ _ _ _ Hnd Hli Hlk). by simplify_eq.
  - apply list_elem_of_In in Hin. apply (find_none _ _ Hf) in Hin. by rewrite bool_decide_true in Hin.
Qed.
Lemma existsb_none {A} (p : A -> bool) l : existsb p l = false <-> forall x, x ∈ l -> p x = false.
Proof.
  rewrite <- not_true_iff_false, existsb_exists. setoid_rewrite <- list_elem_of_In. split.
  - intros Hno x Hx. apply not_true_iff_false. intros Hp. apply Hno. eauto.
  - intros Hall (x & Hx & Hp). by rewrite Hall in Hp.
Qed.

Ltac no_row := repeat match goal with
  | E : existsb _ _ = false |- _ => rewrite existsb_none in E
  | E : forall x, x ∈ ?l -> _, Hx : ?y ∈ ?l |- _ => pose proof (E _ Hx); clear E
  end.

Section Tables.
Context `{Schemas} `{Postgres} `{Environment} `{Random}.

Lemma inv_revoke p t d : seats_inv d -> seats_inv (set_sessions (update_where p (withRevoked t) (sessions d)) d).
Proof.
  intros [[] Hex]. constructor; [|by apply exclusive_revoke]. constructor; simpl; try done.
  - rewrite update_where_map; done.
  - apply Forall_forall. intros s (x & -> & Hx)%list_elem_of_fmap_1. rewrite Forall_forall in tk_kinds0.
    specialize (tk_kinds0 _ Hx). by destruct (p x).
Qed.

Lemma inv_links l d : NoDup (map ml_token_hash l) -> seats_inv d -> seats_inv (set_links l d).
Proof. intros Hl [[] Hex]. constructor; [by constructor|done]. Qed.
Lemma inv_consume p now d : seats_inv d -> seats_inv (set_links (update_where p (withConsumed now) (magic_links (accounts d))) d).
Proof. intros Hinv. apply inv_links; [|done]. rewrite update_where_map by done. apply Hinv. Qed.

Lemma inv_add_session s d d' : insertSession s d = Some d' -> kind_ok s ->
  (forall memberId x, x ∈ sessions d -> heldBy memberId x -> heldBy memberId s -> False) ->
  seats_inv d -> seats_inv d'.
Proof.
  intros [-> Hfresh]%insertSession_ok Hk Hno [[] Hex]. constructor; [|by apply exclusive_add].
  constructor; simpl; try done.
  - rewrite map_app. apply NoDup_app. split_and!; [done| |apply NoDup_singleton].
    intros h (x & -> & Hx)%list_elem_of_fmap_1 Hh%list_elem_of_singleton. rewrite Forall_forall in Hfresh.
    by destruct (Hfresh _ Hx).
  - apply Forall_app. by split; [|constructor].
Qed.

Lemma NoDup_map_snoc {A} (f : A -> string) l x :
  NoDup (map f l) -> (forall y, y ∈ l -> f y <> f x) -> NoDup (map f (l ++ [x])).
Proof.
  intros Hnd Hno. rewrite map_app. apply NoDup_app. split_and!; [done| |apply NoDup_singleton].
  intros h (y & -> & Hy)%list_elem_of_fmap_1 Hh%list_elem_of_singleton. by apply (Hno _ Hy).
Qed.
(** The room that [insertRoom] adds. *)
Record room_added (roomId hash nova teacherId topic : string) (readable : list string) (now : Z) (d d' : database) : Prop := {
  ra_db : d' = with_codes (room_codes (accounts d) ++ [(roomId, hash)])
     (set_rooms (rooms d ++ [RoomRow roomId nova teacherId topic scheduled 2700 None None None 1 now]) d);
  ra_codes : forall c, c ∈ room_codes (accounts d) -> snd c ∉ readable /\ snd c <> hash;
  ra_rooms : forall r, r ∈ rooms d -> rm_id r <> roomId /\ rm_nova_actor_id r <> nova;
  ra_teacher : teacherId ∈ map fst (teachers (accounts d));
}.
Lemma insertRoom_added roomId hash nova teacherId topic readable now d d' :
  insertRoom roomId hash nova teacherId topic readable now d = Some (true, d') ->
  room_added roomId hash nova teacherId topic readable now d d'.
Proof.
  unfold insertRoom. destruct (_ || _) eqn:Hc; [done|]. intros (u & Hg & Hd)%bind_Some. apply guardO_Some in Hg.
  split_bools. injection Hd as <-. constructor; try done.
  - intros c Hin. no_row. unfold isCandidate in *. by split_bools.
  - intros r Hin. no_row. by split_bools.
Qed.
Lemma inv_add_room roomId hash nova teacherId topic readable now d d' :
  room_added roomId hash nova teacherId topic readable now d d' -> seats_inv d -> seats_inv d'.
Proof.
  intros [-> Hcodes Hrooms _] [[] Hex]. constructor; [|done].
  assert (forall A (g : A -> string) rs l, Forall (fun c => g c ∈ map rm_id (rooms d)) l ->
    Forall (fun c => g c ∈ map rm_id (rooms d ++ rs)) l) as Hmore.
  { intros A g rs l Hl. eapply Forall_impl; [exact Hl|]. intros x Hx. simpl in *. rewrite map_app. apply elem_of_app. by left. }
  constructor; simpl; try done.
  - apply NoDup_map_snoc; [done|]. intros y Hy. by apply Hrooms.
  - by apply Hmore.
  - apply NoDup_map_snoc; [done|]. intros c Hc Heq. simpl in Heq. rewrite Forall_forall in tk_code_rooms0.
    specialize (tk_code_rooms0 _ Hc). rewrite Heq in tk_code_rooms0. apply list_elem_of_fmap_1 in tk_code_rooms0 as (r & Hid & Hr).
    by destruct (Hrooms _ Hr) as [[] _].
  - apply Forall_app. split; [by apply Hmore|]. constructor; [|constructor].
    simpl. rewrite map_app. apply elem_of_app. right. by left.
Qed.

Lemma insertMember_added m d d' : insertMember m d = Some d' ->
  d' = set_members (members d ++ [m]) d /\ mb_room_id m ∈ map rm_id (rooms d)
  /\ forall x, x ∈ members d -> mb_id x <> mb_id m.
Proof.
  unfold insertMember. intros (u & Hg & Hd)%bind_Some. apply guardO_Some in Hg. split_bools. injection Hd as <-.
  split_and!; [done| |].
  - match goal with E : existsb _ (rooms d) = true |- _ => apply existsb_exists in E as (r & Hr & Heq) end. split_bools.
    rewrite <- Heq. apply list_elem_of_fmap_2. by apply list_elem_of_In.
  - intros x Hx. no_row. by split_bools.
Qed.
Lemma inv_add_member m d d' : insertMember m d = Some d' -> seats_inv d -> seats_inv d'.
Proof.
  intros (-> & Hroom & Hnew)%insertMember_added [[] Hex]. constructor; [|done]. constructor; simpl; try done.
  - apply NoDup_map_snoc; [done|]. by apply Hnew.
  - apply Forall_app. by split; [|constructor].
Qed.
End Tables.

(** ** Creating a room *)

Section Create.
Context `{Schemas} `{Postgres} `{Environment} `{Hmac} `{Random} `{RoomCodeSource} {SL : RoomCodeSourceLaws}.
Variable codeHasher : CodeHasher.
Variable drawFuel : nat.

Lemma tryRoomCodes_ok attempts rid nova t topic w raw w' :
  tryRoomCodes codeHasher attempts rid nova t topic w = (Ok raw, w') ->
  exists h readable u now, hash codeHasher raw = Ok h /\ candidateHashes codeHasher raw = Ok readable
    /\ room_added rid h nova u topic readable now (db w) (db w').
Proof.
  revert w. induction attempts as [|attempts IH]; intros w; simpl; [done|].
  intros (code & s & Hc & Hr)%bind_ok. rewrite <- (keeps_db_run _ _ _ _ roomCode_keeps Hc).
  apply bind_ok in Hr as (h & s1 & [Hh ->]%lift_result_run & Hr).
  apply bind_ok in Hr as (readable & s1 & [Hl ->]%lift_result_run & Hr).
  apply bind_ok in Hr as (u & s1 & [_ ->]%uuidParam_ok & Hr).
  apply bind_ok in Hr as (now & s1 & Hn & Hr). unfold gets in Hn. injection Hn as _ <-.
  apply bind_ok in Hr as (answer & s1 & [Ha ->]%query_run & Hr). symmetry in Ha.
  destruct answer as [[[] d]|]; [|by apply IH|done]. apply bind_ok in Hr as (? & s1 & ->%execute_run & Hr).
  apply ret_run in Hr as [-> ->].
  apply insertRoom_added in Ha. by exists h, readable, u, now.
Qed.

(** The row of an invited seat. *)
Record seat_row (roomId : string) (i : SeatInvite) (m : member_row) : Prop := {
  sr_member : mb_id m = si_roomMemberId i;
  sr_actor : mb_actor_id m = si_actorId i;
  sr_pseudonym : mb_pseudonym m = si_pseudonym i;
  sr_room : mb_room_id m = roomId;
  sr_code : hash codeHasher (si_code i) = Ok (mb_code_hash m);
}.

Lemma addSeat_ok roomId index p actors codes w i w' :
  addSeat codeHasher drawFuel roomId index p actors codes w = (Ok i, w') ->
  exists m, insertMember m (db w) = Some (db w') /\ seat_row roomId i m /\ si_code i ∉ codes.
Proof.
  unfold addSeat. intros (mid & s1 & [_ ->]%randomUUID_run & Hr)%bind_ok.
  apply bind_ok in Hr as (aid & s2 & Ha & Hr).
  pose proof (keeps_db_run _ _ _ _ (uniqueFrom_keeps drawFuel actors _ randomUUID_keeps) Ha) as Hd2.
  apply bind_ok in Hr as (code & s3 & Hc & Hr). pose proof (uniqueFrom_fresh _ _ _ _ _ _ Hc) as Hnew.
  pose proof (keeps_db_run _ _ _ _ (uniqueFrom_keeps drawFuel codes _ seatCode_keeps) Hc) as Hd3.
  apply bind_ok in Hr as (h & s4 & [Hh ->]%lift_result_run & Hr).
  apply bind_ok in Hr as (? & s5 & (d & Hi & ->)%execute_or_ok & Hr). apply ret_run in Hr as [-> ->].
  simpl in *. rewrite Hd3, Hd2 in Hi. eexists. split; [exact Hi|]. split; [by constructor|done].
Qed.

Lemma addSeats_ok roomId index ps actors codes w invites w' :
  addSeats codeHasher drawFuel roomId index ps actors codes w = (Ok invites, w') ->
  exists ms, db w' = set_members (members (db w) ++ ms) (db w)
    /\ Forall2 (seat_row roomId) invites ms /\ NoDup (map si_code invites)
    /\ (forall c, c ∈ map si_code invites -> c ∉ codes) /\ length invites = length ps
    /\ (seats_inv (db w) -> seats_inv (db w')).
Proof.
  revert index actors codes w invites. induction ps as [|p ps IH]; intros index actors codes w invites; simpl.
  - unfold mret, M_ret. intros [= <- <-]. exists []. rewrite app_nil_r. split_and!; try done; [by destruct (db w)|constructor|].
    by intros c ?%not_elem_of_nil.
  - intros (i & s & Hi & Hr)%bind_ok. apply addSeat_ok in Hi as (m & Hins & Hrow & Hcode).
    apply bind_ok in Hr as (rest & s1 & Hrest & Hr). apply ret_run in Hr as [-> ->].
    apply IH in Hrest as (ms & -> & Hrows & Hnd & Hnot & Hlen & Hinv). pose proof (insertMember_added _ _ _ Hins) as (Hd & _ & _).
    exists (m :: ms). split_and!.
    + rewrite Hd. simpl. by rewrite <- app_assoc.
    + by constructor.
    + simpl. constructor; [|done]. intros Hin. apply (Hnot _ Hin). by left.
    + intros c [->|Hc]%elem_of_cons; [done|]. specialize (Hnot _ Hc). rewrite not_elem_of_cons in Hnot. tauto.
    + simpl. by f_equal.
    + intros Hw. apply Hinv. by eapply inv_add_member.
Qed.

(** What [createRoom] answers and does. *)
Record created (d d' : database) (r : CreateRoomResponse) : Prop := {
  cd_room : exists d1 h readable teacher topic now ms, hash codeHasher (cr_roomCode r) = Ok h
    /\ candidateHashes codeHasher (cr_roomCode r) = Ok readable
    /\ room_added (cr_roomId r) h (cr_novaActorId r) teacher topic readable now d d1
    /\ d' = set_members (members d ++ ms) d1 /\ Forall2 (seat_row (cr_roomId r)) (cr_seatInvites r) ms;
  cd_codes : NoDup (map si_code (cr_seatInvites r));
  cd_valid : parseCreateRoomResponse r = Ok r;
  cd_inv : seats_inv d -> seats_inv d';
}.
Lemma createRoom_ok identity value w r w' :
  createRoom codeHasher drawFuel identity value w = (Ok r, w') -> created (db w) (db w') r.
Proof.
  destruct identity as [teacherId tactor|]; [|done]. unfold createRoom. intros (topic & s & [_ ->]%lift_result_run & Hr)%bind_ok. apply ends_inTransaction in Hr as [(e & ? & _)|(a & w0 & [= <-] & <- & Hr)]; [done|].
  apply bind_ok in Hr as (rid & s1 & [_ ->]%randomUUID_run & Hr).
  apply bind_ok in Hr as (nova & s2 & Hn & Hr).
  pose proof (keeps_db_run _ _ _ _ (uniqueFrom_keeps drawFuel [] _ randomUUID_keeps) Hn) as Hd2.
  apply bind_ok in Hr as (raw & s3 & Hc & Hr). unfold insertRoomWithCode in Hc.
  apply bind_ok in Hc as (now0 & s4 & Hg & Hc). unfold gets in Hg. injection Hg as _ <-.
  apply bind_ok in Hc as (policy & s4 & [_ ->]%query_run & Hc).
  apply bind_ok in Hc as (? & s4 & [_ ->]%throw_if_ok & Hc).
  apply tryRoomCodes_ok in Hc as (h & readable & u & now & Hh & Hl & Hroom). rewrite Hd2 in Hroom. simpl in Hroom.
  apply bind_ok in Hr as (invites & s5 & Hs & Hr).
  apply addSeats_ok in Hs as (ms & Hd5 & Hrows & Hnd & _ & _ & Hinv).
  apply lift_result_run in Hr as [Hv ->]. unfold parseCreateRoomResponse in *.
  destruct (_ && _) eqn:Hok in Hv; [|done]. injection Hv as <-.
  constructor; [|done|by unfold parseCreateRoomResponse; rewrite Hok|].
  - exists (db s3), h, readable, u, topic, now, ms. split_and!; try done. rewrite Hd5. by destruct Hroom as [-> _ _ _].
  - intros Hw. apply Hinv. by eapply inv_add_room.
Qed.
End Create.

(** ** Joining *)

Section Join.
Context `{Schemas} `{Postgres} `{Environment} `{Hmac} `{Random} `{RoomCodeSource}.
Variable codeHasher : CodeHasher.

(** The seat of the two codes: the only room of the room's code, open or about to be, and
    its only seat of the seat's code. *)
Record seat_of (rc sc : string) (d : database) (locked : room_row) (member : member_row) : Prop := {
  so_candidates : exists candidates h, candidateHashes codeHasher rc = Ok candidates
    /\ select_where (isCandidate candidates) (room_codes (accounts d)) = [(rm_id locked, h)];
  so_room : locked ∈ rooms d;
  so_status : rm_status locked ∈ [scheduled; open];
  so_member : member ∈ members d /\ mb_room_id member = rm_id locked;
  so_four : length (membersOf (rm_id locked) d) = 4%nat;
  so_code : forall m, m ∈ membersOf (rm_id locked) d -> verify codeHasher sc (mb_code_hash m) = true <-> m = member;
}.

(** What a join does. *)
Record joined (rc sc : string) (w w' : world) (resp : JoinRoomResponse) (token : string) (locked : room_row)
    (member : member_row) : Prop := {
  jn_seat : seat_of rc sc (db w) locked member;
  jn_response : resp = Joined (mb_id member) (mb_actor_id member) (mb_pseudonym member) /\ parseJoinRoomResponse resp = Ok resp;
  jn_token : exists n, token = random_token n;
  jn_sessions : exists now sessionId, (exists n, clock_now n = Some now)
    /\ let session := SessionRow sessionId (tokenHash token) student_principal None (Some (mb_id member))
                        (now + SESSION_DURATION_MS) None in
       db w' = set_sessions (update_where (seatSession (mb_id member)) (withRevoked now) (sessions (db w)) ++ [session]) (db w)
       /\ Forall (fun x => ss_token_hash x <> tokenHash token) (sessions (db w));
}.

Lemma take2_one {A} (le : A -> A -> bool) l x : take 2 (sort_by le l) = [x] -> l = [x].
Proof.
  pose proof (sort_by_perm le l) as Hp. pose proof (Permutation_length Hp) as Hl.
  destruct (sort_by le l) as [|a [|b s]]; try done. simpl. intros [= ->]. symmetry in Hp. by apply Permutation_singleton_r in Hp.
Qed.

Lemma seatMatches_one sc seats dummies member : length seats = 4%nat ->
  seatMatches codeHasher sc seats dummies = [member] <->
  select_where (fun m => verify codeHasher sc (mb_code_hash m)) seats = [member].
Proof.
  destruct seats as [|a [|b [|c [|d []]]]]; try done. intros _. unfold seatMatches, select_where. simpl.
  destruct (verify _ _ (mb_code_hash a)), (verify _ _ (mb_code_hash b)), (verify _ _ (mb_code_hash c)),
    (verify _ _ (mb_code_hash d)); simpl; done.
Qed.

Lemma filter_one {A} (p : A -> bool) l x : NoDup l ->
  List.filter p l = [x] <-> x ∈ l /\ forall y, y ∈ l -> p y = true <-> y = x.
Proof.
  intros Hnd. split.
  - intros Hf. assert (forall y, y ∈ l -> p y = true <-> y = x) as Hall.
    { intros y Hy. transitivity (y ∈ [x]); [|by rewrite list_elem_of_singleton]. rewrite <- Hf, list_elem_of_In, filter_In, <- list_elem_of_In. tauto. }
    split; [|done]. assert (x ∈ List.filter p l) as Hx by (rewrite Hf; by left).
    by apply list_elem_of_In, filter_In in Hx as [Hx%list_elem_of_In _].
  - intros [Hin Hall]. apply Permutation_singleton_r. symmetry. apply NoDup_Permutation.
    + apply NoDup_singleton.
    + apply NoDup_ListNoDup, List.NoDup_filter. by apply NoDup_ListNoDup.
    + intros y. rewrite list_elem_of_singleton, list_elem_of_In, filter_In, <- list_elem_of_In. split; [intros ->|]; naive_solver.
Qed.

Lemma membersOf_NoDup rid d : tables_ok d -> NoDup (membersOf rid d).
Proof.
  intros Hok. apply NoDup_ListNoDup, List.NoDup_filter, NoDup_ListNoDup.
  by eapply NoDup_fmap_1, (tk_members _ Hok).
Qed.

(** The seats that match, in the order of the statement. *)
Lemma seats_found sc rid d dummies member : tables_ok d -> length (membersOf rid d) = 4%nat ->
  seatMatches codeHasher sc (sort_by byMemberId (membersOf rid d)) dummies = [member] <->
  member ∈ membersOf rid d /\ forall m, m ∈ membersOf rid d -> verify codeHasher sc (mb_code_hash m) = true <-> m = member.
Proof.
  intros Hok Hlen. pose proof (sort_by_perm byMemberId (membersOf rid d)) as Hp.
  rewrite seatMatches_one by (by rewrite (Permutation_length Hp)).
  unfold select_where. rewrite filter_one by (rewrite Hp; by apply membersOf_NoDup).
  rewrite sort_by_elem. split; intros [? Hall]; (split; [done|]); intros m Hm; apply Hall.
  - by apply (sort_by_elem byMemberId).
  - by apply sort_by_elem in Hm.
Qed.

Lemma unique_room d r : tables_ok d -> r ∈ rooms d ->
  find (fun x => bool_decide (rm_id x = rm_id r)) (rooms d) = Some r.
Proof. intros Hok. apply unique_by, Hok. Qed.

Lemma joinBody_ok rc sc dummies candidates w resp token w' :
  tables_ok (db w) -> candidateHashes codeHasher rc = Ok candidates ->
  joinBody codeHasher rc sc dummies candidates w = (Ok (resp, token), w') ->
  exists locked member, joined rc sc w w' resp token locked member.
Proof.
  intros Hok Hcand Hr. unfold joinBody in Hr. apply bind_ok in Hr as (located & s & [Hlocated ->]%query_run & Hr). apply bind_ok in Hr as (roomId & s & Hroom & Hr).
  destruct located as [|[rid h] [|]].
  1,3: apply bind_ok in Hr as (? & ? & _ & Hr); apply bind_ok in Hr as (? & ? & _ & Hr); done.
  apply ret_run in Hroom as [-> ->]. symmetry in Hlocated. apply take2_one in Hlocated. simpl in Hr.
  apply bind_ok in Hr as (lockedRoom & s & [Hlocked ->]%query_run & Hr). symmetry in Hlocked.
  apply bind_ok in Hr as (seats & s & [Hseats ->]%query_run & Hr). symmetry in Hseats.
  destruct lockedRoom as [locked|]; [|done].
  destruct (seatMatches codeHasher sc seats dummies) as [|member [|]] eqn:Hmatch; try done.
  apply bind_ok in Hr as (? & s & [Hck ->]%throw_if_ok & Hr). split_bools.
  apply bind_ok in Hr as (now & s & [Hnow ->]%validNow_ok & Hr). apply bind_ok in Hr as (? & s & ->%execute_run & Hr). apply bind_ok in Hr as (tok & s & [Htok ->]%opaqueToken_run & Hr). apply bind_ok in Hr as (sid & s & [_ ->]%randomUUID_run & Hr). apply bind_ok in Hr as (? & s & (d' & Hins & ->)%execute_or_ok & Hr).
  apply bind_ok in Hr as (response & s & [Hresp ->]%lift_result_run & Hr).
  apply ret_run in Hr as [[= -> ->] ->].
  apply find_elem in Hlocked as [Hin Hid]. split_bools. subst rid.
  apply insertSession_ok in Hins as [-> Hfresh]. cbn [db set_db set_sessions sessions] in *.
  assert (length (membersOf (rm_id locked) (db w)) = 4%nat) as Hfour by (rewrite <- (sort_by_perm byMemberId), Hseats; done).
  rewrite <- Hseats in Hmatch. apply (seats_found _ _ _ _ _ Hok Hfour) in Hmatch as [Hmem Hcodes].
  pose proof Hmem as [Hmin Hmid]%select_where_elem. apply bool_decide_eq_true in Hmid.
  exists locked, member. constructor.
  - constructor; try done. by exists candidates, h.
  - unfold parseJoinRoomResponse in *. destruct (_ && _) eqn:Hv in Hresp; [|done]. injection Hresp as <-. by rewrite Hv.
  - by eauto.
  - exists now, sid. split; [by eauto|]. split; [done|].
    apply Forall_forall. intros y Hy Heq. rewrite Forall_forall in Hfresh.
    apply (list_elem_of_fmap_2 (fun y => if seatSession (mb_id member) y then withRevoked now y else y)) in Hy.
    destruct (Hfresh _ Hy) as [_ Hne]. apply Hne. by destruct (seatSession _ y).
Qed.

(** The converse: the seat of the codes can be taken, if the clock runs and the random
    numbers are new. *)
Lemma joinBody_succeeds rc sc dummies candidates w locked member now :
  tables_ok (db w) -> candidateHashes codeHasher rc = Ok candidates -> seat_of rc sc (db w) locked member ->
  clock_now (ticks w) = Some now ->
  Forall (fun x => ss_id x <> uuid_supply (S (uuids w)) /\ ss_token_hash x <> tokenHash (random_token (uuids w))) (sessions (db w)) ->
  let resp := Joined (mb_id member) (mb_actor_id member) (mb_pseudonym member) in
  parseJoinRoomResponse resp = Ok resp ->
  exists w', joinBody codeHasher rc sc dummies candidates w = (Ok (resp, random_token (uuids w)), w').
Proof.
  intros Hok Hc [(candidates' & h & Hc' & Hsel) Hroom Hstatus [Hm Hmr] Hfour Hcodes] Hnow Hfresh resp Hresp.
  assert (candidates' = candidates) as -> by congruence. unfold joinBody.
  erewrite bind_run by reflexivity. rewrite Hsel. cbn [sort_by foldr insert_by take]. erewrite bind_run by reflexivity.
  erewrite bind_run by reflexivity. cbn [fst].
  assert (find (fun r => bool_decide (rm_id r = rm_id locked) &&
      existsb (fun c => bool_decide (fst c = rm_id locked) && isCandidate candidates c) (room_codes (accounts (db w)))) (rooms (db w))
    = Some locked) as ->.
  { rewrite <- (unique_room _ _ Hok Hroom). apply find_ext. intros r.
    assert (existsb (fun c => bool_decide (fst c = rm_id locked) && isCandidate candidates c) (room_codes (accounts (db w))) = true)
      as ->; [|apply andb_true_r]. apply existsb_exists. exists (rm_id locked, h).
    assert ((rm_id locked, h) ∈ select_where (isCandidate candidates) (room_codes (accounts (db w)))) as Hin by (rewrite Hsel; by left).
    apply select_where_elem in Hin as [Hin Hca]. split; [by apply list_elem_of_In|]. by rewrite Hca, bool_decide_true. }
  erewrite bind_run by reflexivity.
  assert (seatMatches codeHasher sc (sort_by byMemberId (membersOf (rm_id locked) (db w))) dummies = [member]) as ->.
  { apply seats_found; try done. split; [|done]. apply select_where_elem. by rewrite bool_decide_true. }
  assert (length (sort_by byMemberId (membersOf (rm_id locked) (db w))) = 4%nat) as -> by by rewrite (Permutation_length (sort_by_perm _ _)).
  rewrite !bool_decide_true by done. simpl.
  erewrite bind_run by reflexivity. erewrite bind_run by (unfold validNow, clockNow, mbind, M_bind; by rewrite Hnow).
  erewrite bind_run by reflexivity. erewrite bind_run by reflexivity. erewrite bind_run by reflexivity.
  erewrite bind_run; [|apply execute_or_ok; eexists; split; [eapply (insertSession_student _ _ (mb_id member))|reflexivity]]; try done.
  - erewrite bind_run by (unfold lift_result; subst resp; by rewrite Hresp). by eexists.
  - apply Forall_forall. intros y (x & -> & Hx)%update_elem. rewrite Forall_forall in Hfresh.
    by destruct (seatSession (mb_id member) x); apply (Hfresh x).
  - by apply list_elem_of_fmap_2.
    Unshelve. exact tt.
Qed.

Lemma joinRoom_ok value w resp token w' :
  tables_ok (db w) -> joinRoom codeHasher value w = (Ok (resp, token), w') ->
  exists rc sc locked member, parseJoinRoomRequest value = Ok (rc, sc) /\ joined rc sc w w' resp token locked member.
Proof.
  intros Hok. unfold joinRoom. intros (dummies & s & [_ ->]%lift_result_run & Hr)%bind_ok.
  apply bind_ok in Hr as ([rc sc] & s & [Hp ->]%lift_result_run & Hr).
  apply bind_ok in Hr as (candidates & s & [Hc ->]%lift_result_run & Hr).
  apply ends_inTransaction in Hr as [(e & ? & _)|(a & w0 & [= <-] & Hd & Hr)]; [done|].
  rewrite <- Hd in Hok. apply (joinBody_ok _ _ _ _ _ _ _ _ Hok Hc) in Hr as (locked & member & [Hs Hresp Htok Hsess]).
  exists rc, sc, locked, member. rewrite Hd in *. split; [done|by constructor].
Qed.

Lemma withRevoked_token t s : ss_token_hash (withRevoked t s) = ss_token_hash s.
Proof. done. Qed.
Lemma joined_sessions rc sc w w' resp token locked member :
  joined rc sc w w' resp token locked member ->
  (forall s, s ∈ sessions (db w') -> heldBy (mb_id member) s -> ss_token_hash s = tokenHash token)
  /\ (forall s, s ∈ sessions (db w) -> ~ heldBy (mb_id member) s -> s ∈ sessions (db w')).
Proof.
  intros [_ _ _ (now & sid & _ & -> & _)]. simpl. split.
  - intros s [(x & -> & Hx)%update_elem|Hs%list_elem_of_singleton]%elem_of_app Hh; [|by subst].
    destruct (seatSession (mb_id member) x) eqn:E; [by apply withRevoked_not_held in Hh|].
    apply not_true_iff_false in E. by rewrite seatSession_held in E.
  - intros s Hs Hno. apply elem_of_app. left.
    apply (list_elem_of_fmap_2 (fun x => if seatSession (mb_id member) x then withRevoked now x else x)) in Hs.
    destruct (seatSession (mb_id member) s) eqn:E; [by apply seatSession_held in E|done].
Qed.

Lemma joined_inv rc sc w w' resp token locked member :
  joined rc sc w w' resp token locked member -> seats_inv (db w) -> seats_inv (db w').
Proof.
  intros Hj Hinv. pose proof Hj as [Hseat _ _ (now & sid & _ & Hd & Hfresh)].
  rewrite Hd. set (session := SessionRow _ _ _ _ _ _ _). set (d1 := set_sessions (update_where (seatSession (mb_id member)) (withRevoked now) (sessions (db w))) (db w)).
  assert (seats_inv d1) as [[] Hex] by by apply inv_revoke.
  constructor.
  - constructor; simpl in *; try done.
    + apply NoDup_map_snoc; [done|]. intros y (x & -> & Hx)%update_elem. rewrite Forall_forall in Hfresh.
      specialize (Hfresh _ Hx). by destruct (seatSession _ x).
    + apply Forall_app. split; [done|]. constructor; [by split; [|eexists]|constructor].
  - apply (exclusive_add session d1 Hex). simpl.
    intros memberId x (y & -> & Hy)%update_elem Hh (_ & [= <-] & _).
    destruct (seatSession (mb_id member) y) eqn:E; [by apply withRevoked_not_held in Hh|].
    apply not_true_iff_false in E. by rewrite seatSession_held in E.
Qed.
End Join.

(** ** Sessions and links *)

Section Links.
Context `{Schemas} `{Postgres} `{Environment} `{Random}.

Lemma poolStatement_run {A} (f : Z -> database -> A * database) w r w' : poolStatement f w = (r, w') ->
  r = Ok (fst (f (db_now (txs w)) (db w))) /\ db w' = snd (f (db_now (txs w)) (db w)).
Proof. unfold poolStatement. destruct (f _ _) as [a d]. by intros [= <- <-]. Qed.

Lemma revoke_run rawToken w r w' : revoke rawToken w = (r, w') ->
  db w' = db w \/ exists p now, db w' = set_sessions (update_where p (withRevoked now) (sessions (db w))) (db w).
Proof.
  unfold revoke. destruct (tokenOf rawToken) as [t|]; [|intros [= _ <-]; by left].
  intros [_ ->]%poolStatement_run. right. by eexists _, _.
Qed.

(** What a session stands for. *)
Lemma getSession_run rawToken w p w' : getSession rawToken w = (Ok (Some p), w') ->
  exists t s, tokenOf rawToken = Some t /\ s ∈ sessions (db w) /\ ss_token_hash s = tokenHash t
    /\ ss_revoked_at s = None /\ db_now (txs w) < ss_expires_at s /\ sessionPrincipal s (db w) = Some p.
Proof.
  unfold getSession. destruct (tokenOf rawToken) as [t|]; [|done]. intros (row & s1 & Hq & Hr)%bind_ok.
  apply poolStatement_run in Hq as [[= ->] _]. destruct (head _) as [s|] eqn:Hh; [|done]. simpl in Hr.
  assert (s ∈ select_where (fun s => ofToken (tokenHash t) s && liveSession (db_now (txs w)) s) (sessions (db w))) as Hs.
  { destruct (select_where _ _); [done|]. injection Hh as ->. by left. }
  apply select_where_elem in Hs as [Hs Hp]. unfold ofToken, liveSession in Hp. split_bools.
  destruct (sessionPrincipal s (db w)) as [q|] eqn:Hq; [|done]. apply bind_ok in Hr as (? & s2 & [_ ->]%throw_if_ok & Hr).
  apply ret_run in Hr as [[= ->] _]. exists t, s. split_and!; try done. lia.
Qed.
(** The newest session of a fresh token. *)
Lemma getSession_added s t p w l d :
  tokenOf (Some t) = Some t -> ss_token_hash s = tokenHash t -> ss_revoked_at s = None -> db_now (txs w) < ss_expires_at s ->
  Forall (fun x => ss_token_hash x <> ss_token_hash s) l -> db w = set_sessions (l ++ [s]) d ->
  sessionPrincipal s (db w) = Some p -> sessionValid p = true -> fst (getSession (Some t) w) = Ok (Some p).
Proof.
  intros Ht Hh Hr Hn Hall Hd Hp Hv. unfold getSession. rewrite Ht. unfold poolStatement, mbind at 1, M_bind at 1.
  cbn [fst]. rewrite (f_equal sessions Hd). cbn [sessions set_sessions].
  rewrite (getSession_new s l (db_now (txs w)) t Hh Hr Hn Hall). simpl. rewrite Hp. simpl. by rewrite Hv.
Qed.

Lemma update_where_none {A} (p : A -> bool) f l : select_where p l = [] -> update_where p f l = l.
Proof.
  induction l as [|x l IH]; simpl; [done|]. destruct (p x) eqn:Hp; [done|]. intros Hl. by rewrite IH.
Qed.
Lemma set_links_same d : set_links (magic_links (accounts d)) d = d.
Proof. destruct d as [? ? ? ? ? ? ? ? ? ? []]. done. Qed.

(** A link that has been used. *)
Record link_used (rawToken st : string) (w w' : world) (l : magic_link_row) : Prop := {
  lu_link : l ∈ magic_links (accounts (db w)) /\ ml_token_hash l = tokenHash rawToken /\ ml_consumed_at l = None;
  lu_token : exists n, st = random_token n;
  lu_time : exists now, (exists n, clock_now n = Some now) /\ now < ml_expires_at l
    /\ exists sid until, (exists n, clock_now n = Some until) /\
      let session := SessionRow sid (tokenHash st) teacher_principal (Some (ml_teacher_id l)) None (until + SESSION_DURATION_MS) None in
      insertSession session (set_links (update_where (consumable (tokenHash rawToken) now) (withConsumed now)
        (magic_links (accounts (db w)))) (db w)) = Some (db w');
}.
Lemma consumeLink_cases rawToken w r w' : consumeLink rawToken w = (r, w') ->
  db w' = db w /\ (forall st, r <> Ok (Some st)) \/ exists st l, r = Ok (Some st) /\ link_used rawToken st w w' l.
Proof.
  unfold consumeLink. destruct (tokenOf (Some rawToken)) as [t|] eqn:Ht; [|intros [= <- <-]; by left].
  assert (t = rawToken) as -> by (unfold tokenOf in Ht; destruct rawToken; [done|]; destruct (_ <? _); congruence).
  intros [(e & -> & Hd)|(a & w0 & -> & Hd & Hr)]%ends_inTransaction; [by left|]. unfold consumeBody in Hr.
  apply bind_ok in Hr as (now & s & [Hnow ->]%validNow_ok & Hr). apply bind_ok in Hr as (consumed & s & [Hc ->]%query_run & Hr).
  simpl in Hc. apply bind_ok in Hr as (? & s & ->%execute_run & Hr). simpl in Hr. destruct consumed as [|l ls].
  - apply ret_run in Hr as [-> ->]. left. simpl. split; [|done]. by rewrite update_where_none, set_links_same.
  - right. apply bind_ok in Hr as (st & s & [Hst ->]%opaqueToken_run & Hr).
    apply bind_ok in Hr as (sid & s & [_ ->]%randomUUID_run & Hr). apply bind_ok in Hr as (until & s & [Huntil ->]%validNow_ok & Hr).
    apply bind_ok in Hr as (? & s & [_ ->]%validNow_ok & Hr). apply bind_ok in Hr as (? & s & (d & Hins & ->)%execute_or_ok & Hr).
    apply ret_run in Hr as [-> ->]. exists st, l. split; [done|]. simpl in *. rewrite Hd in *.
    assert (l ∈ select_where (consumable (tokenHash rawToken) now) (magic_links (accounts (db w)))) as Hl by (rewrite <- Hc; by left).
    apply select_where_elem in Hl as [Hl Hp]. unfold consumable in Hp. split_bools.
    constructor; [done|done|]. exists now. split; [by eauto|]. split; [lia|]. exists sid, until. by split; [by eauto|].
Qed.

Lemma link_used_inv rawToken st w w' l : link_used rawToken st w w' l -> seats_inv (db w) -> seats_inv (db w').
Proof.
  intros [_ _ (now & _ & _ & sid & until & _ & Hins)] Hinv. eapply (inv_add_session _ _ _ Hins).
  - by split; [eexists|].
  - by intros memberId x _ _ (? & _).
  - by apply inv_consume.
Qed.
End Links.

(** ** The steps *)

Section Steps.
Context `{Schemas} `{Postgres} `{Environment} `{Hmac} `{Random} `{RoomCodeSource} {SL : RoomCodeSourceLaws}.
Variable codeHasher : CodeHasher.
Variable drawFuel : nat.

(** What changes rooms' codes, seats, sessions and links; everything else in the server
    leaves them alone. *)
Inductive seat_step (w w' : world) : Prop :=
| step_create identity value r : createRoom codeHasher drawFuel identity value w = (r, w') -> seat_step w w'
| step_join value r : joinRoom codeHasher value w = (r, w') -> seat_step w w'
| step_revoke rawToken r : revoke rawToken w = (r, w') -> seat_step w w'
| step_request origin email r : requestLink origin email w = (r, w') -> seat_step w w'
| step_consume rawToken r : consumeLink rawToken w = (r, w') -> seat_step w w'
| step_other : seatsView (db w') = seatsView (db w) -> seat_step w w'.

Lemma createRoom_cases identity value w r w' : createRoom codeHasher drawFuel identity value w = (r, w') ->
  db w' = db w \/ exists a, created codeHasher (db w) (db w') a.
Proof.
  destruct r as [a|e]; intros Hr; [right; exists a; by eapply createRoom_ok|]. left. revert Hr.
  destruct identity; [|by intros [= _ <-]]. unfold createRoom. unfold mbind at 1, M_bind at 1.
  destruct (lift_result _ w) as [[topic|e1] w1] eqn:Ht; unfold lift_result in Ht; injection Ht as _ <-; [|by intros [= _ <-]].
  apply inTransaction_err.
Qed.
Lemma joinRoom_cases value w r w' : tables_ok (db w) -> joinRoom codeHasher value w = (r, w') ->
  db w' = db w \/ exists rc sc resp token locked member, joined codeHasher rc sc w w' resp token locked member.
Proof.
  intros Hok. destruct r as [[resp token]|e]; intros Hr.
  - right. apply joinRoom_ok in Hr as (rc & sc & locked & member & _ & Hj); [|done]. by exists rc, sc, resp, token, locked, member.
  - left. revert Hr. unfold joinRoom, mbind, M_bind, lift_result. destruct (dummySeatHashes codeHasher); [|by intros [= _ <-]].
    destruct (parseJoinRoomRequest value); [|by intros [= _ <-]]. destruct (candidateHashes _ _); [|by intros [= _ <-]].
    apply inTransaction_err.
Qed.
Lemma insertLink_added l d d' : insertLink l d = Some d' ->
  d' = set_links (magic_links (accounts d) ++ [l]) d
  /\ forall x, x ∈ magic_links (accounts d) -> ml_token_hash x <> ml_token_hash l.
Proof.
  unfold insertLink. intros (u & Hg & Hd)%bind_Some. apply guardO_Some in Hg. split_bools. injection Hd as <-.
  split; [done|]. intros x Hx. no_row. by split_bools.
Qed.
Lemma requestLink_cases origin email w r w' : requestLink origin email w = (r, w') ->
  db w' = db w \/ exists l, insertLink l (db w) = Some (db w').
Proof.
  unfold requestLink, opaqueToken, draw, validNow, clockNow. unfold mbind, M_bind, mret, M_ret, throw. simpl.
  destruct (clock_now (ticks w)) as [now|]; simpl; [|intros [= _ <-]; by left].
  destruct (clock_now (S (ticks w))) as [now'|]; simpl; [|intros [= _ <-]; by left].
  destruct (find _ _) as [[tid em]|]; simpl; [|intros [= _ <-]; by left]. unfold execute_or. simpl.
  destruct (insertLink _ (db w)) as [d|] eqn:Hi; intros [= _ <-]; [right; by eexists|by left].
Qed.

Lemma step_inv w w' : seat_step w w' -> seats_inv (db w) -> seats_inv (db w').
Proof.
  intros Hs Hinv. destruct Hs as [i v r Hr|v r Hr|t r Hr|o e r Hr|t r Hr|Hv].
  - by apply createRoom_cases in Hr as [->|(a & [_ _ _ Hc])]; [|apply Hc].
  - apply joinRoom_cases in Hr as [->|(rc & sc & resp & t & l & m & Hj)]; [done| |by apply si_tables].
    by eapply joined_inv.
  - apply revoke_run in Hr as [->|(p & now & ->)]; [done|]. by apply inv_revoke.
  - apply requestLink_cases in Hr as [->|(l & [-> Hnew]%insertLink_added)]; [done|]. apply inv_links; [|done].
    apply NoDup_map_snoc; [apply Hinv|done].
  - apply consumeLink_cases in Hr as [[-> _]|(st & l & _ & Hu)]; [done|]. by eapply link_used_inv.
  - by eapply seats_inv_view.
Qed.
Lemma steps_inv w w' : rtc seat_step w w' -> seats_inv (db w) -> seats_inv (db w').
Proof. induction 1 as [|w w1 w' Hs _ IH]; [done|]. intros Hinv. by eapply IH, step_inv. Qed.

(** A link that is spent stays so. *)
Definition spent (hash : string) (d : database) : Prop :=
  (exists l, l ∈ magic_links (accounts d) /\ ml_token_hash l = hash)
  /\ forall l, l ∈ magic_links (accounts d) -> ml_token_hash l = hash -> ml_consumed_at l <> None.
Lemma spent_update p now h d ls : ls = update_where p (withConsumed now) (magic_links (accounts d)) ->
  spent h d -> (exists l, l ∈ ls /\ ml_token_hash l = h) /\ forall l, l ∈ ls -> ml_token_hash l = h -> ml_consumed_at l <> None.
Proof.
  intros -> [(l & Hl & Hh) Hall]. split.
  - exists (if p l then withConsumed now l else l). split; [|by destruct (p l)].
    by apply (list_elem_of_fmap_2 (fun l => if p l then withConsumed now l else l)).
  - intros x (y & -> & Hy)%update_elem Hx. destruct (p y); [done|by apply Hall].
Qed.
Lemma spent_same h d d' : magic_links (accounts d') = magic_links (accounts d) -> spent h d -> spent h d'.
Proof. unfold spent. by intros ->. Qed.
Lemma link_used_links rawToken st w w' l : link_used rawToken st w w' l -> exists now,
  now < ml_expires_at l /\ magic_links (accounts (db w')) =
  update_where (consumable (tokenHash rawToken) now) (withConsumed now) (magic_links (accounts (db w))).
Proof. intros [_ _ (now & _ & Hlt & sid & until & _ & [Hd _]%insertSession_ok)]. exists now. by rewrite Hd. Qed.
Lemma step_spent h w w' : seat_step w w' -> seats_inv (db w) -> spent h (db w) -> spent h (db w').
Proof.
  intros Hs Hinv Hsp. destruct Hs as [i v r Hr|v r Hr|t r Hr|o e r Hr|t r Hr|Hv].
  - apply createRoom_cases in Hr as [->|(a & [(d1 & ? & ? & ? & ? & ? & ms & _ & _ & [-> _ _ _] & -> & _) _ _ _])]; [done|].
    exact Hsp.
  - apply joinRoom_cases in Hr as [->|(rc & sc & resp & t & l & m & [_ _ _ (now & sid & _ & -> & _)])];
      [done|exact Hsp|by apply si_tables].
  - apply revoke_run in Hr as [->|(p & now & ->)]; [done|]. exact Hsp.
  - apply requestLink_cases in Hr as [->|(l & [-> Hnew]%insertLink_added)]; [done|].
    destruct Hsp as [(x & Hx & Hh) Hall]. split; [exists x; split; [apply elem_of_app; by left|done]|]. simpl.
    intros y [Hy|Hy%list_elem_of_singleton]%elem_of_app Hyh; [by apply Hall|]. subst y h. by destruct (Hnew _ Hx).
  - apply consumeLink_cases in Hr as [[-> _]|(st & l & _ & (now & _ & Hl)%link_used_links)]; [done|].
    by apply (spent_update _ _ _ _ _ Hl).
  - eapply spent_same; [|exact Hsp]. by injection Hv.
Qed.
Lemma steps_spent h w w' : rtc seat_step w w' -> seats_inv (db w) -> spent h (db w) -> spent h (db w').
Proof.
  induction 1 as [|w w1 w' Hs _ IH]; [done|]. intros Hinv Hsp. apply IH; [by eapply step_inv|by eapply step_spent].
Qed.
End Steps.

(** ** What a client sees *)

Section Guarantees.
Context `{Schemas} `{Postgres} `{Environment} `{Hmac} `{Random} (RL : RandomLaws) `{RoomCodeSource} {SL : RoomCodeSourceLaws}.
Variable codeHasher : CodeHasher.
Variable drawFuel : nat.

Lemma tokenOf_random n : tokenOf (Some (random_token n)) = Some (random_token n).
Proof. pose proof (random_token_length RL n) as Hl. unfold tokenOf. destruct (random_token n); [done|]. by rewrite Hl. Qed.

Definition studentOf (room : room_row) (member : member_row) : AuthSession :=
  StudentSession (rm_id room) (mb_id member) (mb_actor_id member) (mb_pseudonym member) (rm_nova_actor_id room).
Lemma unique_member d m : tables_ok d -> m ∈ members d ->
  find (fun x => bool_decide (Some (mb_id x) = Some (mb_id m))) (members d) = Some m.
Proof.
  intros Hok Hin. pose proof (unique_by mb_id (members d) m (tk_members _ Hok) Hin) as Hf.
  rewrite <- Hf. apply find_ext. intros x. apply bool_decide_ext. split; [congruence|by intros ->].
Qed.
Lemma principal_of_seat s room member d : tables_ok d -> room ∈ rooms d -> member ∈ members d -> mb_room_id member = rm_id room ->
  mb_pseudonym member <> ""%string -> ss_kind s = student_principal -> ss_room_member_id s = Some (mb_id member) ->
  sessionPrincipal s d = Some (studentOf room member).
Proof.
  intros Hok Hr Hm Hmr Hp Hk Hs. unfold sessionPrincipal, sessionMember, memberRoom. rewrite Hk, Hs.
  rewrite unique_member by done. simpl. rewrite Hmr, (unique_room _ _ Hok Hr). simpl. rewrite bool_decide_false by done.
  done.
Qed.

(** A session that stands for a student holds the seat. *)
Lemma student_held t w r m a p n w' : Forall kind_ok (sessions (db w)) ->
  getSession (Some t) w = (Ok (Some (StudentSession r m a p n)), w') ->
  exists s, s ∈ sessions (db w) /\ ss_token_hash s = tokenHash t /\ heldBy m s.
Proof.
  intros Hk (t' & s & Ht & Hs & Hh & Hr & _ & Hp)%getSession_run. assert (t' = t) as ->.
  { unfold tokenOf in Ht. destruct t; [done|]. destruct (_ <? _); congruence. }
  exists s. split_and!; try done. rewrite Forall_forall in Hk. specialize (Hk _ Hs). unfold kind_ok in Hk. unfold sessionPrincipal in Hp.
  destruct (ss_kind s) eqn:Hkind; [by destruct Hk as [[x Hx] _]; rewrite Hx in Hp|]. split; [done|]. split; [|done].
  apply bind_Some in Hp as (m0 & Hf & Hp). apply bind_Some in Hp as (r0 & _ & Hp). destruct (bool_decide _); [done|].
  injection Hp as <- <- <- <- <-. unfold sessionMember in Hf. apply find_elem in Hf as [_ Hf]. by split_bools.
Qed.
(** A link that has been used is spent. *)
Lemma link_used_spent rawToken st w w' l : tables_ok (db w) -> link_used rawToken st w w' l ->
  spent (tokenHash rawToken) (db w').
Proof.
  intros Hok [(Hl & Hh & Hn) _ (now & _ & Hlt & sid & until & _ & [Hd _]%insertSession_ok)]. rewrite Hd.
  set (p := consumable (tokenHash rawToken) now) in *. assert (p l = true) as Hp.
  { unfold p, consumable. rewrite !bool_decide_true by done. by apply Z.ltb_lt. }
  split; simpl.
  - exists (withConsumed now l). split; [|done]. apply (list_elem_of_fmap_2 (fun l => if p l then withConsumed now l else l)) in Hl.
    by rewrite Hp in Hl.
  - intros x (y & -> & Hy)%update_elem Hx. destruct (p y) eqn:Hpy; [done|].
    pose proof (unique_by ml_token_hash _ _ (tk_links _ Hok) Hl) as Hfl. pose proof (unique_by ml_token_hash _ _ (tk_links _ Hok) Hy) as Hfy.
    rewrite Hh, <- Hx, Hfy in Hfl. injection Hfl as ->. congruence.
Qed.

(** The two codes give the seat they were printed for, and nothing else: a join that is
    answered was for the only room of the room's code, not yet closed, and the only one of
    its four seats that has the seat's code; whoever held the seat before is signed out,
    every other session is left alone, and the new token stands for that seat until it
    expires. *)
Theorem join_takes_seat value w resp token w' :
  tables_ok (db w) -> joinRoom codeHasher value w = (Ok (resp, token), w') ->
  exists rc sc locked member now,
    parseJoinRoomRequest value = Ok (rc, sc) /\ seat_of codeHasher rc sc (db w) locked member
    /\ resp = Joined (mb_id member) (mb_actor_id member) (mb_pseudonym member)
    /\ (forall s, s ∈ sessions (db w') -> heldBy (mb_id member) s -> ss_token_hash s = tokenHash token)
    /\ (forall s, s ∈ sessions (db w) -> ~ heldBy (mb_id member) s -> s ∈ sessions (db w'))
    /\ (exists n, clock_now n = Some now)
    /\ (forall v, db v = db w' -> db_now (txs v) < now + SESSION_DURATION_MS ->
         sessionValid (studentOf locked member) = true ->
         fst (getSession (Some token) v) = Ok (Some (studentOf locked member))).
Proof.
  intros Hok Hr. apply joinRoom_ok in Hr as (rc & sc & locked & member & Hp & Hj); [|done].
  pose proof (joined_sessions _ _ _ _ _ _ _ _ _ Hj) as [Hout Hkept].
  destruct Hj as [Hseat [Hresp Hvalid] [tn ->] (now & sid & Hnow & Hd & Hfresh)].
  exists rc, sc, locked, member, now. split_and!; try done. intros v Hv Hlt Hpr. rewrite <- Hv in Hd.
  eapply getSession_added; [apply tokenOf_random| | | | |exact Hd| |done]; try done.
  - apply Forall_forall. intros y (x & -> & Hx)%update_elem. rewrite Forall_forall in Hfresh. simpl.
    by destruct (seatSession (mb_id member) x); apply (Hfresh x).
  - rewrite Hd. destruct Hseat as [_ Hin _ [Hmin Hmid] _ _].
    change (sessionPrincipal ?s (set_sessions ?l (db w))) with (sessionPrincipal s (db w)).
    apply principal_of_seat; try done. intros Hps. subst resp. unfold parseJoinRoomResponse in Hvalid. simpl in Hvalid.
    by rewrite Hps, andb_false_r in Hvalid.
Qed.

(** C6. A seat has one holder: however rooms are made, joined and left, no two tokens stand
    for the same seat at the same time, whoever joined with the codes and how often. *)
Theorem one_session_per_seat w w' t t' r r' m a a' p p' n n' :
  seats_inv (db w) -> rtc (seat_step codeHasher drawFuel) w w' ->
  fst (getSession (Some t) w') = Ok (Some (StudentSession r m a p n)) ->
  fst (getSession (Some t') w') = Ok (Some (StudentSession r' m a' p' n')) ->
  tokenHash t = tokenHash t'.
Proof.
  intros Hinv Hsteps Ht Ht'. pose proof (steps_inv _ _ _ _ Hsteps Hinv) as [[] Hex].
  destruct (getSession (Some t) w') as [o w1] eqn:Hg, (getSession (Some t') w') as [o' w2] eqn:Hg'. simpl in *. subst o o'.
  apply student_held in Hg as (s & Hs & Hh & Hheld); [|done]. apply student_held in Hg' as (s' & Hs' & Hh' & Hheld'); [|done].
  rewrite <- Hh, <- Hh'. by apply (Hex m).
Qed.


(** The seats of a room that has just been created. *)
Lemma created_members d d' a rid h nova teacher topic readable now d1 ms : tables_ok d ->
  room_added rid h nova teacher topic readable now d d1 -> d' = set_members (members d ++ ms) d1 ->
  Forall2 (seat_row codeHasher rid) (cr_seatInvites a) ms -> membersOf rid d' = ms.
Proof.
  intros Hok [-> _ Hrooms _] -> Hrows. unfold membersOf. simpl. rewrite select_where_app, select_where_none.
  - induction Hrows as [|x m xs ms Hrow _ IH]; [done|]. simpl. rewrite bool_decide_true by apply Hrow. by f_equal.
  - intros m Hm. apply bool_decide_eq_false. pose proof (tk_member_rooms _ Hok) as Hall. rewrite Forall_forall in Hall.
    specialize (Hall _ Hm). apply list_elem_of_fmap_1 in Hall as (r & -> & Hr). by apply Hrooms.
Qed.
(** No two codes of ten letters have the same digest. *)
Definition digests_differ : Prop := forall pepper a b, isCode 10 a = true -> isCode 10 b = true ->
  hmac_sha256 pepper a = hmac_sha256 pepper b -> a = b.
Lemma isCode_normal n s : isCode n s = true -> normalCode s = s.
Proof. unfold isCode. intros Hs. split_bools. by apply letters_normal. Qed.
Lemma code_verifies (HL : HmacLaws) a b stored : hasher_ok codeHasher -> digests_differ -> isCode 10 a = true -> isCode 10 b = true ->
  hash codeHasher a = Ok stored -> verify codeHasher b stored = true <-> b = a.
Proof.
  intros Hh Hinj Ha Hb Hs. rewrite (verify_rotated HL codeHasher codeHasher a stored b Hh Hh); try done.
  - by rewrite (isCode_normal _ _ Ha), (isCode_normal _ _ Hb).
  - intros pepper. rewrite (isCode_normal _ _ Ha), (isCode_normal _ _ Hb). by apply Hinj.
Qed.

Lemma created_valid d d' a i invite : created codeHasher d d' a -> cr_seatInvites a !! i = Some invite ->
  isCode 6 (cr_roomCode a) = true /\ isCode 10 (si_code invite) = true
  /\ let r := Joined (si_roomMemberId invite) (si_actorId invite) (si_pseudonym invite) in parseJoinRoomResponse r = Ok r.
Proof.
  intros [_ _ Hv _] Hi. unfold parseCreateRoomResponse in Hv. destruct (_ && _) eqn:E; [|done]. split_bools.
  match goal with E : forallb inviteOk _ = true |- _ => rewrite forallb_forall in E; specialize (E invite) end.
  apply list_elem_of_lookup_2, list_elem_of_In in Hi. assert (inviteOk invite = true) as Hok by auto.
  unfold inviteOk in Hok. split_bools. split_and!; try done. unfold parseJoinRoomResponse. simpl.
  rewrite bool_decide_true by done.
  by repeat match goal with E : format_uuid _ = true |- _ => rewrite E; clear E end.
Qed.

(** The invitation of a created room is the way to its seat. *)
Lemma created_seat (HL : HmacLaws) d d' a i invite : hasher_ok codeHasher -> digests_differ -> tables_ok d ->
  created codeHasher d d' a -> cr_seatInvites a !! i = Some invite ->
  exists room member, seat_of codeHasher (cr_roomCode a) (si_code invite) d' room member /\ rm_id room = cr_roomId a
    /\ seat_row codeHasher (cr_roomId a) invite member.
Proof.
  intros Hh Hinj Hok [(d1 & h & readable & teacher & topic & now & ms & Hhash & Hread & Hadd & Hd' & Hrows) Hnd Hvalid _] Hi.
  assert (forallb inviteOk (cr_seatInvites a) = true /\ length (cr_seatInvites a) = 4%nat) as [Hinv Hfour].
  { unfold parseCreateRoomResponse in Hvalid. destruct (_ && _) eqn:E; [|done]. by split_bools. }
  assert (forall k x, cr_seatInvites a !! k = Some x -> isCode 10 (si_code x) = true) as Hcode.
  { intros k x Hk. rewrite forallb_forall in Hinv. apply list_elem_of_lookup_2, list_elem_of_In, Hinv in Hk.
    unfold inviteOk in Hk. by split_bools. }
  destruct (Forall2_lookup_l _ _ _ _ _ Hrows Hi) as (m & Hm & Hrow). pose proof (created_members _ _ _ _ _ _ _ _ _ _ _ _ Hok Hadd Hd' Hrows) as Hms.
  pose proof (Forall2_length _ _ _ Hrows) as Hlen. subst d'. destruct Hadd as [-> Hcodes Hrooms _].
  eexists (RoomRow (cr_roomId a) (cr_novaActorId a) teacher topic scheduled 2700 None None None 1 now), m.
  split; [|by split]. constructor; simpl.
  - exists readable, h. split; [done|]. rewrite select_where_app, select_where_none; simpl.
    + unfold isCandidate. rewrite bool_decide_true; [done|]. simpl. rewrite (candidates_verify HL _ _ _ _ Hh Hread).
      apply (verify_stored HL _ _ _ Hh). exists (ch_currentVersion codeHasher). split; [by apply current_version|done].
    + intros c Hc. apply bool_decide_eq_false. by apply Hcodes.
  - apply elem_of_app. right. by left.
  - by left.
  - split; [apply elem_of_app; right; by eapply list_elem_of_lookup_2|apply Hrow].
  - rewrite Hms. by rewrite <- Hlen.
  - rewrite Hms. intros m' Hm'. apply list_elem_of_lookup_1 in Hm' as [k Hk]. destruct (Forall2_lookup_r _ _ _ _ _ Hrows Hk) as (x & Hx & Hrow').
    split.
    + rewrite (code_verifies HL (si_code x)); [|done|done|by eapply Hcode|by eapply Hcode|apply Hrow']. intros Heq.
      assert (map si_code (cr_seatInvites a) !! i = Some (si_code x)) as H1' by (rewrite list_lookup_fmap, Hi; simpl; congruence).
      assert (map si_code (cr_seatInvites a) !! k = Some (si_code x)) as H2' by (by rewrite list_lookup_fmap, Hx).
      pose proof (NoDup_lookup _ _ _ _ Hnd H1' H2') as ->. congruence.
    + intros ->. rewrite (code_verifies HL (si_code invite)); [done|done|done|by eapply Hcode|by eapply Hcode|apply Hrow].
Qed.

Definition seatTables (d : database) := (rooms d, members d, room_codes (accounts d)).
Lemma seat_of_tables rc sc d d' room member : seatTables d' = seatTables d ->
  seat_of codeHasher rc sc d room member -> seat_of codeHasher rc sc d' room member.
Proof.
  unfold seatTables. intros [= Hr Hm Hc] []. constructor; unfold membersOf in *; by rewrite ?Hr, ?Hm, ?Hc.
Qed.
Lemma joinRequest_ok rc sc : isCode 6 rc = true -> isCode 10 sc = true ->
  parseJoinRoomRequest (JObj [("roomCode", JStr rc); ("seatCode", JStr sc)]%string) = Ok (rc, sc).
Proof. intros Hr Hs. unfold parseJoinRoomRequest, closedObject, codeSchema, stringWhere. simpl. by rewrite Hr, Hs. Qed.

(** C31. The codes a teacher hands out work: whoever sends the code of a room just created
    with the code of one of its four seats takes that seat, as long as the three tables of
    rooms are as the creation left them. *)
Theorem room_admits_its_codes (HL : HmacLaws) identity value w a w1 i invite v now :
  hasher_ok codeHasher -> digests_differ -> seats_inv (db w) ->
  createRoom codeHasher drawFuel identity value w = (Ok a, w1) -> cr_seatInvites a !! i = Some invite ->
  seatTables (db v) = seatTables (db w1) -> tables_ok (db v) -> clock_now (ticks v) = Some now ->
  Forall (fun x => ss_id x <> uuid_supply (S (uuids v)) /\ ss_token_hash x <> tokenHash (random_token (uuids v))) (sessions (db v)) ->
  exists v', joinRoom codeHasher (JObj [("roomCode", JStr (cr_roomCode a)); ("seatCode", JStr (si_code invite))]%string) v
    = (Ok (Joined (si_roomMemberId invite) (si_actorId invite) (si_pseudonym invite), random_token (uuids v)), v').
Proof.
  intros Hh Hinj Hinv Hr Hi Hv Hok Hnow Hfresh. apply createRoom_ok in Hr as Hc.
  destruct (created_seat HL _ _ _ _ _ Hh Hinj (si_tables _ Hinv) Hc Hi) as (room & member & Hseat & _ & [Hm1 Hm2 Hm3 _ _]).
  apply (seat_of_tables _ _ _ _ _ _ Hv) in Hseat. pose proof (created_valid _ _ _ _ _ Hc Hi) as (H6 & H10 & Hjv).
  unfold joinRoom. destruct (mapM_total (fun i => hash codeHasher ("learning-orbit-dummy-seat-" ++ dec_string i)%string) [0; 1; 2; 3]) as [dummies Hd].
  { intros x _. by apply hash_total. }
  erewrite bind_run by (unfold lift_result, dummySeatHashes; by rewrite Hd).
  erewrite bind_run by (unfold lift_result; by rewrite joinRequest_ok). cbn [fst snd].
  destruct (candidateHashes_total codeHasher (cr_roomCode a) Hh) as [candidates Hca].
  erewrite bind_run by (unfold lift_result; by rewrite Hca). unfold inTransaction.
  set (v0 := World _ _ _ _ _). rewrite <- Hm1, <- Hm2, <- Hm3 in *.
  destruct (joinBody_succeeds codeHasher (cr_roomCode a) (si_code invite) dummies candidates v0 room member now) as [v' ->]; try done.
  by eexists.
Qed.

(** Who may read a room, and what is read. *)
Record readable_by (identity : AuthSession) (roomId : string) (d : database) (details : RoomDetails) : Prop := {
  rb_room : exists rid room, uuid_in roomId = Some rid /\ select_where (fun r => bool_decide (rm_id r = rid)
      && match identity with TeacherSession t _ => bool_decide (uuid_in t = Some (rm_teacher_id r)) | _ => true end) (rooms d) = [room]
    /\ details = detailsOf room (sort_by bySeat (membersOf rid d))
    /\ deletionActiveIn rid d = false /\ length (membersOf rid d) = 4%nat;
  rb_student : match identity with StudentSession own _ _ _ _ => own = roomId | TeacherSession _ _ => True end;
}.

(** A room is shown to its members and to its teacher: details are answered only for
    the room of the student or a room of the teacher, and never while its deletion is under
    way; they are the row of the room and its four seats in their order, as they stand when
    the reading ends. *)
Theorem getRoom_access lifecycle identity roomId w details w' :
  getRoom lifecycle identity roomId w = (Ok details, w') -> readable_by identity roomId (db w') details.
Proof.
  unfold getRoom. intros (? & s & [_ ->]%throw_if_ok & Hr)%bind_ok.
  apply bind_ok in Hr as (? & s & [Hown ->]%throw_if_ok & Hr).
  apply bind_ok in Hr as (rid & s & [Hrid ->]%uuidParam_ok & Hr).
  apply bind_ok in Hr as (tid & s & Htid & Hr). apply bind_ok in Hr as (allowed & s1 & _ & Hr).
  apply bind_ok in Hr as (? & s2 & [_ ->]%throw_if_ok & Hr). apply bind_ok in Hr as (? & s2 & _ & Hr).
  apply ends_inTransaction in Hr as [(e & ? & _)|(a & w0 & [= <-] & _ & Hr)]; [done|].
  apply bind_ok in Hr as (owner & s3 & [Howner ->]%query_run & Hr). destruct owner as [|room [|]]; [done| |done].
  apply bind_ok in Hr as (deleting & s3 & [Hdel ->]%query_run & Hr).
  apply bind_ok in Hr as (? & s3 & [-> ->]%throw_if_ok & Hr).
  apply bind_ok in Hr as (seats & s3 & [-> ->]%query_run & Hr).
  apply bind_ok in Hr as (? & s3 & [Hfour ->]%throw_if_ok & Hr). split_bools.
  apply lift_result_run in Hr as [Hv ->]. unfold parseRoomDetails in Hv. destruct (_ && _) in Hv; [|done]. injection Hv as <-.
  constructor.
  - exists rid, room. split_and!; try done.
    + rewrite Howner. unfold readableRoom. apply List.filter_ext. intros r. f_equal. unfold teacherParam in Htid.
      destruct identity as [t ta|]; [|by apply ret_run in Htid as [-> _]].
      apply bind_ok in Htid as (u & ? & [Hu _]%uuidParam_ok & [-> _]%ret_run). apply bool_decide_ext. rewrite Hu.
      split; [by intros [= ->]|by intros ->].
    + by rewrite <- (Permutation_length (sort_by_perm bySeat _)).
  - destruct identity; [done|]. by split_bools.
Qed.
End Guarantees.

(** ** Runs *)

(** A teacher with a policy and a link; a room of that teacher; its second seat. *)
Definition demoSchool : world := World (Database [] [] [] [] [] [] [] [] [] []
  (Accounts [(demoTeacher, "teacher@example.org")] [MagicLinkRow demoCommand demoTeacher "link" 1893456000000 None] []
    [PolicyRow "policy" 0 1893456000000])%string) 0 0 0 (Locals 0 1 None).
Definition demoTopic : json := JObj [("topic", JStr " Photosynthesis ")]%string.
Definition demoCreation := createRoom demoHasher 8 (TeacherSession demoTeacher demoTeacher) demoTopic demoSchool.
Definition demoCreated : CreateRoomResponse := match fst demoCreation with Ok a => a | Err _ => Created "" "" "" [] end.
Definition demoReady : world := snd demoCreation.
Definition demoInvite : SeatInvite := default (Invite "" "" "" "") (cr_seatInvites demoCreated !! 1%nat).
Definition demoJoin : json :=
  JObj [("roomCode", JStr (cr_roomCode demoCreated)); ("seatCode", JStr (si_code demoInvite))]%string.
Definition demoSeated : (JoinRoomResponse * string) * world :=
  match joinRoom demoHasher demoJoin demoReady with
  | (Ok a, w) => (a, w)
  | (Err _, w) => ((Joined "" "" "", "")%string, w)
  end.

Lemma demoSchool_inv : seats_inv (db demoSchool).
Proof.
  constructor; [constructor; simpl; try constructor|].
  - apply not_elem_of_nil.
  - constructor.
  - by intros m s s' ?%not_elem_of_nil.
Qed.
Lemma demoCreation_ok : createRoom demoHasher 8 (TeacherSession demoTeacher demoTeacher) demoTopic demoSchool
  = (Ok demoCreated, demoReady).
Proof. vm_compute. reflexivity. Qed.
Lemma demoReady_inv : seats_inv (db demoReady).
Proof.
  apply (step_inv demoHasher 8 demoSchool demoReady); [|exact demoSchool_inv].
  exact (step_create demoHasher 8 demoSchool demoReady _ _ _ demoCreation_ok).
Qed.
Lemma demoSeated_ok : joinRoom demoHasher demoJoin demoReady = (Ok (fst (fst demoSeated), snd (fst demoSeated)), snd demoSeated).
Proof. vm_compute. reflexivity. Qed.
Example demoSeated_answer : jr_pseudonym (fst (fst demoSeated)) = "探索者 B"%string.
Proof. vm_compute. reflexivity. Qed.

Lemma join_takes_seat_witness : exists rc sc locked member, parseJoinRoomRequest demoJoin = Ok (rc, sc)
  /\ seat_of demoHasher rc sc (db demoReady) locked member
  /\ fst (fst demoSeated) = Joined (mb_id member) (mb_actor_id member) (mb_pseudonym member).
Proof.
  destruct (join_takes_seat concrete_random_laws demoHasher demoJoin demoReady (fst (fst demoSeated)) (snd (fst demoSeated))
    (snd demoSeated) (si_tables _ demoReady_inv) demoSeated_ok) as (rc & sc & locked & member & now & Hp & Hs & Hr & _).
  exists rc, sc, locked, member. split; [exact Hp|split; [exact Hs|exact Hr]].
Defined.

Lemma demoReady_sessions : sessions (db demoReady) = [].
Proof. vm_compute. reflexivity. Qed.
Lemma demo_digests_differ : digests_differ.
Proof.
  assert (forall s, isCode 10 s = true -> String.length s = 10%nat) as Hl.
  { intros s Hs. unfold isCode in Hs. by split_bools. }
  intros k a b Ha Hb. apply padded_inj; [rewrite (Hl _ Ha); lia|by rewrite (Hl _ Ha), (Hl _ Hb)].
Qed.
Lemma room_admits_its_codes_witness : exists token v',
  joinRoom demoHasher demoJoin demoReady
  = (Ok (Joined (si_roomMemberId demoInvite) (si_actorId demoInvite) (si_pseudonym demoInvite), token), v').
Proof.
  eexists. apply (room_admits_its_codes demoHasher 8 concrete_hmac_laws (TeacherSession demoTeacher demoTeacher) demoTopic
    demoSchool demoCreated demoReady 1 demoInvite demoReady 1704067200000).
  - exact demoHasher_ok.
  - exact demo_digests_differ.
  - exact demoSchool_inv.
  - exact demoCreation_ok.
  - vm_compute. reflexivity.
  - reflexivity.
  - exact (si_tables _ demoReady_inv).
  - vm_compute. reflexivity.
  - rewrite demoReady_sessions. apply Forall_nil_2.
Defined.

(** Someone else takes the seat with the same codes: the first token stands for nobody. *)
Definition demoAgain : world := snd (joinRoom demoHasher demoJoin (snd demoSeated)).
Lemma demoAgain_ok : joinRoom demoHasher demoJoin (snd demoSeated)
  = (fst (joinRoom demoHasher demoJoin (snd demoSeated)), demoAgain).
Proof. unfold demoAgain. by destruct (joinRoom _ _ _). Qed.
Definition demoToken2 : string := match joinRoom demoHasher demoJoin (snd demoSeated) with (Ok (_, t), _) => t | _ => ""%string end.
Example demoAgain_old : fst (getSession (Some (snd (fst demoSeated))) demoAgain) = Ok None.
Proof. vm_compute. reflexivity. Qed.
Lemma demoAgain_new : exists r m a p n, fst (getSession (Some demoToken2) demoAgain) = Ok (Some (StudentSession r m a p n)).
Proof. vm_compute. do 5 eexists. reflexivity. Qed.
Lemma demoAgain_steps : rtc (seat_step demoHasher 8) demoReady demoAgain.
Proof.
  apply (rtc_l _ _ (snd demoSeated)); [exact (step_join demoHasher 8 _ _ _ _ demoSeated_ok)|].
  apply rtc_once. exact (step_join demoHasher 8 _ _ _ _ demoAgain_ok).
Qed.
Lemma one_session_per_seat_witness : tokenHash demoToken2 = tokenHash demoToken2
  /\ fst (getSession (Some (snd (fst demoSeated))) demoAgain) = Ok None.
Proof.
  split; [|exact demoAgain_old]. destruct demoAgain_new as (r & m & a & p & n & Hs).
  exact (one_session_per_seat demoHasher 8 demoReady demoAgain demoToken2 demoToken2 r r m a a p p n n
    demoReady_inv demoAgain_steps Hs Hs).
Defined.

(** The link of the teacher. *)
Definition demoLinkRun : string * world :=
  match consumeLink "link" demoSchool with (Ok (Some t), w) => (t, w) | (_, w) => (""%string, w) end.
Lemma demoLinkRun_ok : consumeLink "link" demoSchool = (Ok (Some (fst demoLinkRun)), snd demoLinkRun).
Proof. vm_compute. reflexivity. Qed.
Example demoLinkRun_session : fst (getSession (Some (fst demoLinkRun)) (snd demoLinkRun))
  = Ok (Some (TeacherSession demoTeacher demoTeacher)).
Proof. vm_compute. reflexivity. Qed.

(** The teacher reads the room. *)
Definition demoReading : RoomDetails * world :=
  match getRoom (Some corePayloadNames) (TeacherSession demoTeacher demoTeacher) (cr_roomId demoCreated) demoReady with
  | (Ok a, w) => (a, w)
  | (Err _, w) => (Details "" "" scheduled 0 None None "" [], w)
  end%string.
Lemma demoReading_ok : getRoom (Some corePayloadNames) (TeacherSession demoTeacher demoTeacher) (cr_roomId demoCreated) demoReady
  = (Ok (fst demoReading), snd demoReading).
Proof. vm_compute. reflexivity. Qed.
Example demoReading_seats : map snd (rd_participants (fst demoReading)) = STUDENT_PSEUDONYMS.
Proof. vm_compute. reflexivity. Qed.
Lemma getRoom_access_witness : readable_by (TeacherSession demoTeacher demoTeacher) (cr_roomId demoCreated) (db (snd demoReading)) (fst demoReading).
Proof. exact (getRoom_access _ _ _ _ _ _ demoReading_ok). Defined.
