(* ===== verification/AgentStatus.v ===== *)
(** * The agent's status in a browser

    The part of [apps/web/src/lib/session/hydrated-session-state.ts] that merges what the
    socket and the route of the agent's state say about Nova: the run on one clock, health
    and permission on another. [Date.parse] gives [None] where the code has [NaN]. *)
From S2P Require Import Prelude Text JsDate JsValue Contracts Database Concrete Frames.
#[local] Set Warnings "-register-all,-clear-no-such-hyp,-level-tolerance".

(** [AgentStatusFrame], without its type. *)
Record AgentStatus : Type := MkAgent {
  ag_roomId : string;
  ag_run : option string;
  ag_state : AgentState;
  ag_health : ServiceHealth;
  ag_enabled : bool;
  ag_updatedAt : string;
  ag_failure : option string;
}.
Definition agentFrame (s : AgentStatus) : ServerFrame :=
  FAgentStatus (ag_roomId s) (ag_run s) (ag_state s) (ag_health s) (ag_enabled s) (ag_updatedAt s) (ag_failure s).

(** [AgentCurrentState], the answer of the route. *)
Record AgentRun : Type := Run { ar_id : string; ar_state : AgentState; ar_failure : option string; ar_updatedAt : string }.
Record AgentCurrentState : Type := Current {
  cu_roomId : string;
  cu_run : option AgentRun;
  cu_health : ServiceHealth;
  cu_enabled : bool;
  cu_updatedAt : string;
}.

Definition TERMINAL_AGENT_STATES : list AgentState := [a_completed; a_blocked_by_policy; a_cancelled; a_failed].
Definition terminalAgent (s : AgentState) : bool := bool_decide (s ∈ TERMINAL_AGENT_STATES).
(** [AGENT_PROGRESS_RANK[state] ?? -1]. *)
Definition progressRank (s : AgentState) : Z :=
  match s with a_queued => 0 | a_running => 1 | a_streaming => 2 | _ => -1 end.
Definition healthRank (h : ServiceHealth) : Z :=
  match h with healthy => 0 | degraded_health => 1 | unavailable => 2 end.

Definition agentFrameIdentityIsValid (f : AgentStatus) : bool :=
  if decide (ag_state f = a_idle) then bool_decide (ag_run f = None) && bool_decide (ag_failure f = None)
  else bool_decide (is_Some (ag_run f)).

Definition acceptAgentRunTransition (previous next : AgentStatus) (previousTime : option Z) (nextTime : Z)
    (authoritativeReplacement : bool) : bool :=
  let later := match previousTime with Some t => t <? nextTime | None => false end in
  if bool_decide (ag_run previous = None) then bool_decide (is_Some (ag_run next)) && later else
  if bool_decide (ag_run next = None) || match previousTime with Some t => nextTime <? t | None => true end then false else
  if negb (bool_decide (ag_run previous = ag_run next)) then
    later && (authoritativeReplacement || terminalAgent (ag_state previous)) else
  if bool_decide (ag_state previous = ag_state next) then later else
  if terminalAgent (ag_state previous) then false else
  if terminalAgent (ag_state next) then true else
  progressRank (ag_state previous) <? progressRank (ag_state next).

(** [agentStatus], [#agentRunUpdatedAt] and [#agentMetaUpdatedAt]. *)
Record agent_memory : Type := Memory {
  am_status : option AgentStatus;
  am_runAt : option Z;
  am_metaAt : option Z;
}.
Definition no_agent : agent_memory := Memory None None None.

Definition AGENT_STATUS_INVALID : string := "AGENT_STATUS_INVALID".
Definition latest (a b : option Z) : Z :=
  match a, b with Some x, Some y => Z.max x y | Some x, None => x | None, Some y => y | None, None => 0 end.
Definition withUpdatedAt (t : Z) (s : AgentStatus) : AgentStatus :=
  MkAgent (ag_roomId s) (ag_run s) (ag_state s) (ag_health s) (ag_enabled s) (toISOString t) (ag_failure s).

(** [#mergeAgentFrame]: whether anything was taken over. *)
Definition mergeAgentFrame (frame : AgentStatus) (runTime metaTime : option Z) (authoritativeReplacement : bool)
    (m : agent_memory) : result string (bool * agent_memory) :=
  match agentFrameIdentityIsValid frame, runTime, metaTime with
  | true, Some runTime, Some metaTime =>
      match am_status m with
      | None => Ok (true, Memory (Some (withUpdatedAt (Z.max runTime metaTime) frame)) (Some runTime) (Some metaTime))
      | Some previous =>
          let acceptRun := acceptAgentRunTransition previous frame (am_runAt m) runTime authoritativeReplacement in
          let newerMeta := match am_metaAt m with None => true | Some t => t <? metaTime end in
          let sameMeta := bool_decide (am_metaAt m = Some metaTime) in
          let acceptHealth := newerMeta || (sameMeta && (healthRank (ag_health previous) <? healthRank (ag_health frame))) in
          let acceptEnabled := newerMeta || (sameMeta && ag_enabled previous && negb (ag_enabled frame)) in
          let runAt := if acceptRun then Some runTime else am_runAt m in
          let metaAt := if newerMeta then Some metaTime else am_metaAt m in
          Ok (acceptRun || acceptHealth || acceptEnabled,
            Memory (Some (MkAgent (ag_roomId previous)
              (if acceptRun then ag_run frame else ag_run previous)
              (if acceptRun then ag_state frame else ag_state previous)
              (if acceptHealth then ag_health frame else ag_health previous)
              (if acceptEnabled then ag_enabled frame else ag_enabled previous)
              (toISOString (latest runAt metaAt))
              (if acceptRun then ag_failure frame else ag_failure previous))) runAt metaAt)
      end
  | _, _, _ => Err AGENT_STATUS_INVALID
  end.

Section Current.
Context `{Schemas}.
(** [#mergeAgentCurrent], in the room [roomId]. *)
Definition currentFrame (c : AgentCurrentState) : AgentStatus :=
  MkAgent (cu_roomId c) (ar_id <$> cu_run c) (from_option ar_state a_idle (cu_run c)) (cu_health c) (cu_enabled c)
    (cu_updatedAt c) (cu_run c ≫= ar_failure).
Definition mergeAgentCurrent (roomId : string) (c : AgentCurrentState) (m : agent_memory) : result string agent_memory :=
  if negb (bool_decide (cu_roomId c = roomId)) then Err "AGENT_CURRENT_ROOM_MISMATCH"%string else
  match parseServerFrame (serverFrameJson (agentFrame (currentFrame c))) with
  | Ok (FAgentStatus r i s h b u f) =>
      '(_, m) ← mergeAgentFrame (MkAgent r i s h b u f)
        (match cu_run c with Some run => dateParse (ar_updatedAt run) | None => dateParse (cu_updatedAt c) end)
        (dateParse (cu_updatedAt c)) true m;
      Ok m
  | Ok _ => Err "AGENT_CURRENT_FRAME_INVALID"%string
  | Err _ => Err "INVALID_SERVER_FRAME"%string
  end.
End Current.

(** ** Laws *)

Definition agent_ok (m : agent_memory) : Prop :=
  match am_status m with
  | None => am_runAt m = None /\ am_metaAt m = None
  | Some s => exists r t, am_runAt m = Some r /\ am_metaAt m = Some t /\ agentFrameIdentityIsValid s = true
      /\ ag_updatedAt s = toISOString (Z.max r t)
  end.

(** How far a run is. *)
Definition stage (s : AgentState) : Z := if terminalAgent s then 3 else progressRank s.

Lemma latest_max r t : latest (Some r) (Some t) = Z.max r t.
Proof. done. Qed.
Lemma terminal_stage s : terminalAgent s = true <-> stage s = 3.
Proof. by destruct s. Qed.
Lemma stage_bound s : -1 <= stage s <= 3.
Proof. by destruct s. Qed.

(** What an accepted transition of the run says. *)
Lemma transition_advances previous next t nextTime auth :
  acceptAgentRunTransition previous next (Some t) nextTime auth = true ->
  is_Some (ag_run next)
  /\ (t < nextTime \/ t = nextTime /\ ag_run next = ag_run previous /\ stage (ag_state previous) < stage (ag_state next))
  /\ (ag_run next = ag_run previous -> stage (ag_state previous) = 3 -> ag_state next = ag_state previous)
  /\ (is_Some (ag_run previous) -> ag_run next <> ag_run previous -> auth = true \/ stage (ag_state previous) = 3).
Proof.
  unfold acceptAgentRunTransition. destruct (bool_decide (ag_run previous = None)) eqn:Hp.
  { intros [Hn Hl]%andb_true_iff. split_bools. apply Z.ltb_lt in Hl. rewrite Hp. split_and!; eauto; [by intros H0; rewrite H0 in Hn; destruct Hn|by intros [? ?]]. }
  destruct (bool_decide (ag_run next = None)) eqn:Hn; [done|]. simpl. split_bools.
  assert (is_Some (ag_run next)) as Hsome by by apply not_eq_None_Some.
  destruct (nextTime <? t) eqn:Hlt; [done|]. apply Z.ltb_ge in Hlt.
  destruct (bool_decide (ag_run previous = ag_run next)) eqn:Hsame; simpl.
  - split_bools. rewrite Hsame. destruct (bool_decide (ag_state previous = ag_state next)) eqn:Hst.
    + intros Hl%Z.ltb_lt. split_bools. rewrite Hst. split_and!; eauto; by intros.
    + destruct (terminalAgent (ag_state previous)) eqn:Ht; [done|].
      assert (stage (ag_state previous) <> 3) as Hs by (rewrite <- terminal_stage, Ht; done).
      pose proof (stage_bound (ag_state previous)).
      intros Hr. assert (stage (ag_state previous) < stage (ag_state next)) as Hlts.
      { unfold stage in *. rewrite Ht in *. destruct (terminalAgent (ag_state next)); [lia|by apply Z.ltb_lt]. }
      split_and!; [done| |done|done]. destruct (decide (t = nextTime)); [right; done|left; lia].
  - intros [Hl Hr]%andb_true_iff. apply Z.ltb_lt in Hl. split_bools. split_and!; [done|by left|by intros Heq; rewrite Heq in *|].
    intros _ _. apply orb_true_iff in Hr as [->|Hr]; [by left|right; by apply terminal_stage].
Qed.
(** The same frame again is no transition. *)
Lemma transition_once next t auth p :
  ag_run p = ag_run next -> ag_state p = ag_state next -> acceptAgentRunTransition p next (Some t) t auth = false.
Proof.
  intros Hr Hs. unfold acceptAgentRunTransition. rewrite Hr, Hs, Z.ltb_irrefl. rewrite (bool_decide_true (ag_run next = ag_run next)) by done.
  simpl. rewrite (bool_decide_true (ag_state next = ag_state next)) by done.
  destruct (bool_decide (ag_run next = None)); [by rewrite andb_false_r|done].
Qed.
Lemma transition_ext p p' next t nt auth :
  ag_run p = ag_run p' -> ag_state p = ag_state p' ->
  acceptAgentRunTransition p next t nt auth = acceptAgentRunTransition p' next t nt auth.
Proof. intros Hr Hs. unfold acceptAgentRunTransition. by rewrite Hr, Hs. Qed.

(** One merge, once the times are known. *)
Definition merged (frame previous : AgentStatus) (r t rt mt : Z) (auth : bool) : bool * agent_memory :=
  let run := acceptAgentRunTransition previous frame (Some r) rt auth in
  let health := (t <? mt) || ((t =? mt) && (healthRank (ag_health previous) <? healthRank (ag_health frame))) in
  let enabled := (t <? mt) || ((t =? mt) && ag_enabled previous && negb (ag_enabled frame)) in
  let r' := if run then rt else r in
  let t' := Z.max t mt in
  (run || health || enabled,
   Memory (Some (MkAgent (ag_roomId previous)
     (if run then ag_run frame else ag_run previous) (if run then ag_state frame else ag_state previous)
     (if health then ag_health frame else ag_health previous) (if enabled then ag_enabled frame else ag_enabled previous)
     (toISOString (Z.max r' t')) (if run then ag_failure frame else ag_failure previous))) (Some r') (Some t')).
Lemma merge_previous frame rt mt auth s r t :
  agentFrameIdentityIsValid frame = true ->
  mergeAgentFrame frame (Some rt) (Some mt) auth (Memory (Some s) (Some r) (Some t)) = Ok (merged frame s r t rt mt auth).
Proof.
  intros Hv. unfold mergeAgentFrame, merged. rewrite Hv. cbn [am_status am_runAt am_metaAt].
  assert (bool_decide (Some t = Some mt) = (t =? mt)) as ->.
  { apply eq_true_iff_eq. rewrite bool_decide_eq_true, Z.eqb_eq. split; [congruence|by intros ->]. }
  assert ((if t <? mt then Some mt else Some t) = Some (Z.max t mt)) as ->.
  { destruct (t <? mt) eqn:E; f_equal; [apply Z.ltb_lt in E|apply Z.ltb_ge in E]; lia. }
  by destruct (acceptAgentRunTransition s frame (Some r) rt auth).
Qed.
Lemma merge_inputs frame runTime metaTime auth m b m' : mergeAgentFrame frame runTime metaTime auth m = Ok (b, m') ->
  agentFrameIdentityIsValid frame = true /\ exists rt mt, runTime = Some rt /\ metaTime = Some mt.
Proof. unfold mergeAgentFrame. destruct (agentFrameIdentityIsValid frame), runTime, metaTime; try done. eauto. Qed.

(** Merging the same frame twice is merging it once. *)
Lemma merged_twice frame s r t rt mt auth :
  match merged frame s r t rt mt auth with
  | (_, Memory (Some s') (Some r') (Some t') as m') => merged frame s' r' t' rt mt auth = (false, m')
  | _ => False
  end.
Proof.
  unfold merged at 1. set (run := acceptAgentRunTransition s frame (Some r) rt auth). set (s' := MkAgent _ _ _ _ _ _ _).
  unfold merged.
  assert (acceptAgentRunTransition s' frame (Some (if run then rt else r)) rt auth = false) as ->.
  { unfold run in *. destruct (acceptAgentRunTransition s frame (Some r) rt auth) eqn:E.
    - by apply transition_once.
    - rewrite <- E. by apply transition_ext. }
  rewrite (Z.max_l (Z.max t mt) mt), (proj2 (Z.ltb_ge (Z.max t mt) mt)) by lia. cbn [orb].
  assert ((Z.max t mt =? mt) && (healthRank (ag_health s') <? healthRank (ag_health frame)) = false) as ->.
  { subst s'. cbn [ag_health]. destruct (Z.ltb_spec t mt); cbn [orb]; [by rewrite Z.ltb_irrefl, andb_false_r|].
    destruct (Z.eqb_spec t mt) as [->|Hne]; cbn [andb].
    - destruct (healthRank (ag_health s) <? healthRank (ag_health frame)) eqn:E; [by rewrite Z.ltb_irrefl, andb_false_r|by rewrite E, andb_false_r].
    - rewrite (proj2 (Z.eqb_neq (Z.max t mt) mt)) by lia. done. }
  assert ((Z.max t mt =? mt) && ag_enabled s' && negb (ag_enabled frame) = false) as ->.
  { subst s'. cbn [ag_enabled]. destruct (Z.ltb_spec t mt); cbn [orb].
    - rewrite <- andb_assoc. by destruct (ag_enabled frame); rewrite andb_false_r.
    - destruct (Z.eqb_spec t mt) as [->|Hne]; cbn [andb].
      + destruct (ag_enabled s), (ag_enabled frame); cbn; by rewrite ?andb_false_r.
      + rewrite (proj2 (Z.eqb_neq (Z.max t mt) mt)) by lia. done. }
  done.
Qed.

Lemma merged_ok frame s r t rt mt auth : agentFrameIdentityIsValid frame = true -> agentFrameIdentityIsValid s = true ->
  agent_ok (snd (merged frame s r t rt mt auth)).
Proof.
  intros Hf Hs. unfold merged, agent_ok. cbn [snd am_status am_runAt am_metaAt].
  eexists _, _. split_and!; [done|done| |done]. by destruct (acceptAgentRunTransition _ _ _ _ _).
Qed.
Lemma merged_nothing frame s r t rt mt auth m' : ag_updatedAt s = toISOString (Z.max r t) ->
  merged frame s r t rt mt auth = (false, m') -> m' = Memory (Some s) (Some r) (Some t).
Proof.
  intros Hu. unfold merged. intros [= Hb <-]. apply orb_false_iff in Hb as [[Hrun Hh]%orb_false_iff He].
  rewrite Hrun, Hh, He. apply orb_false_iff in Hh as [Hlt%Z.ltb_ge _]. rewrite (Z.max_l t mt) by lia. rewrite <- Hu. by destruct s.
Qed.

(** What a merge does to what is shown of the agent. *)
Record agent_advances (auth : bool) (s s' : AgentStatus) (r t r' t' : Z) : Prop := {
  av_times : r <= r' /\ t <= t';
  av_run : (ag_run s', ag_state s', ag_failure s') = (ag_run s, ag_state s, ag_failure s) /\ r' = r
    \/ r < r' \/ r' = r /\ ag_run s' = ag_run s /\ stage (ag_state s) < stage (ag_state s');
  av_terminal : ag_run s' = ag_run s -> stage (ag_state s) = 3 -> ag_state s' = ag_state s;
  av_named : is_Some (ag_run s) -> is_Some (ag_run s');
  av_replaced : is_Some (ag_run s) -> ag_run s' <> ag_run s -> auth = true \/ stage (ag_state s) = 3;
  av_meta : t' = t -> healthRank (ag_health s) <= healthRank (ag_health s') /\ (ag_enabled s' = true -> ag_enabled s = true);
}.
Lemma merged_meta frame s t mt :
  let health := (t <? mt) || ((t =? mt) && (healthRank (ag_health s) <? healthRank (ag_health frame))) in
  let enabled := (t <? mt) || ((t =? mt) && ag_enabled s && negb (ag_enabled frame)) in
  Z.max t mt = t ->
  healthRank (ag_health s) <= healthRank (if health then ag_health frame else ag_health s)
  /\ ((if enabled then ag_enabled frame else ag_enabled s) = true -> ag_enabled s = true).
Proof.
  intros health enabled Hm. subst health enabled. rewrite (proj2 (Z.ltb_ge t mt)) by lia. cbn [orb]. split.
  - destruct (_ && _) eqn:E; [|lia]. apply andb_true_iff in E as [_ E%Z.ltb_lt]. lia.
  - by destruct (t =? mt), (ag_enabled s), (ag_enabled frame).
Qed.
Lemma merged_advances frame s r t rt mt auth : agentFrameIdentityIsValid frame = true ->
  match snd (merged frame s r t rt mt auth) with
  | Memory (Some s') (Some r') (Some t') => agent_advances auth s s' r t r' t'
  | _ => False
  end.
Proof.
  intros Hf. unfold merged. cbn [snd].
  destruct (acceptAgentRunTransition s frame (Some r) rt auth) eqn:E.
  - apply transition_advances in E as (Hn & Hadv & Hterm & Hrep). constructor; cbn [ag_run ag_state ag_failure ag_health ag_enabled]; auto.
    + lia.
    + destruct Hadv as [?|(-> & ? & ?)]; [by right; left|by right; right].
    + by apply merged_meta.
  - constructor; cbn [ag_run ag_state ag_failure ag_health ag_enabled]; [lia|by left|done|done|by intros _ []|].
    by apply merged_meta.
Qed.

Lemma merge_agent_ok frame runTime metaTime auth m b m' :
  agent_ok m -> mergeAgentFrame frame runTime metaTime auth m = Ok (b, m') -> agent_ok m'.
Proof.
  intros Hok Hm. destruct (merge_inputs _ _ _ _ _ _ _ Hm) as (Hv & rt & mt & -> & ->). destruct m as [[s|] r0 t0].
  - destruct Hok as (r & t & [= ->] & [= ->] & Hs & _). rewrite (merge_previous _ _ _ _ _ _ _ Hv) in Hm. apply Ok_inj in Hm.
    pose proof (merged_ok frame s r t rt mt auth Hv Hs) as Hok'. by rewrite Hm in Hok'.
  - unfold mergeAgentFrame in Hm. rewrite Hv in Hm. injection Hm as <- <-. by exists rt, mt.
Qed.

(** What a browser shows of the agent only moves forward. From any merges of frames and
    answers, in any order, what is held is a valid status dated by the later of its two
    clocks; one merge more never turns a clock back, never moves a run backwards at the
    same instant, never wakes a run that has ended, never returns to no run at all, and
    gives another run its place only when the first has ended or the route says so; at one
    instant health only worsens and permission is only withdrawn. Merging the same again
    changes nothing, and a merge that reports no change has made none. *)
Theorem agent_status_advances frame runTime metaTime auth m b m' :
  agent_ok m -> mergeAgentFrame frame runTime metaTime auth m = Ok (b, m') ->
  agent_ok m' /\ mergeAgentFrame frame runTime metaTime auth m' = Ok (false, m') /\ (b = false -> m' = m)
  /\ forall s, am_status m = Some s -> exists s' r t r' t', am_status m' = Some s'
       /\ (am_runAt m, am_metaAt m, am_runAt m', am_metaAt m') = (Some r, Some t, Some r', Some t')
       /\ agent_advances auth s s' r t r' t'.
Proof.
  intros Hok Hm. split; [by eapply merge_agent_ok|].
  destruct (merge_inputs _ _ _ _ _ _ _ Hm) as (Hv & rt & mt & -> & ->). destruct m as [[s|] r0 t0].
  - destruct Hok as (r & t & [= ->] & [= ->] & Hs & Hu). rewrite (merge_previous _ _ _ _ _ _ _ Hv) in Hm. apply Ok_inj in Hm.
    pose proof (merged_twice frame s r t rt mt auth) as H2.
    pose proof (merged_advances frame s r t rt mt auth Hv) as Ha. pose proof (merged_nothing frame s r t rt mt auth m' Hu) as Hn.
    rewrite Hm in *. cbn [snd] in *. destruct m' as [[s'|] [r'|] [t'|]]; try done. split_and!; [|by intros ->; apply Hn|].
    + rewrite (merge_previous _ _ _ _ _ _ _ Hv). by rewrite H2.
    + intros x [= <-]. by exists s', r, t, r', t'.
  - unfold mergeAgentFrame in Hm. rewrite Hv in Hm. injection Hm as <- <-. cbn [am_status]. split_and!; [|done|done].
    rewrite (merge_previous _ _ _ _ _ _ _ Hv). f_equal. unfold merged.
    rewrite (transition_once frame rt auth), !Z.ltb_irrefl, Z.max_id, !andb_false_r by done. cbn [orb].
    assert ((mt =? mt) && ag_enabled (withUpdatedAt (Z.max rt mt) frame) && negb (ag_enabled frame) = false) as ->.
    { rewrite Z.eqb_refl. cbn. by destruct (ag_enabled frame). }
    by destruct frame.
Qed.

(** ** A run *)

Definition demoRunFrame (state : AgentState) (updatedAt : string) : AgentStatus :=
  MkAgent demoRoom (Some demoCommand) state healthy true updatedAt None.
Definition demoMerges (fs : list AgentStatus) : result string agent_memory :=
  foldl (fun m f => m0 ← m; r ← mergeAgentFrame f (dateParse (ag_updatedAt f)) (dateParse (ag_updatedAt f)) false m0; Ok (snd r))
    (Ok no_agent) fs.
(** The frame that runs is overtaken by the one that ends. *)
Definition demoAgentStory : list AgentStatus :=
  [demoRunFrame a_queued "2024-01-01T00:00:00.000Z"; demoRunFrame a_completed "2024-01-01T00:00:09.000Z"]%string.
Definition demoAgentMemory : agent_memory := match demoMerges demoAgentStory with Ok m => m | Err _ => no_agent end.
Lemma demoMerges_ok fs m : demoMerges fs = Ok m -> agent_ok m.
Proof.
  unfold demoMerges. assert (agent_ok no_agent) as H0 by done. revert H0. generalize no_agent as m0.
  induction fs as [|f fs IH]; intros m0 H0; simpl; [by intros [= <-]|].
  destruct (mergeAgentFrame _ _ _ _ m0) as [[b m1]|e] eqn:E; simpl.
  - apply IH. by eapply merge_agent_ok.
  - clear. induction fs; [done|]. simpl. done.
Qed.
Lemma demoAgentMemory_ok : agent_ok demoAgentMemory.
Proof. apply (demoMerges_ok demoAgentStory). vm_compute. reflexivity. Qed.
Definition demoLateFrame : AgentStatus := demoRunFrame a_running "2024-01-01T00:00:10.000Z"%string.
Lemma agent_status_advances_witness : exists m', agent_ok m' /\ am_runAt m' = am_runAt demoAgentMemory
  /\ ag_state <$> am_status m' = Some a_completed.
Proof.
  destruct (mergeAgentFrame demoLateFrame (dateParse (ag_updatedAt demoLateFrame)) (dateParse (ag_updatedAt demoLateFrame)) false
    demoAgentMemory) as [[b m']|e] eqn:E.
  - assert (agent_ok demoAgentMemory) as Hok.
    { exact demoAgentMemory_ok. }
    destruct (agent_status_advances _ _ _ _ _ _ _ Hok E) as (Hok' & _). exists m'. split; [exact Hok'|].
    vm_compute in E. injection E as <- <-. split; reflexivity.
  - vm_compute in E. discriminate E.
Defined.
