(* ===== verification/SessionClient.v ===== *)
(** * The small parts of a browser session

    [apps/web/src/lib/session/session-store.ts], [session-command-bus.ts],
    [room-identity.ts], [room-route.ts], the address of the room's socket
    ([lib/realtime/room-socket.ts]) and the clocks of [hydrated-session-state.ts].

    The kinds, roles and display names that [room-identity.ts] compares are constants of the
    contract of [RoomDetails] and of sessions. [URLSearchParams] is a list of entries with a
    reader and a writer of query strings as parameters. *)
From S2P Require Import Prelude Text JsDate JsValue Contracts Database Concrete JsMap Frames Authorization RoomSocket SeatCodes Sessions Rooms.
#[local] Set Warnings "-register-all,-clear-no-such-hyp,-level-tolerance".

(** ** [session-store.ts] *)

Record SessionState : Type := MkSession {
  st_roomId : string;
  st_status : RoomStatus;
  st_connected : bool;
  st_paused : bool;
  st_startsAt : option string;
  st_closesAt : option string;
  st_lastRoomSeq : Z;
  st_liveAnnouncement : string;
}.
Inductive SessionAction : Type :=
| AConnection (connected : bool)
| AStatus (status : RoomStatus)
| ACursor (roomSeq : Z)
| ATiming (startsAt closesAt : option string)
| AAnnouncement (message : string)
| AReset.
Definition createSessionState (roomId : string) (status : RoomStatus) (startsAt closesAt : option string) : SessionState :=
  MkSession roomId status false (bool_decide (status = paused)) startsAt closesAt 0 "".
(** With the defaults of the parameters. *)
Definition initialSessionState (roomId : string) : SessionState := createSessionState roomId scheduled None None.
Definition sessionReducer (s : SessionState) (a : SessionAction) : SessionState :=
  match a with
  | AConnection b => MkSession (st_roomId s) (st_status s) b (st_paused s) (st_startsAt s) (st_closesAt s) (st_lastRoomSeq s)
      (st_liveAnnouncement s)
  | AStatus x => MkSession (st_roomId s) x (st_connected s) (bool_decide (x = paused)) (st_startsAt s) (st_closesAt s)
      (st_lastRoomSeq s) (st_liveAnnouncement s)
  | ACursor n => if st_lastRoomSeq s <=? n
      then MkSession (st_roomId s) (st_status s) (st_connected s) (st_paused s) (st_startsAt s) (st_closesAt s) n
             (st_liveAnnouncement s)
      else s
  | ATiming a b => MkSession (st_roomId s) (st_status s) (st_connected s) (st_paused s) a b (st_lastRoomSeq s)
      (st_liveAnnouncement s)
  | AAnnouncement m => MkSession (st_roomId s) (st_status s) (st_connected s) (st_paused s) (st_startsAt s) (st_closesAt s)
      (st_lastRoomSeq s) m
  | AReset => initialSessionState (st_roomId s)
  end.

(** ** [session-command-bus.ts] *)

Inductive RoomCommandIntent : Type :=
| IntentRoom (t : CommandType)                 (** open, pause, resume or close *)
| IntentAdd (text : string) (replyTo : option string) (mentions mediaIds : list string)
| IntentRevise (messageId text : string) (replyTo : option string) (mentions : list string) (baseRevision : Z)
| IntentRetract (messageId : string) (baseRevision : Z).
Definition isRoomIntent (t : CommandType) : bool := bool_decide (t ∈ [room_open; room_pause; room_resume; room_close]).
Definition intentType (i : RoomCommandIntent) : CommandType :=
  match i with
  | IntentRoom t => t
  | IntentAdd _ _ _ _ => message_add
  | IntentRevise _ _ _ _ _ => message_revise
  | IntentRetract _ _ => message_retract
  end.
Definition texts (l : list string) : json := JArr (map JStr l).

Section Bus.
Context `{Schemas}.

(** [freezeCommand]. *)
Definition freezeCommand (c : RoomCommand) : result string RoomCommand :=
  if parseRoomCommand (commandJson c) is Some _ then Ok c else Err "INVALID_ROOM_COMMAND"%string.
(** [send] up to the transport: the clock has been read, the identifier drawn. *)
Definition busCommand (roomId commandId clientTime : string) (i : RoomCommandIntent) : result string RoomCommand :=
  match i with
  | IntentRoom t =>
      if isRoomIntent t then freezeCommand (Command commandId roomId t clientTime None [])
      else Err "COMMAND_INTENT_INVALID"
  | IntentAdd text replyTo mentions mediaIds =>
      let text := js_trim text in
      let mediaIds := unique mediaIds in
      if bool_decide (text = "") && bool_decide (mediaIds = []) then Err "MESSAGE_TEXT_OR_MEDIA_REQUIRED" else
      if (4 <? Z.of_nat (length mediaIds))%Z then Err "MESSAGE_MEDIA_LIMIT_EXCEEDED" else
      freezeCommand (Command commandId roomId message_add clientTime None
        [("text", JStr text); ("replyTo", nullable replyTo); ("mentions", texts (unique mentions)); ("mediaIds", texts mediaIds)])
  | IntentRevise messageId text replyTo mentions baseRevision =>
      let text := js_trim text in
      if bool_decide (text = "") then Err "MESSAGE_TEXT_REQUIRED" else
      freezeCommand (Command commandId roomId message_revise clientTime (Some baseRevision)
        [("messageId", JStr messageId); ("text", JStr text); ("replyTo", nullable replyTo); ("mentions", texts (unique mentions))])
  | IntentRetract messageId baseRevision =>
      freezeCommand (Command commandId roomId message_retract clientTime (Some baseRevision) [("messageId", JStr messageId)])
  end%string.
Definition busSend (roomId commandId : string) (now : option Z) (i : RoomCommandIntent) : result string RoomCommand :=
  match now with
  | None => Err "COMMAND_CLOCK_INVALID"%string
  | Some t => busCommand roomId commandId (toISOString t) i
  end.
End Bus.

(** ** [room-identity.ts] *)

Definition distinct (l : list string) : bool := bool_decide (length (unique l) = length l).
Definition assertRoomRosterIntegrity (room : RoomDetails) : bool :=
  let actorIds := map fst (rd_participants room) in
  let pseudonyms := map snd (rd_participants room) in
  bool_decide (length (rd_participants room) = length STUDENT_PSEUDONYMS)
  && distinct actorIds
  && negb (bool_decide (rd_novaActorId room ∈ actorIds))
  && bool_decide (length (unique pseudonyms) = length STUDENT_PSEUDONYMS)
  && forallb (fun p => bool_decide (p ∈ STUDENT_PSEUDONYMS)) pseudonyms.
(** The session is a student's: its room, actor, pseudonym and the agent of its room. *)
Definition assertStudentRoomIdentity (roomId actorId pseudonym novaActorId : string) (room : RoomDetails) : bool :=
  assertRoomRosterIntegrity room
  && bool_decide (rd_roomId room = roomId)
  && bool_decide (snd <$> find (fun p => bool_decide (fst p = actorId)) (rd_participants room) = Some pseudonym)
  && bool_decide (novaActorId = rd_novaActorId room).

(** ** [room-route.ts] and [roomWebSocketUrl] *)

Definition isRoomId (value : string) : bool := isUuid value.
Inductive PageRole : Type := pg_student | pg_teacher.
Definition roomPagePath (roomId : string) (role : PageRole) : result string string :=
  if isRoomId roomId
  then Ok ("/session/" ++ roomId ++ match role with pg_teacher => "/teacher" | pg_student => "" end)%string
  else Err "INVALID_ROOM_ID"%string.
Definition hostBad (host : string) : bool :=
  bool_decide (host = ""%string)
  || existsb (fun c => bool_decide (c ∈ ["/"; "?"; "#"; "@"; "\"]%char)) (list_ascii_of_string host).
Definition roomWebSocketUrl (roomId protocol host : string) : result string string :=
  if negb (isRoomId roomId) then Err "INVALID_ROOM_ID"%string else
  if negb (bool_decide (protocol ∈ ["https:"; "http:"]%string)) || hostBad host then Err "INVALID_PUBLIC_ORIGIN"%string else
  Ok ((if bool_decide (protocol = "https:"%string) then "wss:" else "ws:") ++ "//" ++ host ++ websocketRoute roomId)%string.

Inductive RoomViewWindow : Type := recent_10m | session_45m.
Inductive RoomViewName : Type := observed | human_only | lineage_adjusted.
#[global] Instance RoomViewWindow_eq_dec : EqDecision RoomViewWindow.
Proof. solve_decision. Defined.
#[global] Instance RoomViewName_eq_dec : EqDecision RoomViewName.
Proof. solve_decision. Defined.
Definition ROOM_VIEW_WINDOWS : list RoomViewWindow := [recent_10m; session_45m].
Definition ROOM_VIEW_NAMES : list RoomViewName := [observed; human_only; lineage_adjusted].
Definition windowText (w : RoomViewWindow) : string := match w with recent_10m => "recent_10m" | session_45m => "session_45m" end.
Definition viewText (v : RoomViewName) : string :=
  match v with observed => "observed" | human_only => "human_only" | lineage_adjusted => "lineage_adjusted" end.
Record RoomViewPreferences : Type := View { vw_window : RoomViewWindow; vw_view : RoomViewName }.
Definition DEFAULT_ROOM_VIEW : RoomViewPreferences := View recent_10m observed.

(** [URLSearchParams]: reading a query string and writing one. *)
Class UrlSearch : Type := {
  readSearch : string -> list (string * string);
  writeSearch : list (string * string) -> string;
}.
Record UrlSearchLaws `{UrlSearch} : Prop := {
  readSearch_write l : readSearch (writeSearch l) = l;
  writeSearch_mark l : String.prefix "?" (writeSearch l) = false;      (** [?] is written as [%3F] *)
}.
(** [sort]: by the code units of the names, stable. *)
Class UnitOrder : Type := { unit_le : string -> string -> bool }.

Section Search.
Context `{UrlSearch} `{UnitOrder}.
Definition searchParams (search : option string) : list (string * string) :=
  match search with
  | Some s => readSearch (if String.prefix "?" s then String.substring 1 (String.length s - 1) s else s)
  | None => []
  end.
Definition parseRoomViewPreferences (search : option string) : RoomViewPreferences :=
  let params := searchParams search in
  let window := assoc "window" params in
  let view := assoc "view" params in
  View (default (vw_window DEFAULT_ROOM_VIEW) (w ← window; spelled windowText ROOM_VIEW_WINDOWS w))
       (default (vw_view DEFAULT_ROOM_VIEW) (v ← view; spelled viewText ROOM_VIEW_NAMES v)).

(** [params.set]: the first entry of the name is replaced, the others go. *)
Definition params_delete (k : string) (l : list (string * string)) : list (string * string) :=
  List.filter (fun e => negb (bool_decide (fst e = k))) l.
Fixpoint params_set (k v : string) (l : list (string * string)) : list (string * string) :=
  match l with
  | [] => [(k, v)]
  | (k', v') :: l' => if decide (k' = k) then (k, v) :: params_delete k l' else (k', v') :: params_set k v l'
  end.
Definition setPreference (key value fallback : string) (l : list (string * string)) : list (string * string) :=
  if bool_decide (value = fallback) then params_delete key l else params_set key value l.
Definition roomViewSearch (p : RoomViewPreferences) (base : option string) : string :=
  let params := searchParams base in
  let params := setPreference "window" (windowText (vw_window p)) (windowText (vw_window DEFAULT_ROOM_VIEW)) params in
  let params := setPreference "view" (viewText (vw_view p)) (viewText (vw_view DEFAULT_ROOM_VIEW)) params in
  writeSearch (sort_by (fun a b => unit_le (fst a) (fst b)) params).
End Search.

(** ** The clocks of [hydrated-session-state.ts] *)

(** [serverNow]: the time of the last frame that had one, moved by what has passed here. *)
Definition serverNow (lastServerTime : option string) (receivedAt : option Z) (browserNow : Z) : option Z :=
  t ← lastServerTime; r ← receivedAt; observed ← dateParse t; Some (browserNow + (observed - r)).
Record Remaining : Type := MkRemaining { rm_seconds : Z; rm_expired : bool }.
(** [Math.ceil(remainingMs / 1_000)]. *)
Definition ceilSeconds (ms : Z) : Z := - ((- ms) / 1000).
Definition remaining (closesAt : option string) (now : option Z) : option Remaining :=
  now ← now; t ← closesAt; close ← dateParse t;
  let remainingMs := close - now in
  Some (if remainingMs <=? 0 then MkRemaining 0 true else MkRemaining (ceilSeconds remainingMs) false).
(** [progress]: the ratio is its numerator and denominator. *)
Record Progress : Type := MkProgress { pr_elapsedSeconds : Z; pr_elapsedMs : Z; pr_totalMs : Z }.
Definition progress (startsAt closesAt : option string) (now : Z) : Progress :=
  match startsAt ≫= dateParse, closesAt ≫= dateParse with
  | Some start, Some close =>
      if close <=? start then MkProgress 0 0 1 else
      let elapsedMs := Z.min (Z.max 0 (now - start)) (close - start) in
      MkProgress (elapsedMs / 1000) elapsedMs (close - start)
  | _, _ => MkProgress 0 0 1
  end.

(** ** Laws *)

(** [paused] follows the status. *)
Definition session_ok (s : SessionState) : Prop := st_paused s = bool_decide (st_status s = paused) /\ 0 <= st_lastRoomSeq s.
Lemma createSessionState_ok roomId status a b : session_ok (createSessionState roomId status a b).
Proof. by split. Qed.
Lemma sessionReducer_ok s a : session_ok s -> session_ok (sessionReducer s a).
Proof.
  intros [Hp Hs]. destruct a as [b|x|n|a b|m|]; try (by split). simpl. destruct (st_lastRoomSeq s <=? n) eqn:Hn; [|by split].
  split; [done|]. simpl. lia.
Qed.

Section BusLaws.
Context `{Schemas}.

Lemma freezeCommand_ok c c' : freezeCommand c = Ok c' -> c' = c /\ is_Some (parseRoomCommand (commandJson c)).
Proof. unfold freezeCommand. destruct (parseRoomCommand _) eqn:E; [|done]. intros [= <-]. by split. Qed.
(** What the bus hands to the transport is a valid command of the room that says what was
    meant. *)
Lemma busSend_ok roomId commandId now i c : busSend roomId commandId now i = Ok c ->
  is_Some (parseRoomCommand (commandJson c)) /\ cm_commandId c = commandId /\ cm_roomId c = roomId /\ cm_type c = intentType i.
Proof.
  unfold busSend. destruct now as [t|]; [|done].
  destruct i as [ty|text rt ms mds|mid text rt ms base|mid base]; simpl; repeat case_match; try done;
    intros [-> Hp]%freezeCommand_ok; done.
Qed.
End BusLaws.

Lemma unique_aux_full seen l : length (unique_aux seen l) = length l -> NoDup l /\ forall x, x ∈ l -> x ∉ seen.
Proof.
  revert seen. induction l as [|y l IH]; intros seen; simpl; [by split; [constructor|intros x ?%not_elem_of_nil]|].
  assert (forall seen, (length (unique_aux seen l) <= length l)%nat) as Hle.
  { clear. induction l as [|y l IH]; intros seen; simpl; [lia|].
    destruct (decide (y ∈ seen)); simpl; [specialize (IH seen)|specialize (IH (y :: seen))]; lia. }
  destruct (decide (y ∈ seen)) as [Hin|Hni]; simpl; [specialize (Hle seen); lia|].
  intros [= Hl]. apply IH in Hl as [Hnd Hno]. split.
  - constructor; [|done]. intros Hy. apply (Hno _ Hy). by left.
  - intros x [->|Hx]%elem_of_cons; [done|]. specialize (Hno _ Hx). by rewrite not_elem_of_cons in Hno; destruct Hno.
Qed.
Lemma distinct_texts_NoDup l : distinct l = true -> NoDup l.
Proof. unfold distinct. rewrite bool_decide_eq_true. by intros [? _]%unique_aux_full. Qed.

(** In a room that passes the check, four students have four actors and the four
    pseudonyms; a student's session names one of them. *)
Lemma roster_ok room : assertRoomRosterIntegrity room = true ->
  length (rd_participants room) = 4%nat /\ NoDup (map fst (rd_participants room)) /\ NoDup (map snd (rd_participants room))
  /\ rd_novaActorId room ∉ map fst (rd_participants room).
Proof.
  unfold assertRoomRosterIntegrity. intros Hr. split_bools. split_and!; [done|by apply distinct_texts_NoDup| |done].
  apply (unique_aux_full []). change (length (unique (map snd (rd_participants room))) = length (map snd (rd_participants room))).
  rewrite length_map. congruence.
Qed.
Lemma student_identity roomId actorId pseudonym nova room :
  assertStudentRoomIdentity roomId actorId pseudonym nova room = true ->
  rd_roomId room = roomId /\ nova = rd_novaActorId room
  /\ forall p, p ∈ rd_participants room -> snd p = pseudonym <-> fst p = actorId.
Proof.
  unfold assertStudentRoomIdentity. intros Hr. split_bools.
  match goal with E : assertRoomRosterIntegrity _ = true |- _ => apply roster_ok in E as (_ & Hnd1 & Hnd2 & _) end.
  split_and!; [done|done|]. destruct (find _ _) as [[a ps]|] eqn:Hf; [|done].
  apply find_some in Hf as [Hin Ha]. apply list_elem_of_In in Hin. split_bools. simpl in *. simplify_eq.
  apply list_elem_of_lookup in Hin as [k Hk]. intros [a' ps'] [i Hi]%list_elem_of_lookup. simpl. split; intros ->.
  - assert (i = k) as ->; [|congruence]. eapply (NoDup_lookup _ _ _ _ Hnd2); by rewrite list_lookup_fmap, ?Hi, ?Hk.
  - assert (i = k) as ->; [|congruence]. eapply (NoDup_lookup _ _ _ _ Hnd1); by rewrite list_lookup_fmap, ?Hi, ?Hk.
Qed.

(** *** The view in the address *)

Section SearchLaws.
Context `{UrlSearch} (UL : UrlSearchLaws) `{UnitOrder}.

Definition only (k v : string) (l : list (string * string)) : Prop := forall v', (k, v') ∈ l <-> v' = v.
Definition absent (k : string) (l : list (string * string)) : Prop := forall v', (k, v') ∉ l.
Lemma absent_delete k l : absent k (params_delete k l).
Proof. intros v' [_ Hv]%list_elem_of_In%filter_In. simpl in Hv. by rewrite bool_decide_true in Hv. Qed.
Lemma delete_elem k k' v l : k' <> k -> (k', v) ∈ params_delete k l <-> (k', v) ∈ l.
Proof.
  intros Hne. unfold params_delete. rewrite !list_elem_of_In, filter_In. simpl. rewrite bool_decide_false by done. tauto.
Qed.
Lemma set_elem k v k' v' l : (k', v') ∈ params_set k v l <-> (k' = k /\ v' = v) \/ (k' <> k /\ (k', v') ∈ l).
Proof.
  induction l as [|[k0 v0] l IH]; simpl.
  - rewrite list_elem_of_singleton. split; [intros [= -> ->]; by left|]. intros [[-> ->]|[_ ?%not_elem_of_nil]]; done.
  - destruct (decide (k0 = k)) as [->|Hk]; rewrite !elem_of_cons.
    + destruct (decide (k' = k)) as [->|Hk'].
      * split; [intros [[= ->]|Hin]; [by left|by apply absent_delete in Hin]|]. intros [[_ ->]|[? _]]; [by left|done].
      * rewrite delete_elem by done. naive_solver.
    + rewrite IH. naive_solver.
Qed.
Lemma setPreference_spec key value fallback l :
  (value <> fallback /\ only key value (setPreference key value fallback l) \/ value = fallback /\ absent key (setPreference key value fallback l))
  /\ forall k' v', k' <> key -> (k', v') ∈ setPreference key value fallback l <-> (k', v') ∈ l.
Proof.
  unfold setPreference. case_bool_decide; split.
  - right. split; [done|apply absent_delete].
  - intros k' v' Hk. by apply delete_elem.
  - left. split; [done|]. intros v'. rewrite set_elem. naive_solver.
  - intros k' v' Hk. rewrite set_elem. naive_solver.
Qed.
Lemma assoc_only k v l : only k v l -> assoc k l = Some v.
Proof.
  intros Ho. destruct (assoc k l) as [v'|] eqn:Ha; [by apply assoc_elem, Ho in Ha as ->|].
  apply assoc_None_keys in Ha. destruct Ha. apply (list_elem_of_fmap_2 fst _ (k, v)). by apply Ho.
Qed.
Lemma assoc_absent k l : absent k l -> assoc k l = None.
Proof. intros Hno. destruct (assoc k l) as [v'|] eqn:Ha; [by apply assoc_elem, Hno in Ha|done]. Qed.

Lemma substring_rest c s : String.substring 1 (String.length (String c s) - 1) (String c s) = s.
Proof. simpl. rewrite Nat.sub_0_r. induction s as [|a s IH]; simpl; [done|]. by rewrite IH. Qed.

(** What the address says of a choice is what was chosen. *)
Lemma assoc_sorted_preference {A} (text : A -> string) (all : list A) (x fallback : A) key l :
  spelled text all (text x) = Some x -> (text x = text fallback -> x = fallback) ->
  only key (text x) l \/ text x = text fallback /\ absent key l ->
  default fallback (w ← assoc key (sort_by (fun a b : string * string => unit_le (fst a) (fst b)) l); spelled text all w) = x.
Proof.
  intros Hsp Hinj Hl. pose proof (sort_by_elem (fun a b : string * string => unit_le (fst a) (fst b))) as He.
  destruct Hl as [Ho|[Ht Hno]].
  - rewrite (assoc_only key (text x)); simpl; [by rewrite Hsp|]. intros v'. rewrite He. apply Ho.
  - rewrite assoc_absent; [by symmetry; apply Hinj|]. intros v'. rewrite He. apply Hno.
Qed.

(** The view a viewer has chosen is in the address: whatever else the query says, what
    is read from the query that is written for a choice is that choice, with or without
    the question mark. *)
Theorem room_view_roundtrip p base :
  parseRoomViewPreferences (Some (roomViewSearch p base)) = p
  /\ parseRoomViewPreferences (Some ("?" ++ roomViewSearch p base)%string) = p.
Proof.
  assert (parseRoomViewPreferences (Some (roomViewSearch p base)) = p) as Hp.
  { unfold parseRoomViewPreferences, roomViewSearch. cbn [searchParams]. rewrite (writeSearch_mark UL), (readSearch_write UL).
    set (base' := searchParams base). set (l1 := setPreference "window" _ _ base').
    pose proof (setPreference_spec "window" (windowText (vw_window p)) (windowText recent_10m) base') as [Hw _].
    pose proof (setPreference_spec "view" (viewText (vw_view p)) (viewText observed) l1) as [Hv Hrest].
    destruct p as [w v]. cbn [vw_window vw_view DEFAULT_ROOM_VIEW] in *. f_equal.
    - apply assoc_sorted_preference; [by destruct w|by destruct w|].
      destruct Hw as [[_ Ho]|[Heq Hno]]; [left|right; split; [done|]]; intros v'; rewrite Hrest by done; [apply Ho|apply Hno].
    - apply assoc_sorted_preference; [by destruct v|by destruct v|]. destruct Hv as [[_ Ho]|[Heq Hno]]; [by left|by right]. }
  split; [done|]. rewrite <- Hp at 2. unfold parseRoomViewPreferences. cbn [searchParams].
  set (q := roomViewSearch p base). assert (String.prefix "?" q = false) as -> by apply (writeSearch_mark UL).
  assert (String.prefix "?" ("?" ++ q)%string = true) as -> by by destruct q.
  change ("?" ++ q)%string with (String "?" q). by rewrite substring_rest.
Qed.
End SearchLaws.

(** *** The clocks *)

(** C37. The clocks a viewer sees: the server's clock does not depend on the browser's, which
    may be wrong by any amount; a countdown is over exactly when the closing time is
    reached, and otherwise shows the whole seconds that are left, rounded up; the elapsed
    time stays between nothing and the length of the lesson and never runs backwards. *)
Theorem room_clocks_bounded startsAt closesAt serverTime received browser skew now later :
  serverNow serverTime (Some (received + skew)) (browser + skew) = serverNow serverTime (Some received) browser
  /\ (forall close, closesAt ≫= dateParse = Some close -> exists r, remaining closesAt (Some now) = Some r
       /\ rm_expired r = (close <=? now)
       /\ (if rm_expired r then rm_seconds r = 0 else 1000 * (rm_seconds r - 1) < close - now <= 1000 * rm_seconds r))
  /\ (let p := progress startsAt closesAt now in
      0 <= pr_elapsedMs p <= pr_totalMs p /\ 0 < pr_totalMs p
      /\ pr_elapsedSeconds p * 1000 <= pr_elapsedMs p < pr_elapsedSeconds p * 1000 + 1000
      /\ (now <= later -> pr_elapsedMs p <= pr_elapsedMs (progress startsAt closesAt later))).
Proof.
  split_and!.
  - unfold serverNow. destruct serverTime as [t|]; [|done]. simpl. destruct (dateParse t) as [o|]; [|done]. simpl. f_equal. lia.
  - intros close Hc. apply bind_Some in Hc as (t & -> & Ht). unfold remaining. simpl. rewrite Ht. simpl. eexists. split; [done|].
    destruct (close - now <=? 0) eqn:Hx; simpl.
    + split; [|done]. symmetry. apply Z.leb_le. lia.
    + split; [symmetry; apply Z.leb_gt; lia|]. unfold ceilSeconds.
      pose proof (Z.div_mod (- (close - now)) 1000 ltac:(lia)). pose proof (Z.mod_pos_bound (- (close - now)) 1000 ltac:(lia)). lia.
  - intros p. subst p. unfold progress. destruct (startsAt ≫= dateParse) as [a|], (closesAt ≫= dateParse) as [b|]; simpl; try lia.
    destruct (b <=? a) eqn:Hab; simpl; [lia|]. set (e := Z.min (Z.max 0 (now - a)) (b - a)).
    pose proof (Z.div_mod e 1000 ltac:(lia)). pose proof (Z.mod_pos_bound e 1000 ltac:(lia)). lia.
Qed.

(** *** Concrete parameters *)

(** A query string as the binary code of its entries: what the laws ask for exists. *)
Fixpoint bits (p : positive) : string :=
  match p with xH => "." | xO p => String "0" (bits p) | xI p => String "1" (bits p) end.
Fixpoint unbits (s : string) : positive :=
  match s with
  | String "0" s => xO (unbits s)
  | String "1" s => xI (unbits s)
  | _ => xH
  end.
Lemma unbits_bits p : unbits (bits p) = p.
Proof. induction p as [p IH|p IH|]; simpl; by rewrite ?IH. Qed.
#[local] Instance coded_search : UrlSearch := {
  readSearch s := default [] (decode (unbits s));
  writeSearch l := bits (encode l);
}.
#[local] Instance bytes_order : UnitOrder := { unit_le := String.leb }.
Lemma coded_search_laws : UrlSearchLaws.
Proof.
  constructor; simpl.
  - intros l. by rewrite unbits_bits, decode_encode.
  - intros l. by destruct (encode l).
Qed.
Lemma room_view_roundtrip_witness :
  parseRoomViewPreferences (Some (roomViewSearch (View session_45m lineage_adjusted) None)) = View session_45m lineage_adjusted.
Proof. exact (proj1 (room_view_roundtrip coded_search_laws (View session_45m lineage_adjusted) None)). Defined.

Lemma room_clocks_bounded_witness : exists r,
  remaining (Some "2024-01-01T00:45:00.000Z"%string) (Some 1704067200500) = Some r /\ rm_seconds r = 2700.
Proof.
  destruct (room_clocks_bounded None (Some "2024-01-01T00:45:00.000Z"%string) None 0 0 0 1704067200500 0) as (_ & Hr & _).
  assert (Some "2024-01-01T00:45:00.000Z"%string ≫= dateParse = Some 1704069900000) as Hd by (vm_compute; reflexivity).
  destruct (Hr _ Hd) as (r & Hrem & _). exists r. split; [exact Hrem|].
  vm_compute in Hrem. injection Hrem as <-. reflexivity.
Defined.
