(* ===== verification/Hydrated.v ===== *)
(** * A browser's session in a room: [apps/web/src/lib/session/hydrated-session-state.ts]

    The class that puts the browser's parts together: the ledger, the projections, the
    socket, the reducer of the session, the agent's status and the command bus; what the
    socket calls back, the recovery of events page by page, the requests for the agent's
    state, the projections and the timelines, and the two ways a session ends.

    A callback of the socket is one of its outputs, handled in the order in which they
    were put out: it is called as the last thing an operation of the socket does, apart
    from the change of the connection, of which only the reducer hears. A request to the
    gateway is an entry of the state that an input answers, at any time and in any order,
    aborted or not: the signals of [AbortController] and [whenIdle], which waits for
    requests, are not modelled. A settled promise is an entry too, and its reactions are
    inputs. What the listeners do is not modelled; that they are called is in the log. *)
From S2P Require Import Prelude Text JsDate JsValue Contracts Database Concrete JsMap Frames ClientLedger RoomSocket Authorization Echo Trace Projections SeatCodes Sessions Rooms AgentStatus SessionClient.
#[local] Set Warnings "-register-all,-clear-no-such-hyp,-level-tolerance".

(** ** State *)

(** What an operation throws: an error of the gateway with its code, an error with its
    message, or what the socket and the ledger throw. *)
Inductive thrown : Type :=
| GatewayError (code : string)
| Thrown (message : string)
| SocketThrew (e : socket_error)
| LedgerThrew (e : ledger_error).
Definition isGateway (codes : list string) (e : thrown) : bool :=
  match e with GatewayError c => bool_decide (c ∈ codes) | _ => false end.

(** Which of its optional methods the gateway has. *)
Record EventGateway : Type := Gateway {
  gw_getAgentCurrent : bool;
  gw_getProjectionLatest : bool;
  gw_getProjectionPatches : bool;
  gw_getConceptTimeline : bool;
}.
Record RoomEventPage : Type := Page {
  pg_events : list RoomEventEnvelope;
  pg_throughRoomSeq : Z;
  pg_nextAfterSeq : option Z;
}.
(** The requests that go out. *)
Inductive gateway_request : Type :=
| AskEvents (roomId : string) (afterSeq limit : Z)
| AskAgent (roomId : string)
| AskLatest (roomId : string) (k : ProjectionKey)
| AskPatches (roomId : string) (k : ProjectionKey) (analysisEpoch : string) (afterProjectionVersion : Z)
| AskTimeline (roomId : string) (k : ProjectionKey) (analysisEpoch : string) (limit : Z).
Inductive callback : Type :=
| Notified
| OnSessionExpired
| OnRoomUnavailable
| Requested (r : gateway_request)
| TimelineSettled (id : nat) (r : result thrown string).      (** the epoch of the timeline *)

Record MediaStatus : Type := MkMedia { md_state : MediaState; md_updatedAt : string; md_failure : option string }.
(** What the frames of the socket leave behind. *)
Record signals : Type := Signals {
  sg_acks : list (string * (Z * Z));
  sg_rejects : list (option string * RejectCode * option bool);
  sg_presence : list (string * (PresenceState * string));
  sg_typing : list (string * (bool * string));
  sg_media : list (string * MediaStatus);
  sg_degraded : list (string * ServerFrame);
  sg_projection : option ProjectionAcceptResult;
  sg_serverTime : option string;
  sg_receivedAt : option Z;
}.
Definition no_signals : signals := Signals [] [] [] [] [] [] None None None.

Record agent_task : Type := AgentTask { at_id : nat; at_generation : Z; at_live : Z }.
Record agent_side : Type := AgentSide {
  ga_memory : agent_memory;
  ga_unavailable : bool;
  ga_pending : bool;
  ga_generation : Z;
  ga_live : Z;
  ga_refresh : option nat;
  ga_tasks : list agent_task;
}.

(** What a projection's task waits for. *)
Inductive projection_wait : Type :=
| WaitLatest (previousEpoch : option string)
| WaitPatches (frame : ProjectionFrame)
| WaitFrame (frame : ProjectionFrame).
Record projection_task : Type := Task { pt_id : nat; pt_key : ProjectionKey; pt_generation : Z; pt_wait : projection_wait }.
Record panels : Type := Panels {
  gp_generations : list (string * Z);
  gp_refreshes : list (string * nat);
  gp_tasks : list projection_task;
  gp_timelines : list (string * nat);
  gp_timelineTasks : list (nat * ProjectionKey);
}.
Definition no_panels : panels := Panels [] [] [] [] [].

(** The loop of [#recoverLoop] while it waits for a page. *)
Record recovery : Type := Recovery { rv_id : nat; rv_cursor : Z; rv_pageNumber : nat }.
Record recoveries : Type := Recoveries {
  rc_current : option recovery;
  rc_requiredThroughSeq : Z;
  rc_settled : list (nat * bool);        (** the promises that are settled, and how *)
  rc_watched : list nat;                 (** the promises [#failRecovery] is chained to *)
  rc_awaited : option nat;               (** the promise [create] waits for *)
  rc_error : option string;
}.

Record hydrated : Type := Hydrated {
  hs_ledger : EventLedger;
  hs_projections : ProjectionSync;
  hs_socket : room_socket;                (** between operations its log is empty *)
  hs_state : SessionState;
  hs_signals : signals;
  hs_agent : agent_side;
  hs_panels : panels;
  hs_recovery : recoveries;
  hs_session : option AuthSession;
  hs_room : option RoomDetails;
  hs_expired : bool;
  hs_roomUnavailable : bool;
  hs_pageLimit : Z;
  hs_gateway : EventGateway;
  hs_busRoom : string;                    (** the room of the command bus *)
  hs_next : nat;                          (** the next number of a promise *)
  hs_outputs : list output;               (** what the socket has put out, oldest first *)
  hs_log : list callback;
}.
Abbreviation HM := (M hydrated thrown).

Section Setters.
Context (s : hydrated).
Definition set_ledger x := Hydrated x (hs_projections s) (hs_socket s) (hs_state s) (hs_signals s) (hs_agent s) (hs_panels s)
  (hs_recovery s) (hs_session s) (hs_room s) (hs_expired s) (hs_roomUnavailable s) (hs_pageLimit s) (hs_gateway s)
  (hs_busRoom s) (hs_next s) (hs_outputs s) (hs_log s).
Definition set_projections x := Hydrated (hs_ledger s) x (hs_socket s) (hs_state s) (hs_signals s) (hs_agent s) (hs_panels s)
  (hs_recovery s) (hs_session s) (hs_room s) (hs_expired s) (hs_roomUnavailable s) (hs_pageLimit s) (hs_gateway s)
  (hs_busRoom s) (hs_next s) (hs_outputs s) (hs_log s).
Definition set_roomSocket x := Hydrated (hs_ledger s) (hs_projections s) x (hs_state s) (hs_signals s) (hs_agent s) (hs_panels s)
  (hs_recovery s) (hs_session s) (hs_room s) (hs_expired s) (hs_roomUnavailable s) (hs_pageLimit s) (hs_gateway s)
  (hs_busRoom s) (hs_next s) (hs_outputs s) (hs_log s).
Definition set_state x := Hydrated (hs_ledger s) (hs_projections s) (hs_socket s) x (hs_signals s) (hs_agent s) (hs_panels s)
  (hs_recovery s) (hs_session s) (hs_room s) (hs_expired s) (hs_roomUnavailable s) (hs_pageLimit s) (hs_gateway s)
  (hs_busRoom s) (hs_next s) (hs_outputs s) (hs_log s).
Definition set_signals x := Hydrated (hs_ledger s) (hs_projections s) (hs_socket s) (hs_state s) x (hs_agent s) (hs_panels s)
  (hs_recovery s) (hs_session s) (hs_room s) (hs_expired s) (hs_roomUnavailable s) (hs_pageLimit s) (hs_gateway s)
  (hs_busRoom s) (hs_next s) (hs_outputs s) (hs_log s).
Definition set_agent x := Hydrated (hs_ledger s) (hs_projections s) (hs_socket s) (hs_state s) (hs_signals s) x (hs_panels s)
  (hs_recovery s) (hs_session s) (hs_room s) (hs_expired s) (hs_roomUnavailable s) (hs_pageLimit s) (hs_gateway s)
  (hs_busRoom s) (hs_next s) (hs_outputs s) (hs_log s).
Definition set_panels x := Hydrated (hs_ledger s) (hs_projections s) (hs_socket s) (hs_state s) (hs_signals s) (hs_agent s) x
  (hs_recovery s) (hs_session s) (hs_room s) (hs_expired s) (hs_roomUnavailable s) (hs_pageLimit s) (hs_gateway s)
  (hs_busRoom s) (hs_next s) (hs_outputs s) (hs_log s).
Definition set_recovery x := Hydrated (hs_ledger s) (hs_projections s) (hs_socket s) (hs_state s) (hs_signals s) (hs_agent s)
  (hs_panels s) x (hs_session s) (hs_room s) (hs_expired s) (hs_roomUnavailable s) (hs_pageLimit s) (hs_gateway s)
  (hs_busRoom s) (hs_next s) (hs_outputs s) (hs_log s).
Definition set_identity x y := Hydrated (hs_ledger s) (hs_projections s) (hs_socket s) (hs_state s) (hs_signals s) (hs_agent s)
  (hs_panels s) (hs_recovery s) x y (hs_expired s) (hs_roomUnavailable s) (hs_pageLimit s) (hs_gateway s)
  (hs_busRoom s) (hs_next s) (hs_outputs s) (hs_log s).
Definition set_ended x y := Hydrated (hs_ledger s) (hs_projections s) (hs_socket s) (hs_state s) (hs_signals s) (hs_agent s)
  (hs_panels s) (hs_recovery s) (hs_session s) (hs_room s) x y (hs_pageLimit s) (hs_gateway s)
  (hs_busRoom s) (hs_next s) (hs_outputs s) (hs_log s).
Definition set_next x := Hydrated (hs_ledger s) (hs_projections s) (hs_socket s) (hs_state s) (hs_signals s) (hs_agent s)
  (hs_panels s) (hs_recovery s) (hs_session s) (hs_room s) (hs_expired s) (hs_roomUnavailable s) (hs_pageLimit s) (hs_gateway s)
  (hs_busRoom s) x (hs_outputs s) (hs_log s).
Definition add_output o := Hydrated (hs_ledger s) (hs_projections s) (hs_socket s) (hs_state s) (hs_signals s) (hs_agent s)
  (hs_panels s) (hs_recovery s) (hs_session s) (hs_room s) (hs_expired s) (hs_roomUnavailable s) (hs_pageLimit s) (hs_gateway s)
  (hs_busRoom s) (hs_next s) (hs_outputs s ++ [o]) (hs_log s).
Definition add_callback c := Hydrated (hs_ledger s) (hs_projections s) (hs_socket s) (hs_state s) (hs_signals s) (hs_agent s)
  (hs_panels s) (hs_recovery s) (hs_session s) (hs_room s) (hs_expired s) (hs_roomUnavailable s) (hs_pageLimit s) (hs_gateway s)
  (hs_busRoom s) (hs_next s) (hs_outputs s) (hs_log s ++ [c]).
End Setters.

(** *** Setters of the parts *)
Definition set_current c r := Recoveries c (rc_requiredThroughSeq r) (rc_settled r) (rc_watched r) (rc_awaited r) (rc_error r).
Definition set_required n r := Recoveries (rc_current r) n (rc_settled r) (rc_watched r) (rc_awaited r) (rc_error r).
Definition add_settled id b r := Recoveries (rc_current r) (rc_requiredThroughSeq r) ((id, b) :: rc_settled r) (rc_watched r) (rc_awaited r) (rc_error r).
Definition set_watched l r := Recoveries (rc_current r) (rc_requiredThroughSeq r) (rc_settled r) l (rc_awaited r) (rc_error r).
Definition set_awaited a r := Recoveries (rc_current r) (rc_requiredThroughSeq r) (rc_settled r) (rc_watched r) a (rc_error r).
Definition set_error e r := Recoveries (rc_current r) (rc_requiredThroughSeq r) (rc_settled r) (rc_watched r) (rc_awaited r) e.

Definition set_memory m a := AgentSide m (ga_unavailable a) (ga_pending a) (ga_generation a) (ga_live a) (ga_refresh a) (ga_tasks a).
Definition set_unavailable b a := AgentSide (ga_memory a) b (ga_pending a) (ga_generation a) (ga_live a) (ga_refresh a) (ga_tasks a).
Definition set_request p g r a := AgentSide (ga_memory a) (ga_unavailable a) p g (ga_live a) r (ga_tasks a).
Definition set_live n a := AgentSide (ga_memory a) (ga_unavailable a) (ga_pending a) (ga_generation a) n (ga_refresh a) (ga_tasks a).
Definition set_agentTasks l a := AgentSide (ga_memory a) (ga_unavailable a) (ga_pending a) (ga_generation a) (ga_live a) (ga_refresh a) l.

Definition set_generations l p := Panels l (gp_refreshes p) (gp_tasks p) (gp_timelines p) (gp_timelineTasks p).
Definition set_refreshes l p := Panels (gp_generations p) l (gp_tasks p) (gp_timelines p) (gp_timelineTasks p).
Definition set_tasks l p := Panels (gp_generations p) (gp_refreshes p) l (gp_timelines p) (gp_timelineTasks p).
Definition set_timelines l p := Panels (gp_generations p) (gp_refreshes p) (gp_tasks p) l (gp_timelineTasks p).
Definition set_timelineTasks l p := Panels (gp_generations p) (gp_refreshes p) (gp_tasks p) (gp_timelines p) l.

(** ** The small steps *)

Definition onRecovery (f : recoveries -> recoveries) : HM unit := modify (fun s => set_recovery s (f (hs_recovery s))).
Definition onAgent (f : agent_side -> agent_side) : HM unit := modify (fun s => set_agent s (f (hs_agent s))).
Definition onPanels (f : panels -> panels) : HM unit := modify (fun s => set_panels s (f (hs_panels s))).
Definition onSignals (f : signals -> signals) : HM unit := modify (fun s => set_signals s (f (hs_signals s))).
Definition log_callback (c : callback) : HM unit := modify (fun s => add_callback s c).
(** [#notify]. *)
Definition notify : HM unit := log_callback Notified.
Definition request (r : gateway_request) : HM unit := log_callback (Requested r).
Definition reduce (a : SessionAction) : HM unit := modify (fun s => set_state s (sessionReducer (hs_state s) a)).
Definition fresh : HM nat := s ← get_state; _ ← modify (fun s => set_next s (S (hs_next s))); mret (hs_next s).

(** [try ... finally]. *)
Definition finally {A} (m : HM A) (f : HM unit) : HM A := fun s =>
  let '(r, s1) := m s in
  match f s1 with (Ok _, s2) => (r, s2) | (Err e, s2) => (Err e, s2) end.
(** What [m] came to, as a value. *)
Definition attempt {A} (m : HM A) : HM (result thrown A) := fun s => let '(r, s1) := m s in (Ok r, s1).

(** An operation of the projections; [violation] is the message of its contract. *)
Definition inProjections {A} (violation : string) (m : M ProjectionSync sync_error A) : HM A := fun s =>
  let '(r, st) := m (hs_projections s) in
  (match r with
   | Ok a => Ok a
   | Err (SyncError c) => Err (Thrown c)
   | Err ContractViolation => Err (Thrown violation)
   end, set_projections s st).

(** An operation of the socket, its outputs handled in order. *)
Definition with_log (l : list output) (s : room_socket) : room_socket :=
  RoomSocket (rs_roomId s) (rs_clientId s) (rs_lastRoomSeq s) (rs_storage s) (rs_storageKey s) (rs_pending s) (rs_clientSeq s)
    (rs_retryDelays s) (rs_retryIndex s) (rs_retryTimer s) (rs_reconnectGate s) (rs_waiting s) (rs_socket s)
    (rs_factory s) (rs_closed s) (rs_resumeReady s) (rs_sockets s) l.
Fixpoint handleEach (f : output -> HM unit) (os : list output) : HM unit :=
  match os with
  | [] => mret tt
  | o :: os => _ ← modify (fun s => add_output s o); _ ← f o; handleEach f os
  end.
Definition onSocket {A} (f : output -> HM unit) (m : M room_socket socket_error A) : HM A := fun s =>
  let '(r, so) := m (with_log [] (hs_socket s)) in
  match handleEach f (rs_log so) (set_roomSocket s (with_log [] so)) with
  | (Ok _, s') => (match r with Ok a => Ok a | Err e => Err (SocketThrew e) end, s')
  | (Err e, s') => (Err e, s')
  end.

(** The callback [onConnectionChange]; the operations that are run with it call no
    other. *)
Definition onConnectionChange (o : output) : HM unit :=
  match o with
  | ConnectionChange connected => _ ← reduce (AConnection connected); notify
  | _ => mret tt
  end.
Definition quietly {A} (m : M room_socket socket_error A) : HM A := onSocket onConnectionChange m.

Definition hasRoom (s : hydrated) : bool := bool_decide (is_Some (hs_room s)).
Definition hasSession (s : hydrated) : bool := bool_decide (is_Some (hs_session s)).
(** [get room] and [get session]. *)
Definition SESSION_STATE_CLEARED : thrown := Thrown "SESSION_STATE_CLEARED".
Definition theRoom : HM RoomDetails :=
  s ← get_state; match hs_room s with Some r => mret r | None => throw SESSION_STATE_CLEARED end.
Definition theSession : HM AuthSession :=
  s ← get_state; match hs_session s with Some a => mret a | None => throw SESSION_STATE_CLEARED end.

(** ** The end of a session *)

Definition generationOf (k : ProjectionKey) (p : panels) : option Z := assoc (name k) (gp_generations p).
(** [#cancelProjectionRefresh]. *)
Definition cancelProjectionRefresh (k : ProjectionKey) : HM unit :=
  onPanels (fun p => set_refreshes (map_delete (name k) (gp_refreshes p))
    (set_generations (map_set (name k) (default 0 (generationOf k p) + 1) (gp_generations p)) p)).
Definition isEcho (k : ProjectionKey) : bool :=
  match k with echo_teacher_shadow | echo_student_approved => true | _ => false end.
(** [#cancelTimelineRequest]. *)
Definition cancelTimelineRequest (k : ProjectionKey) : HM unit :=
  if isEcho k then onPanels (fun p => set_timelines (map_delete (name k) (gp_timelines p)) p) else mret tt.
Fixpoint forEach {A} (f : A -> HM unit) (l : list A) : HM unit :=
  match l with [] => mret tt | x :: l => _ ← f x; forEach f l end.

(** [#clearState(false)]. *)
Definition clearState : HM unit :=
  _ ← onAgent (fun a => set_request (ga_pending a) (ga_generation a + 1) None a);
  s ← get_state;
  _ ← forEach cancelProjectionRefresh (allowedKeys (hs_projections s));
  _ ← onPanels (fun p => set_refreshes [] (set_timelines [] p));
  _ ← quietly destroy;
  _ ← modify (fun s => set_ledger s (destroyLedger (hs_ledger s)));
  _ ← modify (fun s => set_projections s (clearAuthority (hs_projections s)));
  _ ← onSignals (fun _ => no_signals);
  _ ← onAgent (fun a => set_request false (ga_generation a) (ga_refresh a) (set_unavailable false (set_memory no_agent a)));
  _ ← onRecovery (set_error None);
  _ ← modify (fun s => set_identity s None None);
  _ ← modify (fun s => set_state s (initialSessionState ""));
  onRecovery (set_required 0).
Definition clearForSessionExpiry : HM unit :=
  s ← get_state;
  if hs_expired s || hs_roomUnavailable s then mret tt else
  _ ← modify (fun s => set_ended s true (hs_roomUnavailable s));
  _ ← clearState;
  _ ← log_callback OnSessionExpired;
  notify.
Definition clearForRoomUnavailable : HM unit :=
  s ← get_state;
  if hs_expired s || hs_roomUnavailable s then mret tt else
  _ ← modify (fun s => set_ended s (hs_expired s) true);
  _ ← clearState;
  _ ← log_callback OnRoomUnavailable;
  notify.
(** [#failRecovery]. *)
Definition failRecovery (code : string) : HM unit :=
  s ← get_state;
  if hs_expired s || hs_roomUnavailable s || bool_decide (is_Some (rc_error (hs_recovery s))) then mret tt else
  _ ← onRecovery (set_error (Some code));
  _ ← quietly close;
  notify.
Definition REALTIME_PROTOCOL_ERROR : string := "REALTIME_PROTOCOL_ERROR".
Definition ROOM_EVENT_RECOVERY_FAILED : string := "ROOM_EVENT_RECOVERY_FAILED".

(** ** Requests *)

(** The codes by which the gateway says that the session or the room is gone. *)
Definition AUTH_REQUIRED : string := "AUTH_REQUIRED".
Definition ROOM_GONE_CODES : list string := ["FORBIDDEN"; "ROOM_NOT_FOUND"]%string.

(** [recoverEvents]: the number of the promise. *)
Definition rejectedPromise : HM nat := id ← fresh; _ ← onRecovery (add_settled id false); mret id.
Definition recoverEvents (requiredThroughSeq : option Z) : HM nat :=
  s ← get_state;
  let required := default (el_lastSeq (hs_ledger s)) requiredThroughSeq in
  if hs_expired s || hs_roomUnavailable s || bool_decide (is_Some (rc_error (hs_recovery s)))
     || negb (bool_decide (Z.abs required <= MAX_SAFE_INTEGER)) || (required <? 0) then rejectedPromise
  else
    _ ← onRecovery (fun r => set_required (Z.max (rc_requiredThroughSeq r) required) r);
    match rc_current (hs_recovery s) with
    | Some r => mret (rv_id r)
    | None =>
        match hs_room s with
        | None => rejectedPromise
        | Some room =>
            id ← fresh;
            let cursor := el_lastSeq (hs_ledger s) in
            _ ← request (AskEvents (rd_roomId room) cursor (hs_pageLimit s));
            _ ← onRecovery (set_current (Some (Recovery id cursor 0)));
            mret id
        end
    end.

(** [#refreshAgentCurrent]: up to the answer. *)
Definition refreshAgentCurrent : HM unit :=
  s ← get_state;
  match hs_room s with
  | Some room =>
      if negb (gw_getAgentCurrent (hs_gateway s)) then mret tt else
      let generation := ga_generation (hs_agent s) + 1 in
      _ ← onAgent (fun a => set_request true generation (ga_refresh a) a);
      _ ← notify;
      id ← fresh;
      _ ← request (AskAgent (rd_roomId room));
      onAgent (fun a => set_agentTasks (ga_tasks a ++ [AgentTask id generation (ga_live a)])
        (set_request (ga_pending a) (ga_generation a) (Some id) a))
  | None => mret tt
  end.

(** [#projectionTask]: up to the answer; [wait] is the synchronous part of the work. *)
Definition projectionTask (k : ProjectionKey) (wait : HM projection_wait) : HM unit :=
  s ← get_state;
  if negb (hasRoom s && hasSession s) then mret tt else
  let generation := default 0 (generationOf k (hs_panels s)) + 1 in
  _ ← onPanels (fun p => set_generations (map_set (name k) generation (gp_generations p)) p);
  _ ← inProjections "" (markLoading k);
  _ ← notify;
  id ← fresh;
  w ← wait;
  onPanels (fun p => set_refreshes (map_set (name k) id (gp_refreshes p))
    (set_tasks (gp_tasks p ++ [Task id k generation w]) p)).
Definition sp_analysisEpoch (s : ProjectionSnapshot) : string :=
  match s with EchoSnapshot s => cs_analysisEpoch s | TraceSnapshot b => sn_analysisEpoch b end.
Definition sp_projectionVersion (s : ProjectionSnapshot) : Z :=
  match s with EchoSnapshot s => cs_projectionVersion s | TraceSnapshot b => sn_projectionVersion b end.
Definition sp_completeThroughRoomSeq (s : ProjectionSnapshot) : Z :=
  match s with EchoSnapshot s => cs_completeThroughRoomSeq s | TraceSnapshot b => sn_completeThroughRoomSeq b end.
(** [#refreshProjectionLatest]. *)
Definition refreshProjectionLatest (k : ProjectionKey) : HM unit :=
  s ← get_state;
  match hs_room s with
  | Some room =>
      if negb (gw_getProjectionLatest (hs_gateway s)) then mret tt else
      projectionTask k (
        previous ← inProjections "" (slot k);
        _ ← request (AskLatest (rd_roomId room) k);
        mret (WaitLatest (sp_analysisEpoch <$> sl_snapshot previous)))
  | None => mret tt
  end.
Definition refreshProjections : HM unit :=
  s ← get_state;
  if negb (gw_getProjectionLatest (hs_gateway s)) || negb (hasRoom s) then mret tt
  else forEach refreshProjectionLatest (allowedKeys (hs_projections s)).
(** Whether the patches after [current] lead to [frame]. *)
Definition patchable (gateway : EventGateway) (k : ProjectionKey) (frame : ProjectionFrame) (r : ProjectionAcceptResult)
    (current : option ProjectionSnapshot) : option Z :=
  match r, current with
  | accepted, Some current =>
      if isEcho k && gw_getProjectionPatches gateway && bool_decide (sp_projectionKey current = k)
         && bool_decide (sp_analysisEpoch current = pj_analysisEpoch frame)
         && (sp_projectionVersion current + 1 =? pj_projectionVersion frame)
      then Some (sp_projectionVersion current) else None
  | _, _ => None
  end.
(** [#reconcileProjectionFrame]. *)
Definition reconcileProjectionFrame (frame : ProjectionFrame) (r : ProjectionAcceptResult) : HM unit :=
  s ← get_state;
  match hs_room s with
  | Some room =>
      if negb (gw_getProjectionLatest (hs_gateway s)) then mret tt else
      let k := pj_projectionKey frame in
      projectionTask k (
        sl ← inProjections "" (slot k);
        match patchable (hs_gateway s) k frame r (sl_snapshot sl) with
        | Some version =>
            _ ← request (AskPatches (rd_roomId room) k (pj_analysisEpoch frame) version);
            mret (WaitPatches frame)
        | None => _ ← request (AskLatest (rd_roomId room) k); mret (WaitFrame frame)
        end)
  | None => mret tt
  end.

(** ** What the socket hands over *)

Definition statusFromEvent (type : string) : option RoomStatus :=
  if bool_decide (type = "room.opened") || bool_decide (type = "room.resumed") then Some open
  else if bool_decide (type = "room.paused") then Some paused
  else if bool_decide (type = "room.closed") then Some closed
  else None.

(** The message of the error by which the contract refuses a snapshot: one of its codes. *)
Class ContractText : Type := { violationText : ProjectionSnapshot -> string }.

Section Hydrated.
Context `{Schemas}.

Definition ledgerAppend (event : RoomEventEnvelope) : HM LedgerAppendResult := fun s =>
  match append (envelopeJson event) (hs_ledger s) with
  | Ok (r, l) => (Ok r, set_ledger s l)
  | Err e => (Err (LedgerThrew e), s)
  end.
Definition resultText (r : LedgerAppendResult) : string :=
  match r with appended => "APPENDED" | duplicate => "DUPLICATE" | stale => "STALE" | ClientLedger.gap => "GAP" end.
Definition requiredString (value : option json) (code : string) : HM string :=
  match value with Some (JStr t) => mret t | _ => throw (Thrown code) end.
(** [#acceptEvent]. *)
Definition acceptEvent (event : RoomEventEnvelope) : HM unit :=
  r ← ledgerAppend event;
  _ ← match r with appended => mret tt | _ => throw (Thrown ("ROOM_EVENT_LEDGER_" ++ resultText r)) end;
  _ ← modify (fun s =>
        let activeIds := activeMediaIds (hs_ledger s) in
        let g := hs_signals s in
        set_signals s (Signals (sg_acks g) (sg_rejects g) (sg_presence g) (sg_typing g)
          (List.filter (fun e => bool_decide (fst e ∈ activeIds)) (sg_media g)) (sg_degraded g) (sg_projection g)
          (sg_serverTime g) (sg_receivedAt g)));
  _ ← reduce (ACursor (roomSeq event));
  _ ← match statusFromEvent (type event) with Some status => reduce (AStatus status) | None => mret tt end;
  _ ← (if bool_decide (type event = "room.opened"%string) then
         startsAt ← requiredString (assoc "startsAt" (payload event)) "ROOM_START_INVALID";
         closesAt ← requiredString (assoc "closesAt" (payload event)) "ROOM_CLOSE_INVALID";
         reduce (ATiming (Some startsAt) (Some closesAt))
       else mret tt);
  notify.

Definition MAX_ACK_HISTORY : nat := 500.
Definition MAX_REJECT_HISTORY : nat := 100.
Definition MAX_MEDIA_STATUS_HISTORY : nat := 500.
(** [map.delete(map.keys().next().value!)]. *)
Definition delete_first {A} (m : list (string * A)) : list (string * A) :=
  match m with [] => [] | (k, _) :: _ => map_delete k m end.
Definition addAck (commandId : string) (v : Z * Z) (m : list (string * (Z * Z))) : list (string * (Z * Z)) :=
  let m := map_set commandId v m in
  if decide (MAX_ACK_HISTORY < length m)%nat then delete_first m else m.
Definition addReject (v : option string * RejectCode * option bool) (l : list (option string * RejectCode * option bool)) :=
  let l := l ++ [v] in drop (length l - MAX_REJECT_HISTORY) l.
Definition terminalMedia (s : MediaState) : bool := bool_decide (s ∈ [m_quarantined; m_failed; m_deleted]).
(** Whether the status [next] is refused after [previous]; a comparison with a date that
    is none is false. *)
Definition staleMedia (previous next : MediaStatus) : bool :=
  let earlier := match dateParse (md_updatedAt previous), dateParse (md_updatedAt next) with
    | Some p, Some n => n <? p | _, _ => false end in
  let same := match dateParse (md_updatedAt previous), dateParse (md_updatedAt next) with
    | Some p, Some n => n =? p | _, _ => false end in
  earlier
  || (terminalMedia (md_state previous) && negb (terminalMedia (md_state next)))
  || (same && negb (bool_decide (md_state previous = md_state next))
      && negb (terminalMedia (md_state next) && negb (terminalMedia (md_state previous)))).
Definition addMedia (mediaId : string) (v : MediaStatus) (m : list (string * MediaStatus)) : list (string * MediaStatus) :=
  if match assoc mediaId m with Some previous => staleMedia previous v | None => false end then m else
  let m := if negb (map_has mediaId m) && bool_decide (MAX_MEDIA_STATUS_HISTORY <= length m)%nat then delete_first m else m in
  map_set mediaId v m.
Definition scopeText (s : DegradedScope) : string :=
  match s with sc_realtime => "realtime" | sc_media => "media" | sc_analytics => "analytics" | sc_agent => "agent" end.
Definition addDegraded (scope : DegradedScope) (k : option ProjectionKey) (f : ServerFrame) (m : list (string * ServerFrame)) :=
  map_set (scopeText scope) f (map_set (scopeText scope ++ ":" ++ from_option name "all" k)%string f m).

Definition set_serverTime (t : string) (now : Z) : HM unit :=
  onSignals (fun g => Signals (sg_acks g) (sg_rejects g) (sg_presence g) (sg_typing g) (sg_media g) (sg_degraded g)
    (sg_projection g) (Some t) (Some now)).
Definition acceptMedia (mediaId : string) (v : MediaStatus) : HM unit :=
  s ← get_state;
  if negb (bool_decide (mediaId ∈ activeMediaIds (hs_ledger s))) then mret tt else
  onSignals (fun g => Signals (sg_acks g) (sg_rejects g) (sg_presence g) (sg_typing g) (addMedia mediaId v (sg_media g))
    (sg_degraded g) (sg_projection g) (sg_serverTime g) (sg_receivedAt g)).
(** A merge into what is known of the agent. *)
Definition mergeAgent {A} (merge : agent_memory -> result string (A * agent_memory)) : HM A :=
  s ← get_state;
  match merge (ga_memory (hs_agent s)) with
  | Ok (x, m) => _ ← onAgent (set_memory m); mret x
  | Err e => throw (Thrown e)
  end.
(** [#acceptControl] without its [finally]; [now] is [Date.now()]. *)
Definition controlFrame (now : Z) (frame : ServerFrame) : HM unit :=
  match frame with
  | FWelcome serverTime roomId _ status =>
      room ← theRoom;
      _ ← throw_if (negb (bool_decide (roomId = rd_roomId room))) (Thrown "WELCOME_ROOM_MISMATCH");
      _ ← set_serverTime serverTime now;
      reduce (AStatus status)
  | FSnapshotRequired afterSeq through =>
      s ← get_state;
      _ ← throw_if (negb (bool_decide (afterSeq = el_lastSeq (hs_ledger s))) || (through <? afterSeq))
            (Thrown "ROOM_EVENT_RECOVERY_RANGE_INVALID");
      recovery ← recoverEvents (Some through);
      _ ← quietly (deferReconnectUntil recovery);
      onRecovery (fun r => set_watched (recovery :: rc_watched r) r)
  | FResumeComplete _ =>
      _ ← quietly (k ← currentSocket; sendPresence active k);
      _ ← refreshAgentCurrent;
      refreshProjections
  | FAck commandId seq rev =>
      onSignals (fun g => Signals (addAck commandId (seq, rev) (sg_acks g)) (sg_rejects g) (sg_presence g) (sg_typing g)
        (sg_media g) (sg_degraded g) (sg_projection g) (sg_serverTime g) (sg_receivedAt g))
  | FReject commandId code again =>
      onSignals (fun g => Signals (sg_acks g) (addReject (commandId, code, again) (sg_rejects g)) (sg_presence g) (sg_typing g)
        (sg_media g) (sg_degraded g) (sg_projection g) (sg_serverTime g) (sg_receivedAt g))
  | FPresence actorId state expiresAt =>
      onSignals (fun g => Signals (sg_acks g) (sg_rejects g) (map_set actorId (state, expiresAt) (sg_presence g)) (sg_typing g)
        (sg_media g) (sg_degraded g) (sg_projection g) (sg_serverTime g) (sg_receivedAt g))
  | FTyping actorId b expiresAt =>
      onSignals (fun g => Signals (sg_acks g) (sg_rejects g) (sg_presence g) (map_set actorId (b, expiresAt) (sg_typing g))
        (sg_media g) (sg_degraded g) (sg_projection g) (sg_serverTime g) (sg_receivedAt g))
  | FMediaStatus mediaId state failure updatedAt =>
      acceptMedia mediaId (MkMedia state updatedAt failure)
  | FAgentStatus roomId run state health enabled updatedAt failure =>
      room ← theRoom;
      _ ← throw_if (negb (bool_decide (roomId = rd_roomId room))) (Thrown "AGENT_STATUS_ROOM_MISMATCH");
      changed ← mergeAgent (mergeAgentFrame (MkAgent roomId run state health enabled updatedAt failure)
        (dateParse updatedAt) (dateParse updatedAt) false);
      if changed : bool then onAgent (fun a => set_unavailable false (set_live (ga_live a + 1) a)) else mret tt
  | FProjection frame =>
      r ← inProjections "" (accept frame);
      _ ← onSignals (fun g => Signals (sg_acks g) (sg_rejects g) (sg_presence g) (sg_typing g) (sg_media g) (sg_degraded g)
            (Some r) (sg_serverTime g) (sg_receivedAt g));
      _ ← match r with epoch_changed => cancelTimelineRequest (pj_projectionKey frame) | _ => mret tt end;
      match r with
      | duplicate_frame | stale_frame => mret tt
      | _ => reconcileProjectionFrame frame r
      end
  | FDegraded scope code _ _ k =>
      _ ← onSignals (fun g => Signals (sg_acks g) (sg_rejects g) (sg_presence g) (sg_typing g) (sg_media g)
            (addDegraded scope k frame (sg_degraded g)) (sg_projection g) (sg_serverTime g) (sg_receivedAt g));
      s ← get_state;
      match scope, k with
      | sc_analytics, Some k =>
          if bool_decide (code = "STUDENT_ANALYTICS_NOT_PROMOTED"%string) && holds k (hs_projections s) then
            _ ← cancelProjectionRefresh k;
            _ ← cancelTimelineRequest k;
            inProjections "" (markPolicyUnavailable k)
          else mret tt
      | _, _ => mret tt
      end
  | FHeartbeat serverTime => set_serverTime serverTime now
  | FEvent _ => mret tt
  end.
Definition acceptControl (now : Z) (frame : ServerFrame) : HM unit := finally (controlFrame now frame) notify.

(** The callbacks the socket is made with. *)
Definition dispatch (now : Z) (o : output) : HM unit :=
  match o with
  | Sink event => acceptEvent event
  | Control frame => acceptControl now frame
  | SessionExpired => clearForSessionExpiry
  | RoomUnavailable _ => clearForRoomUnavailable
  | ProtocolError => failRecovery REALTIME_PROTOCOL_ERROR
  | _ => onConnectionChange o
  end.
Definition socketDo {A} (now : Z) (m : M room_socket socket_error A) : HM A := onSocket (dispatch now) m.
(** [this.socket.onFrame(value)]. *)
Definition socketFrame (now : Z) (value : json) : HM unit := socketDo now (k ← currentSocket; onFrame value k).

(** The listener of messages of the socket [k]: what a callback throws is caught with what
    [onFrame] throws. *)
Definition onMessage (now : Z) (k : nat) (data : option json) : HM unit :=
  s ← get_state;
  if rs_closed (hs_socket s) || negb (bool_decide (rs_socket (hs_socket s) = Some k)) then mret tt else
  try_catch (match data with
             | None => throw (SocketThrew JSON_SYNTAX)
             | Some value => socketDo now (onFrame value (Some k))
             end) (fun _ => socketDo now (protocolFailure k)).
Definition receiveFrame (now : Z) (value : json) : HM unit :=
  s ← get_state;
  if hs_expired s || hs_roomUnavailable s || bool_decide (is_Some (rc_error (hs_recovery s))) then mret tt else
  try_catch (socketFrame now value) (fun _ => failRecovery REALTIME_PROTOCOL_ERROR).

(** ** The answers of the gateway *)

(** *** Pages of events *)

Fixpoint recoverPage (now : Z) (events : list RoomEventEnvelope) (cursor : Z) : HM Z :=
  match events with
  | [] => mret cursor
  | event :: events =>
      _ ← throw_if (negb (bool_decide (roomSeq event = cursor + 1))) (Thrown "ROOM_EVENT_PAGE_GAP");
      _ ← socketFrame now (serverFrameJson (FEvent event));
      s ← get_state;
      _ ← throw_if (negb (bool_decide (el_lastSeq (hs_ledger s) = roomSeq event))) (Thrown "ROOM_EVENT_PAGE_REJECTED");
      recoverPage now events (roomSeq event)
  end.
(** The loop of [#recoverLoop] from an answer to the next request, whose cursor and page
    it gives, or to its end. *)
Definition recoverLoop (now : Z) (r : recovery) (answer : result thrown RoomEventPage) : HM (option recovery) :=
  page ← lift_result answer;
  s ← get_state;
  _ ← throw_if (hs_expired s) (Thrown "SESSION_EXPIRED");
  _ ← throw_if (hs_roomUnavailable s) (Thrown "ROOM_UNAVAILABLE");
  cursor ← recoverPage now (pg_events page) (rv_cursor r);
  _ ← throw_if (negb (bool_decide (pg_throughRoomSeq page = cursor))) (Thrown "ROOM_EVENT_PAGE_CURSOR_MISMATCH");
  match pg_nextAfterSeq page with
  | None =>
      s ← get_state;
      _ ← throw_if (cursor <? rc_requiredThroughSeq (hs_recovery s)) (Thrown "ROOM_EVENT_RECOVERY_INCOMPLETE");
      mret None
  | Some next =>
      _ ← throw_if (negb (bool_decide (next = cursor)) || bool_decide (pg_events page = [])) (Thrown "ROOM_EVENT_PAGE_CURSOR_INVALID");
      _ ← throw_if (bool_decide (1000 <= S (rv_pageNumber r))%nat) (Thrown "ROOM_EVENT_PAGE_LIMIT_EXCEEDED");
      room ← theRoom;
      s ← get_state;
      _ ← request (AskEvents (rd_roomId room) cursor (hs_pageLimit s));
      mret (Some (Recovery (rv_id r) cursor (S (rv_pageNumber r))))
  end.
(** The recovery in flight is answered; its promise is settled when it ends. *)
Definition answerPage (now : Z) (answer : result thrown RoomEventPage) : HM unit :=
  s ← get_state;
  match rc_current (hs_recovery s) with
  | None => mret tt
  | Some r =>
      next ← attempt (recoverLoop now r answer);
      match next with
      | Ok (Some r) => onRecovery (set_current (Some r))
      | Ok None =>
          _ ← onRecovery (set_current None);
          s ← get_state;
          _ ← onRecovery (set_required (el_lastSeq (hs_ledger s)));
          onRecovery (add_settled (rv_id r) true)
      | Err e =>
          _ ← onRecovery (set_current None);
          _ ← (if isGateway [AUTH_REQUIRED] e then clearForSessionExpiry
               else if isGateway ROOM_GONE_CODES e then clearForRoomUnavailable else mret tt);
          onRecovery (add_settled (rv_id r) false)
      end
  end.
(** The reactions to a settled recovery: of [#acceptControl], of the socket, of [create]. *)
Definition settledAs (id : nat) (s : hydrated) : option bool :=
  snd <$> find (fun e => bool_decide (fst e = id)) (rc_settled (hs_recovery s)).
Definition watchedReaction (id : nat) : HM unit :=
  s ← get_state;
  match settledAs id s with
  | Some ok =>
      if bool_decide (id ∈ rc_watched (hs_recovery s)) then
        _ ← onRecovery (fun r => set_watched (remove_first id (rc_watched r)) r);
        if ok then mret tt else failRecovery ROOM_EVENT_RECOVERY_FAILED
      else mret tt
  | None => mret tt
  end.
Definition gateReaction (now : Z) (id : nat) : HM unit :=
  s ← get_state;
  match settledAs id s with Some ok => socketDo now (onGate id ok) | None => mret tt end.
Definition createReaction : HM unit :=
  s ← get_state;
  match rc_awaited (hs_recovery s) with
  | Some id =>
      match settledAs id s with
      | Some true => _ ← onRecovery (set_awaited None); refreshProjections
      | Some false => onRecovery (set_awaited None)
      | None => mret tt
      end
  | None => mret tt
  end.

(** *** The agent's state *)

Definition mergeCurrent (c : AgentCurrentState) : HM unit :=
  room ← theRoom;
  mergeAgent (fun m => m ← mergeAgentCurrent (rd_roomId room) c m; Ok (tt, m)).
(** The rest of the task; a timeout and an abort are answers that throw. *)
Definition answerAgent (id : nat) (answer : result thrown AgentCurrentState) : HM unit :=
  s ← get_state;
  match find (fun t => bool_decide (at_id t = id)) (ga_tasks (hs_agent s)) with
  | None => mret tt
  | Some t =>
      let superseded s := negb (bool_decide (at_generation t = ga_generation (hs_agent s))) || negb (hasRoom s) in
      _ ← onAgent (fun a => set_agentTasks (List.filter (fun t' => negb (bool_decide (at_id t' = id))) (ga_tasks a)) a);
      finally (
        try_catch (
          current ← lift_result answer;
          s ← get_state;
          if superseded s then mret tt else
          _ ← mergeCurrent current;
          _ ← onAgent (set_unavailable false);
          notify)
        (fun e =>
          s ← get_state;
          if superseded s then mret tt
          else if isGateway [AUTH_REQUIRED] e then clearForSessionExpiry
          else if isGateway ROOM_GONE_CODES e then clearForRoomUnavailable
          else if negb (bool_decide (at_live t = ga_live (hs_agent s))) then mret tt
          else _ ← onAgent (set_unavailable true); notify))
      (s ← get_state;
       if bool_decide (at_generation t = ga_generation (hs_agent s)) then
         _ ← onAgent (fun a => set_request false (ga_generation a) None a); notify
       else mret tt)
  end.

(** *** Projections *)

Definition STUDENT_ANALYTICS_NOT_PROMOTED : string := "STUDENT_ANALYTICS_NOT_PROMOTED".
Definition PROJECTION_AUTHORITY_LOSS_CODES : list string :=
  ["PROJECTION_FORBIDDEN"; "RETENTION_POLICY_EXPIRED"; "ROOM_DELETION_IN_PROGRESS"]%string.
(** [/^[A-Z0-9_]{1,80}$/u]. *)
Definition isCode (t : string) : bool :=
  bool_decide (1 <= String.length t <= 80)%nat
  && forallb (fun c => (("A" <=? c)%char && (c <=? "Z")%char) || (("0" <=? c)%char && (c <=? "9")%char) || (c =? "_")%char)
       (list_ascii_of_string t).
Definition failureCode (e : thrown) : string :=
  match e with
  | GatewayError c => c
  | Thrown m => if isCode m then m else "PROJECTION_SYNC_FAILED"
  | SocketThrew _ | LedgerThrew _ => "PROJECTION_SYNC_FAILED"
  end.
(** The [catch] of [#projectionTask]. *)
Definition projectionFailed (k : ProjectionKey) (e : thrown) : HM unit :=
  if isGateway [AUTH_REQUIRED] e then clearForSessionExpiry
  else if isGateway ["ROOM_NOT_FOUND"%string] e then clearForRoomUnavailable
  else
    _ ← (if isGateway [STUDENT_ANALYTICS_NOT_PROMOTED] e then
           _ ← cancelTimelineRequest k; inProjections "" (markPolicyUnavailable k)
         else if isGateway ["ANALYTICS_NOT_READY"%string] e then inProjections "" (markNotReady k)
         else if isGateway PROJECTION_AUTHORITY_LOSS_CODES e then
           _ ← cancelTimelineRequest k; inProjections "" (markAuthorityUnavailable k (failureCode e))
         else inProjections "" (markFailed k (failureCode e)));
    notify.
Definition currentTask (t : projection_task) (s : hydrated) : bool :=
  bool_decide (generationOf (pt_key t) (hs_panels s) = Some (pt_generation t)).
(** [#projectionTask] once its work has come to [r]. *)
Definition settleTask (t : projection_task) (r : result thrown unit) : HM unit :=
  _ ← onPanels (fun p => set_tasks (List.filter (fun t' => negb (bool_decide (pt_id t' = pt_id t))) (gp_tasks p)) p);
  finally (
    s ← get_state;
    if negb (currentTask t s) || negb (hasRoom s) || negb (hasSession s) then mret tt
    else match r with Ok _ => notify | Err e => projectionFailed (pt_key t) e end)
  (s ← get_state;
   if currentTask t s then
     onPanels (fun p => if bool_decide (assoc (name (pt_key t)) (gp_refreshes p) = Some (pt_id t))
       then set_refreshes (map_delete (name (pt_key t)) (gp_refreshes p)) p else p)
   else mret tt).

Context `{ContractText}.
Definition takeSnapshot (x : ProjectionSnapshot) : HM unit := inProjections (violationText x) (replaceSnapshot x).
(** The work after the answer [x] of the route of the latest snapshot. *)
Definition latestAnswered (k : ProjectionKey) (w : projection_wait) (x : ProjectionSnapshot) : HM unit :=
  _ ← match w with
      | WaitLatest previous =>
          if match previous with Some epoch => negb (bool_decide (epoch = sp_analysisEpoch x)) | None => false end
          then cancelTimelineRequest k else mret tt
      | WaitFrame frame | WaitPatches frame =>
          throw_if (bool_decide (sp_analysisEpoch x = pj_analysisEpoch frame)
                    && ((sp_projectionVersion x <? pj_projectionVersion frame)
                        || (sp_completeThroughRoomSeq x <? pj_completeThroughRoomSeq frame)))
            (Thrown "PROJECTION_SNAPSHOT_BEHIND_FRAME")
      end;
  takeSnapshot x.
Inductive projection_answer : Type :=
| Latest (r : result thrown ProjectionSnapshot)
| Patches (r : result thrown (list ConceptMapPatch)).
Definition PATCH_ERRORS : list string := [AUTH_REQUIRED; "ROOM_NOT_FOUND"; STUDENT_ANALYTICS_NOT_PROMOTED]%string.
Definition answerProjection (id : nat) (a : projection_answer) : HM unit :=
  s ← get_state;
  match find (fun t => bool_decide (pt_id t = id)) (gp_tasks (hs_panels s)) with
  | None => mret tt
  | Some t =>
      match pt_wait t, a with
      | WaitPatches frame, Patches answer =>
          r ← attempt (patches ← lift_result answer; inProjections "" (applyEchoPatches (pt_key t) patches frame));
          match r with
          | Ok _ => settleTask t (Ok tt)
          | Err e =>
              if isGateway PATCH_ERRORS e then settleTask t (Err e)
              else
                _ ← request (AskLatest (pj_roomId frame) (pt_key t));
                onPanels (fun p => set_tasks (map (fun t' => if decide (pt_id t' = id)
                  then Task (pt_id t') (pt_key t') (pt_generation t') (WaitFrame frame) else t') (gp_tasks p)) p)
          end
      | (WaitLatest _ | WaitFrame _) as w, Latest answer =>
          r ← attempt (x ← lift_result answer; latestAnswered (pt_key t) w x);
          settleTask t r
      | _, _ => mret tt
      end
  end.

(** *** Timelines *)

Definition loadConceptTimeline (k : ProjectionKey) (limit : option jsnum) : HM unit :=
  s ← get_state;
  id ← fresh;
  let reject e := log_callback (TimelineSettled id (Err (Thrown e))) in
  if negb (bool_decide (k ∈ allowedKeys (hs_projections s))) then reject "PROJECTION_ROLE_FORBIDDEN"%string else
  match asSafeInteger (default (NInt 50) limit) with
  | Some n =>
      if (n <? 1) || (200 <? n) then reject "ANALYTICS_TIMELINE_LIMIT_INVALID"%string else
      match gw_getConceptTimeline (hs_gateway s), hs_room s, hs_session s with
      | true, Some room, Some _ =>
          sl ← inProjections "" (slot k);
          match sl_snapshot sl with
          | Some x =>
              if negb (bool_decide (sp_projectionKey x = k)) then reject "ANALYTICS_TIMELINE_BASE_MISSING"%string else
              _ ← request (AskTimeline (rd_roomId room) k (sp_analysisEpoch x) n);
              onPanels (fun p => set_timelines (map_set (name k) id (gp_timelines p))
                (set_timelineTasks (gp_timelineTasks p ++ [(id, k)]) p))
          | None => reject "ANALYTICS_TIMELINE_BASE_MISSING"%string
          end
      | _, _, _ => reject "ANALYTICS_TIMELINE_UNAVAILABLE"%string
      end
  | None => reject "ANALYTICS_TIMELINE_LIMIT_INVALID"%string
  end.
Definition isTimeline (k : ProjectionKey) (id : nat) (s : hydrated) : bool :=
  bool_decide (assoc (name k) (gp_timelines (hs_panels s)) = Some id).
(** The answer of the route is the epoch of its timeline. *)
Definition answerTimeline (id : nat) (answer : result thrown string) : HM unit :=
  s ← get_state;
  match find (fun t => bool_decide (fst t = id)) (gp_timelineTasks (hs_panels s)) with
  | None => mret tt
  | Some (_, k) =>
      _ ← onPanels (fun p => set_timelineTasks (List.filter (fun t => negb (bool_decide (fst t = id))) (gp_timelineTasks p)) p);
      r ← attempt (finally (
        try_catch (
          epoch ← lift_result answer;
          s ← get_state;
          _ ← throw_if (negb (isTimeline k id s) || negb (hasRoom s) || negb (hasSession s)) (Thrown "ANALYTICS_TIMELINE_STALE");
          sl ← inProjections "" (slot k);
          _ ← throw_if match sl_snapshot sl with
                | Some x => negb (bool_decide (sp_projectionKey x = k)) || negb (bool_decide (sp_analysisEpoch x = epoch))
                | None => true end (Thrown "ANALYTICS_TIMELINE_EPOCH_CHANGED");
          mret epoch)
        (fun e =>
          s ← get_state;
          _ ← (if isGateway [AUTH_REQUIRED] e then clearForSessionExpiry
               else if isGateway ["ROOM_NOT_FOUND"%string] e then clearForRoomUnavailable
               else if isGateway [STUDENT_ANALYTICS_NOT_PROMOTED] e && hasRoom s && hasSession s then
                 _ ← cancelTimelineRequest k; _ ← inProjections "" (markPolicyUnavailable k); notify
               else if isGateway PROJECTION_AUTHORITY_LOSS_CODES e && hasRoom s && hasSession s then
                 _ ← cancelTimelineRequest k; _ ← inProjections "" (markAuthorityUnavailable k (failureCode e)); notify
               else mret tt);
          throw e))
        (onPanels (fun p => if bool_decide (assoc (name k) (gp_timelines p) = Some id)
          then set_timelines (map_delete (name k) (gp_timelines p)) p else p)));
      log_callback (TimelineSettled id r)
  end.

(** ** The calls of the user *)

(** The guards of [sendIntent] and [connect]. *)
Definition assertLive : HM unit :=
  s ← get_state;
  _ ← throw_if (hs_expired s) (Thrown "SESSION_EXPIRED");
  _ ← throw_if (hs_roomUnavailable s) (Thrown "ROOM_UNAVAILABLE");
  throw_if (bool_decide (is_Some (rc_error (hs_recovery s)))) (Thrown "SESSION_SYNC_FAILED").
Definition isMessageIntent (i : RoomCommandIntent) : bool := match i with IntentRoom _ => false | _ => true end.
Definition sendIntent (now : Z) (commandId : string) (clock : option Z) (i : RoomCommandIntent) : HM string :=
  _ ← assertLive;
  session ← theSession;
  s ← get_state;
  let isMessage := isMessageIntent i in
  _ ← throw_if (isMessage && negb (bool_decide (st_status (hs_state s) = open))) (Thrown "ROOM_NOT_OPEN");
  _ ← match session with
      | StudentSession _ _ _ _ _ => throw_if (negb isMessage) (Thrown "COMMAND_ROLE_FORBIDDEN")
      | TeacherSession _ _ =>
          throw_if match i with IntentAdd _ _ _ _ | IntentRevise _ _ _ _ _ => true | _ => false end (Thrown "COMMAND_ROLE_FORBIDDEN")
      end;
  command ← lift_result (match busSend (hs_busRoom s) commandId clock i with Ok c => Ok c | Err e => Err (Thrown e) end);
  _ ← quietly (k ← currentSocket; send command k);
  _ ← notify;
  mret commandId.
Definition signal (m : M room_socket socket_error unit) : HM unit :=
  s ← get_state; if hs_expired s || hs_roomUnavailable s then mret tt else quietly m.
Definition signalPresence (state : PresenceState) : HM unit := signal (k ← currentSocket; sendPresence state k).
Definition signalTyping (is_active : bool) : HM unit := signal (k ← currentSocket; sendTyping is_active k).
(** The factory makes the socket [so]. *)
Definition connectWith (so : SocketLike) : HM nat := _ ← assertLive; quietly (RoomSocket.connect so).
Definition connectNative (protocol host : string) (so : SocketLike) : HM nat :=
  room ← theRoom;
  _ ← lift_result (match roomWebSocketUrl (rd_roomId room) protocol host with Ok u => Ok u | Err e => Err (Thrown e) end);
  connectWith so.
Definition refreshProjection (k : ProjectionKey) : HM unit :=
  s ← get_state;
  if negb (bool_decide (k ∈ allowedKeys (hs_projections s))) then throw (Thrown "PROJECTION_ROLE_FORBIDDEN")
  else refreshProjectionLatest k.
Definition dispose : HM unit := clearState.

(** Who is here and who is writing, as of [now]. *)
Definition lives (expiresAt : string) (now : Z) : bool := match dateParse expiresAt with Some t => now <? t | None => false end.
Definition presenceStateOf (actorId : string) (now : Z) (s : hydrated) : option PresenceState :=
  match assoc actorId (sg_presence (hs_signals s)) with
  | Some (state, expiresAt) => if lives expiresAt now then Some state else None
  | None => None
  end.
Definition actorOf (a : AuthSession) : string :=
  match a with TeacherSession _ actorId => actorId | StudentSession _ _ actorId _ _ => actorId end.
Definition typingActorIds (now : Z) (s : hydrated) : list string :=
  map fst (List.filter (fun e => fst (snd e) && negb (bool_decide (Some (fst e) = actorOf <$> hs_session s))
                                 && lives (snd (snd e)) now) (sg_typing (hs_signals s))).

(** ** The machine *)

Record HydratedSessionOptions : Type := Options {
  ho_session : AuthSession;
  ho_room : RoomDetails;
  ho_gateway : EventGateway;
  ho_pageLimit : option jsnum;
  ho_retryDelaysMs : option (list Z);
  ho_agentCurrent : option AgentCurrentState;
  ho_agentServiceUnavailable : bool;
  ho_agentStatusTimeoutMs : option jsnum;
}.
Definition roleOf (a : AuthSession) : Role := match a with TeacherSession _ _ => r_teacher | StudentSession _ _ _ _ _ => r_student end.
(** A whole number between 1 and [most]. *)
Definition between (most : Z) (n : jsnum) : option Z :=
  z ← asSafeInteger n; if (z <? 1) || (most <? z) then None else Some z.
(** The constructor; [clientId] is drawn by the socket. *)
Definition newHydrated (clientId : string) (o : HydratedSessionOptions) : result thrown hydrated :=
  let room := ho_room o in
  if negb (assertRoomRosterIntegrity room) then Err (Thrown "HYDRATED_ROOM_ROSTER_INVALID") else
  _ ← match ho_session o with
      | StudentSession own _ actorId pseudonym nova =>
          if negb (bool_decide (rd_roomId room = own)) then Err (Thrown "HYDRATED_SESSION_ROOM_MISMATCH")
          else if negb (assertStudentRoomIdentity own actorId pseudonym nova room)
          then Err (Thrown "HYDRATED_SESSION_IDENTITY_MISMATCH") else Ok tt
      | TeacherSession _ _ => Ok tt
      end;
  match between 500 (default (NInt 500) (ho_pageLimit o)), between 30000 (default (NInt 1500) (ho_agentStatusTimeoutMs o)) with
  | None, _ => Err (Thrown "HYDRATED_PAGE_LIMIT_INVALID")
  | _, None => Err (Thrown "AGENT_STATUS_TIMEOUT_INVALID")
  | Some limit, Some _ =>
      memory ← match ho_agentCurrent o with
               | Some c => match mergeAgentCurrent (rd_roomId room) c no_agent with Ok m => Ok m | Err e => Err (Thrown e) end
               | None => Ok no_agent
               end;
      Ok (Hydrated (newEventLedger (Some (rd_roomId room))) (newProjectionSync (rd_roomId room) (roleOf (ho_session o)))
        (newRoomSocket (rd_roomId room) clientId "lo" [] (default DEFAULT_RETRY_DELAYS (ho_retryDelaysMs o)))
        (createSessionState (rd_roomId room) (rd_status room) (rd_startsAt room) (rd_closesAt room))
        no_signals
        (AgentSide memory (if ho_agentCurrent o is Some _ then false else ho_agentServiceUnavailable o) false 0 0 None [])
        no_panels (Recoveries None 0 [] [] None None) (Some (ho_session o)) (Some room) false false limit (ho_gateway o)
        (rd_roomId room) 0 [] [])
  end.
(** [create], up to the first answer. *)
Definition createHydrated (clientId : string) (o : HydratedSessionOptions) : result thrown hydrated :=
  s ← newHydrated clientId o;
  match recoverEvents None s with
  | (Ok id, s) => Ok (set_recovery s (set_awaited (Some id) (hs_recovery s)))
  | (Err e, _) => Err e
  end.

(** What can happen to a session: the calls of its user, the platform's events and the
    answers of the gateway. *)
Inductive hydrated_input : Type :=
| HPage (answer : result thrown RoomEventPage)
| HAgentAnswer (id : nat) (answer : result thrown AgentCurrentState)
| HProjectionAnswer (id : nat) (answer : projection_answer)
| HTimelineAnswer (id : nat) (answer : result thrown string)
| HCreated
| HWatched (id : nat)
| HGate (id : nat)
| HOpen (k : nat)
| HMessage (k : nat) (data : option json)
| HClose (k : nat) (code : option Z)
| HTimer (so : SocketLike)
| HSocketState (k : nat) (so : SocketLike)
| HReceiveFrame (value : json)
| HIntent (commandId : string) (clock : option Z) (i : RoomCommandIntent)
| HPresence (state : PresenceState)
| HTyping (is_active : bool)
| HConnect (so : SocketLike)
| HConnectNative (protocol host : string) (so : SocketLike)
| HRecover (requiredThroughSeq : option Z)
| HRefreshAgent
| HRefreshProjections
| HRefreshProjection (k : ProjectionKey)
| HTimeline (k : ProjectionKey) (limit : option jsnum)
| HExpire
| HUnavailable
| HDispose.
Definition discard {A} (m : HM A) : HM unit := _ ← m; mret tt.
Definition handleInput (now : Z) (i : hydrated_input) : HM unit :=
  match i with
  | HPage answer => answerPage now answer
  | HAgentAnswer id answer => answerAgent id answer
  | HProjectionAnswer id answer => answerProjection id answer
  | HTimelineAnswer id answer => answerTimeline id answer
  | HCreated => createReaction
  | HWatched id => watchedReaction id
  | HGate id => gateReaction now id
  | HOpen k => socketDo now (onOpenEvent k)
  | HMessage k data => onMessage now k data
  | HClose k code => socketDo now (onCloseEvent k code)
  | HTimer so => socketDo now (onRetryTimer so)
  | HSocketState k so => socketDo now (handle (ISocketState k so))
  | HReceiveFrame value => receiveFrame now value
  | HIntent commandId clock i => discard (sendIntent now commandId clock i)
  | HPresence state => signalPresence state
  | HTyping b => signalTyping b
  | HConnect so => discard (connectWith so)
  | HConnectNative protocol host so => discard (connectNative protocol host so)
  | HRecover required => discard (recoverEvents required)
  | HRefreshAgent => refreshAgentCurrent
  | HRefreshProjections => refreshProjections
  | HRefreshProjection k => refreshProjection k
  | HTimeline k limit => loadConceptTimeline k limit
  | HExpire => clearForSessionExpiry
  | HUnavailable => clearForRoomUnavailable
  | HDispose => dispose
  end.
(** An exception reaches the caller; the state stays as it was when it was thrown. *)
Definition hydrate (s : hydrated) (i : Z * hydrated_input) : hydrated := snd (handleInput (fst i) (snd i) s).
Definition hydrates (s : hydrated) (ins : list (Z * hydrated_input)) : hydrated := foldl hydrate s ins.
End Hydrated.

(** ** An example: a teacher opens a room *)

Section Demo.
Definition numberedSeat (n : string) : string := ("0000000" ++ n ++ "-0000-4000-8000-000000000000")%string.
Definition demoDetails : RoomDetails :=
  Details demoRoom "Photosynthesis" scheduled 2700 None None demoNova
    (combine (map numberedSeat ["1"; "2"; "3"; "4"]%string) STUDENT_PSEUDONYMS).
Definition demoOptions : HydratedSessionOptions :=
  Options (TeacherSession demoTeacher demoTeacher) demoDetails (Gateway true true true true) None None None false None.
Definition demoText : ContractText := {| violationText := fun _ => "PROJECTION_INVALID"%string |}.
(** The session [create] makes of them. *)
Definition demoHydrated : hydrated :=
  match createHydrated demoClient demoOptions as r return (if r is Ok _ then True else False) -> hydrated with
  | Ok s => fun _ => s
  | Err _ => fun no => match no with end
  end Logic.I.
(** The first page of the room, in one or in two parts, and the connection. *)
Definition demoArrival : list (Z * hydrated_input) :=
  [(0, HPage (Ok (Page demoHistory 2 None))); (0, HCreated); (0, HConnect workingSocket);
   (0, HMessage 0 (Some (serverFrameJson (FResumeComplete 2))))].
Definition demoFirstPage : RoomEventPage := Page (take 1 demoHistory) 1 (Some 1).
Definition demoSecondPage : RoomEventPage := Page (drop 1 demoHistory) 2 None.
End Demo.
