(* ===== verification/HydratedLaws.v ===== *)
(** * A browser's session: laws of its operations

    That the socket calls back last; that the requests change nothing but what belongs to
    them; what is left when a session is cleared. *)
From S2P Require Import Prelude Text JsDate JsValue Contracts Database Concrete JsMap Frames ClientLedger RoomSocket Authorization Echo Trace Projections SeatCodes Sessions Rooms AgentStatus SessionClient Hydrated.
#[local] Set Warnings "-register-all,-clear-no-such-hyp,-level-tolerance".

(** ** The socket calls back last *)

Section Socket.
Context `{Schemas}.

(** Outputs other than callbacks, and the one callback that only the reducer hears. *)
Definition hushed (o : output) : Prop :=
  match o with Connected _ | Sent _ _ | SocketClosed _ _ | ConnectionChange _ => True | _ => False end.
Definition hush (s : room_socket) : Prop := Forall hushed (rs_log s).
(** Hushed outputs, and at most one after them, which is among [C]. *)
Definition called_last (C : output -> Prop) (s : room_socket) : Prop :=
  exists q t, rs_log s = q ++ t /\ Forall hushed q /\ Forall C t /\ (length t <= 1)%nat.

Lemma hush_same s s' : rs_log s' = rs_log s -> hush s -> hush s'.
Proof. unfold hush. by intros ->. Qed.
Lemma hush_called C s : hush s -> called_last C s.
Proof. intros Hs. exists (rs_log s), []. rewrite app_nil_r. by split_and!; [..|simpl; lia]. Qed.
Lemma called_emit (C : output -> Prop) o : C o -> leads hush (emit o) (called_last C).
Proof. intros Ho s r s' Hs [= _ <-]. exists (rs_log s), [o]. split_and!; [done|done|by constructor|simpl; lia]. Qed.
Lemma hush_emit o : hushed o -> preserves hush (emit o).
Proof. intros Ho. apply preserves_modify. intros s Hs. apply Forall_app. by split; [|constructor]. Qed.

#[local] Hint Extern 2 (preserves hush (modify _)) => apply preserves_modify; intros ?; apply hush_same; done : preserve.
#[local] Hint Extern 2 (preserves hush (emit _)) => apply hush_emit; exact Logic.I : preserve.

Lemma hush_currentSocket : preserves hush currentSocket.
Proof. apply preserves_gets. Qed.
#[local] Hint Resolve hush_currentSocket : preserve.
Lemma hush_sendFrame f k : preserves hush (sendFrame f k).
Proof. unfold sendFrame. preserve. Qed.
Lemma hush_closeSocket k code : preserves hush (closeSocket k code).
Proof. unfold closeSocket. preserve. Qed.
Lemma hush_clearRetry : preserves hush clearRetry.
Proof. unfold clearRetry. preserve. Qed.
Lemma hush_scheduleReconnect : preserves hush scheduleReconnect.
Proof. unfold scheduleReconnect. preserve. Qed.
#[local] Hint Resolve hush_sendFrame hush_closeSocket hush_clearRetry hush_scheduleReconnect : preserve.
(** A socket dropped without a code is no reason to stop. *)
Lemma hush_drop : preserves hush (onClose None).
Proof.
  unfold onClose, set_socket, set_resumeReady. apply preserves_bind; [apply preserves_get_state|]. intros s.
  rewrite !decide_False by naive_solver. preserve.
Qed.
#[local] Hint Resolve hush_drop : preserve.
Lemma hush_transmit c k : preserves hush (transmit c k).
Proof. unfold transmit. preserve. Qed.
#[local] Hint Resolve hush_transmit : preserve.
Lemma hush_send c k : preserves hush (RoomSocket.send c k).
Proof. unfold RoomSocket.send. preserve. Qed.
#[local] Hint Resolve hush_send : preserve.
Lemma hush_flush k : preserves hush (flushPending k).
Proof.
  unfold flushPending. preserve. generalize (map snd (rs_pending a)). intros l.
  induction l as [|c l IH]; simpl; preserve; done.
Qed.
Lemma hush_ephemeral f k : preserves hush (sendEphemeral f k).
Proof. unfold sendEphemeral. preserve. Qed.
Lemma hush_sendHello k : preserves hush (sendHello k).
Proof. unfold sendHello. preserve. Qed.
#[local] Hint Resolve hush_flush hush_ephemeral hush_sendHello : preserve.
Lemma hush_connect so : preserves hush (RoomSocket.connect so).
Proof. unfold RoomSocket.connect, set_closed, set_resumeReady, set_socket. preserve. Qed.
#[local] Hint Resolve hush_connect : preserve.
Lemma hush_close : preserves hush close.
Proof. unfold close, set_closed, set_resumeReady, set_socket. preserve. Qed.
#[local] Hint Resolve hush_close : preserve.
Lemma hush_destroy : preserves hush destroy.
Proof. unfold destroy. preserve. Qed.
Lemma hush_defer g : preserves hush (deferReconnectUntil g).
Proof. unfold deferReconnectUntil. preserve. Qed.
Lemma hush_onOpenEvent k : preserves hush (onOpenEvent k).
Proof. unfold onOpenEvent. preserve. Qed.
Lemma hush_onRetryTimer so : preserves hush (onRetryTimer so).
Proof. unfold onRetryTimer. preserve. Qed.
Lemma hush_onGate g b : preserves hush (onGate g b).
Proof. unfold onGate. preserve. Qed.

(** The operations that call back do it last. *)
Lemma last_bind {A B} C (m : M room_socket socket_error A) (f : A -> M room_socket socket_error B) :
  preserves hush m -> (forall a, leads hush (f a) (called_last C)) -> leads hush (m ≫= f) (called_last C).
Proof. intros Hm Hf. apply (leads_bind hush hush (called_last C)); [apply hush_called|exact Hm|exact Hf]. Qed.
Lemma last_hush {A} C (m : M room_socket socket_error A) : preserves hush m -> leads hush m (called_last C).
Proof. apply preserves_leads, hush_called. Qed.
#[local] Hint Extern 5 (leads hush _ (called_last _)) => apply last_hush; solve [preserve] : preserve.
#[local] Hint Extern 3 (leads hush (emit _) (called_last _)) => apply called_emit; exact Logic.I : preserve.
Ltac calls_last :=
  repeat (intros; match goal with
  | |- leads hush (_ ≫= _) (called_last _) => apply last_bind; [solve [preserve]|]
  | |- leads hush (match ?x with _ => _ end) (called_last _) => destruct x eqn:?
  | |- _ => solve [eauto with preserve]
  end); intros.

(** What the socket hands over, and how it stops. *)
Definition handsOver (o : output) : Prop := match o with Sink _ | Control _ => True | _ => False end.
Definition stops (o : output) : Prop := match o with SessionExpired | RoomUnavailable _ | ProtocolError => True | _ => False end.
Lemma last_stopWith o : stops o -> leads hush (stopWith o) (called_last stops).
Proof. intros Ho. unfold stopWith, set_closed. calls_last. by apply called_emit. Qed.
#[local] Hint Extern 3 (leads hush (stopWith _) _) => apply last_stopWith; exact Logic.I : preserve.
Lemma last_onClose code : leads hush (onClose code) (called_last stops).
Proof. unfold onClose, set_socket, set_resumeReady. calls_last. Qed.
Lemma last_acceptEvent e : leads hush (RoomSocket.acceptEvent e) (called_last handsOver).
Proof. unfold RoomSocket.acceptEvent, acceptCursor. calls_last. Qed.
#[local] Hint Resolve last_onClose last_acceptEvent : preserve.
Lemma last_onFrame value k : leads hush (onFrame value k) (called_last handsOver).
Proof. unfold onFrame, set_resumeReady. calls_last. Qed.
Lemma last_protocolFailure k : leads hush (protocolFailure k) (called_last (eq ProtocolError)).
Proof. unfold protocolFailure, set_closed, set_socket. calls_last. by apply called_emit. Qed.
Lemma last_onCloseEvent k code : leads hush (onCloseEvent k code) (called_last stops).
Proof. unfold onCloseEvent. calls_last. Qed.
End Socket.

(** ** Requests *)

(** The callbacks that end a session. *)
Definition isEnd (c : callback) : bool := match c with OnSessionExpired | OnRoomUnavailable => true | _ => false end.
Definition ends (l : list callback) : nat := length (List.filter isEnd l).
#[global] Arguments ends l : simpl never.
#[global] Arguments wire l : simpl never.
Definition harmless (o : sync_op) : bool := match o with OReset | OClearAuthority => false | _ => true end.

(** An assertion that looks neither at the requests in flight nor at the promises. *)
Record steady `{Schemas} (I : hydrated -> Prop) : Prop := {
  sy_agent s a : ga_memory a = ga_memory (hs_agent s) -> I s -> I (set_agent s a);
  sy_panels s p : I s -> I (set_panels s p);
  sy_recovery s r : rc_error r = rc_error (hs_recovery s) -> I s -> I (set_recovery s r);
  sy_next s n : I s -> I (set_next s n);
  sy_log s c : isEnd c = false -> I s -> I (add_callback s c);
  sy_projections s o : harmless o = true -> I s -> I (set_projections s (snd (perform o (hs_projections s))));
}.

Section Steady.
Context `{Schemas} (I : hydrated -> Prop) (HI : steady I).

Lemma keep_onAgent f : (forall a, ga_memory (f a) = ga_memory a) -> preserves I (onAgent f).
Proof. intros Hf. apply preserves_modify. intros s. by apply (sy_agent I HI). Qed.
Lemma keep_onPanels f : preserves I (onPanels f).
Proof. apply preserves_modify. intros s. by apply (sy_panels I HI). Qed.
Lemma keep_onRecovery f : (forall r, rc_error (f r) = rc_error r) -> preserves I (onRecovery f).
Proof. intros Hf. apply preserves_modify. intros s. by apply (sy_recovery I HI). Qed.
Lemma keep_log_callback c : isEnd c = false -> preserves I (log_callback c).
Proof. intros Hc. apply preserves_modify. intros s. by apply (sy_log I HI). Qed.
#[local] Hint Extern 2 (preserves I (onAgent _)) => apply keep_onAgent; intros; reflexivity : preserve.
#[local] Hint Extern 2 (preserves I (onRecovery _)) => apply keep_onRecovery; intros; reflexivity : preserve.
#[local] Hint Extern 2 (preserves I (log_callback _)) => apply keep_log_callback; reflexivity : preserve.
#[local] Hint Resolve keep_onPanels : preserve.
Lemma keep_notify : preserves I notify.
Proof. unfold notify. preserve. Qed.
Lemma keep_request r : preserves I (request r).
Proof. unfold request. preserve. Qed.
Lemma keep_fresh : preserves I fresh.
Proof. unfold fresh. preserve. apply preserves_modify. intros s. by apply (sy_next I HI). Qed.
Lemma keep_theRoom : preserves I theRoom.
Proof. unfold theRoom. preserve. Qed.
Lemma keep_theSession : preserves I theSession.
Proof. unfold theSession. preserve. Qed.
Lemma keep_forEach {A} (f : A -> HM unit) l : (forall x, preserves I (f x)) -> preserves I (forEach f l).
Proof. intros Hf. induction l as [|x l IH]; simpl; preserve; done. Qed.
Lemma keep_attempt {A} (m : HM A) : preserves I m -> preserves I (attempt m).
Proof. intros Hm s r s' Hs. unfold attempt. destruct (m s) as [x s1] eqn:E. intros [= _ <-]. by eapply Hm. Qed.
Lemma keep_finally {A} (m : HM A) f : preserves I m -> preserves I f -> preserves I (finally m f).
Proof.
  intros Hm Hf s r s' Hs. unfold finally. destruct (m s) as [x s1] eqn:E. destruct (f s1) as [[u|e] s2] eqn:E2;
    intros [= _ <-]; eapply Hf, E2; by eapply Hm.
Qed.
(** An operation of the projections, by the name it has among them. *)
Lemma keep_inProjections {A} t (m : M ProjectionSync sync_error A) o :
  harmless o = true -> (forall st, snd (m st) = snd (perform o st)) -> preserves I (inProjections t m).
Proof.
  intros Ho Hm s r s' Hs. unfold inProjections. destruct (m (hs_projections s)) as [x st] eqn:E. intros [= _ <-].
  replace st with (snd (perform o (hs_projections s))); [by apply (sy_projections I HI)|]. by rewrite <- Hm, E.
Qed.
Lemma forget_state {A} (r : result sync_error A * ProjectionSync) : snd (forget r) = snd r.
Proof. by destruct r as [[] ?]. Qed.
Ltac in_projections o := apply (keep_inProjections _ _ o); [reflexivity|intros; cbn [perform]; by rewrite forget_state].
Lemma keep_slot k : preserves I (inProjections "" (slot k)).
Proof. in_projections (OSlot k). Qed.
Lemma keep_markLoading k : preserves I (inProjections "" (markLoading k)).
Proof. in_projections (OLoading k). Qed.
Lemma keep_markPolicyUnavailable k : preserves I (inProjections "" (markPolicyUnavailable k)).
Proof. in_projections (OPolicyUnavailable k). Qed.
Lemma keep_markNotReady k : preserves I (inProjections "" (markNotReady k)).
Proof. in_projections (ONotReady k). Qed.
Lemma keep_markFailed k e : preserves I (inProjections "" (markFailed k e)).
Proof. in_projections (OFailed k e). Qed.
Lemma keep_markAuthorityUnavailable k e : preserves I (inProjections "" (markAuthorityUnavailable k e)).
Proof. in_projections (OAuthorityUnavailable k e). Qed.
Lemma keep_accept f : preserves I (inProjections "" (accept f)).
Proof. in_projections (OAccept f). Qed.
Lemma keep_applyEchoPatches k ps f : preserves I (inProjections "" (applyEchoPatches k ps f)).
Proof. in_projections (OPatches k ps f). Qed.
Lemma keep_takeSnapshot `{ContractText} x : preserves I (takeSnapshot x).
Proof. in_projections (OReplace x). Qed.
#[local] Hint Resolve keep_notify keep_request keep_fresh keep_theRoom keep_theSession keep_forEach keep_attempt keep_finally
  keep_slot keep_markLoading keep_markPolicyUnavailable keep_markNotReady keep_markFailed keep_markAuthorityUnavailable
  keep_accept keep_applyEchoPatches keep_takeSnapshot : preserve.

Lemma keep_cancelProjectionRefresh k : preserves I (cancelProjectionRefresh k).
Proof. unfold cancelProjectionRefresh. preserve. Qed.
Lemma keep_cancelTimelineRequest k : preserves I (cancelTimelineRequest k).
Proof. unfold cancelTimelineRequest. preserve. Qed.
#[local] Hint Resolve keep_cancelProjectionRefresh keep_cancelTimelineRequest : preserve.
Lemma keep_rejectedPromise : preserves I rejectedPromise.
Proof. unfold rejectedPromise. preserve. Qed.
#[local] Hint Resolve keep_rejectedPromise : preserve.
Lemma keep_recoverEvents n : preserves I (recoverEvents n).
Proof. unfold recoverEvents. preserve. Qed.
Lemma keep_refreshAgentCurrent : preserves I refreshAgentCurrent.
Proof. unfold refreshAgentCurrent. preserve. Qed.
Lemma keep_projectionTask k w : preserves I w -> preserves I (projectionTask k w).
Proof. intros Hw. unfold projectionTask. preserve. Qed.
#[local] Hint Resolve keep_projectionTask : preserve.
Lemma keep_refreshProjectionLatest k : preserves I (refreshProjectionLatest k).
Proof. unfold refreshProjectionLatest. preserve. apply keep_projectionTask. preserve. Qed.
#[local] Hint Resolve keep_refreshProjectionLatest : preserve.
Lemma keep_refreshProjections : preserves I refreshProjections.
Proof. unfold refreshProjections. preserve. Qed.
Lemma keep_reconcileProjectionFrame f r : preserves I (reconcileProjectionFrame f r).
Proof. unfold reconcileProjectionFrame. preserve. apply keep_projectionTask. preserve. Qed.
#[local] Hint Resolve keep_recoverEvents keep_refreshAgentCurrent keep_refreshProjections keep_reconcileProjectionFrame : preserve.
Lemma keep_refreshProjection k : preserves I (refreshProjection k).
Proof. unfold refreshProjection. preserve. Qed.
Lemma keep_createReaction : preserves I createReaction.
Proof. unfold createReaction. preserve. Qed.
Lemma keep_loadConceptTimeline k n : preserves I (loadConceptTimeline k n).
Proof. unfold loadConceptTimeline. preserve. Qed.
Lemma keep_assertLive : preserves I assertLive.
Proof. unfold assertLive. preserve. Qed.
Lemma keep_latestAnswered `{ContractText} k w x : preserves I (latestAnswered k w x).
Proof. unfold latestAnswered. preserve. Qed.
End Steady.
#[export] Hint Resolve keep_attempt keep_finally keep_forEach keep_theRoom keep_theSession keep_assertLive : preserve.
#[export] Hint Resolve keep_onPanels keep_notify keep_request keep_fresh keep_slot keep_markPolicyUnavailable keep_markNotReady
  keep_markFailed keep_markAuthorityUnavailable keep_accept keep_applyEchoPatches keep_cancelProjectionRefresh
  keep_cancelTimelineRequest keep_recoverEvents keep_refreshAgentCurrent keep_refreshProjections keep_reconcileProjectionFrame
  keep_refreshProjection keep_createReaction keep_loadConceptTimeline keep_latestAnswered : preserve.
(** The side conditions of the small steps are equations of record fields. *)
#[export] Hint Extern 2 (preserves _ (onAgent _)) => apply keep_onAgent; [solve [eauto with preserve]|intros; reflexivity] : preserve.
#[export] Hint Extern 2 (preserves _ (onRecovery _)) => apply keep_onRecovery; [solve [eauto with preserve]|intros; reflexivity] : preserve.
#[export] Hint Extern 2 (preserves _ (log_callback _)) => apply keep_log_callback; [solve [eauto with preserve]|reflexivity] : preserve.

(** ** A session that is cleared *)

Section Cleared.
Context `{Schemas}.

Definition alive (s : hydrated) : Prop := hs_expired s = false /\ hs_roomUnavailable s = false /\ ends (hs_log s) = O.
(** Nothing of the room, of the session and of what was shown is held; the socket is
    closed for good. *)
Record nothing_held (s : hydrated) : Prop := {
  nh_ledger : hs_ledger s = MkLedger [] [] 0 None;
  nh_projections : ps_role (hs_projections s) = None /\ ps_references (hs_projections s) = [] /\ ps_slots (hs_projections s) = [];
  nh_signals : hs_signals s = no_signals;
  nh_agent : ga_memory (hs_agent s) = no_agent;
  nh_state : hs_state s = initialSessionState "";
  nh_identity : hs_session s = None /\ hs_room s = None;
  nh_pending : rs_pending (hs_socket s) = [] /\ rs_lastRoomSeq (hs_socket s) = 0 /\ rs_roomId (hs_socket s) = EmptyString;
  nh_closed : rs_closed (hs_socket s) = true /\ rs_socket (hs_socket s) = None /\ rs_retryTimer (hs_socket s) = None
    /\ rs_factory (hs_socket s) = false;
}.
(** Ended, once, one way or the other. *)
Record ended (s : hydrated) : Prop := {
  en_flag : xorb (hs_expired s) (hs_roomUnavailable s) = true;
  en_once : ends (hs_log s) = 1%nat;
  en_held : nothing_held s;
}.

Lemma ends_app l c : ends (l ++ [c]) = (ends l + if isEnd c then 1 else 0)%nat.
Proof. unfold ends. rewrite List.filter_app, length_app. simpl. by destruct (isEnd c). Qed.

(** [s'] is [s] but for its panels, its state, its socket and what was put out. *)
Definition shed (s s' : hydrated) : Prop :=
  hs_expired s' = hs_expired s /\ hs_roomUnavailable s' = hs_roomUnavailable s /\ ends (hs_log s') = ends (hs_log s)
  /\ wire (hs_outputs s') = wire (hs_outputs s).

Lemma forEach_cancel l : forall s, exists p, forEach cancelProjectionRefresh l s = (Ok tt, set_panels s p) /\ gp_timelines p = gp_timelines (hs_panels s).
Proof.
  induction l as [|k l IH]; intros s; [exists (hs_panels s); by destruct s|].
  cbn [forEach]. unfold mbind, M_bind, cancelProjectionRefresh at 1, onPanels, modify.
  match goal with |- context [forEach _ l ?s1] => destruct (IH s1) as (p & -> & Hp) end.
  exists p. split; [done|]. by rewrite Hp.
Qed.

Lemma destroy_run s : destroy s = (Ok tt, RoomSocket "" (rs_clientId s) 0 (map_delete (rs_storageKey s) (rs_storage s)) "" [] 0
    (rs_retryDelays s) (rs_retryIndex s) None None (rs_waiting s) None false true false (rs_sockets s)
    (rs_log s ++ match rs_socket s with Some k => [SocketClosed k 1000] | None => [] end ++ [ConnectionChange false])).
Proof.
  unfold destroy, close, closeSocket, clearRetry, currentSocket, emit, mbind, M_bind, modify, gets. cbn.
  destruct (rs_socket s); cbn; by rewrite <- ?app_assoc.
Qed.

(** What [#clearState] leaves. *)
Lemma clearState_run s : exists s', clearState s = (Ok tt, s') /\ nothing_held s' /\ shed s s'
  /\ hs_projections s' = clearAuthority (hs_projections s).
Proof.
  unfold clearState. erewrite bind_run by reflexivity. erewrite bind_run by reflexivity. cbv beta.
  match goal with |- context [(forEach _ ?l ≫= _) ?s1] => destruct (forEach_cancel l s1) as (p & Hp & Ht) end.
  rewrite (bind_run _ _ _ _ _ Hp). unfold mbind, M_bind, onPanels, modify, quietly, onSocket. cbn [set_panels hs_socket].
  rewrite destroy_run. cbn [with_log rs_log rs_socket app].
  set (outs := match rs_socket _ with Some k => _ | None => _ end ++ _).
  assert (outs = [ConnectionChange false] \/ exists k, outs = [SocketClosed k 1000; ConnectionChange false]) as Houts.
  { unfold outs. destruct (rs_socket _); eauto. }
  destruct Houts as [->|[k ->]]; eexists; (split; [reflexivity|]); (split; [by constructor|]); (split; [|reflexivity]);
    unfold shed; cbn; rewrite ends_app; cbn [isEnd]; split_and!; try done; rewrite ?wire_quiet by done; done || lia.
Qed.

(** The two ends of a session: once from a living one, never from an ended one. *)
Definition ends_session (expired : bool) (m : HM unit) : Prop :=
  (forall s, alive s -> exists s', m s = (Ok tt, s') /\ ended s' /\ hs_expired s' = expired /\ wire (hs_outputs s') = wire (hs_outputs s))
  /\ (forall s, hs_expired s || hs_roomUnavailable s = true -> m s = (Ok tt, s)).
Lemma expiry_ends : ends_session true clearForSessionExpiry.
Proof.
  split.
  - intros s (He & Hu & Hn). unfold clearForSessionExpiry. erewrite bind_run by reflexivity. rewrite He, Hu. cbn [orb].
    erewrite bind_run by reflexivity. destruct (clearState_run (set_ended s true (hs_roomUnavailable s))) as (s1 & Hc & Hnh & (F1 & F2 & F3 & F4) & _).
    rewrite (bind_run _ _ _ _ _ Hc). erewrite bind_run by reflexivity. eexists. split; [reflexivity|]. cbn in *. split; [|split; [congruence|exact F4]].
    split; [cbn; rewrite F1, F2, Hu; done| |by destruct Hnh]. cbn. rewrite !ends_app, F3. cbn. rewrite Hn. done.
  - intros s He. unfold clearForSessionExpiry. erewrite bind_run by reflexivity. by rewrite He.
Qed.
Lemma unavailable_ends : ends_session false clearForRoomUnavailable.
Proof.
  split.
  - intros s (He & Hu & Hn). unfold clearForRoomUnavailable. erewrite bind_run by reflexivity. rewrite He, Hu. cbn [orb].
    erewrite bind_run by reflexivity. destruct (clearState_run (set_ended s (hs_expired s) true)) as (s1 & Hc & Hnh & (F1 & F2 & F3 & F4) & _).
    rewrite (bind_run _ _ _ _ _ Hc). erewrite bind_run by reflexivity. eexists. split; [reflexivity|]. cbn in *. split; [|split; [congruence|exact F4]].
    split; [cbn; rewrite F1, F2, He; done| |by destruct Hnh]. cbn. rewrite !ends_app, F3. cbn. rewrite Hn. done.
  - intros s He. unfold clearForRoomUnavailable. erewrite bind_run by reflexivity. by rewrite He.
Qed.
Lemma ended_flags s : ended s -> hs_expired s || hs_roomUnavailable s = true.
Proof. intros [He _ _]. by destruct (hs_expired s), (hs_roomUnavailable s). Qed.
Lemma cleared_perform o st : ps_role st = None -> harmless o = true -> snd (perform o st) = st.
Proof.
  intros Hn Ho. assert (forall k, assertAllowed k st = (Err (SyncError "PROJECTION_AUTHORITY_CLEARED"), st)) as Hall.
  { intros k. unfold assertAllowed. erewrite bind_run by reflexivity. by rewrite Hn. }
  destruct o; try done; cbn [perform]; rewrite forget_state;
    unfold accept, slot, replaceSnapshot, applyEchoPatches, markLoading, markPolicyUnavailable, markNotReady, markFailed,
      markAuthorityUnavailable, markWithout, assertFrame; by rewrite ?(bind_err _ _ _ _ _ (Hall _)) || (erewrite bind_err; [|apply bind_err, Hall]; done).
Qed.
Lemma ended_steady : steady ended.
Proof.
  constructor.
  - intros s a Ha [H1 H2 []]. split; [done|done|]. constructor; cbn; try done. congruence.
  - intros s p [H1 H2 []]. by split.
  - intros s r _ [H1 H2 []]. by split.
  - intros s n [H1 H2 []]. by split.
  - intros s c Hc [H1 H2 []]. split; [done| |done]. cbn. rewrite ends_app, Hc. lia.
  - intros s o Ho [H1 H2 Hn]. destruct (nh_projections s Hn) as (Hr & _). rewrite cleared_perform by done. by destruct s.
Qed.
End Cleared.
