(* ===== verification/HydratedSteps.v ===== *)
(** * A browser's session: invariants of its inputs

    What an assertion has to satisfy so that every input of a session keeps it, until the
    session ends: [live_invariant]. What is asserted of a session is proved against this
    interface. *)
From S2P Require Import Prelude Text JsDate JsValue Contracts Database Concrete JsMap Frames ClientLedger RoomSocket Authorization Echo Trace Projections SeatCodes Sessions Rooms AgentStatus SessionClient Hydrated HydratedLaws.
#[local] Set Warnings "-register-all,-clear-no-such-hyp,-level-tolerance".

(** ** The operations of the socket *)

Section Socket.
Context `{Schemas}.

Definition nosink (s : room_socket) : Prop := sunk (rs_log s) = [].
Lemma nosink_insensitive : insensitive nosink.
Proof.
  constructor; intros *; try done. unfold nosink. intros Ho Hs. simpl. rewrite sunk_app, Hs. by destruct o.
Qed.

(** An operation that hands over no event and moves no cursor. *)
Definition isSink (o : output) : bool := match o with Sink _ => true | _ => false end.
Lemma sunk_none (C : output -> Prop) q t : sunk (q ++ t) = [] -> Forall C t -> Forall (fun o => C o /\ isSink o = false) t.
Proof.
  unfold sunk. rewrite omap_app. intros [_ Ht]%app_eq_nil Hc. induction Hc as [|o t Ho Hc IH]; [done|].
  destruct o; simpl in Ht; try done; constructor; auto.
Qed.
Record ordinary {A} (C : output -> Prop) (m : M room_socket socket_error A) : Prop := {
  or_cursor r key start : preserves (cursor_ok r key start) m;
  or_silent : preserves nosink m;
  or_last : leads hush m (called_last C);
}.
Definition never_called (o : output) : Prop := False.

Lemma cursor_pending r key start s p : cursor_ok r key start s -> cursor_ok r key start (set_pending p s).
Proof. by apply cursor_ok_same. Qed.
Lemma cursor_number r key start s n : cursor_ok r key start s -> cursor_ok r key start (set_clientSeq n s).
Proof. by apply cursor_ok_same. Qed.
Lemma cursor_sent r key start s k f : cursor_ok r key start s -> cursor_ok r key start (add_log (Sent k f) s).
Proof. apply cursor_ok_same; try done. simpl. rewrite sunk_app. by rewrite app_nil_r. Qed.
Lemma nosink_sent s k f : nosink s -> nosink (add_log (Sent k f) s).
Proof. unfold nosink. simpl. rewrite sunk_app. by intros ->. Qed.

(** The two assertions at once. *)
Lemma ordinary_intro {A} C (m : M room_socket socket_error A) :
  (forall I, insensitive I -> (forall s p, I s -> I (set_pending p s)) -> (forall s n, I s -> I (set_clientSeq n s)) ->
     (forall s k f, I s -> I (add_log (Sent k f) s)) -> preserves I m) ->
  leads hush m (called_last C) -> ordinary C m.
Proof.
  intros Hm Hl. constructor; [|apply Hm|exact Hl].
  - intros. apply Hm; [apply cursor_insensitive|intros ? ?; apply cursor_pending|intros ? ?; apply cursor_number|intros ? ? ?; apply cursor_sent].
  - apply nosink_insensitive.
  - done.
  - done.
  - intros ? ? ?. apply nosink_sent.
Qed.
Lemma ephemeral_keeps (I : room_socket -> Prop) f k : insensitive I -> (forall s n, I s -> I (set_clientSeq n s)) ->
  (forall s k f, I s -> I (add_log (Sent k f) s)) -> preserves I (sendEphemeral f k).
Proof.
  intros HI Hn Hs. apply sendEphemeral_keeps; [done| |intros; by apply Hn]. intros n. apply (keep_sendFrame _). intros. by apply Hs.
Qed.

Lemma ordinary_send c k : ordinary never_called (RoomSocket.send c k).
Proof. apply ordinary_intro; [intros; apply send_keeps; auto|apply last_hush, hush_send]. Qed.
Lemma ordinary_ephemeral f k : ordinary never_called (sendEphemeral f k).
Proof. apply ordinary_intro; [intros; by apply ephemeral_keeps|apply last_hush, hush_ephemeral]. Qed.
Lemma ordinary_connect so : ordinary never_called (RoomSocket.connect so).
Proof. apply ordinary_intro; [intros; by apply keep_connect|apply last_hush, hush_connect]. Qed.
Lemma ordinary_close : ordinary never_called close.
Proof. apply ordinary_intro; [intros; by apply keep_close|apply last_hush, hush_close]. Qed.
Lemma ordinary_defer g : ordinary never_called (deferReconnectUntil g).
Proof.
  apply ordinary_intro; [|apply last_hush, hush_defer]. intros I HI _ _ _. apply preserves_modify. intros s. by apply (in_gate I HI).
Qed.
Lemma ordinary_onOpenEvent k : ordinary never_called (onOpenEvent k).
Proof. apply ordinary_intro; [intros; by apply keep_onOpenEvent|apply last_hush, hush_onOpenEvent]. Qed.
Lemma ordinary_onRetryTimer so : ordinary never_called (onRetryTimer so).
Proof. apply ordinary_intro; [intros; by apply keep_onRetryTimer|apply last_hush, hush_onRetryTimer]. Qed.
Lemma ordinary_onGate g b : ordinary never_called (onGate g b).
Proof. apply ordinary_intro; [intros; by apply keep_onGate|apply last_hush, hush_onGate]. Qed.
Lemma ordinary_sockets k so : ordinary never_called (handle (ISocketState k so)).
Proof.
  apply ordinary_intro.
  - intros I HI _ _ _. apply preserves_modify. intros s. by apply (in_sockets I HI).
  - apply last_hush. apply preserves_modify. intros s. by apply hush_same.
Qed.
Lemma ordinary_onCloseEvent k code : ordinary stops (onCloseEvent k code).
Proof. apply ordinary_intro; [intros; by apply keep_onCloseEvent|apply last_onCloseEvent]. Qed.
Lemma ordinary_protocolFailure k : ordinary (eq ProtocolError) (protocolFailure k).
Proof. apply ordinary_intro; [intros; by apply keep_protocolFailure|apply last_protocolFailure]. Qed.
Lemma ordinary_current {A} C (f : option nat -> M room_socket socket_error A) :
  (forall k, ordinary C (f k)) -> ordinary C (k ← currentSocket; f k).
Proof.
  intros Hf. constructor.
  - intros r key start. apply preserves_bind; [apply preserves_gets|]. intros k. apply Hf.
  - apply preserves_bind; [apply preserves_gets|]. intros k. apply Hf.
  - apply last_bind; [apply preserves_gets|]. intros k. apply Hf.
Qed.
(** A frame that is no event. *)
Definition isEvent (value : json) : bool := match parseServerFrame value with Ok (FEvent _) => true | _ => false end.
Lemma ordinary_onFrame value k : isEvent value = false -> ordinary handsOver (onFrame value k).
Proof.
  intros Hv. apply ordinary_intro; [|apply last_onFrame]. intros I HI Hp Hn Hs. apply keep_onFrame; try done.
  - intros ? ?. apply send_keeps; auto.
  - intros f Hf. unfold isEvent in Hv. rewrite Hf in Hv. destruct f as [| |[j|] c [[]|]| | | | | | | | | |]; simpl; try done; auto.
Qed.
(** A frame that is an event: the event is handed over, alone, or nothing moves. *)
Lemma onFrame_event value k e s r so : parseServerFrame value = Ok (FEvent e) -> onFrame value k s = (r, so) ->
  RoomSocket.acceptEvent e s = (r, so).
Proof. unfold onFrame. by intros ->. Qed.
Lemma acceptEvent_cases e s r so : rs_log s = [] -> RoomSocket.acceptEvent e s = (r, so) ->
  r = Ok tt /\ (so = s \/ (exists a b, so = add_log (Control (FSnapshotRequired a b)) s)
    \/ (rs_log so = [Sink e] /\ roomId e = rs_roomId s /\ roomSeq e = rs_lastRoomSeq s + 1)).
Proof.
  intros Hl. unfold RoomSocket.acceptEvent, acceptCursor, emit, mbind, M_bind, get_state, modify. cbn.
  destruct (negb _ || _) eqn:E1; [intros [= <- <-]; auto|]. destruct (negb (bool_decide (roomSeq e = _))) eqn:E2; [intros [= <- <-]; eauto 6|].
  split_bools. destruct (negb _ || _); intros [= <- <-]; (split; [done|]); right; right; cbn; by rewrite Hl.
Qed.
End Socket.

(** ** The interface *)

Section Interface.
Context `{Schemas}.

(** What the frames leave behind is bounded, and the media that are shown are media of
    messages that stand. *)
Record signals_ok (l : EventLedger) (g : signals) : Prop := {
  so_acks : (length (sg_acks g) <= MAX_ACK_HISTORY)%nat;
  so_rejects : (length (sg_rejects g) <= MAX_REJECT_HISTORY)%nat;
  so_media : (length (sg_media g) <= MAX_MEDIA_STATUS_HISTORY)%nat;
  so_active : Forall (fun e => fst e ∈ activeMediaIds l) (sg_media g);
}.

(** [Y] is kept by every step of a living session. Its events are those [P] speaks of. *)
Record live_invariant (P : RoomEventEnvelope -> Prop) (Y : hydrated -> Prop) : Prop := {
  li_steady : steady Y;
  li_alive s : Y s -> alive s;
  li_memory s m : (agent_ok (ga_memory (hs_agent s)) -> agent_ok m) -> Y s -> Y (set_agent s (set_memory m (hs_agent s)));
  li_error s c : Y s -> Y (set_recovery s (set_error c (hs_recovery s)));
  li_output s o : Y s -> Y (add_output s o);
  li_state s a : match a with AConnection _ | AStatus _ => True | _ => False end ->
    Y s -> Y (set_state s (sessionReducer (hs_state s) a));
  li_socket {A} C s (m : M room_socket socket_error A) r so : ordinary C m -> Y s ->
    m (with_log [] (hs_socket s)) = (r, so) -> Y (set_roomSocket s (with_log [] so));
  li_signals s g : (signals_ok (hs_ledger s) (hs_signals s) -> signals_ok (hs_ledger s) g) -> Y s -> Y (set_signals s g);
  li_event e s so r s' : P e -> (exists v, parseServerFrame v = Ok (FEvent e)) -> Y s ->
    RoomSocket.acceptEvent e (with_log [] (hs_socket s)) = (Ok tt, so) -> rs_log so = [Sink e] ->
    acceptEvent e (add_output (set_roomSocket s (with_log [] so)) (Sink e)) = (r, s') -> Y s';
  li_cleared s s' : Y s -> alive s' -> nothing_held s' -> hs_projections s' = clearAuthority (hs_projections s) -> Y s';
}.
End Interface.

Section Live.
Context `{Schemas} (P : RoomEventEnvelope -> Prop) (Y : hydrated -> Prop) (LY : live_invariant P Y).
Lemma steadyY : steady Y.
Proof. exact (li_steady P Y LY). Qed.
#[local] Hint Resolve steadyY : preserve.

Lemma live_reduce a : match a with AConnection _ | AStatus _ => True | _ => False end -> preserves Y (reduce a).
Proof. intros Ha. apply preserves_modify. intros s. by apply (li_state P Y LY). Qed.
#[local] Hint Extern 2 (preserves Y (reduce _)) => apply live_reduce; exact Logic.I : preserve.
Lemma live_onConnectionChange o : preserves Y (onConnectionChange o).
Proof. unfold onConnectionChange. preserve. Qed.
#[local] Hint Resolve live_onConnectionChange : preserve.

(** The outputs of an operation, one after the other; the last may be a callback. *)
Lemma live_hushed f os : (forall o, hushed o -> preserves Y (f o)) -> Forall hushed os -> preserves Y (handleEach f os).
Proof.
  intros Hf Hos. induction Hos as [|o os Ho Hos IH]; simpl; [apply preserves_ret|]. preserve.
  apply preserves_modify. intros s. by apply (li_output P Y LY).
Qed.
Lemma live_outputs (Q : hydrated -> Prop) (C : output -> Prop) f os t :
  (forall s, Y s -> Q s) -> (forall o, hushed o -> preserves Y (f o)) -> (forall o, C o -> leads Y (f o) Q) ->
  Forall hushed os -> Forall C t -> (length t <= 1)%nat -> leads Y (handleEach f (os ++ t)) Q.
Proof.
  intros HQ Hf Hc Hos Ht Hl. induction Hos as [|o os Ho Hos IH]; simpl.
  - destruct Ht as [|o t Ho Ht]; simpl; [by apply preserves_leads, preserves_ret|]. destruct t; [|simpl in Hl; lia]. simpl.
    apply (leads_bind Y Y Q); [done|apply preserves_modify; intros s; apply (li_output P Y LY)|]. intros _.
    apply (leads_bind Y Q Q); [done|by apply Hc|]. intros _. apply preserves_ret.
  - apply (leads_bind Y Y Q); [done|apply preserves_modify; intros s; apply (li_output P Y LY)|]. intros _.
    apply (leads_bind Y Y Q); [done|by apply Hf|]. intros _. apply IH.
Qed.
Lemma live_onSocket {A} (Q : hydrated -> Prop) (C : output -> Prop) f (m : M room_socket socket_error A) :
  (forall s, Y s -> Q s) -> (forall o, hushed o -> preserves Y (f o)) -> (forall o, C o -> isSink o = false -> leads Y (f o) Q) ->
  ordinary C m -> leads Y (onSocket f m) Q.
Proof.
  intros HQ Hf Hc Hm s r s' Hs. unfold onSocket. destruct (m (with_log [] (hs_socket s))) as [x so] eqn:E.
  pose proof (li_socket P Y LY C s m x so Hm Hs E) as Hs1. assert (hush (with_log [] (hs_socket s))) as Hh by constructor.
  destruct (or_last C m Hm _ _ _ Hh E) as (q & t & Hq & H1 & H2 & H3).
  destruct (handleEach f (rs_log so) _) as [y s2] eqn:E2. rewrite Hq in E2.
  assert (Forall (fun o => C o /\ isSink o = false) t) as H2'.
  { pose proof (or_silent C m Hm (with_log [] (hs_socket s)) _ _ eq_refl E) as Hn. unfold nosink in Hn.
    rewrite Hq in Hn. by eapply sunk_none. }
  assert (forall o, C o /\ isSink o = false -> leads Y (f o) Q) as Hc' by (intros o [? ?]; by apply Hc).
  pose proof (live_outputs Q _ f q t HQ Hf Hc' H1 H2' H3 _ _ _ Hs1 E2). by destruct y; intros [= _ <-].
Qed.
Lemma live_quietly {A} (m : M room_socket socket_error A) : ordinary never_called m -> preserves Y (quietly m).
Proof. apply live_onSocket; [done| |by intros]. intros. apply live_onConnectionChange. Qed.
#[local] Hint Resolve live_quietly ordinary_current ordinary_send ordinary_ephemeral ordinary_connect ordinary_close ordinary_defer : preserve.

Lemma live_failRecovery c : preserves Y (failRecovery c).
Proof. unfold failRecovery. preserve. apply preserves_modify. intros s. by apply (li_error P Y LY). Qed.
#[local] Hint Resolve live_failRecovery : preserve.
Lemma live_clearState : preserves Y clearState.
Proof.
  intros s r s' Hs. destruct (clearState_run s) as (s1 & -> & Hn & (F1 & F2 & F3 & _) & Hp). intros [= _ <-].
  apply (li_cleared P Y LY s); try done. destruct (li_alive P Y LY s Hs) as (? & ? & ?). by split_and!; congruence.
Qed.

(** *** What the socket hands over *)

Lemma live_onSignals f :
  (forall s, signals_ok (hs_ledger s) (hs_signals s) -> signals_ok (hs_ledger s) (f (hs_signals s))) -> preserves Y (onSignals f).
Proof. intros Hf. apply preserves_modify. intros s. apply (li_signals P Y LY). apply Hf. Qed.
Lemma live_memory s m : (agent_ok (ga_memory (hs_agent s)) -> agent_ok m) -> Y s -> Y (set_agent s (set_memory m (hs_agent s))).
Proof. apply (li_memory P Y LY). Qed.
Lemma delete_first_length {A} (m : list (string * A)) : (length (delete_first m) <= length m - 1)%nat.
Proof.
  destruct m as [|[k v] m]; simpl; [lia|]. rewrite bool_decide_true by done. simpl.
  pose proof (filter_length (fun e : string * A => negb (bool_decide (fst e = k))) m). unfold map_delete. lia.
Qed.
Lemma map_set_grows {A} k (v : A) m : (length (map_set k v m) <= S (length m))%nat.
Proof. rewrite map_set_length. case_decide; lia. Qed.
Lemma addAck_length c v m : (length m <= MAX_ACK_HISTORY)%nat -> (length (addAck c v m) <= MAX_ACK_HISTORY)%nat.
Proof.
  intros Hm. unfold addAck. pose proof (map_set_grows c v m). case_decide; [|lia].
  pose proof (delete_first_length (map_set c v m)). lia.
Qed.
Lemma addReject_length v l : (length (addReject v l) <= MAX_REJECT_HISTORY)%nat.
Proof. unfold addReject. rewrite length_drop. lia. Qed.
Lemma addMedia_ok l id v m : id ∈ activeMediaIds l -> (length m <= MAX_MEDIA_STATUS_HISTORY)%nat ->
  Forall (fun e => fst e ∈ activeMediaIds l) m ->
  (length (addMedia id v m) <= MAX_MEDIA_STATUS_HISTORY)%nat /\ Forall (fun e => fst e ∈ activeMediaIds l) (addMedia id v m).
Proof.
  intros Hid Hm Hf. unfold addMedia. destruct (match assoc id m with Some _ => _ | None => _ end); [done|].
  set (m' := if negb (map_has id m) && _ then delete_first m else m).
  assert (Forall (fun e => fst e ∈ activeMediaIds l) m') as Hf'.
  { unfold m'. case_match; [|done]. destruct m as [|[k x] m]; [done|]. by apply map_delete_Forall. }
  split; [|by apply map_set_Forall]. unfold m'. rewrite map_set_length. unfold map_has.
  destruct (assoc id m) eqn:Ha; cbn [negb andb].
  - rewrite decide_True; [done|]. apply assoc_elem in Ha. by apply (list_elem_of_fmap_2 fst) in Ha.
  - case_bool_decide; pose proof (delete_first_length m); unfold MAX_MEDIA_STATUS_HISTORY in *; case_decide; lia.
Qed.
#[local] Hint Extern 3 (preserves Y (onSignals _)) =>
  apply live_onSignals; intros ? [? ? ? ?]; constructor; cbn; auto using addAck_length, addReject_length : preserve.

Lemma live_acceptMedia id v : preserves Y (acceptMedia id v).
Proof.
  apply preserves_current. intros s r s' Hs. destruct (negb _) eqn:Ha; [by intros [= _ <-]|]. split_bools.
  intros [= _ <-]. apply (li_signals P Y LY); [|done]. intros [? ? ? ?].
  destruct (addMedia_ok (hs_ledger s) id v (sg_media (hs_signals s))); [done..|by constructor].
Qed.
Lemma live_mergeAgent {A} (merge : agent_memory -> result string (A * agent_memory)) :
  (forall m x m', agent_ok m -> merge m = Ok (x, m') -> agent_ok m') -> preserves Y (mergeAgent merge).
Proof.
  intros Hm. apply preserves_current. intros s r s' Hs. destruct (merge _) as [[x m]|e] eqn:E; intros [= _ <-]; [|done].
  apply live_memory; [|done]. intros Hok. by eapply Hm.
Qed.
Lemma live_mergeFrame f t t' : preserves Y (mergeAgent (mergeAgentFrame f t t' false)).
Proof. apply live_mergeAgent. intros m x m'. apply merge_agent_ok. Qed.
Lemma live_mergeCurrent c : preserves Y (mergeCurrent c).
Proof.
  unfold mergeCurrent. apply preserves_bind; [apply keep_theRoom|]. intros room. apply live_mergeAgent. intros m x m' Hm.
  unfold mergeAgentCurrent. destruct (negb _); [done|]. destruct (parseServerFrame _) as [[]|]; try done.
  destruct (mergeAgentFrame _ _ _ _ m) as [[b m1]|] eqn:E; [|done]. cbn. intros [= _ <-]. by eapply merge_agent_ok.
Qed.
#[local] Hint Resolve live_acceptMedia live_mergeFrame live_mergeCurrent : preserve.
Lemma live_controlFrame now f : preserves Y (controlFrame now f).
Proof. destruct f; cbn [controlFrame]; unfold set_serverTime; preserve. Qed.
#[local] Hint Resolve live_controlFrame : preserve.
Lemma live_acceptControl now f : preserves Y (acceptControl now f).
Proof. unfold acceptControl. apply keep_finally; preserve. Qed.
#[local] Hint Resolve live_acceptControl : preserve.
Lemma live_dispatch_hushed now o : hushed o -> preserves Y (dispatch now o).
Proof. destruct o; try done; intros _; cbn [dispatch]; preserve. Qed.

(** An event of the room, or none. *)
Definition event_ok (value : json) : Prop := forall e, parseServerFrame value = Ok (FEvent e) -> P e.
Lemma live_onFrame now value k : event_ok value -> preserves Y (socketDo now (onFrame value k)).
Proof.
  intros Hv. destruct (isEvent value) eqn:E.
  - unfold isEvent in E. destruct (parseServerFrame value) as [[]|] eqn:Ev; try done. clear E.
    intros s r s' Hs. unfold socketDo, onSocket. destruct (onFrame value k (with_log [] (hs_socket s))) as [x so] eqn:Eo.
    apply (onFrame_event _ _ _ _ _ _ Ev) in Eo. destruct (acceptEvent_cases event (with_log [] (hs_socket s)) x so eq_refl Eo) as [-> Hc].
    assert (Y (set_roomSocket s (with_log [] (hs_socket s)))) as Hs1.
    { refine (li_socket P Y LY never_called s (mret tt) (Ok tt) (with_log [] (hs_socket s)) _ Hs eq_refl).
      constructor; [intros; apply preserves_ret|apply preserves_ret|apply last_hush, preserves_ret]. }
    destruct (handleEach (dispatch now) (rs_log so) (set_roomSocket s (with_log [] so))) as [y s2] eqn:E2.
    enough (Y s2) by (by destruct y; intros [= _ <-]). revert E2. destruct Hc as [->|[(a & b & ->)|(Hl & _)]].
    + cbn. by intros [= _ <-].
    + assert (preserves Y (handleEach (dispatch now) [Control (FSnapshotRequired a b)])) as Hp.
      { cbn [handleEach dispatch]. preserve. apply preserves_modify. intros ?. apply (li_output P Y LY). }
      exact (Hp (set_roomSocket s (with_log [] (hs_socket s))) y s2 Hs1).
    + rewrite Hl. cbn [handleEach dispatch]. erewrite bind_run by reflexivity. unfold mbind, M_bind.
      destruct (acceptEvent event _) as [[u|e] s3] eqn:E3; intros [= _ <-];
        (eapply (li_event P Y LY); [by apply Hv|by exists value|exact Hs|exact Eo|exact Hl|exact E3]).
  - apply (live_onSocket Y handsOver); [done|apply live_dispatch_hushed| |by apply ordinary_onFrame].
    intros o Ho Hn. destruct o; try done; cbn [dispatch]. apply live_acceptControl.
Qed.

(** *** Inputs *)

(** Kept, or ended. *)
Definition kept (s : hydrated) : Prop := Y s \/ ended s.
Lemma kept_steady : steady kept.
Proof.
  constructor.
  - intros s a Ha [K|K]; [left; by apply (sy_agent Y steadyY)|right; by apply (sy_agent ended ended_steady)].
  - intros s p [K|K]; [left; by apply (sy_panels Y steadyY)|right; by apply (sy_panels ended ended_steady)].
  - intros s r Hr [K|K]; [left; by apply (sy_recovery Y steadyY)|right; by apply (sy_recovery ended ended_steady)].
  - intros s n [K|K]; [left; by apply (sy_next Y steadyY)|right; by apply (sy_next ended ended_steady)].
  - intros s c Hc [K|K]; [left; by apply (sy_log Y steadyY)|right; by apply (sy_log ended ended_steady)].
  - intros s o Ho [K|K]; [left; by apply (sy_projections Y steadyY)|right; by apply (sy_projections ended ended_steady)].
Qed.
#[local] Hint Resolve kept_steady : preserve.
Lemma kept_leads {A} (m : HM A) : preserves Y m -> leads Y m kept.
Proof. apply preserves_leads. by left. Qed.
Lemma ends_leads b m : ends_session b m -> leads Y m kept.
Proof.
  intros [Hm _] s r s' Hs. destruct (Hm s (li_alive P Y LY s Hs)) as (s1 & -> & He & _). intros [= _ <-]. by right.
Qed.
Lemma kept_bind {A B} (m : HM A) (f : A -> HM B) : preserves Y m -> (forall a, leads Y (f a) kept) -> leads Y (m ≫= f) kept.
Proof. intros Hm Hf. apply (leads_bind Y Y kept); [by left|exact Hm|exact Hf]. Qed.
Lemma kept_then {A B} (m : HM A) (f : A -> HM B) : leads Y m kept -> (forall a, preserves kept (f a)) -> leads Y (m ≫= f) kept.
Proof. intros Hm Hf. apply (leads_bind Y kept kept); [done|exact Hm|exact Hf]. Qed.
Lemma kept_finally {A} (m : HM A) f : leads Y m kept -> preserves kept f -> leads Y (finally m f) kept.
Proof.
  intros Hm Hf s r s' Hs. unfold finally. destruct (m s) as [x s1] eqn:E. destruct (f s1) as [[u|e] s2] eqn:E2;
    intros [= _ <-]; eapply Hf, E2; by eapply Hm.
Qed.
Lemma kept_try {A} (m : HM A) h : preserves Y m -> (forall e, leads Y (h e) kept) -> leads Y (try_catch m h) kept.
Proof.
  intros Hm Hh s r s' Hs. unfold try_catch. destruct (m s) as [[a|e] s1] eqn:E.
  - intros [= _ <-]. left. by eapply Hm.
  - apply Hh. by eapply Hm.
Qed.
Lemma kept_attempt {A} (m : HM A) : leads Y m kept -> leads Y (attempt m) kept.
Proof. intros Hm s r s' Hs. unfold attempt. destruct (m s) as [x s1] eqn:E. intros [= _ <-]. by eapply Hm. Qed.
#[local] Hint Extern 5 (leads Y _ kept) => apply kept_leads; solve [preserve] : preserve.
Lemma expiry_leads : leads Y clearForSessionExpiry kept.
Proof. eapply ends_leads, expiry_ends. Qed.
Lemma unavailable_leads : leads Y clearForRoomUnavailable kept.
Proof. eapply ends_leads, unavailable_ends. Qed.
#[local] Hint Resolve expiry_leads unavailable_leads : preserve.

Lemma live_onMessage now k data : (forall v, data = Some v -> event_ok v) -> preserves Y (onMessage now k data).
Proof.
  intros Hd. unfold onMessage. preserve; [by apply live_onFrame, Hd|].
  apply (live_onSocket Y (eq ProtocolError)); [done|apply live_dispatch_hushed| |apply ordinary_protocolFailure].
  intros o <- _. exact (live_failRecovery _).
Qed.
Lemma live_socketFrame now value : event_ok value -> preserves Y (socketFrame now value).
Proof.
  intros Hv s r s' Hs. unfold socketFrame, socketDo, onSocket. erewrite (bind_run _ _ (with_log [] (hs_socket s))) by reflexivity.
  exact (live_onFrame now value _ Hv s r s' Hs).
Qed.
Lemma live_receiveFrame now value : event_ok value -> preserves Y (receiveFrame now value).
Proof. intros Hv. unfold receiveFrame. preserve. by apply live_socketFrame. Qed.
Lemma live_socketDo {A} now C (m : M room_socket socket_error A) :
  (forall o, C o -> isSink o = false -> leads Y (dispatch now o) kept) -> ordinary C m -> leads Y (socketDo now m) kept.
Proof. intros Hc. apply live_onSocket; [by left|apply live_dispatch_hushed|exact Hc]. Qed.
Lemma live_uncalled {A} now (m : M room_socket socket_error A) : ordinary never_called m -> preserves Y (socketDo now m).
Proof. apply live_onSocket; [done|apply live_dispatch_hushed|by intros]. Qed.
#[local] Hint Resolve live_uncalled ordinary_onOpenEvent ordinary_onRetryTimer ordinary_onGate ordinary_sockets : preserve.
Lemma live_onCloseEvent now k code : leads Y (socketDo now (onCloseEvent k code)) kept.
Proof.
  apply (live_socketDo now stops); [|apply ordinary_onCloseEvent]. intros o Ho _. destruct o; try done; cbn [dispatch]; auto with preserve.
Qed.

Definition page_ok (answer : result thrown RoomEventPage) : Prop :=
  match answer with Ok p => Forall (fun e => event_ok (serverFrameJson (FEvent e))) (pg_events p) | Err _ => True end.
Lemma live_recoverPage now es cursor : Forall (fun e => event_ok (serverFrameJson (FEvent e))) es -> preserves Y (recoverPage now es cursor).
Proof.
  intros Hes. revert cursor. induction Hes as [|e es He Hes IH]; intros cursor; cbn [recoverPage]; preserve.
  by apply live_socketFrame.
Qed.
Lemma live_recoverLoop now r answer : page_ok answer -> preserves Y (recoverLoop now r answer).
Proof.
  intros Ha. unfold recoverLoop. apply preserves_lift_bind. intros p ->. preserve. by apply live_recoverPage.
Qed.
Lemma live_answerPage now answer : page_ok answer -> leads Y (answerPage now answer) kept.
Proof.
  intros Ha. unfold answerPage. apply kept_bind; [preserve|]. intros s. destruct (rc_current _) as [r|]; [|auto with preserve].
  apply kept_bind; [by apply keep_attempt, live_recoverLoop|]. intros [[r'|]|e]; [auto with preserve..|].
  apply kept_bind; [preserve|]. intros _. apply kept_then; [|intros; preserve].
  destruct (isGateway [AUTH_REQUIRED] e); [auto with preserve|]. destruct (isGateway ROOM_GONE_CODES e); auto with preserve.
Qed.
Lemma live_watchedReaction id : preserves Y (watchedReaction id).
Proof. unfold watchedReaction. preserve. Qed.
Lemma live_gateReaction now id : preserves Y (gateReaction now id).
Proof. unfold gateReaction. preserve. Qed.

Lemma live_answerAgent id answer : leads Y (answerAgent id answer) kept.
Proof.
  unfold answerAgent. apply kept_bind; [preserve|]. intros s. destruct (find _ _) as [t|]; [|auto with preserve].
  apply kept_bind; [preserve|]. intros _. apply kept_finally; [|preserve]. apply kept_try; [preserve|]. intros e.
  apply kept_bind; [preserve|]. intros s1. repeat case_match; auto with preserve.
Qed.
Lemma live_projectionFailed k e : leads Y (projectionFailed k e) kept.
Proof.
  unfold projectionFailed. destruct (isGateway [AUTH_REQUIRED] e); [auto with preserve|].
  destruct (isGateway ["ROOM_NOT_FOUND"%string] e); auto with preserve.
Qed.
#[local] Hint Resolve live_projectionFailed : preserve.
Lemma live_settleTask t r : leads Y (settleTask t r) kept.
Proof.
  unfold settleTask. apply kept_bind; [preserve|]. intros _. apply kept_finally; [|preserve].
  apply kept_bind; [preserve|]. intros s. repeat case_match; auto with preserve.
Qed.
Lemma live_answerProjection `{ContractText} id a : leads Y (answerProjection id a) kept.
Proof.
  unfold answerProjection. apply kept_bind; [preserve|]. intros s. destruct (find _ _) as [t|]; [|auto with preserve].
  destruct (pt_wait t) as [epoch|frame|frame], a as [r|r]; try (by auto with preserve);
    (apply kept_bind; [apply keep_attempt; preserve|]; intros x; repeat case_match; auto using live_settleTask with preserve).
Qed.
Lemma live_answerTimeline id answer : leads Y (answerTimeline id answer) kept.
Proof.
  unfold answerTimeline. apply kept_bind; [preserve|]. intros s. destruct (find _ _) as [[i k]|]; [|auto with preserve].
  apply kept_bind; [preserve|]. intros _. apply kept_then; [|intros; preserve]. apply kept_attempt, kept_finally; [|preserve].
  apply kept_try; [preserve|]. intros e. apply kept_bind; [preserve|]. intros s1. apply kept_then; [|intros; preserve].
  repeat case_match; auto with preserve.
Qed.
Lemma live_sendIntent now id clock i : preserves Y (sendIntent now id clock i).
Proof. unfold sendIntent. preserve. Qed.
Lemma live_connectWith so : preserves Y (connectWith so).
Proof. unfold connectWith. preserve. Qed.

(** What an input brings is of the room. *)
Definition brings_ok (i : hydrated_input) : Prop :=
  match i with
  | HPage answer => page_ok answer
  | HMessage _ (Some value) | HReceiveFrame value => event_ok value
  | _ => True
  end.
Lemma live_input `{ContractText} now i : brings_ok i -> leads Y (handleInput now i) kept.
Proof.
  destruct i; cbn [handleInput brings_ok]; intros Hi; unfold discard, signalPresence, signalTyping, signal, connectNative, dispose;
    auto using live_answerPage, live_answerAgent, live_answerProjection, live_answerTimeline, live_onCloseEvent with preserve.
  - apply kept_leads, live_watchedReaction.
  - apply kept_leads, live_gateReaction.
  - apply kept_leads, live_onMessage. intros v ->. exact Hi.
  - by apply kept_leads, live_receiveFrame.
  - apply kept_leads. preserve. apply live_sendIntent.
  - apply kept_leads. preserve. apply live_connectWith.
  - apply kept_leads. preserve. apply live_connectWith.
  - apply kept_leads, live_clearState.
Qed.
End Live.
