(* ===== verification/HydratedEnd.v ===== *)
(** * A browser's session: its end

    When the session or the room is lost, what the browser held of them is gone, the user
    is told once, and nothing that is still under way brings anything back. *)
From S2P Require Import Prelude Text JsDate JsValue Contracts Database Concrete JsMap Frames ClientLedger RoomSocket Authorization Echo Trace Projections SeatCodes Sessions Rooms AgentStatus SessionClient Hydrated HydratedLaws HydratedSteps.
#[local] Set Warnings "-register-all,-clear-no-such-hyp,-level-tolerance".

Section Ended.
Context `{Schemas}.

(** Ended as [b] says, with [w] on the wire. *)
Definition stays (w : list output) (b : bool) (s : hydrated) : Prop :=
  ended s /\ wire (hs_outputs s) = w /\ hs_expired s = b.
Lemma stays_steady w b : steady (stays w b).
Proof.
  constructor.
  - intros s a Ha (He & Hw & Hb). split_and!; try done. by apply (sy_agent ended ended_steady).
  - intros s p (He & Hw & Hb). split_and!; try done. by apply (sy_panels ended ended_steady).
  - intros s r Hr (He & Hw & Hb). split_and!; try done. by apply (sy_recovery ended ended_steady).
  - intros s n (He & Hw & Hb). split_and!; try done. by apply (sy_next ended ended_steady).
  - intros s c Hc (He & Hw & Hb). split_and!; try done. by apply (sy_log ended ended_steady).
  - intros s o Ho (He & Hw & Hb). split_and!; try done. by apply (sy_projections ended ended_steady).
Qed.

(** A socket that is closed for good. *)
Definition shut (s : room_socket) : Prop :=
  (rs_pending s = [] /\ rs_lastRoomSeq s = 0 /\ rs_roomId s = EmptyString)
  /\ (rs_closed s = true /\ rs_socket s = None /\ rs_retryTimer s = None /\ rs_factory s = false).
Lemma stays_shut w b s : stays w b s -> shut (hs_socket s).
Proof. intros ([_ _ []] & _). by split. Qed.
Lemma stays_socket w b s so : stays w b s -> shut so -> stays w b (set_roomSocket s so).
Proof. intros ([H1 H2 []] & Hw & Hb) [? ?]. split_and!; [|done|done]. by split. Qed.
(** An operation that puts out nothing then. *)
Lemma stays_onSocket {A} w b f (m : M room_socket socket_error A) :
  (forall s, shut s -> rs_log s = [] -> exists r so, m s = (r, so) /\ shut so /\ rs_log so = []) -> preserves (stays w b) (onSocket f m).
Proof.
  intros Hm s r s' Hs. unfold onSocket. destruct (Hm (with_log [] (hs_socket s))) as (x & so & -> & Hsh & Hl); [by apply (stays_shut w b)|done|].
  rewrite Hl. cbn. assert (stays w b (set_roomSocket s (with_log [] so))) by (by apply stays_socket). by destruct x; intros [= _ <-].
Qed.
Lemma shut_onOpenEvent k s : shut s -> onOpenEvent k s = (Ok tt, s).
Proof. intros [_ (Hc & _)]. unfold onOpenEvent. erewrite bind_run by reflexivity. by rewrite Hc. Qed.
Lemma shut_onCloseEvent k code s : shut s -> onCloseEvent k code s = (Ok tt, s).
Proof. intros [_ (_ & Hk & _)]. unfold onCloseEvent. erewrite bind_run by reflexivity. by rewrite Hk. Qed.
Lemma shut_onRetryTimer so s : shut s -> onRetryTimer so s = (Ok tt, s).
Proof. intros [_ (_ & _ & Ht & _)]. unfold onRetryTimer. erewrite bind_run by reflexivity. by rewrite Ht. Qed.
Lemma shut_onGate g b s : shut s -> rs_log s = [] -> exists r so, onGate g b s = (r, so) /\ shut so /\ rs_log so = [].
Proof.
  intros [Hp (Hc & Hk & Ht & Hf)] Hl. unfold onGate. erewrite bind_run by reflexivity. destruct (decide _); [|by eexists _, _].
  erewrite bind_run by reflexivity. destruct b; [|by eexists _, _]. unfold scheduleReconnect. erewrite bind_run by reflexivity.
  cbn. rewrite Hc. cbn. by eexists _, _.
Qed.

(** What ended sessions answer at once. *)
Lemma ended_room s : ended s -> theRoom s = (Err SESSION_STATE_CLEARED, s).
Proof. intros [_ _ []]. unfold theRoom. erewrite bind_run by reflexivity. by destruct nh_identity as [_ ->]. Qed.
Lemma ended_assertLive s : ended s -> exists e, assertLive s = (Err e, s).
Proof.
  intros He. pose proof (ended_flags s He) as Hf. unfold assertLive. erewrite bind_run by reflexivity. unfold throw_if.
  destruct (hs_expired s); [by eexists|]. cbn in Hf. erewrite bind_run by reflexivity. rewrite Hf. by eexists.
Qed.
Lemma ended_recoverLoop now r answer s : ended s -> exists e, recoverLoop now r answer s = (Err e, s).
Proof.
  intros He. pose proof (ended_flags s He) as Hf. unfold recoverLoop. destruct answer as [p|e]; [|by eexists].
  erewrite bind_run by reflexivity. erewrite bind_run by reflexivity. unfold throw_if.
  destruct (hs_expired s); [by eexists|]. cbn in Hf. erewrite bind_run by reflexivity. rewrite Hf. by eexists.
Qed.

Section Stays.
Context (w : list output) (b : bool).
#[local] Hint Resolve stays_steady : preserve.
Lemma stays_ends b' m : ends_session b' m -> preserves (stays w b) m.
Proof. intros [_ Hm] s r s' Hs. rewrite Hm by (apply ended_flags, Hs). by intros [= _ <-]. Qed.
Lemma stays_expiry : preserves (stays w b) clearForSessionExpiry.
Proof. eapply stays_ends, expiry_ends. Qed.
Lemma stays_unavailable : preserves (stays w b) clearForRoomUnavailable.
Proof. eapply stays_ends, unavailable_ends. Qed.
#[local] Hint Resolve stays_expiry stays_unavailable : preserve.
Lemma stays_stuck {A} (m : HM A) : (forall s, ended s -> exists e, m s = (Err e, s)) -> preserves (stays w b) m.
Proof. intros Hm s r s' Hs. destruct (Hm s) as (e & ->); [apply Hs|]. by intros [= _ <-]. Qed.
Lemma stuck_bind {A B} (m : HM A) (f : A -> HM B) :
  (forall s, ended s -> exists e, m s = (Err e, s)) -> forall s, ended s -> exists e, (m ≫= f) s = (Err e, s).
Proof. intros Hm s Hs. destruct (Hm s Hs) as (e & He). exists e. by apply bind_err. Qed.
Lemma stuck_room s : ended s -> exists e, theRoom s = (Err e, s).
Proof. intros Hs. eexists. by apply ended_room. Qed.
Lemma stays_failRecovery c : preserves (stays w b) (failRecovery c).
Proof.
  intros s r s' Hs. unfold failRecovery. erewrite bind_run by reflexivity. rewrite (ended_flags s (proj1 Hs)). by intros [= _ <-].
Qed.
Lemma stays_guard {A} (f : hydrated -> bool) (m : hydrated -> HM A) (n : HM A) :
  preserves (stays w b) n -> (forall s, ended s -> f s = true) -> preserves (stays w b) (s ← get_state; if f s then n else m s).
Proof. intros Hn Hf. apply preserves_current. intros s r s' Hs. rewrite (Hf s (proj1 Hs)). by apply Hn. Qed.
Lemma stays_clearState : preserves (stays w b) clearState.
Proof.
  intros s r s' ([H1 H2 H3] & Hw & Hb). destruct (clearState_run s) as (s1 & -> & Hn & (F1 & F2 & F3 & F4) & _). intros [= _ <-].
  split_and!; [|congruence..]. split; [congruence..|done].
Qed.
#[local] Hint Resolve stays_failRecovery stays_clearState : preserve.
#[local] Hint Resolve stuck_room : core.
Lemma stays_settleTask t r : preserves (stays w b) (settleTask t r).
Proof. unfold settleTask, projectionFailed. preserve. apply keep_finally; preserve. Qed.
#[local] Hint Resolve stays_settleTask : preserve.
Lemma stays_answerPage now answer : preserves (stays w b) (answerPage now answer).
Proof. unfold answerPage. preserve. apply keep_attempt, stays_stuck. intros. by apply ended_recoverLoop. Qed.
Lemma stays_mergeCurrent c : preserves (stays w b) (mergeCurrent c).
Proof. apply stays_stuck, stuck_bind, stuck_room. Qed.
#[local] Hint Resolve stays_mergeCurrent : preserve.
Lemma stays_answerAgent id answer : preserves (stays w b) (answerAgent id answer).
Proof. unfold answerAgent. preserve. apply keep_finally; preserve. Qed.
Lemma stays_answerProjection `{ContractText} id a : preserves (stays w b) (answerProjection id a).
Proof.
  unfold answerProjection. apply preserves_bind; [preserve|]. intros s. destruct (find _ _) as [t|]; [|preserve].
  destruct (pt_wait t), a; try (by preserve); apply preserves_bind; try (apply keep_attempt; preserve); preserve.
Qed.
Lemma stays_answerTimeline id answer : preserves (stays w b) (answerTimeline id answer).
Proof. unfold answerTimeline. preserve. apply keep_attempt, keep_finally; preserve. Qed.
Lemma stays_input `{ContractText} now i : preserves (stays w b) (handleInput now i).
Proof.
  destruct i; cbn [handleInput]; unfold discard, signalPresence, signalTyping, signal, dispose;
    auto using stays_answerPage, stays_answerAgent, stays_answerProjection, stays_answerTimeline with preserve; try (by preserve).
  - unfold watchedReaction. preserve.
  - unfold gateReaction. preserve. apply stays_onSocket. intros. by apply shut_onGate.
  - apply stays_onSocket. intros s Hs Hl. rewrite shut_onOpenEvent by done. by eexists _, _.
  - unfold onMessage. apply stays_guard; [preserve|]. intros s [_ _ []]. by destruct nh_closed as (-> & _).
  - apply stays_onSocket. intros s Hs Hl. rewrite shut_onCloseEvent by done. by eexists _, _.
  - apply stays_onSocket. intros s Hs Hl. rewrite shut_onRetryTimer by done. by eexists _, _.
  - apply stays_onSocket. intros s Hs Hl. by eexists _, _.
  - unfold receiveFrame. apply stays_guard; [preserve|]. intros s Hs. by rewrite (ended_flags s Hs).
  - apply preserves_bind; [|preserve]. apply stays_stuck, stuck_bind, ended_assertLive.
  - apply stays_guard; [preserve|]. apply ended_flags.
  - apply stays_guard; [preserve|]. apply ended_flags.
  - apply preserves_bind; [|preserve]. apply stays_stuck, stuck_bind, ended_assertLive.
  - apply preserves_bind; [|preserve]. apply stays_stuck, stuck_bind, stuck_room.
Qed.
End Stays.
End Ended.

(** ** The theorem *)

Section Departure.
Context `{Schemas}.

Lemma alive_steady : steady alive.
Proof.
  constructor; [by intros s a _ Hs|by intros s p Hs|by intros s r _ Hs|by intros s n Hs| |by intros s o _ Hs].
  intros s c Hc (H1 & H2 & H3). split_and!; [done|done|]. cbn. rewrite ends_app, Hc. lia.
Qed.
Lemma alive_acceptEvent e : preserves alive (acceptEvent e).
Proof.
  pose proof alive_steady as Hst. unfold acceptEvent, reduce, requiredString. preserve; try (by apply preserves_modify).
  unfold ledgerAppend. intros s r s' Hs. destruct (append _ _) as [[x l]|]; by intros [= _ <-].
Qed.
Lemma alive_invariant : live_invariant (fun _ => True) alive.
Proof.
  constructor; try done; [apply alive_steady|]. intros e s so r s' _ _ Hs _ _. by apply alive_acceptEvent.
Qed.
Lemma kept_reachable (P : RoomEventEnvelope -> Prop) Y `{ContractText} ins : live_invariant P Y ->
  Forall (fun i => brings_ok P (snd i)) ins -> forall s, kept Y s -> kept Y (hydrates s ins).
Proof.
  intros LY Hi. unfold hydrates. induction Hi as [|[now i] ins Hi _ IH]; intros s Hs; [done|]. cbn [foldl]. apply IH.
  unfold hydrate. cbn [fst snd]. destruct (handleInput now i s) as [r s'] eqn:E. cbn [snd]. destruct Hs as [Hs|Hs].
  - exact (live_input P Y LY now i Hi s r s' Hs E).
  - right. exact (proj1 (stays_input (wire (hs_outputs s)) (hs_expired s) now i s r s' (conj Hs (conj eq_refl eq_refl)) E)).
Qed.
Lemma stays_reachable `{ContractText} w b ins : forall s, stays w b s -> stays w b (hydrates s ins).
Proof.
  unfold hydrates. induction ins as [|[now i] ins IH]; intros s Hs; [done|]. cbn [foldl]. apply IH.
  unfold hydrate. cbn [fst snd]. destruct (handleInput now i s) as [r s'] eqn:E. by eapply stays_input.
Qed.
(** What the constructor makes. *)
Definition freshSession (o : HydratedSessionOptions) (clientId : string) (memory : agent_memory) (down : bool) (limit : Z) : hydrated :=
  let room := ho_room o in
  Hydrated (newEventLedger (Some (rd_roomId room))) (newProjectionSync (rd_roomId room) (roleOf (ho_session o)))
    (newRoomSocket (rd_roomId room) clientId "lo" [] (default DEFAULT_RETRY_DELAYS (ho_retryDelaysMs o)))
    (createSessionState (rd_roomId room) (rd_status room) (rd_startsAt room) (rd_closesAt room)) no_signals
    (AgentSide memory down false 0 0 None []) no_panels (Recoveries None 0 [] [] None None) (Some (ho_session o)) (Some room)
    false false limit (ho_gateway o) (rd_roomId room) 0 [] [].
Lemma newHydrated_inv clientId o s : newHydrated clientId o = Ok s ->
  exists memory down limit, s = freshSession o clientId memory down limit /\ 1 <= limit <= 500
    /\ (memory = no_agent \/ exists c, mergeAgentCurrent (rd_roomId (ho_room o)) c no_agent = Ok memory).
Proof.
  unfold newHydrated. destruct (negb _); [done|]. destruct (match ho_session o with TeacherSession _ _ => _ | _ => _ end) as [u|e]; [|done].
  cbn. destruct (between 500 _) as [limit|] eqn:El; [|done]. destruct (between 30000 _); [|done].
  assert (1 <= limit <= 500) as Hl.
  { unfold between in El. destruct (asSafeInteger _) as [n|]; [|done]. cbn in El. destruct (_ || _) eqn:Ez; [done|]. split_bools.
    injection El as <-. lia. }
  destruct (ho_agentCurrent o) as [c|].
  - destruct (mergeAgentCurrent _ c no_agent) as [m|] eqn:Em; cbn; [|done]. intros [= <-]. exists m, false, limit. eauto.
  - cbn. intros [= <-]. exists no_agent, (ho_agentServiceUnavailable o), limit. auto.
Qed.
Lemma created_inv (I : hydrated -> Prop) clientId o s : steady I ->
  (forall memory down limit, 1 <= limit <= 500 ->
     memory = no_agent \/ (exists c, mergeAgentCurrent (rd_roomId (ho_room o)) c no_agent = Ok memory) ->
     I (freshSession o clientId memory down limit)) ->
  createHydrated clientId o = Ok s -> I s.
Proof.
  intros HI H0. unfold createHydrated. destruct (newHydrated clientId o) as [s0|] eqn:E0; [|done]. cbn.
  destruct (newHydrated_inv _ _ _ E0) as (m & d & l & -> & Hl & Hm). specialize (H0 m d l Hl Hm).
  destruct (recoverEvents None _) as [[id|e] s1] eqn:E1; [|done]. intros [= <-].
  apply (sy_recovery I HI); [done|]. by eapply keep_recoverEvents.
Qed.
Lemma created_alive clientId o s : createHydrated clientId o = Ok s -> alive s.
Proof. apply created_inv; [apply alive_steady|done]. Qed.
Lemma brings_anything i : brings_ok (fun _ => True) i.
Proof. destruct i as [[p|e]| | | | | | | |k [v|]| | | | | | | | | | | | | | | | | ]; cbn; try done. by apply Forall_forall. Qed.

(** A session that lives ends on these inputs. *)
Inductive parting (s : hydrated) : hydrated_input -> bool -> Prop :=
| part_expire : parting s HExpire true
| part_unavailable : parting s HUnavailable false
| part_close k code : rs_closed (hs_socket s) = false -> rs_socket (hs_socket s) = Some k -> code ∈ [4401; 4403; 4410] ->
    parting s (HClose k (Some code)) (code =? 4401)
| part_page r code : rc_current (hs_recovery s) = Some r -> code ∈ AUTH_REQUIRED :: ROOM_GONE_CODES ->
    parting s (HPage (Err (GatewayError code))) (bool_decide (code = AUTH_REQUIRED)).
Definition stopOf (code : Z) : output := if code =? 4401 then SessionExpired else RoomUnavailable code.
Lemma terminal_close k code s : rs_closed s = false -> rs_socket s = Some k -> code ∈ [4401; 4403; 4410] -> rs_log s = [] ->
  exists so, onCloseEvent k (Some code) s = (Ok tt, so) /\ rs_log so = [ConnectionChange false; stopOf code].
Proof.
  intros Hc Hk Hcode Hl. unfold onCloseEvent. erewrite bind_run by reflexivity. rewrite decide_True by done.
  unfold onClose. erewrite bind_run by reflexivity. rewrite Hc.
  assert (code = 4401 \/ code = 4403 \/ code = 4410) as [->|[->| ->]].
  { rewrite !elem_of_cons, elem_of_nil in Hcode. tauto. }
  all: eexists; (split; [reflexivity|]); cbn; by rewrite Hl.
Qed.
Lemma parting_ends `{ContractText} now i b s : alive s -> parting s i b ->
  ended (hydrate s (now, i)) /\ hs_expired (hydrate s (now, i)) = b.
Proof.
  intros Hs Hp. unfold hydrate. cbn [fst snd]. destruct Hp as [| |k code Hc Hk Hcode|r code Hr Hcode]; cbn [handleInput].
  - destruct (proj1 expiry_ends s Hs) as (s1 & -> & He & Hb & _). done.
  - destruct (proj1 unavailable_ends s Hs) as (s1 & -> & He & Hb & _). done.
  - unfold socketDo, onSocket. destruct (terminal_close k code (with_log [] (hs_socket s)) Hc Hk Hcode eq_refl) as (so & -> & ->).
    cbn [handleEach]. do 3 erewrite bind_run by reflexivity.
    match goal with |- context [(dispatch now (stopOf code) ≫= _) ?s1] => assert (alive s1) as Ha end.
    { destruct Hs as (? & ? & ?). split_and!; cbn; [done..|]. rewrite ends_app. cbn. lia. }
    revert Ha. unfold stopOf. destruct (code =? 4401); intros Ha; cbn [dispatch].
    + match type of Ha with alive ?s1 => destruct (proj1 expiry_ends s1 Ha) as (s2 & E & He & Hb & _) end.
      rewrite (bind_run _ _ _ _ _ E). done.
    + match type of Ha with alive ?s1 => destruct (proj1 unavailable_ends s1 Ha) as (s2 & E & He & Hb & _) end.
      rewrite (bind_run _ _ _ _ _ E). done.
  - unfold answerPage. erewrite bind_run by reflexivity. rewrite Hr. erewrite bind_run by reflexivity. cbv beta iota.
    erewrite bind_run by reflexivity.
    set (s1 := set_recovery s _). assert (alive s1) as Ha by done. unfold isGateway.
    apply elem_of_cons in Hcode as [->|Hcode]; [|assert (code <> AUTH_REQUIRED) by (intros ->; by apply (bool_decide_pack (AUTH_REQUIRED ∈ ROOM_GONE_CODES)) in Hcode)].
    + rewrite !bool_decide_true by (done || by left). destruct (proj1 expiry_ends s1 Ha) as (s2 & E & He & Hb & _).
      rewrite (bind_run _ _ _ _ _ E). cbn. split; [|done]. by apply (sy_recovery ended ended_steady).
    + rewrite bool_decide_false by (by intros ?%list_elem_of_singleton). rewrite bool_decide_true by done. rewrite bool_decide_false by done.
      destruct (proj1 unavailable_ends s1 Ha) as (s2 & E & He & Hb & _).
      rewrite (bind_run _ _ _ _ _ E). cbn. split; [|done]. by apply (sy_recovery ended ended_steady).
Qed.

(** C7. The end of a session is final. However a session comes to it - the user, the code
    by which the server closes the socket, the gateway's answer that nobody is signed in
    or that the room is gone - the browser is told once, and then holds nothing: no
    event, no message, no projection, no status, no signal, no command that waits. And
    whatever follows - answers that were under way, messages and closings of old
    sockets, timers, the user's calls - nothing comes back, no socket is made and no
    frame is sent. *)
Theorem ended_for_good `{ContractText} clientId o s0 ins more now i b :
  createHydrated clientId o = Ok s0 ->
  let s := hydrates s0 ins in
  (ended s \/ alive s)
  /\ (ended s -> let s' := hydrates s more in
       ended s' /\ hs_expired s' = hs_expired s /\ wire (hs_outputs s') = wire (hs_outputs s))
  /\ (alive s -> parting s i b -> ended (hydrate s (now, i)) /\ hs_expired (hydrate s (now, i)) = b).
Proof.
  intros Hc s. split_and!.
  - destruct (kept_reachable (fun _ => True) alive ins alive_invariant) with (s := s0); [|left; by eapply created_alive|by right|by left].
    apply Forall_forall. intros. apply brings_anything.
  - intros He. destruct (stays_reachable (wire (hs_outputs s)) (hs_expired s) more s) as (? & ? & ?); [|by split_and!].
    by split_and!.
  - apply parting_ends.
Qed.
End Departure.

#[local] Existing Instance demoText.
Lemma ended_for_good_witness :
  let s := hydrates demoHydrated demoArrival in
  let i := HClose 0 (Some 4401) in
  let gone := hydrates demoHydrated (demoArrival ++ [(0, i)]) in
  let late := hydrates gone [(5, HPage (Ok demoFirstPage)); (6, HConnect workingSocket); (7, HIntent demoCommand None (IntentRoom room_open))] in
  parting s i true /\ ended (hydrate s (0, i)) /\ hs_expired (hydrate s (0, i)) = true
  /\ ended late /\ hs_expired late = true /\ wire (hs_outputs late) = wire (hs_outputs s).
Proof.
  cbv zeta.
  assert (createHydrated demoClient demoOptions = Ok demoHydrated) as Hc by (vm_compute; reflexivity).
  assert (alive (hydrates demoHydrated demoArrival)) as Ha by (vm_compute; auto).
  assert (parting (hydrates demoHydrated demoArrival) (HClose 0 (Some 4401)) true) as Hp.
  { apply (part_close _ 0%nat 4401); [vm_compute; reflexivity..|]. by left. }
  destruct (ended_for_good demoClient demoOptions demoHydrated demoArrival [] 0 (HClose 0 (Some 4401)) true Hc) as (_ & _ & H1).
  destruct (ended_for_good demoClient demoOptions demoHydrated (demoArrival ++ [(0, HClose 0 (Some 4401))])
    [(5, HPage (Ok demoFirstPage)); (6, HConnect workingSocket); (7, HIntent demoCommand None (IntentRoom room_open))] 0 HExpire true Hc) as (_ & H2 & _).
  destruct (H1 Ha Hp) as [H3 H4]. destruct H2 as (H5 & H6 & H7).
  { unfold hydrates. rewrite foldl_snoc. exact H3. }
  split_and!; [exact Hp|exact H3|exact H4|exact H5|rewrite H6; vm_compute; reflexivity|rewrite H7; vm_compute; reflexivity].
Defined.
