(* ===== verification/HydratedRoom.v ===== *)
(** * A browser's session: what it shows of its room

    What is held while a session lives is of the session's room and role, valid and
    bounded; its ledger is a prefix of the room's, at which its three cursors agree; and
    the recovery brings it to the whole of what the room's pages hold. *)
From S2P Require Import Prelude Text JsDate JsValue Contracts Database Concrete JsMap Frames ClientLedger RoomSocket Authorization Echo Trace Projections SeatCodes Sessions Rooms AgentStatus SessionClient Hydrated HydratedLaws HydratedSteps HydratedEnd.
#[local] Set Warnings "-register-all,-clear-no-such-hyp,-level-tolerance".

(** ** An event that is handed over *)

Section Event.
Context `{Schemas}.

Definition activeOnly (l : EventLedger) (g : signals) : signals :=
  Signals (sg_acks g) (sg_rejects g) (sg_presence g) (sg_typing g)
    (List.filter (fun e => bool_decide (fst e ∈ activeMediaIds l)) (sg_media g)) (sg_degraded g) (sg_projection g)
    (sg_serverTime g) (sg_receivedAt g).
Lemma append_same v l x l' : append v l = Ok (x, l') -> x <> appended -> l' = l.
Proof.
  unfold append. destruct (parseServerFrame _) as [[]|]; try done. destruct (match el_roomId l with Some r => _ | None => _ end); [done|].
  destruct (map_has _ _); [by intros [= _ <-]|]. destruct (_ <=? _); [by intros [= _ <-]|]. destruct (negb _); [by intros [= _ <-]|].
  by intros [= <- <-].
Qed.

(** What [#acceptEvent] does: nothing, or it takes the event. *)
Record takes (e : RoomEventEnvelope) (s s' : hydrated) : Prop := {
  tk_ledger : append (envelopeJson e) (hs_ledger s) = Ok (appended, hs_ledger s');
  tk_rest : exists c, s' = Hydrated (hs_ledger s') (hs_projections s) (hs_socket s) (hs_state s')
    (activeOnly (hs_ledger s') (hs_signals s)) (hs_agent s) (hs_panels s) (hs_recovery s) (hs_session s) (hs_room s)
    (hs_expired s) (hs_roomUnavailable s) (hs_pageLimit s) (hs_gateway s) (hs_busRoom s) (hs_next s) (hs_outputs s) c
    /\ ends c = ends (hs_log s);
  tk_cursor : st_lastRoomSeq (hs_state s') = if st_lastRoomSeq (hs_state s) <=? roomSeq e then roomSeq e else st_lastRoomSeq (hs_state s);
}.
Lemma acceptEvent_takes e s r s' : acceptEvent e s = (r, s') ->
  (s' = s /\ (exists x, r = Err x) /\ forall l, append (envelopeJson e) (hs_ledger s) <> Ok (appended, l)) \/ takes e s s'.
Proof.
  unfold acceptEvent. intros Hr. unfold mbind at 1, M_bind at 1, ledgerAppend in Hr.
  destruct (append (envelopeJson e) (hs_ledger s)) as [[x l]|err] eqn:Ea; [|injection Hr as <- <-; left; split_and!; [done|eauto|done]].
  assert (x = appended \/ x <> appended) as [->|Hne] by (destruct x; auto).
  2:{ left. rewrite (append_same _ _ _ _ Ea Hne) in Hr. assert (set_ledger s (hs_ledger s) = s) as E by by destruct s.
      rewrite E in Hr. split_and!; [by destruct x; try done; injection Hr as _ <-|destruct x; try done; injection Hr as <- _; eauto|]. intros l'. congruence. }
  right. do 2 erewrite bind_run in Hr by reflexivity. erewrite bind_run in Hr by reflexivity.
  set (s1 := set_state _ _) in Hr. assert (takes e s s1) as H1.
  { constructor; [exact Ea|by exists (hs_log s)|]. cbn. by destruct (_ <=? _). }
  assert (forall a s2, match a with AStatus _ | ATiming _ _ => True | _ => False end -> takes e s s2 ->
    takes e s (set_state s2 (sessionReducer (hs_state s2) a))) as Hred.
  { intros a s2 Ha [T1 (c & T2 & T3) T4]. constructor; [exact T1| |destruct a; done]. exists c. split; [|done]. cbn. rewrite T2 at 1. done. }
  assert (preserves (takes e s) (match statusFromEvent (type e) with Some status => reduce (AStatus status) | None => mret tt end)) as Hp1.
  { destruct (statusFromEvent _); [|apply preserves_ret]. apply preserves_modify. intros s2. by apply Hred. }
  match type of Hr with (?m ≫= _) _ = _ => assert (preserves (takes e s) (m ≫= fun _ =>
    (if bool_decide (type e = "room.opened"%string) then
         startsAt ← requiredString (assoc "startsAt" (payload e)) "ROOM_START_INVALID";
         closesAt ← requiredString (assoc "closesAt" (payload e)) "ROOM_CLOSE_INVALID";
         reduce (ATiming (Some startsAt) (Some closesAt))
       else mret tt) ≫= fun _ => notify)) as Hp end.
  2:{ exact (Hp _ _ _ H1 Hr). }
  apply preserves_bind; [exact Hp1|]. intros _. apply preserves_bind.
  - unfold requiredString. preserve. apply preserves_modify. intros s2. by apply Hred.
  - intros _. apply preserves_modify. intros s2 [T1 (c & T2 & T3) T4]. constructor; [exact T1| |exact T4]. cbn.
    exists (c ++ [Notified]). split; [rewrite T2 at 1; cbn; by rewrite T2|]. rewrite ends_app. cbn. lia.
Qed.
End Event.

(** ** What is held is sound *)

Section Sound.
Context `{Schemas} (room : string) (role : Role).

Record sound (s : hydrated) : Prop := {
  sd_alive : alive s;
  sd_signals : signals_ok (hs_ledger s) (hs_signals s);
  sd_agent : agent_ok (ga_memory (hs_agent s));
  sd_projections : sync_ok room role (hs_projections s);
}.
Lemma filter_Forall {A} (p : A -> bool) (Q : A -> Prop) l : (forall x, p x = true -> Q x) -> Forall Q (List.filter p l).
Proof. intros Hp. apply Forall_forall. intros x [_ Hx]%list_elem_of_In%filter_In. by apply Hp. Qed.
Lemma activeOnly_ok l l' g : signals_ok l g -> signals_ok l' (activeOnly l' g).
Proof.
  intros [? ? Hm _]. constructor; try done; cbn.
  - pose proof (filter_length (fun e : string * MediaStatus => bool_decide (fst e ∈ activeMediaIds l')) (sg_media g)). lia.
  - apply filter_Forall. intros x. apply bool_decide_eq_true.
Qed.
Lemma no_signals_ok l : signals_ok l no_signals.
Proof. constructor; cbn; try lia. constructor. Qed.
Lemma sound_steady : steady sound.
Proof.
  constructor.
  - intros s a Ha [? ? ? ?]. constructor; try done. by rewrite <- Ha in *.
  - intros s p [? ? ? ?]. by constructor.
  - intros s r _ [? ? ? ?]. by constructor.
  - intros s n [? ? ? ?]. by constructor.
  - intros s c Hc [? ? ? ?]. constructor; try done. by apply (sy_log alive alive_steady).
  - intros s o _ [? ? ? ?]. constructor; try done. by apply perform_ok.
Qed.
Lemma sound_invariant : live_invariant (fun _ => True) sound.
Proof.
  constructor.
  - apply sound_steady.
  - apply sd_alive.
  - intros s m Hm [? ? ? ?]. constructor; try done. by apply Hm.
  - intros s c [? ? ? ?]. by constructor.
  - intros s o [? ? ? ?]. by constructor.
  - intros s a _ [? ? ? ?]. by constructor.
  - intros A C s m r so _ [? ? ? ?] _. by constructor.
  - intros s g Hg [? ? ? ?]. constructor; try done. by apply Hg.
  - intros e s so r s' _ _ [H1 H2 H3 H4] _ _ Ha. destruct (acceptEvent_takes _ _ _ _ Ha) as [[-> _]|[_ (c & E & Hc) _]]; [by constructor|].
    rewrite E. destruct H1 as (F1 & F2 & F3). constructor; cbn in *; [split_and!; [exact F1|exact F2|cbn; congruence]|by eapply activeOnly_ok|done|done].
  - intros s s' [H1 H2 H3 H4] Ha Hn Hp. constructor; [done|rewrite (nh_signals s' Hn); apply no_signals_ok|by rewrite (nh_agent s' Hn)|].
    rewrite Hp. by apply (perform_ok room role OClearAuthority).
Qed.
End Sound.

Section SoundTheorem.
Context `{Schemas}.

(** C38. What a session holds is of its room, valid and bounded, whatever the server, the
    gateway and the user do, in whatever order, until the session ends: at most 500
    acknowledgements, 100 rejections and 500 states of media, these only of media of
    messages that stand; projections of the surfaces of the session's role, of its room
    and in order with their contract; an agent's status that is valid and dated by its
    clocks. *)
Theorem session_is_sound `{ContractText} clientId o s0 ins :
  createHydrated clientId o = Ok s0 ->
  let s := hydrates s0 ins in
  ended s \/
  signals_ok (hs_ledger s) (hs_signals s) /\ agent_ok (ga_memory (hs_agent s))
  /\ (forall k f, Projections.current k (hs_projections s) = Some f -> frame_ok (rd_roomId (ho_room o)) (roleOf (ho_session o)) k f)
  /\ (forall k sl, assoc (name k) (ps_slots (hs_projections s)) = Some sl -> slot_ok (rd_roomId (ho_room o)) (roleOf (ho_session o)) k sl).
Proof.
  intros Hc s. destruct (kept_reachable (fun _ => True) (sound (rd_roomId (ho_room o)) (roleOf (ho_session o))) ins) with (s := s0)
    as [[_ H1 H2 [_ _ H3 H4 _]]|He]; [apply sound_invariant| | |right; by split_and!|by left].
  - apply Forall_forall. intros. apply brings_anything.
  - left. revert Hc. apply created_inv; [apply sound_steady|]. intros m d l Hl Hm. constructor; [done|apply no_signals_ok| |].
    + cbn. destruct Hm as [->|(c & Hm)]; [done|]. unfold mergeAgentCurrent in Hm. destruct (negb _); [done|].
      destruct (parseServerFrame _) as [[]|]; try done. destruct (mergeAgentFrame _ _ _ _ _) as [[b m1]|] eqn:E; [|done].
      cbn in Hm. injection Hm as <-. eapply merge_agent_ok; [|exact E]. done.
    + by apply (fresh_ok (rd_roomId (ho_room o)) (roleOf (ho_session o)) (newProjectionSync (rd_roomId (ho_room o)) (roleOf (ho_session o)))).
Qed.
End SoundTheorem.

(** ** The ledger is a prefix of the room *)

Section Prefix.
Context `{Schemas} (r : string) (E : list RoomEventEnvelope) (Hh : room_history r E)
  (Hlen : Z.of_nat (length E) <= MAX_SAFE_INTEGER).

(** The first [n] events, at which the three cursors are. *)
Definition prefix_ledger (n : nat) (room : option string) : EventLedger :=
  MkLedger (map (fun e => (eventId e, e)) (take n E)) (messagesOf (take n E)) (Z.of_nat n) room.
Record at_prefix (n : nat) (s : hydrated) : Prop := {
  ap_length : (n <= length E)%nat;
  ap_ledger : exists room, hs_ledger s = prefix_ledger n room /\ (room = None \/ room = Some r);
  ap_socket : rs_lastRoomSeq (hs_socket s) = Z.of_nat n;
  ap_state : st_lastRoomSeq (hs_state s) = Z.of_nat n;
  ap_room : hs_room s <> None -> rs_roomId (hs_socket s) = r;
}.
Definition follows (s : hydrated) : Prop := alive s /\ exists n, at_prefix n s.

Lemma append_prefix n room e : (n <= length E)%nat -> E !! n = Some e -> room = None \/ room = Some r ->
  append (envelopeJson e) (prefix_ledger n room) = Ok (appended, prefix_ledger (S n) room).
Proof.
  intros Hn He Hroom.
  assert (append (envelopeJson e) (prefix_ledger n (Some r)) = Ok (appended, prefix_ledger (S n) (Some r))) as Hs.
  { destruct (delivered_prefix r E n n e _ Hh Hn He eq_refl) as [Hd Ha]. rewrite decide_True in Hd by done. rewrite decide_True in Ha by done.
    etransitivity; [exact Ha|]. by rewrite Hd. }
  destruct Hroom as [->| ->]; [|exact Hs]. revert Hs. unfold append.
  destruct (parseServerFrame _) as [[]|]; try done. cbn [prefix_ledger el_roomId el_events el_lastSeq el_messages].
  destruct (negb (bool_decide (roomId event = r))); [done|]. destruct (map_has _ _); [done|]. destruct (_ <=? _); [done|].
  destruct (negb _); [done|]. intros [= H1 H2 H3]. unfold prefix_ledger. by rewrite H1, H2, H3.
Qed.
Lemma follows_steady : steady follows.
Proof.
  constructor.
  - intros s a Ha [H1 (n & [? ? ? ? ?])]. split; [by apply (sy_agent alive alive_steady)|]. by exists n.
  - intros s p [H1 (n & [? ? ? ? ?])]. split; [by apply (sy_panels alive alive_steady)|]. by exists n.
  - intros s c Hc [H1 (n & [? ? ? ? ?])]. split; [by apply (sy_recovery alive alive_steady)|]. by exists n.
  - intros s k [H1 (n & [? ? ? ? ?])]. split; [by apply (sy_next alive alive_steady)|]. by exists n.
  - intros s c Hc [H1 (n & [? ? ? ? ?])]. split; [by apply (sy_log alive alive_steady)|]. by exists n.
  - intros s o Ho [H1 (n & [? ? ? ? ?])]. split; [by apply (sy_projections alive alive_steady)|]. by exists n.
Qed.
(** An ordinary operation of the socket leaves its cursor. *)
Lemma ordinary_cursor {A} C (m : M room_socket socket_error A) s x so n :
  ordinary C m -> rs_lastRoomSeq s = Z.of_nat n -> (n <= length E)%nat -> m (with_log [] s) = (x, so) ->
  rs_lastRoomSeq so = Z.of_nat n /\ rs_roomId so = rs_roomId s.
Proof.
  intros Hm Hs Hn Hr. pose proof (or_silent C m Hm (with_log [] s) x so eq_refl Hr) as Hsink. unfold nosink in Hsink.
  assert (cursor_ok (rs_roomId s) (rs_storageKey s) (Z.of_nat n) (with_log [] s)) as Hc.
  { constructor; cbn; try done; [exists O; cbn; split_and!; [done|lia|done]|lia]. }
  destruct (or_cursor C m Hm _ _ _ _ _ _ Hc Hr) as [H1 _ _ (k & Hk & Hl & _) _]. rewrite Hsink in Hk. destruct k; [split; [lia|done]|done].
Qed.
(** The socket is handed the next event. *)
Lemma socket_takes n e so : E !! n = Some e -> roomId e = rs_roomId so -> rs_lastRoomSeq so = Z.of_nat n ->
  RoomSocket.acceptEvent e (with_log [] so) =
    (Ok tt, add_log (Sink e) (set_cursor (Z.of_nat (S n)) (map_set (rs_storageKey so) (dec_string (Z.of_nat (S n))) (rs_storage so)) (with_log [] so))).
Proof.
  intros He Hr Hn. pose proof (history_nth r E n e Hh He) as Hseq. pose proof (lookup_lt_Some _ _ _ He).
  assert (roomSeq e = Z.of_nat (S n)) as Hs by lia. unfold RoomSocket.acceptEvent. erewrite bind_run by reflexivity. cbn -[map_set Z.of_nat].
  rewrite Hs, Hn, (bool_decide_true (roomId e = _)) by done. rewrite (proj2 (Z.leb_gt _ _)) by lia. cbn -[map_set Z.of_nat].
  rewrite bool_decide_true by lia. cbn -[map_set Z.of_nat]. unfold acceptCursor. erewrite bind_run; [reflexivity|].
  erewrite bind_run by reflexivity. cbn -[map_set Z.of_nat]. rewrite bool_decide_true by (unfold MAX_SAFE_INTEGER in *; lia).
  by rewrite (proj2 (Z.ltb_ge _ _)) by lia.
Qed.
Lemma follows_event e s so x s' : e ∈ E -> follows s -> RoomSocket.acceptEvent e (with_log [] (hs_socket s)) = (Ok tt, so) ->
  rs_log so = [Sink e] -> acceptEvent e (add_output (set_roomSocket s (with_log [] so)) (Sink e)) = (x, s') -> follows s'.
Proof.
  intros He [Ha (n & [Hn (room & Hl & Hroom) Hs Hst Hrm])] Hso Hlog Hr.
  destruct (acceptEvent_cases e (with_log [] (hs_socket s)) (Ok tt) so eq_refl Hso) as [_ [->|[(a & b & ->)|(_ & Hid & Hseq)]]]; [done..|]. cbn in Hseq, Hid.
  apply list_elem_of_lookup in He as [k Hk]. pose proof (history_nth r E k e Hh Hk) as Hek.
  assert (k = n) as -> by lia. pose proof (lookup_lt_Some _ _ _ Hk) as Hlt.
  rewrite (socket_takes n e _ Hk Hid Hs) in Hso. injection Hso as Hso.
  pose proof (append_prefix n room e Hn Hk Hroom) as Happ. destruct (acceptEvent_takes _ _ _ _ Hr) as [[-> Herr]|[T1 (c & T2 & T3) T4]].
  - exfalso. destruct Herr as [_ Herr]. apply (Herr (prefix_ledger (S n) room)). cbn. by rewrite Hl.
  - cbn in T1, T4. rewrite Hl, Happ in T1. injection T1 as T1. destruct Ha as (A1 & A2 & A3). split.
    + rewrite T2. split_and!; [exact A1|exact A2|]. cbn in *. congruence.
    + exists (S n). constructor; [lia|exists room; by rewrite <- T1|rewrite T2; by rewrite <- Hso|..].
      * rewrite T4, Hst. rewrite (proj2 (Z.leb_le _ _)) by lia. lia.
      * rewrite T2. cbn. rewrite <- Hso. exact Hrm.
Qed.
Lemma follows_invariant : live_invariant (fun e => e ∈ E) follows.
Proof.
  constructor.
  - apply follows_steady.
  - by intros s [].
  - intros s m _ [H1 (n & [? ? ? ? ?])]. split; [done|]. by exists n.
  - intros s c [H1 (n & [? ? ? ? ?])]. split; [done|]. by exists n.
  - intros s o [H1 (n & [? ? ? ? ?])]. split; [done|]. by exists n.
  - intros s a Ha [H1 (n & [? ? ? ? ?])]. split; [done|]. exists n. by destruct a.
  - intros A C s m x so Hm [H1 (n & [? ? ? ? ?])] Hr. split; [done|]. exists n.
    destruct (ordinary_cursor C m (hs_socket s) x so n) as [H2 H3]; [done..|].
    constructor; [done..|intros Hd; cbn; rewrite H3; auto].
  - intros s g _ [H1 (n & [? ? ? ? ?])]. split; [done|]. by exists n.
  - intros e s so x s' He _. by apply follows_event.
  - intros s s' _ H1 [Hl _ _ _ Hst [_ Hd] (_ & Hs & _) _] _. split; [done|]. exists O. constructor; [lia| |done|by rewrite Hst|by rewrite Hd].
    exists None. auto.
Qed.

(** *** Catching up *)

(** What taking an event leaves as it was. *)
Record beside (s s' : hydrated) : Prop := {
  be_recovery : hs_recovery s' = hs_recovery s;
  be_room : hs_room s' = hs_room s;
  be_socket : rs_roomId (hs_socket s') = rs_roomId (hs_socket s);
  be_pages : hs_pageLimit s' = hs_pageLimit s /\ hs_gateway s' = hs_gateway s;
}.
(** The event of an opening carries its times. *)
Definition timed (e : RoomEventEnvelope) : Prop := type e = "room.opened"%string ->
  exists a b, assoc "startsAt" (payload e) = Some (JStr a) /\ assoc "closesAt" (payload e) = Some (JStr b).
Lemma acceptEvent_succeeds e s l : timed e -> append (envelopeJson e) (hs_ledger s) = Ok (appended, l) ->
  exists s', acceptEvent e s = (Ok tt, s').
Proof.
  intros Ht Ha. unfold acceptEvent, ledgerAppend. unfold mbind at 1, M_bind at 1. rewrite Ha.
  do 3 erewrite bind_run by reflexivity.
  match goal with |- exists s', (?m ≫= _) ?s0 = _ => assert (exists s1, m s0 = (Ok tt, s1)) as [s1 E1] by (destruct (statusFromEvent _); by eexists) end.
  rewrite (bind_run _ _ _ _ _ E1). case_bool_decide as Ho; [|by eexists]. destruct (Ht Ho) as (a & b & -> & ->). by eexists.
Qed.
Lemma recoverPage_next now n e s : alive s -> at_prefix n s -> E !! n = Some e -> timed e -> rs_roomId (hs_socket s) = r ->
  exists s', socketFrame now (serverFrameJson (FEvent e)) s = (Ok tt, s') /\ alive s' /\ at_prefix (S n) s' /\ beside s s'.
Proof.
  intros Ha Hn He Ht Hr. assert (parseServerFrame (serverFrameJson (FEvent e)) = Ok (FEvent e)) as Hp by exact (proj1 (Forall_lookup _ _) (rh_parsed r E Hh) n e He).
  pose proof (proj1 (Forall_lookup _ _) (rh_room r E Hh) n e He) as Hroom. cbn in Hroom.
  pose proof (socket_takes n e (hs_socket s) He ltac:(by rewrite Hr) (ap_socket n s Hn)) as Hso.
  destruct (acceptEvent_succeeds e (add_output (set_roomSocket s (with_log [] (set_cursor (Z.of_nat (S n))
      (map_set (rs_storageKey (hs_socket s)) (dec_string (Z.of_nat (S n))) (rs_storage (hs_socket s))) (with_log [] (hs_socket s))))) (Sink e))
      (prefix_ledger (S n) (el_roomId (hs_ledger s))) Ht) as (s' & Hs').
  { destruct (ap_ledger n s Hn) as (room & Hl & Hroom'). cbn. rewrite Hl. apply append_prefix; [apply Hn|done|done]. }
  exists s'. split.
  { unfold socketFrame, socketDo, onSocket. erewrite bind_run by reflexivity. unfold onFrame. rewrite Hp, Hso. cbn [rs_log add_log set_cursor with_log app handleEach].
    erewrite bind_run by reflexivity. cbn [dispatch]. by rewrite (bind_run _ _ _ _ _ Hs'). }
  assert (follows s) as Hf by (split; [done|by exists n]).
  pose proof (follows_event e s _ _ s' (list_elem_of_lookup_2 _ _ _ He) Hf Hso eq_refl Hs') as [Ha' (m & Hm)].
  destruct (acceptEvent_takes _ _ _ _ Hs') as [[_ [[x Hx] _]]|[_ (c & E' & _) _]]; [done|].
  assert (m = S n) as ->.
  { pose proof (ap_socket m s' Hm) as Hc. rewrite E' in Hc. cbn in Hc. lia. }
  split_and!; [done|done|]. constructor; rewrite E'; done.
Qed.
Lemma beside_trans s1 s2 s3 : beside s1 s2 -> beside s2 s3 -> beside s1 s3.
Proof. intros [? ? ? [? ?]] [? ? ? [? ?]]. constructor; try congruence. split; congruence. Qed.
Lemma recoverPage_all now k : forall n s, alive s -> at_prefix n s -> Forall timed E -> rs_roomId (hs_socket s) = r ->
  (n + k <= length E)%nat ->
  exists s', recoverPage now (take k (drop n E)) (Z.of_nat n) s = (Ok (Z.of_nat (n + k)), s')
    /\ alive s' /\ at_prefix (n + k) s' /\ beside s s'.
Proof.
  induction k as [|k IH]; intros n s Ha Hn Ht Hr Hk.
  { exists s. rewrite Nat.add_0_r. split_and!; [done..|]. by constructor. }
  destruct (lookup_lt_is_Some_2 E n ltac:(lia)) as [e He]. rewrite (drop_S E e n He). cbn [take recoverPage].
  pose proof (history_nth r E n e Hh He) as Hseq. rewrite bool_decide_true by lia.
  destruct (recoverPage_next now n e s) as (s1 & E1 & Ha1 & Hn1 & Hb1); [done|done|done|by eapply Forall_lookup_1|done|].
  erewrite bind_run by reflexivity. rewrite (bind_run _ _ _ _ _ E1). erewrite bind_run by reflexivity.
  destruct (ap_ledger _ _ Hn1) as (room & Hl & _). rewrite Hl. cbn [el_lastSeq prefix_ledger].
  rewrite bool_decide_true by lia. erewrite bind_run by reflexivity. replace (roomSeq e) with (Z.of_nat (S n)) by lia.
  destruct (IH (S n) s1) as (s2 & E2 & Ha2 & Hn2 & Hb2); [done|done|done|by rewrite (be_socket s s1 Hb1)|lia|].
  exists s2. rewrite E2. replace (S n + k)%nat with (n + S k)%nat in * by lia. split_and!; [done|done|done|by eapply beside_trans].
Qed.

(** The pages of the room from the cursor [n] on, each after the first asked for with
    the [nextAfterSeq] of the one before. *)
Inductive pages_from : nat -> list RoomEventPage -> Prop :=
| last_page n : (n <= length E)%nat -> pages_from n [Page (drop n E) (Z.of_nat (length E)) None]
| more_pages n k ps : (0 < k)%nat -> (n + k <= length E)%nat -> pages_from (n + k) ps ->
    pages_from n (Page (take k (drop n E)) (Z.of_nat (n + k)) (Some (Z.of_nat (n + k))) :: ps).
Record recovering (id n p : nat) (s : hydrated) : Prop := {
  re_alive : alive s;
  re_prefix : at_prefix n s;
  re_room : exists d, hs_room s = Some d;
  re_current : rc_current (hs_recovery s) = Some (Recovery id (Z.of_nat n) p);
  re_required : rc_requiredThroughSeq (hs_recovery s) <= Z.of_nat (length E);
}.
Lemma alive_flags s : alive s -> hs_expired s = false /\ hs_roomUnavailable s = false.
Proof. by intros (? & ? & _). Qed.
Lemma pages_nonempty n ps : pages_from n ps -> (1 <= length ps)%nat.
Proof. intros []; cbn; lia. Qed.
Lemma recovering_all `{ContractText} now ps : forall id n p s, pages_from n ps -> Forall timed E -> (p + length ps <= 1000)%nat -> recovering id n p s ->
  let s' := hydrates s (map (fun page => (now, HPage (Ok page))) ps) in
  alive s' /\ at_prefix (length E) s' /\ rc_current (hs_recovery s') = None /\ settledAs id s' = Some true
  /\ rc_awaited (hs_recovery s') = rc_awaited (hs_recovery s).
Proof.
  induction ps as [|pg ps IH]; intros id n p s Hp Ht Hlp Hs; [inversion Hp|]. cbn [map]. unfold hydrates. cbn [foldl].
  fold (hydrates (hydrate s (now, HPage (Ok pg))) (map (fun page => (now, HPage (Ok page))) ps)).
  pose proof Hs as [Ha Hn (d & Hd) Hc Hq]. assert (rs_roomId (hs_socket s) = r) as Hr by (apply (ap_room n s Hn); by rewrite Hd). destruct (alive_flags s Ha) as [Hx Hu].
  inversion Hp as [n' Hle Hn' Hps|n' k ps' Hk0 Hk Hps Hn' Hps']; subst.
  - destruct (recoverPage_all now (length E - n) n s) as (s1 & E1 & Ha1 & Hn1 & Hb1); [done|done|done|done|lia|].
    rewrite take_ge in E1 by (rewrite length_drop; lia). replace (n + (length E - n))%nat with (length E) in * by lia.
    assert (recoverLoop now (Recovery id (Z.of_nat n) p) (Ok (Page (drop n E) (Z.of_nat (length E)) None)) s = (Ok None, s1)) as El.
    { unfold recoverLoop. do 2 erewrite bind_run by reflexivity. rewrite Hx, Hu. do 2 erewrite bind_run by reflexivity.
      cbn [pg_events rv_cursor]. rewrite (bind_run _ _ _ _ _ E1). cbn [pg_throughRoomSeq pg_nextAfterSeq]. rewrite bool_decide_true by done.
      do 2 erewrite bind_run by reflexivity. rewrite (be_recovery _ _ Hb1). rewrite (proj2 (Z.ltb_ge _ _)) by lia. by erewrite bind_run by reflexivity. }
    cbn [map]. unfold hydrates, hydrate. cbn [foldl fst snd handleInput]. unfold answerPage. erewrite bind_run by reflexivity. rewrite Hc.
    unfold attempt. erewrite bind_run by (by rewrite El). cbv beta iota. do 3 erewrite bind_run by reflexivity. cbn.
    split_and!; [done|by destruct Hn1|done| |by rewrite (be_recovery _ _ Hb1)]. unfold settledAs. cbn. by rewrite bool_decide_true.
  - destruct (recoverPage_all now k n s) as (s1 & E1 & Ha1 & Hn1 & Hb1); [done|done|done|done|lia|].
    pose proof (pages_nonempty _ _ Hps). cbn [length] in Hlp. set (next := Recovery id (Z.of_nat (n + k)) (S p)).
    assert (exists s2, recoverLoop now (Recovery id (Z.of_nat n) p) (Ok (Page (take k (drop n E)) (Z.of_nat (n + k)) (Some (Z.of_nat (n + k))))) s = (Ok (Some next), s2)
      /\ alive s2 /\ at_prefix (n + k) s2 /\ beside s1 s2) as (s2 & El & Ha2 & Hn2 & Hb2).
    { unfold recoverLoop. do 2 erewrite bind_run by reflexivity. rewrite Hx, Hu. do 2 erewrite bind_run by reflexivity.
      cbn [pg_events rv_cursor rv_pageNumber rv_id]. rewrite (bind_run _ _ _ _ _ E1). cbn [pg_throughRoomSeq pg_nextAfterSeq]. rewrite (bool_decide_true (Z.of_nat (n + k) = _)) by done.
      erewrite bind_run by reflexivity. rewrite (bool_decide_false (_ = [])) .
      2:{ intros Hnil%(f_equal length). rewrite length_take, length_drop in Hnil. cbn in Hnil. lia. }
      erewrite bind_run by reflexivity. rewrite bool_decide_false by lia. erewrite bind_run by reflexivity.
      erewrite bind_run by (unfold theRoom; erewrite bind_run by reflexivity; rewrite (be_room _ _ Hb1), Hd; reflexivity).
      do 2 erewrite bind_run by reflexivity. eexists. split_and!; [reflexivity|..].
      - apply (sy_log alive alive_steady); done.
      - by destruct Hn1.
      - by constructor. }
    unfold hydrate. cbn [fst snd handleInput]. unfold answerPage. erewrite bind_run by reflexivity. rewrite Hc.
    unfold attempt. erewrite bind_run by (by rewrite El). cbn [onRecovery modify snd].
    pose proof (beside_trans _ _ _ Hb1 Hb2) as [B1 B2 B3 _].
    replace (rc_awaited (hs_recovery s)) with (rc_awaited (hs_recovery (set_recovery s2 (set_current (Some next) (hs_recovery s2))))) by (cbn; by rewrite B1).
    apply (IH id (n + k)%nat (S p)); [done|done|lia|].
    constructor; [done|by destruct Hn2|exists d; cbn; congruence|done|cbn; by rewrite B1].
Qed.

Lemma fresh_prefix o clientId memory down limit : rd_roomId (ho_room o) = r -> at_prefix 0 (freshSession o clientId memory down limit).
Proof. intros Hr. constructor; [cbn; lia| |done|done|done]. exists (Some r). cbn. rewrite Hr. auto. Qed.
Lemma follows_reachable `{ContractText} clientId o s0 ins : rd_roomId (ho_room o) = r -> createHydrated clientId o = Ok s0 ->
  Forall (fun i => brings_ok (fun e => e ∈ E) (snd i)) ins -> kept follows (hydrates s0 ins).
Proof.
  intros Hr Hc Hi. apply (kept_reachable (fun e => e ∈ E)); [apply follows_invariant|done|]. left.
  revert Hc. apply created_inv; [apply follows_steady|]. intros m d l _ _. split; [done|]. exists O. by apply fresh_prefix.
Qed.
End Prefix.

(** ** The theorems *)

Section Theorems.
Context `{Schemas} `{ContractText}.

(** What a browser holds when it holds the first [n] events of the room. *)
Definition holds_first (E : list RoomEventEnvelope) (n : nat) (s : hydrated) : Prop :=
  map snd (el_events (hs_ledger s)) = take n E /\ el_messages (hs_ledger s) = messagesOf (take n E)
  /\ el_lastSeq (hs_ledger s) = Z.of_nat n /\ rs_lastRoomSeq (hs_socket s) = Z.of_nat n
  /\ st_lastRoomSeq (hs_state s) = Z.of_nat n.
Lemma at_prefix_holds r E n s : at_prefix r E n s -> holds_first E n s.
Proof. intros [_ (room & Hl & _) ? ? _]. unfold holds_first. rewrite Hl. cbn. by rewrite map_map, map_id. Qed.

(** C22. A browser follows its room. Whatever pages the gateway answers with, whatever
    frames the sockets bring and whatever else happens, in whatever order, as long as
    the events among it are events of the room - from anywhere in its history, repeated,
    late or early - the browser holds at every moment exactly the first [n] events of the
    room, its messages are those these events leave, and the cursors of its ledger, of
    its socket and of its state are all [n]; or its session has ended. *)
Theorem hydrated_follows_room r E clientId o s0 ins :
  room_history r E -> Z.of_nat (length E) <= MAX_SAFE_INTEGER -> rd_roomId (ho_room o) = r ->
  createHydrated clientId o = Ok s0 -> Forall (fun i => brings_ok (fun e => e ∈ E) (snd i)) ins ->
  let s := hydrates s0 ins in
  ended s \/ alive s /\ exists n, (n <= length E)%nat /\ holds_first E n s.
Proof.
  intros Hh Hl Hr Hc Hi s. destruct (follows_reachable r E Hh Hl clientId o s0 ins Hr Hc Hi) as [[Ha (n & Hn)]|He]; [right|by left].
  split; [done|]. exists n. split; [apply Hn|]. by eapply at_prefix_holds.
Qed.

(** C23. A recovery catches up. Whatever came before it, a recovery whose cursor is the
    ledger's - that of [create], and each that is begun later - ends, when the gateway
    answers it with the pages of the room that follow that cursor, at most 1,000 in all,
    with the whole room: every event, every message, all three cursors at the last
    event; its promise is fulfilled and the next recovery may begin. *)
Theorem recovery_catches_up r E clientId o s0 ins now rv ps :
  room_history r E -> Z.of_nat (length E) <= MAX_SAFE_INTEGER -> Forall timed E -> rd_roomId (ho_room o) = r ->
  createHydrated clientId o = Ok s0 -> Forall (fun i => brings_ok (fun e => e ∈ E) (snd i)) ins ->
  let s := hydrates s0 ins in
  hs_room s <> None -> rc_current (hs_recovery s) = Some rv -> rv_cursor rv = el_lastSeq (hs_ledger s) ->
  rc_requiredThroughSeq (hs_recovery s) <= Z.of_nat (length E) ->
  pages_from E (Z.to_nat (rv_cursor rv)) ps -> (rv_pageNumber rv + length ps <= 1000)%nat ->
  let s' := hydrates s (map (fun page => (now, HPage (Ok page))) ps) in
  alive s' /\ holds_first E (length E) s' /\ rc_current (hs_recovery s') = None
  /\ settledAs (rv_id rv) s' = Some true /\ rc_awaited (hs_recovery s') = rc_awaited (hs_recovery s).
Proof.
  intros Hh Hl Ht Hr Hc Hi s Hd Hrc Hcur Hq Hps Hlen.
  destruct (follows_reachable r E Hh Hl clientId o s0 ins Hr Hc Hi) as [[Ha (n & Hn)]|[_ _ []]]; [|by destruct nh_identity as [_ ?]].
  pose proof (at_prefix_holds _ _ _ _ Hn) as (_ & _ & Hn' & _). fold s in Ha, Hn, Hn'. rewrite Hcur, Hn', Nat2Z.id in Hps.
  destruct (recovering_all r E Hh Hl now ps (rv_id rv) n (rv_pageNumber rv) s) as (H1 & H2 & H3 & H4 & H5); [done|done|done| |].
  { constructor; [done|done|by destruct (hs_room s) as [d|]; [exists d|]| |done]. rewrite Hrc. destruct rv. cbn in *. congruence. }
  do 2 (split; [first [exact H1|by eapply at_prefix_holds]|]). by split_and!.
Qed.
End Theorems.

(** ** Witnesses *)

#[local] Existing Instance demoText.
Lemma demo_created : createHydrated demoClient demoOptions = Ok demoHydrated.
Proof. vm_compute. reflexivity. Qed.
Lemma demo_event_ok e : e ∈ demoHistory -> event_ok (fun e => e ∈ demoHistory) (serverFrameJson (FEvent e)).
Proof.
  intros [i Hi]%list_elem_of_lookup e' He'. assert (parseServerFrame (serverFrameJson (FEvent e)) = Ok (FEvent e)) as E.
  { apply (proj1 (Forall_lookup _ _) (rh_parsed demoRoom demoHistory demoHistory_ok) i e Hi). }
  rewrite E in He'. injection He' as <-. by eapply list_elem_of_lookup_2.
Qed.
Lemma demo_arrival_ok : Forall (fun i => brings_ok (fun e => e ∈ demoHistory) (snd i)) demoArrival.
Proof.
  unfold demoArrival. rewrite !Forall_cons. split_and!; [apply Forall_forall, demo_event_ok|exact Logic.I|exact Logic.I| |apply Forall_nil_2].
  intros e Hp. exfalso. revert Hp. vm_compute. discriminate.
Qed.

Lemma session_is_sound_witness :
  let s := hydrates demoHydrated demoArrival in
  ended s \/ signals_ok (hs_ledger s) (hs_signals s) /\ agent_ok (ga_memory (hs_agent s)).
Proof. cbv zeta. destruct (session_is_sound demoClient demoOptions demoHydrated demoArrival demo_created) as [He|(H1 & H2 & _)]; [left; exact He|right; split; [exact H1|exact H2]]. Defined.

Lemma hydrated_follows_room_witness :
  let s := hydrates demoHydrated demoArrival in
  ~ ended s /\ exists n, (n <= 2)%nat /\ holds_first demoHistory n s.
Proof.
  cbv zeta. assert (~ ended (hydrates demoHydrated demoArrival)) as Hn.
  { intros [He _ _]. revert He. vm_compute. discriminate. }
  split; [exact Hn|]. destruct (hydrated_follows_room demoRoom demoHistory demoClient demoOptions demoHydrated demoArrival
    demoHistory_ok ltac:(vm_compute; discriminate) eq_refl demo_created demo_arrival_ok) as [He|[_ H1]]; [destruct (Hn He)|exact H1].
Defined.

Lemma recovery_catches_up_witness :
  let s := hydrates demoHydrated [(0, HPage (Ok demoFirstPage))] in
  holds_first demoHistory 1 s /\ holds_first demoHistory 2 (hydrates s [(3, HPage (Ok demoSecondPage))]).
Proof.
  cbv zeta. split; [vm_compute; tauto|].
  assert (exists rv, rc_current (hs_recovery (hydrates demoHydrated [(0, HPage (Ok demoFirstPage))])) = Some rv
    /\ rv_cursor rv = 1 /\ rv_pageNumber rv = 1%nat) as (rv & Hrv & Hcur & Hp) by (eexists; vm_compute; split_and!; reflexivity).
  destruct (recovery_catches_up demoRoom demoHistory demoClient demoOptions demoHydrated [(0, HPage (Ok demoFirstPage))] 3 rv [demoSecondPage]
    demoHistory_ok ltac:(vm_compute; discriminate)) as (_ & H1 & _); [|done|apply demo_created| |by vm_compute|done| | | | |exact H1].
  - repeat constructor; intros Ho; discriminate Ho.
  - constructor; [|apply Forall_nil_2]. constructor; [|apply Forall_nil_2]. apply demo_event_ok. by left.
  - rewrite Hcur. vm_compute. reflexivity.
  - vm_compute. discriminate.
  - rewrite Hcur. apply last_page. cbn. lia.
  - rewrite Hp. cbn. lia.
Defined.
