(* ===== verification/JsNumber.v ===== *)
(** * Numbers read from texts: [Number(text)] where a safe integer is wanted

    The numeric literals of ECMAScript with their white space, and the rounding to the
    nearest double, as far as it decides whether a safe integer comes out. *)
From S2P Require Import Prelude Text SeatCodes.
#[local] Set Warnings "-register-all,-clear-no-such-hyp,-level-tolerance".

(** ** The nearest double of a fraction *)

(** The nearest integer, ties to even. *)
Definition roundHalfEven (n d : Z) : Z :=
  let q := n / d in
  let r := n mod d in
  if 2 * r <? d then q else if d <? 2 * r then q + 1 else if Z.even q then q else q + 1.
(** The safe integer that the double nearest to [n / d] is, for [0 <= n] and [0 < d]: the
    doubles around [n / d] have 53 bits, below one half they are no integers until they
    underflow to zero. *)
Definition nearestInteger (n d : Z) : option Z :=
  if (n =? 0) || (n * 2 ^ 1075 <=? d) then Some 0 else
  let q := n / d in
  if MAX_SAFE_INTEGER <? q then None else
  let bits := if q =? 0 then 53 else 52 - Z.log2 q in
  let m := roundHalfEven (n * 2 ^ bits) d in
  let z := m / 2 ^ bits in
  if (m mod 2 ^ bits =? 0) && (1 <=? z) && (z <=? MAX_SAFE_INTEGER) then Some z else None.

(** ** Literals *)

Fixpoint takeWhile (p : ascii -> bool) (l : list ascii) : list ascii * list ascii :=
  match l with
  | c :: l' => if p c then let '(a, b) := takeWhile p l' in (c :: a, b) else ([], l)
  | [] => ([], [])
  end.
Definition digitsValue (radix : Z) (value : ascii -> Z) (l : list ascii) : Z :=
  fold_left (fun v c => radix * v + value c) l 0.
Definition decValue : list ascii -> Z := digitsValue 10 char_digit.
Definition hexDigitValue (c : ascii) : Z :=
  if is_digit c then char_digit c else if between "a" "f" c then code c - 87 else code c - 55.
(** An exponent: nothing, or [e] with an optional sign and digits. *)
Definition exponentOf (l : list ascii) : option Z :=
  match l with
  | [] => Some 0
  | c :: l' =>
      if one_of ["e"; "E"]%char c then
        let '(sign, ds) := match l' with
          | "+"%char :: r => (1, r)
          | "-"%char :: r => (-1, r)
          | _ => (1, l')
          end in
        match ds with
        | [] => None
        | _ => if forallb is_digit ds then Some (sign * decValue ds) else None
        end
      else None
  end.
(** A decimal literal without its sign: the fraction it stands for. *)
Definition decimalOf (l : list ascii) : option (Z * Z) :=
  let '(whole, r) := takeWhile is_digit l in
  let '(fraction, r') := match r with
    | "."%char :: r1 => takeWhile is_digit r1
    | _ => ([], r)
    end in
  match whole ++ fraction with
  | [] => None
  | ds =>
      e ← exponentOf r';
      let k := e - Z.of_nat (length fraction) in
      Some (if 0 <=? k then (decValue ds * 10 ^ k, 1) else (decValue ds, 10 ^ (- k)))
  end.
(** The digits after [0x], [0o] or [0b]. *)
Definition radixOf (l : list ascii) : option (option Z) :=
  let digits (p : ascii -> bool) radix ds := Some
    (match ds with [] => None | _ => if forallb p ds then Some (digitsValue radix hexDigitValue ds) else None end) in
  match l with
  | "0"%char :: c :: ds =>
      if one_of ["x"; "X"]%char c then digits is_hex 16 ds
      else if one_of ["o"; "O"]%char c then digits (between "0" "7") 8 ds
      else if one_of ["b"; "B"]%char c then digits (between "0" "1") 2 ds
      else None
  | _ => None
  end.
(** The safe integer that [Number(text)] is, if [Number.isSafeInteger(Number(text))]. *)
Definition safeNumber (text : string) : option Z :=
  let l := list_ascii_of_string (js_trim text) in
  match l with
  | [] => Some 0
  | _ =>
      match radixOf l with
      | Some v => z ← v; if z <=? MAX_SAFE_INTEGER then Some z else None
      | None =>
          let '(sign, ds) := match l with
            | "+"%char :: r => (1, r)
            | "-"%char :: r => (-1, r)
            | _ => (1, l)
            end in
          '(n, d) ← decimalOf ds;
          Z.mul sign <$> nearestInteger n d
      end
  end.

Example safeNumber_samples :
  map safeNumber [""; " 12 "; "0x1F"; "-0"; "1e2"; "2.50e1"; "1.5"; "abc"; "9007199254740992"; "4.9999999999999999999";
                  "0.99999999999999999999"; "1e-400"; "0.3"; "."; "Infinity"; "1e"; "0b101"; "-5"]
  = [Some 0; Some 12; Some 31; Some 0; Some 100; Some 25; None; None; None; Some 5; Some 1; Some 0; None; None; None;
     None; Some 5; Some (-5)].
Proof. vm_compute. done. Qed.

(** ** Decimal numerals are read back *)

Lemma digit_facts : forallb (fun d => let c := digit_char d in
  is_digit c && negb (existsb (begins c) js_spaces) && negb (existsb (begins c) (map (@rev ascii) js_spaces))
  && (char_digit c =? d)) [0; 1; 2; 3; 4; 5; 6; 7; 8; 9] = true.
Proof. vm_compute. done. Qed.
Lemma digit_ok d : is_dec_digit d ->
  is_digit (digit_char d) = true /\ existsb (begins (digit_char d)) js_spaces = false
  /\ existsb (begins (digit_char d)) (map (@rev ascii) js_spaces) = false /\ char_digit (digit_char d) = d.
Proof.
  intros [Hlo Hhi]. pose proof digit_facts as Hall. rewrite forallb_forall in Hall.
  assert (In d [0; 1; 2; 3; 4; 5; 6; 7; 8; 9]) as Hd by (simpl; lia).
  specialize (Hall _ Hd). cbv zeta in Hall. split_bools. by rewrite Z.eqb_eq in *.
Qed.
Lemma trim_digits ds : Forall is_dec_digit ds ->
  js_trim (string_of_list_ascii (digit_char <$> ds)) = string_of_list_ascii (digit_char <$> ds).
Proof.
  intros Hds. unfold js_trim. rewrite list_ascii_of_string_of_list_ascii.
  rewrite (strip_spaces_stuck _ js_spaces), (strip_spaces_stuck _ (map (@rev ascii) js_spaces)), rev_involutive; [done| |].
  - destruct (rev (digit_char <$> ds)) as [|c l] eqn:E; [by vm_compute|].
    assert (c ∈ (digit_char <$> ds)) as (d & -> & Hd)%list_elem_of_fmap.
    { apply list_elem_of_In, in_rev. rewrite E. by left. }
    rewrite Forall_forall in Hds. by apply digit_ok, Hds.
  - destruct ds as [|d ds]; [by vm_compute|]. apply Forall_cons in Hds as [Hd _]. by apply digit_ok.
Qed.
Lemma takeWhile_digits ds : Forall is_dec_digit ds ->
  takeWhile is_digit (digit_char <$> ds) = (digit_char <$> ds, []).
Proof.
  induction 1 as [|d ds Hd _ IH]; [done|]. rewrite fmap_cons. cbn [takeWhile]. destruct (digit_ok d Hd) as (-> & _).
  by rewrite IH.
Qed.
Lemma decValue_digits ds : Forall is_dec_digit ds -> decValue (digit_char <$> ds) = dec_value ds.
Proof.
  intros Hds. unfold decValue, digitsValue, dec_value. generalize 0 as v.
  induction Hds as [|d ds Hd _ IH]; intros v; [done|]. simpl. rewrite IH. by destruct (digit_ok d Hd) as (_ & _ & _ & ->).
Qed.
Lemma nearestInteger_exact n : 0 <= n <= MAX_SAFE_INTEGER -> nearestInteger n 1 = Some n.
Proof.
  intros Hn. unfold nearestInteger. destruct (Z.eqb_spec n 0) as [->|Hn0]; [done|]. cbn [orb].
  replace (n * 2 ^ 1075 <=? 1) with false by (symmetry; apply Z.leb_gt; nia).
  rewrite Z.div_1_r. cbv zeta. replace (MAX_SAFE_INTEGER <? n) with false by (symmetry; apply Z.ltb_ge; lia).
  rewrite (proj2 (Z.eqb_neq n 0)) by done.
  assert (0 <= 52 - Z.log2 n) as Hb.
  { assert (Z.log2 n < 53) as H53 by (apply Z.log2_lt_pow2; unfold MAX_SAFE_INTEGER in Hn; lia). lia. }
  set (b := 52 - Z.log2 n) in *. assert (0 < 2 ^ b) as Hp by (apply Z.pow_pos_nonneg; lia).
  unfold roundHalfEven. rewrite Z.div_1_r, Z.mod_1_r. change (2 * 0 <? 1) with true. cbv iota.
  rewrite Z.mod_mul, Z.div_mul by lia. rewrite !(proj2 (Z.leb_le _ _)) by lia. done.
Qed.

Lemma decimalOf_digits ds : Forall is_dec_digit ds -> ds <> [] -> decimalOf (digit_char <$> ds) = Some (dec_value ds, 1).
Proof.
  intros Hds Hne. unfold decimalOf. rewrite takeWhile_digits by done. rewrite app_nil_r.
  destruct (digit_char <$> ds) eqn:E; [by apply fmap_nil_inv in E|]. rewrite <- E. simpl.
  by rewrite decValue_digits, Z.mul_1_r by done.
Qed.
(** A numeral that is not [0] has no leading zero: it is no literal with a radix. *)
Lemma radixOf_digits d ds : Forall is_dec_digit (d :: ds) -> (d = 0 -> ds = []) -> radixOf (digit_char <$> d :: ds) = None.
Proof.
  intros [Hd Hds]%Forall_cons Hz. pose proof (digit_ok d Hd) as (_ & _ & _ & Hv). simpl in *.
  destruct (digit_char d) as [[] [] [] [] [] [] [] []] eqn:Ec; try done. by rewrite Hz by (by rewrite <- Hv).
Qed.

(** [Number(String(n))]. *)
Lemma safeNumber_dec n : 0 <= n <= MAX_SAFE_INTEGER -> safeNumber (dec_string n) = Some n.
Proof.
  intros Hn. destruct (dec_digits_spec n) as (Hv & Hall & d & ds & Hds & Hz); [lia|].
  unfold safeNumber, dec_string. rewrite trim_digits, list_ascii_of_string_of_list_ascii by done. rewrite Hds in *.
  rewrite radixOf_digits by naive_solver. pose proof (decimalOf_digits _ Hall ltac:(done)) as Hdec. rewrite Hv in Hdec.
  apply Forall_cons in Hall as [Hd _]. pose proof (proj1 (digit_ok d Hd)) as Hdig. simpl in Hdec |- *.
  assert (nearestInteger n 1 = Some n) as Hnear by by apply nearestInteger_exact.
  destruct (digit_char d) as [[] [] [] [] [] [] [] []]; try done; rewrite Hdec; cbn; by rewrite Hnear; cbn; rewrite Z.mul_1_l.
Qed.
