(* ===== verification/Exports.v ===== *)
(** * The export of a room: its contract and its table

    [packages/contracts/src/room-export.ts] with [schemas/teacher-room-export.v1.json]: the
    document a teacher is given of a room, and what it must satisfy. The table in which it
    can be written: [csv] of [apps/server/src/modules/governance/governance-service.ts] and
    the reader [parseCsvRecords] of [apps/web/src/lib/session/session-gateway.ts], which
    reads back what was written.

    A projection of the document has the type of [Echo] or [Trace]; the other values are
    trees. A text is its UTF-8 bytes: the separators are ASCII, so reading bytes and
    reading code units is the same. *)
From S2P Require Import Prelude Text JsDate JsValue Contracts Database Frames Echo Trace.
#[local] Set Warnings "-register-all,-clear-no-such-hyp,-level-tolerance".

(** The validators that the schema compiler makes, by the name of their definition, where
    their schema is not written out here. *)
Class Ajv : Type := { accepts : string -> json -> bool }.
(** [String.prototype.localeCompare]. *)
Class Locale : Type := { localeCompare : string -> string -> Z }.

(** ** The document *)

Inductive export_projection : Type := XEcho (s : ConceptMapSnapshot) | XTrace (b : SnaProjectionBundle).
Record TeacherRoomExport : Type := MkExportDocument {
  xd_roomId : string;
  xd_throughRoomSeq : Z;
  xd_events : list json;
  xd_artifacts : list json;
  xd_projections : list export_projection;
  xd_artifactSources : list json;
  xd_projectionSources : list json;
}.
Definition projectionKeyOf (p : export_projection) : ProjectionKey :=
  match p with XEcho s => cs_projectionKey s | XTrace b => sn_projectionKey b end.
Definition projectionRoom (p : export_projection) : string :=
  match p with XEcho s => cs_roomId s | XTrace b => sn_roomId b end.
Definition projectionThrough (p : export_projection) : Z :=
  match p with XEcho s => cs_completeThroughRoomSeq s | XTrace b => sn_completeThroughRoomSeq b end.

(** ** The schema *)

Definition integerBetween (lo hi : Z) : validator := fun j =>
  match j with JNum (NInt z) => (lo <=? z) && (z <=? hi) | JNum NNegZero => (lo <=? 0) && (0 <=? hi) | _ => false end.
Definition integerFrom (lo : Z) : validator := fun j => match j with JNum (NInt z) => lo <=? z | _ => false end.
Definition enumOf (l : list string) : validator := stringWhere (fun s => bool_decide (s ∈ l)).
Definition lengthBetween (lo hi : Z) : validator := stringWhere (textBetween lo hi).
Definition MODALITIES : list string := ["text"; "audio"; "image"]%string.
Definition DERIVATIONS : list string := ["direct"; "asr"; "ocr"; "image_description"; "human_correction"]%string.
Definition textIn (k : string) (j : json) : option string := field k j ≫= asStr.
Definition intIn (k : string) (j : json) : option Z :=
  match field k j with Some (JNum (NInt z)) => Some z | Some (JNum NNegZero) => Some 0 | _ => None end.

Section Schema.
Context `{Schemas}.
Definition artifactIds : list (string * validator) :=
  [("artifactId", uuidSchema); ("lineageId", uuidSchema); ("roomId", uuidSchema); ("eventId", uuidSchema);
   ("roomSeq", integerBetween 1 10000); ("sourceModality", enumOf MODALITIES); ("derivation", enumOf DERIVATIONS)]%string.
(** [TeacherExportArtifact]. *)
Definition artifactSchema : validator :=
  closedObject (artifactIds ++
    [("text", lengthBetween 1 20000); ("languageTag", lengthBetween 2 35);
     ("reviewStatus", enumOf ["approved"; "corrected"]); ("createdAt", dateSchema)]%string) [].
(** [ArtifactProvenance]. *)
Definition isNull (j : option json) : bool := match j with Some JNull => true | _ => false end.
Definition artifactSourceSchema : validator := fun j =>
  closedObject (artifactIds ++
    [("sourceMediaId", stringOrNull format_uuid); ("supersedesArtifactId", stringOrNull format_uuid)]%string) [] j
  && (negb (bool_decide (textIn "derivation" j = Some "direct"%string))
      || bool_decide (textIn "sourceModality" j = Some "text"%string) && isNull (field "sourceMediaId" j))
  && (negb (bool_decide (textIn "derivation" j = Some "human_correction"%string))
      || match textIn "supersedesArtifactId" j with Some s => format_uuid s | None => false end).
(** [ProjectionProvenance]. *)
Definition projectionSourceSchema : validator :=
  closedObject
    [("projectionKey", enumOf ["echo.teacher_shadow"; "trace.teacher_bundle"]); ("roomId", uuidSchema);
     ("analysisEpoch", uuidSchema); ("algorithmVersion", lengthBetween 1 160); ("projectionVersion", integerFrom 1);
     ("completeThroughRoomSeq", integerBetween 0 10000); ("watermarkEventTime", dateSchema)]%string [].
Definition projectionSchema (p : export_projection) : bool :=
  match p with
  | XEcho s => bool_decide (cs_projectionKey s = echo_teacher_shadow) && snapshotSchema s
  | XTrace b => bool_decide (sn_projectionKey b = trace_teacher_bundle) && traceSchema b
  end.
Definition exportSchema (x : TeacherRoomExport) : bool :=
  format_uuid (xd_roomId x) && (0 <=? xd_throughRoomSeq x) && (xd_throughRoomSeq x <=? 10000)
  && (length (xd_events x) <=? Z.to_nat 10000)%nat && forallb (fun e => bool_decide (is_Some (parseRoomEventEnvelope e))) (xd_events x)
  && (length (xd_artifacts x) <=? Z.to_nat 10000)%nat && forallb artifactSchema (xd_artifacts x)
  && (length (xd_projections x) <=? 2)%nat && forallb projectionSchema (xd_projections x)
  && (length (xd_artifactSources x) <=? Z.to_nat 10000)%nat && forallb artifactSourceSchema (xd_artifactSources x)
  && (length (xd_projectionSources x) <=? 2)%nat && forallb projectionSourceSchema (xd_projectionSources x).
End Schema.

(** ** What else it must satisfy: [assertSemantics] *)

Section Semantics.
Context `{Schemas} `{Locale}.

(** [assertKnownEvent]. *)
Definition noticePayload (kind : string) : validator := closedObject [("changeKind"%string, enumOf [kind])] [].
Definition assertKnownEvent (candidate : json) : option RoomEventEnvelope :=
  e ← parseRoomEventEnvelope candidate;
  match parseCoreRoomEvent candidate with
  | Err _ => None
  | Ok (Some _) => Some e
  | Ok None =>
      let payload := JObj (payload e) in
      if bool_decide (type e = "analytics.review.recorded.v1"%string) && noticePayload "review" payload then Some e
      else if bool_decide (type e = "analytics.correction.recorded.v1"%string) && noticePayload "correction" payload then Some e
      else None
  end.
(** The loop over the events: those before, and what is left. *)
Fixpoint assertEvents (roomId : string) (seq : Z) (before : list RoomEventEnvelope) (l : list json)
    : option (list RoomEventEnvelope) :=
  match l with
  | [] => Some before
  | candidate :: l' =>
      event ← assertKnownEvent candidate;
      if negb (bool_decide (Contracts.roomId event = roomId)) || negb (roomSeq event =? seq)
         || bool_decide (eventId event ∈ map eventId before)
      then None else assertEvents roomId (seq + 1) (before ++ [event]) l'
  end.
(** A table of sources by a key that is theirs alone, of this room and within its events. *)
Fixpoint assertSources (key seq : string) (roomId : string) (through : Z) (seen : list (string * json)) (l : list json)
    : option (list (string * json)) :=
  match l with
  | [] => Some seen
  | source :: l' =>
      match textIn key source, intIn seq source with
      | Some k, Some n =>
          if bool_decide (k ∈ map fst seen) || negb (bool_decide (textIn "roomId" source = Some roomId)) || (through <? n)
          then None else assertSources key seq roomId through (seen ++ [(k, source)]) l'
      | _, _ => None
      end
  end.
(** [assertArtifactSource], [assertProjectionSource]: the fields both have are the same. *)
Definition ARTIFACT_FIELDS : list string :=
  ["artifactId"; "lineageId"; "roomId"; "eventId"; "roomSeq"; "sourceModality"; "derivation"]%string.
Definition assertArtifactSource (artifact : json) (source : option json) : bool :=
  match source with
  | Some s => forallb (fun k => bool_decide (field k s = field k artifact)) ARTIFACT_FIELDS
  | None => false
  end.
Definition projectionFields (p : export_projection) : list (string * json) :=
  let fields k r e a v c w :=
    [("projectionKey", JStr (projectionKeyText k)); ("roomId", JStr r); ("analysisEpoch", JStr e); ("algorithmVersion", JStr a);
     ("projectionVersion", JNum (NInt v)); ("completeThroughRoomSeq", JNum (NInt c)); ("watermarkEventTime", JStr w)]%string in
  match p with
  | XEcho s => fields (cs_projectionKey s) (cs_roomId s) (cs_analysisEpoch s) (cs_algorithmVersion s) (cs_projectionVersion s)
                 (cs_completeThroughRoomSeq s) (cs_watermarkEventTime s)
  | XTrace b => fields (sn_projectionKey b) (sn_roomId b) (sn_analysisEpoch b) (sn_algorithmVersion b) (sn_projectionVersion b)
                  (sn_completeThroughRoomSeq b) (sn_watermarkEventTime b)
  end.
Definition assertProjectionSource (p : export_projection) (source : option json) : bool :=
  match source with
  | Some s => forallb (fun f => bool_decide (field (fst f) s = Some (snd f))) (projectionFields p)
  | None => false
  end.
(** The loop over the artifacts, in the order of the events they come from. *)
Definition sourceEventOk (derivation : string) (event : RoomEventEnvelope) : bool :=
  if bool_decide (derivation = "human_correction"%string)
  then bool_decide (type event = "analytics.correction.recorded.v1"%string)
  else bool_decide (type event ∈ ["message.added"; "message.revised"]%string).
Definition afterArtifact (previous : option (Z * string)) (seq : Z) (id : string) : bool :=
  match previous with
  | None => true
  | Some (seq', id') => (seq' <? seq) || ((seq =? seq') && (0 <? localeCompare id id'))
  end.
Fixpoint assertArtifacts (roomId : string) (through : Z) (events : list RoomEventEnvelope) (sources : list (string * json))
    (seen : list string) (previous : option (Z * string)) (l : list json) : bool :=
  match l with
  | [] => true
  | a :: l' =>
      match textIn "artifactId" a, intIn "roomSeq" a, textIn "derivation" a,
            find (fun e => bool_decide (Some (eventId e) = textIn "eventId" a)) events with
      | Some id, Some seq, Some derivation, Some event =>
          negb (bool_decide (id ∈ seen)) && bool_decide (textIn "roomId" a = Some roomId) && (seq <=? through)
          && (roomSeq event =? seq) && sourceEventOk derivation event && afterArtifact previous seq id
          && assertArtifactSource a (assoc id sources)
          && assertArtifacts roomId through events sources (id :: seen) (Some (seq, id)) l'
      | _, _, _, _ => false
      end
  end.
Definition projectionContract (p : export_projection) : bool :=
  match p with
  | XEcho s => bool_decide (cs_projectionKey s = echo_teacher_shadow) && parseTeacherEchoSnapshot s
  | XTrace b => bool_decide (sn_projectionKey b = trace_teacher_bundle) && parseTrace b
  end.
Fixpoint assertProjections (roomId : string) (through : Z) (sources : list (string * json)) (seen : list ProjectionKey)
    (l : list export_projection) : bool :=
  match l with
  | [] => true
  | p :: l' =>
      negb (bool_decide (projectionKeyOf p ∈ seen)) && bool_decide (projectionRoom p = roomId) && (projectionThrough p <=? through)
      && projectionContract p && assertProjectionSource p (assoc (projectionKeyText (projectionKeyOf p)) sources)
      && assertProjections roomId through sources (projectionKeyOf p :: seen) l'
  end.
Definition assertSemantics (x : TeacherRoomExport) : bool :=
  let room := xd_roomId x in
  let through := xd_throughRoomSeq x in
  (Z.of_nat (length (xd_events x)) =? through)
  && match assertEvents room 1 [] (xd_events x),
           assertSources "artifactId" "roomSeq" room through [] (xd_artifactSources x),
           assertSources "projectionKey" "completeThroughRoomSeq" room through [] (xd_projectionSources x) with
     | Some events, Some artifactSources, Some projectionSources =>
         (length artifactSources =? length (xd_artifacts x))%nat
         && assertArtifacts room through events artifactSources [] None (xd_artifacts x)
         && (length projectionSources =? length (xd_projections x))%nat
         && assertProjections room through projectionSources [] (xd_projections x)
     | _, _, _ => false
     end.
(** [teacherRoomExportContract.parse]. *)
Definition parseExport (x : TeacherRoomExport) : bool := exportSchema x && assertSemantics x.
End Semantics.

(** ** The table *)

Definition QUOTE_MARK : ascii := chr 34.
Definition NEWLINE : ascii := chr 10.
Definition CARRIAGE : ascii := chr 13.
Definition EXPORT_CSV_HEADER : string := ("recordType,json" ++ String NEWLINE EmptyString)%string.
Definition EXPORT_MAX_RECORDS : nat := Z.to_nat 30015.

(** [csv] of a text. *)
Definition special (c : ascii) : bool := one_of [QUOTE_MARK; ","%char; NEWLINE] c.
Definition doubled (l : list ascii) : list ascii := concat (map (fun c => if is_char QUOTE_MARK c then [c; c] else [c]) l).
Definition csv (l : list ascii) : list ascii :=
  if existsb special l then QUOTE_MARK :: doubled l ++ [QUOTE_MARK] else l.
(** The rows under the header, each with its line end. *)
Definition csvRow (row : string * string) : list ascii :=
  list_ascii_of_string (fst row) ++ [","%char] ++ csv (list_ascii_of_string (snd row)) ++ [NEWLINE].
Definition csvText (rows : list (string * string)) : string :=
  string_of_list_ascii (list_ascii_of_string EXPORT_CSV_HEADER ++ concat (map csvRow rows)).

(** [parseCsvRecords]: its variables; rows and fields are built backwards. *)
Record csv_state : Type := CsvState {
  cv_records : list (string * string);
  cv_row : list (list ascii);
  cv_field : list ascii;
  cv_fieldStarted : bool;
  cv_afterQuote : bool;
}.
Definition cv_start : csv_state := CsvState [] [] [] false false.
Definition addChar (c : ascii) (s : csv_state) : csv_state :=
  CsvState (cv_records s) (cv_row s) (c :: cv_field s) true (cv_afterQuote s).
Definition startField (s : csv_state) : csv_state := CsvState (cv_records s) (cv_row s) (cv_field s) true (cv_afterQuote s).
Definition endQuote (s : csv_state) : csv_state := CsvState (cv_records s) (cv_row s) (cv_field s) (cv_fieldStarted s) true.
Definition finishField (s : csv_state) : csv_state :=
  CsvState (cv_records s) (rev (cv_field s) :: cv_row s) [] false false.
Definition finishRecord (s : csv_state) : option csv_state :=
  match cv_row (finishField s) with
  | [second; first] =>
      match first, second with
      | [], _ | _, [] => None
      | _, _ =>
          let records := (string_of_list_ascii first, string_of_list_ascii second) :: cv_records s in
          if (EXPORT_MAX_RECORDS <? length records)%nat then None else Some (CsvState records [] [] false false)
      end
  | _ => None
  end.
(** The loop, within quotation marks or outside them. *)
Fixpoint csvLoop (quoted : bool) (s : csv_state) (l : list ascii) : option (bool * csv_state) :=
  match l with
  | [] => Some (quoted, s)
  | c :: l' =>
      if quoted then
        if is_char QUOTE_MARK c then
          match l' with
          | d :: l'' => if is_char QUOTE_MARK d then csvLoop true (addChar QUOTE_MARK s) l'' else csvLoop false (endQuote s) l'
          | [] => csvLoop false (endQuote s) l'
          end
        else csvLoop true (addChar c s) l'
      else if cv_afterQuote s then
        if is_char ","%char c then csvLoop false (finishField s) l'
        else if is_char NEWLINE c then s' ← finishRecord s; csvLoop false s' l'
        else None
      else if is_char QUOTE_MARK c then
        if cv_fieldStarted s || negb (bool_decide (cv_field s = [])) then None else csvLoop true (startField s) l'
      else if is_char ","%char c then csvLoop false (finishField s) l'
      else if is_char NEWLINE c then s' ← finishRecord s; csvLoop false s' l'
      else csvLoop false (addChar c s) l'
  end.
Definition lastIs (c : ascii) (l : list ascii) : bool := match last l with Some d => is_char c d | None => false end.
Definition parseCsvRecords (text : string) : option (list (string * string)) :=
  let l := list_ascii_of_string text in
  match strip_prefix (list_ascii_of_string EXPORT_CSV_HEADER) l with
  | Some input =>
      if negb (lastIs NEWLINE l) || existsb (is_char CARRIAGE) l then None else
      '(quoted, s) ← csvLoop false cv_start input;
      if quoted || cv_afterQuote s || cv_fieldStarted s || negb (bool_decide (cv_field s = [])) || negb (bool_decide (cv_row s = []))
      then None else Some (rev (cv_records s))
  | None => None
  end.

(** ** What is written is read *)

Definition addAll (l : list ascii) (s : csv_state) : csv_state := foldl (fun s c => addChar c s) s l.
Lemma addAll_eq l recs row f st aq : addAll l (CsvState recs row f st aq)
  = CsvState recs row (rev l ++ f) (match l with [] => st | _ => true end) aq.
Proof.
  revert f st. induction l as [|c l IH]; intros f st; [done|].
  change (addAll (c :: l) ?s) with (addAll l (addChar c s)). unfold addChar. cbn [cv_records cv_row cv_field cv_afterQuote].
  rewrite IH. cbn [rev]. rewrite <- app_assoc. by destruct l.
Qed.
Lemma csvLoop_plain l s rest : forallb (fun c => negb (special c)) l = true -> cv_afterQuote s = false ->
  csvLoop false s (l ++ rest) = csvLoop false (addAll l s) rest.
Proof.
  revert s. induction l as [|c l IH]; intros s Hl Hs; [done|]. cbn [forallb] in Hl.
  apply andb_true_iff in Hl as [Hc Hl]. apply negb_true_iff in Hc. unfold special, one_of in Hc. cbn [existsb] in Hc.
  apply orb_false_iff in Hc as [Hq Hc]. apply orb_false_iff in Hc as [Hcomma Hc]. apply orb_false_iff in Hc as [Hn _].
  cbn [app csvLoop]. rewrite Hs, Hq, Hcomma, Hn. cbn iota. by rewrite IH.
Qed.
Lemma csvLoop_quoted l s rest : csvLoop true s (doubled l ++ QUOTE_MARK :: NEWLINE :: rest)
  = csvLoop false (endQuote (addAll l s)) (NEWLINE :: rest).
Proof.
  revert s. induction l as [|c l IH]; intros s; [done|]. unfold doubled. cbn [map concat].
  destruct (is_char QUOTE_MARK c) eqn:Hc; cbn [app].
  - cbn [csvLoop]. rewrite Hc. unfold is_char in Hc. apply bool_decide_eq_true in Hc as ->. apply IH.
  - cbn [csvLoop]. rewrite Hc. apply IH.
Qed.
(** A field without separators, and a text that can be a cell. *)
Definition plainField (k : string) : bool :=
  negb (bool_decide (k = ""%string)) && forallb (fun c => negb (special c)) (list_ascii_of_string k).
Definition cellText (t : string) : bool :=
  negb (bool_decide (t = ""%string)) && forallb (fun c => negb (is_char CARRIAGE c)) (list_ascii_of_string t).
Definition rowOk (row : string * string) : bool :=
  plainField (fst row) && forallb (fun c => negb (is_char CARRIAGE c)) (list_ascii_of_string (fst row)) && cellText (snd row).

Lemma finishRecord_row recs k t st aq : k <> ""%string -> t <> ""%string -> (length recs < EXPORT_MAX_RECORDS)%nat ->
  finishRecord (CsvState recs [list_ascii_of_string k] (rev (list_ascii_of_string t)) st aq) = Some (CsvState ((k, t) :: recs) [] [] false false).
Proof.
  intros Hk Ht Hn. unfold finishRecord, finishField. cbn [cv_field cv_row cv_records]. rewrite rev_involutive.
  destruct k as [|k0 k]; [done|]. destruct t as [|t0 t]; [done|]. cbn [list_ascii_of_string].
  assert (((EXPORT_MAX_RECORDS <? length ((String k0 k, String t0 t) :: recs)) = false)%nat) as Hlt.
  { apply Nat.ltb_ge. cbn [length]. lia. }
  cbn [string_of_list_ascii]. rewrite !string_of_list_ascii_of_string, Hlt. done.
Qed.
Lemma forallb_not_existsb {A} (p : A -> bool) l : forallb (fun x => negb (p x)) l = negb (existsb p l).
Proof. induction l as [|x l IH]; [done|]. simpl. rewrite IH. by destruct (p x). Qed.
(** One row is one record. *)
Lemma csvLoop_row row recs rest : rowOk row = true -> (length recs < EXPORT_MAX_RECORDS)%nat ->
  csvLoop false (CsvState recs [] [] false false) (csvRow row ++ rest) = csvLoop false (CsvState (row :: recs) [] [] false false) rest.
Proof.
  destruct row as [k t]. unfold rowOk, plainField, cellText. cbn [fst snd]. intros Hr Hn. split_bools. unfold csvRow. cbn [fst snd].
  rewrite <- !app_assoc, csvLoop_plain, addAll_eq by done. cbn [app].
  set (started := match list_ascii_of_string k with [] => false | _ => true end). clearbody started.
  change (csvLoop false (CsvState recs [rev (rev (list_ascii_of_string k) ++ [])] [] false false)
    (csv (list_ascii_of_string t) ++ NEWLINE :: rest) = csvLoop false (CsvState ((k, t) :: recs) [] [] false false) rest).
  rewrite app_nil_r, rev_involutive. unfold csv. destruct (existsb special (list_ascii_of_string t)) eqn:Hs.
  - rewrite <- app_comm_cons, <- app_assoc. cbn [app csvLoop cv_afterQuote cv_fieldStarted cv_field orb negb].
    change (is_char QUOTE_MARK QUOTE_MARK) with true. cbn iota. rewrite bool_decide_true by done. cbn [negb].
    unfold startField. cbn [cv_records cv_row cv_field cv_afterQuote]. rewrite csvLoop_quoted, addAll_eq, app_nil_r. unfold endQuote.
    cbn [cv_records cv_row cv_field cv_fieldStarted csvLoop cv_afterQuote]. change (is_char ","%char NEWLINE) with false.
    change (is_char NEWLINE NEWLINE) with true. cbn iota. by rewrite finishRecord_row.
  - rewrite csvLoop_plain by (by rewrite ?forallb_not_existsb, ?Hs). rewrite addAll_eq, app_nil_r. cbn [csvLoop cv_afterQuote]. change (is_char QUOTE_MARK NEWLINE) with false.
    change (is_char ","%char NEWLINE) with false. change (is_char NEWLINE NEWLINE) with true. cbn iota. by rewrite finishRecord_row.
Qed.

Lemma csvLoop_rows rows recs : forallb rowOk rows = true -> (length rows + length recs <= EXPORT_MAX_RECORDS)%nat ->
  csvLoop false (CsvState recs [] [] false false) (concat (map csvRow rows))
  = Some (false, CsvState (rev rows ++ recs) [] [] false false).
Proof.
  revert recs. induction rows as [|row rows IH]; intros recs Hok Hn; [done|]. cbn [forallb] in Hok. cbn [length] in Hn. split_bools.
  cbn [map concat]. rewrite csvLoop_row by (done || lia). rewrite IH by (done || (cbn [length]; lia)). cbn [rev]. by rewrite <- app_assoc.
Qed.
Lemma no_carriage_csv l : forallb (fun c => negb (is_char CARRIAGE c)) l = true ->
  forallb (fun c => negb (is_char CARRIAGE c)) (csv l) = true.
Proof.
  intros Hl. unfold csv. destruct (existsb special l); [|done]. cbn [forallb]. rewrite forallb_app. cbn [forallb].
  change (is_char CARRIAGE QUOTE_MARK) with false. cbn [negb andb]. rewrite andb_true_r. unfold doubled.
  induction l as [|c l IH]; [done|]. cbn [map concat]. rewrite forallb_app. cbn [forallb] in Hl. apply andb_true_iff in Hl as [Hc Hl].
  rewrite IH, andb_true_r by done. destruct (is_char QUOTE_MARK c); cbn [forallb]; by rewrite Hc.
Qed.
Lemma no_carriage_rows rows : forallb rowOk rows = true ->
  forallb (fun c => negb (is_char CARRIAGE c)) (concat (map csvRow rows)) = true.
Proof.
  induction rows as [|[k t] rows IH]; [done|]. cbn [forallb map concat]. unfold rowOk at 1, cellText, csvRow at 1. cbn [fst snd]. intros Hok.
  apply andb_true_iff in Hok as [Hrow Hrows]. split_bools. rewrite !forallb_app, (IH Hrows), no_carriage_csv by done. cbn [forallb]. change (is_char CARRIAGE ","%char) with false.
  change (is_char CARRIAGE NEWLINE) with false. cbn [negb andb]. rewrite !andb_true_r. done.
Qed.
Lemma last_newline rows : lastIs NEWLINE (list_ascii_of_string EXPORT_CSV_HEADER ++ concat (map csvRow rows)) = true.
Proof.
  unfold lastIs. induction rows as [|row rows _] using rev_ind; [done|]. rewrite map_app, concat_app. cbn [map concat]. rewrite app_nil_r.
  unfold csvRow. by rewrite !app_assoc, last_snoc.
Qed.
Lemma strip_prefix_app p l : strip_prefix p (p ++ l) = Some l.
Proof. induction p as [|a p IH]; [done|]. simpl. by rewrite decide_True. Qed.

Lemma parseCsv_csvText rows : forallb rowOk rows = true -> (length rows <= EXPORT_MAX_RECORDS)%nat ->
  parseCsvRecords (csvText rows) = Some rows.
Proof.
  intros Hok Hn. unfold parseCsvRecords, csvText. rewrite list_ascii_of_string_of_list_ascii, strip_prefix_app, last_newline.
  assert (existsb (is_char CARRIAGE) (list_ascii_of_string EXPORT_CSV_HEADER ++ concat (map csvRow rows)) = false) as ->.
  { rewrite <- negb_true_iff, <- forallb_not_existsb, forallb_app, no_carriage_rows by done. done. }
  cbn [negb orb]. unfold cv_start. rewrite csvLoop_rows by (done || (cbn [length]; lia)). cbn. by rewrite app_nil_r, rev_involutive.
Qed.

(** A document that passes its schema has at most 30005 rows: the reader's limit is enough. *)
Lemma export_rows_bounded `{Schemas} x : exportSchema x = true ->
  (length (xd_events x) + length (xd_artifacts x) + length (xd_projections x) + length (xd_artifactSources x)
   + length (xd_projectionSources x) < EXPORT_MAX_RECORDS)%nat.
Proof.
  unfold exportSchema. intros Hs. split_bools. rewrite !Nat.leb_le in *. unfold EXPORT_MAX_RECORDS. lia.
Qed.

(** *** Documents that pass *)

(** The events of a document are those of one room, numbered from 1. *)
Lemma assertEvents_numbered `{Schemas} room n before l events :
  assertEvents room n before l = Some events ->
  exists es, events = before ++ es /\ map roomSeq es = seqFrom n (length l) /\ Forall (fun e => Contracts.roomId e = room) es
    /\ Forall2 (fun j e => parseRoomEventEnvelope j = Some e) l es /\ Forall (fun e => eventId e ∉ map eventId before) es
    /\ NoDup (map eventId es).
Proof.
  revert n before. induction l as [|j l IH]; intros n before; cbn [assertEvents].
  { intros [= <-]. exists []. rewrite app_nil_r. split_and!; done || constructor. }
  destruct (assertKnownEvent j) as [e|] eqn:He; [|done]. cbn [mbind option_bind].
  destruct (_ || _) eqn:Hb; [done|]. split_bools. rewrite Z.eqb_eq in *. intros (es & -> & Hseq & Hroom & Hparse & Hnew & Hnd)%IH.
  exists (e :: es). split_and!.
  - by rewrite <- app_assoc.
  - cbn [map length seqFrom]. by f_equal.
  - by constructor.
  - constructor; [|done]. unfold assertKnownEvent in He. destruct (parseRoomEventEnvelope j) as [e'|]; [|done]. cbn in He.
    repeat case_match; naive_solver.
  - constructor; [done|]. eapply Forall_impl; [exact Hnew|]. intros e'. cbn beta. rewrite map_app. set_solver.
  - cbn [map]. constructor; [|done]. intros (e' & Heq & Hin)%list_elem_of_fmap. rewrite Forall_forall in Hnew.
    apply (Hnew e' Hin). rewrite map_app, <- Heq. set_solver.
Qed.
