(* ===== verification/Http.v ===== *)
(** * What server and browser say over HTTP

    The answers of the server and what a browser sees of them, the errors the services
    throw, the contract of error bodies ([packages/contracts/src/api-error.ts]) and the
    contracts whose validators are compiled from schemas. *)
From S2P Require Import Prelude Text JsDate JsValue Contracts Database Authorization Frames Echo Trace Exports.
#[local] Set Warnings "-register-all,-clear-no-such-hyp,-level-tolerance".

(** ** Errors of the services *)

Inductive failure : Type :=
| RoomsThrew (e : error)                       (** of the rooms' services, or a plain [Error] *)
| TeacherRoomListError
| AgentError (code : string)
| MediaError (code : string)
| AnalyticsPolicyError (statusCode : Z) (code : string)
| AnalyticsRepositoryError (code : string)
| AnalyticsTeacherError (statusCode : Z) (code : string)
| GovernanceError (code : string) (statusCode : Z).
#[global] Instance failure_eq_dec : EqDecision failure.
Proof. solve_decision. Defined.
(** An [Error] with this message. *)
Definition plain (message : string) : failure := RoomsThrew (Failure message).
(** [error.message] of any of them. *)
Definition roomErrorText (c : RoomErrorCode) : string :=
  match c with
  | FORBIDDEN => "FORBIDDEN" | INVALID_COMMAND => "INVALID_COMMAND" | REVISION_CONFLICT => "REVISION_CONFLICT"
  | ROOM_NOT_OPEN => "ROOM_NOT_OPEN" | MESSAGE_NOT_FOUND => "MESSAGE_NOT_FOUND"
  | ROOM_DELETION_IN_PROGRESS => "ROOM_DELETION_IN_PROGRESS"
  end.
Definition serviceErrorText (c : ServiceErrorCode) : string :=
  match c with
  | ROOM_FORBIDDEN => "ROOM_FORBIDDEN" | JOIN_FORBIDDEN => "JOIN_FORBIDDEN" | SERVICE_ROOM_NOT_FOUND => "ROOM_NOT_FOUND"
  | SERVICE_DELETION_IN_PROGRESS => "DELETION_IN_PROGRESS" | ROOM_CODE_UNAVAILABLE => "ROOM_CODE_UNAVAILABLE"
  | RETENTION_POLICY_NOT_CONFIGURED => "RETENTION_POLICY_NOT_CONFIGURED"
  end.
Definition messageOf (f : failure) : string :=
  match f with
  | RoomsThrew (RoomError c _) => roomErrorText c
  | RoomsThrew (RoomServiceError c) => serviceErrorText c
  | RoomsThrew (Failure m) => m
  | TeacherRoomListError => "ROOM_NOT_FOUND"
  | AgentError c | MediaError c | AnalyticsPolicyError _ c | AnalyticsRepositoryError c | AnalyticsTeacherError _ c
  | GovernanceError c _ => c
  end.

(** ** Answers *)

(** What a JSON text is read as: a tree, or a value of the analytics or an export in its
    own type. A tree is not one of those. *)
Inductive wire : Type :=
| WJson (j : json)
| WSnapshot (s : ConceptMapSnapshot)
| WBundle (b : SnaProjectionBundle)
| WPatches (p : PatchPage)
| WTimeline (t : TimelineResponse)
| WExport (x : TeacherRoomExport).
Inductive body : Type := BWire (v : wire) | BText (t : string) | BNone.
(** The cookie [lo_session]: set to a token or cleared. *)
Inductive cookie : Type := SetSession (token : string) | ClearSession.
Record reply : Type := Reply {
  rp_status : Z;
  rp_type : option string;                    (** [Content-Type] *)
  rp_headers : list (string * string);
  rp_cookie : option cookie;
  rp_body : body;
}.
(** What the framework writes as the type of an object that is sent. *)
Definition JSON_TYPE : string := "application/json; charset=utf-8".
Definition sendWire (status : Z) (v : wire) : reply := Reply status (Some JSON_TYPE) [] None (BWire v).
Definition sendJson (status : Z) (j : json) : reply := sendWire status (WJson j).
Definition codeBody (code : string) : json := JObj [("code"%string, JStr code)].
Definition refuse (status : Z) (code : string) : reply := sendJson status (codeBody code).
Definition withHeader (name value : string) (r : reply) : reply :=
  Reply (rp_status r) (rp_type r) ((name, value) :: rp_headers r) (rp_cookie r) (rp_body r).
Definition withCookie (c : cookie) (r : reply) : reply :=
  Reply (rp_status r) (rp_type r) (rp_headers r) (Some c) (rp_body r).
Definition noStore : reply -> reply := withHeader "Cache-Control" "no-store".
(** What the framework answers to an error nobody handles; the media routes handle theirs. *)
Definition statusOf (e : failure) : Z :=
  match e with
  | AnalyticsPolicyError s _ | AnalyticsTeacherError s _ | GovernanceError _ s => s
  | _ => 500
  end.
Definition statusName (status : Z) : string :=
  match find (fun p => fst p =? status)
    [(400, "Bad Request"); (401, "Unauthorized"); (403, "Forbidden"); (404, "Not Found"); (409, "Conflict"); (410, "Gone");
     (413, "Payload Too Large"); (415, "Unsupported Media Type"); (503, "Service Unavailable")]%string with
  | Some p => snd p
  | None => "Internal Server Error"
  end.
Definition frameworkError (status : Z) (code : option string) (message : string) : reply :=
  sendJson status (JObj (("statusCode"%string, JNum (NInt status))
    :: match code with Some c => [("code"%string, JStr c)] | None => [] end
    ++ [("error", JStr (statusName status)); ("message", JStr message)]%string)).
Definition uncaught (e : failure) : reply :=
  frameworkError (statusOf e) (match e with RoomsThrew (Failure _) => None | _ => Some (messageOf e) end) (messageOf e).

(** What a browser sees of an answer: [json] is what [response.json()] comes to, [None] if
    it throws; [chunks] are the reads of its body. *)
Inductive chunk : Type := Bytes (l : list Z) | NotBytes | ReadFails.
Record Response : Type := MkResponse {
  rs_status : Z;
  rs_contentType : option string;
  rs_contentLength : option string;
  rs_contentDisposition : option string;
  rs_json : option wire;
  rs_chunks : option (list chunk);
  rs_text : option string;
}.
Definition headerOf (name : string) (r : reply) : option string := assoc name (rp_headers r).
(** A delivery of the answer, where nothing is lost of what these routes are read by. *)
Definition delivered (r : reply) : Response :=
  MkResponse (rp_status r) (rp_type r) None (headerOf "Content-Disposition" r)
    (match rp_body r with BWire v => Some v | _ => None end) None
    (match rp_body r with BText t => Some t | BNone => Some EmptyString | BWire _ => None end).

(** ** Contracts *)

(** [ApiError]. *)
Definition API_ERROR_CODES : list string :=
  ["AUTH_REQUIRED"; "ROOM_NOT_FOUND"; "ROOM_LIST_UNAVAILABLE"; "JOIN_FORBIDDEN"; "INVALID_JOIN_REQUEST";
   "RATE_LIMITED"; "ROOM_SERVICE_UNAVAILABLE"; "ORIGIN_FORBIDDEN"; "ROOM_FORBIDDEN"; "INVALID_ROOM_REQUEST";
   "ROOM_CODE_UNAVAILABLE"; "RETENTION_POLICY_NOT_CONFIGURED"; "INVALID_QUERY"; "FORBIDDEN";
   "MEDIA_SERVICE_UNAVAILABLE"; "INVALID_MEDIA_COMMAND"; "ALT_REQUIRED"; "SIZE_OUT_OF_RANGE"; "MEDIA_NOT_FOUND";
   "MEDIA_UPLOAD_EXPIRED"; "MEDIA_UPLOAD_NOT_FOUND"; "MEDIA_UPLOAD_NOT_SETTLED"; "MEDIA_QUARANTINED"; "MEDIA_FAILED";
   "MEDIA_DELETED"; "MEDIA_NOT_READY"; "ROOM_DELETION_IN_PROGRESS"; "ROOM_NOT_OPEN"; "AGENT_SERVICE_UNAVAILABLE";
   "INVALID_AGENT_COMMAND"; "AGENT_CANNOT_TRIGGER_AGENT"; "TRIGGER_EVENT_NOT_ACTIVE"; "EXPLICIT_TRIGGER_REQUIRED";
   "TRIGGER_EVENT_NOT_FOUND"; "AGENT_DISABLED"; "AGENT_RUN_ALREADY_ACTIVE"; "AGENT_RUN_NOT_ACTIVE";
   "AGENT_RUN_NOT_FOUND"; "INVALID_ANALYTICS_QUERY"; "PROJECTION_NOT_FOUND"; "PROJECTION_FORBIDDEN";
   "STUDENT_ANALYTICS_NOT_PROMOTED"; "ANALYTICS_NOT_READY"; "ANALYTICS_CORRUPT"; "INVALID_ANALYTICS_REVIEW_COMMAND";
   "ANALYTICS_VERSION_CONFLICT"; "ANALYTICS_TARGET_NOT_FOUND"; "ANALYTICS_REVIEW_NOT_FOUND";
   "RETENTION_POLICY_EXPIRED"; "DELETION_IN_PROGRESS"; "DELETION_STATUS_CORRUPT"; "INVALID_DELETE_REQUEST";
   "INVALID_EXPORT_FORMAT"; "EXPORT_UNAVAILABLE"; "INTERNAL"]%string.
(** [apiErrorContract.parse]. *)
Definition parseApiError (value : wire) : option string :=
  match value with
  | WJson (JObj [(k, JStr code)]) => if bool_decide (k = "code"%string) && bool_decide (code ∈ API_ERROR_CODES) then Some code else None
  | _ => None
  end.
Lemma parseApiError_code c : parseApiError (WJson (codeBody c)) = if bool_decide (c ∈ API_ERROR_CODES) then Some c else None.
Proof. done. Qed.

Section Contracts.
Context `{Ajv}.
(** [parse(value, validate, code)]; [JSON.stringify] of the value is read back as it is. *)
Definition parseAs (definition code : string) (value : json) : result failure json :=
  if accepts definition value then Ok value else Err (plain code).
Definition textField (k : string) (j : json) : option string := field k j ≫= asStr.
(** A text that [trim] leaves empty. *)
Definition blank (t : string) : bool := bool_decide (js_trim t = EmptyString).
Definition isObject (value : json) : bool := match value with JObj _ => true | _ => false end.

(** [mediaCommandContract.parseCreateUpload], [mediaAttachmentContract.parse]: a picture is
    described. *)
Definition undescribed (value : json) : bool :=
  bool_decide (textField "kind" value = Some "image"%string)
  && match textField "altText" value with Some t => blank t | None => true end.
Definition parseCreateUpload (value : json) : result failure json :=
  if negb (isObject value) then Err (plain "INVALID_MEDIA_COMMAND") else
  v ← parseAs "CreateMediaUploadInput" "INVALID_MEDIA_COMMAND" value;
  if undescribed v then Err (plain "INVALID_MEDIA_COMMAND") else Ok v.
Definition parseMediaAttachment (value : json) : result failure json :=
  if negb (isObject value) then Err (plain "INVALID_MEDIA_ATTACHMENT_VIEW") else
  v ← parseAs "MediaAttachmentView" "INVALID_MEDIA_ATTACHMENT_VIEW" value;
  if undescribed v then Err (plain "INVALID_MEDIA_ATTACHMENT_VIEW") else Ok v.
Definition parseMedia (definition code : string) (value : json) : result failure json :=
  if isObject value then parseAs definition code value else Err (plain code).

(** [analyticsContract.parseReview] and [analyticsTeacherHttpContract.parseDetail]. *)
Definition integerIn (k : string) (j : option json) : option Z :=
  match j ≫= field k with Some (JNum (NInt z)) => Some z | Some (JNum NNegZero) => Some 0 | _ => None end.
(** [start < end], two integers by the schema, if both are there. *)
Definition spanOk (ref : option json) : bool :=
  match integerIn "start" ref, integerIn "end" ref with Some s, Some e => s <? e | _, _ => false end.
Definition assertReviewSemantics (value : json) : bool :=
  let kind := textField "correctionKind" value in
  let replacement k := field "replacement" value ≫= field k in
  let canonical := field "targetCanonicalNodeId" value in
  (negb (bool_decide (kind = Some "replace_evidence_span"%string))
   || spanOk (field "target" value) && spanOk (field "replacement" value))
  && (negb (bool_decide (kind = Some "merge_alias"%string)) || negb (bool_decide (canonical = replacement "aliasNodeId"%string)))
  && (negb (bool_decide (kind = Some "split_alias"%string))
      || negb (bool_decide (canonical = replacement "aliasNodeId"%string))
         && negb (bool_decide (canonical = replacement "newCanonicalNodeId"%string))
         && negb (bool_decide (replacement "aliasNodeId"%string = replacement "newCanonicalNodeId"%string))).
Definition INVALID_REVIEW : failure := plain "INVALID_ANALYTICS_REVIEW_COMMAND".
Definition parseReview (value : json) : result failure json :=
  v ← parseAs "AnalyticsReviewCommand" "INVALID_ANALYTICS_REVIEW_COMMAND" value;
  if assertReviewSemantics v then Ok v else Err INVALID_REVIEW.
Definition isCorrection (command : json) : bool := bool_decide (field "correctionKind" command <> None).
Definition parseReviewDetail (value : json) : result failure json :=
  v ← parseAs "AnalyticsReviewDetail" "INVALID_ANALYTICS_REVIEW_DETAIL" value;
  command ← parseReview (default JNull (field "payload" v));
  if eqb (bool_decide (textField "changeKind" v = Some "correction"%string)) (isCorrection command)
  then Ok v else Err (plain "INVALID_ANALYTICS_REVIEW_DETAIL").

(** [authContract.parseTeacherMagicLinkRequest]: the address, in small letters. *)
Definition parseTeacherMagicLinkRequest (value : json) : result failure json :=
  match value with
  | JObj [(k, JStr email)] =>
      if bool_decide (k = "email"%string)
      then parseAs "TeacherMagicLinkRequest" "INVALID_TEACHER_MAGIC_LINK_REQUEST"
             (JObj [("email"%string, JStr (lower (js_trim email)))])
      else Err (plain "INVALID_TEACHER_MAGIC_LINK_REQUEST")
  | _ => Err (plain "INVALID_TEACHER_MAGIC_LINK_REQUEST")
  end.
(** [roomHttpContract.parseCreateRoomRequest]. *)
Definition parseTopic (value : json) : result failure json :=
  match value with
  | JObj [(k, JStr topic)] =>
      if bool_decide (k = "topic"%string)
      then parseAs "CreateRoomRequest" "INVALID_CREATE_ROOM_REQUEST" (JObj [("topic"%string, JStr (js_trim topic))])
      else Err (plain "INVALID_CREATE_ROOM_REQUEST")
  | _ => Err (plain "INVALID_CREATE_ROOM_REQUEST")
  end.
End Contracts.
