(* ===== verification/Wire.v ===== *)
(** * The bodies of the rooms' routes

    The objects that the server encodes and the browser parses
    ([packages/contracts/src/room.ts], [auth.ts], the schemas [room-http.v1.json] and
    [auth-session.v1.json]), with their trees: what the one writes the other reads. *)
From S2P Require Import Prelude Text JsDate JsValue Contracts Database Authorization Frames Rooms Hydrated.
#[local] Set Warnings "-register-all,-clear-no-such-hyp,-level-tolerance".

(** ** Trees *)

Definition novaJson (actorId : string) : json :=
  JObj [("actorId", JStr actorId); ("actorKind", JStr "agent"); ("actorRole", JStr "socratic_facilitator");
        ("displayName", JStr "Nova Agent")]%string.
(** [AuthSession]. *)
Definition sessionJson (p : AuthSession) : json :=
  match p with
  | TeacherSession t a => JObj [("role", JStr "teacher"); ("teacherId", JStr t); ("actorId", JStr a)]%string
  | StudentSession r m a ps n =>
      JObj [("role", JStr "student"); ("roomId", JStr r); ("roomMemberId", JStr m); ("actorId", JStr a);
            ("pseudonym", JStr ps); ("nova", novaJson n)]%string
  end.
(** [CreateRoomResponse], [JoinRoomResponse], [RoomDetails], [RoomEventPage]. *)
Definition inviteJson (i : SeatInvite) : json :=
  JObj [("roomMemberId", JStr (si_roomMemberId i)); ("actorId", JStr (si_actorId i));
        ("pseudonym", JStr (si_pseudonym i)); ("code", JStr (si_code i))]%string.
Definition createdJson (r : CreateRoomResponse) : json :=
  JObj [("room", JObj [("roomId", JStr (cr_roomId r)); ("roomCode", JStr (cr_roomCode r));
                       ("status", JStr "scheduled"); ("durationSeconds", JNum (NInt 2700));
                       ("nova", novaJson (cr_novaActorId r))]);
        ("seatInvites", JArr (map inviteJson (cr_seatInvites r)))]%string.
Definition joinedJson (r : JoinRoomResponse) : json :=
  JObj [("roomMemberId", JStr (jr_roomMemberId r)); ("actorId", JStr (jr_actorId r));
        ("pseudonym", JStr (jr_pseudonym r))]%string.
Definition orNull (t : option string) : json := match t with Some s => JStr s | None => JNull end.
Definition participantJson (p : string * string) : json :=
  JObj [("actorId", JStr (fst p)); ("pseudonym", JStr (snd p)); ("actorKind", JStr "human");
        ("actorRole", JStr "student")]%string.
Definition detailsJson (r : RoomDetails) : json :=
  JObj [("roomId", JStr (rd_roomId r)); ("topic", JStr (rd_topic r)); ("status", JStr (statusText (rd_status r)));
        ("durationSeconds", JNum (NInt (rd_durationSeconds r))); ("startsAt", orNull (rd_startsAt r));
        ("closesAt", orNull (rd_closesAt r)); ("nova", novaJson (rd_novaActorId r));
        ("participants", JArr (map participantJson (rd_participants r)))]%string.
Definition pageJson (p : RoomEventPage) : json :=
  JObj ([("events"%string, JArr (map envelopeJson (pg_events p)));
         ("throughRoomSeq"%string, JNum (NInt (pg_throughRoomSeq p)))]
        ++ match pg_nextAfterSeq p with Some n => [("nextAfterSeq"%string, JNum (NInt n))] | None => [] end).

(** ** Reading *)

Definition readArr (j : json) : option (list json) := match j with JArr l => Some l | _ => None end.
(** A property that must have this value. *)
Definition constField (k : string) (v : json) (j : json) : option unit :=
  readField (fun w => guardO (bool_decide (w = v))) k j.
Definition codeField (n : nat) (k : string) (j : json) : option string :=
  s ← readField asStr k j; _ ← guardO (Rooms.isCode n s); Some s.
Definition pseudonymField (j : json) : option string :=
  s ← readField asStr "pseudonym" j; _ ← guardO (bool_decide (s ∈ STUDENT_PSEUDONYMS)); Some s.

Section Read.
Context `{Schemas}.

Definition readNova (j : json) : option string :=
  _ ← guardO (onlyKeys ["actorId"; "actorKind"; "actorRole"; "displayName"]%string j);
  a ← uuidField "actorId" j;
  _ ← constField "actorKind" (JStr "agent") j;
  _ ← constField "actorRole" (JStr "socratic_facilitator") j;
  _ ← constField "displayName" (JStr "Nova Agent") j;
  Some a.
(** [authContract.parseSession]. *)
Definition readSession (j : json) : option AuthSession :=
  role ← readField asStr "role" j;
  if bool_decide (role = "teacher"%string) then
    _ ← guardO (onlyKeys ["role"; "teacherId"; "actorId"]%string j);
    t ← uuidField "teacherId" j;
    a ← uuidField "actorId" j;
    Some (TeacherSession t a)
  else if bool_decide (role = "student"%string) then
    _ ← guardO (onlyKeys ["role"; "roomId"; "roomMemberId"; "actorId"; "pseudonym"; "nova"]%string j);
    r ← uuidField "roomId" j;
    m ← uuidField "roomMemberId" j;
    a ← uuidField "actorId" j;
    ps ← pseudonymField j;
    n ← readField readNova "nova" j;
    Some (StudentSession r m a ps n)
  else None.
(** [parseCreateRoomResponse]. *)
Definition readInvite (j : json) : option SeatInvite :=
  _ ← guardO (onlyKeys ["roomMemberId"; "actorId"; "pseudonym"; "code"]%string j);
  m ← uuidField "roomMemberId" j;
  a ← uuidField "actorId" j;
  ps ← pseudonymField j;
  c ← codeField 10 "code" j;
  Some (Invite m a ps c).
Definition readCreatedRoom (j : json) : option (string * string * string) :=
  _ ← guardO (onlyKeys ["roomId"; "roomCode"; "status"; "durationSeconds"; "nova"]%string j);
  r ← uuidField "roomId" j;
  c ← codeField 6 "roomCode" j;
  _ ← constField "status" (JStr "scheduled") j;
  _ ← constField "durationSeconds" (JNum (NInt 2700)) j;
  n ← readField readNova "nova" j;
  Some (r, c, n).
Definition readCreated (j : json) : option CreateRoomResponse :=
  _ ← guardO (onlyKeys ["room"; "seatInvites"]%string j);
  '(r, c, n) ← readField readCreatedRoom "room" j;
  seats ← readField readArr "seatInvites" j;
  _ ← guardO (length seats =? 4)%nat;
  invites ← mapM readInvite seats;
  Some (Created r c n invites).
(** [parseJoinRoomResponse]. *)
Definition readJoined (j : json) : option JoinRoomResponse :=
  _ ← guardO (onlyKeys ["roomMemberId"; "actorId"; "pseudonym"]%string j);
  m ← uuidField "roomMemberId" j;
  a ← uuidField "actorId" j;
  ps ← pseudonymField j;
  Some (Joined m a ps).
(** [parseRoomDetails]. *)
Definition readParticipant (j : json) : option (string * string) :=
  _ ← guardO (onlyKeys ["actorId"; "pseudonym"; "actorKind"; "actorRole"]%string j);
  a ← uuidField "actorId" j;
  ps ← pseudonymField j;
  _ ← constField "actorKind" (JStr "human") j;
  _ ← constField "actorRole" (JStr "student") j;
  Some (a, ps).
Definition readTime (j : json) : option (option string) :=
  match j with
  | JNull => Some None
  | JStr s => if format_date_time s then Some (Some s) else None
  | _ => None
  end.
Definition parseRoomStatus : string -> option RoomStatus := spelled statusText STATUSES.
Definition readDetails (j : json) : option RoomDetails :=
  _ ← guardO (onlyKeys ["roomId"; "topic"; "status"; "durationSeconds"; "startsAt"; "closesAt"; "nova"; "participants"]%string j);
  r ← uuidField "roomId" j;
  t ← readField asStr "topic" j;
  s ← readField (fun v => asStr v ≫= parseRoomStatus) "status" j;
  _ ← constField "durationSeconds" (JNum (NInt 2700)) j;
  sa ← readField readTime "startsAt" j;
  ca ← readField readTime "closesAt" j;
  n ← readField readNova "nova" j;
  ps ← readField readArr "participants" j;
  _ ← guardO (length ps =? 4)%nat;
  participants ← mapM readParticipant ps;
  Some (Details r t s 2700 sa ca n participants).
(** [parseRoomEventPage]. *)
Definition readPage (j : json) : option RoomEventPage :=
  _ ← guardO (onlyKeys ["events"; "throughRoomSeq"; "nextAfterSeq"]%string j);
  es ← readField readArr "events" j;
  _ ← guardO (length es <=? 500)%nat;
  events ← mapM parseRoomEventEnvelope es;
  t ← readField (asIntegerMin 0) "throughRoomSeq" j;
  next ← match field "nextAfterSeq" j with
         | None => Some None
         | Some v => Some <$> asIntegerMin 0 v
         end;
  Some (Page events t next).
End Read.

(** ** What is written is read *)

Lemma mapM_map {A B} (f : A -> B) (g : B -> option A) l : Forall (fun x => g (f x) = Some x) l -> mapM g (map f l) = Some l.
Proof. induction 1 as [|x l Hx _ IH]; [done|]. simpl. by rewrite Hx, IH. Qed.
Lemma mapM_checked {A B} (f : A -> B) (g : B -> option A) (ok : A -> bool) l :
  (forall x, g (f x) = if ok x then Some x else None) -> mapM g (map f l) = if forallb ok l then Some l else None.
Proof. intros Hg. induction l as [|x l IH]; [done|]. simpl. rewrite Hg, IH. by destruct (ok x), (forallb ok l). Qed.
#[local] Arguments parseRoomEventEnvelope : simpl never.
#[local] Arguments envelopeJson : simpl never.
#[local] Arguments Nat.leb : simpl never.
#[local] Arguments length : simpl never.
#[local] Arguments map : simpl never.
#[local] Arguments mapM : simpl never.
#[local] Arguments Rooms.isCode : simpl never.
#[local] Arguments readNova : simpl never.
#[local] Arguments readInvite : simpl never.
#[local] Arguments readCreatedRoom : simpl never.
#[local] Arguments readTime : simpl never.
#[local] Arguments readParticipant : simpl never.
#[local] Arguments novaJson : simpl never.
#[local] Arguments inviteJson : simpl never.
#[local] Arguments participantJson : simpl never.
#[local] Arguments orNull : simpl never.
#[local] Arguments inviteOk : simpl never.
#[local] Arguments Nat.eqb : simpl never.

Section RoundTrips.
Context `{Schemas}.

Record page_ok (p : RoomEventPage) : Prop := {
  po_events : Forall envelope_ok (pg_events p);
  po_count : (length (pg_events p) <= 500)%nat;
  po_through : 0 <= pg_throughRoomSeq p;
  po_next : match pg_nextAfterSeq p with Some n => 0 <= n | None => True end;
}.


Lemma readPage_pageJson p : page_ok p -> readPage (pageJson p) = Some p.
Proof.
  destruct p as [es t next]. intros [Hes Hc Ht Hn]. cbn in *.
  assert (mapM parseRoomEventEnvelope (map envelopeJson es) = Some es) as Hm.
  { apply mapM_map. eapply Forall_impl; [exact Hes|]. intros e. apply parse_envelopeJson. }
  unfold readPage, pageJson, readField, field. destruct next as [n|]; simpl.
  all: rewrite length_map, (proj2 (Nat.leb_le _ _) Hc); simpl.
  all: rewrite Hm; simpl; unfold asIntegerMin; rewrite !decide_True by done; done.
Qed.

(** A session is read exactly if it is valid. *)
Lemma readSession_sessionJson p : readSession (sessionJson p) = if sessionValid p then Some p else None.
Proof.
  destruct p as [t a|r m a ps n]; unfold readSession, sessionJson, sessionValid, uuidField, pseudonymField, readField; simpl.
  - destruct (format_uuid t), (format_uuid a); done.
  - unfold readNova, uuidField, readField; simpl.
    destruct (format_uuid r), (format_uuid m), (format_uuid a), (format_uuid n), (bool_decide (ps ∈ STUDENT_PSEUDONYMS)); done.
Qed.

Lemma readJoined_joinedJson r : readJoined (joinedJson r) = match parseJoinRoomResponse r with Ok r' => Some r' | Err _ => None end.
Proof.
  destruct r as [m a ps]. unfold readJoined, joinedJson, parseJoinRoomResponse, uuidField, pseudonymField, readField. simpl.
  destruct (format_uuid m), (format_uuid a), (bool_decide (ps ∈ STUDENT_PSEUDONYMS)); done.
Qed.

Lemma readNova_novaJson n : readNova (novaJson n) = if format_uuid n then Some n else None.
Proof. unfold readNova, novaJson, uuidField, readField. simpl. by destruct (format_uuid n). Qed.
Lemma readInvite_inviteJson i : readInvite (inviteJson i) = if inviteOk i then Some i else None.
Proof.
  destruct i as [m a ps c]. unfold readInvite, inviteJson, inviteOk, uuidField, pseudonymField, codeField, readField. simpl.
  destruct (format_uuid m), (format_uuid a), (bool_decide (ps ∈ STUDENT_PSEUDONYMS)), (Rooms.isCode 10 c); done.
Qed.
Lemma readCreated_createdJson r :
  readCreated (createdJson r) = match parseCreateRoomResponse r with Ok r' => Some r' | Err _ => None end.
Proof.
  destruct r as [rid c n l]. unfold readCreated, createdJson, readField, field.
  simpl.
  assert (readCreatedRoom (JObj [("roomId", JStr rid); ("roomCode", JStr c); ("status", JStr "scheduled");
    ("durationSeconds", JNum (NInt 2700)); ("nova", novaJson n)]%string)
    = if format_uuid rid && Rooms.isCode 6 c && format_uuid n then Some (rid, c, n) else None) as ->.
  { unfold readCreatedRoom, uuidField, codeField, constField, readField, field. simpl.
    rewrite readNova_novaJson. destruct (format_uuid rid), (Rooms.isCode 6 c), (format_uuid n); done. }
  rewrite length_map, (mapM_checked _ _ inviteOk) by apply readInvite_inviteJson. unfold parseCreateRoomResponse. simpl.
  destruct (format_uuid rid), (Rooms.isCode 6 c), (format_uuid n); try done. simpl.
  destruct (Nat.eqb_spec (length l) 4) as [Hl|Hl]; [rewrite bool_decide_true by done|by rewrite bool_decide_false by done].
  simpl. by destruct (forallb inviteOk l).
Qed.
Lemma readTime_orNull t : readTime (orNull t) = if dateOrNull t then Some t else None.
Proof. by destruct t. Qed.
Lemma readParticipant_participantJson p :
  readParticipant (participantJson p) = if format_uuid (fst p) && bool_decide (snd p ∈ STUDENT_PSEUDONYMS) then Some p else None.
Proof.
  destruct p as [a ps]. unfold readParticipant, participantJson, uuidField, pseudonymField, readField. simpl.
  destruct (format_uuid a), (bool_decide (ps ∈ STUDENT_PSEUDONYMS)); done.
Qed.
Lemma readDetails_detailsJson r :
  readDetails (detailsJson r) = match parseRoomDetails r with Ok r' => Some r' | Err _ => None end.
Proof.
  destruct r as [rid t s du sa ca n ps]. unfold readDetails, detailsJson, uuidField, constField, readField, field.
  simpl.
  rewrite !readTime_orNull, readNova_novaJson, length_map.
  rewrite (mapM_checked _ _ (fun p => format_uuid (fst p) && bool_decide (snd p ∈ STUDENT_PSEUDONYMS)))
    by apply readParticipant_participantJson.
  assert (parseRoomStatus (statusText s) = Some s) as -> by by destruct s.
  unfold parseRoomDetails. cbn. destruct (format_uuid rid); [|done]. cbn.
  destruct (Z.eqb_spec du 2700) as [->|Hdu].
  2: { by rewrite (bool_decide_false (JNum (NInt du) = _)) by congruence. }
  rewrite (bool_decide_true (JNum (NInt 2700) = _)) by done. cbn. destruct (dateOrNull sa), (dateOrNull ca), (format_uuid n); try done. cbn.
  destruct (Nat.eqb_spec (length ps) 4) as [Hl|Hl]; [rewrite bool_decide_true by done|by rewrite bool_decide_false by done].
  cbn. by destruct (forallb _ ps).
Qed.
End RoundTrips.
