(* ===== verification/Routes.v ===== *)
(** * The server's routes: [apps/server/src/routes.ts], [media-routes.ts], [governance-routes.ts]

    The handlers of the routes that browsers call, over the services they are given: a
    record of optional services, as [registerRoutes] takes them. A handler is a computation
    on the state [W] of the services. A hook that answers is the end of its request; the
    body of a request is read between the hook and the handler, and a body that cannot be
    read goes to the route's own handler of errors, or to the framework.

    Of the routes of the worker two are modelled, in [AutoClose] and [AgentComplete]; the
    upgrade of the socket is in [Authorization]. *)
From S2P Require Import Prelude Text JsDate JsValue Contracts Database Authorization Frames Rooms Hydrated Echo Trace JsNumber Exports Http Wire.
#[local] Set Warnings "-register-all,-clear-no-such-hyp,-level-tolerance".

#[global] Instance M_fmap S E : FMap (M S E) := fun A B f m => a ← m; mret (f a).

(** ** Requests *)

(** A value of the query string, several if its name is repeated. *)
Inductive queryValue : Type := One (s : string) | Many (l : list string).
(** The body: absent or read, or the error of the reader. *)
Inductive requestBody : Type := ReadBody (j : option json) | UnreadBody (status : Z) (code message : string).
Record Request : Type := MkRequest {
  rq_cookie : option string;                 (** [request.cookies.lo_session] *)
  rq_roomId : string;                        (** the parameters of the path *)
  rq_second : string;
  rq_query : list (string * queryValue);
  rq_body : requestBody;
}.
(** [Object.keys(request.query).some((key) => !allowed.includes(key))], negated. *)
Definition onlyQuery (allowed : list string) (q : Request) : bool :=
  forallb (fun f => bool_decide (fst f ∈ allowed)) (rq_query q).
Definition queryOf (k : string) (q : Request) : option queryValue := assoc k (rq_query q).
Definition textOf (v : option queryValue) : option string := match v with Some (One s) => Some s | _ => None end.
(** [Number(value)] where a safe integer is wanted; a list of two is no number. *)
Definition queryNumber (dflt : Z) (v : option queryValue) : option Z :=
  match v with None => Some dflt | Some (One s) => safeNumber s | Some (Many _) => None end.
Definition queryJson (q : Request) : json :=
  JObj (map (fun f => (fst f, match snd f with One s => JStr s | Many l => JArr (map JStr l) end)) (rq_query q)).
(** [request.body]: the contracts and the tests here treat [undefined] as [null]. *)
Definition bodyOf (q : Request) : json := match rq_body q with ReadBody (Some j) => j | _ => JNull end.
Definition UNREAD_CODES : list string := ["FST_ERR_CTP_INVALID_JSON_BODY"; "FST_ERR_CTP_EMPTY_JSON_BODY"]%string.

(** ** Services *)

Section Services.
Context (W : Type).
Abbreviation Svc := (M W failure).

Record SessionService : Type := MkSessionService {
  se_get : option string -> Svc (option AuthSession);
  se_getSessionId : option string -> Svc (option string);
  se_revoke : option string -> Svc unit;
}.
Record MagicLinkService : Type := MkMagicLinks {
  ml_request : string -> Svc unit;
  ml_consume : string -> Svc (option string);
}.
Record RoomService : Type := MkRoomService {
  ro_createRoom : AuthSession -> json -> Svc CreateRoomResponse;
  ro_joinRoom : json -> Svc (JoinRoomResponse * string);      (** and the session's token *)
  ro_getRoom : AuthSession -> string -> Svc RoomDetails;
}.
Record Authorizer : Type := MkAuthorizer {
  az_authenticateToken : option string -> string -> Svc DeliveryAuthorization;
  az_reauthorize : string -> string -> Svc DeliveryAuthorization;
}.
Record MediaDeps : Type := MkMediaDeps {
  me_createUploadGrant : AuthSession -> string -> string -> string -> json -> Svc json;
  me_finalizeUpload : AuthSession -> string -> string -> string -> string -> Svc json;
  me_getMediaAttachment : AuthSession -> string -> string -> string -> Svc (option json);
  me_createDownloadGrant : AuthSession -> string -> string -> string -> Svc json;
}.
(** [request] is given [admitCreate]; it answers the run, its state and whether it is new. *)
Record AgentService : Type := MkAgentService {
  ag_authorize : AuthSession -> string -> string -> Svc unit;
  ag_request : AuthSession -> string -> string -> string -> Svc unit -> Svc (string * string * bool);
  ag_cancel : AuthSession -> string -> string -> string -> Svc string;
  ag_current : AuthSession -> string -> string -> Svc json;
  ag_settings : AuthSession -> string -> string -> bool -> Svc json;
}.
Inductive AnalyticsCapability : Type := cap_latest | cap_patches | cap_timeline | cap_projection_frame.
Record AnalyticsGrant : Type := MkGrant { ag_role : Role; ag_allowlist : list string }.
(** A page of patches or a timeline, or the demand to begin again. *)
Inductive or_resync (A : Type) : Type := Resync | Found (a : A).
(** [latest], as [projectionWire] writes it: a map or a bundle. [timeline] is given its parts. *)
Record AnalyticsDeps : Type := MkAnalytics {
  an_requireRoomAccess : option AuthSession -> string -> AnalyticsCapability -> option string -> Svc AnalyticsGrant;
  an_assertProjection : AnalyticsGrant -> ProjectionKey -> result failure unit;
  an_latest : string -> ProjectionKey -> Svc (option (ConceptMapSnapshot + SnaProjectionBundle));
  an_patchesAfter : string -> ProjectionKey -> string -> Z -> string -> Svc (or_resync (list ConceptMapPatch));
  an_timeline : string -> ProjectionKey -> string -> Z
                -> Svc (or_resync (option ConceptMapSnapshot * list ConceptMapPatch * option Z * Z));
}.
Record AnalyticsTeacher : Type := MkAnalyticsTeacher {
  at_authorize : AuthSession -> string -> string -> Svc unit;
  at_listArtifacts : AuthSession -> string -> string -> json -> Svc json;
  at_review : AuthSession -> string -> string -> json -> Svc (json * bool);     (** and [created] *)
  at_reviewDetail : AuthSession -> string -> string -> string -> Svc json;
}.
Record Export : Type := MkExport { ex_filename : string; ex_contentType : string; ex_body : string }.
Record GovernanceService : Type := MkGovernance {
  go_authorizeRoom : option AuthSession -> string -> Svc unit;
  go_requestDeletion : AuthSession -> string -> json -> Svc json;
  go_deletionStatus : option AuthSession -> string -> Svc json;
  go_deletionStatusForRoom : option AuthSession -> string -> Svc json;
  go_exportRoom : option AuthSession -> string -> json -> Svc Export;
}.
(** What a rate limit says. *)
Record RateLimit : Type := MkLimit { li_isAllowed : bool; li_isExceeded : bool }.
Record Dependencies : Type := MkDependencies {
  dp_sessions : option SessionService;
  dp_magicLinks : option MagicLinkService;
  dp_teacherRooms : option (AuthSession -> Svc json);
  dp_rooms : option RoomService;
  dp_eventsAfter : option (string -> Z -> Z -> Svc (list RoomEventEnvelope));    (** of [lifecycle.events] *)
  dp_dispatch : option (AuthSession -> json -> string -> Svc RoomEventEnvelope);
  dp_realtime : option Authorizer;
  dp_media : option MediaDeps;
  dp_agent : option AgentService;
  dp_analytics : option AnalyticsDeps;
  dp_analyticsTeacher : option AnalyticsTeacher;
  dp_governance : option GovernanceService;
  dp_magicLinkExceeded : Svc bool;                   (** the limit of the route, which counts the request *)
  dp_failedJoinLimit : bool -> Svc RateLimit;        (** whether the request is counted *)
  dp_agentTriggerLimit : string -> Svc json;         (** under this key *)
  dp_randomUUID : Svc string;
}.
End Services.
Arguments Resync {A}.
Arguments Found {A} a.
Arguments se_get {W}. Arguments se_getSessionId {W}. Arguments se_revoke {W}.
Arguments ml_request {W}. Arguments ml_consume {W}.
Arguments ro_createRoom {W}. Arguments ro_joinRoom {W}. Arguments ro_getRoom {W}.
Arguments az_authenticateToken {W}. Arguments az_reauthorize {W}.
Arguments me_createUploadGrant {W}. Arguments me_finalizeUpload {W}.
Arguments me_getMediaAttachment {W}. Arguments me_createDownloadGrant {W}.
Arguments ag_authorize {W}. Arguments ag_request {W}. Arguments ag_cancel {W}. Arguments ag_current {W}. Arguments ag_settings {W}.
Arguments an_requireRoomAccess {W}. Arguments an_assertProjection {W}. Arguments an_latest {W}.
Arguments an_patchesAfter {W}. Arguments an_timeline {W}.
Arguments at_authorize {W}. Arguments at_listArtifacts {W}. Arguments at_review {W}. Arguments at_reviewDetail {W}.
Arguments go_authorizeRoom {W}. Arguments go_requestDeletion {W}. Arguments go_deletionStatus {W}.
Arguments go_deletionStatusForRoom {W}. Arguments go_exportRoom {W}.
Arguments dp_sessions {W}. Arguments dp_magicLinks {W}. Arguments dp_teacherRooms {W}. Arguments dp_rooms {W}.
Arguments dp_eventsAfter {W}. Arguments dp_dispatch {W}. Arguments dp_realtime {W}. Arguments dp_media {W}.
Arguments dp_agent {W}. Arguments dp_analytics {W}. Arguments dp_analyticsTeacher {W}. Arguments dp_governance {W}.
Arguments dp_magicLinkExceeded {W}. Arguments dp_failedJoinLimit {W}. Arguments dp_agentTriggerLimit {W}. Arguments dp_randomUUID {W}.

(** ** The answers to errors *)

(** [agentRouteError]. *)
Definition agentRouteError (e : failure) : Z * string :=
  let code := match e with
    | AgentError c => c
    | _ => if bool_decide (messageOf e = "INVALID_AGENT_COMMAND"%string) then "INVALID_AGENT_COMMAND"%string else "INTERNAL"%string
    end in
  let within l := bool_decide (code ∈ l) in
  let status :=
    if within ["FORBIDDEN"; "EXPLICIT_TRIGGER_REQUIRED"]%string then 403
    else if within ["ROOM_NOT_FOUND"; "TRIGGER_EVENT_NOT_FOUND"; "AGENT_RUN_NOT_FOUND"]%string then 404
    else if within ["INVALID_AGENT_COMMAND"; "AGENT_CANNOT_TRIGGER_AGENT"; "TRIGGER_EVENT_NOT_ACTIVE"]%string then 422
    else if within ["ROOM_NOT_OPEN"; "ROOM_DELETION_IN_PROGRESS"; "AGENT_DISABLED"; "AGENT_RUN_ALREADY_ACTIVE";
                    "AGENT_RUN_NOT_ACTIVE"]%string then 409
    else if within ["RATE_LIMITED"]%string then 429
    else if within ["AGENT_SERVICE_UNAVAILABLE"]%string then 503
    else 500 in
  if status =? 500 then (500, "INTERNAL"%string) else (status, code).
(** [mediaRouteError]. *)
Definition MEDIA_STATUS : list (string * Z) :=
  [("AUTH_REQUIRED", 401); ("INVALID_MEDIA_COMMAND", 400); ("MEDIA_NOT_FOUND", 404); ("MEDIA_UPLOAD_NOT_FOUND", 404);
   ("ALT_REQUIRED", 422); ("SIZE_OUT_OF_RANGE", 422); ("MEDIA_UPLOAD_EXPIRED", 409); ("MEDIA_UPLOAD_NOT_SETTLED", 409);
   ("MEDIA_QUARANTINED", 409); ("MEDIA_FAILED", 409); ("MEDIA_DELETED", 409); ("MEDIA_NOT_READY", 409);
   ("ROOM_DELETION_IN_PROGRESS", 409); ("ROOM_NOT_OPEN", 409)]%string.
Definition mediaRouteError (e : failure) : Z * string :=
  let code := messageOf e in
  if String.prefix "STORAGE_" code then (503, "MEDIA_SERVICE_UNAVAILABLE"%string) else
  match e, assoc code MEDIA_STATUS with
  | MediaError _, Some status => (status, code)
  | _, _ =>
      if bool_decide (code ∈ ["INVALID_MEDIA_COMMAND"; "ALT_REQUIRED"; "SIZE_OUT_OF_RANGE"]%string)
      then (if bool_decide (code = "INVALID_MEDIA_COMMAND"%string) then 400 else 422, code)
      else (500, "INTERNAL"%string)
  end.
(** [errorResponse] and [teacherError] of the analytics, [sendError] of the governance. *)
Definition analyticsErrorResponse (e : failure) : Z * string :=
  match e with
  | AnalyticsPolicyError s c => (s, c)
  | AnalyticsRepositoryError c => (503, c)
  | _ => (500, "INTERNAL"%string)
  end.
Definition teacherError (e : failure) : Z * string :=
  match e with
  | AnalyticsPolicyError s c | AnalyticsTeacherError s c => (s, c)
  | _ => (500, "INTERNAL"%string)
  end.
Definition sendError (e : failure) : Z * string :=
  match e with GovernanceError c s => (s, c) | _ => (500, "INTERNAL"%string) end.
(** The handlers of errors of the routes with a body. *)
Definition bodyErrorHandler (status : Z) (invalid : string) (code : string) : reply :=
  noStore (if bool_decide (code ∈ UNREAD_CODES) then refuse status invalid else refuse 500 "INTERNAL").
Definition agentCommandErrorHandler : string -> reply := bodyErrorHandler 422 "INVALID_AGENT_COMMAND".
Definition commandBodyError : string -> reply := bodyErrorHandler 409 "INVALID_COMMAND".
Definition teacherReviewErrorHandler : string -> reply := bodyErrorHandler 400 "INVALID_ANALYTICS_REVIEW_COMMAND".
Definition deletionBodyError : string -> reply := bodyErrorHandler 400 "INVALID_DELETE_REQUEST".

(** [agentRateDecision]. *)
Definition isFiniteNumber (v : option json) : bool := match v with Some (JNum n) => isFinite n | _ => false end.
Definition isText (v : option json) : bool := match v with Some (JStr _) => true | _ => false end.
Definition asBool (v : option json) : option bool := match v with Some (JBool b) => Some b | _ => None end.
Definition agentRateDecision (value : json) : result failure bool :=
  match value with
  | JObj _ | JArr _ =>
      match asBool (field "isAllowed" value) with
      | Some true => if isText (field "key" value) then Ok true else Err (plain "AGENT_RATE_RESULT_INVALID")
      | Some false =>
          match asBool (field "isExceeded" value), asBool (field "isBanned" value) with
          | Some exceeded, Some _ =>
              if isText (field "key" value)
                 && forallb (fun k => isFiniteNumber (field k value)) ["max"; "timeWindow"; "remaining"; "ttl"; "ttlInSeconds"]%string
              then Ok (negb exceeded) else Err (plain "AGENT_RATE_RESULT_INVALID")
          | _, _ => Err (plain "AGENT_RATE_RESULT_INVALID")
          end
      | None => Err (plain "AGENT_RATE_RESULT_INVALID")
      end
  | _ => Err (plain "AGENT_RATE_RESULT_INVALID")
  end.

(** ** Handlers *)

Section Handlers.
Context `{Schemas} `{Ajv} {W : Type} (d : Dependencies W).
Abbreviation Svc := (M W failure).

(** Runs [m] if it is there. *)
Definition optionally {A B} (x : option A) (dflt : B) (m : A -> Svc B) : Svc B :=
  match x with Some a => m a | None => mret dflt end.
(** What the framework answers with when a handler throws, under the headers set so far. *)
Definition framework (headers : reply -> reply) (m : Svc reply) : Svc reply :=
  try_catch m (fun e => mret (headers (uncaught e))).
Definition answering (f : failure -> Z * string) (m : Svc reply) : Svc reply :=
  try_catch m (fun e => let '(status, code) := f e in mret (refuse status code)).
(** A route without a hook: its body is read first. *)
Definition plainRoute (headers : reply -> reply) (q : Request) (h : Svc reply) : Svc reply :=
  match rq_body q with
  | UnreadBody status code message => mret (frameworkError status (Some code) message)
  | ReadBody _ => framework headers h
  end.
(** A route with a hook, which answers or lets the request pass, and a handler of errors. *)
Definition hookedRoute {A} (q : Request) (hook : Svc (reply + A)) (onError : string -> reply) (h : A -> Svc reply) : Svc reply :=
  r ← hook;
  match r with
  | inl answer => mret answer
  | inr a =>
      match rq_body q with
      | UnreadBody _ code _ => mret (onError code)
      | ReadBody _ => try_catch (h a) (fun e => mret (onError (messageOf e)))
      end
  end.
(** [JSON.parse(contract.encode(value))] of a contract the schema compiler made. *)
Definition encodeAs (definition code : string) (value : json) : Svc json := lift_result (parseAs definition code value).
Definition checked {A} (ok : option A) (code : string) : Svc A :=
  match ok with Some a => mret a | None => throw (plain code) end.

Definition sessionsGet (q : Request) : Svc (option AuthSession) :=
  optionally (dp_sessions d) None (fun s => se_get s (rq_cookie q)).

(** *** Sessions *)

Definition ACCEPTED : json := JObj [("accepted"%string, JBool true)].
Definition RECOVERY_BODY : string := "This sign-in link is no longer available. Request a new link.".
(** [POST /v1/auth/teacher/magic-link]: the limit is a hook of the framework. *)
Definition postMagicLink (q : Request) : Svc reply :=
  framework id (
  exceeded ← dp_magicLinkExceeded d;
  if (exceeded : bool) then mret (refuse 429 "RATE_LIMITED") else
  plainRoute id q (
    try_catch (
      input ← lift_result (parseTeacherMagicLinkRequest (bodyOf q));
      optionally (dp_magicLinks d) tt (fun s => ml_request s (default EmptyString (textField "email" input))))
      (fun _ => mret tt);;
    b ← encodeAs "TeacherMagicLinkAccepted" "INVALID_TEACHER_MAGIC_LINK_ACCEPTED" ACCEPTED;
    mret (sendJson 202 b))).
(** [HEAD] and [GET /v1/auth/teacher/magic-link/consume]. *)
Definition headConsume : reply := withHeader "Allow" "GET" (Reply 405 None [] None BNone).
Definition getConsume (q : Request) : Svc reply :=
  framework id (
    token ← optionally (dp_magicLinks d) None (fun s => ml_consume s (default EmptyString (textOf (queryOf "token" q))));
    let closed r := noStore (withHeader "Referrer-Policy" "no-referrer" r) in
    match token with
    | None => mret (closed (Reply 400 (Some "text/plain; charset=utf-8"%string) [] None (BText RECOVERY_BODY)))
    | Some t => mret (closed (withCookie (SetSession t) (withHeader "Location" "/teacher" (Reply 303 None [] None BNone))))
    end).
(** [GET] and [DELETE /v1/auth/session]. *)
Definition getSessionRoute (q : Request) : Svc reply :=
  framework noStore (
    session ← sessionsGet q;
    match session with
    | None => mret (noStore (refuse 401 "AUTH_REQUIRED"))
    | Some p =>
        valid ← checked (readSession (sessionJson p)) "INVALID_AUTH_SESSION";
        mret (noStore (sendJson 200 (sessionJson valid)))
    end).
Definition deleteSessionRoute (q : Request) : Svc reply :=
  plainRoute noStore q (
    optionally (dp_sessions d) tt (fun s => se_revoke s (rq_cookie q));;
    mret (withCookie ClearSession (noStore (Reply 204 None [] None BNone)))).

(** *** Rooms *)

(** [GET /v1/teacher/rooms]. *)
Definition getTeacherRooms (q : Request) : Svc reply :=
  framework noStore (
    identity ← sessionsGet q;
    match identity with
    | None => mret (noStore (refuse 401 "AUTH_REQUIRED"))
    | Some p =>
        if negb (bool_decide (sessionRole p = r_teacher)) then mret (noStore (refuse 404 "ROOM_NOT_FOUND")) else
        if negb (onlyQuery [] q) then mret (noStore (refuse 400 "INVALID_QUERY")) else
        match dp_teacherRooms d with
        | None => mret (noStore (refuse 503 "ROOM_LIST_UNAVAILABLE"))
        | Some list =>
            try_catch (
              l ← list p;
              b ← encodeAs "TeacherRoomListResponse" "INVALID_TEACHER_ROOM_LIST_RESPONSE" l;
              mret (noStore (sendJson 200 b)))
              (fun e => mret (noStore (match e with
                | TeacherRoomListError => refuse 404 "ROOM_NOT_FOUND"
                | _ => refuse 503 "ROOM_LIST_UNAVAILABLE"
                end)))
        end
    end).
(** [POST /v1/rooms]. *)
Definition postRooms (q : Request) : Svc reply :=
  plainRoute id q (
    identity ← sessionsGet q;
    match identity, dp_rooms d with
    | None, _ => mret (refuse 401 "AUTH_REQUIRED")
    | Some _, None => mret (refuse 503 "ROOM_SERVICE_UNAVAILABLE")
    | Some p, Some rooms =>
        try_catch (
          r ← ro_createRoom rooms p (bodyOf q);
          valid ← checked (readCreated (createdJson r)) "INVALID_CREATE_ROOM_RESPONSE";
          mret (sendJson 201 (createdJson valid)))
          (fun e => match e with
            | RoomsThrew (RoomServiceError ROOM_FORBIDDEN) => mret (refuse 403 "ROOM_FORBIDDEN")
            | RoomsThrew (RoomServiceError ROOM_CODE_UNAVAILABLE) => mret (refuse 503 "ROOM_CODE_UNAVAILABLE")
            | RoomsThrew (RoomServiceError RETENTION_POLICY_NOT_CONFIGURED) => mret (refuse 503 "RETENTION_POLICY_NOT_CONFIGURED")
            | _ => if bool_decide (messageOf e = "INVALID_CREATE_ROOM_REQUEST"%string)
                   then mret (refuse 400 "INVALID_ROOM_REQUEST") else throw e
            end)
    end).
(** [POST /v1/rooms/join]: refused joins are counted. *)
Definition exceededNow (l : RateLimit) : bool := negb (li_isAllowed l) && li_isExceeded l.
Definition joinRefused (e : failure) : option (Z * string) :=
  if bool_decide (messageOf e = "INVALID_JOIN_ROOM_REQUEST"%string) then Some (400, "INVALID_JOIN_REQUEST"%string)
  else if bool_decide (e = RoomsThrew (RoomServiceError JOIN_FORBIDDEN)) then Some (403, "JOIN_FORBIDDEN"%string)
  else None.
Definition postJoin (q : Request) : Svc reply :=
  plainRoute id q (
    match dp_rooms d with
    | None => mret (refuse 503 "ROOM_SERVICE_UNAVAILABLE")
    | Some rooms =>
        limit ← dp_failedJoinLimit d false;
        if exceededNow limit then mret (refuse 429 "RATE_LIMITED") else
        try_catch (
          '(r, token) ← ro_joinRoom rooms (bodyOf q);
          mret (withCookie (SetSession token) (match readJoined (joinedJson r) with
            | Some valid => sendJson 200 (joinedJson valid)
            | None => uncaught (plain "INVALID_JOIN_ROOM_RESPONSE")        (** thrown again below, with the cookie set *)
            end)))
          (fun e => match joinRefused e with
            | None => throw e
            | Some (status, code) =>
                consumed ← dp_failedJoinLimit d true;
                mret (if exceededNow consumed then refuse 429 "RATE_LIMITED" else refuse status code)
            end)
    end).
(** [GET /v1/rooms/:roomId]. *)
Definition getRoomRoute (q : Request) : Svc reply :=
  framework noStore (
    identity ← sessionsGet q;
    match identity, dp_rooms d with
    | None, _ => mret (noStore (refuse 401 "AUTH_REQUIRED"))
    | Some _, None => mret (noStore (refuse 503 "ROOM_SERVICE_UNAVAILABLE"))
    | Some p, Some rooms =>
        try_catch (
          r ← ro_getRoom rooms p (rq_roomId q);
          valid ← checked (readDetails (detailsJson r)) "INVALID_ROOM_DETAILS";
          mret (noStore (sendJson 200 (detailsJson valid))))
          (fun e => match e with
            | RoomsThrew (RoomServiceError SERVICE_ROOM_NOT_FOUND) => mret (noStore (refuse 404 "ROOM_NOT_FOUND"))
            | RoomsThrew (RoomServiceError SERVICE_DELETION_IN_PROGRESS) => mret (noStore (refuse 410 "DELETION_IN_PROGRESS"))
            | _ => throw e
            end)
    end).
(** [GET /v1/rooms/:roomId/events]. *)
Definition lastSeq (events : list RoomEventEnvelope) (dflt : Z) : Z :=
  match last events with Some e => roomSeq e | None => dflt end.
Definition getEventsRoute (q : Request) : Svc reply :=
  framework noStore (
    identity ← sessionsGet q;
    match identity, dp_realtime d with
    | None, _ => mret (noStore (refuse 401 "AUTH_REQUIRED"))
    | Some _, None => mret (noStore (refuse 503 "ROOM_SERVICE_UNAVAILABLE"))
    | Some _, Some authorizer =>
        auth ← az_authenticateToken authorizer (rq_cookie q) (rq_roomId q);
        match roomEventHttpAccessFailure auth, auth with
        | Some (status, code), _ => mret (noStore (refuse status code))
        | None, CloseWith _ => mret (noStore (refuse 404 "ROOM_NOT_FOUND"))
        | None, Delivery sessionId _ actorId =>
            match dp_eventsAfter d with
            | None => mret (noStore (refuse 503 "ROOM_SERVICE_UNAVAILABLE"))
            | Some eventsAfter =>
                match onlyQuery ["afterSeq"; "limit"]%string q, queryNumber 0 (queryOf "afterSeq" q),
                      queryNumber 500 (queryOf "limit" q) with
                | true, Some afterSeq, Some limit =>
                    if (afterSeq <? 0) || (limit <? 1) || (500 <? limit) then mret (noStore (refuse 400 "INVALID_QUERY")) else
                    events ← eventsAfter (rq_roomId q) afterSeq limit;
                    final ← az_reauthorize authorizer sessionId (rq_roomId q);
                    match final with
                    | Delivery _ _ actorId' =>
                        if negb (bool_decide (actorId' = actorId)) then mret (noStore (refuse 404 "ROOM_NOT_FOUND")) else
                        let through := lastSeq events afterSeq in
                        let next := if Z.of_nat (length events) =? limit then Some through else None in
                        let page := Page events through next in
                        valid ← checked (readPage (pageJson page)) "INVALID_ROOM_EVENT_PAGE";
                        mret (noStore (sendJson 200 (pageJson valid)))
                    | CloseWith _ => mret (noStore (refuse 404 "ROOM_NOT_FOUND"))
                    end
                | _, _, _ => mret (noStore (refuse 400 "INVALID_QUERY"))
                end
            end
        end
    end).
(** [POST /v1/rooms/:roomId/commands]. *)
Definition authenticateCommand (q : Request) : Svc (reply + (AuthSession * string)) :=
  let no status code := mret (inl (noStore (refuse status code))) in
  match dp_sessions d with
  | None => no 401 "AUTH_REQUIRED"%string
  | Some sessions =>
      try_catch (
        identity ← se_get sessions (rq_cookie q);
        match identity, dp_realtime d with
        | None, _ => no 401 "AUTH_REQUIRED"%string
        | Some _, None => no 503 "ROOM_SERVICE_UNAVAILABLE"%string
        | Some _, Some authorizer =>
            auth ← az_authenticateToken authorizer (Some (default EmptyString (rq_cookie q))) (rq_roomId q);
            match auth with
            | CloseWith code =>
                if code =? 4410 then no 409 "ROOM_DELETION_IN_PROGRESS"%string else no 404 "ROOM_NOT_FOUND"%string
            | Delivery sessionId principal _ => mret (inr (principal, sessionId))
            end
        end) (fun _ => no 500 "INTERNAL"%string)
  end.
Definition roomErrorBody (c : RoomErrorCode) (currentRevision : option Z) : json :=
  JObj (("code"%string, JStr (roomErrorText c))
        :: match currentRevision with Some n => [("currentRevision"%string, JNum (NInt n))] | None => [] end).
Definition postCommand (q : Request) : Svc reply :=
  hookedRoute q (authenticateCommand q) commandBodyError (fun auth =>
    match dp_dispatch d with
    | None => mret (noStore (refuse 503 "ROOM_SERVICE_UNAVAILABLE"))
    | Some dispatch =>
        if negb (bool_decide (textField "roomId" (bodyOf q) = Some (rq_roomId q)))
        then mret (noStore (refuse 409 "INVALID_COMMAND")) else
        try_catch (e ← dispatch (fst auth) (bodyOf q) (snd auth); mret (noStore (sendJson 200 (envelopeJson e))))
          (fun e => match e with
            | RoomsThrew (RoomError c rev) =>
                mret (noStore (sendJson (if bool_decide (c = FORBIDDEN) then 403 else 409) (roomErrorBody c rev)))
            | _ => mret (noStore (refuse 500 "INTERNAL"))
            end)
    end).

(** *** Media *)

(** [safeSessionIdentity]: ["failed"], nobody, or who it is. *)
Definition sessionIdentity (q : Request) : Svc (option (AuthSession * string)) :=
  match dp_sessions d with
  | None => mret None
  | Some sessions =>
      identity ← se_get sessions (rq_cookie q);
      match identity with
      | None => mret None
      | Some p =>
          sid ← se_getSessionId sessions (rq_cookie q);
          mret (match sid with Some (String _ _ as s) => Some (p, s) | _ => None end)
      end
  end.
(** The four routes begin alike: who asks, and whether there is a service. *)
Definition mediaRoute (q : Request) (h : MediaDeps W -> AuthSession -> string -> Svc reply) : Svc reply :=
  authenticated ← try_catch (Ok <$> sessionIdentity q) (fun e => mret (Err e));
  match authenticated, dp_media d with
  | Err _, _ => mret (noStore (refuse 500 "INTERNAL"))
  | Ok None, _ => mret (noStore (refuse 401 "AUTH_REQUIRED"))
  | Ok (Some _), None => mret (noStore (refuse 503 "MEDIA_SERVICE_UNAVAILABLE"))
  | Ok (Some (p, sid)), Some media => h media p sid
  end.
Definition catchMedia (m : Svc reply) : Svc reply := noStore <$> answering mediaRouteError m.
Definition encodeMedia (definition code : string) (value : json) : Svc json := lift_result (parseMedia definition code value).
Definition postMediaUpload (q : Request) : Svc reply :=
  plainRoute noStore q (mediaRoute q (fun media p sid => catchMedia (
    body ← lift_result (parseCreateUpload (bodyOf q));
    correlationId ← dp_randomUUID d;
    grant ← me_createUploadGrant media p sid (rq_roomId q) correlationId body;
    b ← encodeMedia "MediaUploadGrant" "INVALID_MEDIA_UPLOAD_GRANT" grant;
    mret (sendJson 201 b)))).
(** No body, [null] or an empty object. *)
Definition emptyBody (q : Request) : bool := bool_decide (bodyOf q ∈ [JNull; JObj []]).
Definition postMediaComplete (q : Request) : Svc reply :=
  plainRoute noStore q (mediaRoute q (fun media p sid =>
    if negb (emptyBody q) then mret (noStore (refuse 400 "INVALID_MEDIA_COMMAND")) else
    catchMedia (
      correlationId ← dp_randomUUID d;
      result ← me_finalizeUpload media p sid (rq_roomId q) (rq_second q) correlationId;
      b ← encodeMedia "CompleteMediaUploadResponse" "INVALID_MEDIA_COMPLETE_RESPONSE" result;
      mret (sendJson 200 b)))).
Definition getMediaRoute (q : Request) : Svc reply :=
  framework noStore (mediaRoute q (fun media p sid => catchMedia (
    view ← me_getMediaAttachment media p sid (rq_roomId q) (rq_second q);
    match view with
    | None => mret (refuse 404 "MEDIA_NOT_FOUND")
    | Some v => b ← lift_result (parseMediaAttachment v); mret (sendJson 200 b)
    end))).
Definition getMediaDownload (q : Request) : Svc reply :=
  framework noStore (withHeader "Referrer-Policy" "no-referrer" <$> mediaRoute q (fun media p sid => catchMedia (
    grant ← me_createDownloadGrant media p sid (rq_roomId q) (rq_second q);
    b ← encodeMedia "MediaDownloadGrant" "INVALID_MEDIA_DOWNLOAD_GRANT" grant;
    mret (sendJson 200 b)))).

(** *** Analytics *)

Definition readKey (s : string) : option ProjectionKey := spelled projectionKeyText PROJECTION_KEYS s.
(** [/^[0-9a-f-]{36}$/i]. *)
Definition isEpochText (s : string) : bool :=
  matches (replicate 36 (fun c => is_hex c || is_char "-" c)) (list_ascii_of_string s).
Definition resyncBody (snapshotUrl : string) : json :=
  JObj [("code", JStr "SNAPSHOT_RESYNC_REQUIRED"); ("snapshotUrl", JStr snapshotUrl)]%string.
Definition sendResync (roomId : string) (k : ProjectionKey) : Svc reply :=
  b ← encodeAs "ResyncResponse" "INVALID_ANALYTICS_RESYNC" (resyncBody (analyticsLatest roomId k));
  mret (sendJson 409 b).
Definition isEcho (k : ProjectionKey) : bool := bool_decide (k ∈ [echo_teacher_shadow; echo_student_approved]).
(** [access], and the routes are there only with their services. *)
Definition analyticsRoute (q : Request) (capability : AnalyticsCapability)
    (h : AnalyticsDeps W -> AnalyticsGrant -> Svc reply) : option (Svc reply) :=
  match dp_analytics d, dp_sessions d with
  | Some analytics, Some sessions => Some (noStore <$> answering analyticsErrorResponse (
      principal ← se_get sessions (rq_cookie q);
      sid ← se_getSessionId sessions (rq_cookie q);
      grant ← an_requireRoomAccess analytics principal (rq_roomId q) capability sid;
      h analytics grant))
  | _, _ => None
  end.
Definition getAnalyticsLatest (q : Request) : option (Svc reply) :=
  analyticsRoute q cap_latest (fun analytics grant =>
    if negb (onlyQuery [] q) then mret (refuse 400 "INVALID_ANALYTICS_QUERY") else
    match readKey (rq_second q) with
    | None => mret (refuse 404 "PROJECTION_NOT_FOUND")
    | Some key =>
        lift_result (an_assertProjection analytics grant key);;
        latest ← an_latest analytics (rq_roomId q) key;
        match latest with
        | None => mret (refuse 404 "ANALYTICS_NOT_READY")
        | Some wire =>
            v ← checked (match isEcho key, wire with
                         | true, inl s => if parseEchoSnapshot s then Some (WSnapshot s) else None
                         | false, inr b => if parseTrace b then Some (WBundle b) else None
                         | _, _ => None
                         end) (if isEcho key then "INVALID_ECHO_PROJECTION" else "INVALID_TRACE_PROJECTION");
            mret (sendWire 200 v)
        end
    end).
Definition getAnalyticsPatches (q : Request) : option (Svc reply) :=
  analyticsRoute q cap_patches (fun analytics grant =>
    let after := queryOf "afterProjectionVersion" q in
    match readKey (rq_second q), queryOf "analysisEpoch" q, queryNumber 0 after with
    | Some key, Some (One epoch), Some n =>
        if negb (onlyQuery ["analysisEpoch"; "afterProjectionVersion"]%string q) || negb (isEpochText epoch) || (n <? 0)
        then mret (refuse 400 "INVALID_ANALYTICS_QUERY") else
        lift_result (an_assertProjection analytics grant key);;
        result ← an_patchesAfter analytics (rq_roomId q) key epoch n (analyticsLatest (rq_roomId q) key);
        match result with
        | Resync => sendResync (rq_roomId q) key
        | Found patches =>
            let page := MkPatchPage (rq_roomId q) key epoch patches in
            v ← checked (if parsePatchPage page then Some page else None) "INVALID_ANALYTICS_PATCH_PAGE";
            mret (sendWire 200 (WPatches v))
        end
    | _, _, _ => mret (refuse 400 "INVALID_ANALYTICS_QUERY")
    end).
Definition getAnalyticsTimeline (q : Request) : option (Svc reply) :=
  analyticsRoute q cap_timeline (fun analytics grant =>
    match readKey (rq_second q), queryOf "analysisEpoch" q, queryNumber 50 (queryOf "limit" q) with
    | Some key, Some (One epoch), Some limit =>
        if negb (isEcho key) || negb (onlyQuery ["analysisEpoch"; "limit"]%string q) || negb (isEpochText epoch)
           || (limit <? 1) || (200 <? limit)
        then mret (refuse 400 "INVALID_ANALYTICS_QUERY") else
        lift_result (an_assertProjection analytics grant key);;
        result ← an_timeline analytics (rq_roomId q) key epoch limit;
        match result with
        | Resync => sendResync (rq_roomId q) key
        | Found (base, patches, truncated, head) =>
            let t := MkTimeline (rq_roomId q) key epoch base patches truncated head in
            v ← checked (if parseTimeline t then Some t else None) "INVALID_ANALYTICS_TIMELINE";
            mret (sendWire 200 (WTimeline v))
        end
    | _, _, _ => mret (refuse 400 "INVALID_ANALYTICS_QUERY")
    end).

(** [authenticateTeacher]. *)
Definition authenticateTeacher (service : AnalyticsTeacher W) (sessions : SessionService W) (q : Request)
    : Svc (reply + (AuthSession * string)) :=
  try_catch (
    principal ← se_get sessions (rq_cookie q);
    sid ← se_getSessionId sessions (rq_cookie q);
    match principal, sid with
    | Some p, Some (String _ _ as s) =>
        at_authorize service p s (rq_roomId q);;
        mret (inr (p, s))
    | _, _ => mret (inl (noStore (refuse 401 "AUTH_REQUIRED")))
    end)
    (fun e => let '(status, code) := teacherError e in mret (inl (noStore (refuse status code)))).
Definition teacherRoute (q : Request) (onError : string -> reply)
    (h : AnalyticsTeacher W -> AuthSession -> string -> Svc reply) : option (Svc reply) :=
  match dp_analyticsTeacher d, dp_sessions d with
  | Some service, Some sessions =>
      Some (hookedRoute q (authenticateTeacher service sessions q) onError
              (fun auth => noStore <$> answering teacherError (h service (fst auth) (snd auth))))
  | _, _ => None
  end.
(** What the framework answers on a route that has no handler of errors. *)
Definition defaultErrorHandler (code : string) : reply := frameworkError 400 (Some code) code.
Definition getArtifacts (q : Request) : option (Svc reply) :=
  teacherRoute q defaultErrorHandler (fun service p sid =>
    page ← at_listArtifacts service p sid (rq_roomId q) (queryJson q);
    b ← encodeAs "DerivedTextArtifactPage" "INVALID_DERIVED_TEXT_ARTIFACT_PAGE" page;
    mret (sendJson 200 b)).
Definition postReview (q : Request) : option (Svc reply) :=
  teacherRoute q teacherReviewErrorHandler (fun service p sid =>
    '(accepted, created) ← at_review service p sid (rq_roomId q) (bodyOf q);
    b ← encodeAs "AnalyticsReviewAccepted" "INVALID_ANALYTICS_REVIEW_ACCEPTED" accepted;
    mret (sendJson (if (created : bool) then 201 else 200) b)).
Definition getReviewDetail (q : Request) : option (Svc reply) :=
  teacherRoute q defaultErrorHandler (fun service p sid =>
    detail ← at_reviewDetail service p sid (rq_roomId q) (rq_second q);
    b ← lift_result (parseReviewDetail detail);
    mret (sendJson 200 b)).

(** *** The agent *)

(** [authenticateAgent]. *)
Definition authenticateAgent (teacherOnly : bool) (q : Request) : Svc (reply + (AuthSession * string)) :=
  let no status code := mret (inl (noStore (refuse status code))) in
  match dp_sessions d with
  | None => no 401 "AUTH_REQUIRED"%string
  | Some sessions =>
      try_catch (
        session ← se_get sessions (rq_cookie q);
        sid ← se_getSessionId sessions (rq_cookie q);
        match session, sid with
        | Some p, Some (String _ _ as s) =>
            if teacherOnly && negb (bool_decide (sessionRole p = r_teacher)) then no 403 "FORBIDDEN"%string else
            optionally (dp_agent d) tt (fun agent => ag_authorize agent p s (rq_roomId q));;
            mret (inr (p, s))
        | _, _ => no 401 "AUTH_REQUIRED"%string
        end)
        (fun e => let '(status, code) := agentRouteError e in no status code)
  end.
(** [runRoute]: what its four actions share. *)
Definition runRoute (q : Request) (auth : AuthSession * string)
    (action : AgentService W -> AuthSession -> string -> Svc reply) : Svc reply :=
  if negb (onlyQuery [] q) then mret (noStore (refuse 400 "INVALID_QUERY")) else
  match dp_agent d with
  | None => mret (noStore (refuse 503 "AGENT_SERVICE_UNAVAILABLE"))
  | Some service => noStore <$> answering agentRouteError (action service (fst auth) (snd auth))
  end.
(** [admitCreate]. *)
Definition agentRateKey (roomId : string) (p : AuthSession) : string :=
  (lower roomId ++ ":" ++ lower (sessionActor p))%string.
Definition admitCreate (roomId : string) (p : AuthSession) : Svc unit :=
  limit ← dp_agentTriggerLimit d (agentRateKey roomId p);
  allowed ← lift_result (agentRateDecision limit);
  if (allowed : bool) then mret tt else throw (AgentError "RATE_LIMITED").
Definition acceptedRun (runId state : string) : json :=
  JObj [("agentRunId", JStr runId); ("state", JStr state)]%string.
Definition postAgentRun (q : Request) : Svc reply :=
  hookedRoute q (authenticateAgent false q) agentCommandErrorHandler (fun auth =>
    runRoute q auth (fun agent p sid =>
      input ← encodeAs "RequestAgentRunInput" "INVALID_AGENT_COMMAND" (bodyOf q);
      '(runId, state, created) ← ag_request agent p sid (rq_roomId q) (default EmptyString (textField "triggerEventId" input))
                                   (admitCreate (rq_roomId q) p);
      b ← encodeAs "AgentRunAccepted" "INVALID_AGENT_RESPONSE" (acceptedRun runId state);
      mret (sendJson (if (created : bool) then 202 else 200) b))).
Definition postAgentCancel (q : Request) : Svc reply :=
  hookedRoute q (authenticateAgent true q) agentCommandErrorHandler (fun auth =>
    runRoute q auth (fun agent p sid =>
      encodeAs "CancelAgentRunInput" "INVALID_AGENT_COMMAND" (match bodyOf q with JNull => JObj [] | j => j end);;
      runId ← ag_cancel agent p sid (rq_roomId q) (rq_second q);
      b ← encodeAs "CancelAgentRunAccepted" "INVALID_AGENT_RESPONSE" (acceptedRun runId "cancelled");
      mret (sendJson 202 b))).
Definition getAgentCurrentRoute (q : Request) : Svc reply :=
  hookedRoute q (authenticateAgent false q) defaultErrorHandler (fun auth =>
    runRoute q auth (fun agent p sid =>
      current ← ag_current agent p sid (rq_roomId q);
      b ← encodeAs "AgentCurrentState" "INVALID_AGENT_CURRENT_STATE" current;
      mret (sendJson 200 b))).
Definition putAgentSettings (q : Request) : Svc reply :=
  hookedRoute q (authenticateAgent true q) agentCommandErrorHandler (fun auth =>
    runRoute q auth (fun agent p sid =>
      input ← encodeAs "AgentSettingsInput" "INVALID_AGENT_COMMAND" (bodyOf q);
      result ← ag_settings agent p sid (rq_roomId q) (default false (asBool (field "enabled" input)));
      b ← encodeAs "AgentSettingsResponse" "INVALID_AGENT_RESPONSE" result;
      mret (sendJson 200 b))).

(** *** Governance *)

Definition governanceRoute (q : Request) (h : GovernanceService W -> option AuthSession -> Svc reply) : option (Svc reply) :=
  match dp_governance d, dp_sessions d with
  | Some service, Some sessions => Some (noStore <$> answering sendError (
      principal ← se_get sessions (rq_cookie q);
      h service principal))
  | _, _ => None
  end.
(** [authenticateDeletion]. *)
Definition authenticateDeletion (service : GovernanceService W) (sessions : SessionService W) (q : Request)
    : Svc (reply + AuthSession) :=
  try_catch (
    principal ← se_get sessions (rq_cookie q);
    match principal with
    | None => mret (inl (noStore (refuse 401 "AUTH_REQUIRED")))
    | Some p => go_authorizeRoom service (Some p) (rq_roomId q);; mret (inr p)
    end)
    (fun e => let '(status, code) := sendError e in mret (inl (noStore (refuse status code)))).
(** [DELETE /v1/rooms/:roomId]. *)
Definition deleteRoomRoute (q : Request) : option (Svc reply) :=
  match dp_governance d, dp_sessions d with
  | Some service, Some sessions =>
      Some (hookedRoute q (authenticateDeletion service sessions q) deletionBodyError (fun p =>
        noStore <$> answering sendError (
          accepted ← go_requestDeletion service p (rq_roomId q) (bodyOf q);
          mret (sendJson 202 accepted))))
  | _, _ => None
  end.
(** [GET /v1/deletions/:deletionJobId]; the identifier is the first parameter of the path. *)
Definition getDeletion (q : Request) : option (Svc reply) :=
  governanceRoute q (fun service principal => sendJson 200 <$> go_deletionStatus service principal (rq_roomId q)).
Definition getRoomDeletionRoute (q : Request) : option (Svc reply) :=
  governanceRoute q (fun service principal => sendJson 200 <$> go_deletionStatusForRoom service principal (rq_roomId q)).
Definition QUOTED : string := String (chr 34) EmptyString.
Definition attachment (filename : string) : string := ("attachment; filename=" ++ QUOTED ++ filename ++ QUOTED)%string.
Definition getExport (q : Request) : option (Svc reply) :=
  governanceRoute q (fun service principal =>
    e ← go_exportRoom service principal (rq_roomId q) (queryJson q);
    mret (withHeader "Content-Disposition" (attachment (ex_filename e))
            (Reply 200 (Some (ex_contentType e)) [] None (BText (ex_body e))))).
End Handlers.
