(* ===== verification/ExportFile.v ===== *)
(** * The file of an export

    How the server writes a document of [Exports] as JSON or as a table
    ([apps/server/src/modules/governance/governance-service.ts], [exportCsv]) and how the
    browser reads, checks and names the file
    ([apps/web/src/lib/session/session-gateway.ts], [readBoundedExportText],
    [validateJsonExport], [validateCsvExport], [safeExportFileName]).

    [JSON.stringify] and [JSON.parse] are the class [JsonText]. *)
From S2P Require Import Prelude Text Utf JsDate JsValue Contracts Database Frames Echo Trace Exports Http.
#[local] Set Warnings "-register-all,-clear-no-such-hyp,-level-tolerance".

(** ** [JSON.stringify] and [JSON.parse] *)

Class JsonText : Type := { stringify : wire -> string; parseJson : string -> option wire }.
(** The numbers of a value that has any. *)
Definition plainNumber (n : jsnum) : bool := match n with NNegZero | NNonFinite => false | _ => true end.
Fixpoint plainTree (j : json) : bool :=
  match j with
  | JNum n => plainNumber n
  | JArr l => forallb plainTree l
  | JObj fs => bool_decide (NoDup (map fst fs)) && forallb (fun f => plainTree (snd f)) fs
  | _ => true
  end.
Definition nodeNumbers (n : ConceptNode) : list jsnum := [po_x (nd_position n); po_y (nd_position n)].
Definition edgeNumbers (e : ConceptEdge) : list jsnum :=
  match eg_evidence e with
  | Some v => let c := ee_channels v in [ch_support c; ch_challenge c; ch_uncertain c; ch_question c; ee_activityScore v]
  | None => []
  end.
Definition snapshotNumbers (s : ConceptMapSnapshot) : list jsnum :=
  concat (map nodeNumbers (cs_nodes s)) ++ concat (map edgeNumbers (cs_edges s)).
Definition patchNumbers (p : ConceptMapPatch) : list jsnum :=
  concat (map nodeNumbers (pt_nodesAdded p ++ pt_nodesUpdated p)) ++ concat (map edgeNumbers (pt_edgesAdded p ++ pt_edgesUpdated p))
  ++ concat (map (fun u => [pu_x u; pu_y u]) (pt_positionUpdates p)) ++ [pt_changeScore p].
Definition viewNumbers (v : TraceView) : list jsnum :=
  let m := tw_metrics v in
  [mt_participationBalance m; mt_reciprocity m; mt_agentShare m; mt_semanticCoverage m]
  ++ concat (map (fun e => match te_evidence e with
       | Some t => let c := tv_channels t in [tc_positive c; tc_challenge c; tc_uncertain c; tv_weight t]
       | None => []
       end) (tw_edges v)).
Definition windowNumbers (w : TraceWindow) : list jsnum :=
  viewNumbers (wn_observed w) ++ viewNumbers (wn_human_only w) ++ viewNumbers (wn_lineage_adjusted w).
Definition bundleNumbers (b : SnaProjectionBundle) : list jsnum := windowNumbers (sn_recent_10m b) ++ windowNumbers (sn_session_45m b).
Definition plainProjection (p : export_projection) : bool :=
  forallb plainNumber (match p with XEcho s => snapshotNumbers s | XTrace b => bundleNumbers b end).
Definition plainExport (x : TeacherRoomExport) : bool :=
  forallb plainTree (xd_events x ++ xd_artifacts x ++ xd_artifactSources x ++ xd_projectionSources x)
  && forallb plainProjection (xd_projections x).
(** A value that its text gives back: one without minus zero and with one entry per key. *)
Definition plainWire (v : wire) : bool :=
  match v with
  | WJson j => plainTree j
  | WSnapshot s => forallb plainNumber (snapshotNumbers s)
  | WBundle b => forallb plainNumber (bundleNumbers b)
  | WPatches p => forallb plainNumber (concat (map patchNumbers (pp_patches p)))
  | WTimeline t => forallb plainNumber (concat (map patchNumbers (tl_patches t))
                     ++ match tl_baseSnapshot t with Some b => snapshotNumbers b | None => [] end)
  | WExport x => plainExport x
  end.
Record JsonTextLaws `{JsonText} : Prop := {
  parse_stringify v : plainWire v = true -> parseJson (stringify v) = Some v;
  (** control characters are escaped, and there is always a text *)
  stringify_printable v : forallb (fun c => 32 <=? code c) (list_ascii_of_string (stringify v)) = true;
  stringify_something v : stringify v <> EmptyString;
}.

(** ** The server *)

Section Writing.
Context `{JsonText}.
Definition projectionWire (p : export_projection) : wire := match p with XEcho s => WSnapshot s | XTrace b => WBundle b end.
Definition manifestOf (x : TeacherRoomExport) : json :=
  JObj [("schemaVersion", JNum (NInt 1)); ("exportKind", JStr "teacher_room"); ("roomId", JStr (xd_roomId x));
        ("throughRoomSeq", JNum (NInt (xd_throughRoomSeq x)))]%string.
(** [exportCsv]: its rows and their text. *)
Definition rowsOf (x : TeacherRoomExport) : list (string * wire) :=
  ("manifest"%string, WJson (manifestOf x))
  :: map (fun v => ("event"%string, WJson v)) (xd_events x)
  ++ map (fun v => ("artifact"%string, WJson v)) (xd_artifacts x)
  ++ map (fun v => ("projection"%string, projectionWire v)) (xd_projections x)
  ++ map (fun v => ("artifact_provenance"%string, WJson v)) (xd_artifactSources x)
  ++ map (fun v => ("projection_provenance"%string, WJson v)) (xd_projectionSources x).
Definition exportCsv (x : TeacherRoomExport) : string :=
  csvText (map (fun row => (fst row, stringify (snd row))) (rowsOf x)).
(** The body of an export in one of its two formats. *)
Inductive ExportFormat : Type := json_format | csv_format.
Definition formatText (f : ExportFormat) : string := match f with json_format => "json" | csv_format => "csv" end.
Definition exportBody (f : ExportFormat) (x : TeacherRoomExport) : string :=
  match f with json_format => stringify (WExport x) | csv_format => exportCsv x end.
Definition exportFilename (f : ExportFormat) : string := ("learning-orbit-room-export." ++ formatText f)%string.
Definition exportContentType (f : ExportFormat) : string :=
  match f with json_format => "application/json; charset=utf-8" | csv_format => "text/csv; charset=utf-8" end.
End Writing.
Definition EXPORT_MAX_BYTES : Z := 32 * 1024 * 1024.

(** ** The browser *)

(** Bytes of a text, and the text of bytes, without a mark of the byte order. *)
Definition bytesOf (t : string) : bytes := map code (list_ascii_of_string t).
Definition BYTE_ORDER_MARK : bytes := [239; 187; 191].
Fixpoint stripBytes (p l : bytes) : option bytes :=
  match p, l with
  | [], _ => Some l
  | a :: p', b :: l' => if a =? b then stripBytes p' l' else None
  | _ :: _, [] => None
  end.
Definition decodeText (b : bytes) : option string :=
  let b := default b (stripBytes BYTE_ORDER_MARK b) in
  match decode b with Some _ => Some (string_of_list_ascii (map chr b)) | None => None end.

(** Headers are texts of one byte per character: their white space, and [trim]. *)
Definition isSpaceChar (c : ascii) : bool := one_of (map chr [9; 10; 11; 12; 13; 32; 160]) c.
Fixpoint dropSpaces (l : list ascii) : list ascii :=
  match l with c :: l' => if isSpaceChar c then dropSpaces l' else l | [] => [] end.
Definition trimSpaces (l : list ascii) : list ascii := rev (dropSpaces (rev (dropSpaces l))).
(** [exactUtf8ContentType]. *)
Fixpoint splitOn (c : ascii) (l : list ascii) : list (list ascii) :=
  match l with
  | [] => [[]]
  | d :: l' =>
      match splitOn c l' with
      | part :: parts => if is_char c d then [] :: part :: parts else (d :: part) :: parts
      | [] => []
      end
  end.
Definition parts (c : ascii) (t : string) : list string := map (fun p => string_of_list_ascii (trimSpaces p)) (splitOn c (list_ascii_of_string t)).
(** [/^charset\s*=\s*utf-8$/i], for a text without white space at its ends: what is left
    and right of the first equals sign, trimmed. *)
Definition isCharset (t : string) : bool :=
  match parts "="%char t with
  | [name; value] => bool_decide (lower name = "charset"%string) && bool_decide (lower value = "utf-8"%string)
  | _ => false
  end.
Definition exactUtf8ContentType (value : option string) (expected : string) : bool :=
  match value with
  | None | Some EmptyString => false
  | Some v =>
      match parts ";"%char v with
      | first :: rest =>
          bool_decide (lower first = expected) && match rest with [] => true | [p] => isCharset p | _ => false end
      | [] => false
      end
  end.

(** [readBoundedExportText]. *)
Definition contentLengthOf (t : string) (maxBytes : Z) : option Z :=
  if bool_decide (t = "0"%string) || isPositiveNumeral t then
    let n := dec_number t in if (n <=? MAX_SAFE_INTEGER) && (n <=? maxBytes) then Some n else None
  else None.
Fixpoint readChunks (maxBytes : Z) (read : bytes) (l : list chunk) : option bytes :=
  match l with
  | [] => Some read
  | Bytes b :: l' =>
      let total := Z.of_nat (length read + length b) in
      if (MAX_SAFE_INTEGER <? total) || (maxBytes <? total) then None else readChunks maxBytes (read ++ b) l'
  | (NotBytes | ReadFails) :: _ => None
  end.
Definition readBoundedExportText (r : Response) (maxBytes : Z) : option string :=
  if (maxBytes <? 1) || (EXPORT_MAX_BYTES <? maxBytes) then None else
  declared ← match rs_contentLength r with
             | None => Some None
             | Some t => Some <$> contentLengthOf t maxBytes
             end;
  match rs_chunks r with
  | None => match declared with Some n => if n =? 0 then Some EmptyString else None | None => Some EmptyString end
  | Some chunks =>
      b ← readChunks maxBytes [] chunks;
      if match declared with Some n => negb (Z.of_nat (length b) =? n) | None => false end then None else decodeText b
  end.

(** [safeExportFileName]: the header is searched from its start and from each semicolon. *)
(** After a word, without regard to the case of its letters. *)
Fixpoint afterWord (w l : list ascii) : option (list ascii) :=
  match w, l with
  | [], _ => Some l
  | a :: w', b :: l' => if bool_decide (lower_char a = lower_char b) then afterWord w' l' else None
  | _ :: _, [] => None
  end.
Definition afterText (w : string) (l : list ascii) : option (list ascii) := afterWord (list_ascii_of_string w) l.
(** What follows [name = ], with the white space a parameter may have. *)
Definition afterParameter (name : string) (l : list ascii) : option (list ascii) :=
  r ← afterText name (dropSpaces l);
  r ← afterText "=" (dropSpaces r);
  Some (dropSpaces r).
(** The header as it goes on after its start and after each semicolon. *)
Fixpoint afterSemicolons (l : list ascii) : list (list ascii) :=
  match l with
  | [] => []
  | c :: l' => if is_char ";"%char c then l' :: afterSemicolons l' else afterSemicolons l'
  end.
Definition starts (l : list ascii) : list (list ascii) := l :: afterSemicolons l.
Definition upTo (c : ascii) (l : list ascii) : list ascii := default [] (head (splitOn c l)).
Definition ended (l : list ascii) : bool := match dropSpaces l with [] => true | c :: _ => is_char ";"%char c end.
Definition extendedName (l : list ascii) : option (list ascii) :=
  r ← afterParameter "filename*" l;
  r ← afterText "UTF-8''" r;
  match upTo ";"%char r with [] => None | v => Some v end.
Definition quotedName (l : list ascii) : option (list ascii) :=
  r ← afterParameter "filename" l;
  match r with
  | c :: r' =>
      let v := upTo QUOTE_MARK r' in
      if is_char QUOTE_MARK c && negb (existsb (is_char "\"%char) v)
         && match drop (length v) r' with _ :: rest => ended rest | [] => false end
      then Some v else None
  | [] => None
  end.
Definition tokenName (l : list ascii) : option (list ascii) :=
  r ← afterParameter "filename" l;
  let '(v, rest) := (fix go l := match l with
    | c :: l' => if isSpaceChar c || is_char ";"%char c then ([], l) else let '(a, b) := go l' in (c :: a, b)
    | [] => ([], [])
    end) r in
  match v with [] => None | _ => if ended rest then Some v else None end.
(** [decodeURIComponent]; a text that is not ASCII is no name below anyway. *)
Definition hexOf (c : ascii) : option Z :=
  if is_digit c then Some (char_digit c) else if is_hex c then Some (code (lower_char c) - 87) else None.
Fixpoint percentDecode (l : list ascii) : option (list ascii) :=
  match l with
  | [] => Some []
  | c :: l' =>
      if is_char "%"%char c then
        match l' with
        | a :: b :: l'' => x ← hexOf a; y ← hexOf b; cons (chr (16 * x + y)) <$> percentDecode l''
        | _ => None
        end
      else cons c <$> percentDecode l'
  end.
(** The two patterns of names: safe ones, and those with a run of eight hexadecimal digits
    that is a word. *)
Definition letterOrDigit (c : ascii) : bool := is_digit c || between "a" "z" c || between "A" "Z" c.
Definition nameChar (c : ascii) : bool := letterOrDigit c || one_of ["."; "_"; "-"]%char c.
Definition isSafeName (l : list ascii) : bool :=
  match l with c :: l' => letterOrDigit c && forallb nameChar l' && (length l' <=? 95)%nat | [] => false end.
Fixpoint hexRun (l : list ascii) : nat * list ascii :=
  match l with c :: l' => if is_hex c then let '(n, r) := hexRun l' in (S n, r) else (O, l) | [] => (O, []) end.
Definition isIdentifier (l : list ascii) : bool :=
  let '(n, r) := hexRun l in
  (8 <=? n)%nat && match r with [] => true | c :: _ => one_of ["-"; "_"; "."]%char c end.
Fixpoint bearsIdentifier (word : bool) (l : list ascii) : bool :=
  (word && isIdentifier l) || match l with c :: l' => bearsIdentifier (one_of ["-"; "_"]%char c) l' | [] => false end.
Fixpoint hasTwoDots (l : list ascii) : bool :=
  match l with a :: ((b :: _) as l') => (is_char "."%char a && is_char "."%char b) || hasTwoDots l' | _ => false end.
Definition endsWith (w l : list ascii) : bool := bool_decide (drop (length l - length w) l = w).
Definition acceptableName (format : string) (l : list ascii) : bool :=
  isSafeName l && negb (hasTwoDots l)
  && endsWith (list_ascii_of_string ("." ++ format)) (map lower_char l)
  && negb (bearsIdentifier true l).
Definition isAttachment (l : list ascii) : bool :=
  match afterText "attachment" l with Some r => ended r | None => false end.
Definition candidateName (l : list ascii) : option (list ascii) :=
  match first_some extendedName (starts l) with
  | Some v => percentDecode (trimSpaces v)
  | None => match first_some quotedName (starts l) with Some v => Some v | None => first_some tokenName (starts l) end
  end.
Definition safeExportFileName (header : option string) (format : string) : string :=
  let fallback := ("learning-orbit-room-export." ++ format)%string in
  match header with
  | None => fallback
  | Some h =>
      let l := list_ascii_of_string h in
      if isAttachment l then
        match candidateName l with
        | Some name => if acceptableName format name then string_of_list_ascii name else fallback
        | None => fallback
        end
      else fallback
  end.

Section Reading.
Context `{Schemas} `{Locale} `{JsonText}.
(** [validateJsonExport]: the document, written again. *)
Definition validateJsonExport (text roomId : string) : option string :=
  match parseJson text with
  | Some (WExport x) =>
      if parseExport x && bool_decide (xd_roomId x = roomId) then Some (stringify (WExport x)) else None
  | _ => None
  end.
(** [validateCsvExport]: the variables of its loop; the lists are built backwards. *)
Record csv_parts : Type := CsvParts {
  cp_manifest : option json;
  cp_events : list wire;
  cp_artifacts : list wire;
  cp_projections : list wire;
  cp_artifactSources : list wire;
  cp_projectionSources : list wire;
}.
(** An object that is no array; of a value in its own type, what is read of a manifest. *)
Definition manifestTree (v : wire) : option json :=
  match v with
  | WJson (JObj fs) => Some (JObj fs)
  | WJson _ => None
  | WExport x => Some (manifestOf x)
  | _ => Some (JObj [])
  end.
Definition takeRecord (s : csv_parts) (record : string * string) : option csv_parts :=
  let '(kind, encoded) := record in
  value ← parseJson encoded;
  let '(CsvParts m e a p sa sp) := s in
  if bool_decide (kind = "manifest"%string) then
    match m, manifestTree value with
    | None, Some t => Some (CsvParts (Some t) e a p sa sp)
    | _, _ => None
    end
  else if bool_decide (kind = "event"%string) then Some (CsvParts m (value :: e) a p sa sp)
  else if bool_decide (kind = "artifact"%string) then Some (CsvParts m e (value :: a) p sa sp)
  else if bool_decide (kind = "projection"%string) then Some (CsvParts m e a (value :: p) sa sp)
  else if bool_decide (kind = "artifact_provenance"%string) then Some (CsvParts m e a p (value :: sa) sp)
  else if bool_decide (kind = "projection_provenance"%string) then Some (CsvParts m e a p sa (value :: sp))
  else None.
Definition asTree (v : wire) : option json := match v with WJson j => Some j | _ => None end.
Definition asProjection (v : wire) : option export_projection :=
  match v with WSnapshot s => Some (XEcho s) | WBundle b => Some (XTrace b) | _ => None end.
(** The document of the parts, as far as it has the structure of one. *)
Definition documentOf (s : csv_parts) : option TeacherRoomExport :=
  m ← cp_manifest s;
  _ ← guardO (bool_decide (field "schemaVersion" m = Some (JNum (NInt 1)))
              && bool_decide (textIn "exportKind" m = Some "teacher_room"%string));
  roomId ← textIn "roomId" m;
  through ← intIn "throughRoomSeq" m;
  events ← mapM asTree (rev (cp_events s));
  artifacts ← mapM asTree (rev (cp_artifacts s));
  projections ← mapM asProjection (rev (cp_projections s));
  artifactSources ← mapM asTree (rev (cp_artifactSources s));
  projectionSources ← mapM asTree (rev (cp_projectionSources s));
  Some (MkExportDocument roomId through events artifacts projections artifactSources projectionSources).
Fixpoint takeRecords (s : csv_parts) (l : list (string * string)) : option csv_parts :=
  match l with [] => Some s | r :: l' => s' ← takeRecord s r; takeRecords s' l' end.
Definition validateCsvExport (text roomId : string) : option string :=
  records ← parseCsvRecords text;
  s ← takeRecords (CsvParts None [] [] [] [] []) records;
  x ← documentOf s;
  if parseExport x && bool_decide (xd_roomId x = roomId) then Some text else None.
Definition validateExport (f : ExportFormat) : string -> string -> option string :=
  match f with json_format => validateJsonExport | csv_format => validateCsvExport end.
End Reading.

(** ** A file has a safe name *)

Lemma fallback_acceptable f : acceptableName (formatText f) (list_ascii_of_string ("learning-orbit-room-export." ++ formatText f)) = true.
Proof. by destruct f; vm_compute. Qed.
Lemma file_name_acceptable header f :
  acceptableName (formatText f) (list_ascii_of_string (safeExportFileName header (formatText f))) = true.
Proof.
  unfold safeExportFileName. pose proof (fallback_acceptable f) as Hf.
  destruct header as [h|]; [|done]. destruct (isAttachment _); [|done]. destruct (candidateName _) as [name|]; [|done].
  destruct (acceptableName (formatText f) name) eqn:Hn; [by rewrite list_ascii_of_string_of_list_ascii|done].
Qed.
Lemma file_name_of_server f :
  safeExportFileName (Some ("attachment; filename=" ++ String QUOTE_MARK (exportFilename f ++ String QUOTE_MARK EmptyString))%string)
    (formatText f) = exportFilename f.
Proof. by destruct f; vm_compute. Qed.
Lemma content_type_of_server f : exactUtf8ContentType (Some (exportContentType f))
  (match f with json_format => "application/json" | csv_format => "text/csv" end) = true.
Proof. by destruct f; vm_compute. Qed.

(** ** A file that is read is the one that was written *)

Lemma readChunks_all maxBytes l read : (forall c, c ∈ l -> exists b, c = Bytes b) ->
  let whole := read ++ concat (map (fun c => match c with Bytes b => b | _ => [] end) l) in
  Z.of_nat (length whole) <= maxBytes -> maxBytes <= MAX_SAFE_INTEGER -> readChunks maxBytes read l = Some whole.
Proof.
  revert read. induction l as [|c l IH]; intros read Hl whole Hn Hm; [by subst whole; simpl; rewrite app_nil_r|].
  destruct (Hl c) as [b ->]; [by left|]. subst whole. cbn [map concat] in *. rewrite app_assoc in *.
  cbn [readChunks]. rewrite <- length_app.
  assert (Z.of_nat (length (read ++ b)) <= maxBytes) as Hb by (rewrite (length_app (read ++ b)) in Hn; lia).
  replace (MAX_SAFE_INTEGER <? Z.of_nat (length (read ++ b))) with false by (symmetry; apply Z.ltb_ge; lia).
  replace (maxBytes <? Z.of_nat (length (read ++ b))) with false by (symmetry; apply Z.ltb_ge; lia).
  cbn [orb]. apply IH; [|done|done]. intros c Hc. apply Hl. by right.
Qed.
Lemma code_chr_bytes l : Forall (fun z => 0 <= z < 256) l -> map code (map chr l) = l.
Proof.
  induction 1 as [|z l Hz _ IH]; [done|]. cbn [map]. rewrite IH. f_equal. unfold code, chr. rewrite N_ascii_embedding by lia. lia.
Qed.
Lemma chr_code c : chr (code c) = c.
Proof. unfold chr, code. by rewrite N2Z.id, ascii_N_embedding. Qed.
Lemma chr_bytesOf t : string_of_list_ascii (map chr (bytesOf t)) = t.
Proof.
  unfold bytesOf. rewrite map_map. rewrite <- (string_of_list_ascii_of_string t) at 2. f_equal.
  rewrite (map_ext _ (fun c => c)) by apply chr_code. apply map_id.
Qed.
(** A text that is proper UTF-8 and has no mark at its beginning. *)
Definition properText (t : string) : Prop := is_Some (decode (bytesOf t)) /\ stripBytes BYTE_ORDER_MARK (bytesOf t) = None.
Lemma decodeText_proper t : properText t -> decodeText (bytesOf t) = Some t.
Proof. intros [[u Hu] Hm]. unfold decodeText. rewrite Hm. cbn [default]. by rewrite Hu, chr_bytesOf. Qed.

(** What the browser is given of a body: its bytes in pieces, and perhaps their number. *)
Record carries (r : Response) (t : string) : Prop := {
  ca_chunks : exists l, rs_chunks r = Some (map Bytes l) /\ concat l = bytesOf t;
  ca_length : rs_contentLength r = None \/ rs_contentLength r = Some (dec_string (Z.of_nat (length (bytesOf t))));
}.
Lemma readBounded_carries r t : carries r t -> properText t -> Z.of_nat (length (bytesOf t)) <= EXPORT_MAX_BYTES ->
  readBoundedExportText r EXPORT_MAX_BYTES = Some t.
Proof.
  intros [(l & Hl & Hc) Hlen] Hp Hn. unfold readBoundedExportText. change ((EXPORT_MAX_BYTES <? 1) || (EXPORT_MAX_BYTES <? EXPORT_MAX_BYTES)) with false.
  cbn iota. rewrite Hl.
  assert (readChunks EXPORT_MAX_BYTES [] (map Bytes l) = Some (bytesOf t)) as Hr.
  { rewrite readChunks_all.
    - cbn [app]. f_equal. rewrite map_map, map_id. done.
    - intros c (b & -> & _)%list_elem_of_fmap. eauto.
    - cbn [app]. rewrite map_map, map_id, Hc. done.
    - unfold EXPORT_MAX_BYTES, MAX_SAFE_INTEGER. lia. }
  rewrite Hr. destruct Hlen as [-> | ->]; cbn [mbind option_bind fmap option_fmap option_map].
  - by apply decodeText_proper.
  - set (n := Z.of_nat (length (bytesOf t))) in *. assert (contentLengthOf (dec_string n) EXPORT_MAX_BYTES = Some n) as ->.
    { unfold contentLengthOf. assert (bool_decide (dec_string n = "0"%string) || isPositiveNumeral (dec_string n) = true) as ->.
      { destruct (decide (n = 0)) as [->|]; [done|]. rewrite dec_string_positive by lia. apply orb_true_r. }
      rewrite dec_string_number by lia. replace (n <=? MAX_SAFE_INTEGER) with true; [replace (n <=? EXPORT_MAX_BYTES) with true; [done|]|];
        symmetry; apply Z.leb_le; unfold EXPORT_MAX_BYTES, MAX_SAFE_INTEGER in *; lia. }
    cbn [fmap option_fmap option_map mbind option_bind]. rewrite Z.eqb_refl. cbn [negb]. by apply decodeText_proper.
Qed.

(** ** A document is read back from either of its texts *)

Section RoundTrip.
Context `{Schemas} `{Locale} `{JsonText} (JL : JsonTextLaws).

Definition written (row : string * wire) : string * string := (fst row, stringify (snd row)).
Lemma takeRecords_app s l l' : takeRecords s (l ++ l') = s' ← takeRecords s l; takeRecords s' l'.
Proof. revert s. induction l as [|r l IH]; intros s; [done|]. cbn [app takeRecords]. destruct (takeRecord s r); [apply IH|done]. Qed.
(** The rows of one kind, each of which adds a value to the parts. *)
Lemma takeRecords_kind {A} kind (f : A -> wire) (push : wire -> csv_parts -> csv_parts) (l : list A) s :
  (forall s t v, parseJson t = Some v -> takeRecord s (kind, t) = Some (push v s)) ->
  forallb (fun x => plainWire (f x)) l = true ->
  takeRecords s (map written (map (fun x => (kind, f x)) l)) = Some (foldl (fun s x => push (f x) s) s l).
Proof.
  intros Hk. revert s. induction l as [|x l IH]; intros s Hl; [done|]. cbn [forallb] in Hl. apply andb_true_iff in Hl as [Hx Hl].
  cbn [map takeRecords foldl]. change (written (kind, f x)) with (kind, stringify (f x)). rewrite (Hk s _ (f x)) by by apply (parse_stringify JL).
  cbn [mbind option_bind]. by apply IH.
Qed.

Definition push_event v s := CsvParts (cp_manifest s) (v :: cp_events s) (cp_artifacts s) (cp_projections s) (cp_artifactSources s) (cp_projectionSources s).
Definition push_artifact v s := CsvParts (cp_manifest s) (cp_events s) (v :: cp_artifacts s) (cp_projections s) (cp_artifactSources s) (cp_projectionSources s).
Definition push_projection v s := CsvParts (cp_manifest s) (cp_events s) (cp_artifacts s) (v :: cp_projections s) (cp_artifactSources s) (cp_projectionSources s).
Definition push_asource v s := CsvParts (cp_manifest s) (cp_events s) (cp_artifacts s) (cp_projections s) (v :: cp_artifactSources s) (cp_projectionSources s).
Definition push_psource v s := CsvParts (cp_manifest s) (cp_events s) (cp_artifacts s) (cp_projections s) (cp_artifactSources s) (v :: cp_projectionSources s).

Ltac push_all := intros l; induction l as [|x l IH] using rev_ind; intros; [done|]; rewrite foldl_app, IH, map_app, rev_app_distr; done.
Lemma push_events (l : list json) m e a p sa sp : foldl (fun s x => push_event (WJson x) s) (CsvParts m e a p sa sp) l
  = CsvParts m (rev (map WJson l) ++ e) a p sa sp.
Proof. revert l m e a p sa sp. push_all. Qed.
Lemma push_artifacts (l : list json) m e a p sa sp : foldl (fun s x => push_artifact (WJson x) s) (CsvParts m e a p sa sp) l
  = CsvParts m e (rev (map WJson l) ++ a) p sa sp.
Proof. revert l m e a p sa sp. push_all. Qed.
Lemma push_projections (l : list export_projection) m e a p sa sp :
  foldl (fun s x => push_projection (projectionWire x) s) (CsvParts m e a p sa sp) l = CsvParts m e a (rev (map projectionWire l) ++ p) sa sp.
Proof. revert l m e a p sa sp. push_all. Qed.
Lemma push_asources (l : list json) m e a p sa sp : foldl (fun s x => push_asource (WJson x) s) (CsvParts m e a p sa sp) l
  = CsvParts m e a p (rev (map WJson l) ++ sa) sp.
Proof. revert l m e a p sa sp. push_all. Qed.
Lemma push_psources (l : list json) m e a p sa sp : foldl (fun s x => push_psource (WJson x) s) (CsvParts m e a p sa sp) l
  = CsvParts m e a p sa (rev (map WJson l) ++ sp).
Proof. revert l m e a p sa sp. push_all. Qed.

Lemma forallb_mapped {A B} (f : A -> B) (p : B -> bool) l : forallb p (map f l) = forallb (fun x => p (f x)) l.
Proof. induction l as [|x l IH]; [done|]. simpl. by rewrite IH. Qed.
Lemma plainProjection_wire p : plainProjection p = plainWire (projectionWire p).
Proof. by destruct p. Qed.
Record rows_plain (x : TeacherRoomExport) : Prop := {
  rp_events : forallb (fun v => plainWire (WJson v)) (xd_events x) = true;
  rp_artifacts : forallb (fun v => plainWire (WJson v)) (xd_artifacts x) = true;
  rp_projections : forallb (fun p => plainWire (projectionWire p)) (xd_projections x) = true;
  rp_artifactSources : forallb (fun v => plainWire (WJson v)) (xd_artifactSources x) = true;
  rp_projectionSources : forallb (fun v => plainWire (WJson v)) (xd_projectionSources x) = true;
}.
Lemma plainExport_rows x : plainExport x = true -> rows_plain x.
Proof.
  unfold plainExport. rewrite !forallb_app. intros [Hx Hpr]%andb_true_iff. split_bools. constructor; try done.
  rewrite <- Hpr. clear. induction (xd_projections x) as [|p l IH]; [done|]. simpl. by rewrite IH, plainProjection_wire.
Qed.
Lemma manifest_plain x : plainWire (WJson (manifestOf x)) = true.
Proof. by destruct x; vm_compute. Qed.

Lemma takeRecords_rows x : plainExport x = true ->
  takeRecords (CsvParts None [] [] [] [] []) (map written (rowsOf x))
  = Some (CsvParts (Some (manifestOf x)) (rev (map WJson (xd_events x))) (rev (map WJson (xd_artifacts x)))
            (rev (map projectionWire (xd_projections x))) (rev (map WJson (xd_artifactSources x))) (rev (map WJson (xd_projectionSources x)))).
Proof.
  intros Hp%plainExport_rows. destruct Hp as [He Ha Hpr Hsa Hsp]. unfold rowsOf. cbn [map takeRecords].
  change (written ("manifest"%string, WJson (manifestOf x))) with ("manifest"%string, stringify (WJson (manifestOf x))).
  assert (takeRecord (CsvParts None [] [] [] [] []) ("manifest"%string, stringify (WJson (manifestOf x)))
    = Some (CsvParts (Some (manifestOf x)) [] [] [] [] [])) as ->.
  { unfold takeRecord. rewrite (parse_stringify JL) by apply manifest_plain. done. }
  cbn [mbind option_bind]. rewrite !map_app, !takeRecords_app.
  rewrite (takeRecords_kind "event"%string WJson push_event) by (done || (intros [] ? ? Hv; unfold takeRecord; by rewrite Hv)). cbn [mbind option_bind].
  rewrite push_events, takeRecords_app.
  rewrite (takeRecords_kind "artifact"%string WJson push_artifact) by (done || (intros [] ? ? Hv; unfold takeRecord; by rewrite Hv)). cbn [mbind option_bind].
  rewrite push_artifacts, takeRecords_app.
  rewrite (takeRecords_kind "projection"%string projectionWire push_projection) by (done || (intros [] ? ? Hv; unfold takeRecord; by rewrite Hv)).
  cbn [mbind option_bind]. rewrite push_projections, takeRecords_app.
  rewrite (takeRecords_kind "artifact_provenance"%string WJson push_asource) by (done || (intros [] ? ? Hv; unfold takeRecord; by rewrite Hv)).
  cbn [mbind option_bind]. rewrite push_asources.
  rewrite (takeRecords_kind "projection_provenance"%string WJson push_psource) by (done || (intros [] ? ? Hv; unfold takeRecord; by rewrite Hv)).
  cbn [mbind option_bind]. rewrite push_psources, !app_nil_r. done.
Qed.
Lemma mapM_asTree l : mapM asTree (map WJson l) = Some l.
Proof. induction l as [|x l IH]; [done|]. simpl. by rewrite IH. Qed.
Lemma mapM_asProjection l : mapM asProjection (map projectionWire l) = Some l.
Proof. induction l as [|x l IH]; [done|]. simpl. rewrite IH. by destruct x. Qed.
Lemma documentOf_rows x : documentOf (CsvParts (Some (manifestOf x)) (rev (map WJson (xd_events x))) (rev (map WJson (xd_artifacts x)))
  (rev (map projectionWire (xd_projections x))) (rev (map WJson (xd_artifactSources x))) (rev (map WJson (xd_projectionSources x)))) = Some x.
Proof.
  unfold documentOf. cbn [cp_manifest cp_events cp_artifacts cp_projections cp_artifactSources cp_projectionSources].
  rewrite !rev_involutive, !mapM_asTree, mapM_asProjection. destruct x. reflexivity.
Qed.
Lemma rows_ok x : forallb rowOk (map written (rowsOf x)) = true.
Proof.
  rewrite forallb_mapped. apply forallb_forall. intros [kind v] Hin. unfold rowOk, written, cellText. cbn [fst snd].
  assert (plainField kind && forallb (fun c => negb (is_char CARRIAGE c)) (list_ascii_of_string kind) = true) as ->.
  { unfold rowsOf in Hin. cbn [In] in Hin. rewrite !in_app_iff, !in_map_iff in Hin.
    destruct Hin as [[= <- _]|[(? & [= <- _] & _)|[(? & [= <- _] & _)|[(? & [= <- _] & _)|[(? & [= <- _] & _)|(? & [= <- _] & _)]]]]]; done. }
  rewrite bool_decide_false by apply (stringify_something JL). cbn [negb andb]. apply forallb_forall. intros c Hc.
  pose proof (stringify_printable JL v) as Hall. rewrite forallb_forall in Hall. specialize (Hall c Hc). apply Z.leb_le in Hall.
  unfold is_char. rewrite bool_decide_false; [done|]. intros ->. by vm_compute in Hall.
Qed.
Lemma rows_count x : exportSchema x = true -> (length (map written (rowsOf x)) <= EXPORT_MAX_RECORDS)%nat.
Proof. intros Hs%export_rows_bounded. rewrite length_map. unfold rowsOf. cbn [length]. rewrite !length_app, !length_map. lia. Qed.

Lemma validateExport_written f x : plainExport x = true -> parseExport x = true ->
  validateExport f (exportBody f x) (xd_roomId x) = Some (exportBody f x).
Proof.
  intros Hp Hx. destruct f; cbn [validateExport exportBody].
  - unfold validateJsonExport. rewrite (parse_stringify JL) by done. rewrite Hx, bool_decide_true by done. done.
  - unfold validateCsvExport, exportCsv. fold written.
    change (map (fun row => (fst row, stringify (snd row))) (rowsOf x)) with (map written (rowsOf x)).
    rewrite parseCsv_csvText by (apply rows_ok || (apply rows_count; unfold parseExport in Hx; by apply andb_true_iff in Hx as [Hx _])).
    cbn [mbind option_bind]. rewrite takeRecords_rows by done. cbn [mbind option_bind]. rewrite documentOf_rows.
    cbn [mbind option_bind]. by rewrite Hx, bool_decide_true.
Qed.
(** What passes the browser's check of either format is a document of the room asked for. *)
Lemma validateExport_sound f t roomId t' : validateExport f t roomId = Some t' ->
  exists x, parseExport x = true /\ xd_roomId x = roomId.
Proof.
  destruct f; cbn [validateExport]; unfold validateJsonExport, validateCsvExport.
  - destruct (parseJson t) as [[| | | | |x]|]; try done. destruct (parseExport x && _) eqn:Hx; [|done]. split_bools. eauto.
  - destruct (parseCsvRecords t) as [records|]; [|done]. cbn. destruct (takeRecords _ _) as [s|]; [|done]. cbn.
    destruct (documentOf s) as [x|]; [|done]. cbn. destruct (parseExport x && _) eqn:Hx; [|done]. split_bools. eauto.
Qed.
End RoundTrip.
