(* ===== verification/Gateway.v ===== *)
(** * The browser's gateway: [apps/web/src/lib/session/session-gateway.ts]

    [FetchSessionGateway] over the [fetch] it is given, with the paths of
    [packages/contracts/src/routes.ts]. Every method sends one request (a join two), tells
    an answer from an error that the contract allows for it, and checks what it was given
    against what it asked for. [fetch] is a function of the state [N] of the network; the
    options that are the same for every request (credentials, cache, redirect) and the
    signals are left out: an aborted request is a rejected one. *)
From S2P Require Import Prelude Text JsDate JsValue Contracts Database Authorization Frames Utf SessionClient Rooms Hydrated Echo Trace JsNumber Exports Http Wire ExportFile.
#[local] Set Warnings "-register-all,-clear-no-such-hyp,-level-tolerance".

(** ** Paths: [routes.ts] *)

Definition RANGE_ERROR (what : string) : thrown := Thrown what.
Definition queryText (number : Z) : string := dec_string number.
Definition safeFrom (lo hi : Z) (v : option jsnum) : option (option Z) :=
  match v with
  | None => Some None
  | Some n => match asSafeInteger n with
              | Some z => if (lo <=? z) && (z <=? hi) then Some (Some z) else None
              | None => None
              end
  end.

Section Paths.
Context `{UrlSearch}.

Definition paramIf (k : string) (v : option string) : list (string * string) :=
  match v with Some s => [(k, s)] | None => [] end.
(** [?] and the parameters, if there are any. *)
Definition suffixOf (params : list (string * string)) : string :=
  match params with [] => EmptyString | _ => ("?" ++ writeSearch params)%string end.
(** [room(roomId, suffix)] is [roomRoute] of [Frames]. *)
Definition roomEvents (roomId : string) (afterSeq limit : option jsnum) : result thrown string :=
  match safeFrom 0 MAX_SAFE_INTEGER afterSeq, safeFrom 1 500 limit with
  | None, _ => Err (RANGE_ERROR "afterSeq")
  | _, None => Err (RANGE_ERROR "limit")
  | Some a, Some l =>
      Ok (roomRoute roomId ("/events" ++ suffixOf (paramIf "afterSeq" (queryText <$> a) ++ paramIf "limit" (queryText <$> l))))
  end.
Definition teacherMagicLinkConsume (token : string) : string :=
  "/v1/auth/teacher/magic-link/consume?token=" ++ encodeURIComponent token.
Definition mediaPath (roomId mediaId suffix : string) : string :=
  roomRoute roomId ("/media/" ++ encodeURIComponent mediaId ++ suffix).
Definition agentCancelPath (roomId agentRunId : string) : string :=
  roomRoute roomId ("/agent/runs/" ++ encodeURIComponent agentRunId ++ "/cancel").
Definition exportPath (roomId format : string) : string := roomRoute roomId ("/export?format=" ++ format).
Definition deletionPath (deletionJobId : string) : string := "/v1/deletions/" ++ encodeURIComponent deletionJobId.
Definition reviewDetailPath (roomId reviewEventId : string) : string :=
  roomRoute roomId ("/analytics/reviews/" ++ encodeURIComponent reviewEventId).
(** [analyticsProjection]: the key is one of the four. *)
Definition analyticsProjection (roomId : string) (k : ProjectionKey) (suffix : string) : string :=
  roomRoute roomId ("/analytics/" ++ encodeURIComponent (projectionKeyText k) ++ suffix).
Definition analyticsPatches (roomId : string) (k : ProjectionKey) (epoch : string) (after : option jsnum) : result thrown string :=
  if negb (isUuid epoch) then Err (RANGE_ERROR "analysisEpoch") else
  match safeFrom 0 MAX_SAFE_INTEGER after with
  | None => Err (RANGE_ERROR "afterProjectionVersion")
  | Some n => Ok (analyticsProjection roomId k
      ("/patches?" ++ writeSearch (("analysisEpoch", epoch) :: paramIf "afterProjectionVersion" (queryText <$> n))%string))
  end.
Definition analyticsTimeline (roomId : string) (k : ProjectionKey) (epoch : string) (limit : option jsnum) : result thrown string :=
  if negb (bool_decide (k ∈ [echo_teacher_shadow; echo_student_approved])) then Err (RANGE_ERROR "projectionKey") else
  if negb (isUuid epoch) then Err (RANGE_ERROR "analysisEpoch") else
  match safeFrom 1 200 limit with
  | None => Err (RANGE_ERROR "limit")
  | Some n => Ok (analyticsProjection roomId k
      ("/timeline?" ++ writeSearch (("analysisEpoch", epoch) :: paramIf "limit" (queryText <$> n))%string))
  end.
(** [analyticsQuery] of the gateway's [effectiveQuery], which has the first, third and
    fourth entry. *)
Definition REVIEW_STATUSES : list string := ["unreviewed"; "approved"; "rejected"; "corrected"]%string.
Definition analyticsQuery (roomId reviewStatus : string) (afterArtifactId : option string) (includeHistory : bool) (limit : jsnum)
    : result thrown string :=
  if negb (bool_decide (reviewStatus ∈ REVIEW_STATUSES)) then Err (RANGE_ERROR "reviewStatus") else
  if match afterArtifactId with Some a => negb (isUuid a) | None => false end then Err (RANGE_ERROR "afterArtifactId") else
  match safeFrom 1 100 (Some limit) with
  | Some (Some n) => Ok (roomRoute roomId ("/analytics/artifacts" ++ suffixOf
      (("reviewStatus", reviewStatus) :: paramIf "afterArtifactId" afterArtifactId
       ++ (if includeHistory then [("includeHistory", "true")] else []) ++ [("limit", queryText n)])%string))
  | _ => Err (RANGE_ERROR "limit")
  end.
End Paths.

(** ** [FetchSessionGateway] *)

Inductive httpMethod : Type := GET | POST | PUT | DELETE | HEAD.
#[global] Instance httpMethod_eq_dec : EqDecision httpMethod.
Proof. solve_decision. Defined.
(** What differs between requests; a body is sent as [application/json]. *)
Record RequestInit : Type := MkInit { ri_method : httpMethod; ri_body : option json; ri_accept : string }.
Definition JSON_ACCEPT : string := "application/json".
Definition getInit : RequestInit := MkInit GET None JSON_ACCEPT.
Definition sendInit (m : httpMethod) (body : json) : RequestInit := MkInit m (Some body) JSON_ACCEPT.

(** The codes that are allowed under a status. *)
Abbreviation allowlist := (list (Z * list string)).
Definition allows (l : allowlist) (status : Z) (code : string) : bool :=
  existsb (fun p => (fst p =? status) && bool_decide (code ∈ snd p)) l.
Definition ANALYTICS_ERROR_ALLOWLIST : allowlist :=
  [(400, ["INVALID_ANALYTICS_QUERY"]); (401, ["AUTH_REQUIRED"]); (403, ["PROJECTION_FORBIDDEN"; "STUDENT_ANALYTICS_NOT_PROMOTED"]);
   (404, ["ROOM_NOT_FOUND"; "PROJECTION_NOT_FOUND"; "ANALYTICS_NOT_READY"]);
   (410, ["ROOM_DELETION_IN_PROGRESS"; "RETENTION_POLICY_EXPIRED"]); (500, ["INTERNAL"]); (503, ["ANALYTICS_CORRUPT"])]%string.
Definition SESSION_RESPONSE_INVALID : thrown := GatewayError "SESSION_RESPONSE_INVALID".
Definition SESSION_NETWORK_FAILURE : thrown := GatewayError "SESSION_NETWORK_FAILURE".
Definition SESSION_IDENTITY_MISMATCH : thrown := GatewayError "SESSION_IDENTITY_MISMATCH".
(** [normalizeClassroomCode]: without white space, in capital letters. *)
Fixpoint removeSpaces (fuel : nat) (l : list ascii) : list ascii :=
  match fuel, l with
  | S fuel', c :: l' =>
      match first_some (fun p => strip_prefix p l) js_spaces with
      | Some rest => removeSpaces fuel' rest
      | None => c :: removeSpaces fuel' l'
      end
  | _, _ => []
  end.
Definition normalizeClassroomCode (value : string) : string :=
  upper (string_of_list_ascii (removeSpaces (length (list_ascii_of_string value)) (list_ascii_of_string value))).
(** The names of the contracts' errors that a method lets through. *)
Definition ofFailure {A} (r : result failure A) : result thrown A :=
  match r with Ok a => Ok a | Err e => Err (Thrown (messageOf e)) end.

(** [jsonBody]. *)
Definition jsonBody (r : Response) : option wire :=
  match rs_contentType r with
  | Some t =>
      if bool_decide (lower (string_of_list_ascii (trimSpaces (upTo ";"%char (list_ascii_of_string t)))) = "application/json"%string)
      then rs_json r else None
  | None => None
  end.
Definition jsonTree (r : Response) : option json := match jsonBody r with Some (WJson j) => Some j | _ => None end.
Definition okOption {A} (r : result failure A) : option A := match r with Ok a => Some a | Err _ => None end.

Section Gateway.
Context `{Schemas} `{Ajv} `{UrlSearch} `{Locale} `{JsonText}.
Context {N : Type} (fetch : string -> RequestInit -> N -> option Response * N).
Abbreviation GM := (M N thrown).

Definition responseInvalid {A} : GM A := throw SESSION_RESPONSE_INVALID.
Definition orInvalid {A} (x : option A) : GM A := match x with Some a => mret a | None => responseInvalid end.
(** [#request]. *)
Definition request (path : string) (init : RequestInit) : GM Response :=
  if negb (String.prefix "/v1/" path) || String.prefix "//" path then responseInvalid else fun n =>
  match fetch path init n with
  | (Some r, n') => (Ok r, n')
  | (None, n') => (Err SESSION_NETWORK_FAILURE, n')
  end.
(** [legalError]. *)
Definition legalError {A} (r : Response) (allowed : allowlist) : GM A :=
  match jsonBody r ≫= parseApiError with
  | Some code => if allows allowed (rs_status r) code then throw (GatewayError code) else responseInvalid
  | None => responseInvalid
  end.
(** What most methods do: the answers to accept, the errors to expect, how a body is read. *)
Definition exchange {A} (path : string) (init : RequestInit) (accepted : list Z) (allowed : allowlist) (decode : Response -> option A)
    : GM A :=
  r ← request path init;
  if bool_decide (rs_status r ∈ accepted) then orInvalid (decode r) else legalError r allowed.
Definition readAs (definition : string) (r : Response) : option json :=
  j ← jsonTree r; if accepts definition j then Some j else None.

(** *** Who is here *)

Definition SESSION_ALLOWLIST : allowlist := [(401, ["AUTH_REQUIRED"])]%string.
Definition getSession : GM AuthSession :=
  r ← request "/v1/auth/session" getInit;
  if rs_status r =? 401 then legalError r SESSION_ALLOWLIST
  else if negb (rs_status r =? 200) then responseInvalid
  else orInvalid (jsonTree r ≫= readSession).
Definition JOIN_ALLOWLIST : allowlist :=
  [(400, ["INVALID_JOIN_REQUEST"]); (403, ["JOIN_FORBIDDEN"]); (429, ["RATE_LIMITED"]); (503, ["ROOM_SERVICE_UNAVAILABLE"])]%string.
Definition joinBody (roomCode seatCode : string) : json := JObj [("roomCode", JStr roomCode); ("seatCode", JStr seatCode)]%string.
Definition joinStudent (roomCode seatCode : string) : GM AuthSession :=
  let body := joinBody (normalizeClassroomCode roomCode) (normalizeClassroomCode seatCode) in
  lift_result (match parseJoinRoomRequest body with Ok _ => Ok tt | Err e => ofFailure (Err (RoomsThrew e)) end);;
  joined ← exchange "/v1/rooms/join" (sendInit POST body) [200] JOIN_ALLOWLIST (fun r => jsonTree r ≫= readJoined);
  session ← getSession;
  match session with
  | StudentSession _ m a ps _ =>
      if bool_decide (m = jr_roomMemberId joined) && bool_decide (a = jr_actorId joined) && bool_decide (ps = jr_pseudonym joined)
      then mret session else throw SESSION_IDENTITY_MISMATCH
  | TeacherSession _ _ => throw SESSION_IDENTITY_MISMATCH
  end.
Definition MAGIC_LINK_ALLOWLIST : allowlist := [(429, ["RATE_LIMITED"])]%string.
Definition requestTeacherMagicLink (input : json) : GM json :=
  body ← lift_result (ofFailure (parseTeacherMagicLinkRequest input));
  r ← request "/v1/auth/teacher/magic-link" (sendInit POST body);
  if negb (rs_status r =? 202) then
    (if rs_status r =? 429 then legalError r MAGIC_LINK_ALLOWLIST else responseInvalid)
  else orInvalid (readAs "TeacherMagicLinkAccepted" r).
Definition logout : GM unit :=
  r ← request "/v1/auth/session" (MkInit DELETE None JSON_ACCEPT);
  if negb (rs_status r =? 204) then responseInvalid else
  match rs_text r with Some EmptyString => mret tt | _ => responseInvalid end.

(** *** Rooms *)

Definition TEACHER_ROOMS_ALLOWLIST : allowlist :=
  [(401, ["AUTH_REQUIRED"]); (404, ["ROOM_NOT_FOUND"]); (503, ["ROOM_LIST_UNAVAILABLE"])]%string.
Definition getTeacherRoomList : GM json :=
  exchange "/v1/teacher/rooms" getInit [200] TEACHER_ROOMS_ALLOWLIST (readAs "TeacherRoomListResponse").
Definition CREATE_ALLOWLIST : allowlist :=
  [(400, ["INVALID_ROOM_REQUEST"]); (401, ["AUTH_REQUIRED"]); (403, ["ROOM_FORBIDDEN"]);
   (503, ["ROOM_SERVICE_UNAVAILABLE"; "ROOM_CODE_UNAVAILABLE"; "RETENTION_POLICY_NOT_CONFIGURED"])]%string.
Definition createRoomRequest (input : json) : GM CreateRoomResponse :=
  topic ← lift_result (match parseCreateRoomRequest input with Ok t => Ok t | Err e => ofFailure (Err (RoomsThrew e)) end);
  exchange "/v1/rooms" (sendInit POST (JObj [("topic"%string, JStr topic)])) [201] CREATE_ALLOWLIST (fun r => jsonTree r ≫= readCreated).
Definition ROOM_ALLOWLIST : allowlist :=
  [(401, ["AUTH_REQUIRED"]); (404, ["ROOM_NOT_FOUND"]); (410, ["DELETION_IN_PROGRESS"]); (503, ["ROOM_SERVICE_UNAVAILABLE"])]%string.
Definition getRoomDetails (roomId : string) : GM RoomDetails :=
  exchange (roomRoute roomId "") getInit [200] ROOM_ALLOWLIST (fun r => jsonTree r ≫= readDetails).
Definition EVENTS_ALLOWLIST : allowlist :=
  [(400, ["INVALID_QUERY"]); (401, ["AUTH_REQUIRED"]); (404, ["ROOM_NOT_FOUND"]); (503, ["ROOM_SERVICE_UNAVAILABLE"])]%string.
Definition getRoomEvents (roomId : string) (afterSeq : jsnum) (limit : option jsnum) : GM RoomEventPage :=
  path ← lift_result (roomEvents roomId (Some afterSeq) limit);
  exchange path getInit [200] EVENTS_ALLOWLIST (fun r => jsonTree r ≫= readPage).

(** *** Media *)

Definition UPLOAD_ALLOWLIST : allowlist :=
  [(400, ["INVALID_MEDIA_COMMAND"]); (401, ["AUTH_REQUIRED"]); (404, ["MEDIA_NOT_FOUND"]);
   (409, ["ROOM_DELETION_IN_PROGRESS"; "ROOM_NOT_OPEN"]); (422, ["ALT_REQUIRED"; "SIZE_OUT_OF_RANGE"]); (500, ["INTERNAL"]);
   (503, ["MEDIA_SERVICE_UNAVAILABLE"])]%string.
Definition mediaAs (definition : string) (r : Response) : option json :=
  jsonTree r ≫= fun j => okOption (parseMedia definition "INVALID" j).
Definition createMediaUpload (roomId : string) (input : json) : GM json :=
  body ← orInvalid (okOption (parseCreateUpload input));
  exchange (roomRoute roomId "/media/uploads") (sendInit POST body) [201] UPLOAD_ALLOWLIST (mediaAs "MediaUploadGrant").
Definition COMPLETE_ALLOWLIST : allowlist :=
  [(400, ["INVALID_MEDIA_COMMAND"]); (401, ["AUTH_REQUIRED"]); (404, ["MEDIA_NOT_FOUND"; "MEDIA_UPLOAD_NOT_FOUND"]);
   (409, ["MEDIA_UPLOAD_EXPIRED"; "MEDIA_UPLOAD_NOT_SETTLED"; "MEDIA_QUARANTINED"; "MEDIA_FAILED"; "MEDIA_DELETED";
          "ROOM_DELETION_IN_PROGRESS"; "ROOM_NOT_OPEN"]); (500, ["INTERNAL"]); (503, ["MEDIA_SERVICE_UNAVAILABLE"])]%string.
Definition completeMediaUpload (roomId mediaId : string) : GM json :=
  exchange (mediaPath roomId mediaId "/complete") (sendInit POST (JObj [])) [200] COMPLETE_ALLOWLIST (mediaAs "CompleteMediaUploadResponse").
Definition MEDIA_ALLOWLIST : allowlist :=
  [(401, ["AUTH_REQUIRED"]); (404, ["MEDIA_NOT_FOUND"]); (409, ["MEDIA_NOT_READY"]); (500, ["INTERNAL"]);
   (503, ["MEDIA_SERVICE_UNAVAILABLE"])]%string.
Definition getMedia (roomId mediaId : string) : GM json :=
  exchange (mediaPath roomId mediaId "") getInit [200] MEDIA_ALLOWLIST (fun r => jsonTree r ≫= fun j => okOption (parseMediaAttachment j)).
Definition DOWNLOAD_ALLOWLIST : allowlist :=
  [(401, ["AUTH_REQUIRED"]); (404, ["MEDIA_NOT_FOUND"]);
   (409, ["MEDIA_NOT_READY"; "MEDIA_QUARANTINED"; "MEDIA_FAILED"; "MEDIA_DELETED"; "ROOM_DELETION_IN_PROGRESS"]); (500, ["INTERNAL"]);
   (503, ["MEDIA_SERVICE_UNAVAILABLE"])]%string.
Definition getMediaDownloadGrant (roomId mediaId : string) : GM json :=
  exchange (mediaPath roomId mediaId "/download") getInit [200] DOWNLOAD_ALLOWLIST (mediaAs "MediaDownloadGrant").

(** *** The agent *)

Definition CURRENT_ALLOWLIST : allowlist :=
  [(401, ["AUTH_REQUIRED"]); (404, ["ROOM_NOT_FOUND"]); (409, ["ROOM_DELETION_IN_PROGRESS"]); (500, ["INTERNAL"]);
   (503, ["AGENT_SERVICE_UNAVAILABLE"])]%string.
Definition getAgentCurrent (roomId : string) : GM json :=
  exchange (roomRoute roomId "/agent/current") getInit [200] CURRENT_ALLOWLIST (fun r =>
    j ← readAs "AgentCurrentState" r; if bool_decide (textIn "roomId" j = Some roomId) then Some j else None).
Definition REQUEST_ALLOWLIST : allowlist :=
  [(401, ["AUTH_REQUIRED"]); (403, ["FORBIDDEN"; "AGENT_DISABLED"]); (404, ["ROOM_NOT_FOUND"]);
   (409, ["ROOM_DELETION_IN_PROGRESS"; "ROOM_NOT_OPEN"; "AGENT_RUN_ALREADY_ACTIVE"]); (429, ["RATE_LIMITED"]); (500, ["INTERNAL"]);
   (503, ["AGENT_SERVICE_UNAVAILABLE"])]%string.
Definition triggerBody (triggerEventId : string) : json := JObj [("triggerEventId"%string, JStr triggerEventId)].
Definition requestAgentRun (roomId triggerEventId : string) : GM json :=
  body ← orInvalid (okOption (parseAs "RequestAgentRunInput" "INVALID_AGENT_COMMAND" (triggerBody triggerEventId)));
  exchange (roomRoute roomId "/agent/runs") (sendInit POST body) [202; 200] REQUEST_ALLOWLIST (readAs "AgentRunAccepted").
Definition CANCEL_ALLOWLIST : allowlist :=
  [(401, ["AUTH_REQUIRED"]); (403, ["FORBIDDEN"]); (404, ["ROOM_NOT_FOUND"; "AGENT_RUN_NOT_FOUND"]);
   (409, ["ROOM_DELETION_IN_PROGRESS"; "AGENT_RUN_NOT_ACTIVE"]); (500, ["INTERNAL"]); (503, ["AGENT_SERVICE_UNAVAILABLE"])]%string.
Definition cancelAgentRun (roomId agentRunId : string) : GM json :=
  exchange (agentCancelPath roomId agentRunId) (sendInit POST (JObj [])) [202; 200] CANCEL_ALLOWLIST (readAs "CancelAgentRunAccepted").
Definition SETTINGS_ALLOWLIST : allowlist :=
  [(401, ["AUTH_REQUIRED"]); (403, ["FORBIDDEN"]); (404, ["ROOM_NOT_FOUND"]); (409, ["ROOM_DELETION_IN_PROGRESS"]); (500, ["INTERNAL"]);
   (503, ["AGENT_SERVICE_UNAVAILABLE"])]%string.
Definition setAgentSettings (roomId : string) (input : json) : GM json :=
  body ← orInvalid (okOption (parseAs "AgentSettingsInput" "INVALID_AGENT_COMMAND" input));
  exchange (roomRoute roomId "/agent/settings") (sendInit PUT body) [200] SETTINGS_ALLOWLIST (readAs "AgentSettingsResponse").

(** *** The teacher's analytics *)

Definition ARTIFACTS_ALLOWLIST : allowlist :=
  [(400, ["INVALID_ANALYTICS_QUERY"]); (401, ["AUTH_REQUIRED"]); (404, ["ROOM_NOT_FOUND"]);
   (410, ["ROOM_DELETION_IN_PROGRESS"; "RETENTION_POLICY_EXPIRED"]); (500, ["INTERNAL"]); (503, ["ANALYTICS_CORRUPT"])]%string.
Definition boolIn (k : string) (j : json) : option bool := match field k j with Some (JBool b) => Some b | _ => None end.
(** The page is the one asked for. *)
Definition artifactPageOk (roomId reviewStatus : string) (includeHistory : bool) (limit : Z) (page : json) : bool :=
  let items := default [] (field "items" page ≫= readArr) in
  bool_decide (boolIn "includeHistory" page = Some includeHistory)
  && (Z.of_nat (length items) <=? limit)
  && forallb (fun item => bool_decide (textIn "roomId" item = Some roomId)
                && bool_decide (textIn "reviewStatus" item = Some reviewStatus)
                && (includeHistory || bool_decide (boolIn "active" item = Some true))) items
  && (foldr Z.max 0 (map (fun item => default 0 (intIn "roomSeq" item)) items) <=? default 0 (intIn "throughRoomSeq" page))
  && match field "nextAfterArtifactId" page with
     | Some JNull => true
     | next => match last items with Some item => bool_decide (next = field "artifactId" item) | None => false end
     end.
Definition getDerivedTextArtifacts (roomId reviewStatus : string) (afterArtifactId : option string) (includeHistory : bool) (limit : jsnum)
    : GM json :=
  path ← lift_result (analyticsQuery roomId reviewStatus afterArtifactId includeHistory limit);
  exchange path getInit [200] ARTIFACTS_ALLOWLIST (fun r =>
    page ← readAs "DerivedTextArtifactPage" r;
    if artifactPageOk roomId reviewStatus includeHistory (default 0 (asSafeInteger limit)) page then Some page else None).
Definition REVIEW_ALLOWLIST : allowlist :=
  [(400, ["INVALID_ANALYTICS_REVIEW_COMMAND"]); (401, ["AUTH_REQUIRED"]); (404, ["ROOM_NOT_FOUND"; "ANALYTICS_TARGET_NOT_FOUND"]);
   (409, ["ANALYTICS_VERSION_CONFLICT"; "ROOM_NOT_OPEN"]); (410, ["ROOM_DELETION_IN_PROGRESS"; "RETENTION_POLICY_EXPIRED"]);
   (500, ["INTERNAL"]); (503, ["ANALYTICS_CORRUPT"])]%string.
Definition submitAnalyticsReview (roomId : string) (input : json) : GM json :=
  command ← orInvalid (okOption (parseReview input));
  exchange (roomRoute roomId "/analytics/reviews") (sendInit POST command) [200; 201] REVIEW_ALLOWLIST (fun r =>
    accepted ← readAs "AnalyticsReviewAccepted" r;
    let expected := if isCorrection command then "correction"%string else "review"%string in
    if bool_decide (textIn "changeKind" accepted = Some expected) then Some accepted else None).
Definition REVIEW_DETAIL_ALLOWLIST : allowlist :=
  [(400, ["INVALID_ANALYTICS_QUERY"]); (401, ["AUTH_REQUIRED"]); (404, ["ROOM_NOT_FOUND"; "ANALYTICS_REVIEW_NOT_FOUND"]);
   (410, ["ROOM_DELETION_IN_PROGRESS"; "RETENTION_POLICY_EXPIRED"]); (500, ["INTERNAL"]); (503, ["ANALYTICS_CORRUPT"])]%string.
Definition getAnalyticsReviewDetail (roomId reviewEventId : string) : GM json :=
  exchange (reviewDetailPath roomId reviewEventId) getInit [200] REVIEW_DETAIL_ALLOWLIST (fun r =>
    detail ← jsonTree r ≫= fun j => okOption (parseReviewDetail j);
    if bool_decide (textIn "roomId" detail = Some roomId) && bool_decide (textIn "reviewEventId" detail = Some reviewEventId)
    then Some detail else None).

(** *** Deletion and export *)

Definition DELETE_ALLOWLIST : allowlist :=
  [(400, ["INVALID_DELETE_REQUEST"]); (401, ["AUTH_REQUIRED"]); (404, ["ROOM_NOT_FOUND"]); (409, ["DELETION_IN_PROGRESS"]);
   (500, ["INTERNAL"])]%string.
Definition confirmation (roomId : string) : json := JObj [("confirmation"%string, JStr ("DELETE " ++ roomId)%string)].
Definition requestRoomDeletion (roomId : string) : GM json :=
  body ← orInvalid (okOption (parseAs "DeleteRoomRequest" "INVALID_DELETE_REQUEST" (confirmation roomId)));
  exchange (roomRoute roomId "") (sendInit DELETE body) [202] DELETE_ALLOWLIST (readAs "DeleteRoomAccepted").
Definition DELETION_ALLOWLIST : allowlist :=
  [(401, ["AUTH_REQUIRED"]); (404, ["ROOM_NOT_FOUND"]); (500, ["INTERNAL"]); (503, ["DELETION_STATUS_CORRUPT"])]%string.
(** [deletionLifecycleContract.parseStatus]: a receipt names every surface once. *)
Definition ALL_SURFACES : list string :=
  ["agent_runs"; "artifacts"; "caches"; "derivatives"; "events"; "media"; "projections"; "provider_copies"]%string.
Definition receiptOk (receipt : json) : bool :=
  let surfaces := omap asStr (default [] (field "surfacesVerified" receipt ≫= readArr)) in
  accepts "DeletionReceipt" receipt && (length surfaces =? length ALL_SURFACES)%nat
  && bool_decide (sort_by String.leb surfaces = ALL_SURFACES).
Definition readDeletionStatus (r : Response) : option json :=
  j ← readAs "DeletionStatus" r;
  if bool_decide (textIn "status" j = Some "completed"%string)
  then (if receiptOk (default JNull (field "receipt" j)) then Some j else None) else Some j.
Definition getDeletionStatusAt (path : string) : GM json := exchange path getInit [200] DELETION_ALLOWLIST readDeletionStatus.
Definition getDeletionStatus (deletionJobId : string) : GM json :=
  status ← getDeletionStatusAt (deletionPath deletionJobId);
  if bool_decide (textIn "deletionJobId" status = Some deletionJobId) then mret status else responseInvalid.
Definition getRoomDeletion (roomId : string) : GM json := getDeletionStatusAt (roomRoute roomId "/deletion").
Definition EXPORT_ALLOWLIST : allowlist :=
  [(400, ["INVALID_EXPORT_FORMAT"]); (401, ["AUTH_REQUIRED"]); (404, ["ROOM_NOT_FOUND"]);
   (410, ["DELETION_IN_PROGRESS"; "RETENTION_POLICY_EXPIRED"]); (500, ["INTERNAL"]); (503, ["EXPORT_UNAVAILABLE"])]%string.
Record RoomExportFile : Type := MkExportFile { xf_blob : string; xf_fileName : string; xf_format : ExportFormat }.
Definition mimeOf (f : ExportFormat) : string := match f with json_format => "application/json" | csv_format => "text/csv" end.
Definition readExport (roomId : string) (f : ExportFormat) (r : Response) : option RoomExportFile :=
  if exactUtf8ContentType (rs_contentType r) (mimeOf f) then
    text ← readBoundedExportText r EXPORT_MAX_BYTES;
    validated ← validateExport f text roomId;
    Some (MkExportFile validated (safeExportFileName (rs_contentDisposition r) (formatText f)) f)
  else None.
Definition exportRoom (roomId : string) (f : ExportFormat) : GM RoomExportFile :=
  exchange (exportPath roomId (formatText f)) (MkInit GET None (mimeOf f)) [200] EXPORT_ALLOWLIST (readExport roomId f).

(** *** Projections *)

Definition readProjection (roomId : string) (k : ProjectionKey) (v : wire) : option (ConceptMapSnapshot + SnaProjectionBundle) :=
  match k, v with
  | echo_student_approved, WSnapshot s =>
      if parseStudentEchoSnapshot s && bool_decide (cs_roomId s = roomId) && bool_decide (cs_projectionKey s = k) then Some (inl s) else None
  | echo_teacher_shadow, WSnapshot s =>
      if parseTeacherEchoSnapshot s && bool_decide (cs_roomId s = roomId) && bool_decide (cs_projectionKey s = k) then Some (inl s) else None
  | (trace_teacher_bundle | trace_student_bundle), WBundle b =>
      if parseTrace b && bool_decide (sn_roomId b = roomId) && bool_decide (sn_projectionKey b = k) then Some (inr b) else None
  | _, _ => None
  end.
Definition getProjectionLatest (roomId : string) (k : ProjectionKey) : GM (ConceptMapSnapshot + SnaProjectionBundle) :=
  exchange (analyticsProjection roomId k "/latest") getInit [200] ANALYTICS_ERROR_ALLOWLIST
    (fun r => jsonBody r ≫= readProjection roomId k).
(** The answer 409 of the two routes below: what it names is the snapshot to begin with. *)
Definition resyncRequired {A} (roomId : string) (k : ProjectionKey) (r : Response) : GM A :=
  match readAs "ResyncResponse" r with
  | Some j => if bool_decide (textIn "snapshotUrl" j = Some (analyticsProjection roomId k "/latest"))
              then throw (GatewayError "SNAPSHOT_RESYNC_REQUIRED") else responseInvalid
  | None => responseInvalid
  end.
Definition isStudentKey (k : ProjectionKey) : bool := bool_decide (k = echo_student_approved).
Definition patchOk (k : ProjectionKey) (epoch : string) (p : ConceptMapPatch) : bool :=
  (if isStudentKey k then parseStudentEchoPatch p else parseTeacherEchoPatch p) && bool_decide (pt_analysisEpoch p = epoch).
Definition readPatches (roomId : string) (k : ProjectionKey) (epoch : string) (after : Z) (v : wire) : option PatchPage :=
  match v with
  | WPatches page =>
      if (if isStudentKey k then parseStudentPatchPage page else parseTeacherPatchPage page)
         && bool_decide (pp_roomId page = roomId) && bool_decide (pp_projectionKey page = k) && bool_decide (pp_analysisEpoch page = epoch)
         && forallb (patchOk k epoch) (pp_patches page)
         && match pp_patches page with first :: _ => pt_baseVersion first =? after | [] => true end
      then Some page else None
  | _ => None
  end.
Definition getProjectionPatches (roomId : string) (k : ProjectionKey) (epoch : string) (after : option jsnum) : GM PatchPage :=
  path ← lift_result (analyticsPatches roomId k epoch after);
  r ← request path getInit;
  if rs_status r =? 409 then resyncRequired roomId k r
  else if negb (rs_status r =? 200) then legalError r ANALYTICS_ERROR_ALLOWLIST
  else orInvalid (jsonBody r ≫= readPatches roomId k epoch (default 0 (after ≫= asSafeInteger))).
Definition readTimeline (roomId : string) (k : ProjectionKey) (epoch : string) (v : wire) : option TimelineResponse :=
  match v with
  | WTimeline t =>
      if (if isStudentKey k then parseStudentTimeline t else parseTeacherTimeline t)
         && bool_decide (tl_roomId t = roomId) && bool_decide (tl_projectionKey t = k) && bool_decide (tl_analysisEpoch t = epoch)
         && match tl_baseSnapshot t with
            | Some b => bool_decide (cs_roomId b = roomId) && bool_decide (cs_projectionKey b = k) && bool_decide (cs_analysisEpoch b = epoch)
            | None => true
            end
         && forallb (patchOk k epoch) (tl_patches t)
      then Some t else None
  | _ => None
  end.
Definition getConceptTimeline (roomId : string) (k : ProjectionKey) (epoch : string) (limit : option jsnum) : GM TimelineResponse :=
  path ← lift_result (analyticsTimeline roomId k epoch limit);
  r ← request path getInit;
  if rs_status r =? 409 then resyncRequired roomId k r
  else if negb (rs_status r =? 200) then legalError r ANALYTICS_ERROR_ALLOWLIST
  else orInvalid (jsonBody r ≫= readTimeline roomId k epoch).
End Gateway.
