(* ===== verification/Governed.v ===== *)
(** * The tables of governance

    What [apps/server/src/modules/governance] and [modules/analytics] keep beside the
    tables of the rooms: the columns of [deletion_job] that only they read, manifests and
    receipts of deletions, the audit trail, the retention policy of each room, promotions
    of analytics to students and the artifacts that are exported
    ([infra/postgres/migrations/003_analytics.sql], [005_pilot_governance.sql]). *)
From S2P Require Import Prelude Text JsDate JsValue Contracts Database Authorization Frames Echo Trace Exports Http.
#[local] Set Warnings "-register-all,-clear-no-such-hyp,-level-tolerance".

(** ** Rows *)

Inductive surface : Type :=
| sf_events | sf_media | sf_derivatives | sf_artifacts | sf_projections | sf_agent_runs | sf_caches | sf_provider_copies.
#[global] Instance surface_eq_dec : EqDecision surface.
Proof. solve_decision. Defined.
Definition surfaceText (s : surface) : string :=
  match s with
  | sf_events => "events" | sf_media => "media" | sf_derivatives => "derivatives" | sf_artifacts => "artifacts"
  | sf_projections => "projections" | sf_agent_runs => "agent_runs" | sf_caches => "caches" | sf_provider_copies => "provider_copies"
  end.

(** [room_ref_sha256], [policy_version], [created_at] and [completed_at] of a
    [deletion_job]; a deletion of the retention is one with a version of a policy. *)
Record deletion_detail : Type := DeletionDetail {
  dd_id : string;
  dd_room_ref : string;
  dd_policy_version : option string;
  dd_created_at : Z;
  dd_completed_at : option Z;
}.
Record manifest_row : Type := ManifestRow {
  mf_job_id : string;
  mf_surface : surface;
  mf_expected : Z;
  mf_frozen_at : Z;
}.
Record receipt_row : Type := ReceiptRow {
  rc_job_id : string;
  rc_version : Z;
  rc_surfaces : json;
  rc_completed_at : Z;
}.
Record audit_row : Type := AuditRow {
  au_correlation_id : string;
  au_principal_kind : string;
  au_action : string;
  au_outcome : string;
  au_reason_code : string;
  au_room_ref : option string;
}.
Record promotion_row : Type := PromotionRow {
  pm_room_id : string;
  pm_record_sha256 : string;
  pm_policy_revision : Z;
  pm_allowlist : list string;
  pm_starts_at : Z;
  pm_expires_at : Z;
  pm_revoked_at : option Z;
}.
(** [derived_text_artifact], what an export reads of it. *)
Record artifact_row : Type := ArtifactRow {
  ar_artifact_id : string;
  ar_lineage_id : string;
  ar_room_id : string;
  ar_event_id : string;
  ar_room_seq : Z;
  ar_source_media_id : option string;
  ar_source_modality : string;
  ar_derivation : string;
  ar_text : string;
  ar_language_tag : option string;
  ar_review_status : string;
  ar_supersedes : option string;
  ar_created_at : Z;
}.

(** [agent_run], but for its tokens and costs; a row is never [a_idle]. *)
Record run_row : Type := RunRow {
  rn_id : string;
  rn_room_id : string;
  rn_state : AgentState;
  rn_trigger_event_id : string;
  rn_teacher_id : option string;
  rn_member_id : option string;
  rn_from_seq : Z;
  rn_through_seq : Z;
  rn_correlation_id : string;
  rn_model_provider : string;
  rn_model_id : string;
  rn_prompt_version : string;
  rn_policy_version : string;
  rn_failure_code : option string;
  rn_created_at : Z;
  rn_updated_at : Z;
}.
(** [agent_run_transition], [agent_control_event], [agent_provider_health] without its
    signature. *)
Record transition_row : Type := TransitionRow {
  ts_id : string;
  ts_run_id : string;
  ts_from : option AgentState;
  ts_to : AgentState;
  ts_reason : string;
  ts_causation_id : string;
  ts_at : Z;
}.
Record control_row : Type := ControlRow {
  ct_id : string;
  ct_room_id : string;
  ct_teacher_id : string;
  ct_action : string;
  ct_run_id : option string;
  ct_causation_id : string;
  ct_at : Z;
}.
Record health_row : Type := HealthRow {
  hl_provider_id : string;
  hl_manifest_sha256 : string;
  hl_health : ServiceHealth;
  hl_checked_at : Z;
  hl_reason_code : option string;
  hl_updated_at : Z;
}.
(** With [classroom_room.agent_enabled] by room and [worker_job.cancel_requested_at] by
    deduplication key. *)
Record agent_tables : Type := AgentTables {
  ax_enabled : list (string * bool);
  ax_runs : list run_row;
  ax_transitions : list transition_row;
  ax_controls : list control_row;
  ax_health : list health_row;
  ax_cancel_requests : list (string * Z);
}.
Definition no_agents : agent_tables := AgentTables [] [] [] [] [] [].

Record governed : Type := Governed {
  gv_world : world;
  gv_details : list deletion_detail;
  gv_manifests : list manifest_row;
  gv_receipts : list receipt_row;
  gv_audit : list audit_row;
  gv_room_policies : list (string * string);        (** [classroom_room.retention_policy_id], by room *)
  gv_promotions : list promotion_row;
  gv_artifacts : list artifact_row;
  gv_counts : surface -> string -> Z;               (** the rows of a room in the tables that are not modelled *)
  gv_notices : list (string * list Z);              (** what [pg_notify] has committed: channel, and code units *)
  gv_terms : list (string * (string * Z));          (** [policy_version] and [room_events_days] of a policy *)
  gv_agents : agent_tables;
}.
Definition gv_db (g : governed) : database := db (gv_world g).
Definition set_world (w : world) (g : governed) : governed :=
  Governed w (gv_details g) (gv_manifests g) (gv_receipts g) (gv_audit g) (gv_room_policies g) (gv_promotions g)
    (gv_artifacts g) (gv_counts g) (gv_notices g) (gv_terms g) (gv_agents g).
Definition set_details (x : list deletion_detail) (g : governed) : governed :=
  Governed (gv_world g) x (gv_manifests g) (gv_receipts g) (gv_audit g) (gv_room_policies g) (gv_promotions g)
    (gv_artifacts g) (gv_counts g) (gv_notices g) (gv_terms g) (gv_agents g).
Definition set_manifests (x : list manifest_row) (g : governed) : governed :=
  Governed (gv_world g) (gv_details g) x (gv_receipts g) (gv_audit g) (gv_room_policies g) (gv_promotions g)
    (gv_artifacts g) (gv_counts g) (gv_notices g) (gv_terms g) (gv_agents g).
Definition set_audit (x : list audit_row) (g : governed) : governed :=
  Governed (gv_world g) (gv_details g) (gv_manifests g) (gv_receipts g) x (gv_room_policies g) (gv_promotions g)
    (gv_artifacts g) (gv_counts g) (gv_notices g) (gv_terms g) (gv_agents g).
Definition set_promotions (x : list promotion_row) (g : governed) : governed :=
  Governed (gv_world g) (gv_details g) (gv_manifests g) (gv_receipts g) (gv_audit g) (gv_room_policies g) x
    (gv_artifacts g) (gv_counts g) (gv_notices g) (gv_terms g) (gv_agents g).
Definition set_notices (x : list (string * list Z)) (g : governed) : governed :=
  Governed (gv_world g) (gv_details g) (gv_manifests g) (gv_receipts g) (gv_audit g) (gv_room_policies g) (gv_promotions g)
    (gv_artifacts g) (gv_counts g) x (gv_terms g) (gv_agents g).
Definition set_agents (x : agent_tables) (g : governed) : governed :=
  Governed (gv_world g) (gv_details g) (gv_manifests g) (gv_receipts g) (gv_audit g) (gv_room_policies g) (gv_promotions g)
    (gv_artifacts g) (gv_counts g) (gv_notices g) (gv_terms g) x.
Definition set_gv_db (d : database) (g : governed) : governed := set_world (set_db d (gv_world g)) g.

Abbreviation GV := (M governed failure).

(** ** Services of the rooms, statements and transactions *)

(** What the services of the rooms do, on the same database. *)
Definition inWorld {E A} (f : E -> failure) (m : M world E A) : GV A := fun g =>
  match m (gv_world g) with
  | (Ok a, w) => (Ok a, set_world w g)
  | (Err e, w) => (Err (f e), set_world w g)
  end.
Definition ofRooms {A} : M world error A -> GV A := inWorld RoomsThrew.
(** The authorizers throw errors with a code, and what the driver throws. *)
Definition authFailure (e : auth_error) : failure :=
  match e with RoomAuthorizationError _ c => plain c | QueryFailed => plain "query failed" end.
Definition ofAuth {A} : M world auth_error A -> GV A := inWorld authFailure.

Definition QUERY_FAILED : failure := plain "query failed".
(** A statement on the pool is a transaction of its own; one of a transaction sees the
    time of that. *)
Definition poolQuery `{Environment} {A} (f : Z -> governed -> A) : GV A := fun g =>
  let w := gv_world g in
  (Ok (f (db_now (txs w)) g), set_world (World (db w) (ticks w) (S (txs w)) (uuids w) (tx w)) g).
Definition txQuery {A} (f : Z -> governed -> A) : GV A := gets (fun g => f (tx_now (tx (gv_world g))) g).
(** A statement that a constraint may refuse. *)
Definition executeG (f : Z -> governed -> option governed) : GV unit := fun g =>
  match f (tx_now (tx (gv_world g))) g with
  | Some g' => (Ok tt, g')
  | None => (Err QUERY_FAILED, g)
  end.
Definition updateDb (f : database -> database) : GV unit := modify (fun g => set_gv_db (f (gv_db g)) g).
Definition uuidG `{Postgres} (s : string) : GV string :=
  match uuid_in s with Some u => mret u | None => throw QUERY_FAILED end.

(** After a rollback: the tables as they were, the supplies used up. *)
Definition rolledBack (g g' : governed) : governed := set_world (set_db (gv_db g) (gv_world g')) g.
Definition inTransactionG `{Environment} {A} (work : GV A) : GV A := fun g =>
  let w := gv_world g in
  let begun := set_world (World (db w) (ticks w) (S (txs w)) (uuids w)
                 (Locals (db_now (txs w)) (nextRoomSeq (tx w)) (operationFailure (tx w)))) g in
  match work begun with
  | (Ok a, g') => (Ok a, g')
  | (Err e, g') => (Err e, rolledBack g g')
  end.

(** The tables of two states, whatever clocks and supplies have done. *)
Definition same_tables (g g' : governed) : Prop :=
  gv_db g' = gv_db g /\ gv_details g' = gv_details g /\ gv_manifests g' = gv_manifests g /\ gv_receipts g' = gv_receipts g
  /\ gv_audit g' = gv_audit g /\ gv_room_policies g' = gv_room_policies g /\ gv_promotions g' = gv_promotions g
  /\ gv_artifacts g' = gv_artifacts g /\ gv_counts g' = gv_counts g /\ gv_notices g' = gv_notices g
  /\ gv_terms g' = gv_terms g /\ gv_agents g' = gv_agents g.
#[global] Instance same_tables_equivalence : Equivalence same_tables.
Proof. unfold same_tables. split; [done|intros ?? H; naive_solver congruence|intros ??? H1 H2; naive_solver congruence]. Qed.
Lemma inTransactionG_err `{Environment} {A} (work : GV A) g e g' :
  inTransactionG work g = (Err e, g') -> same_tables g g'.
Proof. unfold inTransactionG. destruct (work _) as [[a|e'] g1]; [done|]. intros [= _ <-]. done. Qed.
Lemma inTransactionG_ok `{Environment} {A} (work : GV A) g a g' :
  inTransactionG work g = (Ok a, g') ->
  exists g0, same_tables g g0 /\ tx_now (tx (gv_world g0)) = db_now (txs (gv_world g)) /\ work g0 = (Ok a, g').
Proof. unfold inTransactionG. destruct (work _) as [[a'|e'] g1] eqn:E; [|done]. intros [= -> ->]. eexists. split_and!; [..|exact E]; done. Qed.
