(* ===== verification/Governance.v ===== *)
(** * Deletion and export of rooms: [apps/server/src/modules/governance]

    [governance-service.ts], with [makeDeletionReceipt] of [retention-policy.ts] and the
    contract of deletions ([packages/contracts/src/governance.ts]): a teacher asks for the
    deletion of a room, which closes it for everyone at once and leaves jobs behind that
    delete it surface by surface; reads how far that is; and takes the room as a file. *)
From S2P Require Import Prelude Text JsDate JsValue Contracts Database Concrete Ledger Authorization Frames Echo Trace Sessions Exports Http Routes ExportFile Governed.
#[local] Set Warnings "-register-all,-clear-no-such-hyp,-level-tolerance".

(** [createHash("sha1")]: twenty bytes. *)
Class Sha1 : Type := { sha1 : string -> list Z }.

Definition SURFACES : list surface :=
  [sf_events; sf_media; sf_derivatives; sf_artifacts; sf_projections; sf_agent_runs; sf_caches; sf_provider_copies].
(** In the order of their names. *)
Definition ONLINE_SURFACES : list string :=
  ["agent_runs"; "artifacts"; "caches"; "derivatives"; "events"; "media"; "projections"; "provider_copies"]%string.
Definition DELETE_SURFACE : string := "room.delete-surface.v1".
Definition governance (code : string) (status : Z) : failure := GovernanceError code status.
Definition UNAVAILABLE : failure := governance "EXPORT_UNAVAILABLE" 503.
Definition CORRUPT : failure := governance "DELETION_STATUS_CORRUPT" 503.
Definition HIDDEN : failure := governance "ROOM_NOT_FOUND" 404.
(** The identifiers of this service are in small letters. *)
Definition isLowerUuid (s : string) : bool := isUuid s && bool_decide (lower s = s).

(** ** The contract of deletions *)

Section Contract.
Context `{Schemas}.
Definition parseRequest (raw : json) : option string :=
  if closedObject [("confirmation"%string, stringWhere (fun s => (1 <=? codePoints s) && (codePoints s <=? 256)))] [] raw
  then textIn "confirmation" raw else None.
Definition deletionText (s : DeletionStatus) : string :=
  match s with
  | d_queued => "queued" | d_running => "running" | d_retryable => "retryable" | d_completed => "completed" | d_dead => "dead"
  end.
Definition acceptedJson (deletionJobId : string) : json :=
  JObj [("deletionJobId", JStr deletionJobId); ("status", JStr "queued")]%string.
Definition acceptedSchema : validator :=
  closedObject [("deletionJobId", uuidSchema); ("status", stringWhere (fun s => bool_decide (s = "queued")))]%string [].
Definition isCodeChar (c : ascii) : bool := is_digit c || between "A" "Z" c || is_char "_"%char c.
Definition isFailureCode (s : string) : bool :=
  let l := list_ascii_of_string s in (1 <=? length l)%nat && (length l <=? 100)%nat && forallb isCodeChar l.
Definition receiptSchema : validator :=
  closedObject [("receiptVersion", (fun j => bool_decide (j = JNum (NInt 1))));
                ("surfacesVerified", (fun j => match j with
                   | JArr l => (8 <=? length l)%nat && uniqueItems l && forallb (enumOf ONLINE_SURFACES) l | _ => false end));
                ("completedAt", dateSchema)]%string [].
(** [parseDeletionReceipt]: every surface, once. *)
Definition byName : string -> string -> bool := String.leb.
Definition receiptComplete (receipt : json) : bool :=
  match field "surfacesVerified" receipt with
  | Some (JArr l) => (length l =? length ONLINE_SURFACES)%nat && bool_decide (sort_by byName (omap asStr l) = ONLINE_SURFACES)
  | _ => false
  end.
Definition pollSchema : validator := fun j => match j with JNull => true | _ => integerBetween 250 30000 j end.
Definition openStatusSchema : validator :=
  closedObject [("deletionJobId", uuidSchema); ("status", enumOf ["queued"; "running"; "retryable"; "dead"]);
                ("nextPollAfterMs", pollSchema); ("failureCode", stringOrNull isFailureCode)]%string [].
Definition completedStatusSchema : validator :=
  closedObject [("deletionJobId", uuidSchema); ("status", stringWhere (fun s => bool_decide (s = "completed")));
                ("receipt", receiptSchema)]%string [].
Definition parseStatus (value : json) : result failure json :=
  if openStatusSchema value then Ok value
  else if completedStatusSchema value && receiptComplete (default JNull (field "receipt" value)) then Ok value
  else Err (plain "INVALID_DELETION_STATUS").
End Contract.

(** [makeDeletionReceipt] of names; the set keeps one of each, and sorting forgets which. *)
Definition makeDeletionReceipt (completedAt : string) (surfacesVerified : list string) : option json :=
  let actual := sort_by byName (remove_dups surfacesVerified) in
  if bool_decide (actual = ONLINE_SURFACES)
  then Some (JObj [("receiptVersion", JNum (NInt 1)); ("completedAt", JStr completedAt);
                   ("surfacesVerified", JArr (map JStr actual))]%string)
  else None.

Section Service.
Context `{Schemas} `{Postgres} `{Environment} `{Locale} `{JsonText} `{Sha1}.
Variable auditSalt : string.
(** [evictRoom], called after the transaction; [AnalyticsRepository.latest] in wire form. *)
Variable evictRoom : string -> Z -> GV unit.
Variable latestOf : string -> ProjectionKey -> GV (option export_projection).

Definition teacherOnly (principal : option AuthSession) : result failure string :=
  match principal with
  | None => Err (governance "AUTH_REQUIRED" 401)
  | Some (StudentSession _ _ _ _ _) => Err HIDDEN
  | Some (TeacherSession t _) => Ok t
  end.
Definition refHash (roomId : string) : string := sha256_hex (auditSalt ++ ":room:" ++ roomId)%string.

(** [stableUuid]: a name-based identifier of version 5. *)
Definition DELETION_NAMESPACE : string :=
  string_of_list_ascii (map chr [77; 63; 26; 14; 107; 156; 66; 216; 161; 240; 229; 199; 178; 214; 73; 128]).
Definition joinParts (l : list string) : string := String.concat (String (chr 0) EmptyString) l.
Definition nibble (n : Z) : ascii := if n <? 10 then chr (48 + n) else chr (87 + n).
Definition hexBytes (l : list Z) : string :=
  string_of_list_ascii (concat (map (fun b => [nibble (Z.shiftr b 4); nibble (Z.land b 15)]) l)).
Definition stableUuid (parts : list string) : string :=
  let digest := sha1 (DELETION_NAMESPACE ++ joinParts parts) in
  let digest := <[8%nat := Z.lor (Z.land (default 0 (digest !! 8%nat)) 63) 128]>
                  (<[6%nat := Z.lor (Z.land (default 0 (digest !! 6%nat)) 15) 80]> digest) in
  let part i n := hexBytes (take n (drop i digest)) in
  (part 0%nat 4%nat ++ "-" ++ part 4%nat 2%nat ++ "-" ++ part 6%nat 2%nat ++ "-" ++ part 8%nat 2%nat ++ "-" ++ part 10%nat 6%nat)%string.

(** *** Requests *)

(** [authorizeRoom]. *)
Definition authorizeRoom (principal : option AuthSession) (roomId : string) : GV unit :=
  t ← lift_result (teacherOnly principal);
  throw_if (negb (isLowerUuid roomId)) HIDDEN;;
  rid ← uuidG roomId;
  tid ← uuidG t;
  owned ← poolQuery (fun _ g => existsb (ownsRoom rid tid) (rooms (gv_db g)));
  throw_if (negb owned) HIDDEN.

Definition isUnfinished (rid : string) (x : deletion_row) : bool := bool_decide (dl_room_id x = Some rid) && activeDeletion x.
(** [INSERT INTO deletion_job] with its constraints. *)
Definition insertDeletion (id rid roomRef owner : string) (policyVersion : option string) (now : Z) (g : governed) : option governed :=
  let d := gv_db g in
  _ ← guardO (negb (existsb (fun x => bool_decide (dl_id x = id)) (deletions d))
              && negb (existsb (isUnfinished rid) (deletions d))
              && bool_decide (owner ∈ map fst (teachers (accounts d))));
  Some (set_details (gv_details g ++ [DeletionDetail id roomRef policyVersion now None])
    (set_gv_db (set_deletions (deletions d ++ [DeletionRow id (Some rid) owner d_queued]) d) g)).
(** The counts of [freezeDeletionSurfaces]. *)
Definition surfaceCount (rid : string) (g : governed) (s : surface) : Z :=
  let media := rowCount (select_where (fun m => bool_decide (md_room_id m = rid)) (media_assets (gv_db g))) in
  let runs := rowCount (select_where (fun r => bool_decide (rn_room_id r = rid)) (ax_runs (gv_agents g))) in
  match s with
  | sf_events => rowCount (select_where (fun e => bool_decide (ev_room_id e = rid)) (events (gv_db g)))
  | sf_media => media
  | sf_artifacts => rowCount (select_where (fun a => bool_decide (ar_room_id a = rid)) (gv_artifacts g)) + gv_counts g s rid
  | sf_projections => rowCount (select_where (fun p => bool_decide (pm_room_id p = rid)) (gv_promotions g)) + gv_counts g s rid
  | sf_agent_runs => runs
  | sf_caches => 0
  | sf_provider_copies => media + runs + gv_counts g s rid
  | _ => gv_counts g s rid
  end.
Definition INT4_MAX : Z := 2147483647.
Definition insertManifest (m : manifest_row) (g : governed) : option governed :=
  _ ← guardO (negb (existsb (fun x => bool_decide (mf_job_id x = mf_job_id m) && bool_decide (mf_surface x = mf_surface m)) (gv_manifests g))
              && (0 <=? mf_expected m) && (mf_expected m <=? INT4_MAX));
  Some (set_manifests (gv_manifests g ++ [m]) g).
Definition isCount (z : Z) : bool := (0 <=? z) && (z <=? MAX_SAFE_INTEGER).
Definition freezeDeletionSurfaces (deletionJobId rid : string) (frozenAt : Z) : GV unit :=
  mapM (fun s =>
    count ← txQuery (fun _ g => surfaceCount rid g s);
    throw_if (negb (isCount count)) (governance "DELETION_IN_PROGRESS" 409);;
    executeG (fun _ => insertManifest (ManifestRow deletionJobId s count frozenAt))) SURFACES;;
  mret tt.
(** [INSERT INTO worker_job ... ON CONFLICT(dedupe_key) DO NOTHING]. *)
Definition surfaceKey (deletionJobId : string) (s : surface) : string :=
  ("room.delete-surface.v1:" ++ deletionJobId ++ ":" ++ surfaceText s)%string.
Definition surfacePayload (deletionJobId : string) (s : surface) : json :=
  JObj [("deletionJobId", JStr deletionJobId); ("surface", JStr (surfaceText s))]%string.
Definition surfaceJob (deletionJobId correlationId : string) (s : surface) (now : Z) : job_row :=
  JobRow (stableUuid [deletionJobId; surfaceText s]) DELETE_SURFACE None None (surfaceKey deletionJobId s) correlationId
    (surfacePayload deletionJobId s) queued 0 5 now 0 None None None None now now None None.
Definition insertSurfaceJob (j : job_row) (g : governed) : option governed :=
  let d := gv_db g in
  if existsb (fun x => bool_decide (jb_dedupe_key x = jb_dedupe_key j)) (jobs d) then Some g else
  _ ← guardO (negb (existsb (fun x => bool_decide (jb_id x = jb_id j)) (jobs d)));
  Some (set_gv_db (set_jobs (jobs d ++ [j]) d) g).
Definition enqueueDeletionSurfaceJobs (deletionJobId correlationId : string) : GV unit :=
  mapM (fun s => executeG (fun now => insertSurfaceJob (surfaceJob deletionJobId correlationId s now))) SURFACES;;
  mret tt.
Definition nowG : GV Z := ofRooms validNow.
Definition uuidNew : GV string := ofRooms randomUUID.
(** The three updates that shut the room. *)
Definition closedAt (t : Z) (r : room_row) : room_row :=
  RoomRow (rm_id r) (rm_nova_actor_id r) (rm_teacher_id r) (rm_topic r) closed (rm_duration_seconds r) (rm_starts_at r)
    (rm_closes_at r) (Some t) (rm_next_room_seq r) (rm_created_at r).
Definition closeRoom (rid : string) (t : Z) (d : database) : database :=
  set_rooms (update_where (fun r => bool_decide (rm_id r = rid)) (closedAt t) (rooms d)) d.
Definition ofRoom (rid : string) (d : database) (s : session_row) : bool :=
  match ss_room_member_id s with
  | Some m => existsb (fun x => bool_decide (mb_id x = m) && bool_decide (mb_room_id x = rid)) (members d)
  | None => false
  end.
Definition revokeSessions (rid : string) (t : Z) (d : database) : database :=
  set_sessions (update_where (fun s => ofRoom rid d s && isOpen s) (withRevoked t) (sessions d)) d.
Definition isWaiting (j : job_row) : bool := bool_decide (jb_status j ∈ [queued; retryable; running]).
Definition cancelledJob (j : job_row) : job_row :=
  JobRow (jb_id j) (jb_type j) (jb_room_id j) (jb_source_event_id j) (jb_dedupe_key j) (jb_correlation_id j) (jb_payload j)
    cancelled (jb_attempts j) (jb_max_attempts j) (jb_run_after j) (jb_claim_generation j) None None None
    (jb_last_error j) (jb_created_at j) (jb_updated_at j) (jb_order_seq j) (jb_order_kind j).
Definition cancelJobs (rid : string) (d : database) : database :=
  set_jobs (update_where (fun j => bool_decide (jb_room_id j = Some rid) && isWaiting j) cancelledJob (jobs d)) d.
(** [audit]. *)
Definition audit (kind : Role) (roomId correlationId action outcome reasonCode : string) : GV unit :=
  uuidNew;;
  modify (fun g => set_audit (gv_audit g ++ [AuditRow correlationId (match kind with r_teacher => "teacher" | r_student => "student" end)
    action outcome reasonCode (Some (refHash roomId))]) g).

Definition confirmationOf (roomId : string) : string := ("DELETE " ++ roomId)%string.
Definition deletionBody (teacherId roomId : string) (raw : json) : GV json :=
  rid ← uuidG roomId;
  room ← txQuery (fun _ g => find (fun r => bool_decide (rm_id r = rid)) (rooms (gv_db g)));
  throw_if (negb (bool_decide (rm_teacher_id <$> room = Some teacherId))) HIDDEN;;
  throw_if (negb (bool_decide (parseRequest raw = Some (confirmationOf roomId)))) (governance "INVALID_DELETE_REQUEST" 400);;
  tid ← uuidG teacherId;
  existing ← txQuery (fun _ g => existsb (fun x => isUnfinished rid x && bool_decide (dl_owner_teacher_id x = tid)) (deletions (gv_db g)));
  throw_if existing (governance "DELETION_IN_PROGRESS" 409);;
  deletionJobId ← uuidNew;
  correlationId ← uuidNew;
  executeG (insertDeletion deletionJobId rid (refHash roomId) tid None);;
  frozenAt ← nowG;
  freezeDeletionSurfaces deletionJobId rid frozenAt;;
  closedNow ← nowG;
  updateDb (closeRoom rid closedNow);;
  revokedNow ← nowG;
  updateDb (revokeSessions rid revokedNow);;
  updateDb (cancelJobs rid);;
  enqueueDeletionSurfaceJobs deletionJobId correlationId;;
  audit r_teacher roomId correlationId "deletion.request" "allowed" "DELETION_ACCEPTED";;
  throw_if (negb (acceptedSchema (acceptedJson deletionJobId))) (plain "INVALID_DELETION_ACCEPTED");;
  mret (acceptedJson deletionJobId).
Definition requestDeletion (principal : option AuthSession) (roomId : string) (raw : json) : GV json :=
  t ← lift_result (teacherOnly principal);
  throw_if (negb (isLowerUuid roomId)) HIDDEN;;
  accepted ← inTransactionG (deletionBody t roomId raw);
  try_catch (evictRoom roomId 4410) (fun _ => mret tt);;
  mret accepted.

(** *** Status *)

Record status_row : Type := StatusRow {
  st_job : deletion_row;
  st_job_completed_at : option Z;
  st_receipt : option receipt_row;
}.
Definition statusRow (id owner : string) (g : governed) : option status_row :=
  x ← find (fun x => bool_decide (dl_id x = id) && bool_decide (dl_owner_teacher_id x = owner)) (deletions (gv_db g));
  Some (StatusRow x (find (fun y => bool_decide (dd_id y = id)) (gv_details g) ≫= dd_completed_at)
          (find (fun y => bool_decide (rc_job_id y = id)) (gv_receipts g))).
(** [ORDER BY updated_at DESC, job_id DESC LIMIT 1] of the jobs that have failed. *)
Definition laterJob (a b : job_row) : bool :=
  (jb_updated_at b <? jb_updated_at a) || ((jb_updated_at a =? jb_updated_at b) && String.leb (jb_id b) (jb_id a)).
Definition lastFailure (id : string) (g : governed) : option string :=
  j ← head (sort_by laterJob (select_where (fun j =>
        bool_decide (jb_type j = DELETE_SURFACE) && bool_decide (textIn "deletionJobId" (jb_payload j) = Some id)
        && bool_decide (is_Some (jb_last_error j))) (jobs (gv_db g))));
  jb_last_error j.
(** A completed deletion: both moments are there and the same, the receipt is whole. What
    is no text among its surfaces is refused by the contract in the end. *)
Definition completedStatus (id : string) (row : status_row) : result failure json :=
  match st_job_completed_at row, st_receipt row with
  | Some jobCompleted, Some receipt =>
      match rc_surfaces receipt with
      | JArr l =>
          if (jobCompleted =? rc_completed_at receipt) && (rc_version receipt =? 1) then
            match mapM asStr l ≫= makeDeletionReceipt (toISOString (rc_completed_at receipt)) with
            | Some r =>
                match parseStatus (JObj [("deletionJobId", JStr id); ("status", JStr "completed"); ("receipt", r)]%string) with
                | Ok s => Ok s
                | Err _ => Err CORRUPT
                end
            | None => Err CORRUPT
            end
          else Err CORRUPT
      | _ => Err CORRUPT
      end
  | _, _ => Err CORRUPT
  end.
Definition openStatus (id : string) (s : DeletionStatus) (failureCode : option string) : result failure json :=
  parseStatus (JObj [("deletionJobId", JStr id); ("status", JStr (deletionText s));
    ("nextPollAfterMs", if bool_decide (s = d_dead) then JNull else JNum (NInt 1000));
    ("failureCode", match failureCode with Some c => JStr c | None => JNull end)]%string).
Definition deletionStatusOf (teacherId deletionJobId : string) : GV json :=
  throw_if (negb (isLowerUuid deletionJobId)) HIDDEN;;
  id ← uuidG deletionJobId;
  tid ← uuidG teacherId;
  row ← poolQuery (fun _ => statusRow id tid);
  match row with
  | None => throw HIDDEN
  | Some row =>
      throw_if (negb (bool_decide (dl_id (st_job row) = deletionJobId))) CORRUPT;;
      match dl_status (st_job row) with
      | d_completed => lift_result (completedStatus deletionJobId row)
      | s =>
          throw_if (bool_decide (is_Some (st_job_completed_at row)) || bool_decide (is_Some (st_receipt row))) CORRUPT;;
          failure ← (if bool_decide (s ∈ [d_retryable; d_dead]) then poolQuery (fun _ => lastFailure deletionJobId) else mret None);
          throw_if (match failure with Some c => negb (isFailureCode c) | None => false end) CORRUPT;;
          lift_result (openStatus deletionJobId s failure)
      end
  end.
Definition deletionStatus (principal : option AuthSession) (deletionJobId : string) : GV json :=
  t ← lift_result (teacherOnly principal);
  deletionStatusOf t deletionJobId.
Definition newerDeletion (a b : deletion_detail) : bool := dd_created_at b <=? dd_created_at a.
Definition deletionStatusForRoom (principal : option AuthSession) (roomId : string) : GV json :=
  t ← lift_result (teacherOnly principal);
  throw_if (negb (isLowerUuid roomId)) HIDDEN;;
  tid ← uuidG t;
  newest ← poolQuery (fun _ g => head (sort_by newerDeletion (select_where (fun y =>
    bool_decide (dd_room_ref y = refHash roomId)
    && existsb (fun x => bool_decide (dl_id x = dd_id y) && bool_decide (dl_owner_teacher_id x = tid)) (deletions (gv_db g)))
    (gv_details g))));
  match newest with None => throw HIDDEN | Some y => deletionStatusOf t (dd_id y) end.

(** *** Export *)

Definition policyOf (rid : string) (g : governed) : option policy_row :=
  p ← assoc rid (gv_room_policies g);
  find (fun x => bool_decide (pl_id x = p)) (policies (accounts (gv_db g))).
Definition policyCurrent (rid : string) (now : Z) (g : governed) : bool :=
  match policyOf rid g with Some p => (pl_approved_at p <=? now) && (now <? pl_expires_at p) | None => false end.
Definition formatOf (rawQuery : json) : option ExportFormat :=
  match rawQuery with
  | JObj fs =>
      if forallb (fun f => bool_decide (fst f = "format"%string)) fs then
        match field "format" rawQuery with
        | Some (JStr "json") => Some json_format
        | Some (JStr "csv") => Some csv_format
        | _ => None
        end
      else None
  | _ => None
  end.
(** [exportPositiveInteger]; [exportIsoTimestamp], whose text beyond the year 9999 the
    contract refuses with the same error. *)
Definition exportPositiveInteger (z : Z) : GV Z :=
  if (1 <=? z) && (z <=? MAX_SAFE_INTEGER) then mret z else throw UNAVAILABLE.
Definition exportIsoTimestamp (t : Z) : GV string :=
  if (-62167219200000 <=? t) && (t <=? 253402300799999) then mret (toISOString t) else throw UNAVAILABLE.
Definition nullable (t : option string) : json := match t with Some s => JStr s | None => JNull end.
Definition eventRow (row : event_row) : GV json :=
  seq ← exportPositiveInteger (ev_room_seq row);
  eventTime ← exportIsoTimestamp (ev_event_time row);
  ingestTime ← exportIsoTimestamp (ev_ingest_time row);
  mret (JObj [("schemaVersion", JNum (NInt 1)); ("eventId", JStr (ev_event_id row)); ("roomId", JStr (ev_room_id row));
    ("roomSeq", JNum (NInt seq)); ("type", JStr (ev_type row)); ("actorId", JStr (ev_actor_id row));
    ("actorKind", JStr (actorKindText (ev_actor_kind row))); ("actorRole", JStr (actorRoleText (ev_actor_role row)));
    ("revision", JNum (NInt (ev_revision row))); ("operation", JStr (operationText (ev_operation row)));
    ("eventTime", JStr eventTime); ("ingestTime", JStr ingestTime); ("causationId", JStr (ev_causation_id row));
    ("correlationId", JStr (ev_correlation_id row)); ("payload", ev_payload row)]%string).
Definition artifactHead (row : artifact_row) (seq : Z) : list (string * json) :=
  [("artifactId", JStr (ar_artifact_id row)); ("lineageId", JStr (ar_lineage_id row)); ("roomId", JStr (ar_room_id row));
   ("eventId", JStr (ar_event_id row)); ("roomSeq", JNum (NInt seq))]%string.
Definition artifactRow (row : artifact_row) : GV json :=
  seq ← exportPositiveInteger (ar_room_seq row);
  createdAt ← exportIsoTimestamp (ar_created_at row);
  mret (JObj (artifactHead row seq ++
    [("sourceModality", JStr (ar_source_modality row)); ("derivation", JStr (ar_derivation row)); ("text", JStr (ar_text row));
     ("languageTag", nullable (ar_language_tag row)); ("reviewStatus", JStr (ar_review_status row)); ("createdAt", JStr createdAt)]%string)).
Definition artifactSource (row : artifact_row) : GV json :=
  seq ← exportPositiveInteger (ar_room_seq row);
  mret (JObj (artifactHead row seq ++
    [("sourceMediaId", nullable (ar_source_media_id row)); ("sourceModality", JStr (ar_source_modality row));
     ("derivation", JStr (ar_derivation row)); ("supersedesArtifactId", nullable (ar_supersedes row))]%string)).
Definition EXPORT_ROWS : nat := Z.to_nat 10001.
Definition exportEvents (rid : string) (g : governed) : list event_row :=
  take EXPORT_ROWS (sort_by byRoomSeq (select_where (fun e => bool_decide (ev_room_id e = rid)) (events (gv_db g)))).
Definition artifactOrder (a b : artifact_row) : bool :=
  (ar_room_seq a <? ar_room_seq b) || ((ar_room_seq a =? ar_room_seq b) && String.leb (ar_artifact_id a) (ar_artifact_id b)).
Definition exportArtifacts (rid : string) (g : governed) : list artifact_row :=
  take EXPORT_ROWS (sort_by artifactOrder (select_where (fun a => bool_decide (ar_room_id a = rid)
    && bool_decide (ar_review_status a ∈ ["approved"; "corrected"]%string)) (gv_artifacts g))).
Definition EXPORT_KEYS : list ProjectionKey := [echo_teacher_shadow; trace_teacher_bundle].
(** The document: what the transaction reads, in order. *)
Definition exportDocument (rid : string) : GV TeacherRoomExport :=
  rows ← txQuery (fun _ => exportEvents rid);
  throw_if (10000 <? rowCount rows) UNAVAILABLE;;
  events ← mapM eventRow rows;
  artifactRows ← txQuery (fun _ => exportArtifacts rid);
  throw_if (10000 <? rowCount artifactRows) UNAVAILABLE;;
  artifacts ← mapM artifactRow artifactRows;
  sources ← mapM artifactSource artifactRows;
  projections ← try_catch (mapM (latestOf rid) EXPORT_KEYS) (fun _ => throw UNAVAILABLE);
  let projections := omap id projections in
  let document := MkExportDocument rid (rowCount events) events artifacts projections sources
                    (map (fun p => JObj (projectionFields p)) projections) in
  throw_if (negb (parseExport document)) UNAVAILABLE;;
  mret document.
Definition bodyBytes (t : string) : Z := Z.of_nat (String.length t).
Definition exportWork (teacherId roomId : string) (rawQuery : json) : GV (ExportFormat * string) :=
  rid ← uuidG roomId;
  tid ← uuidG teacherId;
  room ← txQuery (fun now g =>
    r ← find (ownsRoom rid tid) (rooms (gv_db g));
    Some (policyCurrent rid now g, deletionActiveIn rid (gv_db g)));
  match room with
  | None => throw HIDDEN
  | Some (current, deleting) =>
      throw_if deleting (governance "DELETION_IN_PROGRESS" 410);;
      throw_if (negb current) (governance "RETENTION_POLICY_EXPIRED" 410);;
      match formatOf rawQuery with
      | None => throw (governance "INVALID_EXPORT_FORMAT" 400)
      | Some format =>
          document ← exportDocument rid;
          let text := exportBody format document in
          throw_if (EXPORT_MAX_BYTES <? bodyBytes text) UNAVAILABLE;;
          correlationId ← uuidNew;
          audit r_teacher roomId correlationId "export.request" "allowed" "EXPORT_COMPLETED";;
          mret (format, text)
      end
  end.
Definition exportRoom (principal : option AuthSession) (roomId : string) (rawQuery : json) : GV Export :=
  t ← lift_result (teacherOnly principal);
  throw_if (negb (isLowerUuid roomId)) HIDDEN;;
  '(format, text) ← inTransactionG (exportWork t roomId rawQuery);
  mret (MkExport (exportFilename format) (exportContentType format) text).

(** The service the routes are given. *)
Definition governanceService : GovernanceService governed :=
  MkGovernance governed authorizeRoom (fun p => requestDeletion (Some p)) deletionStatus deletionStatusForRoom exportRoom.
End Service.
