(* ===== verification/GovernanceLaws.v ===== *)
(** * What a deletion does and what an export holds

    The effect of an accepted deletion on every table, what becomes of the room, and the
    document an export is written from. *)
From S2P Require Import Prelude Text JsDate JsValue Contracts Database Concrete Ledger Authorization Frames Echo Trace Sessions Exports Http Routes ExportFile Governed Governance.
#[local] Set Warnings "-register-all,-clear-no-such-hyp,-level-tolerance".

(** ** Runs of statements *)

Section Runs.
Context `{Postgres} `{Environment}.
Lemma executeG_ok f g u g' : executeG f g = (Ok u, g') -> f (tx_now (tx (gv_world g))) g = Some g'.
Proof. unfold executeG. destruct (f _ g); naive_solver. Qed.
Lemma txQuery_ok {A} (f : Z -> governed -> A) g a g' : txQuery f g = (Ok a, g') -> a = f (tx_now (tx (gv_world g))) g /\ g' = g.
Proof. unfold txQuery, gets. naive_solver. Qed.
Lemma updateDb_ok f g u g' : updateDb f g = (Ok u, g') -> g' = set_gv_db (f (gv_db g)) g.
Proof. unfold updateDb, modify. naive_solver. Qed.
Lemma uuidG_ok s g u g' : uuidG s g = (Ok u, g') -> uuid_in s = Some u /\ g' = g.
Proof. unfold uuidG. destruct (uuid_in s); intros; by run_ok. Qed.
(** The supplies draw from the world and leave the tables alone. *)
Lemma uuidNew_ok g u g' : uuidNew g = (Ok u, g') -> same_tables g g' /\ tx (gv_world g') = tx (gv_world g) /\ u = uuid_supply (uuids (gv_world g)).
Proof. unfold uuidNew, ofRooms, inWorld, randomUUID. intros [= <- <-]. done. Qed.
Lemma nowG_ok g t g' : nowG g = (Ok t, g') -> same_tables g g' /\ tx (gv_world g') = tx (gv_world g).
Proof.
  unfold nowG, ofRooms, inWorld. destruct (validNow (gv_world g)) as [[z|e] w] eqn:Ev; intros [= <- <-].
  apply validNow_ok in Ev as [_ ->]. done.
Qed.
Lemma poolQuery_ok {A} (f : Z -> governed -> A) g a g' :
  poolQuery f g = (Ok a, g') -> a = f (db_now (txs (gv_world g))) g /\ same_tables g g'.
Proof. unfold poolQuery. intros [= <- <-]. done. Qed.
End Runs.

(** Peels statements off the run of a service. *)
Ltac run_gov :=
  repeat (run_ok; match goal with
  | H : executeG _ _ = (Ok _, _) |- _ => apply executeG_ok in H
  | H : txQuery _ _ = (Ok _, _) |- _ => apply txQuery_ok in H as [? ?]; subst
  | H : updateDb _ _ = (Ok _, _) |- _ => apply updateDb_ok in H; subst
  | H : uuidG _ _ = (Ok _, _) |- _ => apply uuidG_ok in H as [? ?]; subst
  | _ => idtac
  end).

(** ** Steps that leave the tables alone *)

(** What a callback or a service beside the model is assumed to do to the tables: nothing. *)
Definition leaves_tables {A} (m : GV A) : Prop := forall g, same_tables g (snd (m g)).
Create HintDb leaves.
Section Leaves.
Context `{Postgres} `{Environment}.
Lemma leaves_ret {A} (a : A) : leaves_tables (mret a).
Proof. by intros g. Qed.
Lemma leaves_throw {A} e : leaves_tables (throw (A:=A) e).
Proof. by intros g. Qed.
Lemma leaves_throw_if b e : leaves_tables (throw_if b e).
Proof. intros g. by destruct b. Qed.
Lemma leaves_uuidG s : leaves_tables (uuidG s).
Proof. intros g. unfold uuidG. by destruct (uuid_in s). Qed.
Lemma leaves_poolQuery {A} (f : Z -> governed -> A) : leaves_tables (poolQuery f).
Proof. by intros g. Qed.
Lemma leaves_txQuery {A} (f : Z -> governed -> A) : leaves_tables (txQuery f).
Proof. by intros g. Qed.
Lemma leaves_uuidNew : leaves_tables uuidNew.
Proof. by intros g. Qed.
Lemma leaves_nowG : leaves_tables nowG.
Proof.
  intros g. unfold nowG, ofRooms, inWorld, validNow, clockNow, mbind, M_bind.
  by destruct (clock_now (ticks (gv_world g))).
Qed.
Lemma leaves_bind {A B} (m : GV A) (f : A -> GV B) :
  leaves_tables m -> (forall a, leaves_tables (f a)) -> leaves_tables (m ≫= f).
Proof.
  intros Hm Hf g. unfold mbind, M_bind. specialize (Hm g). destruct (m g) as [[a|e] g1]; [|done]. etrans; [exact Hm|apply Hf].
Qed.
End Leaves.
#[export] Hint Resolve leaves_ret leaves_throw leaves_throw_if leaves_uuidG leaves_poolQuery leaves_txQuery leaves_uuidNew
  leaves_nowG : leaves.

Section Deletions.
Context `{Schemas} `{Postgres} `{Environment} `{Locale} `{JsonText} `{Sha1}.
Variable auditSalt : string.
Abbreviation refHash := (refHash auditSalt).

(** The tables other than those of the database of the rooms. *)
Record beside (g g' : governed) : Prop := {
  bs_receipts : gv_receipts g' = gv_receipts g;
  bs_room_policies : gv_room_policies g' = gv_room_policies g;
  bs_promotions : gv_promotions g' = gv_promotions g;
  bs_artifacts : gv_artifacts g' = gv_artifacts g;
  bs_counts : gv_counts g' = gv_counts g;
  bs_notices : gv_notices g' = gv_notices g;
  bs_terms : gv_terms g' = gv_terms g;
  bs_agents : gv_agents g' = gv_agents g;
}.
Lemma insertManifest_ok m g g' : insertManifest m g = Some g' -> g' = set_manifests (gv_manifests g ++ [m]) g.
Proof. unfold insertManifest. intros (u & _ & [= <-])%bind_Some. done. Qed.
(** What the freezing writes: the count of each surface as it is now. *)
Lemma freeze_ok id rid frozenAt g u g' : freezeDeletionSurfaces id rid frozenAt g = (Ok u, g') ->
  g' = set_manifests (gv_manifests g ++ map (fun s => ManifestRow id s (surfaceCount rid g s) frozenAt) SURFACES) g
  /\ Forall (fun s => isCount (surfaceCount rid g s) = true) SURFACES.
Proof.
  unfold freezeDeletionSurfaces. intros Hr. apply bind_ok in Hr as (us & g1 & Hm & Hr). run_ok.
  generalize SURFACES Hm. clear Hm. intros l Hm.
  assert (forall s, surfaceCount rid g s = surfaceCount rid g s) as Hcount by done.
  revert g us g' Hm Hcount. induction l as [|s l IH]; intros g us g' Hm _.
  - cbn in Hm. run_ok. cbn. rewrite app_nil_r. by destruct g'.
  - apply mapM_cons_ok in Hm as (y & g1 & us' & Hs & Hm & ->). apply bind_ok in Hs as (n & g2 & Hq & Hs).
    apply txQuery_ok in Hq as [-> ->]. apply bind_ok in Hs as (v & g3 & Ht & Hs). apply throw_if_ok in Ht as [Hc ->].
    apply executeG_ok, insertManifest_ok in Hs as ->. apply IH in Hm as [-> Hall]; [|done]. cbn. rewrite <- app_assoc.
    split; [done|]. constructor; [by apply negb_false_iff in Hc|done].
Qed.
Lemma enqueue_ok id corr g u g' : enqueueDeletionSurfaceJobs id corr g = (Ok u, g') ->
  exists new, g' = set_gv_db (set_jobs (jobs (gv_db g) ++ new) (gv_db g)) g
    /\ Forall (fun j => exists s now, j = surfaceJob id corr s now) new
    /\ Forall (fun s => exists j, j ∈ jobs (gv_db g) ++ new /\ jb_dedupe_key j = surfaceKey id s) SURFACES.
Proof.
  unfold enqueueDeletionSurfaceJobs. intros Hr. apply bind_ok in Hr as (us & g1 & Hm & Hr). run_ok.
  generalize SURFACES Hm. clear Hm. intros l. revert g us g'. induction l as [|s l IH]; intros g us g' Hm.
  - cbn in Hm. run_ok. exists []. rewrite app_nil_r. split; [|by split; constructor]. by destruct g' as [[[] ?] ? ? ? ?].
  - apply mapM_cons_ok in Hm as (y & g1 & us' & Hs & Hm & ->). apply executeG_ok in Hs.
    unfold insertSurfaceJob in Hs. set (j := surfaceJob id corr s _) in *.
    destruct (existsb _ (jobs (gv_db g))) eqn:Hx.
    + injection Hs as <-. apply IH in Hm as (new & -> & Hn & Hk). exists new. split_and!; [done|done|].
      constructor; [|done]. apply existsb_exists in Hx as (x & Hx & He). apply bool_decide_eq_true in He.
      exists x. split; [|done]. apply elem_of_app. left. by apply list_elem_of_In.
    + apply bind_Some in Hs as (v & _ & [= <-]). apply IH in Hm as (new & -> & Hn & Hk). exists (j :: new).
      cbn in *. rewrite <- app_assoc in *. cbn in *. split_and!; [done|by constructor; eauto|].
      constructor; [|done]. exists j. split; [|done]. apply elem_of_app. right. left.
Qed.

(** The tables after an accepted deletion. *)
Record shut (teacherId rid jobId : string) (g g' : governed) : Prop := {
  sh_room : exists r, find (fun r => bool_decide (rm_id r = rid)) (rooms (gv_db g)) = Some r /\ rm_teacher_id r = teacherId;
  sh_first : existsb (isUnfinished rid) (deletions (gv_db g)) = false;
  sh_new : ~ jobId ∈ map dl_id (deletions (gv_db g));
  sh_deletions : exists owner, uuid_in teacherId = Some owner
    /\ deletions (gv_db g') = deletions (gv_db g) ++ [DeletionRow jobId (Some rid) owner d_queued];
  sh_rooms : exists t, rooms (gv_db g') = update_where (fun r => bool_decide (rm_id r = rid)) (closedAt t) (rooms (gv_db g));
  sh_sessions : exists t, sessions (gv_db g')
    = update_where (fun s => ofRoom rid (gv_db g) s && isOpen s) (withRevoked t) (sessions (gv_db g));
  sh_jobs : exists new corr, jobs (gv_db g')
      = update_where (fun j => bool_decide (jb_room_id j = Some rid) && isWaiting j) cancelledJob (jobs (gv_db g)) ++ new
    /\ Forall (fun j => exists s now, j = surfaceJob jobId corr s now) new
    /\ Forall (fun s => exists j, j ∈ jobs (gv_db g') /\ jb_dedupe_key j = surfaceKey jobId s) SURFACES;
  sh_manifests : exists t, gv_manifests g'
    = gv_manifests g ++ map (fun s => ManifestRow jobId s (surfaceCount rid g s) t) SURFACES;
  sh_audit : exists corr, gv_audit g'
    = gv_audit g ++ [AuditRow corr "teacher" "deletion.request" "allowed" "DELETION_ACCEPTED" (Some (refHash rid))];
  sh_events : events (gv_db g') = events (gv_db g);
  sh_outbox : outbox (gv_db g') = outbox (gv_db g);
  sh_members : members (gv_db g') = members (gv_db g);
  sh_accounts : accounts (gv_db g') = accounts (gv_db g);
  sh_beside : beside g g';
}.

(** Two states with the same tables are the same but for the supplies. *)
Lemma same_tables_eq g g' : same_tables g g' -> g' = set_world (gv_world g') g /\ gv_db g' = gv_db g.
Proof. destruct g as [w1], g' as [w2]. intros (? & ? & ? & ? & ? & ? & ? & ? & ? & ? & ? & ?). cbn in *. by subst. Qed.

Lemma insertDeletion_ok id rid ref owner version now g g' : insertDeletion id rid ref owner version now g = Some g' ->
  existsb (isUnfinished rid) (deletions (gv_db g)) = false /\ ~ id ∈ map dl_id (deletions (gv_db g))
  /\ g' = set_details (gv_details g ++ [DeletionDetail id ref version now None])
       (set_gv_db (set_deletions (deletions (gv_db g) ++ [DeletionRow id (Some rid) owner d_queued]) (gv_db g)) g).
Proof.
  unfold insertDeletion. intros (u & Hg & [= <-])%bind_Some. unfold guardO in Hg. destruct (_ && _) eqn:Hb; [|done].
  split_bools. split_and!; [done| |done]. intros (x & -> & Hx)%list_elem_of_fmap.
  match goal with Hx' : existsb _ (deletions _) = false |- _ => rename Hx' into He end.
  assert (existsb (fun y => bool_decide (dl_id y = dl_id x)) (deletions (gv_db g)) = true); [|congruence].
  apply existsb_exists. exists x. split; [by apply list_elem_of_In|]. by rewrite bool_decide_true.
Qed.

(** A supply: only the world's counters move. *)
Lemma supply_set g g' : same_tables g g' -> exists w, g' = set_world w g /\ db w = gv_db g.
Proof. intros [Hg Hd]%same_tables_eq. exists (gv_world g'). done. Qed.
Lemma audit_ok k rid corr a o c g u g' : audit auditSalt k rid corr a o c g = (Ok u, g') ->
  exists w, db w = gv_db g /\ g' = set_audit (gv_audit g ++ [AuditRow corr
    (match k with r_teacher => "teacher" | r_student => "student" end) a o c (Some (refHash rid))]) (set_world w g).
Proof.
  unfold audit. intros (x & g1 & Hu & Hr)%bind_ok. apply uuidNew_ok in Hu as ((w & -> & Hw)%supply_set & _).
  run_ok. by exists w.
Qed.
Lemma acceptedSchema_uuid jobId : acceptedSchema (acceptedJson jobId) = true -> format_uuid jobId = true.
Proof. unfold acceptedSchema, acceptedJson, closedObject, field, uuidSchema. simpl. intros Hs. split_bools. done. Qed.
(** The statements of an accepted deletion, one after the other. *)
Lemma deletionBody_ok t rid raw g answer g' :
  uuid_in rid = Some rid -> deletionBody auditSalt t rid raw g = (Ok answer, g') ->
  exists jobId, answer = acceptedJson jobId /\ format_uuid jobId = true /\ parseRequest raw = Some (confirmationOf rid)
    /\ jobId = uuid_supply (uuids (gv_world g)) /\ shut t rid jobId g g'.
Proof.
  intros Hrid Hr. unfold deletionBody in Hr. run_gov. repeat match goal with
  | Hx : uuid_in rid = Some ?x |- _ => lazymatch x with rid => fail | _ => rewrite Hrid in Hx; injection Hx as <- end end.
  repeat match goal with Hx : negb _ = false |- _ => apply negb_false_iff in Hx end.
  repeat match goal with Hx : bool_decide _ = true |- _ => apply bool_decide_eq_true in Hx end.
  match goal with Hx : acceptedSchema _ = true |- _ => apply acceptedSchema_uuid in Hx as Huuid end.
  match goal with Hx : rm_teacher_id <$> _ = Some t |- _ => rename Hx into Howner end.
  destruct (find _ (rooms (gv_db g))) as [r|] eqn:Hfind; [|done]. injection Howner as Howner.
  match goal with H1 : uuidNew g = (Ok ?j, _) |- _ => exists j; pose proof (uuidNew_ok _ _ _ H1) as (_ & _ & Hj) end.
  repeat match goal with
  | Hx : uuidNew _ = (Ok _, _) |- _ => apply uuidNew_ok in Hx as ((? & -> & ?)%supply_set & _)
  | Hx : nowG _ = (Ok _, _) |- _ => apply nowG_ok in Hx as ((? & -> & ?)%supply_set & _)
  | Hx : insertDeletion _ _ _ _ _ _ _ = Some _ |- _ => apply insertDeletion_ok in Hx as (Hfirst & Hnew & ->)
  | Hx : freezeDeletionSurfaces _ _ _ _ = (Ok _, _) |- _ => apply freeze_ok in Hx as [-> _]
  | Hx : enqueueDeletionSurfaceJobs _ _ _ = (Ok _, _) |- _ => apply enqueue_ok in Hx as (new & -> & Hmade & Hkeys)
  | Hx : audit _ _ _ _ _ _ _ _ = (Ok _, _) |- _ => apply audit_ok in Hx as (? & ? & ->)
  end.
  split_and!; [done..|]. destruct g as [w]. unfold gv_db in *. cbn in *.
  constructor; unfold gv_db; cbn; repeat match goal with Hd : db ?x = _ |- _ => is_var x; try rewrite Hd in *; clear Hd end; cbn in *; eauto 10.
  constructor; done.
Qed.

(** *** What an accepted deletion means *)

Lemma update_where_elem {A} (p : A -> bool) (f : A -> A) l y :
  y ∈ update_where p f l -> exists x, x ∈ l /\ y = (if p x then f x else x).
Proof. intros (x & -> & Hx)%list_elem_of_fmap. eauto. Qed.
Lemma update_where_keeps {A} (p : A -> bool) (f : A -> A) l x : x ∈ l -> p x = false -> x ∈ update_where p f l.
Proof. intros Hx Hp. apply list_elem_of_fmap. exists x. by rewrite Hp. Qed.
Lemma update_where_other {A} (p : A -> bool) (f : A -> A) l y :
  (forall x, p x = true -> y <> f x) -> y ∈ update_where p f l -> y ∈ l.
Proof. intros Hf (x & Hx & ->)%update_where_elem. destruct (p x) eqn:Hp; [by destruct (Hf x Hp)|done]. Qed.
Lemma shut_deleting t rid jobId g g' : shut t rid jobId g g' -> deletionActiveIn rid (gv_db g') = true.
Proof.
  intros [? ? ? (owner & _ & Hd) _ _ _ _ _ _ _ _ _ _]. unfold deletionActiveIn. rewrite Hd, existsb_app. cbn.
  rewrite bool_decide_true by done. by rewrite orb_true_r.
Qed.
Lemma shut_closed t rid jobId g g' : shut t rid jobId g g' -> forall r, r ∈ rooms (gv_db g') -> rm_id r = rid -> rm_status r = closed.
Proof.
  intros [? ? ? ? (now & Hr) _ _ _ _ _ _ _ _ _] r Hin Hid. rewrite Hr in Hin. apply update_where_elem in Hin as (x & _ & ->).
  case_bool_decide as Hx; [done|]. by destruct Hx.
Qed.
Lemma shut_revoked t rid jobId g g' : shut t rid jobId g g' ->
  forall s, s ∈ sessions (gv_db g') -> ofRoom rid (gv_db g') s = true -> ss_revoked_at s <> None.
Proof.
  intros [? ? ? ? _ (now & Hs) _ _ _ _ _ Hm _ _] s Hin Ho. rewrite Hs in Hin. apply update_where_elem in Hin as (x & _ & ->).
  assert (ofRoom rid (gv_db g) x = true) as Hx.
  { revert Ho. unfold ofRoom. rewrite Hm. by destruct (_ && _). }
  rewrite Hx. cbn [andb]. unfold isOpen. by case_bool_decide.
Qed.
Lemma shut_idle t rid jobId g g' : shut t rid jobId g g' ->
  forall j, j ∈ jobs (gv_db g') -> jb_room_id j = Some rid -> isWaiting j = false.
Proof.
  intros [? ? ? ? _ _ (new & corr & Hj & Hn & _) _ _ _ _ _ _ _] j Hin Hid. rewrite Hj in Hin. apply elem_of_app in Hin as [Hin|Hin].
  - apply update_where_elem in Hin as (x & _ & ->). destruct (isWaiting x) eqn:Hw.
    + destruct (bool_decide (jb_room_id x = Some rid)) eqn:Hx; [done|]. cbn in *. by apply bool_decide_eq_false in Hx.
    + by rewrite andb_false_r.
  - rewrite Forall_forall in Hn. destruct (Hn j Hin) as (s & now & ->). done.
Qed.
(** Other rooms, their sessions and their jobs are as they were. *)
Record untouched (rid : string) (g g' : governed) : Prop := {
  un_rooms : forall r, rm_id r <> rid -> r ∈ rooms (gv_db g) <-> r ∈ rooms (gv_db g');
  un_sessions : forall s, s ∈ sessions (gv_db g) -> ofRoom rid (gv_db g) s = false -> s ∈ sessions (gv_db g');
  un_jobs : forall j, j ∈ jobs (gv_db g) -> jb_room_id j <> Some rid -> j ∈ jobs (gv_db g');
  un_events : events (gv_db g') = events (gv_db g) /\ outbox (gv_db g') = outbox (gv_db g);
}.
Lemma shut_untouched t rid jobId g g' : shut t rid jobId g g' -> untouched rid g g'.
Proof.
  intros [? ? ? ? (n1 & Hr) (n2 & Hs) (new & corr & Hj & _) _ _ He Ho _ _ _]. constructor; [| | |done].
  - intros r Hid. rewrite Hr. split; intros Hin.
    + apply update_where_keeps; [done|]. by apply bool_decide_eq_false.
    + eapply update_where_other; [|exact Hin]. intros x Hx%bool_decide_eq_true ->. cbn in Hid. done.
  - intros s Hin Hof. rewrite Hs. apply update_where_keeps; [done|]. by rewrite Hof.
  - intros j Hin Hid. rewrite Hj. apply elem_of_app. left. apply update_where_keeps; [done|].
    by rewrite (bool_decide_false _ Hid).
Qed.
End Deletions.

(** ** A room that is being deleted admits nobody *)

Section ShutOut.
Context `{Schemas} `{Postgres} `{Environment}.

Lemma identities_deleting theSession rid now d row :
  deletionActiveIn rid d = true -> row ∈ identities theSession rid now d -> id_deletion_active row = true.
Proof.
  intros Hd Hin. unfold identities in Hin. apply list_elem_of_In in Hin. apply in_concat in Hin as (l & Hl & Hin).
  apply in_map_iff in Hl as (s & <- & _). apply list_elem_of_In, list_elem_of_omap in Hin as (r & _ & Hrow).
  destruct (_ && _) eqn:Hb; [|done]. injection Hrow as <-. cbn. apply andb_true_iff in Hb as [_ Hw].
  assert (rm_id r = rid) as ->; [|done]. apply orb_true_iff in Hw as [Hw|Hw]; split_bools; done.
Qed.
(** No token and no session is admitted to it. *)
Definition not_admitted (m : M world auth_error DeliveryAuthorization) (w : world) : Prop :=
  forall s p a w', m w <> (Ok (Delivery s p a), w').
Lemma authenticate_deleting token roomId rid reject w :
  uuid_in roomId = Some rid -> deletionActiveIn rid (db w) = true -> not_admitted (authenticateWith token roomId reject) w.
Proof.
  intros Hu Hd s p a w'. unfold authenticateWith. destruct token as [[|c t]|]; try done. destruct (_ <? _); [done|].
  unfold uuidOf. rewrite Hu. erewrite bind_run by reflexivity. erewrite bind_run by apply statement_run.
  destruct (identities _ rid _ (db w)) as [|row l] eqn:Hi; [done|].
  by rewrite (identities_deleting _ rid _ _ row Hd) by (rewrite Hi; left).
Qed.
Lemma reauthorize_deleting sid roomId rid w :
  uuid_in roomId = Some rid -> deletionActiveIn rid (db w) = true -> not_admitted (reauthorize sid roomId) w.
Proof.
  intros Hu Hd s p a w'. unfold reauthorize. unfold uuidOf. destruct (uuid_in sid); [|done].
  erewrite bind_run by reflexivity. erewrite bind_run by apply statement_run.
  destruct (select_where _ _); [done|]. rewrite Hu. erewrite bind_run by reflexivity. erewrite bind_run by apply statement_run.
  rewrite after_db. destruct (identities _ rid _ (db w)) as [|row l'] eqn:Hi; [done|].
  by rewrite (identities_deleting _ rid _ _ row Hd) by (rewrite Hi; left).
Qed.
Lemma action_deleting c p sid roomId rid action w :
  uuid_in roomId = Some rid -> deletionActiveIn rid (db w) = true ->
  forall grant w', authorizeRoomAction c p sid roomId action w <> (Ok grant, w').
Proof.
  intros Hu Hd grant w' Hr. unfold authorizeRoomAction in Hr. destruct p as [p|]; [|done].
  apply bind_ok in Hr as (? & ? & [_ ->]%throw_if_ok & Hr). apply bind_ok in Hr as (? & ? & [_ ->]%throw_if_ok & Hr).
  apply bind_ok in Hr as (rid' & w1 & Hu' & Hr). unfold uuidOf in Hu'. rewrite Hu in Hu'. unfold mret, M_ret in Hu'. simplify_eq.
  erewrite bind_run in Hr by apply statement_run. rewrite Hd in Hr. by apply bind_ok in Hr as (? & ? & [? _]%throw_if_ok & _).
Qed.
Lemma active_in rid d : deletionActiveIn rid d = true -> deletionActive rid d = true.
Proof.
  unfold deletionActiveIn, deletionActive. rewrite !existsb_exists. intros (x & Hx & Hb). exists x. split; [done|]. split_bools.
  rewrite bool_decide_true by done. cbn. unfold activeDeletion in *. by destruct (dl_status x).
Qed.
Lemma transact_deleting {T} payloads roomId rid (work : RoomEventTransactionContext -> IO T) w a w' :
  uuid_in roomId = Some rid -> deletionActiveIn rid (db w) = true -> transact payloads roomId work w <> (Ok a, w').
Proof.
  intros Hu Hd%active_in (locked & snapshot & w0 & [_ Hf _ Ha _ _] & _)%transact_ok.
  apply find_some in Hf as [_ Hl%bool_decide_eq_true]. rewrite Hu in Hl. injection Hl as Hl. rewrite Hl in Ha. congruence.
Qed.
End ShutOut.
