(* ===== verification/Coded.v ===== *)
(** * Texts of JSON values, concretely

    [JSON.stringify] and [JSON.parse] are the class [JsonText] of [ExportFile], with the
    laws [JsonTextLaws]. Here is an instance that obeys them, a text of the digits zero and
    one: what the theorems on exports assume can be had. *)
From stdpp Require Import countable.
From S2P Require Import Prelude JsValue Frames Echo Trace Exports Http ExportFile.
#[local] Set Warnings "-register-all,-clear-no-such-hyp,-level-tolerance".

(** ** Trees *)

#[global] Instance jsnum_countable : Countable jsnum.
Proof.
  refine (inj_countable' (fun n => match n with NInt z => inl z | NFrac m e => inr (Some (m, e), false)
                                    | NNegZero => inr (None, false) | NNonFinite => inr (None, true) end)
    (fun c => match c with inl z => NInt z | inr (Some (m, e), _) => NFrac m e
              | inr (None, false) => NNegZero | inr (None, true) => NNonFinite end) _). by intros [].
Defined.
Abbreviation leaf := (option (bool + (jsnum + string)))%type.
Fixpoint treeOf (j : json) : gen_tree leaf :=
  match j with
  | JNull => GenLeaf None
  | JBool b => GenLeaf (Some (inl b))
  | JNum n => GenLeaf (Some (inr (inl n)))
  | JStr s => GenLeaf (Some (inr (inr s)))
  | JArr l => GenNode 0 (map treeOf l)
  | JObj fs => GenNode 1 (map (fun f => GenNode 2 [GenLeaf (Some (inr (inr (fst f)))); treeOf (snd f)]) fs)
  end.
Fixpoint ofTree (t : gen_tree leaf) : json :=
  match t with
  | GenLeaf None => JNull
  | GenLeaf (Some (inl b)) => JBool b
  | GenLeaf (Some (inr (inl n))) => JNum n
  | GenLeaf (Some (inr (inr s))) => JStr s
  | GenNode 0 l => JArr (map ofTree l)
  | GenNode _ l => JObj (map (fun t => match t with GenNode _ [GenLeaf (Some (inr (inr k))); v] => (k, ofTree v) | _ => (EmptyString, JNull) end) l)
  end.
Lemma ofTree_treeOf j : ofTree (treeOf j) = j.
Proof.
  induction j as [|b|n|t|l IH|fs IH] using json_ind'; try done.
  - cbn. f_equal. rewrite map_map. induction IH as [|x l Hx _ IHl]; [done|]. cbn. by rewrite Hx, IHl.
  - cbn. f_equal. rewrite map_map. induction IH as [|[k x] l Hx _ IHl]; [done|]. cbn in *. by rewrite Hx, IHl.
Qed.
#[global] Instance json_countable : Countable json := inj_countable' treeOf ofTree ofTree_treeOf.

(** ** Concept maps and networks *)

#[global] Instance ProjectionKey_countable : Countable ProjectionKey.
Proof.
  refine (inj_countable' (fun x => match x with | echo_teacher_shadow => 0 | echo_student_approved => 1 | trace_teacher_bundle => 2 | trace_student_bundle => 3 end)%nat
    (fun n => match n with | 0 => echo_teacher_shadow | 1 => echo_student_approved | 2 => trace_teacher_bundle | _ => trace_student_bundle end)%nat _). by intros [].
Defined.
#[global] Instance NodeEvidence_eq_dec : EqDecision NodeEvidence.
Proof. solve_decision. Defined.
#[global] Instance NodeEvidence_countable : Countable NodeEvidence.
Proof.
  refine (inj_countable' (fun x => match x with | supported => 0 | challenged => 1 | uncertain => 2 | disputed => 3 | retracted => 4 | superseded => 5 | replay_required => 6 end)%nat
    (fun n => match n with | 0 => supported | 1 => challenged | 2 => uncertain | 3 => disputed | 4 => retracted | 5 => superseded | _ => replay_required end)%nat _). by intros [].
Defined.
#[global] Instance ReviewStatus_countable : Countable ReviewStatus.
Proof.
  refine (inj_countable' (fun x => match x with | unreviewed => 0 | approved => 1 | rejected => 2 | corrected => 3 end)%nat
    (fun n => match n with | 0 => unreviewed | 1 => approved | 2 => rejected | _ => corrected end)%nat _). by intros [].
Defined.
#[global] Instance NodeDisplay_eq_dec : EqDecision NodeDisplay.
Proof. solve_decision. Defined.
#[global] Instance NodeDisplay_countable : Countable NodeDisplay.
Proof.
  refine (inj_countable' (fun x => match x with | confirmed => 0 | provisional => 1 | disputed_display => 2 | inactive => 3 end)%nat
    (fun n => match n with | 0 => confirmed | 1 => provisional | 2 => disputed_display | _ => inactive end)%nat _). by intros [].
Defined.
#[global] Instance EvidenceStatus_countable : Countable EvidenceStatus.
Proof.
  refine (inj_countable' (fun x => match x with | ev_active => 0 | ev_retracted => 1 | ev_superseded => 2 | ev_requires_replay => 3 end)%nat
    (fun n => match n with | 0 => ev_active | 1 => ev_retracted | 2 => ev_superseded | _ => ev_requires_replay end)%nat _). by intros [].
Defined.
#[global] Instance DisplayStatus_countable : Countable DisplayStatus.
Proof.
  refine (inj_countable' (fun x => match x with | hidden => 0 | teacher_shadow => 1 | student_approved => 2 | student_aggregate => 3 end)%nat
    (fun n => match n with | 0 => hidden | 1 => teacher_shadow | 2 => student_approved | _ => student_aggregate end)%nat _). by intros [].
Defined.
#[global] Instance NodeKind_countable : Countable NodeKind.
Proof.
  refine (inj_countable' (fun x => match x with | nk_learner => 0 | nk_agent => 1 | nk_room => 2 end)%nat
    (fun n => match n with | 0 => nk_learner | 1 => nk_agent | _ => nk_room end)%nat _). by intros [].
Defined.
#[global] Instance Layer_countable : Countable Layer.
Proof.
  refine (inj_countable' (fun x => match x with | ly_communication => 0 | ly_uptake => 1 | ly_stance => 2 | ly_coordination => 3 | ly_facilitation => 4 end)%nat
    (fun n => match n with | 0 => ly_communication | 1 => ly_uptake | 2 => ly_stance | 3 => ly_coordination | _ => ly_facilitation end)%nat _). by intros [].
Defined.
#[global] Instance Basis_countable : Countable Basis.
Proof.
  refine (inj_countable' (fun x => match x with | text_span => 0 | event_metadata => 1 end)%nat
    (fun n => match n with | 0 => text_span | _ => event_metadata end)%nat _). by intros [].
Defined.
#[global] Instance Position_eq_dec : EqDecision Position.
Proof. solve_decision. Defined.
#[global] Instance Position_countable : Countable Position.
Proof.
  refine (inj_countable' (fun v => (po_x v, po_y v))
    (fun '(a, b) => MkPosition a b) _). by intros [].
Defined.
#[global] Instance ConceptNode_eq_dec : EqDecision ConceptNode.
Proof. solve_decision. Defined.
#[global] Instance ConceptNode_countable : Countable ConceptNode.
Proof.
  refine (inj_countable' (fun v => ((nd_nodeId v, nd_label v, nd_evidenceStatus v, nd_reviewStatus v), (nd_displayStatus v, nd_position v)))
    (fun '((a, b, c, d), (e, f)) => MkNode a b c d e f) _). by intros [].
Defined.
#[global] Instance EvidenceRef_eq_dec : EqDecision EvidenceRef.
Proof. solve_decision. Defined.
#[global] Instance EvidenceRef_countable : Countable EvidenceRef.
Proof.
  refine (inj_countable' (fun v => (er_eventId v, er_start v, er_end v))
    (fun '(a, b, c) => MkEvidence a b c) _). by intros [].
Defined.
#[global] Instance Channels_eq_dec : EqDecision Channels.
Proof. solve_decision. Defined.
#[global] Instance Channels_countable : Countable Channels.
Proof.
  refine (inj_countable' (fun v => (ch_support v, ch_challenge v, ch_uncertain v, ch_question v))
    (fun '(a, b, c, d) => MkChannels a b c d) _). by intros [].
Defined.
#[global] Instance EdgeEvidence_eq_dec : EqDecision EdgeEvidence.
Proof. solve_decision. Defined.
#[global] Instance EdgeEvidence_countable : Countable EdgeEvidence.
Proof.
  refine (inj_countable' (fun v => (ee_channels v, ee_activityScore v, ee_evidenceRefs v))
    (fun '(a, b, c) => MkEdgeEvidence a b c) _). by intros [].
Defined.
#[global] Instance ConceptEdge_eq_dec : EqDecision ConceptEdge.
Proof. solve_decision. Defined.
#[global] Instance ConceptEdge_countable : Countable ConceptEdge.
Proof.
  refine (inj_countable' (fun v => ((eg_edgeId v, eg_head v, eg_predicate v, eg_tail v), (eg_relationFamily v, eg_evidenceStatus v, eg_reviewStatus v, eg_displayStatus v), eg_evidence v))
    (fun '((a, b, c, d), (e, f, g, h), i) => MkEdge a b c d e f g h i) _). by intros [].
Defined.
#[global] Instance ConceptMapSnapshot_eq_dec : EqDecision ConceptMapSnapshot.
Proof. solve_decision. Defined.
#[global] Instance ConceptMapSnapshot_countable : Countable ConceptMapSnapshot.
Proof.
  refine (inj_countable' (fun v => ((cs_projectionKey v, cs_roomId v, cs_analysisEpoch v, cs_algorithmVersion v), (cs_parameterHash v, cs_projectionVersion v, cs_baseVersion v, cs_completeThroughRoomSeq v), (cs_watermarkEventTime v, cs_requiresReplay v, cs_evidenceStatus v, cs_reviewStatus v), (cs_displayStatus v, cs_warnings v, cs_nodes v, cs_edges v)))
    (fun '((a, b, c, d), (e, f, g, h), (i, j, k, l), (m, n, o, p)) => MkSnapshot a b c d e f g h i j k l m n o p) _). by intros [].
Defined.
#[global] Instance PositionUpdate_eq_dec : EqDecision PositionUpdate.
Proof. solve_decision. Defined.
#[global] Instance PositionUpdate_countable : Countable PositionUpdate.
Proof.
  refine (inj_countable' (fun v => (pu_nodeId v, pu_x v, pu_y v))
    (fun '(a, b, c) => MkPositionUpdate a b c) _). by intros [].
Defined.
#[global] Instance ConceptMapPatch_eq_dec : EqDecision ConceptMapPatch.
Proof. solve_decision. Defined.
#[global] Instance ConceptMapPatch_countable : Countable ConceptMapPatch.
Proof.
  refine (inj_countable' (fun v => (((pt_analysisEpoch v, pt_algorithmVersion v, pt_parameterHash v, pt_projectionVersion v), (pt_baseVersion v, pt_completeThroughRoomSeq v, pt_requiresReplay v, pt_warnings v), (pt_nodesAdded v, pt_nodesUpdated v, pt_nodesHidden v, pt_edgesAdded v), (pt_edgesUpdated v, pt_edgesHidden v, pt_positionUpdates v, pt_changeScore v)), (pt_reasonCodes v, pt_evidenceRefs v)))
    (fun '(((a, b, c, d), (e, f, g, h), (i, j, k, l), (m, n, o, p)), (q, r)) => MkPatch a b c d e f g h i j k l m n o p q r) _). by intros [].
Defined.
#[global] Instance PatchPage_eq_dec : EqDecision PatchPage.
Proof. solve_decision. Defined.
#[global] Instance PatchPage_countable : Countable PatchPage.
Proof.
  refine (inj_countable' (fun v => (pp_roomId v, pp_projectionKey v, pp_analysisEpoch v, pp_patches v))
    (fun '(a, b, c, d) => MkPatchPage a b c d) _). by intros [].
Defined.
#[global] Instance TimelineResponse_eq_dec : EqDecision TimelineResponse.
Proof. solve_decision. Defined.
#[global] Instance TimelineResponse_countable : Countable TimelineResponse.
Proof.
  refine (inj_countable' (fun v => ((tl_roomId v, tl_projectionKey v, tl_analysisEpoch v, tl_baseSnapshot v), (tl_patches v, tl_truncatedBeforeVersion v, tl_headVersion v)))
    (fun '((a, b, c, d), (e, f, g)) => MkTimeline a b c d e f g) _). by intros [].
Defined.
#[global] Instance ActorMappingEntry_eq_dec : EqDecision ActorMappingEntry.
Proof. solve_decision. Defined.
#[global] Instance ActorMappingEntry_countable : Countable ActorMappingEntry.
Proof.
  refine (inj_countable' (fun v => (am_id v, am_pseudonym v, am_kind v))
    (fun '(a, b, c) => MkMapping a b c) _). by intros [].
Defined.
#[global] Instance TraceRef_eq_dec : EqDecision TraceRef.
Proof. solve_decision. Defined.
#[global] Instance TraceRef_countable : Countable TraceRef.
Proof.
  refine (inj_countable' (fun v => (tr_eventId v, tr_start v, tr_end v, tr_basis v))
    (fun '(a, b, c, d) => MkTraceRef a b c d) _). by intros [].
Defined.
#[global] Instance TraceChannels_eq_dec : EqDecision TraceChannels.
Proof. solve_decision. Defined.
#[global] Instance TraceChannels_countable : Countable TraceChannels.
Proof.
  refine (inj_countable' (fun v => (tc_positive v, tc_challenge v, tc_uncertain v))
    (fun '(a, b, c) => MkTraceChannels a b c) _). by intros [].
Defined.
#[global] Instance Metrics_eq_dec : EqDecision Metrics.
Proof. solve_decision. Defined.
#[global] Instance Metrics_countable : Countable Metrics.
Proof.
  refine (inj_countable' (fun v => (mt_participationBalance v, mt_reciprocity v, mt_agentShare v, mt_semanticCoverage v))
    (fun '(a, b, c, d) => MkMetrics a b c d) _). by intros [].
Defined.
#[global] Instance TraceNode_eq_dec : EqDecision TraceNode.
Proof. solve_decision. Defined.
#[global] Instance TraceNode_countable : Countable TraceNode.
Proof.
  refine (inj_countable' (fun v => (tn_nodeId v, tn_label v, tn_kind v))
    (fun '(a, b, c) => MkTraceNode a b c) _). by intros [].
Defined.
#[global] Instance TraceEvidence_eq_dec : EqDecision TraceEvidence.
Proof. solve_decision. Defined.
#[global] Instance TraceEvidence_countable : Countable TraceEvidence.
Proof.
  refine (inj_countable' (fun v => (tv_edgeId v, tv_channels v, tv_weight v, tv_evidenceRefs v))
    (fun '(a, b, c, d) => MkTraceEvidence a b c d) _). by intros [].
Defined.
#[global] Instance TraceEdge_eq_dec : EqDecision TraceEdge.
Proof. solve_decision. Defined.
#[global] Instance TraceEdge_countable : Countable TraceEdge.
Proof.
  refine (inj_countable' (fun v => (te_source v, te_target v, te_layer v, te_evidence v))
    (fun '(a, b, c, d) => MkTraceEdge a b c d) _). by intros [].
Defined.
#[global] Instance TraceView_eq_dec : EqDecision TraceView.
Proof. solve_decision. Defined.
#[global] Instance TraceView_countable : Countable TraceView.
Proof.
  refine (inj_countable' (fun v => (tw_nodes v, tw_edges v, tw_metrics v, tw_warnings v))
    (fun '(a, b, c, d) => MkTraceView a b c d) _). by intros [].
Defined.
#[global] Instance TraceWindow_eq_dec : EqDecision TraceWindow.
Proof. solve_decision. Defined.
#[global] Instance TraceWindow_countable : Countable TraceWindow.
Proof.
  refine (inj_countable' (fun v => ((wn_start v, wn_end v, wn_observed v, wn_human_only v), wn_lineage_adjusted v))
    (fun '((a, b, c, d), e) => MkTraceWindow a b c d e) _). by intros [].
Defined.
#[global] Instance SnaProjectionBundle_eq_dec : EqDecision SnaProjectionBundle.
Proof. solve_decision. Defined.
#[global] Instance SnaProjectionBundle_countable : Countable SnaProjectionBundle.
Proof.
  refine (inj_countable' (fun v => (((sn_projectionKey v, sn_roomId v, sn_analysisEpoch v, sn_algorithmVersion v), (sn_parameterHash v, sn_projectionVersion v, sn_baseVersion v, sn_completeThroughRoomSeq v), (sn_watermarkEventTime v, sn_requiresReplay v, sn_evidenceStatus v, sn_reviewStatus v), (sn_displayStatus v, sn_warnings v, sn_recent_10m v, sn_session_45m v)), sn_actorMapping v))
    (fun '(((a, b, c, d), (e, f, g, h), (i, j, k, l), (m, n, o, p)), q) => MkBundle a b c d e f g h i j k l m n o p q) _). by intros [].
Defined.

(** ** Exports and answers *)

#[global] Instance export_projection_eq_dec : EqDecision export_projection.
Proof. solve_decision. Defined.
#[global] Instance export_projection_countable : Countable export_projection.
Proof.
  refine (inj_countable' (fun p => match p with XEcho s => inl s | XTrace b => inr b end)
    (fun c => match c with inl s => XEcho s | inr b => XTrace b end) _). by intros [].
Defined.
#[global] Instance TeacherRoomExport_eq_dec : EqDecision TeacherRoomExport.
Proof. solve_decision. Defined.
#[global] Instance TeacherRoomExport_countable : Countable TeacherRoomExport.
Proof.
  refine (inj_countable' (fun v => ((xd_roomId v, xd_throughRoomSeq v, xd_events v, xd_artifacts v),
                                    (xd_projections v, xd_artifactSources v, xd_projectionSources v)))
    (fun '((a, b, c, d), (e, f, g)) => MkExportDocument a b c d e f g) _). by intros [].
Defined.
#[global] Instance wire_eq_dec : EqDecision wire.
Proof. solve_decision. Defined.
#[global] Instance wire_countable : Countable wire.
Proof.
  refine (inj_countable' (fun v => match v with
      | WJson j => inl j | WSnapshot s => inr (inl s) | WBundle b => inr (inr (inl b)) | WPatches p => inr (inr (inr (inl p)))
      | WTimeline t => inr (inr (inr (inr (inl t)))) | WExport x => inr (inr (inr (inr (inr x)))) end)
    (fun c => match c with
      | inl j => WJson j | inr (inl s) => WSnapshot s | inr (inr (inl b)) => WBundle b | inr (inr (inr (inl p))) => WPatches p
      | inr (inr (inr (inr (inl t)))) => WTimeline t | inr (inr (inr (inr (inr x)))) => WExport x end) _). by intros [].
Defined.

(** ** The instance *)

Fixpoint digits (p : BinNums.positive) : string :=
  match p with xH => "." | xO p => String "0" (digits p) | xI p => String "1" (digits p) end.
Fixpoint undigits (s : string) : BinNums.positive :=
  match s with
  | String "0" s => xO (undigits s)
  | String "1" s => xI (undigits s)
  | _ => xH
  end.
Lemma undigits_digits p : undigits (digits p) = p.
Proof. induction p as [p IH|p IH|]; simpl; by rewrite ?IH. Qed.
#[global] Instance coded_json : JsonText := {
  stringify v := digits (encode v);
  parseJson t := decode (undigits t);
}.
Lemma coded_json_laws : JsonTextLaws.
Proof.
  constructor; intros v.
  - intros _. cbn. by rewrite undigits_digits, decode_encode.
  - cbn. by induction (encode v).
  - cbn. by destruct (encode v).
Qed.
