(* ===== verification/Deletion.v ===== *)
(** * Deleting a room and taking it along

    What a teacher's request for deletion does ([deletion_shuts_room]), that a room under
    deletion admits nobody ([deleting_room_admits_nobody]), that the status tells the truth
    ([deletion_status_sound]) and that an export is the whole
    room, field by field ([faithful], [export_is_the_room]). *)
From S2P Require Import Prelude Text JsDate JsValue Contracts Database Concrete Ledger Authorization Frames Echo Trace Sessions Exports Http Routes ExportFile Messages Governed Governance GovernanceLaws Coded.
#[local] Set Warnings "-register-all,-clear-no-such-hyp,-level-tolerance".

Section Exporting.
Context `{Schemas} `{Postgres} `{Environment} `{Locale} `{JsonText}.
Variable auditSalt : string.
Variable latestOf : string -> ProjectionKey -> GV (option export_projection).
Hypothesis latest_reads : forall rid k, leaves_tables (latestOf rid k).

(** An event in the document, and the event of a row as it is read back. *)
Definition eventAs (row : event_row) (j : json) : Prop := j =
  JObj [("schemaVersion", JNum (NInt 1)); ("eventId", JStr (ev_event_id row)); ("roomId", JStr (ev_room_id row));
    ("roomSeq", JNum (NInt (ev_room_seq row))); ("type", JStr (ev_type row)); ("actorId", JStr (ev_actor_id row));
    ("actorKind", JStr (actorKindText (ev_actor_kind row))); ("actorRole", JStr (actorRoleText (ev_actor_role row)));
    ("revision", JNum (NInt (ev_revision row))); ("operation", JStr (operationText (ev_operation row)));
    ("eventTime", JStr (toISOString (ev_event_time row))); ("ingestTime", JStr (toISOString (ev_ingest_time row)));
    ("causationId", JStr (ev_causation_id row)); ("correlationId", JStr (ev_correlation_id row)); ("payload", ev_payload row)]%string.
Definition exportedAs (row : event_row) (e : RoomEventEnvelope) : Prop :=
  eventId e = ev_event_id row /\ roomId e = ev_room_id row /\ roomSeq e = ev_room_seq row /\ type e = ev_type row
  /\ actorId e = ev_actor_id row /\ actorKind e = ev_actor_kind row /\ actorRole e = ev_actor_role row
  /\ revision e = ev_revision row /\ operation e = ev_operation row /\ eventTime e = toISOString (ev_event_time row)
  /\ ingestTime e = toISOString (ev_ingest_time row) /\ causationId e = ev_causation_id row
  /\ correlationId e = ev_correlation_id row /\ JObj (payload e) = ev_payload row.

#[local] Arguments parseActorKind : simpl never.
#[local] Arguments parseActorRole : simpl never.
#[local] Arguments parseOperation : simpl never.
#[local] Arguments asIntegerMin : simpl never.
#[local] Arguments guardO : simpl never.
Lemma positive_ok z g z' g' : exportPositiveInteger z g = (Ok z', g') -> z' = z /\ g' = g.
Proof. unfold exportPositiveInteger. destruct (_ && _); intros; by run_ok. Qed.
Lemma timestamp_ok t g s g' : exportIsoTimestamp t g = (Ok s, g') -> s = toISOString t /\ g' = g.
Proof. unfold exportIsoTimestamp. destruct (_ && _); intros; by run_ok. Qed.
Lemma eventRow_ok row g j g' : eventRow row g = (Ok j, g') ->
  g' = g /\ eventAs row j /\ forall e, parseRoomEventEnvelope j = Some e -> exportedAs row e.
Proof.
  unfold eventRow. intros (seq & g1 & [-> ->]%positive_ok & Hr)%bind_ok.
  apply bind_ok in Hr as (t1 & g2 & [-> ->]%timestamp_ok & Hr). apply bind_ok in Hr as (t2 & g3 & [-> ->]%timestamp_ok & Hr).
  run_ok. split; [done|]. split; [done|]. intros e He. unfold parseRoomEventEnvelope in He.
  repeat (apply bind_Some in He; destruct He as (? & ? & He)).
  unfold uuidField, dateField, readField in *. simpl in *.
  rewrite parseActorKind_text, parseActorRole_text, parseOperation_text in *.
  repeat match goal with
  | Hx : guardO _ ≫= _ = Some _ |- _ => apply bind_Some in Hx; destruct Hx as (? & _ & Hx)
  | Hx : asIntegerMin _ _ = Some _ |- _ => apply asIntegerMin_Some in Hx; destruct Hx as [Hx _]
  | Hx : asObj (ev_payload row) = Some _ |- _ => destruct (ev_payload row) eqn:Hpay; cbn in Hx; try done
  end.
  simplify_eq. unfold exportedAs. cbn. split_and!; done.
Qed.
(** A loop of steps that only read. *)
Lemma mapM_rows {A B} (f : A -> GV B) (R : A -> B -> Prop) g0 l g ys g' :
  (forall x g y g', same_tables g0 g -> f x g = (Ok y, g') -> same_tables g g' /\ R x y) -> same_tables g0 g ->
  mapM f l g = (Ok ys, g') -> same_tables g g' /\ Forall2 R l ys.
Proof.
  intros Hf. revert g ys g'. induction l as [|x l IH]; intros g ys g' Hst0 Hr; [cbn in Hr; run_ok; by split|].
  apply mapM_cons_ok in Hr as (y & g1 & ys' & Hx & Hr & ->). destruct (Hf _ _ _ _ Hst0 Hx) as [Hst1 Hy].
  destruct (IH g1 ys' g') as [Hst2 Hl]; [by etrans|done|]. split; [by etrans|by constructor].
Qed.

(** An artifact in the document, and where it comes from. *)
Definition artifactAs (row : artifact_row) (j : json) : Prop := j =
  JObj [("artifactId", JStr (ar_artifact_id row)); ("lineageId", JStr (ar_lineage_id row)); ("roomId", JStr (ar_room_id row));
    ("eventId", JStr (ar_event_id row)); ("roomSeq", JNum (NInt (ar_room_seq row))); ("sourceModality", JStr (ar_source_modality row));
    ("derivation", JStr (ar_derivation row)); ("text", JStr (ar_text row));
    ("languageTag", match ar_language_tag row with Some t => JStr t | None => JNull end);
    ("reviewStatus", JStr (ar_review_status row)); ("createdAt", JStr (toISOString (ar_created_at row)))]%string.
Definition artifactSourceAs (row : artifact_row) (j : json) : Prop := j =
  JObj [("artifactId", JStr (ar_artifact_id row)); ("lineageId", JStr (ar_lineage_id row)); ("roomId", JStr (ar_room_id row));
    ("eventId", JStr (ar_event_id row)); ("roomSeq", JNum (NInt (ar_room_seq row)));
    ("sourceMediaId", match ar_source_media_id row with Some m => JStr m | None => JNull end);
    ("sourceModality", JStr (ar_source_modality row)); ("derivation", JStr (ar_derivation row));
    ("supersedesArtifactId", match ar_supersedes row with Some a => JStr a | None => JNull end)]%string.
(** The order of artifacts: their event's place in the room, then their identifier. *)
Definition artifactBefore (a b : artifact_row) : Prop :=
  ar_room_seq a < ar_room_seq b \/ (ar_room_seq a = ar_room_seq b /\ String.leb (ar_artifact_id a) (ar_artifact_id b) = true).
(** Where a projection comes from. *)
Definition projectionSourceAs (p : export_projection) (j : json) : Prop :=
  let source k r e a v c w := JObj [("projectionKey", JStr (projectionKeyText k)); ("roomId", JStr r); ("analysisEpoch", JStr e);
    ("algorithmVersion", JStr a); ("projectionVersion", JNum (NInt v)); ("completeThroughRoomSeq", JNum (NInt c));
    ("watermarkEventTime", JStr w)]%string in
  j = match p with
      | XEcho s => source (cs_projectionKey s) (cs_roomId s) (cs_analysisEpoch s) (cs_algorithmVersion s) (cs_projectionVersion s)
                     (cs_completeThroughRoomSeq s) (cs_watermarkEventTime s)
      | XTrace b => source (sn_projectionKey b) (sn_roomId b) (sn_analysisEpoch b) (sn_algorithmVersion b) (sn_projectionVersion b)
                      (sn_completeThroughRoomSeq b) (sn_watermarkEventTime b)
      end.
(** What the document of an export is: accepted by its contract, and made of every event of
    the room numbered from 1, of every approved or corrected artifact of the room with where
    it comes from, and of the latest teacher's projections that the repository has, field
    by field. *)
Record faithful (rid : string) (g : governed) (x : TeacherRoomExport) : Prop := {
  fa_parsed : parseExport x = true;
  fa_room : xd_roomId x = rid;
  fa_through : xd_throughRoomSeq x = Z.of_nat (length (xd_events x));
  fa_events : exists rows, rows ≡ₚ List.filter (fun e => bool_decide (ev_room_id e = rid)) (events (gv_db g))
    /\ map ev_room_seq rows = seqFrom 1 (length rows) /\ Forall2 eventAs rows (xd_events x);
  fa_artifacts : exists rows, rows ≡ₚ List.filter (fun a => bool_decide (ar_room_id a = rid)
        && bool_decide (ar_review_status a = "approved"%string \/ ar_review_status a = "corrected"%string)) (gv_artifacts g)
    /\ ordered artifactBefore rows
    /\ Forall2 artifactAs rows (xd_artifacts x) /\ Forall2 artifactSourceAs rows (xd_artifactSources x);
  fa_projections : exists found, xd_projections x = omap id found
    /\ Forall2 (fun k o => exists h h', same_tables g h /\ latestOf rid k h = (Ok o, h')) [echo_teacher_shadow; trace_teacher_bundle] found
    /\ Forall2 projectionSourceAs (xd_projections x) (xd_projectionSources x);
}.
Lemma string_leb_trans a : forall b c, String.leb a b = true -> String.leb b c = true -> String.leb a c = true.
Proof.
  unfold String.leb. induction a as [|x a IH]; intros [|y b] [|z c]; try done. cbn. unfold Ascii.compare.
  destruct (N.compare_spec (N_of_ascii x) (N_of_ascii y)) as [Hxy|Hxy|Hxy]; try done; destruct (N.compare_spec (N_of_ascii y) (N_of_ascii z)) as [Hyz|Hyz|Hyz]; try done; intros Hl1 Hl2.
  - rewrite (proj2 (N.compare_eq_iff _ _)) by congruence. by apply (IH b).
  - by rewrite (proj2 (N.compare_lt_iff _ _)) by lia.
  - by rewrite (proj2 (N.compare_lt_iff _ _)) by lia.
  - by rewrite (proj2 (N.compare_lt_iff _ _)) by lia.
Qed.
Lemma artifacts_ordered l : ordered artifactBefore (sort_by artifactOrder l).
Proof.
  apply sort_by_ordered; unfold artifactOrder, artifactBefore.
  - intros a b. rewrite orb_true_iff, andb_true_iff, Z.ltb_lt, Z.eqb_eq. done.
  - intros a b. rewrite !orb_true_iff, !andb_true_iff, !Z.ltb_lt, !Z.eqb_eq. pose proof (String.leb_total (ar_artifact_id a) (ar_artifact_id b)).
    destruct (Ztrichotomy (ar_room_seq a) (ar_room_seq b)) as [|[|]]; [tauto| |right; left; lia]. naive_solver lia.
  - intros a b c. pose proof (string_leb_trans (ar_artifact_id a) (ar_artifact_id b) (ar_artifact_id c)). intros [?|[? ?]] [?|[? ?]]; [left; lia..|right; split; [lia|auto]].
Qed.
Lemma take_few {A} (l : list A) : rowCount (take EXPORT_ROWS l) <= 10000 -> take EXPORT_ROWS l = l.
Proof.
  unfold rowCount. intros Hl. apply take_ge. destruct (le_lt_dec (length l) EXPORT_ROWS) as [|Hlong]; [done|].
  rewrite length_take_le in Hl by lia. unfold EXPORT_ROWS in Hl. lia.
Qed.
Lemma artifactRow_ok row g j g' : artifactRow row g = (Ok j, g') -> g' = g /\ artifactAs row j.
Proof. intros (n & ? & [-> ->]%positive_ok & Hx)%bind_ok. apply bind_ok in Hx as (t & ? & [-> ->]%timestamp_ok & Hx). by run_ok. Qed.
Lemma artifactSource_ok row g j g' : artifactSource row g = (Ok j, g') -> g' = g /\ artifactSourceAs row j.
Proof. intros (n & ? & [-> ->]%positive_ok & Hx)%bind_ok. by run_ok. Qed.
Lemma projections_ok rid g0 g ps g' : same_tables g0 g ->
  try_catch (mapM (latestOf rid) EXPORT_KEYS) (fun _ => throw UNAVAILABLE) g = (Ok ps, g') -> same_tables g g'
  /\ Forall2 (fun k o => exists h h', same_tables g0 h /\ latestOf rid k h = (Ok o, h')) EXPORT_KEYS ps.
Proof.
  intros Hst0 Hp. unfold try_catch in Hp. destruct (mapM (latestOf rid) EXPORT_KEYS g) as [[a|e] g7] eqn:Hl; [|by run_ok].
  injection Hp as <- <-. eapply mapM_rows; [|exact Hst0|exact Hl]. intros k h o h' Hh Hk. split; [|by exists h, h'].
  pose proof (latest_reads rid k h) as Hlr. by rewrite Hk in Hlr.
Qed.
(** The rows of a document that its contract accepts are numbered from 1. *)
Lemma events_numbered x rows : parseExport x = true ->
  Forall2 (fun row j => eventAs row j /\ forall e, parseRoomEventEnvelope j = Some e -> exportedAs row e) rows (xd_events x) ->
  map ev_room_seq rows = seqFrom 1 (length rows).
Proof.
  unfold parseExport. intros [_ Hsem]%andb_true_iff Hev. unfold assertSemantics in Hsem.
  apply andb_true_iff in Hsem as [_ Hsem]. destruct (assertEvents _ 1 [] (xd_events x)) as [es|] eqn:He; [|done].
  apply assertEvents_numbered in He as (es' & -> & Hseq & _ & Hparse & _). rewrite (Forall2_length _ _ _ Hev), <- Hseq. clear Hseq Hsem.
  revert es' Hparse. induction Hev as [|row j rows js [_ Hj] _ IH]; intros es Hparse; inversion Hparse as [|? e ? es1 Hje Hrest]; subst; [done|].
  cbn. rewrite (IH es1) by done. f_equal. symmetry. by apply Hj.
Qed.
Lemma exportDocument_ok rid g x g' : exportDocument latestOf rid g = (Ok x, g') ->
  same_tables g g' /\ faithful rid g x.
Proof.
  unfold exportDocument. intros (rows & g1 & [-> ->]%txQuery_ok & Hr)%bind_ok.
  apply bind_ok in Hr as (? & ? & [Hn%Z.ltb_ge ->]%throw_if_ok & Hr).
  apply bind_ok in Hr as (evs & g2 & Hev & Hr).
  apply (mapM_rows eventRow (fun row j => eventAs row j /\ forall e, parseRoomEventEnvelope j = Some e -> exportedAs row e) g) in Hev as [Hg2 Hev]; [|clear; intros row ? j ? _ [-> He]%eventRow_ok; done|done].
  apply bind_ok in Hr as (arts & g3 & [-> ->]%txQuery_ok & Hr).
  apply bind_ok in Hr as (? & ? & [Hm%Z.ltb_ge ->]%throw_if_ok & Hr).
  apply bind_ok in Hr as (artifacts & g4 & Ha & Hr).
  apply (mapM_rows artifactRow artifactAs g) in Ha as [Hg4 Ha]; [|clear; intros row ? j ? _ Hx; by apply artifactRow_ok in Hx as [-> Hx]|done].
  apply bind_ok in Hr as (sources & g5 & Hs & Hr).
  apply (mapM_rows artifactSource artifactSourceAs g) in Hs as [Hg5 Hs]; [|clear; intros row ? j ? _ Hx; by apply artifactSource_ok in Hx as [-> Hx]|by etrans].
  apply bind_ok in Hr as (ps & g6 & Hp & Hr). assert (same_tables g g5) as Hg by (by do 2 (etrans; [eassumption|])).
  apply (projections_ok rid g g5 ps g6 Hg) in Hp as [Hg6 Hp].
  apply bind_ok in Hr as (? & ? & [Hx%negb_false_iff ->]%throw_if_ok & Hr). run_ok. split; [by etrans|].
  unfold exportEvents in Hev, Hn. rewrite take_few in Hev by done. pose proof Hg2 as (_ & _ & _ & _ & _ & _ & _ & Har & _).
  unfold exportArtifacts in Ha, Hs, Hm. rewrite take_few, Har in Ha, Hs by done. constructor; cbn; try done.
  - eexists. split; [apply sort_by_perm|]. split; [by eapply events_numbered|]. eapply Forall2_impl; [exact Hev|]. by intros ? ? [].
  - eexists. split; [etrans; [apply sort_by_perm|]|]. 2: { split; [apply artifacts_ordered|]. done. }
    unfold select_where. erewrite List.filter_ext; [done|]. intros a. cbv beta. f_equal. apply bool_decide_ext. rewrite !elem_of_cons, elem_of_nil. tauto.
  - exists ps. split_and!; [done|done|]. generalize (omap id ps). intros l. induction l as [|p l IH]; constructor; [by destruct p|done].
Qed.
Lemma faithful_tables rid g g' x : same_tables g g' -> faithful rid g' x -> faithful rid g x.
Proof.
  intros Hg [Hp Hr Ht He Ha (found & Hf & Hl & Hs)]. pose proof Hg as (Hd & _ & _ & _ & _ & _ & _ & Har & _).
  rewrite Hd in He. rewrite Har in Ha. constructor; [done..|]. exists found. split_and!; [done| |done].
  eapply Forall2_impl; [exact Hl|]. intros k o (h & h' & Hh & Hk). exists h, h'. split; [by etrans|done].
Qed.
(** One entry more in the trail. *)
Definition audited (rid action reason : string) (g g' : governed) : Prop :=
  exists g0 corr, same_tables g g0 /\ same_tables g'
    (set_audit (gv_audit g0 ++ [AuditRow corr "teacher" action "allowed" reason (Some (refHash auditSalt rid))]) g0).
Record export_granted (t rid : string) (rawQuery : json) (now : Z) (g : governed) : Prop := {
  eg_owner : exists r tid, uuid_in t = Some tid /\ r ∈ rooms (gv_db g) /\ rm_id r = rid /\ rm_teacher_id r = tid;
  eg_alive : deletionActiveIn rid (gv_db g) = false;
  eg_policy : policyCurrent rid now g = true;
}.
Lemma exportWork_ok t rid q g f text g' : uuid_in rid = Some rid -> exportWork auditSalt latestOf t rid q g = (Ok (f, text), g') ->
  formatOf q = Some f /\ export_granted t rid q (tx_now (tx (gv_world g))) g
  /\ exists x, faithful rid g x /\ text = exportBody f x /\ bodyBytes text <= EXPORT_MAX_BYTES
     /\ audited rid "export.request" "EXPORT_COMPLETED" g g'.
Proof.
  intros Hrid Hr. unfold exportWork in Hr. apply bind_ok in Hr as (rid' & g1 & [Hu ->]%uuidG_ok & Hr).
  rewrite Hrid in Hu. injection Hu as <-. apply bind_ok in Hr as (tid & g1 & [Ht ->]%uuidG_ok & Hr).
  apply bind_ok in Hr as (room & g1 & [-> ->]%txQuery_ok & Hr).
  destruct (find (ownsRoom rid tid) (rooms (gv_db g))) as [r|] eqn:Hf; cbn in Hr; [|by run_ok].
  apply bind_ok in Hr as (? & ? & [Hdel ->]%throw_if_ok & Hr). apply bind_ok in Hr as (? & ? & [Hpol%negb_false_iff ->]%throw_if_ok & Hr).
  destruct (formatOf q) as [f'|]; [|by run_ok]. apply bind_ok in Hr as (doc & g2 & [Hg2 Hx]%exportDocument_ok & Hr).
  apply bind_ok in Hr as (? & ? & [Hb%Z.ltb_ge ->]%throw_if_ok & Hr). apply bind_ok in Hr as (corr & g3 & Hu & Hr).
  apply uuidNew_ok in Hu as (Hg3 & _). apply bind_ok in Hr as (? & g4 & Ha & Hr). apply audit_ok in Ha as (w & Hw & ->). run_ok.
  apply find_some in Hf as [Hin Hown]. unfold ownsRoom in Hown. split_bools. split; [done|]. split.
  { constructor; [|done|done]. exists r, tid. split_and!; try done. by apply list_elem_of_In. }
  exists doc. split_and!; [done|done|done|]. exists g3, corr. split; [by etrans|]. unfold same_tables, gv_db in *. cbn. by rewrite Hw.
Qed.
End Exporting.

Section Claims.
Context `{Schemas} `{Postgres} `{Environment} `{Locale} `{JsonText} `{Sha1} (HP : PostgresLaws).
Variable auditSalt : string.
Variable evictRoom : string -> Z -> GV unit.
Variable latestOf : string -> ProjectionKey -> GV (option export_projection).
Hypothesis evict_leaves : forall rid c, leaves_tables (evictRoom rid c).
Hypothesis latest_reads : forall rid k, leaves_tables (latestOf rid k).

Lemma lowerUuid_in rid : isLowerUuid rid = true -> uuid_in rid = Some rid.
Proof. unfold isLowerUuid. intros [Hu Hl]%andb_true_iff. apply bool_decide_eq_true in Hl. by rewrite (uuid_in_isUuid HP rid Hu), Hl. Qed.
Lemma requestDeletion_ok p rid raw g answer g' : requestDeletion auditSalt evictRoom p rid raw g = (Ok answer, g') ->
  exists t a g1, p = Some (TeacherSession t a) /\ isLowerUuid rid = true
    /\ inTransactionG (deletionBody auditSalt t rid raw) g = (Ok answer, g1) /\ same_tables g1 g'.
Proof.
  unfold requestDeletion. intros (t & g0 & Ht & Hr)%bind_ok. destruct p as [[t' a|]|]; cbn in Ht; unfold lift_result in Ht; simplify_eq.
  apply bind_ok in Hr as (? & ? & [Hu%negb_false_iff ->]%throw_if_ok & Hr). apply bind_ok in Hr as (ans & g1 & Hb & Hr).
  apply bind_ok in Hr as (? & g2 & He & Hr). run_ok. exists t, a, g1. split_and!; try done.
  unfold try_catch in He. pose proof (evict_leaves rid 4410 g1) as Hl. destruct (evictRoom rid 4410 g1) as [[v|e] g3]; cbn in Hl; run_ok; by simplify_eq.
Qed.
Lemma lift_refused {A B E} (x : result E A) (f : A -> M governed E B) g e g' :
  (forall a, x = Ok a -> f a g = (Err e, g') -> same_tables g g') -> (lift_result x ≫= f) g = (Err e, g') -> same_tables g g'.
Proof. intros Hf. unfold mbind, M_bind, lift_result. destruct x as [a|e']; [by apply Hf|by intros [= _ <-]]. Qed.
Lemma throw_if_refused {B E} (b : bool) (e0 : E) (f : unit -> M governed E B) g e g' :
  (b = false -> f tt g = (Err e, g') -> same_tables g g') -> (throw_if b e0 ≫= f) g = (Err e, g') -> same_tables g g'.
Proof. intros Hf. destruct b; [by intros [= _ <-]|]. by apply Hf. Qed.
Lemma requestDeletion_err p rid raw g e g' : requestDeletion auditSalt evictRoom p rid raw g = (Err e, g') -> same_tables g g'.
Proof.
  unfold requestDeletion. apply lift_refused. intros t _. apply throw_if_refused. intros _ Hr. unfold mbind, M_bind in Hr.
  destruct (inTransactionG _ g) as [[ans|e'] g1] eqn:Hb; [|injection Hr as <- <-; by eapply inTransactionG_err].
  unfold try_catch in Hr. destruct (evictRoom rid 4410 g1) as [[v|e'] g2]; done.
Qed.
Lemma shut_tables t rid jobId g0 g g1 g' : same_tables g0 g -> same_tables g1 g' -> shut auditSalt t rid jobId g g1 -> shut auditSalt t rid jobId g0 g'.
Proof.
  intros (Hd & Hdt & Hm & Hrc & Hau & Hrp & Hpm & Har & Hct & ? & ? & Hag) (Hd' & Hdt' & Hm' & Hrc' & Hau' & Hrp' & Hpm' & Har' & Hct' & ? & ? & ?).
  intros [? ? ? ? ? ? ? (now & Hmf) ? ? ? ? ? []]. assert (forall s, surfaceCount rid g s = surfaceCount rid g0 s) as Hc.
  { intros s. unfold surfaceCount. by rewrite Hd, Hct, Har, Hpm, Hag. }
  constructor; rewrite ?Hd', <- ?Hd; try done.
  - exists now. rewrite Hm', Hmf, Hm. f_equal. apply map_ext. intros s. by rewrite Hc.
  - by rewrite Hau', <- Hau.
  - constructor; congruence.
Qed.

Lemma requestDeletion_shuts p roomId raw g answer g' : requestDeletion auditSalt evictRoom p roomId raw g = (Ok answer, g') ->
  exists t a jobId, p = Some (TeacherSession t a) /\ answer = acceptedJson jobId /\ parseRequest raw = Some (confirmationOf roomId)
    /\ shut auditSalt t roomId jobId g g' /\ uuid_in roomId = Some roomId /\ format_uuid jobId = true.
Proof.
  intros (t & a & g1 & -> & Hu%lowerUuid_in & (g0 & Hg0 & _ & Hb)%inTransactionG_ok & Hg1)%requestDeletion_ok.
  apply deletionBody_ok in Hb as (jobId & -> & Hacc & Hraw & _ & Hs); [|done]. apply (shut_tables _ _ _ g _ _ g') in Hs; [|done..].
  exists t, a, jobId. split_and!; done.
Qed.

(** C8. What a teacher's request for deletion does. If it is accepted, the request was the
    owner's and said [DELETE] and the room; there was no unfinished deletion of the room
    and now there is one, with one job per surface; the room is closed, every session of
    its seats is revoked, no job of the room is waiting or running; other rooms, their
    sessions and jobs, and all events are as they were. If it is refused, every table is
    as it was. *)
Theorem deletion_shuts_room p roomId raw g r g' :
  requestDeletion auditSalt evictRoom p roomId raw g = (r, g') ->
  match r with
  | Err _ => same_tables g g'
  | Ok answer => exists t a jobId, p = Some (TeacherSession t a) /\ answer = acceptedJson jobId
      /\ parseRequest raw = Some (confirmationOf roomId) /\ shut auditSalt t roomId jobId g g'
      /\ deletionActiveIn roomId (gv_db g') = true
      /\ (forall x, x ∈ rooms (gv_db g') -> rm_id x = roomId -> rm_status x = closed)
      /\ (forall s, s ∈ sessions (gv_db g') -> ofRoom roomId (gv_db g') s = true -> ss_revoked_at s <> None)
      /\ (forall j, j ∈ jobs (gv_db g') -> jb_room_id j = Some roomId -> isWaiting j = false)
      /\ untouched roomId g g'
  end.
Proof.
  intros Hr. destruct r as [answer|e]; [|by eapply requestDeletion_err].
  apply requestDeletion_shuts in Hr as (t & a & jobId & -> & -> & Hraw & Hs & Hu & _).
  exists t, a, jobId. split_and!; try done; [by eapply shut_deleting|by eapply shut_closed|by eapply shut_revoked|by eapply shut_idle|by eapply shut_untouched].
Qed.

(** C9. While a deletion of a room is unfinished, the room admits nobody: no token and no
    session is authorized for it, no action on it is granted, no transaction on its ledger
    commits, it is not exported, and no second deletion of it is accepted; the last two
    leave every table as it was. *)
Theorem deleting_room_admits_nobody roomId g :
  isLowerUuid roomId = true -> deletionActiveIn roomId (gv_db g) = true ->
  (forall token reject, not_admitted (authenticateWith token roomId reject) (gv_world g))
  /\ (forall sid, not_admitted (reauthorize sid roomId) (gv_world g))
  /\ (forall c p sid action grant w, authorizeRoomAction c p sid roomId action (gv_world g) <> (Ok grant, w))
  /\ (forall T payloads (work : RoomEventTransactionContext -> IO T) a w, transact payloads roomId work (gv_world g) <> (Ok a, w))
  /\ (forall p q, exists e, fst (exportRoom auditSalt latestOf p roomId q g) = Err e)
  /\ (forall p raw, exists e, fst (requestDeletion auditSalt evictRoom p roomId raw g) = Err e)
  /\ (forall p q, same_tables g (snd (exportRoom auditSalt latestOf p roomId q g)))
  /\ (forall p raw, same_tables g (snd (requestDeletion auditSalt evictRoom p roomId raw g))).
Proof.
  intros Hu%lowerUuid_in Hd. assert (forall p q, exists e g', exportRoom auditSalt latestOf p roomId q g = (Err e, g') /\ same_tables g g') as Hx.
  { intros p q. unfold exportRoom. destruct (exportRoom auditSalt latestOf p roomId q g) as [[e|e] g'] eqn:Hr; unfold exportRoom in Hr.
    - exfalso. apply bind_ok in Hr as (t & ? & Ht & Hr). injection Ht as Ht <-. apply bind_ok in Hr as (? & ? & [_ ->]%throw_if_ok & Hr).
      apply bind_ok in Hr as ([f text] & g1 & (g0 & Hg0 & _ & Hw)%inTransactionG_ok & _).
      apply exportWork_ok in Hw as (_ & [_ Ha _] & _); [|done|done]. destruct Hg0 as [Hg0 _]. rewrite Hg0 in Ha. congruence.
    - exists e, g'. split; [done|]. revert Hr. apply lift_refused. intros t _. apply throw_if_refused. intros _ Hr.
      unfold mbind, M_bind in Hr. destruct (inTransactionG _ g) as [[[f text]|e'] g1] eqn:Hb; [done|]. injection Hr as <- <-. by eapply inTransactionG_err. }
  assert (forall p raw, exists e g', requestDeletion auditSalt evictRoom p roomId raw g = (Err e, g') /\ same_tables g g') as Hy.
  { intros p raw. destruct (requestDeletion auditSalt evictRoom p roomId raw g) as [[e|e] g'] eqn:Hr; [|eauto using requestDeletion_err].
    exfalso. apply requestDeletion_ok in Hr as (t & a & g1 & -> & _ & (g0 & [Hg0 _] & _ & Hb)%inTransactionG_ok & _).
    apply deletionBody_ok in Hb as (jobId & _ & _ & _ & _ & [_ Hf _ _ _ _ _ _ _ _ _ _ _ _]); [|done]. rewrite Hg0 in Hf.
    unfold deletionActiveIn in Hd. unfold isUnfinished in Hf. congruence. }
  split_and!.
  - intros token reject. by eapply authenticate_deleting.
  - intros sid. by eapply reauthorize_deleting.
  - intros c p sid action grant w. by eapply action_deleting.
  - intros T payloads work a w. by eapply transact_deleting.
  - intros p q. destruct (Hx p q) as (e & g' & -> & _). eauto.
  - intros p raw. destruct (Hy p raw) as (e & g' & -> & _). eauto.
  - intros p q. by destruct (Hx p q) as (e & g' & -> & Hs).
  - intros p raw. by destruct (Hy p raw) as (e & g' & -> & Hs).
Qed.

Lemma exportRoom_sound p roomId q g r g' :
  exportRoom auditSalt latestOf p roomId q g = (r, g') ->
  match r with
  | Err _ => same_tables g g'
  | Ok e => exists t a f x, p = Some (TeacherSession t a) /\ formatOf q = Some f
      /\ export_granted t roomId q (db_now (txs (gv_world g))) g /\ faithful latestOf roomId g x
      /\ e = MkExport (exportFilename f) (exportContentType f) (exportBody f x)
      /\ bodyBytes (ex_body e) <= EXPORT_MAX_BYTES /\ audited auditSalt roomId "export.request" "EXPORT_COMPLETED" g g'
  end.
Proof.
  intros Hr. destruct r as [e|e].
  - unfold exportRoom in Hr. apply bind_ok in Hr as (t & g0 & Ht & Hr). injection Ht as Ht <-.
    destruct p as [[t' a|]|]; cbn in Ht; [injection Ht as <-|done..].
    apply bind_ok in Hr as (? & ? & [Hu%negb_false_iff%lowerUuid_in ->]%throw_if_ok & Hr).
    apply bind_ok in Hr as ([f text] & g1 & (g0 & Hg0 & Hnow & Hw)%inTransactionG_ok & Hr). run_ok.
    apply exportWork_ok in Hw as (Hf & [He1 He2 He3] & doc & Hx & -> & Hb & (g2 & corr & Hg2 & Ha)); [|done|done].
    pose proof Hg0 as (Hdb & _ & _ & _ & _ & Hpol & _). rewrite Hdb in He1, He2.
    exists t', a, f, doc. split_and!; try done.
    + constructor; [done|done|]. rewrite <- Hnow. unfold policyCurrent, policyOf in *. by rewrite Hdb, Hpol in He3.
    + by eapply faithful_tables.
    + exists g2, corr. split; [by etrans|done].
  - revert Hr. unfold exportRoom. apply lift_refused. intros t _. apply throw_if_refused. intros _ Hr. unfold mbind, M_bind in Hr.
    destruct (inTransactionG _ g) as [[[f text]|e'] g1] eqn:Hb; [done|]. injection Hr as <- <-. by eapply inTransactionG_err.
Qed.

(** C10. An export is the whole room, for its owner alone. What is answered is written from
    a document of the room that its contract accepts, with every event of the room, numbered
    from 1, every approved or corrected artifact of it with where it comes from, and the
    latest projections for its teacher, each field as the tables have it; it is at most 32 MiB, and the
    only trace of it is one entry in the trail. It is given only while the room's retention
    policy is current and no deletion of it is unfinished. A refusal changes nothing. *)
Theorem export_is_the_room p roomId q g r g' :
  exportRoom auditSalt latestOf p roomId q g = (r, g') ->
  match r with
  | Err _ => same_tables g g'
  | Ok e => exists t a f x, p = Some (TeacherSession t a) /\ formatOf q = Some f
      /\ export_granted t roomId q (db_now (txs (gv_world g))) g /\ faithful latestOf roomId g x
      /\ e = MkExport (exportFilename f) (exportContentType f) (exportBody f x)
      /\ bodyBytes (ex_body e) <= EXPORT_MAX_BYTES /\ audited auditSalt roomId "export.request" "EXPORT_COMPLETED" g g'
  end.
Proof. apply exportRoom_sound. Qed.

Lemma parseStatus_same v s : parseStatus v = Ok s -> s = v.
Proof. unfold parseStatus. repeat case_match; congruence. Qed.
Lemma completedStatus_ok id row s : completedStatus id row = Ok s ->
  exists t r rt, st_job_completed_at row = Some t /\ st_receipt row = Some r /\ t = rc_completed_at r /\ rc_version r = 1
    /\ s = JObj [("deletionJobId", JStr id); ("status", JStr "completed"); ("receipt", rt)]%string /\ receiptComplete rt = true
    /\ field "completedAt" rt = Some (JStr (toISOString t)).
Proof.
  unfold completedStatus. destruct (st_job_completed_at row) as [t|]; [|done]. destruct (st_receipt row) as [r|]; [|done].
  destruct (rc_surfaces r) as [| | | |l|]; try done. destruct (_ && _) eqn:Hb; [|done]. split_bools.
  destruct (mapM asStr l) as [names|]; [|done]. cbn [mbind option_bind]. unfold makeDeletionReceipt. case_bool_decide as Hn; [|done].
  destruct (parseStatus _) as [s'|] eqn:Hp; [|done]. intros [= <-]. apply parseStatus_same in Hp as ->.
  match goal with Hx : (t =? _) = true |- _ => apply Z.eqb_eq in Hx; rename Hx into Ht end.
  match goal with Hx : (rc_version r =? 1) = true |- _ => apply Z.eqb_eq in Hx; rename Hx into Hv end.
  eexists _, _, _. split_and!; [done|done|done|done|done| |by subst]. unfold receiptComplete. rewrite Hn. by vm_compute.
Qed.
(** What the status of a deletion says of it. *)
Record tells (jobId : string) (x : deletion_row) (g : governed) (s : json) : Prop := {
  te_id : textIn "deletionJobId" s = Some jobId;
  te_status : textIn "status" s = Some (deletionText (dl_status x));
  te_rest : match dl_status x with
    | d_completed => exists r rt, r ∈ gv_receipts g /\ rc_job_id r = jobId /\ field "receipt" s = Some rt
        /\ receiptComplete rt = true /\ field "completedAt" rt = Some (JStr (toISOString (rc_completed_at r)))
    | _ => field "failureCode" s = Some JNull \/ exists c, field "failureCode" s = Some (JStr c) /\ isFailureCode c = true
    end;
}.
Lemma completed_tells jobId x g t s : dl_status x = d_completed ->
  completedStatus jobId (StatusRow x t (find (fun y => bool_decide (rc_job_id y = jobId)) (gv_receipts g))) = Ok s -> tells jobId x g s.
Proof.
  intros Hst (t0 & r & rt & Hc & Hr & -> & Hv & -> & Hcomp & Hat)%completedStatus_ok. cbn in *.
  constructor; rewrite ?Hst; [done|done|]. apply find_some in Hr as [Hin Hid%bool_decide_eq_true].
  exists r, rt. split_and!; try done. by apply list_elem_of_In.
Qed.
Lemma open_tells jobId x g fc s : dl_status x <> d_completed -> match fc with Some c => negb (isFailureCode c) | None => false end = false ->
  openStatus jobId (dl_status x) fc = Ok s -> tells jobId x g s.
Proof.
  intros Hst Hc ->%parseStatus_same. constructor; [done|done|].
  assert (forall P Q : Prop, Q -> match dl_status x with d_completed => P | _ => Q end) as Hm by (intros P Q; by destruct (dl_status x)).
  apply Hm. destruct fc as [c|]; [right; exists c|left]; [|done]. split; [done|by apply negb_false_iff].
Qed.
(** The status a teacher reads is that of a deletion the teacher owns, and reading it
    changes nothing. It says completed exactly if the deletion is, and then carries a
    receipt of the moment in the tables that names every surface; a failure it names is a
    code, never a text from the tables. *)
Theorem deletion_status_sound p jobId g s g' :
  deletionStatus p jobId g = (Ok s, g') ->
  same_tables g g' /\ exists t a owner x, p = Some (TeacherSession t a) /\ uuid_in t = Some owner
    /\ x ∈ deletions (gv_db g) /\ dl_id x = jobId /\ dl_owner_teacher_id x = owner /\ tells jobId x g s.
Proof.
  unfold deletionStatus. intros (t & g0 & Ht & Hr)%bind_ok. injection Ht as Ht <-.
  destruct p as [[t' a|]|]; cbn in Ht; [injection Ht as <-|done..]. unfold deletionStatusOf in Hr.
  apply bind_ok in Hr as (? & ? & [Hu%negb_false_iff%lowerUuid_in ->]%throw_if_ok & Hr). apply bind_ok in Hr as (id & ? & [Hi ->]%uuidG_ok & Hr).
  rewrite Hu in Hi. injection Hi as <-.
  apply bind_ok in Hr as (owner & ? & [Ho ->]%uuidG_ok & Hr). apply bind_ok in Hr as (row & g1 & [Hrow Hg1]%poolQuery_ok & Hr).
  destruct row as [row|]; [|by run_ok]. apply bind_ok in Hr as (? & ? & [_ ->]%throw_if_ok & Hr).
  symmetry in Hrow. unfold statusRow in Hrow. apply bind_Some in Hrow as (row' & Hf & [= <-]). cbn [st_job st_job_completed_at st_receipt] in Hr.
  apply find_some in Hf as [Hin Hx]. split_bools.
  assert (same_tables g1 g' /\ tells jobId row' g s) as [Hg' Htells].
  2:{ split; [by etrans|]. exists t', a, owner, row'. split_and!; try done. by apply list_elem_of_In. }
  destruct (bool_decide (dl_status row' = d_completed)) eqn:Hd.
  - apply bool_decide_eq_true in Hd. rewrite Hd in Hr. injection Hr as Hr <-. split; [done|]. by eapply completed_tells.
  - apply bool_decide_eq_false in Hd.
    assert (exists fc g2, same_tables g1 g2 /\ match fc with Some c => negb (isFailureCode c) | None => false end = false
      /\ openStatus jobId (dl_status row') fc = Ok s /\ g' = g2) as (fc & g2 & Hg2 & Hc & Hos & ->); [|split; [done|by eapply open_tells]].
    destruct (dl_status row') eqn:Hst; try done.
    all: apply bind_ok in Hr as (? & ? & [_ ->]%throw_if_ok & Hr); apply bind_ok in Hr as (fc & g2 & Hfc & Hr);
      apply bind_ok in Hr as (? & ? & [Hcode ->]%throw_if_ok & Hr); injection Hr as Hr <-; exists fc, g2; split_and!; try done;
      first [by apply poolQuery_ok in Hfc as [_ ?]|by injection Hfc as _ <-].
Qed.
End Claims.

(** ** A room that is taken along and deleted *)

#[export] Instance tail_sha1 : Sha1 := { sha1 s := take 20 (map code (rev (list_ascii_of_string s))) }.
#[export] Instance bytes_locale : Locale := {
  localeCompare a b := match String.compare a b with Lt => -1 | Eq => 0 | Gt => 1 end;
}.
Definition noEvict (rid : string) (c : Z) : GV unit := mret tt.
Definition noLatest (rid : string) (k : ProjectionKey) : GV (option export_projection) := mret None.
Lemma noEvict_leaves rid c : leaves_tables (noEvict rid c).
Proof. by intros g. Qed.
Lemma noLatest_leaves rid k : leaves_tables (noLatest rid k).
Proof. by intros g. Qed.
(** The room of the lesson, with an approved text and a retention policy. *)
Definition lessonArtifact : artifact_row :=
  ArtifactRow demoMedia demoMedia demoRoom (numberedUuid 6) 2 None "text" "direct" "Chlorophyll" (Some "en"%string) "approved" None 1704067300000.
Definition lessonGoverned : governed :=
  Governed (set_db (set_accounts (Accounts [(demoTeacher, "teacher@example.org")] [] [] [PolicyRow "policy" 0 1893456000000])%string
                     (db lesson4)) lesson4) [] [] [] [] [(demoRoom, "policy"%string)] [] [lessonArtifact] (fun _ _ => 0) [] [] no_agents.
Definition lessonDeletion : json := JObj [("confirmation"%string, JStr (confirmationOf demoRoom))].
Definition lessonDeleted : result failure json * governed :=
  requestDeletion "salt" noEvict (Some demoTeacherPrincipal) demoRoom lessonDeletion lessonGoverned.
Definition lessonExport : result failure Export * governed :=
  exportRoom "salt" noLatest (Some demoTeacherPrincipal) demoRoom (JObj [("format"%string, JStr "csv")]) lessonGoverned.
Lemma lessonDeleted_ok : match fst lessonDeleted with Ok _ => true | Err _ => false end = true.
Proof. vm_compute. reflexivity. Qed.
Lemma lessonExport_ok : match fst lessonExport with Ok _ => true | Err _ => false end = true.
Proof. vm_compute. reflexivity. Qed.

Lemma deletion_shuts_room_witness :
  existsb isWaiting (jobs (gv_db lessonGoverned)) = true
  /\ exists jobId, shut "salt" demoTeacher demoRoom jobId lessonGoverned (snd lessonDeleted)
     /\ deletionActiveIn demoRoom (gv_db (snd lessonDeleted)) = true /\ untouched demoRoom lessonGoverned (snd lessonDeleted).
Proof.
  split; [vm_compute; reflexivity|].
  pose proof lessonDeleted_ok as Hok. destruct lessonDeleted as [[answer|e] g'] eqn:Hr; [|done]. clear Hok. unfold lessonDeleted in Hr.
  destruct (deletion_shuts_room concrete_postgres_laws "salt" noEvict noEvict_leaves (Some demoTeacherPrincipal) demoRoom
    lessonDeletion lessonGoverned (Ok answer) g' Hr) as (t & a & jobId & Ht & _ & _ & Hs & Hd & _ & _ & _ & Hu).
  injection Ht as <- <-. cbn [snd]. exists jobId. exact (conj Hs (conj Hd Hu)).
Defined.
Lemma deleting_room_admits_nobody_witness :
  (exists p, fst (authenticateWith (Some "student-token"%string) demoRoom true (gv_world lessonGoverned)) = Ok p)
  /\ not_admitted (authenticateWith (Some "student-token"%string) demoRoom true) (gv_world (snd lessonDeleted)).
Proof.
  split; [eexists; vm_compute; reflexivity|].
  assert (deletionActiveIn demoRoom (gv_db (snd lessonDeleted)) = true) as Hd by (vm_compute; reflexivity).
  pose proof (deleting_room_admits_nobody concrete_postgres_laws "salt" noEvict noLatest noEvict_leaves noLatest_leaves demoRoom
    (snd lessonDeleted) eq_refl Hd) as (Ha & _). exact (Ha (Some "student-token"%string) true).
Defined.
Definition lessonArtifacts : list artifact_row :=
  List.filter (fun a => bool_decide (ar_room_id a = demoRoom)
    && bool_decide (ar_review_status a = "approved"%string \/ ar_review_status a = "corrected"%string)) (gv_artifacts lessonGoverned).
Lemma lessonArtifacts_one : length lessonArtifacts = 1%nat.
Proof. vm_compute. reflexivity. Qed.
Lemma export_is_the_room_witness :
  exists x a, faithful noLatest demoRoom lessonGoverned x /\ lessonArtifacts = [a]
    /\ exists j, xd_artifacts x = [j] /\ artifactAs a j.
Proof.
  pose proof lessonExport_ok as Hok. destruct lessonExport as [[e|e] g'] eqn:Hr; [|done]. clear Hok. unfold lessonExport in Hr.
  destruct (export_is_the_room concrete_postgres_laws "salt" noLatest noLatest_leaves (Some demoTeacherPrincipal)
    demoRoom _ lessonGoverned (Ok e) g' Hr) as (t & a & f & x & _ & _ & _ & Hx & _). exists x.
  destruct (fa_artifacts _ _ _ _ Hx) as (rows & Hp & _ & Hf & _). change (rows ≡ₚ lessonArtifacts) in Hp.
  pose proof lessonArtifacts_one as Hone. destruct lessonArtifacts as [|r [|]]; try discriminate Hone.
  apply Permutation_singleton_r in Hp as ->. exists r. split; [exact Hx|]. split; [exact eq_refl|].
  inversion Hf as [|? j ? js Hj Hjs Hr1 Hr2]. inversion Hjs. subst. exists j. split; [congruence|exact Hj].
Defined.
Lemma deletion_status_sound_witness :
  exists s x, fst (deletionStatus (Some demoTeacherPrincipal) (numberedUuid 14) (snd lessonDeleted)) = Ok s
    /\ x ∈ deletions (gv_db (snd lessonDeleted)) /\ tells (numberedUuid 14) x (snd lessonDeleted) s.
Proof.
  destruct (deletionStatus (Some demoTeacherPrincipal) (numberedUuid 14) (snd lessonDeleted)) as [[s|e] g'] eqn:Hr.
  - destruct (deletion_status_sound concrete_postgres_laws (Some demoTeacherPrincipal) (numberedUuid 14) (snd lessonDeleted) s g' Hr)
      as (_ & t & a & owner & x & _ & _ & Hin & _ & _ & Ht). cbn [fst]. exists s, x. exact (conj eq_refl (conj Hin Ht)).
  - exfalso. vm_compute in Hr. discriminate.
Defined.
