(* ===== verification/Policy.v ===== *)
(** * Who may see the analytics

    [apps/server/src/modules/analytics/analytics-policy.ts], the gate of every reading of
    analytics; [modules/lifecycle/student-analytics-promotion.ts], which shows projections
    to students and withdraws them; [modules/lifecycle/student-analytics-policy-listener.ts],
    which tells the sockets that are open; and [modules/security/security-audit.ts], where
    each decision is noted. [authorizeProjection] of [apps/server/src/app.ts] asks the gate
    for every pointer to a projection. *)
From S2P Require Import Prelude Text JsDate JsValue Utf Canonical Contracts Database Concrete JsMap Ledger Authorization Frames Connection Hub Echo Trace Exports Http Routes ExportFile Governed Governance.
#[local] Set Warnings "-register-all,-clear-no-such-hyp,-level-tolerance".

(** ** The trail of decisions *)

Definition AUDITED_ACTIONS : list string :=
  ["room.read"; "room.command"; "analytics.read"; "export.request"; "deletion.request"; "deletion.status.read"; "service.callback"]%string.
Record SecurityAuditEntry : Type := Entry {
  en_principalKind : string;
  en_action : string;
  en_outcome : string;
  en_reasonCode : string;
  en_correlationId : string;
  en_roomId : option string;
}.
(** On a text of ASCII characters, as the codes are. *)
Definition normalizeReasonCode (value : string) : string :=
  match take 64 (map (fun c => if isCodeChar c then c else "_"%char) (list_ascii_of_string (upper value))) with
  | [] => "UNSPECIFIED"%string
  | l => string_of_list_ascii l
  end.
(** The constraints of [security_audit_event]. *)
Definition isReasonCode (s : string) : bool :=
  let l := list_ascii_of_string s in (1 <=? length l)%nat && (length l <=? 64)%nat && forallb isCodeChar l.
Definition auditAccepted (r : audit_row) : bool :=
  bool_decide (au_principal_kind r ∈ ["teacher"; "student"; "service"; "anonymous"]%string)
  && bool_decide (au_action r ∈ AUDITED_ACTIONS)
  && bool_decide (au_outcome r ∈ ["allowed"; "rejected"; "failed"]%string)
  && isReasonCode (au_reason_code r).

Section Gate.
Context `{Postgres} `{Environment}.

(** A statement on the pool that changes something. *)
Definition nextTx (g : governed) : governed :=
  let w := gv_world g in set_world (World (db w) (ticks w) (S (txs w)) (uuids w) (tx w)) g.
Definition poolExecute (f : Z -> governed -> option governed) : GV unit := fun g =>
  match f (db_now (txs (gv_world g))) g with
  | Some g' => (Ok tt, nextTx g')
  | None => (Err QUERY_FAILED, nextTx g)
  end.
Definition insertAudit (r : audit_row) (g : governed) : option governed :=
  _ ← guardO (auditAccepted r); Some (set_audit (gv_audit g ++ [r]) g).
Definition auditRow (auditSalt : string) (e : SecurityAuditEntry) : audit_row :=
  AuditRow (en_correlationId e) (en_principalKind e) (en_action e) (en_outcome e) (normalizeReasonCode (en_reasonCode e))
    (match en_roomId e with
     | Some r => if bool_decide (r = ""%string) then None else Some (refHash auditSalt r)
     | None => None
     end).
(** [write] on the pool, and [record]. *)
Definition writeAudit (auditSalt : string) (e : SecurityAuditEntry) : GV unit :=
  throw_if (negb (bool_decide (en_action e ∈ AUDITED_ACTIONS))) (plain "SECURITY_AUDIT_ACTION_INVALID");;
  uuidNew;;
  poolExecute (fun _ => insertAudit (auditRow auditSalt e)).
Definition recordAudit (auditSalt : string) (e : SecurityAuditEntry) : GV unit :=
  try_catch (writeAudit auditSalt e) (fun _ => mret tt).

(** ** The gate *)

(** The log, if there is one, by its salt. *)
Variable log : option string.

Definition TEACHER_PROJECTIONS : list ProjectionKey := [echo_teacher_shadow; trace_teacher_bundle].
Definition POLICY_AUTH_REQUIRED : failure := AnalyticsPolicyError 401 "AUTH_REQUIRED".
Definition POLICY_ROOM_NOT_FOUND : failure := AnalyticsPolicyError 404 "ROOM_NOT_FOUND".
Definition POLICY_DELETING : failure := AnalyticsPolicyError 410 "ROOM_DELETION_IN_PROGRESS".
Definition POLICY_EXPIRED : failure := AnalyticsPolicyError 410 "RETENTION_POLICY_EXPIRED".
Definition NOT_PROMOTED : failure := AnalyticsPolicyError 403 "STUDENT_ANALYTICS_NOT_PROMOTED".

Definition roleText (r : Role) : string := match r with r_teacher => "teacher" | r_student => "student" end.
Definition principalKind (p : option AuthSession) : string :=
  match p with Some s => roleText (sessionRole s) | None => "anonymous" end.
(** [#audit]. *)
Definition auditDecision (p : option AuthSession) (roomId outcome reasonCode : string) : GV unit :=
  match log with
  | None => mret tt
  | Some auditSalt =>
      correlationId ← uuidNew;
      recordAudit auditSalt (Entry (principalKind p) "analytics.read" outcome reasonCode correlationId (Some roomId))
  end.

(** The promotion that is in force. *)
Definition livePromotion (rid : string) (now : Z) (p : promotion_row) : bool :=
  bool_decide (pm_room_id p = rid) && bool_decide (pm_revoked_at p = None) && (pm_starts_at p <=? now) && (now <? pm_expires_at p).
Definition laterRevision (a b : promotion_row) : bool := pm_policy_revision b <=? pm_policy_revision a.
Definition latestPromotion (rid : string) (now : Z) (g : governed) : option promotion_row :=
  head (sort_by laterRevision (select_where (livePromotion rid now) (gv_promotions g))).
Definition isDigest (s : string) : bool := matches (replicate 64 is_lower_hex) (list_ascii_of_string s).
Definition studentKeys : list string := map projectionKeyText STUDENT_PROJECTIONS.
Definition promotionSound (p : promotion_row) : bool :=
  isDigest (pm_record_sha256 p) && (0 <? pm_policy_revision p)
  && forallb (fun k => bool_decide (k ∈ studentKeys)) (pm_allowlist p) && bool_decide (NoDup (pm_allowlist p)).
(** What both queries tell of the room. *)
Definition roomFlags (rid : string) (now : Z) (g : governed) : bool * bool :=
  (policyCurrent rid now g, deletionActiveIn rid (gv_db g)).
Definition checkFlags (row : option (bool * bool)) : GV unit :=
  match row with
  | None => throw POLICY_ROOM_NOT_FOUND
  | Some (current, deleting) =>
      throw_if deleting POLICY_DELETING;;
      throw_if (negb current) POLICY_EXPIRED
  end.
(** [#evaluate]; the capability is not looked at. *)
Definition evaluate (principal : option AuthSession) (roomId : string) (sessionId : option string) : GV AnalyticsGrant :=
  match principal with
  | None => throw POLICY_AUTH_REQUIRED
  | Some p =>
      throw_if (negb (isSessionId sessionId)) POLICY_AUTH_REQUIRED;;
      rid ← uuidG roomId;
      sid ← uuidG (default ""%string sessionId);
      match p with
      | TeacherSession teacherId _ =>
          tid ← uuidG teacherId;
          row ← poolQuery (fun now g =>
            if existsb (ownsRoom rid tid) (rooms (gv_db g)) && teacherSessionLive sid tid now (gv_db g)
            then Some (roomFlags rid now g) else None);
          checkFlags row;;
          mret (MkGrant r_teacher [])
      | StudentSession _ roomMemberId actorId _ _ =>
          mid ← uuidG roomMemberId;
          aid ← uuidG actorId;
          row ← poolQuery (fun now g =>
            if existsb (isMember rid mid aid) (members (gv_db g)) && existsb (fun r => bool_decide (rm_id r = rid)) (rooms (gv_db g))
               && memberSessionLive sid mid now (gv_db g)
            then Some (roomFlags rid now g) else None);
          checkFlags row;;
          promotion ← poolQuery (fun now => latestPromotion rid now);
          match promotion with
          | None => mret (MkGrant r_student [])
          | Some x => throw_if (negb (promotionSound x)) NOT_PROMOTED;; mret (MkGrant r_student (pm_allowlist x))
          end
      end
  end.
Definition rejection (e : failure) : string * string :=
  match e with AnalyticsPolicyError _ code => ("rejected", code) | _ => ("failed", "ANALYTICS_ACCESS_FAILED") end%string.
Definition requireRoomAccess (principal : option AuthSession) (roomId : string) (_ : AnalyticsCapability)
    (sessionId : option string) : GV AnalyticsGrant :=
  try_catch
    (grant ← evaluate principal roomId sessionId;
     auditDecision principal roomId "allowed" (upper (roleText (ag_role grant)));;
     mret grant)
    (fun e => auditDecision principal roomId (fst (rejection e)) (snd (rejection e));; throw e).

Definition assertProjection (grant : AnalyticsGrant) (key : ProjectionKey) : result failure unit :=
  match ag_role grant with
  | r_teacher =>
      if bool_decide (key ∈ TEACHER_PROJECTIONS) then Ok tt else Err (AnalyticsPolicyError 404 "PROJECTION_NOT_FOUND")
  | r_student =>
      if negb (bool_decide (key ∈ TEACHER_PROJECTIONS)) && negb (bool_decide (key ∈ STUDENT_PROJECTIONS))
      then Err (AnalyticsPolicyError 404 "PROJECTION_NOT_FOUND")
      else if negb (bool_decide (key ∈ STUDENT_PROJECTIONS)) then Err (AnalyticsPolicyError 403 "PROJECTION_FORBIDDEN")
      else if negb (bool_decide (projectionKeyText key ∈ ag_allowlist grant)) then Err NOT_PROMOTED
      else Ok tt
  end.

(** [authorizeProjection] of the server, on what the hub hands it. *)
Definition policyFailure (e : failure) : policy_failure :=
  match e with AnalyticsPolicyError s c => PolicyError s c | _ => OtherFailure end.
Definition authorizeProjection (principal : AuthSession) (sessionId : string) (frame : ProjectionFrame) : GV ProjectionDeliveryDecision :=
  try_catch
    (grant ← requireRoomAccess (Some principal) (pj_roomId frame) cap_projection_frame (Some sessionId);
     lift_result (assertProjection grant (pj_projectionKey frame));;
     mret Allow)
    (fun e => mret (projectionDeliveryFailureDecision (policyFailure e))).
End Gate.

(** ** Promotions *)

Definition POLICY_CHANGE_CHANNEL : string := "student_analytics_policy_changed".
Definition MAX_NOTIFY_BYTES : Z := 7500.
(** A [StudentPromotionError], by its code. *)
Definition RECORD_INVALID : failure := plain "STUDENT_PROMOTION_RECORD_INVALID".
Definition PROMOTION_NOT_FOUND : failure := plain "STUDENT_PROMOTION_NOT_FOUND".
Definition NOTICE_INVALID : failure := plain "STUDENT_POLICY_NOTICE_INVALID".

(** Dates are milliseconds; an invalid one is [None]. *)
Record PromotionGrant : Type := Promotion {
  pg_roomId : string;
  pg_sha256 : string;
  pg_allowlist : list string;
  pg_startsAt : option Z;
  pg_expiresAt : option Z;
}.
Record PolicyChangeNotice : Type := Notice {
  no_roomId : string;
  no_changedKeys : list ProjectionKey;
  no_revision : Z;
}.
(** [assertGrant], with the dates it lets pass. *)
Definition assertGrant (p : PromotionGrant) : option (Z * Z) :=
  s ← pg_startsAt p;
  e ← pg_expiresAt p;
  _ ← guardO (isUuid (pg_roomId p) && isDigest (pg_sha256 p)
              && forallb (fun k => bool_decide (k ∈ studentKeys)) (pg_allowlist p) && bool_decide (NoDup (pg_allowlist p))
              && (s <? e));
  Some (s, e).

(** *** Notices *)

Definition noticeTree (n : PolicyChangeNotice) : tree :=
  TObj [(text "roomId", TStr (text (no_roomId n)));
        (text "changedKeys", TArr (map (fun k => TStr (text (projectionKeyText k))) (no_changedKeys n)));
        (text "revision", TNum (NInt (no_revision n)))].
(** [JSON.parse] on code units. *)
Class JsonParse : Type := { json_parse : units -> option tree }.
Definition asciiText (u : units) : option string :=
  if forallb (fun x => (0 <=? x) && (x <? 128)) u then Some (string_of_list_ascii (map chr u)) else None.
Definition unitsField (k : string) (fs : list (units * tree)) : option tree :=
  snd <$> find (fun f => bool_decide (fst f = text k)) fs.
Definition studentKeyOf (t : tree) : option ProjectionKey :=
  match t with
  | TStr u => find (fun k => bool_decide (u = text (projectionKeyText k))) STUDENT_PROJECTIONS
  | _ => None
  end.
Definition parsePolicyChangeNotice `{JsonParse} (payload : units) : option PolicyChangeNotice :=
  _ ← guardO (Z.of_nat (length payload) <=? MAX_NOTIFY_BYTES);
  parsed ← json_parse payload;
  match parsed with
  | TObj fs =>
      _ ← guardO (bool_decide (sort_by unitsLe (map fst fs) = [text "changedKeys"; text "revision"; text "roomId"]));
      roomId ← (t ← unitsField "roomId" fs; match t with TStr u => asciiText u | _ => None end);
      _ ← guardO (isUuid roomId);
      keys ← (t ← unitsField "changedKeys" fs; match t with TArr l => mapM studentKeyOf l | _ => None end);
      _ ← guardO (bool_decide (NoDup keys));
      revision ← (t ← unitsField "revision" fs; match t with TNum n => asSafeInteger n | _ => None end);
      _ ← guardO (1 <=? revision);
      Some (Notice roomId keys revision)
  | _ => None
  end.

(** *** The service *)

Section Promotions.
Context `{Postgres} `{Environment}.

(** [#currentKeys]: a set, in the order of the keys. *)
Definition keysOf (allowlist : list string) : list ProjectionKey :=
  select_where (fun k => bool_decide (projectionKeyText k ∈ allowlist)) STUDENT_PROJECTIONS.
Definition currentKeysIn (rid : string) (now : Z) (g : governed) : list ProjectionKey :=
  keysOf (default [] (pm_allowlist <$> head (select_where (livePromotion rid now) (gv_promotions g)))).
Definition currentKeys (roomId : string) : GV (list ProjectionKey) :=
  rid ← uuidG roomId;
  txQuery (currentKeysIn rid).
Definition currentAllowlist (roomId : string) : GV (list ProjectionKey) :=
  if isUuid roomId then inTransactionG (currentKeys roomId) else mret [].

(** The text of a notice: canonical texts are well-formed, so that decoding gives them back. *)
Definition payloadOf (n : PolicyChangeNotice) : option units :=
  b ← canonicalJson (noticeTree n); textDecode b.
Definition notify (n : PolicyChangeNotice) : GV PolicyChangeNotice :=
  match payloadOf n with
  | None => throw (plain "CANONICAL_JSON_INVALID")
  | Some payload =>
      throw_if (MAX_NOTIFY_BYTES <? byteLength payload) NOTICE_INVALID;;
      modify (fun g => set_notices (gv_notices g ++ [(POLICY_CHANGE_CHANNEL, payload)]) g);;
      mret n
  end.

(** The constraints of [student_analytics_promotion]; a revision is a [bigint]. *)
Definition INT8_MAX : Z := 9223372036854775807.
Definition promotionAccepted (p : promotion_row) : bool :=
  isDigest (pm_record_sha256 p) && (0 <? pm_policy_revision p) && (pm_policy_revision p <=? INT8_MAX)
  && (pm_starts_at p <? pm_expires_at p) && forallb (fun k => bool_decide (k ∈ studentKeys)) (pm_allowlist p).
Definition isPromotionOf (rid : string) (p : promotion_row) : bool := bool_decide (pm_room_id p = rid).
(** [INSERT ... ON CONFLICT (room_id) DO UPDATE], with the row it leaves. *)
Definition upsertPromotion (rid sha256 : string) (allowlist : list string) (s e : Z) (g : governed) : option (promotion_row * governed) :=
  match find (isPromotionOf rid) (gv_promotions g) with
  | Some old =>
      let row := PromotionRow rid sha256 (pm_policy_revision old + 1) allowlist s e None in
      _ ← guardO (promotionAccepted row);
      Some (row, set_promotions (update_where (isPromotionOf rid) (fun _ => row) (gv_promotions g)) g)
  | None =>
      let row := PromotionRow rid sha256 1 allowlist s e None in
      _ ← guardO (promotionAccepted row && existsb (fun r => bool_decide (rm_id r = rid)) (rooms (gv_db g)));
      Some (row, set_promotions (gv_promotions g ++ [row]) g)
  end.
(** The tombstone, with the row it leaves; [None] where a constraint refuses it. *)
Definition revokedRow (now : Z) (p : promotion_row) : promotion_row :=
  PromotionRow (pm_room_id p) (pm_record_sha256 p) (pm_policy_revision p + 1) (pm_allowlist p) (pm_starts_at p) (pm_expires_at p)
    (Some (default now (pm_revoked_at p))).
Definition revokePromotion (rid : string) (now : Z) (g : governed) : option (option promotion_row * governed) :=
  match find (isPromotionOf rid) (gv_promotions g) with
  | None => Some (None, g)
  | Some old =>
      let row := revokedRow now old in
      _ ← guardO (promotionAccepted row);
      Some (Some row, set_promotions (update_where (isPromotionOf rid) (revokedRow now) (gv_promotions g)) g)
  end.
(** A statement of a transaction that returns rows. *)
Definition executeR {A} (f : Z -> governed -> option (A * governed)) : GV A := fun g =>
  match f (tx_now (tx (gv_world g))) g with
  | Some (a, g') => (Ok a, g')
  | None => (Err QUERY_FAILED, g)
  end.

Definition grant (p : PromotionGrant) : GV PolicyChangeNotice :=
  match assertGrant p with
  | None => throw RECORD_INVALID
  | Some (s, e) => inTransactionG (
      before ← currentKeys (pg_roomId p);
      rid ← uuidG (pg_roomId p);
      row ← executeR (fun _ => upsertPromotion rid (pg_sha256 p) (pg_allowlist p) s e);
      let after := keysOf (pg_allowlist p) in
      let changedKeys := select_where (fun k => negb (Bool.eqb (bool_decide (k ∈ before)) (bool_decide (k ∈ after)))) STUDENT_PROJECTIONS in
      notify (Notice (pg_roomId p) changedKeys (pm_policy_revision row)))
  end.
Definition revoke (roomId : string) : GV PolicyChangeNotice :=
  throw_if (negb (isUuid roomId)) RECORD_INVALID;;
  inTransactionG (
    before ← currentKeys roomId;
    rid ← uuidG roomId;
    row ← executeR (revokePromotion rid);
    match row with
    | None => throw PROMOTION_NOT_FOUND
    | Some row => notify (Notice roomId (select_where (fun k => bool_decide (k ∈ before)) STUDENT_PROJECTIONS) (pm_policy_revision row))
    end).
End Promotions.

(** ** The listener *)

Record listener : Type := Listener {
  ln_governed : governed;
  ln_hub : room_hub;
  ln_lastRevision : list (string * Z);
}.
Abbreviation LM := (M listener failure).
Definition onDatabase {A} (m : GV A) : LM A := fun s =>
  let '(r, g) := m (ln_governed s) in (r, Listener g (ln_hub s) (ln_lastRevision s)).
Definition onHub (f : room_hub -> room_hub) : LM unit :=
  modify (fun s => Listener (ln_governed s) (f (ln_hub s)) (ln_lastRevision s)).

Section Listening.
Context `{Postgres} `{Environment} `{JsonParse}.
(** What the authorizer answers for the sockets. *)
Variable auth : nat -> DeliveryAuthorization.

Definition withheldFrame (now : Z) (k : ProjectionKey) : ServerFrame :=
  FDegraded sc_analytics "STUDENT_ANALYTICS_NOT_PROMOTED" (toISOString now) None (Some k).
(** [#announceWithheld]. *)
Definition announceWithheld (roomId : string) (withheld : list ProjectionKey) : LM unit :=
  mapM (fun k =>
    now ← onDatabase nowG;
    onHub (broadcastDegraded auth roomId (withheldFrame now k))) withheld;;
  mret tt.
Definition without (allowed keys : list ProjectionKey) : list ProjectionKey :=
  select_where (fun k => negb (bool_decide (k ∈ allowed))) keys.
(** [#apply]. *)
Definition applyNotice (payload : units) : LM unit :=
  match parsePolicyChangeNotice payload with
  | None => throw NOTICE_INVALID
  | Some notice =>
      seen ← gets (fun s => assoc (no_roomId notice) (ln_lastRevision s));
      if match seen with Some r => no_revision notice <=? r | None => false end then mret tt else
        modify (fun s => Listener (ln_governed s) (ln_hub s) (map_set (no_roomId notice) (no_revision notice) (ln_lastRevision s)));;
        allowed ← onDatabase (currentAllowlist (no_roomId notice));
        announceWithheld (no_roomId notice) (without allowed (no_changedKeys notice))
  end.
(** A notification of the database. *)
Definition onNotification (channel : string) (payload : units) : LM unit :=
  if bool_decide (channel = POLICY_CHANGE_CHANNEL) then try_catch (applyNotice payload) (fun _ => mret tt) else mret tt.
Definition reconcileConnectedRooms : LM unit :=
  roomIds ← gets (fun s => connectedRoomIds (ln_hub s));
  mapM (fun roomId =>
    allowed ← onDatabase (currentAllowlist roomId);
    announceWithheld roomId (without allowed STUDENT_PROJECTIONS)) roomIds;;
  mret tt.
End Listening.
