(* ===== verification/PolicyLaws.v ===== *)
(** * The gate of the analytics holds

    Every reading of analytics is decided on the tables as they are and noted once
    ([analytics_gate]); a promotion shows what it names ([grant_shows]) and a revocation
    withdraws everything ([revocation_withholds]). *)
From S2P Require Import Prelude Text JsDate JsValue Utf Canonical Contracts Database Concrete JsMap Ledger Authorization Frames Connection Hub Echo Trace Exports Http Routes ExportFile Governed Governance GovernanceLaws Deletion Policy.
#[local] Set Warnings "-register-all,-clear-no-such-hyp,-level-tolerance".

(** ** The trail *)

Lemma isCodeChar_fill c : isCodeChar (if isCodeChar c then c else "_"%char) = true.
Proof. destruct (isCodeChar c) eqn:E; [done|by vm_compute]. Qed.
Lemma normalize_accepted value : isReasonCode (normalizeReasonCode value) = true.
Proof.
  unfold normalizeReasonCode, isReasonCode.
  set (l := take 64 _). destruct l as [|c l'] eqn:El; [by vm_compute|]. rewrite <- El.
  rewrite list_ascii_of_string_of_list_ascii.
  assert (length l <= 64)%nat as Hlen by (unfold l; rewrite length_take; lia).
  assert (forallb isCodeChar l = true) as ->.
  { apply forallb_forall. intros x Hx. apply list_elem_of_In in Hx. unfold l in Hx. apply elem_of_take in Hx as (i & Hx & _).
    apply list_elem_of_lookup_2, list_elem_of_In, in_map_iff in Hx as (y & <- & _). apply isCodeChar_fill. }
  rewrite (proj2 (Nat.leb_le _ _) Hlen), andb_true_r, andb_true_r. apply Nat.leb_le. rewrite El. simpl. lia.
Qed.

Section Gate.
Context `{Postgres} `{Environment}.
Variable log : option string.

Lemma nextTx_tables g : same_tables g (nextTx g).
Proof. done. Qed.
(** What a decision leaves in the trail: one row, or nothing when there is no log. *)
Definition noted (p : option AuthSession) (roomId outcome reason : string) (g g' : governed) : Prop :=
  match log with
  | None => same_tables g g'
  | Some auditSalt => exists corr, same_tables (set_audit (gv_audit g ++ [auditRow auditSalt
      (Entry (principalKind p) "analytics.read" outcome reason corr (Some roomId))]) g) g'
  end.
Lemma principalKind_known p : principalKind p ∈ ["teacher"; "student"; "service"; "anonymous"]%string.
Proof. destruct p as [[]|]; simpl; set_solver. Qed.
Lemma recordAudit_run salt e g :
  auditAccepted (auditRow salt e) = true -> en_action e ∈ AUDITED_ACTIONS ->
  exists g', recordAudit salt e g = (Ok tt, g') /\ same_tables (set_audit (gv_audit g ++ [auditRow salt e]) g) g'.
Proof.
  intros Hacc Ha. unfold recordAudit, try_catch, writeAudit. rewrite bool_decide_true by done.
  unfold mbind, M_bind, uuidNew, ofRooms, inWorld, randomUUID, poolExecute, insertAudit. cbn [negb throw_if].
  rewrite Hacc. cbn. by eexists.
Qed.
Lemma auditDecision_noted p roomId outcome reason g :
  outcome ∈ ["allowed"; "rejected"; "failed"]%string ->
  exists g', auditDecision log p roomId outcome reason g = (Ok tt, g') /\ noted p roomId outcome reason g g'.
Proof.
  intros Ho. unfold auditDecision, noted. destruct log as [salt|]; [|by exists g].
  unfold mbind, M_bind. destruct (uuidNew g) as [[corr|e] g1] eqn:Hu; [|done].
  apply uuidNew_ok in Hu as ((w & -> & Hw)%supply_set & _).
  destruct (recordAudit_run salt (Entry (principalKind p) "analytics.read" outcome reason corr (Some roomId)) (set_world w g))
    as (g' & -> & Hg').
  - unfold auditAccepted, auditRow. cbn [au_principal_kind au_action au_outcome au_reason_code en_principalKind en_action en_outcome en_reasonCode].
    rewrite bool_decide_true by apply principalKind_known. rewrite (bool_decide_true (outcome ∈ _)) by done.
    rewrite normalize_accepted. by vm_compute.
  - cbn. unfold AUDITED_ACTIONS. set_solver.
  - eexists. split; [done|]. exists corr. etrans; [|exact Hg']. unfold same_tables, gv_db in *. cbn. by rewrite Hw.
Qed.

(** ** The gate *)

(** Whom the gate lets in, on the tables [g] at the times of its two statements, and with
    what. *)
Record open_room (rid : string) (now : Z) (g : governed) : Prop := {
  or_alive : deletionActiveIn rid (gv_db g) = false;
  or_policy : policyCurrent rid now g = true;
}.
Inductive entitled (roomId : string) (now now' : Z) (g : governed) : option AuthSession -> option string -> AnalyticsGrant -> Prop :=
| entitled_teacher teacherId actorId s rid sid tid :
    isUuid s = true -> uuid_in roomId = Some rid -> uuid_in s = Some sid -> uuid_in teacherId = Some tid ->
    existsb (ownsRoom rid tid) (rooms (gv_db g)) = true -> teacherSessionLive sid tid now (gv_db g) = true ->
    open_room rid now g ->
    entitled roomId now now' g (Some (TeacherSession teacherId actorId)) (Some s) (MkGrant r_teacher [])
| entitled_student room memberId actorId pseudonym nova s rid sid mid aid :
    isUuid s = true -> uuid_in roomId = Some rid -> uuid_in s = Some sid -> uuid_in memberId = Some mid -> uuid_in actorId = Some aid ->
    existsb (isMember rid mid aid) (members (gv_db g)) = true ->
    existsb (fun r => bool_decide (rm_id r = rid)) (rooms (gv_db g)) = true ->
    memberSessionLive sid mid now (gv_db g) = true ->
    open_room rid now g ->
    (forall x, latestPromotion rid now' g = Some x -> promotionSound x = true) ->
    entitled roomId now now' g (Some (StudentSession room memberId actorId pseudonym nova)) (Some s)
      (MkGrant r_student (default [] (pm_allowlist <$> latestPromotion rid now' g))).

Lemma checkFlags_ok row g u g' : checkFlags row g = (Ok u, g') -> row = Some (true, false) /\ g' = g.
Proof. unfold checkFlags. destruct row as [[[] []]|]; cbn; intros Hr; run_ok; done. Qed.
Lemma isSessionId_some s : isSessionId s = true -> exists x, s = Some x /\ isUuid x = true.
Proof. destruct s; cbn; [eauto|done]. Qed.
Lemma evaluate_sound p roomId s g gr g' : evaluate p roomId s g = (Ok gr, g') ->
  entitled roomId (db_now (txs (gv_world g))) (db_now (S (txs (gv_world g)))) g p s gr.
Proof.
  intros Hr. destruct p as [p|]; cbn [evaluate] in Hr; [|by run_ok].
  apply bind_ok in Hr as (? & ? & [Hs%negb_false_iff ->]%throw_if_ok & Hr). apply isSessionId_some in Hs as (sess & -> & Hx).
  apply bind_ok in Hr as (rid & ? & [Hrid ->]%uuidG_ok & Hr). apply bind_ok in Hr as (sid & ? & [Hsid ->]%uuidG_ok & Hr).
  destruct p as [t a|room m a ps nv].
  - apply bind_ok in Hr as (tid & ? & [Htid ->]%uuidG_ok & Hr). apply bind_ok in Hr as (row & g1 & [-> Hg1]%poolQuery_ok & Hr).
    apply bind_ok in Hr as (? & ? & [Hf ->]%checkFlags_ok & Hr). run_ok.
    destruct (_ && _) eqn:Hb; [|done]. injection Hf as Hp Hd. split_bools. by eapply entitled_teacher.
  - apply bind_ok in Hr as (mid & ? & [Hmid ->]%uuidG_ok & Hr). apply bind_ok in Hr as (aid & ? & [Haid ->]%uuidG_ok & Hr).
    apply bind_ok in Hr as (row & g1 & Hq & Hr). injection Hq as Hq <-.
    apply bind_ok in Hr as (? & ? & [Hf ->]%checkFlags_ok & Hr). rewrite Hf in Hq.
    destruct (_ && _) eqn:Hb; [|done]. injection Hq as Hp Hd. split_bools.
    apply bind_ok in Hr as (promotion & g2 & Hq & Hr). injection Hq as Hq <-. cbn [gv_world set_world txs] in Hq.
    change (latestPromotion rid (db_now (S (txs (gv_world g)))) g = promotion) in Hq.
    assert (gr = MkGrant r_student (default [] (pm_allowlist <$> promotion)) /\ (forall x, promotion = Some x -> promotionSound x = true)) as [-> Hsound].
    { destruct promotion as [y|]; [|by run_ok]. apply bind_ok in Hr as (? & ? & [Hy%negb_false_iff ->]%throw_if_ok & Hr). run_ok. naive_solver. }
    rewrite <- Hq in *. by eapply entitled_student.
Qed.
Lemma evaluate_complete p roomId s g gr :
  entitled roomId (db_now (txs (gv_world g))) (db_now (S (txs (gv_world g)))) g p s gr -> exists g', evaluate p roomId s g = (Ok gr, g').
Proof.
  intros [t a x rid sid tid Hx Hrid Hsid Htid Hown Hlive [Hd Hp]|room m a ps nv x rid sid mid aid Hx Hrid Hsid Hmid Haid Hmem Hroom Hlive [Hd Hp] Hsound];
    cbn [evaluate]; unfold checkFlags, uuidG, poolQuery, roomFlags, throw_if, mbind, M_bind, mret, M_ret; cbn [isSessionId default id].
  - rewrite Hx. cbn. rewrite Hrid. cbn. rewrite Hsid. cbn. rewrite Htid. cbn. rewrite Hown, Hlive, Hp, Hd. cbn. by eexists.
  - rewrite Hx. cbn. rewrite Hrid. cbn. rewrite Hsid. cbn. rewrite Hmid. cbn. rewrite Haid. cbn. rewrite Hmem, Hroom, Hlive, Hp, Hd. cbn.
    change (latestPromotion rid (db_now (S (txs (gv_world g)))) _) with (latestPromotion rid (db_now (S (txs (gv_world g)))) g).
    destruct (latestPromotion rid _ g) as [y|] eqn:Hy; [|by eexists]. rewrite (Hsound y) by done. by eexists.
Qed.
Lemma evaluate_tables p roomId s : leaves_tables (evaluate p roomId s).
Proof.
  destruct p as [p|]; cbn [evaluate]; [|auto with leaves]. destruct p; unfold checkFlags; repeat first
    [ apply leaves_bind; [|intros] | case_match | progress auto with leaves ].
Qed.
Lemma noted_after p roomId o c g g1 g' : same_tables g g1 -> noted p roomId o c g1 g' -> noted p roomId o c g g'.
Proof.
  intros Hg. unfold noted. destruct log as [salt|]; [|by etrans]. intros (corr & Hn). exists corr. etrans; [|exact Hn].
  unfold same_tables, gv_db in *. cbn. naive_solver congruence.
Qed.
(** What [requireRoomAccess] answers is what the gate finds, and it is noted. *)
Lemma requireRoomAccess_run p roomId cap s g :
  exists g', requireRoomAccess log p roomId cap s g = (fst (evaluate p roomId s g), g')
  /\ match fst (evaluate p roomId s g) with
     | Ok gr => noted p roomId "allowed" (upper (roleText (ag_role gr))) g g'
     | Err e => noted p roomId (fst (rejection e)) (snd (rejection e)) g g'
     end.
Proof.
  unfold requireRoomAccess, try_catch. unfold mbind, M_bind. pose proof (evaluate_tables p roomId s g) as Ht.
  destruct (evaluate p roomId s g) as [[gr|e] g1]; cbn [fst snd] in *.
  - destruct (auditDecision_noted p roomId "allowed" (upper (roleText (ag_role gr))) g1) as (g' & -> & Hn); [set_solver|].
    exists g'. split; [done|]. by eapply noted_after.
  - destruct (auditDecision_noted p roomId (fst (rejection e)) (snd (rejection e)) g1) as (g' & -> & Hn).
    { destruct e; simpl; set_solver. }
    exists g'. split; [done|]. by eapply noted_after.
Qed.

Lemma requireRoomAccess_entitled p roomId cap s g gr g' : requireRoomAccess log p roomId cap s g = (Ok gr, g') ->
  entitled roomId (db_now (txs (gv_world g))) (db_now (S (txs (gv_world g)))) g p s gr.
Proof.
  intros Hr. destruct (requireRoomAccess_run p roomId cap s g) as (g1 & Hrun & _). rewrite Hrun in Hr. injection Hr as He _.
  apply (evaluate_sound _ _ _ _ _ (snd (evaluate p roomId s g))). rewrite <- He. by destruct (evaluate p roomId s g).
Qed.

(** C15. The gate of the analytics lets in exactly those who are entitled, on the tables as
    they are at the moment of the request: a teacher whose session is live and whose room
    it is, a student of the room whose session is live, while no deletion of the room is
    under way and its retention policy is current; a teacher gets no projection of the
    students, a student those of the promotion in force, and nothing without one. Nothing
    is written but one row of the trail, which says whether the reading was allowed or
    refused, and why. *)
Theorem analytics_gate p roomId cap s g r g' :
  requireRoomAccess log p roomId cap s g = (r, g') ->
  (forall gr, r = Ok gr <-> entitled roomId (db_now (txs (gv_world g))) (db_now (S (txs (gv_world g)))) g p s gr)
  /\ match r with
     | Ok gr => noted p roomId "allowed" (upper (roleText (ag_role gr))) g g'
     | Err e => noted p roomId (fst (rejection e)) (snd (rejection e)) g g'
     end.
Proof.
  intros Hr. destruct (requireRoomAccess_run p roomId cap s g) as (g1 & Hrun & Hn). rewrite Hrun in Hr. injection Hr as <- <-.
  split; [|done]. intros gr. split.
  - intros Ho. rewrite Ho in Hrun. by eapply requireRoomAccess_entitled.
  - intros (g2 & ->)%evaluate_complete. done.
Qed.
End Gate.

(** ** Promotions *)

Section Promotions.
Context `{Postgres} `{Environment}.

(** Everything but the promotions and the notices is as it was. *)
Record promotions_only (g g' : governed) : Prop := {
  po_db : gv_db g' = gv_db g;
  po_details : gv_details g' = gv_details g;
  po_manifests : gv_manifests g' = gv_manifests g;
  po_receipts : gv_receipts g' = gv_receipts g;
  po_audit : gv_audit g' = gv_audit g;
  po_room_policies : gv_room_policies g' = gv_room_policies g;
  po_artifacts : gv_artifacts g' = gv_artifacts g;
  po_counts : gv_counts g' = gv_counts g;
  po_terms : gv_terms g' = gv_terms g;
  po_agents : gv_agents g' = gv_agents g;
}.
(** Each room has one row at most, which its constraints have let through. *)
Record promotions_ok (g : governed) : Prop := {
  pk_rooms : NoDup (map pm_room_id (gv_promotions g));
  pk_rows : Forall (fun p => promotionAccepted p = true /\ NoDup (pm_allowlist p)) (gv_promotions g);
}.
Lemma promotions_ok_sound rid now g x : promotions_ok g -> latestPromotion rid now g = Some x -> promotionSound x = true.
Proof.
  intros [_ Hr] Hx. unfold latestPromotion in Hx. apply head_Some_elem_of in Hx. rewrite sort_by_perm in Hx.
  apply list_elem_of_In, filter_In in Hx as [Hx _]. rewrite Forall_forall in Hr. apply list_elem_of_In, Hr in Hx as [Ha Hn].
  unfold promotionAccepted, promotionSound in *. split_bools. rewrite !andb_true_iff. split_and!; try done. by rewrite bool_decide_true.
Qed.

(** Nothing is in force for a room all of whose rows are revoked. *)
Definition withdrawn (rid : string) (g : governed) : Prop :=
  Forall (fun p => pm_room_id p = rid -> pm_revoked_at p <> None) (gv_promotions g).
Lemma withdrawn_none rid now g : withdrawn rid g -> select_where (livePromotion rid now) (gv_promotions g) = [].
Proof.
  unfold withdrawn, select_where. intros Hw. induction Hw as [|p l Hp _ IH]; [done|]. simpl. rewrite IH.
  unfold livePromotion. destruct (decide (pm_room_id p = rid)) as [E|E]; [|by rewrite bool_decide_false].
  rewrite (bool_decide_false (pm_revoked_at p = None)) by auto. by rewrite andb_false_r.
Qed.
Lemma withdrawn_keys rid now g : withdrawn rid g -> currentKeysIn rid now g = [].
Proof. intros Hw. unfold currentKeysIn. by rewrite withdrawn_none. Qed.
Lemma withdrawn_latest rid now g : withdrawn rid g -> latestPromotion rid now g = None.
Proof. intros Hw. unfold latestPromotion. by rewrite withdrawn_none. Qed.

(** *** Runs *)

Lemma executeR_ok {A} (f : Z -> governed -> option (A * governed)) g a g' :
  executeR f g = (Ok a, g') -> f (tx_now (tx (gv_world g))) g = Some (a, g').
Proof. unfold executeR. destruct (f _ g) as [[]|]; naive_solver. Qed.
Lemma notify_ok n g n' g' : notify n g = (Ok n', g') ->
  exists payload, payloadOf n = Some payload /\ byteLength payload <= MAX_NOTIFY_BYTES /\ n' = n
  /\ g' = set_notices (gv_notices g ++ [(POLICY_CHANGE_CHANNEL, payload)]) g.
Proof.
  unfold notify. destruct (payloadOf n) as [payload|]; intros Hr; [|by run_ok].
  apply bind_ok in Hr as (? & ? & [Hb%Z.ltb_ge ->]%throw_if_ok & Hr). run_ok. eauto 10.
Qed.
Lemma currentKeys_ok roomId g l g' : currentKeys roomId g = (Ok l, g') ->
  exists rid, uuid_in roomId = Some rid /\ l = currentKeysIn rid (tx_now (tx (gv_world g))) g /\ g' = g.
Proof. unfold currentKeys. intros (rid & ? & [Hr ->]%uuidG_ok & [-> ->]%txQuery_ok)%bind_ok. eauto. Qed.
Lemma keysOf_elem k l : k ∈ keysOf l <-> k ∈ STUDENT_PROJECTIONS /\ projectionKeyText k ∈ l.
Proof. unfold keysOf, select_where. rewrite !list_elem_of_In, filter_In, bool_decide_eq_true, list_elem_of_In. done. Qed.
Lemma keysOf_again l : select_where (fun k => bool_decide (k ∈ keysOf l)) STUDENT_PROJECTIONS = keysOf l.
Proof.
  unfold keysOf at 2. unfold select_where. apply filter_ext_in. intros k Hk. apply bool_decide_ext.
  rewrite keysOf_elem. apply list_elem_of_In in Hk. naive_solver.
Qed.

Lemma revokePromotion_ok rid now g row g' : revokePromotion rid now g = Some (Some row, g') ->
  exists old, find (isPromotionOf rid) (gv_promotions g) = Some old /\ row = revokedRow now old /\ promotionAccepted row = true
  /\ g' = set_promotions (update_where (isPromotionOf rid) (revokedRow now) (gv_promotions g)) g.
Proof.
  unfold revokePromotion. destruct (find _ _) as [old|]; [|done]. intros (u & Hg & Hr)%bind_Some. injection Hr as <- <-.
  unfold guardO in Hg. destruct (promotionAccepted _) eqn:Ha; [|done]. eauto 10.
Qed.
(** What a revocation does. *)
Lemma revoke_ok roomId g n g' : revoke roomId g = (Ok n, g') ->
  exists rid old payload, isUuid roomId = true /\ uuid_in roomId = Some rid /\ find (isPromotionOf rid) (gv_promotions g) = Some old
  /\ promotionAccepted (revokedRow (db_now (txs (gv_world g))) old) = true
  /\ n = Notice roomId (currentKeysIn rid (db_now (txs (gv_world g))) g) (pm_policy_revision old + 1)
  /\ payloadOf n = Some payload /\ byteLength payload <= MAX_NOTIFY_BYTES
  /\ gv_promotions g' = update_where (isPromotionOf rid) (revokedRow (db_now (txs (gv_world g)))) (gv_promotions g)
  /\ gv_notices g' = gv_notices g ++ [(POLICY_CHANGE_CHANNEL, payload)] /\ promotions_only g g'.
Proof.
  unfold revoke. intros Hr. apply bind_ok in Hr as (? & ? & [Hu%negb_false_iff ->]%throw_if_ok & Hr).
  apply inTransactionG_ok in Hr as (g0 & Hg0 & Hnow & Hr). apply same_tables_eq in Hg0 as [Hg0 Hdb].
  apply bind_ok in Hr as (before & ? & (rid & Hrid & -> & ->)%currentKeys_ok & Hr).
  apply bind_ok in Hr as (rid' & ? & [Hrid' ->]%uuidG_ok & Hr). rewrite Hrid in Hrid'. injection Hrid' as <-.
  apply bind_ok in Hr as (row & g1 & Hx%executeR_ok & Hr). destruct row as [row|]; [|by run_ok].
  apply revokePromotion_ok in Hx as (old & Hfind & -> & Ha & ->). apply notify_ok in Hr as (payload & Hp & Hb & -> & ->).
  rewrite Hnow in *. unfold currentKeysIn in Hp. rewrite keysOf_again in Hp.
  exists rid, old, payload. rewrite Hg0 in *. unfold currentKeysIn. rewrite keysOf_again.
  by split_and!.
Qed.
Lemma revoked_withdrawn rid now g g' :
  gv_promotions g' = update_where (isPromotionOf rid) (revokedRow now) (gv_promotions g) -> withdrawn rid g'.
Proof.
  intros Hp. unfold withdrawn. rewrite Hp. apply Forall_forall. intros x (y & Hy & ->)%update_where_elem.
  unfold isPromotionOf. case_bool_decide; done.
Qed.

Lemma revokedRow_of rid now p : isPromotionOf rid (revokedRow now p) = isPromotionOf rid p.
Proof. done. Qed.
Lemma update_where_ids {A B} (f : A -> bool) (h : A -> A) (key : A -> B) l :
  (forall x, f x = true -> key (h x) = key x) -> map key (update_where f h l) = map key l.
Proof.
  intros Hk. unfold update_where. rewrite map_map. apply map_ext. intros x. destruct (f x) eqn:Hf; auto.
Qed.
Lemma revokedRow_accepted now p : promotionAccepted p = true -> pm_policy_revision p + 1 <= INT8_MAX ->
  promotionAccepted (revokedRow now p) = true.
Proof. unfold promotionAccepted, revokedRow. cbn. intros. split_bools. rewrite !andb_true_iff. split_and!; try done; lia. Qed.
(** With one row for the room, it is that row the constraints were asked about. *)
Lemma promotions_ok_unique rid g x y : promotions_ok g -> find (isPromotionOf rid) (gv_promotions g) = Some x ->
  y ∈ gv_promotions g -> pm_room_id y = rid -> y = x.
Proof.
  intros [Hn _] [Hin Hx]%find_elem Hy Hid. apply bool_decide_eq_true in Hx.
  assert (pm_room_id x = pm_room_id y) as He by congruence. clear Hx Hid. rename He into Hx.
  revert Hn Hin Hy Hx. generalize (gv_promotions g). induction l as [|z l IH]; simpl; [by intros _ ?%elem_of_nil|].
  intros [Hz Hn]%NoDup_cons Hin Hy Hx. apply elem_of_cons in Hin as [->|Hin], Hy as [->|Hy]; auto.
  - destruct Hz. rewrite Hx. by apply list_elem_of_fmap_2.
  - destruct Hz. rewrite <- Hx. by apply list_elem_of_fmap_2.
Qed.
Lemma revoke_keeps rid now old g g' : promotions_ok g -> find (isPromotionOf rid) (gv_promotions g) = Some old ->
  promotionAccepted (revokedRow now old) = true ->
  gv_promotions g' = update_where (isPromotionOf rid) (revokedRow now) (gv_promotions g) -> promotions_ok g'.
Proof.
  intros Hok Hf Ha Hp. assert (forall y, y ∈ gv_promotions g -> pm_room_id y = rid -> y = old) as Huniq by (intros y; by apply promotions_ok_unique).
  destruct Hok as [Hn Hr]. split; rewrite Hp.
  - by rewrite update_where_ids.
  - apply Forall_forall. intros x (y & Hy & ->)%update_where_elem. rewrite Forall_forall in Hr. pose proof (Hr y Hy) as [Hay Hny].
    unfold isPromotionOf. case_bool_decide as Hid; [|done]. rewrite (Huniq y) by done.
    split; [done|]. cbn. rewrite <- (Huniq y); done.
Qed.

Lemma upsertPromotion_ok rid sha allow s e g row g' : upsertPromotion rid sha allow s e g = Some (row, g') ->
  promotionAccepted row = true
  /\ exists revision, row = PromotionRow rid sha revision allow s e None
  /\ revision = 1 + default 0 (pm_policy_revision <$> find (isPromotionOf rid) (gv_promotions g))
  /\ row ∈ gv_promotions g' /\ g' = set_promotions (gv_promotions g') g
  /\ (forall x, x ∈ gv_promotions g' -> x = row \/ (x ∈ gv_promotions g /\ pm_room_id x <> rid))
  /\ (forall x, x ∈ gv_promotions g -> pm_room_id x <> rid -> x ∈ gv_promotions g')
  /\ (NoDup (map pm_room_id (gv_promotions g)) -> NoDup (map pm_room_id (gv_promotions g'))).
Proof.
  unfold upsertPromotion. destruct (find _ _) as [old|] eqn:Hf; intros (u & Hg & Hr)%bind_Some; injection Hr as <- <-;
    unfold guardO in Hg; (destruct (_ && _) eqn:Hb in Hg || destruct (promotionAccepted _) eqn:Hb in Hg); try done.
  - split; [done|]. apply find_elem in Hf as [Hin Hold]. eexists. split_and!; [done|cbn; lia| |done| | |].
    + cbn. apply list_elem_of_fmap. exists old. by rewrite Hold.
    + cbn. intros x (y & Hy & ->)%update_where_elem. destruct (isPromotionOf rid y) eqn:Hy'; [by left|]. right.
      by apply bool_decide_eq_false in Hy'.
    + cbn. intros x Hx Hid. apply update_where_keeps; [done|]. by apply bool_decide_eq_false.
    + cbn. rewrite update_where_ids; [done|]. intros x Hx%bool_decide_eq_true. done.
  - split_bools. split; [done|]. eexists. split_and!; [done|done| |done| | |].
    + cbn. apply elem_of_app. right. by left.
    + cbn. intros x [Hx| ->%list_elem_of_singleton]%elem_of_app; [right|by left]. split; [done|]. intros Hid.
      apply list_elem_of_In in Hx. pose proof (find_none _ _ Hf x Hx) as Hnone. by apply bool_decide_eq_false in Hnone.
    + cbn. intros x Hx _. apply elem_of_app. by left.
    + cbn. intros Hn. rewrite map_app. apply NoDup_app. split_and!; [done| |apply NoDup_singleton].
      intros r (x & -> & Hx)%list_elem_of_fmap Hr%list_elem_of_singleton. apply list_elem_of_In in Hx.
      pose proof (find_none _ _ Hf x Hx) as Hnone. by apply bool_decide_eq_false in Hnone.
Qed.
(** What a grant does. *)
Lemma grant_ok p g n g' : grant p g = (Ok n, g') ->
  exists s e rid revision payload, assertGrant p = Some (s, e) /\ uuid_in (pg_roomId p) = Some rid
  /\ upsertPromotion rid (pg_sha256 p) (pg_allowlist p) s e g
     = Some (PromotionRow rid (pg_sha256 p) revision (pg_allowlist p) s e None, set_promotions (gv_promotions g') g)
  /\ no_roomId n = pg_roomId p /\ no_revision n = revision
  /\ no_changedKeys n = select_where (fun k => negb (Bool.eqb (bool_decide (k ∈ currentKeysIn rid (db_now (txs (gv_world g))) g))
                                                          (bool_decide (k ∈ keysOf (pg_allowlist p))))) STUDENT_PROJECTIONS
  /\ payloadOf n = Some payload /\ gv_notices g' = gv_notices g ++ [(POLICY_CHANGE_CHANNEL, payload)] /\ promotions_only g g'.
Proof.
  unfold grant. destruct (assertGrant p) as [[s e]|] eqn:Hp; intros Hr; [|by run_ok].
  apply inTransactionG_ok in Hr as (g0 & Hg0 & Hnow & Hr). apply same_tables_eq in Hg0 as [Hg0 Hdb].
  apply bind_ok in Hr as (before & ? & (rid & Hrid & -> & ->)%currentKeys_ok & Hr).
  apply bind_ok in Hr as (rid' & ? & [Hrid' ->]%uuidG_ok & Hr). rewrite Hrid in Hrid'. injection Hrid' as <-.
  apply bind_ok in Hr as (row & g1 & Hx%executeR_ok & Hr). pose proof (upsertPromotion_ok _ _ _ _ _ _ _ _ Hx) as (_ & revision & -> & _ & _ & Hg1 & _).
  apply notify_ok in Hr as (payload & Hpay & _ & -> & ->). rewrite Hnow in *.
  exists s, e, rid, revision, payload. rewrite Hg0 in *. rewrite Hg1 in *. unfold upsertPromotion, gv_db in *. cbn in *.
  rewrite Hdb in *. split_and!; try done.
  destruct (find _ _) as [old|]; apply bind_Some in Hx as (u & -> & Hx); cbn; injection Hx; intros; simplify_eq; do 2 f_equal; by f_equal.
Qed.

(** The keys a room's row shows while it is in force. *)
Lemma granted_keys rid sha allow s e g row g' now g2 :
  upsertPromotion rid sha allow s e g = Some (row, g') -> gv_promotions g2 = gv_promotions g' ->
  currentKeysIn rid now g2 = if (s <=? now) && (now <? e) then keysOf allow else [].
Proof.
  intros (_ & revision & -> & _ & Hrow & _ & Hall & _)%upsertPromotion_ok Hg2. unfold currentKeysIn. rewrite Hg2.
  assert (forall x, x ∈ select_where (livePromotion rid now) (gv_promotions g') ->
    x = PromotionRow rid sha revision allow s e None /\ (s <=? now) && (now <? e) = true) as Hx.
  { intros x [Hin Hl]%list_elem_of_In%filter_In. apply list_elem_of_In, Hall in Hin as [->|[_ Hid]].
    - split; [done|]. unfold livePromotion in Hl. cbn in Hl. by split_bools; rewrite andb_true_iff.
    - unfold livePromotion in Hl. by rewrite (bool_decide_false (pm_room_id x = rid)) in Hl. }
  destruct (select_where _ _) as [|x l] eqn:Es.
  - cbn. destruct ((s <=? now) && (now <? e)) eqn:Hw; [|done].
    assert (PromotionRow rid sha revision allow s e None ∈ select_where (livePromotion rid now) (gv_promotions g')) as Hin.
    { apply list_elem_of_In, filter_In. split; [by apply list_elem_of_In|]. unfold livePromotion. cbn. rewrite !bool_decide_true by done.
      by rewrite <- andb_assoc. }
    rewrite Es in Hin. by apply elem_of_nil in Hin.
  - destruct (Hx x) as [-> ->]; [by left|]. done.
Qed.
Lemma assertGrant_sound p s e : assertGrant p = Some (s, e) ->
  isUuid (pg_roomId p) = true /\ s < e /\ NoDup (pg_allowlist p) /\ (forall k, k ∈ pg_allowlist p -> k ∈ studentKeys).
Proof.
  unfold assertGrant. intros (x & _ & Hp)%bind_Some. apply bind_Some in Hp as (y & _ & Hp). apply bind_Some in Hp as (u & Hg & [= <- <-]).
  unfold guardO in Hg. destruct (_ && _) eqn:Hb in Hg; [|done]. split_bools. split_and!; try done; [lia|].
  intros k Hk. match goal with Hf : forallb _ (pg_allowlist p) = true |- _ => rewrite forallb_forall in Hf; apply list_elem_of_In, Hf in Hk end.
  by apply bool_decide_eq_true in Hk.
Qed.

(** C39. A promotion shows the students of its room exactly the projections it names,
    between its two moments and until something else is decided: the revision of the room
    goes up by one, the row of another room is not touched, the notice that is sent with
    the row names the projections whose visibility changes, and the table stays one that
    the readers accept. *)
Theorem grant_shows p g n g' : grant p g = (Ok n, g') ->
  exists s e rid payload, assertGrant p = Some (s, e) /\ uuid_in (pg_roomId p) = Some rid
  /\ no_revision n = 1 + default 0 (pm_policy_revision <$> find (isPromotionOf rid) (gv_promotions g))
  /\ (forall k, k ∈ no_changedKeys n <-> k ∈ STUDENT_PROJECTIONS
        /\ (k ∈ currentKeysIn rid (db_now (txs (gv_world g))) g <-> projectionKeyText k ∉ pg_allowlist p))
  /\ (forall x, pm_room_id x <> rid -> x ∈ gv_promotions g <-> x ∈ gv_promotions g')
  /\ payloadOf n = Some payload /\ gv_notices g' = gv_notices g ++ [(POLICY_CHANGE_CHANNEL, payload)] /\ promotions_only g g'
  /\ (promotions_ok g -> promotions_ok g')
  /\ forall g2 now, gv_promotions g2 = gv_promotions g' ->
       currentKeysIn rid now g2 = if (s <=? now) && (now <? e) then keysOf (pg_allowlist p) else [].
Proof.
  intros (s & e & rid & revision & payload & Hp & Hrid & Hup & Hroom & Hrev & Hkeys & Hpay & Hnot & Honly)%grant_ok.
  pose proof Hup as Hup'. apply upsertPromotion_ok in Hup' as (Hacc & r & [= <-] & Hr & Hrow & _ & Hall & Hother & Hnd). cbn [gv_promotions set_promotions] in *.
  exists s, e, rid, payload. split_and!; try done.
  - by rewrite Hrev.
  - intros k. rewrite Hkeys. unfold select_where. rewrite list_elem_of_In, filter_In, <- list_elem_of_In.
    assert (k ∈ STUDENT_PROJECTIONS -> (k ∈ keysOf (pg_allowlist p) <-> projectionKeyText k ∈ pg_allowlist p)) as Hel by (rewrite keysOf_elem; tauto).
    split; intros [Hin Hk]; (split; [done|]); specialize (Hel Hin); revert Hk; repeat case_bool_decide; cbn; intuition congruence.
  - intros x Hid. split; [by intros; apply Hother|]. intros [->|[Hx _]]%Hall; done.
  - intros [Hn Hf]. split; [by apply Hnd|]. apply Forall_forall. intros x [->|[Hx _]]%Hall; [|rewrite Forall_forall in Hf; by apply Hf].
    split; [done|]. by apply assertGrant_sound in Hp as (_ & _ & ? & _).
  - intros g2 now Hg2. eapply granted_keys; [exact Hup|done].
Qed.

(** C16. Once a promotion is revoked, no student is shown anything: whatever the time, until
    the table changes again, the room has no projection in force, the gate lets a student
    in with nothing, every projection is refused, and no pointer to one is let through to a
    socket of a student. The notice that is sent with the tombstone names exactly the
    projections that were visible, under a revision one higher. *)
Theorem revocation_withholds log roomId g n g' : revoke roomId g = (Ok n, g') ->
  exists rid old payload, uuid_in roomId = Some rid /\ find (isPromotionOf rid) (gv_promotions g) = Some old
  /\ n = Notice roomId (currentKeysIn rid (db_now (txs (gv_world g))) g) (pm_policy_revision old + 1)
  /\ payloadOf n = Some payload /\ gv_notices g' = gv_notices g ++ [(POLICY_CHANGE_CHANNEL, payload)] /\ promotions_only g g'
  /\ (promotions_ok g -> promotions_ok g')
  /\ forall g2, gv_promotions g2 = gv_promotions g' ->
       (forall now, currentKeysIn rid now g2 = [])
       /\ (forall p cap s gr g3, requireRoomAccess log p roomId cap s g2 = (Ok gr, g3) -> ag_role gr = r_student ->
            ag_allowlist gr = [] /\ forall k, assertProjection gr k <> Ok tt)
       /\ (forall room m a ps nv s f, pj_roomId f = roomId ->
            fst (authorizeProjection log (StudentSession room m a ps nv) s f g2) <> Ok Allow).
Proof.
  intros (rid & old & payload & Hu & Hrid & Hf & Hacc & Hn & Hpay & _ & Hp & Hnot & Honly)%revoke_ok.
  exists rid, old, payload. split_and!; try done; [by eauto using revoke_keeps|]. intros g2 Hg2.
  assert (withdrawn rid g2) as Hw by (eapply revoked_withdrawn; by rewrite Hg2).
  assert (forall p cap s gr g3, requireRoomAccess log p roomId cap s g2 = (Ok gr, g3) -> ag_role gr = r_student ->
            ag_allowlist gr = [] /\ forall k, assertProjection gr k <> Ok tt) as Hgate.
  { intros p cap s gr g3 Hev%requireRoomAccess_entitled Hrole. destruct Hev as [|room m a ps nv s' rid' ? ? ? ? Hrid']; [done|].
    rewrite Hrid in Hrid'. injection Hrid' as <-. rewrite withdrawn_latest by done. split; [done|].
    intros k. by destruct k. }
  split_and!; [intros; by apply withdrawn_keys|done|].
  intros room m a ps nv s f <-. unfold authorizeProjection, try_catch, mbind, M_bind.
  destruct (requireRoomAccess _ _ _ _ _ g2) as [[gr|e] g3] eqn:Hr; cbn.
  - assert (ag_role gr = r_student) as Hrole.
    { apply requireRoomAccess_entitled in Hr. by inversion Hr. }
    destruct (Hgate _ _ _ _ _ Hr Hrole) as [_ Hno]. unfold lift_result. specialize (Hno (pj_projectionKey f)).
    destruct (assertProjection gr (pj_projectionKey f)) as [[]|e] eqn:Ha; [done|]. cbn. unfold projectionDeliveryFailureDecision.
    by destruct (policyFailure e); repeat case_match.
  - unfold projectionDeliveryFailureDecision. by destruct (policyFailure e); repeat case_match.
Qed.
End Promotions.
