(* ===== verification/Notices.v ===== *)
(** * A withdrawal reaches the open sockets

    The notice that is sent with a change of a promotion is read back as it was
    ([notice_reads]), and the listener tells the sockets of the room what is withheld from
    now on ([revocation_reaches_sockets]). *)
From S2P Require Import Prelude Text JsDate JsValue Utf Canonical Contracts Database Concrete JsMap Ledger Authorization Frames Connection Hub Echo Trace Exports Http Routes ExportFile Governed Governance GovernanceLaws Deletion Policy PolicyLaws.
#[local] Set Warnings "-register-all,-clear-no-such-hyp,-level-tolerance".

(** ** Notices *)

Lemma units_at_most n : forall u, (length u <= n)%nat -> (length u <= length (utf8 u))%nat.
Proof.
  induction n as [|n IH]; intros [|x u]; cbn [length]; try (simpl; lia). intros Hl. cbn [utf8].
  assert (length u <= length (utf8 u))%nat as Hu by (apply IH; lia).
  destruct (x <? 128); [simpl; lia|]. destruct (x <? 2048); [rewrite length_app; simpl; lia|].
  destruct (isHigh x); [|destruct (isLow x); rewrite length_app; simpl; lia].
  destruct u as [|y v]; [simpl; lia|]. destruct (isLow y); [|rewrite length_app; simpl length in *; lia].
  cbn [length] in *. assert (length v <= length (utf8 v))%nat by (apply IH; lia). rewrite length_app. simpl. lia.
Qed.
Lemma length_byteLength u : Z.of_nat (length u) <= byteLength u.
Proof. unfold byteLength. pose proof (units_at_most (length u) u ltac:(lia)). lia. Qed.
Lemma asciiText_text s : forallb (fun c => code c <? 128) (list_ascii_of_string s) = true -> asciiText (text s) = Some s.
Proof.
  intros Hs. unfold asciiText, text. rewrite map_map.
  assert (forallb (fun x => (0 <=? x) && (x <? 128)) (map code (list_ascii_of_string s)) = true) as ->.
  { rewrite forallb_forall in *. intros x (c & <- & Hc)%in_map_iff. rewrite (Hs c Hc), andb_true_r. apply Z.leb_le, N2Z.is_nonneg. }
  f_equal. rewrite <- (string_of_list_ascii_of_string s) at 2. f_equal. rewrite <- (map_id (list_ascii_of_string s)) at 2.
  apply map_ext. intros c. unfold chr, code. by rewrite N2Z.id, ascii_N_embedding.
Qed.
Lemma matches_all pat (P : ascii -> bool) : Forall (fun f => forall c, f c = true -> P c = true) pat ->
  forall l, matches pat l = true -> forallb P l = true.
Proof.
  induction 1 as [|f pat Hf _ IH]; intros [|c l]; try done. cbn. intros [Hc Hl]%andb_true_iff. rewrite (Hf c Hc). by apply IH.
Qed.
Lemma isUuid_ascii s : isUuid s = true -> forallb (fun c => code c <? 128) (list_ascii_of_string s) = true.
Proof.
  unfold isUuid. apply matches_all. unfold UUID_PATTERN. apply Forall_forall. intros f Hf c.
  rewrite !elem_of_app, !elem_of_replicate, !list_elem_of_singleton in Hf.
  assert (negb (is_hex c || Text.between "1"%char "8"%char c || is_char "-"%char c || one_of ["8"; "9"; "a"; "b"; "A"; "B"]%char c) || (code c <? 128) = true) as Hall.
  { revert c. apply (for_all_ascii (fun c => negb (is_hex c || Text.between "1"%char "8"%char c || is_char "-"%char c || one_of ["8"; "9"; "a"; "b"; "A"; "B"]%char c) || (code c <? 128))).
    by vm_compute. }
  intros Hc. destruct (code c <? 128); [done|]. rewrite orb_false_r, negb_true_iff, !orb_false_iff in Hall.
  destruct Hall as [[[? ?] ?] ?]. decompose [or and] Hf; subst; congruence.
Qed.

(** What [JSON.parse] does with a canonical text: it reads the value, keys in their order. *)
Record JsonParseLaws `{JsonParse} : Prop := {
  json_parse_canonical t b u : tree_wf t -> canonicalJson t = Some b -> textDecode b = Some u -> json_parse u = Some (sortKeys t);
}.
Lemma text_isUnits s : Forall isUnit (text s).
Proof.
  apply Forall_forall. intros x (c & <- & _)%list_elem_of_In%in_map_iff. unfold isUnit, code.
  pose proof (N_ascii_bounded c). lia.
Qed.
Lemma noticeTree_wf n : tree_wf (noticeTree n).
Proof.
  cbn -[text]. split.
  - apply (bool_decide_unpack _). by vm_compute.
  - split_and!; try apply text_isUnits; try done. apply foldr_and_Forall', Forall_forall.
    intros t (k & <- & _)%list_elem_of_In%in_map_iff. apply text_isUnits.
Qed.
Lemma studentKeyOf_text k : k ∈ STUDENT_PROJECTIONS -> studentKeyOf (TStr (text (projectionKeyText k))) = Some k.
Proof. unfold STUDENT_PROJECTIONS. intros [->|[->|[]%elem_of_nil]%elem_of_cons]%elem_of_cons; by vm_compute. Qed.
Lemma studentKeys_read l : Forall (fun k => k ∈ STUDENT_PROJECTIONS) l ->
  mapM studentKeyOf (map (fun k => TStr (text (projectionKeyText k))) l) = Some l.
Proof. induction 1 as [|k l Hk _ IH]; [done|]. cbn -[text studentKeyOf]. by rewrite studentKeyOf_text, IH. Qed.

Lemma sortKeys_notice n : sortKeys (noticeTree n)
  = TObj [(text "changedKeys", TArr (map (fun k => TStr (text (projectionKeyText k))) (no_changedKeys n)));
          (text "revision", TNum (NInt (no_revision n))); (text "roomId", TStr (text (no_roomId n)))].
Proof.
  unfold noticeTree. cbn [sortKeys map fst snd]. rewrite map_map. cbn [sortKeys].
  assert (forall a b c : tree, sort_by keyLe [(text "roomId", a); (text "changedKeys", b); (text "revision", c)]
    = [(text "changedKeys", b); (text "revision", c); (text "roomId", a)]) as -> by reflexivity. done.
Qed.
(** A notice that is sent is read as it was written. *)
Lemma notice_reads `{JsonParse} n payload : JsonParseLaws ->
  payloadOf n = Some payload -> byteLength payload <= MAX_NOTIFY_BYTES -> isUuid (no_roomId n) = true ->
  Forall (fun k => k ∈ STUDENT_PROJECTIONS) (no_changedKeys n) -> NoDup (no_changedKeys n) -> 1 <= no_revision n ->
  parsePolicyChangeNotice payload = Some n.
Proof.
  intros Hlaws Hpay Hlen Hu Hkeys Hnd Hrev. unfold payloadOf in Hpay. apply bind_Some in Hpay as (b & Hb & Hd).
  unfold parsePolicyChangeNotice. pose proof (length_byteLength payload) as Hl.
  rewrite (proj2 (Z.leb_le _ _)) by lia. cbn [guardO mbind option_bind].
  rewrite (json_parse_canonical Hlaws _ _ _ (noticeTree_wf n) Hb Hd).
  assert (Z.abs (no_revision n) <= MAX_SAFE_INTEGER) as Hsafe.
  { unfold canonicalJson in Hb. apply bind_Some in Hb as (m & Ha & _). rewrite assert_spec in Ha by (unfold MAX_NODES; lia).
    destruct (okTree 0 (noticeTree n)) eqn:Ho; [|done]. cbn -[text] in Ho. split_bools. done. }
  rewrite sortKeys_notice. cbn [mbind option_bind map fst].
  rewrite bool_decide_true by reflexivity. cbn [guardO mbind option_bind].
  set (fs := [(text "changedKeys", _); _; _]).
  change (unitsField "roomId" fs) with (Some (TStr (text (no_roomId n)))).
  change (unitsField "changedKeys" fs) with (Some (TArr (map (fun k => TStr (text (projectionKeyText k))) (no_changedKeys n)))).
  change (unitsField "revision" fs) with (Some (TNum (NInt (no_revision n)))). cbn [mbind option_bind].
  rewrite asciiText_text by (by apply isUuid_ascii). cbn [mbind option_bind]. rewrite Hu. cbn [guardO mbind option_bind].
  rewrite studentKeys_read by done. cbn [mbind option_bind]. rewrite bool_decide_true by done. cbn [guardO mbind option_bind asSafeInteger].
  rewrite decide_True by lia. cbn [mbind option_bind]. rewrite (proj2 (Z.leb_le _ _)) by lia. by destruct n.
Qed.

(** ** The sockets *)

Section Sockets.
Variable auth : nat -> DeliveryAuthorization.
Variable roomId : string.

Definition announced (fs : list ServerFrame) (h : room_hub) : room_hub := foldl (fun h f => broadcastDegraded auth roomId f h) h fs.
Definition forStudents (f : ServerFrame) : Prop := exists now k, k ∈ STUDENT_PROJECTIONS /\ f = withheldFrame now k.
Lemma broadcast_rooms f onlyRole h : hb_rooms (broadcastEphemeral auth roomId f onlyRole h) = hb_rooms h.
Proof.
  unfold broadcastEphemeral. generalize (members_of roomId h). intros ks. revert h. induction ks as [|k ks IH]; intros h; [done|].
  cbn [foldl]. by rewrite IH.
Qed.
Lemma forStudents_broadcast f h : forStudents f -> broadcastDegraded auth roomId f h = broadcastEphemeral auth roomId f (Some r_student) h.
Proof.
  intros (now & k & Hk & ->). unfold broadcastDegraded, withheldFrame. unfold STUDENT_PROJECTIONS in Hk.
  by apply elem_of_cons in Hk as [->|[->|[]%elem_of_nil]%elem_of_cons].
Qed.
(** A row of notices does its work on each socket of the room, and on no other. *)
Lemma announced_lookup fs h j : Forall forStudents fs -> NoDup (members_of roomId h) ->
  hb_rooms (announced fs h) = hb_rooms h
  /\ hb_connections (announced fs h) !! j
     = if decide (j ∈ members_of roomId h) then (fun c => foldl (fun c f => ephemeralTo auth f (Some r_student) j c) c fs) <$> hb_connections h !! j
       else hb_connections h !! j.
Proof.
  intros Hfs Hnd. revert h Hnd. induction Hfs as [|f fs Hf _ IH]; intros h Hnd.
  - split; [done|]. cbn. destruct (decide _); [|done]. by destruct (hb_connections h !! j).
  - change (announced (f :: fs) h) with (announced fs (broadcastDegraded auth roomId f h)). rewrite forStudents_broadcast by done.
    assert (members_of roomId (broadcastEphemeral auth roomId f (Some r_student) h) = members_of roomId h) as Hm
      by (unfold members_of; by rewrite broadcast_rooms).
    destruct (IH (broadcastEphemeral auth roomId f (Some r_student) h)) as [-> ->]; [by rewrite Hm|].
    rewrite Hm, broadcast_rooms. split; [done|]. unfold broadcastEphemeral. rewrite broadcast_lookup by done.
    destruct (decide _); [|done]. by destruct (hb_connections h !! j).
Qed.
(** An open socket of a student gets the notices in order. *)
Lemma told_student fs k c s p a : Forall forStudents fs -> auth k = Delivery s p a -> sessionRole p = r_student ->
  cn_hello c = true -> cn_closed c = false -> cn_bufferedAmount c = None ->
  outs (cn_log (foldl (fun c f => ephemeralTo auth f (Some r_student) k c) c fs)) = outs (cn_log c) ++ fs.
Proof.
  intros Hfs Ha Hp. revert c. induction Hfs as [|f fs _ _ IH]; intros c Hh Hc Hb; cbn; [by rewrite app_nil_r|].
  assert (ephemeralTo auth f (Some r_student) k c = add_log [Out f] c) as ->.
  { unfold ephemeralTo. rewrite Hh, Ha, Hp. unfold send. by rewrite Hc, Hb. }
  rewrite IH by done. cbn. by rewrite outs_app, <- app_assoc.
Qed.
(** One of another role, or that has not said hello, gets none. *)
Lemma told_nobody fs k c : cn_hello c = false \/ (exists s p a, auth k = Delivery s p a /\ sessionRole p <> r_student) ->
  foldl (fun c f => ephemeralTo auth f (Some r_student) k c) c fs = c.
Proof.
  intros Hc. induction fs as [|f fs IH]; [done|]. cbn.
  assert (ephemeralTo auth f (Some r_student) k c = c) as ->; [|done]. unfold ephemeralTo.
  destruct Hc as [->|(s & p & a & -> & Hp)]; [done|]. rewrite bool_decide_false by done. by destruct (cn_hello c).
Qed.
End Sockets.

(** ** The listener *)

Section Listening.
Context `{Postgres} `{Environment} `{JsonParse}.
Hypothesis parse_laws : JsonParseLaws.
Hypothesis clock_valid : forall i, is_Some (clock_now i).
Variable auth : nat -> DeliveryAuthorization.

Lemma nowG_runs g : exists now g', nowG g = (Ok now, g') /\ same_tables g g'.
Proof.
  unfold nowG, ofRooms, inWorld, validNow, clockNow, mbind, M_bind. destruct (clock_valid (ticks (gv_world g))) as [t Ht].
  cbn. rewrite Ht. cbn. by do 2 eexists.
Qed.
(** Each key that is withheld is announced, with the time of its announcement. *)
Lemma announceWithheld_runs roomId keys s : Forall (fun k => k ∈ STUDENT_PROJECTIONS) keys ->
  exists fs s', announceWithheld auth roomId keys s = (Ok tt, s')
  /\ Forall2 (fun f k => exists now, f = withheldFrame now k) fs keys /\ ln_hub s' = announced auth roomId fs (ln_hub s)
  /\ same_tables (ln_governed s) (ln_governed s') /\ ln_lastRevision s' = ln_lastRevision s.
Proof.
  intros Hk. unfold announceWithheld.
  enough (exists us fs s', mapM (fun k => now ← onDatabase nowG; onHub (broadcastDegraded auth roomId (withheldFrame now k))) keys s = (Ok us, s')
    /\ Forall2 (fun f k => exists now, f = withheldFrame now k) fs keys /\ ln_hub s' = announced auth roomId fs (ln_hub s)
    /\ same_tables (ln_governed s) (ln_governed s') /\ ln_lastRevision s' = ln_lastRevision s) as (us & fs & s' & Hm & Hrest).
  { exists fs, s'. split; [|done]. by rewrite (bind_run _ _ _ us s'). }
  revert s. induction Hk as [|k keys Hk _ IH]; intros s.
  - exists [], [], s. by split_and!; try constructor.
  - cbn [mapM]. destruct (nowG_runs (ln_governed s)) as (now & g1 & Hn & Hg1).
    destruct (IH (Listener g1 (broadcastDegraded auth roomId (withheldFrame now k) (ln_hub s)) (ln_lastRevision s))) as (us & fs & s' & Hm & Hf & Hh & Hg & Hl).
    exists (tt :: us), (withheldFrame now k :: fs), s'. split_and!; [|by constructor; eauto|done|by etrans|done].
    rewrite (bind_run _ _ _ tt (Listener g1 (broadcastDegraded auth roomId (withheldFrame now k) (ln_hub s)) (ln_lastRevision s))).
    + by rewrite (bind_run _ _ _ us s').
    + rewrite (bind_run _ _ _ now (Listener g1 (ln_hub s) (ln_lastRevision s))); [done|]. unfold onDatabase. by rewrite Hn.
Qed.
Lemma currentAllowlist_runs roomId rid g : isUuid roomId = true -> uuid_in roomId = Some rid ->
  exists g', currentAllowlist roomId g = (Ok (currentKeysIn rid (db_now (txs (gv_world g))) g), g') /\ same_tables g g'.
Proof.
  intros Hu Hr. unfold currentAllowlist. rewrite Hu. unfold inTransactionG, currentKeys.
  rewrite (bind_run _ _ _ rid (set_world _ g)) by (unfold uuidG; by rewrite Hr). by eexists.
Qed.
(** A notice that is not newer is dropped. *)
Lemma applyNotice_old n payload s r : parsePolicyChangeNotice payload = Some n ->
  assoc (no_roomId n) (ln_lastRevision s) = Some r -> no_revision n <= r -> applyNotice auth payload s = (Ok tt, s).
Proof.
  intros Hn Hr Hle. unfold applyNotice. rewrite Hn, (bind_run _ _ _ (Some r) s) by (unfold gets; by rewrite Hr).
  by rewrite (proj2 (Z.leb_le _ _) Hle).
Qed.
(** A newer one has what is withheld by the table announced. *)
Lemma applyNotice_new n payload rid s : parsePolicyChangeNotice payload = Some n ->
  isUuid (no_roomId n) = true -> uuid_in (no_roomId n) = Some rid -> Forall (fun k => k ∈ STUDENT_PROJECTIONS) (no_changedKeys n) ->
  (forall r, assoc (no_roomId n) (ln_lastRevision s) = Some r -> r < no_revision n) ->
  exists now fs s', applyNotice auth payload s = (Ok tt, s')
  /\ Forall2 (fun f k => exists t, f = withheldFrame t k) fs (without (currentKeysIn rid now (ln_governed s)) (no_changedKeys n))
  /\ ln_hub s' = announced auth (no_roomId n) fs (ln_hub s) /\ same_tables (ln_governed s) (ln_governed s')
  /\ assoc (no_roomId n) (ln_lastRevision s') = Some (no_revision n).
Proof.
  intros Hn Hu Hrid Hk Hr. unfold applyNotice. rewrite Hn, (bind_run _ _ _ (assoc (no_roomId n) (ln_lastRevision s)) s) by done.
  replace (match assoc (no_roomId n) (ln_lastRevision s) with Some r => no_revision n <=? r | None => false end) with false.
  2:{ destruct (assoc _ _) as [r|]; [|done]. symmetry. apply Z.leb_gt. by apply Hr. }
  set (s1 := Listener (ln_governed s) (ln_hub s) (map_set (no_roomId n) (no_revision n) (ln_lastRevision s))).
  rewrite (bind_run _ _ _ tt s1) by done.
  destruct (currentAllowlist_runs (no_roomId n) rid (ln_governed s) Hu Hrid) as (g2 & Ha & Hg2).
  set (l := currentKeysIn rid (db_now (txs (gv_world (ln_governed s)))) (ln_governed s)) in *.
  rewrite (bind_run _ _ _ l (Listener g2 (ln_hub s) (ln_lastRevision s1))) by (unfold onDatabase; cbn [ln_governed s1]; by rewrite Ha).
  destruct (announceWithheld_runs (no_roomId n) (without l (no_changedKeys n)) (Listener g2 (ln_hub s) (ln_lastRevision s1)))
    as (fs & s' & Hrun & Hf & Hh & Hg & Hl).
  { apply Forall_forall. intros k [Hin _]%list_elem_of_In%filter_In. rewrite Forall_forall in Hk. by apply Hk, list_elem_of_In. }
  exists (db_now (txs (gv_world (ln_governed s)))), fs, s'. split_and!; [done|done|done|by etrans|].
  rewrite Hl. cbn. rewrite assoc_map_set. by rewrite decide_True.
Qed.
Lemma without_none keys : without [] keys = keys.
Proof. unfold without, select_where. induction keys as [|k l IH]; [done|]. cbn. by rewrite IH. Qed.

Lemma keysOf_NoDup l : NoDup (keysOf l).
Proof.
  unfold keysOf, select_where. apply NoDup_ListNoDup, List.NoDup_filter, NoDup_ListNoDup. apply (bool_decide_unpack _). by vm_compute.
Qed.

End Listening.

(** ** The lesson *)

(** [JSON.parse], at least as far as canonical texts go. *)
#[export] Instance canonicalParse : JsonParse := { json_parse u := match parseText u with Ok t => Some t | Err _ => None end }.
Lemma canonicalParse_laws : JsonParseLaws.
Proof.
  split. intros t b u Hw Hb Hu. cbn. pose proof (canonical_reads t b Hw Hb) as Hr. unfold parseCanonicalJson in Hr. rewrite Hu in Hr.
  by rewrite Hr.
Qed.
Definition lessonPromotion : PromotionGrant :=
  Promotion demoRoom (string_of_list_ascii (replicate 64 "a"%char)) ["echo.student_approved"]%string (Some 0) (Some 1893456000000).
Definition lessonPromoted : result failure PolicyChangeNotice * governed := grant lessonPromotion lessonGoverned.
#[local] Abbreviation lessonRevoked := (revoke demoRoom (snd lessonPromoted)).
Definition lessonReading : result failure AnalyticsGrant * governed :=
  requireRoomAccess (Some "salt"%string) (Some demoPrincipal) demoRoom cap_latest (Some demoStudentSession) (snd lessonPromoted).
Definition lessonListener : listener := Listener (snd lessonRevoked) demoHub [(demoRoom, 1)].

Lemma lessonReading_ok : fst lessonReading = Ok (MkGrant r_student ["echo.student_approved"]%string).
Proof. vm_compute. reflexivity. Qed.
Lemma lessonPromoted_ok : match fst lessonPromoted with Ok _ => true | Err _ => false end = true.
Proof. vm_compute. reflexivity. Qed.
Lemma lessonRevoked_ok :
  match fst lessonRevoked with
  | Ok n => bool_decide (no_changedKeys n = [echo_student_approved]) && (no_revision n =? 2)
  | Err _ => false
  end = true.
Proof. vm_compute. reflexivity. Qed.
Lemma lessonRevoked_notice n g' : lessonRevoked = (Ok n, g') -> no_changedKeys n = [echo_student_approved] /\ no_revision n = 2.
Proof.
  intros Hr. pose proof lessonRevoked_ok as Hok. rewrite Hr in Hok. cbn [fst] in Hok. clear Hr.
  apply andb_true_iff in Hok as [Hk Hv]. apply bool_decide_eq_true in Hk. apply Z.eqb_eq in Hv. done.
Qed.

Lemma analytics_gate_witness :
  fst lessonReading = Ok (MkGrant r_student ["echo.student_approved"]%string)
  /\ exists corr, au_reason_code (auditRow "salt" (Entry "student" "analytics.read" "allowed" "STUDENT" corr (Some demoRoom))) = "STUDENT"%string
     /\ same_tables (set_audit (gv_audit (snd lessonPromoted)
          ++ [auditRow "salt" (Entry "student" "analytics.read" "allowed" "STUDENT" corr (Some demoRoom))]) (snd lessonPromoted)) (snd lessonReading).
Proof.
  pose proof lessonReading_ok as Hok.
  split; [exact Hok|]. destruct lessonReading as [r g'] eqn:Hr. cbn [fst snd] in *. subst r. unfold lessonReading in Hr.
  destruct (analytics_gate (Some "salt"%string) (Some demoPrincipal) demoRoom cap_latest (Some demoStudentSession) (snd lessonPromoted) _ g' Hr)
    as (_ & corr & Hc). exists corr. split; [vm_compute; reflexivity|exact Hc].
Defined.
Lemma grant_shows_witness :
  exists n g' payload, grant lessonPromotion lessonGoverned = (Ok n, g') /\ payloadOf n = Some payload
    /\ currentKeysIn demoRoom 0 g' = [echo_student_approved] /\ currentKeysIn demoRoom (-1) g' = [].
Proof.
  pose proof lessonPromoted_ok as Hok. destruct lessonPromoted as [[n|e] g'] eqn:Hr; [|done]. clear Hok. unfold lessonPromoted in Hr. exists n, g'.
  destruct (grant_shows lessonPromotion lessonGoverned n g' Hr) as (s & e & rid & payload & Hp & Hrid & _ & _ & _ & Hpay & _ & _ & _ & Hk).
  exists payload. split; [exact Hr|]. split; [exact Hpay|].
  vm_compute in Hp. injection Hp as <- <-. vm_compute in Hrid. injection Hrid as <-.
  split; [exact (Hk g' 0 eq_refl)|exact (Hk g' (-1) eq_refl)].
Defined.
Lemma revocation_withholds_witness :
  exists n g', revoke demoRoom (snd lessonPromoted) = (Ok n, g') /\ no_changedKeys n = [echo_student_approved] /\ no_revision n = 2
    /\ forall now, currentKeysIn demoRoom now g' = [].
Proof.
  pose proof lessonRevoked_ok as Hok. destruct lessonRevoked as [[n|e] g'] eqn:Hr; [|done]. clear Hok.
  destruct (lessonRevoked_notice n g' Hr) as [Hk Hv]. exists n, g'.
  destruct (revocation_withholds None demoRoom (snd lessonPromoted) n g' Hr) as (rid & old & payload & Hrid & _ & _ & _ & _ & _ & _ & Hall).
  vm_compute in Hrid. injection Hrid as <-. destruct (Hall g' eq_refl) as (Hnone & _).
  exact (conj eq_refl (conj Hk (conj Hv Hnone))).
Defined.
Lemma clock_always i : is_Some (clock_now i).
Proof. by eexists. Qed.
Lemma demoHub_socket : exists c, hb_connections demoHub !! 1%nat = Some c /\ cn_hello c = true /\ cn_closed c = false
  /\ cn_bufferedAmount c = None /\ outs (cn_log c) = [] /\ 1%nat ∈ members_of demoRoom demoHub.
Proof. eexists. split; [reflexivity|]. split_and!; try done. apply (bool_decide_unpack _). vm_compute. done. Qed.
