(* ===== verification/Retention.v ===== *)
(** * Rooms whose time is over

    [apps/server/src/modules/lifecycle/retention-scheduler.ts]: the rooms whose longest-lived
    data is past the window of their policy are deleted by the jobs a teacher's deletion
    would leave behind. [overdue] says which rooms those are; [sweep_drains] that a sweep
    schedules the longest closed of them, a batch, each once, shuts them and touches no
    other room. *)
From S2P Require Import Prelude Text JsDate JsValue Contracts Database Concrete Ledger Authorization Frames Echo Trace Sessions Exports Http Routes ExportFile Governed Governance GovernanceLaws Deletion.
#[local] Set Warnings "-register-all,-clear-no-such-hyp,-level-tolerance".

Section Scheduler.
Context `{Postgres} `{Environment} `{Sha1}.
Variable auditSalt : string.
Variable batchSize : nat.

Record expired_room : Type := Expired {
  xr_room_id : string;
  xr_policy_version : string;
  xr_teacher_id : string;
}.
(** A day of the time zone of the database, which is UTC. *)
Definition DAY_MS : Z := 86400000.
(** [policy_version] and the end of the window of a room. *)
Definition termsOf (rid : string) (g : governed) : option (string * Z) :=
  p ← assoc rid (gv_room_policies g);
  assoc p (gv_terms g).
Definition isExpired (now : Z) (g : governed) (r : room_row) : bool :=
  bool_decide (rm_status r = closed)
  && match rm_closed_at r, termsOf (rm_id r) g with
     | Some t, Some (_, days) => t + days * DAY_MS <=? now
     | _, _ => false
     end
  && negb (deletionActiveIn (rm_id r) (gv_db g)).
Definition closedFirst (a b : room_row) : bool := default 0 (rm_closed_at a) <=? default 0 (rm_closed_at b).
Definition expiredOf (g : governed) (r : room_row) : expired_room :=
  Expired (rm_id r) (default ""%string (fst <$> termsOf (rm_id r) g)) (rm_teacher_id r).
(** Every room that is due, and the [#expired] of a sweep. *)
Definition due (now : Z) (g : governed) : list room_row := sort_by closedFirst (select_where (isExpired now g) (rooms (gv_db g))).
Definition expired : GV (list expired_room) :=
  now ← nowG;
  poolQuery (fun _ g => map (expiredOf g) (take batchSize (due now g))).

(** One room, in a transaction of its own: the deletion it starts, or [None] where one has
    been started in the meantime. *)
Definition serviceAudit (roomId correlationId : string) : GV unit :=
  uuidNew;;
  modify (fun g => set_audit (gv_audit g ++ [AuditRow correlationId "service" "deletion.request" "allowed" "RETENTION_EXPIRED"
    (Some (refHash auditSalt roomId))]) g).
Definition expireBody (room : expired_room) : GV (option string) :=
  let rid := xr_room_id room in
  existing ← txQuery (fun _ g => existsb (isUnfinished rid) (deletions (gv_db g)));
  if existing : bool then mret None else
    deletionJobId ← uuidNew;
    correlationId ← uuidNew;
    executeG (insertDeletion deletionJobId rid (refHash auditSalt rid) (xr_teacher_id room) (Some (xr_policy_version room)));;
    frozenAt ← nowG;
    freezeDeletionSurfaces deletionJobId rid frozenAt;;
    revokedNow ← nowG;
    updateDb (revokeSessions rid revokedNow);;
    updateDb (cancelJobs rid);;
    enqueueDeletionSurfaceJobs deletionJobId correlationId;;
    serviceAudit rid correlationId;;
    mret (Some deletionJobId).
Definition expireRoom (room : expired_room) : GV (option string) := inTransactionG (expireBody room).

Record RetentionSweepResult : Type := SweepResult { sw_scheduled : list string; sw_alreadyScheduled : Z }.
Definition sweep : GV RetentionSweepResult :=
  rows ← expired;
  started ← mapM expireRoom rows;
  mret (SweepResult (omap id started) (rowCount (select_where (fun x => bool_decide (x = None)) started))).

(** ** One room *)

(** What a step keeps: everything but deletions, manifests, sessions, jobs and the trail. *)
Record steady (g g' : governed) : Prop := {
  st_rooms : rooms (gv_db g') = rooms (gv_db g);
  st_events : events (gv_db g') = events (gv_db g);
  st_outbox : outbox (gv_db g') = outbox (gv_db g);
  st_members : members (gv_db g') = members (gv_db g);
  st_accounts : accounts (gv_db g') = accounts (gv_db g);
  st_beside : beside g g';
}.
#[local] Instance steady_trans : Transitive steady.
Proof. intros g1 g2 g3 [? ? ? ? ? []] [? ? ? ? ? []]. constructor; try constructor; congruence. Qed.
Lemma steady_tables g g' : same_tables g g' -> steady g g'.
Proof. intros (Hd & ? & ? & ? & ? & ? & ? & ? & ? & ? & ? & ?). by constructor; rewrite ?Hd. Qed.

(** A room whose deletion has begun. *)
Record retired (rid jobId : string) (g g' : governed) : Prop := {
  re_deletions : exists owner, deletions (gv_db g') = deletions (gv_db g) ++ [DeletionRow jobId (Some rid) owner d_queued];
  re_sessions : exists t, sessions (gv_db g')
    = update_where (fun s => ofRoom rid (gv_db g) s && isOpen s) (withRevoked t) (sessions (gv_db g));
  re_jobs : exists new corr, jobs (gv_db g')
      = update_where (fun j => bool_decide (jb_room_id j = Some rid) && isWaiting j) cancelledJob (jobs (gv_db g)) ++ new
    /\ Forall (fun j => exists s now, j = surfaceJob jobId corr s now) new
    /\ Forall (fun s => exists j, j ∈ jobs (gv_db g') /\ jb_dedupe_key j = surfaceKey jobId s) SURFACES;
  re_manifests : exists t, gv_manifests g'
    = gv_manifests g ++ map (fun s => ManifestRow jobId s (surfaceCount rid g s) t) SURFACES;
  re_audit : exists corr, gv_audit g'
    = gv_audit g ++ [AuditRow corr "service" "deletion.request" "allowed" "RETENTION_EXPIRED" (Some (refHash auditSalt rid))];
  re_steady : steady g g';
}.
Lemma serviceAudit_ok rid corr g u g' : serviceAudit rid corr g = (Ok u, g') ->
  exists w, db w = gv_db g /\ g' = set_audit (gv_audit g ++ [AuditRow corr "service" "deletion.request" "allowed" "RETENTION_EXPIRED"
    (Some (refHash auditSalt rid))]) (set_world w g).
Proof.
  unfold serviceAudit. intros (x & g1 & Hu & Hr)%bind_ok. apply uuidNew_ok in Hu as ((w & -> & Hw)%supply_set & _). run_ok. by exists w.
Qed.
Lemma expireBody_ok room g o g' : expireBody room g = (Ok o, g') ->
  deletionActiveIn (xr_room_id room) (gv_db g) = false -> exists jobId, o = Some jobId /\ retired (xr_room_id room) jobId g g'.
Proof.
  intros Hr Ha. unfold expireBody in Hr. apply bind_ok in Hr as (b & ? & [-> ->]%txQuery_ok & Hr).
  change (existsb (isUnfinished (xr_room_id room)) (deletions (gv_db g))) with (deletionActiveIn (xr_room_id room) (gv_db g)) in Hr.
  rewrite Ha in Hr. apply bind_ok in Hr as (jobId & g1 & Hu & Hr). exists jobId. run_gov. split; [done|].
  repeat match goal with
  | Hx : uuidNew _ = (Ok _, _) |- _ => apply uuidNew_ok in Hx as ((? & -> & ?)%supply_set & _)
  | Hx : nowG _ = (Ok _, _) |- _ => apply nowG_ok in Hx as ((? & -> & ?)%supply_set & _)
  | Hx : insertDeletion _ _ _ _ _ _ _ = Some _ |- _ => apply insertDeletion_ok in Hx as (Hfirst & Hnew & ->)
  | Hx : freezeDeletionSurfaces _ _ _ _ = (Ok _, _) |- _ => apply freeze_ok in Hx as [-> _]
  | Hx : enqueueDeletionSurfaceJobs _ _ _ = (Ok _, _) |- _ => apply enqueue_ok in Hx as (new & -> & Hmade & Hkeys)
  | Hx : serviceAudit _ _ _ = (Ok _, _) |- _ => apply serviceAudit_ok in Hx as (? & ? & ->)
  end.
  destruct g as [w]. unfold gv_db in *. cbn in *.
  constructor; [..|constructor]; unfold gv_db; cbn; repeat match goal with Hd : db ?x = _ |- _ => is_var x; try rewrite Hd in *; clear Hd end;
    cbn in *; eauto 10. by constructor.
Qed.
Lemma retired_tables rid jobId g g0 g' : same_tables g g0 -> retired rid jobId g0 g' -> retired rid jobId g g'.
Proof.
  intros Hs [Hd Hss Hj (now & Hm) Ha Hst]. pose proof Hs as (Hdb & _ & Hmf & _ & Hau & _ & Hpm & Har & Hct & _ & _ & Hag).
  rewrite Hdb in Hd, Hss, Hj. rewrite Hmf in Hm. rewrite Hau in Ha. constructor; try done; [|etrans; [by apply steady_tables|done]].
  exists now. rewrite Hm. f_equal. apply map_ext. intros s. f_equal. unfold surfaceCount. by rewrite Hdb, Hct, Har, Hpm, Hag.
Qed.
Lemma expireRoom_ok room g o g' : expireRoom room g = (Ok o, g') -> deletionActiveIn (xr_room_id room) (gv_db g) = false ->
  exists jobId, o = Some jobId /\ retired (xr_room_id room) jobId g g'.
Proof.
  intros (g0 & Hs & _ & Hr)%inTransactionG_ok Ha. destruct (expireBody_ok room g0 o g' Hr) as (jobId & -> & Hre).
  - by rewrite (proj1 Hs).
  - exists jobId. split; [done|]. by eapply retired_tables.
Qed.

(** What a deletion that has begun means for its room and the others. *)
Lemma retired_active rid jobId g g' r : retired rid jobId g g' ->
  deletionActiveIn r (gv_db g') = deletionActiveIn r (gv_db g) || bool_decide (r = rid).
Proof.
  intros [(owner & Hd) _ _ _ _ _]. unfold deletionActiveIn. rewrite Hd, existsb_app. f_equal. cbn.
  rewrite orb_false_r, andb_true_r. apply bool_decide_ext. naive_solver.
Qed.
Lemma retired_ofRoom rid jobId g g' r s : retired rid jobId g g' -> ofRoom r (gv_db g') s = ofRoom r (gv_db g) s.
Proof. intros [_ _ _ _ _ [_ _ _ Hm _ _]]. unfold ofRoom. by rewrite Hm. Qed.

(** *** Loops *)

(** The rooms of a list are shut, one deletion each; the others are as they were. *)
Record swept (l : list string) (ids : list string) (g g' : governed) : Prop := {
  sp_steady : steady g g';
  sp_deletions : exists new, deletions (gv_db g') = deletions (gv_db g) ++ new
    /\ Forall3 (fun rid jobId x => exists owner, x = DeletionRow jobId (Some rid) owner d_queued) l ids new;
  sp_sessions : forall s, s ∈ sessions (gv_db g') ->
    ss_revoked_at s <> None \/ (s ∈ sessions (gv_db g) /\ forall r, r ∈ l -> ofRoom r (gv_db g) s = false);
  sp_jobs : forall j, j ∈ jobs (gv_db g') ->
    isWaiting j = false \/ jb_room_id j = None \/ (j ∈ jobs (gv_db g) /\ forall r, r ∈ l -> jb_room_id j <> Some r);
  sp_keys : forall j, j ∈ jobs (gv_db g) -> exists j', j' ∈ jobs (gv_db g') /\ jb_dedupe_key j' = jb_dedupe_key j;
  sp_surfaces : Forall (fun jobId => Forall (fun s => exists j, j ∈ jobs (gv_db g') /\ jb_dedupe_key j = surfaceKey jobId s) SURFACES) ids;
  sp_other_sessions : forall s, s ∈ sessions (gv_db g) -> (forall r, r ∈ l -> ofRoom r (gv_db g) s = false) -> s ∈ sessions (gv_db g');
  sp_other_jobs : forall j, j ∈ jobs (gv_db g) -> (forall r, r ∈ l -> jb_room_id j <> Some r) -> j ∈ jobs (gv_db g');
}.
Lemma swept_nil g : swept [] [] g g.
Proof.
  constructor; try done; [exists []; rewrite app_nil_r; split; [done|apply Forall3_nil]| | |by eauto].
  - intros s Hs. right. split; [done|]. intros r Hr%elem_of_nil. done.
  - intros j Hj. do 2 right. split; [done|]. intros r Hr%elem_of_nil. done.
Qed.
Lemma swept_cons rid jobId l ids g g1 g' : retired rid jobId g g1 -> swept l ids g1 g' -> swept (rid :: l) (jobId :: ids) g g'.
Proof.
  intros Hre [Hst (new & Hd & Hnew) Hss Hjj Hkk Hsurf Hos Hoj].
  pose proof (fun r s => retired_ofRoom rid jobId g g1 r s Hre) as Hof.
  destruct Hre as [(owner & Hd1) (t & Hs1) (made & corr & Hj1 & Hmade & Hkeys) _ _ Hst1]. constructor.
  - by etrans.
  - exists (DeletionRow jobId (Some rid) owner d_queued :: new). rewrite Hd, Hd1, <- app_assoc. split; [done|]. constructor; eauto.
  - intros s Hs. destruct (Hss s Hs) as [Hr|[Hin Hl]]; [by left|]. rewrite Hs1 in Hin. apply update_where_elem in Hin as (x & Hx & ->).
    destruct (ofRoom rid (gv_db g) x) eqn:Hox; cbn [andb] in *.
    + left. unfold isOpen. by case_bool_decide.
    + right. split; [done|]. intros r [->|Hr]%elem_of_cons; [done|]. rewrite <- Hof. by apply Hl.
  - intros j Hj. destruct (Hjj j Hj) as [Hw|[Hn|[Hin Hl]]]; [by left|by right; left|]. rewrite Hj1 in Hin. apply elem_of_app in Hin as [Hin|Hin].
    + apply update_where_elem in Hin as (x & Hx & ->). case_bool_decide as Hid; cbn [andb] in *.
      * left. by destruct (isWaiting x) eqn:Hw.
      * do 2 right. split; [done|]. intros r [->|Hr]%elem_of_cons; [done|by apply Hl].
    + rewrite Forall_forall in Hmade. destruct (Hmade j Hin) as (s & now & ->). by right; left.
  - intros j Hj. assert (exists j1, j1 ∈ jobs (gv_db g1) /\ jb_dedupe_key j1 = jb_dedupe_key j) as (j1 & Hj1' & <-); [|by apply Hkk].
    rewrite Hj1. eexists. split; [apply elem_of_app; left; apply list_elem_of_fmap; by exists j|]. by destruct (_ && _).
  - constructor; [|done]. eapply Forall_impl; [exact Hkeys|]. cbn. intros s (j & Hj & <-). by apply Hkk.
  - intros s Hs Hl. apply Hos; [|intros r Hr; rewrite Hof; apply Hl; by right]. rewrite Hs1. apply update_where_keeps; [done|].
    rewrite (Hl rid); [done|by left].
  - intros j Hj Hl. apply Hoj; [|intros r Hr; apply Hl; by right]. rewrite Hj1. apply elem_of_app. left. apply update_where_keeps; [done|].
    rewrite bool_decide_false; [done|]. apply Hl. by left.
Qed.
Lemma swept_active l ids g g' r : swept l ids g g' ->
  deletionActiveIn r (gv_db g') = deletionActiveIn r (gv_db g) || bool_decide (r ∈ l).
Proof.
  intros [_ (new & Hd & Hnew) _ _ _ _ _ _]. unfold deletionActiveIn. rewrite Hd, existsb_app. f_equal. clear Hd.
  induction Hnew as [|rid jobId x l ids new (owner & ->) _ IH]; [done|]. cbn [existsb]. rewrite IH. cbn. rewrite andb_true_r.
  rewrite <- bool_decide_or. apply bool_decide_ext. rewrite elem_of_cons. naive_solver.
Qed.
Lemma mapM_expire rows g outs g' : mapM expireRoom rows g = (Ok outs, g') ->
  NoDup (map xr_room_id rows) -> Forall (fun x => deletionActiveIn (xr_room_id x) (gv_db g) = false) rows ->
  exists ids, outs = map Some ids /\ swept (map xr_room_id rows) ids g g'.
Proof.
  revert g outs g'. induction rows as [|x rows IH]; intros g outs g' Hr Hn Ha.
  - cbn in Hr. run_ok. exists []. split; [done|apply swept_nil].
  - apply mapM_cons_ok in Hr as (o & g1 & os & Hx & Hr & ->). cbn in Hn. apply NoDup_cons in Hn as [Hnx Hn]. apply Forall_cons in Ha as [Hax Ha].
    apply expireRoom_ok in Hx as (jobId & -> & Hre); [|done]. apply IH in Hr as (ids & -> & Hsw); [|done|].
    + exists (jobId :: ids). split; [done|]. by eapply swept_cons.
    + apply Forall_forall. intros y Hy. rewrite (retired_active _ _ _ _ _ Hre). rewrite Forall_forall in Ha. rewrite Ha by done.
      apply bool_decide_eq_false. intros He. destruct Hnx. rewrite <- He. by apply list_elem_of_fmap_2.
Qed.

(** ** A sweep *)

Lemma steady_terms g g' r : steady g g' -> termsOf r g' = termsOf r g.
Proof. intros [_ _ _ _ _ Hb]. unfold termsOf. by rewrite (bs_room_policies _ _ Hb), (bs_terms _ _ Hb). Qed.
Lemma due_elem now g r : r ∈ due now g <-> r ∈ rooms (gv_db g) /\ isExpired now g r = true.
Proof. unfold due. rewrite sort_by_perm. unfold select_where. by rewrite !list_elem_of_In, filter_In. Qed.
Lemma due_after l ids now g g' r : swept l ids g g' -> r ∈ due now g' <-> r ∈ due now g /\ rm_id r ∉ l.
Proof.
  intros Hs. rewrite !due_elem. pose proof (swept_active l ids g g' (rm_id r) Hs) as Ha. destruct Hs as [Hst _ _ _ _ _ _ _].
  rewrite (st_rooms _ _ Hst). unfold isExpired. rewrite (steady_terms _ _ _ Hst), Ha, negb_orb, !andb_true_iff.
  rewrite (negb_true_iff (bool_decide (rm_id r ∈ l))), bool_decide_eq_false. tauto.
Qed.
Lemma due_NoDup now g : NoDup (map rm_id (rooms (gv_db g))) -> NoDup (map rm_id (due now g)).
Proof.
  unfold due. intros Hn. rewrite (Permutation_map rm_id (sort_by_perm _ _)). unfold select_where. revert Hn.
  generalize (isExpired now g). generalize (rooms (gv_db g)). intros l p Hn.
  assert (sublist (map rm_id (List.filter p l)) (map rm_id l)) as Hsub.
  { clear Hn. induction l as [|x l IH]; [done|]. cbn. destruct (p x); [by apply sublist_skip|by apply sublist_cons]. }
  by eapply sublist_NoDup.
Qed.
Lemma swept_tables l ids g g1 g' : same_tables g g1 -> swept l ids g1 g' -> swept l ids g g'.
Proof.
  intros Hs [Hst Hd Hss Hjj Hkk Hsurf Hos Hoj]. pose proof (proj1 Hs) as Hdb. rewrite Hdb in *. constructor; try done.
  etrans; [by apply steady_tables|done].
Qed.
(** A room that is overdue: it is closed, the days its policy keeps it have passed since it
    closed, and no deletion of it is under way or dead. *)
Record overdue (now : Z) (g : governed) (r : room_row) : Prop := {
  ov_room : r ∈ rooms (gv_db g);
  ov_closed : rm_status r = closed;
  ov_window : exists t policy version days, rm_closed_at r = Some t /\ assoc (rm_id r) (gv_room_policies g) = Some policy
    /\ assoc policy (gv_terms g) = Some (version, days) /\ t + days * 86400000 <= now;
  ov_kept : forall x, x ∈ deletions (gv_db g) -> dl_room_id x = Some (rm_id r) -> dl_status x = d_completed;
}.
Definition closingTime (r : room_row) : Z := default 0 (rm_closed_at r).
Lemma no_deletion rid d : deletionActiveIn rid d = false <-> forall x, x ∈ deletions d -> dl_room_id x = Some rid -> dl_status x = d_completed.
Proof.
  unfold deletionActiveIn, activeDeletion. split.
  - intros Hn x Hx Hr. destruct (decide (dl_status x = d_completed)) as [|Hne]; [done|]. rewrite <- not_true_iff_false in Hn. destruct Hn.
    apply existsb_exists. exists x. rewrite <- list_elem_of_In. split; [done|]. rewrite !bool_decide_true; [done| |done].
    destruct (dl_status x); try done; apply (bool_decide_unpack _); vm_compute; exact I.
  - intros Hall. apply not_true_iff_false. intros (x & Hx%list_elem_of_In & Hd)%existsb_exists. split_bools.
    rewrite (Hall x) in * by done. match goal with Hin : d_completed ∈ _ |- _ => revert Hin end. apply (bool_decide_unpack _). vm_compute. exact I.
Qed.
Lemma overdue_due now g r : overdue now g r <-> r ∈ due now g.
Proof.
  rewrite due_elem. unfold isExpired, termsOf. rewrite !andb_true_iff, negb_true_iff, bool_decide_eq_true, no_deletion. split.
  - intros [Hr Hc (t & p & v & days & Ht & Hp & Hv & Hw) Hk]. rewrite Ht, Hp. cbn. rewrite Hv. split_and!; try done. by apply Z.leb_le.
  - intros (Hr & (Hc & Hw) & Hk). constructor; try done. destruct (rm_closed_at r) as [t|]; [|done].
    destruct (assoc (rm_id r) _) as [p|]; [|done]. cbn in Hw. destruct (assoc p _) as [[v days]|] eqn:Hv; [|done].
    exists t, p, v, days. split_and!; try done. by apply Z.leb_le.
Qed.
Lemma due_first now g : NoDup (map rm_id (rooms (gv_db g))) -> first_by closingTime batchSize (overdue now g) (take batchSize (due now g)).
Proof.
  intros Hn. apply first_by_take; [by apply (NoDup_fmap_1 rm_id), due_NoDup|apply (sort_by_number closingTime)|apply overdue_due].
Qed.

(** C21. A sweep takes the rooms that are overdue, the longest closed first and no more than
    a batch: closed rooms whose policy's window has run out at the time of the clock and
    that have no deletion but completed ones; if fewer than a batch are taken, none is left.
    Each gets one deletion with a job for every surface, its sessions are revoked and its
    waiting jobs cancelled; no room is changed, no event is lost, and the sessions and jobs
    of every other room stay. What was overdue and was not taken is overdue still, so that
    sweeps drain the backlog batch by batch, and a room is never scheduled twice. *)
Theorem sweep_drains g res g' : sweep g = (Ok res, g') -> NoDup (map rm_id (rooms (gv_db g))) ->
  exists now taken, clock_now (ticks (gv_world g)) = Some now
     /\ first_by closingTime batchSize (overdue now g) taken
     /\ length (sw_scheduled res) = length taken /\ sw_alreadyScheduled res = 0
     /\ swept (map rm_id taken) (sw_scheduled res) g g'
     /\ (forall later r, overdue later g' r <-> overdue later g r /\ rm_id r ∉ map rm_id taken).
Proof.
  intros Hr Hn. unfold sweep in Hr. apply bind_ok in Hr as (rows & g1 & Hx & Hr). unfold expired in Hx.
  apply bind_ok in Hx as (now & g0 & Hnow & Hx). apply poolQuery_ok in Hx as [-> Hg1].
  assert (clock_now (ticks (gv_world g)) = Some now /\ same_tables g g0) as [Hc Hg0].
  { pose proof (nowG_ok _ _ _ Hnow) as [Hst _]. split; [|done]. unfold nowG, ofRooms, inWorld in Hnow.
    destruct (validNow (gv_world g)) as [[z|e] w] eqn:Ev; [|done]. injection Hnow as -> _. by apply validNow_ok in Ev as [? _]. }
  assert (due now g0 = due now g) as Hdue.
  { unfold due, isExpired, termsOf. destruct Hg0 as (-> & _ & _ & _ & _ & -> & _ & _ & _ & _ & -> & _). done. }
  apply bind_ok in Hr as (outs & g2 & Hm & Hr). run_ok. rewrite Hdue in Hm.
  pose proof (due_first now g Hn) as Hfirst. set (taken := take batchSize (due now g)) in *. exists now, taken. split; [done|]. split; [done|].
  assert (map xr_room_id (map (expiredOf g0) taken) = map rm_id taken) as Hids by (rewrite map_map; done).
  assert (same_tables g g1) as Hs1 by by etrans.
  apply mapM_expire in Hm as (ids & -> & Hsw).
  - rewrite Hids in Hsw. cbn [sw_scheduled sw_alreadyScheduled].
    assert (omap id (map Some ids) = ids) as -> by (clear; induction ids as [|i l IH]; [done|]; cbn; by rewrite IH).
    assert (select_where (fun x => bool_decide (x = None)) (map Some ids) = []) as -> by (clear; by induction ids).
    assert (swept (map rm_id taken) ids g g') as Hsw' by (eapply swept_tables; done).
    split_and!; [|done|done|].
    + destruct (sp_deletions _ _ _ _ Hsw') as (new & _ & Hf). by rewrite <- (length_map rm_id taken), (Forall3_length_lm _ _ _ _ Hf).
    + intros later r. rewrite !overdue_due. by eapply due_after.
  - rewrite Hids. unfold taken. rewrite <- firstn_map. apply (sublist_NoDup _ (map rm_id (due now g))); [by apply due_NoDup|apply sublist_take].
  - apply Forall_map, Forall_forall. intros r Hr. cbn. apply (fb_each _ _ _ _ Hfirst) in Hr. rewrite (proj1 Hs1). by apply no_deletion, Hr.
Qed.
End Scheduler.

(** ** The lesson, a long time ago *)

Definition lessonOver : governed :=
  let g := set_gv_db (closeRoom demoRoom 0 (gv_db lessonGoverned)) lessonGoverned in
  Governed (gv_world g) (gv_details g) (gv_manifests g) (gv_receipts g) (gv_audit g) (gv_room_policies g) (gv_promotions g)
    (gv_artifacts g) (gv_counts g) (gv_notices g) [("policy", ("pilot-default-v1", 30))]%string (gv_agents g).
Lemma lessonOver_ok :
  match fst (sweep "salt" 20 lessonOver) with Ok res => (length (sw_scheduled res) =? 1)%nat | Err _ => false end = true
  /\ (length (due 1704067208000 lessonOver) =? 1)%nat = true /\ deletionActiveIn demoRoom (gv_db lessonOver) = false.
Proof. split; [|split]; vm_compute; reflexivity. Qed.
Lemma lessonOver_rooms : NoDup (map rm_id (rooms (gv_db lessonOver))).
Proof. apply (bool_decide_unpack _). vm_compute. reflexivity. Qed.
Lemma lessonOver_overdue : map rm_id (due 1704067208000 lessonOver) = [demoRoom].
Proof. vm_compute. reflexivity. Qed.
Lemma sweep_drains_witness :
  exists res g', sweep "salt" 20 lessonOver = (Ok res, g') /\ length (sw_scheduled res) = 1%nat
    /\ (exists r, overdue 1704067208000 lessonOver r /\ rm_id r = demoRoom) /\ forall r, ~ overdue 1704067208000 g' r.
Proof.
  destruct lessonOver_ok as (Hok & _ & _). pose proof lessonOver_overdue as Hdue.
  destruct (sweep "salt" 20 lessonOver) as [[res|e] g'] eqn:Hr; [|exfalso; exact (Bool.diff_false_true Hok)]. exists res, g'.
  cbn [fst] in Hok. apply Nat.eqb_eq in Hok.
  destruct (sweep_drains "salt" 20 lessonOver res g' Hr lessonOver_rooms) as (now & taken & Hc & Hf & Hlen & _ & _ & Hrest).
  assert (now = 1704067208000) as -> by (vm_compute in Hc; injection Hc as <-; reflexivity).
  split; [exact eq_refl|]. split; [exact Hok|]. split.
  - destruct (due 1704067208000 lessonOver) as [|r [|]] eqn:Hd; try discriminate Hdue. exists r. injection Hdue as Hid.
    split; [|exact Hid]. apply overdue_due. rewrite Hd. left.
  - intros r Hov. apply Hrest in Hov as [Hov Hno]. apply Hno. apply list_elem_of_fmap_2.
    destruct (fb_full _ _ _ _ Hf) as [Hfull|Hall]; [|exact (Hall r Hov)]. rewrite Hok in Hlen. rewrite <- Hlen in Hfull. discriminate Hfull.
Defined.
