(* ===== verification/Agents.v ===== *)
(** * Runs of the agent: [apps/server/src/modules/agent]

    [agent-repository.ts], which creates, cancels and tells the runs of the agent in a room,
    [agent-service.ts], which lets people at it, [provider-health-repository.ts] and
    [agent-run-reconciler.ts], which ends the runs that cannot end by themselves. The locks
    of rows do not show in transactions that run one after the other; the constraints they
    back do. *)
From S2P Require Import Prelude Text JsDate JsValue Contracts Database Concrete JsMap Ledger Authorization Frames Echo Trace Exports Http Routes ExportFile Governed Governance.
#[local] Set Warnings "-register-all,-clear-no-such-hyp,-level-tolerance".

(** ** Statements *)

Definition isActiveState (s : AgentState) : bool := bool_decide (s ∈ [a_queued; a_running; a_streaming]).
Definition withRuns (l : list run_row) (x : agent_tables) : agent_tables :=
  AgentTables (ax_enabled x) l (ax_transitions x) (ax_controls x) (ax_health x) (ax_cancel_requests x).
Definition withTransitions (l : list transition_row) (x : agent_tables) : agent_tables :=
  AgentTables (ax_enabled x) (ax_runs x) l (ax_controls x) (ax_health x) (ax_cancel_requests x).
Definition withControls (l : list control_row) (x : agent_tables) : agent_tables :=
  AgentTables (ax_enabled x) (ax_runs x) (ax_transitions x) l (ax_health x) (ax_cancel_requests x).
Definition withEnabled (l : list (string * bool)) (x : agent_tables) : agent_tables :=
  AgentTables l (ax_runs x) (ax_transitions x) (ax_controls x) (ax_health x) (ax_cancel_requests x).
Definition withCancelRequests (l : list (string * Z)) (x : agent_tables) : agent_tables :=
  AgentTables (ax_enabled x) (ax_runs x) (ax_transitions x) (ax_controls x) (ax_health x) l.
Definition onAgents (f : agent_tables -> agent_tables) (g : governed) : governed := set_agents (f (gv_agents g)) g.
Definition agentUpdate (f : agent_tables -> agent_tables) : GV unit := modify (onAgents f).
(** [classroom_room.agent_enabled], true by default. *)
Definition agentEnabled (rid : string) (g : governed) : bool := default true (assoc rid (ax_enabled (gv_agents g))).
Definition roomOf (rid : string) (g : governed) : option room_row := find (fun r => bool_decide (rm_id r = rid)) (rooms (gv_db g)).
Definition runsOf (rid : string) (g : governed) : list run_row := select_where (fun r => bool_decide (rn_room_id r = rid)) (ax_runs (gv_agents g)).
Definition activeRuns (rid : string) (g : governed) : list run_row := select_where (fun r => isActiveState (rn_state r)) (runsOf rid g).
(** The violations of the two unique indexes, as the driver names them. *)
Definition TRIGGER_TAKEN : failure := plain "one_agent_run_per_trigger".
Definition ROOM_BUSY : failure := plain "one_active_agent_run_per_room".
Definition sameTrigger (a b : run_row) : bool :=
  bool_decide (rn_room_id a = rn_room_id b) && bool_decide (rn_trigger_event_id a = rn_trigger_event_id b).
(** The other constraints of [agent_run]. *)
Definition shortText (s : string) : bool := (1 <=? codePoints s) && (codePoints s <=? 128).
Definition runAccepted (r : run_row) (g : governed) : bool :=
  negb (existsb (fun x => bool_decide (rn_id x = rn_id r)) (ax_runs (gv_agents g)))
  && (1 <=? rn_from_seq r) && (rn_from_seq r <=? rn_through_seq r)
  && forallb shortText [rn_model_provider r; rn_model_id r; rn_prompt_version r; rn_policy_version r]
  && xorb (bool_decide (is_Some (rn_teacher_id r))) (bool_decide (is_Some (rn_member_id r)))
  && existsb (fun e => bool_decide (ev_event_id e = rn_trigger_event_id r)) (events (gv_db g)).
Definition insertRun (r : run_row) : GV unit := fun g =>
  if negb (runAccepted r g) then (Err QUERY_FAILED, g)
  else if existsb (fun x => sameTrigger x r) (ax_runs (gv_agents g)) then (Err TRIGGER_TAKEN, g)
  else if isActiveState (rn_state r) && negb (bool_decide (activeRuns (rn_room_id r) g = [])) then (Err ROOM_BUSY, g)
  else (Ok tt, onAgents (fun x => withRuns (ax_runs x ++ [r]) x) g).
(** [INSERT INTO agent_run_transition ... ON CONFLICT (causation_id) DO NOTHING], and the
    same for controls. *)
Definition addTransition (t : transition_row) (x : agent_tables) : agent_tables :=
  if existsb (fun y => bool_decide (ts_causation_id y = ts_causation_id t)) (ax_transitions x) then x
  else withTransitions (ax_transitions x ++ [t]) x.
Definition addControl (c : control_row) (x : agent_tables) : agent_tables :=
  if existsb (fun y => bool_decide (ct_causation_id y = ct_causation_id c)) (ax_controls x) then x
  else withControls (ax_controls x ++ [c]) x.
Definition movedRun (s : AgentState) (failureCode : option string) (now : Z) (r : run_row) : run_row :=
  RunRow (rn_id r) (rn_room_id r) s (rn_trigger_event_id r) (rn_teacher_id r) (rn_member_id r) (rn_from_seq r) (rn_through_seq r)
    (rn_correlation_id r) (rn_model_provider r) (rn_model_id r) (rn_prompt_version r) (rn_policy_version r) failureCode (rn_created_at r) now.
Definition isRun (id : string) (r : run_row) : bool := bool_decide (rn_id r = id).
Definition moveRun (id : string) (s : AgentState) (failureCode : option string) (now : Z) (x : agent_tables) : agent_tables :=
  withRuns (update_where (isRun id) (movedRun s failureCode now) (ax_runs x)) x.

Definition hexNibble (c : ascii) : Z := if is_digit c then char_digit c else code c - 87.

Section Repository.
Context `{Schemas} `{Postgres} `{Environment}.

(** [clock.now()] as a parameter of a statement: an invalid date is refused by the database. *)
Definition clockParam : GV Z :=
  t ← ofRooms clockNow;
  match t with Some z => mret z | None => throw QUERY_FAILED end.

(** [asRun]: the row as [agent-run.schema.json] has it. *)
Definition runValid (r : run_row) : bool :=
  format_uuid (rn_id r) && format_uuid (rn_room_id r) && format_uuid (rn_trigger_event_id r)
  && match rn_teacher_id r, rn_member_id r with Some t, _ => format_uuid t | None, Some m => format_uuid m | None, None => false end
  && (1 <=? rn_from_seq r) && (1 <=? rn_through_seq r)
  && forallb shortText [rn_model_provider r; rn_model_id r; rn_prompt_version r; rn_policy_version r]
  && match rn_failure_code r with Some c => codePoints c <=? 100 | None => true end
  && negb (bool_decide (rn_state r = a_idle))
  && format_date_time (toISOString (rn_created_at r)) && format_date_time (toISOString (rn_updated_at r)).
Definition asRun (r : run_row) : GV run_row := if runValid r then mret r else throw (plain "INVALID_AGENT_RUN").

Record AgentRunOwner : Type := Owner {
  ow_role : Role;
  ow_teacher_id : option string;
  ow_member_id : option string;
  ow_actor_id : string;
}.
Definition assertNotDeleting (rid : string) : GV unit :=
  deleting ← txQuery (fun _ g => deletionActiveIn rid (gv_db g));
  throw_if deleting (plain "ROOM_DELETION_IN_PROGRESS").
(** The identifiers of an owner, as statements take them. *)
Definition uuidOption (s : option string) : GV (option string) :=
  match s with Some t => u ← uuidG t; mret (Some u) | None => mret None end.
Definition castOwner (owner : AgentRunOwner) : GV AgentRunOwner :=
  t ← uuidOption (ow_teacher_id owner);
  m ← uuidOption (ow_member_id owner);
  a ← uuidG (ow_actor_id owner);
  mret (Owner (ow_role owner) t m a).
(** [requireActiveSession]: exactly one pair of rows. *)
Definition requireActiveSession (rid : string) (owner : AgentRunOwner) (sessionId : option string) : GV unit :=
  match sessionId with
  | None | Some EmptyString => mret tt
  | Some s =>
      throw_if (negb (isUuid s)) (plain "ROOM_NOT_FOUND");;
      sid ← uuidG s;
      owner ← castOwner owner;
      count ← match ow_role owner with
        | r_teacher => txQuery (fun now g => rowCount (concat (map (fun x =>
            select_where (fun r => bool_decide (rm_id r = rid) && bool_decide (Some (rm_teacher_id r) = ss_teacher_id x)) (rooms (gv_db g)))
            (select_where (fun x => bool_decide (ss_id x = sid) && bool_decide (ss_teacher_id x = ow_teacher_id owner)
               && bool_decide (ss_kind x = teacher_principal) && liveSession now x) (sessions (gv_db g))))))
        | r_student => txQuery (fun now g => rowCount (concat (map (fun x =>
            select_where (fun m => bool_decide (ss_room_member_id x = Some (mb_id m)) && bool_decide (mb_room_id m = rid)
               && bool_decide (Some (mb_id m) = ow_member_id owner) && bool_decide (mb_actor_id m = ow_actor_id owner)) (members (gv_db g)))
            (select_where (fun x => bool_decide (ss_id x = sid) && bool_decide (ss_kind x = student_principal) && liveSession now x)
               (sessions (gv_db g))))))
        end;
      throw_if (negb (count =? 1)) (plain "ROOM_NOT_FOUND")
  end.

(** *** Creation *)

Definition executeKey (agentRunId : string) : string := ("agent.execute.v1:" ++ agentRunId)%string.
Definition AGENT_EXECUTE : string := "agent.execute.v1".
Definition MESSAGE_TYPES : list string := ["message.added"; "message.revised"; "message.retracted"]%string.
Definition messageOrder (a b : event_row) : bool :=
  (ev_revision b <? ev_revision a) || ((ev_revision a =? ev_revision b) && (ev_room_seq b <=? ev_room_seq a)).
(** The newest event of a message. *)
Definition latestOfMessage (rid messageId : string) (g : governed) : option event_row :=
  head (sort_by messageOrder (select_where (fun e => bool_decide (ev_room_id e = rid) && bool_decide (ev_type e ∈ MESSAGE_TYPES)
    && bool_decide (textIn "messageId" (ev_payload e) = Some messageId)) (events (gv_db g)))).
Definition mentionsOf (e : event_row) : list json := match field "mentions" (ev_payload e) with Some (JArr l) => l | _ => [] end.
(** The message a trigger is about, if it can be one. *)
Definition triggerMessage (e : event_row) : result failure string :=
  if bool_decide (ev_actor_kind e = agent) then Err (plain "AGENT_CANNOT_TRIGGER_AGENT") else
  match textIn "messageId" (ev_payload e) with
  | Some m =>
      if bool_decide (ev_type e ∈ ["message.added"; "message.revised"]%string) && negb (bool_decide (ev_operation e = retract)) && isUuid m
      then Ok m else Err (plain "TRIGGER_EVENT_NOT_ACTIVE")
  | None => Err (plain "TRIGGER_EVENT_NOT_ACTIVE")
  end.
Definition newRun (agentRunId rid triggerEventId : string) (owner : AgentRunOwner) (seq : Z) (correlationId : string) (now : Z) : run_row :=
  RunRow agentRunId rid a_queued triggerEventId (ow_teacher_id owner) (ow_member_id owner) 1 seq correlationId "fixture"
    "fixture-socratic-v1" "socratic-facilitator-v1" "socratic-policy-v1" None now now.
Definition insertExecution (agentRunId rid triggerEventId correlationId : string) (now : Z) : GV unit :=
  jobId ← uuidNew;
  executeG (fun txNow g =>
    d ← insertJob jobId AGENT_EXECUTE rid triggerEventId (executeKey agentRunId) correlationId
          (JObj [("agentRunId"%string, JStr agentRunId)]) now None None txNow (gv_db g);
    Some (set_gv_db d g)).
(** Of a room that is locked and a trigger that has no run. *)
Definition createRun (rid trigger : string) (room : room_row) (owner : AgentRunOwner) (beforeCreate : GV unit) : GV (run_row * bool) :=
  throw_if (negb (bool_decide (rm_status room = open))) (plain "ROOM_NOT_OPEN");;
  enabled ← txQuery (fun _ => agentEnabled rid);
  throw_if (negb enabled) (plain "AGENT_DISABLED");;
  event ← txQuery (fun _ g => select_where (fun e => bool_decide (ev_room_id e = rid) && bool_decide (ev_event_id e = trigger)) (events (gv_db g)));
  match event with
  | [e] =>
      messageId ← lift_result (triggerMessage e);
      latest ← txQuery (fun _ => latestOfMessage rid messageId);
      match latest with
      | None => throw (plain "TRIGGER_EVENT_NOT_ACTIVE")
      | Some latestRow =>
          throw_if (bool_decide (ev_operation latestRow = retract)) (plain "TRIGGER_EVENT_NOT_ACTIVE");;
          throw_if (negb (bool_decide (ow_role owner = r_teacher)) && negb (bool_decide (JStr (rm_nova_actor_id room) ∈ mentionsOf latestRow)))
            (plain "EXPLICIT_TRIGGER_REQUIRED");;
          active ← txQuery (fun _ => activeRuns rid);
          throw_if (negb (bool_decide (active = []))) (plain "AGENT_RUN_ALREADY_ACTIVE");;
          beforeCreate;;
          agentRunId ← uuidNew;
          now ← clockParam;
          owner ← castOwner owner;
          insertRun (newRun agentRunId rid trigger owner (ev_room_seq latestRow) (ev_correlation_id e) now);;
          insertExecution agentRunId rid trigger (ev_correlation_id e) now;;
          transitionId ← uuidNew;
          agentUpdate (addTransition (TransitionRow transitionId agentRunId None a_queued "TRIGGERED" trigger now));;
          created ← txQuery (fun _ g => find (isRun agentRunId) (ax_runs (gv_agents g)));
          match created with
          | None => throw (plain "Cannot read properties of undefined")
          | Some r => run ← asRun r; mret (run, true)
          end
      end
  | _ => throw (plain "TRIGGER_EVENT_NOT_FOUND")
  end.
Definition createBody (roomId triggerEventId : string) (owner : AgentRunOwner) (sessionId : option string) (beforeCreate : GV unit) : GV (run_row * bool) :=
  rid ← uuidG roomId;
  assertNotDeleting rid;;
  room ← txQuery (fun _ => roomOf rid);
  match room with
  | None => throw (plain "ROOM_NOT_FOUND")
  | Some room =>
      requireActiveSession rid owner sessionId;;
      trigger ← uuidG triggerEventId;
      existing ← txQuery (fun _ g => select_where (fun r => bool_decide (rn_trigger_event_id r = trigger)) (runsOf rid g));
      match existing with
      | [r] => run ← asRun r; mret (run, false)
      | _ => createRun rid trigger room owner beforeCreate
      end
  end.
(** [getOrCreateRunAndJob]: a run of the same trigger that was there first is looked for
    once more. *)
Fixpoint getOrCreateRunAndJob (retries : nat) (roomId triggerEventId : string) (owner : AgentRunOwner) (sessionId : option string)
    (beforeCreate : GV unit) : GV (run_row * bool) :=
  try_catch (inTransactionG (createBody roomId triggerEventId owner sessionId beforeCreate)) (fun e =>
    match retries with
    | S n =>
        if bool_decide (e = TRIGGER_TAKEN) then getOrCreateRunAndJob n roomId triggerEventId owner sessionId beforeCreate
        else if bool_decide (e = ROOM_BUSY) then throw (plain "AGENT_RUN_ALREADY_ACTIVE") else throw e
    | O => if bool_decide (e = ROOM_BUSY) then throw (plain "AGENT_RUN_ALREADY_ACTIVE") else throw e
    end).
Definition RETRIES : nat := 1.

(** *** What there is *)

Definition isoNow : GV string :=
  t ← ofRooms clockNow;
  match t with Some z => mret (toISOString z) | None => throw (plain "Invalid time value") end.
Definition newestRun (rid : string) (g : governed) : option run_row :=
  head (sort_by (fun a b => rn_updated_at b <=? rn_updated_at a) (runsOf rid g)).
Definition currentRunJson (r : run_row) : json :=
  JObj [("agentRunId", JStr (rn_id r)); ("state", JStr (agentStateText (rn_state r))); ("failureCode", nullable (rn_failure_code r));
        ("createdAt", JStr (toISOString (rn_created_at r))); ("updatedAt", JStr (toISOString (rn_updated_at r)))]%string.
Definition runStates : list string := map agentStateText [a_queued; a_running; a_streaming; a_completed; a_blocked_by_policy; a_cancelled; a_failed].
Definition failureSchema : validator := stringOrNull (fun c => codePoints c <=? 100).
Definition currentRunSchema : validator := fun j =>
  match j with
  | JNull => true
  | _ => closedObject [("agentRunId", uuidSchema); ("state", enumOf runStates); ("failureCode", failureSchema);
                       ("createdAt", dateSchema); ("updatedAt", dateSchema)]%string [] j
  end.
(** [agent-current-state.v1.json]. *)
Definition currentSchema : validator :=
  closedObject [("roomId", uuidSchema); ("run", currentRunSchema); ("serviceHealth", enumOf (map healthText HEALTHS));
                ("agentEnabled", (fun j => match j with JBool _ => true | _ => false end)); ("updatedAt", dateSchema)]%string [].
Definition currentBody (roomId : string) (serviceHealth : ServiceHealth) : GV json :=
  rid ← uuidG roomId;
  assertNotDeleting rid;;
  room ← txQuery (fun _ => roomOf rid);
  throw_if (negb (bool_decide (is_Some room))) (plain "ROOM_NOT_FOUND");;
  enabled ← txQuery (fun _ => agentEnabled rid);
  row ← txQuery (fun _ => newestRun rid);
  run ← match row with Some r => v ← asRun r; mret (Some v) | None => mret None end;
  updatedAt ← isoNow;
  let current := JObj [("roomId", JStr roomId); ("run", match run with Some r => currentRunJson r | None => JNull end);
                       ("serviceHealth", JStr (healthText serviceHealth)); ("agentEnabled", JBool enabled); ("updatedAt", JStr updatedAt)]%string in
  throw_if (negb (currentSchema current)) (plain "INVALID_AGENT_CURRENT_STATE");;
  mret current.
Definition getCurrent (roomId : string) (health : GV ServiceHealth) : GV json :=
  serviceHealth ← health;
  inTransactionG (currentBody roomId serviceHealth).

(** *** Ends *)

Definition cancelledExecution (j : job_row) : job_row :=
  JobRow (jb_id j) (jb_type j) (jb_room_id j) (jb_source_event_id j) (jb_dedupe_key j) (jb_correlation_id j) (jb_payload j)
    cancelled (jb_attempts j) (jb_max_attempts j) (jb_run_after j) (jb_claim_generation j) None None None
    (jb_last_error j) (jb_created_at j) (jb_updated_at j) (jb_order_seq j) (jb_order_kind j).
Definition touchedJob (now : Z) (j : job_row) : job_row :=
  JobRow (jb_id j) (jb_type j) (jb_room_id j) (jb_source_event_id j) (jb_dedupe_key j) (jb_correlation_id j) (jb_payload j)
    (jb_status j) (jb_attempts j) (jb_max_attempts j) (jb_run_after j) (jb_claim_generation j) (jb_claim_token j) (jb_locked_at j)
    (jb_locked_by j) (jb_last_error j) (jb_created_at j) now (jb_order_seq j) (jb_order_kind j).
(** The execution of a run is cancelled, whatever its state. *)
Definition cancelExecution (agentRunId : string) (now : Z) (g : governed) : governed :=
  let isKey j := bool_decide (jb_dedupe_key j = executeKey agentRunId) in
  let asked := if existsb isKey (jobs (gv_db g)) then map_set (executeKey agentRunId) now (ax_cancel_requests (gv_agents g))
               else ax_cancel_requests (gv_agents g) in
  onAgents (withCancelRequests asked)
    (set_gv_db (set_jobs (update_where isKey (fun j => touchedJob now (cancelledExecution j)) (jobs (gv_db g))) (gv_db g)) g).
Definition cancelLocked (run : run_row) (causationId reasonCode : string) : GV run_row :=
  now ← clockParam;
  agentUpdate (moveRun (rn_id run) a_cancelled (Some reasonCode) now);;
  modify (cancelExecution (rn_id run) now);;
  transitionId ← uuidNew;
  agentUpdate (addTransition (TransitionRow transitionId (rn_id run) (Some (rn_state run)) a_cancelled reasonCode causationId now));;
  result ← txQuery (fun _ g => find (isRun (rn_id run)) (ax_runs (gv_agents g)));
  match result with None => throw (plain "Cannot read properties of undefined") | Some r => asRun r end.
Definition cancelBody (roomId runId teacherId causationId : string) (sessionId : option string) : GV run_row :=
  rid ← uuidG roomId;
  assertNotDeleting rid;;
  requireActiveSession rid (Owner r_teacher (Some teacherId) None teacherId) sessionId;;
  id ← uuidG runId;
  tid ← uuidG teacherId;
  found ← txQuery (fun _ g => if existsb (ownsRoom rid tid) (rooms (gv_db g)) then select_where (isRun id) (runsOf rid g) else []);
  match found with
  | [r] =>
      run ← asRun r;
      throw_if (negb (isActiveState (rn_state run))) (plain "AGENT_RUN_NOT_ACTIVE");;
      cancelLocked run causationId "CANCEL_REQUESTED"
  | _ => throw (plain "AGENT_RUN_NOT_FOUND")
  end.
Definition cancelRun (roomId runId teacherId causationId : string) (sessionId : option string) : GV run_row :=
  inTransactionG (cancelBody roomId runId teacherId causationId sessionId).

Definition oldestActive (rid : string) (g : governed) : option run_row :=
  head (sort_by (fun a b => rn_created_at a <=? rn_created_at b) (activeRuns rid g)).
Definition settingsJson (enabled : bool) (cancelledRunId : option string) : json :=
  JObj [("enabled", JBool enabled); ("cancelledRunId", nullable cancelledRunId)]%string.
Definition settingsSchema : validator :=
  closedObject [("enabled", (fun j => match j with JBool _ => true | _ => false end)); ("cancelledRunId", stringOrNull format_uuid)]%string [].
Definition settingsBody (roomId teacherId : string) (enabled : bool) (causationId : string) (sessionId : option string) : GV json :=
  rid ← uuidG roomId;
  assertNotDeleting rid;;
  requireActiveSession rid (Owner r_teacher (Some teacherId) None teacherId) sessionId;;
  tid ← uuidG teacherId;
  room ← txQuery (fun _ g => select_where (ownsRoom rid tid) (rooms (gv_db g)));
  throw_if (negb (rowCount room =? 1)) (plain "ROOM_NOT_FOUND");;
  agentUpdate (fun x => withEnabled (map_set rid enabled (ax_enabled x)) x);;
  cancelledRunId ← (if enabled then mret None else
    active ← txQuery (fun _ => oldestActive rid);
    match active with
    | Some r => run ← asRun r; done ← cancelLocked run causationId "AGENT_DISABLED"; mret (Some (rn_id done))
    | None => mret None
    end);
  controlId ← uuidNew;
  now ← clockParam;
  agentUpdate (addControl (ControlRow controlId rid tid (if enabled then "enable" else "disable") cancelledRunId causationId now));;
  throw_if (negb (settingsSchema (settingsJson enabled cancelledRunId))) (plain "INVALID_AGENT_RESPONSE");;
  mret (settingsJson enabled cancelledRunId).
Definition setEnabled (roomId teacherId : string) (enabled : bool) (causationId : string) (sessionId : option string) : GV json :=
  inTransactionG (settingsBody roomId teacherId enabled causationId sessionId).

(** ** The health of the provider *)

Definition healthOf (providerId manifestSha256 : string) (g : governed) : option health_row :=
  find (fun h => bool_decide (hl_provider_id h = providerId) && bool_decide (hl_manifest_sha256 h = manifestSha256)) (ax_health (gv_agents g)).
(** [current]: [inTx] for the client of a transaction. The clock is read once for each of
    the two bounds; a comparison with an invalid date is false. *)
Definition currentHealth (inTx : bool) (providerId manifestSha256 : string) : GV ServiceHealth :=
  row ← (if inTx then txQuery (fun _ => healthOf providerId manifestSha256) else poolQuery (fun _ => healthOf providerId manifestSha256));
  match row with
  | None => mret unavailable
  | Some h =>
      first ← ofRooms clockNow;
      if match first with Some t => 30000 <? t - hl_checked_at h | None => false end then mret unavailable else
      second ← ofRooms clockNow;
      if match second with Some t => 5000 <? hl_checked_at h - t | None => false end then mret unavailable else
      mret (hl_health h)
  end.
(** [upsert]: a sample replaces an older one of the same manifest. *)
Record ProviderHealthSample : Type := Sample {
  sa_providerId : string;
  sa_manifestSha256 : string;
  sa_health : ServiceHealth;
  sa_checkedAt : Z;
  sa_reasonCode : option string;
}.
Definition sampleRow (s : ProviderHealthSample) (now : Z) : health_row :=
  HealthRow (sa_providerId s) (sa_manifestSha256 s) (sa_health s) (sa_checkedAt s) (sa_reasonCode s) now.
Definition withHealth (l : list health_row) (x : agent_tables) : agent_tables :=
  AgentTables (ax_enabled x) (ax_runs x) (ax_transitions x) (ax_controls x) l (ax_cancel_requests x).
(** A statement on the pool that returns what it did. *)
Definition poolReturning {A} (f : governed -> A * governed) : GV A := fun g =>
  let '(a, g') := f g in
  let w := gv_world g' in (Ok a, set_world (World (db w) (ticks w) (S (txs w)) (uuids w) (tx w)) g').
Definition isProvider (s : ProviderHealthSample) (h : health_row) : bool := bool_decide (hl_provider_id h = sa_providerId s).
Definition upsertSample (s : ProviderHealthSample) (now : Z) (g : governed) : bool * governed :=
  match find (isProvider s) (ax_health (gv_agents g)) with
  | None => (true, onAgents (fun x => withHealth (ax_health x ++ [sampleRow s now]) x) g)
  | Some old =>
      if bool_decide (hl_manifest_sha256 old = sa_manifestSha256 s) && (hl_checked_at old <? sa_checkedAt s)
      then (true, onAgents (fun x => withHealth (update_where (isProvider s) (fun _ => sampleRow s now) (ax_health x)) x) g)
      else (false, g)
  end.
Definition upsertHealth (s : ProviderHealthSample) : GV bool :=
  now ← clockParam;
  poolReturning (upsertSample s now).

(** ** The service *)

(** The provider that is admitted, and its manifest. *)
Variable providerId manifestSha256 : string.

Definition authorizeMember (principal : AuthSession) (sessionId roomId : string) : GV AgentRunOwner :=
  throw_if (negb (isUuid roomId) || negb (isUuid sessionId)) (AgentError "ROOM_NOT_FOUND");;
  throw_if (match principal with StudentSession r _ _ _ _ => negb (bool_decide (r = roomId)) | _ => false end) (AgentError "ROOM_NOT_FOUND");;
  rid ← uuidG roomId;
  sid ← uuidG sessionId;
  match principal with
  | TeacherSession teacherId actorId =>
      tid ← uuidG teacherId;
      row ← poolQuery (fun now g =>
        if existsb (ownsRoom rid tid) (rooms (gv_db g)) && teacherSessionLive sid tid now (gv_db g)
        then Some (deletionActiveIn rid (gv_db g)) else None);
      match row with
      | None => throw (AgentError "ROOM_NOT_FOUND")
      | Some deleting => throw_if deleting (AgentError "ROOM_DELETION_IN_PROGRESS");; mret (Owner r_teacher (Some teacherId) None actorId)
      end
  | StudentSession _ roomMemberId _ _ _ =>
      mid ← uuidG roomMemberId;
      row ← poolQuery (fun now g =>
        m ← find (fun m => bool_decide (mb_room_id m = rid) && bool_decide (mb_id m = mid) && memberSessionLive sid mid now (gv_db g))
              (members (gv_db g));
        Some (mb_actor_id m, deletionActiveIn rid (gv_db g)));
      match row with
      | None => throw (AgentError "ROOM_NOT_FOUND")
      | Some (actorId, deleting) =>
          throw_if deleting (AgentError "ROOM_DELETION_IN_PROGRESS");; mret (Owner r_student None (Some roomMemberId) actorId)
      end
  end.
Definition agentAuthorize (principal : AuthSession) (sessionId roomId : string) : GV unit :=
  authorizeMember principal sessionId roomId;; mret tt.
(** Errors by their message. *)
Definition asAgentError (codes : option (list string)) (e : failure) : failure :=
  match codes with
  | Some l => if bool_decide (messageOf e ∈ l) then AgentError (messageOf e) else e
  | None => AgentError (messageOf e)
  end.
Definition REQUEST_CODES : list string :=
  ["ROOM_NOT_FOUND"; "ROOM_DELETION_IN_PROGRESS"; "ROOM_NOT_OPEN"; "AGENT_DISABLED"; "TRIGGER_EVENT_NOT_FOUND";
   "AGENT_CANNOT_TRIGGER_AGENT"; "TRIGGER_EVENT_NOT_ACTIVE"; "EXPLICIT_TRIGGER_REQUIRED"; "AGENT_RUN_ALREADY_ACTIVE"]%string.
Definition CURRENT_CODES : list string := ["ROOM_NOT_FOUND"; "ROOM_DELETION_IN_PROGRESS"]%string.
Definition admission (admitCreate : GV unit) : GV unit :=
  health ← currentHealth true providerId manifestSha256;
  throw_if (negb (bool_decide (health = healthy))) (AgentError "AGENT_SERVICE_UNAVAILABLE");;
  admitCreate.
Definition agentRequest (principal : AuthSession) (sessionId roomId triggerEventId : string) (admitCreate : GV unit)
    : GV (string * string * bool) :=
  owner ← authorizeMember principal sessionId roomId;
  '(run, created) ← try_catch (getOrCreateRunAndJob RETRIES roomId triggerEventId owner (Some sessionId) (admission admitCreate))
    (fun e => throw (asAgentError (Some REQUEST_CODES) e));
  mret (rn_id run, agentStateText (rn_state run), created).
Definition onlyTeacher (principal : AuthSession) : GV string :=
  match principal with TeacherSession t _ => mret t | StudentSession _ _ _ _ _ => throw (AgentError "FORBIDDEN") end.
Definition agentCancel (principal : AuthSession) (sessionId roomId runId : string) : GV string :=
  t ← onlyTeacher principal;
  authorizeMember principal sessionId roomId;;
  run ← try_catch (causationId ← uuidNew; cancelRun roomId runId t causationId (Some sessionId)) (fun e => throw (asAgentError None e));
  mret (rn_id run).
Definition agentCurrent (principal : AuthSession) (sessionId roomId : string) : GV json :=
  authorizeMember principal sessionId roomId;;
  try_catch (getCurrent roomId (currentHealth false providerId manifestSha256)) (fun e => throw (asAgentError (Some CURRENT_CODES) e)).
Definition agentSettings (principal : AuthSession) (sessionId roomId : string) (enabled : bool) : GV json :=
  t ← onlyTeacher principal;
  authorizeMember principal sessionId roomId;;
  try_catch (causationId ← uuidNew; setEnabled roomId t enabled causationId (Some sessionId)) (fun e => throw (asAgentError None e)).
Definition agentService : AgentService governed :=
  MkAgentService governed agentAuthorize agentRequest agentCancel agentCurrent agentSettings.

(** ** The reconciler *)

Inductive orphan_reason : Type := job_dead | job_cancelled | room_not_open.
Record orphan : Type := Orphan { or_run_id : string; or_room_id : string; or_reason : orphan_reason }.
Definition executionOf (r : run_row) (g : governed) : option job_row :=
  find (fun j => bool_decide (jb_dedupe_key j = executeKey (rn_id r))) (jobs (gv_db g)).
(** Why a run cannot end by itself. *)
Definition orphanReason (g : governed) (r : run_row) : option orphan_reason :=
  room ← roomOf (rn_room_id r) g;
  if negb (isActiveState (rn_state r)) then None
  else if bool_decide (rm_status room = closed) then Some room_not_open
  else match jb_status <$> executionOf r g with
       | Some dead => Some job_dead
       | Some cancelled | None => Some job_cancelled
       | _ => None
       end.
Definition byCreation (a b : run_row) : bool := rn_created_at a <=? rn_created_at b.
Definition orphans (batchSize : nat) : GV (list orphan) :=
  poolQuery (fun _ g => take batchSize (omap (fun r => Orphan (rn_id r) (rn_room_id r) <$> orphanReason g r)
    (sort_by byCreation (ax_runs (gv_agents g))))).
Definition outcomeOf (reason : orphan_reason) : AgentState * string :=
  match reason with
  | job_dead => (a_failed, "AGENT_EXECUTION_EXHAUSTED")
  | room_not_open => (a_cancelled, "ROOM_NOT_OPEN")
  | job_cancelled => (a_cancelled, "AGENT_RUN_CANCELLED")
  end%string.
Context `{Sha1}.
(** [reconcileCausation]: an identifier of version 5 from the run and its end. *)
Definition reconcileCausation (agentRunId terminal : string) : string :=
  let digest := list_ascii_of_string (hexBytes (sha1 ("agent-run-reconcile:" ++ agentRunId ++ ":" ++ terminal)%string)) in
  let part i n := string_of_list_ascii (take n (drop i digest)) in
  let variant := nibble (Z.lor (Z.land (hexNibble (default "0"%char (digest !! 16%nat))) 3) 8) in
  (part 0%nat 8%nat ++ "-" ++ part 8%nat 4%nat ++ "-5" ++ part 13%nat 3%nat ++ "-" ++ String variant (part 17%nat 3%nat)
   ++ "-" ++ part 20%nat 12%nat)%string.
Definition settleBody (o : orphan) : GV (option AgentState) :=
  fresh ← txQuery (fun _ g => find (isRun (or_run_id o)) (ax_runs (gv_agents g)));
  match fresh with
  | Some r =>
      if negb (isActiveState (rn_state r)) then mret None else
        let '(terminal, reasonCode) := outcomeOf (or_reason o) in
        now ← clockParam;
        agentUpdate (moveRun (or_run_id o) terminal (Some reasonCode) now);;
        transitionId ← uuidNew;
        at_ ← clockParam;
        agentUpdate (addTransition (TransitionRow transitionId (or_run_id o) (Some (rn_state r)) terminal reasonCode
          (reconcileCausation (or_run_id o) (agentStateText terminal)) at_));;
        mret (Some terminal)
  | None => mret None
  end.
Record AgentReconcileResult : Type := ReconcileResult { rr_failed : Z; rr_cancelled : Z }.
Definition reconcile (batchSize : nat) : GV AgentReconcileResult :=
  l ← orphans batchSize;
  settled ← mapM (fun o => inTransactionG (settleBody o)) l;
  let count s := rowCount (select_where (fun x => bool_decide (x = Some s)) settled) in
  mret (ReconcileResult (count a_failed) (count a_cancelled)).
End Repository.
