(* ===== verification/AgentComplete.v ===== *)
(** * What the agent has said: [apps/server/src/modules/agent/internal-agent-complete-route.ts]

    The worker that holds the job of a run presents a signed request with the text of the
    agent; the text becomes a message of the room, the run is completed and the effect
    recorded for its claim, in one transaction of the ledger; delivered again, only the claim
    is recorded ([nova_speaks_once]). The request is that of
    [packages/contracts/schemas/agent-internal-command.v1.json]. *)
From S2P Require Import Prelude Text JsDate JsValue Utf Canonical Contracts Database Concrete JsMap Ledger Lifecycle Jobs Messages Authorization Frames Echo Trace Exports Http Governed Governance GovernanceLaws Deletion Agents Assertion AutoClose.
#[local] Set Warnings "-register-all,-clear-no-such-hyp,-level-tolerance".

(** ** The request *)

Record AgentInternalCommandRequest : Type := CompleteRequest {
  ac_claim : JobClaimIdentity;
  ac_roomId : string;
  ac_sourceEventId : string;
  ac_agentRunId : string;
  ac_workerId : units;
  ac_text : string;
  ac_outputSha256 : string;
  ac_sourceEventIds : list string;
  ac_warningCodes : list string;
}.
Definition COMPLETE_KEYS : list string :=
  ["jobId"; "jobType"; "roomId"; "sourceEventId"; "dedupeKey"; "agentRunId"; "correlationId"; "claimGeneration"; "claimToken";
   "workerId"; "text"; "outputSha256"; "sourceEventIds"; "warningCodes"]%string.
(** [^agent\.execute\.v1:[0-9a-f-]{36}$], [^[a-f0-9]{64}$], [^[A-Z0-9_]{1,64}$]. *)
Definition isExecuteKey (s : string) : bool :=
  matches (map is_char (list_ascii_of_string "agent.execute.v1:") ++ replicate 36 is_dedupe_char) (list_ascii_of_string s).
Definition isOutputDigest (s : string) : bool := matches (replicate 64 is_lower_hex) (list_ascii_of_string s).
Definition isWarningCode (s : string) : bool := isCompletionCode s.
(** An array of different strings of a kind. *)
Definition stringItem (p : string -> bool) (t : tree) : option string :=
  match t with TStr u => _ ← require (p (Assertion.textOf u)); Some (Assertion.textOf u) | _ => None end.
Definition stringArray (p : string -> bool) (least most : Z) (k : string) (fs : list (units * tree)) : option (list string) :=
  match Assertion.own (text k) fs with
  | Some (TArr l) =>
      items ← mapM (stringItem p) l;
      _ ← require ((least <=? rowCount items) && (rowCount items <=? most) && bool_decide (NoDup items));
      Some items
  | _ => None
  end.

Inductive CompleteRefusal : Type :=
| complete_assertion_invalid | complete_claim_stale | complete_output_invalid | complete_run_not_active | complete_room_not_open.
Inductive AgentInternalCommandResponse : Type :=
| Applied (eventId : string)
| AlreadyApplied (eventId : string)
| Refused (code : CompleteRefusal).

Section Route.
Context `{Schemas} `{Postgres} `{Environment} `{BigintText} `{Crypto}.

Definition parseInternalRequest (value : tree) : option AgentInternalCommandRequest :=
  fs ← isObject value;
  _ ← require (forallb (fun f => bool_decide (fst f ∈ map text COMPLETE_KEYS)) fs);
  jobId ← uuidText "jobId" fs;
  jobType ← patternText (fun s => bool_decide (s = AGENT_EXECUTE)) "jobType" fs;
  roomId ← uuidText "roomId" fs;
  sourceEventId ← uuidText "sourceEventId" fs;
  dedupeKey ← patternText isExecuteKey "dedupeKey" fs;
  agentRunId ← uuidText "agentRunId" fs;
  correlationId ← uuidText "correlationId" fs;
  claimGeneration ← patternText isGeneration "claimGeneration" fs;
  claimToken ← uuidText "claimToken" fs;
  workerId ← textField "workerId" fs;
  _ ← require ((1 <=? ucs2length workerId) && (ucs2length workerId <=? 128));
  message ← textField "text" fs;
  _ ← require ((1 <=? ucs2length message) && (ucs2length message <=? 4000));
  outputSha256 ← patternText isOutputDigest "outputSha256" fs;
  sourceEventIds ← stringArray format_uuid 1 30 "sourceEventIds" fs;
  warningCodes ← stringArray isWarningCode 0 10 "warningCodes" fs;
  Some (CompleteRequest (ClaimIdentity jobId jobType (Some roomId) (Some sourceEventId) dedupeKey correlationId
                           claimGeneration claimToken (Assertion.textOf workerId))
          roomId sourceEventId agentRunId workerId (Assertion.textOf message) outputSha256 sourceEventIds warningCodes).

(** ** The route *)

Variable payloads : EventPayloadRegistry.

Definition EXECUTION_TERMINAL : string := "AGENT_EXECUTION_TERMINAL".
Definition jobIdentityOk (rq : AgentInternalCommandRequest) (row : option job_row) : bool :=
  let c := ac_claim rq in
  match row with
  | Some j =>
      bool_decide (jb_type j = jc_jobType c) && bool_decide (jb_room_id j = jc_roomId c)
      && bool_decide (jb_source_event_id j = jc_sourceEventId c) && bool_decide (jb_dedupe_key j = jc_dedupeKey c)
      && bool_decide (jb_correlation_id j = jc_correlationId c)
      && match jb_payload j with JObj _ => bool_decide (strField "agentRunId" (jb_payload j) = Some (ac_agentRunId rq)) | _ => false end
  | None => false
  end.
(** The message, at a time. *)
Definition spokenPayload (rq : AgentInternalCommandRequest) : list (string * json) :=
  [("messageId", JStr (ac_agentRunId rq)); ("text", JStr (ac_text rq)); ("replyTo", JNull); ("mentions", JArr []); ("mediaIds", JArr []);
   ("agentRunId", JStr (ac_agentRunId rq)); ("sourceEventIds", JArr (map JStr (ac_sourceEventIds rq)))]%string
  ++ match ac_warningCodes rq with [] => [] | l => [("warningCodes"%string, JArr (map JStr l))] end.
Definition spokenDraft (rq : AgentInternalCommandRequest) (nova : string) (now : Z) : RoomEventDraft :=
  Draft "message.added" nova agent socratic_facilitator 1 add now (jc_jobId (ac_claim rq)) (jc_correlationId (ac_claim rq)) (spokenPayload rq).
Definition runOf (runId rid : string) (x : agent_tables) : option run_row :=
  find (fun r => bool_decide (rn_id r = runId) && bool_decide (rn_room_id r = rid)) (ax_runs x).
(** Inside the transaction of the room, on the tables of the agent as they are in it: the
    answer and the tables it leaves. *)
Definition completeClaimed (rq : AgentInternalCommandRequest) (x : agent_tables) (context : RoomEventTransactionContext)
    : IO (AgentInternalCommandResponse * agent_tables) :=
  let c := ac_claim rq in
  let refuse code := mret (Refused code, x) in
  jobId ← uuidParam (jc_jobId c);
  row ← query (fun d => find (fun j => bool_decide (jb_id j = jobId)) (jobs d));
  if negb (jobIdentityOk rq row) then refuse complete_output_invalid else
  current ← try_catch (requireCurrent c;; mret true) (fun _ => mret false);
  if negb current then refuse complete_claim_stale else
  runId ← uuidParam (ac_agentRunId rq);
  rid ← uuidParam (ac_roomId rq);
  match runOf runId rid x with
  | None => refuse complete_output_invalid
  | Some run =>
      if negb (bool_decide (rn_trigger_event_id run = ac_sourceEventId rq) && bool_decide (rn_correlation_id run = jc_correlationId c))
      then refuse complete_output_invalid else
      existing ← findByCausation context (jc_jobId c);
      match existing with
      | Some e => completeBusiness c EXECUTION_TERMINAL;; mret (AlreadyApplied (eventId e), x)
      | None =>
          if negb (isActiveState (rn_state run)) then refuse complete_run_not_active else
          if negb (bool_decide (status (room context) ∈ [open; paused])) then refuse complete_room_not_open else
          now ← clockNow;
          appended ← appendDated context now (spokenDraft rq (nova_actor_id (room context)));
          txNow ← gets (fun w => tx_now (tx w));
          let completed := moveRun runId a_completed None txNow x in
          let noted := addTransition (TransitionRow (eventId appended) runId (Some (rn_state run)) a_completed EXECUTION_TERMINAL
                                        jobId txNow) completed in
          completeBusiness c EXECUTION_TERMINAL;;
          mret (Applied (eventId appended), noted)
      end
  end.
(** The ledger's transaction over all tables: it commits the tables of the agent with its own. *)
Definition transactAgents {T} (roomId : string) (work : agent_tables -> RoomEventTransactionContext -> IO (T * agent_tables)) : GV T :=
  x ← gets gv_agents;
  '(a, x') ← ofRooms (transact payloads roomId (work x));
  agentUpdate (fun _ => x');;
  mret a.

Definition COMPLETE_AUDIENCE : units := text "internal.agent.complete".
Definition completeRun (trust : ServiceAssertionTrust) (rawAssertion value : tree) : GV AgentInternalCommandResponse :=
  first ← ofRooms clockNow;
  match verifyServiceAssertionEnvelope rawAssertion value (EnvelopeExpected COMPLETE_AUDIENCE None None) trust first with
  | None => mret (Refused complete_assertion_invalid)
  | Some signedBy =>
      match parseInternalRequest value with
      | None => mret (Refused complete_output_invalid)
      | Some rq =>
          if negb (bool_decide (ac_workerId rq = signedBy)) then mret (Refused complete_assertion_invalid) else
          second ← ofRooms clockNow;
          match authorizeServiceAssertion rawAssertion value (Expected COMPLETE_AUDIENCE (ac_workerId rq) (ac_claim rq) None) trust second with
          | None => mret (Refused complete_assertion_invalid)
          | Some _ =>
              if negb (bool_decide (sha256_hex (ac_text rq) = ac_outputSha256 rq)) then mret (Refused complete_output_invalid) else
              try_catch (transactAgents (ac_roomId rq) (completeClaimed rq))
                (fun e => if bool_decide (e = RoomsThrew JOB_CLAIM_STALE) then mret (Refused complete_claim_stale) else throw e)
          end
      end
  end.
End Route.

(** ** What the route does *)

Section Effect.
Context `{Schemas} `{Postgres} `{Environment} `{BigintText} `{Crypto}.
Variable payloads : EventPayloadRegistry.

(** The claim of a request is the current one of its job, and its effect is recorded. *)
Record claimed_by (c : JobClaimIdentity) (code : string) (d d' : database) (j : job_row) : Prop := {
  cb_claim : exists k, (forall w0, readClaim c w0 = (Ok k, w0)) /\ select_where (holds_claim k) (jobs d) = [j]
    /\ CompletionRow (ck_id k) (ck_generation k) (sha256_hex (jc_claimToken c)) code ∈ completions d';
  cb_id : uuid_in (jc_jobId c) = Some (jb_id j);
}.
(** The run a request is about. *)
Record run_of (rq : AgentInternalCommandRequest) (x : agent_tables) (rid : string) (run : run_row) : Prop := {
  ro_room : uuid_in (ac_roomId rq) = Some rid;
  ro_id : uuid_in (ac_agentRunId rq) = Some (rn_id run);
  ro_found : runOf (rn_id run) rid x = Some run;
  ro_trigger : rn_trigger_event_id run = ac_sourceEventId rq;
  ro_correlation : rn_correlation_id run = jc_correlationId (ac_claim rq);
}.
(** The tables of the agent after the run has been completed. *)
Definition completedRuns (rq : AgentInternalCommandRequest) (run : run_row) (eventId jobId : string) (now : Z) (x : agent_tables) : agent_tables :=
  addTransition (TransitionRow eventId (rn_id run) (Some (rn_state run)) a_completed EXECUTION_TERMINAL jobId now)
    (moveRun (rn_id run) a_completed None now x).
(** The job a request is for: its identity field by field, and the run its payload names. *)
Record job_for (rq : AgentInternalCommandRequest) (j : job_row) : Prop := {
  jf_type : jb_type j = jc_jobType (ac_claim rq);
  jf_room : jb_room_id j = jc_roomId (ac_claim rq);
  jf_source : jb_source_event_id j = jc_sourceEventId (ac_claim rq);
  jf_dedupe : jb_dedupe_key j = jc_dedupeKey (ac_claim rq);
  jf_correlation : jb_correlation_id j = jc_correlationId (ac_claim rq);
  jf_payload : exists fs, jb_payload j = JObj fs /\ assoc "agentRunId"%string fs = Some (JStr (ac_agentRunId rq));
}.
Lemma jobIdentityOk_for rq j : jobIdentityOk rq (Some j) = true -> job_for rq j.
Proof.
  unfold jobIdentityOk. intros Hj. apply andb_true_iff in Hj as [Hj Hp]. split_bools. constructor; try done.
  destruct (jb_payload j) as [| | | | |fs] eqn:E; try done. apply bool_decide_eq_true in Hp. unfold strField, field in Hp. exists fs.
  split; [done|]. destruct (assoc _ fs) as [[| | |t| |]|]; try done. cbn in Hp. by injection Hp as ->.
Qed.
(** The job, the claim, the run and the request agree. *)
Record agreeing (rq : AgentInternalCommandRequest) (x : agent_tables) (w : world) (i : string) (j : job_row) (run : run_row)
    (rid : string) : Prop := {
  ag_id : uuid_in (jc_jobId (ac_claim rq)) = Some i;
  ag_found : find (fun j => bool_decide (jb_id j = i)) (jobs (db w)) = Some j;
  ag_job : job_for rq j;
  ag_current : exists u, requireCurrent (ac_claim rq) w = (Ok u, w);
  ag_run : run_of rq x rid run;
}.
(** What the work does, by its answer. *)
Definition work_done (rq : AgentInternalCommandRequest) (x x' : agent_tables) (snapshot : LockedRoomSnapshot) (w w' : world)
    (resp : AgentInternalCommandResponse) : Prop :=
  let c := ac_claim rq in
  match resp with
  | Refused _ => x' = x /\ db w' = db w
  | AlreadyApplied eid => x' = x /\ exists i j run rid e, agreeing rq x w i j run rid /\ eventId e = eid
      /\ fst (findOneByCausation payloads (room_id snapshot) (jc_jobId c) w) = Ok (Some e)
      /\ completeBusiness c EXECUTION_TERMINAL w = (Ok tt, w')
  | Applied eid => exists i j run rid now ev w1 txNow, agreeing rq x w i j run rid /\ isActiveState (rn_state run) = true
      /\ status snapshot ∈ [open; paused]
      /\ fst (findOneByCausation payloads (room_id snapshot) (jc_jobId c) w) = Ok None
      /\ append (contextOf payloads snapshot) (spokenDraft rq (nova_actor_id snapshot) now) (ticked w) = (Ok ev, w1) /\ eventId ev = eid
      /\ x' = completedRuns rq run eid i txNow x /\ completeBusiness c EXECUTION_TERMINAL w1 = (Ok tt, w')
  end.
Lemma completeClaimed_cases rq x snapshot w resp x' w' :
  completeClaimed rq x (contextOf payloads snapshot) w = (Ok (resp, x'), w') -> work_done rq x x' snapshot w w' resp.
Proof.
  unfold completeClaimed. intros (i & s & [Hi ->]%uuidParam_ok & Hr)%bind_ok.
  apply bind_ok in Hr as (row & s & Hrow & Hr). unfold query, gets in Hrow. injection Hrow as Hrow <-.
  destruct (jobIdentityOk rq row) eqn:Hid; cbn [negb] in Hr; [|by run_ok].
  destruct row as [j|]; [|done]. apply bind_ok in Hr as (current & s & [-> Hcur]%currentCheck_ok & Hr).
  destruct current; cbn [negb] in Hr; [|by run_ok]. specialize (Hcur eq_refl).
  apply bind_ok in Hr as (runId & s & [Hrun ->]%uuidParam_ok & Hr). apply bind_ok in Hr as (rid & s & [Hrid ->]%uuidParam_ok & Hr).
  destruct (runOf runId rid x) as [run|] eqn:Hf; [|by run_ok].
  destruct (_ && _) eqn:Hsame in Hr; cbn [negb] in Hr; [|by run_ok]. split_bools.
  assert (rn_id run = runId) as <- by (apply find_some in Hf as [_ Hf]; by split_bools).
  assert (agreeing rq x w i j run rid) as Hag by (constructor; try done; by apply jobIdentityOk_for).
  apply bind_ok in Hr as (existing & s & Hex%schedule_Ok & Hr). pose proof (find_readonly _ _ _ _ _ _ Hex) as ->.
  destruct existing as [e|].
  - apply bind_ok in Hr as ([] & s & Hc & Hr). injection Hr as <- <- <-. split; [done|]. exists i, j, run, rid, e. by rewrite Hex.
  - destruct (isActiveState (rn_state run)) eqn:Hact; cbn [negb] in Hr; [|by run_ok].
    destruct (bool_decide _) eqn:Hst in Hr; cbn [negb] in Hr; [|by run_ok]. apply bool_decide_eq_true in Hst.
    apply bind_ok in Hr as (now & s & Hnow & Hr). unfold clockNow in Hnow. injection Hnow as <- <-. change (World _ _ _ _ _) with (ticked w) in Hr.
    apply bind_ok in Hr as (ev & w1 & (t & _ & Happ)%appendDated_ok & Hr). apply bind_ok in Hr as (txNow & s & Htx & Hr).
    unfold gets in Htx. injection Htx as Htx <-. apply bind_ok in Hr as ([] & s & Hc & Hr). injection Hr as <- <- <-.
    exists i, j, run, rid, t, ev, w1, txNow. split_and!; try done. by rewrite Hex.
Qed.

Lemma stringArray_ok p least most k fs l : stringArray p least most k fs = Some l -> rowCount l <= most.
Proof.
  unfold stringArray. destruct (Assertion.own _ _) as [[| | | |t|]|]; try done. intros (items & _ & Hr)%bind_Some.
  apply bind_Some in Hr as (u & Hr%require_Some & [= <-]). split_bools. by apply Z.leb_le.
Qed.
Lemma parse_bounds value rq : parseInternalRequest value = Some rq ->
  rowCount (ac_sourceEventIds rq) <= 30 /\ rowCount (ac_warningCodes rq) <= 10.
Proof.
  unfold parseInternalRequest. intros Hr. repeat (apply bind_Some in Hr as (? & ? & Hr)). injection Hr as <-. cbn.
  repeat match goal with Hx : stringArray _ _ _ _ _ = Some _ |- _ => apply stringArray_ok in Hx end. lia.
Qed.
(** The message is one the copy and the store keep. *)
Lemma spokenPayload_ok rq : rowCount (ac_sourceEventIds rq) <= 30 -> rowCount (ac_warningCodes rq) <= 10 ->
  within_limits (JObj (spokenPayload rq)) = true /\ json_wf (JObj (spokenPayload rq)).
Proof.
  intros Hs Hw. unfold spokenPayload, rowCount in *.
  pose proof (cost_strings (ac_sourceEventIds rq)) as Hc1. pose proof (cost_strings (ac_warningCodes rq)) as Hc2.
  pose proof (depth_strings (ac_sourceEventIds rq)) as Hd1. pose proof (depth_strings (ac_warningCodes rq)) as Hd2.
  pose proof (finite_strings (ac_sourceEventIds rq)) as Hf1. pose proof (finite_strings (ac_warningCodes rq)) as Hf2.
  pose proof (wf_strings (ac_sourceEventIds rq)) as Hw1. pose proof (wf_strings (ac_warningCodes rq)) as Hw2.
  destruct (ac_warningCodes rq) as [|w ws]; [clear Hc2 Hd2 Hf2 Hw2|];
    generalize dependent (JArr (map JStr (ac_sourceEventIds rq))); [|generalize dependent (JArr (map JStr (w :: ws)))];
    intros; (split; [unfold within_limits; rewrite !andb_true_iff, !Z.leb_le; simpl; unfold MAX_JSON_DEPTH, MAX_JSON_UNITS;
      repeat match goal with Hx : json_finite _ = true |- _ => rewrite Hx; clear Hx | Hx : obj_depth _ = _ |- _ => rewrite Hx; clear Hx end;
      split_and!; lia || done|split; [apply (bool_decide_eq_true_1 _); reflexivity|]; simpl; tauto]).
Qed.

Lemma completeClaimed_inv rq x snapshot : Ledger.canonical (room_id snapshot) ->
  preserves ledger_inv (completeClaimed rq x (contextOf payloads snapshot)).
Proof.
  intros Hcan. unfold completeClaimed. preserve;
    first [apply requireCurrent_inv|apply completeBusiness_inv|by apply appendDated_inv|apply findByCausation_inv].
Qed.
Lemma nothing_by_causation rid c w u : fst (findOneByCausation payloads rid c w) = Ok None -> uuid_in c = Some u ->
  forall x, x ∈ events (db w) -> ev_room_id x = rid -> ev_causation_id x <> u.
Proof.
  intros Hf Hu x Hx Hr Hc. unfold findOneByCausation, throw_if in Hf. destruct (negb _); [done|].
  unfold mbind at 1, M_bind at 1, mret, M_ret in Hf. unfold uuidParam in Hf. rewrite Hu in Hf.
  unfold mbind at 1, M_bind at 1, mret, M_ret, query, gets, mbind at 1, M_bind at 1 in Hf.
  destruct (storedEvents _ _) as [|row rows] eqn:Hs.
  - assert (x ∈ select_where (fun e => bool_decide (ev_room_id e = rid) && bool_decide (ev_causation_id e = u)) (events (db w))) as Hin.
    { apply select_where_elem. split; [done|]. by rewrite !bool_decide_true. }
    unfold storedEvents in Hs. destruct (select_where _ _); [by apply elem_of_nil in Hin|done].
  - unfold lift_result, mbind, M_bind in Hf. destruct (parseStoredEvent _ _); done.
Qed.

(** The message of the agent as it is in the ledger. *)
Record spoken (rq : AgentInternalCommandRequest) (rid nova eid : string) (d d' : database) (row : event_row) : Prop := {
  sk_new : events d' = events d ++ [row];
  sk_id : uuid_in eid = Some (ev_event_id row);
  sk_room : uuid_in rid = Some (ev_room_id row);
  sk_type : ev_type row = "message.added"%string;
  sk_author : ev_actor_kind row = agent /\ ev_actor_role row = socratic_facilitator /\ uuid_in nova = Some (ev_actor_id row);
  sk_cause : uuid_in (jc_jobId (ac_claim rq)) = Some (ev_causation_id row);
  sk_payload : jsonb_in (JObj (spokenPayload rq)) = Some (ev_payload row);
  sk_first : forall x, x ∈ events d -> ev_room_id x = rid -> ev_causation_id x <> ev_causation_id row;
}.
Lemma append_spoken rq nova now snapshot w ev w1 d :
  append (contextOf payloads snapshot) (spokenDraft rq nova now) w = (Ok ev, w1) -> db w = d ->
  fst (findOneByCausation payloads (room_id snapshot) (jc_jobId (ac_claim rq)) w) = Ok None ->
  rowCount (ac_sourceEventIds rq) <= 30 -> rowCount (ac_warningCodes rq) <= 10 ->
  exists row, spoken rq (room_id snapshot) nova (eventId ev) d (db w1) row.
Proof.
  intros Happ Hd Hnone Hs Hw. destruct (spokenPayload_ok rq Hs Hw) as [Hlim Hwf].
  destruct (append_new payloads snapshot (spokenDraft rq nova now) w ev w1 Hlim Hwf Hnone Happ) as (Hcd & row & env & j & w2 & Hwr & ->).
  pose proof (wr_row _ _ _ _ _ _ _ _ Hwr) as Hrow. pose proof (completed_drafted _ _ _ _ _ _ _ Hcd Hrow) as [Hd1 Hd2 Hd3 Hd4 _ _ Hd7].
  destruct (completed_draft _ _ _ _ _ _ Hcd) as (_ & _ & Hkind & _ & _ & _ & _ & Hca & _ & _).
  destruct (eventRow_fields _ _ Hrow) as (Hid & _ & Hcause & _). exists row.
  assert (ev_actor_kind row = agent) as Hagent.
  { clear -Hrow Hkind. unfold Ledger.eventRow in Hrow. repeat (apply bind_Some in Hrow as (? & ? & Hrow)). injection Hrow as <-. exact Hkind. }
  rewrite Hca in Hcause. constructor; try done.
  - rewrite (wr_world _ _ _ _ _ _ _ _ Hwr). cbn. by rewrite Hd.
  - rewrite <- Hd. intros x Hx Hr. by eapply nothing_by_causation.
Qed.

(** A request that is admitted: the signature of a trusted key over this body, by the
    worker it names, and the digest of the text it brings. *)
Record signed_for (config raw value : tree) (rq : AgentInternalCommandRequest) (now : option Z) : Prop := {
  sf_parsed : parseInternalRequest value = Some rq;
  sf_admitted : exists t e key, now = Some t /\ admitted config raw value COMPLETE_AUDIENCE 60000 None t e key /\ subject e = ac_workerId rq;
  sf_digest : sha256_hex (ac_text rq) = ac_outputSha256 rq;
}.
(** What an answer that the text is applied stands for. *)
Record applied_for (rq : AgentInternalCommandRequest) (eid : string) (g g' : governed) (j : job_row) (run : run_row) (locked : room_row)
    (row : event_row) : Prop := {
  af_claim : claimed_by (ac_claim rq) EXECUTION_TERMINAL (gv_db g) (gv_db g') j;
  af_job : job_for rq j;
  af_room : locked ∈ rooms (gv_db g) /\ uuid_in (ac_roomId rq) = Some (rm_id locked) /\ rm_status locked ∈ [open; paused];
  af_run : run_of rq (gv_agents g) (rm_id locked) run /\ isActiveState (rn_state run) = true;
  af_spoken : spoken rq (rm_id locked) (rm_nova_actor_id locked) eid (gv_db g) (gv_db g') row;
  af_completed : exists now, gv_agents g' = completedRuns rq run eid (jb_id j) now (gv_agents g);
  af_rest : g' = set_agents (gv_agents g') (set_world (gv_world g') g);
}.
(** What an answer that it has been applied before stands for: the same agreement, the event
    the job has caused, and the completion of this claim - the one row that may be new. *)
Record already_applied_for (rq : AgentInternalCommandRequest) (eid : string) (g g' : governed) (j : job_row) (run : run_row)
    (locked : room_row) : Prop := {
  aa_claim : claimed_by (ac_claim rq) EXECUTION_TERMINAL (gv_db g) (gv_db g') j;
  aa_job : job_for rq j;
  aa_room : locked ∈ rooms (gv_db g) /\ uuid_in (ac_roomId rq) = Some (rm_id locked);
  aa_run : run_of rq (gv_agents g) (rm_id locked) run;
  aa_said : exists e, eventId e = eid
    /\ fst (findOneByCausation payloads (rm_id locked) (jc_jobId (ac_claim rq)) (gv_world g)) = Ok (Some e);
  aa_completions : exists new, completions (gv_db g') = completions (gv_db g) ++ new /\ (length new <= 1)%nat;
  aa_rest : g' = set_world (gv_world g') g /\ set_completions [] (gv_db g') = set_completions [] (gv_db g);
}.

Lemma transactAgents_run {T} roomId (work : agent_tables -> RoomEventTransactionContext -> IO (T * agent_tables)) g :
  transactAgents payloads roomId work g = match transact payloads roomId (work (gv_agents g)) (gv_world g) with
    | (Ok (a, x), w) => (Ok a, set_agents x (set_world w g))
    | (Err e, w) => (Err (RoomsThrew e), set_world w g) end.
Proof. unfold transactAgents, ofRooms, inWorld, mbind, M_bind, gets. cbn. by destruct (transact _ _ _ _) as [[[a x]|e] w]. Qed.
(** The claim of a work that went through. *)
Lemma claimed_of c w w1 w' i j : completeBusiness c EXECUTION_TERMINAL w1 = (Ok tt, w') -> (exists u, requireCurrent c w = (Ok u, w)) ->
  NoDup (map jb_id (jobs (db w))) -> uuid_in (jc_jobId c) = Some i -> find (fun j => bool_decide (jb_id j = i)) (jobs (db w)) = Some j ->
  claimed_by c EXECUTION_TERMINAL (db w) (db w') j /\ jb_id j = i.
Proof.
  intros (_ & _ & _ & k' & Hk' & Hm)%complete_ok [u Hcur] Hnd Hi Hj.
  destruct (requireCurrent_ok _ _ _ _ Hcur) as (_ & k & j' & Hk & Hrows). destruct (readClaim_run _ _ _ _ Hk) as [_ Hall].
  assert (j' ∈ select_where (holds_claim k) (jobs (db w))) as [Hj' Hh]%select_where_elem by (rewrite Hrows; left).
  apply holds_claim_true in Hh as (Hj'i & _). destruct (readClaim_fields _ _ _ Hk) as (Hki & _).
  assert (j = j') as <- by (eapply (find_only jb_id); [exact Hnd|exact Hj|done|congruence]).
  apply find_elem in Hj as [_ Hji%bool_decide_eq_true]. split; [|done]. constructor; [|by rewrite Hji]. exists k. split_and!; [done|done|].
  rewrite Hall in Hk'. by injection Hk' as <-.
Qed.
Lemma transact_applied rq g eid x w' : ledger_ok (gv_db g) -> rowCount (ac_sourceEventIds rq) <= 30 -> rowCount (ac_warningCodes rq) <= 10 ->
  transact payloads (ac_roomId rq) (completeClaimed rq (gv_agents g)) (gv_world g) = (Ok (Applied eid, x), w') ->
  exists j run locked row, applied_for rq eid g (set_agents x (set_world w' g)) j run locked row.
Proof.
  intros Hok Hb1 Hb2 (locked & snapshot & w0 & Hen & Hr & _)%transact_ok.
  assert (db w0 = gv_db g) as Hdb by (by rewrite (en_world _ _ _ _ _ Hen)).
  apply completeClaimed_cases in Hr as (i & j & run & rid & now & ev & w1 & txNow & [Hi Hj Hid Hcur Hrun] & Hact & Hst & Hnone & Happ & <- & -> & Hc).
  destruct (entered_row _ _ _ _ _ Hok Hen rid (ro_room _ _ _ _ Hrun)) as (Hin & Hlid & _ & Hss & Hsid & Hrid).
  assert (nova_actor_id snapshot = rm_nova_actor_id locked) as Hnova.
  { pose proof (en_snapshot _ _ _ _ _ Hen) as Hs. apply roomSnapshot_ok in Hs as [_ ->]. done. }
  destruct (claimed_of _ w0 w1 w' i j Hc Hcur) as [Hcl Hji]; [rewrite Hdb; by apply ledger_job_ids|done|done|].
  destruct (append_spoken _ _ _ _ _ _ _ (gv_db g) Happ Hdb) as [row Hsp]; [|done|done|].
  { rewrite <- Hnone. by apply find_same_events. }
  destruct (frame_fields _ _ (complete_frame _ _ _ _ _ Hc)) as (_ & Hev & _ & _).
  exists j, run, locked, row. rewrite <- Hlid in *. constructor; try done.
  - change (gv_db (set_agents _ _)) with (db w'). by rewrite <- Hdb.
  - split_and!; [done|apply Hrun|]. by rewrite <- Hss.
  - destruct Hsp as [Hs1 Hs2 Hs3 Hs4 Hs5 Hs6 Hs7 Hs8]. rewrite Hsid, Hnova in *. constructor; try done. exact (eq_trans Hev Hs1).
  - exists txNow. by rewrite Hji.
Qed.
Lemma complete_adds c code w u w' : completeBusiness c code w = (Ok u, w') ->
  exists new, completions (db w') = completions (db w) ++ new /\ (length new <= 1)%nat.
Proof.
  unfold completeBusiness. intros (_ & s & [_ ->]%throw_if_ok & Hr)%bind_ok.
  apply bind_ok in Hr as (u0 & s & Hreq & Hr). destruct (requireCurrent_ok _ _ _ _ Hreq) as (-> & _).
  apply bind_ok in Hr as (i & s & [_ ->]%uuidParam_ok & Hr). apply bind_ok in Hr as (g & s & Hg & Hr).
  unfold bigintParam in Hg. destruct (bigint_in _); [|done]. injection Hg as <- <-.
  apply bind_ok in Hr as (u1 & s & Hins & Hr). apply bind_ok in Hr as (m & s' & Hm & Hr).
  unfold query, gets in Hm. injection Hm as Hm <-. apply throw_if_ok in Hr as [_ ->].
  apply execute_or_ok in Hins as (d & Hd & ->). unfold insertCompletion in Hd.
  destruct (existsb _ _); [injection Hd as <-; exists []; rewrite app_nil_r; split; [done|cbn; lia]|].
  destruct (guardO _); [|done]. injection Hd as <-. eexists [_]. split; [reflexivity|cbn; lia].
Qed.
Lemma transact_already rq g eid x w' : ledger_ok (gv_db g) ->
  transact payloads (ac_roomId rq) (completeClaimed rq (gv_agents g)) (gv_world g) = (Ok (AlreadyApplied eid, x), w') ->
  exists j run locked, already_applied_for rq eid g (set_agents x (set_world w' g)) j run locked.
Proof.
  intros Hok (locked & snapshot & w0 & Hen & Hr & _)%transact_ok. assert (db w0 = gv_db g) as Hdb by (by rewrite (en_world _ _ _ _ _ Hen)).
  apply completeClaimed_cases in Hr as (-> & i & j & run & rid & e & [Hi Hj Hid Hcur Hrun] & <- & Hf & Hc).
  pose proof (complete_frame _ _ _ _ _ Hc) as Hfr. pose proof (complete_adds _ _ _ _ _ Hc) as Hnew. rewrite Hdb in Hfr, Hnew.
  destruct (entered_row _ _ _ _ _ Hok Hen rid (ro_room _ _ _ _ Hrun)) as (Hin & Hlid & _ & _ & Hsid & _).
  destruct (claimed_of _ w0 w0 w' i j Hc Hcur) as [Hcl Hji]; [rewrite Hdb; by apply ledger_job_ids|done|done|].
  exists j, run, locked. rewrite <- Hlid in *. constructor; try done.
  - change (gv_db (set_agents _ _)) with (db w'). by rewrite <- Hdb.
  - split; [done|apply Hrun].
  - exists e. split; [done|]. rewrite <- Hf, Hsid. by apply find_same_events; rewrite Hdb.
Qed.

Lemma refused_tables rq g code x w' :
  transact payloads (ac_roomId rq) (completeClaimed rq (gv_agents g)) (gv_world g) = (Ok (Refused code, x), w') ->
  x = gv_agents g /\ db w' = gv_db g.
Proof.
  intros (locked & snapshot & w0 & Hen & Hr & _)%transact_ok. apply completeClaimed_cases in Hr as [-> ->]. split; [done|].
  by rewrite (en_world _ _ _ _ _ Hen).
Qed.
Lemma same_tables_world w g : db w = gv_db g -> same_tables g (set_world w g).
Proof. intros Hd. by unfold same_tables, gv_db in *. Qed.

End Effect.
