(* ===== verification/AgentLaws.v ===== *)
(** * What the runs of the agent go through

    A room never has two runs under way, a run that has ended stays as it ended
    ([agent_runs_invariant]); a run is created for whom and for what may have one,
    and asking again gives the same run ([agent_request_sound]); and the reconciler ends the
    runs that cannot end by themselves ([stranded]) as they must, the oldest first
    ([reconciler_frees_rooms]). *)
From S2P Require Import Prelude Text JsDate JsValue Utf Canonical Contracts Database Concrete JsMap Ledger Lifecycle Authorization Frames Echo Trace Exports Http Routes ExportFile Messages Governed Jobs Governance GovernanceLaws Deletion Agents Assertion AutoClose AgentComplete.
#[local] Set Warnings "-register-all,-clear-no-such-hyp,-level-tolerance".

(** ** The life of runs *)

Record runs_ok (x : agent_tables) : Prop := {
  rk_ids : NoDup (map rn_id (ax_runs x));
  rk_triggers : NoDup (map (fun r => (rn_room_id r, rn_trigger_event_id r)) (ax_runs x));
  rk_active : NoDup (map rn_room_id (select_where (fun r => isActiveState (rn_state r)) (ax_runs x)));
  rk_begun : Forall (fun r => rn_state r <> a_idle) (ax_runs x);
}.
(** The request a run is for: everything but how far it is. *)
Definition same_request (r r' : run_row) : Prop :=
  rn_id r' = rn_id r /\ rn_room_id r' = rn_room_id r /\ rn_trigger_event_id r' = rn_trigger_event_id r
  /\ rn_teacher_id r' = rn_teacher_id r /\ rn_member_id r' = rn_member_id r /\ rn_from_seq r' = rn_from_seq r
  /\ rn_through_seq r' = rn_through_seq r /\ rn_correlation_id r' = rn_correlation_id r /\ rn_created_at r' = rn_created_at r.
(** One change: nothing, a new run, or the end of one under way. *)
Inductive run_change (x x' : agent_tables) : Prop :=
| runs_same : ax_runs x' = ax_runs x -> run_change x x'
| run_created r : ax_runs x' = ax_runs x ++ [r] -> rn_state r = a_queued -> rn_id r ∉ map rn_id (ax_runs x) ->
    (rn_room_id r, rn_trigger_event_id r) ∉ map (fun r => (rn_room_id r, rn_trigger_event_id r)) (ax_runs x) ->
    rn_room_id r ∉ map rn_room_id (select_where (fun r => isActiveState (rn_state r)) (ax_runs x)) -> run_change x x'
| run_ended r s code now : r ∈ ax_runs x -> isActiveState (rn_state r) = true -> s ∈ [a_cancelled; a_failed; a_completed] ->
    ax_runs x' = update_where (isRun (rn_id r)) (movedRun s code now) (ax_runs x) -> run_change x x'.

Lemma filter_update_sublist (p : run_row -> bool) f h l : (forall r, f r = true -> p (h r) = false) ->
  sublist (map rn_room_id (List.filter p (update_where f h l))) (map rn_room_id (List.filter p l)).
Proof.
  intros Hp. induction l as [|x l IH]; [done|]. cbn. destruct (f x) eqn:Hf.
  - rewrite (Hp x Hf). destruct (p x); [by apply sublist_cons|done].
  - destruct (p x); [by apply sublist_skip|done].
Qed.
Lemma map_update_where {A} (key : run_row -> A) f h l : (forall r, key (h r) = key r) -> map key (update_where f h l) = map key l.
Proof. intros Hk. unfold update_where. rewrite map_map. apply map_ext. intros x. by destruct (f x). Qed.
Lemma existsb_false_elem {A} (p : A -> bool) l x : existsb p l = false -> x ∈ l -> p x = false.
Proof. intros Hn Hx. destruct (p x) eqn:E; [|done]. rewrite <- Hn. symmetry. apply existsb_exists. exists x. by rewrite <- list_elem_of_In. Qed.
Lemma ended_inactive s : s ∈ [a_cancelled; a_failed; a_completed] -> isActiveState s = false /\ s <> a_idle.
Proof. intros [->|[->|[->|[]%elem_of_nil]%elem_of_cons]%elem_of_cons]%elem_of_cons; by vm_compute. Qed.
Lemma run_change_ok x x' : run_change x x' -> runs_ok x -> runs_ok x'.
Proof.
  intros [Hs|r Hr Hq Hid Htr Hroom|r s code now Hin Ha Hs Hr] [H1 H2 H3 H4]; constructor.
  all: try (by rewrite Hs). all: rewrite Hr.
  - rewrite map_app. apply NoDup_app. split_and!; [done| |apply NoDup_singleton]. intros y Hy ->%list_elem_of_singleton. done.
  - rewrite map_app. apply NoDup_app. split_and!; [done| |apply NoDup_singleton]. intros y Hy ->%list_elem_of_singleton. done.
  - unfold select_where in *. rewrite List.filter_app, map_app. cbn. rewrite Hq. cbn. apply NoDup_app.
    split_and!; [done| |apply NoDup_singleton]. intros y Hy ->%list_elem_of_singleton. done.
  - apply Forall_app. split; [done|]. constructor; [by rewrite Hq|constructor].
  - by rewrite map_update_where.
  - by rewrite map_update_where.
  - eapply sublist_NoDup; [exact H3|]. apply filter_update_sublist. intros y _. cbn. by apply ended_inactive.
  - apply Forall_forall. intros y (z & Hz & ->)%GovernanceLaws.update_where_elem. rewrite Forall_forall in H4. destruct (isRun _ z); [|by apply H4].
    cbn. by apply ended_inactive.
Qed.
(** What has ended stays. *)
Lemma run_change_keeps x x' r : run_change x x' -> runs_ok x -> r ∈ ax_runs x ->
  exists r', r' ∈ ax_runs x' /\ same_request r r' /\ (isActiveState (rn_state r) = false -> r' = r).
Proof.
  intros [Hs|r0 Hr _ _ _ _|r0 s code now Hin Ha Hs Hr] Hok Hx.
  - exists r. by rewrite Hs.
  - exists r. rewrite Hr. split; [|done]. apply elem_of_app. by left.
  - exists (if isRun (rn_id r0) r then movedRun s code now r else r). split; [rewrite Hr; apply list_elem_of_fmap; by exists r|].
    destruct (isRun (rn_id r0) r) eqn:Hid; [|done]. apply bool_decide_eq_true in Hid.
    assert (r = r0) as -> by (eapply (NoDup_map_eq rn_id); eauto using rk_ids). split; [done|]. by rewrite Ha.
Qed.

(** *** Steps *)

(** A computation changes the runs in that way, from a state and from every state. *)
Definition changes_at {A} (m : GV A) (g : governed) : Prop := rtc run_change (gv_agents g) (gv_agents (snd (m g))).
Definition changes {A} (m : GV A) : Prop := forall g, changes_at m g.
Definition keeps_agents {A} (m : GV A) : Prop := forall g, gv_agents (snd (m g)) = gv_agents g.
Create HintDb changes.
Lemma leaves_keeps {A} (m : GV A) : leaves_tables m -> keeps_agents m.
Proof. intros Hl g. by destruct (Hl g) as (_ & _ & _ & _ & _ & _ & _ & _ & _ & _ & _ & ?). Qed.
Lemma keeps_changes {A} (m : GV A) : keeps_agents m -> changes m.
Proof. intros Hk g. unfold changes_at. by rewrite Hk. Qed.
Lemma leaves_changes {A} (m : GV A) : leaves_tables m -> changes m.
Proof. intros Hl. by apply keeps_changes, leaves_keeps. Qed.
Lemma changes_bind_at {A B} (m : GV A) (f : A -> GV B) g : changes_at m g ->
  (forall a g', m g = (Ok a, g') -> changes_at (f a) g') -> changes_at (m ≫= f) g.
Proof.
  unfold changes_at, mbind, M_bind. intros Hm Hf. destruct (m g) as [[a|e] g1] eqn:E; cbn in *; [|done].
  etrans; [exact Hm|]. by apply Hf.
Qed.
Lemma changes_bind {A B} (m : GV A) (f : A -> GV B) : changes m -> (forall a, changes (f a)) -> changes (m ≫= f).
Proof. intros Hm Hf g. apply changes_bind_at; [done|]. intros a g' _. apply Hf. Qed.
Lemma changes_try {A} (m : GV A) (h : failure -> GV A) : changes m -> (forall e, changes (h e)) -> changes (try_catch m h).
Proof.
  intros Hm Hh g. specialize (Hm g). unfold changes_at, try_catch in *. destruct (m g) as [[a|e] g1]; cbn in *; [done|].
  etrans; [exact Hm|]. apply Hh.
Qed.
Lemma changes_transaction `{Environment} {A} (work : GV A) : changes work -> changes (inTransactionG work).
Proof.
  intros Hw g. unfold changes_at. destruct (inTransactionG work g) as [[a|e] g'] eqn:E.
  - apply inTransactionG_ok in E as (g0 & Hs & _ & E). specialize (Hw g0). unfold changes_at in Hw. rewrite E in Hw. destruct Hs as (_ & _ & _ & _ & _ & _ & _ & _ & _ & _ & _ & Ha).
    by rewrite <- Ha.
  - apply inTransactionG_err in E. destruct E as (_ & _ & _ & _ & _ & _ & _ & _ & _ & _ & _ & Ha). cbn. by rewrite Ha.
Qed.
Lemma changes_update f : (forall x, rtc run_change x (f x)) -> changes (agentUpdate f).
Proof. intros Hf g. unfold changes_at, agentUpdate, modify, onAgents. cbn. apply Hf. Qed.

Section Changes.
Context `{Schemas} `{Postgres} `{Environment} `{Sha1} `{BigintText} `{Crypto}.
Variable providerId manifestSha256 : string.

Lemma leaves_clockParam : leaves_tables clockParam.
Proof. intros g. unfold clockParam, ofRooms, mbind, M_bind. cbn. by case_match. Qed.
Lemma leaves_isoNow : leaves_tables isoNow.
Proof. intros g. unfold isoNow, ofRooms, mbind, M_bind. cbn. by case_match. Qed.
Lemma leaves_clockNow : leaves_tables (ofRooms clockNow).
Proof. by intros g. Qed.
Lemma leaves_asRun r : leaves_tables (asRun r).
Proof. intros g. unfold asRun. by destruct (runValid r). Qed.
Lemma leaves_lift {A} (r : result failure A) : leaves_tables (lift_result r).
Proof. intros g. by destruct r. Qed.
#[local] Hint Resolve leaves_clockParam leaves_isoNow leaves_clockNow leaves_asRun leaves_lift : leaves.
Ltac leaves := repeat first [apply leaves_bind; [|intros] | case_match | progress auto with leaves].
Lemma leaves_assertNotDeleting rid : leaves_tables (assertNotDeleting rid).
Proof. unfold assertNotDeleting. leaves. Qed.
Lemma leaves_uuidOption s : leaves_tables (uuidOption s).
Proof. unfold uuidOption. leaves. Qed.
#[local] Hint Resolve leaves_assertNotDeleting leaves_uuidOption : leaves.
Lemma leaves_castOwner o : leaves_tables (castOwner o).
Proof. unfold castOwner. leaves. Qed.
#[local] Hint Resolve leaves_castOwner : leaves.
Lemma leaves_requireActiveSession rid o s : leaves_tables (requireActiveSession rid o s).
Proof. unfold requireActiveSession. leaves. Qed.
#[local] Hint Resolve leaves_requireActiveSession : leaves.
Lemma leaves_currentHealth b : leaves_tables (currentHealth b providerId manifestSha256).
Proof. unfold currentHealth. leaves. Qed.
#[local] Hint Resolve leaves_currentHealth : leaves.
Lemma leaves_authorizeMember p sid rid : leaves_tables (authorizeMember p sid rid).
Proof. unfold authorizeMember. leaves. Qed.
Lemma leaves_onlyTeacher p : leaves_tables (onlyTeacher p).
Proof. unfold onlyTeacher. leaves. Qed.
#[local] Hint Resolve leaves_authorizeMember leaves_onlyTeacher : leaves.
Lemma leaves_currentBody rid h : leaves_tables (currentBody rid h).
Proof. unfold currentBody. leaves. Qed.
#[local] Hint Resolve leaves_currentBody : leaves.

(** The statements that change runs. *)
Lemma changes_insertRun r : rn_state r = a_queued -> changes (insertRun r).
Proof.
  intros Hq g. unfold changes_at, insertRun. destruct (runAccepted r g) eqn:Ha; cbn; [|done].
  destruct (existsb _ _) eqn:Ht; cbn; [done|]. rewrite Hq. cbn. case_bool_decide as Hb; cbn; [|done].
  unfold onAgents. apply rtc_once. eapply run_created; [done|done|..].
  - unfold runAccepted in Ha. split_bools. by apply existsb_bool_decide_false.
  - intros (x & Hx & Hin)%list_elem_of_fmap. apply (existsb_false_elem _ _ x) in Ht; [|done].
    unfold sameTrigger in Ht. injection Hx as Hx1 Hx2. rewrite !bool_decide_true in Ht; done.
  - intros (x & Hx & Hin)%list_elem_of_fmap. assert (x ∈ activeRuns (rn_room_id r) g) as Hin'; [|by rewrite Hb in Hin'; apply elem_of_nil in Hin'].
    apply select_where_elem in Hin as [Hin Hact]. unfold activeRuns, runsOf. rewrite !select_where_elem. split_and!; [done| |done].
    by apply bool_decide_eq_true.
Qed.
Lemma changes_executeDb f : (forall now g g', f now g = Some g' -> gv_agents g' = gv_agents g) -> changes (executeG f).
Proof.
  intros Hf. apply keeps_changes. intros g. unfold executeG. destruct (f _ g) as [g'|] eqn:E; cbn; [by eapply Hf|done].
Qed.
Lemma changes_aside f : (forall x, ax_runs (f x) = ax_runs x) -> changes (agentUpdate f).
Proof. intros Hf. apply changes_update. intros x. by apply rtc_once, runs_same. Qed.
Lemma addTransition_runs t x : ax_runs (addTransition t x) = ax_runs x.
Proof. unfold addTransition. by destruct (existsb _ _). Qed.
Lemma addControl_runs c x : ax_runs (addControl c x) = ax_runs x.
Proof. unfold addControl. by destruct (existsb _ _). Qed.
Lemma changes_transition t : changes (agentUpdate (addTransition t)).
Proof. apply changes_aside, addTransition_runs. Qed.
Lemma changes_control c : changes (agentUpdate (addControl c)).
Proof. apply changes_aside, addControl_runs. Qed.
Lemma changes_enabled rid b : changes (agentUpdate (fun x => withEnabled (map_set rid b (ax_enabled x)) x)).
Proof. by apply changes_aside. Qed.
Lemma changes_cancelExecution id now : changes (modify (cancelExecution id now)).
Proof. intros g. by apply rtc_once, runs_same. Qed.
Lemma changes_insertExecution id rid tr corr now : changes (insertExecution id rid tr corr now).
Proof.
  apply changes_bind; [apply leaves_changes; auto with leaves|]. intros j. apply changes_executeDb.
  intros t g g' (d & _ & [= <-])%bind_Some. done.
Qed.
#[local] Hint Resolve changes_insertRun changes_transition changes_control changes_enabled changes_cancelExecution changes_insertExecution : changes.
Ltac changes := repeat first [progress auto with changes | apply changes_bind; [|intros] | case_match | by apply leaves_changes; leaves].
Lemma changes_createBody rid tr o s before : keeps_agents before -> changes (createBody rid tr o s before).
Proof. intros Hb%keeps_changes. unfold createBody, createRun. changes. Qed.
Lemma changes_getOrCreate n rid tr o s before : keeps_agents before -> changes (getOrCreateRunAndJob n rid tr o s before).
Proof.
  intros Hb. induction n as [|n IH]; cbn; apply changes_try; try (by apply changes_transaction, changes_createBody).
  all: intros e; repeat case_match; try done; apply leaves_changes; auto with leaves.
Qed.
(** The end of a run that is under way. *)
Lemma changes_moveRun_at r s code now g : r ∈ ax_runs (gv_agents g) -> isActiveState (rn_state r) = true ->
  s ∈ [a_cancelled; a_failed; a_completed] -> changes_at (agentUpdate (moveRun (rn_id r) s (Some code) now)) g.
Proof. intros Hin Ha Hs. apply rtc_once. by eapply run_ended. Qed.
Lemma leaves_agents {A} (m : GV A) g a g' : leaves_tables m -> m g = (Ok a, g') -> gv_agents g' = gv_agents g.
Proof. intros Hl%leaves_keeps E. specialize (Hl g). by rewrite E in Hl. Qed.
Lemma asRun_ok r g r' g' : asRun r g = (Ok r', g') -> r' = r /\ g' = g.
Proof. unfold asRun. destruct (runValid r); intros [=]; done. Qed.
Lemma changes_leaves_at {A B} (m : GV A) (f : A -> GV B) g : leaves_tables m ->
  (forall a g', m g = (Ok a, g') -> gv_agents g' = gv_agents g -> changes_at (f a) g') -> changes_at (m ≫= f) g.
Proof. intros Hl Hf. apply changes_bind_at; [by apply leaves_changes|]. intros a g' E. apply Hf; [done|]. by eapply leaves_agents. Qed.
Lemma changes_cancelLocked_at r causationId code g : r ∈ ax_runs (gv_agents g) -> isActiveState (rn_state r) = true ->
  changes_at (cancelLocked r causationId code) g.
Proof.
  intros Hin Ha. apply changes_leaves_at; [auto with leaves|]. intros now g1 _ Hag.
  apply changes_bind_at; [apply changes_moveRun_at; [by rewrite Hag|done|left]|]. intros u g2 _.
  match goal with |- changes_at ?m g2 => cut (changes m); [intros Hc; apply Hc|] end. changes.
Qed.
Lemma runsOf_elem rid g r : r ∈ runsOf rid g -> r ∈ ax_runs (gv_agents g).
Proof. by intros [? _]%select_where_elem. Qed.
Lemma changes_cancelBody rid id t c s : changes (cancelBody rid id t c s).
Proof.
  unfold cancelBody. do 5 (apply changes_bind; [by apply leaves_changes; leaves|intros ?]). intros g.
  apply changes_leaves_at; [leaves|]. intros found g1 [-> ->]%txQuery_ok _. destruct (existsb _ _); [|by apply leaves_changes; leaves].
  destruct (select_where _ _) as [|r [|]] eqn:Hs; try (by apply leaves_changes; leaves).
  assert (r ∈ ax_runs (gv_agents g)) as Hin.
  { apply (runsOf_elem a). eapply (proj1 (select_where_elem _ _ _)). rewrite Hs. left. }
  apply changes_bind_at; [by apply leaves_changes; leaves|]. intros r' g' [-> ->]%asRun_ok.
  apply changes_bind_at; [by apply leaves_changes; leaves|]. intros u g' [Hn ->]%throw_if_ok.
  apply changes_cancelLocked_at; [done|]. by apply negb_false_iff in Hn.
Qed.
Lemma oldestActive_elem rid g r : oldestActive rid g = Some r -> r ∈ ax_runs (gv_agents g) /\ isActiveState (rn_state r) = true.
Proof.
  unfold oldestActive, activeRuns. intros (l & Hl)%head_Some.
  assert (r ∈ sort_by (fun a b => rn_created_at a <=? rn_created_at b) (select_where (fun r => isActiveState (rn_state r)) (runsOf rid g))) as Hin.
  { rewrite Hl. left. }
  rewrite sort_by_elem in Hin. apply select_where_elem in Hin as [Hin ?]. split; [by eapply runsOf_elem|done].
Qed.
Lemma changes_settingsBody rid t b c s : changes (settingsBody rid t b c s).
Proof.
  unfold settingsBody. do 5 (apply changes_bind; [by apply leaves_changes; leaves|intros ?]).
  do 2 (apply changes_bind; [changes|intros ?]). apply changes_bind; [|intros; changes].
  destruct b; [by apply leaves_changes; leaves|]. intros g.
  apply changes_leaves_at; [leaves|]. intros active g1 [-> ->]%txQuery_ok _.
  destruct (oldestActive a g) as [r|] eqn:Ho; [|by apply leaves_changes; leaves]. apply oldestActive_elem in Ho as [Hin Ha].
  apply changes_bind_at; [by apply leaves_changes; leaves|]. intros r' g' [-> ->]%asRun_ok.
  apply changes_bind_at; [by apply changes_cancelLocked_at|]. intros d g' _. by apply leaves_changes; leaves.
Qed.
Lemma changes_settleBody o : changes (settleBody o).
Proof.
  intros g. apply changes_leaves_at; [leaves|]. intros fresh g1 [-> ->]%txQuery_ok _.
  destruct (find _ _) as [r|] eqn:Hf; [|by apply leaves_changes; leaves].
  destruct (isActiveState (rn_state r)) eqn:Ha; cbn; [|by apply leaves_changes; leaves].
  apply find_some in Hf as [Hin Hid]. apply list_elem_of_In in Hin. apply bool_decide_eq_true in Hid as <-.
  destruct (outcomeOf (or_reason o)) as [terminal code] eqn:Ho. apply changes_leaves_at; [leaves|]. intros now g1 _ Hag.
  apply changes_bind_at; [apply changes_moveRun_at; [by rewrite Hag|done|]|].
  - destruct (or_reason o); injection Ho as <- <-; apply (bool_decide_unpack _); vm_compute; exact I.
  - intros u g2 _. match goal with |- changes_at ?m g2 => cut (changes m); [intros Hc; apply Hc|] end. changes.
Qed.

(** Everything that is done with the agents of the rooms, each time it is called. *)
Inductive agent_step (g : governed) : governed -> Prop :=
| step_request p sid rid tr admitCreate : keeps_agents admitCreate ->
    agent_step g (snd (agentRequest providerId manifestSha256 p sid rid tr admitCreate g))
| step_cancel p sid rid runId : agent_step g (snd (agentCancel p sid rid runId g))
| step_current p sid rid : agent_step g (snd (agentCurrent providerId manifestSha256 p sid rid g))
| step_settings p sid rid enabled : agent_step g (snd (agentSettings p sid rid enabled g))
| step_complete payloads trust raw value : agent_step g (snd (completeRun payloads trust raw value g))
| step_reconcile n : agent_step g (snd (reconcile n g))
| step_health s : agent_step g (snd (upsertHealth s g))
| step_elsewhere g' : gv_agents g' = gv_agents g -> agent_step g g'.
Lemma keeps_admission admitCreate : keeps_agents admitCreate -> keeps_agents (admission providerId manifestSha256 admitCreate).
Proof.
  intros Ha g. unfold admission. unfold mbind, M_bind. pose proof (leaves_keeps _ (leaves_currentHealth true) g) as Hc.
  destruct (currentHealth _ _ _ g) as [[h|e] g1]; cbn in *; [|done]. unfold throw_if. destruct (negb _); cbn; [done|]. by rewrite Ha.
Qed.
Lemma changes_mapM {A B} (f : A -> GV B) l : (forall a, changes (f a)) -> changes (mapM f l).
Proof. intros Hf. induction l as [|a l IH]; cbn; [by apply leaves_changes; auto with leaves|]. changes. Qed.
Lemma completedRuns_change rq run rid eid i now x : run_of rq x rid run -> isActiveState (rn_state run) = true ->
  run_change x (completedRuns rq run eid i now x).
Proof.
  intros [_ _ Hf _ _] Ha. apply find_some in Hf as [Hin%list_elem_of_In _]. eapply (run_ended _ _ run a_completed None now); [done|done| |].
  - apply (bool_decide_unpack _). vm_compute. exact I.
  - unfold completedRuns. by rewrite addTransition_runs.
Qed.
Lemma changes_completeRun payloads trust raw value : changes (completeRun payloads trust raw value).
Proof.
  unfold completeRun. apply changes_bind; [by apply leaves_changes; leaves|intros first].
  do 2 (case_match; [|by apply leaves_changes; leaves]). case_match; [by apply leaves_changes; leaves|].
  apply changes_bind; [by apply leaves_changes; leaves|intros second]. case_match; [|by apply leaves_changes; leaves].
  case_match; [by apply leaves_changes; leaves|]. apply changes_try; [|intros e; case_match; by apply leaves_changes; leaves].
  intros g. unfold changes_at. rewrite transactAgents_run. destruct (transact _ _ _ _) as [[[resp x]|e] w'] eqn:Ht; [|done].
  cbn. apply transact_ok in Ht as (locked & snapshot & w0 & _ & Hr & _). apply completeClaimed_cases in Hr.
  destruct resp as [eid|eid|code]; [|by destruct Hr as [-> _]..].
  destruct Hr as (i & jb & run & rid & now & ev & w1 & txNow & [_ _ _ _ Hrun] & Hact & _ & _ & _ & _ & -> & _).
  apply rtc_once. by eapply completedRuns_change.
Qed.
Lemma changes_upsert s : changes (upsertHealth s).
Proof.
  unfold upsertHealth. apply changes_bind; [by apply leaves_changes; leaves|]. intros now g. apply rtc_once, runs_same.
  unfold poolReturning, upsertSample. repeat case_match; simplify_eq; done.
Qed.
Lemma agent_step_changes g g' : agent_step g g' -> rtc run_change (gv_agents g) (gv_agents g').
Proof.
  assert (forall o, leaves_tables (A:=string) (throw o)) as Ht by auto with leaves.
  intros [p sid rid tr admitCreate Ha|p sid rid runId|p sid rid|p sid rid enabled|payloads trust raw value|n|s|g'' Hg].
  - assert (changes (agentRequest providerId manifestSha256 p sid rid tr admitCreate)) as Hc; [|apply Hc]. unfold agentRequest.
    apply changes_bind; [by apply leaves_changes; leaves|]. intros owner. apply changes_bind; [|intros []; by apply leaves_changes; leaves].
    apply changes_try; [by apply changes_getOrCreate, keeps_admission|]. intros e. by apply leaves_changes; leaves.
  - assert (changes (agentCancel p sid rid runId)) as Hc; [|apply Hc]. unfold agentCancel.
    do 2 (apply changes_bind; [by apply leaves_changes; leaves|intros ?]). apply changes_bind; [|intros ?; by apply leaves_changes; leaves].
    apply changes_try; [|intros e; by apply leaves_changes; leaves]. apply changes_bind; [by apply leaves_changes; leaves|intros c].
    apply changes_transaction, changes_cancelBody.
  - assert (changes (agentCurrent providerId manifestSha256 p sid rid)) as Hc; [|apply Hc]. unfold agentCurrent.
    apply changes_bind; [by apply leaves_changes; leaves|intros ?]. apply changes_try; [|intros e; by apply leaves_changes; leaves].
    apply changes_bind; [by apply leaves_changes; leaves|intros h]. apply changes_transaction. by apply leaves_changes; leaves.
  - assert (changes (agentSettings p sid rid enabled)) as Hc; [|apply Hc]. unfold agentSettings.
    do 2 (apply changes_bind; [by apply leaves_changes; leaves|intros ?]).
    apply changes_try; [|intros e; by apply leaves_changes; leaves]. apply changes_bind; [by apply leaves_changes; leaves|intros c].
    apply changes_transaction, changes_settingsBody.
  - apply changes_completeRun.
  - assert (changes (reconcile n)) as Hc; [|apply Hc]. unfold reconcile. apply changes_bind; [by apply leaves_changes; leaves|intros l].
    apply changes_bind; [|intros ?; by apply leaves_changes; leaves]. apply changes_mapM. intros o. apply changes_transaction, changes_settleBody.
  - apply changes_upsert.
  - by rewrite Hg.
Qed.
Lemma changes_keep x x' : rtc run_change x x' -> runs_ok x -> runs_ok x' /\ forall r, r ∈ ax_runs x ->
  exists r', r' ∈ ax_runs x' /\ same_request r r' /\ (isActiveState (rn_state r) = false -> r' = r).
Proof.
  induction 1 as [x|x y z Hc _ IH]; intros Hok; [split; [done|]; intros r Hr; by exists r|].
  destruct (IH (run_change_ok _ _ Hc Hok)) as [Hok' Hk]. split; [done|]. intros r Hr.
  destruct (run_change_keeps _ _ r Hc Hok Hr) as (r1 & Hr1 & Hs1 & He1). destruct (Hk r1 Hr1) as (r2 & Hr2 & Hs2 & He2).
  exists r2. split; [done|]. split; [unfold same_request in *; naive_solver congruence|].
  intros Ha. specialize (He1 Ha). subst r1. by apply He2.
Qed.

(** ** Requests *)

Lemma leaves_ok {A} (m : GV A) g a g' : leaves_tables m -> m g = (Ok a, g') -> same_tables g g'.
Proof. intros Hl E. specialize (Hl g). by rewrite E in Hl. Qed.
Lemma try_throw_ok {A} (m : GV A) (f : failure -> failure) g a g' :
  try_catch m (fun e => throw (f e)) g = (Ok a, g') -> m g = (Ok a, g').
Proof. unfold try_catch, throw. destruct (m g) as [[b|e] g1]; [done|]. intros [=]. Qed.
(** Where the answer comes from one attempt that is committed. *)
Lemma getOrCreate_ok n rid tr o s before g a g' : getOrCreateRunAndJob n rid tr o s before g = (Ok a, g') ->
  exists g0, same_tables g g0 /\ createBody rid tr o s before g0 = (Ok a, g').
Proof.
  revert g. induction n as [|n IH]; intros g; cbn; unfold try_catch.
  all: destruct (inTransactionG _ g) as [[b|e] g1] eqn:E.
  1,3: intros [= -> ->]; apply inTransactionG_ok in E as (g0 & ? & _ & ?); by exists g0.
  - case_bool_decide; intros [=].
  - apply inTransactionG_err in E. case_bool_decide; [|case_bool_decide; intros [=]].
    intros (g0 & Hs & Hc)%IH. exists g0. split; [by etrans|done].
Qed.
Lemma assertNotDeleting_ok rid g u g' : assertNotDeleting rid g = (Ok u, g') -> deletionActiveIn rid (gv_db g) = false /\ g' = g.
Proof. unfold assertNotDeleting. intros Hr. by run_gov. Qed.
(** What a message must be for a run about it. *)
Record triggered (rid trigger : string) (e latest : event_row) (g : governed) : Prop := {
  tg_event : e ∈ events (gv_db g) /\ ev_room_id e = rid /\ ev_event_id e = trigger;
  tg_person : ev_actor_kind e <> agent;
  tg_message : exists m, textIn "messageId" (ev_payload e) = Some m /\ latestOfMessage rid m g = Some latest;
  tg_kept : ev_operation latest <> retract;
}.
Lemma triggered_tables rid trigger e latest g g1 : gv_db g1 = gv_db g -> triggered rid trigger e latest g1 -> triggered rid trigger e latest g.
Proof. intros Hd [He Hp Hm Hk]. unfold latestOfMessage in Hm. rewrite Hd in *. by constructor. Qed.
Lemma triggerMessage_ok e m : triggerMessage e = Ok m -> ev_actor_kind e <> agent /\ textIn "messageId" (ev_payload e) = Some m.
Proof. unfold triggerMessage. case_bool_decide; [done|]. destruct (textIn _ _) as [x|]; [|done]. destruct (_ && _); [|done]. by intros [= ->]. Qed.
Lemma insertRun_ok r g u g' : insertRun r g = (Ok u, g') -> existsb (isRun (rn_id r)) (ax_runs (gv_agents g)) = false
  /\ g' = onAgents (fun x => withRuns (ax_runs x ++ [r]) x) g.
Proof.
  unfold insertRun. destruct (runAccepted r g) eqn:Ha; cbn; [|done]. repeat (case_match; [done|]). intros [= _ <-]. split; [|done].
  unfold runAccepted in Ha. by split_bools.
Qed.
Lemma insertExecution_ok id rid tr corr now g u g' : insertExecution id rid tr corr now g = (Ok u, g') -> gv_agents g' = gv_agents g
  /\ exists j, jobs (gv_db g') = jobs (gv_db g) ++ [j] /\ jb_dedupe_key j = executeKey id /\ jb_status j = queued.
Proof.
  unfold insertExecution. intros (jobId & g1 & Hs%leaves_ok & Hr)%bind_ok; [|leaves]. apply executeG_ok in Hr.
  apply bind_Some in Hr as (d & Hd & [= <-]). destruct Hs as (Hdb & _ & _ & _ & _ & _ & _ & _ & _ & _ & _ & Hag). split; [done|].
  unfold insertJob in Hd. repeat (apply bind_Some in Hd as (? & _ & Hd)). injection Hd as <-. cbn. rewrite Hdb. by eexists.
Qed.
Lemma addTransition_elem t x : exists t', t' ∈ ax_transitions (addTransition t x) /\ ts_causation_id t' = ts_causation_id t.
Proof.
  unfold addTransition. destruct (existsb _ _) eqn:He.
  - apply existsb_exists in He as (t' & Hin%list_elem_of_In & Ht%bool_decide_eq_true). by exists t'.
  - exists t. split; [|done]. apply elem_of_app. right. left.
Qed.
Record granted_run (rid trigger : string) (role : Role) (run : run_row) (g : governed) : Prop := {
  gr_room : exists room, roomOf rid g = Some room /\ rm_status room = open
    /\ exists e latest, triggered rid trigger e latest g /\ rn_through_seq run = ev_room_seq latest
         /\ (role = r_student -> JStr (rm_nova_actor_id room) ∈ mentionsOf latest);
  gr_kept : deletionActiveIn rid (gv_db g) = false;
  gr_enabled : agentEnabled rid g = true;
  gr_idle : activeRuns rid g = [];
  gr_run : rn_room_id run = rid /\ rn_trigger_event_id run = trigger /\ rn_state run = a_queued;
}.
Lemma createRun_ok rid trigger room o before g run created g' : leaves_tables before ->
  createRun rid trigger room o before g = (Ok (run, created), g') -> created = true
  /\ (rm_status room = open /\ agentEnabled rid g = true /\ activeRuns rid g = []
      /\ rn_room_id run = rid /\ rn_trigger_event_id run = trigger /\ rn_state run = a_queued
      /\ exists e latest, triggered rid trigger e latest g /\ rn_through_seq run = ev_room_seq latest
         /\ (ow_role o = r_student -> JStr (rm_nova_actor_id room) ∈ mentionsOf latest))
  /\ (exists g1 g2, same_tables g g1 /\ before g1 = (Ok tt, g2))
  /\ ax_runs (gv_agents g') = ax_runs (gv_agents g) ++ [run]
  /\ (exists j, jobs (gv_db g') = jobs (gv_db g) ++ [j] /\ jb_dedupe_key j = executeKey (rn_id run) /\ jb_status j = queued)
  /\ (exists t, t ∈ ax_transitions (gv_agents g') /\ ts_causation_id t = trigger).
Proof.
  intros Hb Hr. unfold createRun in Hr. run_gov. split_bools.
  destruct (select_where _ (events (gv_db g))) as [|e [|]] eqn:Hev; [by run_ok| |by run_ok].
  assert (e ∈ events (gv_db g) /\ ev_room_id e = rid /\ ev_event_id e = trigger) as Hin.
  { assert (e ∈ select_where (fun x => bool_decide (ev_room_id x = rid) && bool_decide (ev_event_id x = trigger)) (events (gv_db g))) as Hin
      by (rewrite Hev; left). apply select_where_elem in Hin as [? ?]. by split_bools. }
  apply bind_ok in Hr as (m & ? & Hm & Hr). unfold lift_result in Hm. injection Hm as Hm <-. apply triggerMessage_ok in Hm as [Hperson Hmid].
  apply bind_ok in Hr as (latest & ? & [-> ->]%txQuery_ok & Hr). destruct (latestOfMessage rid m g) as [latest|] eqn:Hlatest; [|by run_ok].
  run_gov. split_bools. repeat match goal with v : () |- _ => destruct v end.
  match goal with Hx : before g = (Ok _, ?g1), Hy : castOwner _ _ = (Ok _, ?g2) |- _ =>
    assert (same_tables g g2) as Hs by (apply leaves_ok in Hx, Hy; [|leaves|done]; repeat match goal with
      | Hz : uuidNew g1 = _ |- _ => apply leaves_ok in Hz; [|leaves]
      | Hz : clockParam _ = _ |- _ => apply leaves_ok in Hz; [|leaves] end; do 3 (etrans; [eassumption|]); eassumption) end.
  match goal with Hx : insertRun _ _ = _ |- _ => apply insertRun_ok in Hx as [Hfresh ->] end.
  match goal with Hx : insertExecution _ _ _ _ _ _ = _ |- _ => apply insertExecution_ok in Hx as [Hxa (j & Hj & Hkey & Hq)] end.
  match goal with Hx : uuidNew _ = (Ok _, ?g2), Hy : agentUpdate _ ?g2 = _ |- _ =>
    apply leaves_ok in Hx; [|leaves]; destruct Hx as (Hxd & _ & _ & _ & _ & _ & _ & _ & _ & _ & _ & Hxb);
    unfold agentUpdate, modify in Hy; injection Hy as <- end.
  cbn in Hr. rewrite addTransition_runs, Hxb, Hxa in Hr. cbn in Hr. rewrite find_app_none in Hr; [|done|by apply bool_decide_eq_true].
  apply bind_ok in Hr as (run' & ? & [-> ->]%asRun_ok & Hr). injection Hr as <- <- <-. destruct Hs as (Hdb & _ & _ & _ & _ & _ & _ & _ & _ & _ & _ & Hag).
  split; [done|]. split.
  - split_and!; [done..|]. exists e, latest. split_and!; [by constructor; eauto|done|]. intros Hstudent.
    match goal with Hx : negb _ && negb _ = false |- _ =>
      rewrite Hstudent, (bool_decide_false (r_student = r_teacher)) in Hx by done; cbn in Hx; by split_bools end.
  - split_and!; [exists g; eexists; split; [reflexivity|eassumption]|by cbn; rewrite addTransition_runs, Hxb, Hxa; cbn; rewrite Hag| |].
    + exists j. split_and!; [|done|done]. etrans; [exact (f_equal jobs Hxd)|]. rewrite Hj. exact (f_equal (fun d => jobs d ++ [j]) Hdb).
    + cbn. apply (addTransition_elem (TransitionRow _ _ _ _ _ _ _)).
Qed.
Lemma createBody_ok rid0 tr o s before g run created g' : leaves_tables before ->
  createBody rid0 tr o s before g = (Ok (run, created), g') -> exists rid trigger, uuid_in rid0 = Some rid /\ uuid_in tr = Some trigger
  /\ (if created : bool then granted_run rid trigger (ow_role o) run g
        /\ (exists g1 g2, same_tables g g1 /\ before g1 = (Ok tt, g2))
        /\ ax_runs (gv_agents g') = ax_runs (gv_agents g) ++ [run]
        /\ (exists j, jobs (gv_db g') = jobs (gv_db g) ++ [j] /\ jb_dedupe_key j = executeKey (rn_id run) /\ jb_status j = queued)
        /\ (exists t, t ∈ ax_transitions (gv_agents g') /\ ts_causation_id t = trigger)
      else same_tables g g' /\ run ∈ runsOf rid g /\ rn_trigger_event_id run = trigger).
Proof.
  intros Hb Hr. unfold createBody in Hr. apply bind_ok in Hr as (rid & ? & [Hrid ->]%uuidG_ok & Hr).
  apply bind_ok in Hr as (u & ? & [Hdel ->]%assertNotDeleting_ok & Hr). apply bind_ok in Hr as (room & ? & [-> ->]%txQuery_ok & Hr).
  destruct (roomOf rid g) as [room|] eqn:Hroom; [|by run_ok].
  apply bind_ok in Hr as (u' & g1 & Hs%leaves_ok & Hr); [|leaves]. apply bind_ok in Hr as (trigger & ? & [Htr ->]%uuidG_ok & Hr).
  exists rid, trigger. split_and!; [done|done|]. destruct Hs as (Hdb & Hs1 & Hs2 & Hs3 & Hs4 & Hs5 & Hs6 & Hs7 & Hs8 & Hs9 & Hs10 & Hag).
  apply bind_ok in Hr as (existing & ? & [-> ->]%txQuery_ok & Hr).
  assert (runsOf rid g1 = runsOf rid g) as Hruns by (unfold runsOf; by rewrite Hag). rewrite Hruns in Hr.
  destruct (select_where _ (runsOf rid g)) as [|r [|]] eqn:Hold; cycle 1.
  { apply bind_ok in Hr as (r' & ? & [-> ->]%asRun_ok & Hr). injection Hr as <- <- <-.
    assert (r ∈ select_where (fun x => bool_decide (rn_trigger_event_id x = trigger)) (runsOf rid g)) as Hin by (rewrite Hold; left).
    apply select_where_elem in Hin as [? Ht%bool_decide_eq_true]. split_and!; [|done|done]. by unfold same_tables. }
  all: apply createRun_ok in Hr as (-> & Hg & (g2 & g3 & Hs & Hbe) & Hr & Hj & Ht); [|done]; rewrite ?Hag, ?Hdb in *; split_and!;
    [|exists g2, g3; split; [|done]; etrans; [|exact Hs]; by unfold same_tables|done..].
  all: destruct Hg as (Hopen & Hen & Hidle & Hr1 & Hr2 & Hr3 & e & latest & Htg & Hseq & Hm); unfold agentEnabled, activeRuns in *;
    rewrite Hruns, ?Hag in *; constructor; try done; exists room; split_and!; [done|done|]; exists e, latest;
    split_and!; [by eapply triggered_tables|done|done].
Qed.

(** Who a request is from. *)
Definition principalRole (p : AuthSession) : Role := match p with TeacherSession _ _ => r_teacher | StudentSession _ _ _ _ _ => r_student end.
Definition belongs (p : AuthSession) (roomId rid : string) (g : governed) : Prop :=
  match p with
  | TeacherSession t _ => exists tid, uuid_in t = Some tid /\ existsb (ownsRoom rid tid) (rooms (gv_db g)) = true
  | StudentSession r m _ _ _ => r = roomId /\ exists mid x, uuid_in m = Some mid /\ x ∈ members (gv_db g)
      /\ mb_room_id x = rid /\ mb_id x = mid
  end.
Lemma poolQuery_found {A} (f : Z -> governed -> option A) (e : failure) {B} (k : A -> GV B) g b g' :
  (row ← poolQuery f; match row with None => throw e | Some a => k a end) g = (Ok b, g') ->
  exists now a g1, f now g = Some a /\ same_tables g g1 /\ k a g1 = (Ok b, g').
Proof.
  intros (row & g1 & Hq & Hr)%bind_ok. pose proof (leaves_ok _ _ _ _ (leaves_poolQuery f) Hq) as Hs.
  unfold poolQuery in Hq. injection Hq as Hq _. destruct row as [a|]; [|by run_ok]. eauto 6.
Qed.
Lemma authorizeMember_ok p sid roomId g owner g' : authorizeMember p sid roomId g = (Ok owner, g') ->
  exists rid, uuid_in roomId = Some rid /\ belongs p roomId rid g /\ ow_role owner = principalRole p.
Proof.
  unfold authorizeMember. intros Hr. apply bind_ok in Hr as (u1 & ? & [_ ->]%throw_if_ok & Hr).
  apply bind_ok in Hr as (u2 & ? & [Hst ->]%throw_if_ok & Hr). apply bind_ok in Hr as (rid & ? & [Hrid ->]%uuidG_ok & Hr).
  apply bind_ok in Hr as (sid' & ? & [_ ->]%uuidG_ok & Hr). exists rid. split; [done|].
  destruct p as [t a|r m a ps nv]; apply bind_ok in Hr as (x & ? & [Hx ->]%uuidG_ok & Hr).
  - apply poolQuery_found in Hr as (now & d & g1 & Hf & _ & Hr). destruct (_ && _) eqn:Hb; [|done]. split_bools. run_ok. split; [|done]. by exists x.
  - apply poolQuery_found in Hr as (now & [aid d] & g1 & Hf & _ & Hr). run_ok. split; [|done]. split_bools. split; [done|].
    apply bind_Some in Hf as (y & [Hin Hy]%find_some & _). split_bools. exists x, y. by rewrite list_elem_of_In.
Qed.
Lemma admission_ok admitCreate g g' : admission providerId manifestSha256 admitCreate g = (Ok tt, g') ->
  exists h, healthOf providerId manifestSha256 g = Some h /\ hl_health h = healthy.
Proof.
  unfold admission. intros (x & g1 & Hc & Hr)%bind_ok. apply bind_ok in Hr as (u & ? & [Hh ->]%throw_if_ok & _). split_bools. subst x.
  unfold currentHealth in Hc. apply bind_ok in Hc as (row & ? & [-> ->]%txQuery_ok & Hc).
  destruct (healthOf _ _ g) as [h|]; [|by run_ok]. exists h. split; [done|].
  apply bind_ok in Hc as (t1 & ? & _ & Hc). destruct (match t1 with Some _ => _ | None => _ end); [by run_ok|].
  apply bind_ok in Hc as (t2 & ? & _ & Hc). destruct (match t2 with Some _ => _ | None => _ end); by run_ok.
Qed.

(** Identifiers that are keys. *)
Record keys_unique (d : database) : Prop := {
  ku_rooms : NoDup (map rm_id (rooms d));
  ku_sessions : NoDup (map ss_id (sessions d));
  ku_members : NoDup (map mb_id (members d));
}.
(** A session that is neither revoked nor over, at the two moments a request looks at it. *)
Record session_kept (sid : string) (g : governed) (s : session_row) : Prop := {
  sk_there : s ∈ sessions (gv_db g);
  sk_named : isUuid sid = true /\ uuid_in sid = Some (ss_id s);
  sk_open : ss_revoked_at s = None;
  sk_time : db_now (txs (gv_world g)) < ss_expires_at s /\ db_now (S (txs (gv_world g))) < ss_expires_at s;
}.
(** Somebody of the room: its teacher, or a member of it, with such a session. *)
Inductive at_home (roomId sid : string) (rid : string) (g : governed) : AuthSession -> Prop :=
| teacher_home t a aid room s : room ∈ rooms (gv_db g) -> rm_id room = rid -> uuid_in t = Some (rm_teacher_id room) -> uuid_in a = Some aid ->
    session_kept sid g s -> ss_kind s = teacher_principal -> ss_teacher_id s = Some (rm_teacher_id room) ->
    at_home roomId sid rid g (TeacherSession t a)
| student_home m a ps nv room x s : room ∈ rooms (gv_db g) -> rm_id room = rid -> x ∈ members (gv_db g) -> mb_room_id x = rid ->
    uuid_in m = Some (mb_id x) -> uuid_in (mb_actor_id x) = Some (mb_actor_id x) ->
    session_kept sid g s -> ss_kind s = student_principal -> ss_room_member_id s = Some (mb_id x) ->
    at_home roomId sid rid g (StudentSession roomId m a ps nv).
Lemma kept_live sid g s now : session_kept sid g s -> now ∈ [db_now (txs (gv_world g)); db_now (S (txs (gv_world g)))] -> liveSession now s = true.
Proof.
  intros [_ _ Ho [? ?]] Hn. unfold liveSession. rewrite bool_decide_true by done. apply Z.ltb_lt.
  apply elem_of_cons in Hn as [->|Hn]; [done|]. by apply list_elem_of_singleton in Hn as ->.
Qed.
Lemma find_key {A} (key : A -> string) l k x : NoDup (map key l) -> x ∈ l -> key x = k -> find (fun y => bool_decide (key y = k)) l = Some x.
Proof.
  intros Hnd Hx Hk. destruct (find _ l) as [y|] eqn:Hf; [f_equal; by eapply find_only|].
  apply list_elem_of_In, (find_none _ _ Hf), bool_decide_eq_false in Hx. done.
Qed.
Lemma find_pred {A} (key : A -> string) (p : A -> bool) l x : NoDup (map key l) -> x ∈ l -> p x = true ->
  (forall y, y ∈ l -> p y = true -> key y = key x) -> find p l = Some x.
Proof.
  intros Hnd Hx Hp Hall. destruct (find p l) as [y|] eqn:Hf.
  - apply find_elem in Hf as [Hy Hpy]. f_equal. eapply (NoDup_map_eq key); [exact Hnd|done..|by apply Hall].
  - apply list_elem_of_In, (find_none _ _ Hf) in Hx. congruence.
Qed.
Lemma requireActive_eq rid owner sessionId g : isUuid sessionId = true -> requireActiveSession rid owner (Some sessionId) g = (
   sid ← uuidG sessionId;
      owner ← castOwner owner;
      count ← match ow_role owner with
        | r_teacher => txQuery (fun now g => rowCount (concat (map (fun x =>
            select_where (fun r => bool_decide (rm_id r = rid) && bool_decide (Some (rm_teacher_id r) = ss_teacher_id x)) (rooms (gv_db g)))
            (select_where (fun x => bool_decide (ss_id x = sid) && bool_decide (ss_teacher_id x = ow_teacher_id owner)
               && bool_decide (ss_kind x = teacher_principal) && liveSession now x) (sessions (gv_db g))))))
        | r_student => txQuery (fun now g => rowCount (concat (map (fun x =>
            select_where (fun m => bool_decide (ss_room_member_id x = Some (mb_id m)) && bool_decide (mb_room_id m = rid)
               && bool_decide (Some (mb_id m) = ow_member_id owner) && bool_decide (mb_actor_id m = ow_actor_id owner)) (members (gv_db g)))
            (select_where (fun x => bool_decide (ss_id x = sid) && bool_decide (ss_kind x = student_principal) && liveSession now x)
               (sessions (gv_db g))))))
        end;
      throw_if (negb (count =? 1)) (plain "ROOM_NOT_FOUND")) g.
Proof. intros Hu. unfold requireActiveSession. destruct sessionId; [done|]. by rewrite Hu. Qed.
#[local] Arguments requireActiveSession : simpl never.
(** Who is at home is let in, outside the transaction and inside it. *)
Lemma authorizeMember_home p sid roomId rid g : isUuid roomId = true -> uuid_in roomId = Some rid -> keys_unique (gv_db g) ->
  deletionActiveIn rid (gv_db g) = false -> at_home roomId sid rid g p ->
  exists owner g1, authorizeMember p sid roomId g = (Ok owner, g1) /\ same_tables g g1 /\ txs (gv_world g1) = S (txs (gv_world g))
    /\ forall g2, gv_db g2 = gv_db g -> tx_now (tx (gv_world g2)) = db_now (S (txs (gv_world g))) ->
         requireActiveSession rid owner (Some sid) g2 = (Ok tt, g2).
Proof.
  intros Hr Hrid [Kr Ks Km] Hdel Hhome. unfold authorizeMember. rewrite Hr.
  destruct Hhome as [t a aid room s Hroom Hid Ht Ha Hkept Hkind Hst|m a ps nv room x s Hroom Hid Hx Hxr Hm Hact Hkept Hkind Hst];
    pose proof Hkept as [Hin [Hsu Hsid] _ _]; rewrite Hsu; cbn [negb orb].
  - unfold uuidG. rewrite (bind_run _ _ g tt g), (bind_run _ _ g tt g), Hrid, (bind_run _ _ g rid g), Hsid, (bind_run _ _ g (ss_id s) g), Ht,
      (bind_run _ _ g (rm_teacher_id room) g) by done.
    assert (existsb (ownsRoom rid (rm_teacher_id room)) (rooms (gv_db g)) = true) as Hown.
    { apply existsb_exists. exists room. rewrite <- list_elem_of_In. split; [done|]. unfold ownsRoom. by rewrite !bool_decide_true. }
    assert (teacherSessionLive (ss_id s) (rm_teacher_id room) (db_now (txs (gv_world g))) (gv_db g) = true) as Hlive.
    { apply existsb_exists. exists s. rewrite <- list_elem_of_In. split; [done|]. rewrite !bool_decide_true by done. cbn.
      apply (kept_live sid g); [done|left]. }
    unfold mbind, M_bind, poolQuery. rewrite Hown, Hlive. cbn. rewrite Hdel. cbn. eexists _, _. split_and!; [done|done|done|].
    intros g2 Hd Hn. rewrite requireActive_eq by done.
    rewrite (bind_run _ _ g2 (ss_id s) g2) by (unfold uuidG; by rewrite Hsid).
    rewrite (bind_run _ _ g2 (Owner r_teacher (Some (rm_teacher_id room)) None aid) g2)
      by (unfold castOwner, uuidOption, uuidG, mbind, M_bind, mret, M_ret; cbn; by rewrite Ht, Ha).
    cbn [ow_role ow_teacher_id]. rewrite (bind_run _ _ g2 1 g2); [done|]. unfold txQuery, gets. rewrite Hd, Hn.
    rewrite (select_where_one ss_id _ _ s Ks); [|done| |].
    + cbn [map concat]. rewrite (select_where_one rm_id _ _ room Kr); [done|done| |].
      * rewrite Hst, !bool_decide_true by done. done.
      * intros y _ Hy. split_bools. congruence.
    + rewrite !bool_decide_true by done. cbn. apply (kept_live sid g); [done|right; left].
    + intros y _ Hy. split_bools. congruence.
  - rewrite (bool_decide_true (roomId = roomId)) by done. cbn [negb].
    unfold uuidG. rewrite (bind_run _ _ g tt g), (bind_run _ _ g tt g), Hrid, (bind_run _ _ g rid g), Hsid, (bind_run _ _ g (ss_id s) g), Hm,
      (bind_run _ _ g (mb_id x) g) by done.
    unfold mbind, M_bind, poolQuery. rewrite (find_pred mb_id _ _ x Km); [|done| |].
    + cbn. rewrite Hdel. cbn. eexists _, _. split_and!; [done|done|done|].
      intros g2 Hd Hn. rewrite requireActive_eq by done.
      rewrite (bind_run _ _ g2 (ss_id s) g2) by (unfold uuidG; by rewrite Hsid).
      rewrite (bind_run _ _ g2 (Owner r_student None (Some (mb_id x)) (mb_actor_id x)) g2)
        by (unfold castOwner, uuidOption, uuidG, mbind, M_bind, mret, M_ret; cbn; by rewrite Hm, Hact).
      cbn [ow_role ow_member_id ow_actor_id]. rewrite (bind_run _ _ g2 1 g2); [done|]. unfold txQuery, gets. rewrite Hd, Hn.
      rewrite (select_where_one ss_id _ _ s Ks); [|done| |].
      * cbn [map concat]. rewrite (select_where_one mb_id _ _ x Km); [done|done| |].
        -- rewrite Hst, !bool_decide_true by done. done.
        -- intros y _ Hy. split_bools. congruence.
      * rewrite !bool_decide_true by done. cbn. apply (kept_live sid g); [done|right; left].
      * intros y _ Hy. split_bools. congruence.
    + rewrite !bool_decide_true by done. cbn. apply existsb_exists. exists s. rewrite <- list_elem_of_In. split; [done|].
      rewrite !bool_decide_true by done. cbn. apply (kept_live sid g); [done|left].
    + intros y _ Hy. split_bools. congruence.
Qed.

(** The run of a message in the room. *)
Record run_for (rid trigger : string) (g : governed) (run : run_row) : Prop := {
  rf_there : run ∈ ax_runs (gv_agents g);
  rf_room : rn_room_id run = rid;
  rf_trigger : rn_trigger_event_id run = trigger;
}.
Lemma select_where_select {A} (p q : A -> bool) l : select_where q (select_where p l) = select_where (fun x => p x && q x) l.
Proof. unfold select_where. induction l as [|x l IH]; [done|]. cbn. destruct (p x); cbn; by rewrite IH. Qed.
Lemma createBody_again roomId rid tr trigger run owner sid before g : uuid_in roomId = Some rid -> uuid_in tr = Some trigger ->
  run_for rid trigger g run -> runs_ok (gv_agents g) -> runValid run = true -> deletionActiveIn rid (gv_db g) = false ->
  is_Some (roomOf rid g) -> requireActiveSession rid owner (Some sid) g = (Ok tt, g) ->
  createBody roomId tr owner (Some sid) before g = (Ok (run, false), g).
Proof.
  intros Hrid Htr [Hin Hrr Hrt] [_ Htrig _ _] Hv Hdel [room Hroom] Hreq. unfold createBody.
  rewrite (bind_run _ _ g rid g) by (unfold uuidG; by rewrite Hrid).
  rewrite (bind_run _ _ g tt g) by (unfold assertNotDeleting, txQuery, gets, mbind, M_bind; by rewrite Hdel).
  rewrite (bind_run _ _ g (Some room) g) by (unfold txQuery, gets; by rewrite Hroom).
  rewrite (bind_run _ _ g tt g) by done. rewrite (bind_run _ _ g trigger g) by (unfold uuidG; by rewrite Htr).
  rewrite (bind_run _ _ g [run] g).
  - rewrite (bind_run _ _ g run g) by (unfold asRun; by rewrite Hv). done.
  - unfold txQuery, gets. do 2 f_equal. unfold runsOf. rewrite select_where_select.
    apply (select_where_one (fun r => (rn_room_id r, rn_trigger_event_id r))); [exact Htrig|exact Hin|by rewrite !bool_decide_true|].
    intros y _ Hy. split_bools. congruence.
Qed.
Lemma agentRequest_again p sid roomId rid tr trigger run admitCreate g : isUuid roomId = true -> uuid_in roomId = Some rid ->
  uuid_in tr = Some trigger -> run_for rid trigger g run -> runs_ok (gv_agents g) -> runValid run = true -> keys_unique (gv_db g) ->
  deletionActiveIn rid (gv_db g) = false -> at_home roomId sid rid g p ->
  exists g', agentRequest providerId manifestSha256 p sid roomId tr admitCreate g = (Ok (rn_id run, agentStateText (rn_state run), false), g')
    /\ same_tables g g'.
Proof.
  intros Hr Hrid Htr Hrun Hok Hv Hkeys Hdel Hhome. assert (is_Some (roomOf rid g)) as [room Hroom].
  { destruct Hhome as [t a aid room s Hroom Hid|m a ps nv room x s Hroom Hid]; exists room; apply find_key; try done; apply Hkeys. }
  destruct (authorizeMember_home p sid roomId rid g Hr Hrid Hkeys Hdel Hhome) as (owner & g1 & Ha & Hs & Htx & Hreq).
  unfold agentRequest. rewrite (bind_run _ _ _ _ _ Ha). pose proof Hs as (Hd & _ & _ & _ & _ & _ & _ & _ & _ & _ & _ & Hag).
  set (g2 := set_world (World (db (gv_world g1)) (ticks (gv_world g1)) (S (txs (gv_world g1))) (uuids (gv_world g1))
    (Locals (db_now (txs (gv_world g1))) (nextRoomSeq (tx (gv_world g1))) (operationFailure (tx (gv_world g1))))) g1).
  assert (createBody roomId tr owner (Some sid) (admission providerId manifestSha256 admitCreate) g2 = (Ok (run, false), g2)) as Hc.
  { apply (createBody_again roomId rid tr trigger); try done.
    - destruct Hrun as [? ? ?]. constructor; try done. change (gv_agents g2) with (gv_agents g1). by rewrite Hag.
    - change (gv_agents g2) with (gv_agents g1). by rewrite Hag.
    - change (gv_db g2) with (gv_db g1). by rewrite Hd.
    - exists room. unfold roomOf. change (gv_db g2) with (gv_db g1). by rewrite Hd.
    - apply Hreq; [done|]. change (db_now (txs (gv_world g1)) = db_now (S (txs (gv_world g)))). by rewrite Htx. }
  exists g2. split; [|etrans; [exact Hs|done]]. rewrite (bind_run _ _ g1 (run, false) g2); [done|].
  unfold RETRIES, getOrCreateRunAndJob, try_catch, inTransactionG. fold g2. by rewrite Hc.
Qed.

(** C19. A run that is made is made for somebody of the room, in a room that is open, is not
    being deleted, has its agent enabled and no run under way; while the provider is known
    to be healthy; about a message of a person that still stands and, for a student, that
    mentions the agent; and it is waiting in the queue with its job, in one commit. An
    answer that nothing was created is that of the run the message has, and changes nothing.
    Asking again, somebody of the room with a session that lasts gets the same run - whatever
    has become of it since, and of the room short of a deletion - and nothing changes. *)
Theorem agent_request_sound p sid roomId tr admitCreate g : leaves_tables admitCreate ->
  (forall runId state created g', agentRequest providerId manifestSha256 p sid roomId tr admitCreate g = (Ok (runId, state, created), g') ->
     exists rid trigger run, uuid_in roomId = Some rid /\ uuid_in tr = Some trigger /\ belongs p roomId rid g
     /\ rn_id run = runId /\ agentStateText (rn_state run) = state
     /\ if created : bool then granted_run rid trigger (principalRole p) run g
           /\ (exists h, healthOf providerId manifestSha256 g = Some h /\ hl_health h = healthy)
           /\ ax_runs (gv_agents g') = ax_runs (gv_agents g) ++ [run]
           /\ (exists j, jobs (gv_db g') = jobs (gv_db g) ++ [j] /\ jb_dedupe_key j = executeKey runId /\ jb_status j = queued)
           /\ (exists t, t ∈ ax_transitions (gv_agents g') /\ ts_causation_id t = trigger)
         else same_tables g g' /\ run_for rid trigger g run)
  /\ (forall rid trigger run, isUuid roomId = true -> uuid_in roomId = Some rid -> uuid_in tr = Some trigger ->
        run_for rid trigger g run -> runs_ok (gv_agents g) -> runValid run = true -> keys_unique (gv_db g) ->
        deletionActiveIn rid (gv_db g) = false -> at_home roomId sid rid g p ->
        exists g', agentRequest providerId manifestSha256 p sid roomId tr admitCreate g
                     = (Ok (rn_id run, agentStateText (rn_state run), false), g') /\ same_tables g g').
Proof.
  intros Ha. split; [|intros; by eapply agentRequest_again]. intros runId state created g' Hr. unfold agentRequest in Hr. apply bind_ok in Hr as (owner & g0 & Hau & Hr).
  pose proof (leaves_ok _ _ _ _ (leaves_authorizeMember p sid roomId) Hau) as Hs0. apply authorizeMember_ok in Hau as (rid & Hrid & Hbel & Hrole).
  apply bind_ok in Hr as ([run c] & g1 & Hc & Hr). injection Hr as <- <- <- <-. apply try_throw_ok, getOrCreate_ok in Hc as (g2 & Hs2 & Hc).
  assert (leaves_tables (admission providerId manifestSha256 admitCreate)) as Hadm by (unfold admission; leaves).
  apply createBody_ok in Hc as (rid' & trigger & Hrid' & Htr & Hc); [|done]. rewrite Hrid in Hrid'. injection Hrid' as <-.
  assert (same_tables g g2) as Hs by (by etrans). pose proof Hs as (Hdb & _ & _ & _ & _ & _ & _ & _ & _ & _ & _ & Hag).
  exists rid, trigger, run. split_and!; [done..|]. destruct c.
  - destruct Hc as ([Hg1 Hg2 Hg3 Hg4 Hg5] & (g3 & g4 & Hs3 & (h & Hh & Hhh)%admission_ok) & Hruns & Hj & Ht). rewrite Hdb, Hag in *.
    split_and!; [|exists h; split; [|done]|done..].
    + unfold roomOf, agentEnabled, activeRuns, runsOf in *. rewrite ?Hdb, ?Hag in *. rewrite <- Hrole.
      destruct Hg1 as (room & Hroom & Hopen & e & latest & Htg & Hrest). constructor; try done. exists room. split_and!; [done|done|].
      exists e, latest. split; [by eapply triggered_tables|done].
    + unfold healthOf in *. destruct Hs3 as (_ & _ & _ & _ & _ & _ & _ & _ & _ & _ & _ & Hag3). by rewrite <- Hag, <- Hag3.
  - destruct Hc as (Hc & Hin & Ht). split; [by etrans|]. unfold runsOf in Hin. rewrite Hag in Hin. apply select_where_elem in Hin as [Hin Hroom]. apply bool_decide_eq_true in Hroom. by constructor.
Qed.

(** ** The reconciler *)

(** What the reconciler makes of a run, for a list of orphans. *)
Definition settled (l : list orphan) (r r' : run_row) : Prop :=
  match find (fun o => bool_decide (or_run_id o = rn_id r)) l with
  | Some o => exists now, r' = movedRun (fst (outcomeOf (or_reason o))) (Some (snd (outcomeOf (or_reason o)))) now r
  | None => r' = r
  end.
(** Every orphan of the list is a run under way. *)
Definition pending (l : list orphan) (g : governed) : Prop :=
  forall o, o ∈ l -> exists r, r ∈ ax_runs (gv_agents g) /\ rn_id r = or_run_id o /\ isActiveState (rn_state r) = true.
Lemma settleBody_ok o g out g' : settleBody o g = (Ok out, g') -> NoDup (map rn_id (ax_runs (gv_agents g))) -> pending [o] g ->
  out = Some (fst (outcomeOf (or_reason o))) /\ gv_db g' = gv_db g /\ Forall2 (settled [o]) (ax_runs (gv_agents g)) (ax_runs (gv_agents g')).
Proof.
  intros Hr Hnd Hp. destruct (Hp o) as (r & Hin & Hid & Ha); [left|]. unfold settleBody in Hr.
  apply bind_ok in Hr as (fresh & ? & [-> ->]%txQuery_ok & Hr).
  assert (find (isRun (or_run_id o)) (ax_runs (gv_agents g)) = Some r) as Hf.
  { destruct (find _ _) as [r2|] eqn:Hf.
    - apply find_some in Hf as [Hin2%list_elem_of_In Hid2%bool_decide_eq_true]. f_equal. eapply (NoDup_map_eq rn_id); eauto. congruence.
    - exfalso. apply list_elem_of_In, (find_none _ _ Hf), bool_decide_eq_false in Hin. done. }
  rewrite Hf, Ha in Hr. cbn in Hr. destruct (outcomeOf (or_reason o)) as [terminal code] eqn:Ho.
  apply bind_ok in Hr as (now & g1 & Hs1%leaves_ok & Hr); [|leaves]. apply bind_ok in Hr as (u & g2 & Hm & Hr).
  unfold agentUpdate, modify in Hm. injection Hm as _ <-. apply bind_ok in Hr as (tid & g2 & Hs2%leaves_ok & Hr); [|leaves].
  apply bind_ok in Hr as (at_ & g3 & Hs3%leaves_ok & Hr); [|leaves]. apply bind_ok in Hr as (u2 & g4 & Hm & Hr).
  unfold agentUpdate, modify in Hm. injection Hm as _ <-. injection Hr as <- <-. cbn [fst snd]. split; [done|].
  destruct Hs1 as (Hd1 & _ & _ & _ & _ & _ & _ & _ & _ & _ & _ & Ha1), Hs2 as (Hd2 & _ & _ & _ & _ & _ & _ & _ & _ & _ & _ & Ha2),
    Hs3 as (Hd3 & _ & _ & _ & _ & _ & _ & _ & _ & _ & _ & Ha3). split.
  { transitivity (gv_db g3); [done|]. rewrite Hd3, Hd2. exact Hd1. }
  cbn. rewrite addTransition_runs, Ha3, Ha2. cbn. rewrite Ha1. unfold update_where. apply Forall2_fmap_r, Forall_Forall2_diag, Forall_forall.
  intros x _. unfold settled, isRun. cbn. rewrite (bool_decide_ext (or_run_id o = rn_id x) (rn_id x = or_run_id o)) by done.
  case_bool_decide; [|done]. rewrite Ho. by exists now.
Qed.
Lemma settled_id l r r' : settled l r r' -> rn_id r' = rn_id r.
Proof. unfold settled. destruct (find _ l); [by intros (now & ->)|by intros ->]. Qed.
Lemma settled_ids l x x' : Forall2 (settled l) x x' -> map rn_id x' = map rn_id x.
Proof. induction 1 as [|r r' x x' Hr%settled_id _ IH]; [done|]. cbn. by rewrite Hr, IH. Qed.
Lemma settled_cons o l r r1 r2 : or_run_id o ∉ map or_run_id l -> settled [o] r r1 -> settled l r1 r2 -> settled (o :: l) r r2.
Proof.
  intros Hn Hr1 Hr2. pose proof (settled_id _ _ _ Hr1) as Hid. unfold settled in *. cbn in *. rewrite Hid in Hr2.
  case_bool_decide as Ho; [|by subst r1]. destruct (find _ l) as [o'|] eqn:Hf; [|by subst r2].
  apply find_some in Hf as [Hin%list_elem_of_In He%bool_decide_eq_true]. exfalso. apply Hn, list_elem_of_fmap. exists o'. split; [congruence|done].
Qed.
Lemma Forall2_trans {A} (P Q R : A -> A -> Prop) : (forall a b c, P a b -> Q b c -> R a c) ->
  forall x y z, Forall2 P x y -> Forall2 Q y z -> Forall2 R x z.
Proof. intros Hpq x y z Hxy. revert z. induction Hxy as [|a b x y Hab _ IH]; intros z Hz; inversion Hz; subst; constructor; eauto. Qed.
Lemma mapM_settle l g outs g' : mapM (fun o => inTransactionG (settleBody o)) l g = (Ok outs, g') ->
  NoDup (map rn_id (ax_runs (gv_agents g))) -> NoDup (map or_run_id l) -> pending l g ->
  outs = map (fun o => Some (fst (outcomeOf (or_reason o)))) l /\ gv_db g' = gv_db g
  /\ Forall2 (settled l) (ax_runs (gv_agents g)) (ax_runs (gv_agents g')).
Proof.
  revert g outs. induction l as [|o l IH]; intros g outs Hr Hnd Hl Hp.
  - injection Hr as <- <-. split_and!; [done|done|]. by apply Forall_Forall2_diag, Forall_forall.
  - apply mapM_cons_ok in Hr as (out & g1 & outs' & Ho & Hr & ->). apply NoDup_cons in Hl as [Hn Hl].
    apply inTransactionG_ok in Ho as (g0 & Hs & _ & Ho). destruct Hs as (Hd & _ & _ & _ & _ & _ & _ & _ & _ & _ & _ & Ha).
    apply settleBody_ok in Ho as (-> & Hd1 & Hset); rewrite ?Ha in *; [|done|].
    2: { intros o' ->%list_elem_of_singleton. destruct (Hp o) as (r & Hr1 & ?); [left|]. exists r. by rewrite Ha. }
    pose proof (settled_ids _ _ _ Hset) as Hids. destruct (IH g1 outs' Hr) as (-> & Hd' & Hset'); [by rewrite Hids|done| |].
    + intros o' Ho'. destruct (Hp o') as (r & Hin & Hid & Hact); [by right|].
      apply list_elem_of_lookup in Hin as (i & Hi). destruct (Forall2_lookup_l _ _ _ _ _ Hset Hi) as (r' & Hi' & Hrr).
      unfold settled in Hrr. cbn in Hrr. rewrite bool_decide_false in Hrr.
      * subst r'. exists r. split; [by eapply list_elem_of_lookup_2|done].
      * intros He. apply Hn. apply list_elem_of_fmap. exists o'. split; [congruence|done].
    + split_and!; [done|congruence|]. eapply Forall2_trans; [|exact Hset|exact Hset']. intros a b c. by apply settled_cons.
Qed.

(** A run under way that cannot end by itself, and how it has to end: its room is closed;
    or its job is dead, was cancelled or is not there. *)
Definition underWay (r : run_row) : Prop := rn_state r = a_queued \/ rn_state r = a_running \/ rn_state r = a_streaming.
Definition runJob (r : run_row) : string := ("agent.execute.v1:" ++ rn_id r)%string.
Inductive stranded (g : governed) (r : run_row) : AgentState -> string -> Prop :=
| stranded_closed room : underWay r -> room ∈ rooms (gv_db g) -> rm_id room = rn_room_id r -> rm_status room = closed ->
    stranded g r a_cancelled "ROOM_NOT_OPEN"
| stranded_dead room j : underWay r -> room ∈ rooms (gv_db g) -> rm_id room = rn_room_id r -> rm_status room <> closed ->
    j ∈ jobs (gv_db g) -> jb_dedupe_key j = runJob r -> jb_status j = dead -> stranded g r a_failed "AGENT_EXECUTION_EXHAUSTED"
| stranded_cancelled room j : underWay r -> room ∈ rooms (gv_db g) -> rm_id room = rn_room_id r -> rm_status room <> closed ->
    j ∈ jobs (gv_db g) -> jb_dedupe_key j = runJob r -> jb_status j = cancelled -> stranded g r a_cancelled "AGENT_RUN_CANCELLED"
| stranded_gone room : underWay r -> room ∈ rooms (gv_db g) -> rm_id room = rn_room_id r -> rm_status room <> closed ->
    (forall j, j ∈ jobs (gv_db g) -> jb_dedupe_key j <> runJob r) -> stranded g r a_cancelled "AGENT_RUN_CANCELLED".
Definition stuck (g : governed) (r : run_row) : Prop := r ∈ ax_runs (gv_agents g) /\ exists s code, stranded g r s code.
(** A run that has been ended. *)
Definition endedAs (s : AgentState) (code : string) (now : Z) (r : run_row) : run_row :=
  RunRow (rn_id r) (rn_room_id r) s (rn_trigger_event_id r) (rn_teacher_id r) (rn_member_id r) (rn_from_seq r) (rn_through_seq r)
    (rn_correlation_id r) (rn_model_provider r) (rn_model_id r) (rn_prompt_version r) (rn_policy_version r) (Some code) (rn_created_at r) now.

Lemma underWay_active r : isActiveState (rn_state r) = true <-> underWay r.
Proof. unfold isActiveState, underWay. rewrite bool_decide_eq_true, !elem_of_cons, elem_of_nil. tauto. Qed.
Lemma ledger_room_ids d : ledger_ok d -> NoDup (map rm_id (rooms d)).
Proof. intros [Hids _ _ _ _ _ _ _ _]. simpl in Hids. by rewrite map_map in Hids. Qed.
Lemma ledger_job_keys d : ledger_ok d -> NoDup (map jb_dedupe_key (jobs d)).
Proof. intros [_ _ _ _ _ _ _ _ Hids]. simpl in Hids. by rewrite map_map in Hids. Qed.
(** What the reconciler finds is what is stranded. *)
Lemma stranded_reason g r s code : ledger_ok (gv_db g) ->
  stranded g r s code <-> exists reason, orphanReason g r = Some reason /\ outcomeOf reason = (s, code).
Proof.
  intros Hok. pose proof (ledger_room_ids _ Hok) as Hrooms. pose proof (ledger_job_keys _ Hok) as Hkeys. split.
  - intros Hs. assert (underWay r /\ exists room, room ∈ rooms (gv_db g) /\ rm_id room = rn_room_id r) as (Hu & room & Hin & Hid) by (destruct Hs; eauto).
    unfold orphanReason, roomOf, executionOf. rewrite (find_key rm_id _ _ _ Hrooms Hin Hid). cbn. rewrite (proj2 (underWay_active r) Hu). cbn.
    destruct Hs as [room' _ Hin' Hid' Hc|room' j _ Hin' Hid' Hc Hj Hk Hst|room' j _ Hin' Hid' Hc Hj Hk Hst|room' _ Hin' Hid' Hc Hno].
    all: assert (room' = room) as -> by (eapply (NoDup_map_eq rm_id); [exact Hrooms|done..|congruence]).
    + rewrite bool_decide_true by done. by exists room_not_open.
    + rewrite bool_decide_false by done. change (executeKey (rn_id r)) with (runJob r). rewrite (find_key jb_dedupe_key _ _ _ Hkeys Hj Hk). cbn. rewrite Hst. by exists job_dead.
    + rewrite bool_decide_false by done. change (executeKey (rn_id r)) with (runJob r). rewrite (find_key jb_dedupe_key _ _ _ Hkeys Hj Hk). cbn. rewrite Hst. by exists job_cancelled.
    + rewrite bool_decide_false by done. exists job_cancelled. split; [|done]. destruct (find _ (jobs (gv_db g))) as [j|] eqn:Hf; [|done].
      apply find_elem in Hf as [Hj Hk%bool_decide_eq_true]. by destruct (Hno j Hj).
  - intros (reason & Hr & Ho). unfold orphanReason in Hr. apply bind_Some in Hr as (room & Hroom & Hr).
    apply find_elem in Hroom as [Hin Hid%bool_decide_eq_true].
    destruct (isActiveState (rn_state r)) eqn:Hu; cbn [negb] in Hr; [|done]. apply underWay_active in Hu.
    case_bool_decide as Hc; [injection Hr as <-; injection Ho as <- <-; by apply (stranded_closed g r room)|].
    unfold executionOf in Hr. change (executeKey (rn_id r)) with (runJob r) in Hr.
    destruct (find _ (jobs (gv_db g))) as [j|] eqn:Hf; cbn in Hr.
    + apply find_elem in Hf as [Hj Hk%bool_decide_eq_true]. destruct (jb_status j) eqn:Hst; try done; injection Hr as <-; injection Ho as <- <-.
      * by apply (stranded_dead g r room j).
      * by apply (stranded_cancelled g r room j).
    + injection Hr as <-. injection Ho as <- <-. apply (stranded_gone g r room); [done..|]. intros j Hj Hk.
      apply list_elem_of_In, (find_none _ _ Hf), bool_decide_eq_false in Hj. done.
Qed.

Lemma stranded_unique g r s1 c1 s2 c2 : ledger_ok (gv_db g) -> stranded g r s1 c1 -> stranded g r s2 c2 -> s1 = s2 /\ c1 = c2.
Proof.
  intros Hok (o1 & Hr1 & Ho1)%(stranded_reason _ _ _ _ Hok) (o2 & Hr2 & Ho2)%(stranded_reason _ _ _ _ Hok).
  rewrite Hr1 in Hr2. injection Hr2 as <-. rewrite Ho1 in Ho2. by injection Ho2.
Qed.

(** The orphans of a pass, as runs. *)
Definition isStuck (g : governed) (r : run_row) : bool := bool_decide (is_Some (orphanReason g r)).
Definition reasonOf (g : governed) (r : run_row) : orphan_reason := default job_cancelled (orphanReason g r).
Definition orphanOf (g : governed) (r : run_row) : orphan := Orphan (rn_id r) (rn_room_id r) (reasonOf g r).
Definition stuckRuns (g : governed) : list run_row := List.filter (isStuck g) (sort_by byCreation (ax_runs (gv_agents g))).
Lemma filter_sublist {A} (p : A -> bool) l : sublist (List.filter p l) l.
Proof. induction l as [|x l IH]; [done|]. cbn. destruct (p x); [by apply sublist_skip|by apply sublist_cons]. Qed.
Lemma orphans_runs g n : take n (omap (fun r => Orphan (rn_id r) (rn_room_id r) <$> orphanReason g r) (sort_by byCreation (ax_runs (gv_agents g))))
  = map (orphanOf g) (take n (stuckRuns g)).
Proof.
  rewrite <- firstn_map. f_equal. unfold stuckRuns, isStuck, orphanOf, reasonOf. induction (sort_by _ _) as [|r l IH]; [done|]. cbn.
  destruct (orphanReason g r) as [reason|] eqn:E; cbn; rewrite IH; [|done]. by rewrite E.
Qed.
Lemma isStuck_stuck g r : ledger_ok (gv_db g) -> isStuck g r = true <-> exists s code, stranded g r s code.
Proof.
  intros Hok. unfold isStuck. rewrite bool_decide_eq_true. setoid_rewrite (stranded_reason g r); [|done]. split.
  - intros [reason Hr]. destruct (outcomeOf reason) as [s code] eqn:Ho. by exists s, code, reason.
  - intros (s & code & reason & Hr & _). by exists reason.
Qed.
Lemma stuckRuns_elem g r : ledger_ok (gv_db g) -> stuck g r <-> r ∈ stuckRuns g.
Proof.
  intros Hok. unfold stuckRuns. rewrite list_elem_of_In, filter_In, <- list_elem_of_In, sort_by_elem. by rewrite isStuck_stuck.
Qed.
Lemma reasonOf_stranded g r : ledger_ok (gv_db g) -> stuck g r -> underWay r
  /\ forall s code, stranded g r s code <-> outcomeOf (reasonOf g r) = (s, code).
Proof.
  intros Hok (_ & s0 & code0 & Hs). split; [by destruct Hs|]. intros s code. unfold reasonOf. rewrite (stranded_reason g r s code Hok).
  apply (stranded_reason g r) in Hs as (reason & -> & _); [|done]. cbn. split; [by intros (? & [= <-] & ?)|by exists reason].
Qed.
Lemma stuckRuns_first g n : ledger_ok (gv_db g) -> NoDup (map rn_id (ax_runs (gv_agents g))) ->
  first_by rn_created_at n (stuck g) (take n (stuckRuns g)).
Proof.
  intros Hok Hnd. apply first_by_take; [|eapply ordered_sublist; [apply filter_sublist|apply (sort_by_number rn_created_at)]|intros r; by apply stuckRuns_elem].
  eapply sublist_NoDup; [|apply filter_sublist]. apply (NoDup_fmap_1 rn_id). by rewrite (fmap_Permutation rn_id _ _ (sort_by_perm byCreation _)).
Qed.
(** What becomes of a run when these are taken. *)
Definition passed (g : governed) (taken : list run_row) (r r' : run_row) : Prop :=
  (r ∈ taken -> exists s code now, stranded g r s code /\ r' = endedAs s code now r) /\ (r ∉ taken -> r' = r).
Lemma settled_passed g taken r r' : ledger_ok (gv_db g) -> NoDup (map rn_id (ax_runs (gv_agents g))) -> r ∈ ax_runs (gv_agents g) ->
  (forall x, x ∈ taken -> stuck g x) -> settled (map (orphanOf g) taken) r r' -> passed g taken r r'.
Proof.
  intros Hok Hnd Hr Ht Hs. unfold settled in Hs. split.
  - intros Hin. destruct (find _ _) as [o|] eqn:Hf.
    + apply find_elem in Hf as [(x & -> & Hx)%list_elem_of_fmap Hid%bool_decide_eq_true]. cbn in Hid.
      assert (x = r) as -> by (eapply (NoDup_map_eq rn_id); [exact Hnd|by apply Ht|done..]).
      destruct Hs as (now & ->). destruct (reasonOf_stranded g r Hok (Ht r Hin)) as [_ Hst]. cbn [or_reason orphanOf].
      destruct (outcomeOf (reasonOf g r)) as [s code] eqn:Ho. exists s, code, now. split; [by apply Hst|done].
    + exfalso. assert (orphanOf g r ∈ map (orphanOf g) taken) as Hx by by apply list_elem_of_fmap_2.
      apply list_elem_of_In, (find_none _ _ Hf), bool_decide_eq_false in Hx. done.
  - intros Hni. destruct (find _ _) as [o|] eqn:Hf; [|done]. exfalso.
    apply find_elem in Hf as [(x & -> & Hx)%list_elem_of_fmap Hid%bool_decide_eq_true]. cbn in Hid.
    assert (x = r) as -> by (eapply (NoDup_map_eq rn_id); [exact Hnd|by apply Ht|done..]). done.
Qed.
(** The two counts of a pass. *)
Lemma outcomes_counted g taken : ledger_ok (gv_db g) -> (forall x, x ∈ taken -> stuck g x) ->
  let outs := map (fun o => Some (fst (outcomeOf (or_reason o)))) (map (orphanOf g) taken) in
  exists failed_ cancelled_, taken ≡ₚ failed_ ++ cancelled_
    /\ Forall (fun r => exists code, stranded g r a_failed code) failed_ /\ Forall (fun r => exists code, stranded g r a_cancelled code) cancelled_
    /\ rowCount (select_where (fun x => bool_decide (x = Some a_failed)) outs) = rowCount failed_
    /\ rowCount (select_where (fun x => bool_decide (x = Some a_cancelled)) outs) = rowCount cancelled_.
Proof.
  intros Hok. induction taken as [|r l IH]; intros Ht; [by exists [], []|].
  destruct IH as (fs & cs & Hp & Hf & Hc & Hnf & Hnc); [intros x Hx; apply Ht; by right|].
  destruct (reasonOf_stranded g r Hok (Ht r ltac:(left))) as [_ Hst]. cbn in *. unfold rowCount, select_where in *.
  destruct (reasonOf g r); cbn in *; repeat (case_bool_decide; try done); cbn [length].
  - exists (r :: fs), cs. split_and!; [by rewrite Hp|constructor; [|done]; eexists; by apply Hst|done|cbn [length]; lia|lia].
  - exists fs, (r :: cs). split_and!; [rewrite Hp; by apply Permutation_middle|done|constructor; [|done]; eexists; by apply Hst|lia|cbn [length]; lia].
  - exists fs, (r :: cs). split_and!; [rewrite Hp; by apply Permutation_middle|done|constructor; [|done]; eexists; by apply Hst|lia|cbn [length]; lia].
Qed.
Lemma stranded_db g g' r s code : gv_db g' = gv_db g -> stranded g r s code -> stranded g' r s code.
Proof.
  intros Hd [room|room j|room j|room]; [eapply (stranded_closed _ _ room)|eapply (stranded_dead _ _ room j)|eapply (stranded_cancelled _ _ room j)
    |eapply (stranded_gone _ _ room)]; by rewrite ?Hd.
Qed.
#[local] Instance run_row_eq_dec : EqDecision run_row.
Proof. solve_decision. Defined.
(** What is left is what was not taken. *)
Lemma stuck_after g g' taken : gv_db g' = gv_db g -> (forall x, x ∈ taken -> stuck g x) ->
  Forall2 (passed g taken) (ax_runs (gv_agents g)) (ax_runs (gv_agents g')) -> forall r, stuck g' r <-> stuck g r /\ r ∉ taken.
Proof.
  intros Hd Ht Hf r. split.
  - intros (Hin & s & code & Hs). apply list_elem_of_lookup in Hin as (i & Hi). destruct (Forall2_lookup_r _ _ _ _ _ Hf Hi) as (r0 & Hi0 & [Hyes Hno]).
    apply list_elem_of_lookup_2 in Hi0. destruct (decide (r0 ∈ taken)) as [Hin|Hni].
    + destruct (Hyes Hin) as (s1 & code1 & now & Hs1 & ->). exfalso.
      assert (underWay (endedAs s1 code1 now r0)) as Hu by (by destruct Hs). destruct Hs1; unfold underWay in Hu; cbn in Hu; naive_solver.
    + specialize (Hno Hni). subst r. split; [|done]. split; [done|]. exists s, code. by apply (stranded_db g' g).
  - intros [(Hin & s & code & Hs) Hni]. apply list_elem_of_lookup in Hin as (i & Hi). destruct (Forall2_lookup_l _ _ _ _ _ Hf Hi) as (r' & Hi' & [_ Hno]).
    rewrite (Hno Hni) in Hi'. split; [by eapply list_elem_of_lookup_2|]. exists s, code. by apply (stranded_db g g').
Qed.

(** C40. A pass of the reconciler takes the runs under way that cannot end by themselves, the
    oldest first and no more than its batch - all of them, if it takes fewer. It ends each as
    it must: as cancelled where the room is closed, as failed where the run's job is dead, as
    cancelled where the job was cancelled or is gone, with the code that says so. It counts
    those that failed and those that were cancelled, leaves every other run and the tables of
    the rooms as they were, and what cannot end by itself afterwards is what was not taken. *)
Theorem reconciler_frees_rooms n g res g' : reconcile n g = (Ok res, g') -> ledger_ok (gv_db g) -> NoDup (map rn_id (ax_runs (gv_agents g))) ->
  exists taken, first_by rn_created_at n (stuck g) taken
  /\ Forall2 (passed g taken) (ax_runs (gv_agents g)) (ax_runs (gv_agents g')) /\ gv_db g' = gv_db g
  /\ (forall r, stuck g' r <-> stuck g r /\ r ∉ taken)
  /\ exists failed_ cancelled_, taken ≡ₚ failed_ ++ cancelled_
       /\ Forall (fun r => exists code, stranded g r a_failed code) failed_ /\ Forall (fun r => exists code, stranded g r a_cancelled code) cancelled_
       /\ rr_failed res = Z.of_nat (length failed_) /\ rr_cancelled res = Z.of_nat (length cancelled_).
Proof.
  intros Hr Hok Hnd. unfold reconcile in Hr. apply bind_ok in Hr as (l & g1 & Hl & Hr).
  pose proof (leaves_ok _ _ _ _ (leaves_poolQuery _) Hl) as Hs. unfold orphans, poolQuery in Hl. injection Hl as Hl _. rewrite orphans_runs in Hl.
  pose proof (stuckRuns_first g n Hok Hnd) as Hfirst. set (taken := take n (stuckRuns g)) in *. exists taken. split; [done|].
  subst l. destruct Hs as (Hd & _ & _ & _ & _ & _ & _ & _ & _ & _ & _ & Ha). pose proof (fb_each _ _ _ _ Hfirst) as Ht.
  apply bind_ok in Hr as (outs & g2 & Hm & Hr). injection Hr as <- <-.
  apply mapM_settle in Hm as (-> & Hd2 & Hset); rewrite ?Ha, ?Hd in *; [|done| |].
  - assert (Forall2 (passed g taken) (ax_runs (gv_agents g)) (ax_runs (gv_agents g2))) as Hp.
    { apply Forall2_same_length_lookup. split; [by eapply Forall2_length|]. intros i r r' Hi Hi'.
      eapply settled_passed; [done|done|by eapply list_elem_of_lookup_2|done|]. by eapply Forall2_lookup_lr. }
    split_and!; [done|done|by apply stuck_after|]. by apply outcomes_counted.
  - rewrite map_map. change (NoDup (map rn_id taken)). apply NoDup_fmap_2_strong; [|by eapply fb_distinct].
    intros x y Hx%Ht Hy%Ht He. destruct Hx as [Hx _], Hy as [Hy _]. by eapply (NoDup_map_eq rn_id).
  - intros o (r & -> & Hin)%list_elem_of_fmap. exists r. rewrite Ha. destruct (Ht r Hin) as [Hr _].
    split_and!; [done|done|]. apply underWay_active. by destruct (reasonOf_stranded g r Hok (Ht r Hin)).
Qed.

(** C18. Whatever is asked of the agents, by whom and in whatever order, and whatever of it
    fails: identifiers and triggers of runs stay unique, a room has at most one run under
    way, no run is forgotten or given to somebody else, and a run that has ended stays
    exactly as it ended. *)
Theorem agent_runs_invariant g g' : rtc agent_step g g' -> runs_ok (gv_agents g) ->
  runs_ok (gv_agents g')
  /\ (forall r r', r ∈ ax_runs (gv_agents g') -> r' ∈ ax_runs (gv_agents g') -> rn_room_id r = rn_room_id r' ->
        isActiveState (rn_state r) = true -> isActiveState (rn_state r') = true -> r = r')
  /\ forall r, r ∈ ax_runs (gv_agents g) -> exists r', r' ∈ ax_runs (gv_agents g') /\ same_request r r'
        /\ (isActiveState (rn_state r) = false -> r' = r).
Proof.
  intros Hs Hok. assert (rtc run_change (gv_agents g) (gv_agents g')) as Hc.
  { induction Hs as [g|g1 g2 g3 Hg _ IH]; [done|]. etrans; [by apply agent_step_changes|]. apply IH.
    by eapply (proj1 (changes_keep _ _ (agent_step_changes _ _ Hg) Hok)). }
  destruct (changes_keep _ _ Hc Hok) as [Hok' Hk]. split_and!; [done| |done].
  intros r r' Hr Hr' Hroom Ha Ha'. eapply (NoDup_map_eq rn_room_id _ _ _ (rk_active _ Hok')); [..|done]; by apply select_where_elem.
Qed.
End Changes.

(** ** A student asks, the teacher stops it, the room closes *)

Definition noAdmit : GV unit := mret tt.
Lemma noAdmit_leaves : leaves_tables noAdmit.
Proof. by intros g. Qed.
Definition askedClass : governed :=
  Governed lesson2 [] [] [] [] [] [] [] (fun _ _ => 0) [] []
    (AgentTables [] [] [] [] [HealthRow "fixture" "manifest" healthy 1704067205000 None 1704067205000] [])%string.
Definition askedRunId : string := numberedUuid 8.
Abbreviation ask := (agentRequest "fixture" "manifest" demoPrincipal demoStudentSession demoRoom (numberedUuid 6) noAdmit).
Definition asked : governed := snd (ask askedClass).
Definition stopped : governed := snd (agentCancel demoTeacherPrincipal demoSession demoRoom askedRunId asked).
Definition overClass : governed := set_gv_db (closeRoom demoRoom 0 (gv_db asked)) asked.
Lemma asked_ok : fst (ask askedClass) = Ok (askedRunId, "queued"%string, true).
Proof. vm_compute. reflexivity. Qed.
Lemma asked_runs : map (fun r => (rn_id r, rn_state r)) (ax_runs (gv_agents asked)) = [(askedRunId, a_queued)]
  /\ map (fun r => (rn_id r, rn_state r)) (ax_runs (gv_agents stopped)) = [(askedRunId, a_cancelled)].
Proof. split; vm_compute; reflexivity. Qed.
Lemma no_runs_ok : runs_ok (gv_agents askedClass).
Proof. constructor; [apply NoDup_nil_2..|apply Forall_nil_2]. Qed.
Lemma stopped_steps : rtc (agent_step "fixture" "manifest") askedClass stopped.
Proof.
  eapply rtc_l; [exact (step_request "fixture" "manifest" askedClass demoPrincipal demoStudentSession demoRoom (numberedUuid 6) noAdmit
    (leaves_keeps noAdmit noAdmit_leaves))|].
  exact (rtc_once _ _ (step_cancel "fixture" "manifest" asked demoTeacherPrincipal demoSession demoRoom askedRunId)).
Qed.
Lemma asked_job : exists now txNow, insertJob (numberedUuid 9) AGENT_EXECUTE demoRoom (numberedUuid 6) (executeKey askedRunId) (numberedUuid 5)
  (JObj [("agentRunId"%string, JStr askedRunId)]) now None None txNow (db lesson2) = Some (gv_db asked).
Proof. exists 1704067206000, 1704067203000. vm_compute. reflexivity. Qed.
Lemma asked_ledger : ledger_ok (gv_db asked).
Proof. destruct asked_job as (now & txNow & Hj). eapply insertJob_ledger; [|exact Hj|]; [done|]. exact (proj1 lesson2_ok). Qed.
Lemma closed_ledger rid t d : ledger_ok d -> ledger_ok (closeRoom rid t d).
Proof.
  unfold ledger_ok. assert (view (closeRoom rid t d) = view d) as ->; [|done]. unfold view, closeRoom. cbn. f_equal.
  unfold update_where. rewrite map_map. apply map_ext. intros r. by case_bool_decide.
Qed.
Lemma overClass_ledger : ledger_ok (gv_db overClass).
Proof. apply closed_ledger, asked_ledger. Qed.
Lemma overClass_ok : match fst (reconcile 10 overClass) with Ok res => true | Err _ => false end = true
  /\ map (fun r => (rn_id r, rn_room_id r, rn_state r)) (ax_runs (gv_agents overClass)) = [(askedRunId, demoRoom, a_queued)]
  /\ map (fun r => (rm_id r, rm_status r)) (rooms (gv_db overClass)) = [(demoRoom, closed)].
Proof. split; [|split]; vm_compute; reflexivity. Qed.
Lemma overClass_ids : NoDup (map rn_id (ax_runs (gv_agents overClass))).
Proof. apply (bool_decide_unpack _). vm_compute. reflexivity. Qed.
Lemma overClass_stranded : exists run, ax_runs (gv_agents overClass) = [run] /\ stranded overClass run a_cancelled "ROOM_NOT_OPEN".
Proof.
  destruct overClass_ok as (_ & Hruns & Hrooms). destruct (ax_runs (gv_agents overClass)) as [|run [|]]; try discriminate Hruns.
  injection Hruns as _ Hroom Hst. exists run. split; [exact eq_refl|]. destruct (rooms (gv_db overClass)) as [|room [|]] eqn:Hr; try discriminate Hrooms.
  injection Hrooms as Hid Hc. apply (stranded_closed overClass run room); [left; exact Hst|rewrite Hr; left|congruence|exact Hc].
Qed.

Lemma agent_runs_invariant_witness :
  runs_ok (gv_agents stopped) /\ map (fun r => (rn_id r, rn_state r)) (ax_runs (gv_agents stopped)) = [(askedRunId, a_cancelled)].
Proof.
  destruct (agent_runs_invariant "fixture" "manifest" askedClass stopped stopped_steps no_runs_ok) as (Hok & _).
  exact (conj Hok (proj2 asked_runs)).
Defined.
(** Whether a student is at home, as a test. *)
Definition studentHome (sid rid m : string) (g : governed) : bool :=
  existsb (fun room => bool_decide (rm_id room = rid)) (rooms (gv_db g))
  && existsb (fun x => bool_decide (mb_room_id x = rid) && bool_decide (uuid_in m = Some (mb_id x))
       && bool_decide (uuid_in (mb_actor_id x) = Some (mb_actor_id x))
       && existsb (fun s => isUuid sid && bool_decide (uuid_in sid = Some (ss_id s)) && bool_decide (ss_revoked_at s = None)
            && (db_now (txs (gv_world g)) <? ss_expires_at s) && (db_now (S (txs (gv_world g))) <? ss_expires_at s)
            && bool_decide (ss_kind s = student_principal) && bool_decide (ss_room_member_id s = Some (mb_id x))) (sessions (gv_db g)))
     (members (gv_db g)).
Lemma studentHome_ok roomId sid rid m a ps nv g : studentHome sid rid m g = true -> at_home roomId sid rid g (StudentSession roomId m a ps nv).
Proof.
  intros [(room & Hroom%list_elem_of_In & Hid%bool_decide_eq_true)%existsb_exists (x & Hx%list_elem_of_In & Hb)%existsb_exists]%andb_true_iff.
  apply andb_true_iff in Hb as [Hb (s & Hs%list_elem_of_In & Hkept)%existsb_exists]. split_bools.
  repeat match goal with Hl : (_ <? _) = true |- _ => apply Z.ltb_lt in Hl end.
  apply (student_home roomId sid rid g m a ps nv room x s); try done.
Qed.
Lemma stopped_runs_ok : runs_ok (gv_agents stopped).
Proof. constructor; apply (bool_decide_unpack _); vm_compute; exact I. Qed.
Lemma stopped_keys : keys_unique (gv_db stopped).
Proof. constructor; apply (bool_decide_unpack _); vm_compute; exact I. Qed.
Lemma stopped_home : studentHome demoStudentSession demoRoom demoMember stopped = true /\ deletionActiveIn demoRoom (gv_db stopped) = false
  /\ map (fun r => (rn_room_id r, rn_trigger_event_id r, runValid r)) (ax_runs (gv_agents stopped)) = [(demoRoom, numberedUuid 6, true)].
Proof. split; [|split]; vm_compute; reflexivity. Qed.
(** A student asks; and asks again, after the teacher has stopped the run. *)
Lemma agent_request_sound_witness :
  (exists run, rn_id run = askedRunId /\ granted_run demoRoom (numberedUuid 6) r_student run askedClass
    /\ ax_runs (gv_agents asked) = ax_runs (gv_agents askedClass) ++ [run])
  /\ exists g', ask stopped = (Ok (askedRunId, "cancelled"%string, false), g') /\ same_tables stopped g'.
Proof.
  split.
  - pose proof asked_ok as Hok. destruct (ask askedClass) as [r g'] eqn:Hr. cbn [fst] in Hok. subst r.
    assert (asked = g') as Hg by (unfold asked; rewrite Hr; reflexivity).
    destruct (proj1 (agent_request_sound "fixture" "manifest" demoPrincipal demoStudentSession demoRoom (numberedUuid 6) noAdmit askedClass
      noAdmit_leaves) askedRunId "queued" true g' Hr) as (rid & trigger & run & Hrid & Htr & _ & Hid & _ & Hgr & _ & Hruns & _).
    assert (rid = demoRoom) as -> by (vm_compute in Hrid; injection Hrid as <-; reflexivity).
    assert (trigger = numberedUuid 6) as -> by (vm_compute in Htr; injection Htr as <-; reflexivity).
    exists run. rewrite Hg. exact (conj Hid (conj Hgr Hruns)).
  - pose proof (proj2 (agent_request_sound "fixture" "manifest" demoPrincipal demoStudentSession demoRoom (numberedUuid 6) noAdmit stopped
      noAdmit_leaves) demoRoom (numberedUuid 6)) as Hagain.
    destruct stopped_home as (Hhome & Hdel & Hruns). pose proof (proj2 asked_runs) as Hids.
    destruct (ax_runs (gv_agents stopped)) as [|run [|]] eqn:Hr; try discriminate Hruns. injection Hruns as Hroom Htrig Hval. injection Hids as Hid Hst.
    specialize (Hagain run eq_refl eq_refl eq_refl). rewrite Hid, Hst in Hagain.
    apply Hagain; [constructor; [rewrite Hr; left|exact Hroom|exact Htrig]|exact stopped_runs_ok|exact Hval|exact stopped_keys|exact Hdel|].
    apply (studentHome_ok demoRoom). exact Hhome.
Defined.
(** A pass over a single run that is stranded. *)
Lemma one_run_ended n g g' run code taken : ledger_ok (gv_db g) -> (1 <= n)%nat -> ax_runs (gv_agents g) = [run] ->
  stranded g run a_cancelled code -> first_by rn_created_at n (stuck g) taken ->
  Forall2 (passed g taken) (ax_runs (gv_agents g)) (ax_runs (gv_agents g')) -> (forall r, stuck g' r <-> stuck g r /\ r ∉ taken) ->
  taken = [run] /\ (exists now, ax_runs (gv_agents g') = [endedAs a_cancelled code now run]) /\ forall r, ~ stuck g' r.
Proof.
  intros Hok Hn Hruns Hst [Hnd Heach _ _ Hfull _] Hpass Hleft. assert (stuck g run) as Hstuck by (split; [rewrite Hruns; left|by eexists _, _]).
  assert (forall x, stuck g x -> x = run) as Hone by (intros x [Hx _]; rewrite Hruns in Hx; by apply list_elem_of_singleton in Hx).
  assert (taken = [run]) as ->.
  { destruct taken as [|x [|y l]].
    - destruct Hfull as [Hfull|Hall]; [cbn in Hfull; lia|]. specialize (Hall run Hstuck). by apply elem_of_nil in Hall.
    - f_equal. apply Hone, Heach. left.
    - exfalso. apply NoDup_cons in Hnd as [Hx _]. apply Hx. rewrite (Hone x) by (apply Heach; left).
      rewrite (Hone y) by (apply Heach; right; left). left. }
  split; [done|]. split.
  - rewrite Hruns in Hpass. apply Forall2_cons_inv_l in Hpass as (r' & l & [Hyes _] & Hnil & ->). apply Forall2_nil_inv_l in Hnil as ->.
    destruct Hyes as (s & code' & now & Hs & ->); [left|]. destruct (stranded_unique _ _ _ _ _ _ Hok Hs Hst) as [-> ->]. by exists now.
  - intros r (Hr & Hno)%Hleft. apply Hno. rewrite (Hone r Hr). left.
Qed.
Lemma one_run_counted g run code failed_ cancelled_ : ledger_ok (gv_db g) -> stranded g run a_cancelled code -> [run] ≡ₚ failed_ ++ cancelled_ ->
  Forall (fun r => exists code, stranded g r a_failed code) failed_ -> length failed_ = 0%nat /\ length cancelled_ = 1%nat.
Proof.
  intros Hok Hst Hp Hf. destruct failed_ as [|x fs]; [by apply Permutation_length in Hp|]. exfalso.
  apply Forall_cons in Hf as [[code' Hx] _]. assert (x = run) as -> by (apply list_elem_of_singleton; rewrite Hp; left).
  by destruct (stranded_unique _ _ _ _ _ _ Hok Hx Hst).
Qed.
Lemma reconciler_frees_rooms_witness :
  exists res g' run now, reconcile 10 overClass = (Ok res, g') /\ rr_failed res = 0 /\ rr_cancelled res = 1
    /\ ax_runs (gv_agents overClass) = [run] /\ ax_runs (gv_agents g') = [endedAs a_cancelled "ROOM_NOT_OPEN" now run]
    /\ forall r, ~ stuck g' r.
Proof.
  destruct overClass_ok as (Hok & _). destruct overClass_stranded as (run & Hruns & Hst).
  destruct (reconcile 10 overClass) as [[res|e] g'] eqn:Hr; [|exfalso; exact (Bool.diff_false_true Hok)]. exists res, g', run.
  destruct (reconciler_frees_rooms 10 overClass res g' Hr overClass_ledger overClass_ids)
    as (taken & Hf & Hpass & _ & Hleft & fs & cs & Hp & Hfs & _ & Hnf & Hnc).
  destruct (one_run_ended 10 overClass g' run _ taken overClass_ledger ltac:(apply Nat.leb_le; reflexivity) Hruns Hst Hf Hpass Hleft)
    as (Htaken & (now & Hnow) & Hno).
  rewrite Htaken in Hp. destruct (one_run_counted _ _ _ _ _ overClass_ledger Hst Hp Hfs) as [Hlf Hlc]. rewrite Hlf in Hnf. rewrite Hlc in Hnc.
  exists now. split; [exact eq_refl|]. exact (conj Hnf (conj Hnc (conj Hruns (conj Hnow Hno)))).
Defined.

(** *** Nova answers *)

(** A worker claims the job a minute later and brings the answer. *)
Definition minuteLater (w : world) : world := World (db w) (ticks w + 60) (txs w + 60) (uuids w) (tx w).
Definition claimedClass := Jobs.claim "w-1" (NInt 10) (minuteLater (gv_world asked)).
Definition executeClaim : JobClaimIdentity :=
  match fst claimedClass with
  | Ok l => match find (fun c => bool_decide (cj_jobType c = AGENT_EXECUTE)) l with Some c => claimIdentity c | None => noClaim end
  | Err _ => noClaim end.
Definition novaText : string := string_of_list_ascii (replicate 64 "a"%char).
Definition completeTree (c : JobClaimIdentity) : tree :=
  TObj (map (fun f => (text (fst f), TStr (text (snd f))))
    [("jobId", jc_jobId c); ("jobType", jc_jobType c); ("roomId", default "" (jc_roomId c));
     ("sourceEventId", default "" (jc_sourceEventId c)); ("dedupeKey", jc_dedupeKey c); ("agentRunId", askedRunId); ("correlationId", jc_correlationId c);
     ("claimGeneration", jc_claimGeneration c); ("claimToken", jc_claimToken c); ("workerId", jc_workerId c);
     ("text", novaText); ("outputSha256", sha256_hex novaText)]%string
   ++ [(text "sourceEventIds", TArr [TStr (text (numberedUuid 6))]); (text "warningCodes", TArr [TStr (text "LOW_CONFIDENCE")])]).
Definition spokenEnvelope (issued expires : string) (body : tree) (s : units) : Envelope :=
  MkEnvelope (text "Ed25519") (text "k1") (text "worker") (text "w-1") COMPLETE_AUDIENCE (text issued) (text expires)
    (hexText (sha256 (default [] (canonicalJson body)))) s.
Definition completeAssertion (issued expires : string) (body : tree) : tree :=
  let p := default [] (canonicalJson (protectedFields (spokenEnvelope issued expires body []))) in
  TStr (default [] (sealEnvelope (spokenEnvelope issued expires body (base64Encode (replicate 64 (sumByte (demoPem ++ p))))))).
Definition heldClass : governed := set_world (snd claimedClass) asked.
Definition spokenBody : tree := completeTree executeClaim.
Definition spokenAssertion : tree := completeAssertion "2024-01-01T00:01:00Z" "2024-01-01T00:01:50Z" spokenBody.
Abbreviation answer := (completeRun corePayloadNames demoTrust spokenAssertion spokenBody).
Lemma nova_answer_ok : fst (answer heldClass) = Ok (Applied (numberedUuid 13))
  /\ fst (answer (snd (answer heldClass))) = Ok (AlreadyApplied (numberedUuid 13)).
Proof. split; vm_compute; reflexivity. Qed.
Lemma heldClass_ledger : ledger_ok (gv_db heldClass).
Proof.
  unfold heldClass. change (gv_db (set_world _ _)) with (db (snd claimedClass)). unfold claimedClass.
  destruct (Jobs.claim _ _ _) as [l w] eqn:Hc. eapply claim_ledger; [exact Hc|exact asked_ledger].
Qed.
Lemma heldClass_rooms : Forall (fun r => rm_id r = demoRoom /\ rm_nova_actor_id r = demoNova) (rooms (gv_db heldClass)).
Proof. apply (bool_decide_unpack _). vm_compute. exact I. Qed.
Lemma onlyRoom r : r ∈ rooms (gv_db heldClass) -> rm_id r = demoRoom /\ rm_nova_actor_id r = demoNova.
Proof. apply (proj1 (Forall_forall _ _) heldClass_rooms). Qed.
