(* ===== verification/Server.v ===== *)
(** * The server: [apps/server/src/app.ts]

    The services of the other files put together as the program puts them together before
    it registers its routes: sessions, sign-in links, rooms, the ledger of events, commands,
    the authorizer of deliveries, governance and the gate of the analytics ([Policy]) with
    its trail, on one database. The media, the agent, the repository of the analytics, the
    list of a teacher's rooms, the mailer and the limits of rates are what the server is
    given. *)
From S2P Require Import Prelude Text JsDate JsValue Contracts Database Policy Ledger Authorization Frames Echo Trace SeatCodes Sessions Rooms Attachments Messages Exports Http Routes ExportFile Governed Governance Coded Deletion.
#[local] Set Warnings "-register-all,-clear-no-such-hyp,-level-tolerance".

Section Server.
Context `{Schemas} `{Postgres} `{Environment} `{Hmac} `{Random} `{RoomCodeSource} `{AttachmentValidator} `{Locale} `{JsonText} `{Sha1}.

(** The reads of the repository of the analytics. *)
Record AnalyticsReads : Type := MkAnalyticsReads {
  ay_latest : string -> ProjectionKey -> GV (option (ConceptMapSnapshot + SnaProjectionBundle));
  ay_patchesAfter : string -> ProjectionKey -> string -> Z -> string -> GV (or_resync (list ConceptMapPatch));
  ay_timeline : string -> ProjectionKey -> string -> Z
                -> GV (or_resync (option ConceptMapSnapshot * list ConceptMapPatch * option Z * Z));
}.
(** What the server is given. *)
Record Given : Type := MkGiven {
  gi_payloads : EventPayloadRegistry;
  gi_codeHasher : CodeHasher;
  gi_drawFuel : nat;
  gi_publicBaseOrigin : string;
  gi_sender : string -> string -> GV unit;                     (** the mailer *)
  gi_auditSalt : string;
  gi_evictRoom : string -> Z -> GV unit;
  gi_latest : string -> ProjectionKey -> GV (option export_projection);
  gi_teacherRooms : option (AuthSession -> GV json);
  gi_media : option (MediaDeps governed);
  gi_agent : option (AgentService governed);
  gi_analytics : option AnalyticsReads;
  gi_analyticsTeacher : option (AnalyticsTeacher governed);
  gi_magicLinkExceeded : GV bool;
  gi_failedJoinLimit : bool -> GV RateLimit;
  gi_agentTriggerLimit : string -> GV json;
}.
Variable given : Given.

Definition sessionService : SessionService governed :=
  MkSessionService governed (fun t => ofRooms (getSession t)) (fun t => ofRooms (getSessionId t)) (fun t => ofRooms (revoke t)).
(** [request] ends with the mail, whose failure is not told. *)
Definition magicLinkService : MagicLinkService governed :=
  MkMagicLinks governed
    (fun email =>
      mail ← ofRooms (requestLink (gi_publicBaseOrigin given) email);
      match mail with
      | None => mret tt
      | Some (address, url) => try_catch (gi_sender given address url) (fun _ => mret tt)
      end)
    (fun token => ofRooms (consumeLink token)).
Definition roomService : RoomService governed :=
  MkRoomService governed
    (fun p v => ofRooms (createRoom (gi_codeHasher given) (gi_drawFuel given) p v))
    (fun v => ofRooms (joinRoom (gi_codeHasher given) v))
    (fun p rid => ofRooms (getRoom (Some (gi_payloads given)) p rid)).
Definition authorizer : Authorizer governed :=
  MkAuthorizer governed (fun t rid => ofAuth (authenticateToken t rid)) (fun sid rid => ofAuth (reauthorize sid rid)).
Definition roomEventsAfter (rid : string) (after limit : Z) : GV (list RoomEventEnvelope) :=
  ofRooms (eventsAfter (gi_payloads given) rid (NInt after) (NInt limit)).
Definition commandService (p : AuthSession) (v : json) (sid : string) : GV RoomEventEnvelope :=
  ofRooms (dispatch (gi_payloads given) p v (Some sid)).

(** The gate, which notes its decisions in the trail, before the repository. *)
Definition analyticsService (reads : AnalyticsReads) : AnalyticsDeps governed :=
  MkAnalytics governed (requireRoomAccess (Some (gi_auditSalt given))) assertProjection (ay_latest reads) (ay_patchesAfter reads)
    (ay_timeline reads).

Definition server : Dependencies governed :=
  MkDependencies governed (Some sessionService) (Some magicLinkService) (gi_teacherRooms given) (Some roomService)
    (Some roomEventsAfter) (Some commandService) (Some authorizer) (gi_media given) (gi_agent given) (analyticsService <$> gi_analytics given)
    (gi_analyticsTeacher given) (Some (governanceService (gi_auditSalt given) (gi_evictRoom given) (gi_latest given)))
    (gi_magicLinkExceeded given) (gi_failedJoinLimit given) (gi_agentTriggerLimit given) uuidNew.
End Server.

(** ** The server of the lesson *)

#[export] Existing Instance MediaAttachmentValidator.
(** A repository that has nothing yet. *)
Definition noReads : AnalyticsReads := MkAnalyticsReads (fun _ _ => mret None) (fun _ _ _ _ _ => mret Resync) (fun _ _ _ _ => mret Resync).
Definition lessonGiven : Given :=
  MkGiven corePayloadNames (Hasher 1 []) 8 "https://example.org" (fun _ _ => mret tt) "salt" noEvict noLatest None None None (Some noReads) None
    (mret false) (fun _ => mret (MkLimit true false)) (fun _ => mret JNull).
