(* ===== verification/Strangers.v ===== *)
(** * Strangers

    The routes of the server ([Server]) that ask who is there turn away whoever has no
    session ([strangers_are_turned_away]): those of [guardedRoutes] without a trace, those
    of the analytics ([auditedRoutes]) with one row in the trail. *)
From S2P Require Import Prelude Text JsDate JsValue Contracts Database Concrete Policy PolicyLaws Ledger Authorization Frames Hydrated Echo Trace SessionClient SeatCodes Sessions Rooms Attachments Messages JsNumber Exports Http Wire Routes ExportFile Gateway Governed Governance GovernanceLaws Deletion Server.
#[local] Set Warnings "-register-all,-clear-no-such-hyp,-level-tolerance".

(** ** Strangers *)

Definition AUTH_REQUIRED_BODY : body := BWire (WJson (codeBody "AUTH_REQUIRED")).
(** The answer that says so and nothing else. *)
Record away (r : reply) : Prop := {
  aw_status : rp_status r = 401;
  aw_body : rp_body r = AUTH_REQUIRED_BODY;
  aw_cookie : rp_cookie r = None;
}.
(** A run that ends well, with a value of a kind, and leaves every table as it was. *)
Definition ends_in {A} (P : A -> Prop) (m : GV A) (g : governed) : Prop :=
  exists a g', m g = (Ok a, g') /\ P a /\ same_tables g g'.
Definition turnedAway : GV reply -> governed -> Prop := ends_in away.
(** A hook that answers so. *)
Definition hookAway {A} (x : reply + A) : Prop := exists r, x = inl r /\ away r.
Definition bodyRead (q : Request) : bool := match rq_body q with ReadBody _ => true | UnreadBody _ _ _ => false end.

Section Strangers.
Context `{Schemas} `{Postgres} `{Environment} `{Hmac} `{Random} `{RoomCodeSource} `{AttachmentValidator} `{Locale} `{JsonText} `{Sha1} `{Ajv}.
Variable given : Given.
Abbreviation srv := (server given).

(** A cookie that is no token, or one of which no session is left that was not revoked. *)
Definition stranger (cookie : option string) (g : governed) : Prop :=
  forall t s, tokenOf cookie = Some t -> s ∈ sessions (gv_db g) -> ofToken (tokenHash t) s = true -> isOpen s = false.

(** The routes that ask who is there and leave no trace of it; those below them read a body
    first. *)
Definition guardedRoutes (q : Request) : list (GV reply) :=
  [getSessionRoute srv q; getTeacherRooms srv q; getRoomRoute srv q; getEventsRoute srv q; postCommand srv q;
   getMediaRoute srv q; getMediaDownload srv q;
   postAgentRun srv q; postAgentCancel srv q; getAgentCurrentRoute srv q; putAgentSettings srv q]
  ++ omap id [deleteRoomRoute srv q; getDeletion srv q; getRoomDeletionRoute srv q; getExport srv q;
              getArtifacts srv q; postReview srv q; getReviewDetail srv q]
  ++ (if bodyRead q then [postRooms srv q; postMediaUpload srv q; postMediaComplete srv q] else []).

(** The routes of the analytics ask too, and note what they decide. *)
Definition auditedRoutes (q : Request) : list (GV reply) :=
  omap id [getAnalyticsLatest srv q; getAnalyticsPatches srv q; getAnalyticsTimeline srv q].
(** The row that says that a stranger was turned away. *)
Definition strangerRow (q : Request) (corr : string) : audit_row :=
  AuditRow corr "anonymous" "analytics.read" "rejected" "AUTH_REQUIRED"
    (if bool_decide (rq_roomId q = ""%string) then None else Some (refHash (gi_auditSalt given) (rq_roomId q))).
Definition turnedAwayNoted (q : Request) (m : GV reply) (g : governed) : Prop :=
  exists r g' corr, m g = (Ok r, g') /\ away r /\ same_tables (set_audit (gv_audit g ++ [strangerRow q corr]) g) g'.

Lemma nobody_row t now d : (forall s, s ∈ sessions d -> ofToken (tokenHash t) s = true -> isOpen s = false) ->
  select_where (fun s => ofToken (tokenHash t) s && liveSession now s) (sessions d) = [].
Proof.
  intros Hs. destruct (select_where _ _) as [|s l] eqn:E; [done|]. exfalso.
  assert (s ∈ select_where (fun s => ofToken (tokenHash t) s && liveSession now s) (sessions d)) as Hin by (rewrite E; left).
  apply select_where_elem in Hin as [Hin [Ht Hl]%andb_true_iff]. specialize (Hs s Hin Ht).
  unfold isOpen, liveSession in *. by rewrite Hs in Hl.
Qed.
Lemma getSession_stranger cookie g : stranger cookie g ->
  exists g', ofRooms (Sessions.getSession cookie) g = (Ok None, g') /\ same_tables g g'.
Proof.
  intros Hs. unfold ofRooms, inWorld, Sessions.getSession. destruct (tokenOf cookie) as [t|] eqn:Ht; [|by eexists].
  unfold poolStatement. erewrite bind_run by reflexivity. rewrite (nobody_row t) by (exact (fun s => Hs t s Ht)). cbn. by eexists.
Qed.
Lemma getSessionId_stranger cookie g : stranger cookie g ->
  exists g', ofRooms (getSessionId cookie) g = (Ok None, g') /\ same_tables g g'.
Proof.
  intros Hs. unfold ofRooms, inWorld, getSessionId. destruct (tokenOf cookie) as [t|] eqn:Ht; [|by eexists].
  unfold poolStatement. erewrite bind_run by reflexivity. rewrite (nobody_row t) by (exact (fun s => Hs t s Ht)). cbn. by eexists.
Qed.
Lemma stranger_tables cookie g g' : same_tables g g' -> stranger cookie g -> stranger cookie g'.
Proof. intros [Hd _] Hs t s. rewrite Hd. apply Hs. Qed.

Lemma away_now : away (noStore (refuse 401 "AUTH_REQUIRED")).
Proof. done. Qed.
Lemma away_inl {A} : hookAway (A:=A) (inl (noStore (refuse 401 "AUTH_REQUIRED"))).
Proof. by eexists. Qed.
Lemma ends_ret {A} (P : A -> Prop) a g : P a -> ends_in P (mret a) g.
Proof. intros Ha. by exists a, g. Qed.
Lemma ends_bind {A B} (P : A -> Prop) (Q : B -> Prop) (m : GV A) (f : A -> GV B) g :
  ends_in P m g -> (forall a g1, P a -> same_tables g g1 -> ends_in Q (f a) g1) -> ends_in Q (m ≫= f) g.
Proof.
  intros (a & g1 & Hm & Ha & Hs) Hf. destruct (Hf a g1 Ha Hs) as (b & g' & Hr & Hb & Ht). exists b, g'.
  rewrite (bind_run _ _ _ _ _ Hm). split_and!; try done. by etrans.
Qed.
Lemma ends_try {A} (P : A -> Prop) (m : GV A) h g : ends_in P m g -> ends_in P (try_catch m h) g.
Proof. intros (r & g' & Hr & Hrest). exists r, g'. split; [|done]. unfold try_catch. by rewrite Hr. Qed.
Lemma ends_fmap {A B} (P : A -> Prop) (Q : B -> Prop) (f : A -> B) (m : GV A) g :
  (forall a, P a -> Q (f a)) -> ends_in P m g -> ends_in Q (f <$> m) g.
Proof. intros Hf Hm. eapply ends_bind; [exact Hm|]. intros a g1 Ha _. by apply ends_ret, Hf. Qed.
Lemma away_noStore r : away r -> away (noStore r).
Proof. by intros []. Qed.
(** Who asks is asked for first. *)
Lemma gate_get {A} (P : A -> Prop) q f g : stranger (rq_cookie q) g ->
  (forall g1, same_tables g g1 -> ends_in P (f None) g1) -> ends_in P (se_get sessionService (rq_cookie q) ≫= f) g.
Proof.
  intros Hs Hf. eapply (ends_bind (fun p => p = None)); [|by intros ? g1 -> Ht; apply Hf].
  destruct (getSession_stranger _ _ Hs) as (g' & Hr & Ht). by exists None, g'.
Qed.
Lemma gate_id {A} (P : A -> Prop) q f g : stranger (rq_cookie q) g ->
  (forall g1, same_tables g g1 -> ends_in P (f None) g1) -> ends_in P (se_getSessionId sessionService (rq_cookie q) ≫= f) g.
Proof.
  intros Hs Hf. eapply (ends_bind (fun p => p = None)); [|by intros ? g1 -> Ht; apply Hf].
  destruct (getSessionId_stranger _ _ Hs) as (g' & Hr & Ht). by exists None, g'.
Qed.
Lemma gate_both {A} (P : A -> Prop) q (f : option AuthSession -> option string -> GV A) g : stranger (rq_cookie q) g ->
  (forall g1, ends_in P (f None None) g1) ->
  ends_in P (p ← se_get sessionService (rq_cookie q); sid ← se_getSessionId sessionService (rq_cookie q); f p sid) g.
Proof.
  intros Hs Hf. apply gate_get; [done|]. intros g1 Ht. apply gate_id; [by apply (stranger_tables _ g)|]. intros g2 _. apply Hf.
Qed.
(** A hook that answers is the end of its request. *)
Lemma turned_hook {A} q (hook : GV (reply + A)) onError h g : ends_in hookAway hook g -> turnedAway (hookedRoute q hook onError h) g.
Proof. intros Hk. eapply ends_bind; [exact Hk|]. intros x g1 (r & -> & Hr) _. by apply ends_ret. Qed.
Lemma turned_plain q headers h g : bodyRead q = true -> turnedAway h g -> turnedAway (plainRoute headers q h) g.
Proof. unfold bodyRead, plainRoute, framework. destruct (rq_body q); [|done]. intros _. by apply ends_try. Qed.

Lemma commands_away q g : stranger (rq_cookie q) g -> ends_in hookAway (authenticateCommand srv q) g.
Proof. intros Hs. apply ends_try, gate_get; [done|]. intros. apply ends_ret, away_inl. Qed.
Lemma agent_away teacherOnly q g : stranger (rq_cookie q) g -> ends_in hookAway (authenticateAgent srv teacherOnly q) g.
Proof. intros Hs. apply ends_try, gate_both; [done|]. intros. apply ends_ret, away_inl. Qed.
Lemma teacher_away service q g : stranger (rq_cookie q) g -> ends_in hookAway (authenticateTeacher service sessionService q) g.
Proof. intros Hs. apply ends_try, gate_both; [done|]. intros. apply ends_ret, away_inl. Qed.
Lemma deletion_away service q g : stranger (rq_cookie q) g -> ends_in hookAway (authenticateDeletion service sessionService q) g.
Proof. intros Hs. apply ends_try, gate_get; [done|]. intros. apply ends_ret, away_inl. Qed.
Lemma media_away q h g : stranger (rq_cookie q) g -> turnedAway (mediaRoute srv q h) g.
Proof.
  intros Hs. eapply (ends_bind (fun x => x = Ok None)).
  - apply ends_try. apply (ends_fmap (fun x => x = None)); [by intros ? ->|]. apply gate_get; [done|]. intros. by apply ends_ret.
  - intros x g1 -> _. by apply ends_ret.
Qed.
Definition awayIfThere (m : option (GV reply)) (g : governed) : Prop := match m with Some m => turnedAway m g | None => True end.
Lemma away_omap l g : Forall (fun m => awayIfThere m g) l -> Forall (fun m => turnedAway m g) (omap id l).
Proof. induction 1 as [|[m|] l Hm _ IH]; [constructor| |exact IH]. by constructor. Qed.
Lemma fmap_noStore (m : GV reply) g :
  (noStore <$> m) g = match m g with (Ok a, g') => (Ok (noStore a), g') | (Err e, g') => (Err e, g') end.
Proof. done. Qed.
Abbreviation governing := (governanceService (gi_auditSalt given) (gi_evictRoom given) (gi_latest given)).
(** An error the service throws before it does anything. *)
Lemma governance_away q h g : stranger (rq_cookie q) g ->
  (forall g1, h governing None g1 = (Err (governance "AUTH_REQUIRED" 401), g1)) ->
  awayIfThere (governanceRoute srv q h) g.
Proof.
  intros Hs Hh. apply (ends_fmap away); [apply away_noStore|].
  destruct (getSession_stranger _ _ Hs) as (g1 & Hr & Ht). exists (refuse 401 "AUTH_REQUIRED"), g1. split; [|split; [done|exact Ht]].
  unfold answering, try_catch. cbn [se_get sessionService].
  erewrite bind_run by exact Hr. by rewrite Hh.
Qed.

Lemma audit_tables g g1 row g' : same_tables g g1 -> same_tables (set_audit (gv_audit g1 ++ [row]) g1) g' ->
  same_tables (set_audit (gv_audit g ++ [row]) g) g'.
Proof.
  intros Hs Hn. etrans; [|exact Hn]. destruct Hs as (Hd & ? & ? & ? & Ha & ? & ? & ? & ? & ? & ? & ?).
  unfold same_tables, gv_db in *. cbn. split_and!; congruence.
Qed.
Definition notedIfThere (q : Request) (m : option (GV reply)) (g : governed) : Prop :=
  match m with Some m => turnedAwayNoted q m g | None => True end.
Lemma noted_omap q l g : Forall (fun m => notedIfThere q m g) l -> Forall (fun m => turnedAwayNoted q m g) (omap id l).
Proof. induction 1 as [|[m|] l Hm _ IH]; [constructor| |exact IH]. by constructor. Qed.
Lemma analytics_away q capability h g : stranger (rq_cookie q) g -> notedIfThere q (analyticsRoute srv q capability h) g.
Proof.
  intros Hs. unfold analyticsRoute, notedIfThere. cbn [dp_analytics dp_sessions server]. destruct (gi_analytics given) as [reads|]; [|done]. cbn [fmap option_fmap option_map].
  destruct (getSession_stranger _ _ Hs) as (g1 & Hr1 & Ht1). destruct (getSessionId_stranger (rq_cookie q) g1) as (g2 & Hr2 & Ht2); [by apply (stranger_tables _ g)|].
  destruct (requireRoomAccess_run (Some (gi_auditSalt given)) None (rq_roomId q) capability None g2) as (g3 & Hr3 & corr & Hn).
  exists (noStore (refuse 401 "AUTH_REQUIRED")), g3, corr. split_and!; [|done|].
  - rewrite fmap_noStore. unfold answering, try_catch. cbn [se_get se_getSessionId sessionService an_requireRoomAccess analyticsService].
    erewrite bind_run by exact Hr1. erewrite bind_run by exact Hr2. erewrite bind_err by exact Hr3. done.
  - eapply (audit_tables g g2); [by etrans|]. exact Hn.
Qed.

(** C14. Whoever has no session is told so, by every route of the server that asks, before
    anything else is done: the answer is 401 with its code and no cookie. On the routes of
    sessions, rooms, events, commands, media, the agent, deletion, export and review every
    table is as it was; on the three routes of the analytics the refusal is noted in the
    trail, one row that names nobody, and every other table is as it was. That holds of a
    cookie whose sessions were all revoked, and for the routes with a hook whatever the body
    of the request is. *)
Theorem strangers_are_turned_away q g : stranger (rq_cookie q) g ->
  Forall (fun m => turnedAway m g) (guardedRoutes q) /\ Forall (fun m => turnedAwayNoted q m g) (auditedRoutes q).
Proof.
  intros Hs. split; [|apply noted_omap; repeat apply Forall_cons_2; try apply Forall_nil_2; by apply analytics_away].
  unfold guardedRoutes. rewrite !Forall_app. split_and!.
  - assert (forall f, (forall g1, turnedAway (f None) g1) -> turnedAway (framework noStore (sessionsGet srv q ≫= f)) g) as Hget.
    { intros f Hf. apply ends_try, gate_get; [done|]. intros g1 _. apply Hf. }
    repeat apply Forall_cons_2; try apply Forall_nil_2.
    1-4: by apply Hget; intros; apply ends_ret.
    + by apply turned_hook, commands_away.
    + by apply ends_try, media_away.
    + apply ends_try, (ends_fmap away); [by intros r []|by apply media_away].
    + by apply turned_hook, agent_away.
    + by apply turned_hook, agent_away.
    + by apply turned_hook, agent_away.
    + by apply turned_hook, agent_away.
  - assert (forall onError h, awayIfThere (teacherRoute srv q onError h) g) as Ht.
    { intros onError h. unfold teacherRoute. cbn. destruct (gi_analyticsTeacher given); [|done]. by apply turned_hook, teacher_away. }
    apply away_omap. repeat apply Forall_cons_2; try apply Forall_nil_2; try apply Ht.
    + by apply turned_hook, deletion_away.
    + by apply governance_away.
    + by apply governance_away.
    + by apply governance_away.
  - destruct (bodyRead q) eqn:Hb; [|done]. repeat apply Forall_cons_2; try apply Forall_nil_2; apply turned_plain; try done.
    + apply gate_get; [done|]. intros. by apply ends_ret.
    + by apply media_away.
    + by apply media_away.
Qed.
End Strangers.

(** ** Whose sessions were revoked *)

Lemma stranger_check cookie g t : tokenOf cookie = Some t ->
  forallb (fun s => negb (ofToken (tokenHash t) s) || negb (isOpen s)) (sessions (gv_db g)) = true -> stranger cookie g.
Proof.
  intros Ht Hall t' s Ht' Hin Hof. rewrite Ht in Ht'. injection Ht' as <-. rewrite forallb_forall in Hall.
  specialize (Hall s (proj1 (list_elem_of_In _ _) Hin)). rewrite Hof in Hall. by apply negb_true_iff.
Qed.
#[export] Instance plain_ajv : Ajv := {
  accepts d j := if bool_decide (d = "DeleteRoomRequest"%string) then bool_decide (is_Some (parseRequest j))
                 else if bool_decide (d = "DeleteRoomAccepted"%string) then acceptedSchema j else true;
}.
Definition studentRequest : Request := MkRequest (Some "student-token"%string) demoRoom "" [] (UnreadBody 400 "FST_ERR_CTP_INVALID_JSON_BODY" "bad").
(** A student of the lesson, known before the room is deleted and a stranger after. *)
Lemma strangers_are_turned_away_witness :
  (exists p, fst (ofRooms (Sessions.getSession (rq_cookie studentRequest)) lessonGoverned) = Ok (Some p))
  /\ length (guardedRoutes lessonGiven studentRequest) = 15%nat
  /\ length (auditedRoutes lessonGiven studentRequest) = 3%nat
  /\ Forall (fun m => turnedAway m (snd lessonDeleted)) (guardedRoutes lessonGiven studentRequest)
  /\ Forall (fun m => turnedAwayNoted lessonGiven studentRequest m (snd lessonDeleted)) (auditedRoutes lessonGiven studentRequest).
Proof.
  split; [eexists; vm_compute; reflexivity|]. split; [reflexivity|]. split; [reflexivity|].
  apply strangers_are_turned_away. apply (stranger_check _ _ "student-token"); [reflexivity|]. vm_compute. reflexivity.
Defined.
