(* ===== verification/Exchange.v ===== *)
(** * Browser and server together

    The browser's gateway ([Gateway]) over a network that carries its requests to the
    handlers of the server ([Server]) and their answers back: what a teacher's browser is
    told of an export and of a deletion is what the server did. *)
From S2P Require Import Prelude Text JsDate JsValue Contracts Database Concrete Ledger Authorization Frames Hydrated Echo Trace SessionClient SeatCodes Sessions Rooms Attachments Messages JsNumber Exports Http Wire Routes ExportFile Governed Governance GovernanceLaws Coded Deletion Server Strangers Gateway.
#[local] Set Warnings "-register-all,-clear-no-such-hyp,-level-tolerance".

(** ** What may be thrown *)

Definition throws {S E A} (P : E -> Prop) (m : M S E A) : Prop := forall s e s', m s = (Err e, s') -> P e.
Create HintDb throws.
Section Throws.
Context {S E : Type} (P : E -> Prop).
Lemma throws_ret {A} (a : A) : throws P (mret (M:=M S E) a).
Proof. by intros s e s'. Qed.
Lemma throws_throw {A} e : P e -> throws P (throw (S:=S) (A:=A) e).
Proof. by intros He s e' s' [= <- _]. Qed.
Lemma throws_bind {A B} (m : M S E A) (f : A -> M S E B) : throws P m -> (forall a, throws P (f a)) -> throws P (m ≫= f).
Proof.
  intros Hm Hf s e s'. unfold mbind, M_bind. destruct (m s) as [[a|e'] s1] eqn:Em; [by apply Hf|]. intros [= <- <-]. by eapply Hm.
Qed.
Lemma throws_if b e : P e -> throws P (throw_if (S:=S) b e).
Proof. destruct b; [by apply throws_throw|by intros _ s e' s']. Qed.
Lemma throws_lift {A} (x : result E A) : (forall e, x = Err e -> P e) -> throws P (lift_result (S:=S) x).
Proof. intros Hx s e s' [= He _]. by apply Hx. Qed.
Lemma throws_modify f : throws P (modify (S:=S) f).
Proof. by intros s e s'. Qed.
Lemma throws_gets {A} (f : S -> A) : throws P (gets f).
Proof. by intros s e s'. Qed.
Lemma throws_try {A} (m : M S E A) h : (forall e, throws P (h e)) -> throws P (try_catch m h).
Proof. intros Hh s e s'. unfold try_catch. destruct (m s) as [[a|e'] s1]; [done|]. apply Hh. Qed.
Lemma throws_mapM {A B} (f : A -> M S E B) l : (forall x, throws P (f x)) -> throws P (mapM f l).
Proof.
  intros Hf. induction l as [|x l IH]; [by apply throws_ret|]. cbn. apply throws_bind; [done|]. intros y.
  apply throws_bind; [done|]. intros. apply throws_ret.
Qed.
End Throws.
#[export] Hint Resolve throws_ret throws_throw throws_if throws_modify throws_gets throws_mapM : throws.
Section ThrowsGV.
Context `{Postgres} `{Environment} (P : failure -> Prop).
Lemma throws_ofRooms {A} (m : IO A) : (forall e, P (RoomsThrew e)) -> throws P (ofRooms m).
Proof. intros HP s e s'. unfold ofRooms, inWorld. destruct (m _) as [[a|e'] w]; [done|]. intros [= <- _]. apply HP. Qed.
Lemma throws_txQuery {A} (f : Z -> governed -> A) : throws P (txQuery f).
Proof. by intros s e s'. Qed.
Lemma throws_poolQuery {A} (f : Z -> governed -> A) : throws P (poolQuery f).
Proof. by intros s e s'. Qed.
Lemma throws_executeG f : P QUERY_FAILED -> throws P (executeG f).
Proof. intros HP s e s'. unfold executeG. destruct (f _ s); [done|]. by intros [= <- _]. Qed.
Lemma throws_uuidG t : P QUERY_FAILED -> throws P (uuidG t).
Proof. intros HP. unfold uuidG. destruct (uuid_in t); [apply throws_ret|by apply throws_throw]. Qed.
Lemma throws_updateDb f : throws P (updateDb f).
Proof. by intros s e s'. Qed.
Lemma throws_inTransactionG {A} (m : GV A) : throws P m -> throws P (inTransactionG m).
Proof. intros Hm s e s'. unfold inTransactionG. destruct (m _) as [[a|e'] g1] eqn:E; [done|]. intros [= <- _]. by eapply Hm. Qed.
End ThrowsGV.

(** ** What the governance service throws can be told *)

Section Told.
Context `{Schemas} `{Postgres} `{Environment} `{Locale} `{JsonText} `{Sha1}.
Variable auditSalt : string.
Variable evictRoom : string -> Z -> GV unit.
Variable latestOf : string -> ProjectionKey -> GV (option export_projection).

(** The answer to an error is one the browser lets through. *)
Definition told (l : list (Z * list string)) (e : failure) : Prop :=
  allows l (fst (sendError e)) (snd (sendError e)) = true /\ snd (sendError e) ∈ API_ERROR_CODES.
Lemma told_code l code status : allows l status code && bool_decide (code ∈ API_ERROR_CODES) = true -> told l (governance code status).
Proof. intros [Ha Hc]%andb_true_iff. apply bool_decide_eq_true in Hc. done. Qed.
(** An allowlist that has the internal errors. *)
Definition tellsInternal (l : list (Z * list string)) : bool := allows l 500 "INTERNAL".
Lemma told_rooms l e : tellsInternal l = true -> told l (RoomsThrew e).
Proof. intros Hl. split; [exact Hl|]. apply (bool_decide_eq_true_1 _). vm_compute. reflexivity. Qed.

Ltac told_step :=
  lazymatch goal with
  | |- throws _ (mbind _ _) => apply throws_bind; [|intros]
  | |- throws _ (mret _) => apply throws_ret
  | |- throws _ (throw _) => apply throws_throw
  | |- throws _ (throw_if _ _) => apply throws_if
  | |- throws _ (modify _) => apply throws_modify
  | |- throws _ (mapM _ _) => apply throws_mapM; intros
  | |- throws _ (try_catch _ _) => apply throws_try; intros
  | |- throws _ (txQuery _) => apply throws_txQuery
  | |- throws _ (poolQuery _) => apply throws_poolQuery
  | |- throws _ (updateDb _) => apply throws_updateDb
  | |- throws _ (executeG _) => apply throws_executeG
  | |- throws _ (uuidG _) => apply throws_uuidG
  | |- throws _ (ofRooms _) => apply throws_ofRooms; intros
  | |- throws _ uuidNew => apply throws_ofRooms; intros
  | |- throws _ nowG => apply throws_ofRooms; intros
  | |- throws _ (inTransactionG _) => apply throws_inTransactionG
  | |- throws _ (let '(_, _) := ?x in _) => destruct x
  | |- throws _ (match ?x with _ => _ end) => destruct x
  | |- told _ (RoomsThrew _) => by apply told_rooms
  | |- told _ QUERY_FAILED => by apply told_rooms
  | |- told _ (plain _) => by apply told_rooms
  | |- told _ _ => apply told_code; vm_compute; reflexivity
  end.
Ltac told := repeat told_step.
Lemma teacherOnly_told l p : allows l 401 "AUTH_REQUIRED" && allows l 404 "ROOM_NOT_FOUND" = true -> throws (S:=governed) (told l) (lift_result (teacherOnly p)).
Proof.
  intros [H401 H404]%andb_true_iff. apply throws_lift. intros e. destruct p as [[t a|]|]; intros [= <-]; split; try done; apply (bool_decide_eq_true_1 _); vm_compute; reflexivity.
Qed.
Lemma audit_told l k rid c a o r : tellsInternal l = true -> throws (told l) (audit auditSalt k rid c a o r).
Proof. intros Hl. unfold audit. told. Qed.
Lemma exportRoom_told p rid q : throws (told EXPORT_ALLOWLIST) (Governance.exportRoom auditSalt latestOf p rid q).
Proof.
  unfold Governance.exportRoom. apply throws_bind; [by apply teacherOnly_told|]. intros t. unfold exportWork, exportDocument, eventRow, artifactRow, artifactSource, exportPositiveInteger, exportIsoTimestamp. told; by apply audit_told.
Qed.
Lemma requestDeletion_told p rid raw : throws (told DELETE_ALLOWLIST) (requestDeletion auditSalt evictRoom p rid raw).
Proof.
  unfold requestDeletion. apply throws_bind; [by apply teacherOnly_told|]. intros t.
  unfold deletionBody, freezeDeletionSurfaces, enqueueDeletionSurfaceJobs. told; by apply audit_told.
Qed.
Lemma authorizeRoom_told p rid : throws (told DELETE_ALLOWLIST) (authorizeRoom p rid).
Proof. unfold authorizeRoom. apply throws_bind; [by apply teacherOnly_told|]. intros t. told. Qed.
End Told.

(** ** The network *)

(** The browser sees the answer that was sent, its body in pieces. *)
Record delivers (r : reply) (resp : Response) : Prop := {
  dv_status : rs_status resp = rp_status r;
  dv_type : rs_contentType resp = rp_type r;
  dv_disposition : rs_contentDisposition resp = headerOf "Content-Disposition" r;
  dv_body : match rp_body r with
            | BWire v => rs_json resp = Some v
            | BText t => carries resp t
            | BNone => rs_text resp = Some EmptyString
            end;
}.
Section Network.
Context `{Schemas} `{Ajv} `{UrlSearch} `{Locale} `{JsonText}.
Context {N : Type} (fetch : string -> RequestInit -> N -> option Response * N).
(** [fetch] answers this request with what the handler answers. *)
Definition serves {E} (path : string) (init : RequestInit) (m : M N E reply) : Prop :=
  forall g r g', m g = (Ok r, g') -> exists resp, fetch path init g = (Some resp, g') /\ delivers r resp.

Lemma jsonBody_delivered r resp v : delivers r resp -> rp_type r = Some JSON_TYPE -> rp_body r = BWire v -> jsonBody resp = Some v.
Proof. intros [_ Ht _ Hb] Hty Hbody. rewrite Hbody in Hb. unfold jsonBody. by rewrite Ht, Hty. Qed.
Lemma request_served {E} path init (m : M N E reply) g r g' : serves path init m -> m g = (Ok r, g') ->
  String.prefix "/v1/" path = true -> String.prefix "//" path = false ->
  exists resp, request fetch path init g = (Ok resp, g') /\ delivers r resp.
Proof.
  intros Hf Hr Hp1 Hp2. destruct (Hf g r g' Hr) as (resp & Hfetch & Hd). exists resp. split; [|done].
  unfold request. rewrite Hp1, Hp2. cbn. by rewrite Hfetch.
Qed.
(** A refusal is told by its code. *)
Definition refused (status : Z) (code : string) (r : reply) : Prop :=
  rp_status r = status /\ rp_type r = Some JSON_TYPE /\ rp_body r = BWire (WJson (codeBody code)).
Lemma exchange_refused {E A} path init accepted allowed (decode : Response -> option A) (m : M N E reply) g r g' status code :
  serves path init m -> m g = (Ok r, g') -> String.prefix "/v1/" path = true -> String.prefix "//" path = false ->
  refused status code r -> bool_decide (status ∈ accepted) = false -> allows allowed status code = true -> code ∈ API_ERROR_CODES ->
  exchange fetch path init accepted allowed decode g = (Err (GatewayError code), g').
Proof.
  intros Hf Hr Hp1 Hp2 (Hs & Ht & Hb) Hacc Hall Hc. destruct (request_served _ _ _ _ _ _ Hf Hr Hp1 Hp2) as (resp & Hreq & Hd).
  unfold exchange. rewrite (bind_run _ _ _ _ _ Hreq). rewrite (dv_status _ _ Hd), Hs, Hacc. unfold legalError.
  rewrite (jsonBody_delivered _ _ _ Hd Ht Hb). cbn [mbind option_bind]. rewrite parseApiError_code, bool_decide_true by done.
  by rewrite (dv_status _ _ Hd), Hs, Hall.
Qed.
Lemma exchange_taken {E A} path init accepted allowed (decode : Response -> option A) (m : M N E reply) g r g' a :
  serves path init m -> m g = (Ok r, g') -> String.prefix "/v1/" path = true -> String.prefix "//" path = false ->
  bool_decide (rp_status r ∈ accepted) = true -> (forall resp, delivers r resp -> decode resp = Some a) ->
  exchange fetch path init accepted allowed decode g = (Ok a, g').
Proof.
  intros Hf Hr Hp1 Hp2 Hacc Hdec. destruct (request_served _ _ _ _ _ _ Hf Hr Hp1 Hp2) as (resp & Hreq & Hd).
  unfold exchange. rewrite (bind_run _ _ _ _ _ Hreq), (dv_status _ _ Hd), Hacc, (Hdec _ Hd). done.
Qed.
End Network.

(** ** A teacher's browser *)

Section Teacher.
Context `{Schemas} `{Postgres} `{Environment} `{Hmac} `{Random} `{RoomCodeSource} `{AttachmentValidator} `{Locale} `{JsonText} `{Sha1} `{Ajv} `{UrlSearch}.
Variable given : Given.
Variable fetch : string -> RequestInit -> governed -> option Response * governed.
Abbreviation srv := (server given).
Abbreviation salt := (gi_auditSalt given).
Abbreviation evict := (gi_evictRoom given).
Abbreviation latest := (gi_latest given).

(** The requests of the two methods, as the server reads them. *)
Definition exportRequest (cookie : option string) (roomId : string) (f : ExportFormat) : Request :=
  MkRequest cookie roomId "" [("format"%string, One (formatText f))] (ReadBody None).
Definition deletionRequest (cookie : option string) (roomId : string) : Request :=
  MkRequest cookie roomId "" [] (ReadBody (Some (confirmation roomId))).
Lemma fmap_run {A B} (f : A -> B) (m : GV A) g :
  (f <$> m) g = match m g with (Ok a, g') => (Ok (f a), g') | (Err e, g') => (Err e, g') end.
Proof. done. Qed.
Lemma length_text t : length (list_ascii_of_string t) = String.length t.
Proof. induction t as [|c t IH]; [done|]. cbn. by rewrite IH. Qed.
Lemma allows_status l status code (accepted : list Z) : forallb (fun p => negb (bool_decide (fst p ∈ accepted))) l = true ->
  allows l status code = true -> bool_decide (status ∈ accepted) = false.
Proof.
  intros Hl (p & Hin & [Hs%Z.eqb_eq _]%andb_true_iff)%existsb_exists. rewrite forallb_forall in Hl. rewrite <- Hs.
  by apply negb_true_iff, Hl.
Qed.
Lemma refused_noStore status code : refused status code (noStore (refuse status code)).
Proof. done. Qed.

(** What the handler does once the session is known. *)
Lemma export_route_run cookie roomId f p g g1 m : getExport srv (exportRequest cookie roomId f) = Some m ->
  ofRooms (Sessions.getSession cookie) g = (Ok p, g1) ->
  m g = match Governance.exportRoom salt latest p roomId (queryJson (exportRequest cookie roomId f)) g1 with
        | (Ok e, g2) => (Ok (noStore (withHeader "Content-Disposition" (attachment (ex_filename e))
                           (Reply 200 (Some (ex_contentType e)) [] None (BText (ex_body e))))), g2)
        | (Err e, g2) => (Ok (noStore (refuse (fst (sendError e)) (snd (sendError e)))), g2)
        end.
Proof.
  intros [= <-] Hs. rewrite fmap_run. unfold answering, try_catch. erewrite bind_run by exact Hs. unfold mbind, M_bind.
  cbn [go_exportRoom governanceService rq_roomId exportRequest].
  destruct (Governance.exportRoom _ _ _ _ _ _) as [[e|e] g2]; [done|]. by destruct (sendError e).
Qed.

Lemma formatText_field f : formatOf (queryJson (exportRequest None "" f)) = Some f.
Proof. by destruct f. Qed.
(** What is stored of a room is JSON that its text gives back: no minus zero, no key twice -
    as the column type [jsonb] has it. *)
Record plain_stored (rid : string) (g : governed) : Prop := {
  ps_events : forall e, e ∈ events (gv_db g) -> ev_room_id e = rid -> plainTree (ev_payload e) = true;
  ps_projections : forall k h o h', same_tables g h -> latest rid k h = (Ok (Some o), h') -> plainProjection o = true;
}.
Lemma plain_object fs : bool_decide (NoDup (map fst fs)) = true -> Forall (fun f => plainTree (snd f) = true) fs -> plainTree (JObj fs) = true.
Proof. intros Hn Hf. cbn [plainTree]. rewrite Hn. cbn. apply forallb_forall. rewrite Forall_forall in Hf. intros f Hin. by apply Hf, list_elem_of_In. Qed.
Ltac plain_fields := apply plain_object; [vm_compute; reflexivity|repeat apply Forall_cons_2; try apply Forall_nil_2; try reflexivity; try done].
Lemma plain_event row j : eventAs row j -> plainTree (ev_payload row) = true -> plainTree j = true.
Proof. intros -> Hp. plain_fields. Qed.
Lemma plain_artifact row j : artifactAs row j -> plainTree j = true.
Proof. intros ->. plain_fields. cbn. by destruct (ar_language_tag row). Qed.
Lemma plain_artifact_source row j : artifactSourceAs row j -> plainTree j = true.
Proof. intros ->. plain_fields; cbn; [by destruct (ar_source_media_id row)|by destruct (ar_supersedes row)]. Qed.
Lemma plain_projection_source p j : projectionSourceAs p j -> plainTree j = true.
Proof. intros ->. destruct p; plain_fields. Qed.
Lemma Forall2_right {A B} (R : A -> B -> Prop) (Q : B -> Prop) l k : (forall a b, a ∈ l -> R a b -> Q b) -> Forall2 R l k -> Forall Q k.
Proof.
  intros Hq Hf. induction Hf as [|a b l k Hab _ IH]; [constructor|]. constructor; [apply (Hq a); [left|done]|].
  apply IH. intros a' b' Ha'. apply Hq. by right.
Qed.
(** So the document of an export is one that arrives as it was sent. *)
Lemma faithful_plain rid g x : faithful latest rid g x -> plain_stored rid g -> plainExport x = true.
Proof.
  intros [_ _ _ (rows & Hrows & _ & Hev) (arts & _ & _ & Ha & Hs) (found & Hfound & Hl & Hp)] [Hpe Hpp]. unfold plainExport.
  apply andb_true_iff. split; apply forallb_forall.
  - intros j Hj%list_elem_of_In. revert j Hj. apply Forall_forall. rewrite !Forall_app. split_and!.
    + eapply Forall2_right; [|exact Hev]. intros row j Hin Hj. eapply plain_event; [exact Hj|]. rewrite Hrows in Hin.
      apply list_elem_of_In, filter_In in Hin as [Hin Hid%bool_decide_eq_true]. apply Hpe; [by apply list_elem_of_In|done].
    + eapply Forall2_right; [|exact Ha]. intros row j _. apply plain_artifact.
    + eapply Forall2_right; [|exact Hs]. intros row j _. apply plain_artifact_source.
    + eapply Forall2_right; [|exact Hp]. intros q j _. apply plain_projection_source.
  - intros q Hq%list_elem_of_In. rewrite Hfound in Hq. apply list_elem_of_omap in Hq as (o & Hin & Ho). cbn in Ho. subst o.
    apply list_elem_of_lookup in Hin as (i & Hi). destruct (Forall2_lookup_r _ _ _ _ _ Hl Hi) as (k & _ & h & h' & Hh & Hk). by eapply Hpp.
Qed.

(** C12. A teacher's browser gets the export the server made, over the network. What is stored
    of the room being JSON that its text gives back, and the file being text: if the server
    makes a file, the browser takes it - its text is the server's, which is that of a whole
    document of the room in the format asked for, the browser's own check of it passes, and
    its name is the server's; and if the server refuses, the browser is told why by the code
    of the refusal, never that the answer was not understood, and no table has changed. *)
Theorem export_arrives (PL : PostgresLaws) (JL : JsonTextLaws) cookie roomId f p g g1 m r g' :
  (forall rid k, leaves_tables (latest rid k)) -> plain_stored roomId g1 ->
  getExport srv (exportRequest cookie roomId f) = Some m ->
  serves fetch (exportPath roomId (formatText f)) (MkInit GET None (mimeOf f)) m ->
  ofRooms (Sessions.getSession cookie) g = (Ok p, g1) ->
  Governance.exportRoom salt latest p roomId (queryJson (exportRequest cookie roomId f)) g1 = (r, g') ->
  (forall e, r = Ok e -> properText (ex_body e)) ->
  match r with
  | Ok e => Gateway.exportRoom fetch roomId f g = (Ok (MkExportFile (ex_body e) (ex_filename e) f), g')
      /\ (exists t a, p = Some (TeacherSession t a))
      /\ exists x, faithful latest roomId g1 x /\ e = MkExport (exportFilename f) (exportContentType f) (exportBody f x)
  | Err e => Gateway.exportRoom fetch roomId f g = (Err (GatewayError (snd (sendError e))), g') /\ same_tables g1 g'
  end.
Proof.
  intros Hlat Hplain Hm Hserves Hses Hr Hproper. pose proof (export_route_run _ _ _ _ _ _ _ Hm Hses) as Hrun. rewrite Hr in Hrun.
  pose proof (exportRoom_sound PL salt latest Hlat _ _ _ _ _ _ Hr) as Hsound. destruct r as [e|e].
  - destruct Hsound as (t & a & f' & x & -> & Hf & _ & Hx & -> & Hb & _). replace f' with f in * by (destruct f, f'; done). clear f' Hf.
    split; [|split; [by exists t, a|by exists x]]. pose proof (faithful_plain _ _ _ Hx Hplain) as Hp.
    specialize (Hproper _ eq_refl). cbn [ex_body ex_filename] in *. rename Hproper into Ht. unfold Gateway.exportRoom. eapply exchange_taken; [exact Hserves|exact Hrun|done..|].
    intros resp [_ Hty Hdis Hbody]. unfold readExport. rewrite Hty. cbn [rp_type noStore withHeader ex_contentType].
    replace (mimeOf f) with (match f with json_format => "application/json" | csv_format => "text/csv" end)%string by (by destruct f).
    rewrite content_type_of_server. cbn [rp_body noStore withHeader ex_body] in *.
    rewrite (readBounded_carries _ _ Hbody) by (done || (unfold bytesOf; rewrite length_map, length_text; exact Hb)).
    cbn [mbind option_bind]. destruct Hx as [Hx <- _ _ _ _]. rewrite (validateExport_written JL) by done. cbn [mbind option_bind].
    rewrite Hdis. do 2 f_equal. exact (file_name_of_server f).
  - split; [|done]. destruct (exportRoom_told salt latest _ _ _ _ _ _ Hr) as [Hall Hc]. unfold Gateway.exportRoom.
    eapply exchange_refused; [exact Hserves|exact Hrun|done|done|apply refused_noStore| |exact Hall|exact Hc].
    exact (allows_status EXPORT_ALLOWLIST _ _ [200] eq_refl Hall).
Qed.

(** What the service did on a request for deletion, and what the handler answers. *)
Definition deletion_answer (p : option AuthSession) (roomId : string) (g1 g' : governed) (r : reply) : Prop :=
  (exists answer g2, requestDeletion salt evict p roomId (confirmation roomId) g2 = (Ok answer, g')
     /\ same_tables g1 g2 /\ r = noStore (sendJson 202 answer))
  \/ (exists e, told DELETE_ALLOWLIST e /\ r = noStore (refuse (fst (sendError e)) (snd (sendError e))) /\ same_tables g1 g').
Lemma authorizeRoom_tables p roomId g r g' : authorizeRoom p roomId g = (r, g') -> same_tables g g'.
Proof.
  unfold authorizeRoom. destruct p as [[t a|]|]; try by intros [= _ <-]. unfold uuidG, poolQuery, throw_if, mbind, M_bind.
  cbn. destruct (isLowerUuid roomId); [|by intros [= _ <-]]. cbn.
  destruct (uuid_in roomId); [|by intros [= _ <-]]. destruct (uuid_in t); [|by intros [= _ <-]]. cbn.
  destruct (existsb _ _); by intros [= _ <-].
Qed.
Lemma delete_route_run (PL : PostgresLaws) cookie roomId p g g1 m : (forall rid c, leaves_tables (evict rid c)) ->
  deleteRoomRoute srv (deletionRequest cookie roomId) = Some m ->
  ofRooms (Sessions.getSession cookie) g = (Ok p, g1) -> exists r g', m g = (Ok r, g') /\ deletion_answer p roomId g1 g' r.
Proof.
  intros Hev [= <-] Hs. unfold hookedRoute, authenticateDeletion.
  unfold mbind at 1, M_bind. unfold try_catch at 1. cbn [se_get sessionService]. unfold mbind at 1, M_bind. cbn [rq_cookie deletionRequest]. rewrite Hs.
  destruct p as [p|].
  - unfold mbind, M_bind. cbn [go_authorizeRoom go_requestDeletion governanceService rq_roomId rq_body deletionRequest].
    destruct (authorizeRoom (Some p) roomId g1) as [[[]|e] g2] eqn:Ha; pose proof (authorizeRoom_tables _ _ _ _ _ Ha) as Ht.
    + cbn. change (bodyOf _) with (confirmation roomId). unfold try_catch, fmap, M_fmap, answering, mbind, M_bind.
      cbn [go_requestDeletion governanceService]. unfold try_catch.
      destruct (requestDeletion salt evict (Some p) roomId (confirmation roomId) g2) as [[answer|e] g3] eqn:Hd.
      * eexists _, _. split; [reflexivity|]. left. exists answer, g2. split_and!; done.
      * destruct (sendError e) as [status code] eqn:He. eexists _, _. split; [reflexivity|]. right. exists e. rewrite He. split_and!; [|done|].
        -- by eapply requestDeletion_told.
        -- etrans; [exact Ht|]. by eapply requestDeletion_err.
    + destruct (sendError e) as [status code] eqn:He. eexists _, _. split; [reflexivity|]. right. exists e. rewrite He.
      split_and!; [by eapply authorizeRoom_told|done|done].
  - exists (noStore (refuse 401 "AUTH_REQUIRED")), g1. split; [done|]. right. exists (governance "AUTH_REQUIRED" 401). split_and!; [|done|done].
    by apply told_code.
Qed.

(** The schemas of a deletion, as the schema compiler has them. *)
Record DeletionSchemas : Prop := {
  ds_request j : accepts "DeleteRoomRequest" j = bool_decide (is_Some (parseRequest j));
  ds_accepted j : accepts "DeleteRoomAccepted" j = acceptedSchema j;
}.
Lemma acceptedSchema_id id : format_uuid id = true -> acceptedSchema (acceptedJson id) = true.
Proof. intros Hid. unfold acceptedSchema, acceptedJson, closedObject, field, uuidSchema. simpl. by rewrite Hid. Qed.
(** C13. What a teacher's browser is told of its request to delete a room is what became of
    it: told that it is accepted, the room is shut ([shut]: closed, its sessions revoked, its
    jobs cancelled, one job per surface queued); told an error, which is then one of the
    codes the contract knows, no table has changed. *)
Theorem deletion_arrives (PL : PostgresLaws) (DS : DeletionSchemas) cookie roomId p g g1 m r g' :
  (forall rid c, leaves_tables (evict rid c)) -> is_Some (parseRequest (confirmation roomId)) ->
  deleteRoomRoute srv (deletionRequest cookie roomId) = Some m ->
  serves fetch (roomRoute roomId "") (sendInit DELETE (confirmation roomId)) m ->
  ofRooms (Sessions.getSession cookie) g = (Ok p, g1) ->
  requestRoomDeletion fetch roomId g = (r, g') ->
  match r with
  | Ok j => exists t a jobId, p = Some (TeacherSession t a) /\ j = acceptedJson jobId /\ shut salt t roomId jobId g1 g'
  | Err e => exists code, e = GatewayError code /\ code ∈ API_ERROR_CODES /\ same_tables g1 g'
  end.
Proof.
  intros Hev Hreq Hm Hserves Hses Hr. destruct (delete_route_run PL _ _ _ _ _ _ Hev Hm Hses) as (a & ga & Hrun & Hans).
  unfold requestRoomDeletion, parseAs in Hr. rewrite (ds_request DS), bool_decide_true in Hr by done. cbn [okOption orInvalid] in Hr.
  erewrite bind_run in Hr by reflexivity.
  destruct Hans as [(answer & g2 & Hd & Ht & ->)|(e & [Hall Hc] & -> & Ht)].
  - apply (requestDeletion_shuts PL salt evict Hev) in Hd as (t & a & jobId & -> & -> & _ & Hs & _ & Hid).
    erewrite exchange_taken in Hr; [|exact Hserves|exact Hrun|done..|].
    + injection Hr as <- <-. exists t, a, jobId. split_and!; [done|done|]. by eapply shut_tables.
    + intros resp Hd. unfold readAs, jsonTree. rewrite (jsonBody_delivered _ _ _ Hd eq_refl eq_refl). cbn [mbind option_bind].
      by rewrite (ds_accepted DS), acceptedSchema_id.
  - erewrite exchange_refused in Hr; [|exact Hserves|exact Hrun|done|done|apply refused_noStore| |exact Hall|exact Hc].
    + injection Hr as <- <-. by exists (snd (sendError e)).
    + exact (allows_status DELETE_ALLOWLIST _ _ [202] eq_refl Hall).
Qed.
End Teacher.

(** A refusal of the agent's route that the browser does not understand: the server
    says 409, the browser knows this code under 403 only. *)
Lemma agent_disabled_unknown : agentRouteError (AgentError "AGENT_DISABLED") = (409, "AGENT_DISABLED"%string)
  /\ allows REQUEST_ALLOWLIST 409 "AGENT_DISABLED" = false /\ allows REQUEST_ALLOWLIST 403 "AGENT_DISABLED" = true.
Proof. by vm_compute. Qed.

(** ** The lesson over a network *)

#[export] Existing Instance SessionClient.coded_search.
(** An answer handed over in one piece. *)
Definition handed (r : reply) : Response :=
  MkResponse (rp_status r) (rp_type r) None (headerOf "Content-Disposition" r)
    (match rp_body r with BWire v => Some v | _ => None end)
    (match rp_body r with BText t => Some [Bytes (bytesOf t)] | _ => None end)
    (match rp_body r with BNone => Some EmptyString | _ => None end).
Lemma handed_delivers r : delivers r (handed r).
Proof.
  constructor; try done. unfold handed. cbn. destruct (rp_body r) as [v|t|]; cbn; [done| |done].
  constructor; cbn; [|by left]. exists [bytesOf t]. split; [done|]. cbn. apply app_nil_r.
Qed.
(** A network on which every request goes to one handler. *)
Definition fetchFrom (m : GV reply) (path : string) (init : RequestInit) (g : governed) : option Response * governed :=
  match m g with (Ok r, g') => (Some (handed r), g') | (Err _, g') => (None, g') end.
Lemma fetchFrom_serves m path init : serves (fetchFrom m) path init m.
Proof. intros g r g' Hr. exists (handed r). split; [|apply handed_delivers]. unfold fetchFrom. by rewrite Hr. Qed.

Definition lessonCookie : option string := Some "teacher-token"%string.
Definition exportHandler : GV reply := default (mret headConsume) (getExport (server lessonGiven) (exportRequest lessonCookie demoRoom json_format)).
Definition deletionHandler : GV reply := default (mret headConsume) (deleteRoomRoute (server lessonGiven) (deletionRequest lessonCookie demoRoom)).
Definition afterSession : governed := snd (ofRooms (Sessions.getSession lessonCookie) lessonGoverned).
Lemma lesson_session : ofRooms (Sessions.getSession lessonCookie) lessonGoverned = (Ok (Some demoTeacherPrincipal), afterSession).
Proof.
  unfold afterSession. assert (fst (ofRooms (Sessions.getSession lessonCookie) lessonGoverned) = Ok (Some demoTeacherPrincipal)) as <-
    by (vm_compute; reflexivity). by destruct (ofRooms _ _).
Qed.
Definition exportedLesson : result failure Export * governed :=
  Governance.exportRoom "salt" noLatest (Some demoTeacherPrincipal) demoRoom (queryJson (exportRequest lessonCookie demoRoom json_format)) afterSession.
Definition properCheck (t : string) : bool :=
  match Utf.decode (bytesOf t) with Some _ => true | None => false end
  && match stripBytes BYTE_ORDER_MARK (bytesOf t) with None => true | Some _ => false end.
Lemma properCheck_ok t : properCheck t = true -> properText t.
Proof. unfold properCheck, properText. destruct (Utf.decode _), (stripBytes _ _); try done. Qed.
Lemma exportedLesson_ok : match fst exportedLesson with
  | Ok e => properCheck (ex_body e) && bool_decide (ex_filename e = "learning-orbit-room-export.json"%string)
  | Err _ => false end = true.
Proof. vm_compute. reflexivity. Qed.
Lemma forallb_elem {A} (f : A -> bool) l : forallb f l = true -> forall x, x ∈ l -> f x = true.
Proof. rewrite forallb_forall. intros Hf x Hx. by apply Hf, list_elem_of_In. Qed.
Lemma afterSession_plain : plain_stored lessonGiven demoRoom afterSession.
Proof.
  assert (forallb (fun e => plainTree (ev_payload e)) (events (gv_db afterSession)) = true) as He by (vm_compute; reflexivity).
  constructor.
  - intros e Hin _. exact (forallb_elem _ _ He e Hin).
  - intros k h o h' _ Hk. discriminate Hk.
Qed.
Lemma export_arrives_witness :
  exists e g', exportedLesson = (Ok e, g') /\ ex_filename e = "learning-orbit-room-export.json"%string
    /\ Gateway.exportRoom (fetchFrom exportHandler) demoRoom json_format lessonGoverned
       = (Ok (MkExportFile (ex_body e) (ex_filename e) json_format), g')
    /\ exists x, faithful noLatest demoRoom afterSession x.
Proof.
  pose proof exportedLesson_ok as Hok. destruct exportedLesson as [[e|e] g'] eqn:Hr; [|discriminate Hok].
  apply andb_true_iff in Hok as [Hproper%properCheck_ok Hname%bool_decide_eq_true]. cbn [fst] in *. exists e, g'.
  assert (forall e', Ok (E:=failure) e = Ok e' -> properText (ex_body e')) as Hp by (intros e' He; injection He as <-; exact Hproper).
  unfold exportedLesson in Hr.
  destruct (export_arrives lessonGiven (fetchFrom exportHandler) concrete_postgres_laws coded_json_laws lessonCookie demoRoom json_format
    (Some demoTeacherPrincipal) lessonGoverned afterSession exportHandler (Ok e) g' noLatest_leaves afterSession_plain eq_refl (fetchFrom_serves _ _ _)
    lesson_session Hr Hp) as (Hx & _ & x & Hf & _).
  split; [exact eq_refl|]. split; [exact Hname|]. split; [exact Hx|]. exists x. exact Hf.
Defined.
Lemma deletion_schemas : DeletionSchemas.
Proof. by constructor. Qed.
Definition toldDeletion : result thrown json * governed := requestRoomDeletion (fetchFrom deletionHandler) demoRoom lessonGoverned.
Lemma toldDeletion_ok : match fst toldDeletion with Ok _ => true | Err _ => false end = true.
Proof. vm_compute. reflexivity. Qed.
Lemma lesson_confirmed : is_Some (parseRequest (confirmation demoRoom)).
Proof. eexists. vm_compute. reflexivity. Qed.
Lemma deletion_arrives_witness :
  exists jobId, shut "salt" demoTeacher demoRoom jobId afterSession (snd toldDeletion).
Proof.
  pose proof toldDeletion_ok as Hok. destruct toldDeletion as [[j|e] g'] eqn:Hr; [|done]. clear Hok. unfold toldDeletion in Hr.
  destruct (deletion_arrives lessonGiven (fetchFrom deletionHandler) concrete_postgres_laws deletion_schemas lessonCookie demoRoom
    (Some demoTeacherPrincipal) lessonGoverned afterSession deletionHandler (Ok j) g' noEvict_leaves lesson_confirmed eq_refl
    (fetchFrom_serves _ _ _) lesson_session Hr) as (t & a & jobId & Ht & _ & Hs).
  injection Ht as <- <-. exists jobId. exact Hs.
Defined.
