(* ===== verification/Recovery.v ===== *)
(** * Events over the network

    The pages of a room's ledger as a browser reads them after a loss of its socket
    ([getRoomEvents] of [Gateway]) are those of the ledger ([eventsAfter] of [Ledger]),
    through the server's route and its two authorizations; they are the pages that the
    recovery of [HydratedRoom] is proved for. *)
From S2P Require Import Prelude Text JsDate JsValue Contracts Database Concrete Ledger Authorization Frames ClientLedger Hydrated HydratedRoom Echo Trace SessionClient SeatCodes Sessions Rooms Attachments Messages JsNumber Exports Http Wire Routes ExportFile Governed Governance GovernanceLaws Coded Deletion Server Strangers Gateway Exchange.
#[local] Set Warnings "-register-all,-clear-no-such-hyp,-level-tolerance".

(** ** The ledger's page *)

Section Page.
Context `{Schemas} `{Postgres} `{Environment}.
Variable payloads : EventPayloadRegistry.

(** [E] are the events of the room, in order. *)
Record room_events (rid : string) (d : database) (E : list RoomEventEnvelope) : Prop := {
  re_numbered : roomSeqs rid (events d) = seqFrom 1 (length E);
  re_parsed : Forall2 (fun e c => parseStoredEvent payloads (e, outboxOf d e) = Ok c) (select_where (Ledger.ofRoom rid) (events d)) E;
}.
Lemma filter_numbered (l : list event_row) k n c : map ev_room_seq l = seqFrom (Z.of_nat k + 1) n -> (k <= c)%nat ->
  List.filter (fun e => Z.of_nat c <? ev_room_seq e) l = drop (c - k) l.
Proof.
  revert k n. induction l as [|e l IH]; intros k n Hl Hk; [by rewrite drop_nil|].
  destruct n as [|n]; [done|]. cbn [map seqFrom] in Hl. injection Hl as He Hl. cbn [List.filter].
  destruct (decide (c = k)) as [->|Hne].
  - rewrite Nat.sub_diag. replace (Z.of_nat k <? ev_room_seq e) with true by (symmetry; apply Z.ltb_lt; lia). cbn [drop]. f_equal.
    replace (Z.of_nat k + 1 + 1) with (Z.of_nat (S k) + 1) in Hl by lia. clear IH He. 
    assert (forall e', e' ∈ l -> Z.of_nat k <? ev_room_seq e' = true) as Hall.
    { intros e' He'. apply Z.ltb_lt. apply (list_elem_of_fmap_2 ev_room_seq) in He'. change (fmap ev_room_seq l) with (map ev_room_seq l) in He'.
      rewrite Hl in He'. apply seqFrom_elem in He'. lia. }
    clear Hl. induction l as [|e' l IH]; [done|]. cbn [List.filter]. rewrite Hall by left. f_equal. apply IH. intros. apply Hall. by right.
  - replace (Z.of_nat c <? ev_room_seq e) with false by (symmetry; apply Z.ltb_ge; lia).
    replace (c - k)%nat with (S (c - S k)) by lia. cbn [drop]. apply (IH (S k) n); [|lia].
    replace (Z.of_nat k + 1 + 1) with (Z.of_nat (S k) + 1) in Hl by lia. done.
Qed.
Lemma filter_filter {A} (p q : A -> bool) l : List.filter (fun x => p x && q x) l = List.filter q (List.filter p l).
Proof. induction l as [|x l IH]; [done|]. cbn. destruct (p x); cbn; [|done]. by rewrite IH. Qed.
Lemma seqFrom_after a n c : drop c (seqFrom a n) = seqFrom (a + Z.of_nat c) (n - c).
Proof.
  revert a n. induction c as [|c IH]; intros a n; [by rewrite drop_0, Nat.sub_0_r, Z.add_0_r|].
  destruct n as [|n]; [done|]. cbn [seqFrom drop]. rewrite IH. f_equal; lia.
Qed.
Lemma parse_rows d es cs w : Forall2 (fun e c => parseStoredEvent payloads (e, outboxOf d e) = Ok c) es cs ->
  mapM (M:=IO) (fun row => lift_result (parseStoredEvent payloads row)) (map (fun e => (e, outboxOf d e)) es) w = (Ok cs, w).
Proof.
  induction 1 as [|e c es cs Hc _ IH]; [done|]. cbn. erewrite bind_run by (unfold lift_result; by rewrite Hc).
  erewrite bind_run by exact IH. done.
Qed.
(** A page is the list of the events after the cursor, cut at the limit. *)
Lemma eventsAfter_drop rid E (c lim : nat) w : Ledger.canonical rid -> isUuid rid = true -> room_events rid (db w) E ->
  Z.of_nat c <= MAX_SAFE_INTEGER -> (1 <= lim <= 500)%nat ->
  eventsAfter payloads rid (NInt (Z.of_nat c)) (NInt (Z.of_nat lim)) w = (Ok (take lim (drop c E)), w).
Proof.
  intros Hcan Hu [Hnum Hall] Hc Hlim. unfold eventsAfter, asSafeInteger, MAX_SAFE_INTEGER in *. rewrite !decide_True by lia. rewrite Hu.
  replace (negb true || (Z.of_nat c <? 0) || (Z.of_nat lim <? 1) || (500 <? Z.of_nat lim)) with false
    by (symmetry; rewrite !orb_false_iff, !Z.ltb_ge; split_and!; done || lia).
  erewrite bind_run by reflexivity. unfold uuidParam. rewrite Hcan. erewrite bind_run by reflexivity. erewrite bind_run by reflexivity.
  unfold selectAfter. rewrite Nat2Z.id. unfold select_where at 1. rewrite filter_filter.
  change (List.filter (fun e => bool_decide (ev_room_id e = rid)) (events (db w))) with (select_where (Ledger.ofRoom rid) (events (db w))).
  rewrite (filter_numbered _ 0 (length E) c) by (done || lia). rewrite Nat.sub_0_r.
  rewrite (sort_by_id byRoomSeq).
  - apply (parse_rows (db w)). by apply Forall2_take, Forall2_drop.
  - apply (in_order_seqFrom ev_room_seq _ (1 + Z.of_nat c) (length E - c)).
    rewrite <- seqFrom_after, <- Hnum. unfold roomSeqs. by rewrite !firstn_map || by rewrite !skipn_map.
Qed.
End Page.

(** ** A page over the network *)

Definition pageAt (E : list RoomEventEnvelope) (c : nat) : RoomEventPage :=
  let l := take 500 (drop c E) in
  let through := Z.of_nat (c + length l) in
  Page l through (if (length l =? 500)%nat then Some through else None).
Lemma pageAt_pages E c : (c <= length E)%nat -> exists ps, pages_from E c (pageAt E c :: ps).
Proof.
  intros Hc. unfold pageAt. destruct (decide (length (drop c E) < 500)%nat) as [Hl|Hl].
  - exists []. rewrite take_ge by lia. rewrite length_drop in *. replace (length E - c =? 500)%nat with false by (symmetry; apply Nat.eqb_neq; lia).
    replace (c + (length E - c))%nat with (length E) by lia. by apply last_page.
  - exists [Page (drop (c + 500) E) (Z.of_nat (length E)) None]. rewrite length_take_le by lia. cbn [Nat.eqb].
    rewrite length_drop in Hl. apply (more_pages E c 500); [lia|lia|]. apply last_page. lia.
Qed.

Section Recovering.
Context `{Schemas} `{Postgres} `{Environment} `{Hmac} `{Random} `{RoomCodeSource} `{AttachmentValidator} `{Locale} `{JsonText} `{Sha1} `{Ajv} `{UrlSearch}.
Variable given : Given.
Variable fetch : string -> RequestInit -> governed -> option Response * governed.
Abbreviation srv := (server given).

(** The request for the events after a cursor, as the server reads it. *)
Definition eventsRequest (cookie : option string) (roomId : string) (c : nat) : Request :=
  MkRequest cookie roomId "" [("afterSeq"%string, One (dec_string (Z.of_nat c)))] (ReadBody None).
Definition eventsPath (roomId : string) (c : nat) : string :=
  roomRoute roomId ("/events" ++ suffixOf [("afterSeq"%string, queryText (Z.of_nat c))]).

Lemma room_events_facts rid d E : room_events (gi_payloads given) rid d E ->
  map roomSeq E = seqFrom 1 (length E) /\ Forall envelope_ok E.
Proof.
  intros [Hn Hp]. unfold roomSeqs in Hn. split.
  - rewrite <- Hn. clear Hn. induction Hp as [|e c es cs Hc _ IH]; [done|]. cbn. apply parseStoredEvent_ok in Hc as (_ & _ & _ & -> & _). by rewrite IH.
  - clear Hn. induction Hp as [|e c es cs Hc _ IH]; constructor; [|done]. by apply parseStoredEvent_ok in Hc as [Hc _].
Qed.
Lemma lastSeq_page E c : map roomSeq E = seqFrom 1 (length E) -> (c <= length E)%nat ->
  lastSeq (take 500 (drop c E)) (Z.of_nat c) = Z.of_nat (c + length (take 500 (drop c E))).
Proof.
  intros Hn Hc. unfold lastSeq. set (l := take 500 (drop c E)).
  assert (map roomSeq l = seqFrom (1 + Z.of_nat c) (length l)) as Hl.
  { unfold l. rewrite <- !firstn_map, <- skipn_map, Hn, seqFrom_after, seqFrom_take.
    rewrite length_take, length_drop. f_equal. lia. }
  destruct (last l) as [e|] eqn:He; [|by apply last_None in He as ->; rewrite Nat.add_0_r].
  apply last_Some in He as (l' & ->). rewrite length_app, map_app in Hl. cbn [length map] in Hl. rewrite Nat.add_1_r, seqFrom_snoc in Hl.
  apply app_inj_tail in Hl as [_ ->]. rewrite length_app. cbn. lia.
Qed.
Lemma pageAt_ok E c : map roomSeq E = seqFrom 1 (length E) -> Forall envelope_ok E -> page_ok (pageAt E c).
Proof.
  intros Hn Hok. unfold pageAt. constructor; cbn -[take].
  - by apply Forall_take, Forall_drop.
  - rewrite length_take. lia.
  - lia.
  - destruct (_ =? 500)%nat; [lia|done].
Qed.

(** What the route answers when it knows who asks. *)
Lemma events_route_run cookie roomId p sid pr actor final E c g g1 g2 g3 :
  Ledger.canonical roomId -> isUuid roomId = true ->
  ofRooms (Sessions.getSession cookie) g = (Ok (Some p), g1) ->
  ofAuth (authenticateToken cookie roomId) g1 = (Ok (Delivery sid pr actor), g2) ->
  ofAuth (reauthorize sid roomId) g2 = (Ok final, g3) ->
  room_events (gi_payloads given) roomId (gv_db g2) E -> Z.of_nat (length E) <= MAX_SAFE_INTEGER -> (c <= length E)%nat ->
  getEventsRoute srv (eventsRequest cookie roomId c) g =
    (Ok (noStore (match final with
                  | Delivery _ _ actor' => if bool_decide (actor' = actor) then sendJson 200 (pageJson (pageAt E c)) else refuse 404 "ROOM_NOT_FOUND"
                  | CloseWith _ => refuse 404 "ROOM_NOT_FOUND"
                  end)), g3).
Proof.
  intros Hcan Hu Hses Hauth Hfinal HE Hmax Hc. pose proof (room_events_facts _ _ _ HE) as [Hn Hok].
  unfold getEventsRoute, framework, try_catch. unfold sessionsGet, optionally. cbn [dp_sessions server].
  erewrite bind_run by exact Hses. cbn [dp_realtime server]. erewrite bind_run by exact Hauth. cbn [roomEventHttpAccessFailure dp_eventsAfter server].
  change (onlyQuery _ _) with true. change (queryNumber 500 _) with (Some 500).
  change (queryNumber 0 _) with (safeNumber (dec_string (Z.of_nat c))). rewrite safeNumber_dec by lia. cbn iota.
  replace ((Z.of_nat c <? 0) || (500 <? 1) || (500 <? 500)) with false by (symmetry; rewrite !orb_false_iff, !Z.ltb_ge; lia).
  assert (roomEventsAfter given roomId (Z.of_nat c) 500 g2 = (Ok (take 500 (drop c E)), g2)) as Hev.
  { unfold roomEventsAfter, ofRooms, inWorld. change 500 with (Z.of_nat 500).
    rewrite (eventsAfter_drop _ roomId E c 500) by (done || lia). by destruct g2. }
  erewrite bind_run by exact Hev. erewrite bind_run by exact Hfinal.
  destruct final as [sid' pr' actor'|code]; [|done]. destruct (bool_decide (actor' = actor)); [|done]. cbn [negb].
  rewrite lastSeq_page by done.
  replace (Z.of_nat (length (take 500 (drop c E))) =? 500) with ((length (take 500 (drop c E)) =? 500)%nat).
  2:{ apply Bool.eq_iff_eq_true. rewrite Nat.eqb_eq, Z.eqb_eq. lia. }
  change (Page _ _ _) with (pageAt E c). rewrite readPage_pageJson by (by apply pageAt_ok). done.
Qed.

(** *** The tables are only read *)

Definition keeps {A} (m : AM A) : Prop := forall w, db (snd (m w)) = db w.
Lemma keeps_bind {A B} (m : AM A) (f : A -> AM B) : keeps m -> (forall a, keeps (f a)) -> keeps (m ≫= f).
Proof.
  intros Hm Hf w. unfold mbind, M_bind. specialize (Hm w). destruct (m w) as [[a|e] w1]; cbn in Hm; [|done]. by rewrite (Hf a w1).
Qed.
Lemma keeps_statement {A} c (f : Z -> database -> A) : keeps (statement c f).
Proof. intros w. rewrite statement_run. apply after_db. Qed.
Lemma keeps_uuidOf t : keeps (uuidOf t).
Proof. intros w. unfold uuidOf. by destruct (uuid_in t). Qed.
Lemma keeps_deliver rid row : keeps (deliver rid row).
Proof.
  unfold deliver. repeat case_match; try by intros w. all: apply keeps_bind; [intros w|by intros q w].
  all: unfold parseSession; by case_match.
Qed.
Lemma keeps_authenticate t rid : keeps (authenticateToken t rid).
Proof.
  unfold authenticateToken, authenticateWith. destruct t as [[|a t]|]; try done. destruct (512 <? _); [done|].
  apply keeps_bind; [apply keeps_uuidOf|]. intros u. apply keeps_bind; [apply keeps_statement|]. intros [|row rows]; [done|].
  destruct (id_deletion_active row); [done|]. apply keeps_deliver.
Qed.
Lemma keeps_reauthorize sid rid : keeps (reauthorize sid rid).
Proof.
  unfold reauthorize. apply keeps_bind; [apply keeps_uuidOf|]. intros u. apply keeps_bind; [apply keeps_statement|]. intros [|s live]; [done|].
  apply keeps_bind; [apply keeps_uuidOf|]. intros u'. apply keeps_bind; [apply keeps_statement|]. intros [|row rows]; [done|].
  destruct (id_deletion_active row); [done|]. apply keeps_deliver.
Qed.
Lemma keeps_getSession t w : db (snd (Sessions.getSession t w)) = db w.
Proof.
  unfold Sessions.getSession. destruct (tokenOf t); [|done]. unfold poolStatement. erewrite bind_run by reflexivity.
  case_match; [|done]. unfold throw_if. by destruct (negb _).
Qed.
Lemma ofAuth_tables {A} (m : AM A) g a g' : keeps m -> ofAuth m g = (Ok a, g') -> same_tables g g'.
Proof. intros Hk. unfold ofAuth, inWorld. specialize (Hk (gv_world g)). destruct (m _) as [[x|e] w]; [|done]. intros [= _ <-]. done. Qed.
Lemma ofSession_tables t g p g' : ofRooms (Sessions.getSession t) g = (Ok p, g') -> same_tables g g'.
Proof. unfold ofRooms, inWorld. pose proof (keeps_getSession t (gv_world g)) as Hk. destruct (Sessions.getSession _ _) as [[x|e] w]; [|done]. by intros [= _ <-]. Qed.

(** *** One page after another *)

(** Each of the next requests is let through: by the session, and by both authorizations
    around the reading of the ledger. *)
Fixpoint admitted (cookie : option string) (roomId : string) (n : nat) (g : governed) : Prop :=
  match n with
  | O => True
  | S n => exists p g1 sid pr actor g2 sid' pr' g3,
      ofRooms (Sessions.getSession cookie) g = (Ok (Some p), g1)
      /\ ofAuth (authenticateToken cookie roomId) g1 = (Ok (Delivery sid pr actor), g2)
      /\ ofAuth (reauthorize sid roomId) g2 = (Ok (Delivery sid' pr' actor), g3)
      /\ admitted cookie roomId n g3
  end.
(** The same, decided by a run. *)
Fixpoint admittedCheck (cookie : option string) (roomId : string) (n : nat) (g : governed) : bool :=
  match n with
  | O => true
  | S n =>
      match ofRooms (Sessions.getSession cookie) g with
      | (Ok (Some _), g1) =>
          match ofAuth (authenticateToken cookie roomId) g1 with
          | (Ok (Delivery sid _ actor), g2) =>
              match ofAuth (reauthorize sid roomId) g2 with
              | (Ok (Delivery _ _ actor'), g3) => bool_decide (actor' = actor) && admittedCheck cookie roomId n g3
              | _ => false
              end
          | _ => false
          end
      | _ => false
      end
  end.
Lemma admittedCheck_ok cookie roomId n g : admittedCheck cookie roomId n g = true -> admitted cookie roomId n g.
Proof.
  revert g. induction n as [|n IH]; intros g; [done|]. cbn [admittedCheck admitted].
  destruct (ofRooms _ g) as [[[p|]|e] g1] eqn:Hs; try done. destruct (ofAuth _ g1) as [[[sid pr actor|code]|e] g2] eqn:Ha; try done.
  destruct (ofAuth _ g2) as [[[sid' pr' actor'|code]|e] g3] eqn:Hf; try done. intros Hb. split_bools. subst.
  exists p, g1, sid, pr, actor, g2, sid', pr', g3. split_and!; try done. by apply IH.
Qed.
(** The browser asks for the page at its cursor, then at the [nextAfterSeq] of each page. *)
Fixpoint readPages (roomId : string) (fuel : nat) (after : Z) : M governed thrown (list RoomEventPage) :=
  match fuel with
  | O => throw (Thrown "RECOVERY_PAGE_LIMIT")
  | S fuel =>
      page ← getRoomEvents fetch roomId (NInt after) None;
      match pg_nextAfterSeq page with
      | None => mret [page]
      | Some next => rest ← readPages roomId fuel next; mret (page :: rest)
      end
  end.
Definition servedRoom (cookie : option string) (roomId : string) (E : list RoomEventEnvelope) : Prop :=
  forall c, (c <= length E)%nat -> serves fetch (eventsPath roomId c) getInit (getEventsRoute srv (eventsRequest cookie roomId c)).

Lemma getRoomEvents_page cookie roomId E n c g : Ledger.canonical roomId -> isUuid roomId = true -> servedRoom cookie roomId E ->
  room_events (gi_payloads given) roomId (gv_db g) E -> Z.of_nat (length E) <= MAX_SAFE_INTEGER -> (c <= length E)%nat ->
  admitted cookie roomId (S n) g ->
  exists g', getRoomEvents fetch roomId (NInt (Z.of_nat c)) None g = (Ok (pageAt E c), g') /\ same_tables g g' /\ admitted cookie roomId n g'.
Proof.
  intros Hcan Hu Hserved HE Hmax Hc (p & g1 & sid & pr & actor & g2 & sid' & pr' & g3 & Hs & Ha & Hf & Hnext).
  pose proof (ofSession_tables _ _ _ _ Hs) as T1. pose proof (ofAuth_tables _ _ _ _ (keeps_authenticate _ _) Ha) as T2.
  pose proof (ofAuth_tables _ _ _ _ (keeps_reauthorize _ _) Hf) as T3. exists g3. split; [|split; [by etrans; [|etrans]|done]].
  pose proof (room_events_facts _ _ _ HE) as [Hn Hok].
  assert (room_events (gi_payloads given) roomId (gv_db g2) E) as HE2.
  { destruct T1 as [T1 _], T2 as [T2 _]. by rewrite T2, T1. }
  pose proof (events_route_run _ _ _ _ _ _ _ _ _ _ _ _ _ Hcan Hu Hs Ha Hf HE2 Hmax Hc) as Hrun. cbn beta iota in Hrun.
  rewrite bool_decide_true in Hrun by done.
  unfold getRoomEvents, roomEvents, safeFrom, asSafeInteger. unfold MAX_SAFE_INTEGER in *. rewrite !decide_True by lia.
  replace ((0 <=? Z.of_nat c) && (Z.of_nat c <=? 9007199254740991)) with true by (symmetry; apply andb_true_iff; rewrite !Z.leb_le; lia).
  erewrite bind_run by reflexivity. eapply exchange_taken; [by apply Hserved|exact Hrun|done..|].
  intros resp Hd. unfold jsonTree. rewrite (jsonBody_delivered _ _ _ Hd eq_refl eq_refl). cbn [mbind option_bind].
  apply readPage_pageJson. by apply pageAt_ok.
Qed.
Definition pagesNeeded (E : list RoomEventEnvelope) (c : nat) : nat := S ((length E - c) / 500).
Lemma readPages_all cookie roomId E : Ledger.canonical roomId -> isUuid roomId = true -> servedRoom cookie roomId E ->
  Z.of_nat (length E) <= MAX_SAFE_INTEGER -> forall n c g, (c <= length E)%nat -> pagesNeeded E c = n ->
  room_events (gi_payloads given) roomId (gv_db g) E -> admitted cookie roomId n g ->
  exists ps g', readPages roomId n (Z.of_nat c) g = (Ok ps, g') /\ pages_from E c ps
    /\ concat (map pg_events ps) = drop c E /\ length ps = n /\ same_tables g g'.
Proof.
  intros Hcan Hu Hserved Hmax. induction n as [|n IH]; intros c g Hc Hn HE Hadm; [done|].
  destruct (getRoomEvents_page _ _ _ _ _ _ Hcan Hu Hserved HE Hmax Hc Hadm) as (g1 & Hpage & Ht & Hadm').
  cbn [readPages]. erewrite bind_run by exact Hpage. unfold pagesNeeded in Hn.
  destruct (decide (length E - c < 500)%nat) as [Hfew|Hmany].
  - assert (pageAt E c = Page (drop c E) (Z.of_nat (length E)) None) as ->.
    { unfold pageAt. rewrite take_ge, length_drop by (rewrite length_drop; lia).
      replace (length E - c =? 500)%nat with false by (symmetry; apply Nat.eqb_neq; lia). f_equal. lia. }
    cbn [pg_nextAfterSeq]. exists [Page (drop c E) (Z.of_nat (length E)) None], g1. rewrite Nat.div_small in Hn by done.
    split_and!; [done|by apply last_page|by cbn; rewrite app_nil_r|done|done].
  - assert (pageAt E c = Page (take 500 (drop c E)) (Z.of_nat (c + 500)) (Some (Z.of_nat (c + 500)))) as ->.
    { unfold pageAt. rewrite length_take_le by (rewrite length_drop; lia). done. }
    cbn [pg_nextAfterSeq].
    destruct (IH (c + 500)%nat g1) as (ps & g' & Hr & Hps & Hev & Hlen & Ht'); [lia| |by destruct Ht as [-> _]|done|].
    { unfold pagesNeeded. assert ((length E - c) / 500 = n)%nat as <- by lia.
      replace (length E - c)%nat with (length E - (c + 500) + 1 * 500)%nat by lia. rewrite Nat.div_add by lia. lia. }
    erewrite bind_run by exact Hr. eexists _, g'. split; [reflexivity|]. split_and!; [|cbn; rewrite Hev|cbn; lia|by etrans].
    + apply more_pages; [lia|lia|done].
    + assert (drop (c + 500) E = drop 500 (drop c E)) as -> by (rewrite drop_drop; f_equal; lia). apply take_drop.
Qed.

(** C11. A browser that lost its socket reads exactly what it missed. From a cursor in the
    room's ledger it asks for one page after another, each over the network from the
    server's route, which reads the ledger between two authorizations; as long as each
    request is let through, the pages it gets are those its recovery is made for, their
    events are the events of the ledger after the cursor in order, each once, they are as
    many as five hundred events a page need, and no table is changed by it. *)
Theorem recovery_reads_the_ledger cookie roomId E c g :
  Ledger.canonical roomId -> isUuid roomId = true -> servedRoom cookie roomId E ->
  room_events (gi_payloads given) roomId (gv_db g) E -> Z.of_nat (length E) <= MAX_SAFE_INTEGER -> (c <= length E)%nat ->
  admitted cookie roomId (pagesNeeded E c) g ->
  exists ps g', readPages roomId (pagesNeeded E c) (Z.of_nat c) g = (Ok ps, g') /\ pages_from E c ps
    /\ concat (map pg_events ps) = drop c E /\ length ps = pagesNeeded E c /\ same_tables g g'.
Proof. intros. by eapply readPages_all. Qed.
End Recovering.

(** ** A student of the lesson reads what was missed *)

Definition studentCookie : option string := Some "student-token"%string.
Definition storedIn (d : database) (e : event_row) : option RoomEventEnvelope :=
  match parseStoredEvent corePayloadNames (e, outboxOf d e) with Ok c => Some c | Err _ => None end.
Lemma stored_all d l : forallb (fun e => match storedIn d e with Some _ => true | None => false end) l = true ->
  Forall2 (fun e c => parseStoredEvent corePayloadNames (e, outboxOf d e) = Ok c) l (omap (storedIn d) l).
Proof.
  induction l as [|e l IH]; [constructor|]. cbn [forallb omap list_omap]. unfold storedIn at 1 3.
  destruct (parseStoredEvent corePayloadNames (e, outboxOf d e)) as [c|] eqn:Hc; [|done]. intros Hl. constructor; [exact Hc|exact (IH Hl)].
Qed.
Definition lessonRows : list event_row := select_where (Ledger.ofRoom demoRoom) (events (gv_db lessonGoverned)).
Definition lessonEvents : list RoomEventEnvelope := omap (storedIn (gv_db lessonGoverned)) lessonRows.
Lemma lesson_events : room_events corePayloadNames demoRoom (gv_db lessonGoverned) lessonEvents.
Proof. constructor; [vm_compute; reflexivity|]. apply stored_all. vm_compute. reflexivity. Qed.
(** The network finds the cursor in the path. *)
Definition lessonFetch (path : string) (init : RequestInit) (g : governed) : option Response * governed :=
  match find (fun c => bool_decide (path = eventsPath demoRoom c)) (seq 0 5) with
  | Some c => fetchFrom (getEventsRoute (server lessonGiven) (eventsRequest studentCookie demoRoom c)) path init g
  | None => (None, g)
  end.
Lemma lesson_served : servedRoom lessonGiven lessonFetch studentCookie demoRoom lessonEvents.
Proof.
  intros c Hc. assert (length lessonEvents = 4)%nat as Hn by (vm_compute; reflexivity). rewrite Hn in Hc.
  assert (find (fun c' => bool_decide (eventsPath demoRoom c = eventsPath demoRoom c')) (seq 0 5) = Some c) as Hf
    by (do 5 (destruct c as [|c]; [vm_compute; reflexivity|]); lia).
  intros g r g' Hr. unfold lessonFetch. rewrite Hf. by apply fetchFrom_serves.
Qed.
Lemma lesson_admitted : admitted studentCookie demoRoom 1 lessonGoverned.
Proof. apply admittedCheck_ok. vm_compute. reflexivity. Qed.
Lemma recovery_reads_the_ledger_witness :
  length lessonEvents = 4%nat /\
  exists ps g', readPages lessonFetch demoRoom 1 1 lessonGoverned = (Ok ps, g') /\ concat (map pg_events ps) = drop 1 lessonEvents.
Proof.
  split; [vm_compute; reflexivity|].
  assert (length lessonEvents = 4)%nat as Hn by (vm_compute; reflexivity).
  assert (pagesNeeded lessonEvents 1 = 1)%nat as Hp by (unfold pagesNeeded; rewrite Hn; reflexivity).
  destruct (recovery_reads_the_ledger lessonGiven lessonFetch studentCookie demoRoom lessonEvents 1 lessonGoverned) as (ps & g' & Hr & _ & Hc & _);
    rewrite ?Hp in *; [reflexivity|reflexivity|exact lesson_served|exact lesson_events|rewrite Hn; unfold MAX_SAFE_INTEGER; lia|lia|exact lesson_admitted|].
  exists ps, g'. exact (conj Hr Hc).
Defined.
